(* ===== verification/_CoqProject ===== *)
-Q . S2P
Prelude.v
Queue.v
ArrayList.v
CString.v
ReadBuf.v
WriteBuf.v
State.v
Options.v
Request.v
UnixOS.v
CpuLimitUnix.v
ServerUnix.v
ServerPoll.v
ServerAbs.v
ServerInv.v
ServerNet.v
ServerHandlers.v
ServerProcs.v
ServerMsgs.v
ServerLoop.v
ServerMain.v
ServerInit.v
UnixToy.v
ServerTheorems.v
ServerChild.v
WinOS.v
CmdLine.v
ServerWin.v
ServerWinThm.v
CpuLimitWin.v
UInt64.v
Primes.v
Double.v
MersenneTwister.v
Mpn.v
MpnMem.v
MpnThm.v
MpnBits.v
MpnCorrect.v
MpnDiv.v
MpnInv.v
MpnDivThm.v
MpnDivPi1.v
MpnDivQr.v
MpnPreinv.v
MpnStr.v
MpnStrThm.v
MpnSetStr.v
Mpz.v
GmpAlloc.v
MpzDouble.v
MpzRep.v
MpzLocals.v
MpzArith.v
MpzMul.v
MpzDiv.v
MpzConv.v
MpzQuo.v
MpzQuoThm.v
MpzBits.v
MpzNum.v
MpzNumThm.v
MpzFrame.v
MpzStr.v
MpzIO.v
MpzPow.v
MpzBitsThm.v
MpzBitThm.v
MpzCount.v
MpzScan.v
MpzStrThm.v
MpzIOThm.v
MpzRoot.v
MpzGcdext.v
MpzPowm.v
MpzCorrect.v
MpzTheorems.v
MpzPrime.v
MpzIOTheorems.v
MpzDoubleThm.v
