(* ===== verification/Prelude.v ===== *)
(** * A verification development for the C programs of Why3

    Why3 itself is written in OCaml.  The C code of its repository consists of three
    groups of programs, all of which are modelled here: the proof server, which runs the
    provers for the Why3 tools; the program [why3cpulimit], with which the server runs
    one prover under a limit of time and memory; and the C part of the multiprecision
    library of the examples: the primitives of the extracted code, a random generator,
    and mini-gmp, the reference implementation.

    ** The parts of the program and the files that model them

    All paths are relative to the root of the repository.

    - Common: this file ([outcome], machine integers, arrays with uninitialised cells,
      the allocator as the class [Libc]), [CString] (C strings, [strtol]-like reading and
      the [printf] formats that occur), [State] (the state and error monad [M], its weakest
      preconditions [wp], and the state that both servers share).
    - src/server/queue.c, the ring buffer: [Queue].  [queue_rep] relates the struct to a list.
    - src/server/arraylist.c, lists with keys: [ArrayList].  [list_rep] relates the two
      arrays to an association list, and so to a finite map.
    - src/server/readbuf.c and writebuf.c, the buffers of a client: [ReadBuf], [WriteBuf].
    - src/server/options.c and logging.c: [Options].  The answers of [getopt_long] are an
      argument.
    - src/server/request.c, the requests of a client and their queue: [Request].
    - src/server/server-unix.c and proc.c, the server on Unix.  [UnixOS] is the interface of
      the system calls; [ServerUnix] has all the functions; [ServerPoll] the list for [poll];
      [ServerAbs] an abstract server (clients, requests, processes) and its transitions;
      [ServerInv], [ServerNet] the invariant that relates both, and the ways in which the
      program may stop ([ending]); [ServerHandlers], [ServerProcs], [ServerMsgs],
      [ServerLoop], [ServerMain], [ServerInit] show function by function, up to [main], that
      the C program keeps the invariant and makes transitions of the abstract server, which
      the record of the system calls determines ([ServerMsgs] replays it: [unread] is what a
      client sent and is not yet a line, [limits] the parallel requests that arrived); [UnixToy] is a small operating system, which
      shows that the laws can hold; [ServerTheorems] and [ServerChild] have the results.
    - src/server/server-win.c, the server on Windows: [WinOS] (the system calls), [CmdLine]
      (the command line of a new process), [ServerWin] (all the functions) and
      [ServerWinThm].
    - src/server/cpulimit-unix.c and cpulimit-win.c: [CpuLimitUnix], [CpuLimitWin].
    - examples/multiprecision/overlays/uint64gmp.h: [UInt64].
    - examples/multiprecision/random/mt19937-64.c: [MersenneTwister].
    - examples/multiprecision/mini-gmp/mini-gmp.c, arrays of limbs ([mpn]): [Mpn] (limbs,
      copying, comparison, sums, products, shifts, bit scans), [MpnDiv] (reciprocals and
      division), [MpnStr] (digits) are the definitions.  [MpnMem] explains the memory (cells,
      [holds], which overlaps are harmless) and the value of an array; [MpnThm], [MpnBits],
      [MpnInv], [MpnDivThm], [MpnDivPi1], [MpnPreinv], [MpnStrThm] are the proofs,
      [MpnCorrect], [MpnDivQr], [MpnSetStr] state what the functions promise.
    - The same file, integers ([mpz]): [Mpz] (memory, assignment, comparison, arithmetic,
      division), [MpzQuo] (division by words and powers of two), [MpzBits] (bits),
      [MpzNum] (divisors, powers, roots, primality), [MpzStr] (strings), [MpzDouble]
      (conversions from and to [double] and comparisons, over the binary64 numbers of
      [Double]), [MpzIO] (import, export, output to a stream) and [GmpAlloc] (the functions
      through which all memory comes, and their setting) are the definitions.  [MpzRep]
      explains the representation ([zok]: which blocks belong to which variable and what
      number they hold), [MpzLocals] functions with many local integers, [MpzFrame] which
      variables a function leaves alone.  The proofs are in [MpzArith], [MpzMul], [MpzDiv],
      [MpzConv], [MpzQuoThm], [MpzNumThm] (divisors and multiples), [MpzPow] (powers,
      factorials, binomial coefficients), [MpzBitsThm], [MpzBitThm], [MpzCount], [MpzScan]
      (bits), [MpzStrThm], [MpzIOThm], [MpzRoot], [MpzGcdext], [MpzPowm] and, with the facts
      on prime numbers of [Primes], [MpzPrime]; [MpzCorrect], [MpzTheorems],
      [MpzIOTheorems], [MpzDoubleThm] and [MpzPrime] state the results.

    ** How the code is modelled

    A C function is a Rocq function with the same name.  It returns an [outcome]: a result,
    or the reason why the program ends or has no defined behaviour ([cerror]): access outside
    of an array or to memory that is not live, use of an uninitialised value, signed
    overflow, a failed assertion, memory that is refused where the code does not check,
    [exit], a signal.  State is passed by the monad [M]; pointers that may be equal or overlap
    are addresses in an explicit store (the strings and requests of the server, the limbs and
    the structs of mini-gmp).  Integers are [Z] with the wrap-around of their C type
    written out.

    What is not in the repository is a parameter: the operating system (classes [UnixOS],
    [CpuOS], [WinOS], [JobOS], each a function from system calls and a world to answers), how
    much the allocator grants ([Libc] for the servers, [Malloc] for mini-gmp), the world in
    which the Unix server is started ([Start]), the stream of [mpz_out_str] ([Stdio]), and
    the byte order of the machine (the argument [little] of import and export).  What the documentation of the system promises are the classes
    [UnixOSLaws], [CpuOSLaws]; theorems that need them take them as arguments, and [UnixToy]
    and the witnesses have instances.

    Loops.  Loops over arrays are structural recursion over the number of elements left.
    The event loop of the servers takes the number of iterations as an argument, and the
    theorems hold for every number.  The other loops take fuel that suffices, and the
    theorems show that it does: [gmp_clz] 7 for the bytes and 7 for the bits of a limb, a
    scan for a bit the number of limbs before the one that has it, [mpn_get_base_info] 64
    powers (the base is at least 2), [mpn_limb_get_str] 64 digits, [mpn_get_str_other] twice
    the number of limbs, decimal printing the number of binary digits, [mpn_gcd_11] 128
    rounds, [mpz_gcd] 64 rounds for each limb of its operands, [mpz_pow_ui] the 64 bits of
    the exponent, [mpz_sizeinbase] 64 digits for each limb, the count of the ones of a limb
    4 fields of 16 bits, the scaling of a double 16 steps of 64 bits, the highest limb of an
    exported number 8 bytes.  The roots take their rounds as an argument, and the theorem
    holds for every number above 64 for each limb plus the degree (Newton's iteration from
    above).

    ** What the theorems show

    - The server on Unix ([ServerTheorems]): whatever clients, provers and the operating
      system do, failing calls included, the server runs through any number of iterations
      or stops in one of the ways of [ending]: [exit], refused memory, calls that are
      interrupted for ever, and three defects, each with what makes it possible (a null
      pointer where [getcwd] can fail; a failed assertion where a [write] can fail or
      [poll] can report an odd event of a listener; [memcpy] on overlapping regions where a
      client can send in one chunk a tail that is longer than its lines).  No other
      undefined behaviour occurs.  What is handled are the lines in the answers of [read],
      in order; poll asks for output exactly while something is to be sent; the limit on
      provers is that of [-j] and of the parallel requests that arrived, never more run,
      and no slot is free while a request waits; exactly the terminated provers that
      [wait3] gives are reported to their clients.  The components below it: the queue refines a FIFO list, the list with
      keys a finite map, the write buffer a stream of bytes; parsing inverts printing.
    - The server on Windows ([ServerWinThm], [CmdLine]): the bytes given to [WriteFile]
      form a stream, reports of terminated provers while their client is connected (and
      that nothing happens otherwise), quoting of the command line and its inverse.
    - [why3cpulimit]: the child sets the limits and then executes the command, in this
      order; the parent forwards how it ended, by the same exit code or the same signal; on
      Windows the command never runs outside of its job.
    - [UInt64], [MersenneTwister]: the double-word division, the stream of the
      generator against its recurrence.
    - mini-gmp, arrays of limbs: sums, differences, products, shifts, bit scans,
      division with reciprocals and the base conversions compute the value they should,
      for every overlap the callers use, write nothing but their result, and release their
      temporary memory.
    - mini-gmp, integers ([MpzCorrect]): programs of [mpz] calls refine programs over the
      integers, with any aliasing of the arguments and without a leak, and keep all structs
      well formed; the division with its roundings; comparison; conversion from and to
      [long]; division by zero.  [MpzTheorems]: greatest common divisors and their
      cofactors, inverses and powers modulo a number, roots with their remainders, bit
      operations, scans and counts on two's complement numbers of unlimited length, the way
      of numbers to strings and back, and what happens to strings that are not numbers.
      [MpzPrime]: the primality test never rejects a prime, decides small numbers, and is
      the strong test for its bases otherwise.  [MpzIOTheorems]: import reads words of any
      size and order, and inverts export; output to a stream.  [MpzDoubleThm]: truncation of
      doubles, their way to integers and back, and exact comparison.
    - Defects: a few theorems and lemmas show where the code does not do what it should (an
      answer for a client that has gone is sent to the next one with the same descriptor, an
      array of the Windows server is overrun after the request to use more provers,
      [memcpy] between overlapping regions, which is an error of the model as it is undefined
      in C, and others).

    ** What is not modelled, and why

    - The signal handler of the Unix server is modelled, but not interleaved with the main
      loop, on which it acts only through the pipe that the loop polls.
    - The allocations of strings and requests in request.c, whose result the code does not
      check, are granted; the arrays of the servers are granted up to [alloc_max] elements.
    - [ErrorReport] of cpulimit-win.c only prints a message of the system.
    - In mini-gmp the allocator never refuses memory (the code prints a message and aborts)
      and [realloc] always moves the block.
    - mini-gmp, integers: the theorem on [mpz_get_d] is for integers that are doubles, not
      for the rounding of the others.  The pointers of import and export are checked where
      they are used, not when they are computed past the ends of the array.
    - tests.c, wmp.h of the multiprecision library (a test driver; prototypes of code that
      Why3 generates when the library is built), resetgc.c (one call of the OCaml
      runtime), and the C files that are inputs of the tools (tests/, plugins/microc). *)

From stdpp Require Export base list gmap strings.
From Stdlib Require Export ZArith Lia.
Open Scope Z_scope.

(** ** Outcomes of C code

    Every definition that models a C function returns an [outcome]: a value,
    or the reason why the C program has no (further) defined behaviour.
    [Exited] is a regular call to [exit]/[abort]-free termination; all other
    constructors are undefined behaviour, a failed [assert], or the fuel of a
    loop that the model bounds. *)
Inductive cerror :=
  | OutOfBounds        (** access outside an allocated array *)
  | NullDeref          (** access through a null pointer *)
  | DanglingPtr        (** access to or [free] of an object that is not live *)
  | Indeterminate      (** use of an uninitialised cell *)
  | SignedOverflow     (** signed arithmetic out of range *)
  | DivisionByZero
  | BadConversion      (** a floating point number that does not fit into an integer type *)
  | BadShift           (** a shift by a count that is negative or not below the width *)
  | OverlappingCopy    (** [memcpy] between overlapping regions *)
  | AssertFailed
  | OutOfMemory        (** an unchecked [malloc] or [realloc] that is refused *)
  | Exited (code : Z) (msg : string)
  | ExecReplaced       (** the process image was replaced by [execvp] *)
  | Killed (sig : Z)   (** the process was terminated by a signal *)
  | StillInterrupted   (** a system call kept failing with EINTR *)
  | OutOfFuel.

Inductive outcome (A : Type) :=
  | Ok (a : A)
  | Err (e : cerror).
Arguments Ok {A} a.
Arguments Err {A} e.

#[export] Instance cerror_eq_dec : EqDecision cerror.
Proof. solve_decision. Defined.
#[export] Instance outcome_eq_dec {A} `{EqDecision A} : EqDecision (outcome A).
Proof. solve_decision. Defined.

#[export] Instance outcome_ret : MRet outcome := @Ok.
#[export] Instance outcome_bind : MBind outcome := λ A B f m,
  match m with Ok a => f a | Err e => Err e end.
#[export] Instance outcome_fmap : FMap outcome := λ A B f m,
  match m with Ok a => Ok (f a) | Err e => Err e end.

(** [assert(b)] *)
Definition c_assert (b : bool) : outcome unit :=
  if b then Ok tt else Err AssertFailed.

(** The call gives a result satisfying [P], or is refused memory. *)
Definition oom_or {A} (m : outcome A) (P : A → Prop) : Prop :=
  match m with Ok a => P a | Err e => e = OutOfMemory end.

(** ** Machine integers

    [int] is 32 bits with overflow undefined; [unsigned int] is 32 bits and
    [size_t] 64 bits, both modulo. *)
Definition INT_MAX : Z := 2147483647.
Definition INT_MIN : Z := -2147483648.
Definition UINT_MOD : Z := 4294967296.
Definition SIZE_MOD : Z := 18446744073709551616.

Definition int_range (z : Z) : bool := (INT_MIN <=? z) && (z <=? INT_MAX).
(** The result of a signed [int] operation. *)
Definition int_of (z : Z) : outcome Z :=
  if int_range z then Ok z else Err SignedOverflow.
(** Conversion to [int] (modulo, as every supported compiler does). *)
Definition cast_int (z : Z) : Z :=
  (z + 2147483648) mod 4294967296 - 2147483648.
Definition uint (z : Z) : Z := z mod UINT_MOD.
Definition size_t (z : Z) : Z := z mod SIZE_MOD.

(** [a % b] on unsigned operands *)
Definition umod (a b : Z) : outcome Z :=
  if b =? 0 then Err DivisionByZero else Ok (a mod b).

(** ** Arrays

    A block of [malloc]ed memory holding elements of one type: the cells that
    were never written are [None]. *)
Abbreviation arr A := (list (option A)).

Section arrays.
Context {A : Type}.
Implicit Types a : arr A.

Definition arr_len a : Z := Z.of_nat (length a).
Definition arr_in a (i : Z) : bool := (0 <=? i) && (i <? arr_len a).

Definition arr_new (n : Z) : arr A := replicate (Z.to_nat n) None.

Definition arr_get a (i : Z) : outcome A :=
  if arr_in a i then
    match a !! Z.to_nat i with
    | Some (Some x) => Ok x
    | _ => Err Indeterminate
    end
  else Err OutOfBounds.

Definition arr_set a (i : Z) (x : A) : outcome (arr A) :=
  if arr_in a i then Ok (<[Z.to_nat i := Some x]> a) else Err OutOfBounds.

(** [realloc]: keeps the common prefix, the rest is uninitialised *)
Definition arr_realloc a (n : Z) : arr A :=
  take (Z.to_nat n) a ++ replicate (Z.to_nat n - length a) None.

(** The effect of [memmove]: the source is read before anything is written. *)
Definition arr_move a (dst src n : Z) : arr A :=
  list_inserts (Z.to_nat dst) (take (Z.to_nat n) (drop (Z.to_nat src) a)) a.
End arrays.

(** ** The C library

    The number of elements the allocator grants for one array is a parameter of
    the model: the programs do not check the result of [malloc] and [realloc],
    and an allocation that is refused is the outcome [OutOfMemory]. *)
Class Libc := {
  alloc_max : Z;
  alloc_max_range : 0 < alloc_max < 1073741824
}.

Definition c_malloc `{Libc} {A} (n : Z) : outcome (arr A) :=
  if n <=? alloc_max then Ok (arr_new n) else Err OutOfMemory.
Definition c_realloc `{Libc} {A} (a : arr A) (n : Z) : outcome (arr A) :=
  if n <=? alloc_max then Ok (arr_realloc a n) else Err OutOfMemory.

(** [memcpy(a + dst, a + src, n)] inside one array (sizes in elements).  Between
    overlapping regions it is undefined in the C standard, an error here. *)
Definition arr_memcpy {A} (a : arr A) (dst src n : Z) : outcome (arr A) :=
  if (0 <=? dst) && (0 <=? src) && (0 <=? n)
     && (dst + n <=? arr_len a) && (src + n <=? arr_len a)
  then if (n =? 0) || (n <=? Z.abs (dst - src)) then Ok (arr_move a dst src n)
       else Err OverlappingCopy
  else Err OutOfBounds.

(** An allocator that grants every array of fewer than 2^30 elements. *)
#[refine] Definition strict_libc : Libc := {| alloc_max := 1073741823 |}.
Proof. lia. Defined.

(** ** Tactics

    [simp_out] computes binds of known outcomes; [solve_range] discharges the
    boolean range tests of the model; [out_inv] inverts equations between
    outcomes. *)
Ltac simp_out :=
  repeat first
    [ progress cbn [mbind mret fmap outcome_bind outcome_ret outcome_fmap] in *
    | progress simplify_eq ].

Ltac zbool :=
  repeat match goal with
  | |- context [?a <=? ?b] =>
     let E := fresh "E" in
     destruct (a <=? b) eqn:E; [apply Z.leb_le in E | apply Z.leb_gt in E]
  | |- context [?a <? ?b] =>
     let E := fresh "E" in
     destruct (a <? b) eqn:E; [apply Z.ltb_lt in E | apply Z.ltb_ge in E]
  | |- context [?a =? ?b] =>
     let E := fresh "E" in
     destruct (a =? b) eqn:E; [apply Z.eqb_eq in E | apply Z.eqb_neq in E]
  end.

Ltac solve_range := zbool; cbn; try lia; try congruence; auto.

Create HintDb carr.
Create Rewrite HintDb carr.

(** ** Lemmas on outcomes, machine integers and arrays *)

Lemma bind_Ok {A B} (m : outcome A) (f : A → outcome B) b :
  m ≫= f = Ok b ↔ ∃ a, m = Ok a ∧ f a = Ok b.
Proof. destruct m; naive_solver. Qed.

Lemma bind_Err {A B} (m : outcome A) (f : A → outcome B) e :
  m ≫= f = Err e ↔ m = Err e ∨ ∃ a, m = Ok a ∧ f a = Err e.
Proof. destruct m; naive_solver. Qed.

Lemma oom_or_bind {A B} (m : outcome A) (f : A → outcome B) P Q :
  oom_or m P → (∀ a, P a → oom_or (f a) Q) → oom_or (m ≫= f) Q.
Proof. destruct m; cbn; auto. Qed.

Lemma oom_or_mono {A} (m : outcome A) (P Q : A → Prop) :
  oom_or m P → (∀ a, P a → Q a) → oom_or m Q.
Proof. destruct m; cbn; auto. Qed.

Lemma oom_or_Ok {A} (m : outcome A) (P : A → Prop) :
  (∃ a, m = Ok a ∧ P a) → oom_or m P.
Proof. by intros (a & -> & ?). Qed.

Lemma list_filter_all {A} (P : A → Prop) `{∀ x, Decision (P x)} l :
  Forall P l → filter P l = l.
Proof. induction 1; [done|]. rewrite filter_cons, decide_True by done. by f_equal. Qed.

Lemma NoDup_part {A} (l k : list A) : l ⊆+ k → NoDup k → NoDup l.
Proof.
  intros (k' & Hp)%submseteq_Permutation. rewrite Hp. by intros (? & _)%NoDup_app.
Qed.

Lemma int_of_ok z : INT_MIN ≤ z ≤ INT_MAX → int_of z = Ok z.
Proof. unfold int_of, int_range. intros. solve_range. Qed.

Lemma uint_small z : 0 ≤ z < UINT_MOD → uint z = z.
Proof. apply Z.mod_small. Qed.

Lemma size_t_small z : 0 ≤ z < SIZE_MOD → size_t z = z.
Proof. apply Z.mod_small. Qed.

Lemma cast_int_small z : INT_MIN ≤ z ≤ INT_MAX → cast_int z = z.
Proof.
  unfold cast_int, INT_MIN, INT_MAX. intros. rewrite Z.mod_small; lia.
Qed.

Lemma cast_int_range z : INT_MIN ≤ cast_int z ≤ INT_MAX.
Proof.
  unfold cast_int, INT_MIN, INT_MAX.
  pose proof (Z.mod_pos_bound (z + 2147483648) 4294967296). lia.
Qed.

Lemma umod_ok a b : 0 < b → umod a b = Ok (a mod b).
Proof. unfold umod. intros. solve_range. Qed.

(** Reduction of a value below twice the modulus. *)
Lemma mod_wrap a b : 0 < b → 0 ≤ a < 2 * b → a mod b = if a <? b then a else a - b.
Proof.
  intros Hb Ha. zbool; [apply Z.mod_small; lia|].
  symmetry. apply Z.mod_unique with 1; lia.
Qed.

Section array_lemmas.
Context {A : Type}.
Implicit Types (a : arr A) (x : A) (i : Z).

Lemma arr_in_iff a i : arr_in a i = true ↔ 0 ≤ i < arr_len a.
Proof. unfold arr_in. rewrite andb_true_iff. lia. Qed.

Lemma arr_len_new n : 0 ≤ n → arr_len (arr_new n : arr A) = n.
Proof. intros. unfold arr_len, arr_new. rewrite length_replicate. lia. Qed.

Lemma arr_len_insert a k (c : option A) : arr_len (<[k := c]> a) = arr_len a.
Proof. unfold arr_len. by rewrite length_insert. Qed.

Lemma arr_len_realloc a n : 0 ≤ n → arr_len (arr_realloc a n) = n.
Proof.
  intros. unfold arr_len, arr_realloc.
  rewrite length_app, length_take, length_replicate. lia.
Qed.

Lemma arr_len_move a dst src n : arr_len (arr_move a dst src n) = arr_len a.
Proof. unfold arr_len, arr_move. by rewrite length_inserts. Qed.

Lemma arr_get_ok a i x :
  0 ≤ i → a !! Z.to_nat i = Some (Some x) → arr_get a i = Ok x.
Proof.
  intros Hi Hl. unfold arr_get.
  rewrite (proj2 (arr_in_iff a i)); [by rewrite Hl|].
  apply lookup_lt_Some in Hl. unfold arr_len. lia.
Qed.

Lemma arr_get_Ok_inv a i x :
  arr_get a i = Ok x → 0 ≤ i ∧ a !! Z.to_nat i = Some (Some x).
Proof.
  unfold arr_get. destruct (arr_in a i) eqn:E; [|done].
  apply arr_in_iff in E. repeat case_match; naive_solver lia.
Qed.

Lemma arr_set_ok a i x :
  0 ≤ i < arr_len a → arr_set a i x = Ok (<[Z.to_nat i := Some x]> a).
Proof. intros. unfold arr_set. by rewrite (proj2 (arr_in_iff a i)). Qed.

Lemma arr_set_oob a i x : ¬ (0 ≤ i < arr_len a) → arr_set a i x = Err OutOfBounds.
Proof.
  intros Hi. unfold arr_set. destruct (arr_in a i) eqn:E; [|done].
  by apply arr_in_iff in E.
Qed.

Lemma arr_realloc_lookup a n k :
  (k < length a)%nat → (Z.of_nat (length a) ≤ n) → arr_realloc a n !! k = a !! k.
Proof.
  intros. unfold arr_realloc. rewrite take_ge by lia. by apply lookup_app_l.
Qed.

(** [memmove] reads back as a shifted copy inside the destination and as the
    old contents elsewhere. *)
Lemma arr_move_lookup a dst src n k :
  0 ≤ dst → 0 ≤ src → 0 ≤ n → dst + n ≤ arr_len a → src + n ≤ arr_len a →
  arr_move a dst src n !! k =
    if (dst <=? Z.of_nat k) && (Z.of_nat k <? dst + n)
    then a !! Z.to_nat (Z.of_nat k - dst + src) else a !! k.
Proof.
  unfold arr_move, arr_len. intros.
  assert (length (take (Z.to_nat n) (drop (Z.to_nat src) a)) = Z.to_nat n) as Hl
    by (rewrite length_take, length_drop; lia).
  zbool; cbn.
  - rewrite list_lookup_inserts by (rewrite ?Hl; lia).
    rewrite lookup_take_lt by lia. rewrite lookup_drop. f_equal. lia.
  - rewrite list_lookup_inserts_ge by (rewrite Hl; lia). done.
  - rewrite list_lookup_inserts_lt by lia. done.
  - rewrite list_lookup_inserts_lt by lia. done.
Qed.

End array_lemmas.

#[export] Hint Rewrite @arr_len_insert @arr_len_move : carr.

Section memcpy_lemmas.
Context `{Libc}.

Lemma c_malloc_ok {A} n : n ≤ alloc_max → c_malloc (A:=A) n = Ok (arr_new n).
Proof. intros. unfold c_malloc. by rewrite (proj2 (Z.leb_le _ _)). Qed.

Lemma c_malloc_oom {A} n :
  oom_or (c_malloc (A:=A) n) (λ a, n ≤ alloc_max ∧ a = arr_new n).
Proof. unfold c_malloc, oom_or. intros. zbool; auto. Qed.

Lemma c_realloc_oom {A} (a : arr A) n :
  oom_or (c_realloc a n) (λ a', n ≤ alloc_max ∧ a' = arr_realloc a n).
Proof. unfold c_realloc, oom_or. intros. zbool; auto. Qed.

Lemma c_realloc_ok {A} (a : arr A) n : n ≤ alloc_max → c_realloc a n = Ok (arr_realloc a n).
Proof. intros. unfold c_realloc. by rewrite (proj2 (Z.leb_le _ _)). Qed.

Lemma c_realloc_refused {A} (a : arr A) n : alloc_max < n → c_realloc a n = Err OutOfMemory.
Proof. intros. unfold c_realloc. by rewrite (proj2 (Z.leb_gt _ _)). Qed.

Lemma arr_memcpy_disjoint {A} (a : arr A) dst src n :
  0 ≤ dst → 0 ≤ src → 0 ≤ n → dst + n ≤ arr_len a → src + n ≤ arr_len a →
  n ≤ Z.abs (dst - src) →
  arr_memcpy a dst src n = Ok (arr_move a dst src n).
Proof.
  intros. unfold arr_memcpy. repeat (rewrite (proj2 (Z.leb_le _ _)) by lia).
  cbn. by rewrite orb_true_r.
Qed.

Lemma arr_memcpy_overlap {A} (a : arr A) dst src n :
  0 ≤ dst → 0 ≤ src → dst + n ≤ arr_len a → src + n ≤ arr_len a → Z.abs (dst - src) < n →
  arr_memcpy a dst src n = Err OverlappingCopy.
Proof.
  intros. unfold arr_memcpy. repeat (rewrite (proj2 (Z.leb_le _ _)) by lia). cbn.
  rewrite (proj2 (Z.eqb_neq _ _)) by lia. by rewrite (proj2 (Z.leb_gt _ _)) by lia.
Qed.
End memcpy_lemmas.
