(* ===== verification/Queue.v ===== *)
(** * The resizable ring buffer (src/server/queue.h, src/server/queue.c)

    [t_queue] is the C struct; the array it points to is owned by it and is
    stored in the record.  [queue_rep q l] says that [q] represents the
    sequence [l], oldest element first; the operations are shown to implement
    a first-in first-out list. *)

From S2P Require Import Prelude.

Record t_queue (A : Type) := mk_queue {
  q_data : arr A;
  q_pointer : Z;
  q_len : Z;
  q_capacity : Z
}.
Arguments mk_queue {A} q_data q_pointer q_len q_capacity.
Arguments q_data {A} _.
Arguments q_pointer {A} _.
Arguments q_len {A} _.
Arguments q_capacity {A} _.

Section queue.
Context `{Libc} {A : Type}.
Implicit Types (q : t_queue A) (x : A) (l : list A).

Definition init_queue (capacity : Z) : outcome (t_queue A) :=
  _ ← c_assert (0 <? capacity);
  data ← c_malloc capacity;
  Ok (mk_queue data 0 0 capacity).

Definition queue_is_empty q : bool := q_len q =? 0.

Definition queue_length q : Z := q_len q.

Definition queue_pop q : outcome (A * t_queue A) :=
  _ ← c_assert (0 <? q_len q);
  tmp ← arr_get (q_data q) (q_pointer q);
  let len := uint (q_len q - 1) in
  pointer ← umod (uint (q_pointer q + 1)) (q_capacity q);
  Ok (tmp, mk_queue (q_data q) pointer len (q_capacity q)).

Definition simple_push q (elt : A) : outcome (t_queue A) :=
  i ← umod (uint (q_pointer q + q_len q)) (q_capacity q);
  data ← arr_set (q_data q) i elt;
  Ok (mk_queue data (q_pointer q) (uint (q_len q + 1)) (q_capacity q)).

Definition resize_queue q : outcome (t_queue A) :=
  let old_cap := q_capacity q in
  let old_p := q_pointer q in
  let new_cap := uint (2 * old_cap) in
  let new_p := uint (new_cap - old_cap + old_p) in
  data ← c_realloc (q_data q) new_cap;
  data ← arr_memcpy data new_p old_p (uint (old_cap - old_p));
  Ok (mk_queue data new_p (q_len q) new_cap).

Definition queue_push q (elt : A) : outcome (t_queue A) :=
  q ← (if q_len q =? q_capacity q then resize_queue q else Ok q);
  simple_push q elt.

Definition free_queue q : outcome unit :=
  c_assert (queue_is_empty q).

(** ** Representation invariant *)

(** The [i]-th oldest element sits [i] cells after the pointer, cyclically.
    Capacities stay within what can be allocated, so index sums do not wrap. *)
Record queue_rep q l : Prop := {
  qr_cap : 0 < q_capacity q ≤ alloc_max;
  qr_data : arr_len (q_data q) = q_capacity q;
  qr_ptr : 0 ≤ q_pointer q < q_capacity q;
  qr_len : q_len q = Z.of_nat (length l);
  qr_fit : q_len q ≤ q_capacity q;
  qr_elems : ∀ i x, l !! i = Some x →
    q_data q !! Z.to_nat ((q_pointer q + Z.of_nat i) mod q_capacity q) = Some (Some x)
}.

(** There is room for one more element: the queue is not full, or it can be
    doubled. *)
Definition queue_room q : Prop :=
  q_len q < q_capacity q ∨ 2 * q_capacity q ≤ alloc_max.

Local Ltac cap_bound := pose proof alloc_max_range.

Lemma init_queue_rep capacity :
  0 < capacity ≤ alloc_max →
  ∃ q, init_queue capacity = Ok q ∧ queue_rep q [] ∧ q_capacity q = capacity.
Proof.
  intros Hc. unfold init_queue, c_assert. rewrite (proj2 (Z.ltb_lt _ _)) by lia.
  cbn [mbind outcome_bind]. rewrite c_malloc_ok by lia. eexists. split; [done|]. split; [|done].
  split; cbn; try done; try lia. by rewrite arr_len_new by lia.
Qed.

Lemma init_queue_oom capacity :
  0 < capacity → oom_or (init_queue capacity) (λ q, queue_rep q []).
Proof.
  intros Hc. assert (capacity ≤ alloc_max ∨ alloc_max < capacity) as [Hs|Hl] by lia.
  - destruct (init_queue_rep capacity) as (q & -> & ? & _); [lia|done].
  - unfold init_queue, c_assert, c_malloc. rewrite (proj2 (Z.ltb_lt _ _)) by lia.
    cbn. by rewrite (proj2 (Z.leb_gt _ _)).
Qed.

Lemma init_queue_zero : init_queue 0 = Err AssertFailed.
Proof. done. Qed.

Lemma queue_is_empty_rep q l : queue_rep q l → queue_is_empty q = bool_decide (l = []).
Proof.
  intros [_ _ _ Hl _ _]. unfold queue_is_empty. rewrite Hl.
  destruct l; [done|]. rewrite bool_decide_false by done. apply Z.eqb_neq. cbn. lia.
Qed.

Lemma queue_pop_rep q x l :
  queue_rep q (x :: l) →
  ∃ q', queue_pop q = Ok (x, q') ∧ queue_rep q' l ∧ q_capacity q' = q_capacity q.
Proof.
  cap_bound. intros [Hcap Hdata Hptr Hlen Hfit Hel]. cbn in Hlen. unfold queue_pop, c_assert.
  rewrite (proj2 (Z.ltb_lt _ _)) by lia. cbn.
  pose proof (Hel 0%nat x eq_refl) as Hx. rewrite Z.add_0_r, Z.mod_small in Hx by lia.
  erewrite arr_get_ok by (try exact Hx; lia). cbn.
  rewrite umod_ok by lia. cbn. eexists. split; [done|]. split; [|done].
  rewrite !uint_small by (unfold UINT_MOD; lia).
  split; cbn; try done; try lia.
  - apply Z.mod_pos_bound. lia.
  - intros i y Hi. rewrite <- (Hel (S i) y Hi). do 2 f_equal.
    rewrite Z.add_mod_idemp_l by lia. f_equal. lia.
Qed.

Lemma queue_pop_empty q : queue_rep q [] → queue_pop q = Err AssertFailed.
Proof. intros [_ _ _ Hl _ _]. unfold queue_pop. by rewrite Hl. Qed.

Lemma simple_push_rep q l x :
  queue_rep q l → q_len q < q_capacity q →
  ∃ q', simple_push q x = Ok q' ∧ queue_rep q' (l ++ [x]) ∧ q_capacity q' = q_capacity q.
Proof.
  cap_bound. intros [Hcap Hdata Hptr Hlen Hfit Hel] Hroom. unfold simple_push.
  rewrite umod_ok by lia. cbn. rewrite !uint_small by (unfold UINT_MOD; lia).
  pose proof (Z.mod_pos_bound (q_pointer q + q_len q) (q_capacity q) ltac:(lia)).
  rewrite arr_set_ok by lia. cbn. eexists. split; [done|]. split; [|done].
  split; cbn; try done; try lia.
  - by rewrite arr_len_insert.
  - rewrite length_app. cbn. lia.
  - intros i y Hi. unfold arr_len in Hdata.
    destruct (decide (i < length l)%nat) as [Hlt|Hge].
    + rewrite lookup_app_l in Hi by done.
      rewrite list_lookup_insert_ne; [by apply Hel|].
      rewrite !mod_wrap by lia. zbool; lia.
    + rewrite lookup_app_r in Hi by lia.
      destruct (i - length l)%nat eqn:E; [|done]. simplify_eq/=.
      replace (Z.of_nat i) with (q_len q) by lia.
      rewrite list_lookup_insert_eq; [done|lia].
Qed.

Lemma resize_queue_rep q l :
  queue_rep q l → 2 * q_capacity q ≤ alloc_max → q_len q = q_capacity q →
  ∃ q', resize_queue q = Ok q' ∧ queue_rep q' l ∧ q_capacity q' = 2 * q_capacity q.
Proof.
  cap_bound. intros [Hcap Hdata Hptr Hlen Hfit Hel] Hsmall Hfull. unfold resize_queue.
  rewrite !uint_small by (rewrite ?uint_small; unfold UINT_MOD; lia).
  replace (2 * q_capacity q - q_capacity q + q_pointer q)
    with (q_capacity q + q_pointer q) by lia.
  set (data := arr_realloc (q_data q) (2 * q_capacity q)).
  assert (arr_len data = 2 * q_capacity q) as Hd by (apply arr_len_realloc; lia).
  rewrite c_realloc_ok by lia. fold data. cbn [mbind outcome_bind].
  rewrite arr_memcpy_disjoint by lia. cbn. eexists. split; [done|]. split; [|done].
  split; cbn; try done; try lia.
  - by rewrite arr_len_move.
  - intros i x Hi. pose proof (Hel i x Hi) as Hx.
    assert (Z.of_nat i < q_len q) by (apply lookup_lt_Some in Hi; lia).
    rewrite arr_move_lookup by lia.
    assert (∀ k, 0 ≤ k < q_capacity q → data !! Z.to_nat k = q_data q !! Z.to_nat k) as Hk.
    { intros k Hk. unfold data, arr_len in *. apply arr_realloc_lookup; lia. }
    rewrite mod_wrap in Hx by lia. rewrite mod_wrap by lia.
    rewrite Z2Nat.id by (zbool; lia).
    destruct (Z.ltb_spec (q_pointer q + Z.of_nat i) (q_capacity q)).
    + rewrite (proj2 (Z.ltb_lt _ _)) by lia.
      rewrite (proj2 (Z.leb_le _ _)), (proj2 (Z.ltb_lt _ _)) by lia. cbn.
      rewrite <- Hx, <- Hk by lia. do 2 f_equal. lia.
    + rewrite (proj2 (Z.ltb_ge _ _)) by lia.
      rewrite (proj2 (Z.leb_gt _ _)) by lia. cbn.
      rewrite <- Hx, <- Hk by lia. do 2 f_equal. lia.
Qed.

Lemma queue_push_rep q l x :
  queue_rep q l → queue_room q →
  ∃ q', queue_push q x = Ok q' ∧ queue_rep q' (l ++ [x]) ∧
    q_capacity q' = (if q_len q =? q_capacity q then 2 else 1) * q_capacity q.
Proof.
  intros Hr Hroom. unfold queue_push.
  destruct (Z.eqb_spec (q_len q) (q_capacity q)) as [Hfull|Hnot]; cbn [mbind outcome_bind].
  - destruct (resize_queue_rep q l) as (q1 & -> & H1 & Hc); [done| |done|].
    { unfold queue_room in Hroom. lia. }
    cbn. destruct (simple_push_rep q1 l x) as (q2 & -> & H2 & Hc2); [done| |].
    { rewrite (qr_len _ _ H1), Hc, <- (qr_len _ _ Hr). pose proof (qr_cap _ _ Hr). lia. }
    eexists. split; [done|]. split; [done|]. lia.
  - pose proof (qr_fit _ _ Hr).
    destruct (simple_push_rep q l x) as (q2 & Hp & H2 & Hc2); [done|lia|].
    exists q2. split; [done|]. split; [done|lia].
Qed.

(** A push into a full queue that cannot be doubled runs out of memory. *)
Lemma queue_push_refused q l x :
  queue_rep q l → ¬ queue_room q → queue_push q x = Err OutOfMemory.
Proof.
  cap_bound. intros [Hcap Hdata Hptr Hlen Hfit Hel] Hroom. unfold queue_room in Hroom.
  unfold queue_push, resize_queue. rewrite (proj2 (Z.eqb_eq _ _)) by lia.
  rewrite (uint_small (2 * _)) by (unfold UINT_MOD; lia).
  by rewrite c_realloc_refused by lia.
Qed.

Lemma queue_push_oom q l x :
  queue_rep q l → oom_or (queue_push q x) (λ q', queue_rep q' (l ++ [x])).
Proof.
  intros Hr.
  assert (queue_room q ∨ ¬ queue_room q) as [Hroom|Hfull] by (unfold queue_room; lia).
  - destruct (queue_push_rep q l x Hr Hroom) as (q' & -> & ? & _). done.
  - by rewrite (queue_push_refused q l x Hr Hfull).
Qed.

Lemma free_queue_rep q l :
  queue_rep q l → free_queue q = if bool_decide (l = []) then Ok tt else Err AssertFailed.
Proof. intros Hr. unfold free_queue. by rewrite (queue_is_empty_rep _ _ Hr). Qed.

(** A queue holding at most half the allocation limit always has room. *)
Lemma queue_room_small q l :
  queue_rep q l → 2 * Z.of_nat (length l) ≤ alloc_max → queue_room q.
Proof.
  intros Hr Hs. unfold queue_room. pose proof (qr_len _ _ Hr). pose proof (qr_fit _ _ Hr).
  lia.
Qed.

(** ** Refinement of a first-in first-out list *)

Inductive queue_op :=
  | Push (x : A)
  | Pop.

(** The specification: a list, pushes at the end and pops at the front;
    returns the popped elements in order. *)
Fixpoint fifo_run (ops : list queue_op) l : option (list A * list A) :=
  match ops, l with
  | [], _ => Some ([], l)
  | Push x :: ops, _ => fifo_run ops (l ++ [x])
  | Pop :: ops, [] => None
  | Pop :: ops, x :: l => '(out, l') ← fifo_run ops l; Some (x :: out, l')
  end.

(** The same calls on the C structure. *)
Fixpoint queue_run (ops : list queue_op) q : outcome (list A * t_queue A) :=
  match ops with
  | [] => Ok ([], q)
  | Push x :: ops => q ← queue_push q x; queue_run ops q
  | Pop :: ops =>
     '(x, q) ← queue_pop q;
     '(out, q) ← queue_run ops q;
     Ok (x :: out, q)
  end.

Lemma queue_run_rep ops : ∀ q l out l',
  queue_rep q l → 2 * Z.of_nat (length l + length ops) ≤ alloc_max →
  fifo_run ops l = Some (out, l') →
  ∃ q', queue_run ops q = Ok (out, q') ∧ queue_rep q' l'.
Proof.
  induction ops as [|[x|] ops IH]; intros q l out l' Hr Hs Hf; cbn in *.
  - simplify_eq. eauto.
  - destruct (queue_push_rep q l x) as (q1 & -> & H1 & _);
      [done|eapply queue_room_small; [done|lia]|].
    apply IH with (l ++ [x]); [done| |done]. rewrite length_app. cbn. lia.
  - destruct l as [|x l]; [done|]. cbn in Hf.
    destruct (fifo_run ops l) as [[out1 l1]|] eqn:E; simplify_eq/=.
    destruct (queue_pop_rep q x l) as (q1 & -> & H1 & _); [done|]. cbn.
    destruct (IH q1 l out1 l') as (q2 & -> & H2); [done|lia|done|]. cbn. eauto.
Qed.

(** C27: Any sequence of [queue_push] and [queue_pop] calls, not longer than half
    the largest array that can be allocated, on a fresh queue that never pops when the specification list is empty runs
    without error (no failed assert, no out-of-bounds access, no division by
    zero), returns exactly the elements a first-in first-out list returns, and
    ends in a queue that represents that list, whatever the initial capacity
    and through every resize. *)
Theorem queue_refines_fifo capacity ops out l :
  0 < capacity ≤ alloc_max →
  2 * Z.of_nat (length ops) ≤ alloc_max →
  fifo_run ops [] = Some (out, l) →
  ∃ q0 q, init_queue capacity = Ok q0 ∧ queue_run ops q0 = Ok (out, q) ∧ queue_rep q l.
Proof.
  intros Hc Ho Hf. destruct (init_queue_rep capacity Hc) as (q0 & H0 & Hr & _).
  destruct (queue_run_rep ops q0 [] out l) as (q & Hq & Hl); [done|cbn; lia|done|].
  eauto 6.
Qed.

End queue.

(** Capacity one, four pushes and two pops: two resizes, with the pointer away
    from zero at the second one. *)
Lemma queue_refines_fifo_witness :
  let ops := [Push 1; Push 2; Pop; Push 3; Push 4; Pop; Push 5; Push 6; Push 7] in
  ∃ q0 q, @init_queue strict_libc Z 1 = Ok q0 ∧
    @queue_run strict_libc Z ops q0 = Ok ([1; 2], q) ∧ @queue_rep strict_libc Z q [3; 4; 5; 6; 7].
Proof.
  apply (@queue_refines_fifo strict_libc Z 1
    [Push 1; Push 2; Pop; Push 3; Push 4; Pop; Push 5; Push 6; Push 7]
    [1; 2] [3; 4; 5; 6; 7]); [cbn; lia|cbn; lia|reflexivity].
Defined.
