(* ===== verification/ArrayList.v ===== *)
(** * The keyed array list (src/server/arraylist.h, src/server/arraylist.c)

    [t_list] is the C struct with its two parallel arrays.  [list_rep l kvs]
    says that the live prefix of the arrays is the sequence of (key, data)
    pairs [kvs].  When the keys are distinct, the structure implements a finite
    map from keys to data ([list_map]): that is how the server uses it for its
    clients and for its running processes. *)

From S2P Require Import Prelude.

Record t_list (A : Type) := mk_list {
  l_key : arr Z;
  l_data : arr A;
  l_len : Z;
  l_capacity : Z
}.
Arguments mk_list {A} l_key l_data l_len l_capacity.
Arguments l_key {A} _.
Arguments l_data {A} _.
Arguments l_len {A} _.
Arguments l_capacity {A} _.

Definition INVALID_INDEX : Z := -1.

Section arraylist.
Context `{Libc} {A : Type}.
Implicit Types (l : t_list A) (x : A) (kvs : list (Z * A)).

Definition init_list (capacity : Z) : outcome (t_list A) :=
  key ← c_malloc capacity;
  data ← c_malloc capacity;
  Ok (mk_list key data 0 capacity).

Definition list_is_empty l : bool := l_len l =? 0.

Definition list_length l : Z := l_len l.

(** The [for] loop: [n] iterations left, [i] the loop variable. *)
Fixpoint lookup_index_loop (n : nat) l (key i : Z) : outcome Z :=
  match n with
  | O => Ok INVALID_INDEX
  | S n =>
     k ← arr_get (l_key l) i;
     if k =? key then Ok i else lookup_index_loop n l key (i + 1)
  end.
Definition list_lookup_index l (key : Z) : outcome Z :=
  lookup_index_loop (Z.to_nat (l_len l)) l key 0.

(** [None] is the [NULL] pointer. *)
Definition list_lookup l (key : Z) : outcome (option A) :=
  i ← list_lookup_index l key;
  if i =? INVALID_INDEX then Ok None
  else x ← arr_get (l_data l) i; Ok (Some x).

Definition list_remove l (key : Z) : outcome (t_list A) :=
  i ← list_lookup_index l key;
  if negb (i =? INVALID_INDEX) then
    _ ← c_assert (negb (list_is_empty l));
    let len := l_len l - 1 in
    k ← arr_get (l_key l) len;
    keys ← arr_set (l_key l) i k;
    x ← arr_get (l_data l) len;
    data ← arr_set (l_data l) i x;
    Ok (mk_list keys data len (l_capacity l))
  else Ok l.

Definition free_list l : outcome unit := c_assert (list_is_empty l).

Definition list_resize l : outcome (t_list A) :=
  newcap ← int_of (l_capacity l * 2);
  key ← c_realloc (l_key l) newcap;
  data ← c_realloc (l_data l) newcap;
  Ok (mk_list key data (l_len l) newcap).

Definition list_append l (key : Z) (elt : A) : outcome (t_list A) :=
  l ← (if l_len l =? l_capacity l then list_resize l else Ok l);
  keys ← arr_set (l_key l) (l_len l) key;
  data ← arr_set (l_data l) (l_len l) elt;
  len ← int_of (l_len l + 1);
  Ok (mk_list keys data len (l_capacity l)).

(** ** Representation invariant *)

Record list_rep l kvs : Prop := {
  lr_cap : 0 < l_capacity l ≤ alloc_max;
  lr_klen : arr_len (l_key l) = l_capacity l;
  lr_dlen : arr_len (l_data l) = l_capacity l;
  lr_len : l_len l = Z.of_nat (length kvs);
  lr_fit : l_len l ≤ l_capacity l;
  lr_elems : ∀ i k x, kvs !! i = Some (k, x) →
    l_key l !! i = Some (Some k) ∧ l_data l !! i = Some (Some x)
}.

Definition list_room l : Prop :=
  l_len l < l_capacity l ∨ 2 * l_capacity l ≤ alloc_max.

Local Ltac cap_bound := pose proof alloc_max_range; unfold INT_MIN, INT_MAX in *.

Lemma init_list_rep capacity :
  0 < capacity ≤ alloc_max →
  ∃ l, init_list capacity = Ok l ∧ list_rep l [] ∧ l_capacity l = capacity.
Proof.
  intros. unfold init_list. rewrite !c_malloc_ok by lia. cbn. eexists. split; [done|].
  split; [|done]. split; cbn; try done; try lia; apply arr_len_new; lia.
Qed.

Lemma list_is_empty_rep l kvs :
  list_rep l kvs → list_is_empty l = bool_decide (kvs = []).
Proof.
  intros [_ _ _ Hl _ _]. unfold list_is_empty. rewrite Hl.
  destruct kvs; [done|]. rewrite bool_decide_false by done. apply Z.eqb_neq. cbn. lia.
Qed.

(** The position of the first occurrence of a key. *)
Fixpoint find_key (key : Z) kvs : option nat :=
  match kvs with
  | [] => None
  | (k, _) :: kvs => if k =? key then Some O else S <$> find_key key kvs
  end.

Lemma find_key_Some key kvs i :
  find_key key kvs = Some i → ∃ x, kvs !! i = Some (key, x).
Proof.
  revert i. induction kvs as [|[k x] kvs IH]; intros i Hf; cbn in *; [done|].
  destruct (Z.eqb_spec k key); simplify_eq/=; [eauto|].
  apply fmap_Some in Hf as (j & Hj & ->). destruct (IH j Hj) as [y Hy]. eauto.
Qed.

Lemma find_key_None key kvs : find_key key kvs = None ↔ key ∉ kvs.*1.
Proof.
  induction kvs as [|[k x] kvs IH]; cbn; [set_solver|].
  rewrite not_elem_of_cons, <- IH. destruct (Z.eqb_spec k key); [naive_solver|].
  rewrite fmap_None. naive_solver.
Qed.

Lemma find_key_lookup key x kvs i :
  NoDup kvs.*1 → kvs !! i = Some (key, x) → find_key key kvs = Some i.
Proof.
  revert i. induction kvs as [|[k y] kvs IH]; intros i Hnd Hi; [done|].
  cbn in *. apply NoDup_cons in Hnd as [Hk Hnd].
  destruct i as [|i]; simplify_eq/=; [by rewrite Z.eqb_refl|].
  rewrite (IH i) by done. destruct (Z.eqb_spec k key); [|done]. subst.
  exfalso. apply Hk. apply list_elem_of_fmap. exists (key, x). split; [done|].
  by eapply list_elem_of_lookup_2.
Qed.

Lemma lookup_index_loop_rep l kvs key i :
  list_rep l kvs → (i ≤ length kvs)%nat →
  lookup_index_loop (length kvs - i) l key (Z.of_nat i) =
    Ok (default INVALID_INDEX ((λ j, Z.of_nat (i + j)) <$> find_key key (drop i kvs))).
Proof.
  intros Hr Hi. remember (length kvs - i)%nat as n eqn:En.
  revert i Hi En. induction n as [|n IH]; intros i Hi En; cbn.
  { by rewrite drop_ge by lia. }
  destruct (lookup_lt_is_Some_2 kvs i) as [[k x] Hkx]; [lia|].
  destruct (lr_elems _ _ Hr i k x Hkx) as [Hk _].
  erewrite arr_get_ok by (rewrite ?Nat2Z.id; eauto; lia). cbn.
  rewrite (drop_S kvs (k, x) i) by done. cbn.
  destruct (Z.eqb_spec k key); cbn.
  - f_equal. lia.
  - replace (Z.of_nat i + 1) with (Z.of_nat (S i)) by lia.
    rewrite IH by lia. destruct (find_key key (drop (S i) kvs)); cbn; [|done].
    f_equal. lia.
Qed.

Lemma list_lookup_index_rep l kvs key :
  list_rep l kvs →
  list_lookup_index l key = Ok (default INVALID_INDEX (Z.of_nat <$> find_key key kvs)).
Proof.
  intros Hr. unfold list_lookup_index. rewrite (lr_len _ _ Hr), Nat2Z.id.
  pose proof (lookup_index_loop_rep l kvs key 0 Hr) as Hli.
  rewrite Nat.sub_0_r, drop_0 in Hli. apply Hli. lia.
Qed.

Lemma list_lookup_rep l kvs key :
  list_rep l kvs →
  list_lookup l key = Ok (i ← find_key key kvs; snd <$> kvs !! i).
Proof.
  intros Hr. unfold list_lookup. rewrite (list_lookup_index_rep _ _ _ Hr). cbn.
  destruct (find_key key kvs) as [i|] eqn:E; cbn; [|done].
  destruct (find_key_Some _ _ _ E) as [x Hx]. rewrite Hx. cbn.
  destruct (lr_elems _ _ Hr i key x Hx) as [_ Hd].
  rewrite (proj2 (Z.eqb_neq _ _)) by (unfold INVALID_INDEX; lia).
  erewrite arr_get_ok by (rewrite ?Nat2Z.id; eauto; lia). done.
Qed.

(** The C code moves the last pair over the removed one. *)
Definition swap_remove (i : nat) kvs : list (Z * A) :=
  match last kvs with
  | Some kx => take (length kvs - 1) (<[i := kx]> kvs)
  | None => kvs
  end.

Lemma list_remove_rep l kvs key :
  list_rep l kvs →
  ∃ l', list_remove l key = Ok l' ∧ l_capacity l' = l_capacity l ∧
    list_rep l' (match find_key key kvs with Some i => swap_remove i kvs | None => kvs end).
Proof.
  intros Hr. unfold list_remove. rewrite (list_lookup_index_rep _ _ _ Hr). cbn.
  destruct (find_key key kvs) as [i|] eqn:E; cbn; [|by eauto].
  destruct (find_key_Some _ _ _ E) as [x Hx].
  pose proof (lookup_lt_Some _ _ _ Hx) as Hi.
  rewrite (proj2 (Z.eqb_neq _ _)) by (unfold INVALID_INDEX; lia). cbn.
  rewrite (list_is_empty_rep _ _ Hr), bool_decide_false by (by destruct kvs). cbn.
  destruct Hr as [Hcap Hkl Hdl Hlen Hfit Hel].
  destruct (last kvs) as [[kl xl]|] eqn:El; [|apply last_None in El; by subst].
  pose proof El as El'. rewrite last_lookup in El'.
  destruct (Hel _ _ _ El') as [Hk Hd].
  erewrite (arr_get_ok (l_key l)); [|lia|]; cycle 1.
  { rewrite <- Hk. f_equal. lia. }
  cbn. rewrite arr_set_ok by lia. cbn.
  erewrite (arr_get_ok (l_data l)); [|lia|]; cycle 1.
  { rewrite <- Hd. f_equal. lia. }
  cbn. rewrite arr_set_ok by lia. cbn. eexists. split; [done|]. split; [done|].
  unfold swap_remove. rewrite El, !Nat2Z.id.
  split; cbn; rewrite ?arr_len_insert; try done; try lia.
  { rewrite length_take, length_insert. lia. }
  intros j k y Hj. apply lookup_take_Some in Hj as [Hj Hlt]. unfold arr_len in *.
  destruct (decide (i = j)) as [<-|Hne].
  - rewrite list_lookup_insert_eq in Hj by lia. simplify_eq.
    rewrite !list_lookup_insert_eq by lia. done.
  - rewrite list_lookup_insert_ne in Hj by done.
    rewrite !list_lookup_insert_ne by done. by apply Hel.
Qed.

Lemma list_resize_rep l kvs :
  list_rep l kvs → 2 * l_capacity l ≤ alloc_max →
  ∃ l', list_resize l = Ok l' ∧ list_rep l' kvs ∧
    l_capacity l' = 2 * l_capacity l ∧ l_len l' = l_len l.
Proof.
  cap_bound. intros [Hcap Hkl Hdl Hlen Hfit Hel] Hs. unfold list_resize.
  rewrite int_of_ok by (unfold INT_MIN, INT_MAX; lia). cbn [mbind outcome_bind].
  rewrite !c_realloc_ok by lia. cbn.
  eexists. split; [done|]. split; [|cbn; lia].
  split; cbn; rewrite ?arr_len_realloc by lia; try done; try (unfold INT_MAX in *; lia).
  intros i k x Hi. destruct (Hel i k x Hi) as [Hk Hd].
  pose proof (lookup_lt_Some _ _ _ Hk). pose proof (lookup_lt_Some _ _ _ Hd).
  unfold arr_len in *. rewrite !arr_realloc_lookup by lia. done.
Qed.

Lemma append_free_rep l kvs key x :
  list_rep l kvs → l_len l < l_capacity l →
  ∃ keys data, arr_set (l_key l) (l_len l) key = Ok keys ∧
    arr_set (l_data l) (l_len l) x = Ok data ∧
    list_rep (mk_list keys data (l_len l + 1) (l_capacity l)) (kvs ++ [(key, x)]).
Proof.
  intros [Hcap Hkl Hdl Hlen Hfit Hel] Hroom.
  rewrite !arr_set_ok by lia. do 2 eexists. split; [done|]. split; [done|].
  split; cbn; rewrite ?arr_len_insert; try done; try lia.
  { rewrite length_app. cbn. lia. }
  intros i k y Hi. unfold arr_len in *. rewrite Hlen, Nat2Z.id.
  destruct (decide (i < length kvs)%nat).
  - rewrite lookup_app_l in Hi by done. rewrite !list_lookup_insert_ne by lia. by apply Hel.
  - rewrite lookup_app_r in Hi by lia.
    destruct (i - length kvs)%nat eqn:E; [|done]. simplify_eq/=.
    replace i with (length kvs) by lia. rewrite !list_lookup_insert_eq by lia. done.
Qed.

Lemma list_append_rep l kvs key x :
  list_rep l kvs → list_room l →
  ∃ l', list_append l key x = Ok l' ∧ list_rep l' (kvs ++ [(key, x)]).
Proof.
  cap_bound. intros Hr Hroom. unfold list_append.
  assert (∃ l1, (if l_len l =? l_capacity l then list_resize l else Ok l) = Ok l1 ∧
    list_rep l1 kvs ∧ l_len l1 < l_capacity l1) as (l1 & -> & H1 & Hlt).
  { pose proof (lr_cap _ _ Hr). pose proof (lr_fit _ _ Hr).
    destruct (Z.eqb_spec (l_len l) (l_capacity l)).
    - destruct (list_resize_rep l kvs) as (l1 & ? & ? & ? & ?);
        [done|unfold list_room in Hroom; lia|].
      exists l1. split; [done|]. split; [done|lia].
    - exists l. split; [done|]. split; [done|lia]. }
  cbn. destruct (append_free_rep l1 kvs key x H1 Hlt) as (ks & ds & -> & -> & H2).
  cbn. pose proof (lr_cap _ _ H1).
  pose proof (lr_len _ _ H1). pose proof (lr_fit _ _ H1).
  rewrite int_of_ok by (unfold INT_MIN, INT_MAX; lia). eauto.
Qed.

Lemma list_append_oom l kvs key x :
  list_rep l kvs → oom_or (list_append l key x) (λ l', list_rep l' (kvs ++ [(key, x)])).
Proof.
  intros Hr.
  assert (list_room l ∨ ¬ list_room l) as [Hroom|Hfull] by (unfold list_room; lia).
  - destruct (list_append_rep l kvs key x Hr Hroom) as (l' & -> & ?). done.
  - cap_bound. unfold list_room in Hfull. unfold list_append, list_resize.
    pose proof (lr_fit _ _ Hr). pose proof (lr_cap _ _ Hr).
    rewrite (proj2 (Z.eqb_eq _ _)) by lia.
    rewrite int_of_ok by (unfold INT_MIN, INT_MAX; lia). cbn [mbind outcome_bind].
    by rewrite (c_realloc_refused (l_key l)) by lia.
Qed.

Lemma free_list_rep l kvs :
  list_rep l kvs → free_list l = if bool_decide (kvs = []) then Ok tt else Err AssertFailed.
Proof. intros Hr. unfold free_list. by rewrite (list_is_empty_rep _ _ Hr). Qed.

(** ** Refinement of a finite map *)

Lemma swap_remove_perm i kvs :
  (i < length kvs)%nat → swap_remove i kvs ≡ₚ take i kvs ++ drop (S i) kvs.
Proof.
  intros Hi. unfold swap_remove.
  destruct kvs as [|kx kvs _] using rev_ind; [cbn in Hi; lia|].
  rewrite last_snoc, length_app in *. cbn in Hi |- *.
  replace (length kvs + 1 - 1)%nat with (length kvs) by lia.
  destruct (decide (i = length kvs)) as [->|Hne].
  - rewrite take_insert_ge by lia. rewrite drop_ge by (rewrite length_app; cbn; lia).
    by rewrite app_nil_r.
  - rewrite take_insert_lt by lia. rewrite take_app_length.
    rewrite take_app_le by lia. rewrite drop_app_le by lia.
    rewrite insert_take_drop by lia. apply Permutation_app_head.
    apply Permutation_cons_append.
Qed.

(** [l] stores the finite map [m]: one pair per key. *)
Definition list_models l (m : gmap Z A) : Prop :=
  ∃ kvs, list_rep l kvs ∧ NoDup kvs.*1 ∧ list_to_map kvs = m.

Lemma list_models_init capacity :
  0 < capacity ≤ alloc_max → ∃ l, init_list capacity = Ok l ∧ list_models l ∅.
Proof.
  intros Hc. destruct (init_list_rep capacity Hc) as (l & Hl & Hr & _). exists l.
  split; [done|]. exists []. split; [done|]. split; [constructor|done].
Qed.

Lemma list_models_init_oom capacity :
  0 < capacity →
  oom_or (init_list capacity) (λ l, list_models l ∅ ∧ capacity ≤ alloc_max).
Proof.
  intros Hc. assert (capacity ≤ alloc_max ∨ alloc_max < capacity) as [Hs|Hl] by lia.
  - destruct (list_models_init capacity) as (l & -> & ?); [lia|done].
  - unfold init_list, c_malloc. by rewrite (proj2 (Z.leb_gt _ _)).
Qed.

Lemma list_models_empty l : list_models l ∅ → list_rep l [].
Proof.
  intros (kvs & Hr & _ & Hm). destruct kvs as [|[k x] kvs]; [done|]. exfalso.
  cbn in Hm. by apply insert_non_empty in Hm.
Qed.

Lemma list_models_length l m : list_models l m → list_length l = Z.of_nat (size m).
Proof.
  intros (kvs & Hr & Hnd & <-). unfold list_length. rewrite (lr_len _ _ Hr).
  by rewrite map_size_list_to_map by done.
Qed.

Lemma list_models_is_empty l m :
  list_models l m → list_is_empty l = bool_decide (m = ∅).
Proof.
  intros (kvs & Hr & Hnd & <-). rewrite (list_is_empty_rep _ _ Hr).
  apply bool_decide_ext. destruct kvs as [|[k x] kvs]; [done|].
  split; [done|]. intros Hm. exfalso. cbn in Hm. by apply insert_non_empty in Hm.
Qed.

Lemma list_models_lookup l m key :
  list_models l m → list_lookup l key = Ok (m !! key).
Proof.
  intros (kvs & Hr & Hnd & <-). rewrite (list_lookup_rep _ _ _ Hr). f_equal.
  destruct (find_key key kvs) as [i|] eqn:E; cbn.
  - destruct (find_key_Some _ _ _ E) as [x Hx]. rewrite Hx. cbn. symmetry.
    apply elem_of_list_to_map; [done|]. by eapply list_elem_of_lookup_2.
  - symmetry. apply not_elem_of_list_to_map. by apply find_key_None.
Qed.

Lemma append_models l kvs key x :
  list_rep l (kvs ++ [(key, x)]) → NoDup kvs.*1 →
  (list_to_map kvs : gmap Z A) !! key = None →
  list_models l (<[key := x]> (list_to_map kvs)).
Proof.
  intros Hr Hnd Hnone. exists (kvs ++ [(key, x)]). split; [done|].
  apply not_elem_of_list_to_map in Hnone.
  assert (kvs ++ [(key, x)] ≡ₚ (key, x) :: kvs) as Hp
    by (symmetry; apply Permutation_cons_append).
  split.
  - rewrite Hp. cbn. by apply NoDup_cons.
  - rewrite (list_to_map_proper (kvs ++ [(key, x)]) ((key, x) :: kvs)); [done| |done].
    rewrite Hp. cbn. by apply NoDup_cons.
Qed.

Lemma list_models_append l m key x :
  list_models l m → list_room l → m !! key = None →
  ∃ l', list_append l key x = Ok l' ∧ list_models l' (<[key := x]> m).
Proof.
  intros (kvs & Hr & Hnd & <-) Hroom Hnone.
  destruct (list_append_rep l kvs key x Hr Hroom) as (l' & Ha & Hr'). exists l'.
  split; [done|]. by apply append_models.
Qed.

Lemma list_models_append_oom l m key x :
  list_models l m → m !! key = None →
  oom_or (list_append l key x) (λ l', list_models l' (<[key := x]> m)).
Proof.
  intros (kvs & Hr & Hnd & <-) Hnone.
  eapply oom_or_mono; [by apply list_append_oom|]. intros. by apply append_models.
Qed.

Lemma list_models_remove l m key :
  list_models l m →
  ∃ l', list_remove l key = Ok l' ∧ list_models l' (delete key m).
Proof.
  intros (kvs & Hr & Hnd & <-).
  destruct (list_remove_rep l kvs key Hr) as (l' & Ha & _ & Hr'). exists l'.
  split; [done|]. destruct (find_key key kvs) as [i|] eqn:E.
  - destruct (find_key_Some _ _ _ E) as [x Hx].
    pose proof (swap_remove_perm i kvs (lookup_lt_Some _ _ _ Hx)) as Hp.
    eexists. split; [done|].
    rewrite <- (take_drop_middle kvs i (key, x)) in Hnd by done.
    rewrite fmap_app, fmap_cons in Hnd. cbn in Hnd.
    assert (NoDup (take i kvs ++ drop (S i) kvs).*1 ∧
      key ∉ (take i kvs ++ drop (S i) kvs).*1) as [Hnd' Hk].
    { rewrite fmap_app. apply NoDup_app in Hnd as (H1 & H2 & H3).
      apply NoDup_cons in H3 as [H3 H4].
      split; [apply NoDup_app; set_solver|set_solver]. }
    split; [by rewrite Hp|].
    rewrite (list_to_map_proper (swap_remove i kvs) (take i kvs ++ drop (S i) kvs));
      [|by rewrite Hp|done].
    rewrite <- (take_drop_middle kvs i (key, x)) at 3 by done.
    rewrite !list_to_map_app. cbn. apply not_elem_of_list_to_map in Hk.
    rewrite list_to_map_app in Hk.
    rewrite <- insert_union_r; [by rewrite delete_insert_id|].
    apply lookup_union_None in Hk. naive_solver.
  - apply find_key_None in E. exists kvs. split; [done|]. split; [done|].
    symmetry. apply delete_id. by apply not_elem_of_list_to_map.
Qed.

Lemma list_models_room l m :
  list_models l m → 2 * Z.of_nat (size m) ≤ alloc_max → list_room l.
Proof.
  intros Hm Hs. pose proof (list_models_length _ _ Hm) as Hl. unfold list_length in Hl.
  destruct Hm as (kvs & Hr & _). pose proof (lr_fit _ _ Hr). unfold list_room. lia.
Qed.

(** Sequences of calls, on the C structure and on the finite map. *)
Inductive list_op :=
  | Append (key : Z) (x : A)
  | Remove (key : Z)
  | Lookup (key : Z).

Fixpoint list_run (ops : list list_op) l : outcome (list (option A) * t_list A) :=
  match ops with
  | [] => Ok ([], l)
  | Append k x :: ops => l ← list_append l k x; list_run ops l
  | Remove k :: ops => l ← list_remove l k; list_run ops l
  | Lookup k :: ops =>
     r ← list_lookup l k;
     '(out, l) ← list_run ops l;
     Ok (r :: out, l)
  end.

(** [None] when a key is appended twice, which the server never does. *)
Fixpoint map_run (ops : list list_op) (m : gmap Z A) : option (list (option A) * gmap Z A) :=
  match ops with
  | [] => Some ([], m)
  | Append k x :: ops =>
     match m !! k with None => map_run ops (<[k := x]> m) | Some _ => None end
  | Remove k :: ops => map_run ops (delete k m)
  | Lookup k :: ops => '(out, m') ← map_run ops m; Some (m !! k :: out, m')
  end.

Lemma list_run_models ops : ∀ l m out m',
  list_models l m → 2 * Z.of_nat (size m + length ops) ≤ alloc_max →
  map_run ops m = Some (out, m') →
  ∃ l', list_run ops l = Ok (out, l') ∧ list_models l' m'.
Proof.
  induction ops as [|[k x|k|k] ops IH]; intros l m out m' Hm Hs Hrun; cbn in *.
  - simplify_eq. eauto.
  - destruct (m !! k) eqn:E; [done|].
    destruct (list_models_append l m k x) as (l1 & -> & H1);
      [done|eapply list_models_room; [done|lia]|done|].
    apply IH with (<[k := x]> m); [done| |done].
    rewrite map_size_insert_None by done. lia.
  - destruct (list_models_remove l m k Hm) as (l1 & -> & H1).
    apply IH with (delete k m); [done| |done].
    rewrite map_size_delete. destruct (m !! k); cbn; lia.
  - destruct (map_run ops m) as [[out1 m1]|] eqn:E; simplify_eq/=.
    rewrite (list_models_lookup l m k Hm). cbn.
    destruct (IH l m out1 m') as (l1 & -> & H1); [done|lia|done|]. cbn. eauto.
Qed.

(** C28: Any sequence of [list_append], [list_remove] and [list_lookup] calls
    on a fresh list, not longer than half the largest array that can be
    allocated, in which a key is appended only while
    it is absent, runs without error and gives, lookup by lookup, the answers
    of a finite map ([NULL] for an absent key): growing the arrays, moving the
    last pair over a removed one and reusing the freed cell are invisible. *)
Theorem arraylist_refines_map capacity ops out m :
  0 < capacity ≤ alloc_max →
  2 * Z.of_nat (length ops) ≤ alloc_max →
  map_run ops ∅ = Some (out, m) →
  ∃ l0 l, init_list capacity = Ok l0 ∧ list_run ops l0 = Ok (out, l) ∧ list_models l m.
Proof.
  intros Hc Ho Hrun. destruct (list_models_init capacity Hc) as (l0 & H0 & Hm).
  destruct (list_run_models ops l0 ∅ out m) as (l & Hl & Hl'); [done| |done|by eauto].
  rewrite map_size_empty. lia.
Qed.

End arraylist.

Lemma arraylist_refines_map_witness :
  let ops := [Append 7 70; Append 9 90; Append 4 40; Remove 7; Lookup 4; Lookup 7] in
  ∃ l0 l, @init_list strict_libc Z 1 = Ok l0 ∧
    @list_run strict_libc Z ops l0 = Ok ([Some 40; None], l) ∧
    @list_models strict_libc Z l (delete 7 (<[4 := 40]> (<[9 := 90]> (<[7 := 70]> ∅)))).
Proof.
  apply (@arraylist_refines_map strict_libc Z 1
    [Append 7 70; Append 9 90; Append 4 40; Remove 7; Lookup 4; Lookup 7]
    [Some 40; None]); [cbn; lia|cbn; lia|reflexivity].
Defined.
