(* ===== verification/CString.v ===== *)
(** * C strings

    What the programs use of the C library on [char] buffers: [strlen],
    [strcmp], [strncmp], [strtol]/[atoi]/[atol] in base ten, and the integer
    and ["%.2f"] conversions of [printf].  A buffer is the list of its bytes,
    terminator included; reading past its end is an error.  The file ends with
    the round trip between decimal printing and [strtol]. *)

From S2P Require Import Prelude.
From Stdlib Require Import Ascii SpecFloat.

Abbreviation cbuf := (list ascii).

Definition NUL : ascii := "000".
Definition LF : ascii := "010".

(** The array a string literal denotes. *)
Definition clit (s : string) : cbuf := String.list_ascii_of_string s ++ [NUL].

(** The bytes before the first terminator. *)
Fixpoint cstr (b : cbuf) : list ascii :=
  match b with
  | [] => []
  | c :: b => if decide (c = NUL) then [] else c :: cstr b
  end.

Fixpoint strlen (b : cbuf) : outcome Z :=
  match b with
  | [] => Err OutOfBounds
  | c :: b => if decide (c = NUL) then Ok 0 else n ← strlen b; Ok (n + 1)
  end.

(** Bytes compare as [unsigned char]. *)
Fixpoint strncmp (n : nat) (a b : cbuf) : outcome Z :=
  match n with
  | O => Ok 0
  | S n =>
     match a, b with
     | x :: a, y :: b =>
        if decide (x = y) then if decide (x = NUL) then Ok 0 else strncmp n a b
        else Ok (if (N_of_ascii x <? N_of_ascii y)%N then -1 else 1)
     | _, _ => Err OutOfBounds
     end
  end.

(** [strcmp] is the comparison that no length bounds. *)
Definition strcmp (a b : cbuf) : outcome Z := strncmp (length a + length b) a b.

(** ** Decimal conversions *)

Definition LONG_MAX : Z := 9223372036854775807.
Definition LONG_MIN : Z := -9223372036854775808.

Definition is_space (c : ascii) : bool :=
  let n := N_of_ascii c in (n =? 32)%N || ((9 <=? n) && (n <=? 13))%N.

Definition digit_val (c : ascii) : option Z :=
  let n := Z.of_N (N_of_ascii c) in
  if (48 <=? n) && (n <=? 57) then Some (n - 48) else None.

Fixpoint skip_space (b : cbuf) : cbuf :=
  match b with
  | c :: b' => if is_space c then skip_space b' else b
  | [] => []
  end.

(** The value of the longest digit prefix, [acc] being the digits read, and
    what follows it. *)
Fixpoint read_digits (acc : Z) (b : cbuf) : outcome (Z * cbuf) :=
  match b with
  | [] => Err OutOfBounds
  | c :: b' =>
     match digit_val c with
     | Some d => read_digits (acc * 10 + d) b'
     | None => Ok (acc, b)
     end
  end.

(** The mathematical value the string denotes (0 without digits) and the rest
    of the string; the rest is the whole string when there is no digit. *)
Definition read_decimal (b : cbuf) : outcome (Z * cbuf) :=
  match skip_space b with
  | [] => Err OutOfBounds
  | c :: t =>
     let '(neg, u) :=
       if decide (c = "-"%char) then (true, t)
       else if decide (c = "+"%char) then (false, t) else (false, c :: t) in
     '(v, r) ← read_digits 0 u;
     Ok (if neg then - v else v, if decide (r = u) then b else r)
  end.

(** [strtol(b, &rest, 10)]: the value saturates at the bounds of [long]; the
    boolean says that [errno] is set to [ERANGE]. *)
Definition strtol (b : cbuf) : outcome (Z * cbuf * bool) :=
  '(v, r) ← read_decimal b;
  Ok (Z.max LONG_MIN (Z.min LONG_MAX v), r, negb ((LONG_MIN <=? v) && (v <=? LONG_MAX))).

Definition atol (b : cbuf) : outcome Z := '(v, _, _) ← strtol b; Ok v.

(** [atoi] is [(int) strtol(b, NULL, 10)]. *)
Definition atoi (b : cbuf) : outcome Z := v ← atol b; Ok (cast_int v).

Definition digit_char (d : Z) : ascii := ascii_of_N (Z.to_N (d + 48)).

Fixpoint dec_nat (fuel : nat) (n : Z) : list ascii :=
  match fuel with
  | O => []
  | S fuel =>
     if n <? 10 then [digit_char n]
     else dec_nat fuel (n / 10) ++ [digit_char (n mod 10)]
  end.
Definition fmt_u (n : Z) : list ascii := dec_nat (S (Z.to_nat (Z.log2 n))) n.

(** ["%d"] *)
Definition fmt_d (z : Z) : list ascii :=
  if z <? 0 then "-"%char :: fmt_u (- z) else fmt_u z.

(** ** Paths: [basename] and [dirname] of POSIX, on the text of a string *)

Fixpoint drop_slashes (r : list ascii) : list ascii :=
  match r with
  | c :: r' => if decide (c = "/"%char) then drop_slashes r' else r
  | [] => []
  end.
(** The longest prefix without a slash, and the rest. *)
Fixpoint span_component (r : list ascii) : list ascii * list ascii :=
  match r with
  | c :: r' =>
     if decide (c = "/"%char) then ([], r)
     else let '(a, b) := span_component r' in (c :: a, b)
  | [] => ([], [])
  end.
Definition basename (p : list ascii) : list ascii :=
  match p with
  | [] => ["."%char]
  | _ =>
     match drop_slashes (rev p) with
     | [] => ["/"%char]
     | r => rev (span_component r).1
     end
  end.
Definition dirname (p : list ascii) : list ascii :=
  let r := (span_component (drop_slashes (rev p))).2 in
  match r with
  | [] => match p with "/"%char :: _ => ["/"%char] | _ => ["."%char] end
  | _ => match drop_slashes r with [] => ["/"%char] | r => rev r end
  end.

Example dirname_basename :
  map (λ p, (String.string_of_list_ascii (dirname (String.list_ascii_of_string p)),
             String.string_of_list_ascii (basename (String.list_ascii_of_string p))))
    ["/usr/lib"; "/usr/"; "usr"; "/"; "."; ".."; "a//b/"; ""]%string =
  [("/usr", "lib"); ("/", "usr"); (".", "usr"); ("/", "/"); (".", "."); (".", "..");
   ("a", "b"); (".", ".")]%string.
Proof. reflexivity. Qed.

(** ** Doubles

    IEEE binary64 values and operations are those of [SpecFloat]. *)
Definition double := spec_float.
Definition double_of_Z (z : Z) : double := binary_normalize 53 1024 z 0 false.
Definition double_add : double → double → double := SFadd 53 1024.
Definition double_div : double → double → double := SFdiv 53 1024.

(** [num/den] rounded to the nearest integer, ties to even. *)
Definition round_half_even (num den : Z) : Z :=
  let q := num / den in
  let r := num mod den in
  if 2 * r <? den then q
  else if den <? 2 * r then q + 1
  else if Z.even q then q else q + 1.

(** Hundredths in [m * 2^e], correctly rounded. *)
Definition hundredths (m : positive) (e : Z) : Z :=
  if 0 <=? e then Z.pos m * 2 ^ e * 100
  else round_half_even (Z.pos m * 100) (2 ^ (- e)).

Definition fmt_hundredths (h : Z) : list ascii :=
  fmt_u (h / 100) ++ ["."%char; digit_char (h / 10 mod 10); digit_char (h mod 10)].

(** ["%.2f"] *)
Definition fmt_2f (x : double) : list ascii :=
  match x with
  | S754_zero s => (if s then ["-"%char] else []) ++ fmt_hundredths 0
  | S754_infinity s => (if s then ["-"%char] else []) ++ ["i"%char; "n"%char; "f"%char]
  | S754_nan => ["n"%char; "a"%char; "n"%char]
  | S754_finite s m e => (if s then ["-"%char] else []) ++ fmt_hundredths (hundredths m e)
  end.

Example fmt_2f_ties :
  map (λ us, fmt_2f (double_add (double_of_Z 1) (double_div (double_of_Z us) (double_of_Z 1000000))))
    [5000; 15000; 994999; 0] =
  map String.list_ascii_of_string ["1.00"; "1.01"; "1.99"; "1.00"]%string.
Proof. vm_compute. reflexivity. Qed.

(** ["%f"] *)
Definition millionths (m : positive) (e : Z) : Z :=
  if 0 <=? e then Z.pos m * 2 ^ e * 1000000
  else round_half_even (Z.pos m * 1000000) (2 ^ (- e)).
Definition fmt_millionths (h : Z) : list ascii :=
  fmt_u (h / 1000000) ++ ["."%char]
  ++ map (λ k, digit_char (h / 10 ^ k mod 10)) [5; 4; 3; 2; 1; 0].
Definition fmt_f (x : double) : list ascii :=
  match x with
  | S754_zero s => (if s then ["-"%char] else []) ++ fmt_millionths 0
  | S754_infinity s => (if s then ["-"%char] else []) ++ ["i"%char; "n"%char; "f"%char]
  | S754_nan => ["n"%char; "a"%char; "n"%char]
  | S754_finite s m e => (if s then ["-"%char] else []) ++ fmt_millionths (millionths m e)
  end.

Example fmt_f_third :
  fmt_f (double_div (double_of_Z 200) (double_of_Z 300)) = String.list_ascii_of_string "0.666667".
Proof. vm_compute. reflexivity. Qed.

(** [snprintf(buf, len, ...)] of the formatted text: the buffer and the result. *)
Definition snprintf (len : Z) (text : list ascii) : cbuf * Z :=
  (take (Z.to_nat (len - 1)) text ++ [NUL], Z.of_nat (length text)).

(** ** Lemmas on strings *)

Lemma clit_cstr s : NUL ∉ String.list_ascii_of_string s → cstr (clit s) = String.list_ascii_of_string s.
Proof.
  unfold clit. induction (String.list_ascii_of_string s) as [|c l IH]; intros Hn; cbn.
  - done.
  - apply not_elem_of_cons in Hn as [? ?]. rewrite decide_False by done. by rewrite IH.
Qed.

(** A terminated buffer: the text, then the terminator, then anything. *)
Lemma cstr_app s r : NUL ∉ s → cstr (s ++ NUL :: r) = s.
Proof.
  induction s as [|c s IH]; intros Hn; cbn; [done|].
  apply not_elem_of_cons in Hn as [? ?]. rewrite decide_False by done. by rewrite IH.
Qed.

Lemma cstr_no_nul b : NUL ∉ cstr b.
Proof.
  induction b as [|c b IH]; cbn; [set_solver|]. case_decide; set_solver.
Qed.

Lemma cstr_split b : NUL ∈ b → ∃ r, b = cstr b ++ NUL :: r.
Proof.
  induction b as [|c b IH]; intros Hin; [set_solver|]. cbn.
  case_decide as Hc; [exists b; by subst|].
  apply elem_of_cons in Hin as [?|Hin]; [done|]. destruct (IH Hin) as [r Hr].
  exists r. cbn. by rewrite <- Hr.
Qed.

Lemma strlen_ok b : NUL ∈ b → strlen b = Ok (Z.of_nat (length (cstr b))).
Proof.
  induction b as [|c b IH]; intros Hin; [set_solver|]. cbn.
  case_decide; [done|]. apply elem_of_cons in Hin as [?|Hin]; [congruence|].
  rewrite IH by done. cbn. f_equal. lia.
Qed.

(** [strncmp] on terminated strings, when the bound covers one of them, is
    equality of the strings. *)
Lemma strncmp_eq n a b :
  NUL ∈ a → NUL ∈ b → (length (cstr a) < n ∨ length (cstr b) < n)%nat →
  ∃ v, strncmp n a b = Ok v ∧ (v = 0 ↔ cstr a = cstr b).
Proof.
  revert a b. induction n as [|n IH]; intros a b Ha Hb Hn; [lia|].
  destruct a as [|x a]; [set_solver|]. destruct b as [|y b]; [set_solver|].
  rewrite elem_of_cons in Ha, Hb. cbn in Hn |- *.
  destruct (decide (x = y)) as [<-|Hne].
  - destruct (decide (x = NUL)); [by exists 0|].
    destruct (IH a b) as (v & Hv & Hiff); [naive_solver|naive_solver|cbn in Hn; lia|].
    exists v. split; [done|]. rewrite Hiff. split; congruence.
  - exists (if (N_of_ascii x <? N_of_ascii y)%N then -1 else 1). split; [done|].
    assert (∀ s : bool, (if s then -1 else 1) ≠ 0) as Hs by (by intros []).
    split; [by intros ?%Hs|].
    destruct (decide (x = NUL)), (decide (y = NUL)); congruence.
Qed.

Lemma length_cstr b : (length (cstr b) ≤ length b)%nat.
Proof. induction b as [|c b IH]; cbn; [lia|]. case_decide; cbn; lia. Qed.

Lemma strcmp_eq a b :
  NUL ∈ a → NUL ∈ b → ∃ v, strcmp a b = Ok v ∧ (v = 0 ↔ cstr a = cstr b).
Proof.
  intros Ha Hb. apply strncmp_eq; [done..|]. left.
  pose proof (length_cstr a). destruct b; [set_solver|]. cbn. lia.
Qed.

(** ** Decimal round trip *)

Lemma digit_val_char d : 0 ≤ d < 10 → digit_val (digit_char d) = Some d.
Proof.
  intros Hd. assert (d = 0 ∨ d = 1 ∨ d = 2 ∨ d = 3 ∨ d = 4 ∨ d = 5 ∨ d = 6 ∨ d = 7
    ∨ d = 8 ∨ d = 9) as Hc by lia.
  repeat destruct Hc as [->|Hc]; try subst d; reflexivity.
Qed.

(** A digit is neither blank, nor a sign, nor a terminator. *)
Lemma digit_val_Some c d :
  digit_val c = Some d →
  is_space c = false ∧ c ≠ "-"%char ∧ c ≠ "+"%char ∧ c ≠ NUL ∧ 0 ≤ d < 10.
Proof.
  unfold digit_val, is_space. destruct (_ && _) eqn:E; [|done]. intros ?; simplify_eq.
  apply andb_true_iff in E as [E1 E2]. apply Z.leb_le in E1, E2.
  split; [|split_and!; try lia; intros ->; cbn in *; lia].
  apply orb_false_iff.
  split; [apply N.eqb_neq; lia|]. apply andb_false_iff. right. apply N.leb_gt. lia.
Qed.

Lemma dec_nat_read fuel n acc r :
  0 ≤ n < 2 ^ Z.of_nat fuel →
  read_digits acc (dec_nat fuel n ++ r) =
  read_digits (acc * 10 ^ Z.of_nat (length (dec_nat fuel n)) + n) r.
Proof.
  revert n acc r. induction fuel as [|fuel IH]; intros n acc r Hn; cbn [dec_nat].
  { cbn in Hn |- *. f_equal. lia. }
  destruct (Z.ltb_spec n 10) as [Hlt|Hge].
  - cbn [app length read_digits]. rewrite digit_val_char by lia. done.
  - rewrite Nat2Z.inj_succ, Z.pow_succ_r in Hn by lia.
    pose proof (Z.mod_pos_bound n 10 ltac:(lia)) as Hm.
    pose proof (Z.div_mod n 10 ltac:(lia)) as Hd.
    rewrite <- app_assoc, IH by (split; [lia|nia]). cbn [app read_digits].
    rewrite digit_val_char by lia. f_equal.
    rewrite length_app, Nat2Z.inj_add, Z.pow_add_r by lia. cbn [length].
    change (10 ^ Z.of_nat 1) with 10. nia.
Qed.

Lemma fmt_u_fuel n : 0 ≤ n → n < 2 ^ Z.of_nat (S (Z.to_nat (Z.log2 n))).
Proof.
  intros Hn. rewrite Nat2Z.inj_succ, Z2Nat.id by apply Z.log2_nonneg.
  destruct (decide (n = 0)) as [->|]; [done|]. apply Z.log2_spec. lia.
Qed.

Lemma read_digits_fmt_u n acc r :
  0 ≤ n →
  read_digits acc (fmt_u n ++ r) =
  read_digits (acc * 10 ^ Z.of_nat (length (fmt_u n)) + n) r.
Proof. intros. apply dec_nat_read. split; [done|by apply fmt_u_fuel]. Qed.

Lemma dec_nat_digits fuel n :
  0 ≤ n → Forall (λ c, is_Some (digit_val c)) (dec_nat fuel n).
Proof.
  revert n. induction fuel as [|fuel IH]; intros n Hn; cbn [dec_nat]; [constructor|].
  destruct (Z.ltb_spec n 10).
  - constructor; [rewrite digit_val_char by lia; eauto|constructor].
  - apply Forall_app. split; [apply IH; apply Z.div_pos; lia|].
    constructor; [|constructor]. rewrite digit_val_char by (apply Z.mod_pos_bound; lia). eauto.
Qed.

Lemma fmt_u_cons n : 0 ≤ n → ∃ c t d, fmt_u n = c :: t ∧ digit_val c = Some d.
Proof.
  intros Hn. pose proof (dec_nat_digits (S (Z.to_nat (Z.log2 n))) n Hn) as Hd.
  unfold fmt_u. destruct (dec_nat _ n) as [|c t] eqn:E.
  - cbn [dec_nat] in E. destruct (n <? 10); [done|]. by apply app_nil in E as [_ ?].
  - apply Forall_cons in Hd as [[d Hd] _]. eauto 6.
Qed.

(** [fmt_d] and [read_decimal] are inverse, whatever follows the number. *)
Lemma read_decimal_fmt_d z c r :
  digit_val c = None → read_decimal (fmt_d z ++ c :: r) = Ok (z, c :: r).
Proof.
  intros Hc. unfold read_decimal, fmt_d.
  destruct (Z.ltb_spec z 0) as [Hneg|Hpos].
  - destruct (fmt_u_cons (- z)) as (x & t & d & E & Hd); [lia|]. cbn [app skip_space].
    change (is_space "-"%char) with false. cbn [decide].
    rewrite decide_True by done. rewrite read_digits_fmt_u by lia.
    cbn [read_digits]. rewrite Hc. cbn [mbind outcome_bind]. rewrite decide_False.
    + f_equal. f_equal. lia.
    + intros Heq%(f_equal length). rewrite E in Heq. cbn in Heq. rewrite length_app in Heq.
      cbn in Heq. lia.
  - destruct (fmt_u_cons z) as (x & t & d & E & Hd); [lia|].
    destruct (digit_val_Some _ _ Hd) as (Hs & Hm & Hp & _).
    rewrite E. cbn [app skip_space]. rewrite Hs. rewrite !decide_False by done.
    change (x :: t ++ c :: r) with ((x :: t) ++ c :: r). rewrite <- E.
    rewrite read_digits_fmt_u by lia. cbn [read_digits]. rewrite Hc.
    cbn [mbind outcome_bind]. rewrite decide_False.
    + f_equal.
    + intros Heq%(f_equal length). rewrite E in Heq. cbn in Heq. rewrite length_app in Heq.
      cbn in Heq. lia.
Qed.

Lemma atol_fmt_d z r :
  LONG_MIN ≤ z ≤ LONG_MAX → atol (fmt_d z ++ NUL :: r) = Ok z.
Proof.
  intros Hz. unfold atol, strtol. rewrite read_decimal_fmt_d by done. cbn. f_equal. lia.
Qed.

Lemma atoi_fmt_d z r : INT_MIN ≤ z ≤ INT_MAX → atoi (fmt_d z ++ NUL :: r) = Ok z.
Proof.
  intros Hz. unfold atoi.
  rewrite atol_fmt_d by (unfold INT_MIN, INT_MAX, LONG_MIN, LONG_MAX in *; lia).
  cbn. by rewrite cast_int_small.
Qed.

Lemma read_digits_ok acc b : NUL ∈ b → ∃ v r, read_digits acc b = Ok (v, r).
Proof.
  revert acc. induction b as [|c b IH]; intros acc Hin; [set_solver|]. cbn.
  destruct (digit_val c) as [d|] eqn:E; [|eauto].
  apply elem_of_cons in Hin as [<-|Hin]; [done|]. by apply IH.
Qed.

(** A terminated string has a value. *)
Lemma atol_ok b : NUL ∈ b → ∃ v, atol b = Ok v ∧ LONG_MIN ≤ v ≤ LONG_MAX.
Proof.
  intros Hin.
  assert (NUL ∈ skip_space b) as Hs.
  { induction b as [|c b IH]; [done|]. cbn. destruct (is_space c) eqn:E; [|done].
    apply elem_of_cons in Hin as [<-|Hin]; [done|]. by apply IH. }
  unfold atol, strtol, read_decimal. destruct (skip_space b) as [|c t]; [set_solver|].
  assert (∃ neg u, (if decide (c = "-"%char) then (true, t)
       else if decide (c = "+"%char) then (false, t) else (false, c :: t)) = (neg, u) ∧ NUL ∈ u)
    as (neg & u & -> & Hu).
  { repeat case_decide; subst; do 2 eexists; (split; [done|]); [| |done];
      by apply elem_of_cons in Hs as [?|?]. }
  destruct (read_digits_ok 0 u Hu) as (v & r & ->). cbn. eexists. split; [done|].
  unfold LONG_MIN, LONG_MAX. lia.
Qed.

Lemma atoi_ok b : NUL ∈ b → ∃ v, atoi b = Ok v ∧ INT_MIN ≤ v ≤ INT_MAX.
Proof.
  intros (v & Hv & _)%atol_ok. unfold atoi. rewrite Hv. cbn. eexists. split; [done|].
  apply cast_int_range.
Qed.

Lemma dec_nat_length fuel n k :
  0 ≤ n < 10 ^ Z.of_nat k → (0 < k)%nat → (length (dec_nat fuel n) ≤ k)%nat.
Proof.
  revert n k. induction fuel as [|fuel IH]; intros n k Hn Hk; cbn [dec_nat]; [cbn; lia|].
  destruct (Z.ltb_spec n 10); [cbn; lia|]. rewrite length_app. cbn.
  destruct k as [|[|k]]; [lia|cbn in Hn; lia|].
  rewrite Nat2Z.inj_succ, Z.pow_succ_r in Hn by lia.
  enough (length (dec_nat fuel (n / 10)) ≤ S k)%nat by lia.
  apply IH; [|lia]. split; [apply Z.div_pos; lia|].
  apply Z.div_lt_upper_bound; lia.
Qed.

Lemma fmt_u_length n k :
  0 ≤ n < 10 ^ Z.of_nat k → (0 < k)%nat → (length (fmt_u n) ≤ k)%nat.
Proof. apply dec_nat_length. Qed.

Lemma fmt_u_no n c : 0 ≤ n → digit_val c = None → c ∉ fmt_u n.
Proof.
  intros Hn Hc Hin. pose proof (dec_nat_digits (S (Z.to_nat (Z.log2 n))) n Hn) as Hd.
  rewrite Forall_forall in Hd. destruct (Hd c Hin). congruence.
Qed.

Lemma fmt_d_no z c : digit_val c = None → c ≠ "-"%char → c ∉ fmt_d z.
Proof.
  intros Hc Hm. unfold fmt_d. destruct (Z.ltb_spec z 0).
  - rewrite not_elem_of_cons. split; [done|]. apply fmt_u_no; [lia|done].
  - by apply fmt_u_no.
Qed.

Lemma hundredths_nonneg m e : 0 ≤ hundredths m e.
Proof.
  unfold hundredths, round_half_even. destruct (Z.leb_spec 0 e).
  - pose proof (Z.pow_nonneg 2 e). nia.
  - assert (0 ≤ Z.pos m * 100 / 2 ^ (- e)).
    { apply Z.div_pos; [lia|]. apply Z.pow_pos_nonneg; lia. }
    repeat case_match; lia.
Qed.

Lemma fmt_hundredths_no h c :
  0 ≤ h → digit_val c = None → c ≠ "."%char → c ∉ fmt_hundredths h.
Proof.
  intros Hh Hc Hdot. unfold fmt_hundredths. rewrite not_elem_of_app, !not_elem_of_cons.
  assert (∀ d, 0 ≤ d < 10 → c ≠ digit_char d) as Hd.
  { intros d Hd ->. by rewrite digit_val_char in Hc. }
  split; [apply fmt_u_no; [apply Z.div_pos; lia|done]|].
  split_and!; [done|apply Hd, Z.mod_pos_bound; lia..|set_solver].
Qed.

Lemma fmt_2f_no x c :
  digit_val c = None → c ∉ ["-"; "."; "i"; "n"; "f"; "a"]%char → c ∉ fmt_2f x.
Proof.
  intros Hc Hn. rewrite !not_elem_of_cons in Hn. destruct_and!.
  assert (∀ h, 0 ≤ h → c ∉ fmt_hundredths h) as Hh by (intros; by apply fmt_hundredths_no).
  assert (∀ (s : bool) l, c ∉ l → c ∉ (if s then ["-"%char] else []) ++ l) as Hs
    by (intros [] l Hl; set_solver).
  unfold fmt_2f. destruct x as [s|s| |s m e].
  - apply Hs, Hh. lia.
  - apply Hs. set_solver.
  - set_solver.
  - apply Hs, Hh, hundredths_nonneg.
Qed.

(** The whole text fits into the buffer. *)
Lemma snprintf_fits len text :
  Z.of_nat (length text) < len → (snprintf len text).1 = text ++ [NUL].
Proof. intros. unfold snprintf. cbn. by rewrite take_ge by lia. Qed.
