(* ===== verification/ReadBuf.v ===== *)
(** * The read buffer (src/server/readbuf.h, src/server/readbuf.c)

    Bytes are appended by [prepare_read], a [read] into the returned region and
    [have_read], and consumed from the front by [have_taken].  [rb_rep b s]
    says that the buffer holds the byte string [s]. *)

From S2P Require Import Prelude CString.
From Stdlib Require Import Ascii.

Record t_readbuf := mk_readbuf {
  rb_data : arr ascii;
  rb_len : Z;
  rb_capacity : Z
}.

Section readbuf.
Context `{Libc}.
Implicit Types (b : t_readbuf) (s : list ascii).

Definition init_readbuf (capacity : Z) : outcome t_readbuf :=
  _ ← c_assert (0 <? capacity);
  data ← c_malloc capacity;
  Ok (mk_readbuf data 0 capacity).

Definition resize_readbuf b (newcapacity : Z) : outcome t_readbuf :=
  data ← c_realloc (rb_data b) newcapacity;
  Ok (mk_readbuf data (rb_len b) newcapacity).

(** Returns the offset of the free region in the array, and the buffer. *)
Definition prepare_read b (size : Z) : outcome (Z * t_readbuf) :=
  b ← (if rb_capacity b <? size_t (rb_len b + size)
       then resize_readbuf b (size_t (size_t (rb_capacity b + size) * 2))
       else Ok b);
  Ok (rb_len b, b).

Definition have_read b (size : Z) : outcome t_readbuf :=
  _ ← c_assert (size_t (rb_len b + size) <=? rb_capacity b);
  Ok (mk_readbuf (rb_data b) (size_t (rb_len b + size)) (rb_capacity b)).

Definition have_taken b (size : Z) : outcome t_readbuf :=
  _ ← c_assert (size <=? rb_len b);
  data ← arr_memcpy (rb_data b) 0 size (size_t (rb_len b - size));
  Ok (mk_readbuf data (size_t (rb_len b - size)) (rb_capacity b)).

Definition clear_readbuf b : t_readbuf :=
  mk_readbuf (rb_data b) 0 (rb_capacity b).

(** [free(b->data)]: the block has no cells any more, so that every later access
    to it is out of bounds.  ([free(b)]: the buffer is part of the value that
    holds it, and goes with it.) *)
Definition free_readbuf b : t_readbuf :=
  mk_readbuf [] (rb_len b) (rb_capacity b).

(** The store effect of [read(fd, data + off, _)] delivering [bs]. *)
Fixpoint fill_at (a : arr ascii) (off : Z) (bs : list ascii) : outcome (arr ascii) :=
  match bs with
  | [] => Ok a
  | c :: bs => a ← arr_set a off c; fill_at a (off + 1) bs
  end.
Definition readbuf_fill b (off : Z) (bs : list ascii) : outcome t_readbuf :=
  data ← fill_at (rb_data b) off bs;
  Ok (mk_readbuf data (rb_len b) (rb_capacity b)).

(** ** Representation *)

Record rb_rep b s : Prop := {
  rr_cap : 0 < rb_capacity b ≤ alloc_max;
  rr_data : arr_len (rb_data b) = rb_capacity b;
  rr_len : rb_len b = Z.of_nat (length s);
  rr_fit : rb_len b ≤ rb_capacity b;
  rr_elems : ∀ i c, s !! i = Some c → rb_data b !! i = Some (Some c)
}.

Lemma init_readbuf_rep capacity :
  0 < capacity → oom_or (init_readbuf capacity) (λ b, rb_rep b []).
Proof.
  intros Hc. unfold init_readbuf, c_assert. rewrite (proj2 (Z.ltb_lt _ _)) by lia.
  cbn [mbind outcome_bind].
  eapply oom_or_bind; [apply c_malloc_oom|].
  intros a [Hn ->]. split; cbn; try done; try lia. by apply arr_len_new; lia.
Qed.

Local Ltac cap_bound := pose proof alloc_max_range; unfold INT_MAX, SIZE_MOD in *.

(** After [prepare_read] there is room for [size] more bytes, and the contents
    are unchanged. *)
Lemma prepare_read_rep b s size :
  rb_rep b s → 0 ≤ size ≤ INT_MAX →
  oom_or (prepare_read b size) (λ '(off, b'), off = Z.of_nat (length s) ∧ rb_rep b' s ∧
    Z.of_nat (length s) + size ≤ rb_capacity b').
Proof.
  intros [Hc Hd Hl Hf He] Hs. unfold prepare_read. cap_bound.
  rewrite (size_t_small (rb_len b + size)) by (unfold SIZE_MOD; lia).
  destruct (Z.ltb_spec (rb_capacity b) (rb_len b + size)); cbn [mbind outcome_bind].
  2:{ cbn. split; [done|]. split; [by split|lia]. }
  rewrite !size_t_small by (rewrite ?size_t_small by (unfold SIZE_MOD; lia); unfold SIZE_MOD; lia).
  eapply (oom_or_bind _ _ (λ b', rb_len b' = rb_len b ∧ rb_rep b' s ∧
     rb_capacity b' = (rb_capacity b + size) * 2)).
  2:{ intros b' (Hl' & Hr & Hc'). cbn. split; [lia|]. split; [done|lia]. }
  unfold resize_readbuf. eapply oom_or_bind; [apply c_realloc_oom|].
  intros a [Hn ->]. cbn. split; [done|]. split; [|done].
  split; cbn; rewrite ?arr_len_realloc by lia; try done; try lia.
  intros i c Hi. unfold arr_len in *.
  pose proof (lookup_lt_Some _ _ _ (He i c Hi)).
  rewrite arr_realloc_lookup by lia. by apply He.
Qed.

Lemma fill_at_ok a off bs :
  0 ≤ off → off + Z.of_nat (length bs) ≤ arr_len a →
  ∃ a', fill_at a off bs = Ok a' ∧ arr_len a' = arr_len a ∧
    (∀ i c, bs !! i = Some c → a' !! (Z.to_nat off + i)%nat = Some (Some c)) ∧
    (∀ i, (i < Z.to_nat off)%nat → a' !! i = a !! i).
Proof.
  revert a off. induction bs as [|c bs IH]; intros a off H0 Hb; cbn in *.
  { eexists. split; [done|]. split; [done|]. split; [|done]. intros i c Hi. done. }
  rewrite arr_set_ok by lia. cbn.
  destruct (IH (<[Z.to_nat off := Some c]> a) (off + 1)) as (a' & -> & Hl & H1 & H2);
    [lia|rewrite arr_len_insert; lia|].
  eexists. split; [done|]. rewrite arr_len_insert in Hl. split; [done|].
  unfold arr_len in *. split.
  - intros [|i] d Hi; simplify_eq/=.
    + rewrite H2 by lia. rewrite Nat.add_0_r. rewrite list_lookup_insert_eq by lia. done.
    + rewrite <- (H1 i d Hi). f_equal. lia.
  - intros i Hi. rewrite H2 by lia. rewrite list_lookup_insert_ne by lia. done.
Qed.

(** One read: the delivered bytes are appended. *)
Lemma fill_read_rep b s size bs :
  rb_rep b s → Z.of_nat (length bs) ≤ size → Z.of_nat (length s) + size ≤ rb_capacity b →
  ∃ b1 b2, readbuf_fill b (Z.of_nat (length s)) bs = Ok b1 ∧
    have_read b1 (Z.of_nat (length bs)) = Ok b2 ∧ rb_rep b2 (s ++ bs).
Proof.
  intros [Hc Hd Hl Hf He] Hbs Hroom. cap_bound.
  destruct (fill_at_ok (rb_data b) (Z.of_nat (length s)) bs) as (a & Ea & Hal & Ha1 & Ha2);
    [lia|lia|].
  do 2 eexists. unfold readbuf_fill. rewrite Ea. split; [done|].
  unfold have_read. cbn. rewrite size_t_small by (unfold SIZE_MOD; lia).
  unfold c_assert. rewrite (proj2 (Z.leb_le _ _)) by lia. split; [done|].
  rewrite Nat2Z.id in *. split; cbn; try done; try lia.
  - rewrite length_app. lia.
  - intros i c Hi. apply lookup_app_Some in Hi as [Hi|[Hge Hi]].
    + rewrite Ha2 by (by eapply lookup_lt_Some). by apply He.
    + rewrite <- (Ha1 _ c Hi). f_equal. lia.
Qed.

(** Consuming [size] bytes keeps exactly the others, in order, unless more
    bytes remain than are taken: then the two regions overlap. *)
Lemma have_taken_rep b s size :
  rb_rep b s → 0 < size ≤ Z.of_nat (length s) →
  if decide (size < Z.of_nat (length s) - size)
  then have_taken b size = Err OverlappingCopy
  else ∃ b', have_taken b size = Ok b' ∧ rb_rep b' (drop (Z.to_nat size) s).
Proof.
  intros [Hc Hd Hl Hf He] Hs. cap_bound. unfold have_taken, c_assert.
  rewrite (proj2 (Z.leb_le _ _)) by lia. cbn. rewrite size_t_small by (unfold SIZE_MOD; lia).
  case_decide; [by rewrite arr_memcpy_overlap by lia|].
  rewrite arr_memcpy_disjoint by lia. cbn. eexists. split; [done|].
  split; cbn; rewrite ?arr_len_move; try done; try lia.
  - rewrite length_drop. lia.
  - intros i c Hi. pose proof (lookup_lt_Some _ _ _ Hi) as Hlt. rewrite length_drop in Hlt.
    rewrite arr_move_lookup by lia.
    rewrite (proj2 (Z.leb_le _ _)), (proj2 (Z.ltb_lt _ _)) by lia. cbn.
    rewrite lookup_drop in Hi. rewrite <- (He _ c Hi). f_equal. lia.
Qed.

Lemma clear_readbuf_rep b s : rb_rep b s → rb_rep (clear_readbuf b) [].
Proof. intros [Hc Hd Hl Hf He]. split; cbn; try done; lia. Qed.

(** Under the C standard's reading of [memcpy], [have_taken] has undefined
    behaviour exactly when what remains in the buffer is longer than what is
    taken out: the source and the destination of its [memcpy] overlap then. *)
Theorem have_taken_overlap b s size :
  rb_rep b s → 0 < size ≤ Z.of_nat (length s) →
  (have_taken b size = Err OverlappingCopy ↔ size < Z.of_nat (length s) - size).
Proof.
  intros Hr Hs. pose proof (have_taken_rep b s size Hr Hs) as Ht. case_decide; [done|].
  destruct Ht as (b' & -> & _). split; [done|lia].
Qed.
End readbuf.

(** A buffer of eight bytes from which two are taken. *)
Lemma have_taken_overlap_witness :
  let b := mk_readbuf (replicate 8 (Some "x"%char)) 8 8 in
  have_taken b 2 = Err OverlappingCopy.
Proof.
  apply (proj2 (@have_taken_overlap strict_libc (mk_readbuf (replicate 8 (Some "x"%char)) 8 8)
    (replicate 8 "x"%char) 2
    ltac:(split; cbn; try lia; try done; intros i c Hi;
          apply (f_equal (fmap Some)) in Hi; rewrite <- list_lookup_fmap in Hi;
          cbn in Hi; exact Hi)
    ltac:(cbn; lia))).
  cbn. lia.
Defined.
