(* ===== verification/WriteBuf.v ===== *)
(** * The write buffer (src/server/writebuf.h, src/server/writebuf.c)

    The message being written, how much of it is written already, and the queue
    of the messages that wait.  [wb_rep b w msgs ptr] gives the pending messages;
    the bytes still to be sent are [pending msgs ptr].  Whatever the sizes of the
    partial writes, the bytes handed to [write] are the pushed messages, in
    order, without loss or duplication. *)

From S2P Require Import Prelude CString Queue.
From Stdlib Require Import Ascii.

(** [wb_data = None] is the null pointer. *)
Record t_writebuf := mk_writebuf {
  wb_data : option cbuf;
  wb_len : Z;
  wb_pointer : Z;
  wb_is_writing : bool;
  wb_writequeue : t_queue cbuf
}.

Section writebuf.
Context `{Libc}.
Implicit Types (b : t_writebuf) (m : cbuf) (msgs : list cbuf).

Definition init_writebuf (capacity : Z) : outcome t_writebuf :=
  q ← init_queue (uint capacity);
  Ok (mk_writebuf None 0 0 false q).

Definition can_write b : bool := negb (wb_is_writing b).

Definition has_write_data b : bool :=
  match wb_data b with Some _ => true | None => false end.

(** The result is the region [data + pointer], the size and the buffer. *)
Definition prepare_write b : outcome (cbuf * Z * t_writebuf) :=
  _ ← c_assert (can_write b);
  _ ← c_assert (has_write_data b);
  let size := wb_len b - wb_pointer b in
  match wb_data b with
  | Some data =>
     Ok (drop (Z.to_nat (wb_pointer b)) data, size,
         mk_writebuf (Some data) (wb_len b) (wb_pointer b) true (wb_writequeue b))
  | None => Err NullDeref
  end.

Definition have_written b (size : Z) : outcome t_writebuf :=
  _ ← c_assert (wb_is_writing b);
  pointer ← int_of (wb_pointer b + size);
  _ ← c_assert (pointer <=? wb_len b);
  if pointer <? wb_len b then
    Ok (mk_writebuf (wb_data b) (wb_len b) pointer false (wb_writequeue b))
  else if negb (queue_is_empty (wb_writequeue b)) then
    '(data, q) ← queue_pop (wb_writequeue b);
    len ← strlen data;
    Ok (mk_writebuf (Some data) (cast_int len) 0 false q)
  else Ok (mk_writebuf None 0 0 false (wb_writequeue b)).

Definition push_write_data b (data : cbuf) : outcome t_writebuf :=
  if has_write_data b then
    q ← queue_push (wb_writequeue b) data;
    Ok (mk_writebuf (wb_data b) (wb_len b) (wb_pointer b) (wb_is_writing b) q)
  else
    len ← strlen data;
    Ok (mk_writebuf (Some data) (cast_int len) 0 (wb_is_writing b) (wb_writequeue b)).

(** Pops and frees every waiting message; [n] bounds the loop. *)
Fixpoint free_writebuf_loop (n : nat) (q : t_queue cbuf) : outcome (t_queue cbuf) :=
  if queue_is_empty q then Ok q
  else match n with
       | O => Err OutOfFuel
       | S n => '(_, q) ← queue_pop q; free_writebuf_loop n q
       end.
Definition free_writebuf b : outcome unit :=
  q ← free_writebuf_loop (Z.to_nat (q_len (wb_writequeue b))) (wb_writequeue b);
  free_queue q.

(** ** Representation *)

(** What [push_write_data] expects of a message: a terminated, non-empty string
    whose length is an [int]. *)
Definition message_ok m : Prop :=
  NUL ∈ m ∧ 0 < Z.of_nat (length (cstr m)) ≤ INT_MAX.

(** [w] is the [is_writing] flag, [ptr] the number of bytes of the first message
    that are already written. *)
Definition wb_rep b (w : bool) msgs (ptr : Z) : Prop :=
  wb_is_writing b = w ∧ Forall message_ok msgs ∧ wb_pointer b = ptr ∧
  match msgs with
  | [] => wb_data b = None ∧ wb_len b = 0 ∧ ptr = 0 ∧ queue_rep (wb_writequeue b) []
  | m :: ms =>
     wb_data b = Some m ∧ wb_len b = Z.of_nat (length (cstr m)) ∧
     0 ≤ ptr < Z.of_nat (length (cstr m)) ∧ queue_rep (wb_writequeue b) ms
  end.

(** The bytes still to be sent. *)
Definition pending msgs (ptr : Z) : list ascii :=
  drop (Z.to_nat ptr) (concat (cstr <$> msgs)).

Local Ltac wb_split := unfold wb_rep; cbn; split_and!; try done; try lia.

Lemma init_writebuf_rep capacity :
  0 < capacity ≤ alloc_max → ∃ b, init_writebuf capacity = Ok b ∧ wb_rep b false [] 0.
Proof.
  intros Hc. unfold init_writebuf. pose proof alloc_max_range.
  rewrite uint_small by (unfold UINT_MOD; lia).
  destruct (init_queue_rep (A:=cbuf) capacity) as (q & -> & Hr & _); [lia|]. cbn.
  eexists. split; [done|]. by wb_split.
Qed.

Lemma init_writebuf_oom capacity :
  0 < capacity ≤ INT_MAX → oom_or (init_writebuf capacity) (λ b, wb_rep b false [] 0).
Proof.
  intros Hc. unfold init_writebuf, INT_MAX in *. rewrite uint_small by (unfold UINT_MOD; lia).
  eapply oom_or_bind; [apply init_queue_oom; lia|]. intros q Hq. by wb_split.
Qed.

Lemma has_write_data_rep b w msgs ptr :
  wb_rep b w msgs ptr → has_write_data b = bool_decide (msgs ≠ []).
Proof.
  intros (_ & _ & _ & Hm). unfold has_write_data.
  destruct msgs; destruct Hm as [-> _]; [done|by rewrite bool_decide_true].
Qed.

Lemma pending_cons m ms ptr :
  0 ≤ ptr ≤ Z.of_nat (length (cstr m)) →
  pending (m :: ms) ptr = drop (Z.to_nat ptr) (cstr m) ++ concat (cstr <$> ms).
Proof. intros. unfold pending. cbn. rewrite drop_app_le by lia. done. Qed.

(** [prepare_write] offers the rest of the current message, a prefix of the
    pending bytes. *)
Lemma prepare_write_rep b m ms ptr :
  wb_rep b false (m :: ms) ptr →
  ∃ buf size b', prepare_write b = Ok (buf, size, b') ∧ wb_rep b' true (m :: ms) ptr ∧
    0 < size ∧ size = Z.of_nat (length (cstr m)) - ptr ∧
    take (Z.to_nat size) buf = drop (Z.to_nat ptr) (cstr m).
Proof.
  intros (Hw & Hf & Hp & Hd & Hl & Hr & Hq). unfold prepare_write, can_write, has_write_data.
  rewrite Hw, Hd. cbn. do 3 eexists. split; [done|]. split; [by wb_split|].
  rewrite Hl, Hp. split; [lia|]. split; [done|].
  apply Forall_cons in Hf as [[Hnul _] _].
  destruct (cstr_split m Hnul) as [r Hm].
  replace (drop (Z.to_nat ptr) m) with (drop (Z.to_nat ptr) (cstr m ++ NUL :: r))
    by (by rewrite <- Hm).
  rewrite drop_app_le by lia. rewrite take_app_le by (rewrite length_drop; lia).
  apply take_ge. rewrite length_drop. lia.
Qed.

(** A second [prepare_write] before [have_written] fails its assertion. *)
Lemma prepare_write_busy b msgs ptr :
  wb_rep b true msgs ptr → prepare_write b = Err AssertFailed.
Proof. intros (Hw & _). unfold prepare_write, can_write. by rewrite Hw. Qed.

Lemma have_written_rep b m ms ptr size :
  wb_rep b true (m :: ms) ptr → 0 ≤ size ≤ Z.of_nat (length (cstr m)) - ptr →
  ∃ b' msgs' ptr', have_written b size = Ok b' ∧ wb_rep b' false msgs' ptr' ∧
    (length msgs' ≤ S (length ms))%nat ∧
    pending msgs' ptr' = drop (Z.to_nat size) (pending (m :: ms) ptr).
Proof.
  intros (Hw & Hf & Hp & Hd & Hl & Hr & Hq) Hs. unfold have_written, c_assert.
  rewrite Hw, Hp, Hl. cbn [mbind outcome_bind].
  apply Forall_cons in Hf as [Hm Hf]. pose proof (proj2 Hm).
  rewrite int_of_ok by (unfold INT_MIN; lia). cbn [mbind outcome_bind].
  rewrite (proj2 (Z.leb_le _ _)) by lia. cbn [mbind outcome_bind].
  destruct (Z.ltb_spec (ptr + size) (Z.of_nat (length (cstr m)))) as [Hlt|Hge].
  - eexists _, (m :: ms), (ptr + size). split; [done|].
    split; [wb_split; by constructor|].
    split; [done|]. unfold pending. rewrite drop_drop. f_equal. lia.
  - rewrite pending_cons by lia.
    assert (∀ t : list ascii, drop (Z.to_nat size) (drop (Z.to_nat ptr) (cstr m) ++ t) = t)
      as Hdrop by (intros; apply drop_app_length'; rewrite length_drop; lia).
    rewrite (queue_is_empty_rep _ _ Hq), Hdrop. destruct ms as [|m2 ms].
    + rewrite bool_decide_true by done. eexists _, [], 0. split; [done|].
      split; [by wb_split|]. split; [cbn; lia|done].
    + rewrite bool_decide_false by done. cbn [negb].
      destruct (queue_pop_rep _ _ _ Hq) as (q' & -> & Hq' & _). cbn.
      pose proof Hf as Hf2. apply Forall_cons in Hf2 as [[Hnul Hlen] _].
      rewrite (strlen_ok m2 Hnul). cbn. rewrite cast_int_small by (unfold INT_MIN; lia).
      eexists _, (m2 :: ms), 0. split; [done|].
      split; [by wb_split|].
      split; [cbn; lia|]. by rewrite pending_cons by lia.
Qed.

Lemma push_write_data_rep b w msgs ptr m :
  wb_rep b w msgs ptr → message_ok m →
  oom_or (push_write_data b m) (λ b', wb_rep b' w (msgs ++ [m]) ptr) ∧
  (2 * Z.of_nat (length msgs) ≤ alloc_max → ∃ b', push_write_data b m = Ok b').
Proof.
  intros Hr Hm. unfold push_write_data. rewrite (has_write_data_rep _ _ _ _ Hr).
  destruct Hr as (Hw & Hf & Hp & Hrep). destruct msgs as [|m0 ms].
  - rewrite bool_decide_false by naive_solver. destruct Hrep as (Hd & Hl & -> & Hq).
    destruct Hm as [Hnul Hlen]. rewrite (strlen_ok m Hnul). cbn.
    rewrite cast_int_small by (unfold INT_MIN; lia).
    split; [|eauto]. wb_split. by constructor.
  - rewrite bool_decide_true by done. destruct Hrep as (Hd & Hl & Hpr & Hq).
    split.
    + eapply oom_or_bind; [by apply queue_push_oom|]. intros q Hq'. wb_split.
      apply Forall_cons in Hf as [? ?]. constructor; [done|].
      apply Forall_app. by split; [|constructor].
    + intros Hs. destruct (queue_push_rep (wb_writequeue b) ms m) as (q & -> & _);
        [done|eapply queue_room_small; [done|cbn in Hs; lia]|]. cbn. eauto.
Qed.

Lemma pending_snoc msgs ptr m :
  0 ≤ ptr ≤ Z.of_nat (length (concat (cstr <$> msgs))) →
  pending (msgs ++ [m]) ptr = pending msgs ptr ++ cstr m.
Proof.
  intros. unfold pending. rewrite fmap_app, concat_app. cbn. rewrite app_nil_r.
  by rewrite drop_app_le by lia.
Qed.

Lemma wb_rep_ptr b w msgs ptr :
  wb_rep b w msgs ptr → 0 ≤ ptr ≤ Z.of_nat (length (concat (cstr <$> msgs))).
Proof.
  intros (_ & _ & _ & Hm). destruct msgs as [|m ms]; cbn; [lia|].
  rewrite length_app. lia.
Qed.

Lemma free_writebuf_loop_rep q l :
  queue_rep q l →
  ∃ q', free_writebuf_loop (length l) q = Ok q' ∧ queue_rep q' [].
Proof.
  revert q. induction l as [|m l IH]; intros q Hq;
    cbn [length free_writebuf_loop]; rewrite (queue_is_empty_rep _ _ Hq).
  - eauto.
  - rewrite bool_decide_false by done.
    destruct (queue_pop_rep _ _ _ Hq) as (q1 & -> & Hq1 & _). cbn. by apply IH.
Qed.

Lemma free_writebuf_rep b w msgs ptr : wb_rep b w msgs ptr → free_writebuf b = Ok tt.
Proof.
  intros (_ & _ & _ & Hm). unfold free_writebuf.
  assert (∃ l, queue_rep (wb_writequeue b) l) as [l Hq] by (destruct msgs; naive_solver).
  rewrite (qr_len _ _ Hq), Nat2Z.id.
  destruct (free_writebuf_loop_rep _ _ Hq) as (q' & -> & Hq'). cbn.
  by rewrite (free_queue_rep _ _ Hq').
Qed.

Lemma message_of_text text :
  NUL ∉ text → 0 < Z.of_nat (length text) ≤ INT_MAX →
  message_ok (text ++ [NUL]) ∧ cstr (text ++ [NUL]) = text.
Proof.
  intros Hn Hl. assert (cstr (text ++ [NUL]) = text) as Hc by (by apply cstr_app).
  split; [|done]. split; [set_solver|]. by rewrite Hc.
Qed.

(** ** Streams *)

(** A client of the buffer: it pushes messages and performs writes that the
    operating system cuts to at most [k] bytes. *)
Inductive wb_op :=
  | PushMsg (m : cbuf)
  | WriteSome (k : Z).

(** Returns the bytes written; a write on an empty buffer is not attempted (the
    server asks [has_write_data] by means of the POLLOUT flag). *)
Fixpoint wb_run (ops : list wb_op) b : outcome (list ascii * t_writebuf) :=
  match ops with
  | [] => Ok ([], b)
  | PushMsg m :: ops => b ← push_write_data b m; wb_run ops b
  | WriteSome k :: ops =>
     if has_write_data b then
       '(buf, size, b) ← prepare_write b;
       let n := Z.max 0 (Z.min k size) in
       b ← have_written b n;
       '(out, b) ← wb_run ops b;
       Ok (take (Z.to_nat n) buf ++ out, b)
     else wb_run ops b
  end.

Definition pushed (ops : list wb_op) : list cbuf :=
  omap (λ o, match o with PushMsg m => Some m | WriteSome _ => None end) ops.

Lemma wb_run_rep ops : ∀ b msgs ptr,
  wb_rep b false msgs ptr → Forall message_ok (pushed ops) →
  2 * Z.of_nat (length msgs + length ops) ≤ alloc_max →
  ∃ out b' msgs' ptr', wb_run ops b = Ok (out, b') ∧ wb_rep b' false msgs' ptr' ∧
    out ++ pending msgs' ptr' = pending msgs ptr ++ concat (cstr <$> pushed ops).
Proof.
  induction ops as [|[m|k] ops IH]; intros b msgs ptr Hr Hf Hs; cbn in *.
  - exists [], b, msgs, ptr. by rewrite app_nil_r.
  - apply Forall_cons in Hf as [Hm Hf].
    destruct (push_write_data_rep b false msgs ptr m) as (Hr1 & Hok); [done..|].
    destruct Hok as (b1 & E1); [lia|]. rewrite E1 in Hr1 |- *. cbn in Hr1 |- *.
    destruct (IH b1 (msgs ++ [m]) ptr) as (out & b2 & msgs2 & ptr2 & -> & Hr2 & Heq);
      [done..|rewrite length_app; cbn; lia|].
    exists out, b2, msgs2, ptr2. split; [done|]. split; [done|].
    rewrite Heq, pending_snoc by (by eapply wb_rep_ptr). by rewrite <- app_assoc.
  - rewrite (has_write_data_rep _ _ _ _ Hr). destruct msgs as [|m ms].
    { rewrite bool_decide_false by naive_solver. apply IH; [done..|cbn; lia]. }
    rewrite bool_decide_true by done.
    destruct (prepare_write_rep b m ms ptr Hr) as (buf & size & b1 & -> & Hr1 & Hpos & Hsz & Hbuf).
    cbn. set (n := Z.max 0 (Z.min k size)).
    destruct (have_written_rep b1 m ms ptr n Hr1) as (b2 & msgs2 & ptr2 & -> & Hr2 & Hlen & Hpend);
      [lia|]. cbn.
    destruct (IH b2 msgs2 ptr2) as (out & b3 & msgs3 & ptr3 & -> & Hr3 & Heq);
      [done..|cbn in Hs; lia|]. cbn.
    exists (take (Z.to_nat n) buf ++ out), b3, msgs3, ptr3. split; [done|]. split; [done|].
    rewrite <- app_assoc, Heq, Hpend, app_assoc. f_equal.
    rewrite <- (take_drop (Z.to_nat n) (pending (m :: ms) ptr)) at 2. f_equal.
    destruct Hr as (_ & _ & _ & _ & _ & Hpr & _).
    rewrite pending_cons, <- Hbuf by lia.
    assert (length (take (Z.to_nat size) buf) = Z.to_nat size) as Hlb
      by (rewrite Hbuf, length_drop; lia).
    rewrite take_app_le by (rewrite Hlb; lia). rewrite take_take. f_equal. lia.
Qed.

(** C29: Whatever interleaving of pushes and of writes cut short at arbitrary
    sizes (not longer than half the largest array that can be allocated), a fresh write buffer runs without error and without failed
    assertion, and the bytes handed to [write], followed by the bytes still
    pending, are exactly the pushed messages in order: nothing is lost,
    duplicated or reordered, across queue resizes and message boundaries. *)
Theorem writebuf_stream capacity ops :
  0 < capacity ≤ alloc_max →
  Forall message_ok (pushed ops) →
  2 * Z.of_nat (length ops) ≤ alloc_max →
  ∃ b0 out b msgs ptr, init_writebuf capacity = Ok b0 ∧ wb_run ops b0 = Ok (out, b) ∧
    wb_rep b false msgs ptr ∧
    out ++ pending msgs ptr = concat (cstr <$> pushed ops).
Proof.
  intros Hc Hf Hs. destruct (init_writebuf_rep capacity Hc) as (b0 & H0 & Hr).
  destruct (wb_run_rep ops b0 [] 0 Hr Hf) as (out & b & msgs & ptr & Hrun & Hr' & Heq);
    [cbn; lia|].
  exists b0, out, b, msgs, ptr. auto.
Qed.

End writebuf.

Lemma writebuf_stream_witness :
  let ops := [PushMsg (clit "S;a"); PushMsg (clit "F;a;0"); WriteSome 2; WriteSome 5;
              PushMsg (clit "S;b"); WriteSome 100] in
  ∃ b0 out b msgs ptr, @init_writebuf strict_libc 1 = Ok b0 ∧
    @wb_run strict_libc ops b0 = Ok (out, b) ∧
    @wb_rep strict_libc b false msgs ptr ∧ out ++ pending msgs ptr = concat (cstr <$> pushed ops).
Proof.
  apply (@writebuf_stream strict_libc 1
    [PushMsg (clit "S;a"); PushMsg (clit "F;a;0"); WriteSome 2; WriteSome 5;
     PushMsg (clit "S;b"); WriteSome 100]).
  - cbn. lia.
  - unfold pushed. cbn [omap list_omap].
    repeat (apply Forall_cons_2;
      [split; [apply (bool_decide_unpack _); by vm_compute|by vm_compute]|]).
    apply Forall_nil_2.
  - cbn. lia.
Defined.
