(* ===== verification/State.v ===== *)
(** * State passing

    The monad in which the stateful C code is modelled, its weakest
    preconditions, the part of the server's global state that both platforms
    share ([core]: the request queue, the options, the log and the allocations)
    and the strings the server allocates. *)

From S2P Require Import Prelude CString Queue.
From Stdlib Require Import Ascii.

(** ** The state and error monad *)

Definition M (S A : Type) : Type := S → outcome (A * S).

#[export] Instance M_ret S : MRet (M S) := λ A a s, Ok (a, s).
#[export] Instance M_bind S : MBind (M S) := λ A B f m s,
  match m s with Ok (a, s') => f a s' | Err e => Err e end.
#[export] Instance M_fmap S : FMap (M S) := λ A B f m s,
  match m s with Ok (a, s') => Ok (f a, s') | Err e => Err e end.

Definition raise {S A} (e : cerror) : M S A := λ s, Err e.
Definition lift {S A} (o : outcome A) : M S A := λ s,
  match o with Ok a => Ok (a, s) | Err e => Err e end.
Definition gets {S A} (f : S → A) : M S A := λ s, Ok (f s, s).
Definition modify {S} (f : S → S) : M S unit := λ s, Ok (tt, f s).

(** Run a computation on a component of the state. *)
Definition zoom {S T A} (get : S → T) (set : T → S → S) (m : M T A) : M S A := λ s,
  match m (get s) with Ok (a, t) => Ok (a, set t s) | Err e => Err e end.

(** [wp m Q E s]: from state [s], [m] either returns with [Q], or stops with an
    error that [E] allows. *)
Definition wp {S A} (m : M S A) (Q : A → S → Prop) (E : cerror → Prop) (s : S) : Prop :=
  match m s with Ok (a, s') => Q a s' | Err e => E e end.

Create HintDb wp.

Section wp_rules.
Context {S : Type}.

Lemma wp_ret {A} (a : A) Q E (s : S) : Q a s → wp (mret a) Q E s.
Proof. done. Qed.

Lemma wp_bind {A B} (m : M S A) (f : A → M S B) Q E s :
  wp m (λ a s', wp (f a) Q E s') E s → wp (m ≫= f) Q E s.
Proof. unfold wp, mbind, M_bind. by destruct (m s) as [[a s']|e]. Qed.

Lemma wp_bind_assoc {A B C} (m : M S A) (f : A → M S B) (g : B → M S C) Q E s :
  wp (m ≫= f) (λ b s', wp (g b) Q E s') E s → wp (m ≫= λ a, f a ≫= g) Q E s.
Proof.
  unfold wp, mbind, M_bind. destruct (m s) as [[a s1]|e]; [|done].
  by destruct (f a s1) as [[b s2]|e].
Qed.

Lemma wp_mono {A} (m : M S A) (Q Q' : A → S → Prop) (E E' : cerror → Prop) s :
  wp m Q E s → (∀ a s', Q a s' → Q' a s') → (∀ e, E e → E' e) → wp m Q' E' s.
Proof. unfold wp. destruct (m s) as [[a s']|e]; eauto. Qed.

Lemma wp_post {A} (m : M S A) (Q Q' : A → S → Prop) (E : cerror → Prop) s :
  wp m Q E s → (∀ a s', Q a s' → Q' a s') → wp m Q' E s.
Proof. intros ? ?. by eapply wp_mono. Qed.

Lemma wp_lift {A} (o : outcome A) Q E (s : S) :
  (match o with Ok a => Q a s | Err e => E e end) → wp (lift o) Q E s.
Proof. unfold wp, lift. by destruct o. Qed.

Lemma wp_lift_ok {A} (o : outcome A) a Q E (s : S) :
  o = Ok a → Q a s → wp (lift o) Q E s.
Proof. intros -> ?. done. Qed.

Lemma wp_lift_oom {A} (o : outcome A) (P : A → Prop) Q (E : cerror → Prop) (s : S) :
  oom_or o P → E OutOfMemory → (∀ a, P a → Q a s) → wp (lift o) Q E s.
Proof. unfold wp, lift, oom_or. destruct o; [auto|]. by intros ->. Qed.

(** A push into a queue succeeds below half the allocation limit; above it the
    caller must allow [OutOfMemory]. *)
Lemma wp_queue_push `{Libc} {A} (q : t_queue A) l x Q (E : cerror → Prop) (s : S) :
  queue_rep q l → E OutOfMemory ∨ 2 * Z.of_nat (length l) ≤ alloc_max →
  (∀ q', queue_rep q' (l ++ [x]) → Q q' s) → wp (lift (queue_push q x)) Q E s.
Proof.
  intros Hq [HE|Hs] HQ.
  - eapply wp_lift_oom; [by apply queue_push_oom|done..].
  - destruct (queue_push_rep q l x Hq) as (q' & Hp & Hr & _);
      [by eapply queue_room_small|]. eapply wp_lift_ok; [done|]. by apply HQ.
Qed.

Lemma wp_gets {A} (f : S → A) Q E s : Q (f s) s → wp (gets f) Q E s.
Proof. done. Qed.

Lemma wp_modify (f : S → S) Q E s : Q tt (f s) → wp (modify f) Q E s.
Proof. done. Qed.

Lemma wp_raise {A} e (Q : A → S → Prop) (E : cerror → Prop) s : E e → wp (raise e) Q E s.
Proof. done. Qed.

Lemma wp_zoom {T A} (get : S → T) (set : T → S → S) (m : M T A) Q E s :
  wp m (λ a t, Q a (set t s)) E (get s) → wp (zoom get set m) Q E s.
Proof. unfold wp, zoom. by destruct (m (get s)) as [[a t]|e]. Qed.

Lemma wp_Ok {A} (m : M S A) Q E s a s' : m s = Ok (a, s') → Q a s' → wp m Q E s.
Proof. unfold wp. by intros ->. Qed.

Lemma wp_Ok_inv {A} (m : M S A) Q s :
  wp m Q (λ _, False) s → ∃ a s', m s = Ok (a, s') ∧ Q a s'.
Proof. unfold wp. destruct (m s) as [[a s']|e]; [eauto|done]. Qed.

Lemma wp_Err_inv {A} (m : M S A) e0 s :
  wp m (λ _ _, False) (λ e, e = e0) s → m s = Err e0.
Proof. unfold wp. destruct (m s) as [[a s']|e]; [done|]. by intros ->. Qed.
End wp_rules.

(** One step of symbolic execution. *)
Ltac wp_step :=
  lazymatch goal with
  | |- wp (mbind _ _) _ _ _ => apply wp_bind
  | |- wp (mret _) _ _ _ => apply wp_ret
  | |- wp (gets _) _ _ _ => apply wp_gets
  | |- wp (modify _) _ _ _ => apply wp_modify
  | |- wp (zoom _ _ _) _ _ _ => apply wp_zoom
  end.
Ltac wp_go := cbv beta iota; repeat (wp_step; cbv beta iota).

(** ** Allocated strings

    Strings are never written after their construction, so a [char*] is its
    address together with the contents; the state records which addresses are
    live. *)
Record cstring := mk_str {
  s_addr : positive;
  s_txt : cbuf
}.

Inductive request_type := REQ_RUN | REQ_INTERRUPT.
#[export] Instance request_type_eq_dec : EqDecision request_type.
Proof. solve_decision. Defined.

(** The fields that only a REQ_RUN request initialises. *)
Record run_fields := mk_run {
  run_timeout : Z;
  run_memlimit : Z;
  run_usestdin : bool;
  run_cmd : cstring;
  run_numargs : Z;
  run_args_addr : positive;
  run_args : list cstring
}.

(** A [prequest]: its address and the (immutable) struct.  [req_run] is [None]
    when the fields of a REQ_RUN request are not initialised. *)
Record request := mk_req {
  req_addr : positive;
  req_key : Z;
  req_type : request_type;
  req_id : cstring;
  req_run : option run_fields
}.

(** ** The shared part of the server state *)

Record core := mk_core {
  c_next : positive;              (** next fresh address *)
  c_live : gset positive;         (** live allocations *)
  c_queue : t_queue request;      (** request.c: [queue] *)
  c_parallel : Z;                 (** options.c: [parallel] *)
  c_socketname : option cbuf;     (** options.c: [socketname] *)
  c_single_client : bool;         (** options.c: [single_client] *)
  c_logging : bool;               (** options.c: [logging] *)
  c_log : list (list ascii)       (** lines of [logfile] *)
}.

Definition set_live (next : positive) (live : gset positive) (s : core) : core :=
  mk_core next live (c_queue s) (c_parallel s) (c_socketname s)
    (c_single_client s) (c_logging s) (c_log s).
Definition set_queue (q : t_queue request) (s : core) : core :=
  mk_core (c_next s) (c_live s) q (c_parallel s) (c_socketname s)
    (c_single_client s) (c_logging s) (c_log s).
Definition set_parallel (n : Z) (s : core) : core :=
  mk_core (c_next s) (c_live s) (c_queue s) n (c_socketname s)
    (c_single_client s) (c_logging s) (c_log s).
Definition set_socketname (n : option cbuf) (s : core) : core :=
  mk_core (c_next s) (c_live s) (c_queue s) (c_parallel s) n
    (c_single_client s) (c_logging s) (c_log s).
Definition set_single_client (b : bool) (s : core) : core :=
  mk_core (c_next s) (c_live s) (c_queue s) (c_parallel s) (c_socketname s)
    b (c_logging s) (c_log s).
Definition set_logging (b : bool) (s : core) : core :=
  mk_core (c_next s) (c_live s) (c_queue s) (c_parallel s) (c_socketname s)
    (c_single_client s) b (c_log s).
Definition set_log (l : list (list ascii)) (s : core) : core :=
  mk_core (c_next s) (c_live s) (c_queue s) (c_parallel s) (c_socketname s)
    (c_single_client s) (c_logging s) l.

(** [malloc]: a fresh address *)
Definition malloc : M core positive := λ s,
  Ok (c_next s, set_live (Pos.succ (c_next s)) ({[c_next s]} ∪ c_live s) s).

(** [free] of an address that is not live is an error *)
Definition free (a : positive) : M core unit := λ s,
  if decide (a ∈ c_live s) then Ok (tt, set_live (c_next s) (c_live s ∖ {[a]}) s)
  else Err DanglingPtr.

(** The contents of a string, which must be live. *)
Definition read_str (x : cstring) : M core cbuf := λ s,
  if decide (s_addr x ∈ c_live s) then Ok (s_txt x, s) else Err DanglingPtr.

Definition alloc_str (txt : cbuf) : M core cstring :=
  a ← malloc; mret (mk_str a txt).

(** Addresses at and above [c_next] were never handed out. *)
Definition core_fresh (s : core) : Prop := ∀ a, a ∈ c_live s → (a < c_next s)%positive.

Lemma wp_malloc Q E s :
  core_fresh s →
  (c_next s ∉ c_live s →
   core_fresh (set_live (Pos.succ (c_next s)) ({[c_next s]} ∪ c_live s) s) →
   Q (c_next s) (set_live (Pos.succ (c_next s)) ({[c_next s]} ∪ c_live s) s)) →
  wp malloc Q E s.
Proof.
  intros Hf HQ. unfold wp, malloc. apply HQ.
  - intros Hin%Hf. lia.
  - intros a. cbn. rewrite elem_of_union, elem_of_singleton.
    intros [->|Hin%Hf]; lia.
Qed.

Lemma wp_free a Q E s :
  a ∈ c_live s → Q tt (set_live (c_next s) (c_live s ∖ {[a]}) s) → wp (free a) Q E s.
Proof. intros Ha HQ. unfold wp, free. by rewrite decide_True. Qed.

Lemma wp_read_str x Q E s :
  s_addr x ∈ c_live s → Q (s_txt x) s → wp (read_str x) Q E s.
Proof. intros Ha HQ. unfold wp, read_str. by rewrite decide_True. Qed.

Lemma core_fresh_free s a :
  core_fresh s → core_fresh (set_live (c_next s) (c_live s ∖ {[a]}) s).
Proof. intros Hf b Hb. apply Hf. cbn in Hb. set_solver. Qed.

(** ** Allocation accounting

    [grown s0 own s]: [s] is [s0] but for its allocations, which are those of
    [s0] and, disjointly, the addresses [own]. *)
Definition grown (s0 : core) (own : list positive) (s : core) : Prop :=
  core_fresh s ∧ NoDup own ∧ (∀ a, a ∈ own → a ∉ c_live s0) ∧
  s = set_live (c_next s) (c_live s0 ∪ list_to_set own) s0.

Lemma set_live_id s : set_live (c_next s) (c_live s) s = s.
Proof. by destruct s. Qed.

Lemma set_live_twice n n' l l' s : set_live n l (set_live n' l' s) = set_live n l s.
Proof. done. Qed.

Lemma grown_refl s : core_fresh s → grown s [] s.
Proof.
  intros Hf. split; [done|]. split; [constructor|]. split; [set_solver|].
  cbn. by rewrite union_empty_r_L, set_live_id.
Qed.

Lemma grown_perm s0 own own' s : own ≡ₚ own' → grown s0 own s → grown s0 own' s.
Proof.
  intros Hp (Hf & Hnd & Hd & Hs). split; [done|]. split; [by rewrite <- Hp|].
  split; [intros a; rewrite <- Hp; apply Hd|].
  rewrite Hs at 1. f_equal. f_equal. apply leibniz_equiv. by apply list_to_set_perm.
Qed.

Lemma wp_malloc_grown s0 own s Q E :
  grown s0 own s →
  (∀ a s', a ∉ own → grown s0 (a :: own) s' → Q a s') → wp malloc Q E s.
Proof.
  intros (Hf & Hnd & Hd & Hs) HQ. apply wp_malloc; [done|]. intros Hn Hf'.
  assert (c_live s = c_live s0 ∪ list_to_set own) as Hl by (rewrite Hs; done).
  rewrite Hl in Hn. apply HQ; [set_solver|]. split; [done|].
  split; [constructor; [set_solver|done]|]. split; [set_solver|].
  cbn. rewrite Hl. rewrite Hs at 3. unfold set_live. cbn. f_equal. set_solver.
Qed.

Lemma wp_free_grown s0 a own s Q E :
  grown s0 (a :: own) s → (∀ s', grown s0 own s' → Q tt s') → wp (free a) Q E s.
Proof.
  intros (Hf & Hnd & Hd & Hs) HQ.
  assert (c_live s = c_live s0 ∪ ({[a]} ∪ list_to_set own)) as Hl by (rewrite Hs; done).
  apply NoDup_cons in Hnd as [Ha Hnd].
  apply wp_free; [rewrite Hl; set_solver|]. apply HQ.
  split; [by apply core_fresh_free|]. split; [done|]. split; [set_solver|].
  cbn. rewrite Hl. rewrite Hs at 2. unfold set_live. cbn. f_equal.
  assert (a ∉ c_live s0) by set_solver. set_solver.
Qed.

Lemma wp_read_str_grown s0 x own s Q E :
  grown s0 own s → s_addr x ∈ own → Q (s_txt x) s → wp (read_str x) Q E s.
Proof.
  intros (Hf & Hnd & Hd & Hs) Hx HQ. apply wp_read_str; [|done].
  rewrite Hs. cbn. set_solver.
Qed.

Lemma grown_live s0 own s : grown s0 own s → c_live s = c_live s0 ∪ list_to_set own.
Proof. intros (_ & _ & _ & Hs). by rewrite Hs. Qed.
