(* ===== verification/Options.v ===== *)
(** * Command line options and logging
    (src/server/options.c, src/server/logging.c)

    [getopt_long] is not part of the repository: the answers it gives for the
    command line are an argument of [parse_options]. *)

From S2P Require Import Prelude CString Queue State.
From Stdlib Require Import Ascii.

(** ** logging.c *)

(** [fopen] with mode "w" truncates the file. *)
Definition init_logging : M core unit :=
  logging ← gets c_logging;
  if (logging : bool) then modify (set_log []) else mret tt.

(** [line] is the formatted text. *)
Definition log_msg (line : list ascii) : M core unit :=
  logging ← gets c_logging;
  if (logging : bool) then modify (λ s, set_log (c_log s ++ [line ++ [LF]]) s) else mret tt.

Definition logging_shutdown {A} (msg : string) : M core A :=
  _ ← log_msg (String.list_ascii_of_string msg);
  raise (Exited 1 msg).

(** ** options.c *)

(** One answer of [getopt_long]: the returned character (0 for a long option
    with a flag) and [optarg]. *)
Record getopt_answer := mk_answer {
  go_char : ascii;
  go_optarg : cbuf
}.

Definition EINVAL : Z := 22.
Definition ERANGE : Z := 34.

Definition parse_option (a : getopt_answer) : M core unit :=
  let c := go_char a in
  if decide (c = NUL) then raise (Exited 1 "")
  else if decide (c = "i"%char) then modify (set_single_client true)
  else if decide (c = "j"%char) then
    '(v, _, erange) ← lift (strtol (go_optarg a));
    let errno := if (erange : bool) then ERANGE else 0 in
    let parallel := cast_int v in
    _ ← modify (set_parallel parallel);
    if errno =? EINVAL then raise (Exited 1 "-j requires a number")
    else if parallel <=? 0 then raise (Exited 1 "-j requires a positive number")
    else mret tt
  else if decide (c = "l"%char) then modify (set_logging true)
  else if decide (c = "s"%char) then modify (set_socketname (Some (go_optarg a)))
  else raise (Exited 1 "").

Fixpoint parse_options_loop (answers : list getopt_answer) : M core unit :=
  match answers with
  | [] => mret tt
  | a :: answers => _ ← parse_option a; parse_options_loop answers
  end.

(** [answers] are those before the final [-1]; [optind] is its final value. *)
Definition parse_options (answers : list getopt_answer) (optind argc : Z) : M core unit :=
  _ ← parse_options_loop answers;
  if optind <? argc then raise (Exited 1 "extra arguments, stopping")
  else
    socketname ← gets c_socketname;
    match socketname with
    | None => raise (Exited 1 "need to specify a socket name using --socket")
    | Some _ => mret tt
    end.

Definition is_exit (e : cerror) : Prop := ∃ code msg, e = Exited code msg.

(** What an option may change. *)
Definition options_frame (s s' : core) : Prop :=
  1 ≤ c_parallel s' ≤ INT_MAX ∧ c_live s' = c_live s ∧ c_next s' = c_next s.

(** The limit on processes the options ask for: the number given to the last
    [-j], and 1 without any. *)
Definition j_option (p : Z) (a : getopt_answer) : Z :=
  if decide (go_char a = "j"%char)
  then match strtol (go_optarg a) with Ok (v, _, _) => cast_int v | Err _ => p end
  else p.
Definition j_limit (answers : list getopt_answer) : Z := foldl j_option 1 answers.

Lemma parse_option_frame a s :
  (go_char a = "j"%char → NUL ∈ go_optarg a) → 1 ≤ c_parallel s ≤ INT_MAX →
  wp (parse_option a)
     (λ _ s', options_frame s s' ∧ c_parallel s' = j_option (c_parallel s) a) is_exit s.
Proof.
  intros Harg Hp. unfold parse_option, options_frame, j_option.
  assert (∀ msg, is_exit (Exited 1 msg)) by (intros; unfold is_exit; eauto).
  case_decide; [by apply wp_raise|].
  case_decide as Hi; [rewrite decide_False by (by rewrite Hi); by wp_go|].
  case_decide as Hj.
  - wp_go. destruct (atoi_ok (go_optarg a) (Harg Hj)) as (v & Ha & _).
    unfold atoi, atol in Ha. destruct (strtol (go_optarg a)) as [[[n r] e]|] eqn:E; [|done].
    eapply wp_lift_ok; [done|]. wp_go. pose proof (cast_int_range n).
    destruct e; cbn [negb Z.eqb]; zbool; (by apply wp_raise) || (wp_go; cbn; split_and!; done || lia).
  - case_decide; [by wp_go|]. case_decide; [by wp_go|]. by apply wp_raise.
Qed.

Lemma wp_parse_options answers optind argc s :
  1 ≤ c_parallel s ≤ INT_MAX →
  Forall (λ a, go_char a = "j"%char → NUL ∈ go_optarg a) answers →
  wp (parse_options answers optind argc)
     (λ _ s', options_frame s s' ∧ c_parallel s' = foldl j_option (c_parallel s) answers ∧
        is_Some (c_socketname s')) is_exit s.
Proof.
  intros Hp Hf. unfold parse_options. wp_step.
  assert (∀ msg, is_exit (Exited 1 msg)) by (intros; unfold is_exit; eauto).
  apply wp_post with
    (λ _ s', options_frame s s' ∧ c_parallel s' = foldl j_option (c_parallel s) answers).
  - revert s Hp. induction answers as [|a answers IH]; intros s Hp; cbn; [by split|].
    apply Forall_cons in Hf as [Ha Hf]. wp_step.
    eapply wp_post; [by apply parse_option_frame|]. intros [] s' [(Hs' & Hl & Hn) Hj].
    eapply wp_post; [by apply IH|]. intros [] s'' [(Hs'' & Hl' & Hn') Hj'].
    split; [|by rewrite Hj', Hj]. split; [done|]. split; congruence.
  - intros [] s' [Hs' Hj]. zbool; [by apply wp_raise|]. wp_go.
    destruct (c_socketname s') eqn:Es; [|by apply wp_raise]. wp_go. rewrite Es. eauto.
Qed.

(** If [parse_options] returns at all, the number of parallel processes is
    a positive [int] and a socket name was given; every other ending is a
    regular [exit]: no [-j] argument whatsoever (empty, negative, not a number,
    or too large for [int] or [long]) lets the server start with a capacity
    that its tables cannot be allocated with. *)
Theorem parse_options_sound answers optind argc s :
  1 ≤ c_parallel s ≤ INT_MAX →
  Forall (λ a, go_char a = "j"%char → NUL ∈ go_optarg a) answers →
  wp (parse_options answers optind argc)
     (λ _ s', 1 ≤ c_parallel s' ≤ INT_MAX ∧ is_Some (c_socketname s')) is_exit s.
Proof.
  intros Hp Hf. eapply wp_post; [by apply wp_parse_options|]. intros [] s' ([? _] & _ & ?). done.
Qed.

(** The state at program start. *)
Definition initial_core : core :=
  mk_core 1 ∅ (mk_queue [] 0 0 0) 1 None false false [].

Lemma parse_options_sound_witness :
  let answers := [mk_answer "j" (clit "8"); mk_answer "s" (clit "/tmp/w.sock")] in
  wp (parse_options answers 5 5)
     (λ _ s', 1 ≤ c_parallel s' ≤ INT_MAX ∧ is_Some (c_socketname s')) is_exit initial_core.
Proof.
  apply (parse_options_sound
    [mk_answer "j" (clit "8"); mk_answer "s" (clit "/tmp/w.sock")] 5 5 initial_core).
  - cbn. unfold INT_MAX. lia.
  - repeat (apply Forall_cons_2; [intros; apply (bool_decide_unpack _); by vm_compute|]).
    apply Forall_nil_2.
Defined.
