(* ===== verification/Request.v ===== *)
(** * Requests (src/server/request.h, src/server/request.c)

    Parsing of the client's lines, the global request queue and the removal of
    an identifier from it.  A line is given as the array it lies in and the
    offset of its first byte. *)

From S2P Require Import Prelude CString Queue State Options.
From Stdlib Require Import Ascii.

Section request.
Context `{Libc}.

(** ** Parsing *)

Fixpoint count_loop (n : nat) (buf : arr ascii) (i cnt : Z) : outcome Z :=
  match n with
  | O => Ok cnt
  | S n =>
     c ← arr_get buf i;
     count_loop n buf (i + 1) (if decide (c = ";"%char) then cnt + 1 else cnt)
  end.
(** [count_semicolons(buf + off, len)] *)
Definition count_semicolons (buf : arr ascii) (off len : Z) : outcome Z :=
  count_loop (Z.to_nat len) buf off 0.

(** The [for] loop of [copy_up_to_semicolon]: the index it stops at. *)
Fixpoint scan_semicolon (n : nat) (buf : arr ascii) (off i : Z) : outcome Z :=
  match n with
  | O => Ok i
  | S n =>
     c ← arr_get buf (off + i);
     if decide (c = ";"%char) then Ok i else scan_semicolon n buf off (i + 1)
  end.

(** The bytes a [memcpy] of [n] bytes out of an array reads. *)
Fixpoint arr_read (n : nat) (buf : arr ascii) (i : Z) : outcome (list ascii) :=
  match n with
  | O => Ok []
  | S n => c ← arr_get buf i; l ← arr_read n buf (i + 1); Ok (c :: l)
  end.

(** [copy_up_to_semicolon(buf + off, begin, len, &result)]: the new position and
    the result. *)
Definition copy_up_to_semicolon (buf : arr ascii) (off begin len : Z) : M core (Z * cstring) :=
  i ← lift (scan_semicolon (Z.to_nat (len - begin)) buf off begin);
  txt ← lift (arr_read (Z.to_nat (i - begin)) buf (off + begin));
  result ← alloc_str (txt ++ [NUL]);
  mret (if i =? len then 0 else i + 1, result).

(** [strncmp(tmp, lit, n)] *)
Definition strncmp_lit (tmp : cstring) (lit : string) (n : Z) : M core Z :=
  txt ← read_str tmp; lift (strncmp (Z.to_nat n) txt (clit lit)).

Fixpoint parse_args (n : nat) (buf : arr ascii) (off pos len : Z) : M core (list cstring) :=
  match n with
  | O => mret []
  | S n =>
     '(pos, arg) ← copy_up_to_semicolon buf off pos len;
     args ← parse_args n buf off pos len;
     mret (arg :: args)
  end.

(** The text of the "received query" log line. *)
Definition query_line (buf : arr ascii) (off len : Z) : outcome (list ascii) :=
  txt ← arr_read (Z.to_nat len) buf off;
  Ok (String.list_ascii_of_string "received query " ++ cstr (txt ++ [NUL])).

(** The requests with a single semicolon. *)
Definition parse_command (buf : arr ascii) (off len key : Z) : M core (option request) :=
  '(pos, tmp) ← copy_up_to_semicolon buf off 0 len;
  c ← strncmp_lit tmp "parallel" pos;
  if c =? 0 then
    _ ← free (s_addr tmp);
    '(pos, tmp) ← copy_up_to_semicolon buf off pos len;
    txt ← read_str tmp;
    parallel_arg ← lift (atoi txt);
    _ ← (if 1 <=? parallel_arg then modify (set_parallel parallel_arg) else mret tt);
    _ ← free (s_addr tmp);
    mret None
  else
    c ← strncmp_lit tmp "interrupt" pos;
    if c =? 0 then
      _ ← free (s_addr tmp);
      a ← malloc;
      '(pos, id) ← copy_up_to_semicolon buf off pos len;
      mret (Some (mk_req a key REQ_INTERRUPT id None))
    else
      _ ← free (s_addr tmp);
      mret None.

(** The requests that run a prover. *)
Definition parse_run (buf : arr ascii) (off len key numargs : Z) : M core (option request) :=
  '(pos, tmp) ← copy_up_to_semicolon buf off 0 len;
  c ← strncmp_lit tmp "run" pos;
  runstdin ← (if negb (c =? 0) then
                c ← strncmp_lit tmp "runstdin" pos;
                if c =? 0 then mret (Some true)
                else _ ← free (s_addr tmp); mret None
              else mret (Some false));
  match runstdin with
  | None => mret None
  | Some runstdin =>
     _ ← free (s_addr tmp);
     a ← malloc;
     '(pos, id) ← copy_up_to_semicolon buf off pos len;
     '(pos, tmp) ← copy_up_to_semicolon buf off pos len;
     txt ← read_str tmp;
     timeout ← lift (atoi txt);
     _ ← free (s_addr tmp);
     '(pos, tmp) ← copy_up_to_semicolon buf off pos len;
     txt ← read_str tmp;
     memlimit ← lift (atoi txt);
     _ ← free (s_addr tmp);
     '(pos, cmd) ← copy_up_to_semicolon buf off pos len;
     args_addr ← malloc;
     args ← parse_args (Z.to_nat numargs) buf off pos len;
     mret (Some (mk_req a key REQ_RUN id
                   (Some (mk_run timeout (uint memlimit) runstdin cmd numargs args_addr args))))
  end.

(** [parse_request(buf + off, len, key)] *)
Definition parse_request (buf : arr ascii) (off len key : Z) : M core (option request) :=
  line ← lift (query_line buf off len);
  _ ← log_msg line;
  semic ← lift (count_semicolons buf off len);
  if semic =? 0 then mret None
  else if semic =? 1 then parse_command buf off len key
  else
    let numargs := semic - 4 in
    if numargs <? 0 then mret None
    else parse_run buf off len key numargs.

(** ** Life cycle of requests *)

(** [args[i]] in the array of [numargs] strings of the request *)
Definition arg_at (args : list cstring) (i : Z) : outcome cstring :=
  if i <? 0 then Err OutOfBounds
  else match args !! Z.to_nat i with Some x => Ok x | None => Err OutOfBounds end.

Fixpoint free_strs (l : list cstring) : M core unit :=
  match l with
  | [] => mret tt
  | x :: l => _ ← free (s_addr x); free_strs l
  end.

(** A REQ_RUN request keeps its [id]: it belongs to the process by then. *)
Definition free_request (r : option request) : M core unit :=
  match r with
  | None => mret tt
  | Some r =>
     _ ← (match req_type r with
          | REQ_RUN =>
             match req_run r with
             | None => raise Indeterminate
             | Some f =>
                _ ← free (s_addr (run_cmd f));
                _ ← free_strs (take (Z.to_nat (run_numargs f)) (run_args f));
                free (run_args_addr f)
             end
          | REQ_INTERRUPT => free (s_addr (req_id r))
          end);
     free (req_addr r)
  end.

Definition init_request_queue : M core unit :=
  q ← lift (init_queue 100); modify (set_queue q).

(** [queue_push(queue, r)] and [queue_pop(queue)] on the global queue. *)
Definition push_request (r : request) : M core unit :=
  q ← gets c_queue; q ← lift (queue_push q r); modify (set_queue q).
Definition pop_request : M core request :=
  q ← gets c_queue; '(r, q) ← lift (queue_pop q); _ ← modify (set_queue q); mret r.

(** The first loop: requests with another identifier move to [tmp]. *)
Fixpoint remove_loop1 (n : nat) (id : cstring) (tmp : t_queue request) : M core (t_queue request) :=
  q ← gets c_queue;
  if queue_is_empty q then mret tmp
  else match n with
       | O => raise OutOfFuel
       | S n =>
          r ← pop_request;
          a ← read_str (req_id r);
          b ← read_str id;
          c ← lift (strcmp a b);
          tmp ← (if negb (c =? 0) then lift (queue_push tmp r) else mret tmp);
          remove_loop1 n id tmp
       end.

(** The second loop moves them back. *)
Fixpoint remove_loop2 (n : nat) (tmp : t_queue request) : M core (t_queue request) :=
  if queue_is_empty tmp then mret tmp
  else match n with
       | O => raise OutOfFuel
       | S n =>
          '(r, tmp) ← lift (queue_pop tmp);
          _ ← push_request r;
          remove_loop2 n tmp
       end.

Definition remove_from_queue (id : cstring) : M core unit :=
  q ← gets c_queue;
  tmp ← lift (init_queue (q_capacity q));
  tmp ← remove_loop1 (Z.to_nat (q_len q)) id tmp;
  tmp ← remove_loop2 (Z.to_nat (q_len tmp)) tmp;
  lift (free_queue tmp).

(** [print_request]: the text printed on standard output. *)
Definition print_arg (x : cstring) : M core (list ascii) :=
  t ← read_str x; mret (" "%char :: cstr t).
Fixpoint print_args (l : list cstring) : M core (list ascii) :=
  match l with
  | [] => mret []
  | x :: l => t ← print_arg x; u ← print_args l; mret (t ++ u)
  end.
Definition print_request (r : option request) : M core (list ascii) :=
  match r with
  | None => mret (String.list_ascii_of_string "<null request>")
  | Some r =>
     match req_type r with
     | REQ_RUN =>
        match req_run r with
        | None => raise Indeterminate
        | Some f =>
           cmd ← read_str (run_cmd f);
           args ← print_args (take (Z.to_nat (run_numargs f)) (run_args f));
           mret (String.list_ascii_of_string "req_type=REQ_RUN, timeout=" ++ fmt_d (run_timeout f)
                 ++ String.list_ascii_of_string ", memlimit=" ++ fmt_u (run_memlimit f)
                 ++ String.list_ascii_of_string ", cmd=" ++ cstr cmd ++ args)
        end
     | REQ_INTERRUPT =>
        id ← read_str (req_id r);
        mret (String.list_ascii_of_string "req_type=REQ_INTERRUPT, id=" ++ cstr id)
     end
  end.

(** ** The line as a list of fields *)

(** The specification of the syntax: the fields between semicolons. *)
Fixpoint fields (s : list ascii) : list (list ascii) :=
  match s with
  | [] => [[]]
  | c :: s =>
     if decide (c = ";"%char) then [] :: fields s
     else match fields s with
          | [] => []
          | f :: fs => (c :: f) :: fs
          end
  end.

Fixpoint join (fs : list (list ascii)) : list ascii :=
  match fs with
  | [] => []
  | [f] => f
  | f :: fs => f ++ ";"%char :: join fs
  end.

Definition semicolons (s : list ascii) : nat := length (filter (λ c, c = ";"%char) s).

Lemma fields_length s : length (fields s) = S (semicolons s).
Proof.
  unfold semicolons. induction s as [|c s IH]; [done|]. cbn [fields]. rewrite filter_cons.
  case_decide; cbn [length]; [by rewrite IH|]. destruct (fields s); cbn in *; lia.
Qed.

Lemma fields_join fs :
  fs ≠ [] → Forall (λ f, ";"%char ∉ f) fs → fields (join fs) = fs.
Proof.
  intros Hne Hf. induction fs as [|f fs IH]; [done|]. clear Hne.
  apply Forall_cons in Hf as [Hn Hf].
  assert (∀ t, fields (f ++ ";"%char :: t) = f :: fields t) as Happ.
  { intros t. clear -Hn. induction f as [|c f IH]; cbn; [done|].
    apply not_elem_of_cons in Hn as [? ?]. rewrite decide_False by done. by rewrite IH. }
  destruct fs as [|f2 fs].
  - cbn. clear IH Happ. induction f as [|c f IH]; cbn; [done|].
    apply not_elem_of_cons in Hn as [? ?]. rewrite decide_False by done. by rewrite IH.
  - change (join (f :: f2 :: fs)) with (f ++ ";"%char :: join (f2 :: fs)).
    rewrite Happ. f_equal. by apply IH.
Qed.

(** A field and what follows it. *)
Lemma fields_cons s f fs :
  fields s = f :: fs →
  (";"%char ∉ f) ∧
  (match fs with
   | [] => s = f
   | _ => ∃ t, s = f ++ ";"%char :: t ∧ fields t = fs
   end).
Proof.
  revert f fs. induction s as [|c s IH]; intros f fs Hs; cbn in Hs.
  - simplify_eq. split; [set_solver|done].
  - destruct (decide (c = ";"%char)) as [->|Hc].
    + injection Hs as <- <-. split; [set_solver|].
      destruct (fields s) as [|f2 fs2] eqn:E;
        [by pose proof (fields_length s) as Hl; rewrite E in Hl|].
      exists s. done.
    + destruct (fields s) as [|g gs] eqn:E; [done|]. injection Hs as <- <-.
      destruct (IH g gs eq_refl) as [Hg Ht]. split; [set_solver|].
      destruct gs; [by subst|]. destruct Ht as (t & -> & Ht). by exists t.
Qed.

(** The line [s] lies in [buf] at [off]. *)
Definition holds (buf : arr ascii) (off : Z) (s : list ascii) : Prop :=
  0 ≤ off ∧ ∀ i c, s !! i = Some c → buf !! (Z.to_nat off + i)%nat = Some (Some c).

Lemma holds_get buf off s i c :
  holds buf off s → s !! i = Some c → arr_get buf (off + Z.of_nat i) = Ok c.
Proof.
  intros [H0 Hb] Hi. apply arr_get_ok; [lia|]. rewrite <- (Hb i c Hi). f_equal. lia.
Qed.

Lemma holds_drop buf off s k :
  holds buf off s → holds buf (off + Z.of_nat k) (drop k s).
Proof.
  intros [H0 Hb]. split; [lia|]. intros i c Hi. rewrite lookup_drop in Hi.
  rewrite <- (Hb _ c Hi). f_equal. lia.
Qed.

Lemma holds_tail buf off c s : holds buf off (c :: s) → holds buf (off + 1) s.
Proof. apply (holds_drop buf off (c :: s) 1). Qed.

Lemma count_loop_rep s : ∀ buf off cnt,
  holds buf off s → count_loop (length s) buf off cnt = Ok (cnt + Z.of_nat (semicolons s)).
Proof.
  unfold semicolons. induction s as [|c s IH]; intros buf off cnt Hh; cbn [length count_loop].
  - f_equal. cbn. lia.
  - pose proof (holds_get _ _ _ 0 c Hh eq_refl) as Hc. rewrite Z.add_0_r in Hc.
    rewrite Hc. cbn [mbind outcome_bind].
    pose proof (holds_tail _ _ _ _ Hh) as Hd. rewrite (IH buf (off + 1)) by done.
    rewrite filter_cons. case_decide; cbn [length]; f_equal; lia.
Qed.

Lemma count_semicolons_rep buf off s :
  holds buf off s →
  count_semicolons buf off (Z.of_nat (length s)) = Ok (Z.of_nat (semicolons s)).
Proof. intros Hh. unfold count_semicolons. rewrite Nat2Z.id. by apply count_loop_rep. Qed.

Lemma arr_read_rep n s : ∀ buf off,
  holds buf off s → (n ≤ length s)%nat → arr_read n buf off = Ok (take n s).
Proof.
  revert s. induction n as [|n IH]; intros s buf off Hh Hn; [done|].
  destruct s as [|c s]; [cbn in Hn; lia|]. cbn [arr_read].
  pose proof (holds_get _ _ _ 0 c Hh eq_refl) as Hc. rewrite Z.add_0_r in Hc.
  rewrite Hc. cbn [mbind outcome_bind]. pose proof (holds_tail _ _ _ _ Hh) as Hd.
  rewrite (IH s) by (done || (cbn in Hn; lia)). done.
Qed.

(** The scan stops at the end of the current field. *)
Lemma scan_semicolon_rep s : ∀ buf off i f fs,
  holds buf (off + i) s → fields s = f :: fs →
  scan_semicolon (length s) buf off i = Ok (i + Z.of_nat (length f)).
Proof.
  induction s as [|c s IH]; intros buf off i f fs Hh Hf; cbn in Hf; cbn [length scan_semicolon].
  - simplify_eq. cbn. f_equal. lia.
  - pose proof (holds_get _ _ _ 0 c Hh eq_refl) as Hc. rewrite Z.add_0_r in Hc.
    rewrite Hc. cbn [mbind outcome_bind]. case_decide.
    + simplify_eq. cbn. f_equal. lia.
    + destruct (fields s) as [|g gs] eqn:E; [done|]. simplify_eq.
      pose proof (holds_tail _ _ _ _ Hh) as Hd.
      replace (off + i + 1) with (off + (i + 1)) in Hd by lia.
      rewrite (IH buf off (i + 1) g fs Hd eq_refl). cbn [length]. f_equal. lia.
Qed.

(** The reading position: [fs] are the fields from [pos] on. *)
Definition at_fields (s : list ascii) (pos : Z) (fs : list (list ascii)) : Prop :=
  0 ≤ pos ≤ Z.of_nat (length s) ∧ fields (drop (Z.to_nat pos) s) = fs.

Lemma at_fields_start s : at_fields s 0 (fields s).
Proof. split; [lia|done]. Qed.

Lemma wp_copy buf off s pos f fs s0 own st Q E :
  holds buf off s → at_fields s pos (f :: fs) → grown s0 own st →
  (∀ pos' a st', a ∉ own → grown s0 (a :: own) st' →
     (fs ≠ [] → pos' = pos + Z.of_nat (length f) + 1 ∧ at_fields s pos' fs) →
     Q (pos', mk_str a (f ++ [NUL])) st') →
  wp (copy_up_to_semicolon buf off pos (Z.of_nat (length s))) Q E st.
Proof.
  intros Hh [Hpos Hf] Hg HQ. unfold copy_up_to_semicolon, alloc_str.
  pose proof (holds_drop _ _ _ (Z.to_nat pos) Hh) as Hd. rewrite Z2Nat.id in Hd by lia.
  destruct (fields_cons _ _ _ Hf) as [_ Ht].
  assert (length f ≤ length (drop (Z.to_nat pos) s))%nat as Hlen.
  { destruct fs; [by rewrite Ht|]. destruct Ht as (t & -> & _). rewrite length_app. lia. }
  rewrite length_drop in Hlen.
  wp_go. eapply wp_lift_ok.
  { replace (Z.to_nat (Z.of_nat (length s) - pos)) with (length (drop (Z.to_nat pos) s))
      by (rewrite length_drop; lia).
    by apply scan_semicolon_rep with fs. }
  wp_go. eapply wp_lift_ok.
  { replace (Z.to_nat (pos + Z.of_nat (length f) - pos)) with (length f) by lia.
    apply arr_read_rep; [done|]. rewrite length_drop. lia. }
  replace (take (length f) (drop (Z.to_nat pos) s)) with f; cycle 1.
  { destruct fs; [by rewrite Ht, take_ge|]. destruct Ht as (t & -> & _).
    by rewrite take_app_length. }
  wp_go. eapply wp_malloc_grown; [done|]. intros a st' Ha Hg'. wp_go. apply HQ; [done..|].
  intros Hfs. destruct fs as [|g fs]; [done|]. destruct Ht as (t & Ht & Hft).
  assert (length (drop (Z.to_nat pos) s) = length f + S (length t))%nat as Hl2
    by (rewrite Ht, length_app; done).
  rewrite length_drop in Hl2. rewrite (proj2 (Z.eqb_neq _ _)) by lia.
  split; [done|]. split; [lia|].
  replace (Z.to_nat (pos + Z.of_nat (length f) + 1)) with (Z.to_nat pos + (length f + 1))%nat by lia.
  rewrite <- drop_drop, Ht. rewrite drop_app_ge by lia.
  replace (length f + 1 - length f)%nat with 1%nat by lia. done.
Qed.

(** ** Specification of [parse_request] *)

Inductive parsed :=
  | PNone
  | PParallel (n : Z)
  | PInterrupt (id : list ascii)
  | PRun (usestdin : bool) (id : list ascii) (timeout memlimit : Z)
         (cmd : list ascii) (args : list (list ascii)).

(** The field, as a C string, is the literal. *)
Definition field_is (f : list ascii) (lit : string) : bool :=
  bool_decide (cstr (f ++ [NUL]) = String.list_ascii_of_string lit).

Definition field_num (f : list ascii) : Z :=
  match atoi (f ++ [NUL]) with Ok v => v | Err _ => 0 end.

Definition spec_parse (s : list ascii) : parsed :=
  match fields s with
  | [f; arg] =>
     if field_is f "parallel" then PParallel (field_num arg)
     else if field_is f "interrupt" then PInterrupt arg else PNone
  | f :: id :: timeout :: memlimit :: cmd :: args =>
     if field_is f "run" then
       PRun false id (field_num timeout) (uint (field_num memlimit)) cmd args
     else if field_is f "runstdin" then
       PRun true id (field_num timeout) (uint (field_num memlimit)) cmd args
     else PNone
  | _ => PNone
  end.

(** The allocations a request owns. *)
Definition run_addrs (f : run_fields) : list positive :=
  s_addr (run_cmd f) :: run_args_addr f :: (s_addr <$> run_args f).
Definition req_addrs (r : request) : list positive :=
  req_addr r :: s_addr (req_id r) ::
  match req_run r with Some f => run_addrs f | None => [] end.

(** The struct holds the parsed fields. *)
Definition request_matches (key : Z) (p : parsed) (r : request) : Prop :=
  req_key r = key ∧
  match p with
  | PInterrupt id =>
     req_type r = REQ_INTERRUPT ∧ s_txt (req_id r) = id ++ [NUL] ∧ req_run r = None
  | PRun usestdin id timeout memlimit cmd args =>
     req_type r = REQ_RUN ∧ s_txt (req_id r) = id ++ [NUL] ∧
     ∃ f, req_run r = Some f ∧ run_timeout f = timeout ∧ run_memlimit f = memlimit ∧
       run_usestdin f = usestdin ∧ s_txt (run_cmd f) = cmd ++ [NUL] ∧
       run_numargs f = Z.of_nat (length args) ∧
       s_txt <$> run_args f = (λ a, a ++ [NUL]) <$> args
  | _ => False
  end.

Definition logged (line : list ascii) (st : core) : core :=
  if c_logging st then set_log (c_log st ++ [line ++ [LF]]) st else st.

Lemma wp_log_msg line Q E st : Q tt (logged line st) → wp (log_msg line) Q E st.
Proof.
  intros HQ. unfold log_msg. wp_go. unfold logged in HQ.
  destruct (c_logging st); [by wp_go|by wp_go].
Qed.

Lemma core_fresh_logged line st : core_fresh st → core_fresh (logged line st).
Proof. unfold logged. by destruct (c_logging st). Qed.

Lemma nul_in_field f : NUL ∈ f ++ [NUL].
Proof. set_solver. Qed.

Lemma length_cstr_field f : (length (cstr (f ++ [NUL])) ≤ length f)%nat.
Proof. induction f as [|c f IH]; cbn; [done|]. case_decide; cbn; lia. Qed.

Lemma wp_strncmp_lit a f lit n own s0 st Q E :
  grown s0 own st → a ∈ own → NUL ∉ String.list_ascii_of_string lit →
  Z.of_nat (length f) < n →
  (∀ v, (v =? 0) = field_is f lit → Q v st) →
  wp (strncmp_lit (mk_str a (f ++ [NUL])) lit n) Q E st.
Proof.
  intros Hg Ha Hlit Hn HQ. unfold strncmp_lit. wp_go.
  eapply wp_read_str_grown; [done|done|]. cbn [s_txt].
  destruct (strncmp_eq (Z.to_nat n) (f ++ [NUL]) (clit lit)) as (v & Hv & Hiff).
  - apply nul_in_field.
  - unfold clit. set_solver.
  - left. pose proof (length_cstr_field f). lia.
  - eapply wp_lift_ok; [done|]. apply HQ. unfold field_is.
    rewrite clit_cstr in Hiff by done.
    destruct (Z.eqb_spec v 0) as [He|Hne]; symmetry.
    + apply bool_decide_eq_true. tauto.
    + apply bool_decide_eq_false. tauto.
Qed.

Lemma atoi_field f : atoi (f ++ [NUL]) = Ok (field_num f).
Proof.
  unfold field_num. destruct (atoi_ok (f ++ [NUL]) (nul_in_field f)) as (v & -> & _). done.
Qed.

Lemma wp_parse_args n : ∀ buf off s pos fs s0 own st Q E,
  holds buf off s → (0 < n)%nat → at_fields s pos fs → length fs = n → grown s0 own st →
  (∀ args st', s_txt <$> args = (λ a, a ++ [NUL]) <$> fs →
     grown s0 ((s_addr <$> args) ++ own) st' → Q args st') →
  wp (parse_args n buf off pos (Z.of_nat (length s))) Q E st.
Proof.
  induction n as [|n IH]; intros buf off s pos fs s0 own st Q E Hh Hn Hat Hl Hg HQ; [lia|].
  destruct fs as [|f fs]; [done|]. cbn [parse_args]. wp_go.
  eapply wp_copy; [done..|]. intros pos' a st1 Ha Hg1 Hnext.
  destruct n as [|n].
  - destruct fs; [|done]. cbn [parse_args]. wp_go. by apply HQ.
  - destruct Hnext as [_ Hat']; [by destruct fs|]. wp_go.
    eapply IH; [done|lia|done|by injection Hl|done|]. intros args st2 Htxt Hg2. wp_go.
    apply HQ; [cbn; by rewrite Htxt|]. cbn. eapply grown_perm; [|done].
    symmetry. apply Permutation_middle.
Qed.

Lemma grown_set_parallel n s0 own st :
  grown s0 own st → grown (set_parallel n s0) own (set_parallel n st).
Proof.
  intros (Hf & Hnd & Hd & Hs). split; [done|]. split; [done|]. split; [done|].
  cbn. rewrite Hs at 1. done.
Qed.

(** The state after a request line that only changes [parallel]. *)
Definition after_parallel (n : Z) (st : core) : core :=
  if 1 <=? n then set_parallel n st else st.

Lemma parse_command_spec buf off s key f arg st :
  holds buf off s → fields s = [f; arg] → core_fresh st →
  wp (parse_command buf off (Z.of_nat (length s)) key)
    (λ r st',
       if field_is f "parallel" then
         r = None ∧ grown (after_parallel (field_num arg) st) [] st'
       else if field_is f "interrupt" then
         ∃ q, r = Some q ∧ request_matches key (PInterrupt arg) q ∧
           grown st (req_addrs q) st'
       else r = None ∧ grown st [] st') (λ _, False) st.
Proof.
  intros Hh Hf Hfresh. unfold parse_command.
  pose proof (at_fields_start s) as Hat. rewrite Hf in Hat. wp_go.
  eapply wp_copy; [done|done|by apply grown_refl|]. intros pos a st1 _ Hg1 Hn.
  destruct Hn as [Hpos Hat1]; [done|]. wp_go.
  eapply wp_strncmp_lit; [done|set_solver|by apply (bool_decide_unpack _)|lia|].
  intros v Hv. rewrite Hv. destruct (field_is f "parallel") eqn:Epar.
  - wp_go. eapply wp_free_grown; [done|]. intros st2 Hg2. wp_go.
    eapply wp_copy; [done..|]. intros pos2 a2 st3 _ Hg3 _. wp_go.
    eapply wp_read_str_grown; [done|set_solver|]. wp_go. cbn [s_txt].
    eapply wp_lift_ok; [apply atoi_field|]. wp_go. unfold after_parallel.
    destruct (1 <=? field_num arg); wp_go.
    + eapply wp_free_grown; [by apply grown_set_parallel|]. intros st4 Hg4. by wp_go.
    + eapply wp_free_grown; [done|]. intros st4 Hg4. by wp_go.
  - wp_go. eapply wp_strncmp_lit; [done|set_solver|by apply (bool_decide_unpack _)|lia|].
    intros v2 Hv2. rewrite Hv2. destruct (field_is f "interrupt") eqn:Eint; wp_go.
    + eapply wp_free_grown; [done|]. intros st2 Hg2. wp_go.
      eapply wp_malloc_grown; [done|]. intros a2 st3 _ Hg3. wp_go.
      eapply wp_copy; [done..|]. intros pos2 a3 st4 _ Hg4 _. wp_go.
      eexists. split; [done|]. split; [done|]. cbn. eapply grown_perm; [|done].
      apply perm_swap.
    + eapply wp_free_grown; [done|]. intros st2 Hg2. by wp_go.
Qed.

(** The part of [parse_run] after the first field. *)
Lemma parse_run_fields buf off s key b pos id timeout memlimit cmd args st0 st :
  holds buf off s → at_fields s pos (id :: timeout :: memlimit :: cmd :: args) →
  grown st0 [] st →
  wp (a ← malloc;
     '(pos, id) ← copy_up_to_semicolon buf off pos (Z.of_nat (length s));
     '(pos, tmp) ← copy_up_to_semicolon buf off pos (Z.of_nat (length s));
     txt ← read_str tmp;
     timeout ← lift (atoi txt);
     _ ← free (s_addr tmp);
     '(pos, tmp) ← copy_up_to_semicolon buf off pos (Z.of_nat (length s));
     txt ← read_str tmp;
     memlimit ← lift (atoi txt);
     _ ← free (s_addr tmp);
     '(pos, cmd) ← copy_up_to_semicolon buf off pos (Z.of_nat (length s));
     args_addr ← malloc;
     args' ← parse_args (Z.to_nat (Z.of_nat (length args))) buf off pos (Z.of_nat (length s));
     mret (Some (mk_req a key REQ_RUN id
                   (Some (mk_run timeout (uint memlimit) b cmd (Z.of_nat (length args))
                            args_addr args')))))
    (λ r st', ∃ q, r = Some q ∧
       request_matches key
         (PRun b id (field_num timeout) (uint (field_num memlimit)) cmd args) q ∧
       grown st0 (req_addrs q) st') (λ _, False) st.
Proof.
  intros Hh Hat Hg. wp_go. eapply wp_malloc_grown; [done|]. intros a st1 _ Hg1. wp_go.
  eapply wp_copy; [done..|]. intros p1 a1 st2 _ Hg2 Hn. destruct Hn as [_ Hat1]; [done|]. wp_go.
  eapply wp_copy; [done..|]. intros p2 a2 st3 _ Hg3 Hn. destruct Hn as [_ Hat2]; [done|]. wp_go.
  eapply wp_read_str_grown; [done|set_solver|]. wp_go.
  eapply wp_lift_ok; [apply atoi_field|]. wp_go.
  eapply wp_free_grown; [done|]. intros st4 Hg4. wp_go.
  eapply wp_copy; [done..|]. intros p3 a3 st5 _ Hg5 Hn. destruct Hn as [_ Hat3]; [done|]. wp_go.
  eapply wp_read_str_grown; [done|set_solver|]. wp_go.
  eapply wp_lift_ok; [apply atoi_field|]. wp_go.
  eapply wp_free_grown; [done|]. intros st6 Hg6. wp_go.
  eapply wp_copy; [done..|]. intros p4 a4 st7 _ Hg7 Hn. wp_go.
  eapply wp_malloc_grown; [done|]. intros a5 st8 _ Hg8. wp_go. rewrite Nat2Z.id.
  assert (∀ args' st', s_txt <$> args' = (λ a, a ++ [NUL]) <$> args →
    grown st0 ((s_addr <$> args') ++ [a5; a4; a1; a]) st' →
    ∃ q, Some (mk_req a key REQ_RUN (mk_str a1 (id ++ [NUL]))
               (Some (mk_run (field_num timeout) (uint (field_num memlimit)) b
                  (mk_str a4 (cmd ++ [NUL])) (Z.of_nat (length args)) a5 args'))) = Some q ∧
       request_matches key
         (PRun b id (field_num timeout) (uint (field_num memlimit)) cmd args) q ∧
       grown st0 (req_addrs q) st') as Hfin.
  { intros args' st' Htxt Hg'. eexists. split; [done|]. split.
    - split; [done|]. split; [done|]. split; [done|]. eexists. split; [done|]. done.
    - eapply grown_perm; [|done]. rewrite Permutation_app_comm.
      apply (Permutation_app_tail _ (l' := [a; a1; a4; a5])).
      symmetry. apply (Permutation_rev [a; a1; a4; a5]). }
  destruct args as [|x args].
  - cbn [parse_args length]. wp_go. by apply Hfin.
  - destruct Hn as [_ Hat4]; [done|].
    eapply wp_parse_args; [done|cbn; lia|done|done|done|]. intros args' st' Htxt Hg'. wp_go.
    by apply Hfin.
Qed.

Lemma parse_run_spec buf off s key f id timeout memlimit cmd args st :
  holds buf off s → fields s = f :: id :: timeout :: memlimit :: cmd :: args →
  core_fresh st →
  wp (parse_run buf off (Z.of_nat (length s)) key (Z.of_nat (length args)))
    (λ r st',
       if field_is f "run" || field_is f "runstdin" then
         ∃ q, r = Some q ∧
           request_matches key (PRun (negb (field_is f "run")) id (field_num timeout)
             (uint (field_num memlimit)) cmd args) q ∧
           grown st (req_addrs q) st'
       else r = None ∧ grown st [] st') (λ _, False) st.
Proof.
  intros Hh Hf Hfresh. unfold parse_run.
  pose proof (at_fields_start s) as Hat. rewrite Hf in Hat. wp_go.
  eapply wp_copy; [done|done|by apply grown_refl|]. intros pos a st1 _ Hg1 Hn.
  destruct Hn as [Hpos Hat1]; [done|]. wp_go.
  eapply wp_strncmp_lit; [done|set_solver|by apply (bool_decide_unpack _)|lia|].
  intros v Hv. rewrite Hv. wp_go. destruct (field_is f "run") eqn:Erun; cbn [negb orb].
  - wp_go. eapply wp_free_grown; [done|]. intros st2 Hg2. by apply parse_run_fields.
  - wp_go. eapply wp_strncmp_lit; [done|set_solver|by apply (bool_decide_unpack _)|lia|].
    intros v2 Hv2. rewrite Hv2. destruct (field_is f "runstdin") eqn:Estd.
    + wp_go. eapply wp_free_grown; [done|]. intros st2 Hg2. by apply parse_run_fields.
    + wp_go. eapply wp_free_grown; [done|]. intros st2 Hg2. by wp_go.
Qed.

(** The post-condition of [parse_request] on the line [s], read from [st]. *)
Definition parse_post (key : Z) (s : list ascii) (st : core) (r : option request) (st' : core) : Prop :=
  let st1 := logged (String.list_ascii_of_string "received query " ++ cstr (s ++ [NUL])) st in
  match spec_parse s with
  | PNone => r = None ∧ grown st1 [] st'
  | PParallel n => r = None ∧ grown (after_parallel n st1) [] st'
  | p => ∃ q, r = Some q ∧ request_matches key p q ∧ grown st1 (req_addrs q) st'
  end.

Lemma wp_parse_request buf off s key st :
  holds buf off s → core_fresh st →
  wp (parse_request buf off (Z.of_nat (length s)) key) (parse_post key s st) (λ _, False) st.
Proof.
  intros Hh Hfresh. unfold parse_request, parse_post, query_line. wp_go.
  eapply wp_lift_ok.
  { rewrite Nat2Z.id, (arr_read_rep _ s) by done. cbn. by rewrite take_ge by done. }
  wp_go. apply wp_log_msg. set (st1 := logged _ st).
  assert (core_fresh st1) as Hf1 by (by apply core_fresh_logged).
  wp_go. eapply wp_lift_ok; [by apply count_semicolons_rep|].
  pose proof (fields_length s) as Hlen. unfold spec_parse.
  destruct (fields s) as [|f [|f2 [|f3 [|f4 [|f5 fs]]]]] eqn:E; cbn [length] in Hlen; [lia|..];
    injection Hlen as <-; try (by split; [|apply grown_refl]).
  - cbn [Z.of_nat Z.eqb Z.ltb]. eapply wp_post; [by eapply parse_command_spec|]. cbv beta.
    intros r st'. destruct (field_is f "parallel"); [done|]. by destruct (field_is f "interrupt").
  - rewrite !(proj2 (Z.eqb_neq _ _)) by lia.
    replace (Z.of_nat (S (S (S (S (length fs))))) - 4) with (Z.of_nat (length fs)) by lia.
    rewrite (proj2 (Z.ltb_ge _ _)) by lia.
    eapply wp_post; [by eapply parse_run_spec|]. cbv beta.
    intros r st'. destruct (field_is f "run"); [done|]. by destruct (field_is f "runstdin").
Qed.

(** C30: [parse_request] on any line terminates without undefined behaviour and
    computes the specification [spec_parse] of the line's fields: [NULL] and no
    other effect for a malformed line, the new value of [parallel] for a
    [parallel] command, or a request whose every field (identifier, limits,
    command and arguments, in order and terminated) is that of the line.  The
    temporary strings are all freed exactly once: the allocations left are those
    before the call and those the returned request owns. *)
Theorem parse_request_correct buf off s key st :
  holds buf off s → core_fresh st →
  ∃ r st', parse_request buf off (Z.of_nat (length s)) key st = Ok (r, st') ∧
    parse_post key s st r st'.
Proof. intros Hh Hf. by apply wp_Ok_inv, wp_parse_request. Qed.

(** ** Round trip *)

(** The line the prover client sends (src/driver/prove_client.ml). *)
Definition encode_run (usestdin : bool) (id : list ascii) (timeout memlimit : Z)
    (cmd : list ascii) (args : list (list ascii)) : list ascii :=
  join (String.list_ascii_of_string (if usestdin then "runstdin" else "run")
        :: id :: fmt_d timeout :: fmt_d memlimit :: cmd :: args).

Lemma field_num_fmt_d z : INT_MIN ≤ z ≤ INT_MAX → field_num (fmt_d z) = z.
Proof. intros. unfold field_num. by rewrite atoi_fmt_d. Qed.

Lemma spec_parse_encode usestdin id timeout memlimit cmd args :
  Forall (λ f, ";"%char ∉ f) (id :: cmd :: args) →
  INT_MIN ≤ timeout ≤ INT_MAX → 0 ≤ memlimit ≤ INT_MAX →
  spec_parse (encode_run usestdin id timeout memlimit cmd args) =
    PRun usestdin id timeout memlimit cmd args.
Proof.
  intros Hf Ht Hm. apply Forall_cons in Hf as [Hid Hf]. apply Forall_cons in Hf as [Hcmd Hf].
  unfold spec_parse, encode_run. rewrite fields_join; [|done|].
  - rewrite !field_num_fmt_d by (unfold INT_MIN, INT_MAX in *; lia).
    rewrite uint_small by (unfold INT_MAX, UINT_MOD in *; lia).
    destruct usestdin; reflexivity.
  - repeat (constructor; try done).
    + destruct usestdin; apply (bool_decide_unpack _); reflexivity.
    + by apply fmt_d_no.
    + by apply fmt_d_no.
Qed.

(** C31: Round trip with the client: a line encoding a run request, whose
    identifier, command and arguments contain no semicolon, is parsed back to
    exactly these values, for every time limit and every non-negative memory
    limit an [int] can hold. *)
Theorem parse_request_roundtrip buf off key usestdin id timeout memlimit cmd args st :
  let s := encode_run usestdin id timeout memlimit cmd args in
  holds buf off s → core_fresh st →
  Forall (λ f, ";"%char ∉ f) (id :: cmd :: args) →
  INT_MIN ≤ timeout ≤ INT_MAX → 0 ≤ memlimit ≤ INT_MAX →
  ∃ q st', parse_request buf off (Z.of_nat (length s)) key st = Ok (Some q, st') ∧
    request_matches key (PRun usestdin id timeout memlimit cmd args) q.
Proof.
  intros s Hh Hfresh Hf Ht Hm.
  destruct (wp_Ok_inv _ _ _ (wp_parse_request buf off s key st Hh Hfresh)) as (r & st' & Hr & Hp).
  unfold parse_post in Hp. unfold s in Hp. rewrite spec_parse_encode in Hp by done.
  destruct Hp as (q & -> & Hq & _). eauto.
Qed.

(** ** The request queue *)

(** The request is readable: its identifier is a live, terminated string. *)
Definition id_live (live : gset positive) (x : cstring) : Prop :=
  s_addr x ∈ live ∧ NUL ∈ s_txt x.

Definition same_id (id : cstring) (r : request) : Prop :=
  cstr (s_txt (req_id r)) = cstr (s_txt id).
#[export] Instance same_id_dec id r : Decision (same_id id r).
Proof. unfold same_id. apply _. Defined.

(** Popping the requests [l] into [tmp] but those named [id]. *)
Lemma wp_remove_loop1 l : ∀ id tmp t st Q (E : cerror → Prop),
  queue_rep (c_queue st) l → queue_rep tmp t →
  id_live (c_live st) id → Forall (λ r, id_live (c_live st) (req_id r)) l →
  E OutOfMemory ∨ 2 * Z.of_nat (length l + length t) ≤ alloc_max →
  (∀ tmp' q, queue_rep tmp' (t ++ filter (λ r, ¬ same_id id r) l) → queue_rep q [] →
     Q tmp' (set_queue q st)) →
  wp (remove_loop1 (length l) id tmp) Q E st.
Proof.
  induction l as [|r l IH]; intros id tmp t st Q E Hq Ht Hid Hl Hs HQ;
    cbn [length remove_loop1]; wp_go; rewrite (queue_is_empty_rep _ _ Hq).
  - rewrite bool_decide_true by done. wp_go.
    specialize (HQ tmp (c_queue st)). rewrite filter_nil, app_nil_r in HQ.
    replace (set_queue (c_queue st) st) with st in HQ by (by destruct st). by apply HQ.
  - rewrite bool_decide_false by done. unfold pop_request. wp_go.
    destruct (queue_pop_rep _ _ _ Hq) as (q1 & Epop & Hq1 & _).
    eapply wp_lift_ok; [done|]. wp_go. apply Forall_cons in Hl as [[Hra Hrn] Hl].
    destruct Hid as [Hia Hin].
    apply wp_read_str; [done|]. wp_go. apply wp_read_str; [done|]. wp_go.
    destruct (strcmp_eq _ _ Hrn Hin) as (v & Hv & Hiff). eapply wp_lift_ok; [done|].
    assert (∀ tmp' t', queue_rep tmp' t' →
      E OutOfMemory ∨ 2 * Z.of_nat (length l + length t') ≤ alloc_max →
      t' ++ filter (λ r, ¬ same_id id r) l = t ++ filter (λ r, ¬ same_id id r) (r :: l) →
      wp (remove_loop1 (length l) id tmp') Q E (set_queue q1 st)) as Hrec.
    { intros tmp' t' Ht' Hs' Heq. apply IH with t'; try done.
      intros tmp2 q2 Ht2 Hq2. rewrite Heq in Ht2. by apply HQ. }
    rewrite filter_cons in Hrec. wp_go.
    destruct (Z.eqb_spec v 0) as [He|Hne]; cbn [negb]; wp_go.
    + rewrite decide_False in Hrec by (unfold same_id; tauto).
      apply Hrec with t; [done|cbn in Hs; intuition lia|done].
    + rewrite decide_True in Hrec by (unfold same_id; tauto).
      eapply wp_queue_push; [done|cbn in Hs; intuition lia|]. intros tmp1 Ht1.
      apply Hrec with (t ++ [r]); [done| |by rewrite <- app_assoc].
      rewrite length_app. cbn in Hs |- *. intuition lia.
Qed.

Lemma wp_remove_loop2 t : ∀ tmp l st Q (E : cerror → Prop),
  queue_rep (c_queue st) l → queue_rep tmp t →
  E OutOfMemory ∨ 2 * Z.of_nat (length l + length t) ≤ alloc_max →
  (∀ tmp' q, queue_rep tmp' [] → queue_rep q (l ++ t) → Q tmp' (set_queue q st)) →
  wp (remove_loop2 (length t) tmp) Q E st.
Proof.
  induction t as [|r t IH]; intros tmp l st Q E Hq Ht Hs HQ;
    cbn [length remove_loop2]; rewrite (queue_is_empty_rep _ _ Ht).
  - rewrite bool_decide_true by done. wp_go.
    specialize (HQ tmp (c_queue st)). rewrite app_nil_r in HQ.
    replace (set_queue (c_queue st) st) with st in HQ by (by destruct st). by apply HQ.
  - rewrite bool_decide_false by done. wp_go.
    destruct (queue_pop_rep _ _ _ Ht) as (t1 & Epop & Ht1 & _).
    eapply wp_lift_ok; [done|]. unfold push_request. wp_go.
    eapply wp_queue_push; [done|cbn in Hs; intuition lia|]. intros q1 Hq1.
    wp_go. eapply IH; [done|done| |].
    + rewrite length_app. cbn in Hs |- *. intuition lia.
    + intros tmp' q Hn Hq'. rewrite <- app_assoc in Hq'. by apply HQ.
Qed.

Lemma wp_remove_from_queue l id st Q (E : cerror → Prop) :
  queue_rep (c_queue st) l → id_live (c_live st) id →
  Forall (λ r, id_live (c_live st) (req_id r)) l →
  E OutOfMemory ∨ 2 * Z.of_nat (length l) ≤ alloc_max →
  (∀ q, queue_rep q (filter (λ r, ¬ same_id id r) l) → Q tt (set_queue q st)) →
  wp (remove_from_queue id) Q E st.
Proof.
  intros Hq Hid Hl Hs HQ. unfold remove_from_queue. wp_go.
  destruct (init_queue_rep (A:=request) (q_capacity (c_queue st)) (qr_cap _ _ Hq))
    as (tmp & Einit & Htmp & _).
  eapply wp_lift_ok; [done|]. wp_go. rewrite (qr_len _ _ Hq), Nat2Z.id.
  eapply wp_remove_loop1; [done..|cbn; by rewrite Nat.add_0_r|]. intros tmp1 q1 Ht1 Hq1. cbn in Ht1.
  wp_go. rewrite (qr_len _ _ Ht1), Nat2Z.id.
  eapply wp_remove_loop2; [exact Hq1|done| |].
  - cbn. pose proof (length_filter (λ r, ¬ same_id id r) l). intuition lia.
  - intros tmp2 q2 Ht2 Hq2. eapply wp_lift_ok; [by rewrite (free_queue_rep _ _ Ht2)|].
    change (set_queue q2 (set_queue q1 st)) with (set_queue q2 st). by apply HQ.
Qed.

(** [remove_from_queue], on a queue of at most half the largest array that
    can be allocated, leaves in it exactly the requests
    whose identifier is another string, in their order, through the two
    transfers and whatever resizing they cause; no other state changes.  In
    particular the allocations are those before the call: the removed requests
    are not freed. *)
Theorem remove_from_queue_filters l id st :
  queue_rep (c_queue st) l → id_live (c_live st) id →
  Forall (λ r, id_live (c_live st) (req_id r)) l →
  2 * Z.of_nat (length l) ≤ alloc_max →
  ∃ q, remove_from_queue id st = Ok (tt, set_queue q st) ∧
    queue_rep q (filter (λ r, ¬ same_id id r) l).
Proof.
  intros Hq Hid Hl Hs.
  assert (wp (remove_from_queue id) (λ _ st', ∃ q, st' = set_queue q st ∧
    queue_rep q (filter (λ r, ¬ same_id id r) l)) (λ _, False) st) as Hwp
    by (apply wp_remove_from_queue with l; eauto).
  destruct (wp_Ok_inv _ _ _ Hwp) as ([] & st' & Hr & q & -> & Hq'). eauto.
Qed.

(** ** Freeing a request *)

(** What [free_request] releases: everything but the [id] of a REQ_RUN request. *)
Definition freed_addrs (r : request) : list positive :=
  match req_type r, req_run r with
  | REQ_RUN, Some f => req_addr r :: run_addrs f
  | _, _ => [req_addr r; s_addr (req_id r)]
  end.

(** The fields a request of its type must have. *)
Definition req_wf (r : request) : Prop :=
  match req_type r, req_run r with
  | REQ_RUN, Some f => run_numargs f = Z.of_nat (length (run_args f))
  | REQ_RUN, None => False
  | REQ_INTERRUPT, _ => True
  end.

Lemma wp_free_strs l : ∀ st Q E,
  NoDup (s_addr <$> l) → (∀ a, a ∈ s_addr <$> l → a ∈ c_live st) →
  Q tt (set_live (c_next st) (c_live st ∖ list_to_set (s_addr <$> l)) st) →
  wp (free_strs l) Q E st.
Proof.
  induction l as [|x l IH]; intros st Q E Hnd Hl HQ; cbn [free_strs].
  - wp_go. cbn in HQ. by rewrite difference_empty_L, set_live_id in HQ.
  - cbn in Hnd. apply NoDup_cons in Hnd as [Hx Hnd]. wp_go.
    apply wp_free; [apply Hl; cbn; set_solver|]. apply IH; [done| |].
    + intros a Ha. cbn. apply elem_of_difference. split; [apply Hl; cbn; set_solver|].
      intros ->%elem_of_singleton. done.
    + cbn in *. by rewrite difference_difference_l_L.
Qed.

Lemma freed_addrs_sub r : freed_addrs r ⊆+ req_addrs r.
Proof.
  unfold freed_addrs, req_addrs. destruct (req_type r), (req_run r); solve_submseteq.
Qed.

Lemma wp_free_request r st Q E :
  req_wf r → NoDup (freed_addrs r) → (∀ a, a ∈ freed_addrs r → a ∈ c_live st) →
  Q tt (set_live (c_next st) (c_live st ∖ list_to_set (freed_addrs r)) st) →
  wp (free_request (Some r)) Q E st.
Proof.
  intros Hwf Hnd Hl HQ. unfold free_request, req_wf, freed_addrs in *.
  destruct (req_type r); [destruct (req_run r) as [f|]; [|done]|].
  - unfold run_addrs in *. rewrite Hwf, Nat2Z.id, take_ge by done.
    rewrite !NoDup_cons, !not_elem_of_cons in Hnd. destruct_and!.
    wp_go. apply wp_free; [apply Hl; set_solver|]. wp_go.
    apply wp_free_strs; [done|intros a Ha; cbn; set_solver|].
    apply wp_free; [cbn; set_solver|]. apply wp_free; [cbn; set_solver|].
    cbn. rewrite !set_live_twice.
    eapply (eq_ind _ (Q tt)); [exact HQ|]. cbn. clear. f_equal. set_solver.
  - rewrite !NoDup_cons, !not_elem_of_cons in Hnd. destruct_and!. wp_go.
    apply wp_free; [apply Hl; set_solver|]. apply wp_free; [cbn; set_solver|].
    cbn. rewrite !set_live_twice.
    eapply (eq_ind _ (Q tt)); [exact HQ|]. cbn. clear. f_equal. set_solver.
Qed.

(** [free_request] on a well-formed request whose allocations are distinct
    and live returns, and releases each of them exactly once, except the
    identifier of a REQ_RUN request, which by then belongs to the process that
    was started for it. *)
Theorem free_request_releases r st :
  req_wf r → NoDup (req_addrs r) → (∀ a, a ∈ req_addrs r → a ∈ c_live st) →
  free_request (Some r) st =
    Ok (tt, set_live (c_next st) (c_live st ∖ list_to_set (freed_addrs r)) st).
Proof.
  intros Hwf Hnd Hl. pose proof (freed_addrs_sub r) as Hsub.
  enough (wp (free_request (Some r)) (λ _ st', st' = set_live (c_next st)
    (c_live st ∖ list_to_set (freed_addrs r)) st) (λ _, False) st) as Hwp.
  { destruct (wp_Ok_inv _ _ _ Hwp) as ([] & st' & -> & ->). done. }
  apply wp_free_request; [done|by eapply NoDup_part| |done].
  intros a Ha. apply Hl. by eapply elem_of_submseteq.
Qed.

End request.

(** A line lying at the start of a buffer. *)
Lemma holds_start s : holds (Some <$> s) 0 s.
Proof. split; [lia|]. intros i c Hi. change (Z.to_nat 0 + i)%nat with i. by rewrite list_lookup_fmap, Hi. Qed.

Lemma initial_core_fresh : core_fresh initial_core.
Proof. intros a Ha. set_solver. Qed.

Lemma parse_request_correct_witness :
  let s := String.list_ascii_of_string "run;42;10;1000;alt-ergo;-timelimit;10;file.mlw" in
  ∃ r st', parse_request (Some <$> s) 0 (Z.of_nat (length s)) 7 initial_core = Ok (r, st') ∧
    parse_post 7 s initial_core r st'.
Proof.
  apply (parse_request_correct
    (Some <$> String.list_ascii_of_string "run;42;10;1000;alt-ergo;-timelimit;10;file.mlw") 0
    (String.list_ascii_of_string "run;42;10;1000;alt-ergo;-timelimit;10;file.mlw") 7 initial_core).
  - apply holds_start.
  - apply initial_core_fresh.
Defined.

Lemma parse_request_roundtrip_witness :
  let id := String.list_ascii_of_string "g1" in
  let cmd := String.list_ascii_of_string "z3" in
  let args := [String.list_ascii_of_string "-in"] in
  let s := encode_run true id 5 1000 cmd args in
  ∃ q st', parse_request (Some <$> s) 0 (Z.of_nat (length s)) 3 initial_core = Ok (Some q, st') ∧
    request_matches 3 (PRun true id 5 1000 cmd args) q.
Proof.
  apply (parse_request_roundtrip _ 0 3 true (String.list_ascii_of_string "g1") 5 1000
    (String.list_ascii_of_string "z3") [String.list_ascii_of_string "-in"] initial_core).
  - apply holds_start.
  - apply initial_core_fresh.
  - repeat (apply Forall_cons_2; [apply (bool_decide_unpack _); reflexivity|]). apply Forall_nil_2.
  - unfold INT_MIN, INT_MAX. lia.
  - unfold INT_MAX. lia.
Defined.

(** Three queued requests, two of them named "a". *)
Definition sample_request (addr : positive) (name : string) : request :=
  mk_req addr 3 REQ_RUN (mk_str (Pos.succ addr) (clit name)) None.

Lemma remove_from_queue_filters_witness :
  let l := [sample_request 1 "a"; sample_request 3 "b"; sample_request 5 "a"] in
  let st := mk_core 9 {[1; 2; 3; 4; 5; 6; 7]}%positive
              (mk_queue [Some (sample_request 5 "a"); Some (sample_request 1 "a");
                         Some (sample_request 3 "b")] 1 3 3) 1 None false false [] in
  ∃ q, @remove_from_queue strict_libc (mk_str 7 (clit "a")) st = Ok (tt, set_queue q st) ∧
    @queue_rep strict_libc _ q (filter (λ r, ¬ same_id (mk_str 7 (clit "a")) r) l).
Proof.
  set (l := [sample_request 1 "a"; sample_request 3 "b"; sample_request 5 "a"]).
  set (st := mk_core _ _ _ _ _ _ _ _).
  apply (@remove_from_queue_filters strict_libc l (mk_str 7 (clit "a")) st).
  - split; cbn; try lia; try done.
    intros [|[|[|i]]] x Hx; cbn in Hx; simplify_eq; reflexivity.
  - split; apply (bool_decide_unpack _); by vm_compute.
  - repeat (apply Forall_cons_2; [split; apply (bool_decide_unpack _); by vm_compute|]).
    apply Forall_nil_2.
  - cbn. lia.
Defined.

Lemma free_request_releases_witness :
  let r := mk_req 1 3 REQ_RUN (mk_str 2 (clit "g"))
             (Some (mk_run 5 0 false (mk_str 3 (clit "z3")) 1 4 [mk_str 5 (clit "-in")])) in
  let st := mk_core 9 {[1; 2; 3; 4; 5]}%positive (mk_queue [] 0 0 0) 1 None false false [] in
  free_request (Some r) st =
    Ok (tt, set_live 9 ({[1; 2; 3; 4; 5]}%positive ∖ list_to_set (freed_addrs r)) st).
Proof.
  set (r := mk_req _ _ _ _ _). set (st := mk_core _ _ _ _ _ _ _ _).
  apply (free_request_releases r st).
  - reflexivity.
  - apply (bool_decide_unpack _). by vm_compute.
  - apply Forall_forall. apply (bool_decide_unpack _). by vm_compute.
Defined.
