(* ===== verification/UnixOS.v ===== *)
(** * The operating system interface of the Unix server

    The system calls [server-unix.c] and [proc.c] make, as a signature indexed
    by the type of the answer.  The operating system itself is a parameter: a
    type of worlds and a function answering each call.  [UnixOSLaws] collects
    the documented behaviour the server relies on. *)

From S2P Require Import Prelude CString State.
From Stdlib Require Import Ascii.

(** [struct pollfd] *)
Record pollfd := mk_pollfd {
  pf_fd : Z;
  pf_events : Z;
  pf_revents : Z
}.

Definition POLLIN : Z := 1.
Definition POLLOUT : Z := 4.
Definition POLLERR : Z := 8.
Definition EINTR : Z := 4.
Definition ENOENT : Z := 2.
Definition EAGAIN : Z := 11.
Definition O_RDONLY : Z := 0.
Definition O_NONBLOCK : Z := 2048.
Definition SIGKILL : Z := 9.

(** What [wait3] reports for a terminated child: its pid, the wait status, and
    the user time as seconds and microseconds. *)
Record wait_report := mk_report {
  wr_pid : Z;
  wr_status : Z;
  wr_sec : Z;
  wr_usec : Z
}.

(** The status of a terminated child *)
Definition WTERMSIG (status : Z) : Z := Z.land status 127.
Definition WIFEXITED (status : Z) : bool := WTERMSIG status =? 0.
Definition WEXITSTATUS (status : Z) : Z := Z.shiftr (Z.land status 65280) 8.
(** [((signed char) ((status & 0x7f) + 1) >> 1) > 0] *)
Definition WIFSIGNALED (status : Z) : bool :=
  let c := WTERMSIG status + 1 in
  0 <? Z.shiftr (if c <? 128 then c else c - 256) 1.

(** What the forked child is about to run: the arguments of [create_process] and
    the argument vector built for [execvp]. *)
Record child_job := mk_job {
  job_cmd : cstring;
  job_argv : list cstring;
  job_unix_argv : arr (option cstring);
  job_count : Z;
  job_usestdin : bool;
  job_outfile : Z;
  job_timelimit : Z;
  job_memlimit : Z
}.

Inductive resource := RLIMIT_CPU | RLIMIT_AS | RLIMIT_CORE.

(** [list ascii + Z] is either the data or [errno]. *)
Inductive sys : Type → Type :=
  | SysAccept (fd : Z) : sys Z
  | SysClose (fd : Z) : sys Z
  | SysRead (fd n : Z) : sys (list ascii + Z)
  | SysWrite (fd : Z) (bs : list ascii) : sys (Z + Z)
  | SysPoll (fds : list pollfd) : sys (list Z + Z)
  | SysFork (job : child_job) : sys Z
  | SysWait3 : sys (option wait_report)
  | SysKill (pid sig : Z) : sys Z
  | SysMkstemp (template : list ascii) : sys (Z * list ascii)
  | SysUnlink (path : list ascii) : sys (unit + Z)
  | SysGetcwd : sys (option cbuf)
  | SysOpen (path : list ascii) (flags : Z) : sys Z
  | SysChdir (path : list ascii) : sys Z
  | SysFchdir (fd : Z) : sys Z
  | SysSocket : sys Z
  | SysBind (fd : Z) (path : list ascii) : sys Z
  | SysListen (fd backlog : Z) : sys Z
  | SysPipe : sys (option (Z * Z))
  | SysGetfl (fd : Z) : sys Z
  | SysSetfl (fd flags : Z) : sys Z
  | SysSigaction : sys Z
  | SysMalloc (n : Z) : sys bool
  | SysSetrlimit (r : resource) (cur max : Z) : sys Z
  | SysDup2 (old new : Z) : sys Z
  | SysExecvp (file : cstring) (argv : arr (option cstring)) : sys Z.

(** A call and its answer, as recorded in the trace. *)
Inductive sysrec :=
  | SysRec (A : Type) (c : sys A) (r : A).
Arguments SysRec {A} c r.

(** The operating system. [unix_path_max] is the size of [sun_path]. *)
Class UnixOS (W : Type) := {
  os : ∀ {A}, sys A → W → A * W;
  unix_path_max : Z
}.

(** ** Documented behaviour

    What the server relies on is stated about a view of the world: the children
    that were not waited for yet, the open descriptors, and those of them on
    which [listen] succeeded. *)
Record os_view := mk_view {
  v_children : gset Z;
  v_fds : gset Z;
  v_listeners : gset Z
}.

(** The calls that leave the view alone, whatever they answer. *)
Definition neutral {A} (c : sys A) : bool :=
  match c with
  | SysRead _ _ | SysWrite _ _ | SysPoll _ | SysKill _ _ | SysUnlink _ | SysGetcwd
  | SysChdir _ | SysFchdir _ | SysBind _ _ | SysGetfl _ | SysSetfl _ _ | SysSigaction
  | SysMalloc _ => true
  | _ => false
  end.

(** The answer [n] of a call that opens a descriptor: failure, or a descriptor
    that was not open. *)
Definition opens (n : Z) (v v' : os_view) : Prop :=
  (n = -1 ∧ v' = v) ∨
  (0 ≤ n ∧ (n ∉ v_fds v) ∧ v' = mk_view (v_children v) ({[n]} ∪ v_fds v) (v_listeners v)).

Class UnixOSLaws (W : Type) `{UnixOS W} := {
  view : W → os_view;
  fds_nonneg w fd : fd ∈ v_fds (view w) → 0 ≤ fd;
  os_neutral {A} (c : sys A) w r w' :
    os c w = (r, w') → neutral c = true → view w' = view w;
  (** [fork] fails, or creates a child with a pid no other child has *)
  os_fork job w p w' : os (SysFork job) w = (p, w') →
    (p = -1 ∧ view w' = view w) ∨
    (0 < p ∧ (p ∉ v_children (view w)) ∧
     view w' = mk_view ({[p]} ∪ v_children (view w)) (v_fds (view w)) (v_listeners (view w)));
  (** [wait3] reaps one child or none *)
  os_wait3 w r w' : os SysWait3 w = (r, w') →
    match r with
    | None => view w' = view w
    | Some i => wr_pid i ∈ v_children (view w) ∧
        view w' = mk_view (v_children (view w) ∖ {[wr_pid i]}) (v_fds (view w))
                    (v_listeners (view w))
    end;
  os_accept fd w n w' : os (SysAccept fd) w = (n, w') → opens n (view w) (view w');
  os_open path flags w n w' : os (SysOpen path flags) w = (n, w') → opens n (view w) (view w');
  os_socket w n w' : os SysSocket w = (n, w') → opens n (view w) (view w');
  (** [mkstemp] replaces characters of its template *)
  os_mkstemp t w n p w' : os (SysMkstemp t) w = ((n, p), w') →
    opens n (view w) (view w') ∧ length p = length t;
  os_pipe w r w' : os SysPipe w = (r, w') →
    match r with
    | None => view w' = view w
    | Some (p0, p1) => 0 ≤ p0 ∧ 0 ≤ p1 ∧ p0 ≠ p1 ∧
        (p0 ∉ v_fds (view w)) ∧ (p1 ∉ v_fds (view w)) ∧
        view w' = mk_view (v_children (view w)) ({[p0; p1]} ∪ v_fds (view w))
                    (v_listeners (view w))
    end;
  os_close fd w n w' : os (SysClose fd) w = (n, w') →
    view w' = mk_view (v_children (view w)) (v_fds (view w) ∖ {[fd]})
                (v_listeners (view w) ∖ {[fd]});
  os_listen fd b w n w' : os (SysListen fd b) w = (n, w') →
    (n = -1 ∧ view w' = view w) ∨
    (fd ∈ v_fds (view w) ∧
     view w' = mk_view (v_children (view w)) (v_fds (view w)) ({[fd]} ∪ v_listeners (view w)));
  (** [read] delivers at most the number of bytes asked for *)
  os_read fd n w r w' : os (SysRead fd n) w = (r, w') → 0 ≤ n →
    match r with inl bs => Z.of_nat (length bs) ≤ n | inr _ => True end;
  (** [write] writes at most the bytes given *)
  os_write fd bs w r w' : os (SysWrite fd bs) w = (r, w') →
    match r with inl n => 0 ≤ n ≤ Z.of_nat (length bs) | inr _ => True end;
  (** [poll] reports one value per entry, nothing for a negative descriptor, and
      POLLOUT only where it was asked for *)
  os_poll l w r w' : os (SysPoll l) w = (r, w') →
    match r with
    | inl revents =>
       length revents = length l ∧
       ∀ i e v, l !! i = Some e → revents !! i = Some v →
         (pf_fd e < 0 → v = 0) ∧
         (Z.land v POLLOUT ≠ 0 → Z.land (pf_events e) POLLOUT ≠ 0)
    | inr _ => True
    end;
  (** [getcwd] gives a string shorter than 2^20 bytes *)
  os_getcwd w r w' : os SysGetcwd w = (r, w') →
    match r with Some d => NUL ∈ d ∧ Z.of_nat (length d) ≤ 1048576 | None => True end
}.
