(* ===== verification/CpuLimitUnix.v ===== *)
(** * why3cpulimit on Unix (src/server/cpulimit-unix.c)

    The program that runs one command under a CPU time limit, a memory limit and
    a wall-clock limit: its globals, its functions and the two processes its
    [main] becomes after [fork].  The operating system is a parameter; what its
    documentation promises is [CpuOSLaws]. *)

From S2P Require Import Prelude CString State UnixOS.
From Stdlib Require Import Ascii SpecFloat.

(** ** The operating system *)

(** The answer of [waitpid(pid, &status, 0)]: a terminated child and its status,
    or -1; [alarmed] tells that it was interrupted by SIGALRM. *)
Inductive wait_answer :=
  | WaitOk (p status : Z)
  | WaitFail (alarmed : bool).

Inductive csys : Type → Type :=
  | CFork : csys Z
  | CSigaction (sig : Z) : csys Z
  | CAlarm (seconds : Z) : csys Z
  | CWaitpid (pid : Z) : csys wait_answer
  | CKill (pid sig : Z) : csys Z
  | CRaise (sig : Z) : csys bool      (** [kill(getpid(), sig)]: is it fatal? *)
  | CTimes : csys (Z * Z)             (** [tms_cutime] and [tms_cstime] *)
  | CClkTck : csys Z                  (** [sysconf(_SC_CLK_TCK)] *)
  | CGetrlimit (r : resource) : csys (option (Z * Z))
  | CSetrlimit (r : resource) (cur max : Z) : csys Z
  | CExecvp (file : cbuf) (argv : list cbuf) : csys (option Z)  (** [errno] *)
  | CStderr (txt : list ascii) : csys unit
  | CPerror (msg : string) : csys unit.

Inductive csysrec :=
  | CRec (A : Type) (c : csys A) (r : A).
Arguments CRec {A} c r.

Class CpuOS (W : Type) := {
  cos : ∀ {A}, csys A → W → A * W;
  strerror : Z → list ascii
}.

Definition SIGALRM : Z := 14.
Definition SIGTERM : Z := 15.

(** The result of an operation on [long], 64 bits wide. *)
Definition long_of (z : Z) : outcome Z :=
  if (LONG_MIN <=? z) && (z <=? LONG_MAX) then Ok z else Err SignedOverflow.

(** ** The program *)

(** The globals of cpulimit-unix.c and the world outside. *)
Record cstate (W : Type) := mk_cs {
  cs_wallclock_timelimit : Z;
  cs_showtime : bool;
  cs_hidetime : bool;
  cs_world : W;
  cs_trace : list csysrec
}.
Arguments mk_cs {W} _ _ _ _ _.
Arguments cs_wallclock_timelimit {W} _.
Arguments cs_showtime {W} _.
Arguments cs_hidetime {W} _.
Arguments cs_world {W} _.
Arguments cs_trace {W} _.

Section cpulimit.
Context {W : Type} `{CpuOS W}.

Abbreviation C := (M (cstate W)).

Definition ccall {A} (c : csys A) : C A := λ s,
  let '(a, w) := cos c (cs_world s) in
  Ok (a, mk_cs (cs_wallclock_timelimit s) (cs_showtime s) (cs_hidetime s) w
           (cs_trace s ++ [CRec c a])).
Definition set_wallclock (z : Z) : C unit :=
  modify (λ s, mk_cs z (cs_showtime s) (cs_hidetime s) (cs_world s) (cs_trace s)).
Definition set_show_hide (a b : bool) : C unit :=
  modify (λ s, mk_cs (cs_wallclock_timelimit s) a b (cs_world s) (cs_trace s)).
Definition fprintf_stderr (txt : list ascii) : C unit := ccall (CStderr txt).

(** [time = (double) ((cutime + cstime + 0.0) / sysconf(_SC_CLK_TCK))] *)
Definition child_time (sum tck : Z) : double :=
  double_div (double_add (double_of_Z sum) (double_of_Z 0)) (double_of_Z tck).

Definition show_time : C unit :=
  showtime ← gets cs_showtime;
  if (showtime : bool) then
    '(cutime, cstime) ← ccall CTimes;
    sum ← lift (long_of (cutime + cstime));
    tck ← ccall CClkTck;
    fprintf_stderr (String.list_ascii_of_string "why3cpulimit time : "
      ++ fmt_f (child_time sum tck) ++ String.list_ascii_of_string " s" ++ [LF])
  else mret tt.

(** The handler of SIGALRM *)
Definition wallclock_timelimit_reached : C unit :=
  t ← gets cs_wallclock_timelimit;
  fprintf_stderr (String.list_ascii_of_string "Why3cpulimit: wallclock timelimit "
    ++ fmt_d t ++ String.list_ascii_of_string " reached, killing command" ++ [LF]).

(** [argv[i]]: the strings of the command line, then a null pointer. *)
Definition argv_at (argv : list cbuf) (i : nat) : outcome cbuf :=
  match argv !! i with
  | Some x => Ok x
  | None => if decide (i = length argv) then Err NullDeref else Err OutOfBounds
  end.

Definition usage {A} (argv : list cbuf) : C A :=
  argv0 ← lift (argv_at argv 0);
  _ ← fprintf_stderr (String.list_ascii_of_string "usage: " ++ cstr argv0
        ++ String.list_ascii_of_string " <time limit in seconds> <virtual memory limit in MiB>"
        ++ [LF] ++ String.list_ascii_of_string
             "          <show/hide cpu time: -s|-h> <command> <args>..." ++ [LF; LF]
        ++ String.list_ascii_of_string "Zero sets no limit (keeps the actual limit)" ++ [LF]);
  raise (Exited 1 "usage").

(** [kill(getpid(), sig)] comes back only if the signal does not terminate the
    process; a handled SIGALRM runs its handler. *)
Definition kill_self (sig : Z) : C unit :=
  fatal ← ccall (CRaise sig);
  if (fatal : bool) then raise (Killed sig)
  else if sig =? SIGALRM then wallclock_timelimit_reached else mret tt.

(** [waitpid], the handler running when it is interrupted by the alarm; the
    result is [p] and the value of [status], [None] if it was not written. *)
Definition waitpid (pid : Z) (status : option Z) : C (Z * option Z) :=
  r ← ccall (CWaitpid pid);
  match r with
  | WaitOk p st => mret (p, Some st)
  | WaitFail alarmed =>
     _ ← (if (alarmed : bool) then wallclock_timelimit_reached else mret tt);
     mret (-1, status)
  end.

(** The conversion to [int], and to the [unsigned int] that [alarm] takes *)
Definition set_alarm (timelimit : Z) : C unit :=
  _ ← ccall (CSigaction SIGALRM);
  two ← lift (long_of (2 * timelimit));
  t ← lift (long_of (two + 60));
  _ ← set_wallclock (cast_int t);
  _ ← ccall (CAlarm (uint (cast_int t)));
  mret tt.

(** The parent: [Some code] when it returns from [main], [None] when control
    falls through to the code that the child executes. *)
Definition parent (pid timelimit : Z) : C (option Z) :=
  _ ← (if negb (timelimit =? 0) then set_alarm timelimit else mret tt);
  '(p, status) ← waitpid pid None;
  status ← (if p <=? 0 then
              _ ← ccall (CKill pid SIGKILL);
              '(p, status) ← waitpid pid status;
              _ ← (if p <=? 0 then
                     _ ← ccall (CPerror "why3cpulimit waitpid");
                     kill_self SIGTERM
                   else mret tt);
              mret status
            else mret status);
  _ ← show_time;
  match status with
  | None => raise Indeterminate
  | Some status =>
     if WIFEXITED status then mret (Some (WEXITSTATUS status))
     else
       _ ← (if WIFSIGNALED status then kill_self (WTERMSIG status) else mret tt);
       _ ← fprintf_stderr (String.list_ascii_of_string
             "why3cpulimit: child exited neither normally nor because of a signal" ++ [LF]);
       _ ← kill_self SIGTERM;
       mret None
  end.

(** [getrlimit(r, &res); res.rlim_cur = cur; setrlimit(r, &res)]: the hard limit
    is the one read, or the one left in [res] when [getrlimit] fails. *)
Definition set_soft_limit (r : resource) (cur : Z) (res : option (Z * Z)) : C (option (Z * Z)) :=
  got ← ccall (CGetrlimit r);
  match (match got with Some _ => got | None => res end) with
  | Some (_, max) => _ ← ccall (CSetrlimit r cur max); mret (Some (cur, max))
  | None => raise Indeterminate
  end.

(** The limits of the command *)
Definition child_limits (timelimit memlimit : Z) : C unit :=
  res ← (if 0 <? timelimit then set_soft_limit RLIMIT_CPU timelimit None else mret None);
  res ← (if 0 <? memlimit then
           k ← lift (long_of (memlimit * 1024));
           b ← lift (long_of (k * 1024));
           set_soft_limit RLIMIT_AS b res
         else mret res);
  _ ← (if (0 <? timelimit) || (0 <? memlimit) then set_soft_limit RLIMIT_CORE 0 res
       else mret res);
  mret tt.

Definition child (argv : list cbuf) (timelimit memlimit : Z) : C Z :=
  _ ← child_limits timelimit memlimit;
  cmd ← lift (argv_at argv 4);
  r ← ccall (CExecvp cmd (drop 4 argv));
  match r with
  | None => raise ExecReplaced
  | Some errno =>
     argv0 ← lift (argv_at argv 0);
     _ ← fprintf_stderr (cstr argv0 ++ String.list_ascii_of_string ": exec of '" ++ cstr cmd
           ++ String.list_ascii_of_string "' failed (" ++ strerror errno ++ [")"%char; LF]);
     mret 1
  end.

(** [main] after the command line was read *)
Definition run (argv : list cbuf) (showtime : bool) (timelimit memlimit : Z) : C Z :=
  if showtime || negb (timelimit =? 0) then
    pid ← ccall CFork;
    _ ← (if pid =? -1 then
           _ ← ccall (CPerror "fork");
           raise (Exited 1 "fork")
         else mret tt);
    r ← (if 0 <? pid then parent pid timelimit else mret None);
    match r with
    | Some code => mret code
    | None => child argv timelimit memlimit
    end
  else child argv timelimit memlimit.

Definition cpulimit_main (argv : list cbuf) : C Z :=
  _ ← (if Z.of_nat (length argv) <? 5 then usage argv else mret tt);
  flag ← lift (argv_at argv 3);
  s ← lift (strcmp (clit "-s") flag);
  h ← lift (strcmp (clit "-h") flag);
  let showtime := s =? 0 in
  let hidetime := h =? 0 in
  _ ← set_show_hide showtime hidetime;
  _ ← (if negb (showtime || hidetime) then usage argv else mret tt);
  a ← lift (argv_at argv 1);
  timelimit ← lift (atol a);
  _ ← (if timelimit <? 0 then usage argv else mret tt);
  b ← lift (argv_at argv 2);
  memlimit ← lift (atol b);
  _ ← (if memlimit <? 0 then usage argv else mret tt);
  run argv showtime timelimit memlimit.
End cpulimit.

(** ** Documented behaviour

    The parent's view: the child it has not waited for, whether an alarm is
    pending and whether SIGALRM has a handler. *)
Record cview := mk_cview {
  cv_child : option Z;
  cv_alarm : bool;
  cv_handler : bool
}.

(** A terminated process exited or was killed by a signal. *)
Definition status_ok (st : Z) : bool := WIFEXITED st || WIFSIGNALED st.

Definition cneutral {A} (c : csys A) : bool :=
  match c with CFork | CSigaction _ | CAlarm _ | CWaitpid _ | CExecvp _ _ => false | _ => true end.

Class CpuOSLaws (W : Type) `{CpuOS W} := {
  cview_of : W → cview;
  cos_neutral {A} (c : csys A) w r w' :
    cos c w = (r, w') → cneutral c = true → cview_of w' = cview_of w;
  cos_fork w p w' : cos CFork w = (p, w') → 0 < p →
    cview_of w' = mk_cview (Some p) (cv_alarm (cview_of w)) (cv_handler (cview_of w));
  cos_sigaction sig w r w' : cos (CSigaction sig) w = (r, w') → sig = SIGALRM →
    cview_of w' = mk_cview (cv_child (cview_of w)) (cv_alarm (cview_of w)) true;
  (** [alarm(0)] cancels the alarm *)
  cos_alarm n w r w' : cos (CAlarm n) w = (r, w') →
    cview_of w' = mk_cview (cv_child (cview_of w)) (negb (n =? 0)) (cv_handler (cview_of w));
  (** [waitpid] reports the end of the child, or the alarm goes off, once *)
  cos_waitpid p w r w' : cos (CWaitpid p) w = (r, w') → cv_child (cview_of w) = Some p →
    (∃ st, r = WaitOk p st ∧ status_ok st = true) ∨
    (r = WaitFail true ∧ cv_alarm (cview_of w) = true ∧
     cview_of w' = mk_cview (Some p) false (cv_handler (cview_of w)));
  (** the default action of SIGTERM *)
  cos_sigterm w r w' : cos (CRaise SIGTERM) w = (r, w') → r = true;
  (** the times of the children fit in [clock_t] *)
  cos_times w a b w' : cos CTimes w = ((a, b), w') → LONG_MIN ≤ a + b ≤ LONG_MAX
}.

(** What the trace says of the watching of the command: alarms, waits and their
    answers, signals sent, limits and commands executed. *)
Inductive watch_step :=
  | SAlarm (seconds : Z)
  | SWait (a : wait_answer)
  | SKill (pid sig : Z)
  | SLimit (r : resource) (cur max : Z)
  | SExec (file : cbuf) (argv : list cbuf).

Definition step_of (r : csysrec) : list watch_step :=
  match r with
  | CRec c x =>
     match c in csys A return A → list watch_step with
     | CAlarm n => λ _, [SAlarm n]
     | CWaitpid _ => λ a, [SWait a]
     | CKill pid sig => λ _, [SKill pid sig]
     | CSetrlimit r cur max => λ _, [SLimit r cur max]
     | CExecvp f a => λ _, [SExec f a]
     | _ => λ _, []
     end x
  end.
Definition steps (t : list csysrec) : list watch_step := t ≫= step_of.

(** ** Lemmas *)

Section cpulimit_lemmas.
Context {W : Type} `{CpuOS W}.
Implicit Types s : cstate W.

Definition after_call {A} (c : csys A) (r : A) (w : W) s : cstate W :=
  mk_cs (cs_wallclock_timelimit s) (cs_showtime s) (cs_hidetime s) w (cs_trace s ++ [CRec c r]).

Lemma wp_ccall {A} (c : csys A) Q E s :
  (∀ r w', cos c (cs_world s) = (r, w') → Q r (after_call c r w' s)) → wp (ccall c) Q E s.
Proof.
  unfold wp, ccall, after_call. destruct (cos c (cs_world s)) as [r w'] eqn:Hc. intros HQ.
  by apply HQ.
Qed.

Lemma long_of_ok z : LONG_MIN ≤ z ≤ LONG_MAX → long_of z = Ok z.
Proof. unfold long_of. intros. by rewrite !(proj2 (Z.leb_le _ _)) by lia. Qed.

Lemma uint_cast_int z : uint (cast_int z) = uint z.
Proof.
  unfold uint, cast_int, UINT_MOD. rewrite Zminus_mod, Zmod_mod, <- Zminus_mod.
  f_equal. lia.
Qed.

Lemma steps_snoc {A} t (c : csys A) r : steps (t ++ [CRec c r]) = steps t ++ step_of (CRec c r).
Proof. unfold steps. rewrite bind_app. cbn. by rewrite app_nil_r. Qed.

(** A command line the program accepts *)
Definition parsed (argv : list cbuf) (showtime : bool) (timelimit memlimit : Z) : Prop :=
  ∃ a0 a1 a2 a3 a4 rest, argv = a0 :: a1 :: a2 :: a3 :: a4 :: rest ∧
    cstr a3 = String.list_ascii_of_string (if showtime then "-s" else "-h") ∧
    atol a1 = Ok timelimit ∧ atol a2 = Ok memlimit ∧ 0 ≤ timelimit ∧ 0 ≤ memlimit.

Lemma usage_exits {A} argv Q s :
  argv ≠ [] → wp (usage (A:=A) argv) Q (λ e, e = Exited 1 "usage") s.
Proof.
  destruct argv as [|a0 argv]; [done|]. intros _. unfold usage. apply wp_bind.
  eapply wp_lift_ok; [done|]. apply wp_bind, wp_ccall. intros r w' _. by apply wp_raise.
Qed.

(** The command line is either refused, or read and the program runs. *)
Lemma wp_main argv Q (E : cerror → Prop) s :
  argv ≠ [] → Forall (λ a, NUL ∈ a) argv → E (Exited 1 "usage") →
  (∀ showtime t m, parsed argv showtime t m →
     wp (run argv showtime t m) Q E
       (mk_cs (cs_wallclock_timelimit s) showtime (negb showtime) (cs_world s) (cs_trace s))) →
  wp (cpulimit_main argv) Q E s.
Proof.
  intros Hne Hall HE Hrun.
  assert (∀ A (Q : A → cstate W → Prop) s, wp (usage argv) Q E s) as Hu.
  { intros A Q' s'. eapply wp_mono; [by apply usage_exits|done|]. by intros e ->. }
  unfold cpulimit_main. apply wp_bind. zbool; [apply Hu|].
  destruct argv as [|a0 [|a1 [|a2 [|a3 [|a4 rest]]]]]; cbn [length] in *; try lia.
  rewrite !Forall_cons in Hall. destruct Hall as (_ & H1 & H2 & H3 & _).
  apply wp_ret, wp_bind. eapply wp_lift_ok; [done|].
  destruct (strcmp_eq (clit "-s") a3) as (v & Hv & Hvs); [set_solver|done|].
  destruct (strcmp_eq (clit "-h") a3) as (h & Hh & Hhs); [set_solver|done|].
  apply wp_bind. eapply wp_lift_ok; [done|]. apply wp_bind. eapply wp_lift_ok; [done|].
  apply wp_bind, wp_modify.
  destruct (atol_ok a1 H1) as (t & Ht & _), (atol_ok a2 H2) as (m & Hm & _).
  apply wp_bind. destruct (negb _) eqn:Hflag; [apply Hu|].
  apply wp_ret, wp_bind. eapply wp_lift_ok; [done|].
  apply wp_bind. eapply wp_lift_ok; [done|]. apply wp_bind. destruct (Z.ltb_spec t 0); [apply Hu|].
  apply wp_ret, wp_bind. eapply wp_lift_ok; [done|].
  apply wp_bind. eapply wp_lift_ok; [done|]. apply wp_bind. destruct (Z.ltb_spec m 0); [apply Hu|].
  apply wp_ret. apply negb_false_iff, orb_true_iff in Hflag. rewrite !Z.eqb_eq in Hflag.
  assert ((h =? 0) = negb (v =? 0)) as ->.
  { destruct (Z.eqb_spec v 0) as [Hv0|Hv0], (Z.eqb_spec h 0) as [Hh0|Hh0]; cbn; try tauto.
    apply Hvs in Hv0. apply Hhs in Hh0.
    rewrite <- Hv0 in Hh0. discriminate Hh0. }
  apply Hrun. exists a0, a1, a2, a3, a4, rest. split_and!; try done.
  destruct (Z.eqb_spec v 0) as [Hv0|Hv0].
  - apply Hvs in Hv0. by rewrite <- Hv0.
  - assert (cstr (clit "-h") = cstr a3) as <- by tauto. done.
Qed.

(** An accepted command line *)
Lemma wp_parsed argv showtime t m Q E s :
  Forall (λ a, NUL ∈ a) argv → parsed argv showtime t m →
  wp (run argv showtime t m) Q E
    (mk_cs (cs_wallclock_timelimit s) showtime (negb showtime) (cs_world s) (cs_trace s)) →
  wp (cpulimit_main argv) Q E s.
Proof.
  intros Hall (a0 & a1 & a2 & a3 & a4 & rest & -> & Hf & Ht & Hm & Ht0 & Hm0) Hrun.
  rewrite !Forall_cons in Hall. destruct Hall as (_ & _ & _ & H3 & _).
  destruct (strcmp_eq (clit "-s") a3) as (v & Hv & Hvs); [set_solver|done|].
  destruct (strcmp_eq (clit "-h") a3) as (h & Hh & Hhs); [set_solver|done|].
  assert ((v =? 0) = showtime ∧ (h =? 0) = negb showtime) as [Hv0 Hh0].
  { rewrite Hf in Hvs, Hhs. destruct showtime; cbn in Hvs, Hhs |- *;
      rewrite ?Z.eqb_eq, ?Z.eqb_neq; rewrite ?Hvs, ?Hhs; done. }
  unfold cpulimit_main. apply wp_bind. rewrite (proj2 (Z.ltb_ge _ _)) by (cbn [length]; lia).
  apply wp_ret, wp_bind. eapply wp_lift_ok; [done|].
  apply wp_bind. eapply wp_lift_ok; [done|]. apply wp_bind. eapply wp_lift_ok; [done|].
  rewrite Hv0, Hh0. apply wp_bind, wp_modify. apply wp_bind.
  rewrite orb_negb_r. apply wp_ret. apply wp_bind. eapply wp_lift_ok; [done|].
  apply wp_bind. eapply wp_lift_ok; [done|]. rewrite (proj2 (Z.ltb_ge t 0)) by lia.
  apply wp_bind, wp_ret. apply wp_bind. eapply wp_lift_ok; [done|].
  apply wp_bind. eapply wp_lift_ok; [done|]. rewrite (proj2 (Z.ltb_ge m 0)) by lia.
  by apply wp_bind, wp_ret.
Qed.
End cpulimit_lemmas.

Section cpulimit_parent.
Context {W : Type} `{CpuOSLaws W}.
Implicit Types s : cstate W.

(** The steps so far are [tr], and the view of the world is [v]. *)
Definition at_view (v : cview) (tr : list watch_step) (s : cstate W) : Prop :=
  cview_of (cs_world s) = v ∧ steps (cs_trace s) = tr.

Lemma wp_call_neutral {A} (c : csys A) v tr s (Q : A → cstate W → Prop) E :
  at_view v tr s → cneutral c = true →
  (∀ r w' s', cos c (cs_world s) = (r, w') → at_view v (tr ++ step_of (CRec c r)) s' → Q r s') →
  wp (ccall c) Q E s.
Proof.
  intros (Hv & Ht) Hn HQ. apply wp_ccall. intros r w' Hc. eapply HQ; [done|].
  unfold at_view, after_call. cbn [cs_world cs_trace]. rewrite steps_snoc, Ht.
  split; [by rewrite (cos_neutral _ _ _ _ Hc Hn)|done].
Qed.

(** A call that is no step *)
Lemma wp_quiet {A} (c : csys A) v tr s (Q : A → cstate W → Prop) E :
  at_view v tr s → cneutral c = true → (∀ r, step_of (CRec c r) = []) →
  (∀ r w' s', cos c (cs_world s) = (r, w') → at_view v tr s' → Q r s') → wp (ccall c) Q E s.
Proof.
  intros Hs Hn Hr HQ. eapply wp_call_neutral; [done..|]. intros r w' s' Hc. rewrite Hr, app_nil_r.
  by eapply HQ.
Qed.

Lemma wp_handler v tr s Q E :
  at_view v tr s → (∀ s', at_view v tr s' → Q tt s') → wp wallclock_timelimit_reached Q E s.
Proof.
  intros Hs HQ. unfold wallclock_timelimit_reached. apply wp_bind, wp_gets.
  eapply wp_quiet; [done..|]. intros [] w' s' _ Hs'. by apply HQ.
Qed.

Lemma wp_show_time v tr s Q E :
  at_view v tr s → (∀ s', at_view v tr s' → Q tt s') → wp show_time Q E s.
Proof.
  intros Hs HQ. unfold show_time. apply wp_bind, wp_gets. destruct (cs_showtime s); [|by apply HQ].
  apply wp_bind. eapply wp_quiet; [done..|]. intros [a b] w1 s1 Ht Hs1.
  apply wp_bind. eapply wp_lift_ok; [apply long_of_ok; by eapply cos_times|].
  apply wp_bind. eapply wp_quiet; [done..|]. intros k w2 s2 _ Hs2.
  eapply wp_quiet; [done..|]. intros [] w3 s3 _ Hs3. by apply HQ.
Qed.

(** The process survives the signal [sig]. *)
Definition harmless (sig : Z) : Prop := ∃ w w', cos (CRaise sig) w = (false, w').

(** Raising a signal: the process dies of it, or goes on. *)
Lemma wp_kill_self v tr s sig Q (E : cerror → Prop) :
  at_view v tr s → E (Killed sig) →
  (sig ≠ SIGTERM → harmless sig → ∀ s', at_view v tr s' → Q tt s') → wp (kill_self sig) Q E s.
Proof.
  intros Hs HE HQ. unfold kill_self. apply wp_bind. eapply wp_quiet; [done..|].
  intros fatal w1 s1 Hc Hs1. destruct fatal; [by apply wp_raise|].
  assert (sig ≠ SIGTERM) as Hne by (intros ->; by apply cos_sigterm in Hc).
  assert (harmless sig) as Hh by (by exists (cs_world s), w1).
  zbool; [|by apply HQ]. eapply wp_handler; [done|]. by apply HQ.
Qed.

(** [waitpid] on the child: its status, or the alarm, which is then spent. *)
Lemma wp_waitpid p alarm h tr s st0 Q E :
  at_view (mk_cview (Some p) alarm h) tr s →
  (∀ st v w w' s', cos (CWaitpid p) w = (WaitOk p st, w') → status_ok st = true →
     at_view v (tr ++ [SWait (WaitOk p st)]) s' → Q (p, Some st) s') →
  (alarm = true → ∀ s', at_view (mk_cview (Some p) false h) (tr ++ [SWait (WaitFail true)]) s' →
     Q (-1, st0) s') →
  wp (waitpid p st0) Q E s.
Proof.
  intros (Hv & Ht) Hok Hfail. unfold waitpid. apply wp_bind, wp_ccall. intros r w' Hc.
  assert (steps (cs_trace s ++ [CRec (CWaitpid p) r]) = tr ++ [SWait r]) as Ht'
    by (by rewrite steps_snoc, Ht).
  destruct (cos_waitpid _ _ _ _ Hc) as [(st & -> & Hst)|(-> & Hal & Hv')]; [by rewrite Hv|..].
  - by apply wp_ret, (Hok st (cview_of w') _ _ _ Hc Hst).
  - rewrite Hv in *. apply wp_bind. eapply wp_handler; [split; [exact Hv'|exact Ht']|].
    intros s' Hs'. apply wp_ret. by apply Hfail.
Qed.

(** The alarm set for the limit [t] *)
Definition alarm_steps (t : Z) : list watch_step :=
  if t =? 0 then [] else [SAlarm (uint (2 * t + 60))].

Lemma wp_set_alarm p t tr s (Q : unit → cstate W → Prop) E :
  0 ≤ t → 2 * t + 60 ≤ LONG_MAX → at_view (mk_cview (Some p) false false) tr s →
  (∀ a h s', at_view (mk_cview (Some p) a h) (tr ++ alarm_steps t) s' → Q tt s') →
  wp (if negb (t =? 0) then set_alarm t else mret tt) Q E s.
Proof.
  intros Ht Hmax (Hv & Htr) HQ. unfold alarm_steps in HQ. destruct (Z.eqb_spec t 0); cbn [negb].
  { eapply HQ. by rewrite app_nil_r. }
  unfold LONG_MIN, LONG_MAX in *. unfold set_alarm. apply wp_bind, wp_ccall. intros r1 w1 Hc1.
  apply wp_bind. eapply wp_lift_ok; [apply long_of_ok; unfold LONG_MIN, LONG_MAX; lia|].
  apply wp_bind. eapply wp_lift_ok; [apply long_of_ok; unfold LONG_MIN, LONG_MAX; lia|].
  apply wp_bind, wp_modify. apply wp_bind, wp_ccall. intros r2 w2 Hc2. apply wp_ret.
  eapply HQ. split; cbn [cs_trace cs_world after_call].
  - rewrite (cos_alarm _ _ _ _ Hc2). cbn. by rewrite (cos_sigaction _ _ _ _ Hc1 eq_refl), Hv.
  - rewrite !steps_snoc, Htr. cbn. by rewrite app_nil_r, uint_cast_int.
Qed.

(** How the child was collected: at once, or killed when the alarm went off *)
Definition collected (p st : Z) (tr : list watch_step) : Prop :=
  tr = [SWait (WaitOk p st)] ∨
  tr = [SWait (WaitFail true); SKill p SIGKILL; SWait (WaitOk p st)].

(** What the parent does with the status of the child. *)
Lemma wp_parent p t st s (Q : option Z → cstate W → Prop) (E : cerror → Prop) :
  0 < p → 0 ≤ t → 2 * t + 60 ≤ LONG_MAX →
  cview_of (cs_world s) = mk_cview (Some p) false false →
  (∀ w w' r, cos (CWaitpid p) w = (WaitOk p r, w') → r = st) →
  (WIFEXITED st = true → ∀ s' tr, collected p st tr →
     steps (cs_trace s') = steps (cs_trace s) ++ alarm_steps t ++ tr →
     Q (Some (WEXITSTATUS st)) s') →
  (WIFEXITED st = false →
     E (Killed (WTERMSIG st)) ∧ (harmless (WTERMSIG st) → E (Killed SIGTERM))) →
  wp (parent p t) Q E s.
Proof.
  intros Hp Ht Hmax Hv Hst HQ HE. unfold parent. apply wp_bind.
  eapply wp_set_alarm; [done..|]. intros a h s1 Hs1. set (tr0 := steps _ ++ _) in *.
  assert (∀ s2 v tr, at_view v (tr0 ++ tr) s2 → collected p st tr → status_ok st = true →
    wp (_ ← show_time;
        if WIFEXITED st then mret (Some (WEXITSTATUS st))
        else
          _ ← (if WIFSIGNALED st then kill_self (WTERMSIG st) else mret tt);
          _ ← fprintf_stderr (String.list_ascii_of_string
                "why3cpulimit: child exited neither normally nor because of a signal" ++ [LF]);
          _ ← kill_self SIGTERM;
          mret None) Q E s2) as Hend.
  { intros s2 v tr Hs2 Hcol Hok. apply wp_bind. eapply wp_show_time; [done|]. intros s3 Hs3.
    unfold status_ok in Hok. destruct (WIFEXITED st); cbn in Hok.
    { apply wp_ret, (HQ eq_refl s3 tr); [done|]. destruct Hs3 as [_ ->]. unfold tr0.
      by rewrite <- app_assoc. }
    rewrite Hok. destruct (HE eq_refl) as [HE1 HE2].
    apply wp_bind. eapply (wp_kill_self v (tr0 ++ tr)); [done..|]. intros _ Hh s4 Hs4.
    apply wp_bind. eapply wp_quiet; [done..|]. intros [] w5 s5 _ Hs5.
    apply wp_bind. eapply wp_kill_self; [done|by apply HE2|done]. }
  apply wp_bind. eapply (wp_waitpid p a h tr0); [done| |].
  - intros r v w w' s2 Hw Hok Hs2. rewrite (Hst _ _ _ Hw) in *.
    apply wp_bind. rewrite (proj2 (Z.leb_gt p 0)) by lia. apply wp_ret.
    eapply (Hend s2 v); [done|by left|done].
  - intros _ s2 Hs2. apply wp_bind, wp_bind. eapply wp_call_neutral; [done..|]. intros k w3 s3 _ Hs3.
    apply wp_bind. eapply wp_waitpid; [done| |done].
    intros r v w w' s4 Hw Hok Hs4. rewrite (Hst _ _ _ Hw) in *.
    rewrite (proj2 (Z.leb_gt p 0)) by lia. apply wp_ret. rewrite <- !app_assoc in Hs4.
    eapply (Hend s4 v); [exact Hs4|by right|done].
Qed.
End cpulimit_parent.

Section cpulimit_theorems.
Context {W : Type} `{CpuOSLaws W}.
Implicit Types s : cstate W.

(** C36: the process that is left to watch the command, when a CPU limit or a time
    report was asked for: it sets one alarm, at twice the CPU limit plus a minute
    (none without a limit), and waits for the command; if the alarm interrupts the
    wait, it kills the command and waits again; it sets no limits for itself and
    never executes the command; and it ends as the command did: with its exit
    code, or killed by the signal that killed the command.  Only where that signal
    does not terminate the watching process, it is killed by SIGTERM instead. *)
Theorem cpulimit_parent_forwards argv showtime t m p w1 st s :
  Forall (λ a, NUL ∈ a) argv → parsed argv showtime t m →
  showtime = true ∨ t ≠ 0 → t ≤ 1073741793 →
  cview_of (cs_world s) = mk_cview None false false →
  cos CFork (cs_world s) = (p, w1) → 0 < p →
  (∀ w w' r, cos (CWaitpid p) w = (WaitOk p r, w') → r = st) →
  wp (cpulimit_main argv)
    (λ code s', WIFEXITED st = true ∧ code = WEXITSTATUS st ∧
       ∃ tr, steps (cs_trace s') =
           steps (cs_trace s) ++ (if t =? 0 then [] else [SAlarm (2 * t + 60)]) ++ tr ∧
         (tr = [SWait (WaitOk p st)] ∨
          tr = [SWait (WaitFail true); SKill p SIGKILL; SWait (WaitOk p st)]))
    (λ e, WIFEXITED st = false ∧
       (e = Killed (WTERMSIG st) ∨ (e = Killed SIGTERM ∧ harmless (WTERMSIG st)))) s.
Proof.
  intros Hall Hpar Hwatch Ht Hv Hfork Hp Hst.
  apply (wp_parsed argv showtime t m); [done..|].
  destruct Hpar as (_ & _ & _ & _ & _ & _ & _ & _ & _ & _ & Ht0 & _).
  unfold run. assert (showtime || negb (t =? 0) = true) as ->.
  { destruct showtime; [done|]. cbn. apply negb_true_iff, Z.eqb_neq. naive_solver. }
  apply wp_bind, wp_ccall. cbn [cs_world]. rewrite Hfork. intros ? ? [= <- <-].
  rewrite (proj2 (Z.eqb_neq p (-1))), (proj2 (Z.ltb_lt 0 p)) by lia.
  apply wp_bind, wp_ret. apply wp_bind.
  eapply (wp_parent p t st); unfold LONG_MAX; [lia..| |done| |tauto].
  { cbn. by rewrite (cos_fork _ _ _ Hfork Hp), Hv. }
  cbn [after_call cs_trace]. rewrite steps_snoc. cbn. rewrite app_nil_r.
  intros Hex s' tr Hcol Htr. split_and!; try done. exists tr. split; [|done].
  rewrite Htr. unfold alarm_steps. zbool; [done|].
  by rewrite uint_small by (unfold UINT_MOD; lia).
Qed.

(** A command line that is too short, has an unknown flag or a negative limit
    is refused before anything is started. *)
Theorem cpulimit_refuses argv s :
  argv ≠ [] → Forall (λ a, NUL ∈ a) argv → (∀ showtime t m, ¬ parsed argv showtime t m) →
  cpulimit_main argv s = Err (Exited 1 "usage").
Proof.
  intros Hne Hall Hno. apply wp_Err_inv. apply wp_main; [done..|].
  intros showtime t m Hp. by apply Hno in Hp.
Qed.

(** ** The command *)

(** The soft limits the options ask for *)
Definition wanted_limits (hard : resource → Z) (t m : Z) : list (resource * Z * Z) :=
  (if 0 <? t then [(RLIMIT_CPU, t, hard RLIMIT_CPU)] else [])
  ++ (if 0 <? m then [(RLIMIT_AS, m * 1048576, hard RLIMIT_AS)] else [])
  ++ (if (0 <? t) || (0 <? m) then [(RLIMIT_CORE, 0, hard RLIMIT_CORE)] else []).

(** The calls that set limits one after the other: the record of the calls and the
    world they lead to *)
Fixpoint limit_calls (ls : list (resource * Z * Z)) (w : W) : list csysrec * W :=
  match ls with
  | [] => ([], w)
  | (r, cur, max) :: ls =>
     let '(got, w1) := cos (CGetrlimit r) w in
     let '(res, w2) := cos (CSetrlimit r cur max) w1 in
     let '(t, w3) := limit_calls ls w2 in
     (CRec (CGetrlimit r) got :: CRec (CSetrlimit r cur max) res :: t, w3)
  end.

Definition after_calls (tw : list csysrec * W) s : cstate W :=
  mk_cs (cs_wallclock_timelimit s) (cs_showtime s) (cs_hidetime s) tw.2 (cs_trace s ++ tw.1).

Definition limited (ls : list (resource * Z * Z)) s : cstate W :=
  after_calls (limit_calls ls (cs_world s)) s.

Lemma limited_nil s : limited [] s = s.
Proof. unfold limited, after_calls. destruct s. cbn. by rewrite app_nil_r. Qed.

Lemma limited_app ls ls' s : limited (ls ++ ls') s = limited ls' (limited ls s).
Proof.
  unfold limited, after_calls. cbn.
  assert (∀ w, limit_calls (ls ++ ls') w =
    ((limit_calls ls w).1 ++ (limit_calls ls' (limit_calls ls w).2).1,
     (limit_calls ls' (limit_calls ls w).2).2)) as ->; [|by rewrite <- app_assoc].
  induction ls as [|[[r cur] max] ls IH]; intros w; cbn; [by destruct (limit_calls ls' w)|].
  destruct (cos (CGetrlimit r) w) as [got w1], (cos (CSetrlimit r cur max) w1) as [res w2].
  rewrite IH. by destruct (limit_calls ls w2).
Qed.

Lemma wp_set_soft_limit (hard : resource → Z) r cur res s Q E :
  (∀ w, ∃ soft, (cos (CGetrlimit r) w).1 = Some (soft, hard r)) →
  (∀ res', Q res' (limited [(r, cur, hard r)] s)) →
  wp (set_soft_limit r cur res) Q E s.
Proof.
  intros Hget HQ. unfold set_soft_limit. apply wp_bind, wp_ccall. intros got w1 Hc1.
  destruct (Hget (cs_world s)) as [soft Hs]. rewrite Hc1 in Hs. cbn in Hs. subst got.
  apply wp_bind, wp_ccall. intros r2 w2 Hc2. cbn [cs_world after_call] in Hc2. apply wp_ret.
  specialize (HQ (Some (cur, hard r))). unfold limited, after_calls in HQ. cbn in HQ.
  rewrite Hc1, Hc2 in HQ. unfold after_call. cbn. by rewrite <- app_assoc.
Qed.

Lemma wp_child_limits (hard : resource → Z) t m s (Q : unit → cstate W → Prop) E :
  (∀ r w, ∃ soft, (cos (CGetrlimit r) w).1 = Some (soft, hard r)) →
  0 ≤ m ≤ 8796093022207 → Q tt (limited (wanted_limits hard t m) s) →
  wp (child_limits t m) Q E s.
Proof.
  intros Hget Hm HQ. unfold child_limits. unfold wanted_limits in HQ. rewrite !limited_app in HQ.
  apply wp_bind.
  apply (wp_post _ (λ _ s1, s1 =
    limited (if 0 <? t then [(RLIMIT_CPU, t, hard RLIMIT_CPU)] else []) s)).
  { destruct (0 <? t); [|by rewrite limited_nil]. by eapply wp_set_soft_limit. }
  intros res1 s1 ->. apply wp_bind. set (s1 := limited _ s) in *.
  apply (wp_post _ (λ _ s2, s2 =
    limited (if 0 <? m then [(RLIMIT_AS, m * 1048576, hard RLIMIT_AS)] else []) s1)).
  { destruct (0 <? m); [|by rewrite limited_nil].
    apply wp_bind. eapply wp_lift_ok; [apply long_of_ok; unfold LONG_MIN, LONG_MAX; lia|].
    apply wp_bind. eapply wp_lift_ok; [apply long_of_ok; unfold LONG_MIN, LONG_MAX; lia|].
    replace (m * 1024 * 1024) with (m * 1048576) by lia. by eapply wp_set_soft_limit. }
  intros res2 s2 ->. apply wp_bind. destruct ((0 <? t) || (0 <? m)).
  - eapply wp_set_soft_limit; [done|]. intros _. by apply wp_ret.
  - apply wp_ret, wp_ret. by rewrite limited_nil in HQ.
Qed.

(** The start of the process that becomes the command: the program itself when
    nothing has to be watched, the child of [fork] otherwise *)
Definition starts_command (showtime : bool) (t : Z) s (tr0 : list csysrec) (w0 : W) : Prop :=
  (showtime = false ∧ t = 0 ∧ tr0 = [] ∧ w0 = cs_world s) ∨
  ((showtime = true ∨ t ≠ 0) ∧ tr0 = [CRec CFork 0] ∧ cos CFork (cs_world s) = (0, w0)).

(** C35: the process that becomes the command (the child, or the program itself when
    it need not watch) first sets exactly the soft limits that were asked for,
    leaving the hard limits alone, and then, in the world these calls lead to,
    executes the given command with the given arguments.  When that succeeds the
    process is replaced; when it fails, the record of the calls is exactly the
    limits, the attempt and a message, in this order, and the exit code is 1. *)
Theorem cpulimit_child_limits_command (hard : resource → Z) a0 a1 a2 a3 cmd args showtime t m
    s tr0 w0 :
  let argv := a0 :: a1 :: a2 :: a3 :: cmd :: args in
  Forall (λ a, NUL ∈ a) argv → parsed argv showtime t m → m ≤ 8796093022207 →
  starts_command showtime t s tr0 w0 →
  (∀ r w, ∃ soft, (cos (CGetrlimit r) w).1 = Some (soft, hard r)) →
  let '(tr, w) := limit_calls (wanted_limits hard t m) w0 in
  match (cos (CExecvp cmd (cmd :: args)) w).1 with
  | None => cpulimit_main argv s = Err ExecReplaced
  | Some errno => ∃ msg s', cpulimit_main argv s = Ok (1, s') ∧
      cs_trace s' = cs_trace s ++ tr0 ++ tr ++
        [CRec (CExecvp cmd (cmd :: args)) (Some errno); CRec (CStderr msg) tt]
  end.
Proof.
  intros argv Hall Hpar Hm Hstart Hget.
  destruct (limit_calls (wanted_limits hard t m) w0) as [tr w] eqn:Hcalls.
  destruct (cos (CExecvp cmd (cmd :: args)) w) as [r w'] eqn:Hexec. cbn.
  assert (0 ≤ m) as Hm0 by (destruct Hpar as (? & ? & ? & ? & ? & ? & ?); tauto).
  set (Q := λ (code : Z) (s' : cstate W), ∃ errno msg, r = Some errno ∧ code = 1 ∧
    cs_trace s' = cs_trace s ++ tr0 ++ tr ++
      [CRec (CExecvp cmd (cmd :: args)) r; CRec (CStderr msg) tt]).
  assert (wp (cpulimit_main argv) Q (λ e, e = ExecReplaced ∧ r = None) s) as Hwp.
  { apply (wp_parsed argv showtime t m); [done..|].
    assert (∀ s1, cs_world s1 = w0 → cs_trace s1 = cs_trace s ++ tr0 →
      wp (child argv t m) Q (λ e, e = ExecReplaced ∧ r = None) s1) as Hchild.
    { intros s1 Hw1 Ht1. unfold child. apply wp_bind. eapply wp_child_limits; [done|lia|].
      unfold limited, after_calls. rewrite Hw1, Hcalls, Ht1. cbn.
      apply wp_bind. eapply wp_lift_ok; [done|]. apply wp_bind, wp_ccall. cbn [cs_world].
      change (drop 4 argv) with (cmd :: args). rewrite Hexec. intros ? ? [= <- <-].
      destruct r as [errno|]; [|by apply wp_raise].
      apply wp_bind. eapply wp_lift_ok; [done|]. apply wp_bind, wp_ccall. intros [] w4 _.
      apply wp_ret. eexists errno, _. split; [done|]. split; [done|].
      cbn [after_call cs_trace]. by rewrite <- !app_assoc. }
    unfold run. destruct Hstart as [(-> & -> & -> & ->)|(Hfl & -> & Hf)]; cbn [orb negb Z.eqb].
    { apply Hchild; [done|]. by rewrite app_nil_r. }
    assert (showtime || negb (t =? 0) = true) as ->.
    { destruct showtime; [done|]. cbn. apply negb_true_iff, Z.eqb_neq. naive_solver. }
    apply wp_bind, wp_ccall. cbn [cs_world]. rewrite Hf. intros ? ? [= <- <-].
    cbn [Z.eqb Z.ltb Z.compare]. apply wp_bind, wp_ret. apply wp_bind, wp_ret. by apply Hchild. }
  unfold wp in Hwp. destruct (cpulimit_main argv s) as [[code s']|e].
  - destruct Hwp as (errno & msg & -> & -> & Htr). by exists msg, s'.
  - by destruct Hwp as [-> ->].
Qed.
End cpulimit_theorems.

(** ** An operating system for which the laws hold

    [fork] answers [role]; the alarm always goes off during the first wait; the
    child exits with code 3; [execvp] fails. *)
Definition toy_cpu (role : Z) {A} (c : csys A) : cview → A * cview :=
  match c in csys A return cview → A * cview with
  | CFork => λ v, (role, mk_cview (Some role) (cv_alarm v) (cv_handler v))
  | CSigaction _ => λ v, (0, mk_cview (cv_child v) (cv_alarm v) true)
  | CAlarm n => λ v, (0, mk_cview (cv_child v) (negb (n =? 0)) (cv_handler v))
  | CWaitpid p => λ v,
      if cv_alarm v then (WaitFail true, mk_cview (cv_child v) false (cv_handler v))
      else (WaitOk p 768, v)
  | CKill _ _ => λ v, (0, v)
  | CRaise sig => λ v, (true, v)
  | CTimes => λ v, ((12, 3), v)
  | CClkTck => λ v, (100, v)
  | CGetrlimit _ => λ v, (Some (5000, 7000), v)
  | CSetrlimit _ _ _ => λ v, (0, v)
  | CExecvp _ _ => λ v, (Some 2, v)
  | CStderr _ => λ v, (tt, v)
  | CPerror _ => λ v, (tt, v)
  end.

Definition toy_cpu_os (role : Z) : CpuOS cview := {|
  cos := λ A, toy_cpu role;
  strerror := λ e, String.list_ascii_of_string "error"
|}.

#[refine] Definition toy_cpu_laws (role : Z) : @CpuOSLaws cview (toy_cpu_os role) :=
  @Build_CpuOSLaws cview (toy_cpu_os role) (λ v, v) _ _ _ _ _ _ _.
Proof.
  - intros A c w r w' Hc Hn. by destruct c; cbn in *; simplify_eq.
  - intros w p w' [= <- <-] _. done.
  - intros sig w r w' [= <- <-] _. done.
  - intros n w r w' [= <- <-]. done.
  - intros p w r w' Hc Hch. cbn in Hc. destruct (cv_alarm w) eqn:Ha; simplify_eq.
    + right. cbn. by rewrite Hch.
    + left. eauto.
  - intros w r w' [= <- <-]. done.
  - intros w a b w' [= <- <- <-]. unfold LONG_MIN, LONG_MAX. lia.
Defined.

(** ["why3cpulimit 10 100 -s cvc4 goal.smt2"] *)
Definition cpu_argv : list cbuf :=
  [clit "why3cpulimit"; clit "10"; clit "100"; clit "-s"; clit "cvc4"; clit "goal.smt2"].
Definition cpu_start : cstate cview := mk_cs 60 false false (mk_cview None false false) [].

Lemma cpu_argv_terminated : Forall (λ a, NUL ∈ a) cpu_argv.
Proof. apply (bool_decide_unpack (Forall _ cpu_argv)). vm_compute. exact I. Qed.

Lemma cpu_argv_parsed : parsed cpu_argv true 10 100.
Proof. do 6 eexists. split; [reflexivity|]. split_and!; try (vm_compute; reflexivity); lia. Qed.

Lemma cpulimit_parent_forwards_witness :
  wp (@cpulimit_main _ (toy_cpu_os 77) cpu_argv)
    (λ code s', code = 3 ∧ ∃ tr, steps (cs_trace s') = SAlarm 80 :: tr)
    (λ _, False) cpu_start.
Proof.
  pose proof (@cpulimit_parent_forwards _ _ (toy_cpu_laws 77) cpu_argv true 10 100 77
    (mk_cview (Some 77) false false) 768 cpu_start cpu_argv_terminated cpu_argv_parsed
    (or_introl eq_refl) ltac:(lia) eq_refl eq_refl ltac:(lia)) as Hp.
  eapply wp_mono; [apply Hp| |].
  - intros w w' r Hw. cbn in Hw. destruct (cv_alarm w); by simplify_eq.
  - intros code s' (_ & -> & tr & -> & _). split; [reflexivity|]. exists tr. reflexivity.
  - intros e [He _]. discriminate He.
Defined.

Lemma cpulimit_refuses_witness :
  @cpulimit_main _ (toy_cpu_os 77) [clit "why3cpulimit"; clit "10"] cpu_start = Err (Exited 1 "usage").
Proof.
  apply cpulimit_refuses; [done|apply (bool_decide_unpack (Forall _ _)); vm_compute; exact I|].
  intros showtime t m (? & ? & ? & ? & ? & ? & ? & _). discriminate.
Defined.

Lemma cpulimit_child_limits_command_witness :
  ∃ msg s', @cpulimit_main _ (toy_cpu_os 0) cpu_argv cpu_start = Ok (1, s') ∧
    cs_trace s' =
      [CRec CFork 0;
       CRec (CGetrlimit RLIMIT_CPU) (Some (5000, 7000)); CRec (CSetrlimit RLIMIT_CPU 10 7000) 0;
       CRec (CGetrlimit RLIMIT_AS) (Some (5000, 7000)); CRec (CSetrlimit RLIMIT_AS 104857600 7000) 0;
       CRec (CGetrlimit RLIMIT_CORE) (Some (5000, 7000)); CRec (CSetrlimit RLIMIT_CORE 0 7000) 0;
       CRec (CExecvp (clit "cvc4") [clit "cvc4"; clit "goal.smt2"]) (Some 2);
       CRec (CStderr msg) tt].
Proof.
  apply (@cpulimit_child_limits_command _ (toy_cpu_os 0) (λ _, 7000)
    (clit "why3cpulimit") (clit "10") (clit "100") (clit "-s") (clit "cvc4") [clit "goal.smt2"]
    true 10 100 cpu_start [CRec CFork 0] (mk_cview (Some 0) false false)
    cpu_argv_terminated cpu_argv_parsed).
  - lia.
  - right. split; [by left|]. split; reflexivity.
  - intros r w. by eexists.
Defined.
