(* ===== verification/ServerUnix.v ===== *)
(** * The Unix server (src/server/server-unix.c, src/server/proc.c)

    The event loop of the proof server: clients, their buffers, the poll list,
    the running prover processes and the request queue.  Every function of
    server-unix.c is a definition in the monad [U] of the server state; the
    operating system is the parameter [UnixOS] (file UnixOS). *)

From S2P Require Import Prelude Queue ArrayList CString ReadBuf WriteBuf State Options Request UnixOS.
From Stdlib Require Import Ascii.

Definition READ_ONCE : Z := 1024.

(** [t_client]; the field [kind] of the C struct is never used. *)
Record t_client := mk_client {
  cl_fd : Z;
  cl_readbuf : t_readbuf;
  cl_writebuf : t_writebuf
}.

(** [t_proc] (proc.h, without _WIN32): immutable after its creation. *)
Record t_proc := mk_proc {
  proc_addr : positive;
  proc_id : Z;
  proc_client_key : Z;
  proc_task_id : cstring;
  proc_outfile : cstring
}.

(** The globals of server-unix.c, proc.c and the shared [core]. *)
Record ustate (W : Type) := mk_u {
  u_core : core;
  u_clients : option (t_list positive);   (** [NULL] before initialisation *)
  u_heap : gmap positive t_client;        (** the live client structs *)
  u_processes : t_list t_proc;
  u_poll_list : arr pollfd;
  u_poll_num : Z;
  u_poll_len : Z;
  u_server_sock : Z;
  u_cpipe : Z * Z;
  u_current_dir : option cbuf;            (** [NULL] if [getcwd] failed *)
  u_world : W;
  u_trace : list sysrec
}.
Arguments mk_u {W} _ _ _ _ _ _ _ _ _ _ _ _.
Arguments u_core {W} _.
Arguments u_clients {W} _.
Arguments u_heap {W} _.
Arguments u_processes {W} _.
Arguments u_poll_list {W} _.
Arguments u_poll_num {W} _.
Arguments u_poll_len {W} _.
Arguments u_server_sock {W} _.
Arguments u_cpipe {W} _.
Arguments u_current_dir {W} _.
Arguments u_world {W} _.
Arguments u_trace {W} _.

Definition set_core {W} (c : core) (s : ustate W) : ustate W :=
  mk_u c (u_clients s) (u_heap s) (u_processes s) (u_poll_list s)
    (u_poll_num s) (u_poll_len s) (u_server_sock s) (u_cpipe s) (u_current_dir s) (u_world s) (u_trace s).
Definition set_clients {W} (l : option (t_list positive)) (s : ustate W) : ustate W :=
  mk_u (u_core s) l (u_heap s) (u_processes s) (u_poll_list s)
    (u_poll_num s) (u_poll_len s) (u_server_sock s) (u_cpipe s) (u_current_dir s) (u_world s) (u_trace s).
Definition set_heap {W} (h : gmap positive t_client) (s : ustate W) : ustate W :=
  mk_u (u_core s) (u_clients s) h (u_processes s) (u_poll_list s)
    (u_poll_num s) (u_poll_len s) (u_server_sock s) (u_cpipe s) (u_current_dir s) (u_world s) (u_trace s).
Definition set_processes {W} (l : t_list t_proc) (s : ustate W) : ustate W :=
  mk_u (u_core s) (u_clients s) (u_heap s) l (u_poll_list s)
    (u_poll_num s) (u_poll_len s) (u_server_sock s) (u_cpipe s) (u_current_dir s) (u_world s) (u_trace s).
Definition set_poll {W} (l : arr pollfd) (num len : Z) (s : ustate W) : ustate W :=
  mk_u (u_core s) (u_clients s) (u_heap s) (u_processes s) l
    num len (u_server_sock s) (u_cpipe s) (u_current_dir s) (u_world s) (u_trace s).
Definition set_server_sock {W} (fd : Z) (s : ustate W) : ustate W :=
  mk_u (u_core s) (u_clients s) (u_heap s) (u_processes s) (u_poll_list s)
    (u_poll_num s) (u_poll_len s) fd (u_cpipe s) (u_current_dir s) (u_world s) (u_trace s).
Definition set_cpipe {W} (p : Z * Z) (s : ustate W) : ustate W :=
  mk_u (u_core s) (u_clients s) (u_heap s) (u_processes s) (u_poll_list s)
    (u_poll_num s) (u_poll_len s) (u_server_sock s) p (u_current_dir s) (u_world s) (u_trace s).
Definition set_current_dir {W} (d : option cbuf) (s : ustate W) : ustate W :=
  mk_u (u_core s) (u_clients s) (u_heap s) (u_processes s) (u_poll_list s)
    (u_poll_num s) (u_poll_len s) (u_server_sock s) (u_cpipe s) d (u_world s) (u_trace s).
Definition set_world {W} (w : W) (t : list sysrec) (s : ustate W) : ustate W :=
  mk_u (u_core s) (u_clients s) (u_heap s) (u_processes s) (u_poll_list s)
    (u_poll_num s) (u_poll_len s) (u_server_sock s) (u_cpipe s) (u_current_dir s) w t.

Section server.
Context `{Libc} {W : Type} `{UnixOS W}.

Abbreviation U := (M (ustate W)).

(** ** Access to the state *)

Definition on_core {A} (m : M core A) : U A := zoom u_core set_core m.

(** A system call: the answer of the operating system, recorded. *)
Definition syscall {A} (c : sys A) : U A := λ s,
  let '(a, w) := os c (u_world s) in
  Ok (a, set_world w (u_trace s ++ [SysRec c a]) s).

(** The global [clients], which must be initialised. *)
Definition get_clients : U (t_list positive) := λ s,
  match u_clients s with Some l => Ok (l, s) | None => Err NullDeref end.

(** Reading and writing through a [pclient]. *)
Definition client_at (c : positive) : U t_client := λ s,
  match u_heap s !! c with Some cl => Ok (cl, s) | None => Err DanglingPtr end.
Definition client_set (c : positive) (cl : t_client) : U unit := λ s,
  match u_heap s !! c with
  | Some _ => Ok (tt, set_heap (<[c := cl]> (u_heap s)) s)
  | None => Err DanglingPtr
  end.
Definition set_readbuf (c : positive) (b : t_readbuf) : U unit :=
  cl ← client_at c; client_set c (mk_client (cl_fd cl) b (cl_writebuf cl)).
Definition set_writebuf (c : positive) (b : t_writebuf) : U unit :=
  cl ← client_at c; client_set c (mk_client (cl_fd cl) (cl_readbuf cl) b).

(** ** Shutting down *)

Fixpoint close_clients (n : nat) (l : t_list positive) (i : Z) : U unit :=
  match n with
  | O => mret tt
  | S n =>
     c ← lift (arr_get (l_data l) i);
     cl ← client_at c;
     _ ← syscall (SysClose (cl_fd cl));
     close_clients n l (i + 1)
  end.

Definition shutdown_with_msg {A} (msg : string) : U A :=
  sock ← gets u_server_sock;
  _ ← (if negb (sock =? -1) then _ ← syscall (SysClose sock); mret tt else mret tt);
  clients ← gets u_clients;
  _ ← (match clients with
       | Some l => close_clients (Z.to_nat (list_length l)) l 0
       | None => mret tt
       end);
  on_core (logging_shutdown msg).

(** ** The poll list *)

Definition add_to_poll_list (sock events : Z) : U unit :=
  num ← gets u_poll_num;
  len ← gets u_poll_len;
  _ ← (if num =? len then
         len ← lift (int_of (len * 2));
         l ← gets u_poll_list;
         l ← lift (c_realloc l len);
         modify (set_poll l num len)
       else mret tt);
  l ← gets u_poll_list;
  l ← lift (arr_set l num (mk_pollfd sock events 0));
  num' ← lift (int_of (num + 1));
  modify (λ s, set_poll l num' (u_poll_len s) s).

(** The pointer [poll_list + i] is the index [i]. *)
Fixpoint poll_lookup_loop (n : nat) (l : arr pollfd) (fd i : Z) : outcome (option Z) :=
  match n with
  | O => Ok None
  | S n =>
     e ← arr_get l i;
     if pf_fd e =? fd then Ok (Some i) else poll_lookup_loop n l fd (i + 1)
  end.
Definition poll_list_lookup (fd : Z) : U (option Z) :=
  num ← gets u_poll_num;
  l ← gets u_poll_list;
  lift (poll_lookup_loop (Z.to_nat num) l fd 0).

(** Each iteration removes an entry or advances. *)
Fixpoint poll_clean_loop (n : nat) (l : arr pollfd) (num i : Z) : outcome (arr pollfd * Z) :=
  if i <? num then
    match n with
    | O => Err OutOfFuel
    | S n =>
       e ← arr_get l i;
       if pf_fd e =? -1 then
         e' ← arr_get l (num - 1);
         l ← arr_set l i e';
         poll_clean_loop n l (num - 1) i
       else poll_clean_loop n l num (i + 1)
    end
  else Ok (l, num).
Definition poll_list_clean : U unit :=
  num ← gets u_poll_num;
  l ← gets u_poll_list;
  '(l, num) ← lift (poll_clean_loop (Z.to_nat num) l num 0);
  modify (λ s, set_poll l num (u_poll_len s) s).

Fixpoint poll_remove_loop (n : nat) (l : arr pollfd) (fd i : Z) : outcome (arr pollfd) :=
  match n with
  | O => Ok l
  | S n =>
     e ← arr_get l i;
     if pf_fd e =? fd then arr_set l i (mk_pollfd (-1) (pf_events e) 0)
     else poll_remove_loop n l fd (i + 1)
  end.
Definition poll_list_remove (fd : Z) : U unit :=
  num ← gets u_poll_num;
  l ← gets u_poll_list;
  l ← lift (poll_remove_loop (Z.to_nat num) l fd 0);
  modify (λ s, set_poll l num (u_poll_len s) s).

(** [entry->events = f(entry->events)] *)
Definition poll_update_events (i : Z) (f : Z → Z) : U unit :=
  l ← gets u_poll_list;
  e ← lift (arr_get l i);
  l ← lift (arr_set l i (mk_pollfd (pf_fd e) (f (pf_events e)) (pf_revents e)));
  modify (λ s, set_poll l (u_poll_num s) (u_poll_len s) s).

(** ** Clients *)

Definition server_accept_client : U unit :=
  sock ← gets u_server_sock;
  fd ← syscall (SysAccept sock);
  _ ← (if fd =? -1 then shutdown_with_msg "error accepting a client" else mret tt);
  client ← on_core malloc;
  readbuf ← lift (init_readbuf READ_ONCE);
  parallel ← on_core (gets c_parallel);
  writebuf ← lift (init_writebuf parallel);
  _ ← modify (λ s, set_heap (<[client := mk_client fd readbuf writebuf]> (u_heap s)) s);
  l ← get_clients;
  l ← lift (list_append l fd client);
  _ ← modify (set_clients (Some l));
  add_to_poll_list fd POLLIN.

Definition queue_write (client : positive) (msgbuf : cbuf) : U unit :=
  cl ← client_at client;
  b ← lift (push_write_data (cl_writebuf cl) msgbuf);
  _ ← set_writebuf client b;
  entry ← poll_list_lookup (cl_fd cl);
  match entry with
  | Some i => poll_update_events i (λ ev, Z.lor ev POLLOUT)
  | None => mret tt
  end.

Definition write_to_client (client : positive) (entry : Z) : U unit :=
  cl ← client_at client;
  '(buf, need_write, b) ← lift (prepare_write (cl_writebuf cl));
  _ ← set_writebuf client b;
  has_written ← syscall (SysWrite (cl_fd cl) (take (Z.to_nat need_write) buf));
  _ ← (match has_written with
       | inl n => b ← lift (have_written b n); set_writebuf client b
       | inr _ => mret tt
       end);
  cl ← client_at client;
  if negb (has_write_data (cl_writebuf cl))
  then poll_update_events entry (λ ev, Z.land ev (Z.lnot POLLOUT))
  else mret tt.

Definition send_started_msg_to_client (client : positive) (id : cstring) : U unit :=
  id ← on_core (read_str id);
  n ← lift (strlen id);
  let len := n + 4 in
  ok ← syscall (SysMalloc len);
  _ ← (if (ok : bool) then mret tt else shutdown_with_msg "error when allocating client msg");
  let '(msgbuf, used) :=
    snprintf len (["S"; ";"]%char ++ cstr id ++ [LF]) in
  _ ← (if negb (used =? len - 1) then shutdown_with_msg "message for client too long" else mret tt);
  queue_write client msgbuf.

(** The text of the final message. *)
Definition finished_text (id : list ascii) (exitcode : Z) (cpu_time : double) (timeout : bool)
    (outfile : list ascii) : list ascii :=
  ["F"; ";"]%char ++ id ++ [";"%char] ++ fmt_d exitcode ++ [";"%char] ++ fmt_2f cpu_time
  ++ [";"%char] ++ fmt_d (if timeout then 1 else 0) ++ [";"%char] ++ outfile ++ [LF].

Definition send_msg_to_client (client : positive) (id : cstring) (exitcode : Z)
    (cpu_time : double) (timeout : bool) (outfile : cstring) : U unit :=
  id ← on_core (read_str id);
  n ← lift (strlen id);
  outfile ← on_core (read_str outfile);
  m ← lift (strlen outfile);
  let len := n + 3 + 23 + (m + 1) in
  ok ← syscall (SysMalloc len);
  _ ← (if (ok : bool) then mret tt else shutdown_with_msg "error when allocating client msg");
  let '(msgbuf, used) :=
    snprintf len (finished_text (cstr id) exitcode cpu_time timeout (cstr outfile)) in
  _ ← (if len <=? used then shutdown_with_msg "message for client too long" else mret tt);
  queue_write client msgbuf.

(** ** Processes (proc.c) *)

Definition init_process_list : U unit :=
  parallel ← on_core (gets c_parallel);
  l ← lift (init_list parallel);
  modify (set_processes l).

Definition os_kill (p : t_proc) : U unit :=
  _ ← syscall (SysKill (proc_id p) SIGKILL); mret tt.

Fixpoint kill_loop (n : nat) (l : t_list t_proc) (id : cstring) (i : Z) : U unit :=
  match n with
  | O => mret tt
  | S n =>
     p ← lift (arr_get (l_data l) i);
     a ← on_core (read_str (proc_task_id p));
     b ← on_core (read_str id);
     c ← lift (strcmp a b);
     _ ← (if c =? 0 then os_kill p else mret tt);
     kill_loop n l id (i + 1)
  end.
Definition kill_processes (id : cstring) : U unit :=
  l ← gets u_processes;
  kill_loop (Z.to_nat (l_len l)) l id 0.

Definition free_process (p : t_proc) : U unit :=
  _ ← on_core (free (s_addr (proc_outfile p)));
  _ ← on_core (free (s_addr (proc_task_id p)));
  on_core (free (proc_addr p)).

(** ** Starting a process *)

(** [strcpy], two [strcat]s and [mkstemp] in a block of [len + 12] bytes. *)
Definition open_temp_file (dir : option cbuf) : U (Z * cstring) :=
  dir ← lift (match dir with Some d => Ok d | None => Err NullDeref end);
  len ← lift (strlen dir);
  let template := cstr dir ++ String.list_ascii_of_string "/why3"
                           ++ String.list_ascii_of_string "XXXXXX" in
  _ ← lift (if Z.of_nat (length template) + 1 <=? len + 12 then Ok tt else Err OutOfBounds);
  '(fd, name) ← syscall (SysMkstemp template);
  outfile ← on_core (alloc_str (name ++ [NUL]));
  mret (fd, outfile).

Fixpoint copy_argv (n : nat) (argv : list cstring) (a : arr (option cstring)) (i : Z)
  : outcome (arr (option cstring)) :=
  match n with
  | O => Ok a
  | S n =>
     x ← arg_at argv i;
     a ← arr_set a (i + 1) (Some x);
     copy_argv n argv a (i + 1)
  end.

(** The argument vector for [execvp]; [Some None] is a null pointer. *)
Definition build_argv (cmd : cstring) (argv : list cstring) (count : Z)
  : outcome (arr (option cstring)) :=
  a ← c_malloc (count + 2);
  a ← arr_set a 0 (Some cmd);
  a ← arr_set a (count + 1) None;
  copy_argv (Z.to_nat count) argv a 0.

(** What the child does before [execvp]. *)
Definition child_setup (job : child_job) : U unit :=
  let t := job_timelimit job in
  let mem := job_memlimit job in
  _ ← (if 0 <? t then _ ← syscall (SysSetrlimit RLIMIT_CPU t t); mret tt else mret tt);
  _ ← (if 0 <? mem then
         let l := size_t (size_t (mem * 1024) * 1024) in
         _ ← syscall (SysSetrlimit RLIMIT_AS l l); mret tt
       else mret tt);
  _ ← (if (0 <? t) || (0 <? mem) then
         _ ← syscall (SysSetrlimit RLIMIT_CORE 0 0); mret tt
       else mret tt);
  _ ← (if job_usestdin job then
         x ← lift (arg_at (job_argv job) (job_count job));
         path ← on_core (read_str x);
         infile ← syscall (SysOpen (cstr path) O_RDONLY);
         if infile =? -1 then raise (Exited 1 "Cannot open the input file")
         else _ ← syscall (SysDup2 infile 0); mret tt
       else mret tt);
  _ ← syscall (SysDup2 (job_outfile job) 1);
  _ ← syscall (SysDup2 (job_outfile job) 2);
  mret tt.

Definition child_main {A} (job : child_job) : U A :=
  _ ← child_setup job;
  r ← syscall (SysExecvp (job_cmd job) (job_unix_argv job));
  if r =? -1 then raise (Exited 1 "exec failed") else raise ExecReplaced.

Definition create_process (cmd : cstring) (argc : Z) (argv : list cstring) (usestdin : bool)
    (outfile timelimit memlimit : Z) : U Z :=
  let count := if usestdin then argc - 1 else argc in
  unix_argv ← lift (build_argv cmd argv count);
  let job := mk_job cmd argv unix_argv count usestdin outfile timelimit memlimit in
  pid ← syscall (SysFork job);
  _ ← (if pid =? -1 then shutdown_with_msg "failed to fork" else mret tt);
  if 0 <? pid then mret pid else child_main job.

Definition run_request (r : option request) : U unit :=
  match r with
  | None => raise AssertFailed
  | Some r =>
     clients ← get_clients;
     client ← lift (list_lookup clients (req_key r));
     match client with
     | None => mret tt
     | Some client =>
        dir ← gets u_current_dir;
        '(out_descr, outfile) ← open_temp_file dir;
        match req_run r with
        | None => raise Indeterminate
        | Some f =>
           id ← create_process (run_cmd f) (run_numargs f) (run_args f) (run_usestdin f)
                  out_descr (run_timeout f) (run_memlimit f);
           _ ← syscall (SysClose out_descr);
           a ← on_core malloc;
           let proc := mk_proc a id (req_key r) (req_id r) outfile in
           l ← gets u_processes;
           l ← lift (list_append l id proc);
           _ ← modify (set_processes l);
           send_started_msg_to_client client (req_id r)
        end
     end
  end.

(** ** Terminated children *)

Definition cpu_time (r : wait_report) : double :=
  double_add (double_of_Z (wr_sec r))
    (double_div (double_of_Z (wr_usec r)) (double_of_Z 1000000)).

(** The exit code and the timeout flag reported to the client. *)
Definition exit_report (status : Z) : Z * bool :=
  if WIFSIGNALED status then (WTERMSIG status, true)
  else if WIFEXITED status then (WEXITSTATUS status, false)
  else (1, false).

Definition handle_child (r : wait_report) : U unit :=
  let '(exit_code, is_timeout) := exit_report (wr_status r) in
  l ← gets u_processes;
  child ← lift (list_lookup l (wr_pid r));
  l ← lift (list_remove l (wr_pid r));
  _ ← modify (set_processes l);
  match child with
  | None => raise NullDeref
  | Some child =>
     clients ← get_clients;
     client ← lift (list_lookup clients (proc_client_key child));
     _ ← (match client with
          | Some client =>
             send_msg_to_client client (proc_task_id child) exit_code (cpu_time r)
               is_timeout (proc_outfile child)
          | None => mret tt
          end);
     free_process child
  end.

Fixpoint wait_loop (fuel : nat) : U unit :=
  match fuel with
  | O => raise OutOfFuel
  | S fuel =>
     r ← syscall SysWait3;
     match r with
     | None => mret tt
     | Some r => _ ← handle_child r; wait_loop fuel
     end
  end.
(** Every iteration but the last takes a process out of the list. *)
Definition handle_child_events : U unit :=
  l ← gets u_processes;
  wait_loop (S (Z.to_nat (list_length l))).

(** ** Client messages *)

(** The inner [while]: the index of the next newline, or [max]. *)
Fixpoint scan_newline (n : nat) (buf : arr ascii) (cur : Z) : outcome Z :=
  match n with
  | O => Ok cur
  | S n =>
     c ← arr_get buf cur;
     if decide (c = LF) then Ok cur else scan_newline n buf (cur + 1)
  end.

Definition handle_request (r : option request) : U unit :=
  match r with
  | None => mret tt
  | Some r =>
     match req_type r with
     | REQ_RUN =>
        l ← gets u_processes;
        parallel ← on_core (gets c_parallel);
        if list_length l <? parallel then
          _ ← run_request (Some r);
          on_core (free_request (Some r))
        else on_core (push_request r)
     | REQ_INTERRUPT =>
        id ← on_core (read_str (req_id r));
        _ ← on_core (log_msg (String.list_ascii_of_string "Why3 server: removing id '"
                              ++ cstr id ++ String.list_ascii_of_string "' from queue"));
        _ ← on_core (remove_from_queue (req_id r));
        _ ← kill_processes (req_id r);
        on_core (free_request (Some r))
     end
  end.

(** Returns the final value of [old]. *)
Fixpoint handle_msg_loop (fuel : nat) (buf : arr ascii) (max key old : Z) : U Z :=
  if old <? max then
    match fuel with
    | O => raise OutOfFuel
    | S fuel =>
       cur ← lift (scan_newline (Z.to_nat (max - old)) buf old);
       if cur =? max then mret old
       else
         r ← on_core (parse_request buf old (cur - old) key);
         _ ← handle_request r;
         handle_msg_loop fuel buf max key (cur + 1)
    end
  else mret old.

Definition handle_msg (client : positive) (key : Z) : U unit :=
  cl ← client_at client;
  let buf := rb_data (cl_readbuf cl) in
  let max := cast_int (rb_len (cl_readbuf cl)) in
  old ← handle_msg_loop (Z.to_nat max) buf max key 0;
  if 0 <? old then
    cl ← client_at client;
    b ← lift (have_taken (cl_readbuf cl) old);
    set_readbuf client b
  else mret tt.

Definition shutdown_server {A} : U A :=
  name ← on_core (gets c_socketname);
  match name with
  | None => raise NullDeref
  | Some name =>
     _ ← syscall (SysUnlink (cstr name));
     shutdown_with_msg "last client disconnected"
  end.

Definition close_client (client : positive) : U unit :=
  cl ← client_at client;
  l ← get_clients;
  l ← lift (list_remove l (cl_fd cl));
  _ ← modify (set_clients (Some l));
  _ ← poll_list_remove (cl_fd cl);
  _ ← set_readbuf client (free_readbuf (cl_readbuf cl));
  _ ← lift (free_writebuf (cl_writebuf cl));
  _ ← syscall (SysClose (cl_fd cl));
  _ ← modify (λ s, set_heap (delete client (u_heap s)) s);
  _ ← on_core (free client);
  single_client ← on_core (gets c_single_client);
  if (single_client : bool) && list_is_empty l then shutdown_server else mret tt.

Definition read_on_client (client : positive) : U unit :=
  cl ← client_at client;
  '(off, b) ← lift (prepare_read (cl_readbuf cl) READ_ONCE);
  _ ← set_readbuf client b;
  r ← syscall (SysRead (cl_fd cl) READ_ONCE);
  match r with
  | inr _ => mret tt
  | inl bs =>
     if Z.of_nat (length bs) =? 0 then close_client client
     else
       b ← lift (readbuf_fill b off bs);
       b ← lift (have_read b (Z.of_nat (length bs)));
       _ ← set_readbuf client b;
       handle_msg client (cl_fd cl)
  end.

(** Every iteration takes a request out of the queue. *)
Fixpoint schedule_loop (fuel : nat) : U unit :=
  l ← gets u_processes;
  parallel ← on_core (gets c_parallel);
  q ← on_core (gets c_queue);
  if (list_length l <? parallel) && negb (queue_is_empty q) then
    match fuel with
    | O => raise OutOfFuel
    | S fuel =>
       r ← on_core pop_request;
       _ ← run_request (Some r);
       _ ← on_core (free_request (Some r));
       schedule_loop fuel
    end
  else mret tt.
Definition schedule_new_jobs : U unit :=
  q ← on_core (gets c_queue);
  schedule_loop (Z.to_nat (q_len q)).

(** ** Initialisation *)

Definition setup_child_pipe : U unit :=
  p ← syscall SysPipe;
  match p with
  | None => shutdown_with_msg "error creating pipe"
  | Some (p0, p1) =>
     _ ← modify (set_cpipe (p0, p1));
     flags ← syscall (SysGetfl p0);
     _ ← (if flags =? -1 then shutdown_with_msg "error getting flags on pipe" else mret tt);
     r ← syscall (SysSetfl p0 (Z.lor flags O_NONBLOCK));
     _ ← (if r =? -1 then shutdown_with_msg "error setting flags on pipe" else mret tt);
     flags ← syscall (SysGetfl p1);
     _ ← (if flags =? -1 then shutdown_with_msg "error getting flags on pipe" else mret tt);
     r ← syscall (SysSetfl p1 (Z.lor flags O_NONBLOCK));
     _ ← (if r =? -1 then shutdown_with_msg "error setting flags on pipe" else mret tt);
     r ← syscall SysSigaction;
     _ ← (if r =? -1 then shutdown_with_msg "error installing signal handler" else mret tt);
     add_to_poll_list p0 POLLIN
  end.

(** The SIGCHLD handler: it restores [errno], which is not part of the state. *)
Definition sigchld_handle : U unit :=
  p ← gets u_cpipe;
  r ← syscall (SysWrite p.2 ["x"%char]);
  match r with
  | inl _ => mret tt
  | inr errno =>
     if negb (errno =? EAGAIN) && negb (errno =? EINTR)
     then shutdown_with_msg "error writing to pipe" else mret tt
  end.

Definition check_res (r : Z) (msg : string) : U unit :=
  if r =? -1 then shutdown_with_msg msg else mret tt.

Definition server_init_listening (socketname : cbuf) (parallel : Z) : U unit :=
  dir ← syscall SysGetcwd;
  _ ← modify (set_current_dir dir);
  let dirn := dirname (cstr socketname) in
  let filen := basename (cstr socketname) in
  cur_dir ← syscall (SysOpen ["."%char] O_RDONLY);
  _ ← check_res cur_dir "error when opening current directory";
  res ← syscall (SysChdir dirn);
  _ ← check_res res "error when switching to socket directory";
  _ ← on_core init_logging;
  _ ← on_core init_request_queue;
  l ← lift (init_list parallel);
  _ ← modify (set_clients (Some l));
  len ← lift (int_of (2 + parallel));
  poll_list ← lift (c_malloc len);
  _ ← modify (set_poll poll_list 0 len);
  _ ← (if unix_path_max <? Z.of_nat (length filen) + 1
       then shutdown_with_msg "basename of filename too long" else mret tt);
  sock ← syscall SysSocket;
  _ ← modify (set_server_sock sock);
  r ← syscall (SysUnlink filen);
  _ ← (match r with
       | inr errno => if negb (errno =? ENOENT)
                      then shutdown_with_msg "error deleting socket" else mret tt
       | inl _ => mret tt
       end);
  res ← syscall (SysBind sock filen);
  _ ← check_res res "error binding socket";
  backlog ← lift (int_of (parallel * 2));
  res ← syscall (SysListen sock backlog);
  _ ← check_res res "error listening on socket";
  res ← syscall (SysFchdir cur_dir);
  _ ← check_res res "error when switching back to current directory";
  res ← syscall (SysClose cur_dir);
  _ ← check_res res "error closing descriptor to current dir";
  _ ← add_to_poll_list sock POLLIN;
  _ ← init_process_list;
  setup_child_pipe.

(** ** The event loop *)

(** The first [n] entries of the poll list from [i] on. *)
Fixpoint poll_entries (n : nat) (l : arr pollfd) (i : Z) : outcome (list pollfd) :=
  match n with
  | O => Ok []
  | S n => e ← arr_get l i; es ← poll_entries n l (i + 1); Ok (e :: es)
  end.

(** [poll] writes the [revents] fields. *)
Fixpoint write_revents (revents : list Z) (l : arr pollfd) (i : Z) : outcome (arr pollfd) :=
  match revents with
  | [] => Ok l
  | v :: revents =>
     e ← arr_get l i;
     l ← arr_set l i (mk_pollfd (pf_fd e) (pf_events e) v);
     write_revents revents l (i + 1)
  end.

(** The [while] around [poll]; [fuel] bounds the number of EINTR retries. *)
Fixpoint poll_wait (fuel : nat) : U unit :=
  match fuel with
  | O => raise StillInterrupted
  | S fuel =>
     num ← gets u_poll_num;
     l ← gets u_poll_list;
     es ← lift (poll_entries (Z.to_nat num) l 0);
     r ← syscall (SysPoll es);
     match r with
     | inl revents =>
        l ← lift (write_revents revents l 0);
        modify (λ s, set_poll l num (u_poll_len s) s)
     | inr errno =>
        if errno =? EINTR then poll_wait fuel else shutdown_with_msg "call to poll failed"
     end
  end.

(** The [while] around the [read] of the self pipe. *)
Fixpoint drain_pipe (fuel : nat) (fd : Z) : U unit :=
  match fuel with
  | O => raise StillInterrupted
  | S fuel =>
     r ← syscall (SysRead fd 1);
     match r with
     | inl _ => mret tt
     | inr errno =>
        if errno =? EINTR then drain_pipe fuel fd
        else shutdown_with_msg "call to read shouldn't fail"
     end
  end.

(** The body of the [for] loop on the entry [poll_list + i]. *)
Definition handle_event (eintr : nat) (i : Z) : U unit :=
  l ← gets u_poll_list;
  cur ← lift (arr_get l i);
  cpipe ← gets u_cpipe;
  sock ← gets u_server_sock;
  if pf_revents cur =? 0 then mret tt
  else if pf_fd cur =? cpipe.1 then
    _ ← drain_pipe eintr cpipe.1;
    handle_child_events
  else if pf_fd cur =? sock then
    _ ← lift (c_assert (pf_revents cur =? POLLIN));
    server_accept_client
  else
    clients ← get_clients;
    client ← lift (list_lookup clients (pf_fd cur));
    match client with
    | None => mret tt
    | Some client =>
       if negb (Z.land (pf_revents cur) POLLERR =? 0) then close_client client
       else if negb (Z.land (pf_revents cur) POLLOUT =? 0) then write_to_client client i
       else if negb (Z.land (pf_revents cur) POLLIN =? 0) then read_on_client client
       else mret tt
    end.

(** The [for] loop; [poll_num] is read again at each iteration. *)
Fixpoint event_loop (fuel eintr : nat) (i : Z) : U unit :=
  num ← gets u_poll_num;
  if i <? num then
    match fuel with
    | O => raise OutOfFuel
    | S fuel =>
       _ ← handle_event eintr i;
       event_loop fuel eintr (i + 1)
    end
  else mret tt.

(** One iteration of the main loop.  [eintr] bounds the EINTR retries. *)
Definition main_iter (eintr : nat) : U unit :=
  _ ← schedule_new_jobs;
  _ ← poll_list_clean;
  _ ← poll_wait eintr;
  num ← gets u_poll_num;
  event_loop (Z.to_nat (2 * num)) eintr 0.

Fixpoint main_loop (n eintr : nat) : U unit :=
  match n with
  | O => mret tt
  | S n => _ ← main_iter eintr; main_loop n eintr
  end.

(** [main], its infinite loop cut after [n] iterations. *)
Definition server_main (answers : list getopt_answer) (optind argc : Z)
    (n eintr : nat) : U unit :=
  _ ← on_core (parse_options answers optind argc);
  name ← on_core (gets c_socketname);
  parallel ← on_core (gets c_parallel);
  match name with
  | None => raise NullDeref
  | Some name =>
     _ ← server_init_listening name parallel;
     main_loop n eintr
  end.

End server.

(** The state at program start. *)
Definition initial_ustate {W} (w : W) : ustate W :=
  mk_u initial_core None ∅ (mk_list [] [] 0 0) [] 0 0 (-1) (0, 0) None w [].
