(* ===== verification/ServerPoll.v ===== *)
(** * The poll list of the Unix server (src/server/server-unix.c)

    The array [poll_list] with its length and capacity represents a sequence of
    entries ([poll_rep]); the descriptors that are watched are [watched].  The
    lemmas say what each operation on the array does to that sequence. *)

From S2P Require Import Prelude ArrayList CString State Options UnixOS ServerUnix.
From Stdlib Require Import Ascii.

(** The array [a] of capacity [len], of which [num] cells are used, holds [pl]. *)
Record poll_rep `{Libc} (a : arr pollfd) (num len : Z) (pl : list pollfd) : Prop := {
  pr_len : 0 < len ≤ alloc_max;
  pr_arr : arr_len a = len;
  pr_num : num = Z.of_nat (length pl);
  pr_fit : num ≤ len;
  pr_elems : ∀ i e, pl !! i = Some e → a !! i = Some (Some e)
}.

(** The descriptors watched: a removed entry has descriptor -1. *)
Definition watched (pl : list pollfd) : list Z := filter (λ fd, fd ≠ -1) (pf_fd <$> pl).

Section poll.
Context `{Libc}.
Implicit Types (a : arr pollfd) (pl : list pollfd).

Lemma poll_get a num len pl i e :
  poll_rep a num len pl → pl !! i = Some e → arr_get a (Z.of_nat i) = Ok e.
Proof. intros Hr Hi. apply arr_get_ok; [lia|]. rewrite Nat2Z.id. by apply (pr_elems _ _ _ _ Hr). Qed.

Lemma poll_set a num len pl i e0 e :
  poll_rep a num len pl → pl !! i = Some e0 →
  ∃ a', arr_set a (Z.of_nat i) e = Ok a' ∧ poll_rep a' num len (<[i := e]> pl).
Proof.
  intros [Hl Ha Hn Hf He] Hi. pose proof (lookup_lt_Some _ _ _ Hi) as Hlt.
  rewrite arr_set_ok by lia. rewrite Nat2Z.id. eexists. split; [done|].
  split; try done; rewrite ?arr_len_insert, ?length_insert; try done.
  intros j e' Hj. unfold arr_len in Ha. destruct (decide (i = j)) as [<-|Hne].
  - rewrite list_lookup_insert_eq in Hj by done. simplify_eq.
    by rewrite list_lookup_insert_eq by lia.
  - rewrite list_lookup_insert_ne in Hj by done. rewrite list_lookup_insert_ne by done. by apply He.
Qed.

(** Dropping the last used cell. *)
Lemma poll_shrink a num len pl e :
  poll_rep a num len (pl ++ [e]) → poll_rep a (num - 1) len pl.
Proof.
  intros [Hl Ha Hn Hf He]. rewrite length_app in Hn. cbn in Hn. split; try done; try lia.
  intros i e' Hi. apply He. by apply lookup_app_l_Some.
Qed.

Lemma poll_append_free a num len pl e :
  poll_rep a num len pl → num < len →
  ∃ a', arr_set a num e = Ok a' ∧ poll_rep a' (num + 1) len (pl ++ [e]).
Proof.
  intros [Hl Ha Hn Hf He] Hlt. rewrite arr_set_ok by lia. eexists. split; [done|].
  split; rewrite ?arr_len_insert, ?length_app; cbn; try done; try lia.
  intros i e' Hi. unfold arr_len in Ha. rewrite Hn, Nat2Z.id.
  apply lookup_app_Some in Hi as [Hi|[Hge Hi]].
  - pose proof (lookup_lt_Some _ _ _ Hi). rewrite list_lookup_insert_ne by lia. by apply He.
  - destruct (i - length pl)%nat eqn:E; [|done]. simplify_eq/=.
    replace i with (length pl) by lia. by rewrite list_lookup_insert_eq by lia.
Qed.

Lemma poll_realloc a num len pl :
  poll_rep a num len pl → 2 * len ≤ alloc_max →
  poll_rep (arr_realloc a (len * 2)) num (len * 2) pl.
Proof.
  intros [Hl Ha Hn Hf He] Hs. split; rewrite ?arr_len_realloc by lia; try done; try lia.
  intros i e Hi. unfold arr_len in Ha. pose proof (lookup_lt_Some _ _ _ (He i e Hi)).
  rewrite arr_realloc_lookup by lia. by apply He.
Qed.

(** The entry of a descriptor. *)
Fixpoint find_fd (fd : Z) pl : option nat :=
  match pl with
  | [] => None
  | e :: pl => if pf_fd e =? fd then Some O else S <$> find_fd fd pl
  end.

Lemma find_fd_Some fd pl i :
  find_fd fd pl = Some i → ∃ e, pl !! i = Some e ∧ pf_fd e = fd.
Proof.
  revert i. induction pl as [|e pl IH]; intros i Hf; cbn in *; [done|].
  destruct (Z.eqb_spec (pf_fd e) fd); simplify_eq/=; [eauto|].
  apply fmap_Some in Hf as (j & Hj & ->). eauto.
Qed.

Lemma find_fd_None fd pl : find_fd fd pl = None ↔ fd ∉ pf_fd <$> pl.
Proof.
  induction pl as [|e pl IH]; cbn; [set_solver|].
  rewrite not_elem_of_cons, <- IH. destruct (Z.eqb_spec (pf_fd e) fd); [naive_solver|].
  rewrite fmap_None. naive_solver.
Qed.

Lemma poll_lookup_loop_rep a num len pl fd i :
  poll_rep a num len pl → (i ≤ length pl)%nat →
  poll_lookup_loop (length pl - i) a fd (Z.of_nat i) =
    Ok ((λ j, Z.of_nat (i + j)) <$> find_fd fd (drop i pl)).
Proof.
  intros Hr Hi. remember (length pl - i)%nat as n eqn:En.
  revert i Hi En. induction n as [|n IH]; intros i Hi En; cbn.
  { by rewrite drop_ge by lia. }
  destruct (lookup_lt_is_Some_2 pl i) as [e He]; [lia|].
  rewrite (poll_get _ _ _ _ _ _ Hr He). cbn. rewrite (drop_S pl e i) by done. cbn.
  destruct (Z.eqb_spec (pf_fd e) fd); cbn; [do 2 f_equal; lia|].
  replace (Z.of_nat i + 1) with (Z.of_nat (S i)) by lia. rewrite IH by lia.
  destruct (find_fd fd (drop (S i) pl)); cbn; [|done]. do 2 f_equal. lia.
Qed.

(** [poll_list_remove] turns the first entry of [fd] into a removed one. *)
Definition removed_entry (e : pollfd) : pollfd := mk_pollfd (-1) (pf_events e) 0.
Definition remove_fd (fd : Z) pl : list pollfd :=
  match find_fd fd pl with
  | Some i => alter removed_entry i pl
  | None => pl
  end.

Lemma poll_remove_loop_rep a num len pl fd i :
  poll_rep a num len pl → (i ≤ length pl)%nat →
  ∃ a', poll_remove_loop (length pl - i) a fd (Z.of_nat i) = Ok a' ∧
    poll_rep a' num len (take i pl ++ remove_fd fd (drop i pl)).
Proof.
  intros Hr Hi. remember (length pl - i)%nat as n eqn:En.
  revert i Hi En. induction n as [|n IH]; intros i Hi En; cbn.
  { rewrite drop_ge by lia. cbn. rewrite app_nil_r, take_ge by lia. eauto. }
  destruct (lookup_lt_is_Some_2 pl i) as [e He]; [lia|].
  rewrite (poll_get _ _ _ _ _ _ Hr He). cbn. rewrite (drop_S pl e i) by done.
  unfold remove_fd. cbn. destruct (Z.eqb_spec (pf_fd e) fd) as [Hfd|Hne].
  - destruct (poll_set a num len pl i e (mk_pollfd (-1) (pf_events e) 0) Hr He)
      as (a' & -> & Hr'). exists a'. split; [done|].
    cbn [alter list_alter]. rewrite insert_take_drop in Hr' by lia. done.
  - replace (Z.of_nat i + 1) with (Z.of_nat (S i)) by lia.
    destruct (IH (S i)) as (a' & -> & Hr'); [lia..|]. exists a'. split; [done|].
    rewrite (take_S_r pl i e He), <- app_assoc in Hr'. unfold remove_fd in Hr'.
    by destruct (find_fd fd (drop (S i) pl)).
Qed.

(** ** [poll_list_clean] *)

(** The loop keeps the entries before [i], which are live. *)
Lemma poll_clean_loop_rep n : ∀ a num len pl i,
  poll_rep a num len pl → (i + n = length pl)%nat →
  Forall (λ e, pf_fd e ≠ -1) (take i pl) →
  ∃ a' pl', poll_clean_loop n a num (Z.of_nat i) = Ok (a', Z.of_nat (length pl')) ∧
    poll_rep a' (Z.of_nat (length pl')) len pl' ∧
    pl' ≡ₚ filter (λ e, pf_fd e ≠ -1) pl.
Proof.
  induction n as [|n IH]; intros a num len pl i Hr Hi Hlive; cbn [poll_clean_loop];
    rewrite (pr_num _ _ _ _ Hr).
  - rewrite (proj2 (Z.ltb_ge _ _)) by lia. exists a, pl. split; [done|].
    split; [by rewrite <- (pr_num _ _ _ _ Hr)|].
    rewrite take_ge in Hlive by lia. by rewrite list_filter_all.
  - rewrite (proj2 (Z.ltb_lt _ _)) by lia.
    destruct (lookup_lt_is_Some_2 pl i) as [e He]; [lia|].
    rewrite (poll_get _ _ _ _ _ _ Hr He). cbn [mbind outcome_bind].
    destruct (Z.eqb_spec (pf_fd e) (-1)) as [Hdead|Hl].
    + destruct pl as [|el pl _] using rev_ind; [done|]. rewrite length_app in *. cbn in Hi |- *.
      replace (Z.of_nat (length pl + 1) - 1) with (Z.of_nat (length pl)) by lia.
      rewrite (poll_get _ _ _ _ (length pl) el Hr)
        by (by rewrite lookup_app_r, Nat.sub_diag by lia). cbn [mbind outcome_bind].
      destruct (poll_set _ _ _ _ i e el Hr He) as (a1 & -> & Hr1). cbn [mbind outcome_bind].
      destruct (decide (i = length pl)) as [->|Hne].
      * rewrite lookup_app_r, Nat.sub_diag in He by lia. simplify_eq/=.
        rewrite insert_app_r_alt, Nat.sub_diag in Hr1 by lia. cbn in Hr1.
        apply poll_shrink in Hr1. rewrite (pr_num _ _ _ _ Hr), length_app in Hr1.
        replace (Z.of_nat (length pl + length [e]) - 1) with (Z.of_nat (length pl)) in Hr1
          by (cbn; lia).
        destruct n; cbn [poll_clean_loop]; [|lia].
        rewrite (proj2 (Z.ltb_ge _ _)) by lia. exists a1, pl. split; [done|]. split; [done|].
        rewrite filter_app, filter_cons, decide_False by tauto. rewrite app_nil_r.
        rewrite take_app_length in Hlive. by rewrite list_filter_all.
      * assert (i < length pl)%nat by lia. rewrite lookup_app_l in He by lia.
        rewrite insert_app_l in Hr1 by lia. apply poll_shrink in Hr1.
        destruct (IH a1 (num - 1) len (<[i:=el]> pl) i Hr1) as (a2 & pl2 & E2 & Hr2 & Hp).
        { rewrite length_insert. lia. }
        { rewrite take_insert_ge by lia. by rewrite take_app_le in Hlive by lia. }
        rewrite (pr_num _ _ _ _ Hr), length_app in E2. cbn in E2.
        replace (Z.of_nat (length pl + 1) - 1) with (Z.of_nat (length pl)) in E2 by lia.
        exists a2, pl2. split; [done|]. split; [done|]. rewrite Hp.
        rewrite insert_take_drop by lia.
        rewrite <- (take_drop_middle pl i e) at 3 by done.
        rewrite !filter_app, !filter_cons, filter_nil.
        rewrite (decide_False (P := pf_fd e ≠ -1)) by tauto.
        rewrite <- app_assoc. apply Permutation_app_head.
        case_decide; [apply Permutation_cons_append|by rewrite app_nil_r].
    + replace (Z.of_nat i + 1) with (Z.of_nat (S i)) by lia.
      rewrite <- (pr_num _ _ _ _ Hr). apply IH; [done|lia|].
      rewrite (take_S_r pl i e He). apply Forall_app. by split; [|constructor].
Qed.

Lemma watched_filter pl : watched (filter (λ e, pf_fd e ≠ -1) pl) = watched pl.
Proof.
  unfold watched. induction pl as [|e pl IH]; [done|]. rewrite filter_cons.
  case_decide as Hd; cbn [fmap list_fmap].
  - rewrite !filter_cons. case_decide; [|done]. by rewrite IH.
  - rewrite (filter_cons _ (pf_fd e)). by case_decide.
Qed.

#[export] Instance watched_perm : Proper ((≡ₚ) ==> (≡ₚ)) watched.
Proof. intros pl pl' Hp. unfold watched. by rewrite Hp. Qed.

(** Entries of the same live descriptor are at the same place. *)
Lemma watched_inj pl i j e e' :
  NoDup (watched pl) → pl !! i = Some e → pl !! j = Some e' →
  pf_fd e = pf_fd e' → pf_fd e ≠ -1 → i = j.
Proof.
  revert i j. induction pl as [|x pl IH]; intros i j Hnd Hi Hj Hfd Hne; [done|].
  unfold watched in Hnd. rewrite fmap_cons, filter_cons in Hnd. fold (watched pl) in Hnd.
  assert (∀ k y, pl !! k = Some y → pf_fd y ≠ -1 → pf_fd y ∈ watched pl) as Hin.
  { intros k y Hk Hy. unfold watched. apply list_elem_of_filter. split; [done|].
    apply list_elem_of_fmap. exists y. split; [done|]. by eapply list_elem_of_lookup_2. }
  destruct i as [|i], j as [|j]; simplify_eq/=; [done|..].
  - rewrite decide_True in Hnd by done. apply NoDup_cons in Hnd as [Hx _].
    exfalso. apply Hx. rewrite Hfd. eapply Hin; [done|congruence].
  - rewrite decide_True in Hnd by congruence. apply NoDup_cons in Hnd as [Hx _].
    exfalso. apply Hx. rewrite <- Hfd. by eapply Hin.
  - f_equal. apply IH; try done. case_decide; [by apply NoDup_cons in Hnd as [_ ?]|done].
Qed.

Lemma watched_insert i e e' pl :
  pl !! i = Some e → pf_fd e' = pf_fd e → watched (<[i := e']> pl) = watched pl.
Proof.
  intros Hi He. unfold watched. f_equal. rewrite list_fmap_insert, He.
  apply list_insert_id. by rewrite list_lookup_fmap, Hi.
Qed.

Lemma watched_cons e pl :
  watched (e :: pl) = if decide (pf_fd e ≠ -1) then pf_fd e :: watched pl else watched pl.
Proof. unfold watched. rewrite fmap_cons, filter_cons. by case_decide. Qed.

Lemma elem_of_watched fd pl : fd ∈ watched pl ↔ fd ≠ -1 ∧ fd ∈ pf_fd <$> pl.
Proof. unfold watched. rewrite list_elem_of_filter. tauto. Qed.

Lemma remove_fd_cons fd e pl :
  remove_fd fd (e :: pl) =
    if pf_fd e =? fd then removed_entry e :: pl else e :: remove_fd fd pl.
Proof.
  unfold remove_fd. cbn. destruct (pf_fd e =? fd); [done|]. by destruct (find_fd fd pl).
Qed.

Lemma remove_fd_watched fd pl :
  fd ∈ watched pl → watched pl ≡ₚ fd :: watched (remove_fd fd pl).
Proof.
  induction pl as [|e pl IH]; [set_solver|]. rewrite remove_fd_cons, watched_cons. intros Hin.
  destruct (Z.eqb_spec (pf_fd e) fd) as [Hfd|Hnfd]; rewrite watched_cons.
  - rewrite (decide_False (P := pf_fd (removed_entry e) ≠ -1)) by (cbn; tauto).
    case_decide; [by rewrite Hfd|]. apply elem_of_watched in Hin as [Hne _]. subst fd. tauto.
  - case_decide; [|by apply IH]. rewrite IH at 1; [apply perm_swap|]. set_solver.
Qed.

Lemma remove_fd_lookup fd pl j e' :
  remove_fd fd pl !! j = Some e' →
  ∃ e, pl !! j = Some e ∧ (e' = e ∨ (pf_fd e' = -1 ∧ pf_revents e' = 0)).
Proof.
  unfold remove_fd. destruct (find_fd fd pl) as [i|]; [|by eauto].
  destruct (decide (i = j)) as [<-|Hne].
  - rewrite list_lookup_alter_eq. destruct (pl !! i); cbn; [|done]. intros [= <-]. eauto.
  - rewrite list_lookup_alter_ne by done. eauto.
Qed.

Lemma remove_fd_length fd pl : length (remove_fd fd pl) = length pl.
Proof. unfold remove_fd. destruct (find_fd fd pl); [by rewrite length_alter|done]. Qed.

(** ** [poll] *)

Lemma poll_entries_rep a num len pl i :
  poll_rep a num len pl → (i ≤ length pl)%nat →
  poll_entries (length pl - i) a (Z.of_nat i) = Ok (drop i pl).
Proof.
  intros Hr Hi. remember (length pl - i)%nat as n eqn:En.
  revert i Hi En. induction n as [|n IH]; intros i Hi En; cbn.
  { by rewrite drop_ge by lia. }
  destruct (lookup_lt_is_Some_2 pl i) as [e He]; [lia|].
  rewrite (poll_get _ _ _ _ _ _ Hr He). cbn.
  replace (Z.of_nat i + 1) with (Z.of_nat (S i)) by lia. rewrite IH by lia. cbn.
  by rewrite (drop_S pl e i).
Qed.

Definition set_revents (e : pollfd) (v : Z) : pollfd := mk_pollfd (pf_fd e) (pf_events e) v.

Lemma watched_revents pl : ∀ vs,
  length vs = length pl → watched (zip_with set_revents pl vs) = watched pl.
Proof.
  induction pl as [|e pl IH]; intros [|v vs] Hl; [done..|]. cbn [zip_with].
  rewrite !watched_cons. cbn. rewrite IH by (cbn in Hl; lia). done.
Qed.

Lemma write_revents_rep vs : ∀ a num len pl i,
  poll_rep a num len pl → (i + length vs = length pl)%nat →
  ∃ a', write_revents vs a (Z.of_nat i) = Ok a' ∧
    poll_rep a' num len (take i pl ++ zip_with set_revents (drop i pl) vs).
Proof.
  induction vs as [|v vs IH]; intros a num len pl i Hr Hi; cbn in *.
  { rewrite drop_ge by lia. cbn. rewrite app_nil_r, take_ge by lia. eauto. }
  destruct (lookup_lt_is_Some_2 pl i) as [e He]; [lia|].
  rewrite (poll_get _ _ _ _ _ _ Hr He). cbn.
  destruct (poll_set _ _ _ _ i e (set_revents e v) Hr He) as (a1 & E1 & Hr1).
  unfold set_revents in E1 at 1. rewrite E1. cbn.
  replace (Z.of_nat i + 1) with (Z.of_nat (S i)) by lia.
  destruct (IH a1 num len _ (S i) Hr1) as (a2 & E2 & Hr2); [rewrite length_insert; lia|].
  rewrite E2. exists a2. split; [done|].
  rewrite (drop_S pl e i) by done. cbn.
  rewrite (take_S_r _ i (set_revents e v)) in Hr2
    by (rewrite list_lookup_insert_eq by lia; done).
  rewrite take_insert_ge, drop_insert_lt in Hr2 by lia. by rewrite <- app_assoc in Hr2.
Qed.
End poll.
