(* ===== verification/ServerAbs.v ===== *)
(** * The abstract Unix server

    The state of the server as a client sees it: the connected clients with the
    bytes received and not handled and the bytes to be sent, the running
    processes, the waiting requests and the limit on processes.  [astep] are its
    transitions.  [inv] relates it to the state of the C program. *)

From S2P Require Import Prelude Queue ArrayList CString ReadBuf WriteBuf State Options Request UnixOS.
From S2P Require Import ServerUnix ServerPoll.
From Stdlib Require Import Ascii.

Record aclient := mk_ac {
  ac_addr : positive;
  ac_in : list ascii;      (** received, not yet handled *)
  ac_out : list ascii      (** to be sent *)
}.

Record astate := mk_a {
  a_clients : gmap Z aclient;    (** by descriptor *)
  a_procs : gmap Z t_proc;       (** by process id *)
  a_queue : list request;
  a_parallel : Z
}.

Definition a_set_clients (m : gmap Z aclient) (a : astate) : astate :=
  mk_a m (a_procs a) (a_queue a) (a_parallel a).
Definition a_set_procs (m : gmap Z t_proc) (a : astate) : astate :=
  mk_a (a_clients a) m (a_queue a) (a_parallel a).
Definition a_set_queue (q : list request) (a : astate) : astate :=
  mk_a (a_clients a) (a_procs a) q (a_parallel a).
Definition a_set_parallel (n : Z) (a : astate) : astate :=
  mk_a (a_clients a) (a_procs a) (a_queue a) n.

Definition set_in (i : list ascii) (c : aclient) : aclient := mk_ac (ac_addr c) i (ac_out c).
Definition set_out (o : list ascii) (c : aclient) : aclient := mk_ac (ac_addr c) (ac_in c) o.

(** Append [msg] to what the client [fd] is to receive, if it is connected. *)
Definition a_send (fd : Z) (msg : list ascii) (a : astate) : astate :=
  match a_clients a !! fd with
  | Some c => a_set_clients (<[fd := set_out (ac_out c ++ msg) c]> (a_clients a)) a
  | None => a
  end.

(** Room for another process. *)
Definition a_room (a : astate) : Prop := Z.of_nat (size (a_procs a)) < a_parallel a.

Definition started_text (id : list ascii) : list ascii := ["S"; ";"]%char ++ id ++ [LF].
Definition report_text (r : wait_report) (p : t_proc) : list ascii :=
  finished_text (cstr (s_txt (proc_task_id p))) (exit_report (wr_status r)).1 (cpu_time r)
    (exit_report (wr_status r)).2 (cstr (s_txt (proc_outfile p))).

Inductive alabel :=
  | AAccept (fd : Z)
  | AClose (fd : Z)
  | AWrite (fd n : Z)
  | ARecv (fd : Z) (bs : list ascii)
  | ATake (fd n : Z)
  | AParallel (n : Z)
  | AEnqueue (r : request)
  | ADequeue (r : request)
  | AStart (r : request) (p : t_proc)
  | ADrop (r : request)
  | AInterrupt (id : cstring)
  | AReap (r : wait_report) (p : t_proc).

Inductive astep (a : astate) : alabel → astate → Prop :=
  | step_accept fd x :
     a_clients a !! fd = None →
     astep a (AAccept fd) (a_set_clients (<[fd := mk_ac x [] []]> (a_clients a)) a)
  | step_close fd c :
     a_clients a !! fd = Some c →
     astep a (AClose fd) (a_set_clients (delete fd (a_clients a)) a)
  | step_write fd c n :
     a_clients a !! fd = Some c → 0 ≤ n ≤ Z.of_nat (length (ac_out c)) →
     astep a (AWrite fd n)
       (a_set_clients (<[fd := set_out (drop (Z.to_nat n) (ac_out c)) c]> (a_clients a)) a)
  | step_recv fd c bs :
     a_clients a !! fd = Some c → bs ≠ [] →
     astep a (ARecv fd bs) (a_set_clients (<[fd := set_in (ac_in c ++ bs) c]> (a_clients a)) a)
  | step_take fd c n :
     a_clients a !! fd = Some c → 0 < n ≤ Z.of_nat (length (ac_in c)) →
     astep a (ATake fd n)
       (a_set_clients (<[fd := set_in (drop (Z.to_nat n) (ac_in c)) c]> (a_clients a)) a)
  | step_parallel n :
     1 ≤ n → astep a (AParallel n) (a_set_parallel n a)
  | step_enqueue r :
     ¬ a_room a → astep a (AEnqueue r) (a_set_queue (a_queue a ++ [r]) a)
  | step_dequeue r q :
     a_queue a = r :: q → a_room a → astep a (ADequeue r) (a_set_queue q a)
  | step_start r p c :
     a_clients a !! req_key r = Some c → a_room a →
     a_procs a !! proc_id p = None →
     proc_client_key p = req_key r → proc_task_id p = req_id r →
     astep a (AStart r p)
       (a_send (req_key r) (started_text (cstr (s_txt (req_id r))))
          (a_set_procs (<[proc_id p := p]> (a_procs a)) a))
  | step_drop r :
     a_clients a !! req_key r = None → a_room a → astep a (ADrop r) a
  | step_interrupt id :
     astep a (AInterrupt id) (a_set_queue (filter (λ r, ¬ same_id id r) (a_queue a)) a)
  | step_reap r p :
     a_procs a !! wr_pid r = Some p →
     astep a (AReap r p)
       (a_send (proc_client_key p) (report_text r p)
          (a_set_procs (delete (wr_pid r) (a_procs a)) a)).

(** Sequences of steps. *)
Inductive asteps : astate → list alabel → astate → Prop :=
  | asteps_nil a : asteps a [] a
  | asteps_cons a l a1 ls a2 : astep a l a1 → asteps a1 ls a2 → asteps a (l :: ls) a2.

Create HintDb astep.
#[export] Hint Constructors astep asteps : astep.

Lemma asteps_one a l a' : astep a l a' → asteps a [l] a'.
Proof. eauto with astep. Qed.

Lemma asteps_app a ls a1 ls' a2 :
  asteps a ls a1 → asteps a1 ls' a2 → asteps a (ls ++ ls') a2.
Proof. induction 1; cbn; eauto with astep. Qed.

Lemma asteps_app_inv a ls ls' a2 :
  asteps a (ls ++ ls') a2 → ∃ a1, asteps a ls a1 ∧ asteps a1 ls' a2.
Proof.
  revert a. induction ls as [|l ls IH]; cbn; intros a Hs; [eauto with astep|].
  inversion Hs as [|? ? a1 ? ? H1 H2]; subst. destruct (IH _ H2) as (a3 & ? & ?).
  eauto with astep.
Qed.

Lemma asteps_snoc a ls a1 l a2 : asteps a ls a1 → astep a1 l a2 → asteps a (ls ++ [l]) a2.
Proof. intros ? ?. eapply asteps_app; [done|]. by apply asteps_one. Qed.

(** ** What the clients sent

    The connections and the bytes that arrived from clients, read off the record
    of the system calls: [accept], and the reads of [READ_ONCE] bytes (the self
    pipe is read one byte at a time). *)

Inductive input :=
  | IConnect (fd : Z)
  | IChunk (fd : Z) (bs : list ascii).

Definition input_of (r : sysrec) : option input :=
  match r with
  | SysRec c x =>
     match c in sys A return A → option input with
     | SysAccept _ => λ fd, Some (IConnect fd)
     | SysRead fd n => λ x,
        match x with
        | inl (b :: bs) => if n =? READ_ONCE then Some (IChunk fd (b :: bs)) else None
        | _ => None
        end
     | _ => λ _, None
     end x
  end.
Definition inputs (t : list sysrec) : list input := omap input_of t.
Arguments inputs : simpl never.

Lemma inputs_snoc t r :
  inputs (t ++ [r]) = inputs t ++ match input_of r with Some i => [i] | None => [] end.
Proof. unfold inputs. rewrite omap_app. cbn. by destruct (input_of r). Qed.

Lemma inputs_quiet t r : input_of r = None → inputs (t ++ [r]) = inputs t.
Proof. intros Hr. by rewrite inputs_snoc, Hr, app_nil_r. Qed.

(** ** Ownership of allocations *)

Definition proc_own (p : t_proc) : list positive :=
  [proc_addr p; s_addr (proc_task_id p); s_addr (proc_outfile p)].

Definition owns (a : astate) (ex : list positive) : list positive :=
  (map_to_list (ac_addr <$> a_clients a)).*2 ++
  ((map_to_list (a_procs a)).*2 ≫= proc_own) ++ (a_queue a ≫= req_addrs) ++ ex.

(** The addresses are distinct and live. *)
Definition owned (live : gset positive) (l : list positive) : Prop :=
  NoDup l ∧ ∀ x, x ∈ l → x ∈ live.

Lemma owned_part live l k : l ⊆+ k → owned live k → owned live l.
Proof.
  intros Hs [Hnd Hl]. split; [by eapply NoDup_part|]. intros x Hx.
  apply Hl. by eapply elem_of_submseteq.
Qed.

#[export] Instance owned_proper live : Proper ((≡ₚ) ==> iff) (owned live).
Proof. intros l k Hp. split; apply owned_part; by rewrite Hp. Qed.

Lemma owned_malloc x live l : x ∉ live → owned live l → owned ({[x]} ∪ live) (x :: l).
Proof.
  intros Hx [Hnd Hl]. split; [|set_solver]. apply NoDup_cons. split; [|done].
  intros Hin%Hl. done.
Qed.

Lemma owned_free xs live l : owned live (xs ++ l) → owned (live ∖ list_to_set xs) l.
Proof.
  intros [Hnd Hl]. apply NoDup_app in Hnd as (H1 & H2 & H3). split; [done|].
  intros x Hx. apply elem_of_difference. split; [set_solver|].
  rewrite elem_of_list_to_set. intros Hxs. by apply (H2 x Hxs).
Qed.

Lemma owns_ex a ex : owns a ex ≡ₚ ex ++ owns a [].
Proof. unfold owns. rewrite app_nil_r. solve_Permutation. Qed.

Lemma owns_start a p ex :
  a_procs a !! proc_id p = None →
  owns (a_set_procs (<[proc_id p := p]> (a_procs a)) a) ex ≡ₚ proc_own p ++ owns a ex.
Proof.
  intros Hn. unfold owns. cbn [a_clients a_procs a_queue a_set_procs].
  rewrite map_to_list_insert by done. cbn. solve_Permutation.
Qed.

Lemma owns_reap a pid p ex :
  a_procs a !! pid = Some p →
  owns a ex ≡ₚ proc_own p ++ owns (a_set_procs (delete pid (a_procs a)) a) ex.
Proof.
  intros Hp. unfold owns. cbn [a_clients a_procs a_queue a_set_procs].
  rewrite <- (map_to_list_delete _ _ _ Hp). cbn. solve_Permutation.
Qed.

Lemma owns_accept a fd c ex :
  a_clients a !! fd = None →
  owns (a_set_clients (<[fd := c]> (a_clients a)) a) ex ≡ₚ ac_addr c :: owns a ex.
Proof.
  intros Hn. unfold owns. cbn [a_clients a_procs a_queue a_set_clients].
  rewrite fmap_insert, map_to_list_insert by (by rewrite lookup_fmap, Hn). done.
Qed.

Lemma owns_close a fd c ex :
  a_clients a !! fd = Some c →
  owns a ex ≡ₚ ac_addr c :: owns (a_set_clients (delete fd (a_clients a)) a) ex.
Proof.
  intros Hc. unfold owns. cbn [a_clients a_procs a_queue a_set_clients].
  rewrite fmap_delete.
  rewrite <- (map_to_list_delete (ac_addr <$> a_clients a) fd (ac_addr c))
    by (by rewrite lookup_fmap, Hc). done.
Qed.

Lemma owns_client_update a fd c c' ex :
  a_clients a !! fd = Some c → ac_addr c' = ac_addr c →
  owns (a_set_clients (<[fd := c']> (a_clients a)) a) ex = owns a ex.
Proof.
  intros Hc Ha. unfold owns. cbn [a_clients a_procs a_queue a_set_clients].
  rewrite fmap_insert, insert_id; [done|]. by rewrite lookup_fmap, Hc, Ha.
Qed.

Lemma owns_send a fd msg ex : owns (a_send fd msg a) ex = owns a ex.
Proof.
  unfold a_send. destruct (a_clients a !! fd) eqn:E; [|done]. by eapply owns_client_update.
Qed.

Lemma owns_push a r ex : owns (a_set_queue (a_queue a ++ [r]) a) ex ≡ₚ owns a (req_addrs r ++ ex).
Proof.
  unfold owns. cbn [a_clients a_procs a_queue a_set_queue]. rewrite bind_app. cbn.
  rewrite app_nil_r. solve_Permutation.
Qed.

Lemma owns_pop a r q ex :
  a_queue a = r :: q → owns a ex ≡ₚ owns (a_set_queue q a) (req_addrs r ++ ex).
Proof.
  intros Hq. unfold owns. cbn [a_clients a_procs a_queue a_set_queue]. rewrite Hq. cbn.
  solve_Permutation.
Qed.

Lemma owns_filter a P `{∀ r, Decision (P r)} ex :
  owns (a_set_queue (filter P (a_queue a)) a) ex ⊆+ owns a ex.
Proof.
  unfold owns. cbn [a_clients a_procs a_queue a_set_queue].
  apply submseteq_app; [done|]. apply submseteq_app; [done|]. apply submseteq_app; [|done].
  induction (a_queue a) as [|r q IH]; [done|]. rewrite filter_cons. case_decide; rewrite ?bind_cons.
  - by apply submseteq_app.
  - etransitivity; [exact IH|]. by apply submseteq_inserts_l.
Qed.

Lemma owns_sub a ex ex' : ex' ⊆+ ex → owns a ex' ⊆+ owns a ex.
Proof. intros Hs. unfold owns. by repeat apply submseteq_app. Qed.

(** Distinct clients have distinct addresses. *)
Lemma owned_addr_inj live a ex fd fd' c c' :
  owned live (owns a ex) →
  a_clients a !! fd = Some c → a_clients a !! fd' = Some c' → ac_addr c = ac_addr c' → fd = fd'.
Proof.
  intros [Hnd _] Hc Hc' Heq. destruct (decide (fd = fd')) as [|Hne]; [done|]. exfalso.
  rewrite (owns_close a fd c ex Hc) in Hnd. apply NoDup_cons in Hnd as [Hin _]. apply Hin.
  rewrite (owns_close _ fd' c'); [rewrite Heq; constructor|].
  cbn. by rewrite lookup_delete_ne.
Qed.

Lemma owned_client live a ex fd c :
  owned live (owns a ex) → a_clients a !! fd = Some c → ac_addr c ∈ live.
Proof. intros [_ Hl] Hc. apply Hl. rewrite (owns_close a fd c ex Hc). constructor. Qed.
