(* ===== verification/ServerInv.v ===== *)
(** * The invariant of the Unix server

    [inv a pl ex s]: the C state [s] represents the abstract state [a], its poll
    list is [pl], and besides what [a] owns the addresses [ex] are owned by the
    code that is running.  The invariant says, among others, that the poll list
    watches exactly the listening socket, the self pipe and the clients, that
    POLLOUT is requested for exactly the clients with bytes to send, that the
    process list is the set of children, and that every allocation has one owner. *)

From S2P Require Import Prelude Queue ArrayList CString ReadBuf WriteBuf State Options Request UnixOS.
From S2P Require Import ServerUnix ServerPoll ServerAbs.
From Stdlib Require Import Ascii.

(** The regular endings: a call of [exit], an allocation that is refused, and
    a system call that is interrupted again and again. *)
Definition allowed (e : cerror) : Prop := is_exit e ∨ e = OutOfMemory ∨ e = StillInterrupted.

Lemma allowed_exit code msg : allowed (Exited code msg).
Proof. left. unfold is_exit. eauto. Qed.
Lemma allowed_oom : allowed OutOfMemory.
Proof. by right; left. Qed.
Lemma allowed_eintr : allowed StillInterrupted.
Proof. by right; right. Qed.
#[export] Hint Resolve allowed_exit allowed_oom allowed_eintr : wp.

(** ** Endings

    The world in which the program is started, and those it may get to. *)
Class Start (W : Type) := boot : W.

Section endings.
Context {W : Type} `{UnixOSLaws W} `{!Start W}.

Definition os_step (w w' : W) : Prop := ∃ A (c : sys A) r, os c w = (r, w').
Definition reached (w : W) : Prop := rtc os_step boot w.

(** After some calls, the call [c] is answered by [r]. *)
Definition answered {A} (c : sys A) (r : A) : Prop :=
  ∃ w w', reached w ∧ os c w = (r, w').

(** The events the server is not prepared for: the current directory cannot be
    determined, a [write] fails, [poll] reports something else than POLLIN for a
    listening socket, and a client sends, in one chunk, more bytes after the last
    newline than up to it. *)
Definition no_directory : Prop := answered SysGetcwd None.
Definition failed_write : Prop := ∃ fd bs errno, answered (SysWrite fd bs) (inr errno).
Definition odd_listener : Prop :=
  ∃ l revents i e v w w', reached w ∧ os (SysPoll l) w = (inl revents, w') ∧
    l !! i = Some e ∧ revents !! i = Some v ∧ pf_fd e ∈ v_listeners (view w) ∧
    v ≠ 0 ∧ v ≠ POLLIN.
Definition long_tail : Prop :=
  ∃ fd line rest, answered (SysRead fd READ_ONCE) (inl (line ++ LF :: rest)) ∧
    (LF ∉ rest) ∧ (length line + 1 < length rest)%nat.

(** The endings the server may have, and what the system must be able to answer
    for the irregular ones: the null pointer of [getcwd] is passed to [strlen], the
    assertion of [prepare_write] or that of the event loop fails, and [have_taken]
    calls [memcpy] on overlapping regions. *)
Definition ending (e : cerror) : Prop :=
  allowed e ∨
  (e = NullDeref ∧ no_directory) ∨
  (e = AssertFailed ∧ (failed_write ∨ odd_listener)) ∨
  (e = OverlappingCopy ∧ long_tail).

Lemma ending_allowed e : allowed e → ending e.
Proof. by left. Qed.
Lemma ending_exit code msg : ending (Exited code msg).
Proof. apply ending_allowed, allowed_exit. Qed.
Lemma ending_oom : ending OutOfMemory.
Proof. apply ending_allowed, allowed_oom. Qed.
Lemma ending_eintr : ending StillInterrupted.
Proof. apply ending_allowed, allowed_eintr. Qed.
Lemma ending_null : no_directory → ending NullDeref.
Proof. intros. right; left. done. Qed.
Lemma ending_assert : failed_write ∨ odd_listener → ending AssertFailed.
Proof. intros. right; right; left. done. Qed.
Lemma ending_overlap : long_tail → ending OverlappingCopy.
Proof. intros. right; right; right. done. Qed.

Lemma os_step_call {A} (c : sys A) w r w' : os c w = (r, w') → os_step w w'.
Proof. intros Hos. by exists A, c, r. Qed.

Lemma reached_step w w' : reached w → os_step w w' → reached w'.
Proof. intros Hr Hs. by eapply rtc_r. Qed.

Lemma reached_steps w w' : reached w → rtc os_step w w' → reached w'.
Proof. unfold reached. intros. by trans w. Qed.

Lemma answered_call {A} (c : sys A) w r w' : reached w → os c w = (r, w') → answered c r.
Proof. intros. by exists w, w'. Qed.
End endings.
#[export] Hint Resolve ending_exit ending_oom ending_eintr : wp.

(** A terminated string of the size a message can hold. *)
Definition str_ok (x : cstring) : Prop :=
  NUL ∈ s_txt x ∧ Z.of_nat (length (s_txt x)) ≤ 1073741824.

Definition req_ok (r : request) : Prop :=
  req_wf r ∧ req_type r = REQ_RUN ∧ str_ok (req_id r).

Definition proc_ok (pid : Z) (p : t_proc) : Prop :=
  proc_id p = pid ∧ str_ok (proc_task_id p) ∧
  NUL ∈ s_txt (proc_outfile p) ∧ Z.of_nat (length (s_txt (proc_outfile p))) ≤ 2097152.

Section inv.
Context `{Libc} {W : Type} `{UnixOSLaws W}.
Implicit Types (a : astate) (ex : list positive) (c : core).

(** ** The shared part *)

Record core_inv a ex c : Prop := {
  ci_fresh : core_fresh c;
  ci_owned : owned (c_live c) (owns a ex);
  ci_par : 1 ≤ c_parallel c ≤ INT_MAX;
  ci_parallel : c_parallel c = a_parallel a;
  ci_name : is_Some (c_socketname c);
  ci_queue : queue_rep (c_queue c) (a_queue a);
  ci_reqs : Forall req_ok (a_queue a)
}.

Lemma core_inv_part a ex ex' c : ex' ⊆+ ex → core_inv a ex c → core_inv a ex' c.
Proof.
  intros Hs []. split; try done. eapply owned_part; [|done]. by apply owns_sub.
Qed.

(** Only what the core owns and reads of the abstract state matters. *)
Lemma core_inv_ext a a' ex ex' c :
  owns a' ex' ⊆+ owns a ex → a_queue a' = a_queue a → a_parallel a' = a_parallel a →
  core_inv a ex c → core_inv a' ex' c.
Proof.
  intros Ho Hq Hp []. split; rewrite ?Hq, ?Hp; try done. by eapply owned_part.
Qed.

Lemma core_inv_perm a ex ex' c : ex' ≡ₚ ex → core_inv a ex c → core_inv a ex' c.
Proof. intros Hp. apply core_inv_part. by rewrite Hp. Qed.

Lemma core_inv_live a ex c x : core_inv a ex c → x ∈ ex → x ∈ c_live c.
Proof. intros [_ [_ Hl] _ _ _ _ _] Hx. apply Hl. rewrite owns_ex. set_solver. Qed.

Lemma wp_malloc_inv a ex c Q E :
  core_inv a ex c → (∀ x c', core_inv a (x :: ex) c' → Q x c') → wp malloc Q E c.
Proof.
  intros [] HQ. apply wp_malloc; [done|]. intros Hn Hf'. apply HQ. split; try done.
  cbn. rewrite owns_ex. cbn. apply owned_malloc; [done|]. by rewrite <- owns_ex.
Qed.

Lemma core_inv_free a xs ex c :
  core_inv a (xs ++ ex) c →
  core_inv a ex (set_live (c_next c) (c_live c ∖ list_to_set xs) c).
Proof.
  intros []. split; try done.
  - intros x. cbn. intros [Hx _]%elem_of_difference. by apply ci_fresh0.
  - cbn. apply owned_free. eapply owned_part; [|done].
    rewrite !(owns_ex a ex), (owns_ex a (xs ++ ex)). by rewrite app_assoc.
Qed.

Lemma wp_free_inv x a ex c Q E :
  core_inv a (x :: ex) c → (∀ c', core_inv a ex c' → Q tt c') → wp (free x) Q E c.
Proof.
  intros Hc HQ. apply wp_free; [eapply core_inv_live; [done|set_solver]|]. apply HQ.
  pose proof (core_inv_free a [x] ex c Hc) as Hc'. cbn in Hc'.
  by rewrite union_empty_r_L in Hc'.
Qed.

Lemma wp_free_request_inv r a ex c Q E :
  core_inv a (freed_addrs r ++ ex) c → req_wf r →
  (∀ c', core_inv a ex c' → Q tt c') → wp (free_request (Some r)) Q E c.
Proof.
  intros Hc Hwf HQ. apply wp_free_request; [done| | |].
  - destruct Hc as [_ Ho _ _ _ _ _]. eapply owned_part with (l := freed_addrs r) in Ho;
      [by destruct Ho|]. rewrite owns_ex. solve_submseteq.
  - intros x Hx. eapply core_inv_live; [done|set_solver].
  - apply HQ. by apply core_inv_free.
Qed.

Lemma wp_pop_request_inv r q a ex c Q E :
  core_inv a ex c → a_queue a = r :: q →
  (∀ c', core_inv (a_set_queue q a) (req_addrs r ++ ex) c' → req_ok r → Q r c') →
  wp pop_request Q E c.
Proof.
  intros [] Hq HQ. unfold pop_request. wp_go. rewrite Hq in ci_queue0.
  destruct (queue_pop_rep _ _ _ ci_queue0) as (q1 & Epop & Hq1 & _).
  eapply wp_lift_ok; [done|]. wp_go. rewrite Hq in ci_reqs0.
  apply Forall_cons in ci_reqs0 as [Hr Hrs]. apply HQ; [|done]. split; try done.
  cbn. eapply owned_part; [|done]. by rewrite (owns_pop a r q ex Hq).
Qed.

Lemma wp_push_request_inv r a ex c Q (E : cerror → Prop) :
  core_inv a (req_addrs r ++ ex) c → req_ok r → E OutOfMemory →
  (∀ c', core_inv (a_set_queue (a_queue a ++ [r]) a) ex c' → Q tt c') →
  wp (push_request r) Q E c.
Proof.
  intros [] Hr HE HQ. unfold push_request. wp_go. eapply wp_queue_push; [done|by left|].
  intros q1 Hq1. wp_go. apply HQ. split; try done.
  - cbn. eapply owned_part; [|done]. by rewrite owns_push.
  - cbn. apply Forall_app. by split; [|constructor].
Qed.

Lemma wp_remove_from_queue_inv id a ex c Q (E : cerror → Prop) :
  core_inv a ex c → s_addr id ∈ ex → NUL ∈ s_txt id → E OutOfMemory →
  (∀ c', core_inv (a_set_queue (filter (λ r, ¬ same_id id r) (a_queue a)) a) ex c' → Q tt c') →
  wp (remove_from_queue id) Q E c.
Proof.
  intros Hc Hid Hnul HE HQ. pose proof (core_inv_live _ _ _ _ Hc Hid) as Hidl.
  destruct Hc. eapply wp_remove_from_queue; [done|done| |by left|].
  - apply Forall_forall. intros r Hr. split.
    + destruct ci_owned0 as [_ Hl]. apply Hl. unfold owns.
      rewrite !elem_of_app, !list_elem_of_bind. right; right; left. exists r.
      split; [|done]. unfold req_addrs. set_solver.
    + rewrite Forall_forall in ci_reqs0. by destruct (ci_reqs0 r Hr) as (_ & _ & ? & _).
  - intros q Hq. apply HQ. split; try done.
    + cbn. eapply owned_part; [|done]. apply owns_filter.
    + cbn. rewrite Forall_forall in *. intros r [_ Hr]%list_elem_of_filter. by apply ci_reqs0.
Qed.

Lemma core_inv_logged a ex line c : core_inv a ex c → core_inv a ex (logged line c).
Proof. intros []. unfold logged. by destruct (c_logging c). Qed.

Lemma wp_log_msg_inv line a ex c Q E :
  core_inv a ex c → (∀ c', core_inv a ex c' → Q tt c') → wp (log_msg line) Q E c.
Proof. intros Hc HQ. apply wp_log_msg. apply HQ. by apply core_inv_logged. Qed.

Lemma core_inv_grown a ex own c c' :
  core_inv a ex c → grown c own c' → core_inv a (own ++ ex) c'.
Proof.
  intros [] (Hf & Hnd & Hd & Hs). rewrite Hs. split; try done; [by rewrite Hs in Hf|].
  cbn. destruct ci_owned0 as [Hnd0 Hl0].
  eapply owned_part with (k := own ++ owns a ex).
  { rewrite (owns_ex a (own ++ ex)), (owns_ex a ex). by rewrite app_assoc. }
  split; [|set_solver]. apply NoDup_app. split; [done|]. split; [|done].
  intros x Hx Hx2. by apply (Hd x Hx), Hl0.
Qed.

(** ** Parsing *)

(** What a line does to the abstract state before its request is handled, and
    the request. *)
Definition line_parsed (key : Z) (line : list ascii) (r : option request) a a' : Prop :=
  match spec_parse line with
  | PNone => r = None ∧ a' = a
  | PParallel n => r = None ∧ a' = if 1 <=? n then a_set_parallel n a else a
  | PInterrupt id => ∃ q, r = Some q ∧ a' = a ∧ req_type q = REQ_INTERRUPT ∧ req_wf q ∧
      request_matches key (PInterrupt id) q ∧ str_ok (req_id q)
  | PRun u id t m cmd args => ∃ q, r = Some q ∧ a' = a ∧ req_ok q ∧
      request_matches key (PRun u id t m cmd args) q
  end.

Lemma field_num_range f : INT_MIN ≤ field_num f ≤ INT_MAX.
Proof.
  unfold field_num. by destruct (atoi_ok (f ++ [NUL]) (nul_in_field f)) as (v & -> & ?).
Qed.

Lemma fields_elem_length s f : f ∈ fields s → (length f ≤ length s)%nat.
Proof.
  revert f. induction s as [|ch s IH]; intros f; cbn; [intros ->%list_elem_of_singleton; done|].
  case_decide.
  - rewrite elem_of_cons. intros [->|Hf]; [cbn; lia|]. specialize (IH f Hf). lia.
  - destruct (fields s) as [|g gs] eqn:E; [set_solver|]. rewrite elem_of_cons.
    intros [->|Hf]; cbn.
    + specialize (IH g). cbn in IH. rewrite elem_of_cons in IH. specialize (IH (or_introl eq_refl)). lia.
    + specialize (IH f). rewrite elem_of_cons in IH. specialize (IH (or_intror Hf)). lia.
Qed.

Lemma parsed_id_length s p :
  spec_parse s = p →
  match p with
  | PInterrupt id | PRun _ id _ _ _ _ => (length id ≤ length s)%nat
  | PParallel n => INT_MIN ≤ n ≤ INT_MAX
  | PNone => True
  end.
Proof.
  intros <-. unfold spec_parse. pose proof (fields_elem_length s) as Hf.
  destruct (fields s) as [|f [|f2 [|f3 [|f4 [|f5 fs]]]]]; try done;
    repeat case_match; simplify_eq; try done; try apply field_num_range; apply Hf; set_solver.
Qed.

Lemma parse_post_inv key line a ex c r c' :
  core_inv a ex c → Z.of_nat (length line) < 1073741824 → parse_post key line c r c' →
  ∃ a', line_parsed key line r a a' ∧ a_clients a' = a_clients a ∧ a_procs a' = a_procs a ∧
    core_inv a' (match r with Some q => req_addrs q | None => [] end ++ ex) c'.
Proof.
  intros Hc Hlen Hp. unfold parse_post in Hp. unfold line_parsed.
  set (st1 := logged _ c) in Hp.
  assert (core_inv a ex st1) as Hc1 by (by apply core_inv_logged).
  pose proof (parsed_id_length line _ eq_refl) as Hid.
  destruct (spec_parse line) as [|n|id|u id t m cmd args].
  - destruct Hp as [-> Hg]. exists a. split_and!; try done. by eapply core_inv_grown.
  - destruct Hp as [-> Hg]. eexists. split; [done|]. unfold after_parallel in Hg.
    destruct (Z.leb_spec 1 n) as [Hn|Hn]; split_and!; try done;
      (eapply core_inv_grown; [|done]); [|done]. destruct Hc1. split; try done. cbn. lia.
  - destruct Hp as (q & -> & (Hk & Ht & Htxt & Hrun) & Hg). exists a. split_and!; try done.
    + exists q. do 3 (split; [done|]). split; [unfold req_wf; by rewrite Ht|].
      split; [done|]. split; rewrite Htxt; [apply nul_in_field|]. rewrite length_app. cbn. lia.
    + by eapply core_inv_grown.
  - destruct Hp as (q & -> & Hm & Hg). exists a. split_and!; try done.
    + exists q. do 2 (split; [done|]). split; [|done]. destruct Hm as (Hk & Ht & Htxt & f & Hf & _ & _ & _ & _ & Hna & Hargs).
      split; [|split; [done|split]].
      * unfold req_wf. rewrite Ht, Hf, Hna. f_equal.
        apply (f_equal length) in Hargs. by rewrite !length_fmap in Hargs.
      * rewrite Htxt. apply nul_in_field.
      * rewrite Htxt, length_app. cbn. lia.
    + by eapply core_inv_grown.
Qed.
End inv.
