(* ===== verification/ServerNet.v ===== *)
(** * The invariant of the Unix server, network part

    Clients, their buffers, the poll list, the process list and the view of the
    operating system; what writing to a client, accepting and closing do to the
    abstract state. *)

From S2P Require Import Prelude Queue ArrayList CString ReadBuf WriteBuf State Options Request UnixOS.
From S2P Require Import ServerUnix ServerPoll ServerAbs ServerInv.
From Stdlib Require Import Ascii.

(** The events requested for a descriptor: POLLOUT while there are bytes to send. *)
Definition POLLINOUT : Z := Z.lor POLLIN POLLOUT.
Definition wanted (m : gmap Z aclient) (fd : Z) : Z :=
  match m !! fd with
  | Some c => if decide (ac_out c = []) then POLLIN else POLLINOUT
  | None => POLLIN
  end.

(** How the poll list may change while an event is handled: an entry is removed,
    or stays for the same descriptor, still requesting POLLOUT if it did. *)
Definition poll_le (pl pl' : list pollfd) : Prop :=
  ∀ j e', pl' !! j = Some e' →
    ∃ e, pl !! j = Some e ∧
      ((pf_fd e' = -1 ∧ pf_revents e' = 0) ∨
       (pf_fd e = pf_fd e' ∧ pf_revents e = pf_revents e' ∧
        (pf_events e = POLLINOUT → pf_events e' = POLLINOUT))).

Lemma poll_le_refl pl : poll_le pl pl.
Proof. intros j e' He. eauto 6. Qed.

Lemma poll_le_trans pl1 pl2 pl3 : poll_le pl1 pl2 → poll_le pl2 pl3 → poll_le pl1 pl3.
Proof.
  intros H1 H2 j e3 H3. destruct (H2 j e3 H3) as (e2 & Hj & Hc2).
  destruct (H1 j e2 Hj) as (e1 & Hj1 & Hc1). exists e1. split; [done|].
  destruct Hc2 as [?|(Hfd & Hrev & Hev)]; [by left|].
  rewrite <- Hfd, <- Hrev. destruct Hc1 as [?|(? & ? & ?)]; [by left|]. right. tauto.
Qed.
#[export] Hint Resolve poll_le_refl : core.

Section net.
Context `{Libc} {W : Type} `{UnixOSLaws W} `{!Start W}.
Implicit Types (a : astate) (ex : list positive) (s : ustate W) (pl : list pollfd).

(** The client struct represents the abstract client.  The write buffer is left
    in the state between [prepare_write] and [have_written] by a [write] that
    failed. *)
Definition client_rep (cl : t_client) (fd : Z) (c : aclient) : Prop :=
  cl_fd cl = fd ∧ rb_rep (cl_readbuf cl) (ac_in c) ∧
  ∃ busy msgs ptr, wb_rep (cl_writebuf cl) busy msgs ptr ∧ pending msgs ptr = ac_out c ∧
    (busy = true → failed_write).

(** What [getcwd] answered. *)
Definition dir_ok (dir : option cbuf) : Prop :=
  match dir with
  | Some d => NUL ∈ d ∧ Z.of_nat (length d) ≤ 1048576
  | None => no_directory
  end.

Record net_inv a pl s : Prop := {
  ni_clients : ∃ l, u_clients s = Some l ∧ list_models l (ac_addr <$> a_clients a);
  ni_heap : ∀ fd c, a_clients a !! fd = Some c →
    ∃ cl, u_heap s !! ac_addr c = Some cl ∧ client_rep cl fd c;
  ni_procs : list_models (u_processes s) (a_procs a);
  ni_procok : map_Forall proc_ok (a_procs a);
  ni_poll : poll_rep (u_poll_list s) (u_poll_num s) (u_poll_len s) pl;
  ni_nodup : NoDup (watched pl);
  ni_watched : ∀ fd, fd ∈ watched pl ↔
    fd = u_server_sock s ∨ fd = (u_cpipe s).1 ∨ fd ∈ dom (a_clients a);
  ni_events : ∀ e, e ∈ pl → pf_fd e ≠ -1 → pf_events e = wanted (a_clients a) (pf_fd e);
  ni_dir : dir_ok (u_current_dir s);
  ni_reached : reached (u_world s);
  ni_children : v_children (view (u_world s)) = dom (a_procs a);
  ni_fds : ∀ fd, fd ∈ watched pl → fd ∈ v_fds (view (u_world s));
  ni_listen : u_server_sock s ∈ v_listeners (view (u_world s));
  ni_sock : u_server_sock s ∉ dom (a_clients a);
  ni_pipe : (u_cpipe s).1 ∉ dom (a_clients a);
  ni_distinct : u_server_sock s ≠ (u_cpipe s).1
}.

Definition inv a pl ex s : Prop := core_inv a ex (u_core s) ∧ net_inv a pl s.

Lemma set_core_id s : set_core (u_core s) s = s.
Proof. by destruct s. Qed.

(** ** The shared part and the network part are independent *)

Lemma inv_set_core a a' pl ex s c' :
  net_inv a pl s → a_clients a' = a_clients a → a_procs a' = a_procs a →
  core_inv a' ex c' → inv a' pl ex (set_core c' s).
Proof.
  intros [] Hc Hp Hcore. split; [done|]. split; cbn; rewrite ?Hc, ?Hp; done.
Qed.

Lemma inv_set_core_same a pl ex ex' s c' :
  inv a pl ex s → core_inv a ex' c' → inv a pl ex' (set_core c' s).
Proof. intros [_ Hn] Hc. by eapply inv_set_core. Qed.

(** ** System calls *)

Lemma wp_syscall {A} (c : sys A) Q E s :
  (∀ r w', os c (u_world s) = (r, w') →
     Q r (set_world w' (u_trace s ++ [SysRec c r]) s)) →
  wp (syscall c) Q E s.
Proof.
  intros HQ. unfold wp, syscall. destruct (os c (u_world s)) as [r w'] eqn:E0. by apply HQ.
Qed.

Lemma inv_world a pl ex s w' t :
  inv a pl ex s → view w' = view (u_world s) → rtc os_step (u_world s) w' →
  inv a pl ex (set_world w' t s).
Proof.
  intros [Hc []] Hv Hs. split; [done|]. split; cbn; rewrite ?Hv; try done.
  by eapply reached_steps.
Qed.

Lemma wp_syscall_neutral {A} (c : sys A) a pl ex Q E s :
  inv a pl ex s → neutral c = true →
  (∀ r w', inv a pl ex (set_world w' (u_trace s ++ [SysRec c r]) s) →
     os c (u_world s) = (r, w') → Q r (set_world w' (u_trace s ++ [SysRec c r]) s)) →
  wp (syscall c) Q E s.
Proof.
  intros Hi Hn HQ. apply wp_syscall. intros r w' Hr. apply HQ; [|done].
  apply inv_world; [done|by eapply os_neutral|]. by eapply rtc_once, os_step_call.
Qed.

(** ** Shutting down *)

(** Enough to run [shutdown_with_msg]. *)
Definition can_shutdown s : Prop :=
  match u_clients s with
  | None => True
  | Some l => ∃ kvs, list_rep l kvs ∧ Forall (λ kx, is_Some (u_heap s !! kx.2)) kvs
  end.

Lemma wp_close_clients l kvs n : ∀ i s Q E,
  list_rep l kvs → Forall (λ kx, is_Some (u_heap s !! kx.2)) kvs → (i + n ≤ length kvs)%nat →
  (∀ s', Q tt s') → wp (close_clients n l (Z.of_nat i)) Q E s.
Proof.
  induction n as [|n IH]; intros i s Q E Hr Hf Hn HQ; cbn [close_clients]; [by wp_go|]. wp_go.
  destruct (lookup_lt_is_Some_2 kvs i) as [[k x] Hi]; [lia|].
  destruct (lr_elems _ _ Hr i k x Hi) as [_ Hx].
  eapply wp_lift_ok; [apply arr_get_ok; [lia|by rewrite Nat2Z.id]|]. wp_go.
  destruct (Forall_lookup_1 _ _ _ _ Hf Hi) as [cl Hcl]. cbn in Hcl.
  eapply wp_Ok; [unfold client_at; by rewrite Hcl|]. wp_go.
  apply wp_syscall. intros r w' _. wp_go.
  replace (Z.of_nat i + 1) with (Z.of_nat (S i)) by lia. apply IH; [done|done|lia|done].
Qed.

Lemma wp_shutdown {A} s msg (Q : A → ustate W → Prop) :
  can_shutdown s → wp (shutdown_with_msg msg) Q ending s.
Proof.
  intros Hc. unfold shutdown_with_msg. wp_go.
  assert (∀ s', can_shutdown s' → wp (clients ← gets u_clients;
    _ ← (match clients with
         | Some l => close_clients (Z.to_nat (list_length l)) l 0
         | None => mret tt
         end);
    on_core (logging_shutdown msg)) Q ending s') as Hrest.
  { intros s' Hc'. wp_go.
    assert (∀ s'', wp (on_core (logging_shutdown msg)) Q ending s'') as Hend.
    { intros s''. unfold on_core, logging_shutdown. wp_go. apply wp_log_msg.
      apply wp_raise, ending_exit. }
    unfold can_shutdown in Hc'. destruct (u_clients s') as [l|]; [|wp_go; apply Hend].
    destruct Hc' as (kvs & Hr & Hf).
    eapply (wp_close_clients l kvs _ 0); [done|done| |done].
    unfold list_length. rewrite (lr_len _ _ Hr). lia. }
  destruct (negb _); [|apply wp_ret; by apply Hrest].
  apply wp_bind, wp_syscall. intros r w' _. apply wp_ret. by apply Hrest.
Qed.

Lemma inv_can_shutdown a pl ex s : inv a pl ex s → can_shutdown s.
Proof.
  intros [_ []]. unfold can_shutdown. destruct ni_clients0 as (l & -> & kvs & Hr & Hnd & Hm).
  exists kvs. split; [done|]. apply Forall_forall. intros [fd x] Hin. cbn.
  assert ((ac_addr <$> a_clients a) !! fd = Some x) as Hx.
  { rewrite <- Hm. by apply elem_of_list_to_map. }
  rewrite lookup_fmap in Hx. apply fmap_Some in Hx as (c & Hc & ->).
  destruct (ni_heap0 fd c Hc) as (cl & -> & _). eauto.
Qed.

Lemma wp_shutdown_inv {A} a pl ex s msg (Q : A → ustate W → Prop) :
  inv a pl ex s → wp (shutdown_with_msg msg) Q ending s.
Proof. intros. by apply wp_shutdown, inv_can_shutdown with a pl ex. Qed.

(** ** Clients *)

Lemma inv_lookup_client a pl ex s fd :
  inv a pl ex s →
  wp get_clients (λ l s', s' = s ∧ list_lookup l fd = Ok (ac_addr <$> a_clients a !! fd))
    (λ _, False) s.
Proof.
  intros [_ []]. destruct ni_clients0 as (l & Hl & Hm). unfold wp, get_clients. rewrite Hl.
  split; [done|]. by rewrite (list_models_lookup _ _ fd Hm), lookup_fmap.
Qed.

(** [list_lookup(clients, fd)] *)
Lemma wp_lookup_client {B} a pl ex s fd (f : option positive → M (ustate W) B) Q E :
  inv a pl ex s →
  wp (f (ac_addr <$> a_clients a !! fd)) Q E s →
  wp (l ← get_clients; x ← lift (list_lookup l fd); f x) Q E s.
Proof.
  intros Hi Hf. apply wp_bind. eapply wp_mono; [by apply (inv_lookup_client a pl ex s fd)| |done].
  intros l s' [-> Hl]. wp_go. by eapply wp_lift_ok.
Qed.

Lemma inv_client a pl ex s fd c :
  inv a pl ex s → a_clients a !! fd = Some c →
  ∃ cl, client_at (ac_addr c) s = Ok (cl, s) ∧ u_heap s !! ac_addr c = Some cl ∧ client_rep cl fd c.
Proof.
  intros [_ []] Hc. destruct (ni_heap0 fd c Hc) as (cl & Hh & Hr). exists cl.
  unfold client_at. by rewrite Hh.
Qed.

(** The descriptor of a client is watched, and is neither special nor negative. *)
Lemma inv_client_fd a pl ex s fd c :
  inv a pl ex s → a_clients a !! fd = Some c →
  fd ∈ watched pl ∧ 0 ≤ fd ∧ fd ≠ u_server_sock s ∧ fd ≠ (u_cpipe s).1.
Proof.
  intros [_ []] Hc. assert (fd ∈ dom (a_clients a)) as Hd by (by apply elem_of_dom_2 in Hc).
  assert (fd ∈ watched pl) as Hw by (rewrite ni_watched0; auto). split; [done|].
  split; [eapply fds_nonneg; by apply ni_fds0|]. split; intros ->; contradiction.
Qed.

(** A change of one client struct and of one poll entry. *)
Lemma inv_update_client a pl ex s fd c c' cl' pl' arr' :
  inv a pl ex s → a_clients a !! fd = Some c → ac_addr c' = ac_addr c → client_rep cl' fd c' →
  poll_rep arr' (u_poll_num s) (u_poll_len s) pl' → watched pl' = watched pl →
  (∀ e, e ∈ pl' → pf_fd e ≠ -1 →
     pf_events e = wanted (<[fd := c']> (a_clients a)) (pf_fd e)) →
  inv (a_set_clients (<[fd := c']> (a_clients a)) a) pl' ex
    (set_poll arr' (u_poll_num s) (u_poll_len s) (set_heap (<[ac_addr c := cl']> (u_heap s)) s)).
Proof.
  intros [Hcore []] Hc Ha Hr Hpr Hw He. split.
  - eapply (core_inv_ext a _ ex ex); [|done..]. by rewrite (owns_client_update _ _ c).
  - assert (dom (<[fd := c']> (a_clients a)) = dom (a_clients a)) as Hd
      by (apply dom_insert_lookup_L; eauto).
    split; cbn; rewrite ?Hd, ?Hw; try done.
    + by rewrite fmap_insert, insert_id by (by rewrite lookup_fmap, Hc, Ha).
    + intros fd' d. destruct (decide (fd = fd')) as [<-|Hne].
      * rewrite lookup_insert_eq. intros [= <-]. rewrite Ha, lookup_insert_eq. eauto.
      * rewrite lookup_insert_ne by done. intros Hd'. rewrite lookup_insert_ne; [by apply ni_heap0|].
        intros Heq. apply Hne. by eapply (owned_addr_inj _ a ex fd fd' c d (ci_owned _ _ _ Hcore)).
Qed.

Lemma wanted_insert_ne m fd fd' c : fd ≠ fd' → wanted (<[fd := c]> m) fd' = wanted m fd'.
Proof. intros. unfold wanted. by rewrite lookup_insert_ne. Qed.

Lemma wanted_insert_eq m fd c :
  wanted (<[fd := c]> m) fd = if decide (ac_out c = []) then POLLIN else POLLINOUT.
Proof. unfold wanted. by rewrite lookup_insert_eq. Qed.

(** A change of a client struct that leaves its output alone. *)
Lemma inv_update_in a pl ex s fd c i cl' :
  inv a pl ex s → a_clients a !! fd = Some c → client_rep cl' fd (set_in i c) →
  inv (a_set_clients (<[fd := set_in i c]> (a_clients a)) a) pl ex
    (set_heap (<[ac_addr c := cl']> (u_heap s)) s).
Proof.
  intros Hi Hc Hr.
  assert (set_heap (<[ac_addr c:=cl']> (u_heap s)) s =
    set_poll (u_poll_list s) (u_poll_num s) (u_poll_len s)
      (set_heap (<[ac_addr c:=cl']> (u_heap s)) s)) as -> by done.
  pose proof (ni_poll _ _ _ (proj2 Hi)) as Hp. apply inv_update_client with pl; try done.
  intros e He Hne. rewrite (ni_events _ _ _ (proj2 Hi) e He Hne).
  destruct (decide (fd = pf_fd e)) as [<-|?]; [|by rewrite wanted_insert_ne].
  rewrite wanted_insert_eq. unfold wanted. by rewrite Hc.
Qed.

Lemma pending_nil b w msgs ptr : wb_rep b w msgs ptr → (pending msgs ptr = [] ↔ msgs = []).
Proof.
  intros (_ & _ & _ & Hm). destruct msgs as [|m ms]; [by unfold pending; cbn; rewrite drop_nil|].
  split; [|done]. rewrite pending_cons by lia. intros Hp.
  apply (f_equal length) in Hp. rewrite length_app, length_drop in Hp. cbn in Hp. lia.
Qed.

Lemma has_write_data_out cl fd c :
  client_rep cl fd c → has_write_data (cl_writebuf cl) = bool_decide (ac_out c ≠ []).
Proof.
  intros (_ & _ & w & msgs & ptr & Hw & Hp & _). rewrite (has_write_data_rep _ _ _ _ Hw).
  apply bool_decide_ext. rewrite <- Hp, (pending_nil _ _ _ _ Hw). done.
Qed.

Lemma wp_set_writebuf x cl b s Q E :
  u_heap s !! x = Some cl →
  Q tt (set_heap (<[x := mk_client (cl_fd cl) (cl_readbuf cl) b]> (u_heap s)) s) →
  wp (set_writebuf x b) Q E s.
Proof.
  intros Hx HQ. unfold set_writebuf. wp_go.
  eapply wp_Ok; [unfold client_at; by rewrite Hx|]. wp_go.
  eapply wp_Ok; [unfold client_set; by rewrite Hx|]. done.
Qed.

Lemma wp_set_readbuf x cl b s Q E :
  u_heap s !! x = Some cl →
  Q tt (set_heap (<[x := mk_client (cl_fd cl) b (cl_writebuf cl)]> (u_heap s)) s) →
  wp (set_readbuf x b) Q E s.
Proof.
  intros Hx HQ. unfold set_readbuf. wp_go.
  eapply wp_Ok; [unfold client_at; by rewrite Hx|]. wp_go.
  eapply wp_Ok; [unfold client_set; by rewrite Hx|]. done.
Qed.

(** ** Operations on the poll list *)

Lemma wp_poll_lookup s pl fd Q E :
  poll_rep (u_poll_list s) (u_poll_num s) (u_poll_len s) pl →
  Q (Z.of_nat <$> find_fd fd pl) s → wp (poll_list_lookup fd) Q E s.
Proof.
  intros Hr HQ. unfold poll_list_lookup. wp_go. eapply wp_lift_ok; [|exact HQ].
  rewrite (pr_num _ _ _ _ Hr), Nat2Z.id.
  pose proof (poll_lookup_loop_rep _ _ _ _ fd 0 Hr) as Hl.
  rewrite Nat.sub_0_r, drop_0 in Hl. apply Hl. lia.
Qed.

Definition on_events (f : Z → Z) (e : pollfd) : pollfd :=
  mk_pollfd (pf_fd e) (f (pf_events e)) (pf_revents e).

Lemma wp_poll_update s pl i e f Q E :
  poll_rep (u_poll_list s) (u_poll_num s) (u_poll_len s) pl → pl !! i = Some e →
  (∀ arr', poll_rep arr' (u_poll_num s) (u_poll_len s) (<[i := on_events f e]> pl) →
     Q tt (set_poll arr' (u_poll_num s) (u_poll_len s) s)) →
  wp (poll_update_events (Z.of_nat i) f) Q E s.
Proof.
  intros Hr Hi HQ. unfold poll_update_events. wp_go.
  eapply wp_lift_ok; [by eapply poll_get|]. wp_go.
  destruct (poll_set _ _ _ _ i e (on_events f e) Hr Hi) as (arr' & Es & Hr').
  eapply wp_lift_ok; [exact Es|]. wp_go. by apply HQ.
Qed.

Lemma wp_poll_remove s pl fd Q E :
  poll_rep (u_poll_list s) (u_poll_num s) (u_poll_len s) pl →
  (∀ arr', poll_rep arr' (u_poll_num s) (u_poll_len s) (remove_fd fd pl) →
     Q tt (set_poll arr' (u_poll_num s) (u_poll_len s) s)) →
  wp (poll_list_remove fd) Q E s.
Proof.
  intros Hr HQ. unfold poll_list_remove. wp_go.
  destruct (poll_remove_loop_rep _ _ _ _ fd 0 Hr) as (arr' & El & Hr'); [lia|].
  rewrite Nat.sub_0_r in El. eapply wp_lift_ok.
  { rewrite (pr_num _ _ _ _ Hr), Nat2Z.id. exact El. }
  wp_go. by apply HQ.
Qed.

Lemma wp_add_to_poll s pl fd ev Q (E : cerror → Prop) :
  poll_rep (u_poll_list s) (u_poll_num s) (u_poll_len s) pl → E OutOfMemory →
  (∀ arr' len', poll_rep arr' (u_poll_num s + 1) len' (pl ++ [mk_pollfd fd ev 0]) →
     Q tt (set_poll arr' (u_poll_num s + 1) len' s)) →
  wp (add_to_poll_list fd ev) Q E s.
Proof.
  intros Hr HE HQ. unfold add_to_poll_list. wp_go. pose proof alloc_max_range as Hmax.
  assert (∀ s', poll_rep (u_poll_list s') (u_poll_num s) (u_poll_len s') pl →
    u_poll_num s < u_poll_len s' →
    (∀ arr' len', poll_rep arr' (u_poll_num s + 1) len' (pl ++ [mk_pollfd fd ev 0]) →
      Q tt (set_poll arr' (u_poll_num s + 1) len' s')) →
    wp (l ← gets u_poll_list;
        l ← lift (arr_set l (u_poll_num s) (mk_pollfd fd ev 0));
        num' ← lift (int_of (u_poll_num s + 1));
        modify (λ s, set_poll l num' (u_poll_len s) s)) Q E s') as Hput.
  { intros s' Hr' Hlt HQ'. wp_go.
    destruct (poll_append_free _ _ _ _ (mk_pollfd fd ev 0) Hr' Hlt) as (arr' & Es & Hr2).
    eapply wp_lift_ok; [exact Es|]. wp_go. pose proof (pr_len _ _ _ _ Hr').
    pose proof (pr_num _ _ _ _ Hr').
    eapply wp_lift_ok; [apply int_of_ok; unfold INT_MIN, INT_MAX; lia|]. wp_go. by apply HQ'. }
  pose proof (pr_fit _ _ _ _ Hr). pose proof (pr_len _ _ _ _ Hr). pose proof (pr_num _ _ _ _ Hr).
  destruct (Z.eqb_spec (u_poll_num s) (u_poll_len s)).
  - wp_go. eapply wp_lift_ok; [apply int_of_ok; unfold INT_MIN, INT_MAX; lia|]. wp_go.
    eapply wp_lift_oom; [apply c_realloc_oom|done|]. intros l [Hl ->]. apply wp_modify.
    apply Hput; cbn.
    + apply poll_realloc; [done|lia].
    + lia.
    + intros arr' len' Hr'. by apply HQ.
  - apply wp_ret. apply Hput; [done|lia|done].
Qed.
End net.
