(* ===== verification/ServerHandlers.v ===== *)
(** * The handlers of the Unix server refine the abstract server

    For each function of server-unix.c that the event loop calls: from a state
    with the invariant it performs a sequence of abstract steps and
    re-establishes the invariant, or ends in one of the ways of [ending]. *)

From S2P Require Import Prelude Queue ArrayList CString ReadBuf WriteBuf State Options Request UnixOS.
From S2P Require Import ServerUnix ServerPoll ServerAbs ServerInv ServerNet.
From Stdlib Require Import Ascii.

Section handlers.
Context `{Libc} {W : Type} `{UnixOSLaws W} `{!Start W}.
Implicit Types (a : astate) (ex : list positive) (s : ustate W) (pl : list pollfd).

(** What does not change while an event is handled: no client connects and
    nothing is read from one. *)
Definition stable pl s pl' s' : Prop :=
  poll_le pl pl' ∧ length pl' = length pl ∧
  u_server_sock s' = u_server_sock s ∧ u_cpipe s' = u_cpipe s ∧
  inputs (u_trace s') = inputs (u_trace s).

Lemma stable_refl pl s : stable pl s pl s.
Proof. done. Qed.

(** A change of the world by calls that bring no input. *)
Lemma stable_same pl s s' :
  u_server_sock s' = u_server_sock s → u_cpipe s' = u_cpipe s →
  inputs (u_trace s') = inputs (u_trace s) → stable pl s pl s'.
Proof. done. Qed.

Lemma stable_trans pl1 s1 pl2 s2 pl3 s3 :
  stable pl1 s1 pl2 s2 → stable pl2 s2 pl3 s3 → stable pl1 s1 pl3 s3.
Proof.
  intros (? & ? & ? & ? & ?) (? & ? & ? & ? & ?). split; [by eapply poll_le_trans|].
  split_and!; congruence.
Qed.

(** ** Sending messages *)

(** The answers of [wait3], in a trace of system calls. *)
Definition wait_of (r : sysrec) : option (option wait_report) :=
  match r with
  | SysRec c x =>
     match c in sys A return A → option (option wait_report) with
     | SysWait3 => λ r, Some r
     | _ => λ _, None
     end x
  end.
Definition waits (t : list sysrec) : list (option wait_report) := omap wait_of t.

Lemma waits_snoc t r :
  waits (t ++ [r]) = waits t ++ match wait_of r with Some x => [x] | None => [] end.
Proof. unfold waits. rewrite omap_app. cbn. by destruct (wait_of r). Qed.

Lemma a_send_connected a fd c msg :
  a_clients a !! fd = Some c →
  a_send fd msg a = a_set_clients (<[fd := set_out (ac_out c ++ msg) c]> (a_clients a)) a.
Proof. intros Hc. unfold a_send. by rewrite Hc. Qed.

(** The entry of a client before and after POLLOUT is requested. *)
Lemma poll_want_out a pl fd i e c o :
  NoDup (watched pl) → fd ≠ -1 →
  (∀ e, e ∈ pl → pf_fd e ≠ -1 → pf_events e = wanted (a_clients a) (pf_fd e)) →
  pl !! i = Some e → pf_fd e = fd → o ≠ [] →
  let pl' := <[i := on_events (λ ev, Z.lor ev POLLOUT) e]> pl in
  (∀ e, e ∈ pl' → pf_fd e ≠ -1 →
     pf_events e = wanted (<[fd := set_out o c]> (a_clients a)) (pf_fd e)) ∧
  poll_le pl pl' ∧ watched pl' = watched pl.
Proof.
  intros Hnd Hfd He Hi Hefd Ho pl'.
  pose proof (lookup_lt_Some _ _ _ Hi) as Hlt.
  assert (Z.lor (pf_events e) POLLOUT = POLLINOUT) as Hor.
  { rewrite He by (congruence || by eapply list_elem_of_lookup_2).
    unfold wanted. by repeat case_match. }
  split_and!.
  - intros e' [j Hj]%list_elem_of_lookup_1 Hne.
    destruct (decide (i = j)) as [<-|Hij].
    + unfold pl' in Hj. rewrite list_lookup_insert_eq in Hj by done. injection Hj as <-. cbn.
      rewrite Hefd, wanted_insert_eq, Hor. cbn. by rewrite decide_False.
    + unfold pl' in Hj. rewrite list_lookup_insert_ne in Hj by done. rewrite wanted_insert_ne.
      * apply He; [by eapply list_elem_of_lookup_2|done].
      * intros Heq. apply Hij. eapply (watched_inj pl); [done..|congruence|congruence].
  - intros j e' Hj. destruct (decide (i = j)) as [<-|Hij].
    + unfold pl' in Hj. rewrite list_lookup_insert_eq in Hj by done. injection Hj as <-.
      exists e. cbn. auto.
    + unfold pl' in Hj. rewrite list_lookup_insert_ne in Hj by done. eauto 6.
  - by eapply watched_insert.
Qed.

Lemma wp_queue_write a pl ex s fd c m Q :
  inv a pl ex s → a_clients a !! fd = Some c → message_ok m →
  (∀ s' pl', inv (a_send fd (cstr m) a) pl' ex s' → stable pl s pl' s' →
     u_trace s' = u_trace s → Q tt s') →
  wp (queue_write (ac_addr c) m) Q ending s.
Proof.
  intros Hi Hc Hm HQ. unfold queue_write. wp_go.
  destruct (inv_client _ _ _ _ _ _ Hi Hc) as (cl & Hat & Hcl & Hfd & Hrb & w & msgs & ptr & Hwb & Hp & Hw0).
  eapply wp_Ok; [exact Hat|]. wp_go.
  eapply wp_lift_oom; [by apply push_write_data_rep|auto with wp|]. intros b Hb. wp_go.
  eapply wp_set_writebuf; [done|]. wp_go. rewrite Hfd.
  pose proof Hi as [_ []]. eapply wp_poll_lookup; [done|].
  destruct (inv_client_fd _ _ _ _ _ _ Hi Hc) as (Hw & Hpos & _).
  destruct (find_fd fd pl) as [i|] eqn:Ef.
  2:{ apply find_fd_None in Ef. apply elem_of_watched in Hw. tauto. }
  destruct (find_fd_Some _ _ _ Ef) as (e & He & Hefd).
  cbn. eapply wp_poll_update; [done..|]. cbn. intros arr' Harr.
  assert (ac_out c ++ cstr m ≠ []) as Hne.
  { destruct Hm as [_ Hm]. intros [_ Heq]%app_eq_nil. rewrite Heq in Hm. cbn in Hm. lia. }
  destruct (poll_want_out a pl fd i e c (ac_out c ++ cstr m)) as (Hev & Hle & Hwt); try done; [lia|].
  eapply HQ; [rewrite (a_send_connected a fd c) by done| |done].
  - eapply inv_update_client; try done. split; [done|]. split; [done|].
    exists w, (msgs ++ [m]), ptr. split; [done|]. split; [|done].
    rewrite pending_snoc by (by eapply wb_rep_ptr). cbn. by rewrite Hp.
  - split; [done|]. split; [by rewrite length_insert|done].
Qed.

Lemma str_ok_length x : str_ok x → Z.of_nat (length (cstr (s_txt x))) ≤ 1073741824.
Proof. intros [_ Hl]. pose proof (length_cstr (s_txt x)). lia. Qed.

(** The guard of [send_started_msg_to_client] is always satisfied. *)
Lemma wp_send_started a pl ex s fd c id Q :
  inv a pl ex s → a_clients a !! fd = Some c → str_ok id → s_addr id ∈ c_live (u_core s) →
  (∀ s' pl', inv (a_send fd (started_text (cstr (s_txt id))) a) pl' ex s' →
     stable pl s pl' s' → Q tt s') →
  wp (send_started_msg_to_client (ac_addr c) id) Q ending s.
Proof.
  intros Hi Hc Hid Hlive HQ. unfold send_started_msg_to_client, on_core. wp_go.
  apply wp_read_str; [done|]. wp_go.
  rewrite set_core_id.
  eapply wp_lift_ok; [apply strlen_ok; by destruct Hid|]. wp_go.
  eapply wp_syscall_neutral; [done..|]. intros ok w' Hi' _.
  wp_go. destruct ok; [wp_go|by eapply wp_shutdown_inv].
  set (text := ["S"; ";"]%char ++ cstr (s_txt id) ++ [LF]).
  assert (Z.of_nat (length text) = Z.of_nat (length (cstr (s_txt id))) + 3) as Hlen
    by (unfold text; rewrite !length_app; cbn; lia).
  destruct (snprintf _ text) as [msgbuf used] eqn:Es.
  pose proof (snprintf_fits (Z.of_nat (length (cstr (s_txt id))) + 4) text ltac:(lia)) as Hfit.
  rewrite Es in Hfit. cbn [fst] in Hfit. subst msgbuf.
  assert (used = Z.of_nat (length text)) as -> by (unfold snprintf in Es; by simplify_eq).
  rewrite (proj2 (Z.eqb_eq _ _)) by lia. cbn [negb]. wp_go.
  destruct (message_of_text text) as [Hm Hcs].
  { unfold text. pose proof (cstr_no_nul (s_txt id)) as Hnn. rewrite !not_elem_of_app, !not_elem_of_cons.
    split_and!; try done; set_solver. }
  { pose proof (str_ok_length id Hid). unfold INT_MAX. lia. }
  eapply wp_queue_write; [done..|]. rewrite Hcs. intros s' pl' Hi2 Hst _. eapply HQ; [done|].
  eapply stable_trans; [|exact Hst]. apply stable_same; [done..|]. by apply inputs_quiet.
Qed.

Lemma finished_text_no_nul id code t b outfile :
  NUL ∉ id → NUL ∉ outfile → NUL ∉ finished_text id code t b outfile.
Proof.
  intros Hid Ho. unfold finished_text.
  assert (∀ z, NUL ∉ fmt_d z) by (intros; by apply fmt_d_no).
  assert (NUL ∉ fmt_2f t) by (apply fmt_2f_no; [done|apply (bool_decide_unpack _); done]).
  rewrite !not_elem_of_app, !not_elem_of_cons. split_and!; try done; set_solver.
Qed.

Lemma wp_send_msg a pl ex s fd c id code t b outfile Q :
  inv a pl ex s → a_clients a !! fd = Some c →
  str_ok id → s_addr id ∈ c_live (u_core s) →
  NUL ∈ s_txt outfile → Z.of_nat (length (s_txt outfile)) ≤ 2097152 →
  s_addr outfile ∈ c_live (u_core s) →
  (∀ s' pl',
     inv (a_send fd (finished_text (cstr (s_txt id)) code t b (cstr (s_txt outfile))) a) pl' ex s' →
     stable pl s pl' s' → waits (u_trace s') = waits (u_trace s) → Q tt s') →
  wp (send_msg_to_client (ac_addr c) id code t b outfile) Q ending s.
Proof.
  intros Hi Hc Hid Hlive Hon Hol Holive HQ. unfold send_msg_to_client, on_core. wp_go.
  apply wp_read_str; [done|]. wp_go.
  rewrite set_core_id.
  eapply wp_lift_ok; [apply strlen_ok; by destruct Hid|]. wp_go.
  apply wp_read_str; [done|]. wp_go.
  rewrite set_core_id.
  eapply wp_lift_ok; [by apply strlen_ok|]. wp_go.
  eapply wp_syscall_neutral; [done..|]. intros ok w' Hi' _.
  wp_go. destruct ok; [wp_go|by eapply wp_shutdown_inv].
  set (text := finished_text _ _ _ _ _). set (len := _ + 3 + 23 + _).
  destruct (snprintf len text) as [msgbuf used] eqn:Es.
  assert (used = Z.of_nat (length text)) as -> by (unfold snprintf in Es; by simplify_eq).
  destruct (Z.leb_spec len (Z.of_nat (length text))) as [|Hlt]; [apply wp_bind; by eapply wp_shutdown_inv|].
  pose proof (snprintf_fits len text ltac:(lia)) as Hfit.
  rewrite Es in Hfit. cbn [fst] in Hfit. subst msgbuf. wp_go.
  destruct (message_of_text text) as [Hm Hcs].
  { apply finished_text_no_nul; apply cstr_no_nul. }
  { pose proof (str_ok_length id Hid). pose proof (length_cstr (s_txt outfile)).
    unfold INT_MAX. unfold len in Hlt. split; [|lia]. unfold text, finished_text. cbn. lia. }
  eapply wp_queue_write; [done..|]. rewrite Hcs. intros s' pl' Hi2 Hst Htr.
  eapply HQ; [done| |].
  - eapply stable_trans; [|exact Hst]. apply stable_same; [done..|]. by apply inputs_quiet.
  - rewrite Htr. cbn. by rewrite waits_snoc, app_nil_r.
Qed.
End handlers.
