(* ===== verification/ServerProcs.v ===== *)
(** * Processes of the Unix server

    Starting a process for a request and reporting the terminated ones: the
    process list stays the set of the server's children. *)

From S2P Require Import Prelude Queue ArrayList CString ReadBuf WriteBuf State Options Request UnixOS.
From S2P Require Import ServerUnix ServerPoll ServerAbs ServerInv ServerNet ServerHandlers.
From Stdlib Require Import Ascii.

Section procs.
Context `{Libc} {W : Type} `{UnixOSLaws W} `{!Start W}.
Implicit Types (a : astate) (ex : list positive) (s : ustate W) (pl : list pollfd).

(** ** Starting a process *)

Lemma wp_malloc_on a pl ex s Q E :
  inv a pl ex s →
  (∀ x c', core_inv a (x :: ex) c' → inv a pl (x :: ex) (set_core c' s) → Q x (set_core c' s)) →
  wp (on_core malloc) Q E s.
Proof.
  intros Hi HQ. unfold on_core. wp_go. eapply wp_malloc_inv; [apply Hi|]. intros x c' Hc.
  apply HQ; [done|]. by eapply inv_set_core_same.
Qed.

(** The view after a descriptor was opened still supports the invariant. *)
Lemma inv_opens a pl ex s n w' t :
  inv a pl ex s → opens n (view (u_world s)) (view w') → os_step (u_world s) w' →
  inv a pl ex (set_world w' t s) ∧ (n ∉ watched pl).
Proof.
  intros Hi Ho Hstep. pose proof (fds_nonneg (u_world s)) as Hnn. pose proof (ni_fds _ _ _ (proj2 Hi)) as Hf.
  destruct Ho as [[-> Hv]|(Hn & Hnew & Hv)].
  - split; [apply inv_world; [done..|by apply rtc_once]|]. intros Hw. apply Hf, Hnn in Hw. lia.
  - split; [|intros Hw; by apply Hf in Hw]. destruct Hi as [Hc []].
    split; [done|]. split; cbn; rewrite ?Hv; cbn; try done; [|set_solver].
    by eapply reached_step.
Qed.

Lemma wp_open_temp_file a pl ex s Q :
  inv a pl ex s →
  (∀ n x s', inv a pl (s_addr x :: ex) s' → (n ∉ watched pl) →
     stable pl s pl s' →
     NUL ∈ s_txt x → Z.of_nat (length (s_txt x)) ≤ 2097152 → Q (n, x) s') →
  wp (open_temp_file (u_current_dir s)) Q ending s.
Proof.
  intros Hi HQ. unfold open_temp_file. 
  pose proof (ni_dir _ _ _ (proj2 Hi)) as Hdir. destruct (u_current_dir s) as [d|]; cbn in Hdir.
  2:{ apply wp_bind, wp_lift. by apply ending_null. }
  destruct Hdir as [Hnul Hlen]. wp_go. eapply wp_lift_ok; [done|]. wp_go. eapply wp_lift_ok; [by apply strlen_ok|]. wp_go.
  set (template := cstr d ++ _).
  assert (Z.of_nat (length template) = Z.of_nat (length (cstr d)) + 11) as Ht
    by (unfold template; rewrite !length_app; cbn; lia).
  eapply wp_lift_ok; [by rewrite (proj2 (Z.leb_le _ _)) by lia|]. wp_go.
  apply wp_syscall. intros [n name] w' Hos.
  destruct (os_mkstemp _ _ _ _ _ Hos) as [Ho Hname].
  destruct (inv_opens a pl ex s n w' (u_trace s ++ [SysRec (SysMkstemp template) (n, name)]) Hi Ho
    (os_step_call _ _ _ _ Hos)) as [Hi' Hnew].
  wp_go. unfold on_core, alloc_str. wp_go.
  eapply wp_malloc_inv; [apply Hi'|]. intros x c' Hc. wp_go. apply HQ; try done.
  - by eapply inv_set_core_same.
  - apply stable_same; [done..|]. by apply inputs_quiet.
  - cbn. set_solver.
  - cbn. rewrite length_app, Hname. pose proof (length_cstr d). cbn. lia.
Qed.

Lemma copy_argv_ok n args : ∀ (arr0 : arr (option cstring)) i,
  (i + n ≤ length args)%nat → Z.of_nat (length args) + 1 ≤ arr_len arr0 →
  ∃ b, copy_argv n args arr0 (Z.of_nat i) = Ok b.
Proof.
  induction n as [|n IH]; intros arr0 i Hi Hl; cbn; [eauto|].
  unfold arg_at. rewrite (proj2 (Z.ltb_ge _ _)) by lia. rewrite Nat2Z.id.
  destruct (lookup_lt_is_Some_2 args i) as [x ->]; [lia|]. cbn.
  rewrite arr_set_ok by lia. cbn. replace (Z.of_nat i + 1) with (Z.of_nat (S i)) by lia.
  apply IH; [lia|]. by rewrite arr_len_insert.
Qed.

(** The argument vector is built within its bounds, also when [runstdin] is given
    no argument at all. *)
Lemma build_argv_ok cmd args (u : bool) :
  let count := if u then Z.of_nat (length args) - 1 else Z.of_nat (length args) in
  oom_or (build_argv cmd args count) (λ _, True).
Proof.
  intros count. unfold build_argv.
  assert (-1 ≤ count ≤ Z.of_nat (length args)) as Hc by (unfold count; destruct u; lia).
  eapply oom_or_bind; [apply c_malloc_oom|]. intros arr0 [_ ->].
  assert (arr_len (arr_new (A:=option cstring) (count + 2)) = count + 2) as Hl
    by (apply arr_len_new; lia).
  rewrite arr_set_ok by lia. cbn [mbind outcome_bind].
  rewrite arr_set_ok by (rewrite arr_len_insert; lia). cbn [mbind outcome_bind].
  destruct (decide (count < 0)) as [Hneg|Hpos].
  { by replace (Z.to_nat count) with O by lia. }
  destruct (copy_argv_ok (Z.to_nat count) (take (Z.to_nat count) args)
    (<[Z.to_nat (count + 1):=Some None]> (<[Z.to_nat 0:=Some (Some cmd)]> (arr_new (count + 2)))) 0)
    as [a' Ha].
  { rewrite length_take. unfold count in *. destruct u; lia. }
  { rewrite !arr_len_insert, length_take. lia. }
  assert (∀ n i b, (i + n ≤ Z.to_nat count)%nat →
    copy_argv n args b (Z.of_nat i) = copy_argv n (take (Z.to_nat count) args) b (Z.of_nat i)) as Heq.
  { clear. induction n as [|n IH]; intros i b Hi; [done|]. cbn. unfold arg_at.
    rewrite Nat2Z.id, lookup_take_lt by lia. destruct (Z.of_nat i <? 0); [done|].
    destruct (args !! i); [|done]. cbn. destruct (arr_set _ _ _); [|done]. cbn.
    replace (Z.of_nat i + 1) with (Z.of_nat (S i)) by lia. apply IH. lia. }
  change 0 with (Z.of_nat 0) at 2. rewrite Heq by lia. change (Z.of_nat 0) with 0 in Ha |- *.
  by rewrite Ha.
Qed.

(** The process list after a process was started and its struct allocated. *)
Lemma inv_start a pl ex s w' t c' l' p :
  inv a pl ex s → a_procs a !! proc_id p = None → proc_ok (proc_id p) p →
  core_inv a (proc_own p ++ ex) c' →
  list_models l' (<[proc_id p := p]> (a_procs a)) →
  v_children (view w') = {[proc_id p]} ∪ v_children (view (u_world s)) →
  (∀ fd, fd ∈ watched pl → fd ∈ v_fds (view w')) →
  u_server_sock s ∈ v_listeners (view w') → rtc os_step (u_world s) w' →
  inv (a_set_procs (<[proc_id p := p]> (a_procs a)) a) pl ex
    (set_processes l' (set_core c' (set_world w' t s))).
Proof.
  intros [_ Hni] Hn Hp Hc Hl Hch Hf Hli Hrun. pose proof (ni_children _ _ _ Hni) as Hch0.
  destruct Hni. split.
  - eapply (core_inv_ext a _ (proc_own p ++ ex) ex); [|done..].
    rewrite owns_start by done. rewrite (owns_ex a (_ ++ _)), (owns_ex a ex). by rewrite app_assoc.
  - split; cbn; try done.
    + by apply map_Forall_insert_2.
    + by eapply reached_steps.
    + by rewrite Hch, Hch0, dom_insert_L.
Qed.

Lemma freed_addrs_run r :
  req_ok r → req_addrs r ≡ₚ s_addr (req_id r) :: freed_addrs r.
Proof.
  intros (Hwf & Ht & _). unfold req_wf, freed_addrs, req_addrs in *. rewrite Ht in *.
  destruct (req_run r); [|done]. apply perm_swap.
Qed.

Lemma watched_fd_nonneg a pl ex s fd : inv a pl ex s → fd ∈ watched pl → 0 ≤ fd.
Proof. intros [_ Hni] Hfd. eapply fds_nonneg. by apply (ni_fds _ _ _ Hni). Qed.

(** [create_process] as the server sees it: a child is forked, or the server stops. *)
Lemma wp_create_process a pl ex s cmd args u out t m Q :
  inv a pl ex s →
  (∀ pid w' tr, a_procs a !! pid = None → 0 < pid →
     view w' = mk_view ({[pid]} ∪ v_children (view (u_world s))) (v_fds (view (u_world s)))
                 (v_listeners (view (u_world s))) →
     os_step (u_world s) w' → inputs tr = inputs (u_trace s) →
     Q pid (set_world w' tr s)) →
  wp (create_process cmd (Z.of_nat (length args)) args u out t m) Q ending s.
Proof.
  intros Hi HQ. unfold create_process. wp_go.
  eapply wp_lift_oom; [apply build_argv_ok|auto with wp|]. intros argv _. wp_go.
  apply wp_syscall. intros pid w' Hos.
  destruct (os_fork _ _ _ _ Hos) as [[-> Hv]|(Hpos & Hnew & Hv)]; wp_go.
  - rewrite (proj2 (Z.eqb_eq _ _)) by done. eapply wp_shutdown_inv.
    apply inv_world; [done..|]. by eapply rtc_once, os_step_call.
  - rewrite (proj2 (Z.eqb_neq _ _)) by lia. wp_go. rewrite (proj2 (Z.ltb_lt _ _)) by lia.
    wp_go. apply HQ; [|done|done|by eapply os_step_call|by apply inputs_quiet].
    rewrite (ni_children _ _ _ (proj2 Hi)) in Hnew.
    by apply not_elem_of_dom in Hnew.
Qed.

Lemma owned_ex_live a pl ex s x : inv a pl ex s → x ∈ ex → x ∈ c_live (u_core s).
Proof. intros [Hc _] Hx. by eapply core_inv_live. Qed.

Lemma wp_run_request a pl ex s r Q :
  inv a pl (req_addrs r ++ ex) s → req_ok r → a_room a →
  (∀ l a' pl' s', astep a l a' → (l = ADrop r ∨ ∃ p, l = AStart r p) →
     a_queue a' = a_queue a → inv a' pl' (freed_addrs r ++ ex) s' → stable pl s pl' s' → Q tt s') →
  wp (run_request (Some r)) Q ending s.
Proof.
  intros Hi Hr Hroom HQ. unfold run_request.
  eapply wp_lookup_client; [exact Hi|].
  destruct (a_clients a !! req_key r) as [c|] eqn:Hc; cbn [fmap option_fmap option_map].
  2:{ wp_go. eapply (HQ (ADrop r) a pl); [by apply step_drop|by left|done| |apply stable_refl].
      destruct Hi as [Hci Hni]. split; [|done]. eapply core_inv_part; [|done].
      apply submseteq_app; [|done]. apply freed_addrs_sub. }
  pose proof Hr as (Hwf & Ht & Hid).
  apply wp_bind, wp_gets, wp_bind. eapply wp_open_temp_file; [done|].
  intros n outfile s1 Hi1 Hn Hst1 Hout Houtl. cbv beta iota.
  unfold req_wf in Hwf. rewrite Ht in Hwf. destruct (req_run r) as [f|] eqn:Hf; [|done].
  rewrite Hwf. apply wp_bind. eapply wp_create_process; [done|]. intros pid w1 tr1 Hpid Hpos Hv1 Hstep1 Htr1.
  wp_go. apply wp_syscall. intros res w2 Hos. pose proof (os_step_call _ _ _ _ Hos) as Hstep2.
  apply os_close in Hos. cbn in Hos, Hstep2.
  wp_go. unfold on_core. wp_go. eapply wp_malloc_inv; [apply Hi1|]. intros x c' Hc'. wp_go.
  set (p := mk_proc x pid (req_key r) (req_id r) outfile).
  eapply wp_lift_oom; [apply list_models_append_oom with (m := a_procs a); [apply Hi1|done]|auto with wp|].
  intros l' Hl'. wp_go.
  set (s2 := set_processes _ _).
  assert (inv (a_set_procs (<[pid := p]> (a_procs a)) a) pl (freed_addrs r ++ ex) s2) as Hi2.
  { eapply (inv_start a pl (freed_addrs r ++ ex) s1 w2 _ c' l' p); try done.
    - destruct Hi1 as [Hc1 Hn1]. split; [|done]. eapply core_inv_part; [|done].
      rewrite (freed_addrs_run r Hr). cbn. solve_submseteq.
    - eapply core_inv_perm; [|exact Hc']. rewrite (freed_addrs_run r Hr).
      exact (perm_skip _ (perm_swap _ _ _)).
    - rewrite Hos, Hv1. done.
    - intros fd Hfd. rewrite Hos, Hv1. cbn. pose proof (ni_fds _ _ _ (proj2 Hi1) fd Hfd).
      apply elem_of_difference. split; [done|]. intros ->%elem_of_singleton. done.
    - rewrite Hos, Hv1. cbn. apply elem_of_difference. split; [apply (ni_listen _ _ _ (proj2 Hi1))|].
      rewrite elem_of_singleton. intros Heq. apply Hn. rewrite <- Heq.
      apply (ni_watched _ _ _ (proj2 Hi1)). by left.
    - by eapply rtc_l, rtc_once. }
  eapply wp_send_started; [exact Hi2|cbn; exact Hc|done| |].
  - eapply core_inv_live; [exact Hc'|]. rewrite (freed_addrs_run r Hr). set_solver.
  - intros s' pl' Hi3 Hst3.
    eapply (HQ (AStart r p)); [eapply step_start; done|eauto| |exact Hi3|].
    + unfold a_send. cbn. by rewrite Hc.
    + eapply stable_trans; [exact Hst1|]. eapply stable_trans; [|exact Hst3].
      apply stable_same; [done..|]. cbn. by rewrite inputs_quiet.
Qed.

(** ** Terminated processes *)

Lemma inv_reap a pl ex s w' t l' pid p :
  inv a pl ex s → a_procs a !! pid = Some p →
  list_models l' (delete pid (a_procs a)) →
  view w' = mk_view (v_children (view (u_world s)) ∖ {[pid]}) (v_fds (view (u_world s)))
              (v_listeners (view (u_world s))) →
  os_step (u_world s) w' →
  inv (a_set_procs (delete pid (a_procs a)) a) pl (proc_own p ++ ex)
    (set_processes l' (set_world w' t s)).
Proof.
  intros [Hc Hni] Hp Hl Hv Hstep. pose proof (ni_children _ _ _ Hni) as Hch. destruct Hni. split.
  - eapply (core_inv_ext a _ ex); [|done..].
    rewrite (owns_reap a pid p ex Hp). rewrite (owns_ex _ (_ ++ _)), (owns_ex _ ex).
    by rewrite app_assoc.
  - split; cbn; rewrite ?Hv; cbn; try done.
    + by apply map_Forall_delete.
    + by eapply reached_step.
    + by rewrite Hch, dom_delete_L.
Qed.

Lemma wp_free_process a pl ex s p Q E :
  inv a pl (proc_own p ++ ex) s →
  (∀ c', inv a pl ex (set_core c' s) → Q tt (set_core c' s)) →
  wp (free_process p) Q E s.
Proof.
  intros Hi HQ. unfold free_process, on_core. wp_go.
  eapply (wp_free_inv _ a (proc_addr p :: s_addr (proc_task_id p) :: ex)).
  { eapply core_inv_perm; [|apply Hi]. cbn. solve_Permutation. }
  intros c1 Hc1. wp_go. cbn.
  eapply (wp_free_inv _ a (proc_addr p :: ex)).
  { eapply core_inv_perm; [|exact Hc1]. apply perm_swap. }
  intros c2 Hc2. wp_go. cbn. eapply wp_free_inv; [exact Hc2|]. intros c3 Hc3.
  change (Q tt (set_core c3 s)). apply HQ. by eapply inv_set_core_same.
Qed.

Lemma wp_handle_child a pl ex s r w' t Q :
  inv a pl ex s → os SysWait3 (u_world s) = (Some r, w') → inputs t = inputs (u_trace s) →
  (∀ p a' pl' s', astep a (AReap r p) a' → size (a_procs a) = S (size (a_procs a')) →
     inv a' pl' ex s' → stable pl s pl' s' → waits (u_trace s') = waits t → Q tt s') →
  wp (handle_child r) Q ending (set_world w' t s).
Proof.
  intros Hi Hos Ht HQ. destruct (os_wait3 _ _ _ Hos) as [Hin Hv].
  rewrite (ni_children _ _ _ (proj2 Hi)) in Hin. apply elem_of_dom in Hin as [p Hp].
  unfold handle_child. destruct (exit_report (wr_status r)) as [code timeout] eqn:Er.
  pose proof (ni_procs _ _ _ (proj2 Hi)) as Hlm. wp_go. cbn.
  eapply wp_lift_ok; [by apply list_models_lookup|]. wp_go.
  destruct (list_models_remove _ _ (wr_pid r) Hlm) as (l' & El & Hl').
  eapply wp_lift_ok; [done|]. wp_go. rewrite Hp.
  set (s1 := set_processes _ _).
  assert (inv (a_set_procs (delete (wr_pid r) (a_procs a)) a) pl (proc_own p ++ ex) s1) as Hi1
    by (apply inv_reap; [done..|by eapply os_step_call]).
  destruct (map_Forall_lookup_1 _ _ _ _ (ni_procok _ _ _ (proj2 Hi)) Hp) as (_ & Htask & Hon & Hol).
  assert (size (a_procs a) = S (size (delete (wr_pid r) (a_procs a)))) as Hsz.
  { rewrite map_size_delete_Some by eauto. assert (size (a_procs a) ≠ 0%nat); [|lia].
    intros Hz%map_size_empty_inv. by rewrite Hz, lookup_empty in Hp. }
  eapply wp_lookup_client; [exact Hi1|]. apply wp_bind. cbn [a_clients a_set_procs].
  assert (∀ a2 pl2 s2, a2 = a_send (proc_client_key p) (report_text r p)
      (a_set_procs (delete (wr_pid r) (a_procs a)) a) →
    inv a2 pl2 (proc_own p ++ ex) s2 → stable pl s1 pl2 s2 → waits (u_trace s2) = waits t →
    wp (free_process p) Q ending s2) as Hfin.
  { intros a2 pl2 s2 -> Hi2 Hst2 Hw2. eapply wp_free_process; [done|]. intros c' Hi3.
    eapply HQ; [by apply step_reap|by unfold a_send; case_match|exact Hi3| |done].
    eapply (stable_trans _ _ pl s1); [by apply stable_same|].
    eapply stable_trans; [exact Hst2|by apply stable_same]. }
  destruct (a_clients a !! proc_client_key p) as [c|] eqn:Hc; cbn [fmap option_fmap option_map].
  - eapply wp_send_msg; [exact Hi1|exact Hc|done|eapply owned_ex_live; [exact Hi1|set_solver]|
      done|done|eapply owned_ex_live; [exact Hi1|set_solver]|].
    intros s2 pl2 Hi2 Hst2 Hw2. eapply Hfin; [|exact Hi2|done|done]. unfold report_text. by rewrite Er.
  - wp_go. eapply Hfin; [|exact Hi1|apply stable_refl|done]. unfold a_send. cbn. by rewrite Hc.
Qed.

(** [handle_child_events] reaps until [wait3] has no terminated child left: the
    steps are the reports it gave, in order.  The fuel of the model is never
    exhausted. *)
Definition reap_label (r : wait_report) (l : alabel) : Prop := ∃ p, l = AReap r p.

Lemma wp_wait_loop fuel : ∀ a pl ex s Q,
  inv a pl ex s → (size (a_procs a) < fuel)%nat →
  (∀ rs ls a' pl' s', asteps a ls a' → Forall2 reap_label rs ls →
     waits (u_trace s') = waits (u_trace s) ++ (Some <$> rs) ++ [None] →
     inv a' pl' ex s' → stable pl s pl' s' → Q tt s') →
  wp (wait_loop fuel) Q ending s.
Proof.
  induction fuel as [|fuel IH]; intros a pl ex s Q Hi Hf HQ; [lia|]. cbn [wait_loop]. wp_go.
  apply wp_syscall. intros [r|] w' Hos; wp_go.
  - eapply wp_handle_child; [done..|by apply inputs_quiet|].
    intros p a1 pl1 s1 Hstep Hsz Hi1 Hst1 Hw1.
    eapply IH; [done|lia|]. intros rs ls a2 pl2 s2 Hsteps Hls Hw2 Hi2 Hst2.
    eapply (HQ (r :: rs)); [by eapply asteps_cons|constructor; [by exists p|done]| |done|
      by eapply stable_trans].
    rewrite Hw2, Hw1, waits_snoc. cbn. by rewrite <- app_assoc.
  - eapply (HQ []); [constructor|constructor| | |apply stable_same; [done..|by apply inputs_quiet]].
    + cbn. by rewrite waits_snoc.
    + apply inv_world; [done|apply (os_wait3 _ _ _ Hos)|]. by eapply rtc_once, os_step_call.
Qed.

Lemma wp_handle_child_events a pl ex s Q :
  inv a pl ex s →
  (∀ rs ls a' pl' s', asteps a ls a' → Forall2 reap_label rs ls →
     waits (u_trace s') = waits (u_trace s) ++ (Some <$> rs) ++ [None] →
     inv a' pl' ex s' → stable pl s pl' s' → Q tt s') →
  wp handle_child_events Q ending s.
Proof.
  intros Hi HQ. unfold handle_child_events. wp_go. eapply wp_wait_loop; [done| |done].
  rewrite (list_models_length _ _ (ni_procs _ _ _ (proj2 Hi))). lia.
Qed.
End procs.
