(* ===== verification/ServerMsgs.v ===== *)
(** * Client messages of the Unix server

    Lines are cut out of the read buffer and handled in order; what is left is
    the incomplete last line.  Requests start a process, wait in the queue or
    interrupt. *)

From S2P Require Import Prelude Queue ArrayList CString ReadBuf WriteBuf State Options Request UnixOS.
From S2P Require Import ServerUnix ServerPoll ServerAbs ServerInv ServerNet ServerHandlers ServerProcs.
From Stdlib Require Import Ascii.

(** The signals sent, in a trace of system calls. *)
Definition kill_of (r : sysrec) : option (Z * Z) :=
  match r with SysRec c _ => match c with SysKill pid sig => Some (pid, sig) | _ => None end end.
Definition kills (t : list sysrec) : list (Z * Z) := omap kill_of t.

(** The complete lines of a byte string, and what follows the last newline. *)
Fixpoint split_lines (s : list ascii) : list (list ascii) * list ascii :=
  match s with
  | [] => ([], [])
  | c :: s =>
     let '(ls, rest) := split_lines s in
     if decide (c = LF) then ([] :: ls, rest)
     else match ls with
          | [] => ([], c :: rest)
          | l :: ls => ((c :: l) :: ls, rest)
          end
  end.

(** The steps a line may cause. *)
Definition run_labels (q : request) (ls : list alabel) : Prop :=
  ls = [AEnqueue q] ∨ ls = [ADrop q] ∨ ∃ p, ls = [AStart q p].
Definition line_labels (key : Z) (line : list ascii) (ls : list alabel) : Prop :=
  match spec_parse line with
  | PNone => ls = []
  | PParallel n => ls = if 1 <=? n then [AParallel n] else []
  | PInterrupt id => ∃ q, request_matches key (PInterrupt id) q ∧ ls = [AInterrupt (req_id q)]
  | PRun u id t m cmd args =>
     ∃ q, request_matches key (PRun u id t m cmd args) q ∧ run_labels q ls
  end.

(** The steps that leave the clients alone but for what they are sent. *)
Definition quiet (l : alabel) : Prop :=
  match l with
  | AAccept _ | AClose _ | AWrite _ _ | ARecv _ _ | ATake _ _ => False
  | _ => True
  end.
Definition client_frame (a a' : astate) : Prop :=
  ∀ fd c, a_clients a !! fd = Some c → ∃ o, a_clients a' !! fd = Some (set_out o c).

Lemma client_frame_eq a a' : a_clients a' = a_clients a → client_frame a a'.
Proof. intros Heq fd c Hc. exists (ac_out c). rewrite Heq. by destruct c. Qed.

Lemma client_frame_refl a : client_frame a a.
Proof. by apply client_frame_eq. Qed.

Lemma client_frame_trans a1 a2 a3 : client_frame a1 a2 → client_frame a2 a3 → client_frame a1 a3.
Proof. intros H1 H2 fd c (o & Hc)%H1. destruct (H2 _ _ Hc) as (o2 & Hc2). by exists o2. Qed.

Lemma client_frame_send a fd msg : client_frame a (a_send fd msg a).
Proof.
  intros fd' c Hc. unfold a_send. destruct (a_clients a !! fd) as [d|] eqn:E.
  2:{ exists (ac_out c). by destruct c. }
  cbn. destruct (decide (fd = fd')) as [<-|Hne].
  - rewrite lookup_insert_eq. simplify_eq. eauto.
  - rewrite lookup_insert_ne by done. exists (ac_out c). by destruct c.
Qed.

Lemma astep_client_frame a l a' : astep a l a' → quiet l → client_frame a a'.
Proof.
  intros Hs Hq. destruct Hs; cbn in Hq; try done; try (by apply client_frame_eq).
  all: eapply client_frame_trans; [|apply client_frame_send]; by apply client_frame_eq.
Qed.

Lemma asteps_client_frame a ls a' : asteps a ls a' → Forall quiet ls → client_frame a a'.
Proof.
  induction 1 as [|a l a1 ls a2 Hs Hss IH]; [intros _; apply client_frame_refl|].
  intros [Hq Hqs]%Forall_cons. eapply client_frame_trans; [by eapply astep_client_frame|by apply IH].
Qed.

Lemma line_labels_quiet key line ls : line_labels key line ls → Forall quiet ls.
Proof.
  unfold line_labels. destruct (spec_parse line) as [|n|id|u id t m cmd args].
  - by intros ->.
  - intros ->. destruct (1 <=? n); repeat constructor.
  - intros (q & _ & ->). repeat constructor.
  - intros (q & _ & [->|[->|[p ->]]]); repeat constructor.
Qed.

(** ** Splitting into lines *)

Lemma split_lines_spec s ls rest :
  split_lines s = (ls, rest) →
  s = concat ((λ l, l ++ [LF]) <$> ls) ++ rest ∧ Forall (λ l, LF ∉ l) ls ∧ LF ∉ rest.
Proof.
  revert ls rest. induction s as [|c s IH]; intros ls rest Hs; cbn in Hs.
  { simplify_eq. cbn. split; [done|]. split; [constructor|set_solver]. }
  destruct (split_lines s) as [ls1 rest1]. destruct (IH _ _ eq_refl) as (-> & Hf & Hr).
  case_decide as Hc; simplify_eq.
  - split; [done|]. split; [constructor; [set_solver|done]|done].
  - destruct ls1 as [|l ls1]; simplify_eq/=.
    + split; [done|]. split; [constructor|set_solver].
    + apply Forall_cons in Hf as [Hl Hf]. split; [done|]. split; [|done].
      constructor; [set_solver|done].
Qed.

Lemma split_lines_line l s ls rest :
  LF ∉ l → split_lines s = (ls, rest) → split_lines (l ++ LF :: s) = (l :: ls, rest).
Proof.
  intros Hl Hs. induction l as [|c l IH]; cbn.
  - rewrite Hs. done.
  - apply not_elem_of_cons in Hl as [Hc Hl]. rewrite IH by done. by rewrite decide_False by done.
Qed.

Lemma split_lines_rest s : LF ∉ s → split_lines s = ([], s).
Proof.
  intros Hn. induction s as [|c s IH]; [done|]. apply not_elem_of_cons in Hn as [Hc Hn]. cbn.
  rewrite IH by done. by rewrite decide_False by done.
Qed.

Lemma split_lines_concat ls s ls' rest' :
  Forall (λ l, LF ∉ l) ls → split_lines s = (ls', rest') →
  split_lines (concat ((λ l, l ++ [LF]) <$> ls) ++ s) = (ls ++ ls', rest').
Proof.
  intros Hf Hs. induction ls as [|l ls IH]; [done|]. cbn.
  apply Forall_cons in Hf as [Hl Hf]. rewrite <- !app_assoc.
  apply (split_lines_line l _ (ls ++ ls') rest' Hl). by apply IH.
Qed.

(** Cutting the input differently gives the same lines. *)
Lemma split_lines_app s t ls rest ls' rest' :
  split_lines s = (ls, rest) → split_lines (rest ++ t) = (ls', rest') →
  split_lines (s ++ t) = (ls ++ ls', rest').
Proof.
  intros Hs Ht. destruct (split_lines_spec _ _ _ Hs) as (-> & Hf & _).
  rewrite <- app_assoc. by apply split_lines_concat.
Qed.

(** The newline that completes a line is in the last chunk. *)
Lemma split_lines_tail pre bs lines rest :
  split_lines (pre ++ bs) = (lines, rest) → LF ∉ pre → lines ≠ [] →
  ∃ line, bs = line ++ LF :: rest.
Proof.
  intros Hsp Hpre Hne. destruct (split_lines_spec _ _ _ Hsp) as (Heq & _ & _).
  destruct (exists_last Hne) as (ls & l & ->).
  rewrite fmap_app, concat_app in Heq. cbn in Heq. rewrite app_nil_r, <- !app_assoc in Heq.
  rewrite app_assoc in Heq. cbn in Heq.
  destruct (app_eq_inv _ _ _ _ Heq) as [(k & Hx & Hk)|(k & _ & Hb)]; [|eauto].
  destruct k as [|ch k]; [exists []; by rewrite Hk|]. cbn in Hk. simplify_eq. set_solver.
Qed.

(** ** What the clients asked for

    The input of the clients, replayed: for each descriptor the bytes after the
    last newline, and the limits on processes that [parallel] requests set. *)

Definition line_limit (line : list ascii) : option Z :=
  match spec_parse line with
  | PParallel n => if 1 <=? n then Some n else None
  | _ => None
  end.

Definition hear (st : gmap Z (list ascii) * list Z) (i : input)
  : gmap Z (list ascii) * list Z :=
  match i with
  | IConnect fd => (<[fd := []]> st.1, st.2)
  | IChunk fd bs =>
     let '(lines, rest) := split_lines (default [] (st.1 !! fd) ++ bs) in
     (<[fd := rest]> st.1, st.2 ++ omap line_limit lines)
  end.
Definition replay (l : list input) : gmap Z (list ascii) * list Z := foldl hear (∅, []) l.
Definition unread (t : list sysrec) : gmap Z (list ascii) := (replay (inputs t)).1.
Definition limits (t : list sysrec) : list Z := (replay (inputs t)).2.

Lemma unread_no_newline t fd s : unread t !! fd = Some s → LF ∉ s.
Proof.
  unfold unread, replay. revert fd s. induction (inputs t) as [|i l IH] using rev_ind; intros fd s;
    [cbn; by rewrite lookup_empty|].
  rewrite foldl_app. cbn. destruct i as [fd'|fd' bs]; cbn.
  - rewrite lookup_insert_Some. intros [[_ <-]|[_ Hs]]; [set_solver|by eapply IH].
  - destruct (split_lines _) as [lines rest] eqn:Hsp. cbn. rewrite lookup_insert_Some.
    intros [[_ <-]|[_ Hs]]; [by destruct (split_lines_spec _ _ _ Hsp) as (_ & _ & ?)|by eapply IH].
Qed.

(** The abstract clients hold what the replay of the calls says. *)
Definition heard (t : list sysrec) (a : astate) : Prop :=
  ∀ fd c, a_clients a !! fd = Some c → unread t !! fd = Some (ac_in c).

(** The steps that bring no input. *)
Definition keeps_in (l : alabel) : Prop :=
  match l with AAccept _ | ARecv _ _ | ATake _ _ => False | _ => True end.

Lemma quiet_keeps_in l : quiet l → keeps_in l.
Proof. by destruct l. Qed.

Definition came_from (a a' : astate) : Prop :=
  ∀ fd c', a_clients a' !! fd = Some c' → ∃ c, a_clients a !! fd = Some c ∧ ac_in c' = ac_in c.

Lemma came_from_send a a0 fd msg :
  a_clients a0 = a_clients a → came_from a (a_send fd msg a0).
Proof.
  intros Heq fd' c'. unfold a_send. rewrite Heq. destruct (a_clients a !! fd) as [d|] eqn:E;
    cbn; rewrite ?Heq; [|eauto].
  destruct (decide (fd = fd')) as [<-|Hne].
  - rewrite lookup_insert_eq. intros [= <-]. eauto.
  - rewrite lookup_insert_ne by done. eauto.
Qed.

Lemma astep_came_from a l a' : astep a l a' → keeps_in l → came_from a a'.
Proof.
  intros Hs Hq. destruct Hs as [| |fd c n Hc| | | | | | | | |]; cbn in Hq; try done;
    try (by apply came_from_send); intros fd' c'; cbn; eauto.
  - intros [_ ?]%lookup_delete_Some. eauto.
  - rewrite lookup_insert_Some. intros [[<- <-]|[_ ?]]; eauto.
Qed.

Lemma asteps_came_from a ls a' : asteps a ls a' → Forall keeps_in ls → came_from a a'.
Proof.
  induction 1 as [|a l a1 ls a2 Hs Hss IH]; [intros _ fd c; eauto|].
  intros [Hq Hqs]%Forall_cons fd c Hc. destruct (IH Hqs fd c Hc) as (c1 & Hc1 & ->).
  by apply (astep_came_from _ _ _ Hs Hq).
Qed.

Section msgs.
Context `{Libc} {W : Type} `{UnixOSLaws W} `{!Start W}.
Implicit Types (a : astate) (ex : list positive) (s : ustate W) (pl : list pollfd).

(** ** Interrupting *)

Definition task_is (id : cstring) (p : t_proc) : Prop :=
  cstr (s_txt (proc_task_id p)) = cstr (s_txt id).
#[export] Instance task_is_dec id p : Decision (task_is id p).
Proof. unfold task_is. apply _. Defined.

Lemma wp_kill_loop l kvs id n : ∀ i s Q E,
  list_rep l kvs → id_live (c_live (u_core s)) id →
  Forall (λ kx, id_live (c_live (u_core s)) (proc_task_id kx.2)) kvs →
  (i + n = length kvs)%nat →
  (∀ w' tr, view w' = view (u_world s) → rtc os_step (u_world s) w' → inputs tr = [] →
     kills tr = (λ p, (proc_id p, SIGKILL)) <$> filter (task_is id) (drop i kvs).*2 →
     Q tt (set_world w' (u_trace s ++ tr) s)) →
  wp (kill_loop n l id (Z.of_nat i)) Q E s.
Proof.
  induction n as [|n IH]; intros i s Q E Hr Hid Hf Hn HQ; cbn [kill_loop].
  { wp_go. specialize (HQ (u_world s) []). rewrite app_nil_r, drop_ge in HQ by lia.
    replace (set_world (u_world s) (u_trace s) s) with s in HQ by (by destruct s).
    by apply HQ. }
  wp_go. destruct (lookup_lt_is_Some_2 kvs i) as [[k p] Hi]; [lia|].
  destruct (lr_elems _ _ Hr i k p Hi) as [_ Hp].
  eapply wp_lift_ok; [apply arr_get_ok; [lia|by rewrite Nat2Z.id]|]. unfold on_core. wp_go.
  destruct (Forall_lookup_1 _ _ _ _ Hf Hi) as [Hpl Hpn]. cbn in Hpl, Hpn.
  apply wp_read_str; [done|]. wp_go.
  destruct Hid as [Hil Hin]. apply wp_read_str; [done|]. wp_go.
  rewrite !set_core_id.
  destruct (strcmp_eq _ _ Hpn Hin) as (v & Hv & Hiff). eapply wp_lift_ok; [done|]. wp_go.
  replace (Z.of_nat i + 1) with (Z.of_nat (S i)) by lia.
  rewrite (drop_S kvs (k, p) i) in HQ by done. rewrite fmap_cons, filter_cons in HQ. cbn [snd] in HQ.
  destruct (Z.eqb_spec v 0) as [He|Hne].
  - rewrite decide_True in HQ by (unfold task_is; tauto). unfold os_kill. wp_go.
    apply wp_syscall. intros r w' Hos. wp_go.
    pose proof (os_neutral _ _ _ _ Hos eq_refl) as Hv'.
    apply IH; [done|done|done|lia|]. intros w2 tr Hw2 Hrun2 Htr2 Hk.
    specialize (HQ w2 (SysRec (SysKill (proc_id p) SIGKILL) r :: tr)).
    rewrite cons_middle, app_assoc in HQ. apply HQ; [cbn in Hw2; congruence| |done|].
    { eapply rtc_l; [by eapply os_step_call|exact Hrun2]. }
    unfold kills in *. cbn. by rewrite Hk.
  - rewrite decide_False in HQ by (unfold task_is; tauto). wp_go. apply IH; [done|done|done|lia|done].
Qed.

(** The processes with the task [id] are killed, and no other. *)
Lemma wp_kill_processes a pl ex s id Q E :
  inv a pl ex s → s_addr id ∈ c_live (u_core s) → NUL ∈ s_txt id →
  (∀ w' tr, inv a pl ex (set_world w' (u_trace s ++ tr) s) → inputs tr = [] →
     kills tr ≡ₚ (λ p, (proc_id p, SIGKILL)) <$> filter (task_is id) (map_to_list (a_procs a)).*2 →
     Q tt (set_world w' (u_trace s ++ tr) s)) →
  wp (kill_processes id) Q E s.
Proof.
  intros Hi Hidl Hidn HQ. unfold kill_processes. wp_go.
  destruct (ni_procs _ _ _ (proj2 Hi)) as (kvs & Hr & Hnd & Hm).
  rewrite (lr_len _ _ Hr), Nat2Z.id.
  assert (kvs ≡ₚ map_to_list (a_procs a)) as Hp by (rewrite <- Hm; symmetry; by apply map_to_list_to_map).
  eapply (wp_kill_loop _ kvs id _ 0); [done|done| |lia|].
  - apply Forall_forall. intros [k p] Hin. cbn. rewrite Hp in Hin. apply elem_of_map_to_list in Hin.
    split.
    + destruct (proj1 Hi) as [_ [_ Hl] _ _ _ _ _]. apply Hl.
      rewrite (owns_reap a k p ex Hin). cbn. set_solver.
    + by destruct (map_Forall_lookup_1 _ _ _ _ (ni_procok _ _ _ (proj2 Hi)) Hin) as (_ & (? & _) & _).
  - intros w' tr Hv Hrun Htr Hk. apply HQ; [by apply inv_world|done|]. rewrite Hk, drop_0. by rewrite Hp.
Qed.

(** ** Requests *)

Definition request_labels (r : request) (ls : list alabel) : Prop :=
  match req_type r with
  | REQ_RUN => run_labels r ls
  | REQ_INTERRUPT => ls = [AInterrupt (req_id r)]
  end.

Lemma inv_room a pl ex s :
  inv a pl ex s →
  (list_length (u_processes s) <? c_parallel (u_core s)) = bool_decide (a_room a).
Proof.
  intros [Hc Hn]. rewrite (list_models_length _ _ (ni_procs _ _ _ Hn)), (ci_parallel _ _ _ Hc).
  unfold a_room. destruct (Z.ltb_spec (Z.of_nat (size (a_procs a))) (a_parallel a));
    symmetry; [by apply bool_decide_eq_true|apply bool_decide_eq_false; lia].
Qed.

Lemma wp_free_request_on a pl ex s r Q E :
  inv a pl (freed_addrs r ++ ex) s → req_wf r →
  (∀ c', inv a pl ex (set_core c' s) → Q tt (set_core c' s)) →
  wp (on_core (free_request (Some r))) Q E s.
Proof.
  intros Hi Hwf HQ. unfold on_core. wp_go. eapply wp_free_request_inv; [apply Hi|done|].
  intros c' Hc. apply HQ. by eapply inv_set_core_same.
Qed.

Lemma wp_run_and_free a pl ex s r Q :
  inv a pl (req_addrs r ++ ex) s → req_ok r → a_room a →
  (∀ l a' pl' s', astep a l a' → (l = ADrop r ∨ ∃ p, l = AStart r p) →
     a_queue a' = a_queue a → inv a' pl' ex s' → stable pl s pl' s' → Q tt s') →
  wp (_ ← run_request (Some r); on_core (free_request (Some r))) Q ending s.
Proof.
  intros Hi Hr Hroom HQ. wp_go. eapply wp_run_request; [done..|].
  intros l a1 pl1 s1 Hstep Hl Hq Hi1 Hst. eapply wp_free_request_on; [done|apply Hr|].
  intros c' Hi2. eapply HQ; [done..|]. eapply stable_trans; [done|by apply stable_same].
Qed.

(** An interrupt request: its identifier is owned until it is freed. *)
Lemma wp_interrupt a pl ex s r Q :
  inv a pl (req_addrs r ++ ex) s → req_type r = REQ_INTERRUPT → str_ok (req_id r) →
  (∀ a' s', astep a (AInterrupt (req_id r)) a' → inv a' pl ex s' → stable pl s pl s' → Q tt s') →
  wp (handle_request (Some r)) Q ending s.
Proof.
  intros Hi Ht Hid HQ. unfold handle_request. rewrite Ht. unfold on_core. wp_go.
  assert (s_addr (req_id r) ∈ req_addrs r ++ ex) as Hin by (unfold req_addrs; set_solver).
  apply wp_read_str; [by eapply owned_ex_live|]. wp_go.
  eapply wp_log_msg_inv; [apply Hi|]. intros c1 Hc1. wp_go. cbn [u_core set_core].
  eapply wp_remove_from_queue_inv; [exact Hc1|exact Hin|apply Hid|auto with wp|].
  intros c2 Hc2. wp_go.
  set (a1 := a_set_queue _ a) in *. set (s1 := set_core c2 _).
  assert (inv a1 pl (req_addrs r ++ ex) s1) as Hi1
    by (change s1 with (set_core c2 s); eapply (inv_set_core a a1); [apply Hi|done..]).
  eapply wp_kill_processes; [exact Hi1|by eapply owned_ex_live|apply Hid|].
  intros w' tr Hi2 Htr _. wp_go. eapply wp_free_request_inv.
  - eapply core_inv_part; [|apply Hi2]. apply submseteq_app; [|done]. apply freed_addrs_sub.
  - unfold req_wf. by rewrite Ht.
  - intros c3 Hc3. eapply HQ; [by apply step_interrupt|by eapply inv_set_core_same|].
    apply stable_same; [done..|]. cbn. unfold inputs in *. by rewrite omap_app, Htr, app_nil_r.
Qed.

Lemma wp_handle_request a pl ex s r Q :
  inv a pl (req_addrs r ++ ex) s → req_wf r → str_ok (req_id r) →
  (∀ ls a' pl' s', asteps a ls a' → request_labels r ls → inv a' pl' ex s' →
     stable pl s pl' s' → Q tt s') →
  wp (handle_request (Some r)) Q ending s.
Proof.
  intros Hi Hwf Hid HQ. destruct (req_type r) eqn:Ht.
  2:{ eapply wp_interrupt; [done..|]. intros a' s' Hstep Hi' Hst.
      eapply HQ; [by apply asteps_one|by unfold request_labels; rewrite Ht|done..]. }
  unfold handle_request. rewrite Ht. wp_go. unfold on_core at 1. wp_go.
  rewrite set_core_id.
  unfold request_labels, run_labels in HQ. rewrite Ht in HQ.
  rewrite (inv_room _ _ _ _ Hi). destruct (bool_decide_reflect (a_room a)) as [Hroom|Hfull].
  - eapply wp_run_and_free; [done|done|done|]. intros l a1 pl1 s1 Hstep Hl _ Hi1 Hst.
    eapply HQ; [by apply asteps_one| |done..]. naive_solver.
  - unfold on_core. wp_go. eapply wp_push_request_inv; [apply Hi|done|auto with wp|].
    intros c' Hc'. eapply HQ; [apply asteps_one; by apply step_enqueue|by left| |].
    + by eapply (inv_set_core a); [apply Hi|..].
    + by apply stable_same.
Qed.

(** ** Lines *)

(** One complete line: parsing, then handling. *)
Lemma wp_line a pl ex s buf off line key Q :
  inv a pl ex s → holds buf off line → Z.of_nat (length line) < 1073741824 →
  (∀ ls a' pl' s', asteps a ls a' → line_labels key line ls → inv a' pl' ex s' →
     stable pl s pl' s' → Q tt s') →
  wp (r ← on_core (parse_request buf off (Z.of_nat (length line)) key); handle_request r)
    Q ending s.
Proof.
  intros Hi Hh Hlen HQ. unfold on_core. wp_go.
  eapply wp_mono; [apply wp_parse_request; [done|apply Hi]| |done].
  intros r c' Hp. destruct (parse_post_inv key line a ex (u_core s) r c') as
    (a1 & Hpar & Hcl & Hpr & Hc1); [apply Hi|done..|].
  assert (inv a1 pl (match r with Some q => req_addrs q | None => [] end ++ ex) (set_core c' s))
    as Hi1 by (eapply (inv_set_core a a1); [apply Hi|done..]).
  unfold line_parsed in Hpar. unfold line_labels in HQ. destruct (spec_parse line) as [|n|id|u id t m cmd args].
  - destruct Hpar as [-> ->]. cbn. wp_go. eapply HQ; [constructor|done|done|by apply stable_same].
  - destruct Hpar as [-> ->]. cbn. wp_go. eapply HQ; [|done|exact Hi1|by apply stable_same].
    destruct (Z.leb_spec 1 n); [apply asteps_one; by apply step_parallel|constructor].
  - destruct Hpar as (q & -> & -> & Ht & Hwf & Hm & Hid).
    eapply wp_handle_request; [done..|]. intros ls a2 pl2 s2 Hs2 Hl2 Hi2 Hst2.
    unfold request_labels in Hl2. rewrite Ht in Hl2.
    eapply HQ; [done| |done|eapply stable_trans; [|done]; by apply stable_same]. eauto.
  - destruct Hpar as (q & -> & -> & (Hwf & Ht & Hid) & Hm).
    eapply wp_handle_request; [done..|]. intros ls a2 pl2 s2 Hs2 Hl2 Hi2 Hst2.
    unfold request_labels in Hl2. rewrite Ht in Hl2.
    eapply HQ; [done| |done|eapply stable_trans; [|done]; by apply stable_same]. eauto.
Qed.

Lemma scan_newline_rep buf off txt l t :
  holds buf off txt → txt = l ++ t → LF ∉ l → (t = [] ∨ ∃ t', t = LF :: t') →
  scan_newline (length txt) buf off = Ok (off + Z.of_nat (length l)).
Proof.
  revert off txt. induction l as [|c l IH]; intros off txt Hh Htxt Hl Ht; subst txt.
  - destruct Ht as [->|[t' ->]]; cbn; [f_equal; lia|].
    pose proof (holds_get _ _ _ 0 LF Hh eq_refl) as Hg. rewrite Z.add_0_r in Hg. rewrite Hg. cbn.
    f_equal. lia.
  - apply not_elem_of_cons in Hl as [Hc Hl]. cbn.
    pose proof (holds_get _ _ _ 0 c Hh eq_refl) as Hg. rewrite Z.add_0_r in Hg. rewrite Hg. cbn.
    rewrite decide_False by done. pose proof (holds_tail _ _ _ _ Hh) as Hd.
    rewrite (IH (off + 1) (l ++ t)) by done. f_equal. lia.
Qed.

Lemma wp_handle_msg_loop lines : ∀ fuel a pl ex s buf key S0 old rest Q,
  inv a pl ex s → holds buf 0 S0 → 0 ≤ old ≤ Z.of_nat (length S0) →
  Z.of_nat (length S0) < 1073741824 →
  split_lines (drop (Z.to_nat old) S0) = (lines, rest) →
  Z.of_nat (length S0) - old ≤ Z.of_nat fuel →
  (∀ lss a' pl' s', asteps a (concat lss) a' → Forall2 (line_labels key) lines lss →
     inv a' pl' ex s' → stable pl s pl' s' →
     Q (Z.of_nat (length S0) - Z.of_nat (length rest)) s') →
  wp (handle_msg_loop fuel buf (Z.of_nat (length S0)) key old) Q ending s.
Proof.
  induction lines as [|line lines IH];
    intros fuel a pl ex s buf key S0 old rest Q Hi Hh Hold Hlen Hsp Hfuel HQ.
  - destruct (split_lines_spec _ _ _ Hsp) as (Hd & _ & Hr). cbn in Hd.
    assert (Z.of_nat (length S0) - Z.of_nat (length rest) = old) as Hres.
    { rewrite <- Hd, length_drop. lia. }
    rewrite Hres in HQ. destruct fuel as [|fuel]; cbn [handle_msg_loop];
      (destruct (Z.ltb_spec old (Z.of_nat (length S0))); [try lia|
        wp_go; eapply (HQ []); [constructor|constructor|done|apply stable_refl]]).
    wp_go. pose proof (holds_drop _ _ _ (Z.to_nat old) Hh) as Hh'.
    replace (0 + Z.of_nat (Z.to_nat old)) with old in Hh' by lia.
    eapply wp_lift_ok.
    { replace (Z.to_nat (Z.of_nat (length S0) - old)) with (length (drop (Z.to_nat old) S0))
        by (rewrite length_drop; lia).
      eapply (scan_newline_rep buf old _ rest []); [done|by rewrite app_nil_r|done|by left]. }
    wp_go. rewrite (proj2 (Z.eqb_eq _ _)) by lia. wp_go.
    eapply (HQ []); [constructor|constructor|done|apply stable_refl].
  - destruct (split_lines_spec _ _ _ Hsp) as (Hd & Hf & Hr). cbn in Hd. rewrite <- !app_assoc in Hd.
    apply Forall_cons in Hf as [Hline Hf]. cbn in Hd.
    pose proof (f_equal length Hd) as Hl. rewrite length_drop, length_app in Hl. cbn in Hl.
    destruct fuel as [|fuel]; [lia|]. cbn [handle_msg_loop].
    rewrite (proj2 (Z.ltb_lt _ _)) by lia. wp_go.
    pose proof (holds_drop _ _ _ (Z.to_nat old) Hh) as Hh'.
    replace (0 + Z.of_nat (Z.to_nat old)) with old in Hh' by lia.
    eapply wp_lift_ok.
    { replace (Z.to_nat (Z.of_nat (length S0) - old)) with (length (drop (Z.to_nat old) S0))
        by (rewrite length_drop; lia).
      eapply (scan_newline_rep buf old _ line); [done|exact Hd|done|by right; eauto]. }
    rewrite (proj2 (Z.eqb_neq _ _)) by lia.
    replace (old + Z.of_nat (length line) - old) with (Z.of_nat (length line)) by lia.
    assert (holds buf old line) as Hhl.
    { destruct Hh' as [H0' Hb]. split; [done|]. intros i ch Hi'. apply Hb. rewrite Hd.
      by apply lookup_app_l_Some. }
    apply wp_bind_assoc. eapply wp_line; [done|done|lia|].
    intros ls a1 pl1 s1 Hs1 Hl1 Hi1 Hst1.
    eapply (IH fuel a1 pl1 ex s1 buf key S0 (old + Z.of_nat (length line) + 1) rest);
      [done|done|lia|done| |lia|].
    + replace (Z.to_nat (old + Z.of_nat (length line) + 1))
        with (Z.to_nat old + (length line + 1))%nat by lia.
      rewrite <- drop_drop, Hd. rewrite (drop_app_ge line) by lia.
      replace (length line + 1 - length line)%nat with 1%nat by lia. cbn.
      rewrite <- (app_nil_r lines) at 2. apply split_lines_concat; [done|].
      by apply split_lines_rest.
    + intros lss a2 pl2 s2 Hs2 Hl2 Hi2 Hst2. eapply (HQ (ls :: lss)); [|by constructor|done|].
      * cbn. by eapply asteps_app.
      * by eapply stable_trans.
Qed.
End msgs.
