(* ===== verification/ServerLoop.v ===== *)
(** * The event loop of the Unix server

    Accepting, closing, reading from and writing to a client, scheduling, and
    the main loop: every iteration is a sequence of steps of the abstract server. *)

From S2P Require Import Prelude Queue ArrayList CString ReadBuf WriteBuf State Options Request UnixOS.
From S2P Require Import ServerUnix ServerPoll ServerAbs ServerInv ServerNet ServerHandlers ServerProcs.
From S2P Require Import ServerMsgs.
From Stdlib Require Import Ascii.

(** The steps caused by a chunk of bytes received from [fd]: the complete lines
    of what was received so far are handled in order, and removed. *)
Definition recv_labels (fd : Z) (pending : list ascii) (bs : list ascii) (ls : list alabel) : Prop :=
  ∃ lines rest lss taken, split_lines (pending ++ bs) = (lines, rest) ∧
    Forall2 (line_labels fd) lines lss ∧
    taken = Z.of_nat (length (pending ++ bs)) - Z.of_nat (length rest) ∧
    ls = ARecv fd bs :: concat lss ++ (if 0 <? taken then [ATake fd taken] else []).

(** The steps caused by the answer of a [read] from [fd]: none after an error,
    the end of the connection when there is nothing more to read. *)
Definition read_labels (fd : Z) (pending : list ascii) (r : list ascii + Z) (ls : list alabel) : Prop :=
  match r with
  | inr _ => ls = []
  | inl [] => ls = [AClose fd]
  | inl bs => recv_labels fd pending bs ls
  end.

Section loop.
Context `{Libc} {W : Type} `{UnixOSLaws W} `{!Start W}.
Implicit Types (a : astate) (ex : list positive) (s : ustate W) (pl : list pollfd).

(** ** Reading *)

Lemma wp_handle_msg a pl ex s fd c Q :
  inv a pl ex s → a_clients a !! fd = Some c →
  (∀ lines rest, split_lines (ac_in c) = (lines, rest) → lines ≠ [] →
     Z.of_nat (length (ac_in c)) - Z.of_nat (length rest) < Z.of_nat (length rest) → long_tail) →
  (∀ lines rest lss taken a' pl' s',
     split_lines (ac_in c) = (lines, rest) → Forall2 (line_labels fd) lines lss →
     taken = Z.of_nat (length (ac_in c)) - Z.of_nat (length rest) →
     asteps a (concat lss ++ (if 0 <? taken then [ATake fd taken] else [])) a' →
     inv a' pl' ex s' → stable pl s pl' s' → Q tt s') →
  wp (handle_msg (ac_addr c) fd) Q ending s.
Proof.
  intros Hi Hc Htail HQ. unfold handle_msg. wp_go.
  destruct (inv_client _ _ _ _ _ _ Hi Hc) as (cl & Hat & Hcl & Hfd & Hrb & _).
  eapply wp_Ok; [exact Hat|]. wp_go. pose proof alloc_max_range as Hmax.
  pose proof (rr_cap _ _ Hrb). pose proof (rr_fit _ _ Hrb).
  rewrite (rr_len _ _ Hrb), cast_int_small by (pose proof (rr_len _ _ Hrb); unfold INT_MIN, INT_MAX; lia).
  rewrite Nat2Z.id. destruct (split_lines (ac_in c)) as [lines rest] eqn:Hsp.
  assert (Z.of_nat (length (ac_in c)) < 1073741824) as Hlen by (pose proof (rr_len _ _ Hrb); lia).
  eapply (wp_handle_msg_loop lines); [done| |lia|done|exact Hsp|lia|].
  { split; [lia|]. intros i ch Hch. apply (rr_elems _ _ Hrb i ch Hch). }
  intros lss a1 pl1 s1 Hs1 Hl1 Hi1 Hst1. set (taken := _ - _).
  assert (0 ≤ taken ≤ Z.of_nat (length (ac_in c))) as Htk.
  { destruct (split_lines_spec _ _ _ Hsp) as (Heq & _). unfold taken. split; [|lia].
    rewrite Heq, length_app. lia. }
  destruct (Z.ltb_spec 0 taken) as [Hpos|Hz].
  2:{ wp_go. eapply (HQ lines rest lss taken); [done..| |done|done].
      rewrite (proj2 (Z.ltb_ge _ _)) by lia. by rewrite app_nil_r. }
  assert (client_frame a a1) as Hfr.
  { eapply asteps_client_frame; [done|]. apply Forall_concat.
    clear -Hl1. induction Hl1; constructor; [by eapply line_labels_quiet|done]. }
  destruct (Hfr fd c Hc) as (o & Hc1).
  destruct (inv_client _ _ _ _ _ _ Hi1 Hc1) as (cl1 & Hat1 & Hcl1 & Hfd1 & Hrb1 & Hwb1).
  cbn [ac_addr set_out] in *. wp_go. eapply wp_Ok; [exact Hat1|]. wp_go.
  pose proof (have_taken_rep (cl_readbuf cl1) (ac_in c) taken Hrb1 ltac:(lia)) as Htaken.
  case_decide as Hover.
  { apply wp_lift. rewrite Htaken. apply ending_overlap. eapply Htail; [done| |lia].
    intros ->. destruct (split_lines_spec _ _ _ Hsp) as (Heq & _). cbn in Heq.
    unfold taken in Hpos. rewrite Heq in Hpos. lia. }
  destruct Htaken as (b & Eb & Hb). eapply wp_lift_ok; [done|]. eapply wp_set_readbuf; [done|].
  eapply (HQ lines rest lss taken); [done..| | |].
  - rewrite (proj2 (Z.ltb_lt _ _)) by lia. eapply asteps_snoc; [done|].
    by eapply step_take; [exact Hc1|cbn; lia].
  - refine (inv_update_in a1 pl1 ex s1 fd (set_out o c) (drop (Z.to_nat taken) (ac_in c)) _ Hi1 Hc1 _).
    split; [done|]. split; [done|]. exact Hwb1.
  - eapply stable_trans; [done|by apply stable_same].
Qed.

(** ** Closing *)

Lemma inv_close a pl ex s fd c l' arr' w' t :
  inv a pl ex s → a_clients a !! fd = Some c →
  list_models l' (delete fd (ac_addr <$> a_clients a)) →
  poll_rep arr' (u_poll_num s) (u_poll_len s) (remove_fd fd pl) →
  view w' = mk_view (v_children (view (u_world s))) (v_fds (view (u_world s)) ∖ {[fd]})
              (v_listeners (view (u_world s)) ∖ {[fd]}) →
  os_step (u_world s) w' →
  inv (a_set_clients (delete fd (a_clients a)) a) (remove_fd fd pl) (ac_addr c :: ex)
    (set_heap (delete (ac_addr c) (u_heap s))
      (set_world w' t (set_poll arr' (u_poll_num s) (u_poll_len s) (set_clients (Some l') s)))).
Proof.
  intros Hi Hc Hl Hpr Hv Hstep. destruct (inv_client_fd _ _ _ _ _ _ Hi Hc) as (Hw & Hpos & Hns & Hnp).
  destruct Hi as [Hcore Hni].
  pose proof (remove_fd_watched fd pl Hw) as Hrw.
  pose proof (ni_nodup _ _ _ Hni) as Hnd. rewrite Hrw in Hnd. apply NoDup_cons in Hnd as [Hnin Hnd].
  assert (∀ fd', fd' ∈ watched (remove_fd fd pl) ↔ fd' ≠ fd ∧ fd' ∈ watched pl) as Hwt.
  { intros fd'. rewrite Hrw, elem_of_cons. split; [|naive_solver].
    intros Hin. split; [|by right]. by intros ->. }
  split.
  - eapply (core_inv_ext a _ ex); [|done..]. cbn.
    rewrite (owns_close a fd c ex Hc). rewrite (owns_ex _ (_ :: ex)), (owns_ex _ ex). done.
  - pose proof (ni_watched _ _ _ Hni) as Hwat. pose proof (ni_events _ _ _ Hni) as Hev.
    pose proof (ni_fds _ _ _ Hni) as Hf. pose proof (ni_heap _ _ _ Hni) as Hh.
    pose proof (ni_listen _ _ _ Hni) as Hli. pose proof (ni_sock _ _ _ Hni).
    pose proof (ni_pipe _ _ _ Hni). destruct Hni. split; cbn; rewrite ?Hv; cbn; try done.
    + exists l'. split; [done|]. by rewrite fmap_delete.
    + intros fd' c' [Hne Hc']%lookup_delete_Some. destruct (Hh fd' c' Hc') as (cl & Hcl & Hr).
      exists cl. split; [|done]. rewrite lookup_delete_ne; [done|]. intros Heq. apply Hne.
      by eapply (owned_addr_inj _ a ex fd fd' c c' (ci_owned _ _ _ Hcore)).
    + intros fd'. rewrite Hwt, Hwat, dom_delete_L, elem_of_difference, elem_of_singleton.
      naive_solver.
    + intros e [j Hj]%list_elem_of_lookup_1 Hne.
      assert (pf_fd e ≠ fd) as Hefd.
      { intros Heq. apply Hnin. apply elem_of_watched. split; [lia|].
        apply list_elem_of_fmap. exists e. split; [done|]. by eapply list_elem_of_lookup_2. }
      destruct (remove_fd_lookup _ _ _ _ Hj) as (e0 & Hj' & [->|[? _]]); [|congruence].
      rewrite (Hev e0 (list_elem_of_lookup_2 _ _ _ Hj') Hne).
      unfold wanted. by rewrite lookup_delete_ne.
    + by eapply reached_step.
    + intros fd' [Hne Hin]%Hwt. apply Hf in Hin. set_solver.
    + set_solver.
    + set_solver.
    + set_solver.
Qed.

Lemma wp_close_client a pl ex s fd c Q :
  inv a pl ex s → a_clients a !! fd = Some c →
  (∀ a' s', astep a (AClose fd) a' → inv a' (remove_fd fd pl) ex s' →
     stable pl s (remove_fd fd pl) s' → Q tt s') →
  wp (close_client (ac_addr c)) Q ending s.
Proof.
  intros Hi Hc HQ. unfold close_client. wp_go.
  destruct (inv_client _ _ _ _ _ _ Hi Hc) as (cl & Hat & Hcl & Hfd & Hrb & w & msgs & ptr & Hwb & _).
  eapply wp_Ok; [exact Hat|]. wp_go. rewrite Hfd.
  destruct (ni_clients _ _ _ (proj2 Hi)) as (l & Hl & Hlm).
  eapply wp_Ok; [unfold get_clients; by rewrite Hl|]. wp_go.
  destruct (list_models_remove _ _ fd Hlm) as (l' & El & Hl').
  eapply wp_lift_ok; [done|]. wp_go. eapply wp_poll_remove; [apply (ni_poll _ _ _ (proj2 Hi))|].
  intros arr' Harr. wp_go. eapply wp_set_readbuf; [exact Hcl|]. wp_go.
  eapply wp_lift_ok; [by eapply free_writebuf_rep|]. wp_go.
  apply wp_syscall. intros r w' Hos. pose proof (os_step_call _ _ _ _ Hos) as Hstep.
  apply os_close in Hos. wp_go.
  set (s1 := set_heap _ _).
  assert (∃ t, s1 = set_heap (delete (ac_addr c) (u_heap s)) (set_world w' t
      (set_poll arr' (u_poll_num s) (u_poll_len s) (set_clients (Some l') s))) ∧
    inputs t = inputs (u_trace s)) as (t & Hs1 & Ht).
  { eexists. split; [|by apply (inputs_quiet (u_trace s) (SysRec (SysClose fd) r))].
    unfold s1, set_heap, set_world. cbn. by rewrite delete_insert_eq. }
  clearbody s1. subst s1. set (s1 := set_heap _ _).
  assert (inv (a_set_clients (delete fd (a_clients a)) a) (remove_fd fd pl) (ac_addr c :: ex) s1)
    as Hi1 by (exact (inv_close a pl ex s fd c l' arr' w' _ Hi Hc Hl' Harr Hos Hstep)).
  unfold on_core at 1. wp_go. eapply wp_free_inv; [apply Hi1|]. intros c1 Hc1. wp_go.
  unfold on_core at 1. wp_go.
  set (s2 := set_core _ _).
  assert (inv (a_set_clients (delete fd (a_clients a)) a) (remove_fd fd pl) ex s2) as Hi2
    by (change s2 with (set_core c1 s1); by eapply inv_set_core_same).
  destruct (_ && _).
  - unfold shutdown_server, on_core. wp_go. destruct (ci_name _ _ _ Hc1) as [name Hn].
    change (c_socketname (u_core s2)) with (c_socketname c1). rewrite Hn. wp_go.
    apply wp_syscall. intros r2 w2 _. wp_go. apply wp_shutdown.
    pose proof (inv_can_shutdown _ _ _ _ Hi2) as Hcs. done.
  - wp_go. eapply HQ; [by eapply step_close|done|]. split; [|by rewrite remove_fd_length].
    intros j e' Hj. destruct (remove_fd_lookup _ _ _ _ Hj) as (e & He & [->|?]); eauto 6.
Qed.

Lemma wp_read_on_client a pl ex s fd c r w' Q :
  inv a pl ex s → a_clients a !! fd = Some c → LF ∉ ac_in c →
  os (SysRead fd READ_ONCE) (u_world s) = (r, w') →
  let s1 := set_world w' (u_trace s ++ [SysRec (SysRead fd READ_ONCE) r]) s in
  (∀ ls a' pl' s', asteps a ls a' → read_labels fd (ac_in c) r ls → inv a' pl' ex s' →
     stable pl s1 pl' s' → (∀ errno, r = inr errno → u_trace s' = u_trace s1) → Q tt s') →
  wp (read_on_client (ac_addr c)) Q ending s.
Proof.
  intros Hi Hc Hlf Hos s1 HQ. unfold read_on_client. wp_go.
  destruct (inv_client _ _ _ _ _ _ Hi Hc) as (cl & Hat & Hcl & Hfd & Hrb & Hwb).
  eapply wp_Ok; [exact Hat|]. wp_go.
  eapply wp_lift_oom; [apply (prepare_read_rep _ _ _ Hrb); unfold READ_ONCE, INT_MAX; lia
    |auto with wp|]. intros [off b] (-> & Hb & Hroom). wp_go.
  eapply wp_set_readbuf; [done|]. wp_go. set (s2 := set_heap _ s).
  assert (inv a pl ex s2) as Hi1.
  { assert (a = a_set_clients (<[fd := set_in (ac_in c) c]> (a_clients a)) a) as Ha.
    { destruct a, c. cbn in *. unfold a_set_clients, set_in. cbn. by rewrite insert_id. }
    rewrite Ha. by apply inv_update_in. }
  rewrite Hfd. eapply wp_syscall_neutral; [exact Hi1|done|]. intros r' w'' Hi2 Hos'.
  change (u_world s2) with (u_world s) in Hos'. rewrite Hos in Hos'. simplify_eq.
  destruct r' as [bs|errno].
  2:{ wp_go. eapply HQ; [constructor|done|done|by apply stable_same|done]. }
  pose proof (os_read _ _ _ _ _ Hos) as Hbs. cbn in Hbs. specialize (Hbs ltac:(unfold READ_ONCE; lia)).
  destruct (Z.eqb_spec (Z.of_nat (length bs)) 0) as [Hz|Hnz].
  { destruct bs; [|done]. eapply wp_close_client; [exact Hi2|done|]. intros a' s' Hst Hi3 Hstab.
    eapply HQ; [by apply asteps_one|done|done| |done].
    eapply stable_trans; [|exact Hstab]. by apply stable_same. }
  wp_go. destruct (fill_read_rep b (ac_in c) READ_ONCE bs Hb) as (b1 & b2 & E1 & E2 & Hb2); [done|done|].
  eapply wp_lift_ok; [exact E1|]. wp_go. eapply wp_lift_ok; [exact E2|]. wp_go.
  eapply wp_set_readbuf; [apply lookup_insert_eq|]. cbn [cl_fd cl_writebuf].
  set (s3 := set_heap _ _).
  assert (inv (a_set_clients (<[cl_fd cl := set_in (ac_in c ++ bs) c]> (a_clients a)) a) pl ex s3) as Hi3.
  { refine (inv_update_in a pl ex _ (cl_fd cl) c (ac_in c ++ bs) _ Hi2 Hc _). by split; [|split]. }
  change (ac_addr c) with (ac_addr (set_in (ac_in c ++ bs) c)).
  eapply wp_handle_msg; [exact Hi3|cbn; apply lookup_insert_eq| |].
  - cbn. intros lines rest Hsp Hne Hlt.
    destruct (split_lines_tail _ _ _ _ Hsp Hlf Hne) as [line ->].
    destruct (split_lines_spec _ _ _ Hsp) as (_ & _ & Hrest).
    exists (cl_fd cl), line, rest. split; [|split; [done|]].
    + eapply answered_call; [apply (ni_reached _ _ _ (proj2 Hi))|exact Hos].
    + rewrite !length_app in Hlt. cbn in Hlt. lia.
  - intros lines rest lss taken a4 pl4 s4 Hsp Hl4 Htk Hs4 Hi4 Hst4.
    eapply HQ; [| |exact Hi4|eapply stable_trans; [|exact Hst4]; by apply stable_same|done].
    + eapply asteps_cons; [|exact Hs4]. apply step_recv; [done|]. by destruct bs.
    + destruct bs; [done|]. by exists lines, rest, lss, taken.
Qed.

(** ** Accepting *)

Lemma inv_accept a pl ex s fd x cl l' arr' num' len' :
  inv a pl (x :: ex) s → (fd ∉ watched pl) → fd ∈ v_fds (view (u_world s)) →
  client_rep cl fd (mk_ac x [] []) →
  list_models l' (<[fd := x]> (ac_addr <$> a_clients a)) →
  poll_rep arr' num' len' (pl ++ [mk_pollfd fd POLLIN 0]) →
  inv (a_set_clients (<[fd := mk_ac x [] []]> (a_clients a)) a) (pl ++ [mk_pollfd fd POLLIN 0]) ex
    (set_poll arr' num' len' (set_clients (Some l') (set_heap (<[x := cl]> (u_heap s)) s))).
Proof.
  intros Hi Hnew Hfd Hr Hl Hp. pose proof (fds_nonneg (u_world s) fd Hfd) as Hpos.
  destruct Hi as [Hcore Hni].
  pose proof (ni_watched _ _ _ Hni) as Hwat.
  assert (a_clients a !! fd = None) as Hnone.
  { apply not_elem_of_dom. intros Hd. apply Hnew, Hwat. auto. }
  assert (watched (pl ++ [mk_pollfd fd POLLIN 0]) = watched pl ++ [fd]) as Hw.
  { unfold watched. rewrite fmap_app, filter_app. cbn. by rewrite decide_True by lia. }
  split.
  - eapply (core_inv_ext a _ (x :: ex)); [|done..].
    rewrite owns_accept by done. cbn. rewrite (owns_ex _ (x :: ex)), (owns_ex _ ex). done.
  - pose proof (ni_events _ _ _ Hni) as Hev. pose proof (ni_fds _ _ _ Hni) as Hf.
    pose proof (ni_heap _ _ _ Hni) as Hh. pose proof (ni_nodup _ _ _ Hni) as Hnd.
    pose proof (ni_sock _ _ _ Hni) as Hs1. pose proof (ni_pipe _ _ _ Hni) as Hs2.
    destruct Hni. split; cbn; try done.
    + exists l'. split; [done|]. by rewrite fmap_insert.
    + intros fd' c'. destruct (decide (fd = fd')) as [<-|Hne].
      * rewrite lookup_insert_eq. intros [= <-]. cbn. rewrite lookup_insert_eq. eauto.
      * rewrite lookup_insert_ne by done. intros Hc'. rewrite lookup_insert_ne; [by apply Hh|].
        intros Heq. destruct (ci_owned _ _ _ Hcore) as [Hndo _].
        rewrite (owns_ex a (x :: ex)) in Hndo. cbn in Hndo. apply NoDup_cons in Hndo as [Hin _].
        apply Hin. rewrite <- owns_ex, (owns_close a fd' c' ex Hc'). rewrite Heq. constructor.
    + rewrite Hw. apply NoDup_app. split; [done|]. split; [set_solver|].
      apply NoDup_singleton.
    + intros fd'. rewrite Hw, elem_of_app, list_elem_of_singleton, Hwat, dom_insert_L. set_solver.
    + intros e [He|He]%elem_of_app Hne.
      * rewrite (Hev e He Hne). symmetry. apply wanted_insert_ne. intros Heq. apply Hnew.
        apply elem_of_watched. split; [lia|]. apply list_elem_of_fmap. by exists e.
      * apply list_elem_of_singleton in He as ->. cbn. by rewrite wanted_insert_eq.
    + rewrite Hw. intros fd' [Hin|Hin]%elem_of_app; [by apply Hf|].
      apply list_elem_of_singleton in Hin as ->. done.
    + rewrite dom_insert_L. intros [Heq%elem_of_singleton|?]%elem_of_union; [|done].
      apply Hnew, Hwat. auto.
    + rewrite dom_insert_L. intros [Heq%elem_of_singleton|?]%elem_of_union; [|done].
      apply Hnew, Hwat. auto.
Qed.

Lemma wp_server_accept_client a pl ex s Q :
  inv a pl ex s →
  (∀ fd a' s', astep a (AAccept fd) a' → inv a' (pl ++ [mk_pollfd fd POLLIN 0]) ex s' →
     (fd ∉ watched pl) → u_server_sock s' = u_server_sock s → u_cpipe s' = u_cpipe s →
     inputs (u_trace s') = inputs (u_trace s) ++ [IConnect fd] → Q tt s') →
  wp server_accept_client Q ending s.
Proof.
  intros Hi HQ. unfold server_accept_client. wp_go. apply wp_syscall. intros fd w' Hos.
  pose proof (os_step_call _ _ _ _ Hos) as Hstep. apply os_accept in Hos.
  destruct (inv_opens a pl ex s fd w' (u_trace s ++ [SysRec (SysAccept (u_server_sock s)) fd])
    Hi Hos Hstep) as [Hi1 Hnew]. wp_go.
  destruct (Z.eqb_spec fd (-1)) as [->|Hne]; [by eapply wp_shutdown_inv|]. wp_go.
  assert (fd ∈ v_fds (view w')) as Hin.
  { destruct Hos as [[? _]|(_ & _ & ->)]; [done|]. cbn. set_solver. }
  eapply wp_malloc_on; [exact Hi1|]. intros x c' Hc' Hi2. wp_go.
  eapply wp_lift_oom; [by apply init_readbuf_rep|auto with wp|]. intros rb Hrb. wp_go.
  unfold on_core. wp_go.
  eapply wp_lift_oom; [apply init_writebuf_oom; pose proof (ci_par _ _ _ (proj1 Hi2)); lia|auto with wp|].
  intros wb Hwb. wp_go. destruct (ni_clients _ _ _ (proj2 Hi)) as (l & Hl & Hlm).
  eapply wp_Ok; [unfold get_clients; cbn; by rewrite Hl|]. wp_go.
  eapply wp_lift_oom; [apply list_models_append_oom; [exact Hlm|]|auto with wp|].
  { rewrite lookup_fmap. apply fmap_None, not_elem_of_dom. intros Hd.
    apply Hnew, (ni_watched _ _ _ (proj2 Hi)). auto. }
  intros l' Hl'. wp_go. eapply wp_add_to_poll; [apply (ni_poll _ _ _ (proj2 Hi))|auto with wp|].
  intros arr' len' Harr. eapply (HQ fd); [apply (step_accept a fd x)| |done..|by apply inputs_snoc].
  - apply not_elem_of_dom. intros Hd. apply Hnew, (ni_watched _ _ _ (proj2 Hi)). auto.
  - refine (inv_accept a pl ex _ fd x (mk_client fd rb wb) l' arr' _ len' Hi2 Hnew _ _ Hl' Harr).
    + exact Hin.
    + split; [done|]. split; [done|]. by exists false, [], 0.
Qed.

(** ** Writing *)

Lemma poll_unwant_out a pl fd i e c :
  NoDup (watched pl) → fd ≠ -1 →
  (∀ e, e ∈ pl → pf_fd e ≠ -1 → pf_events e = wanted (a_clients a) (pf_fd e)) →
  pl !! i = Some e → pf_fd e = fd → pf_events e = POLLINOUT →
  ∀ e', e' ∈ <[i := on_events (λ ev, Z.land ev (Z.lnot POLLOUT)) e]> pl → pf_fd e' ≠ -1 →
    pf_events e' = wanted (<[fd := set_out [] c]> (a_clients a)) (pf_fd e').
Proof.
  intros Hnd Hfd He Hi Hefd Hev e' [j Hj]%list_elem_of_lookup_1 Hne.
  pose proof (lookup_lt_Some _ _ _ Hi) as Hlt. destruct (decide (i = j)) as [<-|Hij].
  - rewrite list_lookup_insert_eq in Hj by done. injection Hj as <-. cbn.
    by rewrite Hefd, wanted_insert_eq, Hev.
  - rewrite list_lookup_insert_ne in Hj by done. rewrite wanted_insert_ne.
    + apply He; [by eapply list_elem_of_lookup_2|done].
    + intros Heq. apply Hij. eapply (watched_inj pl); [done..|congruence|congruence].
Qed.

Lemma wp_write_to_client a pl ex s fd c i e Q :
  inv a pl ex s → a_clients a !! fd = Some c → pl !! i = Some e → pf_fd e = fd →
  pf_events e = POLLINOUT →
  (∀ ls a' pl' s', asteps a ls a' → (ls = [] ∨ ∃ n, ls = [AWrite fd n]) → inv a' pl' ex s' →
     length pl' = length pl → (∀ j, j ≠ i → pl' !! j = pl !! j) →
     u_server_sock s' = u_server_sock s → u_cpipe s' = u_cpipe s →
     inputs (u_trace s') = inputs (u_trace s) → Q tt s') →
  wp (write_to_client (ac_addr c) (Z.of_nat i)) Q ending s.
Proof.
  intros Hi Hc Hpi Hefd Hev HQ. unfold write_to_client. wp_go.
  destruct (inv_client _ _ _ _ _ _ Hi Hc) as (cl & Hat & Hcl & Hfd & Hrb & busy & msgs & ptr & Hwb & Hp & Hbusy).
  destruct (inv_client_fd _ _ _ _ _ _ Hi Hc) as (Hw & Hpos & _).
  pose proof (ni_events _ _ _ (proj2 Hi)) as Hevs.
  assert (ac_out c ≠ []) as Hout.
  { intros Hno. rewrite (Hevs e) in Hev by (lia || by eapply list_elem_of_lookup_2).
    unfold wanted in Hev. by rewrite Hefd, Hc, decide_True in Hev. }
  assert (∃ m ms, msgs = m :: ms) as (m & ms & ->).
  { destruct msgs; [|eauto]. exfalso. apply Hout. rewrite <- Hp. by apply (pending_nil _ _ _ _ Hwb). }
  eapply wp_Ok; [exact Hat|]. wp_go. destruct busy.
  { apply wp_lift. rewrite (prepare_write_busy _ _ _ Hwb). apply ending_assert. left. auto. }
  destruct (prepare_write_rep _ _ _ _ Hwb) as (buf & size & b1 & E1 & Hwb1 & Hsz & Hszd & Htake).
  eapply wp_lift_ok; [exact E1|]. wp_go. eapply wp_set_writebuf; [done|]. wp_go.
  apply wp_syscall. intros r w' Hos. set (t := u_trace (set_heap _ s) ++ _).
  assert (inputs t = inputs (u_trace s)) as Ht by (by apply (inputs_quiet (u_trace s))). clearbody t.
  assert (inv a pl ex (set_world w' t s)) as Hi1.
  { apply inv_world; [done|by eapply os_neutral|]. by eapply rtc_once, os_step_call. }
  destruct r as [n|errno].
  2:{ wp_go. eapply wp_Ok; [unfold client_at; cbn; by rewrite lookup_insert_eq|]. cbn [cl_writebuf].
      rewrite (has_write_data_rep _ _ _ _ Hwb1), bool_decide_true by done. wp_go.
      eapply (HQ [] a pl); [constructor|by left| |done..|exact Ht].
      assert (a = a_set_clients (<[fd := set_in (ac_in c) c]> (a_clients a)) a) as Ha.
      { destruct a, c. cbn in *. unfold a_set_clients, set_in. cbn. by rewrite insert_id. }
      rewrite Ha. refine (inv_update_in a pl ex _ fd c (ac_in c) _ Hi1 Hc _).
      split; [done|]. split; [done|]. exists true, (m :: ms), ptr. split; [done|]. split; [done|].
      intros _. exists (cl_fd cl), (take (Z.to_nat size) buf), errno.
      eapply answered_call; [apply (ni_reached _ _ _ (proj2 Hi))|exact Hos]. }
  pose proof (os_write _ _ _ _ _ Hos) as Hn. cbn in Hn.
  pose proof (os_neutral _ _ _ _ Hos eq_refl) as Hv.
  assert (Z.of_nat (length (take (Z.to_nat size) buf)) = size) as Hlen.
  { rewrite Htake, length_drop. destruct Hwb as (_ & _ & _ & _ & _ & ? & _). lia. }
  rewrite Hlen in Hn. wp_go.
  destruct (have_written_rep b1 m ms ptr n Hwb1) as (b2 & msgs2 & ptr2 & E2 & Hwb2 & _ & Hp2); [lia|].
  eapply wp_lift_ok; [exact E2|].
  eapply wp_set_writebuf; [apply lookup_insert_eq|]. cbn [cl_fd cl_readbuf].
  wp_go. eapply wp_Ok; [unfold client_at; cbn; by rewrite lookup_insert_eq|]. cbn [cl_writebuf].
  set (c' := set_out (drop (Z.to_nat n) (ac_out c)) c).
  set (cl' := mk_client (cl_fd cl) (cl_readbuf cl) b2).
  assert (client_rep cl' fd c') as Hr'.
  { split; [done|]. split; [done|]. exists false, msgs2, ptr2. split; [done|]. split; [|done]. cbn. by rewrite Hp2, Hp. }
  pose proof (has_write_data_out cl' fd c' Hr') as Hhas. cbn [cl_writebuf cl'] in Hhas.
  rewrite Hhas.
  assert (astep a (AWrite fd n) (a_set_clients (<[fd := c']> (a_clients a)) a)) as Hstep.
  { apply step_write; [done|]. rewrite <- Hp, pending_cons by (destruct Hwb as (_ & _ & _ & _ & _ & ? & _); lia).
    rewrite length_app, <- Htake. lia. }
  set (s1 := set_heap _ _).
  assert (s1 = set_heap (<[ac_addr c := cl']> (u_heap s)) (set_world w' t s)) as Hs1.
  { unfold s1, set_heap, set_world. cbn. by rewrite insert_insert_eq. }
  clearbody s1. subst s1.
  destruct (bool_decide_reflect (ac_out c' ≠ [])) as [Hmore|Hdone]; cbn [negb].
  - wp_go. eapply HQ; [apply asteps_one; exact Hstep|by right; exists n| |done..|exact Ht].
    refine (inv_update_client a pl ex _ fd c c' cl' pl (u_poll_list s) Hi1 Hc eq_refl Hr' _ eq_refl _).
    + apply (ni_poll _ _ _ (proj2 Hi)).
    + intros e' He' Hne. rewrite (Hevs e' He' Hne).
      destruct (decide (fd = pf_fd e')) as [<-|]; [|by rewrite wanted_insert_ne].
      rewrite wanted_insert_eq, decide_False by done. unfold wanted. by rewrite Hc, decide_False.
  - eapply wp_poll_update; [apply (ni_poll _ _ _ (proj2 Hi))|done|]. intros arr' Harr.
    assert (c' = set_out [] c) as Hc'.
    { unfold c' in *. cbn in Hdone. f_equal. destruct (drop _ (ac_out c)); [done|].
      exfalso. by apply Hdone. }
    eapply HQ; [apply asteps_one; exact Hstep|by right; exists n| |by rewrite length_insert| |done..|
      exact Ht].
    + refine (inv_update_client a pl ex _ fd c c' cl' _ arr' Hi1 Hc eq_refl Hr' Harr _ _).
      * by eapply watched_insert.
      * rewrite Hc'. apply poll_unwant_out; try done; [apply (ni_nodup _ _ _ (proj2 Hi))|lia].
    + intros j Hj. by rewrite list_lookup_insert_ne.
Qed.
End loop.
