(* ===== verification/ServerMain.v ===== *)
(** * The main loop of the Unix server

    Scheduling, the poll call, the dispatch of events and the main loop: every
    iteration is a sequence of steps of the abstract server that re-establishes
    the invariant, whatever the operating system answers. *)

From S2P Require Import Prelude Queue ArrayList CString ReadBuf WriteBuf State Options Request UnixOS.
From S2P Require Import ServerUnix ServerPoll ServerAbs ServerInv ServerNet ServerHandlers ServerProcs.
From S2P Require Import ServerMsgs ServerLoop.
From Stdlib Require Import Ascii.

Section main.
Context `{Libc} {W : Type} `{UnixOSLaws W} `{!Start W}.
Implicit Types (a : astate) (ex : list positive) (s : ustate W) (pl : list pollfd).

(** ** Scheduling *)

(** The steps of [schedule_new_jobs]: requests leave the queue in order, each
    one started or, when its client is gone, dropped. *)
Inductive sched_labels : list request → list alabel → Prop :=
  | sched_nil : sched_labels [] []
  | sched_cons r rs l ls :
     (l = ADrop r ∨ ∃ p, l = AStart r p) → sched_labels rs ls →
     sched_labels (r :: rs) (ADequeue r :: l :: ls).

Lemma wp_schedule_loop q : ∀ fuel a pl s Q,
  inv a pl [] s → a_queue a = q → (length q ≤ fuel)%nat →
  (∀ rs rs' ls a' pl' s', asteps a ls a' → a_queue a = rs ++ rs' → sched_labels rs ls →
     a_queue a' = rs' → (rs' = [] ∨ ¬ a_room a') →
     inv a' pl' [] s' → stable pl s pl' s' → Q tt s') →
  wp (schedule_loop fuel) Q ending s.
Proof.
  induction q as [|r q IH]; intros fuel a pl s Q Hi Hq Hfuel HQ.
  - assert (queue_is_empty (c_queue (u_core s)) = true) as Hem.
    { rewrite (queue_is_empty_rep _ _ (ci_queue _ _ _ (proj1 Hi))). by apply bool_decide_eq_true. }
    destruct fuel; cbn [schedule_loop]; unfold on_core; wp_go; cbn; rewrite Hem, andb_false_r; wp_go;
      rewrite !set_core_id;
      (eapply (HQ [] []); [constructor|done|constructor|done|by left|done|apply stable_refl]).
  - destruct fuel as [|fuel]; [cbn in Hfuel; lia|]. cbn [schedule_loop]. wp_go.
    unfold on_core at 1. wp_go. unfold on_core at 1. wp_go.
    rewrite !set_core_id.
    rewrite (inv_room _ _ _ _ Hi).
    rewrite (queue_is_empty_rep _ _ (ci_queue _ _ _ (proj1 Hi))), Hq.
    rewrite (bool_decide_eq_false_2 (r :: q = [])) by done.
    destruct (bool_decide_reflect (a_room a)) as [Hroom|Hfull]; cbn [andb negb].
    2:{ wp_go. eapply (HQ [] (r :: q));
          [apply asteps_nil|done|apply sched_nil|done|by right|done|apply stable_refl]. }
    wp_go. unfold on_core at 1. wp_go. eapply wp_pop_request_inv; [apply Hi|done|].
    intros c' Hc' Hr. set (a1 := a_set_queue q a) in *.
    assert (inv a1 pl (req_addrs r ++ []) (set_core c' s)) as Hi1
      by (eapply (inv_set_core a a1); [apply Hi|done..]).
    apply wp_bind_assoc. eapply wp_run_and_free; [exact Hi1|done|done|].
    intros l a2 pl2 s2 Hstep Hl Hq2 Hi2 Hst2.
    eapply IH; [exact Hi2|done|cbn in Hfuel; lia|].
    intros rs rs' ls a3 pl3 s3 Hsteps Hrs Hls Hq3 Hfin Hi3 Hst3.
    rewrite Hq2 in Hrs. cbn in Hrs.
    eapply (HQ (r :: rs) rs' (ADequeue r :: l :: ls)); [|by rewrite Hq, Hrs|by constructor|done..|].
    + eapply asteps_cons; [by apply step_dequeue|]. by eapply asteps_cons.
    + eapply stable_trans; [|exact Hst3]. eapply stable_trans; [|exact Hst2]. by apply stable_same.
Qed.

Lemma wp_schedule_new_jobs a pl s Q :
  inv a pl [] s →
  (∀ rs rs' ls a' pl' s', asteps a ls a' → a_queue a = rs ++ rs' → sched_labels rs ls →
     a_queue a' = rs' → (rs' = [] ∨ ¬ a_room a') →
     inv a' pl' [] s' → stable pl s pl' s' → Q tt s') →
  wp schedule_new_jobs Q ending s.
Proof.
  intros Hi HQ. unfold schedule_new_jobs, on_core. wp_go.
  rewrite !set_core_id.
  eapply wp_schedule_loop; [done|done| |done].
  rewrite (qr_len _ _ (ci_queue _ _ _ (proj1 Hi))). lia.
Qed.

(** ** The poll call *)

Lemma inv_repoll a pl pl' ex s arr' num' len' :
  inv a pl ex s → poll_rep arr' num' len' pl' → watched pl' ≡ₚ watched pl →
  (∀ e, e ∈ pl' → ∃ e0, e0 ∈ pl ∧ pf_fd e = pf_fd e0 ∧ pf_events e = pf_events e0) →
  inv a pl' ex (set_poll arr' num' len' s).
Proof.
  intros [Hc Hni] Hp Hw He. split; [done|].
  pose proof (ni_events _ _ _ Hni) as Hev. pose proof (ni_fds _ _ _ Hni) as Hf.
  pose proof (ni_nodup _ _ _ Hni) as Hnd. pose proof (ni_watched _ _ _ Hni) as Hwat.
  destruct Hni. split; cbn; try done.
  - by rewrite Hw.
  - intros fd. by rewrite Hw, Hwat.
  - intros e Hin Hne. destruct (He e Hin) as (e0 & Hin0 & Hfd & Heq).
    rewrite Heq, Hfd. apply Hev; [done|congruence].
  - intros fd. rewrite Hw. apply Hf.
Qed.

Lemma wp_poll_list_clean a pl ex s Q E :
  inv a pl ex s →
  (∀ pl' s', inv a pl' ex s' → Forall (λ e, pf_fd e ≠ -1) pl' →
     u_server_sock s' = u_server_sock s → u_cpipe s' = u_cpipe s → u_trace s' = u_trace s →
     Q tt s') →
  wp poll_list_clean Q E s.
Proof.
  intros Hi HQ. unfold poll_list_clean. wp_go. pose proof (ni_poll _ _ _ (proj2 Hi)) as Hp.
  destruct (poll_clean_loop_rep (length pl) _ _ _ pl 0 Hp) as (arr' & pl' & El & Hp' & Hperm);
    [done|constructor|].
  eapply wp_lift_ok; [rewrite (pr_num _ _ _ _ Hp) in El |- *; rewrite Nat2Z.id; exact El|].
  wp_go. apply (HQ pl'); [|rewrite Hperm; apply Forall_forall; by intros e [? _]%list_elem_of_filter|done..].
  eapply inv_repoll; [done|done|by rewrite Hperm, watched_filter|].
  intros e He. rewrite Hperm in He. apply list_elem_of_filter in He as [_ He]. eauto.
Qed.

(** The pending events of the entries from [k] on are as [poll] reports them,
    and the number of iterations left is enough. *)
Record loop_ok (k fuel : nat) pl (sock : Z) : Prop := {
  lk_sock : ∀ j e, (k ≤ j)%nat → pl !! j = Some e → pf_fd e = sock →
    pf_revents e = 0 ∨ pf_revents e = POLLIN ∨ odd_listener;
  lk_out : ∀ j e, (k ≤ j)%nat → pl !! j = Some e → Z.land (pf_revents e) POLLOUT ≠ 0 →
    pf_events e = POLLINOUT;
  lk_fuel : (length pl - k ≤ fuel)%nat;
  lk_accept : ∀ j e, (k ≤ j)%nat → pl !! j = Some e → pf_fd e = sock →
    (length pl - k < fuel)%nat
}.

Lemma wp_poll_wait eintr : ∀ a pl ex s Q,
  inv a pl ex s → (0 < length pl)%nat →
  (∀ pl' s', inv a pl' ex s' → length pl' = length pl →
     loop_ok 0 (2 * length pl') pl' (u_server_sock s') →
     u_server_sock s' = u_server_sock s → u_cpipe s' = u_cpipe s →
     inputs (u_trace s') = inputs (u_trace s) → Q tt s') →
  wp (poll_wait eintr) Q ending s.
Proof.
  induction eintr as [|eintr IH]; intros a pl ex s Q Hi Hpos HQ; cbn [poll_wait].
  { apply wp_raise. auto with wp. }
  wp_go. pose proof (ni_poll _ _ _ (proj2 Hi)) as Hp.
  eapply wp_lift_ok.
  { rewrite (pr_num _ _ _ _ Hp), Nat2Z.id. rewrite <- (Nat.sub_0_r (length pl)).
    exact (poll_entries_rep _ _ _ _ 0 Hp (Nat.le_0_l _)). }
  rewrite drop_0. wp_go.
  eapply wp_syscall_neutral; [exact Hi|done|]. intros r w' Hi1 Hos.
  set (t := u_trace s ++ _) in *.
  assert (inputs t = inputs (u_trace s)) as Ht by (by apply inputs_quiet). clearbody t.
  pose proof (os_poll _ _ _ _ Hos) as Hlaw. destruct r as [vs|errno].
  2:{ destruct (errno =? EINTR); [|by eapply wp_shutdown_inv]. eapply IH; [done..|].
      intros pl' s' Hi' Hlen Hok Hsk Hpp Hin. apply (HQ pl'); [done..|]. by rewrite Hin. }
  destruct Hlaw as [Hlen Hlaw]. wp_go.
  destruct (write_revents_rep vs _ _ _ _ 0 Hp) as (arr' & Ew & Hp'); [done|]. cbn in Ew, Hp'.
  eapply wp_lift_ok; [exact Ew|]. wp_go. rewrite drop_0 in Hp'.
  set (pl' := zip_with set_revents pl vs) in *.
  assert (length pl' = length pl) as Hlen' by (unfold pl'; rewrite length_zip_with; lia).
  assert (∀ j e, pl' !! j = Some e → ∃ e0 v, pl !! j = Some e0 ∧ vs !! j = Some v ∧
    e = set_revents e0 v) as Hz.
  { intros j e Hj. unfold pl' in Hj. apply lookup_zip_with_Some in Hj as (e0 & v & -> & ? & ?). eauto. }
  assert (inv a pl' ex (set_poll arr' (u_poll_num s) (u_poll_len s) (set_world w' t s))) as Hi2.
  { eapply inv_repoll; [exact Hi1|done| |].
    - unfold pl'. by rewrite watched_revents.
    - intros e [j Hj]%list_elem_of_lookup_1. destruct (Hz j e Hj) as (e0 & v & He0 & _ & ->).
      exists e0. split; [by eapply list_elem_of_lookup_2|done]. }
  apply (HQ pl'); [exact Hi2|done| |done..|exact Ht]. cbn [u_server_sock set_poll set_world].
  split; [| |lia|intros; lia].
  - intros j e _ Hj Hfd. destruct (Hz j e Hj) as (e0 & v & He0 & Hv & ->). cbn in *.
    destruct (decide (v = 0)); [auto|]. destruct (decide (v = POLLIN)); [auto|].
    right; right. exists pl, vs, j, e0, v, (u_world s), w'.
    split; [apply (ni_reached _ _ _ (proj2 Hi))|]. split_and!; try done.
    rewrite Hfd. apply (ni_listen _ _ _ (proj2 Hi)).
  - intros j e _ Hj Hout. destruct (Hz j e Hj) as (e0 & v & He0 & Hv & ->). cbn in *.
    destruct (Hlaw j e0 v He0 Hv) as [Hneg Hbit].
    destruct (decide (pf_fd e0 < 0)) as [Hlt|Hge]; [rewrite (Hneg Hlt) in Hout; done|].
    specialize (Hbit Hout).
    rewrite (ni_events _ _ _ (proj2 Hi) e0) in Hbit |- * by (lia || by eapply list_elem_of_lookup_2).
    unfold wanted in *. by repeat case_match.
Qed.

Lemma wp_drain_pipe eintr fd : ∀ a pl ex s Q,
  inv a pl ex s →
  (∀ w' t, inv a pl ex (set_world w' t s) → inputs t = inputs (u_trace s) →
     Q tt (set_world w' t s)) →
  wp (drain_pipe eintr fd) Q ending s.
Proof.
  induction eintr as [|eintr IH]; intros a pl ex s Q Hi HQ; cbn [drain_pipe].
  { apply wp_raise. auto with wp. }
  wp_go. eapply wp_syscall_neutral; [exact Hi|done|]. intros r w' Hi1 _.
  assert (inputs (u_trace s ++ [SysRec (SysRead fd 1) r]) = inputs (u_trace s)) as Ht.
  { apply inputs_quiet. by destruct r as [[|]|]. }
  destruct r as [bs|errno]; [by apply HQ|].
  destruct (errno =? EINTR); [|by eapply wp_shutdown_inv]. eapply IH; [exact Hi1|].
  intros w2 t2 Hi2 Ht2. apply (HQ w2 t2); [exact Hi2|]. by rewrite Ht2.
Qed.

(** ** Events *)

Lemma loop_ok_le k fuel pl pl' sock :
  poll_le pl pl' → length pl' = length pl → sock ≠ -1 →
  loop_ok k fuel pl sock → loop_ok k fuel pl' sock.
Proof.
  intros Hle Hlen Hne [Hs Ho Hf Ha]. rewrite <- Hlen in Hf. split; [| |done|].
  - intros j e Hj He Hfd. destruct (Hle j e He) as (e0 & He0 & [[? ?]|(Hfd0 & Hr & _)]); [congruence|].
    rewrite <- Hr. eapply Hs; [done..|congruence].
  - intros j e Hj He Hout. destruct (Hle j e He) as (e0 & He0 & [[_ Hz]|(_ & Hr & Hev)]).
    + rewrite Hz in Hout. done.
    + apply Hev. eapply Ho; [done..|]. by rewrite Hr.
  - intros j e Hj He Hfd. destruct (Hle j e He) as (e0 & He0 & [[? ?]|(Hfd0 & _)]); [congruence|].
    rewrite Hlen. eapply Ha; [done..|congruence].
Qed.

Lemma loop_ok_next k fuel pl sock : loop_ok k (S fuel) pl sock → loop_ok (S k) fuel pl sock.
Proof.
  intros [Hs Ho Hf Ha]. split.
  - intros j e Hj. apply Hs. lia.
  - intros j e Hj. apply Ho. lia.
  - lia.
  - intros j e Hj He Hfd. pose proof (lookup_lt_Some _ _ _ He).
    specialize (Ha j e ltac:(lia) He Hfd). lia.
Qed.

(** The entry that was written to is not looked at again. *)
Lemma loop_ok_written k fuel pl pl' sock :
  length pl' = length pl → (∀ j, j ≠ k → pl' !! j = pl !! j) →
  loop_ok k (S fuel) pl sock → loop_ok (S k) fuel pl' sock.
Proof.
  intros Hlen Hj Hok. destruct (loop_ok_next _ _ _ _ Hok) as [Hs Ho Hf Ha]. rewrite <- Hlen in Hf.
  split; [| |done|].
  - intros j e Hlt. rewrite Hj by lia. by apply Hs.
  - intros j e Hlt. rewrite Hj by lia. by apply Ho.
  - intros j e Hlt. rewrite Hj, Hlen by lia. by apply Ha.
Qed.

(** A client accepted at the entry [k] adds one iteration. *)
Lemma loop_ok_accept k fuel pl e fd sock :
  NoDup (watched pl) → pl !! k = Some e → pf_fd e = sock → sock ≠ -1 → fd ≠ sock →
  loop_ok k (S fuel) pl sock → loop_ok (S k) fuel (pl ++ [mk_pollfd fd POLLIN 0]) sock.
Proof.
  intros Hnd Hk Hfd Hne Hfd' Hok. pose proof (lk_accept _ _ _ _ Hok k e (Nat.le_refl _) Hk Hfd) as Ha.
  destruct (loop_ok_next _ _ _ _ Hok) as [Hs Ho Hf _].
  assert (∀ j e', (S k ≤ j)%nat → (pl ++ [mk_pollfd fd POLLIN 0]) !! j = Some e' →
    pf_fd e' ≠ sock ∧ (pl !! j = Some e' ∨ pf_revents e' = 0)) as Hcase.
  { intros j e' Hj [He|[_ He]]%lookup_app_Some.
    - split; [|by left]. intros Heq. assert (k = j); [|lia].
      eapply (watched_inj pl); [done..|congruence|congruence].
    - destruct (j - length pl)%nat; [|done]. injection He as <-. cbn. auto. }
  split.
  - intros j e' Hj He Heq. destruct (Hcase j e' Hj He). done.
  - intros j e' Hj He Hout. destruct (Hcase j e' Hj He) as [_ [Hpl|Hz]]; [by eapply Ho|].
    rewrite Hz in Hout. done.
  - rewrite length_app. cbn. lia.
  - intros j e' Hj He Heq. destruct (Hcase j e' Hj He). done.
Qed.

(** ** What the trace of the calls tells

    Between two events, what a client sent and was not handled yet is what the
    replay of the calls gives, the limit in force is the last one that was set,
    [J] on the command line and the others by requests, and the running processes
    are within the limits that were set so far. *)

Definition within (K : Z) a : Prop := Z.of_nat (size (a_procs a)) ≤ K ∧ a_parallel a ≤ K.

Record sound (J : Z) a pl s : Prop := {
  so_inv : inv a pl [] s;
  so_heard : heard (u_trace s) a;
  so_parallel : a_parallel a = default J (last (limits (u_trace s)));
  so_limit : ∀ K, 0 ≤ K → J ≤ K → Forall (λ n, n ≤ K) (limits (u_trace s)) → within K a
}.

(** The requests that change the limit ask for at most [K]. *)
Definition parallel_below (K : Z) (ls : list alabel) : Prop :=
  Forall (λ l, match l with AParallel n => n ≤ K | _ => True end) ls.

Lemma a_send_procs fd msg a :
  a_procs (a_send fd msg a) = a_procs a ∧ a_parallel (a_send fd msg a) = a_parallel a.
Proof. unfold a_send. by case_match. Qed.

Lemma asteps_within K a ls a' :
  asteps a ls a' → within K a → parallel_below K ls → within K a'.
Proof.
  induction 1 as [|a l a1 ls a2 Hs Hss IH]; [done|]. intros [Hsz Hpar] [Hl Hls]%Forall_cons.
  apply IH; [|done]. split; destruct Hs; cbn in *; try done.
  - match goal with |- context [a_send ?f ?m ?x] => destruct (a_send_procs f m x) as [-> _] end.
    cbn. rewrite map_size_insert_None by done. unfold a_room in *. lia.
  - match goal with |- context [a_send ?f ?m ?x] => destruct (a_send_procs f m x) as [-> _] end.
    cbn [a_procs a_set_procs]. rewrite map_size_delete_Some by eauto. lia.
  - match goal with |- context [a_send ?f ?m ?x] => destruct (a_send_procs f m x) as [_ ->] end. done.
  - match goal with |- context [a_send ?f ?m ?x] => destruct (a_send_procs f m x) as [_ ->] end. done.
Qed.

(** The limit in force after some steps. *)
Definition parallel_after (p : Z) (ls : list alabel) : Z :=
  foldl (λ p l, match l with AParallel n => n | _ => p end) p ls.

Lemma asteps_parallel a ls a' : asteps a ls a' → a_parallel a' = parallel_after (a_parallel a) ls.
Proof.
  induction 1 as [|a l a1 ls a2 Hs Hss IH]; [done|]. cbn. rewrite IH. f_equal.
  destruct Hs; cbn; try done;
    match goal with |- context [a_send ?f ?m ?x] => by destruct (a_send_procs f m x) as [_ ->] end.
Qed.

(** Steps that bring no input and no new limit. *)
Definition calm (l : alabel) : Prop := keeps_in l ∧ match l with AParallel _ => False | _ => True end.

Lemma parallel_after_calm p ls : Forall calm ls → parallel_after p ls = p.
Proof. induction 1 as [|l ls [_ Hl] Hls IH]; [done|]. cbn. by destruct l. Qed.

Lemma sound_calm J a pl s ls a' pl' s' :
  sound J a pl s → asteps a ls a' → Forall calm ls → inv a' pl' [] s' →
  inputs (u_trace s') = inputs (u_trace s) → sound J a' pl' s'.
Proof.
  intros [Hi Hh Hp Hl] Hs Hc Hi' Ht. split; [done| | |].
  - intros fd c' Hc'. destruct (asteps_came_from _ _ _ Hs) with fd c' as (c & Hc0 & ->);
      [eapply Forall_impl; [done|]; by intros ? [? _]|done|].
    unfold unread. rewrite Ht. by apply Hh.
  - rewrite (asteps_parallel _ _ _ Hs), parallel_after_calm by done. unfold limits. by rewrite Ht.
  - intros K HK HJ Hlim. eapply asteps_within; [done|apply Hl; try done|].
    + unfold limits in *. by rewrite Ht in Hlim.
    + eapply Forall_impl; [done|]. intros l [_ Hnp]. by destruct l.
Qed.

Lemma sched_calm rs ls : sched_labels rs ls → Forall calm ls.
Proof. induction 1 as [|r rs l ls [->|[p ->]]]; repeat constructor; done. Qed.

Lemma reap_calm rs ls : Forall2 reap_label rs ls → Forall calm ls.
Proof. induction 1 as [|r l rs ls [p ->]]; repeat constructor; done. Qed.

(** A client connects. *)
Lemma sound_accept J a pl s fd a' pl' s' :
  sound J a pl s → astep a (AAccept fd) a' → inv a' pl' [] s' →
  inputs (u_trace s') = inputs (u_trace s) ++ [IConnect fd] → sound J a' pl' s'.
Proof.
  intros [Hi Hh Hp Hl] Hs Hi' Ht. inversion Hs; subst. split; [done| | |].
  - intros fd' c. unfold unread, replay. rewrite Ht, foldl_app. cbn.
    destruct (decide (fd = fd')) as [<-|Hne].
    + rewrite !lookup_insert_eq. by intros [= <-].
    + rewrite !lookup_insert_ne by done. apply Hh.
  - unfold limits, replay. rewrite Ht, foldl_app. exact Hp.
  - intros K HK HJ Hlim. apply (Hl K HK HJ). unfold limits, replay in *.
    by rewrite Ht, foldl_app in Hlim.
Qed.

Lemma lines_below K key lines lss :
  Forall2 (line_labels key) lines lss → Forall (λ n, n ≤ K) (omap line_limit lines) →
  parallel_below K (concat lss).
Proof.
  induction 1 as [|line ls lines lss Hl Hls IH]; [constructor|]. cbn. intros Hf.
  apply Forall_app. split; [|apply IH; destruct (line_limit line); [by apply Forall_cons in Hf as [_ ?]|done]].
  unfold line_labels, line_limit in *. destruct (spec_parse line) as [|n|id|u id t m cmd args].
  - subst. constructor.
  - subst. destruct (1 <=? n); [|constructor]. apply Forall_cons in Hf as [? _]. by repeat constructor.
  - destruct Hl as (q & _ & ->). by repeat constructor.
  - destruct Hl as (q & _ & [->|[->|[p ->]]]); by repeat constructor.
Qed.

Lemma lines_parallel key lines lss p :
  Forall2 (line_labels key) lines lss →
  parallel_after p (concat lss) = default p (last (omap line_limit lines)).
Proof.
  intros Hf. revert p. induction Hf as [|line ls lines lss Hl Hls IH]; intros p; [done|]. cbn.
  unfold parallel_after in *. rewrite foldl_app, IH. clear IH.
  assert (foldl (λ p l, match l with AParallel n => n | _ => p end) p ls =
    default p (line_limit line)) as ->.
  { unfold line_labels, line_limit in *. destruct (spec_parse line) as [|n|id|u id t m cmd args].
    - by subst.
    - subst. by destruct (1 <=? n).
    - by destruct Hl as (q & _ & ->).
    - by destruct Hl as (q & _ & [->|[->|[p' ->]]]). }
  destruct (line_limit line) as [n|]; [|done]. rewrite last_cons.
  by destruct (last (omap line_limit lines)).
Qed.

(** What the handling of the lines and the removal of [taken] bytes leave. *)
Lemma recv_frame key a lines lss taken a' :
  asteps a (concat lss ++ (if 0 <? taken then [ATake key taken] else [])) a' →
  Forall2 (line_labels key) lines lss →
  ∀ fd c', a_clients a' !! fd = Some c' → ∃ c, a_clients a !! fd = Some c ∧
    ac_in c' = if decide (key = fd) then drop (Z.to_nat taken) (ac_in c) else ac_in c.
Proof.
  intros Hs Hf fd c' Hc'. apply asteps_app_inv in Hs as (a1 & Hs1 & Hs2).
  assert (Forall keeps_in (concat lss)) as Hq.
  { apply Forall_concat. clear -Hf. induction Hf; constructor; [|done].
    eapply Forall_impl; [by eapply line_labels_quiet|]. apply quiet_keeps_in. }
  pose proof (asteps_came_from _ _ _ Hs1 Hq) as Hback.
  destruct (Z.ltb_spec 0 taken) as [Hpos|Hz].
  - inversion Hs2 as [|? ? a2 ? ? Hstep Hnil]; subst. inversion Hnil; subst.
    inversion Hstep as [| | | |? c0 ? Hc0| | | | | | |]; subst. cbn in Hc'.
    rewrite lookup_insert_Some in Hc'. destruct Hc' as [[<- <-]|[Hne Hc']].
    + destruct (Hback _ _ Hc0) as (c & Hc & Hin). exists c. split; [done|].
      rewrite decide_True by done. cbn. by rewrite Hin.
    + destruct (Hback _ _ Hc') as (c & Hc & Hin). exists c. split; [done|].
      by rewrite decide_False by done.
  - inversion Hs2; subst. destruct (Hback _ _ Hc') as (c & Hc & Hin). exists c. split; [done|].
    replace (Z.to_nat taken) with 0%nat by lia. rewrite drop_0. by case_decide.
Qed.

(** The client that sent a chunk keeps the rest of it. *)
Lemma recv_client a fd c bs lines rest lss taken a' :
  asteps a (ARecv fd bs :: concat lss ++ (if 0 <? taken then [ATake fd taken] else [])) a' →
  a_clients a !! fd = Some c → split_lines (ac_in c ++ bs) = (lines, rest) →
  Forall2 (line_labels fd) lines lss →
  taken = Z.of_nat (length (ac_in c ++ bs)) - Z.of_nat (length rest) →
  ∃ c', a_clients a' !! fd = Some c' ∧ ac_in c' = rest.
Proof.
  intros Hs Hc Hsp Hf Htk. inversion Hs as [|? ? a1 ? ? Hrecv Hrest]; subst.
  inversion Hrecv as [| | |? c0 ? Hc0| | | | | | | |]. subst. rewrite Hc in Hc0. injection Hc0 as <-.
  pose proof (recv_frame _ _ _ _ _ _ Hrest Hf fd) as Hfr.
  assert (is_Some (a_clients a' !! fd)) as [c' Hc'].
  { apply asteps_app_inv in Hrest as (a1 & Hs1 & Hs2).
    assert (client_frame (a_set_clients (<[fd:=set_in (ac_in c ++ bs) c]> (a_clients a)) a) a1) as Hcf.
    { eapply asteps_client_frame; [exact Hs1|]. apply Forall_concat.
      clear -Hf. induction Hf; constructor; [by eapply line_labels_quiet|done]. }
    destruct (Hcf fd (set_in (ac_in c ++ bs) c)) as (o & Ho); [cbn; apply lookup_insert_eq|].
    destruct (0 <? _); [|by inversion Hs2; subst; eauto].
    inversion Hs2 as [|? ? a2 ? ? Htake Hnil]; subst. inversion Hnil; subst.
    inversion Htake; subst. cbn. rewrite lookup_insert_eq. eauto. }
  exists c'. split; [done|]. destruct (Hfr c' Hc') as (c1 & Hc1 & ->). cbn in Hc1.
  rewrite lookup_insert_eq in Hc1. injection Hc1 as <-. rewrite decide_True by done. cbn.
  destruct (split_lines_spec _ _ _ Hsp) as (Heq & _ & _). rewrite Heq at 2.
  rewrite drop_app_length'; [done|]. rewrite Heq, length_app. lia.
Qed.

(** A chunk arrives. *)
Lemma sound_recv J a pl s fd c bs ls a' pl' s' :
  sound J a pl s → a_clients a !! fd = Some c → bs ≠ [] → asteps a ls a' →
  recv_labels fd (ac_in c) bs ls → inv a' pl' [] s' →
  inputs (u_trace s') = inputs (u_trace s) ++ [IChunk fd bs] → sound J a' pl' s'.
Proof.
  intros [Hi Hh Hp Hl] Hc Hbs Hs (lines & rest & lss & taken & Hsp & Hf & Htk & ->) Hi' Ht.
  assert (unread (u_trace s') = <[fd := rest]> (unread (u_trace s)) ∧
    limits (u_trace s') = limits (u_trace s) ++ omap line_limit lines) as [Hun Hlm].
  { unfold unread, limits, replay. rewrite Ht, foldl_app. cbn.
    pose proof (Hh fd c Hc) as Hu. unfold unread, replay in Hu. rewrite Hu. cbn.
    by rewrite Hsp. }
  split; [done| | |].
  - intros fd' c' Hc'. rewrite Hun. destruct (decide (fd = fd')) as [<-|Hne].
    + destruct (recv_client _ _ _ _ _ _ _ _ _ Hs Hc Hsp Hf Htk) as (c2 & Hc2 & <-).
      rewrite lookup_insert_eq. congruence.
    + inversion Hs as [|? ? a1 ? ? Hrecv Hrest]; subst. inversion Hrecv; subst.
      destruct (recv_frame _ _ _ _ _ _ Hrest Hf fd' c' Hc') as (c1 & Hc1 & ->). cbn in Hc1.
      rewrite lookup_insert_ne in Hc1 by done. rewrite lookup_insert_ne, decide_False by done.
      by apply Hh.
  - rewrite (asteps_parallel _ _ _ Hs), Hlm, last_app. cbn. unfold parallel_after.
    rewrite foldl_app. fold (parallel_after (a_parallel a) (concat lss)).
    rewrite (lines_parallel _ _ _ _ Hf), Hp.
    by destruct (last (omap line_limit lines)), (0 <? taken).
  - intros K HK HJ Hlim. rewrite Hlm in Hlim. apply Forall_app in Hlim as [Hl1 Hl2].
    eapply asteps_within; [exact Hs|by apply Hl|]. constructor; [done|]. apply Forall_app.
    split; [by eapply lines_below|]. destruct (0 <? taken); by repeat constructor.
Qed.

Lemma wp_accept_event J a pl s k fuel e Q :
  sound J a pl s → loop_ok k (S fuel) pl (u_server_sock s) → pl !! k = Some e →
  pf_fd e = u_server_sock s → u_server_sock s ≠ -1 →
  (∀ ls a' pl' s', asteps a ls a' → sound J a' pl' s' →
     loop_ok (S k) fuel pl' (u_server_sock s') → Q tt s') →
  wp server_accept_client Q ending s.
Proof.
  intros Hso Hok Hk Hserv Hsock HQ. pose proof (so_inv _ _ _ _ Hso) as Hi.
  eapply wp_server_accept_client; [done|]. intros fd a' s' Hs' Hi' Hnew Hsk _ Hin.
  eapply HQ; [by apply asteps_one|by eapply sound_accept|]. rewrite Hsk.
  eapply loop_ok_accept; [apply (ni_nodup _ _ _ (proj2 Hi))|done..| |done].
  intros ->. apply Hnew, (ni_watched _ _ _ (proj2 Hi)). auto.
Qed.

Lemma wp_read_event J a pl s fd c Q :
  sound J a pl s → a_clients a !! fd = Some c →
  (∀ ls a' pl' s', asteps a ls a' → sound J a' pl' s' → poll_le pl pl' →
    length pl' = length pl → u_server_sock s' = u_server_sock s → Q tt s') →
  wp (read_on_client (ac_addr c)) Q ending s.
Proof.
  intros Hso Hc HQ. pose proof (so_inv _ _ _ _ Hso) as Hi.
  destruct (os (SysRead fd READ_ONCE) (u_world s)) as [r w'] eqn:Hos.
  eapply wp_read_on_client; [done|done| |exact Hos|].
  { eapply unread_no_newline. by eapply so_heard. }
  intros ls a' pl' s' Hs' Hls Hi' (Hle & Hlen & Hsk & _ & Hin) _.
  cbn in Hin. rewrite inputs_snoc in Hin.
  eapply HQ; [exact Hs'| |done..]. destruct r as [[|b bs]|errno]; cbn in Hls, Hin;
    rewrite ?app_nil_r in Hin.
  - eapply sound_calm; [done|done| |done|done]. rewrite Hls. by repeat constructor.
  - eapply (sound_recv J a pl s fd c (b :: bs)); try done.
  - eapply sound_calm; [done|done| |done|done]. rewrite Hls. constructor.
Qed.

Lemma wp_handle_event eintr J a pl s k fuel e Q :
  sound J a pl s → loop_ok k (S fuel) pl (u_server_sock s) → pl !! k = Some e →
  (∀ ls a' pl' s', asteps a ls a' → sound J a' pl' s' →
     loop_ok (S k) fuel pl' (u_server_sock s') → Q tt s') →
  wp (handle_event eintr (Z.of_nat k)) Q ending s.
Proof.
  intros Hso Hok Hk HQ. pose proof (so_inv _ _ _ _ Hso) as Hi. unfold handle_event. wp_go.
  pose proof (ni_poll _ _ _ (proj2 Hi)) as Hp.
  eapply wp_lift_ok; [by eapply poll_get|]. wp_go.
  pose proof (ni_watched _ _ _ (proj2 Hi)) as Hwat.
  assert (u_server_sock s ≠ -1) as Hsock.
  { assert (u_server_sock s ∈ watched pl) as Hin by (apply Hwat; auto).
    apply (watched_fd_nonneg _ _ _ _ _ Hi) in Hin. lia. }
  assert (∀ ls a' pl' s', asteps a ls a' → sound J a' pl' s' → poll_le pl pl' →
    length pl' = length pl → u_server_sock s' = u_server_sock s → Q tt s') as Hsnd.
  { intros ls a' pl' s' Hs' Hso' Hle Hlen Hsk. eapply HQ; [done..|]. rewrite Hsk.
    apply (loop_ok_le _ _ pl pl'); [done..|]. by apply loop_ok_next. }
  assert (∀ ls a' pl' s', asteps a ls a' → Forall calm ls → inv a' pl' [] s' →
    stable pl s pl' s' → Q tt s') as Hst.
  { intros ls a' pl' s' Hs' Hls Hi' (Hle & Hlen & Hsk & _ & Hin).
    eapply Hsnd; [done|by eapply sound_calm|done..]. }
  destruct (Z.eqb_spec (pf_revents e) 0) as [Hz|Hnz].
  { wp_go. eapply Hst; [constructor|constructor|done|apply stable_refl]. }
  destruct (Z.eqb_spec (pf_fd e) (u_cpipe s).1) as [Hpipe|Hnp].
  { wp_go. eapply wp_drain_pipe; [done|]. intros w' t Hi1 Ht.
    eapply wp_handle_child_events; [exact Hi1|]. intros rs ls a' pl' s' Hs' Hls _ Hi' Hst'.
    eapply Hst; [done|by eapply reap_calm|done|]. eapply stable_trans; [|exact Hst'].
    by apply stable_same. }
  destruct (Z.eqb_spec (pf_fd e) (u_server_sock s)) as [Hserv|Hns].
  { wp_go. destruct (lk_sock _ _ _ _ Hok k e (Nat.le_refl _) Hk Hserv) as [?|[Hin|Hodd]]; [done| |].
    2:{ apply wp_lift. unfold c_assert. destruct (_ =? _); [|apply ending_assert; by right].
        eapply wp_accept_event; done. }
    eapply wp_lift_ok; [unfold c_assert; by rewrite Hin|]. eapply wp_accept_event; done. }
  eapply wp_lookup_client; [exact Hi|].
  destruct (a_clients a !! pf_fd e) as [c|] eqn:Hc; cbn [fmap option_fmap option_map].
  2:{ wp_go. eapply Hst; [constructor|constructor|done|apply stable_refl]. }
  destruct (negb (Z.land (pf_revents e) POLLERR =? 0)).
  { eapply wp_close_client; [done..|]. intros a' s' Hs' Hi' Hst'.
    eapply Hst; [by apply asteps_one|by repeat constructor|done|done]. }
  destruct (Z.eqb_spec (Z.land (pf_revents e) POLLOUT) 0) as [Hno|Hout]; cbn [negb].
  2:{ eapply (wp_write_to_client _ _ _ _ (pf_fd e)); [done|done|done|done| |].
      - eapply (lk_out _ _ _ _ Hok k e); [lia|done..].
      - intros ls a' pl' s' Hs' Hls Hi' Hlen Hj Hsk _ Hin. eapply HQ; [exact Hs'| |].
        + eapply sound_calm; [done..| |done|done]. destruct Hls as [->|[n ->]]; by repeat constructor.
        + rewrite Hsk. by eapply loop_ok_written. }
  destruct (negb (Z.land (pf_revents e) POLLIN =? 0)).
  { by eapply wp_read_event. }
  wp_go. eapply Hst; [constructor|constructor|done|apply stable_refl].
Qed.

Lemma wp_event_loop eintr J fuel : ∀ k a pl s Q,
  sound J a pl s → loop_ok k fuel pl (u_server_sock s) →
  (∀ ls a' pl' s', asteps a ls a' → sound J a' pl' s' → Q tt s') →
  wp (event_loop fuel eintr (Z.of_nat k)) Q ending s.
Proof.
  induction fuel as [|fuel IH]; intros k a pl s Q Hi Hok HQ; cbn [event_loop]; wp_go;
    pose proof (lk_fuel _ _ _ _ Hok) as Hf;
    rewrite (pr_num _ _ _ _ (ni_poll _ _ _ (proj2 (so_inv _ _ _ _ Hi)))).
  - rewrite (proj2 (Z.ltb_ge _ _)) by lia. wp_go. eapply HQ; [constructor|done].
  - destruct (Z.ltb_spec (Z.of_nat k) (Z.of_nat (length pl))) as [Hlt|Hge].
    2:{ wp_go. eapply HQ; [constructor|done]. }
    destruct (lookup_lt_is_Some_2 pl k) as [e He]; [lia|].
    wp_go. eapply wp_handle_event; [done..|]. intros ls a1 pl1 s1 Hs1 Hi1 Hok1.
    replace (Z.of_nat k + 1) with (Z.of_nat (S k)) by lia.
    eapply IH; [done..|]. intros ls2 a2 pl2 s2 Hs2 Hi2. eapply HQ; [by eapply asteps_app|done].
Qed.

(** One iteration of the main loop. *)
Lemma wp_main_iter eintr J a pl s Q :
  sound J a pl s →
  (∀ ls a' pl' s', asteps a ls a' → sound J a' pl' s' → Q tt s') →
  wp (main_iter eintr) Q ending s.
Proof.
  intros Hso HQ. unfold main_iter. wp_go. eapply wp_schedule_new_jobs; [by eapply so_inv|].
  intros rs rs' ls a1 pl1 s1 Hs1 _ Hls _ _ Hi1 (_ & _ & _ & _ & Hin1). wp_go.
  eapply wp_poll_list_clean; [done|]. intros pl2 s2 Hi2 _ _ _ Htr2. wp_go. eapply wp_poll_wait; [done| |].
  { destruct pl2; [|cbn; lia]. exfalso.
    assert (u_server_sock s2 ∈ watched []) as Hin by (apply (ni_watched _ _ _ (proj2 Hi2)); auto).
    by apply elem_of_nil in Hin. }
  intros pl3 s3 Hi3 Hlen Hok _ _ Hin3. wp_go.
  rewrite (pr_num _ _ _ _ (ni_poll _ _ _ (proj2 Hi3))).
  replace (Z.to_nat (2 * Z.of_nat (length pl3))) with (2 * length pl3)%nat by lia.
  eapply (wp_event_loop _ J _ 0).
  - eapply sound_calm; [exact Hso|exact Hs1|by eapply sched_calm|exact Hi3|]. by rewrite Hin3, Htr2.
  - exact Hok.
  - intros ls2 a2 pl4 s4 Hs2 Hi4. eapply HQ; [by eapply asteps_app|done].
Qed.

Lemma wp_main_loop n eintr J : ∀ a pl s Q,
  sound J a pl s →
  (∀ ls a' pl' s', asteps a ls a' → sound J a' pl' s' → Q tt s') →
  wp (main_loop n eintr) Q ending s.
Proof.
  induction n as [|n IH]; intros a pl s Q Hi HQ; cbn [main_loop]; wp_go.
  - eapply HQ; [constructor|done].
  - eapply wp_main_iter; [done|]. intros ls a1 pl1 s1 Hs1 Hi1. eapply IH; [done|].
    intros ls2 a2 pl2 s2 Hs2 Hi2. eapply HQ; [by eapply asteps_app|done].
Qed.
End main.
