(* ===== verification/ServerInit.v ===== *)
(** * Initialisation of the Unix server, and the whole program

    [server_init_listening] establishes the invariant; the main loop keeps it.
    The theorems about the program as a whole are stated here. *)

From S2P Require Import Prelude Queue ArrayList CString ReadBuf WriteBuf State Options Request UnixOS.
From S2P Require Import ServerUnix ServerPoll ServerAbs ServerInv ServerNet ServerHandlers ServerProcs.
From S2P Require Import ServerMsgs ServerLoop ServerMain.
From Stdlib Require Import Ascii.

(** The abstract server before any client connected. *)
Definition a_initial (parallel : Z) : astate := mk_a ∅ ∅ [] parallel.

Section init.
Context `{Libc} {W : Type} `{UnixOSLaws W} `{!Start W}.
Implicit Types (s : ustate W).

Lemma wp_check_res s r msg (Q : unit → ustate W → Prop) :
  can_shutdown s → (r ≠ -1 → Q tt s) → wp (check_res r msg) Q ending s.
Proof.
  intros Hc HQ. unfold check_res. destruct (Z.eqb_spec r (-1)); [by apply wp_shutdown|by apply HQ].
Qed.

Lemma wp_neutral {A} (c : sys A) (Q : A → ustate W → Prop) E s :
  neutral c = true → (∀ r, input_of (SysRec c r) = None) →
  (∀ r w' t, view w' = view (u_world s) → os c (u_world s) = (r, w') →
     os_step (u_world s) w' → inputs t = inputs (u_trace s) → Q r (set_world w' t s)) →
  wp (syscall c) Q E s.
Proof.
  intros Hn Hin HQ. apply wp_syscall. intros r w' Hos.
  apply HQ; [by eapply os_neutral|done|by eapply os_step_call|by apply inputs_quiet].
Qed.

Lemma can_shutdown_empty s l : u_clients s = Some l → list_models l ∅ → can_shutdown s.
Proof.
  intros Hl Hm. unfold can_shutdown. rewrite Hl. exists []. split; [by apply list_models_empty|done].
Qed.

(** The state just before [setup_child_pipe]. *)
Record listening (parallel : Z) s : Prop := {
  ls_core : core_inv (a_initial parallel) [] (u_core s);
  ls_clients : ∃ l, u_clients s = Some l ∧ list_models l ∅;
  ls_procs : list_models (u_processes s) ∅;
  ls_poll : poll_rep (u_poll_list s) (u_poll_num s) (u_poll_len s)
              [mk_pollfd (u_server_sock s) POLLIN 0];
  ls_dir : dir_ok (u_current_dir s);
  ls_reached : reached (u_world s);
  ls_inputs : inputs (u_trace s) = [];
  ls_children : v_children (view (u_world s)) = ∅;
  ls_fds : u_server_sock s ∈ v_fds (view (u_world s));
  ls_listen : u_server_sock s ∈ v_listeners (view (u_world s))
}.

Lemma listening_world parallel s w' t :
  listening parallel s → view w' = view (u_world s) → os_step (u_world s) w' →
  inputs t = inputs (u_trace s) → listening parallel (set_world w' t s).
Proof.
  intros [] Hv Hs Ht. split; cbn; rewrite ?Hv, ?Ht; try done. by eapply reached_step.
Qed.

Lemma listening_shutdown parallel s : listening parallel s → can_shutdown s.
Proof. intros []. destruct ls_clients0 as (l & ? & ?). by eapply can_shutdown_empty. Qed.

(** [setup_child_pipe] completes the invariant. *)
Definition piped (parallel : Z) s : Prop :=
  listening parallel s ∧ (u_cpipe s).1 ∈ v_fds (view (u_world s)) ∧
  (u_cpipe s).1 ≠ u_server_sock s.

(** A [fcntl] or [sigaction] call of [setup_child_pipe] and its check. *)
Lemma wp_checked_call {B} parallel (c : sys Z) msg (k : Z → M (ustate W) B) Q s :
  piped parallel s → neutral c = true → (∀ r, input_of (SysRec c r) = None) →
  (∀ r s', piped parallel s' → u_cpipe s' = u_cpipe s → wp (k r) Q ending s') →
  wp (r ← syscall c; _ ← (if r =? -1 then shutdown_with_msg msg else mret tt); k r) Q ending s.
Proof.
  intros (Hl & Hp & Hps) Hn Hin Hk. apply wp_bind. apply wp_neutral; [done..|].
  intros r w' t Hv _ Hstep Ht.
  assert (listening parallel (set_world w' t s)) as Hl' by (by apply listening_world).
  apply wp_bind. destruct (r =? -1).
  - apply wp_shutdown. by eapply listening_shutdown.
  - apply wp_ret. apply Hk; [|done]. split; [done|]. cbn. by rewrite Hv.
Qed.

Lemma listening_inv parallel s arr' num' len' :
  piped parallel s →
  poll_rep arr' num' len' [mk_pollfd (u_server_sock s) POLLIN 0; mk_pollfd (u_cpipe s).1 POLLIN 0] →
  inv (a_initial parallel)
    [mk_pollfd (u_server_sock s) POLLIN 0; mk_pollfd (u_cpipe s).1 POLLIN 0] []
    (set_poll arr' num' len' s).
Proof.
  intros ([] & Hp & Hne) Hpr. pose proof (fds_nonneg _ _ Hp) as Hp0.
  pose proof (fds_nonneg _ _ ls_fds0) as Hs0. split; [done|].
  set (p := (u_cpipe s).1) in *.
  assert (watched [mk_pollfd (u_server_sock s) POLLIN 0; mk_pollfd p POLLIN 0] =
    [u_server_sock s; p]) as Hw.
  { rewrite !watched_cons. cbn. by rewrite !decide_True by lia. }
  split; cbn -[watched]; fold p; rewrite ?Hw, ?dom_empty_L; try done.
  - apply NoDup_cons. split; [|apply NoDup_singleton]. rewrite list_elem_of_singleton. congruence.
  - intros fd. rewrite !elem_of_cons. set_solver.
  - intros e He _. unfold wanted. rewrite lookup_empty. set_solver.
  - set_solver.
Qed.

Lemma wp_setup_child_pipe parallel s Q :
  listening parallel s →
  (∀ pl s', inv (a_initial parallel) pl [] s' → inputs (u_trace s') = [] → Q tt s') →
  wp setup_child_pipe Q ending s.
Proof.
  intros Hl HQ. unfold setup_child_pipe. wp_go. apply wp_syscall. intros r w' Hos.
  pose proof (os_step_call _ _ _ _ Hos) as Hstep. pose proof (os_pipe _ _ _ Hos) as Hpipe. destruct r as [[p0 p1]|].
  2:{ apply wp_shutdown. eapply listening_shutdown, listening_world; [done..|by apply inputs_quiet]. }
  destruct Hpipe as (H0p & H1p & Hne & Hn0 & Hn1 & Hv).
  apply wp_bind, wp_modify. set (s1 := set_cpipe _ _).
  assert (piped parallel s1) as Hp1.
  { pose proof (ls_fds _ _ Hl) as Hfd. split; [|split].
    - destruct Hl. split; cbn; rewrite ?Hv; cbn; try done;
        [by eapply reached_step|by rewrite inputs_quiet|set_solver].
    - cbn. rewrite Hv. cbn. set_solver.
    - cbn. intros ->. by apply Hn0. }
  assert ((u_cpipe s1).1 = p0) as Hp0 by done. clearbody s1.
  eapply wp_checked_call; [exact Hp1|done|done|]. intros fl2 s2 Hp2 Hc2.
  eapply wp_checked_call; [exact Hp2|done|done|]. intros _ s3 Hp3 Hc3.
  eapply wp_checked_call; [exact Hp3|done|done|]. intros fl4 s4 Hp4 Hc4.
  eapply wp_checked_call; [exact Hp4|done|done|]. intros _ s5 Hp5 Hc5.
  eapply wp_checked_call; [exact Hp5|done|done|]. intros _ s6 Hp6 Hc6.
  assert (p0 = (u_cpipe s6).1) as -> by congruence.
  eapply wp_add_to_poll; [apply (ls_poll _ _ (proj1 Hp6))|auto with wp|].
  intros arr' len' Harr. eapply HQ; [by apply listening_inv|apply (ls_inputs _ _ (proj1 Hp6))].
Qed.

(** ** The listening socket *)

Lemma core_inv_initial c q :
  core_fresh c → 1 ≤ c_parallel c ≤ INT_MAX → is_Some (c_socketname c) → queue_rep q [] →
  core_inv (a_initial (c_parallel c)) [] (set_queue q c).
Proof.
  intros Hf Hp Hn Hq. split; try done.
  assert (owns (a_initial (c_parallel c)) [] = []) as ->.
  { unfold owns. cbn. by rewrite fmap_empty, !map_to_list_empty. }
  split; [constructor|]. intros x Hx. by apply elem_of_nil in Hx.
Qed.

(** Binding and listening, with the tables allocated. *)
Lemma wp_bind_socket s filen parallel (k : Z → M (ustate W) unit) Q :
  can_shutdown s → 0 < parallel ≤ alloc_max →
  (∀ r w' t, r ∈ v_fds (view w') → r ∈ v_listeners (view w') →
     v_children (view w') = v_children (view (u_world s)) →
     (∀ fd, fd ∈ v_fds (view (u_world s)) → fd ∈ v_fds (view w') ∧ fd ≠ r) →
     rtc os_step (u_world s) w' → inputs t = inputs (u_trace s) →
     wp (k r) Q ending (set_world w' t (set_server_sock r s))) →
  wp (sock ← syscall SysSocket;
      _ ← modify (set_server_sock sock);
      r ← syscall (SysUnlink filen);
      _ ← (match r with
           | inr errno => if negb (errno =? ENOENT)
                          then shutdown_with_msg "error deleting socket" else mret tt
           | inl _ => mret tt
           end);
      res ← syscall (SysBind sock filen);
      _ ← check_res res "error binding socket";
      backlog ← lift (int_of (parallel * 2));
      res ← syscall (SysListen sock backlog);
      _ ← check_res res "error listening on socket"; k sock) Q ending s.
Proof.
  intros Hc Hpar Hk. pose proof alloc_max_range as Hmax.
  apply wp_bind, wp_syscall. intros sock w1 Hos1. pose proof (os_step_call _ _ _ _ Hos1) as Hst1.
  apply os_socket in Hos1.
  apply wp_bind, wp_modify. apply wp_bind, wp_neutral; [done..|]. intros r w2 t2 Hv2 _ Hst2 Ht2.
  cbn in Ht2. rewrite inputs_quiet in Ht2 by done.
  assert (∀ s', u_clients s' = u_clients s → u_heap s' = u_heap s → can_shutdown s') as Hcs.
  { intros s' H1' H2'. unfold can_shutdown in *. by rewrite H1', H2'. }
  apply wp_bind. eapply (wp_post _ (λ _ s', s' = set_world w2 t2 (set_server_sock sock s))).
  { destruct r as [|errno]; [by apply wp_ret|].
    destruct (negb (errno =? ENOENT)); [apply wp_shutdown; by apply Hcs|by apply wp_ret]. }
  intros [] s' ->. wp_go. apply wp_neutral; [done..|]. intros r3 w3 t3 Hv3 _ Hst3 Ht3. wp_go.
  apply wp_check_res; [by apply Hcs|]. intros _. wp_go.
  eapply wp_lift_ok; [apply int_of_ok; unfold INT_MIN, INT_MAX; lia|]. wp_go.
  apply wp_syscall. intros r4 w4 Hos4. pose proof (os_step_call _ _ _ _ Hos4) as Hst4.
  apply os_listen in Hos4. wp_go.
  apply wp_check_res; [by apply Hcs|]. intros Hr4. cbn in Hv2, Hv3, Hos4.
  destruct Hos4 as [[? _]|[Hin Hv4]]; [done|]. rewrite Hv3, Hv2 in Hin, Hv4.
  pose proof (fds_nonneg _ _ Hin) as Hpos.
  destruct Hos1 as [[-> _]|(_ & Hnew & Hv1)]; [lia|]. rewrite Hv1 in Hv4.
  apply Hk; rewrite ?Hv4; cbn; [set_solver..|done| | |].
  - intros fd Hfd. split; [set_solver|]. by intros ->.
  - eapply rtc_l; [exact Hst1|]. eapply rtc_l; [exact Hst2|]. eapply rtc_l; [exact Hst3|].
    by eapply rtc_once.
  - rewrite inputs_quiet by done. cbn in Ht3. by rewrite Ht3.
Qed.

Lemma wp_server_init_listening s name Q :
  core_fresh (u_core s) → 1 ≤ c_parallel (u_core s) ≤ INT_MAX → is_Some (c_socketname (u_core s)) →
  u_clients s = None → v_children (view (u_world s)) = ∅ → reached (u_world s) →
  inputs (u_trace s) = [] →
  (∀ pl s', inv (a_initial (c_parallel (u_core s))) pl [] s' → inputs (u_trace s') = [] → Q tt s') →
  wp (server_init_listening name (c_parallel (u_core s))) Q ending s.
Proof.
  intros Hfresh Hpar Hname Hcl Hch Hrun Hin HQ. pose proof alloc_max_range as Hmax.
  unfold server_init_listening. wp_go.
  apply wp_neutral; [done..|]. intros dir w1 t1 Hv1 Hos1 Hst1 Ht1.
  assert (dir_ok dir) as Hd.
  { pose proof (os_getcwd _ _ _ Hos1) as Hd. destruct dir; [done|]. by eapply answered_call. }
  wp_go. apply wp_syscall. intros cur_dir w2 Ho2. pose proof (os_step_call _ _ _ _ Ho2) as Hst2.
  apply os_open in Ho2. cbn in Ho2, Hst2. wp_go.
  apply wp_check_res; [by unfold can_shutdown; cbn; rewrite Hcl|]. intros Hcur. wp_go.
  apply wp_neutral; [done..|]. intros r3 w3 t3 Hv3 _ Hst3 Ht3. wp_go. cbn in Ht3.
  rewrite inputs_quiet in Ht3 by done.
  apply wp_check_res; [by unfold can_shutdown; cbn; rewrite Hcl|]. intros _.
  unfold on_core, init_logging, init_request_queue. wp_go.
  eapply (wp_post _ (λ _ c', core_fresh c' ∧ c_parallel c' = c_parallel (u_core s) ∧
    c_socketname c' = c_socketname (u_core s))).
  { cbn. by destruct (c_logging (u_core s)); wp_go. }
  intros [] c1 (Hf1 & Hp1 & Hn1). wp_go.
  eapply wp_lift_oom; [by apply init_queue_oom|auto with wp|]. intros q Hq. wp_go.
  eapply wp_lift_oom; [apply list_models_init_oom; lia|auto with wp|]. intros l [Hl Hcap]. wp_go.
  eapply wp_lift_ok; [apply int_of_ok; unfold INT_MIN, INT_MAX; lia|]. wp_go.
  eapply wp_lift_oom; [apply c_malloc_oom|auto with wp|]. intros arr0 [Hn0 ->]. wp_go.
  set (s4 := set_poll _ _ _ _).
  assert (can_shutdown s4) as Hc4 by (by eapply can_shutdown_empty).
  eapply (wp_post _ (λ _ s', s' = s4)).
  { destruct (_ <? _); [by apply wp_shutdown|by apply wp_ret]. }
  intros [] s' ->. eapply (wp_bind_socket s4 (basename (cstr name)) (c_parallel (u_core s)));
    [done|lia|]. intros sock w5 t5 Hs5 Hl5 Hch5 Hfd5 Hst5 Ht5. wp_go.
  assert (∀ w t, can_shutdown (set_world w t (set_server_sock sock s4))) as Hcs by done.
  apply wp_neutral; [done..|]. intros r6 w6 t6 Hv6 _ Hst6 Ht6. wp_go.
  apply wp_check_res; [apply Hcs|]. intros _. wp_go.
  apply wp_syscall. intros r7 w7 Hos7. pose proof (os_step_call _ _ _ _ Hos7) as Hst7.
  apply os_close in Hos7. cbn in Hos7, Hv6. wp_go.
  apply wp_check_res; [apply Hcs|]. intros _. wp_go.
  set (s7 := set_world w7 _ _).
  assert (cur_dir ≠ sock) as Hcs'.
  { apply Hfd5. cbn. rewrite Hv3. cbn. destruct Ho2 as [[? _]|(_ & _ & ->)]; [done|]. cbn. set_solver. }
  eapply (wp_add_to_poll s7 []); [|auto with wp|].
  { split; cbn; try done; try lia. by rewrite arr_len_new by lia. }
  intros arr' len' Harr. unfold init_process_list, on_core. wp_go.
  eapply wp_lift_oom; [apply list_models_init_oom; cbn; lia|auto with wp|]. intros pl [Hpl _]. wp_go.
  eapply wp_setup_child_pipe; [|exact HQ]. split; cbn; try done.
  - rewrite <- Hp1. apply core_inv_initial; [done|lia|by rewrite Hn1|done].
  - eauto.
  - eapply reached_step; [|exact Hst7]. eapply reached_step; [|exact Hst6].
    eapply reached_steps; [|exact Hst5]. eapply reached_step; [|exact Hst3].
    eapply reached_step; [|exact Hst2]. by eapply reached_step.
  - rewrite inputs_quiet by done. cbn in Ht6, Ht5. by rewrite Ht6, Ht5, Ht3, Ht1, Hin.
  - rewrite Hos7, Hv6. cbn. rewrite Hch5. cbn. rewrite Hv3. cbn.
    destruct Ho2 as [[? _]|(_ & _ & ->)]; [done|]. cbn. by rewrite Hv1.
  - rewrite Hos7, Hv6. cbn. set_solver.
  - rewrite Hos7, Hv6. cbn. set_solver.
Qed.
End init.
