(* ===== verification/UnixToy.v ===== *)
(** * A small operating system

    An instance of the operating system interface, driven by a script, for which
    the laws hold: the hypotheses of the theorems about the server can be
    satisfied, and the server can be run on examples. *)

From S2P Require Import Prelude CString State UnixOS.
From Stdlib Require Import Ascii.

(** Descriptors, children, and the script: what each [poll] reports, what each
    [read] delivers and which children terminate. *)
Record toy := mk_toy {
  ty_fds : gset Z;
  ty_children : gset Z;
  ty_listeners : gset Z;
  ty_polls : list (list (Z * Z));
  ty_reads : list (list ascii);
  ty_exits : list wait_report
}.

Definition ty_set_fds (fds l : gset Z) (w : toy) : toy :=
  mk_toy fds (ty_children w) l (ty_polls w) (ty_reads w) (ty_exits w).
Definition ty_set_children (ch : gset Z) (e : list wait_report) (w : toy) : toy :=
  mk_toy (ty_fds w) ch (ty_listeners w) (ty_polls w) (ty_reads w) e.
Definition ty_set_script (p : list (list (Z * Z))) (r : list (list ascii)) (w : toy) : toy :=
  mk_toy (ty_fds w) (ty_children w) (ty_listeners w) p r (ty_exits w).

(** A number above all elements, and above 2. *)
Definition above (X : gset Z) : Z := 1 + foldr Z.max 2 (elements X).
Definition toy_open (w : toy) : Z * toy :=
  let n := above (ty_fds w) in (n, ty_set_fds ({[n]} ∪ ty_fds w) (ty_listeners w) w).

(** What is reported for an entry, given what the script says. *)
Definition toy_event (w : toy) (ev : list (Z * Z)) (e : pollfd) : Z :=
  let v := match list_find (λ p, p.1 = pf_fd e) ev with Some (_, (_, v)) => v | None => 0 end in
  if pf_fd e <? 0 then 0
  else if decide (pf_fd e ∈ ty_listeners w) then (if Z.land v POLLIN =? 0 then 0 else POLLIN)
  else Z.land v (Z.lor (pf_events e) POLLERR).

(** [fails]: every [write] fails with EPIPE. *)
Definition toy_os (fails : bool) {A} (c : sys A) : toy → A * toy :=
  match c in sys A return toy → A * toy with
  | SysAccept _ => toy_open
  | SysClose fd => λ w, (0, ty_set_fds (ty_fds w ∖ {[fd]}) (ty_listeners w ∖ {[fd]}) w)
  | SysRead _ n => λ w,
      match ty_reads w with
      | bs :: r => (inl (take (Z.to_nat n) bs), ty_set_script (ty_polls w) r w)
      | [] => (inl [], w)
      end
  | SysWrite _ bs => λ w,
      (if fails then inr 32 else inl (Z.of_nat (length bs)), w)
  | SysPoll l => λ w,
      match ty_polls w with
      | ev :: p => (inl (toy_event w ev <$> l), ty_set_script p (ty_reads w) w)
      | [] => (inl ((λ _, 0) <$> l), w)
      end
  | SysFork _ => λ w,
      let p := above (ty_children w) in (p, ty_set_children ({[p]} ∪ ty_children w) (ty_exits w) w)
  | SysWait3 => λ w,
      match ty_exits w with
      | r :: e =>
         if decide (wr_pid r ∈ ty_children w)
         then (Some r, ty_set_children (ty_children w ∖ {[wr_pid r]}) e w) else (None, w)
      | [] => (None, w)
      end
  | SysKill _ _ => λ w, (0, w)
  | SysMkstemp t => λ w, let '(n, w') := toy_open w in (n, t, w')
  | SysUnlink _ => λ w, (inl tt, w)
  | SysGetcwd => λ w, (Some (clit "/tmp"), w)
  | SysOpen _ _ => toy_open
  | SysChdir _ => λ w, (0, w)
  | SysFchdir _ => λ w, (0, w)
  | SysSocket => toy_open
  | SysBind _ _ => λ w, (0, w)
  | SysListen fd _ => λ w,
      if decide (0 ≤ fd ∧ fd ∈ ty_fds w)
      then (0, ty_set_fds (ty_fds w) ({[fd]} ∪ ty_listeners w) w) else (-1, w)
  | SysPipe => λ w,
      let n := above (ty_fds w) in
      (Some (n, n + 1), ty_set_fds ({[n; n + 1]} ∪ ty_fds w) (ty_listeners w) w)
  | SysGetfl _ => λ w, (0, w)
  | SysSetfl _ _ => λ w, (0, w)
  | SysSigaction => λ w, (0, w)
  | SysMalloc _ => λ w, (true, w)
  | SysSetrlimit _ _ _ => λ w, (0, w)
  | SysDup2 _ _ => λ w, (0, w)
  | SysExecvp _ _ => λ w, (-1, w)
  end.

Definition toy_sys (fails : bool) : UnixOS toy :=
  {| os := @toy_os fails; unix_path_max := 108 |}.

Definition toy_view (w : toy) : os_view :=
  mk_view (ty_children w) (filter (λ z, 0 ≤ z) (ty_fds w)) (ty_listeners w).

Lemma above_new X : 2 < above X ∧ ∀ x, x ∈ X → x < above X.
Proof.
  assert (∀ l, 2 ≤ foldr Z.max 2 l ∧ ∀ x, x ∈ l → x ≤ foldr Z.max 2 l) as Hl.
  { induction l as [|y l [IH1 IH2]]; cbn; [split; [lia|set_solver]|]. split; [lia|].
    intros x [->|Hx]%elem_of_cons; [lia|]. specialize (IH2 x Hx). lia. }
  unfold above. destruct (Hl (elements X)) as [H1 H2]. split; [lia|].
  intros x Hx. specialize (H2 x). rewrite elem_of_elements in H2. specialize (H2 Hx). lia.
Qed.

Lemma toy_opens w n w' : toy_open w = (n, w') → opens n (toy_view w) (toy_view w').
Proof.
  unfold toy_open. intros [= <- <-]. destruct (above_new (ty_fds w)) as [H1 H2]. right.
  split; [lia|]. unfold toy_view. cbn. split.
  - rewrite elem_of_filter. intros [_ Hin%H2]. lia.
  - f_equal. apply set_eq. intros x. rewrite elem_of_union, !elem_of_filter, elem_of_union.
    rewrite elem_of_singleton. naive_solver lia.
Qed.

Lemma toy_event_law w ev e :
  (pf_fd e < 0 → toy_event w ev e = 0) ∧
  (Z.land (toy_event w ev e) POLLOUT ≠ 0 → Z.land (pf_events e) POLLOUT ≠ 0) ∧
  (pf_fd e ∈ ty_listeners w → toy_event w ev e = 0 ∨ toy_event w ev e = POLLIN).
Proof.
  unfold toy_event. set (v := match _ with Some _ => _ | None => _ end).
  destruct (Z.ltb_spec (pf_fd e) 0) as [Hn|Hp]; [cbn; auto|].
  split; [lia|]. case_decide as Hl.
  - split; [|intros _; destruct (_ =? 0); auto]. by destruct (_ =? 0).
  - split; [|done]. intros Hb Hz. apply Hb. rewrite <- Z.land_assoc, Z.land_lor_distr_l, Hz.
    cbn. by rewrite Z.land_0_r.
Qed.

Definition toy_laws (fails : bool) : @UnixOSLaws toy (toy_sys fails).
Proof.
  refine (Build_UnixOSLaws toy (toy_sys fails) toy_view _ _ _ _ _ _ _ _ _ _ _ _ _ _ _).
  - intros w fd. cbn. by intros [? _]%elem_of_filter.
  - intros A c w r w' Hos Hn. destruct c; try done; cbn in Hos; repeat case_match; by simplify_eq.
  - intros job w p w' Hos. cbn in Hos. simplify_eq. right.
    destruct (above_new (ty_children w)) as [H1 H2]. split; [lia|]. split; [|done].
    cbn. intros Hin%H2. lia.
  - intros w r w' Hos. cbn in Hos. repeat case_match; simplify_eq; done.
  - intros fd w n w' Hos. by apply toy_opens.
  - intros p f w n w' Hos. by apply toy_opens.
  - intros w n w' Hos. by apply toy_opens.
  - intros t w n p w' Hos. cbn in Hos. destruct (toy_open w) as [n1 w1] eqn:E. simplify_eq.
    split; [by apply toy_opens|done].
  - intros w r w' Hos. cbn in Hos. simplify_eq. destruct (above_new (ty_fds w)) as [H1 H2].
    cbn. rewrite !elem_of_filter. split_and!; [lia..| | |].
    + intros [_ Hin%H2]. lia.
    + intros [_ Hin%H2]. lia.
    + unfold toy_view. cbn. f_equal. apply set_eq. intros x.
      rewrite !elem_of_union, !elem_of_filter, !elem_of_union, !elem_of_singleton. naive_solver lia.
  - intros fd w n w' Hos. cbn in Hos. simplify_eq. unfold toy_view. cbn. f_equal.
    apply set_eq. intros x. rewrite elem_of_filter, !elem_of_difference, elem_of_filter. tauto.
  - intros fd b w n w' Hos. cbn in Hos. case_decide as Hin; simplify_eq; [right|by left].
    split; [|done]. cbn. by apply elem_of_filter.
  - intros fd n w r w' Hos Hn. cbn in Hos. destruct (ty_reads w) as [|bs rd]; simplify_eq; cbn.
    + done.
    + rewrite length_take. lia.
  - intros fd bs w r w' Hos. cbn in Hos. destruct fails; simplify_eq; [done|]. lia.
  - intros l w r w' Hos. cbn in Hos. destruct (ty_polls w) as [|ev p]; simplify_eq;
      (split; [by rewrite length_fmap|]); intros i e v Hi Hv; rewrite list_lookup_fmap, Hi in Hv;
      cbn in Hv; simplify_eq.
    + done.
    + destruct (toy_event_law w ev e) as (H1 & H2 & _). done.
  - intros w r w' Hos. cbn in Hos. simplify_eq. split; [apply (bool_decide_unpack _); done|cbn; lia].
Defined.

#[export] Instance toy_unix : UnixOS toy := toy_sys false.
#[export] Instance toy_unix_laws : UnixOSLaws toy := toy_laws false.
