(* ===== verification/ServerTheorems.v ===== *)
(** * Theorems about the Unix server

    What holds of the whole program, from the start through any number of
    iterations of its main loop, and of its main operations. *)

From S2P Require Import Prelude Queue ArrayList CString ReadBuf WriteBuf State Options Request UnixOS.
From S2P Require Import ServerUnix ServerPoll ServerAbs ServerInv ServerNet ServerHandlers ServerProcs.
From S2P Require Import ServerMsgs ServerLoop ServerMain ServerInit UnixToy.
From Stdlib Require Import Ascii.

Section theorems.
Context `{Libc} {W : Type} `{UnixOSLaws W} `{!Start W}.
Implicit Types (a : astate) (s : ustate W) (pl : list pollfd).

(** The program from its start: a state reached has the invariant, for an
    abstract state that the abstract server reaches. *)
Lemma wp_server_main answers optind argc n eintr Q :
  Forall (λ o, go_char o = "j"%char → NUL ∈ go_optarg o) answers →
  v_children (view boot) = ∅ →
  (∀ ls a pl s, 1 ≤ j_limit answers → asteps (a_initial (j_limit answers)) ls a →
     sound (j_limit answers) a pl s → Q tt s) →
  wp (server_main answers optind argc n eintr) Q ending (initial_ustate boot).
Proof.
  intros Hans Hch HQ. unfold server_main, on_core. wp_go.
  eapply wp_mono; [apply (wp_parse_options answers optind argc); [by cbn; unfold INT_MAX|done]| |].
  2:{ intros e He. apply ending_allowed. by left. }
  intros [] c' ((Hp & Hl & Hn) & Hj & [name Hname]). wp_go. cbn [u_core set_core].
  rewrite Hname. wp_go. change (c_parallel (u_core (initial_ustate boot))) with 1 in Hj.
  fold (j_limit answers) in Hj. set (s0 := set_core c' _).
  apply (wp_server_init_listening s0 name); [|done|exact (ex_intro _ name Hname)|done|done|
    apply rtc_refl|done|].
  - intros x. cbn. rewrite Hl. cbn. set_solver.
  - intros pl s Hi Hin. change (c_parallel (u_core s0)) with (c_parallel c') in *. rewrite Hj in *.
    assert (heard (u_trace s) (a_initial (j_limit answers))) as Hh.
    { intros fd c. cbn. by rewrite lookup_empty. }
    eapply (wp_main_loop _ _ (j_limit answers) (a_initial (j_limit answers)) pl).
    + split; [done|done| |].
      * unfold limits. by rewrite Hin.
      * intros K HK HJ _. split; [cbn; rewrite map_size_empty; lia|done].
    + intros ls a pl' s' Hs' Hso'. eapply HQ; [lia|done..].
Qed.


(** C2: POLLOUT is requested for a client exactly while there are bytes to send
    to it: in every state the server reaches, each connected client has one
    live entry in the poll list, and its events are POLLIN, with POLLOUT if and
    only if the client's write buffer holds data.  So no pending answer is
    forgotten and the server never spins on a writable socket.  This holds for
    every operating system that behaves as documented, after failed writes too;
    the runs that stop, in one of the ways of [ending], reach no further state. *)
Theorem pollout_iff_pending answers optind argc n eintr :
  Forall (λ o, go_char o = "j"%char → NUL ∈ go_optarg o) answers →
  v_children (view boot) = ∅ →
  wp (server_main answers optind argc n eintr)
    (λ _ s, ∃ l, u_clients s = Some l ∧
       ∀ fd x, list_lookup l fd = Ok (Some x) →
       ∃ cl i e, u_heap s !! x = Some cl ∧ cl_fd cl = fd ∧
         Z.of_nat i < u_poll_num s ∧ u_poll_list s !! i = Some (Some e) ∧ pf_fd e = fd ∧
         pf_events e = (if has_write_data (cl_writebuf cl) then POLLINOUT else POLLIN) ∧
         (∀ j e', Z.of_nat j < u_poll_num s → u_poll_list s !! j = Some (Some e') →
            pf_fd e' = fd → j = i))
    ending (initial_ustate boot).
Proof.
  intros Hans Hch. apply wp_server_main; [done|done|]. intros ls a pl s _ _ Hso.
  pose proof (so_inv _ _ _ _ Hso) as Hi.
  destruct (ni_clients _ _ _ (proj2 Hi)) as (l & Hl & Hm). exists l. split; [done|].
  intros fd x Hx. rewrite (list_models_lookup _ _ fd Hm), lookup_fmap in Hx. injection Hx as Hx.
  apply fmap_Some in Hx as (c & Hc & ->).
  destruct (inv_client _ _ _ _ _ _ Hi Hc) as (cl & _ & Hcl & Hrep).
  destruct (inv_client_fd _ _ _ _ _ _ Hi Hc) as (Hw & Hpos & _).
  pose proof (ni_poll _ _ _ (proj2 Hi)) as Hp.
  apply elem_of_watched in Hw as [Hne Hw]. apply list_elem_of_fmap in Hw as (e & -> & He).
  apply list_elem_of_lookup_1 in He as [i He].
  exists cl, i, e. split; [done|]. split; [by destruct Hrep|].
  pose proof (lookup_lt_Some _ _ _ He) as Hlt.
  split; [rewrite (pr_num _ _ _ _ Hp); lia|]. split; [by apply (pr_elems _ _ _ _ Hp)|].
  split; [done|]. split.
  - rewrite (ni_events _ _ _ (proj2 Hi) e) by (done || by eapply list_elem_of_lookup_2).
    rewrite (has_write_data_out cl _ c Hrep). unfold wanted. rewrite Hc.
    destruct (decide (ac_out c = [])) as [Ho|Ho].
    + by rewrite bool_decide_false by naive_solver.
    + by rewrite bool_decide_true.
  - intros j e' Hj He' Hfd. rewrite (pr_num _ _ _ _ Hp) in Hj.
    destruct (lookup_lt_is_Some_2 pl j) as [e2 He2]; [lia|].
    pose proof (pr_elems _ _ _ _ Hp j e2 He2) as He3. rewrite He' in He3. injection He3 as ->.
    eapply (watched_inj pl); [apply (ni_nodup _ _ _ (proj2 Hi))|done..|congruence].
Qed.

(** ** The limit on processes *)

(** C4: The server never runs more provers than it was told to.  In every state
    it reaches, the limit in force is the one of the last [parallel] request that
    arrived (with a positive number), and that of [-j] when there was none; and
    the number of running processes is at most any [K] that bounds the limit of
    [-j] and those of all [parallel] requests that arrived so far.  The requests
    are those in the complete lines of the bytes the clients sent, as the record
    of the [accept] and [read] calls gives them. *)
Theorem server_process_limit answers optind argc n eintr :
  Forall (λ o, go_char o = "j"%char → NUL ∈ go_optarg o) answers →
  v_children (view boot) = ∅ →
  wp (server_main answers optind argc n eintr)
    (λ _ s, c_parallel (u_core s) = default (j_limit answers) (last (limits (u_trace s))) ∧
       ∀ K, j_limit answers ≤ K → Forall (λ n, n ≤ K) (limits (u_trace s)) →
         list_length (u_processes s) ≤ K)
    ending (initial_ustate boot).
Proof.
  intros Hans Hch. apply wp_server_main; [done|done|]. intros ls a pl s HJ Hs [Hi _ Hp Hl].
  split; [by rewrite (ci_parallel _ _ _ (proj1 Hi))|]. intros K HK Hlim.
  rewrite (list_models_length _ _ (ni_procs _ _ _ (proj2 Hi))).
  by apply (Hl K); [lia|..].
Qed.

(** C26: Scheduling is first-in first-out and work-conserving:
    [schedule_new_jobs] takes a prefix of the request queue, in order, starts
    each request of it (or drops it when its client is gone), and stops only
    when the queue is empty or the limit on processes is reached. *)
Theorem schedule_work_conserving a pl s :
  inv a pl [] s →
  wp schedule_new_jobs
    (λ _ s', ∃ rs rs' ls a' pl', asteps a ls a' ∧ a_queue a = rs ++ rs' ∧ sched_labels rs ls ∧
       a_queue a' = rs' ∧ (rs' = [] ∨ ¬ a_room a') ∧ inv a' pl' [] s')
    ending s.
Proof. intros Hi. eapply wp_schedule_new_jobs; [done|]. intros. do 5 eexists. eauto 8. Qed.


(** [kill_processes] sends SIGKILL to exactly the running processes whose
    task has the given identifier, once each, and makes no other call; the
    state of the server does not change. *)
Theorem kill_processes_exact a pl ex s id :
  inv a pl ex s → s_addr id ∈ c_live (u_core s) → NUL ∈ s_txt id →
  wp (kill_processes id)
    (λ _ s', ∃ w' tr, s' = set_world w' (u_trace s ++ tr) s ∧ inv a pl ex s' ∧
       kills tr ≡ₚ (λ p, (proc_id p, SIGKILL)) <$>
                     filter (task_is id) (map_to_list (a_procs a)).*2)
    (λ _, False) s.
Proof. intros Hi Hl Hn. eapply wp_kill_processes; [done..|]. eauto 6. Qed.

End theorems.

(** ** A run

    One client connects, sends a request, receives the message that it was
    started, the prover terminates, and the client receives the answer. *)

Definition toy_world : toy :=
  mk_toy {[0; 1; 2]} ∅ ∅ [[(4, 1)]; [(7, 1)]; [(7, 4)]; [(5, 1)]; [(7, 4)]]
    [String.list_ascii_of_string "run;g1;5;100;z3;-in" ++ [LF]; ["x"%char]]
    [mk_report 3 0 1 500000].
Definition toy_answers : list getopt_answer :=
  [mk_answer "j" (clit "2"); mk_answer "s" (clit "/tmp/w.sock")].

Lemma toy_answers_ok : Forall (λ o, go_char o = "j"%char → NUL ∈ go_optarg o) toy_answers.
Proof.
  repeat (apply Forall_cons_2; [intros; apply (bool_decide_unpack _); by vm_compute|]).
  apply Forall_nil_2.
Qed.

Definition toy_main (fails : bool) (w : toy) (n : nat) : outcome (unit * ustate toy) :=
  @server_main strict_libc toy (toy_sys fails) toy_answers 5 5 n 3 (initial_ustate w).

(** The bytes written to each descriptor. *)
Definition writes (t : list sysrec) : list (Z * string) :=
  omap (λ r, match r with SysRec c _ =>
          match c with
          | SysWrite fd bs => Some (fd, String.string_of_list_ascii bs)
          | _ => None
          end end) t.
Definition written (r : outcome (unit * ustate toy)) : outcome (list (Z * string)) :=
  match r with Ok (_, s) => Ok (writes (u_trace s)) | Err e => Err e end.

Definition line (s : string) : string := s ++ String LF "".

Example toy_run :
  written (toy_main false toy_world 5) =
    Ok [(7, line "S;g1"); (7, line "F;g1;0;1.50;0;/tmp/why3XXXXXX")].
Proof. vm_compute. reflexivity. Qed.

(** The state after [n] iterations. *)
Definition toy_state (n : nat) : ustate toy :=
  match toy_main false toy_world n with Ok (_, s) => s | Err _ => initial_ustate toy_world end.
Definition is_ok {A} (o : outcome A) : bool := match o with Ok _ => true | Err _ => false end.

#[local] Existing Instance strict_libc.
#[local] Instance toy_start : Start toy := toy_world.

Lemma toy_sound n :
  is_ok (toy_main false toy_world n) = true →
  ∃ a pl, sound (j_limit toy_answers) a pl (toy_state n).
Proof.
  intros Hok.
  assert (wp (server_main toy_answers 5 5 n 3)
    (λ _ s, ∃ a pl, sound (j_limit toy_answers) a pl s) ending (initial_ustate toy_world)) as Hwp.
  { apply wp_server_main; [apply toy_answers_ok|done|]. eauto. }
  unfold toy_state. unfold wp in Hwp. unfold toy_main in *. change (toy_sys false) with toy_unix in *.
  destruct (server_main toy_answers 5 5 n 3 (initial_ustate toy_world)) as [[u s]|e]; [exact Hwp|done].
Qed.

Lemma toy_inv n :
  is_ok (toy_main false toy_world n) = true → ∃ a pl, inv a pl [] (toy_state n).
Proof. intros (a & pl & [Hi _ _ _])%toy_sound. eauto. Qed.

(** The client of descriptor 7 is connected after the first iteration. *)
Lemma toy_client :
  ∃ a pl c, inv a pl [] (toy_state 1) ∧ a_clients a !! 7 = Some c ∧ LF ∉ ac_in c.
Proof.
  destruct (toy_sound 1) as (a & pl & Hso); [by vm_compute|]. exists a, pl.
  pose proof (so_inv _ _ _ _ Hso) as Hi.
  destruct (ni_clients _ _ _ (proj2 Hi)) as (l & Hl & Hm).
  assert (∃ x, match u_clients (toy_state 1) with Some l => list_lookup l 7 | None => Err NullDeref end
    = Ok (Some x)) as [x Hx] by (eexists; vm_compute; reflexivity).
  rewrite Hl, (list_models_lookup _ _ 7 Hm), lookup_fmap in Hx. injection Hx as Hx.
  apply fmap_Some in Hx as (c & Hc & _). exists c. split; [exact Hi|]. split; [exact Hc|].
  eapply unread_no_newline. by eapply so_heard.
Qed.


Lemma pollout_iff_pending_witness :
  wp (server_main toy_answers 5 5 2 3)
    (λ _ s, ∃ l, u_clients s = Some l ∧
       ∀ fd x, list_lookup l fd = Ok (Some x) →
       ∃ cl i e, u_heap s !! x = Some cl ∧ cl_fd cl = fd ∧
         Z.of_nat i < u_poll_num s ∧ u_poll_list s !! i = Some (Some e) ∧ pf_fd e = fd ∧
         pf_events e = (if has_write_data (cl_writebuf cl) then POLLINOUT else POLLIN) ∧
         (∀ j e', Z.of_nat j < u_poll_num s → u_poll_list s !! j = Some (Some e') →
            pf_fd e' = fd → j = i))
    ending (initial_ustate boot).
Proof.
  apply (pollout_iff_pending toy_answers 5 5 2 3); [apply toy_answers_ok|reflexivity].
Defined.

Lemma server_process_limit_witness :
  wp (server_main toy_answers 5 5 3 3)
    (λ _ s, c_parallel (u_core s) = default 2 (last (limits (u_trace s))) ∧
       ∀ K, 2 ≤ K → Forall (λ n, n ≤ K) (limits (u_trace s)) →
         list_length (u_processes s) ≤ K)
    ending (initial_ustate boot).
Proof.
  apply (server_process_limit toy_answers 5 5 3 3); [apply toy_answers_ok|reflexivity].
Defined.

Lemma schedule_work_conserving_witness :
  ∃ a pl, inv a pl [] (toy_state 2) ∧
  wp schedule_new_jobs
    (λ _ s', ∃ rs rs' ls a' pl', asteps a ls a' ∧ a_queue a = rs ++ rs' ∧ sched_labels rs ls ∧
       a_queue a' = rs' ∧ (rs' = [] ∨ ¬ a_room a') ∧ inv a' pl' [] s')
    ending (toy_state 2).
Proof.
  destruct (toy_inv 2) as (a & pl & Hi); [by vm_compute|]. exists a, pl. split; [exact Hi|].
  apply (schedule_work_conserving a pl (toy_state 2) Hi).
Defined.



Lemma kill_processes_exact_witness :
  ∃ a pl c, inv a pl [] (toy_state 1) ∧
  wp (kill_processes (mk_str (ac_addr c) (clit "g1")))
    (λ _ s', ∃ w' tr, s' = set_world w' (u_trace (toy_state 1) ++ tr) (toy_state 1) ∧
       inv a pl [] s' ∧
       kills tr ≡ₚ (λ p, (proc_id p, SIGKILL)) <$>
          filter (task_is (mk_str (ac_addr c) (clit "g1"))) (map_to_list (a_procs a)).*2)
    (λ _, False) (toy_state 1).
Proof.
  destruct toy_client as (a & pl & c & Hi & Hc & _). exists a, pl, c. split; [exact Hi|].
  apply (kill_processes_exact a pl [] (toy_state 1) (mk_str (ac_addr c) (clit "g1")) Hi).
  - exact (owned_client _ _ _ _ _ (ci_owned _ _ _ (proj1 Hi)) Hc).
  - apply (bool_decide_unpack _). by vm_compute.
Defined.


(** ** Behaviours that are not intended *)

(** The first client asks for a proof and leaves; a second one connects and gets
    the descriptor of the first. *)
Definition stale_world : toy :=
  mk_toy {[0; 1; 2]} ∅ ∅
    [[(4, 1)]; [(7, 1)]; [(7, 1)]; [(4, 1)]; [(5, 1)]; [(7, 4)]]
    [String.list_ascii_of_string "run;g1;5;100;z3;-in" ++ [LF]; []; ["x"%char]]
    [mk_report 3 0 1 500000].

(** A disconnected client's answers go to whoever gets its descriptor: a
    process remembers its client by the descriptor number only and is not
    detached when the client is closed, so a second client, which sent no
    request at all, receives the answer to the first one's request. *)
Theorem stale_answer_delivered :
  written (toy_main false stale_world 6) = Ok [(7, line "F;g1;0;1.50;0;/tmp/why3XXXXXX")] ∧
  match toy_main false stale_world 6 with
  | Ok (_, s) =>
     omap (λ r, match r with SysRec c x =>
        match c in sys A return A → option Z with
        | SysAccept _ => λ fd, Some fd
        | SysClose fd => λ _, if fd =? 7 then Some (-7) else None
        | _ => λ _, None
        end x end) (u_trace s) = [7; -7; 7]
  | Err _ => False
  end.
Proof. vm_compute. done. Qed.

(** With a client that has gone away, so that every [write] to it fails, the
    server aborts on an assertion at its second attempt to write. *)
Theorem failed_write_aborts_server :
  is_ok (toy_main true (mk_toy {[0; 1; 2]} ∅ ∅ [[(4, 1)]; [(7, 1)]; [(7, 4)]; [(7, 4)]]
     [String.list_ascii_of_string "run;g1;5;100;z3;-in" ++ [LF]] []) 3) = true ∧
  toy_main true (mk_toy {[0; 1; 2]} ∅ ∅ [[(4, 1)]; [(7, 1)]; [(7, 4)]; [(7, 4)]]
     [String.list_ascii_of_string "run;g1;5;100;z3;-in" ++ [LF]] []) 4 = Err AssertFailed.
Proof. vm_compute. done. Qed.
