(* ===== verification/ServerChild.v ===== *)
(** * The forked child, and failures of the Unix server

    The argument vector and the resource limits the child sets before [execvp],
    the size of the final message, and the situations in which the server or
    its child does go wrong. *)

From S2P Require Import Prelude Queue ArrayList CString ReadBuf WriteBuf State Options Request UnixOS.
From S2P Require Import ServerUnix ServerPoll ServerAbs ServerInv ServerNet ServerHandlers ServerProcs.
From S2P Require Import UnixToy.
From Stdlib Require Import Ascii SpecFloat.

(** ** The argument vector *)

Section argv.
Context `{Libc}.

Lemma copy_argv_rep n : ∀ args (b : arr (option cstring)) i,
  (i + n ≤ length args)%nat → (i + n < length b)%nat →
  copy_argv n args b (Z.of_nat i) =
    Ok (take (S i) b ++ ((λ x, Some (Some x)) <$> take n (drop i args)) ++ drop (S (i + n)) b).
Proof.
  induction n as [|n IH]; intros args b i Hi Hb; cbn [copy_argv].
  { rewrite take_0, fmap_nil. cbn [app]. by rewrite Nat.add_0_r, take_drop. }
  destruct (lookup_lt_is_Some_2 args i) as [x Hx]; [lia|].
  unfold arg_at. rewrite (proj2 (Z.ltb_ge _ _)), Nat2Z.id, Hx by lia. cbn [mbind outcome_bind].
  rewrite arr_set_ok by (unfold arr_len; lia). cbn [mbind outcome_bind].
  replace (Z.to_nat (Z.of_nat i + 1)) with (S i) by lia.
  replace (Z.of_nat i + 1) with (Z.of_nat (S i)) by lia.
  rewrite IH by (rewrite ?length_insert; lia). f_equal.
  rewrite (drop_S args x i Hx). cbn [take fmap list_fmap].
  rewrite (take_S_r _ (S i) (Some (Some x))) by (by rewrite list_lookup_insert_eq by lia).
  rewrite take_insert_ge, drop_insert_lt by lia. rewrite <- app_assoc.
  by replace (S (S i + n)) with (S (i + S n)) by lia.
Qed.

(** The argument vector handed to [execvp] is the command, then the
    arguments of the request in order, then a null pointer; for a [runstdin]
    request the last argument, which names the input file, is left out. *)
Theorem build_argv_correct cmd args (usestdin : bool) :
  (usestdin = true → args ≠ []) → Z.of_nat (length args) + 2 ≤ alloc_max →
  let count := if usestdin then Z.of_nat (length args) - 1 else Z.of_nat (length args) in
  build_argv cmd args count =
    Ok (Some (Some cmd) :: ((λ x, Some (Some x)) <$> take (Z.to_nat count) args) ++ [Some None]).
Proof.
  intros Hstd Hmax count.
  assert (0 ≤ count ≤ Z.of_nat (length args)) as Hc.
  { unfold count. destruct usestdin; [|lia]. destruct args; [by destruct Hstd|cbn; lia]. }
  unfold build_argv. rewrite c_malloc_ok by lia. cbn [mbind outcome_bind].
  rewrite arr_set_ok by (rewrite arr_len_new; lia). cbn [mbind outcome_bind].
  rewrite arr_set_ok by (rewrite arr_len_insert, arr_len_new; lia). cbn [mbind outcome_bind].
  set (b := <[Z.to_nat (count + 1) := _]> _).
  assert (length b = Z.to_nat count + 2)%nat as Hlb.
  { unfold b, arr_new. rewrite !length_insert, length_replicate. lia. }
  change 0 with (Z.of_nat 0). rewrite (copy_argv_rep _ args b 0) by lia. rewrite drop_0. f_equal.
  assert (take 1 b = [Some (Some cmd)]) as ->.
  { rewrite (take_S_r b 0 (Some (Some cmd))); [done|]. unfold b, arr_new.
    rewrite list_lookup_insert_ne by lia. change (Z.to_nat 0) with 0%nat.
    rewrite list_lookup_insert_eq; [done|]. rewrite length_replicate. lia. }
  assert (drop (S (0 + Z.to_nat count)) b = [Some None]) as ->; [|done].
  rewrite (drop_S b (Some None)).
  - by rewrite drop_ge by (rewrite Hlb; lia).
  - unfold b, arr_new. replace (Z.to_nat (count + 1)) with (S (0 + Z.to_nat count)) by lia.
    apply list_lookup_insert_eq. rewrite length_insert, length_replicate. lia.
Qed.
End argv.

Lemma build_argv_correct_witness :
  let z3 := mk_str 1 (clit "z3") in
  let a := [mk_str 2 (clit "-in"); mk_str 3 (clit "goal.smt2")] in
  @build_argv strict_libc z3 a 1 =
    Ok [Some (Some z3); Some (Some (mk_str 2 (clit "-in"))); Some None].
Proof.
  apply (@build_argv_correct strict_libc (mk_str 1 (clit "z3"))
    [mk_str 2 (clit "-in"); mk_str 3 (clit "goal.smt2")] true); [done|cbn; lia].
Defined.

(** ** The child *)

(** The limits set and the descriptors duplicated, in a trace. *)
Definition limit_of (r : sysrec) : option (resource * Z * Z) :=
  match r with
  | SysRec c _ => match c with SysSetrlimit k cur max => Some (k, cur, max) | _ => None end
  end.
Definition dup_of (r : sysrec) : option (Z * Z) :=
  match r with SysRec c _ => match c with SysDup2 old new => Some (old, new) | _ => None end end.
Definition open_of (r : sysrec) : option (list ascii) :=
  match r with SysRec c _ => match c with SysOpen path _ => Some path | _ => None end end.

Section child.
Context `{Libc} {W : Type} `{UnixOS W}.
Implicit Types (s : ustate W).

(** The limits a job asks for. *)
Definition job_limits (job : child_job) : list (resource * Z * Z) :=
  let t := job_timelimit job in
  let m := job_memlimit job in
  (if 0 <? t then [(RLIMIT_CPU, t, t)] else []) ++
  (if 0 <? m then [(RLIMIT_AS, m * 1048576, m * 1048576)] else []) ++
  (if (0 <? t) || (0 <? m) then [(RLIMIT_CORE, 0, 0)] else []).

(** After the calls [tr]: only the trace and the world change. *)
Definition after (s0 : ustate W) (tr : list sysrec) (w : W) : ustate W :=
  set_world w (u_trace s0 ++ tr) s0.

Lemma wp_call_after {A} (c : sys A) s0 tr w (Q : A → ustate W → Prop) E :
  (∀ r w', Q r (after s0 (tr ++ [SysRec c r]) w')) → wp (syscall c) Q E (after s0 tr w).
Proof.
  intros HQ. unfold wp, syscall. destruct (os c _) as [r w']. cbn.
  rewrite <- app_assoc. apply (HQ r w').
Qed.

(** A call under a condition. *)
Lemma wp_maybe_call {A B} (b : bool) (c : sys A) (k : M (ustate W) B) s0 tr w Q E :
  (∀ r w', wp k Q E (after s0 (tr ++ if b then [SysRec c r] else []) w')) → inhabited A →
  wp (_ ← (if b then _ ← syscall c; mret tt else mret tt); k) Q E (after s0 tr w).
Proof.
  intros HQ [x]. apply wp_bind. destruct b.
  - apply wp_bind, wp_call_after. intros r w'. apply wp_ret, HQ.
  - apply wp_ret. specialize (HQ x w). by rewrite app_nil_r in HQ.
Qed.

(** Before the command is executed the child has set the limits of the
    request, and no other: the CPU time (soft and hard) if positive, the
    address space in bytes if a memory limit is given, and no core dumps if
    there is any limit.  For [runstdin] the last argument is opened and becomes
    descriptor 0; both output descriptors become the output file. *)
Theorem child_setup_trace job s :
  0 ≤ job_memlimit job < UINT_MOD →
  (job_usestdin job = true → 0 ≤ job_count job ∧
     ∃ x, job_argv job !! Z.to_nat (job_count job) = Some x ∧ s_addr x ∈ c_live (u_core s)) →
  wp (child_setup job)
    (λ _ s', ∃ tr w', s' = after s tr w' ∧
       omap limit_of tr = job_limits job ∧
       if job_usestdin job
       then ∃ x infile, job_argv job !! Z.to_nat (job_count job) = Some x ∧
              omap open_of tr = [cstr (s_txt x)] ∧ infile ≠ -1 ∧
              omap dup_of tr = [(infile, 0); (job_outfile job, 1); (job_outfile job, 2)]
       else omap dup_of tr = [(job_outfile job, 1); (job_outfile job, 2)])
    (λ e, e = Exited 1 "Cannot open the input file" ∧ job_usestdin job = true) s.
Proof.
  intros Hmem Hin. unfold child_setup.
  assert (size_t (size_t (job_memlimit job * 1024) * 1024) = job_memlimit job * 1048576) as Hm.
  { unfold UINT_MOD in Hmem. rewrite (size_t_small (job_memlimit job * 1024)) by (unfold SIZE_MOD; lia).
    rewrite size_t_small by (unfold SIZE_MOD; lia). lia. }
  cbv zeta. rewrite Hm. set (t := job_timelimit job). set (m := job_memlimit job) in *.
  assert (s = after s [] (u_world s)) as Hs.
  { unfold after. rewrite app_nil_r. by destruct s. }
  match goal with |- wp ?m ?Q ?E s => enough (wp m Q E (after s [] (u_world s))) by congruence end.
  apply wp_maybe_call; [|exact (inhabits 0)]. intros r1 w1.
  apply wp_maybe_call; [|exact (inhabits 0)]. intros r2 w2.
  apply wp_maybe_call; [|exact (inhabits 0)]. intros r3 w3.
  match goal with |- wp _ _ _ (after _ ?x _) => set (tr := x) end.
  assert (omap limit_of tr = job_limits job ∧ omap dup_of tr = [] ∧ omap open_of tr = [])
    as (Hl & Hd & Ho).
  { unfold tr, job_limits. fold t m. rewrite !omap_app.
    destruct (0 <? t), (0 <? m); done. }
  clearbody tr. destruct (job_usestdin job) eqn:Hu.
  - destruct (Hin eq_refl) as (Hc & x & Hx & Hlive). apply wp_bind, wp_bind.
    eapply wp_lift_ok; [unfold arg_at; rewrite (proj2 (Z.ltb_ge _ _)) by exact Hc; by rewrite Hx|].
    unfold on_core. wp_go. apply wp_read_str; [done|].
    replace (set_core _ _) with (after s tr w3) by (by destruct s). wp_go.
    apply wp_call_after. intros infile w4.
    destruct (Z.eqb_spec infile (-1)) as [|Hne]; [by apply wp_raise|].
    wp_go. apply wp_call_after. intros r5 w5. wp_go. apply wp_call_after. intros r6 w6. wp_go.
    apply wp_call_after. intros r7 w7. wp_go. eexists _, w7. split; [done|].
    rewrite !omap_app, Hl, Hd, Ho. cbn. rewrite !app_nil_r. split; [done|]. by exists x, infile.
  - wp_go. apply wp_call_after. intros r6 w6. wp_go.
    apply wp_call_after. intros r7 w7. wp_go. eexists _, w7. split; [done|].
    rewrite !omap_app, Hl, Hd. cbn. by rewrite !app_nil_r.
Qed.

(** A [runstdin] request without any argument makes the child read before
    the start of its argument array ([argv[count]] with [count = -1]), whatever
    the limits. *)
Theorem runstdin_without_argument cmd out t m s :
  1 ≤ alloc_max → (∀ job, (os (SysFork job) (u_world s)).1 = 0) →
  create_process cmd 0 [] true out t m s = Err OutOfBounds.
Proof.
  intros Hmax Hfork. apply wp_Err_inv. unfold create_process. apply wp_bind.
  eapply (wp_lift_ok _ [Some None]); [unfold build_argv; by rewrite c_malloc_ok by lia|].
  cbv beta zeta. set (job := mk_job _ _ _ _ _ _ _ _). apply wp_bind.
  unfold wp at 1, syscall. specialize (Hfork job).
  destruct (os (SysFork job) (u_world s)) as [pid w']. cbn in Hfork. subst pid. cbn [Z.eqb].
  apply wp_bind, wp_ret. cbn [Z.ltb Z.compare]. unfold child_main. apply wp_bind.
  set (s1 := set_world _ _ _).
  assert (s1 = after s1 [] (u_world s1)) as ->.
  { unfold after. rewrite app_nil_r. by destruct s1. }
  unfold child_setup. cbv zeta.
  apply wp_maybe_call; [|exact (inhabits 0)]. intros r1 w1.
  apply wp_maybe_call; [|exact (inhabits 0)]. intros r2 w2.
  apply wp_maybe_call; [|exact (inhabits 0)]. intros r3 w3. done.
Qed.
End child.

Lemma child_setup_trace_witness :
  let x := mk_str 5 (clit "goal.smt2") in
  let job := mk_job (mk_str 1 (clit "z3")) [x] [] 0 true 8 5 1000 in
  let st := mk_u (set_live 9 {[5]}%positive initial_core) None ∅ (mk_list [] [] 0 0) [] 0 0 4 (5, 6)
              None (mk_toy {[4; 5; 6; 8]} ∅ ∅ [] [] []) [] in
  wp (child_setup job)
    (λ _ s', ∃ tr w', s' = after st tr w' ∧
       omap limit_of tr = job_limits job ∧
       if job_usestdin job
       then ∃ x infile, job_argv job !! Z.to_nat (job_count job) = Some x ∧
              omap open_of tr = [cstr (s_txt x)] ∧ infile ≠ -1 ∧
              omap dup_of tr = [(infile, 0); (job_outfile job, 1); (job_outfile job, 2)]
       else omap dup_of tr = [(job_outfile job, 1); (job_outfile job, 2)])
    (λ e, e = Exited 1 "Cannot open the input file" ∧ job_usestdin job = true) st.
Proof.
  intros x job st. apply (child_setup_trace job st).
  - cbn. unfold UINT_MOD. lia.
  - intros _. split; [cbn; lia|]. exists x. split; [reflexivity|].
    apply (bool_decide_unpack _). by vm_compute.
Defined.

(** A system in which [fork] returns in the child. *)
Definition in_child : UnixOS unit := {|
  os := λ A c, match c in sys A return unit → A * unit with
    | SysAccept _ | SysClose _ | SysFork _ | SysKill _ _ | SysOpen _ _ | SysChdir _ | SysFchdir _
    | SysSocket | SysBind _ _ | SysListen _ _ | SysGetfl _ | SysSetfl _ _ | SysSigaction
    | SysSetrlimit _ _ _ | SysDup2 _ _ | SysExecvp _ _ => λ w, (0, w)
    | SysRead _ _ => λ w, (inl [], w)
    | SysWrite _ _ => λ w, (inl 0, w)
    | SysPoll _ => λ w, (inr EINTR, w)
    | SysWait3 => λ w, (None, w)
    | SysMkstemp t => λ w, (0, t, w)
    | SysUnlink _ => λ w, (inl tt, w)
    | SysGetcwd => λ w, (None, w)
    | SysPipe => λ w, (None, w)
    | SysMalloc _ => λ w, (true, w)
    end;
  unix_path_max := 108
|}.

Lemma runstdin_without_argument_witness :
  @create_process strict_libc unit in_child (mk_str 1 (clit "z3")) 0 [] true 8 5 1000
    (initial_ustate tt) = Err OutOfBounds.
Proof.
  apply (@runstdin_without_argument strict_libc unit in_child); [cbn; lia|reflexivity].
Defined.

(** ** A write that fails *)

Section write_failure.
Context `{Libc} {W : Type} `{UnixOS W}.

(** After one failed [write] the client's buffer stays marked as being
    written, so the next attempt to write to that client fails an assertion and
    the whole server aborts. *)
Theorem write_failure_asserts (s : ustate W) x cl m ms ptr i :
  u_heap s !! x = Some cl → wb_rep (cl_writebuf cl) false (m :: ms) ptr →
  (∀ bs, ∃ err, (os (SysWrite (cl_fd cl) bs) (u_world s)).1 = inr err) →
  ∃ s', write_to_client x i s = Ok (tt, s') ∧ write_to_client x i s' = Err AssertFailed.
Proof.
  intros Hx Hwb Hfail.
  destruct (prepare_write_rep _ _ _ _ Hwb) as (buf & size & b1 & E1 & Hwb1 & _).
  assert (wp (write_to_client x i) (λ _ s', ∃ cl', u_heap s' !! x = Some cl' ∧ cl_writebuf cl' = b1)
    (λ _, False) s) as Hwp.
  { unfold write_to_client. wp_go. eapply wp_Ok; [unfold client_at; by rewrite Hx|]. wp_go.
    eapply wp_lift_ok; [done|]. wp_go. eapply wp_set_writebuf; [done|]. wp_go.
    unfold wp at 1, syscall. cbn [u_world set_heap].
    destruct (Hfail (take (Z.to_nat size) buf)) as [err He].
    destruct (os _ (u_world s)) as [r w']. cbn in He. subst r. wp_go.
    eapply wp_Ok; [unfold client_at; cbn; by rewrite lookup_insert_eq|]. cbn [cl_writebuf].
    rewrite (has_write_data_rep _ _ _ _ Hwb1), bool_decide_true by done. cbn [negb]. wp_go.
    eexists. cbn. by rewrite lookup_insert_eq. }
  destruct (wp_Ok_inv _ _ _ Hwp) as ([] & s' & Hs & cl' & Hx' & Hb). exists s'. split; [done|].
  apply wp_Err_inv. unfold write_to_client. wp_go.
  eapply wp_Ok; [unfold client_at; by rewrite Hx'|]. wp_go.
  rewrite Hb, (prepare_write_busy _ _ _ Hwb1). done.
Qed.
End write_failure.

Lemma write_failure_asserts_witness :
  let cl := mk_client 7 (mk_readbuf [] 0 0)
              (mk_writebuf (Some (clit "S;a")) 3 0 false (mk_queue [None] 0 0 1)) in
  let st := mk_u initial_core None {[1%positive := cl]} (mk_list [] [] 0 0) [] 0 0 4 (5, 6) None
              (mk_toy ∅ ∅ ∅ [] [] []) [] in
  ∃ s', @write_to_client toy (toy_sys true) 1 2 st = Ok (tt, s') ∧
    @write_to_client toy (toy_sys true) 1 2 s' = Err AssertFailed.
Proof.
  intros cl st.
  apply (@write_failure_asserts strict_libc toy (toy_sys true) st 1 cl (clit "S;a") [] 0 2).
  - reflexivity.
  - split; [reflexivity|]. split.
    + apply Forall_singleton. split; [apply (bool_decide_unpack _); by vm_compute|by vm_compute].
    + cbn. split; [done|]. split; [done|]. split; [done|]. split; [by vm_compute|].
      split; cbn; try lia; try done.
  - intros bs. exists 32. reflexivity.
Defined.

(** ** The size of the final message *)

Lemma exit_code_range status : 0 ≤ (exit_report status).1 ≤ 255.
Proof.
  assert (0 ≤ WTERMSIG status ≤ 255).
  { unfold WTERMSIG. change 127 with (Z.ones 7). rewrite Z.land_ones by lia.
    pose proof (Z.mod_pos_bound status (2 ^ 7)). lia. }
  assert (0 ≤ WEXITSTATUS status ≤ 255).
  { unfold WEXITSTATUS. rewrite Z.shiftr_land. change (Z.shiftr 65280 8) with (Z.ones 8).
    rewrite Z.land_ones by lia. pose proof (Z.mod_pos_bound (Z.shiftr status 8) (2 ^ 8)). lia. }
  unfold exit_report. repeat case_match; cbn; lia.
Qed.

(** The buffer of [send_msg_to_client] is large enough exactly when the
    exit code and the CPU time together take at most 18 characters.  For every
    exit status [wait3] can report and CPU times below 10^12 seconds it is, so
    the server does not stop with "message for client too long". *)
Theorem finished_message_fits id outfile status (t : double) :
  let code := (exit_report status).1 in
  let b := (exit_report status).2 in
  let text := finished_text id code t b outfile in
  let len := Z.of_nat (length id) + 3 + 23 + (Z.of_nat (length outfile) + 1) in
  (Z.of_nat (length text) < len ↔ (length (fmt_d code) + length (fmt_2f t) ≤ 18)%nat) ∧
  ((t = S754_zero false ∨ ∃ m e, t = S754_finite false m e ∧ hundredths m e < 10 ^ 14) →
   Z.of_nat (length text) < len).
Proof.
  intros code b text len.
  assert (length (fmt_d (if b then 1 else 0)) = 1%nat) as Hb by (by destruct b).
  assert (Z.of_nat (length text) < len ↔ (length (fmt_d code) + length (fmt_2f t) ≤ 18)%nat) as Hiff.
  { unfold text, len, finished_text. rewrite !length_app. rewrite Hb. cbn. lia. }
  split; [done|]. intros Ht. apply Hiff.
  assert (0 ≤ code ≤ 255) as Hcode.
  { unfold code. apply exit_code_range. }
  assert (length (fmt_d code) ≤ 3)%nat as H1.
  { unfold fmt_d. rewrite (proj2 (Z.ltb_ge _ _)) by lia. apply fmt_u_length; [cbn; lia|lia]. }
  assert (length (fmt_2f t) ≤ 15)%nat as H2; [|lia].
  assert (∀ h, 0 ≤ h < 10 ^ 14 → (length (fmt_hundredths h) ≤ 15)%nat) as Hh.
  { intros h Hh. unfold fmt_hundredths. rewrite length_app. cbn [length].
    assert (length (fmt_u (h / 100)) ≤ 12)%nat; [|lia]. apply fmt_u_length; [|lia].
    split; [apply Z.div_pos; lia|]. apply Z.div_lt_upper_bound; [lia|]. cbn in *. lia. }
  destruct Ht as [->|(m & e & -> & Hm)].
  - apply (Hh 0). lia.
  - apply Hh. pose proof (hundredths_nonneg m e). lia.
Qed.
