(* ===== verification/WinOS.v ===== *)
(** * The operating system interface of the Windows server

    The Win32 calls [server-win.c] makes, as a signature indexed by the type of
    the answer; the operating system is a parameter.  Handles are integers, 0
    being [NULL] and -1 [INVALID_HANDLE_VALUE]. *)

From S2P Require Import Prelude CString State.
From Stdlib Require Import Ascii.

(** The [OVERLAPPED] structs the program passes to asynchronous calls: in a
    server instance, in the [read] or in the [write] field of a client. For the
    messages of a job, the pointer is a process identifier. *)
Inductive overlapped :=
  | OvConnect (server : positive)
  | OvRead (client : positive)
  | OvWrite (client : positive)
  | OvPid (pid : Z)
  | OvNull.

(** A packet of the completion port: the result of the call that takes it, the
    three values it stores, and the bytes that a finished read has put in the
    buffer of the client. *)
Record packet := mk_packet {
  pk_res : bool;
  pk_numbytes : Z;
  pk_mskey : Z;
  pk_ov : overlapped;
  pk_data : list ascii
}.

(** [STARTUPINFO]: the standard handles *)
Record startup := mk_startup {
  si_stdin : Z;
  si_stdout : Z;
  si_stderr : Z
}.

Inductive wsys : Type → Type :=
  | WSetErrorMode : wsys unit
  | WGetCurrentDirectory : wsys (option (list ascii))
  | WCreateIoCompletionPort (h port key : Z) : wsys Z
  | WCloseHandle (h : Z) : wsys bool
  | WCreateEvent : wsys Z
  | WCreateNamedPipe (name : list ascii) : wsys Z
  | WConnectNamedPipe (h : Z) (ov : overlapped) : wsys bool
  | WGetLastError : wsys Z
  | WReadFile (h n : Z) (ov : overlapped) : wsys bool
  | WWriteFile (h : Z) (bs : list ascii) (ov : overlapped) : wsys bool
  | WGetTempFileName (dir : list ascii) : wsys (option (list ascii))
  | WCreateOutput (path : list ascii) : wsys Z
  | WOpenInput (path : list ascii) : wsys Z
  | WCreateJobObject : wsys Z
  | WSetLimits (job flags time memory : Z) : wsys bool
  | WSetPort (job key port : Z) : wsys bool
  | WCreateProcess (cmd : arr ascii) (si : startup) : wsys (option (Z * Z))
  | WAssignProcess (job process : Z) : wsys bool
  | WResumeThread (h : Z) : wsys Z
  | WWait (h : Z) : wsys Z
  | WGetExitCode (h : Z) : wsys (option Z)
  | WGetTimes (h : Z) : wsys (option (Z * Z))      (** system and user time *)
  | WTerminate (h code : Z) : wsys bool
  | WMalloc (n : Z) : wsys bool
  | WGetPacket (port : Z) : wsys (option packet).

Inductive wsysrec :=
  | WRec (A : Type) (c : wsys A) (r : A).
Arguments WRec {A} c r.

Class WinOS (W : Type) := {
  wos : ∀ {A}, wsys A → W → A * W;
  win_basename : list ascii → list ascii   (** [basename] of the C library *)
}.

Definition INVALID_HANDLE_VALUE : Z := -1.
Definition MAX_PATH : Z := 260.
Definition ERROR_BROKEN_PIPE : Z := 109.
Definition ERROR_PIPE_CONNECTED : Z := 535.
Definition ERROR_IO_PENDING : Z := 997.
Definition ERROR_REQUEST_ABORTED : Z := 1235.
Definition ERROR_NOT_ENOUGH_QUOTA : Z := 1816.
Definition STATUS_QUOTA_EXCEEDED : Z := 3221225540.
Definition JOB_OBJECT_LIMIT_PROCESS_TIME : Z := 2.
Definition JOB_OBJECT_LIMIT_PROCESS_MEMORY : Z := 256.
Definition JOB_OBJECT_MSG_END_OF_JOB_TIME : Z := 1.
Definition JOB_OBJECT_MSG_END_OF_PROCESS_TIME : Z := 2.
Definition JOB_OBJECT_MSG_ACTIVE_PROCESS_ZERO : Z := 4.
Definition JOB_OBJECT_MSG_NEW_PROCESS : Z := 6.
Definition JOB_OBJECT_MSG_EXIT_PROCESS : Z := 7.
Definition JOB_OBJECT_MSG_ABNORMAL_EXIT_PROCESS : Z := 8.
Definition JOB_OBJECT_MSG_PROCESS_MEMORY_LIMIT : Z := 9.
Definition JOB_OBJECT_MSG_JOB_MEMORY_LIMIT : Z := 10.
