(* ===== verification/CmdLine.v ===== *)
(** * The command line of a Windows process (src/server/server-win.c)

    [CreateProcess] takes the command and its arguments as one string, which
    [run_request] assembles, with quotes and escapes, in a local array of 4096
    characters.  This file models that assembly character by character, gives
    the text it produces, and shows that the rules by which a C program on
    Windows takes its command line apart give back the original arguments. *)

From S2P Require Import Prelude CString ReadBuf.
From Stdlib Require Import Ascii.

Definition DQ : ascii := "034".
Definition BS : ascii := "092".
Definition SP : ascii := " ".
Definition TAB : ascii := "009".

(** ** Strings in a local array *)

(** The length of the string at the start of the array. *)
Fixpoint arr_strlen (a : arr ascii) : outcome Z :=
  match a with
  | [] => Err OutOfBounds
  | None :: _ => Err Indeterminate
  | Some c :: a => if decide (c = NUL) then Ok 0 else n ← arr_strlen a; Ok (n + 1)
  end.

Definition strcpy (dst : arr ascii) (src : cbuf) : outcome (arr ascii) :=
  _ ← strlen src;
  fill_at dst 0 (cstr src ++ [NUL]).
Definition strcat (dst : arr ascii) (src : cbuf) : outcome (arr ascii) :=
  _ ← strlen src;
  n ← arr_strlen dst;
  fill_at dst n (cstr src ++ [NUL]).

(** ** Assembling the command line *)

Definition char_at (ca : cbuf) (i : nat) : outcome ascii :=
  match ca !! i with Some c => Ok c | None => Err OutOfBounds end.

(** Is there a blank or a quote among the [n] characters from [i] on? *)
Fixpoint need_quote_loop (n : nat) (ca : cbuf) (i : nat) : outcome bool :=
  match n with
  | O => Ok false
  | S n =>
     c ← char_at ca i;
     if decide (c = SP) then Ok true
     else if decide (c = DQ) then Ok true
     else need_quote_loop n ca (S i)
  end.

(** [cmd[cl_index] = c; cl_index++;] *)
Definition put (st : arr ascii * Z) (c : ascii) : outcome (arr ascii * Z) :=
  let '(cmd, cl_index) := st in
  cmd ← arr_set cmd cl_index c;
  Ok (cmd, cl_index + 1).

(** [for (int j = n - 1; j >= 0 && ca[j] == '\\'; j--)]: one more backslash
    for each of the backslashes that end the first [n] characters. *)
Fixpoint put_backslashes (n : nat) (ca : cbuf) (st : arr ascii * Z) : outcome (arr ascii * Z) :=
  match n with
  | O => Ok st
  | S j =>
     c ← char_at ca j;
     if decide (c = BS) then st ← put st BS; put_backslashes j ca st else Ok st
  end.

(** The characters of the argument from [ca_index] on, [n] of them. *)
Fixpoint quote_loop (n : nat) (ca : cbuf) (ca_index : nat) (st : arr ascii * Z)
  : outcome (arr ascii * Z) :=
  match n with
  | O => Ok st
  | S n' =>
     c ← char_at ca ca_index;
     st ← (if decide (c = DQ) then
             st ← (match ca_index with
                   | O => Ok st
                   | S i =>
                      p ← char_at ca i;
                      if decide (p = BS) then put_backslashes ca_index ca st else Ok st
                   end);
             st ← put st BS;
             put st DQ
           else
             st ← put st c;
             len ← strlen ca;
             if decide (c = BS) then
               if Z.of_nat ca_index + 1 =? len then put_backslashes (S ca_index) ca st else Ok st
             else Ok st);
     quote_loop n' ca (S ca_index) st
  end.

Definition append_arg (cmd : arr ascii) (ca : cbuf) : outcome (arr ascii) :=
  len ← strlen ca;
  b ← need_quote_loop (Z.to_nat len) ca 0;
  let need_quote := (len <=? 0) || b in
  if need_quote : bool then
    cl_index ← arr_strlen cmd;
    st ← put (cmd, cl_index) DQ;
    st ← quote_loop (Z.to_nat len) ca 0 st;
    st ← put st DQ;
    '(cmd, cl_index) ← put st SP;
    arr_set cmd cl_index NUL
  else
    cmd ← strcat cmd ca;
    strcat cmd [SP; NUL].

Fixpoint append_args (args : list cbuf) (cmd : arr ascii) : outcome (arr ascii) :=
  match args with
  | [] => Ok cmd
  | ca :: args => cmd ← append_arg cmd ca; append_args args cmd
  end.

Definition CMD_SIZE : Z := 4096.

(** [args] are the first [argcount] arguments of the request. *)
Definition build_cmdline (r_cmd : cbuf) (args : list cbuf) : outcome (arr ascii) :=
  cmd ← strcpy (arr_new CMD_SIZE) r_cmd;
  cmd ← strcat cmd [SP; NUL];
  append_args args cmd.

(** ** The text assembled *)

(** [bs] backslashes end the part of the argument before [s]. *)
Fixpoint quote_body (bs : nat) (s : list ascii) : list ascii :=
  match s with
  | [] => replicate bs BS
  | c :: s =>
     if decide (c = DQ) then replicate bs BS ++ [BS; DQ] ++ quote_body 0 s
     else if decide (c = BS) then BS :: quote_body (S bs) s
     else c :: quote_body 0 s
  end.

Definition needs_quotes (s : list ascii) : bool :=
  bool_decide (s = []) || bool_decide (SP ∈ s) || bool_decide (DQ ∈ s).
Definition arg_text (s : list ascii) : list ascii :=
  if needs_quotes s then [DQ] ++ quote_body 0 s ++ [DQ] else s.
Definition args_text (args : list (list ascii)) : list ascii :=
  args ≫= (λ a, arg_text a ++ [SP]).
Definition cmdline_text (cmd : list ascii) (args : list (list ascii)) : list ascii :=
  cmd ++ [SP] ++ args_text args.

(** ** How a program takes its command line apart

    The documented rules of the Microsoft C runtime: blanks separate arguments
    outside of quotes; a quote after an even number of backslashes opens or
    closes a quoted part (a second quote right behind it, inside, is a literal
    one), after an odd number it is literal, and in both cases every two
    backslashes stand for one; other backslashes are literal. *)
Definition is_blank (c : ascii) : bool := bool_decide (c = SP) || bool_decide (c = TAB).

Definition emit (cur : option (list ascii)) (bs : nat) : list (list ascii) :=
  match cur, bs with
  | None, O => []
  | _, _ => [default [] cur ++ replicate bs BS]
  end.

Fixpoint ms_args (inq : bool) (bs : nat) (cur : option (list ascii)) (s : list ascii)
  : list (list ascii) :=
  match s with
  | [] => emit cur bs
  | c :: s =>
     if decide (c = BS) then ms_args inq (S bs) cur s
     else if decide (c = DQ) then
       let acc := default [] cur ++ replicate (Nat.div2 bs) BS in
       if Nat.odd bs then ms_args inq 0 (Some (acc ++ [DQ])) s
       else
         match s with
         | d :: s' =>
            if inq && bool_decide (d = DQ) then ms_args inq 0 (Some (acc ++ [DQ])) s'
            else ms_args (negb inq) 0 (Some acc) s
         | [] => ms_args (negb inq) 0 (Some acc) s
         end
     else if is_blank c && negb inq then emit cur bs ++ ms_args false 0 None s
     else ms_args inq 0 (Some (default [] cur ++ replicate bs BS ++ [c])) s
  end.

(** The program name comes first: up to a blank outside of quotes; backslashes
    mean nothing there. *)
Fixpoint ms_program (inq : bool) (acc s : list ascii) : list ascii * list ascii :=
  match s with
  | [] => (acc, [])
  | c :: s =>
     if decide (c = DQ) then ms_program (negb inq) acc s
     else if is_blank c && negb inq then (acc, s)
     else ms_program inq (acc ++ [c]) s
  end.

Definition ms_parse (s : list ascii) : list (list ascii) :=
  let '(name, rest) := ms_program false [] s in name :: ms_args false 0 None rest.

Example ms_parse_quotes :
  (String.string_of_list_ascii <$>
   ms_parse (cmdline_text (String.list_ascii_of_string "cvc4")
     (String.list_ascii_of_string <$>
       ["-t"; ""; "a b\"; "say \\"; String (ascii_of_nat 34) "x"; "c:\d\"]%string))) =
  ["cvc4"; "-t"; ""; "a b\"; "say \\"; String (ascii_of_nat 34) "x"; "c:\d\"]%string.
Proof. vm_compute. reflexivity. Qed.

(** ** The assembly produces the text *)

Lemma fill_at_spec a off bs :
  0 ≤ off ≤ arr_len a →
  fill_at a off bs =
    if off + Z.of_nat (length bs) <=? arr_len a
    then Ok (take (Z.to_nat off) a ++ (Some <$> bs) ++ drop (Z.to_nat off + length bs) a)
    else Err OutOfBounds.
Proof.
  revert a off. induction bs as [|c bs IH]; intros a off Ho; cbn [fill_at length fmap list_fmap].
  { rewrite (proj2 (Z.leb_le _ _)) by lia. cbn. by rewrite Nat.add_0_r, take_drop. }
  destruct (decide (off = arr_len a)) as [He|Hne].
  { rewrite arr_set_oob by lia. cbn. by rewrite (proj2 (Z.leb_gt _ _)) by lia. }
  rewrite arr_set_ok by lia. cbn [mbind outcome_bind].
  rewrite IH by (rewrite arr_len_insert; lia). rewrite arr_len_insert.
  replace (off + 1 + Z.of_nat (length bs)) with (off + Z.of_nat (S (length bs))) by lia.
  destruct (_ <=? _) eqn:E; [|done]. apply Z.leb_le in E. f_equal.
  unfold arr_len in *. rewrite (insert_take_drop a _ _) by lia.
  replace (Z.to_nat (off + 1)) with (S (Z.to_nat off)) by lia.
  rewrite take_app_ge by (rewrite length_take; lia). rewrite length_take.
  replace (S (Z.to_nat off) - Z.to_nat off `min` length a)%nat with 1%nat by lia.
  rewrite drop_app_ge by (rewrite length_take; lia). rewrite length_take. cbn [take app].
  rewrite <- app_assoc. cbn [app]. f_equal. f_equal.
  replace (S (Z.to_nat off) + length bs - Z.to_nat off `min` length a)%nat with (S (length bs)) by lia.
  cbn [take drop app]. rewrite drop_drop, take_0. cbn [app]. do 2 f_equal. lia.
Qed.

(** The array starts with the string [t]. *)
Definition str_at (a : arr ascii) (t : list ascii) : Prop :=
  (NUL ∉ t) ∧ ∃ rest, a = (Some <$> t) ++ Some NUL :: rest.

Lemma arr_strlen_at a t : str_at a t → arr_strlen a = Ok (Z.of_nat (length t)).
Proof.
  intros [Hn [rest ->]]. induction t as [|c t IH]; cbn; [done|].
  apply not_elem_of_cons in Hn as [Hc Hn]. rewrite decide_False by done.
  rewrite IH by done. cbn. f_equal. lia.
Qed.

Lemma str_at_len a t : str_at a t → Z.of_nat (length t) < arr_len a.
Proof. intros [_ [rest ->]]. unfold arr_len. rewrite length_app, length_fmap. cbn. lia. Qed.

(** Writing [u] and a terminator over the terminator appends [u]. *)
Lemma fill_append a t u :
  str_at a t → NUL ∉ u →
  Z.of_nat (length t + length u) + 1 ≤ arr_len a →
  ∃ a', fill_at a (Z.of_nat (length t)) (u ++ [NUL]) = Ok a' ∧ str_at a' (t ++ u) ∧
    arr_len a' = arr_len a.
Proof.
  intros Ha Hu Hlen. pose proof (str_at_len a t Ha).
  rewrite fill_at_spec by lia. rewrite (proj2 (Z.leb_le _ _)) by (rewrite length_app; cbn; lia).
  eexists. split; [done|]. split.
  - destruct Ha as [Ht [rest ->]]. split; [set_solver|].
    rewrite Nat2Z.id, take_app_length' by (by rewrite length_fmap).
    rewrite !fmap_app, <- !app_assoc. cbn [fmap list_fmap app]. eexists. by rewrite <- app_assoc.
  - unfold arr_len in *. rewrite !length_app, length_take, length_drop, length_fmap, length_app. cbn. lia.
Qed.

Lemma fill_overflow a off bs :
  0 ≤ off ≤ arr_len a → arr_len a < off + Z.of_nat (length bs) → fill_at a off bs = Err OutOfBounds.
Proof. intros. rewrite fill_at_spec by lia. by rewrite (proj2 (Z.leb_gt _ _)) by lia. Qed.

(** A sequence of [put]s *)
Definition puts (st : arr ascii * Z) (bs : list ascii) : outcome (arr ascii * Z) :=
  a ← fill_at st.1 st.2 bs; Ok (a, st.2 + Z.of_nat (length bs)).

Lemma puts_nil st : puts st [] = Ok st.
Proof. destruct st. unfold puts. cbn. do 2 f_equal. lia. Qed.

Lemma puts_cons st c bs : puts st (c :: bs) = st ← put st c; puts st bs.
Proof.
  destruct st as [a i]. unfold puts, put. cbn [fill_at fst snd].
  destruct (arr_set a i c) as [a'|e]; cbn; [|done].
  destruct (fill_at a' (i + 1) bs); cbn; [|done]. do 2 f_equal. lia.
Qed.

Lemma puts_app st x y : puts st (x ++ y) = st ← puts st x; puts st y.
Proof.
  revert st. induction x as [|c x IH]; intros st; cbn [app].
  - by rewrite puts_nil.
  - rewrite !puts_cons. destruct (put st c) as [st'|e]; cbn; [apply IH|done].
Qed.

Arguments puts : simpl never.
Arguments put : simpl never.

Lemma put_puts st c : put st c = puts st [c].
Proof. rewrite puts_cons. destruct (put st c) as [st'|]; cbn; [by rewrite puts_nil|done]. Qed.

(** The number of leading backslashes *)
Fixpoint lead_bs (l : list ascii) : nat :=
  match l with
  | c :: l => if decide (c = BS) then S (lead_bs l) else O
  | [] => O
  end.

Lemma char_at_app pre c suf : char_at (pre ++ c :: suf) (length pre) = Ok c.
Proof. unfold char_at. by rewrite list_lookup_middle. Qed.

Lemma put_backslashes_puts pre suf st :
  put_backslashes (length pre) (pre ++ suf) st = puts st (replicate (lead_bs (rev pre)) BS).
Proof.
  revert suf st. induction pre as [|c pre IH] using rev_ind; intros suf st.
  { by rewrite puts_nil. }
  rewrite length_app, Nat.add_comm. cbn [length Nat.add put_backslashes].
  rewrite <- app_assoc. cbn [app]. rewrite char_at_app, rev_app_distr. cbn [rev app lead_bs].
  cbn [mbind outcome_bind]. case_decide as Hc; [|by rewrite puts_nil].
  cbn [replicate]. rewrite puts_cons. destruct (put st BS) as [st'|e]; cbn; [|done].
  apply IH.
Qed.

(** The loop on the argument writes its escaped form. *)
Lemma quote_loop_puts pre s r st :
  NUL ∉ pre ++ s → s ≠ [] →
  quote_loop (length s) (pre ++ s ++ NUL :: r) (length pre) st
  = puts st (quote_body (lead_bs (rev pre)) s).
Proof.
  revert pre st. induction s as [|c s IH]; intros pre st Hn Hne; [done|].
  cbn [length quote_loop app quote_body]. rewrite char_at_app. cbn [mbind outcome_bind].
  assert (∀ k st', k = lead_bs (rev (pre ++ [c])) → s ≠ [] ∨ k = O →
    quote_loop (length s) (pre ++ c :: s ++ NUL :: r) (S (length pre)) st'
    = puts st' (quote_body k s)) as Hrest.
  { intros k st' -> Hk. destruct (decide (s = [])) as [Hs|Hs].
    { subst s. destruct Hk as [?|Hk]; [done|]. rewrite Hk. cbn. by rewrite puts_nil. }
    rewrite <- IH; [|by rewrite <- app_assoc|done].
    rewrite <- app_assoc, length_app. cbn [length app].
    by rewrite Nat.add_comm. }
  case_decide as Hdq.
  - assert ((st0 ← match length pre with
              | O => Ok st
              | S i => p ← char_at (pre ++ c :: s ++ NUL :: r) i;
                  if decide (p = BS) then put_backslashes (length pre) (pre ++ c :: s ++ NUL :: r) st
                  else Ok st
              end; st1 ← put st0 BS; put st1 DQ)
            = puts st (replicate (lead_bs (rev pre)) BS ++ [BS; DQ])) as ->.
    { assert (∀ o, (st0 ← o; st1 ← put st0 BS; put st1 DQ) = (st0 ← o; puts st0 [BS; DQ])) as ->.
      { intros [st0|]; cbn; [|done]. rewrite puts_cons. destruct (put st0 BS) as [st1|]; cbn; [|done].
        by rewrite put_puts. }
      rewrite puts_app. f_equal. rewrite put_backslashes_puts.
      clear IH Hn Hrest. induction pre as [|p pre _] using rev_ind; cbn [length]; [by rewrite puts_nil|].
      rewrite length_app, Nat.add_comm. cbn [length Nat.add].
      rewrite <- (app_assoc pre [p]). cbn [app]. rewrite char_at_app, rev_app_distr.
      cbn [mbind outcome_bind rev app lead_bs]. destruct (decide (p = BS)); [done|].
      by rewrite puts_nil. }
    change (BS :: DQ :: quote_body 0 s) with ([BS; DQ] ++ quote_body 0 s).
    rewrite app_assoc, (puts_app st (_ ++ _)). destruct (puts st (_ ++ _)) as [st'|]; cbn; [|done].
    apply Hrest; [|by right]. rewrite rev_app_distr. cbn. by rewrite Hdq.
  - rewrite strlen_ok by set_solver.
    assert (cstr (pre ++ c :: s ++ NUL :: r) = pre ++ c :: s) as ->.
    { rewrite app_comm_cons, app_assoc. by apply cstr_app. }
    cbn [mbind outcome_bind]. rewrite length_app. cbn [length].
    case_decide as Hbs.
    + subst c. rewrite puts_cons. destruct (put st BS) as [st1|]; cbn [mbind outcome_bind]; [|done].
      destruct s as [|d s].
      * cbn [length]. rewrite (proj2 (Z.eqb_eq _ _)) by lia.
        pose proof (put_backslashes_puts (pre ++ [BS]) (NUL :: r) st1) as Hp.
        rewrite length_app, Nat.add_comm, <- app_assoc in Hp. cbn [length app Nat.add] in Hp.
        cbn [app]. rewrite Hp, rev_app_distr. cbn [rev app lead_bs]. rewrite decide_True by done.
        cbn [quote_body replicate quote_loop]. by destruct (puts st1 (BS :: _)).
      * rewrite (proj2 (Z.eqb_neq _ _)) by (cbn [length]; lia). cbn [mbind outcome_bind].
        apply Hrest; [|by left]. rewrite rev_app_distr. cbn. by rewrite decide_True.
    + rewrite puts_cons. destruct (put st c) as [st1|]; cbn; [|done].
      apply Hrest; [|by right]. rewrite rev_app_distr. cbn. by rewrite decide_False.
Qed.

Lemma need_quote_loop_ok pre s r :
  need_quote_loop (length s) (pre ++ s ++ NUL :: r) (length pre)
  = Ok (bool_decide (SP ∈ s) || bool_decide (DQ ∈ s)).
Proof.
  revert pre. induction s as [|c s IH]; intros pre; cbn [length need_quote_loop app].
  { by rewrite !bool_decide_false by set_solver. }
  rewrite char_at_app. cbn [mbind outcome_bind].
  destruct (decide (c = SP)) as [->|];
    [rewrite (bool_decide_true (SP ∈ SP :: s)) by apply list_elem_of_here; done|].
  destruct (decide (c = DQ)) as [->|];
    [rewrite (bool_decide_true (DQ ∈ DQ :: s)) by apply list_elem_of_here; by rewrite orb_true_r|].
  specialize (IH (pre ++ [c])). rewrite length_app, Nat.add_comm, <- app_assoc in IH.
  cbn [length Nat.add app] in IH. rewrite IH.
  rewrite (bool_decide_ext (SP ∈ c :: s) (SP ∈ s)) by set_solver.
  by rewrite (bool_decide_ext (DQ ∈ c :: s) (DQ ∈ s)) by set_solver.
Qed.

Lemma quote_body_no_nul bs s : NUL ∉ s → NUL ∉ quote_body bs s.
Proof.
  assert (∀ n, NUL ∉ replicate n BS) as Hr.
  { intros n [? ?]%elem_of_replicate. done. }
  revert bs. induction s as [|c s IH]; intros bs Hn; cbn; [apply Hr|].
  apply not_elem_of_cons in Hn as [Hc Hn]. specialize (Hr bs).
  repeat case_decide; set_solver.
Qed.

Lemma arg_text_no_nul s : NUL ∉ s → NUL ∉ arg_text s.
Proof.
  intros Hn. pose proof (quote_body_no_nul 0 s Hn). unfold arg_text. case_match; set_solver.
Qed.

(** [strcat] appends, or writes outside the array. *)
Lemma strcat_spec a t src :
  str_at a t → NUL ∈ src →
  if Z.of_nat (length t + length (cstr src)) + 1 <=? arr_len a
  then ∃ a', strcat a src = Ok a' ∧ str_at a' (t ++ cstr src) ∧ arr_len a' = arr_len a
  else strcat a src = Err OutOfBounds.
Proof.
  intros Ha Hs. unfold strcat. rewrite strlen_ok, (arr_strlen_at a t) by done.
  cbn [mbind outcome_bind]. pose proof (str_at_len a t Ha). destruct (Z.leb_spec
    (Z.of_nat (length t + length (cstr src)) + 1) (arr_len a)).
  - apply fill_append; [done|apply cstr_no_nul|done].
  - apply fill_overflow; [lia|]. rewrite length_app. cbn. lia.
Qed.

(** One argument: its text and a blank are appended, or the array is overrun. *)
Lemma append_arg_spec a t ca :
  str_at a t → NUL ∈ ca →
  if Z.of_nat (length t + length (arg_text (cstr ca))) + 2 <=? arr_len a
  then ∃ a', append_arg a ca = Ok a' ∧ str_at a' (t ++ arg_text (cstr ca) ++ [SP]) ∧
         arr_len a' = arr_len a
  else append_arg a ca = Err OutOfBounds.
Proof.
  intros Ha Hc. pose proof (cstr_no_nul ca) as Hn. destruct (cstr_split ca Hc) as [r Hr].
  unfold append_arg. rewrite strlen_ok by done. cbn [mbind outcome_bind]. rewrite Nat2Z.id.
  set (s := cstr ca) in *. clearbody s. subst ca.
  pose proof (need_quote_loop_ok [] s r) as Hl. cbn [app length] in Hl. rewrite Hl. clear Hl.
  cbn [mbind outcome_bind].
  assert (((Z.of_nat (length s) <=? 0) || (bool_decide (SP ∈ s) || bool_decide (DQ ∈ s)))
    = needs_quotes s) as ->.
  { unfold needs_quotes. rewrite <- orb_assoc. f_equal. destruct s; [done|]. cbn [length].
    rewrite bool_decide_false by done. apply Z.leb_gt. lia. }
  pose proof (arg_text_no_nul s Hn) as Hnt. unfold arg_text in *. destruct (needs_quotes s) eqn:Hq.
  - rewrite (arr_strlen_at a t) by done. cbn [mbind outcome_bind].
    assert (∀ st, quote_loop (length s) (s ++ NUL :: r) 0 st = puts st (quote_body 0 s)) as Hl.
    { intros st. destruct s as [|c s]; [cbn; by rewrite puts_nil|].
      by apply (quote_loop_puts [] (c :: s) r st). }
    assert (∀ st, (st ← put st DQ; st ← quote_loop (length s) (s ++ NUL :: r) 0 st;
                   st ← put st DQ; '(cmd, cl_index) ← put st SP; arr_set cmd cl_index NUL)
            = fill_at st.1 st.2 (([DQ] ++ quote_body 0 s ++ [DQ]) ++ [SP] ++ [NUL])) as ->.
    { intros st. transitivity ('(cmd, _) ← puts st (([DQ] ++ quote_body 0 s ++ [DQ]) ++ [SP] ++ [NUL]); Ok cmd).
      - rewrite !puts_app. rewrite <- put_puts. destruct (put st DQ) as [st1|]; cbn [mbind outcome_bind]; [|done].
        rewrite Hl. rewrite puts_app. destruct (puts st1 _) as [st2|]; cbn [mbind outcome_bind]; [|done].
        rewrite <- put_puts. destruct (put st2 DQ) as [st3|]; cbn [mbind outcome_bind]; [|done].
        rewrite puts_app, <- put_puts. destruct (put st3 SP) as [[cmd i]|]; cbn [mbind outcome_bind]; [|done].
        rewrite <- put_puts. unfold put. by destruct (arr_set cmd i NUL).
      - unfold puts. by destruct (fill_at _ _ _). }
    pose proof (str_at_len a t Ha). cbn [fst snd].
    set (q := [DQ] ++ quote_body 0 s ++ [DQ]) in *. rewrite (app_assoc q).
    destruct (Z.leb_spec (Z.of_nat (length t + length q) + 2) (arr_len a)).
    + apply fill_append; [done|set_solver|rewrite length_app; cbn [length]; lia].
    + apply fill_overflow; [lia|]. rewrite !length_app in *. cbn [length] in *. lia.
  - pose proof (strcat_spec a t (s ++ NUL :: r) Ha Hc) as H1. rewrite cstr_app in H1 by done.
    destruct (_ <=? _) eqn:E1 in H1.
    2:{ rewrite H1. rewrite (proj2 (Z.leb_gt _ _)); [done|]. apply Z.leb_gt in E1. lia. }
    destruct H1 as (a1 & -> & Ha1 & Hlen). cbn [mbind outcome_bind].
    pose proof (strcat_spec a1 _ [SP; NUL] Ha1 ltac:(set_solver)) as H2. cbn [cstr] in H2.
    rewrite (decide_False (P := SP = NUL)) in H2 by done. rewrite decide_True in H2 by done.
    rewrite Hlen, <- app_assoc in H2. rewrite length_app in H2. cbn [length] in H2.
    replace (Z.of_nat (length t + length s) + 2) with (Z.of_nat (length t + length s + 1) + 1) by lia.
    destruct (_ <=? _); done.
Qed.

Lemma append_args_spec args a t :
  str_at a t → Forall (λ ca, NUL ∈ ca) args →
  if Z.of_nat (length (t ++ args_text (cstr <$> args))) + 1 <=? arr_len a
  then ∃ a', append_args args a = Ok a' ∧ str_at a' (t ++ args_text (cstr <$> args))
  else append_args args a = Err OutOfBounds.
Proof.
  revert a t. induction args as [|ca args IH]; intros a t Ha Hall; cbn [append_args].
  { pose proof (str_at_len a t Ha). unfold args_text. cbn. rewrite app_nil_r.
    rewrite (proj2 (Z.leb_le _ _)) by lia. eauto. }
  apply Forall_cons in Hall as [Hc Hall]. pose proof (append_arg_spec a t ca Ha Hc) as H1.
  assert (args_text (cstr <$> ca :: args) = (arg_text (cstr ca) ++ [SP]) ++ args_text (cstr <$> args))
    as Htxt by done.
  rewrite Htxt, app_assoc. destruct (_ <=? _) eqn:E1 in H1.
  - destruct H1 as (a' & -> & Ha' & Hlen). cbn [mbind outcome_bind]. rewrite <- Hlen.
    by apply IH.
  - rewrite H1. cbn [mbind outcome_bind]. apply Z.leb_gt in E1.
    rewrite (proj2 (Z.leb_gt _ _)); [done|]. rewrite !length_app. cbn [length]. lia.
Qed.

Lemma build_cmdline_spec r_cmd args :
  NUL ∈ r_cmd → Forall (λ ca, NUL ∈ ca) args →
  if Z.of_nat (length (cmdline_text (cstr r_cmd) (cstr <$> args))) + 1 <=? CMD_SIZE
  then ∃ a, build_cmdline r_cmd args = Ok a ∧ str_at a (cmdline_text (cstr r_cmd) (cstr <$> args))
  else build_cmdline r_cmd args = Err OutOfBounds.
Proof.
  intros Hc Hall. unfold build_cmdline, strcpy, cmdline_text. rewrite strlen_ok by done.
  cbn [mbind outcome_bind].
  assert (arr_len (arr_new CMD_SIZE : arr ascii) = CMD_SIZE) as Hnew by done.
  rewrite fill_at_spec by (rewrite Hnew; unfold CMD_SIZE; lia). rewrite Hnew.
  destruct (Z.leb_spec (0 + Z.of_nat (length (cstr r_cmd ++ [NUL]))) CMD_SIZE) as [Hfit|Hov].
  2:{ cbn [mbind outcome_bind]. rewrite (proj2 (Z.leb_gt _ _)); [done|].
      rewrite !length_app in *. cbn [length] in *. lia. }
  rewrite length_app in Hfit. cbn [length] in Hfit.
  cbn [mbind outcome_bind].
  match goal with |- context [strcat ?a _] => set (a0 := a) end.
  assert (str_at a0 (cstr r_cmd)) as Ha0.
  { split; [apply cstr_no_nul|]. unfold a0. change (Z.to_nat 0) with O. rewrite take_0, fmap_app, <- !app_assoc. by eexists. }
  assert (arr_len a0 = CMD_SIZE) as Hl0.
  { unfold a0, arr_len in *. rewrite !length_app, length_fmap, length_take, length_drop, !length_app. cbn [length].
    unfold arr_new in *. rewrite length_replicate in *. unfold CMD_SIZE in *. lia. }
  pose proof (strcat_spec a0 _ [SP; NUL] Ha0 ltac:(set_solver)) as H1. cbn [cstr] in H1.
  rewrite (decide_False (P := SP = NUL)) in H1 by done. rewrite decide_True in H1 by done.
  destruct (_ <=? _) eqn:E1 in H1.
  - destruct H1 as (a1 & -> & Ha1 & Hl1). cbn [mbind outcome_bind].
    pose proof (append_args_spec args a1 _ Ha1 Hall) as H2. rewrite Hl1, Hl0 in H2.
    by rewrite app_assoc.
  - rewrite H1. cbn [mbind outcome_bind]. apply Z.leb_gt in E1. cbn [length] in E1.
    rewrite (proj2 (Z.leb_gt _ _)); [done|]. rewrite !length_app. cbn [length]. lia.
Qed.

(** ** Taking the command line apart again *)

Lemma ms_args_cons inq bs cur c s :
  ms_args inq bs cur (c :: s) =
     if decide (c = BS) then ms_args inq (S bs) cur s
     else if decide (c = DQ) then
       let acc := default [] cur ++ replicate (Nat.div2 bs) BS in
       if Nat.odd bs then ms_args inq 0 (Some (acc ++ [DQ])) s
       else
         match s with
         | d :: s' =>
            if inq && bool_decide (d = DQ) then ms_args inq 0 (Some (acc ++ [DQ])) s'
            else ms_args (negb inq) 0 (Some acc) s
         | [] => ms_args (negb inq) 0 (Some acc) s
         end
     else if is_blank c && negb inq then emit cur bs ++ ms_args false 0 None s
     else ms_args inq 0 (Some (default [] cur ++ replicate bs BS ++ [c])) s.
Proof. reflexivity. Qed.

Lemma ms_args_backslashes inq n bs cur s :
  ms_args inq bs cur (replicate n BS ++ s) = ms_args inq (n + bs) cur s.
Proof.
  revert bs. induction n as [|n IH]; intros bs; cbn [replicate app]; [done|].
  rewrite ms_args_cons, decide_True by done. rewrite IH. f_equal. lia.
Qed.

Lemma ms_args_plain inq bs cur c s :
  c ≠ BS → c ≠ DQ → is_blank c = false ∨ inq = true →
  ms_args inq bs cur (c :: s) = ms_args inq 0 (Some (default [] cur ++ replicate bs BS ++ [c])) s.
Proof.
  intros H1 H2 H3. rewrite ms_args_cons, !decide_False by done.
  destruct H3 as [->| ->]; [done|]. by rewrite andb_false_r.
Qed.

Lemma ms_args_blank bs cur s :
  ms_args false bs cur (SP :: s) = emit cur bs ++ ms_args false 0 None s.
Proof. by rewrite ms_args_cons, !decide_False by done. Qed.

Lemma emit_Some acc bs : emit (Some acc) bs = [acc ++ replicate bs BS].
Proof. by destruct bs. Qed.

(** A quoted argument, after [bs] pending backslashes *)
Lemma ms_args_quoted bs acc s rest :
  ms_args true bs (Some acc) (quote_body bs s ++ DQ :: SP :: rest)
  = (acc ++ replicate bs BS ++ s) :: ms_args false 0 None rest.
Proof.
  revert bs acc. induction s as [|c s IH]; intros bs acc; cbn [quote_body].
  - rewrite ms_args_backslashes, ms_args_cons, decide_False, decide_True by done. replace (bs + bs)%nat with (2 * bs)%nat by lia.
    rewrite Nat.div2_double, Nat.odd_even, bool_decide_false by done. cbn [andb negb].
    rewrite ms_args_blank, emit_Some. cbn. by rewrite !app_nil_r.
  - destruct (decide (c = DQ)) as [->|Hdq].
    + rewrite <- !app_assoc, ms_args_backslashes. cbn [app].
      rewrite ms_args_cons, decide_True, ms_args_cons, decide_False, decide_True by done.
      replace (S (bs + bs)) with (S (2 * bs)) by lia. rewrite Nat.div2_succ_double, Nat.odd_succ, Nat.even_even.
      rewrite IH. cbn. by rewrite <- !app_assoc.
    + destruct (decide (c = BS)) as [->|Hbs]; cbn [app].
      * rewrite ms_args_cons, decide_True by done. rewrite IH. f_equal.
        by rewrite replicate_S_end, <- !app_assoc.
      * rewrite ms_args_plain by auto. rewrite IH. cbn. by rewrite <- !app_assoc.
Qed.

(** An argument that is not quoted *)
Lemma ms_args_unquoted bs cur s rest :
  SP ∉ s → DQ ∉ s → TAB ∉ s → is_Some cur ∨ bs ≠ O ∨ s ≠ [] →
  ms_args false bs cur (s ++ SP :: rest)
  = (default [] cur ++ replicate bs BS ++ s) :: ms_args false 0 None rest.
Proof.
  revert bs cur. induction s as [|c s IH]; intros bs cur Hsp Hdq Htab Hne; cbn [app].
  - rewrite ms_args_blank, app_nil_r.
    destruct cur as [acc|]; [by rewrite emit_Some|]. destruct bs; [|done].
    destruct Hne as [[? ?]|[?|?]]; done.
  - destruct (decide (c = BS)) as [->|Hbs].
    + rewrite ms_args_cons, decide_True by done. rewrite IH by set_solver.
      by rewrite replicate_S_end, <- !app_assoc.
    + rewrite ms_args_plain; [|done|set_solver|].
      * rewrite IH by set_solver. cbn. by rewrite <- !app_assoc.
      * left. unfold is_blank. rewrite !bool_decide_false by set_solver. done.
Qed.

(** A tab does not make [run_request] quote an argument. *)
Definition tab_quoted (s : list ascii) : Prop := TAB ∈ s → SP ∈ s ∨ DQ ∈ s.
#[export] Instance tab_quoted_dec s : Decision (tab_quoted s).
Proof. unfold tab_quoted. apply _. Defined.

Lemma ms_args_text args :
  Forall tab_quoted args → ms_args false 0 None (args_text args) = args.
Proof.
  induction 1 as [|s args Htab _ IH]; [done|].
  change (args_text (s :: args)) with ((arg_text s ++ [SP]) ++ args_text args).
  rewrite <- app_assoc. unfold arg_text. destruct (needs_quotes s) eqn:Hq.
  - rewrite <- !app_assoc. cbn [app].
    assert (∀ x, ms_args false 0 None (DQ :: x) = ms_args true 0 (Some []) x) as ->.
    { intros x. rewrite ms_args_cons, decide_False, decide_True by done. by destruct x. }
    rewrite ms_args_quoted. cbn. by rewrite IH.
  - unfold needs_quotes in Hq. rewrite !orb_false_iff, !bool_decide_eq_false in Hq.
    destruct Hq as [[Hne Hsp] Hdq]. cbn [app]. rewrite ms_args_unquoted; [|done|done| |by auto].
    + cbn. by rewrite IH.
    + intros [?|?]%Htab; done.
Qed.

Lemma ms_program_plain acc s rest :
  Forall (λ c, is_blank c = false ∧ c ≠ DQ) s →
  ms_program false acc (s ++ SP :: rest) = (acc ++ s, rest).
Proof.
  intros Hs. revert acc. induction Hs as [|c s [Hb Hd] _ IH]; intros acc; cbn [app ms_program].
  - rewrite decide_False by done. by rewrite app_nil_r.
  - rewrite decide_False by done. rewrite Hb. cbn. by rewrite IH, <- app_assoc.
Qed.

(** C34: a prover started on Windows receives exactly the arguments of the request:
    the command line that [run_request] assembles for [CreateProcess], with its
    quotes and escaped backslashes, is taken apart by the documented rules of the
    C runtime into the command and the original arguments, empty arguments and
    arguments with blanks, quotes or trailing backslashes included.  (The command
    itself must be without blanks and quotes; an argument with a tab must contain
    a blank or a quote too, and the line must fit in the local array.) *)
Theorem cmdline_roundtrip r_cmd args :
  NUL ∈ r_cmd → Forall (λ ca, NUL ∈ ca) args →
  Forall (λ c, is_blank c = false ∧ c ≠ DQ) (cstr r_cmd) →
  Forall (λ ca, tab_quoted (cstr ca)) args →
  Z.of_nat (length (cmdline_text (cstr r_cmd) (cstr <$> args))) < CMD_SIZE →
  ∃ cmd line, build_cmdline r_cmd args = Ok cmd ∧ str_at cmd line ∧
    ms_parse line = cstr r_cmd :: (cstr <$> args).
Proof.
  intros Hc Hall Hcmd Htab Hlen. pose proof (build_cmdline_spec r_cmd args Hc Hall) as Hb.
  rewrite (proj2 (Z.leb_le _ _)) in Hb by lia. destruct Hb as (a & Ha & Hs).
  exists a, (cmdline_text (cstr r_cmd) (cstr <$> args)). split_and!; [done..|].
  unfold ms_parse, cmdline_text. cbn [app]. rewrite ms_program_plain by done. cbn [app]. f_equal.
  apply ms_args_text. by apply Forall_fmap.
Qed.

(** A request whose command line takes 4096 characters or more makes the
    Windows server write outside its local array. *)
Theorem cmdline_overflow r_cmd args :
  NUL ∈ r_cmd → Forall (λ ca, NUL ∈ ca) args →
  build_cmdline r_cmd args = Err OutOfBounds ↔
  CMD_SIZE ≤ Z.of_nat (length (cmdline_text (cstr r_cmd) (cstr <$> args))).
Proof.
  intros Hc Hall. pose proof (build_cmdline_spec r_cmd args Hc Hall) as Hb.
  destruct (Z.leb_spec (Z.of_nat (length (cmdline_text (cstr r_cmd) (cstr <$> args))) + 1) CMD_SIZE).
  - destruct Hb as (a & -> & _). split; [done|lia].
  - rewrite Hb. split; [lia|done].
Qed.

Definition quoting_args : list cbuf :=
  clit <$> ["-t"; ""; "a b\"; "say \\"; String (ascii_of_nat 34) "x"; "c:\d\"]%string.

Lemma cmdline_roundtrip_witness :
  ∃ cmd line, build_cmdline (clit "cvc4") quoting_args = Ok cmd ∧ str_at cmd line ∧
    ms_parse line = cstr (clit "cvc4") :: (cstr <$> quoting_args).
Proof.
  apply cmdline_roundtrip.
  - apply (bool_decide_unpack (NUL ∈ clit "cvc4")). vm_compute. exact I.
  - apply (bool_decide_unpack (Forall _ quoting_args)). vm_compute. exact I.
  - apply (bool_decide_unpack (Forall _ (cstr (clit "cvc4")))). vm_compute. exact I.
  - apply (bool_decide_unpack (Forall _ quoting_args)). vm_compute. exact I.
  - vm_compute. reflexivity.
Defined.

Lemma cmdline_overflow_witness :
  build_cmdline (clit "cvc4") [replicate 5000 "x"%char ++ [NUL]] = Err OutOfBounds.
Proof.
  apply (cmdline_overflow (clit "cvc4") [replicate 5000 "x"%char ++ [NUL]]).
  - apply (bool_decide_unpack (NUL ∈ clit "cvc4")). vm_compute. exact I.
  - apply (bool_decide_unpack (Forall _ _)). vm_compute. exact I.
  - apply Z.leb_le. vm_compute. reflexivity.
Defined.

(** An argument with a tab and no blank arrives as two arguments. *)
Example tab_argument_splits :
  ms_parse (cmdline_text ["c"%char] [["a"%char; TAB; "b"%char]]) = [["c"%char]; ["a"%char]; ["b"%char]].
Proof. vm_compute. reflexivity. Qed.
