(* ===== verification/ServerWin.v ===== *)
(** * The Windows server (src/server/server-win.c, src/server/proc.c)

    The variant of the proof server that waits on an I/O completion port: named
    pipe instances waiting for clients, asynchronous reads and writes, and job
    objects for the provers.  Every function of server-win.c is a definition in
    the monad [WM] of the server state; the operating system is the parameter
    [WinOS] (file WinOS), the command line of a process is in file CmdLine. *)

From S2P Require Import Prelude Queue ArrayList CString ReadBuf WriteBuf State Options Request.
From S2P Require Import CmdLine WinOS.
From Stdlib Require Import Ascii.

Definition READ_ONCE : Z := 1024.
Definition BUFSIZE : Z := 4096.
Definition READOP : Z := 0.
Definition WRITEOP : Z := 1.
Definition SOCKET : Z := 0.
Definition PROCESS : Z := 1.

(** [t_conn_data]: the event of the [OVERLAPPED], and the kind *)
Record t_conn_data := mk_conn {
  cd_event : Z;
  cd_kind : Z
}.

Record t_server := mk_server {
  sv_handle : Z;
  sv_event : Z
}.

(** The field [kind] of the C struct is never used. *)
Record t_client := mk_client {
  cl_handle : Z;
  cl_read : t_conn_data;
  cl_write : t_conn_data;
  cl_readbuf : t_readbuf;
  cl_writebuf : t_writebuf
}.

(** [t_proc] (proc.h, with _WIN32) *)
Record t_proc := mk_proc {
  proc_addr : positive;
  proc_handle : Z;
  proc_job : Z;
  proc_client_key : Z;
  proc_task_id : cstring;
  proc_outfile : cstring
}.

(** The globals; a pointer that is [NULL] at program start is an option. *)
Record wstate (W : Type) := mk_w {
  w_core : core;
  w_server_socket : option (arr positive);
  w_server_key : option (arr Z);
  w_servers : gmap positive t_server;      (** the live server structs *)
  w_clients : option (t_list positive);
  w_heap : gmap positive t_client;         (** the live client structs *)
  w_processes : option (t_list t_proc);
  w_current_dir : list ascii;
  w_gen_key : Z;
  w_pipe_name : list ascii;
  w_completion_port : Z;
  w_world : W;
  w_trace : list wsysrec
}.
Arguments mk_w {W} _ _ _ _ _ _ _ _ _ _ _ _ _.
Arguments w_core {W} _.
Arguments w_server_socket {W} _.
Arguments w_server_key {W} _.
Arguments w_servers {W} _.
Arguments w_clients {W} _.
Arguments w_heap {W} _.
Arguments w_processes {W} _.
Arguments w_current_dir {W} _.
Arguments w_gen_key {W} _.
Arguments w_pipe_name {W} _.
Arguments w_completion_port {W} _.
Arguments w_world {W} _.
Arguments w_trace {W} _.

Definition set_core {W} (c : core) (s : wstate W) : wstate W :=
  mk_w c (w_server_socket s) (w_server_key s) (w_servers s) (w_clients s) (w_heap s)
    (w_processes s) (w_current_dir s) (w_gen_key s) (w_pipe_name s) (w_completion_port s)
    (w_world s) (w_trace s).
Definition set_server_arrays {W} (a : option (arr positive)) (k : option (arr Z)) (s : wstate W)
  : wstate W :=
  mk_w (w_core s) a k (w_servers s) (w_clients s) (w_heap s)
    (w_processes s) (w_current_dir s) (w_gen_key s) (w_pipe_name s) (w_completion_port s)
    (w_world s) (w_trace s).
Definition set_servers {W} (m : gmap positive t_server) (s : wstate W) : wstate W :=
  mk_w (w_core s) (w_server_socket s) (w_server_key s) m (w_clients s) (w_heap s)
    (w_processes s) (w_current_dir s) (w_gen_key s) (w_pipe_name s) (w_completion_port s)
    (w_world s) (w_trace s).
Definition set_clients {W} (l : option (t_list positive)) (s : wstate W) : wstate W :=
  mk_w (w_core s) (w_server_socket s) (w_server_key s) (w_servers s) l (w_heap s)
    (w_processes s) (w_current_dir s) (w_gen_key s) (w_pipe_name s) (w_completion_port s)
    (w_world s) (w_trace s).
Definition set_heap {W} (h : gmap positive t_client) (s : wstate W) : wstate W :=
  mk_w (w_core s) (w_server_socket s) (w_server_key s) (w_servers s) (w_clients s) h
    (w_processes s) (w_current_dir s) (w_gen_key s) (w_pipe_name s) (w_completion_port s)
    (w_world s) (w_trace s).
Definition set_processes {W} (l : option (t_list t_proc)) (s : wstate W) : wstate W :=
  mk_w (w_core s) (w_server_socket s) (w_server_key s) (w_servers s) (w_clients s) (w_heap s)
    l (w_current_dir s) (w_gen_key s) (w_pipe_name s) (w_completion_port s)
    (w_world s) (w_trace s).
Definition set_names {W} (dir pipe : list ascii) (s : wstate W) : wstate W :=
  mk_w (w_core s) (w_server_socket s) (w_server_key s) (w_servers s) (w_clients s) (w_heap s)
    (w_processes s) dir (w_gen_key s) pipe (w_completion_port s)
    (w_world s) (w_trace s).
Definition set_gen_key {W} (k : Z) (s : wstate W) : wstate W :=
  mk_w (w_core s) (w_server_socket s) (w_server_key s) (w_servers s) (w_clients s) (w_heap s)
    (w_processes s) (w_current_dir s) k (w_pipe_name s) (w_completion_port s)
    (w_world s) (w_trace s).
Definition set_port {W} (h : Z) (s : wstate W) : wstate W :=
  mk_w (w_core s) (w_server_socket s) (w_server_key s) (w_servers s) (w_clients s) (w_heap s)
    (w_processes s) (w_current_dir s) (w_gen_key s) (w_pipe_name s) h
    (w_world s) (w_trace s).
Definition set_world {W} (w : W) (t : list wsysrec) (s : wstate W) : wstate W :=
  mk_w (w_core s) (w_server_socket s) (w_server_key s) (w_servers s) (w_clients s) (w_heap s)
    (w_processes s) (w_current_dir s) (w_gen_key s) (w_pipe_name s) (w_completion_port s) w t.

(** ** Completion keys: the number of a socket or process and its kind *)

Definition to_ms_key (key kind : Z) : outcome Z :=
  k ← int_of (key * 2);
  k ← int_of (k + kind);
  Ok (size_t k).
Definition kind_of_ms_key (ms : Z) : Z := ms mod 2.
Definition key_of_ms_key (ms : Z) : Z := cast_int (ms / 2).

Section server.
Context `{Libc} {W : Type} `{WinOS W}.

Abbreviation WM := (M (wstate W)).

Definition on_core {A} (m : M core A) : WM A := zoom w_core set_core m.

Definition wcall {A} (c : wsys A) : WM A := λ s,
  let '(a, w) := wos c (w_world s) in
  Ok (a, set_world w (w_trace s ++ [WRec c a]) s).

(** Globals that must not be [NULL] *)
Definition nonnull {A} (f : wstate W → option A) : WM A := λ s,
  match f s with Some a => Ok (a, s) | None => Err NullDeref end.
Definition client_at (c : positive) : WM t_client := λ s,
  match w_heap s !! c with Some cl => Ok (cl, s) | None => Err DanglingPtr end.
Definition client_set (c : positive) (cl : t_client) : WM unit := λ s,
  match w_heap s !! c with
  | Some _ => Ok (tt, set_heap (<[c := cl]> (w_heap s)) s)
  | None => Err DanglingPtr
  end.
Definition set_readbuf (c : positive) (b : t_readbuf) : WM unit :=
  cl ← client_at c;
  client_set c (mk_client (cl_handle cl) (cl_read cl) (cl_write cl) b (cl_writebuf cl)).
Definition set_writebuf (c : positive) (b : t_writebuf) : WM unit :=
  cl ← client_at c;
  client_set c (mk_client (cl_handle cl) (cl_read cl) (cl_write cl) (cl_readbuf cl) b).
Definition server_at (a : positive) : WM t_server := λ s,
  match w_servers s !! a with Some sv => Ok (sv, s) | None => Err DanglingPtr end.
Definition close_handle (h : Z) : WM unit := _ ← wcall (WCloseHandle h); mret tt.

Definition keygen : WM Z :=
  k ← gets w_gen_key;
  k' ← lift (int_of (k + 1));
  _ ← modify (set_gen_key k');
  mret k.

(** ** Processes (proc.c) *)

Definition os_kill (p : t_proc) : WM unit :=
  _ ← wcall (WTerminate (proc_handle p) ERROR_REQUEST_ABORTED); mret tt.

Definition init_process_list : WM unit :=
  parallel ← on_core (gets c_parallel);
  l ← lift (init_list parallel);
  modify (set_processes (Some l)).

Fixpoint kill_loop (n : nat) (l : t_list t_proc) (id : cstring) (i : Z) : WM unit :=
  match n with
  | O => mret tt
  | S n =>
     p ← lift (arr_get (l_data l) i);
     a ← on_core (read_str (proc_task_id p));
     b ← on_core (read_str id);
     c ← lift (strcmp a b);
     _ ← (if c =? 0 then os_kill p else mret tt);
     kill_loop n l id (i + 1)
  end.
Definition kill_processes (id : cstring) : WM unit :=
  l ← nonnull w_processes;
  kill_loop (Z.to_nat (l_len l)) l id 0.

Definition free_process (p : t_proc) : WM unit :=
  _ ← close_handle (proc_handle p);
  _ ← close_handle (proc_job p);
  _ ← on_core (free (s_addr (proc_outfile p)));
  _ ← on_core (free (s_addr (proc_task_id p)));
  on_core (free (proc_addr p)).

(** ** Shutting down *)

Fixpoint close_servers (n : nat) (i : Z) : WM unit :=
  match n with
  | O => mret tt
  | S n =>
     a ← nonnull w_server_socket;
     sv ← lift (arr_get a i);
     sv ← server_at sv;
     _ ← close_handle (sv_handle sv);
     close_servers n (i + 1)
  end.
Fixpoint close_clients (n : nat) (l : t_list positive) (i : Z) : WM unit :=
  match n with
  | O => mret tt
  | S n =>
     c ← lift (arr_get (l_data l) i);
     cl ← client_at c;
     _ ← close_handle (cl_handle cl);
     close_clients n l (i + 1)
  end.
Fixpoint free_processes (n : nat) (l : t_list t_proc) (i : Z) : WM unit :=
  match n with
  | O => mret tt
  | S n =>
     p ← lift (arr_get (l_data l) i);
     _ ← free_process p;
     free_processes n l (i + 1)
  end.

Definition shutdown_with_msg {A} (msg : string) : WM A :=
  port ← gets w_completion_port;
  _ ← (if negb (port =? 0) then close_handle port else mret tt);
  parallel ← on_core (gets c_parallel);
  _ ← close_servers (Z.to_nat parallel) 0;
  clients ← gets w_clients;
  _ ← (match clients with
       | Some l => close_clients (Z.to_nat (list_length l)) l 0
       | None => mret tt
       end);
  processes ← gets w_processes;
  _ ← (match processes with
       | Some l => free_processes (Z.to_nat (list_length l)) l 0
       | None => mret tt
       end);
  on_core (logging_shutdown msg).

Definition shutdown_server {A} : WM A := shutdown_with_msg "last client disconnected".

(** ** Pipe instances and asynchronous operations *)

Definition add_to_completion_port (h key : Z) : WM unit :=
  port ← gets w_completion_port;
  tmp ← wcall (WCreateIoCompletionPort h port key);
  _ ← (if tmp =? 0 then shutdown_with_msg "CreateIoCompletionPort: error adding handle" else mret tt);
  if port =? 0 then modify (set_port tmp) else mret tt.

Definition init_connect_data (kind : Z) : WM t_conn_data :=
  e ← wcall WCreateEvent; mret (mk_conn e kind).

Definition try_write (client : positive) : WM unit :=
  cl ← client_at client;
  if has_write_data (cl_writebuf cl) && can_write (cl_writebuf cl) then
    '(buf, num_write, b) ← lift (prepare_write (cl_writebuf cl));
    _ ← set_writebuf client b;
    _ ← wcall (WWriteFile (cl_handle cl) (take (Z.to_nat num_write) buf) (OvWrite client));
    mret tt
  else mret tt.

Definition create_server_socket (socket_num : Z) : WM unit :=
  key ← keygen;
  server ← on_core malloc;
  name ← gets w_pipe_name;
  h ← wcall (WCreateNamedPipe name);
  _ ← (if h =? INVALID_HANDLE_VALUE then raise (Exited 1 "") else mret tt);
  ms ← lift (to_ms_key key SOCKET);
  _ ← add_to_completion_port h ms;
  e ← wcall WCreateEvent;
  _ ← modify (λ s, set_servers (<[server := mk_server h e]> (w_servers s)) s);
  a ← nonnull w_server_socket;
  a ← lift (arr_set a socket_num server);
  k ← nonnull w_server_key;
  k ← lift (arr_set k socket_num key);
  _ ← modify (set_server_arrays (Some a) (Some k));
  ok ← wcall (WConnectNamedPipe h (OvConnect server));
  if negb ok then
    err ← wcall WGetLastError;
    if err =? ERROR_IO_PENDING then mret tt
    else if err =? ERROR_PIPE_CONNECTED then mret tt
    else shutdown_with_msg "error connecting to socket"
  else mret tt.

Definition do_read (client : positive) : WM unit :=
  cl ← client_at client;
  '(_, b) ← lift (prepare_read (cl_readbuf cl) READ_ONCE);
  _ ← set_readbuf client b;
  _ ← wcall (WReadFile (cl_handle cl) READ_ONCE (OvRead client));
  mret tt.

Definition accept_client (key socket_num : Z) : WM unit :=
  client ← on_core malloc;
  a ← nonnull w_server_socket;
  server ← lift (arr_get a socket_num);
  sv ← server_at server;
  readbuf ← lift (init_readbuf BUFSIZE);
  writebuf ← lift (init_writebuf 16);
  rd ← init_connect_data READOP;
  wr ← init_connect_data WRITEOP;
  _ ← modify (λ s, set_heap (<[client := mk_client (sv_handle sv) rd wr readbuf writebuf]> (w_heap s)) s);
  _ ← on_core (free server);
  _ ← modify (λ s, set_servers (delete server (w_servers s)) s);
  _ ← create_server_socket socket_num;
  l ← nonnull w_clients;
  l ← lift (list_append l key client);
  _ ← modify (set_clients (Some l));
  do_read client.

Definition close_client (client : positive) (key : Z) : WM unit :=
  l ← nonnull w_clients;
  l ← lift (list_remove l key);
  _ ← modify (set_clients (Some l));
  cl ← client_at client;
  _ ← close_handle (cl_handle cl);
  _ ← set_readbuf client (free_readbuf (cl_readbuf cl));
  _ ← lift (free_writebuf (cl_writebuf cl));
  _ ← modify (λ s, set_heap (delete client (w_heap s)) s);
  _ ← on_core (free client);
  single_client ← on_core (gets c_single_client);
  if (single_client : bool) && list_is_empty l then shutdown_server else mret tt.

(** ** Messages to clients *)

(** [push_write_data(client->writebuf, msgbuf); try_write(client);] *)
Definition queue_write (client : positive) (msgbuf : cbuf) : WM unit :=
  cl ← client_at client;
  b ← lift (push_write_data (cl_writebuf cl) msgbuf);
  _ ← set_writebuf client b;
  try_write client.

Definition send_started_msg_to_client (client : positive) (id : cstring) : WM unit :=
  id ← on_core (read_str id);
  n ← lift (strlen id);
  let len := n + 4 in
  ok ← wcall (WMalloc len);
  _ ← (if (ok : bool) then mret tt else shutdown_with_msg "error when allocating client msg");
  let '(msgbuf, used) := snprintf len (["S"; ";"]%char ++ cstr id ++ [LF]) in
  _ ← (if negb (used =? len - 1) then shutdown_with_msg "message for client too long" else mret tt);
  queue_write client msgbuf.

(** The exit code is printed with ["%lu"]. *)
Definition finished_text (id : list ascii) (exitcode : Z) (cpu_time : double) (timeout : bool)
    (outfile : list ascii) : list ascii :=
  ["F"; ";"]%char ++ id ++ [";"%char] ++ fmt_u exitcode ++ [";"%char] ++ fmt_2f cpu_time
  ++ [";"%char] ++ fmt_d (if timeout then 1 else 0) ++ [";"%char] ++ outfile ++ [LF].

Definition send_msg_to_client (client : positive) (id : cstring) (exitcode : Z)
    (cpu_time : double) (timeout : bool) (outfile : cstring) : WM unit :=
  id ← on_core (read_str id);
  n ← lift (strlen id);
  outfile ← on_core (read_str outfile);
  m ← lift (strlen outfile);
  let len := n + 3 + 23 + (m + 1) in
  ok ← wcall (WMalloc len);
  _ ← (if (ok : bool) then mret tt
       else shutdown_with_msg "error when allocating buffer for client msg");
  let '(msgbuf, used) :=
    snprintf len (finished_text (cstr id) exitcode cpu_time timeout (cstr outfile)) in
  _ ← (if len <=? used then shutdown_with_msg "message for client too long" else mret tt);
  queue_write client msgbuf.

(** ** Starting a process *)

(** [GetTempFileName] fills a block of MAX_PATH characters. *)
Definition open_temp_file : WM (Z * cstring) :=
  dir ← gets w_current_dir;
  name ← wcall (WGetTempFileName dir);
  match name with
  | None => shutdown_with_msg "error obtaining a tmp file name"
  | Some name =>
     _ ← lift (if Z.of_nat (length name) <? MAX_PATH then Ok tt else Err OutOfBounds);
     outfile ← on_core (alloc_str (name ++ [NUL]));
     h ← wcall (WCreateOutput name);
     _ ← (if h =? INVALID_HANDLE_VALUE then shutdown_with_msg "error creating a tmp file" else mret tt);
     mret (h, outfile)
  end.

(** The texts of the first [n] arguments *)
Fixpoint read_args (n : nat) (args : list cstring) (k : Z) : WM (list cbuf) :=
  match n with
  | O => mret []
  | S n =>
     x ← lift (arg_at args k);
     ca ← on_core (read_str x);
     rest ← read_args n args (k + 1);
     mret (ca :: rest)
  end.

Definition limit_flags (timeout memlimit : Z) : Z :=
  Z.lor (if timeout =? 0 then 0 else JOB_OBJECT_LIMIT_PROCESS_TIME)
        (if memlimit =? 0 then 0 else JOB_OBJECT_LIMIT_PROCESS_MEMORY).

(** The limits of the job: the time in units of 100 nanoseconds, the memory in
    bytes (0 where the flag is not set, the struct having been zeroed) *)
Definition set_job_limits (job timeout memlimit : Z) : WM unit :=
  if negb (timeout =? 0) || negb (memlimit =? 0) then
    let time := if timeout =? 0 then 0 else 10000000 * timeout in
    let memory := if memlimit =? 0 then 0 else size_t (1048576 * size_t memlimit) in
    ok ← wcall (WSetLimits job (limit_flags timeout memlimit) time memory);
    if negb ok then shutdown_with_msg "error in SetInformationJobObject" else mret tt
  else mret tt.

(** The struct of the new process, its registration and its completion key *)
Definition register_process (r : request) (client : positive) (process job thread out : Z)
    (outfile : cstring) : WM unit :=
  ok ← wcall (WAssignProcess job process);
  _ ← (if negb ok then shutdown_with_msg "failed to assign process to job object" else mret tt);
  a ← on_core malloc;
  let proc := mk_proc a process job (req_key r) (req_id r) outfile in
  key ← keygen;
  l ← nonnull w_processes;
  l ← lift (list_append l key proc);
  _ ← modify (set_processes (Some l));
  _ ← send_started_msg_to_client client (req_id r);
  ms ← lift (to_ms_key key PROCESS);
  port ← gets w_completion_port;
  ok ← wcall (WSetPort job ms port);
  _ ← (if negb ok then shutdown_with_msg "Could not associate job with IO completion port"
       else mret tt);
  _ ← wcall (WResumeThread thread);
  _ ← close_handle out;
  close_handle thread.

Definition run_request (r : request) : WM unit :=
  clients ← nonnull w_clients;
  client ← lift (list_lookup clients (req_key r));
  match client with
  | None => mret tt
  | Some client =>
     job ← wcall WCreateJobObject;
     _ ← (if job =? 0 then shutdown_with_msg "failed creating job object" else mret tt);
     '(out, outfile) ← open_temp_file;
     match req_run r with
     | None => raise Indeterminate
     | Some f =>
        let argcount := if run_usestdin f then run_numargs f - 1 else run_numargs f in
        stdin ← (if run_usestdin f then
                   x ← lift (arg_at (run_args f) argcount);
                   path ← on_core (read_str x);
                   wcall (WOpenInput (cstr path))
                 else mret 0);
        r_cmd ← on_core (read_str (run_cmd f));
        args ← read_args (Z.to_nat argcount) (run_args f) 0;
        cmd ← lift (build_cmdline r_cmd args);
        _ ← set_job_limits job (run_timeout f) (run_memlimit f);
        pi ← wcall (WCreateProcess cmd (mk_startup stdin out out));
        match pi with
        | None =>
           n ← lift (arr_strlen cmd);
           txt ← lift (arr_read (Z.to_nat n) cmd 0);
           _ ← on_core (log_msg txt);
           _ ← close_handle out;
           _ ← close_handle job;
           send_msg_to_client client (req_id r) 0 (double_of_Z 0) false outfile
        | Some (process, thread) =>
           register_process r client process job thread out outfile
        end
     end
  end.

(** Every iteration takes a request out of the queue. *)
Fixpoint schedule_loop (fuel : nat) : WM unit :=
  l ← nonnull w_processes;
  parallel ← on_core (gets c_parallel);
  q ← on_core (gets c_queue);
  if (list_length l <? parallel) && negb (queue_is_empty q) then
    match fuel with
    | O => raise OutOfFuel
    | S fuel =>
       r ← on_core pop_request;
       _ ← run_request r;
       _ ← on_core (free_request (Some r));
       schedule_loop fuel
    end
  else mret tt.
Definition schedule_new_jobs : WM unit :=
  q ← on_core (gets c_queue);
  schedule_loop (Z.to_nat (q_len q)).

(** ** Client messages *)

(** The message is the contents of the read buffer without its last character. *)
Definition handle_msg (client : positive) (key : Z) : WM unit :=
  cl ← client_at client;
  let b := cl_readbuf cl in
  r ← on_core (parse_request (rb_data b) 0 (cast_int (size_t (rb_len b - 1))) key);
  match r with
  | None => mret tt
  | Some r =>
     match req_type r with
     | REQ_RUN =>
        l ← nonnull w_processes;
        parallel ← on_core (gets c_parallel);
        if list_length l <? parallel then
          _ ← run_request r;
          on_core (free_request (Some r))
        else on_core (push_request r)
     | REQ_INTERRUPT =>
        _ ← on_core (remove_from_queue (req_id r));
        _ ← kill_processes (req_id r);
        on_core (free_request (Some r))
     end
  end.

(** ** Terminated processes *)

Definition cpu_time (system user : Z) : double :=
  double_div (double_add (double_of_Z (size_t (system + user))) (double_of_Z 0))
    (double_of_Z 10000000).

Definition is_timeout (exitcode : Z) : bool :=
  (exitcode =? ERROR_NOT_ENOUGH_QUOTA) || (exitcode =? STATUS_QUOTA_EXCEEDED).

Definition is_end_event (event : Z) : bool :=
  (event =? JOB_OBJECT_MSG_END_OF_JOB_TIME) || (event =? JOB_OBJECT_MSG_END_OF_PROCESS_TIME)
  || (event =? JOB_OBJECT_MSG_JOB_MEMORY_LIMIT) || (event =? JOB_OBJECT_MSG_PROCESS_MEMORY_LIMIT)
  || (event =? JOB_OBJECT_MSG_ABNORMAL_EXIT_PROCESS) || (event =? JOB_OBJECT_MSG_EXIT_PROCESS).

Definition handle_child_event (child : t_proc) (client : positive) (proc_key event : Z) : WM unit :=
  if (event =? JOB_OBJECT_MSG_NEW_PROCESS) || (event =? JOB_OBJECT_MSG_ACTIVE_PROCESS_ZERO)
  then mret tt
  else if is_end_event event then
    _ ← wcall (WWait (proc_handle child));
    l ← nonnull w_processes;
    l ← lift (list_remove l proc_key);
    _ ← modify (set_processes (Some l));
    code ← wcall (WGetExitCode (proc_handle child));
    times ← wcall (WGetTimes (proc_handle child));
    match code, times with
    | Some exitcode, Some (system, user) =>
       _ ← send_msg_to_client client (proc_task_id child) exitcode (cpu_time system user)
             (is_timeout exitcode) (proc_outfile child);
       free_process child
    | _, _ => raise Indeterminate
    end
  else raise (Exited 1 "").

(** ** Initialisation *)

Fixpoint create_sockets (n : nat) (i : Z) : WM unit :=
  match n with
  | O => mret tt
  | S n => _ ← create_server_socket i; create_sockets n (i + 1)
  end.

Definition init : WM unit :=
  dir ← wcall WGetCurrentDirectory;
  name ← on_core (gets c_socketname);
  match name with
  | None => raise NullDeref
  | Some name =>
     let pipe := String.list_ascii_of_string "\\.\pipe\" ++ win_basename (cstr name) in
     _ ← modify (λ s, set_names (default (w_current_dir s) dir) pipe s);
     _ ← on_core init_request_queue;
     parallel ← on_core (gets c_parallel);
     l ← lift (init_list parallel);
     _ ← modify (set_clients (Some l));
     _ ← init_process_list;
     a ← lift (c_malloc parallel);
     k ← lift (c_malloc parallel);
     _ ← modify (set_server_arrays (Some a) (Some k));
     _ ← on_core init_logging;
     create_sockets (Z.to_nat parallel) 0
  end.

(** ** The event loop *)

Fixpoint server_num_loop (n : nat) (k : arr Z) (key i : Z) : outcome Z :=
  match n with
  | O => Ok (-1)
  | S n =>
     x ← arr_get k i;
     if x =? key then Ok i else server_num_loop n k key (i + 1)
  end.
Definition get_server_num (key : Z) : WM Z :=
  parallel ← on_core (gets c_parallel);
  k ← nonnull w_server_key;
  lift (server_num_loop (Z.to_nat parallel) k key 0).

(** What a finished read has stored in the buffer of its client *)
Definition store_read (ov : overlapped) (data : list ascii) : WM unit :=
  match ov, data with
  | OvRead c, _ :: _ =>
     cl ← client_at c;
     b ← lift (readbuf_fill (cl_readbuf cl) (rb_len (cl_readbuf cl)) data);
     set_readbuf c b
  | _, _ => mret tt
  end.

(** [((p_conn_data) ov)->kind] *)
Definition conn_kind (ov : overlapped) : WM Z :=
  match ov with
  | OvRead c => cl ← client_at c; mret (cd_kind (cl_read cl))
  | OvWrite c => cl ← client_at c; mret (cd_kind (cl_write cl))
  | OvNull => raise NullDeref
  | OvConnect _ | OvPid _ => raise OutOfBounds
  end.

(** A finished read or write of a client *)
Definition handle_io (client : positive) (key : Z) (res : bool) (numbytes : Z) (ov : overlapped)
  : WM unit :=
  kind ← conn_kind ov;
  if kind =? READOP then
    cl ← client_at client;
    b ← lift (have_read (cl_readbuf cl) numbytes);
    _ ← set_readbuf client b;
    if res then
      _ ← handle_msg client key;
      cl ← client_at client;
      _ ← set_readbuf client (clear_readbuf (cl_readbuf cl));
      do_read client
    else
      broken ← (if numbytes =? 0 then err ← wcall WGetLastError; mret (err =? ERROR_BROKEN_PIPE)
                else mret false);
      if (broken : bool) then close_client client key else do_read client
  else if kind =? WRITEOP then
    cl ← client_at client;
    b ← lift (have_written (cl_writebuf cl) numbytes);
    _ ← set_writebuf client b;
    try_write client
  else raise (Exited 1 "").

Definition handle_socket (key server_num : Z) (res : bool) (numbytes : Z) (ov : overlapped)
  : WM unit :=
  if negb (server_num =? -1) then
    failed ← (if negb res then err ← wcall WGetLastError; mret (negb (err =? ERROR_PIPE_CONNECTED))
              else mret false);
    if (failed : bool) then shutdown_with_msg "error connecting client"
    else accept_client key server_num
  else
    clients ← nonnull w_clients;
    client ← lift (list_lookup clients key);
    match client with
    | None => mret tt
    | Some client => handle_io client key res numbytes ov
    end.

Definition handle_process (key event : Z) : WM unit :=
  processes ← nonnull w_processes;
  proc ← lift (list_lookup processes key);
  match proc with
  | None => mret tt
  | Some proc =>
     clients ← nonnull w_clients;
     client ← lift (list_lookup clients (proc_client_key proc));
     match client with
     | None => mret tt
     | Some client => handle_child_event proc client key event
     end
  end.

(** One iteration of the loop in [main]; [last] holds the values of [numbytes] and
    [mskey], which keep their old values when no packet is taken. *)
Definition main_iter (last : option (Z * Z)) : WM (option (Z * Z)) :=
  _ ← schedule_new_jobs;
  port ← gets w_completion_port;
  p ← wcall (WGetPacket port);
  let '(res, last, ov, data) :=
    match p with
    | Some p => (pk_res p, Some (pk_numbytes p, pk_mskey p), pk_ov p, pk_data p)
    | None => (false, last, OvNull, [])
    end in
  _ ← store_read ov data;
  match last with
  | None => raise Indeterminate
  | Some (numbytes, mskey) =>
     if mskey =? 0 then shutdown_with_msg "GetQueuedCompletionStatus failed"
     else
       let key := key_of_ms_key mskey in
       let kind := kind_of_ms_key mskey in
       server_num ← get_server_num key;
       if kind =? SOCKET then
         _ ← handle_socket key server_num res numbytes ov; mret last
       else if kind =? PROCESS then
         _ ← handle_process key numbytes; mret last
       else raise (Exited 1 "")
  end.

Fixpoint main_loop (n : nat) (last : option (Z * Z)) : WM unit :=
  match n with
  | O => mret tt
  | S n => last ← main_iter last; main_loop n last
  end.

(** [main], its infinite loop cut after [n] iterations. *)
Definition server_main (answers : list getopt_answer) (optind argc : Z) (n : nat) : WM unit :=
  _ ← wcall WSetErrorMode;
  _ ← on_core (parse_options answers optind argc);
  _ ← init;
  main_loop n None.

End server.

Definition initial_wstate {W} (w : W) : wstate W :=
  mk_w initial_core None None ∅ None ∅ None [] 1 [] 0 w [].
