(* ===== verification/ServerWinThm.v ===== *)
(** * Theorems about the Windows server

    Completion keys; the writes of a client, of which one at a time is under way;
    the report of a terminated prover; and three runs in which the server
    misbehaves. *)

From S2P Require Import Prelude Queue ArrayList CString ReadBuf WriteBuf State Options Request.
From S2P Require Import CmdLine WinOS ServerWin.
From Stdlib Require Import Ascii.

(** The completion key packs the number of a socket or of a process with the
    kind of the event: both are recovered, as long as fewer than 2^30 numbers were
    handed out, and no key is 0, the value that stands for a failed wait. *)
Theorem ms_key_roundtrip key kind :
  1 ≤ key < 1073741824 → kind = SOCKET ∨ kind = PROCESS →
  ∃ ms, to_ms_key key kind = Ok ms ∧ key_of_ms_key ms = key ∧ kind_of_ms_key ms = kind ∧ ms ≠ 0.
Proof.
  intros Hk Hkind. assert (0 ≤ kind ≤ 1) as Hr by (unfold SOCKET, PROCESS in *; lia).
  exists (key * 2 + kind). unfold to_ms_key, key_of_ms_key, kind_of_ms_key.
  rewrite int_of_ok by (unfold INT_MIN, INT_MAX; lia). cbn [mbind outcome_bind].
  rewrite int_of_ok by (unfold INT_MIN, INT_MAX; lia). cbn [mbind outcome_bind].
  rewrite size_t_small by (unfold SIZE_MOD; lia). split; [done|].
  replace ((key * 2 + kind) / 2) with key by (apply Z.div_unique with kind; lia).
  rewrite cast_int_small by (unfold INT_MIN, INT_MAX; lia). split; [done|].
  split; [|lia]. symmetry. apply Z.mod_unique with key; lia.
Qed.

Lemma ms_key_roundtrip_witness :
  ∃ ms, to_ms_key 7 PROCESS = Ok ms ∧ key_of_ms_key ms = 7 ∧ kind_of_ms_key ms = PROCESS ∧ ms ≠ 0.
Proof. apply ms_key_roundtrip; [lia|by right]. Defined.

Section win_clients.
Context `{Libc} {W : Type} `{WinOS W}.
Implicit Types s : wstate W.

Lemma wp_wcall {A} (c : wsys A) Q E s :
  (∀ r w', wos c (w_world s) = (r, w') → Q r (set_world w' (w_trace s ++ [WRec c r]) s)) →
  wp (wcall c) Q E s.
Proof.
  unfold wp, wcall. destruct (wos c (w_world s)) as [r w'] eqn:Hc. intros HQ. by apply HQ.
Qed.


Lemma wp_client_at c cl Q E s : w_heap s !! c = Some cl → Q cl s → wp (client_at c) Q E s.
Proof. intros Hc HQ. unfold wp, client_at. by rewrite Hc. Qed.

Definition with_writebuf (cl : t_client) (b : t_writebuf) : t_client :=
  mk_client (cl_handle cl) (cl_read cl) (cl_write cl) (cl_readbuf cl) b.

Lemma wp_win_set_writebuf c cl b Q E s :
  w_heap s !! c = Some cl →
  Q tt (set_heap (<[c := with_writebuf cl b]> (w_heap s)) s) → wp (set_writebuf c b) Q E s.
Proof.
  intros Hc HQ. unfold set_writebuf. apply wp_bind. eapply wp_client_at; [done|].
  unfold wp, client_set. by rewrite Hc.
Qed.

(** The client [c] has the messages [msgs] to send, [ptr] bytes of the first one
    being sent already; whenever there is something to send, a write is under
    way. *)
Definition writes_of (c : positive) (msgs : list cbuf) (ptr : Z) s : Prop :=
  ∃ cl, w_heap s !! c = Some cl ∧ cd_kind (cl_write cl) = WRITEOP ∧
    wb_rep (cl_writebuf cl) (bool_decide (msgs ≠ [])) msgs ptr.

(** What the operations on [c] leave alone *)
Definition same_but (c : positive) s s' : Prop :=
  w_core s' = w_core s ∧ w_clients s' = w_clients s ∧ w_processes s' = w_processes s ∧
  delete c (w_heap s') = delete c (w_heap s).

Lemma same_but_heap c cl s : same_but c s (set_heap (<[c := cl]> (w_heap s)) s).
Proof. split_and!; try done. cbn. by rewrite delete_insert_eq. Qed.

Lemma same_but_trans c s1 s2 s3 : same_but c s1 s2 → same_but c s2 s3 → same_but c s1 s3.
Proof. intros (? & ? & ? & ?) (? & ? & ? & ?). split_and!; congruence. Qed.

(** The buffers given to [WriteFile] for the client [c], in a record of calls *)
Definition written_by (c : positive) (r : wsysrec) : option (list ascii) :=
  match r with
  | WRec call _ =>
     match call with
     | WWriteFile _ bs (OvWrite c') => if decide (c' = c) then Some bs else None
     | _ => None
     end
  end.
Definition submitted (c : positive) (t : list wsysrec) : list (list ascii) := omap (written_by c) t.
Arguments submitted : simpl never.

Lemma submitted_snoc c t r :
  submitted c (t ++ [r]) = submitted c t ++ match written_by c r with Some bs => [bs] | None => [] end.
Proof. unfold submitted. rewrite omap_app. cbn. by destruct (written_by c r). Qed.

(** The rest of the first message, handed to [WriteFile] unless a write is under
    way *)
Definition starts (w : bool) (msgs : list cbuf) (ptr : Z) : list (list ascii) :=
  match msgs with
  | m :: _ => if w then [] else [drop (Z.to_nat ptr) (cstr m)]
  | [] => []
  end.

(** [try_write] starts a write if there is something to send and none is under way. *)
Lemma wp_try_write c cl w msgs ptr Q E s :
  w_heap s !! c = Some cl → cd_kind (cl_write cl) = WRITEOP → wb_rep (cl_writebuf cl) w msgs ptr →
  (w = true → msgs ≠ []) →
  (∀ s', writes_of c msgs ptr s' → same_but c s s' →
     submitted c (w_trace s') = submitted c (w_trace s) ++ starts w msgs ptr → Q tt s') →
  wp (try_write c) Q E s.
Proof.
  intros Hc Hk Hwb Hw HQ. unfold try_write. apply wp_bind. eapply wp_client_at; [done|].
  rewrite (has_write_data_rep _ _ _ _ Hwb).
  assert (can_write (cl_writebuf cl) = negb w) as ->.
  { unfold can_write. by destruct Hwb as (-> & _). }
  destruct (bool_decide (msgs ≠ []) && negb w) eqn:Eb.
  - apply andb_true_iff in Eb as [Hne Hnw]. apply bool_decide_eq_true in Hne.
    apply negb_true_iff in Hnw. subst w. destruct msgs as [|m ms]; [done|].
    destruct (prepare_write_rep _ _ _ _ Hwb) as (buf & size & b & Hp & Hb & _ & _ & Hbuf).
    apply wp_bind. eapply wp_lift_ok; [done|]. apply wp_bind. eapply wp_win_set_writebuf; [done|].
    apply wp_bind, wp_wcall. intros r w' _. apply wp_ret, HQ.
    + eexists. split; [cbn; apply lookup_insert_eq|]. split; [done|].
      rewrite bool_decide_true by done. done.
    + apply same_but_heap.
    + cbn [w_trace set_world set_heap]. rewrite submitted_snoc. cbn. rewrite decide_True by done.
      by rewrite Hbuf.
  - apply wp_ret, HQ; [|by split_and!|].
    2:{ destruct msgs, w; cbn; rewrite ?app_nil_r; try done. }
    exists cl. split; [done|]. split; [done|].
    destruct w; [by rewrite bool_decide_true by auto|].
    cbn in Eb. rewrite andb_true_r in Eb. by rewrite Eb.
Qed.

(** Queueing a message *)
Lemma wp_win_queue_write c msgs ptr m Q E s :
  writes_of c msgs ptr s → message_ok m → 2 * Z.of_nat (length msgs) ≤ alloc_max →
  (∀ s', writes_of c (msgs ++ [m]) ptr s' → same_but c s s' →
     submitted c (w_trace s') =
       submitted c (w_trace s) ++ starts (bool_decide (msgs ≠ [])) (msgs ++ [m]) ptr → Q tt s') →
  wp (queue_write c m) Q E s.
Proof.
  intros (cl & Hc & Hk & Hwb) Hm Hroom HQ. unfold queue_write. apply wp_bind.
  eapply wp_client_at; [done|]. destruct (push_write_data_rep _ _ _ _ m Hwb Hm) as [Hor Hok].
  destruct (Hok Hroom) as [b Hpush]. rewrite Hpush in Hor. cbn in Hor.
  apply wp_bind. eapply wp_lift_ok; [done|]. apply wp_bind. eapply wp_win_set_writebuf; [done|].
  eapply wp_try_write; [apply lookup_insert_eq|done|done| |].
  - intros _. by destruct msgs.
  - intros s' Hs' Hsame Hsub. apply HQ; [done| |exact Hsub]. eapply same_but_trans; [apply same_but_heap|done].
Qed.

(** The completion of a write of [n] bytes *)
Lemma wp_write_done c key m ms ptr n Q E s :
  writes_of c (m :: ms) ptr s → 0 ≤ n ≤ Z.of_nat (length (cstr m)) - ptr →
  (∀ s' msgs' ptr', writes_of c msgs' ptr' s' → same_but c s s' →
     (length msgs' ≤ S (length ms))%nat →
     pending msgs' ptr' = drop (Z.to_nat n) (pending (m :: ms) ptr) →
     submitted c (w_trace s') = submitted c (w_trace s) ++ starts false msgs' ptr' → Q tt s') →
  wp (handle_io c key true n (OvWrite c)) Q E s.
Proof.
  intros (cl & Hc & Hk & Hwb) Hn HQ. unfold handle_io, conn_kind. apply wp_bind, wp_bind.
  eapply wp_client_at; [done|]. apply wp_ret. rewrite Hk. cbn [Z.eqb READOP WRITEOP].
  apply wp_bind. eapply wp_client_at; [done|].
  destruct (have_written_rep _ _ _ _ n Hwb Hn) as (b & msgs' & ptr' & Hhw & Hb & Hl & Hp).
  apply wp_bind. eapply wp_lift_ok; [done|]. apply wp_bind. eapply wp_win_set_writebuf; [done|].
  eapply wp_try_write; [apply lookup_insert_eq|done|done|done|].
  intros s' Hs' Hsame Hsub. eapply HQ; [done| |done|done|exact Hsub].
  eapply same_but_trans; [apply same_but_heap|done].
Qed.

(** ** The bytes a client receives *)

(** What happens to the connection of a client: the server queues a message, or
    the write under way completes, after at most [k] bytes. *)
Inductive io_op :=
  | IoQueue (m : cbuf)
  | IoDone (k : Z).

(** The operating system sends the bytes that were given to [WriteFile]: [d]
    writes of the client are complete, and the one under way is the next buffer
    in the record of the calls.  Returns the bytes transmitted and the number of
    completed writes. *)
Fixpoint io_run (c : positive) (key : Z) (d : nat) (ops : list io_op)
  : M (wstate W) (list ascii * nat) :=
  match ops with
  | [] => mret ([], d)
  | IoQueue m :: ops => _ ← queue_write c m; io_run c key d ops
  | IoDone k :: ops =>
     t ← gets w_trace;
     match submitted c t !! d with
     | Some bs =>
        let n := Z.max 0 (Z.min k (Z.of_nat (length bs))) in
        _ ← handle_io c key true n (OvWrite c);
        '(out, d) ← io_run c key (S d) ops;
        mret (take (Z.to_nat n) bs ++ out, d)
     | None => io_run c key d ops
     end
  end.

Definition queued (ops : list io_op) : list cbuf :=
  ops ≫= λ o, match o with IoQueue m => [m] | IoDone _ => [] end.

(** [d] writes are complete; the rest of the first pending message is being
    written. *)
Definition under_way (c : positive) (d : nat) (msgs : list cbuf) (ptr : Z) s : Prop :=
  ∃ old, length old = d ∧ submitted c (w_trace s) = old ++ starts false msgs ptr.

Lemma under_way_queue c d msgs ptr m s s' :
  under_way c d msgs ptr s →
  submitted c (w_trace s') =
    submitted c (w_trace s) ++ starts (bool_decide (msgs ≠ [])) (msgs ++ [m]) ptr →
  under_way c d (msgs ++ [m]) ptr s'.
Proof.
  intros (old & Hd & Hold) Hs. exists old. split; [done|]. rewrite Hs, Hold, <- app_assoc.
  destruct msgs as [|m0 ms]; [done|]. rewrite bool_decide_true by done. cbn. done.
Qed.

Lemma under_way_done c d m ms ptr msgs' ptr' s s' :
  under_way c d (m :: ms) ptr s →
  submitted c (w_trace s') = submitted c (w_trace s) ++ starts false msgs' ptr' →
  under_way c (S d) msgs' ptr' s'.
Proof.
  intros (old & Hd & Hold) Hs. exists (old ++ [drop (Z.to_nat ptr) (cstr m)]).
  split; [rewrite length_app; cbn; lia|]. rewrite Hs, Hold. by rewrite <- !app_assoc.
Qed.

Lemma under_way_lookup c d msgs ptr s :
  under_way c d msgs ptr s →
  submitted c (w_trace s) !! d =
    match msgs with m :: _ => Some (drop (Z.to_nat ptr) (cstr m)) | [] => None end.
Proof.
  intros (old & <- & ->). rewrite lookup_app_r by lia. rewrite Nat.sub_diag. by destruct msgs.
Qed.

Lemma wp_io_run c key ops : ∀ d msgs ptr s (Q : list ascii * nat → wstate W → Prop) E,
  writes_of c msgs ptr s → under_way c d msgs ptr s → Forall message_ok (queued ops) →
  2 * Z.of_nat (length msgs + length ops) ≤ alloc_max →
  (∀ out d' msgs' ptr' s', writes_of c msgs' ptr' s' → under_way c d' msgs' ptr' s' →
     out ++ pending msgs' ptr' = pending msgs ptr ++ concat (cstr <$> queued ops) →
     Q (out, d') s') →
  wp (io_run c key d ops) Q E s.
Proof.
  induction ops as [|[m|k] ops IH]; intros d msgs ptr s Q E Hw Hu Hf Hroom HQ; cbn [io_run].
  - apply wp_ret. eapply HQ; [done|done|]. cbn. by rewrite app_nil_r.
  - apply Forall_cons in Hf as [Hm Hf]. cbn [length] in Hroom.
    pose proof Hw as (cl & _ & _ & Hrep). pose proof (wb_rep_ptr _ _ _ _ Hrep) as Hptr.
    apply wp_bind. eapply wp_win_queue_write; [done|done|lia|]. intros s1 Hw1 _ Hsub.
    eapply IH; [done|by eapply under_way_queue|done|rewrite length_app; cbn [length]; lia|].
    intros out d' msgs' ptr' s' Hw' Hu' Hout. eapply HQ; [done|done|].
    rewrite Hout, pending_snoc by done. cbn. by rewrite <- app_assoc.
  - cbn [length] in Hroom. pose proof Hw as (cl & Hc & Hk & Hrep).
    apply wp_bind, wp_gets. rewrite (under_way_lookup _ _ _ _ _ Hu).
    pose proof Hrep as (Hwr & Hmf & Hp & Hdata). destruct msgs as [|m ms].
    { eapply IH; [done|done|done|cbn [length] in *; lia|done]. }
    destruct Hdata as (Hd & Hl & Hr & Hq).
    assert (Z.of_nat (length (drop (Z.to_nat ptr) (cstr m))) = Z.of_nat (length (cstr m)) - ptr) as Hlen
      by (rewrite length_drop; lia).
    rewrite Hlen. set (n := Z.max 0 (Z.min k (Z.of_nat (length (cstr m)) - ptr))).
    assert (0 ≤ n ≤ Z.of_nat (length (cstr m)) - ptr) as Hn by lia.
    apply wp_bind. eapply wp_write_done; [done|exact Hn|].
    intros s1 msgs1 ptr1 Hw1 _ Hlen1 Hpend Hsub.
    apply wp_bind. eapply IH; [done|by eapply under_way_done|done|cbn [length] in *; lia|].
    intros out d' msgs' ptr' s' Hw' Hu' Hout. apply wp_ret. eapply HQ; [done|done|].
    rewrite <- app_assoc, Hout, Hpend, app_assoc.
    change (concat (cstr <$> queued (IoDone k :: ops))) with (concat (cstr <$> queued ops)).
    f_equal. rewrite pending_cons by lia.
    rewrite <- (take_drop (Z.to_nat n) (drop (Z.to_nat ptr) (cstr m) ++ _)) at 2.
    by rewrite (take_app_le (drop _ _) _ (Z.to_nat n)) by lia.
Qed.

(** C32: under every interleaving of queued messages and of partial or complete
    asynchronous writes, the bytes transmitted to a client, which are those given
    to [WriteFile] as far as the writes completed, are its messages in order,
    nothing lost or sent twice, no assertion fails, and whenever something is left
    to send, the rest of the current message has been given to [WriteFile] and
    that write is under way (so that its completion will continue).  The number of
    messages and completions is at most half the largest array that can be
    allocated. *)
Theorem win_write_stream c key ops s :
  writes_of c [] 0 s → Forall message_ok (queued ops) →
  2 * Z.of_nat (length ops) ≤ alloc_max →
  ∃ out d s' msgs ptr,
    io_run c key (length (submitted c (w_trace s))) ops s = Ok (out, d, s') ∧
    writes_of c msgs ptr s' ∧
    submitted c (w_trace s') !! d =
      match msgs with m :: _ => Some (drop (Z.to_nat ptr) (cstr m)) | [] => None end ∧
    out ++ pending msgs ptr = concat (cstr <$> queued ops).
Proof.
  intros Hw Hf Hroom.
  assert (wp (io_run c key (length (submitted c (w_trace s))) ops) (λ '(out, d) s', ∃ msgs ptr,
    writes_of c msgs ptr s' ∧ under_way c d msgs ptr s' ∧
    out ++ pending msgs ptr = concat (cstr <$> queued ops)) (λ _, False) s) as Hwp.
  { eapply (wp_io_run _ _ _ _ [] 0); [done| |done|done|].
    - exists (submitted c (w_trace s)). split; [done|]. by rewrite app_nil_r.
    - intros out d msgs ptr s' Hw' Hu' Hout. by exists msgs, ptr. }
  apply wp_Ok_inv in Hwp as ([out d] & s' & Hrun & msgs & ptr & ? & Hu & ?).
  exists out, d, s', msgs, ptr. split_and!; try done. by apply under_way_lookup.
Qed.

(** ** Terminated provers *)









(** The process list and the client list as finite maps *)
Definition lists_are (procs : gmap Z t_proc) (clients : gmap Z positive) s : Prop :=
  (∃ l, w_processes s = Some l ∧ list_models l procs) ∧
  (∃ l, w_clients s = Some l ∧ list_models l clients).



(** When the client of a running prover has disconnected, no event of the
    prover has any effect: its entry is never taken off the process list, and the
    slot it occupies is lost for the rest of the run. *)
Theorem win_orphan_keeps_slot procs clients key p event s :
  lists_are procs clients s → procs !! key = Some p → clients !! proc_client_key p = None →
  handle_process key event s = Ok (tt, s).
Proof.
  intros [(l & Hl & Hm) (lc & Hlc & Hmc)] Hp Hc. unfold handle_process, mbind, M_bind, nonnull.
  rewrite Hl. unfold lift at 1. rewrite (list_models_lookup _ _ _ Hm), Hp, Hlc. unfold lift.
  by rewrite (list_models_lookup _ _ _ Hmc), Hc.
Qed.

End win_clients.

(** ** Runs on a scripted operating system

    Handles are numbered upwards; [wt_script] holds the packets the completion
    port delivers; connecting a pipe instance fails when [wt_broken] is set. *)
Record wtoy := mk_wtoy {
  wt_handle : Z;
  wt_error : Z;
  wt_broken : bool;
  wt_script : list packet
}.

Definition new_handle (w : wtoy) : Z * wtoy :=
  (wt_handle w, mk_wtoy (wt_handle w + 1) (wt_error w) (wt_broken w) (wt_script w)).

Definition win_toy {A} (c : wsys A) : wtoy → A * wtoy :=
  match c in wsys A return wtoy → A * wtoy with
  | WSetErrorMode => λ w, (tt, w)
  | WGetCurrentDirectory => λ w, (Some (String.list_ascii_of_string "C:\why3"), w)
  | WCreateIoCompletionPort _ _ _ => λ w, (500, w)
  | WCloseHandle _ => λ w, (true, w)
  | WCreateEvent => new_handle
  | WCreateNamedPipe _ => new_handle
  | WConnectNamedPipe _ _ => λ w,
      (false, mk_wtoy (wt_handle w) (if wt_broken w then 5 else ERROR_IO_PENDING)
                (wt_broken w) (wt_script w))
  | WGetLastError => λ w, (wt_error w, w)
  | WReadFile _ _ _ => λ w, (false, w)
  | WWriteFile _ _ _ => λ w, (false, w)
  | WGetTempFileName _ => λ w, (Some (String.list_ascii_of_string "C:\why3\vco1.tmp"), w)
  | WCreateOutput _ => new_handle
  | WOpenInput _ => new_handle
  | WCreateJobObject => new_handle
  | WSetLimits _ _ _ _ => λ w, (true, w)
  | WSetPort _ _ _ => λ w, (true, w)
  | WCreateProcess _ _ => λ w, let '(h, w) := new_handle w in (Some (h, h + 1000), w)
  | WAssignProcess _ _ => λ w, (true, w)
  | WResumeThread _ => λ w, (1, w)
  | WWait _ => λ w, (0, w)
  | WGetExitCode _ => λ w, (Some 0, w)
  | WGetTimes _ => λ w, (Some (2500000, 12500000), w)
  | WTerminate _ _ => λ w, (true, w)
  | WMalloc _ => λ w, (true, w)
  | WGetPacket _ => λ w,
      match wt_script w with
      | p :: r => (Some p, mk_wtoy (wt_handle w) (if pk_res p then 0 else ERROR_BROKEN_PIPE)
                             (wt_broken w) r)
      | [] => (None, w)
      end
  end.
#[local] Instance win_toy_os : WinOS wtoy := {| wos := λ A, win_toy; win_basename := basename |}.

Definition win_run (j : string) (broken : bool) (script : list packet) (n : nat) :=
  @server_main strict_libc wtoy win_toy_os
    [mk_answer "j" (clit j); mk_answer "s" (clit "/tmp/why3.sock")] 5 5 n
    (initial_wstate (mk_wtoy 1 0 broken script)).

(** A client connects to the pipe instance number [key]. *)
Definition connects (key : Z) : packet := mk_packet true 0 (2 * key) (OvConnect 1) [].
(** The client [c] of that instance sends a line. *)
Definition sends (key : Z) (c : positive) (line : string) : packet :=
  let bs := String.list_ascii_of_string line ++ [LF] in
  mk_packet true (Z.of_nat (length bs)) (2 * key) (OvRead c) bs.
Definition disconnects (key : Z) (c : positive) : packet :=
  mk_packet false 0 (2 * key) (OvRead c) [].
Definition job_event (key event : Z) : packet := mk_packet true event (2 * key + 1) (OvPid 4711) [].

(** The Windows server allocates one pipe instance per parallel prover at start,
    but a client can raise that number later: with [-j 1], the first event after a
    request ["parallel;4"] makes [get_server_num] read beyond the array of keys. *)
Theorem win_parallel_request_overruns :
  win_run "1" false [connects 1; sends 1 2 "parallel;4"; sends 1 2 "interrupt;a"] 3
  = Err OutOfBounds.
Proof. vm_compute. reflexivity. Qed.

(** An error while the first pipe instance is set up makes the shutdown read the
    entries of the instances that do not exist yet, which are uninitialised. *)
Theorem win_early_shutdown_reads_garbage : win_run "2" true [] 0 = Err Indeterminate.
Proof. vm_compute. reflexivity. Qed.

Definition slots {W} (r : outcome (unit * wstate W)) : option (option Z * Z) :=
  match r with
  | Ok (_, s) => Some (list_length <$> w_processes s, q_len (c_queue (w_core s)))
  | Err _ => None
  end.

(** A server with one slot whose first client leaves while its prover runs: the
    prover has exited, and the request of the next client still waits. *)
Definition leak_script : list packet :=
  [connects 1; sends 1 2 "run;a;10;0;cvc4;x.smt2"; disconnects 1 2;
   job_event 3 JOB_OBJECT_MSG_EXIT_PROCESS; connects 2; sends 2 14 "run;b;10;0;cvc4;y.smt2"].

Example leak_run : slots (win_run "1" false leak_script 6) = Some (Some 1, 1).
Proof. vm_compute. reflexivity. Qed.

(** The same with a client that stays: its prover is reported, the next one starts. *)
Example no_leak_run :
  slots (win_run "1" false
    [connects 1; sends 1 2 "run;a;10;0;cvc4;x.smt2"; sends 1 2 "run;b;10;0;cvc4;y.smt2";
     job_event 3 JOB_OBJECT_MSG_NEW_PROCESS; job_event 3 JOB_OBJECT_MSG_EXIT_PROCESS;
     job_event 3 JOB_OBJECT_MSG_ACTIVE_PROCESS_ZERO] 6) = Some (Some 1, 0).
Proof. vm_compute. reflexivity. Qed.

(** ** Witnesses *)

Definition one_list {A} (k : Z) (x : A) : t_list A :=
  match (l ← @init_list strict_libc A 1; @list_append strict_libc A l k x) with
  | Ok l => l
  | Err _ => mk_list [] [] 0 0
  end.

Lemma one_list_models {A} k (x : A) : @list_models strict_libc A (one_list k x) {[k := x]}.
Proof.
  unfold one_list. destruct (@list_models_init strict_libc A 1) as (l & Hl & Hm); [cbn; lia|].
  rewrite Hl. cbn [mbind outcome_bind].
  destruct (@list_models_append strict_libc A l ∅ k x Hm) as (l' & Hl' & Hm').
  - right. injection Hl as <-. cbn. lia.
  - done.
  - rewrite Hl'. by rewrite insert_empty in Hm'.
Qed.

Definition wit_proc (key : Z) : t_proc :=
  mk_proc 1 40 41 key (mk_str 2 (clit "goal1")) (mk_str 3 (clit "C:\why3\vco1.tmp")).
Definition wit_writebuf : t_writebuf :=
  match @init_writebuf strict_libc 16 with Ok b => b | Err _ => mk_writebuf None 0 0 false (mk_queue [] 0 0 0) end.
Definition wit_client : t_client :=
  mk_client 20 (mk_conn 21 READOP) (mk_conn 22 WRITEOP) (mk_readbuf [] 0 0) wit_writebuf.
(** One prover, number 5, of the client number 2, and one client *)
Definition wit_state (client_key : Z) : wstate wtoy :=
  mk_w (set_live 5 {[1; 2; 3; 4]}%positive initial_core) None None ∅
    (Some (one_list client_key 4%positive)) {[4%positive := wit_client]}
    (Some (one_list 5 (wit_proc 2))) [] 6 [] 500 (mk_wtoy 50 0 false []) [].

Lemma wit_lists k : @lists_are strict_libc wtoy {[5 := wit_proc 2]} {[k := 4%positive]} (wit_state k).
Proof. split; eexists; (split; [reflexivity|apply one_list_models]). Qed.

Lemma wit_writes k : @writes_of strict_libc wtoy 4 [] 0 (wit_state k).
Proof.
  exists wit_client. split; [apply lookup_singleton_eq|]. split; [done|].
  rewrite bool_decide_false by naive_solver. cbn [wit_client cl_writebuf]. unfold wit_writebuf.
  destruct (@init_writebuf_rep strict_libc 16) as (b & Hb & Hrep); [cbn; lia|]. by rewrite Hb.
Qed.

Lemma win_write_stream_witness :
  let ops := [IoQueue (clit "S;a"); IoDone 1; IoQueue (clit "F;a;0"); IoDone 100; IoDone 2] in
  ∃ out d s' msgs ptr, @io_run strict_libc wtoy win_toy_os 4 2 0 ops (wit_state 2) = Ok (out, d, s') ∧
    @writes_of strict_libc wtoy 4 msgs ptr s' ∧
    submitted 4 (w_trace s') !! d =
      match msgs with m :: _ => Some (drop (Z.to_nat ptr) (cstr m)) | [] => None end ∧
    out ++ pending msgs ptr = concat (cstr <$> queued ops).
Proof.
  apply (@win_write_stream strict_libc wtoy win_toy_os 4 2
    [IoQueue (clit "S;a"); IoDone 1; IoQueue (clit "F;a;0"); IoDone 100; IoDone 2]).
  - apply wit_writes.
  - repeat constructor; try (by apply (bool_decide_unpack _)); vm_compute; congruence.
  - cbn. lia.
Defined.


Lemma win_orphan_keeps_slot_witness :
  @handle_process strict_libc wtoy win_toy_os 5 JOB_OBJECT_MSG_EXIT_PROCESS (wit_state 3)
  = Ok (tt, wit_state 3).
Proof.
  apply (@win_orphan_keeps_slot strict_libc wtoy win_toy_os {[5 := wit_proc 2]} {[3 := 4%positive]}
    5 (wit_proc 2)); [apply wit_lists|apply lookup_singleton_eq|].
  by rewrite lookup_singleton_ne.
Defined.
