(* ===== verification/CpuLimitWin.v ===== *)
(** * why3cpulimit on Windows (src/server/cpulimit-win.c)

    The Windows program that runs one command in a job object with a time and a
    memory limit: its command line, its limits and the life of its process.  The
    operating system is a parameter. *)

From S2P Require Import Prelude CString ReadBuf Queue State Options Request CmdLine.
From Stdlib Require Import Ascii SpecFloat.

(** ** The operating system *)

Record proc_times := mk_times {
  pt_start : Z;
  pt_stop : Z;
  pt_system : Z;
  pt_user : Z
}.

Inductive jsys : Type → Type :=
  | JCreateJobObject : jsys Z
  | JSetConsoleCtrlHandler : jsys bool
  | JSetLimits (job flags time memory : Z) : jsys bool
  | JCreateSuspended (cmd : arr ascii) : jsys (option (Z * Z))
  | JAssign (job process : Z) : jsys bool
  | JResume (thread : Z) : jsys Z
  | JWait (process : Z) : jsys Z
  | JGetExitCode (process : Z) : jsys (option Z)
  | JGetTimes (process : Z) : jsys (option proc_times)
  | JTerminate (process code : Z) : jsys bool
  | JCloseHandle (h : Z) : jsys bool
  | JMalloc (n : Z) : jsys bool
  | JErrorReport (function : string) : jsys unit   (** [GetLastError], [FormatMessage] and [printf] *)
  | JStdout (txt : list ascii) : jsys unit
  | JStderr (txt : list ascii) : jsys unit.

(** The calls made *)
Inductive jcall := JCall (A : Type) (c : jsys A).
Arguments JCall {A} c.

Class JobOS (W : Type) := { jos : ∀ {A}, jsys A → W → A * W }.

Definition WAIT_OBJECT_0 : Z := 0.
Definition WAIT_ABANDONED : Z := 128.
Definition WAIT_TIMEOUT : Z := 258.
Definition WAIT_FAILED : Z := 4294967295.
Definition PROCESS_TIME : Z := 2.
Definition PROCESS_MEMORY : Z := 256.

(** [strtol] where [long] has 32 bits *)
Definition strtol32 (b : cbuf) : outcome (Z * cbuf) :=
  '(v, r) ← read_decimal b;
  Ok (Z.max INT_MIN (Z.min INT_MAX v), r).

(** ** The program *)

(** The globals [pi] (process and thread, 0 before) and [ghJob], and the world *)
Record jstate (W : Type) := mk_js {
  js_process : Z;
  js_thread : Z;
  js_job : Z;
  js_world : W;
  js_calls : list jcall
}.
Arguments mk_js {W} _ _ _ _ _.
Arguments js_process {W} _.
Arguments js_thread {W} _.
Arguments js_job {W} _.
Arguments js_world {W} _.
Arguments js_calls {W} _.

Section cpulimit_win.
Context {W : Type} `{JobOS W}.

Abbreviation J := (M (jstate W)).

Definition jcall_do {A} (c : jsys A) : J A := λ s,
  let '(a, w) := jos c (js_world s) in
  Ok (a, mk_js (js_process s) (js_thread s) (js_job s) w (js_calls s ++ [JCall c])).

Definition terminates : J unit :=
  p ← gets js_process;
  _ ← jcall_do (JTerminate p 10);
  _ ← jcall_do (JCloseHandle p);
  t ← gets js_thread;
  _ ← jcall_do (JCloseHandle t);
  job ← gets js_job;
  _ ← jcall_do (JCloseHandle job);
  mret tt.

(** The handler of console events: it says that the event was handled. *)
Definition ConsoleHandler : J bool :=
  _ ← jcall_do (JStdout (String.list_ascii_of_string "Got signal from console: killing subprocess" ++ [LF]));
  _ ← terminates;
  mret true.

Definition argv_text (argv : list cbuf) (i : nat) : outcome cbuf :=
  match argv !! i with Some x => Ok x | None => Err OutOfBounds end.

Definition usage_text (argv0 : cbuf) : list ascii :=
  String.list_ascii_of_string "usage: " ++ cstr argv0
  ++ String.list_ascii_of_string " <time limit in seconds> <virtual memory limit in MiB>" ++ [LF]
  ++ String.list_ascii_of_string "          <show/hide cpu time: -s|-h> <command> <args>..." ++ [LF; LF]
  ++ String.list_ascii_of_string "Zero sets no limit (keeps the actual limit)" ++ [LF].

(** [None] is an error; otherwise the limits and the two flags. *)
Definition parse_argv (argv : list cbuf) : outcome (option (Z * Z * bool * bool)) :=
  if Z.of_nat (length argv) <? 5 then Ok None
  else
    a1 ← argv_text argv 1;
    '(t, r1) ← strtol32 a1;
    a2 ← argv_text argv 2;
    '(m, r2) ← strtol32 a2;
    a3 ← argv_text argv 3;
    s ← strncmp 3 (clit "-s") a3;
    h ← strncmp 3 (clit "-h") a3;
    match r1, r2 with
    | c1 :: _, c2 :: _ =>
       if decide (c1 = NUL) then
         if decide (c2 = NUL) then
           if (s =? 0) || (h =? 0) then Ok (Some (t, m, s =? 0, h =? 0)) else Ok None
         else Ok None
       else Ok None
    | _, _ => Err OutOfBounds
    end.

(** [s += strlen(argv[i]) + 3] over the command and its arguments *)
Fixpoint cmd_size (args : list cbuf) : outcome Z :=
  match args with
  | [] => Ok 0
  | a :: args => n ← strlen a; s ← cmd_size args; Ok (uint (n + 3 + s))
  end.

(** The loop of [strcat]s; a blank follows all arguments but the last. *)
Fixpoint quote_args (args : list cbuf) (p : arr ascii) : outcome (arr ascii) :=
  match args with
  | [] => Ok p
  | a :: args =>
     p ← strcat p [DQ; NUL];
     p ← strcat p a;
     p ← strcat p [DQ; NUL];
     p ← (match args with [] => Ok p | _ => strcat p [SP; NUL] end);
     quote_args args p
  end.

Definition set_limits (job t m : Z) : J (option Z) :=
  if negb (t =? 0) || negb (m =? 0) then
    let flags := Z.lor (if t =? 0 then 0 else PROCESS_TIME) (if m =? 0 then 0 else PROCESS_MEMORY) in
    let time := if t =? 0 then 0 else size_t (10000000 * size_t t) in
    let memory := if m =? 0 then 0 else size_t (1048576 * m) in
    ok ← jcall_do (JSetLimits job flags time memory);
    if negb ok then _ ← jcall_do (JErrorReport "SetInformationJobObject"); mret (Some 1)
    else mret None
  else mret None.

(** A time of [ULARGE_INTEGER] ticks, in seconds *)
Definition seconds (ticks : Z) : double :=
  double_div (double_add (double_of_Z (size_t ticks)) (double_of_Z 0)) (double_of_Z 10000000).

Definition times_text (t : proc_times) : list ascii :=
  String.list_ascii_of_string "why3cpulimit time : "
  ++ fmt_f (seconds (pt_system t + pt_user t)) ++ String.list_ascii_of_string " s" ++ [LF]
  ++ String.list_ascii_of_string "why3cpulimit real time : "
  ++ fmt_f (seconds (pt_stop t - pt_start t)) ++ String.list_ascii_of_string " s" ++ [LF].

Definition show_times (process : Z) : J unit :=
  t ← jcall_do (JGetTimes process);
  match t with
  | None => raise Indeterminate
  | Some t => jcall_do (JStdout (times_text t))
  end.

(** From [CreateProcess] to the end of [main] *)
Definition run_process (argv0 : cbuf) (p : arr ascii) (job : Z) (showtime : bool) : J Z :=
  pi ← jcall_do (JCreateSuspended p);
  match pi with
  | None =>
     n ← lift (arr_strlen p);
     txt ← lift (arr_read (Z.to_nat n) p 0);
     _ ← jcall_do (JStdout (cstr argv0 ++ String.list_ascii_of_string ": Error: failed when launching <"
           ++ txt ++ [">"%char; LF]));
     _ ← jcall_do (JErrorReport "CreateProcess");
     mret 1
  | Some (process, thread) =>
     _ ← modify (λ s, mk_js process thread (js_job s) (js_world s) (js_calls s));
     ok ← jcall_do (JAssign job process);
     if negb ok then _ ← jcall_do (JErrorReport "AssignProcessToJobObject"); mret 1
     else
       _ ← jcall_do (JResume thread);
       w ← jcall_do (JWait process);
       _ ← (if w =? WAIT_FAILED then jcall_do (JStdout (String.list_ascii_of_string "Wait failed"))
            else if w =? WAIT_TIMEOUT then jcall_do (JStdout (String.list_ascii_of_string "Wait timeout"))
            else if w =? WAIT_ABANDONED then
              jcall_do (JStdout (String.list_ascii_of_string "Wait abandonned"))
            else mret tt);
       ex ← jcall_do (JGetExitCode process);
       _ ← (if showtime then show_times process else mret tt);
       _ ← jcall_do (JCloseHandle process);
       _ ← jcall_do (JCloseHandle thread);
       _ ← jcall_do (JCloseHandle job);
       if w =? WAIT_TIMEOUT then mret 152
       else match ex with Some ex => mret (cast_int ex) | None => raise Indeterminate end
  end.

Definition cpulimit_win_main (argv : list cbuf) : J Z :=
  job ← jcall_do JCreateJobObject;
  _ ← modify (λ s, mk_js 0 0 job (js_world s) (js_calls s));
  _ ← (if job =? 0 then jcall_do (JErrorReport "CreateJobObject") else mret tt);
  _ ← jcall_do JSetConsoleCtrlHandler;
  opts ← lift (parse_argv argv);
  argv0 ← lift (argv_text argv 0);
  match opts with
  | None => _ ← jcall_do (JStderr (usage_text argv0)); mret 1
  | Some (t, m, showtime, _) =>
     s ← lift (cmd_size (drop 4 argv));
     if 32767 <? s then
       _ ← jcall_do (JStdout (cstr argv0 ++ String.list_ascii_of_string
             ": Error: parameter's length exceeds CreateProcess limits" ++ [LF]));
       mret 1
     else
       ok ← jcall_do (JMalloc s);
       if negb ok then
         _ ← jcall_do (JStdout (cstr argv0 ++ String.list_ascii_of_string ": Error: when allocating "
               ++ fmt_d s ++ String.list_ascii_of_string " bytes in memory" ++ [LF]));
         mret 1
       else
         p ← lift (arr_set (arr_new s) 0 NUL);
         p ← lift (quote_args (drop 4 argv) p);
         r ← set_limits job t m;
         match r with
         | Some code => mret code
         | None => run_process argv0 p job showtime
         end
  end.
End cpulimit_win.

(** ** The command line *)

Fixpoint quoted_text (args : list (list ascii)) : list ascii :=
  match args with
  | [] => []
  | a :: args =>
     [DQ] ++ a ++ [DQ] ++ (match args with [] => [] | _ => [SP] end) ++ quoted_text args
  end.

Lemma strcat_ok a t src :
  str_at a t → NUL ∈ src → Z.of_nat (length t + length (cstr src)) + 1 ≤ arr_len a →
  ∃ a', strcat a src = Ok a' ∧ str_at a' (t ++ cstr src) ∧ arr_len a' = arr_len a.
Proof.
  intros Ha Hs Hl. pose proof (strcat_spec a t src Ha Hs) as Hc.
  by rewrite (proj2 (Z.leb_le _ _)) in Hc by done.
Qed.

Lemma strcat_char a t c :
  c ≠ NUL → str_at a t → Z.of_nat (length t) + 2 ≤ arr_len a →
  ∃ a', strcat a [c; NUL] = Ok a' ∧ str_at a' (t ++ [c]) ∧ arr_len a' = arr_len a.
Proof.
  intros Hc Ha Hl. assert (cstr [c; NUL] = [c]) as Hs.
  { cbn. rewrite decide_False by done. by rewrite decide_True. }
  rewrite <- Hs. apply strcat_ok; [done|set_solver|rewrite Hs; cbn; lia].
Qed.

Lemma quote_args_spec args p t :
  str_at p t → Forall (λ a, NUL ∈ a) args →
  Z.of_nat (length t + length (quoted_text (cstr <$> args))) + 1 ≤ arr_len p →
  ∃ p', quote_args args p = Ok p' ∧ str_at p' (t ++ quoted_text (cstr <$> args)).
Proof.
  revert p t. induction args as [|a args IH]; intros p t Hp Hall Hl; cbn [quote_args].
  { exists p. cbn. by rewrite app_nil_r. }
  apply Forall_cons in Hall as [Ha Hall]. cbn [fmap list_fmap quoted_text] in Hl |- *.
  rewrite !length_app in Hl. cbn [length] in Hl.
  destruct (strcat_char p t DQ) as (p1 & -> & Hp1 & Hl1); [done..|lia|]. cbn [mbind outcome_bind].
  destruct (strcat_ok p1 _ a Hp1 Ha) as (p2 & -> & Hp2 & Hl2);
    [rewrite length_app; cbn [length]; lia|]. cbn [mbind outcome_bind].
  destruct (strcat_char p2 _ DQ ltac:(done) Hp2) as (p3 & -> & Hp3 & Hl3).
  { rewrite !length_app. cbn [length]. lia. } cbn [mbind outcome_bind].
  destruct args as [|a' args].
  { cbn. exists p3. split; [done|]. by rewrite <- !app_assoc in Hp3. }
  destruct (strcat_char p3 _ SP ltac:(done) Hp3) as (p4 & -> & Hp4 & Hl4).
  { rewrite !length_app. cbn [length fmap list_fmap] in *. lia. }
  cbn [mbind outcome_bind]. cbn [fmap list_fmap length] in Hl. destruct (IH p4 _ Hp4 Hall) as (p5 & -> & Hp5).
  { rewrite !length_app. cbn [length fmap list_fmap] in *. lia. }
  exists p5. split; [done|]. by rewrite <- !app_assoc in Hp5.
Qed.

(** The size computed is the size of the text and its terminator. *)
Lemma cmd_size_text args :
  Forall (λ a, NUL ∈ a) args → args ≠ [] →
  cmd_size args = Ok (uint (Z.of_nat (length (quoted_text (cstr <$> args))) + 1)).
Proof.
  induction args as [|a args IH]; intros Hall Hne; [done|].
  apply Forall_cons in Hall as [Ha Hall]. cbn [cmd_size]. rewrite strlen_ok by done.
  cbn [mbind outcome_bind fmap list_fmap quoted_text]. destruct args as [|a' args].
  { cbn. f_equal. f_equal. rewrite !length_app. cbn. lia. }
  rewrite IH by done. cbn [mbind outcome_bind fmap list_fmap]. f_equal. unfold uint.
  rewrite Zplus_mod_idemp_r. f_equal.
  rewrite (length_app [DQ]), !length_app. cbn [length]. lia.
Qed.

Lemma quoted_text_no_nul args : Forall (λ a, NUL ∉ a) args → NUL ∉ quoted_text args.
Proof.
  induction 1 as [|a args Ha _ IH]; cbn; [set_solver|]. destruct args; set_solver.
Qed.

(** An argument the plain quotes are good for: no quote inside, no backslash at
    the end *)
Definition plain_arg (a : list ascii) : Prop := (DQ ∉ a) ∧ last a ≠ Some BS.
#[export] Instance plain_arg_dec a : Decision (plain_arg a).
Proof. unfold plain_arg. apply _. Defined.

(** Such an argument is its own escaped form. *)
Lemma quote_body_plain bs a :
  a ≠ [] → plain_arg a → quote_body bs a = a.
Proof.
  revert bs. induction a as [|c a IH]; intros bs Hne [Hdq Hbs]; [done|].
  apply not_elem_of_cons in Hdq as [Hc Hdq]. cbn [quote_body]. rewrite decide_False by done.
  destruct a as [|d a].
  - rewrite decide_False; [done|]. intros ->. by apply Hbs.
  - case_decide; [subst c|]; f_equal; by apply IH.
Qed.

Lemma ms_args_open x : ms_args false 0 None (DQ :: x) = ms_args true 0 (Some []) x.
Proof. rewrite ms_args_cons, decide_False, decide_True by done. by destruct x. Qed.

Lemma ms_args_plain_quoted a rest :
  plain_arg a → ms_args true 0 (Some []) (a ++ DQ :: SP :: rest) = a :: ms_args false 0 None rest.
Proof.
  intros Ha. destruct (decide (a = [])) as [->|Hne].
  - apply (ms_args_quoted 0 [] [] rest).
  - pose proof (ms_args_quoted 0 [] a rest) as Hq. by rewrite quote_body_plain in Hq.
Qed.

(** The last argument, at the end of the line *)
Lemma ms_args_plain_last bs acc a :
  DQ ∉ a → last a ≠ Some BS → (a = [] → bs = O) →
  ms_args true bs (Some acc) (a ++ [DQ]) = [acc ++ replicate bs BS ++ a].
Proof.
  revert bs acc. induction a as [|c a IH]; intros bs acc Hdq Hbs Hb; cbn [app].
  - rewrite Hb by done. rewrite ms_args_cons, decide_False, decide_True by done.
    cbn. by rewrite !app_nil_r.
  - apply not_elem_of_cons in Hdq as [Hc Hdq].
    assert (last a ≠ Some BS) by (by destruct a).
    destruct (decide (c = BS)) as [->|Hne].
    + destruct a as [|d a]; [by destruct Hbs|]. rewrite ms_args_cons, decide_True by done.
      rewrite IH by done. by rewrite replicate_S_end, <- !app_assoc.
    + rewrite ms_args_plain by auto. rewrite IH by done. cbn. by rewrite <- !app_assoc.
Qed.

Lemma ms_args_quoted_text args :
  Forall plain_arg args → ms_args false 0 None (quoted_text args) = args.
Proof.
  induction 1 as [|a args Ha _ IH]; [done|]. cbn [quoted_text app]. rewrite ms_args_open.
  destruct args as [|a' args].
  - cbn [quoted_text app]. by rewrite ms_args_plain_last by (apply Ha || done).
  - cbn [app]. rewrite ms_args_plain_quoted by done. by rewrite IH.
Qed.

Lemma ms_program_blank acc s : ms_program false acc (SP :: s) = (acc, s).
Proof. reflexivity. Qed.

Lemma ms_program_quoted acc a rest :
  DQ ∉ a → ms_program true acc (a ++ DQ :: rest) = ms_program false (acc ++ a) rest.
Proof.
  revert acc. induction a as [|c a IH]; intros acc Hdq; cbn [app ms_program].
  - rewrite decide_True by done. by rewrite app_nil_r.
  - apply not_elem_of_cons in Hdq as [Hc Hdq]. rewrite decide_False by done.
    rewrite andb_false_r. rewrite IH by done. by rewrite <- app_assoc.
Qed.

(** The command line of why3cpulimit on Windows: the buffer has exactly the size
    of the text and its terminator, no [strcat] writes outside it, and the started
    program gets the command and the arguments back, provided that they contain no
    quote and do not end in a backslash. *)
Theorem cpuwin_cmdline_roundtrip cmd args :
  Forall (λ a, NUL ∈ a) (cmd :: args) → Forall plain_arg (cstr <$> cmd :: args) →
  Z.of_nat (length (quoted_text (cstr <$> cmd :: args))) < 32767 →
  ∃ s p p' line, cmd_size (cmd :: args) = Ok s ∧ arr_set (arr_new s) 0 NUL = Ok p ∧
    quote_args (cmd :: args) p = Ok p' ∧ str_at p' line ∧ Z.of_nat (length line) + 1 = s ∧
    ms_parse line = cstr <$> cmd :: args.
Proof.
  intros Hall Hplain Hlen. set (line := quoted_text (cstr <$> cmd :: args)) in *.
  set (s := Z.of_nat (length line) + 1).
  assert (cmd_size (cmd :: args) = Ok s) as Hs.
  { rewrite cmd_size_text by done. f_equal. apply uint_small. fold line. unfold UINT_MOD. lia. }
  assert (arr_len (arr_new s : arr ascii) = s) as Hnew by (apply arr_len_new; lia).
  assert (arr_set (arr_new s) 0 NUL = Ok (<[0%nat := Some NUL]> (arr_new s))) as Hp
    by (apply arr_set_ok; lia).
  destruct (quote_args_spec (cmd :: args) (<[0%nat := Some NUL]> (arr_new s)) []) as (p' & Hq & Hp').
  - split; [set_solver|]. unfold arr_new. replace (Z.to_nat s) with (S (length line)) by lia.
    cbn. by eexists.
  - done.
  - rewrite arr_len_insert, Hnew. fold line. cbn [length]. lia.
  - exists s, (<[0%nat := Some NUL]> (arr_new s)), p', line. split_and!; try done.
    unfold ms_parse, line. cbn [fmap list_fmap quoted_text app] in Hplain |- *.
    apply Forall_cons in Hplain as [Hcmd Hplain].
    cbn [ms_program]. rewrite decide_True by done. cbn [negb].
    destruct args as [|a args]; cbn [app].
    + rewrite ms_program_quoted by apply Hcmd. done.
    + rewrite ms_program_quoted by apply Hcmd.
      change (match cstr <$> a :: args with [] => [] | _ => [SP] end) with [SP]. cbn [app].
      rewrite ms_program_blank. f_equal.
      by apply ms_args_quoted_text.
Qed.

Lemma cpuwin_cmdline_roundtrip_witness :
  ∃ s p p' line, cmd_size [clit "cvc4"; clit "a b"; clit ""] = Ok s ∧
    arr_set (arr_new s) 0 NUL = Ok p ∧
    quote_args [clit "cvc4"; clit "a b"; clit ""] p = Ok p' ∧ str_at p' line ∧
    Z.of_nat (length line) + 1 = s ∧ ms_parse line = cstr <$> [clit "cvc4"; clit "a b"; clit ""].
Proof.
  apply cpuwin_cmdline_roundtrip.
  - apply (bool_decide_unpack (Forall _ _)). vm_compute. exact I.
  - apply (bool_decide_unpack (Forall _ _)). vm_compute. exact I.
  - apply Z.ltb_lt. vm_compute. reflexivity.
Defined.

(** An argument that ends in a backslash merges with the one after it. *)
Example trailing_backslash_merges :
  ms_parse (quoted_text [["c"%char]; ["d"%char; BS]; ["e"%char]])
  = [["c"%char]; ["d"%char; DQ; SP; "e"%char]].
Proof. vm_compute. reflexivity. Qed.

(** ** The life of the process *)

Lemma strtol32_range b v r : strtol32 b = Ok (v, r) → INT_MIN ≤ v ≤ INT_MAX.
Proof.
  unfold strtol32. intros ([u r'] & _ & Hv)%bind_Ok. unfold INT_MIN, INT_MAX in *.
  injection Hv as <- <-. lia.
Qed.

Lemma parse_argv_range argv t m a b :
  parse_argv argv = Ok (Some (t, m, a, b)) → INT_MIN ≤ t ≤ INT_MAX ∧ INT_MIN ≤ m ≤ INT_MAX.
Proof.
  unfold parse_argv. destruct (_ <? 5); [done|].
  intros (a1 & _ & ([t' r1] & Ht & H1)%bind_Ok)%bind_Ok.
  apply bind_Ok in H1 as (a2 & _ & ([m' r2] & Hm & H2)%bind_Ok).
  apply bind_Ok in H2 as (a3 & _ & (x & _ & (y & _ & H3)%bind_Ok)%bind_Ok).
  repeat case_match; simplify_eq. by eauto using strtol32_range.
Qed.

Section cpuwin_run.
Context {W : Type} `{JobOS W}.
Implicit Types s : jstate W.

(** The answers of an operating system on which every call succeeds: the handles
    of the job, the process and its main thread, the exit code and the times *)
Record job_succeeds (job process thread ex : Z) (t : proc_times) : Prop := {
  js_create : ∀ w, (jos JCreateJobObject w).1 = job;
  js_limits : ∀ j f a b w, (jos (JSetLimits j f a b) w).1 = true;
  js_spawn : ∀ c w, (jos (JCreateSuspended c) w).1 = Some (process, thread);
  js_assign : ∀ j q w, (jos (JAssign j q) w).1 = true;
  js_wait : ∀ q w, (jos (JWait q) w).1 = WAIT_OBJECT_0;
  js_exit : ∀ q w, (jos (JGetExitCode q) w).1 = Some ex;
  js_times : ∀ q w, (jos (JGetTimes q) w).1 = Some t;
  js_malloc : ∀ n w, (jos (JMalloc n) w).1 = true
}.

Lemma wp_jcall {A} (c : jsys A) a Q E s :
  (jos c (js_world s)).1 = a →
  (∀ w, Q a (mk_js (js_process s) (js_thread s) (js_job s) w (js_calls s ++ [JCall c]))) →
  wp (jcall_do c) Q E s.
Proof.
  intros Ha HQ. unfold wp, jcall_do. destruct (jos c (js_world s)) as [r w]. cbn in Ha. subst r.
  apply HQ.
Qed.

Lemma wp_jcall_any {A} (c : jsys A) Q E s :
  (∀ a w, Q a (mk_js (js_process s) (js_thread s) (js_job s) w (js_calls s ++ [JCall c]))) →
  wp (jcall_do c) Q E s.
Proof. intros HQ. by eapply wp_jcall. Qed.

(** The limits asked for: the time in units of 100 nanoseconds, the memory in bytes *)
Definition limit_calls (job t m : Z) : list jcall :=
  if negb (t =? 0) || negb (m =? 0) then
    [JCall (JSetLimits job
       (Z.lor (if t =? 0 then 0 else PROCESS_TIME) (if m =? 0 then 0 else PROCESS_MEMORY))
       (t * 10000000) (m * 1048576))]
  else [].

(** What is called from the creation of the process to the end *)
Definition process_calls (p : arr ascii) (job process thread : Z) (showtime : bool)
    (t : proc_times) : list jcall :=
  [JCall (JCreateSuspended p); JCall (JAssign job process); JCall (JResume thread);
   JCall (JWait process); JCall (JGetExitCode process)]
  ++ (if showtime then [JCall (JGetTimes process); JCall (JStdout (times_text t))] else [])
  ++ [JCall (JCloseHandle process); JCall (JCloseHandle thread); JCall (JCloseHandle job)].

Lemma wp_run_process job process thread ex t argv0 p showtime Q E s :
  job_succeeds job process thread ex t →
  (∀ s', js_calls s' = js_calls s ++ process_calls p job process thread showtime t →
     Q (cast_int ex) s') →
  wp (run_process argv0 p job showtime) Q E s.
Proof.
  intros Hos HQ. unfold run_process. apply wp_bind.
  eapply wp_jcall; [by eapply js_spawn|]. intros w1. apply wp_bind, wp_modify.
  apply wp_bind. eapply wp_jcall; [by eapply js_assign|]. intros w2. cbn [negb].
  apply wp_bind, wp_jcall_any. intros r3 w3.
  apply wp_bind. eapply wp_jcall; [by eapply js_wait|]. intros w4. cbn [Z.eqb WAIT_OBJECT_0].
  apply wp_bind, wp_ret. apply wp_bind. eapply wp_jcall; [by eapply js_exit|]. intros w5.
  apply wp_bind. cbn [js_process js_thread js_job js_world js_calls].
  assert (∀ s1, js_calls s1 = js_calls s ++ [JCall (JCreateSuspended p); JCall (JAssign job process);
      JCall (JResume thread); JCall (JWait process); JCall (JGetExitCode process)]
      ++ (if showtime then [JCall (JGetTimes process); JCall (JStdout (times_text t))] else []) →
    wp (_ ← jcall_do (JCloseHandle process);
        _ ← jcall_do (JCloseHandle thread);
        _ ← jcall_do (JCloseHandle job);
        mret (cast_int ex)) Q E s1) as Hend.
  { intros s1 H1. do 3 (apply wp_bind, wp_jcall_any; intros ? ?). apply wp_ret, HQ.
    cbn [js_calls]. rewrite H1. unfold process_calls. by rewrite <- !app_assoc. }
  destruct showtime.
  - unfold show_times. apply wp_bind. eapply wp_jcall; [by eapply js_times|]. intros w6.
    apply wp_jcall_any. intros r7 w7. apply Hend. cbn [js_calls]. by rewrite <- !app_assoc.
  - apply wp_ret, Hend. cbn [js_calls]. by rewrite <- !app_assoc.
Qed.

Lemma wp_set_limits job process thread ex tm t m Q E s :
  job_succeeds job process thread ex tm → 0 ≤ t ≤ INT_MAX → 0 ≤ m ≤ INT_MAX →
  (∀ s', js_calls s' = js_calls s ++ limit_calls job t m → Q None s') →
  wp (set_limits job t m) Q E s.
Proof.
  intros Hos Ht Hm HQ. unfold set_limits, limit_calls in *. unfold INT_MAX in *.
  destruct (_ || _).
  - apply wp_bind. eapply wp_jcall; [by eapply js_limits|]. intros w. cbn [negb].
    apply wp_ret, HQ. cbn [js_calls]. do 3 f_equal.
    rewrite !size_t_small; rewrite ?size_t_small; unfold SIZE_MOD; try lia.
    f_equal; zbool; lia.
  - apply wp_ret, HQ. by rewrite app_nil_r.
Qed.

(** C37: when the system calls succeed, why3cpulimit sets exactly the limits asked for
    on the job, creates the process suspended, puts it into the job before it lets
    it run, waits for it, prints the times if asked to, closes its three handles
    and returns the exit code of the process. *)
Theorem cpuwin_runs_in_job job process thread ex tm argv0 a1 a2 a3 cmd args t m showtime s :
  let argv := argv0 :: a1 :: a2 :: a3 :: cmd :: args in
  job_succeeds job process thread ex tm → job ≠ 0 →
  Forall (λ a, NUL ∈ a) argv → parse_argv argv = Ok (Some (t, m, showtime, negb showtime)) →
  0 ≤ t → 0 ≤ m → Z.of_nat (length (quoted_text (cstr <$> cmd :: args))) < 32767 →
  ∃ p s', cpulimit_win_main argv s = Ok (cast_int ex, s') ∧
    str_at p (quoted_text (cstr <$> cmd :: args)) ∧
    js_calls s' = js_calls s ++ [JCall JCreateJobObject; JCall JSetConsoleCtrlHandler;
        JCall (JMalloc (Z.of_nat (length (quoted_text (cstr <$> cmd :: args))) + 1))]
      ++ limit_calls job t m ++ process_calls p job process thread showtime tm.
Proof.
  intros argv Hos Hjob Hall Hparse Ht Hm Hlen. set (line := quoted_text (cstr <$> cmd :: args)) in *.
  assert (Forall (λ a, NUL ∈ a) (cmd :: args)) as Hall'.
  { pose proof Hall as Ha. unfold argv in Ha. rewrite !Forall_cons in Ha. rewrite Forall_cons. tauto. }
  assert (t ≤ INT_MAX ∧ m ≤ INT_MAX) as [Htm Hmm].
  { apply parse_argv_range in Hparse. lia. }
  set (n := Z.of_nat (length line) + 1) in *.
  assert (cmd_size (cmd :: args) = Ok n) as Hs.
  { rewrite cmd_size_text by done. f_equal. apply uint_small. fold line. unfold UINT_MOD. lia. }
  assert (arr_len (arr_new n : arr ascii) = n) as Hnew by (apply arr_len_new; lia).
  destruct (quote_args_spec (cmd :: args) (<[0%nat := Some NUL]> (arr_new n)) []) as (p & Hq & Hp).
  { split; [set_solver|]. unfold arr_new. replace (Z.to_nat n) with (S (length line)) by lia.
    cbn. by eexists. }
  { done. }
  { rewrite arr_len_insert, Hnew. fold line. cbn [length]. lia. }
  assert (wp (cpulimit_win_main argv) (λ code s', code = cast_int ex ∧
    js_calls s' = js_calls s ++ [JCall JCreateJobObject; JCall JSetConsoleCtrlHandler; JCall (JMalloc n)]
      ++ limit_calls job t m ++ process_calls p job process thread showtime tm) (λ _, False) s) as Hwp.
  { unfold cpulimit_win_main. apply wp_bind. eapply wp_jcall; [by eapply js_create|]. intros w1.
    apply wp_bind, wp_modify. apply wp_bind. rewrite (proj2 (Z.eqb_neq job 0)) by done. apply wp_ret.
    apply wp_bind, wp_jcall_any. intros r2 w2.
    apply wp_bind. eapply wp_lift_ok; [done|]. apply wp_bind. eapply wp_lift_ok; [done|].
    apply wp_bind. eapply wp_lift_ok; [exact Hs|]. rewrite (proj2 (Z.ltb_ge 32767 n)) by lia.
    apply wp_bind. eapply wp_jcall; [by eapply js_malloc|]. intros w3. cbn [negb].
    apply wp_bind. eapply wp_lift_ok; [apply arr_set_ok; lia|].
    apply wp_bind. eapply wp_lift_ok; [exact Hq|].
    apply wp_bind. eapply wp_set_limits; [done|lia|lia|]. intros s4 H4.
    eapply wp_run_process; [done|]. intros s5 H5. split; [done|].
    rewrite H5, H4. cbn [js_calls]. by rewrite <- !app_assoc. }
  apply wp_Ok_inv in Hwp as (code & s' & Hrun & -> & Hcalls). by exists p, s'.
Qed.
End cpuwin_run.

(** ** An operating system on which every call succeeds *)
Definition toy_job {A} (c : jsys A) : unit → A * unit :=
  match c in jsys A return unit → A * unit with
  | JCreateJobObject => λ w, (10, w)
  | JSetConsoleCtrlHandler => λ w, (true, w)
  | JSetLimits _ _ _ _ => λ w, (true, w)
  | JCreateSuspended _ => λ w, (Some (11, 12), w)
  | JAssign _ _ => λ w, (true, w)
  | JResume _ => λ w, (1, w)
  | JWait _ => λ w, (WAIT_OBJECT_0, w)
  | JGetExitCode _ => λ w, (Some 3, w)
  | JGetTimes _ => λ w, (Some (mk_times 100 20000100 2500000 12500000), w)
  | JTerminate _ _ => λ w, (true, w)
  | JCloseHandle _ => λ w, (true, w)
  | JMalloc _ => λ w, (true, w)
  | JErrorReport _ => λ w, (tt, w)
  | JStdout _ => λ w, (tt, w)
  | JStderr _ => λ w, (tt, w)
  end.
#[local] Instance toy_job_os : JobOS unit := {| jos := λ A, toy_job |}.

Lemma cpuwin_runs_in_job_witness :
  ∃ p s', cpulimit_win_main [clit "cpulimit"; clit "10"; clit "0"; clit "-h"; clit "cvc4"; clit "x y"]
      (mk_js 0 0 0 tt []) = Ok (3, s') ∧
    str_at p (quoted_text (cstr <$> [clit "cvc4"; clit "x y"])) ∧
    js_calls s' = [JCall JCreateJobObject; JCall JSetConsoleCtrlHandler; JCall (JMalloc 13)]
      ++ [JCall (JSetLimits 10 2 100000000 0)]
      ++ process_calls p 10 11 12 false (mk_times 100 20000100 2500000 12500000).
Proof.
  apply (cpuwin_runs_in_job 10 11 12 3 (mk_times 100 20000100 2500000 12500000)
    (clit "cpulimit") (clit "10") (clit "0") (clit "-h") (clit "cvc4") [clit "x y"] 10 0 false
    (mk_js 0 0 0 tt [])).
  - by split.
  - done.
  - apply (bool_decide_unpack (Forall _ _)). vm_compute. exact I.
  - vm_compute. reflexivity.
  - lia.
  - lia.
  - apply Z.ltb_lt. vm_compute. reflexivity.
Defined.
