(* ===== verification/UInt64.v ===== *)
(** * Double-word arithmetic on 64-bit words
    (examples/multiprecision/overlays/uint64gmp.h)

    The primitives on which the extracted multiprecision library is compiled when
    no assembly is available: full product, division of two words by one, sums and
    differences with carries, double-word shift.  Words are integers below
    [2^64]; the wrap-around of [uint64_t] is written out with [size_t]. *)

From S2P Require Import Prelude.

(** The base of words, and of half words *)
Definition WB : Z := 18446744073709551616.
Definition ll_B : Z := Z.shiftl 1 32.
Definition ll_lowpart (t : Z) : Z := Z.land t (ll_B - 1).
Definition ll_highpart (t : Z) : Z := Z.shiftr t 32.

(** [uint64_t] and [uint32_t] *)
Definition u64 (z : Z) : Z := z mod WB.
Definition u32 (z : Z) : Z := z mod 4294967296.

(** The macro [umul_ppmm]: high and low word of [u * v] *)
Definition umul_ppmm (u v : Z) : Z * Z :=
  let ul := u32 (ll_lowpart u) in
  let uh := u32 (ll_highpart u) in
  let vl := u32 (ll_lowpart v) in
  let vh := u32 (ll_highpart v) in
  let x0 := u64 (ul * vl) in
  let x1 := u64 (ul * vh) in
  let x2 := u64 (uh * vl) in
  let x3 := u64 (uh * vh) in
  let x1 := u64 (x1 + ll_highpart x0) in
  let x1 := u64 (x1 + x2) in
  let x3 := if x1 <? x2 then u64 (x3 + ll_B) else x3 in
  (u64 (x3 + ll_highpart x1), u64 (u64 (Z.shiftl x1 32) + ll_lowpart x0)).

(** The macro divides twice a word and a half by a word, with the same code; one
    such step: [n1] and the half word [h], divided by [d]. *)
Definition qrnnd_half (n1 h d : Z) : Z * Z :=
  let d1 := ll_highpart d in
  let d0 := ll_lowpart d in
  let q := n1 / d1 in
  let r := u64 (n1 - u64 (q * d1)) in
  let m := u64 (q * d0) in
  let r := Z.lor (u64 (r * ll_B)) h in
  let '(q, r) :=
    if r <? m then
      let q := u64 (q - 1) in
      let r := u64 (r + d) in
      if d <=? r then
        if r <? m then (u64 (q - 1), u64 (r + d)) else (q, r)
      else (q, r)
    else (q, r) in
  (q, u64 (r - m)).

(** The macro [__udiv_qrnnd_c] *)
Definition udiv_qrnnd_c (n1 n0 d : Z) : outcome (Z * Z) :=
  if ll_highpart d =? 0 then Err DivisionByZero
  else
    let '(q1, r1) := qrnnd_half n1 (ll_highpart n0) d in
    let '(q0, r0) := qrnnd_half r1 (ll_lowpart n0) d in
    Ok (Z.lor (u64 (q1 * ll_B)) q0, r0).

(** [struct __..._result]: [__field_0] and [__field_1] *)
Record double_result := mk_result {
  field_0 : Z;
  field_1 : Z
}.

Definition mul64_double (x y : Z) : double_result :=
  let '(h, l) := umul_ppmm x y in mk_result l h.

Definition div64_2by1 (ul uh d : Z) : outcome Z :=
  '(q, r) ← udiv_qrnnd_c uh ul d; Ok q.

Definition add64_with_carry (x y c : Z) : double_result :=
  let r := u64 (u64 (x + y) + c) in
  mk_result r (if r =? x then c else if r <? x then 1 else 0).

Definition sub64_with_borrow (x y b : Z) : double_result :=
  let r := u64 (u64 (x - y) - b) in
  mk_result r (if x <? r then 1 else if r =? x then b else 0).

Definition add64_3 (x y z : Z) : double_result :=
  let r := u64 (x + y) in
  let c1 := if r <? y then 1 else 0 in
  let r := u64 (r + z) in
  let c2 := if r <? z then 1 else 0 in
  mk_result r (u64 (c1 + c2)).

(** A shift by 64 or more is undefined. *)
Definition lsld64 (x cnt : Z) : outcome double_result :=
  if (0 <? cnt) && (cnt <? 64)
  then Ok (mk_result (u64 (Z.shiftl x cnt)) (Z.shiftr x (64 - cnt)))
  else Err SignedOverflow.

(** ** Words *)

Abbreviation is_word z := (0 ≤ z < WB).

Lemma u64_small z : is_word z → u64 z = z.
Proof. apply Z.mod_small. Qed.

Lemma u64_word z : is_word (u64 z).
Proof. apply Z.mod_pos_bound. unfold WB. lia. Qed.

(** One wrap-around *)
Lemma u64_sub z : WB ≤ z < 2 * WB → u64 z = z - WB.
Proof. intros. symmetry. apply Z.mod_unique with 1; unfold WB in *; lia. Qed.
Lemma u64_add z : - WB ≤ z < 0 → u64 z = z + WB.
Proof. intros. symmetry. apply Z.mod_unique with (-1); unfold WB in *; lia. Qed.

Lemma ll_B_val : ll_B = 4294967296.
Proof. reflexivity. Qed.

Lemma lowpart_mod t : ll_lowpart t = t mod ll_B.
Proof. unfold ll_lowpart. change (ll_B - 1) with (Z.ones 32). by rewrite Z.land_ones. Qed.

Lemma highpart_div t : ll_highpart t = t / ll_B.
Proof. unfold ll_highpart. by rewrite Z.shiftr_div_pow2. Qed.

(** The two halves of a word *)
Lemma halves t : is_word t →
  t = ll_highpart t * ll_B + ll_lowpart t ∧ 0 ≤ ll_highpart t < ll_B ∧ 0 ≤ ll_lowpart t < ll_B.
Proof.
  intros Ht. rewrite lowpart_mod, highpart_div, ll_B_val. unfold WB in *.
  pose proof (Z.div_mod t 4294967296 ltac:(lia)).
  pose proof (Z.mod_pos_bound t 4294967296 ltac:(lia)).
  assert (0 ≤ t / 4294967296 < 4294967296) by (split; [apply Z.div_pos|apply Z.div_lt_upper_bound]; lia).
  lia.
Qed.

(** Disjoint bits add up. *)
Lemma lor_add k a h : 0 ≤ k → 0 ≤ h < 2 ^ k → Z.lor (a * 2 ^ k) h = a * 2 ^ k + h.
Proof.
  intros Hk Hh.
  assert (Z.land (a * 2 ^ k) h = 0) as Hd.
  { apply Z.bits_inj'. intros n Hn. rewrite Z.land_spec, Z.bits_0.
    destruct (Z.lt_ge_cases n k).
    - by rewrite Z.mul_pow2_bits_low.
    - rewrite <- (Z.mod_small h (2 ^ k)) by done.
      rewrite Z.mod_pow2_bits_high by lia. apply andb_false_r. }
  rewrite (Z.add_nocarry_lxor _ _ Hd). symmetry. by apply Z.lxor_lor.
Qed.

Ltac u64_crush := unfold WB in *; rewrite ?ll_B_val in *.

(** [umul_ppmm] computes the full product of two words. *)
Lemma umul_ppmm_spec u v h l :
  is_word u → is_word v → umul_ppmm u v = (h, l) → h * WB + l = u * v ∧ is_word h ∧ is_word l.
Proof.
  intros Hu Hv. destruct (halves u Hu) as (Eu & Huh & Hul). destruct (halves v Hv) as (Ev & Hvh & Hvl).
  unfold umul_ppmm. set (uh := ll_highpart u) in *. set (ul := ll_lowpart u) in *.
  set (vh := ll_highpart v) in *. set (vl := ll_lowpart v) in *. clearbody uh ul vh vl.
  assert (∀ z, 0 ≤ z < ll_B → u32 z = z) as H32 by (intros; by apply Z.mod_small).
  rewrite !H32 by done. rewrite ll_B_val in *.
  assert (∀ a b, 0 ≤ a < 4294967296 → 0 ≤ b < 4294967296 → 0 ≤ a * b ≤ 18446744065119617025) as Hp by nia.
  pose proof (Hp ul vl Hul Hvl). pose proof (Hp ul vh Hul Hvh).
  pose proof (Hp uh vl Huh Hvl). pose proof (Hp uh vh Huh Hvh).
  assert (u * v = uh * vh * WB + (ul * vh + uh * vl) * 4294967296 + ul * vl) as Euv
    by (rewrite Eu, Ev; unfold WB; ring).
  assert (u * v < WB * WB) as Hmax by (apply Z.mul_lt_mono_nonneg; lia). rewrite Euv in *. clear Euv.
  set (p0 := ul * vl) in *. set (p1 := ul * vh) in *. set (p2 := uh * vl) in *. set (p3 := uh * vh) in *.
  clearbody p0 p1 p2 p3. clear Hp.
  rewrite (u64_small p0), (u64_small p1), (u64_small p2), (u64_small p3) by (unfold WB; lia).
  destruct (halves p0) as (E0 & H0h & H0l); [unfold WB; lia|]. rewrite ll_B_val in *.
  set (a := ll_highpart p0) in *. set (b := ll_lowpart p0) in *. clearbody a b.
  rewrite (u64_small (p1 + a)) by (unfold WB; lia).
  assert (∀ x1 x3, is_word x1 → 0 ≤ x3 ≤ 18446744069414584321 →
    x3 * WB + x1 * 4294967296 + b = p3 * WB + (p1 + p2) * 4294967296 + p0 →
    (u64 (x3 + ll_highpart x1), u64 (u64 (Z.shiftl x1 32) + b)) = (h, l) →
    h * WB + l = p3 * WB + (p1 + p2) * 4294967296 + p0 ∧ is_word h ∧ is_word l) as Hend.
  { intros x1 x3 Hx1 Hx3 Heq [= <- <-]. destruct (halves x1 Hx1) as (E1 & H1h & H1l). rewrite ll_B_val in *.
    rewrite (u64_small (x3 + _)) by (unfold WB in *; lia).
    assert (u64 (Z.shiftl x1 32) = ll_lowpart x1 * 4294967296) as ->.
    { rewrite Z.shiftl_mul_pow2 by lia. change (2 ^ 32) with 4294967296. unfold u64. symmetry.
      apply Z.mod_unique with (ll_highpart x1); unfold WB; lia. }
    rewrite u64_small by (unfold WB; lia). unfold WB in *. lia. }
  destruct (Z.lt_ge_cases (p1 + a + p2) WB) as [Hlt|Hge].
  - rewrite (u64_small (p1 + a + p2)) by lia. rewrite (proj2 (Z.ltb_ge _ _)) by lia.
    apply Hend; unfold WB in *; lia.
  - rewrite (u64_sub (p1 + a + p2)) by (unfold WB in *; lia).
    rewrite (proj2 (Z.ltb_lt _ _)) by (unfold WB in *; lia).
    rewrite (u64_small (p3 + _)) by (unfold WB; lia). apply Hend; unfold WB in *; lia.
Qed.

(** [mul64_double] returns the full product of two words. *)
Theorem mul64_double_correct x y :
  is_word x → is_word y →
  field_1 (mul64_double x y) * WB + field_0 (mul64_double x y) = x * y ∧
  is_word (field_0 (mul64_double x y)) ∧ is_word (field_1 (mul64_double x y)).
Proof.
  intros Hx Hy. unfold mul64_double. destruct (umul_ppmm x y) as [h l] eqn:E. cbn [field_0 field_1].
  destruct (umul_ppmm_spec x y h l Hx Hy E) as (? & ? & ?). done.
Qed.

Lemma mul64_double_correct_witness :
  field_1 (mul64_double 18446744073709551615 18446744073709551614) * WB
  + field_0 (mul64_double 18446744073709551615 18446744073709551614)
  = 18446744073709551615 * 18446744073709551614.
Proof. apply (mul64_double_correct 18446744073709551615 18446744073709551614); unfold WB; lia. Defined.

(** One half step: quotient digit and remainder, for a normalised divisor *)
Lemma qrnnd_half_correct n1 h d q r :
  9223372036854775808 ≤ d < WB → 0 ≤ n1 < d → 0 ≤ h < ll_B → qrnnd_half n1 h d = (q, r) →
  q * d + r = n1 * ll_B + h ∧ 0 ≤ r < d ∧ 0 ≤ q < ll_B.
Proof.
  intros Hd Hn Hh. destruct (halves d) as (Ed & Hd1 & Hd0); [lia|].
  unfold qrnnd_half. set (d1 := ll_highpart d) in *. set (d0 := ll_lowpart d) in *.
  clearbody d1 d0. rewrite ll_B_val in *. unfold WB in *.
  assert (2147483648 ≤ d1) as Hd1' by lia.
  set (q1 := n1 / d1). pose proof (Z.div_mod n1 d1 ltac:(lia)) as Hq.
  pose proof (Z.mod_pos_bound n1 d1 ltac:(lia)) as Hr. fold q1 in Hq.
  assert (0 ≤ q1 ≤ 4294967297) as Hq1.
  { split; [apply Z.div_pos; lia|]. apply Z.lt_succ_r. apply Z.div_lt_upper_bound; lia. }
  set (r1 := n1 mod d1) in *. clearbody q1 r1.
  assert (0 ≤ q1 * d0 ≤ 18446744073709551615) as Hm.
  { split; [lia|]. transitivity (4294967297 * 4294967295); [apply Z.mul_le_mono_nonneg|]; lia. }
  rewrite (u64_small (q1 * d1)) by (unfold WB; lia). replace (n1 - q1 * d1) with r1 by lia.
  rewrite (u64_small r1), (u64_small (q1 * d0)), (u64_small (r1 * 4294967296)) by (unfold WB; lia).
  replace (Z.lor (r1 * 4294967296) h) with (r1 * 4294967296 + h)
    by (symmetry; apply (lor_add 32); lia). set (m := q1 * d0) in *. set (n := r1 * 4294967296 + h) in *.
  assert (n1 * 4294967296 + h = q1 * d + (n - m)) as Hid
    by (unfold n, m; rewrite Hq at 1; rewrite Ed; ring).
  assert (0 ≤ n < d) as Hnd by (unfold n; lia).
  assert (∀ q r, q * d + r = n1 * 4294967296 + h → 0 ≤ r < d → 0 ≤ q < 4294967296) as Hdigit.
  { intros q' r' He Hr'. assert (q' = (n1 * 4294967296 + h) / d) as -> by (apply Z.div_unique with r'; lia).
    split; [apply Z.div_pos; lia|apply Z.div_lt_upper_bound; lia]. }
  clearbody m n. clear Hq Hr r1 Hh.
  assert (∀ q' r', q' * d + r' = n1 * 4294967296 + h → 0 ≤ r' < d → u64 (q') = q' ∧ 0 ≤ q' < 4294967296) as Hfin.
  { intros q' r' He Hr'. pose proof (Hdigit q' r' He Hr'). split; [apply u64_small; unfold WB; lia|done]. }
  destruct (Z.ltb_spec n m) as [Hlt|Hge].
  2:{ rewrite u64_small by (unfold WB; lia). intros [= <- <-].
      destruct (Hfin q1 (n - m)) as [_ ?]; lia. }
  destruct (Z.lt_ge_cases (n + d) 18446744073709551616) as [Hnw|Hw].
  - rewrite (u64_small (n + d)) by (unfold WB; lia). rewrite (proj2 (Z.leb_le _ _)) by lia.
    destruct (Z.ltb_spec (n + d) m) as [Hlt2|Hge2].
    + destruct (Hfin (q1 - 2) (n + 2 * d - m)) as [Hu Hq']; [lia..|].
      assert (u64 (u64 (q1 - 1) - 1) = q1 - 2) as ->.
      { rewrite (u64_small (q1 - 1)) by (unfold WB; lia).
        replace (q1 - 1 - 1) with (q1 - 2) by lia. exact Hu. }
      assert (u64 (u64 (n + d + d) - m) = n + 2 * d - m) as ->.
      { destruct (Z.lt_ge_cases (n + d + d) 18446744073709551616).
        - rewrite (u64_small (n + d + d)) by (unfold WB; lia). rewrite u64_small by (unfold WB; lia). lia.
        - rewrite (u64_sub (n + d + d)) by (unfold WB; lia). rewrite u64_add by (unfold WB; lia).
          unfold WB. lia. }
      intros [= <- <-]. lia.
    + destruct (Hfin (q1 - 1) (n + d - m)) as [Hu Hq']; [lia..|]. rewrite Hu.
      rewrite u64_small by (unfold WB; lia). intros [= <- <-]. lia.
  - rewrite (u64_sub (n + d)) by (unfold WB; lia). rewrite (proj2 (Z.leb_gt _ _)) by (unfold WB; lia).
    destruct (Hfin (q1 - 1) (n + d - m)) as [Hu Hq']; [lia..|]. rewrite Hu.
    rewrite u64_add by (unfold WB; lia). intros [= <- <-]. unfold WB. lia.
Qed.

(** [__udiv_qrnnd_c] divides two words by one: for a divisor with its top bit
    set, and a high word below it, the result is quotient and remainder. *)
Lemma udiv_qrnnd_c_spec n1 n0 d :
  9223372036854775808 ≤ d < WB → 0 ≤ n1 < d → is_word n0 →
  ∃ q r, udiv_qrnnd_c n1 n0 d = Ok (q, r) ∧ q = (n1 * WB + n0) / d ∧ r = (n1 * WB + n0) mod d ∧
    is_word q.
Proof.
  intros Hd Hn1 Hn0. destruct (halves d) as (Ed & Hd1 & Hd0); [lia|].
  destruct (halves n0 Hn0) as (En & Hnh & Hnl). unfold udiv_qrnnd_c.
  rewrite ll_B_val in Ed, Hd1, Hd0. unfold WB in Hd.
  rewrite (proj2 (Z.eqb_neq _ _)) by lia.
  destruct (qrnnd_half n1 (ll_highpart n0) d) as [q1 r1] eqn:E1.
  destruct (qrnnd_half_correct _ _ _ _ _ Hd Hn1 Hnh E1) as (H1 & Hr1 & Hq1).
  destruct (qrnnd_half r1 (ll_lowpart n0) d) as [q0 r0] eqn:E0.
  destruct (qrnnd_half_correct _ _ _ _ _ Hd Hr1 Hnl E0) as (H0 & Hr0 & Hq0).
  rewrite ll_B_val in *. rewrite (u64_small (q1 * 4294967296)) by (unfold WB; lia).
  change 4294967296 with (2 ^ 32) at 1. rewrite lor_add by (change (2 ^ 32) with 4294967296; lia).
  change (2 ^ 32) with 4294967296.
  exists (q1 * 4294967296 + q0), r0. split; [done|].
  assert (n1 * WB + n0 = d * (q1 * 4294967296 + q0) + r0) as Heq by (unfold WB; lia).
  split; [by apply Z.div_unique with r0; [lia|]|].
  split; [by apply Z.mod_unique with (q1 * 4294967296 + q0); [lia|]|unfold WB; lia].
Qed.

(** [div64_2by1] divides two words by one: for a divisor with its top bit set
    and a high word below it, the result is the quotient. *)
Theorem div64_2by1_correct ul uh d :
  9223372036854775808 ≤ d < WB → 0 ≤ uh < d → is_word ul →
  div64_2by1 ul uh d = Ok ((uh * WB + ul) / d).
Proof.
  intros Hd Hu Hl. destruct (udiv_qrnnd_c_spec uh ul d Hd Hu Hl) as (q & r & E & -> & _).
  unfold div64_2by1. by rewrite E.
Qed.

Lemma div64_2by1_correct_witness :
  div64_2by1 77 12297829382473034411 12297829382473034412
  = Ok ((12297829382473034411 * WB + 77) / 12297829382473034412).
Proof. apply div64_2by1_correct; unfold WB; lia. Defined.

Ltac words := unfold WB in *; lia.

(** The sums and differences with carry are exact: the carry and the word
    together are the mathematical result. *)
Theorem carries_exact x y z c :
  is_word x → is_word y → is_word z → 0 ≤ c ≤ 1 →
  field_1 (add64_with_carry x y c) * WB + field_0 (add64_with_carry x y c) = x + y + c ∧
  field_0 (sub64_with_borrow x y c) - field_1 (sub64_with_borrow x y c) * WB = x - y - c ∧
  field_1 (add64_3 x y z) * WB + field_0 (add64_3 x y z) = x + y + z ∧
  (∀ cnt, 0 < cnt < 64 → ∃ r, lsld64 x cnt = Ok r ∧ field_1 r * WB + field_0 r = x * 2 ^ cnt).
Proof.
  intros Hx Hy Hz Hc. split_and!.
  - unfold add64_with_carry. cbn [field_0 field_1].
    assert (u64 (u64 (x + y) + c) = u64 (x + y + c)) as -> by (unfold u64; by rewrite Zplus_mod_idemp_l).
    destruct (Z.lt_ge_cases (x + y + c) WB).
    + rewrite u64_small by words. zbool; words.
    + rewrite u64_sub by words. zbool; words.
  - unfold sub64_with_borrow. cbn [field_0 field_1].
    assert (u64 (u64 (x - y) - c) = u64 (x - y - c)) as -> by (unfold u64; by rewrite Zminus_mod_idemp_l).
    destruct (Z.lt_ge_cases (x - y - c) 0).
    + rewrite u64_add by words. zbool; words.
    + rewrite u64_small by words. zbool; words.
  - unfold add64_3. cbn [field_0 field_1].
    destruct (Z.lt_ge_cases (x + y) WB).
    + rewrite (u64_small (x + y)) by words. rewrite (proj2 (Z.ltb_ge _ _)) by words.
      destruct (Z.lt_ge_cases (x + y + z) WB).
      * rewrite (u64_small (x + y + z)) by words. rewrite (proj2 (Z.ltb_ge _ _)) by words.
        rewrite u64_small by words. words.
      * rewrite (u64_sub (x + y + z)) by words. rewrite (proj2 (Z.ltb_lt _ _)) by words.
        rewrite u64_small by words. words.
    + rewrite (u64_sub (x + y)) by words. rewrite (proj2 (Z.ltb_lt _ _)) by words.
      destruct (Z.lt_ge_cases (x + y - WB + z) WB).
      * rewrite (u64_small (x + y - WB + z)) by words. rewrite (proj2 (Z.ltb_ge _ _)) by words.
        rewrite u64_small by words. words.
      * rewrite (u64_sub (x + y - WB + z)) by words. rewrite (proj2 (Z.ltb_lt _ _)) by words.
        rewrite u64_small by words. words.
  - intros cnt Hcnt. unfold lsld64.
    rewrite (proj2 (Z.ltb_lt 0 cnt)), (proj2 (Z.ltb_lt cnt 64)) by lia. cbn [andb].
    eexists. split; [done|]. cbn [field_0 field_1].
    rewrite Z.shiftl_mul_pow2, Z.shiftr_div_pow2 by lia. unfold u64.
    rewrite (Z.div_mod (x * 2 ^ cnt) WB) at 2 by words. f_equal. rewrite Z.mul_comm. f_equal.
    assert (WB = 2 ^ cnt * 2 ^ (64 - cnt)) as ->.
    { rewrite <- Z.pow_add_r by lia. replace (cnt + (64 - cnt)) with 64 by lia. done. }
    rewrite (Z.mul_comm x). rewrite Z.div_mul_cancel_l; [done|apply Z.pow_nonzero; lia..].
Qed.

Lemma carries_exact_witness :
  field_1 (add64_with_carry 18446744073709551615 18446744073709551615 1) * WB
  + field_0 (add64_with_carry 18446744073709551615 18446744073709551615 1)
  = 18446744073709551615 + 18446744073709551615 + 1.
Proof. apply (carries_exact 18446744073709551615 18446744073709551615 0 1); words. Defined.
