(* ===== verification/Primes.v ===== *)
(** * Prime numbers

    What the primality test relies on: powers modulo a prime and the square roots of 1, and
    a test by trial division that the kernel can run. *)

From Stdlib Require Import ZmodInv.
From S2P Require Import Prelude.

Lemma not_divide_small p k : 0 < k < p → ¬ (p | k).
Proof. intros Hk Hd%Z.divide_pos_le; lia. Qed.

Lemma mod_one p a : 1 < p → (p | a - 1) ↔ a mod p = 1.
Proof.
  intros Hp. split; intros H.
  - destruct H as [c Hc]. replace a with (1 + c * p) by lia. rewrite Z.mod_add by lia. apply Z.mod_small. lia.
  - exists (a / p). pose proof (Z.div_mod a p ltac:(lia)). lia.
Qed.

(** ** The square roots of 1 *)

Lemma square_root_one p y : Z.prime p → 0 ≤ y < p → y ^ 2 mod p = 1 → y = 1 ∨ y = p - 1.
Proof.
  intros Hp Hy Hsq. pose proof (Z.prime_ge_2 p Hp). apply mod_one in Hsq; [|lia]. replace (y ^ 2 - 1) with ((y - 1) * (y + 1)) in Hsq by ring.
  apply Z.divide_prime_mul in Hsq as [Hd|Hd]; [| |done].
  - left. destruct (Z.eq_dec y 1) as [|Hne]; [done|]. exfalso. destruct (Z.eq_dec y 0) as [->|]; [|by apply (not_divide_small p (y - 1)); [lia|]].
    apply (not_divide_small p 1); [lia|]. replace 1 with (- (0 - 1)) by done. by apply Z.divide_opp_r.
  - right. destruct (Z.eq_dec y (p - 1)) as [|Hne]; [done|]. exfalso. by apply (not_divide_small p (y + 1)); [lia|].
Qed.

(** The squarings of the test: [y], then [k] squares that follow *)
Fixpoint strong_pass (k : nat) (y p : Z) : bool :=
  match k with
  | O => false
  | S k => let y := y ^ 2 mod p in if y =? p - 1 then true else if y <=? 1 then false else strong_pass k y p
  end.

(** They end with -1 among the squares. *)
Lemma strong_pass_spec p k : ∀ y, 2 < p → 0 ≤ y < p → strong_pass k y p = true ↔ ∃ i : nat, (1 ≤ i ≤ k)%nat ∧ y ^ (2 ^ Z.of_nat i) mod p = p - 1.
Proof.
  induction k as [|k IH]; intros y Hp Hy; cbn [strong_pass]; [split; [done|]; intros (i & Hi & _); lia|].
  set (y' := y ^ 2 mod p). pose proof (Z.mod_pos_bound (y ^ 2) p ltac:(lia)) as Hy'. fold y' in Hy'.
  assert (∀ i, y ^ (2 ^ Z.of_nat (S i)) mod p = y' ^ (2 ^ Z.of_nat i) mod p) as Hnext.
  { intros i. unfold y'. rewrite Z.mod_pow_l, <- Z.pow_mul_r, <- Z.pow_succ_r, <- Nat2Z.inj_succ by lia. done. }
  destruct (Z.eqb_spec y' (p - 1)) as [Hm|Hm]; [split; [intros _; exists 1%nat; split; [lia|exact Hm]|done]|]. assert (∀ Q : nat → Prop, Q 1%nat → (∀ i, (1 ≤ i)%nat → Q (S i)) → ∀ i, (1 ≤ i)%nat → Q i) as Hcase.
  { intros Q H1 HS [|[|i]] Hi; [lia|done|]. apply HS. lia. }
  destruct (Z.leb_spec y' 1) as [Hle|Hgt].
  - split; [done|]. intros (i & Hi & Hpow). exfalso. revert Hpow. apply (Hcase (λ i, y ^ (2 ^ Z.of_nat i) mod p = p - 1 → False)); [done| |lia]. intros j Hj. rewrite Hnext.
    pose proof (Z.pow_pos_nonneg 2 (Z.of_nat j) ltac:(lia) ltac:(lia)). destruct (Z.eq_dec y' 0) as [->|]; [rewrite Z.pow_0_l, Z.mod_0_l by lia; lia|].
    replace y' with 1 by lia. rewrite Z.pow_1_l, Z.mod_small by lia. lia.
  - rewrite IH by lia. split; intros (i & Hi & Hpow).
    + exists (S i). split; [lia|]. by rewrite Hnext.
    + revert Hi Hpow. destruct i as [|[|i]]; [lia|done|]. intros Hi Hpow. exists (S i). split; [lia|]. by rewrite <- Hnext.
Qed.

(** The strong test for base [a], where [p - 1 = q * 2 ^ k] with [q] odd *)
Definition strong_probable_prime (p q k a : Z) : Prop := a ^ q mod p = 1 ∨ ∃ i, 0 ≤ i < k ∧ a ^ (q * 2 ^ i) mod p = p - 1.

Definition strong_test (p q k a : Z) : bool := let y := a ^ q mod p in (y =? 1) || (y =? p - 1) || strong_pass (Z.to_nat (k - 1)) y p.

Lemma strong_test_spec p q k a : 2 < p → 0 ≤ q → 0 < k → strong_test p q k a = true ↔ strong_probable_prime p q k a.
Proof.
  intros Hp Hq Hk. unfold strong_test, strong_probable_prime. pose proof (Z.mod_pos_bound (a ^ q) p ltac:(lia)) as Hy. rewrite !orb_true_iff, !Z.eqb_eq, strong_pass_spec by done.
  assert (∀ i, 0 ≤ i → (a ^ q mod p) ^ (2 ^ i) mod p = a ^ (q * 2 ^ i) mod p) as Hpow by (intros i Hi; rewrite Z.mod_pow_l, <- Z.pow_mul_r by lia; done).
  split.
  - intros [[H1|Hm]|(i & Hi & H)]; [by left|right..].
    + exists 0. split; [lia|]. by rewrite Z.mul_1_r.
    + exists (Z.of_nat i). split; [lia|]. by rewrite <- Hpow by lia.
  - intros [H1|(i & Hi & H)]; [by left; left|]. destruct (Z.eq_dec i 0) as [->|]; [left; right; by rewrite Z.mul_1_r in H|]. right. exists (Z.to_nat i). split; [lia|].
    by rewrite Z2Nat.id, Hpow by lia.
Qed.

(** A prime passes the test for every base it does not divide: the squares reach 1, and what
    comes before the first 1 is -1. *)
Lemma strong_test_prime p q k a : Z.prime p → 0 < a < p → p - 1 = q * 2 ^ k → 0 ≤ q → 0 ≤ k → strong_probable_prime p q k a.
Proof.
  intros Hp Ha Hq Hq0 Hk. pose proof (Z.prime_ge_2 p Hp) as Hp2. assert (a ^ (q * 2 ^ k) mod p = 1) as Hone by (rewrite <- Hq; apply Z.fermat_nz; [done|]; rewrite Z.mod_small; lia).
  clear Hq. revert Hone. pattern k. apply natlike_ind; [|clear k Hk|done].
  - rewrite Z.mul_1_r. by left.
  - intros k Hk IH. rewrite Z.pow_succ_r by done. replace (q * (2 * 2 ^ k)) with (q * 2 ^ k * 2) by ring. pose proof (Z.pow_pos_nonneg 2 k ltac:(lia) Hk) as Hpp. rewrite Z.pow_mul_r, <- Z.mod_pow_l by nia.
    intros [H1|Hm]%square_root_one; [| |done|apply Z.mod_pos_bound; lia].
    + destruct (IH H1) as [|(i & Hi & Hm)]; [by left|]. right. exists i. split; [lia|done].
    + right. exists k. split; [lia|done].
Qed.

(** ** Trial division *)

Definition is_prime (n : Z) : bool := (1 <? n) && forallb (λ d, negb (n mod d =? 0)) (seqZ 2 (n - 2)).

Lemma is_prime_spec n : is_prime n = true ↔ Z.prime n.
Proof.
  unfold is_prime, Z.prime. rewrite andb_true_iff, Z.ltb_lt, forallb_forall. split; intros [Hn H]; (split; [done|]).
  - intros d Hd Hdiv. assert (d ∈ seqZ 2 (n - 2)) as Hin by (apply elem_of_seqZ; lia). apply list_elem_of_In in Hin. specialize (H d Hin).
    apply Z.mod_divide in Hdiv; [|lia]. by rewrite Hdiv in H.
  - intros d Hin%list_elem_of_In%elem_of_seqZ. destruct (Z.eqb_spec (n mod d) 0) as [E|]; [|done]. exfalso. apply (H d); [lia|]. apply Z.mod_divide; [lia|done].
Qed.

