(* ===== verification/Double.v ===== *)
(** * Double precision numbers

    The [double]s of C are the binary64 numbers of the Standard Library's [SpecFloat], a
    specification of IEEE 754 arithmetic with rounding to nearest.  All finite doubles are
    integer multiples of the smallest one, [2 ^ -1074], so their values are compared as the
    integers [scaled].  The lemmas say when an operation does not round. *)

From Stdlib Require Import SpecFloat.
From S2P Require Import Prelude CString Queue State UInt64.

Abbreviation double := spec_float.
Definition valid (x : double) : Prop := valid_binary 53 1024 x = true.

(** The value of a double, in units of [2 ^ -1074] *)
Definition scale : Z := 2 ^ 1074.
Definition scaled (x : double) : Z :=
  match x with
  | S754_finite s m e => (if s then Z.opp else id) (Zpos m * 2 ^ (e + 1074))
  | _ => 0
  end.

(** [x] is a finite number that is not negative, with value [T] *)
Definition nonneg (x : double) (T : Z) : Prop :=
  match x with
  | S754_zero _ => T = 0
  | S754_finite false m e => bounded 53 1024 m e = true ∧ T = Zpos m * 2 ^ (e + 1074)
  | _ => False
  end.

(** ** Mantissas *)

Lemma digits2_log2 m : Zpos (digits2_pos m) = Z.log2 (Zpos m) + 1.
Proof. assert (∀ p, digits2_pos p = Pos.size p) as Hd by (induction p; cbn; congruence). rewrite Hd. destruct m; cbn; lia. Qed.

Lemma fexp_eq d : fexp 53 1024 d = Z.max (d - 53) (-1074).
Proof. reflexivity. Qed.

Lemma bounded_iff m e : bounded 53 1024 m e = true ↔ Z.max (Z.log2 (Zpos m) + 1 + e - 53) (-1074) = e ∧ e ≤ 971.
Proof. unfold bounded, canonical_mantissa. rewrite andb_true_iff, fexp_eq, digits2_log2. change (1024 - 53) with 971. rewrite Z.eqb_eq, Z.leb_le. done. Qed.

Lemma bounded_mantissa m e : bounded 53 1024 m e = true → Zpos m < 2 ^ 53 ∧ -1074 ≤ e ≤ 971 ∧ (e = -1074 ∨ 2 ^ 52 ≤ Zpos m).
Proof.
  rewrite bounded_iff. intros [He Hm]. split_and!; [apply Z.log2_lt_pow2; lia|lia..|].
  destruct (Z.eq_dec e (-1074)); [by left|right]. apply Z.log2_le_pow2; lia.
Qed.

(** The numbers that can be represented: at most 53 significant bits, and below the largest
    exponent *)
Definition fits (T : Z) : Prop := 0 ≤ T < 2 ^ 2098 ∧ ∃ m k, 0 ≤ m < 2 ^ 53 ∧ 0 ≤ k ∧ T = m * 2 ^ k.

Lemma fits_0 : fits 0.
Proof. split; [done|]. exists 0, 0. done. Qed.

Lemma nonneg_fits x T : nonneg x T → fits T.
Proof.
  destruct x as [s| | |[] m e]; cbn; try done; [intros ->; apply fits_0|]. intros [Hb ->]. apply bounded_mantissa in Hb as (Hm & He & _).
  split; [|by exists (Zpos m), (e + 1074); lia]. split; [apply Z.mul_nonneg_nonneg; [lia|apply Z.pow_nonneg; lia]|].
  assert (2 ^ (e + 1074) ≤ 2 ^ 2045) by (apply Z.pow_le_mono_r; lia). replace (2 ^ 2098) with (2 ^ 53 * 2 ^ 2045) by (by rewrite <- Z.pow_add_r by lia).
  pose proof (Z.pow_pos_nonneg 2 (e + 1074) ltac:(lia) ltac:(lia)). nia.
Qed.

(** The length of a product with a power of two *)
Lemma log2_shift m k : 0 < m → 0 ≤ k → Z.log2 (m * 2 ^ k) = Z.log2 m + k.
Proof. intros Hm Hk. by rewrite Z.log2_mul_pow2, Z.add_comm by done. Qed.

Lemma fits_bounded T : 0 < T → fits T → ∃ m e, bounded 53 1024 m e = true ∧ T = Zpos m * 2 ^ (e + 1074).
Proof.
  intros HT [[_ Hmax] (m & k & Hm & Hk & ->)]. assert (0 < m) as Hm0 by (destruct (Z.eq_dec m 0) as [->|]; lia).
  rename Hmax into Hmax0. assert (Z.log2 (m * 2 ^ k) < 2098) as Hmax by (apply Z.log2_lt_pow2; lia). rewrite log2_shift in Hmax by lia.
  assert (Z.log2 m < 53) as Hl by (apply Z.log2_lt_pow2; lia). pose proof (Z.log2_nonneg m).
  set (e := Z.max (Z.log2 m + 1 + k - 53) 0). assert (0 ≤ e ≤ k) as He by lia.
  exists (Z.to_pos (m * 2 ^ (k - e))), (e - 1074). assert (0 < m * 2 ^ (k - e)) as Hpos by (apply Z.mul_pos_pos; [lia|apply Z.pow_pos_nonneg; lia]).
  rewrite bounded_iff, Z2Pos.id, log2_shift by lia. split; [lia|]. rewrite <- Z.mul_assoc, <- Z.pow_add_r by lia. do 2 f_equal. lia.
Qed.

(** A value has one representation. *)
Lemma bounded_unique m e m' e' : bounded 53 1024 m e = true → bounded 53 1024 m' e' = true →
  Zpos m * 2 ^ (e + 1074) = Zpos m' * 2 ^ (e' + 1074) → m = m' ∧ e = e'.
Proof.
  intros Hb Hb' Heq. pose proof (bounded_mantissa _ _ Hb) as (_ & He & _). pose proof (bounded_mantissa _ _ Hb') as (_ & He' & _).
  apply bounded_iff in Hb as [Hb _]. apply bounded_iff in Hb' as [Hb' _]. pose proof (f_equal Z.log2 Heq) as Hlog. rewrite !log2_shift in Hlog by lia.
  assert (e = e') as -> by lia. split; [|done]. pose proof (Z.pow_pos_nonneg 2 (e' + 1074) ltac:(lia) ltac:(lia)). nia.
Qed.

Lemma scaled_unique x y : valid x → valid y → scaled x = scaled y → scaled x ≠ 0 → x = y.
Proof.
  intros Hx Hy Heq Hne. destruct x as [| | |s m e]; try done. destruct y as [| | |s' m' e']; cbn in Heq, Hne; try lia.
  unfold valid in *. cbn in Hx, Hy. pose proof (bounded_mantissa _ _ Hx) as (_ & He & _). pose proof (bounded_mantissa _ _ Hy) as (_ & He' & _).
  pose proof (Z.pow_pos_nonneg 2 (e + 1074) ltac:(lia) ltac:(lia)). pose proof (Z.pow_pos_nonneg 2 (e' + 1074) ltac:(lia) ltac:(lia)).
  assert (s = s' ∧ Zpos m * 2 ^ (e + 1074) = Zpos m' * 2 ^ (e' + 1074)) as [-> Hv] by (destruct s, s'; cbn in Heq; (split; [done|lia]) || nia).
  by destruct (bounded_unique m e m' e' Hx Hy Hv) as [-> ->].
Qed.

(** ** Rounding *)

Lemma shr_1_value m r s : 0 ≤ m → shr_m (shr_1 (Build_shr_record m r s)) = m / 2.
Proof. intros Hm. rewrite <- Z.div2_div. by destruct m as [|[p|p|]|p]. Qed.

Lemma iter_shr_value p : ∀ mrs, 0 ≤ shr_m mrs → shr_m (SpecFloat.iter_pos shr_1 p mrs) = shr_m mrs / 2 ^ Zpos p.
Proof.
  assert (∀ q, 0 < 2 ^ Zpos q) as Hpow by (intros q; apply Z.pow_pos_nonneg; lia).
  assert (∀ a b, 0 ≤ a → 0 < b → 0 ≤ a / b) as Hdiv by (intros; by apply Z.div_pos).
  induction p as [p IH|p IH|]; intros [m r s] Hm; cbn [SpecFloat.iter_pos].
  - assert (shr_m (shr_1 (Build_shr_record m r s)) = m / 2) as H1 by (by apply shr_1_value). cbn [shr_m] in Hm |- *.
    assert (0 ≤ m / 2) as H0 by auto with lia. rewrite <- H1 in H0. pose proof (IH _ H0) as H2. rewrite H1 in *.
    rewrite IH, H2 by (rewrite H2; auto). rewrite !Z.div_div by (auto with lia). f_equal.
    rewrite Pos2Z.inj_xI, Z.pow_add_r, Z.pow_twice_r by lia. lia.
  - pose proof (IH _ Hm) as H2. rewrite IH, H2 by (rewrite H2; auto). rewrite Z.div_div by auto with lia. f_equal.
    by rewrite (Pos2Z.inj_xO p), Z.pow_twice_r by lia.
  - by rewrite shr_1_value.
Qed.

(** Bits that are 0 are shifted out without a trace. *)
Lemma iter_shr_exact p : ∀ m, SpecFloat.iter_pos shr_1 p (Build_shr_record (Zpos m * 2 ^ Zpos p) false false) = Build_shr_record (Zpos m) false false.
Proof.
  assert (∀ m, shr_1 (Build_shr_record (Zpos m * 2) false false) = Build_shr_record (Zpos m) false false) as H1 by (intros m; rewrite Z.mul_comm; done).
  assert (∀ q m, Zpos m * 2 ^ Zpos q = Zpos (m * Z.to_pos (2 ^ Zpos q))) as Hpos.
  { intros q m. rewrite Pos2Z.inj_mul, Z2Pos.id; [done|]. apply Z.pow_pos_nonneg; lia. }
  induction p as [p IH|p IH|]; intros m; cbn [SpecFloat.iter_pos].
  - replace (2 ^ Zpos p~1) with (2 ^ Zpos p * 2 ^ Zpos p * 2) by (rewrite (Pos2Z.inj_xI p), Z.pow_add_r, Z.pow_twice_r by lia; lia).
    rewrite !Z.mul_assoc, (Hpos p m), (Hpos p), H1, <- (Hpos p), IH, <- (Hpos p), IH. done.
  - replace (2 ^ Zpos p~0) with (2 ^ Zpos p * 2 ^ Zpos p) by (by rewrite (Pos2Z.inj_xO p), Z.pow_twice_r by lia).
    rewrite !Z.mul_assoc, (Hpos p m), IH, <- (Hpos p), IH. done.
  - apply H1.
Qed.

Lemma shr_exact m e k : 0 ≤ k → shr (Build_shr_record (Zpos m * 2 ^ k) false false) e k = (Build_shr_record (Zpos m) false false, e + k).
Proof. intros Hk. destruct k as [|p|p]; [by rewrite Z.mul_1_r, Z.add_0_r|cbn [shr]; by rewrite iter_shr_exact|lia]. Qed.

(** A number that can be represented is not changed by rounding. *)
Lemma round_aux_exact s p e m' e' : bounded 53 1024 m' e' = true → e ≤ e' → Zpos p = Zpos m' * 2 ^ (e' - e) →
  binary_round_aux 53 1024 s (Zpos p) e loc_Exact = S754_finite s m' e'.
Proof.
  intros Hb He Hp. pose proof Hb as [Hc Hmax]%bounded_iff. unfold binary_round_aux, shr_fexp. cbn [Zdigits2 shr_record_of_loc].
  rewrite !fexp_eq, digits2_log2, Hp, log2_shift by lia. replace (Z.max _ _ - e) with (e' - e) by lia. rewrite shr_exact by lia.
  cbn [shr_m loc_of_shr_record round_nearest_even Zdigits2 shr_record_of_loc]. rewrite digits2_log2. replace (e + (e' - e)) with e' by lia. 
  rewrite fexp_eq, Hc, Z.sub_diag.
  cbn [shr shr_m]. change (1024 - 53) with 971. by rewrite (proj2 (Z.leb_le e' 971)).
Qed.

Lemma shl_align_value m e e' : e' ≤ e → shl_align m e e' = (m * Z.to_pos (2 ^ (e - e')), e')%positive.
Proof.
  intros He. unfold shl_align. destruct (e' - e) as [|p|p] eqn:Ed; [|lia|].
  - replace (e - e') with 0 by lia. f_equal; [cbn; lia|lia].
  - f_equal. replace (e - e') with (Zpos p) by lia. apply Pos2Z.inj. rewrite Pos2Z.inj_mul, Z2Pos.id by (apply Z.pow_pos_nonneg; lia).
    clear. induction p as [|p IH] using Pos.peano_ind; [cbn; lia|]. rewrite Pos.iter_succ, Pos2Z.inj_succ, Z.pow_succ_r by lia. rewrite (Pos2Z.inj_xO (Pos.iter _ _ _)). lia.
Qed.

Lemma round_exact s m e T : -1074 ≤ e → T = Zpos m * 2 ^ (e + 1074) → fits T →
  ∃ m' e', bounded 53 1024 m' e' = true ∧ T = Zpos m' * 2 ^ (e' + 1074) ∧ binary_round 53 1024 s m e = S754_finite s m' e'.
Proof.
  intros He HT Hf. pose proof (Z.pow_pos_nonneg 2 (e + 1074) ltac:(lia) ltac:(lia)). destruct (fits_bounded T ltac:(nia) Hf) as (m' & e' & Hb & HT').
  exists m', e'. split_and!; try done. pose proof (bounded_mantissa _ _ Hb) as (_ & He' & _). pose proof Hb as [Hc _]%bounded_iff.
  rewrite HT in HT'. pose proof (f_equal Z.log2 HT') as Hlog. rewrite !log2_shift in Hlog by lia. unfold binary_round. rewrite fexp_eq, digits2_log2.
  replace (Z.max _ _) with e' by lia. destruct (Z.le_gt_cases e' e) as [Hle|Hgt].
  - rewrite shl_align_value by done. apply round_aux_exact; [done|lia|]. rewrite Pos2Z.inj_mul, Z2Pos.id by (apply Z.pow_pos_nonneg; lia).
    rewrite Z.sub_diag. assert (Zpos m * 2 ^ (e - e') * 2 ^ (e' + 1074) = Zpos m' * 2 ^ (e' + 1074)) as Hm; [|pose proof (Z.pow_pos_nonneg 2 (e' + 1074) ltac:(lia) ltac:(lia)); nia].
    rewrite <- Z.mul_assoc, <- Z.pow_add_r, <- HT' by lia. do 2 f_equal. lia.
  - assert (shl_align m e e' = (m, e)) as -> by (unfold shl_align; destruct (e' - e) eqn:Ed; [done|done|lia]). apply round_aux_exact; [done|lia|].
    assert (Zpos m' * 2 ^ (e' - e) * 2 ^ (e + 1074) = Zpos m * 2 ^ (e + 1074)) as Hm; [|nia].
    rewrite <- Z.mul_assoc, <- Z.pow_add_r, HT' by lia. do 2 f_equal. lia.
Qed.

(** A product that can be represented *)
Lemma mul_round_exact s p e T c : 2 ^ 52 ≤ Zpos p → 0 ≤ c → 0 ≤ e + 1074 + c → Zpos p * 2 ^ (e + 1074 + c) = T * 2 ^ c → fits T →
  ∃ m' e', bounded 53 1024 m' e' = true ∧ T = Zpos m' * 2 ^ (e' + 1074) ∧ binary_round_aux 53 1024 s (Zpos p) e loc_Exact = S754_finite s m' e'.
Proof.
  intros Hp Hc He HT Hf. pose proof (Z.pow_pos_nonneg 2 c ltac:(lia) Hc) as Hpc. pose proof (Z.pow_pos_nonneg 2 (e + 1074 + c) ltac:(lia) He) as Hpe.
  assert (0 < T) as HT0 by nia. destruct (fits_bounded T HT0 Hf) as (m' & e' & Hb & HT'). exists m', e'. split_and!; try done.
  pose proof (bounded_mantissa _ _ Hb) as (_ & He' & _). pose proof Hb as [Hcan _]%bounded_iff.
  rewrite HT', <- Z.mul_assoc, <- Z.pow_add_r in HT by lia. pose proof (f_equal Z.log2 HT) as Hlog. rewrite !log2_shift in Hlog by lia.
  assert (52 ≤ Z.log2 (Zpos p)) as Hlp by (apply Z.log2_le_pow2; lia). apply round_aux_exact; [done|lia|].
  assert (Zpos m' * 2 ^ (e' - e) * 2 ^ (e + 1074 + c) = Zpos p * 2 ^ (e + 1074 + c)) as Hm; [|nia].
  rewrite <- Z.mul_assoc, <- Z.pow_add_r, HT by lia. do 2 f_equal. lia.
Qed.

(** ** The operations of the program *)

Definition dmul : double → double → double := SFmul 53 1024.
Definition dadd : double → double → double := SFadd 53 1024.
Definition dsub : double → double → double := SFsub 53 1024.
Definition ddiv : double → double → double := SFdiv 53 1024.
(** An integer type to [double], rounded to nearest *)
Definition double_of (n : Z) : double := binary_normalize 53 1024 n 0 false.
(** [double] to [mp_limb_t]: the fraction is dropped; what does not fit is undefined. *)
Definition limb_of (x : double) : outcome Z :=
  match x with
  | S754_zero _ => Ok 0
  | S754_finite s m e =>
     let t := Z.shiftl (Zpos m) e in
     if (t =? 0) || (negb s && (t <? WB)) then Ok t else Err BadConversion
  | _ => Err BadConversion
  end.

Lemma nonneg_ge x T : nonneg x T → 0 ≤ T.
Proof. intros [[? _] _]%nonneg_fits. done. Qed.

Lemma nonneg_scaled x T : nonneg x T → scaled x = T ∧ valid x.
Proof. destruct x as [| | |[] m e]; cbn; try done. by intros [Hb ->]. Qed.

Lemma scaled_nonneg x : valid x → match x with S754_zero _ | S754_finite false _ _ => nonneg x (scaled x) | _ => True end.
Proof. destruct x as [| | |[] m e]; cbn; try done. Qed.

Lemma finite_pos m e T : bounded 53 1024 m e = true → T = Zpos m * 2 ^ (e + 1074) → 0 < T.
Proof. intros (_ & He & _)%bounded_mantissa ->. pose proof (Z.pow_pos_nonneg 2 (e + 1074) ltac:(lia) ltac:(lia)). nia. Qed.

(** Comparison: a larger exponent means a larger number. *)
Lemma bounded_lt m1 e1 m2 e2 : bounded 53 1024 m1 e1 = true → bounded 53 1024 m2 e2 = true → e1 < e2 →
  Zpos m1 * 2 ^ (e1 + 1074) < Zpos m2 * 2 ^ (e2 + 1074).
Proof.
  intros (Hm1 & He1 & _)%bounded_mantissa (_ & He2 & Hm2)%bounded_mantissa Hlt. destruct Hm2 as [?|Hm2]; [lia|].
  replace (e2 + 1074) with (e2 - e1 - 1 + 1 + (e1 + 1074)) by lia. rewrite (Z.pow_add_r 2 (e2 - e1 - 1 + 1)), (Z.pow_add_r 2 (e2 - e1 - 1)), Z.pow_1_r by lia.
  pose proof (Z.pow_pos_nonneg 2 (e2 - e1 - 1) ltac:(lia) ltac:(lia)). rewrite Z.mul_assoc. apply Z.mul_lt_mono_pos_r; [apply Z.pow_pos_nonneg; lia|]. nia.
Qed.

Lemma compare_nonneg x X y Y : nonneg x X → nonneg y Y → SFcompare x y = Some (X ?= Y).
Proof.
  destruct x as [sx| | |[] mx ex]; cbn; try done; destruct y as [sy| | |[] my ey]; cbn; try done.
  - by intros -> ->.
  - intros -> [Hb HY]. pose proof (finite_pos _ _ _ Hb HY). rewrite (proj2 (Z.compare_lt_iff 0 Y)); done.
  - intros [Hb HX] ->. pose proof (finite_pos _ _ _ Hb HX). by rewrite (proj2 (Z.compare_gt_iff X 0)).
  - intros [Hbx ->] [Hby ->]. f_equal. destruct (Z.compare_spec ex ey) as [->|Hlt|Hgt].
    + rewrite Pos.compare_cont_spec. cbn. pose proof (bounded_mantissa _ _ Hby) as (_ & He & _).
      rewrite <- Zmult_compare_compat_r; [change (Zpos mx ?= Zpos my) with (mx ?= my)%positive; by destruct (mx ?= my)%positive|]. apply Z.lt_gt, Z.pow_pos_nonneg; lia.
    + symmetry. apply Z.compare_lt_iff. by apply bounded_lt.
    + symmetry. apply Z.compare_gt_iff. by apply bounded_lt.
Qed.

Lemma ltb_nonneg x X y Y : nonneg x X → nonneg y Y → SFltb x y = (X <? Y).
Proof. intros Hx Hy. unfold SFltb. rewrite (compare_nonneg x X y Y) by done. unfold Z.ltb. by destruct (X ?= Y). Qed.
Lemma leb_nonneg x X y Y : nonneg x X → nonneg y Y → SFleb x y = (X <=? Y).
Proof. intros Hx Hy. unfold SFleb. rewrite (compare_nonneg x X y Y) by done. unfold Z.leb. by destruct (X ?= Y). Qed.

Lemma double_of_nonneg n : 0 ≤ n → fits (n * scale) → nonneg (double_of n) (n * scale).
Proof.
  intros Hn Hf. unfold double_of, binary_normalize. destruct n as [|p|p]; [done| |lia].
  destruct (round_exact false p 0 (Zpos p * scale)) as (m & e & Hb & HT & ->); [lia|done|done|]. done.
Qed.

(** Rounding the result of an addition or subtraction *)
Lemma normalize_nonneg M e T : -1074 ≤ e → 0 ≤ M → T = M * 2 ^ (e + 1074) → fits T → nonneg (binary_normalize 53 1024 M e false) T.
Proof.
  intros He HM -> Hf. unfold binary_normalize. destruct M as [|p|p]; [done| |lia].
  destruct (round_exact false p e (Zpos p * 2 ^ (e + 1074))) as (m & e' & Hb & HT & ->); done.
Qed.

(** Both numbers with the smaller exponent *)
Lemma align_value m e ez : ez ≤ e → Zpos (fst (shl_align m e ez)) = Zpos m * 2 ^ (e - ez).
Proof. intros He. rewrite shl_align_value by done. cbn [fst]. rewrite Pos2Z.inj_mul, Z2Pos.id; [done|]. apply Z.pow_pos_nonneg; lia. Qed.

Lemma align_scaled m e ez : -1074 ≤ ez → ez ≤ e → Zpos (fst (shl_align m e ez)) * 2 ^ (ez + 1074) = Zpos m * 2 ^ (e + 1074).
Proof. intros Hz He. rewrite align_value by done. rewrite <- Z.mul_assoc, <- Z.pow_add_r by lia. do 2 f_equal. lia. Qed.

Lemma dsub_exact x X y Y : nonneg x X → nonneg y Y → Y ≤ X → fits (X - Y) → nonneg (dsub x y) (X - Y).
Proof.
  intros Hx Hy Hle Hf. destruct x as [sx| | |[] mx ex]; cbn in Hx; try done; destruct y as [sy| | |[] my ey]; cbn in Hy; try done.
  - subst. by destruct sx, sy.
  - subst. destruct Hy as [Hb HY]. pose proof (finite_pos _ _ _ Hb HY). lia.
  - subst. cbn. by rewrite Z.sub_0_r.
  - destruct Hx as [Hbx ->], Hy as [Hby ->]. cbn -[binary_normalize]. pose proof (bounded_mantissa _ _ Hbx) as (_ & Hex & _). pose proof (bounded_mantissa _ _ Hby) as (_ & Hey & _).
    rewrite <- (align_scaled mx ex (Z.min ex ey)), <- (align_scaled my ey (Z.min ex ey)) in * by lia.
    rewrite <- Z.mul_sub_distr_r in *. apply normalize_nonneg; try done; [lia|]. pose proof (Z.pow_pos_nonneg 2 (Z.min ex ey + 1074) ltac:(lia) ltac:(lia)). nia.
Qed.

Lemma dadd_exact x X y Y : nonneg x X → nonneg y Y → fits (X + Y) → nonneg (dadd x y) (X + Y).
Proof.
  intros Hx Hy Hf. destruct x as [sx| | |[] mx ex]; cbn in Hx; try done; destruct y as [sy| | |[] my ey]; cbn in Hy; try done.
  - subst. by destruct sx, sy.
  - by subst.
  - subst. cbn. by rewrite Z.add_0_r.
  - destruct Hx as [Hbx ->], Hy as [Hby ->]. cbn -[binary_normalize]. pose proof (bounded_mantissa _ _ Hbx) as (_ & Hex & _). pose proof (bounded_mantissa _ _ Hby) as (_ & Hey & _).
    rewrite <- (align_scaled mx ex (Z.min ex ey)), <- (align_scaled my ey (Z.min ex ey)) in * by lia.
    rewrite <- Z.mul_add_distr_r in *. apply normalize_nonneg; try done; lia.
Qed.

(** The power of two [2 ^ n] *)
Definition pow2 (n : Z) : double := S754_finite false 4503599627370496 (n - 52).

Lemma pow2_nonneg n : -1022 ≤ n < 1024 → nonneg (pow2 n) (2 ^ (n + 1074)).
Proof.
  intros Hn. split; [apply bounded_iff; change (Z.log2 4503599627370496) with 52; lia|]. change 4503599627370496 with (2 ^ 52). rewrite <- Z.pow_add_r by lia. f_equal. lia.
Qed.

Lemma dmul_pow2 n x X T c : nonneg x X → 0 ≤ c → 0 ≤ n + c → X * 2 ^ (n + c) = T * 2 ^ c → fits T → -1074 ≤ n → nonneg (dmul (pow2 n) x) T ∧ nonneg (dmul x (pow2 n)) T.
Proof.
  intros Hx Hc Hn HT Hf Hlow. destruct x as [sx| | |[] m e]; cbn in Hx; try done.
  - subst. pose proof (Z.pow_pos_nonneg 2 c ltac:(lia) Hc). assert (T = 0) as -> by nia. done.
  - destruct Hx as [Hb ->]. pose proof (bounded_mantissa _ _ Hb) as (_ & He & _). unfold dmul, pow2. cbn [SFmul xorb].
    rewrite (Pos.mul_comm _ m). assert (2 ^ 52 ≤ Zpos (m * 4503599627370496)) as Hp by lia.
    assert (∀ e0, e0 = e + (n - 52) → nonneg (binary_round_aux 53 1024 false (Zpos (m * 4503599627370496)) e0 loc_Exact) T) as Hgo; [|split; apply Hgo; lia].
    intros e0 ->. destruct (mul_round_exact false (m * 4503599627370496) (e + (n - 52)) T (c + 52 + 1074)) as (m' & e' & Hb' & HT' & ->); try done; [lia|lia|].
    rewrite Pos2Z.inj_mul. change 4503599627370496 with (2 ^ 52). rewrite <- Z.mul_assoc, <- Z.pow_add_r by lia.
    replace (52 + (e + (n - 52) + 1074 + (c + 52 + 1074))) with ((e + 1074) + (n + c) + (52 + 1074)) by lia.
    replace (c + 52 + 1074) with (c + (52 + 1074)) by lia.
    rewrite (Z.pow_add_r 2 (e + 1074 + (n + c)) (52 + 1074)), (Z.pow_add_r 2 (e + 1074) (n + c)), (Z.pow_add_r 2 c (52 + 1074)) by lia.
    rewrite !Z.mul_assoc, HT. done.
Qed.

(** The product of a small number with [2 ^ -64] may be rounded, but it stays small. *)
Lemma dmul_tiny x X : nonneg x X → X < 2 ^ 117 → ∃ T, nonneg (dmul x (pow2 (-64))) T ∧ T ≤ 2 ^ 53.
Proof.
  intros Hx HX. destruct x as [sx| | |[] m e]; cbn in Hx; try done; [by exists 0|].
  destruct Hx as [Hb ->]. pose proof (bounded_mantissa _ _ Hb) as (Hm & He & Hcan). unfold dmul, pow2. cbn [SFmul xorb]. change (-64 - 52) with (-116).
  assert (Z.log2 (Zpos m) + (e + 1074) < 117) as Hlog by (rewrite <- log2_shift by lia; apply Z.log2_lt_pow2; [|done]; pose proof (Z.pow_pos_nonneg 2 (e + 1074) ltac:(lia) ltac:(lia)); nia).
  pose proof (Z.log2_nonneg (Zpos m)) as Hl0. assert (e ≤ -1010) as Hsm by (destruct Hcan as [?|Hm52%Z.log2_le_pow2]; lia). unfold binary_round_aux, shr_fexp at 1. cbn [Zdigits2 shr_record_of_loc]. rewrite fexp_eq, digits2_log2, Pos2Z.inj_mul.
  change 4503599627370496 with (2 ^ 52). rewrite log2_shift by lia. replace (Z.max _ _ - (e + -116)) with (- e - 958) by lia.
  destruct (- e - 958) as [|k|k] eqn:Ek; [lia| |lia]. cbn [shr]. replace (e + -116 + Zpos k) with (-1074) by lia.
  set (mrs := SpecFloat.iter_pos shr_1 k _). assert (shr_m mrs = Zpos m * 2 ^ 52 / 2 ^ Zpos k) as Hmrs by (unfold mrs; rewrite iter_shr_value; [done|cbn; lia]). clearbody mrs.
  set (M := round_nearest_even (shr_m mrs) (loc_of_shr_record mrs)). assert (shr_m mrs ≤ M ≤ shr_m mrs + 1) as HM.
  { unfold M, round_nearest_even. destruct (loc_of_shr_record mrs) as [|[]]; try destruct (Z.even _); lia. }
  assert (0 ≤ shr_m mrs < 2 ^ 53) as Hbd.
  { rewrite Hmrs. split; [apply Z.div_pos; [lia|apply Z.pow_pos_nonneg; lia]|]. apply Z.div_lt_upper_bound; [apply Z.pow_pos_nonneg; lia|].
    assert (Z.log2 (Zpos m * 2 ^ 52) < Zpos k + 53) as Hlt by (rewrite log2_shift by lia; lia). apply Z.log2_lt_pow2 in Hlt; [|lia]. rewrite Z.pow_add_r in Hlt by lia. lia. }
  clearbody M. clear Hmrs. unfold shr_fexp. cbn [shr_record_of_loc]. rewrite fexp_eq. destruct M as [|p|p]; [by exists 0| |lia]. cbn [Zdigits2]. rewrite digits2_log2.
  destruct (Z.eq_dec (Zpos p) (2 ^ 53)) as [Ep|Np].
  - rewrite Ep. change (Z.log2 (2 ^ 53)) with 53. cbn. exists (2 ^ 53). done.
  - assert (Z.log2 (Zpos p) < 53) as Hlp by (apply Z.log2_lt_pow2; lia). pose proof (Z.log2_nonneg (Zpos p)). replace (Z.max _ _ - -1074) with 0 by lia. cbn [shr shr_m].
    exists (Zpos p). split; [|lia]. split; [apply bounded_iff; lia|]. by rewrite Z.mul_1_r.
Qed.

(** ** Numbers that fit *)

Lemma fits_floor T j : 0 ≤ j → fits T → fits (T / 2 ^ j * 2 ^ j).
Proof.
  intros Hj [HT (m & k & Hm & Hk & ->)]. pose proof (Z.pow_pos_nonneg 2 j ltac:(lia) Hj). pose proof (Z.div_mod (m * 2 ^ k) (2 ^ j) ltac:(lia)) as Hd.
  pose proof (Z.mod_pos_bound (m * 2 ^ k) (2 ^ j) ltac:(lia)). split; [split; [apply Z.mul_nonneg_nonneg; [apply Z.div_pos|]|]; lia|].
  destruct (Z.le_gt_cases j k) as [Hle|Hgt].
  - exists m, k. split_and!; try done; try lia. replace k with (k - j + j) by lia. rewrite Z.pow_add_r, Z.mul_assoc, Z.div_mul by lia. done.
  - exists (m / 2 ^ (j - k)), j. pose proof (Z.pow_pos_nonneg 2 (j - k) ltac:(lia) ltac:(lia)). split_and!; try lia; [by apply Z.div_pos; lia|apply Z.div_lt_upper_bound; nia|].
    f_equal. replace j with (j - k + k) at 1 by lia. rewrite Z.pow_add_r, Z.div_mul_cancel_r by (try apply Z.pow_nonzero; lia). done.
Qed.

Lemma fits_mod T j : 0 ≤ j → fits T → fits (T mod 2 ^ j).
Proof.
  intros Hj [HT (m & k & Hm & Hk & ->)]. pose proof (Z.pow_pos_nonneg 2 j ltac:(lia) Hj). pose proof (Z.mod_pos_bound (m * 2 ^ k) (2 ^ j) ltac:(lia)).
  pose proof (Z.mod_le (m * 2 ^ k) (2 ^ j) ltac:(lia) ltac:(lia)). split; [lia|]. destruct (Z.le_gt_cases j k) as [Hle|Hgt].
  - exists 0, 0. split_and!; try lia. replace k with (k - j + j) by lia. rewrite Z.pow_add_r, Z.mul_assoc, Z.mod_mul by lia. done.
  - exists (m mod 2 ^ (j - k)), k. pose proof (Z.pow_pos_nonneg 2 (j - k) ltac:(lia) ltac:(lia)). pose proof (Z.mod_pos_bound m (2 ^ (j - k)) ltac:(lia)).
    pose proof (Z.mod_le m (2 ^ (j - k)) ltac:(lia) ltac:(lia)). split_and!; try lia. replace j with (j - k + k) at 1 by lia. rewrite Z.pow_add_r, Z.mul_mod_distr_r by (try apply Z.pow_nonzero; lia). done.
Qed.

Lemma fits_mul T j : 0 ≤ j → fits T → T * 2 ^ j < 2 ^ 2098 → fits (T * 2 ^ j).
Proof.
  intros Hj [HT (m & k & Hm & Hk & ->)] Hlt. pose proof (Z.pow_pos_nonneg 2 j ltac:(lia) Hj). split; [nia|]. exists m, (k + j). split_and!; try lia. rewrite Z.pow_add_r by lia. lia.
Qed.

(** A large number ends in zeros. *)
Lemma fits_div T j : 0 ≤ j → fits T → 2 ^ (53 + j) ≤ T → ∃ T', T = T' * 2 ^ j ∧ fits T'.
Proof.
  intros Hj [HT (m & k & Hm & Hk & ->)] Hbig. assert (j ≤ k) as Hle.
  { destruct (Z.le_gt_cases j k); [done|]. rewrite Z.pow_add_r in Hbig by lia. assert (2 ^ k ≤ 2 ^ j) by (apply Z.pow_le_mono_r; lia). pose proof (Z.pow_pos_nonneg 2 k ltac:(lia) Hk). nia. }
  assert (m * 2 ^ k = m * 2 ^ (k - j) * 2 ^ j) as HT' by (rewrite <- Z.mul_assoc, <- Z.pow_add_r by lia; do 2 f_equal; lia).
  exists (m * 2 ^ (k - j)). split; [done|]. pose proof (Z.pow_pos_nonneg 2 j ltac:(lia) Hj). pose proof (Z.pow_pos_nonneg 2 (k - j) ltac:(lia) ltac:(lia)).
  split; [split; nia|]. exists m, (k - j). split_and!; try done; lia.
Qed.

Lemma scale_pos : 0 < scale.
Proof. by apply Z.pow_pos_nonneg. Qed.

Lemma limb_of_nonneg x X : nonneg x X → X < WB * scale → limb_of x = Ok (X / scale).
Proof.
  intros Hx HX. destruct x as [s| | |[] m e]; cbn in Hx; try done; [by subst|]. destruct Hx as [Hb ->]. pose proof (bounded_mantissa _ _ Hb) as (_ & He & _). pose proof scale_pos as Hs.
  assert (Z.shiftl (Zpos m) e = Zpos m * 2 ^ (e + 1074) / scale) as Et.
  { unfold scale. destruct (Z.le_gt_cases 0 e).
    - rewrite Z.shiftl_mul_pow2, (Z.pow_add_r 2 e), Z.mul_assoc, Z.div_mul by lia. done.
    - replace e with (- (- e)) at 1 by lia. rewrite Z.shiftl_opp_r, Z.shiftr_div_pow2 by lia. replace (2 ^ 1074) with (2 ^ (- e) * 2 ^ (e + 1074)) by (rewrite <- Z.pow_add_r by lia; f_equal; lia).
      rewrite Z.div_mul_cancel_r by (apply Z.pow_nonzero; lia). done. }
  unfold limb_of. rewrite Et. cbn [negb andb]. rewrite (proj2 (Z.ltb_lt _ WB)), orb_true_r by (apply Z.div_lt_upper_bound; lia). done.
Qed.
