(* ===== verification/MersenneTwister.v ===== *)
(** * The 64-bit Mersenne Twister
    (examples/multiprecision/random/mt19937-64.c)

    The generator the multiprecision tests draw their operands from: its state
    vector, the two ways to initialise it, the generation of 312 words at a time,
    in place, and the tempered output.  The specification is the recurrence of
    the generator, as an infinite sequence of words. *)

From S2P Require Import Prelude CString UInt64.
From Stdlib Require Import SpecFloat.

Definition NN : Z := 312.
Definition MM : Z := 156.
Definition MATRIX_A : Z := 13043109905998158313.  (** 0xB5026F5AA96619E9 *)
Definition UM : Z := 18446744071562067968.        (** 0xFFFFFFFF80000000 *)
Definition LM : Z := 2147483647.                  (** 0x7FFFFFFF *)

(** The globals [mt] and [mti] *)
Record mt_state := mk_mt {
  mt : arr Z;
  mti : Z
}.

Definition initial_mt : mt_state := mk_mt (replicate 312 (Some 0)) (NN + 1).

Fixpoint init_loop (n : nat) (a : arr Z) (i : Z) : outcome (arr Z) :=
  match n with
  | O => Ok a
  | S n =>
     p ← arr_get a (i - 1);
     a ← arr_set a i (u64 (6364136223846793005 * Z.lxor p (Z.shiftr p 62) + i));
     init_loop n a (i + 1)
  end.
Definition init_genrand64 (seed : Z) (s : mt_state) : outcome mt_state :=
  a ← arr_set (mt s) 0 seed;
  a ← init_loop 311 a 1;
  Ok (mk_mt a NN).

(** [if (i>=NN) { mt[0] = mt[NN-1]; i=1; }], after [i++] *)
Definition next_index (a : arr Z) (i : Z) : outcome (arr Z * Z) :=
  if NN <=? i + 1 then
    x ← arr_get a (NN - 1);
    a ← arr_set a 0 x;
    Ok (a, 1)
  else Ok (a, i + 1).

Fixpoint key_loop (k : nat) (init_key : list Z) (a : arr Z) (i j : Z) : outcome (arr Z * Z) :=
  match k with
  | O => Ok (a, i)
  | S k =>
     x ← arr_get a i;
     p ← arr_get a (i - 1);
     c ← arr_get (Some <$> init_key) j;
     a ← arr_set a i (u64 (Z.lxor x (u64 (Z.lxor p (Z.shiftr p 62) * 3935559000370003845)) + c + j));
     '(a, i) ← next_index a i;
     let j := if Z.of_nat (length init_key) <=? j + 1 then 0 else j + 1 in
     key_loop k init_key a i j
  end.
Fixpoint mix_loop (k : nat) (a : arr Z) (i : Z) : outcome (arr Z) :=
  match k with
  | O => Ok a
  | S k =>
     x ← arr_get a i;
     p ← arr_get a (i - 1);
     a ← arr_set a i (u64 (Z.lxor x (u64 (Z.lxor p (Z.shiftr p 62) * 2862933555777941757)) - i));
     '(a, i) ← next_index a i;
     mix_loop k a i
  end.
(** [key_length] is the length of the array. *)
Definition init_by_array64 (init_key : list Z) (s : mt_state) : outcome mt_state :=
  s ← init_genrand64 19650218 s;
  let k := Z.max NN (Z.of_nat (length init_key)) in
  '(a, i) ← key_loop (Z.to_nat k) init_key (mt s) 1 0;
  a ← mix_loop 311 a i;
  a ← arr_set a 0 (Z.shiftl 1 63);
  Ok (mk_mt a (mti s)).

Definition mag01 (b : Z) : Z := if b =? 0 then 0 else MATRIX_A.

(** [(x>>1) ^ mag01[x&1]] for [x] the upper bits of [u] and the lower bits of [v] *)
Definition twist (u v : Z) : Z :=
  let x := Z.lor (Z.land u UM) (Z.land v LM) in
  Z.lxor (Z.shiftr x 1) (mag01 (Z.land x 1)).

(** The two [for] loops: [n] words from [i] on, each combined with the word at
    distance [off]. *)
Fixpoint twist_loop (n : nat) (a : arr Z) (i off : Z) : outcome (arr Z) :=
  match n with
  | O => Ok a
  | S n =>
     u ← arr_get a i;
     v ← arr_get a (i + 1);
     w ← arr_get a (i + off);
     a ← arr_set a i (Z.lxor w (twist u v));
     twist_loop n a (i + 1) off
  end.
Definition twist_all (a : arr Z) : outcome (arr Z) :=
  a ← twist_loop 156 a 0 MM;
  a ← twist_loop 155 a 156 (MM - NN);
  u ← arr_get a (NN - 1);
  v ← arr_get a 0;
  w ← arr_get a (MM - 1);
  arr_set a (NN - 1) (Z.lxor w (twist u v)).

Definition temper (x : Z) : Z :=
  let x := Z.lxor x (Z.land (Z.shiftr x 29) 6148914691236517205) in
  let x := Z.lxor x (Z.land (u64 (Z.shiftl x 17)) 8202884508482404352) in
  let x := Z.lxor x (Z.land (u64 (Z.shiftl x 37)) 18444473444759240704) in
  Z.lxor x (Z.shiftr x 43).

Definition genrand64_int64 (s : mt_state) : outcome (Z * mt_state) :=
  s ← (if NN <=? mti s then
         s ← (if mti s =? NN + 1 then init_genrand64 5489 s else Ok s);
         a ← twist_all (mt s);
         Ok (mk_mt a 0)
       else Ok s);
  x ← arr_get (mt s) (mti s);
  Ok (temper x, mk_mt (mt s) (mti s + 1)).

Definition genrand64_int63 (s : mt_state) : outcome (Z * mt_state) :=
  '(x, s) ← genrand64_int64 s;
  Ok (Z.shiftr x 1, s).

Definition double_mul : double → double → double := SFmul 53 1024.
Definition genrand64_real1 (s : mt_state) : outcome (double * mt_state) :=
  '(x, s) ← genrand64_int64 s;
  Ok (double_mul (double_of_Z (Z.shiftr x 11))
        (double_div (double_of_Z 1) (double_of_Z 9007199254740991)), s).
Definition genrand64_real2 (s : mt_state) : outcome (double * mt_state) :=
  '(x, s) ← genrand64_int64 s;
  Ok (double_mul (double_of_Z (Z.shiftr x 11))
        (double_div (double_of_Z 1) (double_of_Z 9007199254740992)), s).
Definition genrand64_real3 (s : mt_state) : outcome (double * mt_state) :=
  '(x, s) ← genrand64_int64 s;
  Ok (double_mul
        (double_add (double_of_Z (Z.shiftr x 12)) (double_div (double_of_Z 1) (double_of_Z 2)))
        (double_div (double_of_Z 1) (double_of_Z 4503599627370496)), s).

(** [n] numbers *)
Fixpoint take_int64 (n : nat) (s : mt_state) : outcome (list Z * mt_state) :=
  match n with
  | O => Ok ([], s)
  | S n =>
     '(x, s) ← genrand64_int64 s;
     '(xs, s) ← take_int64 n s;
     Ok (x :: xs, s)
  end.

(** The first outputs the authors publish for the key below *)
Example published_outputs :
  ('(xs, _) ← (s ← init_by_array64 [74565; 144470; 214375; 284280] initial_mt; take_int64 5 s); Ok xs)
  = Ok [7266447313870364031; 4946485549665804864; 16945909448695747420; 16394063075524226720;
        4873882236456199058].
Proof. vm_compute. reflexivity. Qed.

(** ** The sequence of the generator

    A window of 312 words slides over the sequence. *)
Definition mt_next (w : list Z) : Z := Z.lxor (nth 156 w 0) (twist (nth 0 w 0) (nth 1 w 0)).
Definition slide (w : list Z) : list Z := tail w ++ [mt_next w].
(** The [k]-th word of the sequence that starts with [w] *)
Definition mt_word (w : list Z) (k : nat) : Z := nth 0 (Nat.iter k slide w) 0.

Lemma iter_slide_length k w : length w = 312%nat → length (Nat.iter k slide w) = 312%nat.
Proof.
  intros Hw. induction k as [|k IH]; [done|]. cbn [Nat.iter nat_rect]. unfold slide at 1.
  rewrite length_app, length_tl. fold (Nat.iter k slide w). rewrite IH. done.
Qed.

Lemma nth_slide j w : (S j < length w)%nat → nth j (slide w) 0 = nth (S j) w 0.
Proof.
  intros Hj. destruct w as [|x w]; [cbn in Hj; lia|]. unfold slide. cbn [tail].
  cbn in Hj. by rewrite app_nth1 by lia.
Qed.

Lemma nth_iter_slide j w : (j < length w)%nat → length w = 312%nat →
  nth 0 (Nat.iter j slide w) 0 = nth j w 0.
Proof.
  revert w. induction j as [|j IH]; intros w Hj Hw; [done|].
  rewrite Nat.iter_succ_r. rewrite IH; [by apply nth_slide| |].
  - change (slide w) with (Nat.iter 1 slide w). rewrite iter_slide_length by done. lia.
  - by apply (iter_slide_length 1).
Qed.

(** The window after [k] steps shows the words from [k] on. *)
Lemma window_word k j w :
  length w = 312%nat → (j < 312)%nat → nth j (Nat.iter k slide w) 0 = mt_word w (k + j).
Proof.
  intros Hw Hj. unfold mt_word. rewrite Nat.add_comm, Nat.iter_add.
  pose proof (iter_slide_length k w Hw). rewrite nth_iter_slide; [done|lia|done].
Qed.

(** The recurrence *)
Lemma mt_word_rec w k :
  length w = 312%nat →
  mt_word w (k + 312) = Z.lxor (mt_word w (k + 156)) (twist (mt_word w k) (mt_word w (k + 1))).
Proof.
  intros Hw. replace (k + 312)%nat with (S k + 311)%nat by lia.
  rewrite <- window_word by (done || lia). cbn [Nat.iter nat_rect]. unfold slide at 1.
  pose proof (iter_slide_length k w Hw) as Hl. fold (Nat.iter k slide w).
  rewrite app_nth2; rewrite length_tl, Hl; [|lia]. cbn [Nat.sub nth].
  unfold mt_next. rewrite !window_word by (done || lia). by rewrite Nat.add_0_r.
Qed.

Section sequence.
Context (w : list Z) (Hw : length w = 312%nat).
Abbreviation X := (mt_word w).

(** In the middle of the generation: the words before [i] are new. *)
Definition half_done (k : nat) (a : arr Z) (i : nat) : Prop :=
  length a = 312%nat ∧
  ∀ j, (j < 312)%nat → a !! j = Some (Some (X (k + (if (j <? i)%nat then 312 + j else j)))).

Lemma half_done_get k a i j z :
  half_done k a i → z = Z.of_nat j → (j < 312)%nat →
  arr_get a z = Ok (X (k + (if (j <? i)%nat then 312 + j else j))).
Proof.
  intros [_ Ha] -> Hj. apply arr_get_ok; [lia|]. rewrite Nat2Z.id. by apply Ha.
Qed.

Lemma half_done_set k a i x :
  half_done k a i → (i < 312)%nat → x = X (k + (312 + i)) →
  ∃ a', arr_set a (Z.of_nat i) x = Ok a' ∧ half_done k a' (S i).
Proof.
  intros [Hl Ha] Hi ->. rewrite arr_set_ok by (unfold arr_len; lia). eexists. split; [done|].
  rewrite Nat2Z.id. split; [by rewrite length_insert|]. intros j Hj.
  destruct (decide (j = i)) as [->|Hne].
  - rewrite list_lookup_insert_eq by lia. by rewrite (proj2 (Nat.ltb_lt _ _)) by lia.
  - rewrite list_lookup_insert_ne by done. rewrite Ha by done. do 4 f_equal.
    destruct (Nat.ltb_spec j i), (Nat.ltb_spec j (S i)); lia.
Qed.

(** One word: the three words it is made of are those the recurrence asks for. *)
Lemma half_done_step k a i z0 z1 z2 u v x :
  half_done k a i → (i < 312)%nat →
  arr_get a z0 = Ok (X (k + i)) → arr_get a z1 = Ok (X (k + i + 1)) →
  arr_get a z2 = Ok (X (k + i + 156)) → z0 = Z.of_nat i →
  arr_get a z0 = Ok u → arr_get a z1 = Ok v → arr_get a z2 = Ok x →
  ∃ a', arr_set a z0 (Z.lxor x (twist u v)) = Ok a' ∧ half_done k a' (S i).
Proof.
  intros Ha Hi H0 H1 H2 Hz Hu Hv Hx. rewrite H0 in Hu. rewrite H1 in Hv. rewrite H2 in Hx.
  simplify_eq. apply half_done_set; [done..|].
  replace (k + (312 + i))%nat with (k + i + 312)%nat by lia. by rewrite mt_word_rec.
Qed.

Lemma twist_loop_ok k n a i off :
  half_done k a i → (i + n < 312)%nat →
  (off = 156 ∧ (i + n ≤ 156)%nat ∨ off = -156 ∧ (156 ≤ i)%nat) →
  ∃ a', twist_loop n a (Z.of_nat i) off = Ok a' ∧ half_done k a' (i + n).
Proof.
  revert a i. induction n as [|n IH]; intros a i Ha Hn Hoff; cbn [twist_loop].
  { exists a. by rewrite Nat.add_0_r. }
  pose proof (half_done_get k a i i _ Ha eq_refl ltac:(lia)) as H0.
  pose proof (half_done_get k a i (S i) (Z.of_nat i + 1) Ha ltac:(lia) ltac:(lia)) as H1.
  assert (arr_get a (Z.of_nat i + off) = Ok (X (k + i + 156))) as H2.
  { destruct Hoff as [[-> Ho]|[-> Ho]].
    - rewrite (half_done_get k a i (i + 156) _ Ha) by lia.
      rewrite (proj2 (Nat.ltb_ge _ _)) by lia. do 2 f_equal. lia.
    - rewrite (half_done_get k a i (i - 156) _ Ha) by lia.
      rewrite (proj2 (Nat.ltb_lt _ _)) by lia. do 2 f_equal. lia. }
  rewrite (proj2 (Nat.ltb_ge i i)) in H0 by lia. rewrite (proj2 (Nat.ltb_ge (S i) i)) in H1 by lia.
  replace (k + S i)%nat with (k + i + 1)%nat in H1 by lia.
  rewrite H0, H1, H2. cbn [mbind outcome_bind].
  destruct (half_done_step k a i _ _ _ _ _ _ Ha ltac:(lia) H0 H1 H2 eq_refl H0 H1 H2) as (a' & -> & Ha').
  cbn [mbind outcome_bind]. replace (Z.of_nat i + 1) with (Z.of_nat (S i)) by lia.
  replace (i + S n)%nat with (S i + n)%nat by lia. apply IH; [done|lia|lia].
Qed.

(** The window of the array moves by 312 words. *)
Definition shows (k : nat) (a : arr Z) : Prop := half_done k a 0.

Lemma twist_all_ok k a : shows k a → ∃ a', twist_all a = Ok a' ∧ shows (k + 312) a'.
Proof.
  intros Ha. unfold twist_all, MM, NN.
  destruct (twist_loop_ok k 156 a 0 156 Ha) as (a1 & E1 & H1); [lia|left; lia|].
  assert (twist_loop 156 a 0 156 = Ok a1) as -> by exact E1. cbn [mbind outcome_bind].
  destruct (twist_loop_ok k 155 a1 156 (-156) H1) as (a2 & E2 & H2); [lia|right; lia|].
  assert (twist_loop 155 a1 156 (156 - 312) = Ok a2) as -> by exact E2.
  cbn [mbind outcome_bind]. change (156 + 155)%nat with 311%nat in H2.
  pose proof (half_done_get k a2 311 311 (312 - 1) H2 ltac:(lia) ltac:(lia)) as G0.
  pose proof (half_done_get k a2 311 0 0 H2 ltac:(lia) ltac:(lia)) as G1.
  pose proof (half_done_get k a2 311 155 (156 - 1) H2 ltac:(lia) ltac:(lia)) as G2.
  cbn [Nat.ltb Nat.leb] in G0, G1, G2.
  replace (k + (312 + 0))%nat with (k + 311 + 1)%nat in G1 by lia.
  replace (k + (312 + 155))%nat with (k + 311 + 156)%nat in G2 by lia.
  rewrite G0, G1, G2. cbn [mbind outcome_bind].
  destruct (half_done_step k a2 311 _ _ _ _ _ _ H2 ltac:(lia) G0 G1 G2 eq_refl G0 G1 G2) as (a' & E & Ha').
  exists a'. split; [done|]. destruct Ha' as [Hl Hv]. split; [done|]. intros j Hj.
  rewrite Hv by done. rewrite (proj2 (Nat.ltb_lt j 312)) by lia. cbn [Nat.ltb Nat.leb]. do 3 f_equal. lia.
Qed.

(** The state after [n] outputs: the array shows some block of the sequence, and
    [mti] points at the last word that was used plus one. *)
Definition produced (n : nat) (s : mt_state) : Prop :=
  ∃ k, shows k (mt s) ∧ 0 ≤ mti s ≤ 312 ∧ Z.of_nat k + mti s = 312 + Z.of_nat n.

Lemma genrand64_step n s :
  produced n s →
  ∃ s', genrand64_int64 s = Ok (temper (X (312 + n)), s') ∧ produced (S n) s'.
Proof.
  intros (k & Hk & Hi & Hn). unfold genrand64_int64, NN.
  assert (∃ s1 k1, (if 312 <=? mti s then
            s2 ← (if mti s =? 312 + 1 then init_genrand64 5489 s else Ok s);
            a ← twist_all (mt s2); Ok (mk_mt a 0) else Ok s) = Ok s1 ∧
          shows k1 (mt s1) ∧ 0 ≤ mti s1 < 312 ∧ Z.of_nat k1 + mti s1 = 312 + Z.of_nat n)
    as (s1 & k1 & -> & Hk1 & Hi1 & Hn1).
  { destruct (Z.leb_spec 312 (mti s)).
    - rewrite (proj2 (Z.eqb_neq _ _)) by lia. cbn [mbind outcome_bind].
      destruct (twist_all_ok k (mt s) Hk) as (a' & -> & Ha'). cbn [mbind outcome_bind].
      exists (mk_mt a' 0), (k + 312)%nat. cbn [mt mti]. split_and!; try done; lia.
    - exists s, k. split_and!; try done; lia. }
  cbn [mbind outcome_bind].
  rewrite (half_done_get k1 (mt s1) 0 (Z.to_nat (mti s1)) _ Hk1) by lia. cbn [mbind outcome_bind].
  eexists. split.
  - cbn [Nat.ltb Nat.leb]. replace (k1 + Z.to_nat (mti s1))%nat with (312 + n)%nat by lia. done.
  - exists k1. cbn [mt mti]. split_and!; try done; lia.
Qed.

Lemma take_int64_ok m : ∀ n s,
  produced n s →
  ∃ s', take_int64 m s = Ok ((λ i, temper (X (312 + i))) <$> seq n m, s') ∧ produced (n + m) s'.
Proof.
  induction m as [|m IH]; intros n s Hs; cbn [take_int64].
  { exists s. by rewrite Nat.add_0_r. }
  destruct (genrand64_step n s Hs) as (s1 & -> & H1). cbn [mbind outcome_bind].
  destruct (IH (S n) s1 H1) as (s2 & -> & H2). cbn [mbind outcome_bind]. exists s2.
  split; [done|]. by replace (n + S m)%nat with (S n + m)%nat by lia.
Qed.
End sequence.

(** The words [init_genrand64] stores *)
Fixpoint seed_from (n : nat) (i p : Z) : list Z :=
  match n with
  | O => []
  | S n => p :: seed_from n (i + 1) (u64 (6364136223846793005 * Z.lxor p (Z.shiftr p 62) + i))
  end.
Definition seed_words (seed : Z) : list Z := seed_from 312 1 seed.

Lemma seed_from_length n i p : length (seed_from n i p) = n.
Proof. revert i p. induction n as [|n IH]; intros i p; cbn; [done|]. by rewrite IH. Qed.

Lemma init_loop_ok n a i p :
  (0 < i)%nat → length a = (i + n)%nat → a !! (i - 1)%nat = Some (Some p) →
  init_loop n a (Z.of_nat i) = Ok (take (i - 1) a ++ (Some <$> seed_from (S n) (Z.of_nat i) p)).
Proof.
  revert a i p. induction n as [|n IH]; intros a i p Hi Hl Hp; cbn [init_loop].
  { cbn. rewrite <- (take_S_r _ _ _ Hp), take_ge by lia. done. }
  rewrite (arr_get_ok a (Z.of_nat i - 1) p); [|lia|by replace (Z.to_nat (Z.of_nat i - 1)) with (i - 1)%nat by lia].
  cbn [mbind outcome_bind]. rewrite arr_set_ok by (unfold arr_len; lia). cbn [mbind outcome_bind].
  rewrite Nat2Z.id. replace (Z.of_nat i + 1) with (Z.of_nat (S i)) by lia.
  rewrite (IH _ (S i) (u64 (6364136223846793005 * Z.lxor p (Z.shiftr p 62) + Z.of_nat i))).
  - f_equal. replace (S i - 1)%nat with (S (i - 1)) by lia.
    rewrite (take_S_r _ _ (Some p)) by (rewrite list_lookup_insert_ne by lia; done).
    rewrite take_insert_ge by lia. rewrite <- app_assoc. cbn [app seed_from fmap list_fmap].
    by replace (Z.of_nat i + 1) with (Z.of_nat (S i)) by lia.
  - lia.
  - rewrite length_insert. lia.
  - replace (S i - 1)%nat with i by lia. apply list_lookup_insert_eq. lia.
Qed.

Lemma init_genrand64_ok seed s :
  length (mt s) = 312%nat → init_genrand64 seed s = Ok (mk_mt (Some <$> seed_words seed) NN).
Proof.
  intros Hl. unfold init_genrand64, seed_words. rewrite arr_set_ok by (unfold arr_len; lia).
  cbn [mbind outcome_bind].
  assert (init_loop 311 (<[Z.to_nat 0 := Some seed]> (mt s)) 1
    = Ok (take (1 - 1) (<[Z.to_nat 0 := Some seed]> (mt s)) ++ (Some <$> seed_from 312 1 seed))) as ->.
  { apply (init_loop_ok 311 _ 1 seed); [lia|by rewrite length_insert|].
    apply list_lookup_insert_eq. rewrite Hl. apply Nat.lt_0_succ. }
  cbn [mbind outcome_bind]. rewrite Nat.sub_diag, take_0. reflexivity.
Qed.

Lemma shows_start w s :
  length w = 312%nat → mt s = Some <$> w → mti s = NN → produced w 0 s.
Proof.
  intros Hw Hs Hi. exists 0%nat. rewrite Hs, Hi. split_and!; [|unfold NN; lia..].
  split; [by rewrite length_fmap|].
  intros j Hj. rewrite list_lookup_fmap. cbn [Nat.ltb Nat.leb].
  rewrite <- (window_word 0 j w Hw Hj). cbn [Nat.iter nat_rect].
  destruct (lookup_lt_is_Some_2 w j ltac:(lia)) as [x Hx]. rewrite Hx. cbn. do 2 f_equal.
  by apply nth_lookup_Some with (d := 0) in Hx.
Qed.

(** C38: the generator, which refills its array in place 312 words at a time, puts out
    exactly the tempered words of the Mersenne Twister recurrence, in order and
    without bound, from the words that the seed determines on; no access leaves
    the array. *)
Theorem genrand64_stream seed s n :
  length (mt s) = 312%nat →
  ∃ s0 s', init_genrand64 seed s = Ok s0 ∧
    take_int64 n s0 = Ok ((λ i, temper (mt_word (seed_words seed) (312 + i))) <$> seq 0 n, s').
Proof.
  intros Hl. rewrite (init_genrand64_ok seed s Hl). eexists.
  assert (length (seed_words seed) = 312%nat) as Hw by apply seed_from_length.
  destruct (take_int64_ok (seed_words seed) Hw n 0 (mk_mt (Some <$> seed_words seed) NN))
    as (s' & E & _); [by apply shows_start|]. exists s'. by split.
Qed.

Lemma genrand64_stream_witness :
  ∃ s0 s', init_genrand64 5489 initial_mt = Ok s0 ∧
    take_int64 1000 s0 = Ok ((λ i, temper (mt_word (seed_words 5489) (312 + i))) <$> seq 0 1000, s').
Proof. apply genrand64_stream. apply length_replicate. Defined.
