(* ===== verification/Mpn.v ===== *)
(** * Natural numbers as arrays of limbs (examples/multiprecision/mini-gmp/mini-gmp.c)

    The limb macros and the [mpn] functions of mini-gmp, the reference
    implementation the multiprecision tests compare with: copying, comparison,
    addition, subtraction, multiplication, shifts, bit scans, complement and
    negation.  Pointers may overlap, so the functions work on a memory of blocks
    of limbs; a pointer is a block and an offset. *)

From S2P Require Import Prelude CString Queue State UInt64.

(** ** Limbs *)

Definition GMP_LIMB_BITS : Z := 64.
Definition GMP_LIMB_MAX : Z := 18446744073709551615.
Definition GMP_LIMB_HIGHBIT : Z := Z.shiftl 1 63.
Definition GMP_HLIMB_BIT : Z := Z.shiftl 1 32.
Definition GMP_LLIMB_MASK : Z := GMP_HLIMB_BIT - 1.

(** [~x] on a limb, and a comparison used as a number *)
Definition limb_not (x : Z) : Z := GMP_LIMB_MAX - x.
Definition b2z (b : bool) : Z := if b then 1 else 0.

(** The two loops of [gmp_clz]; neither ends on 0. *)
Fixpoint clz_bytes (fuel : nat) (x c : Z) : outcome (Z * Z) :=
  if Z.land x (Z.shiftl 255 56) =? 0 then
    match fuel with
    | O => Err OutOfFuel
    | S fuel => clz_bytes fuel (u64 (Z.shiftl x 8)) (c + 8)
    end
  else Ok (x, c).
Fixpoint clz_bits (fuel : nat) (x c : Z) : outcome Z :=
  if Z.land x GMP_LIMB_HIGHBIT =? 0 then
    match fuel with
    | O => Err OutOfFuel
    | S fuel => clz_bits fuel (u64 (Z.shiftl x 1)) (c + 1)
    end
  else Ok c.
Definition gmp_clz (x : Z) : outcome Z :=
  '(x, c) ← clz_bytes 7 x 0;
  clz_bits 7 x c.

Definition gmp_ctz (x : Z) : outcome Z :=
  c ← gmp_clz (Z.land x (u64 (- x)));
  Ok (GMP_LIMB_BITS - 1 - c).

(** [(sh, sl)] *)
Definition gmp_add_ssaaaa (ah al bh bl : Z) : Z * Z :=
  let x := u64 (al + bl) in
  (u64 (u64 (ah + bh) + b2z (x <? al)), x).
Definition gmp_sub_ddmmss (ah al bh bl : Z) : Z * Z :=
  let x := u64 (al - bl) in
  (u64 (u64 (ah - bh) - b2z (al <? bl)), x).

(** [(w1, w0)] *)
Definition gmp_umul_ppmm (u v : Z) : Z * Z :=
  let ul := u32 (Z.land u GMP_LLIMB_MASK) in
  let uh := u32 (Z.shiftr u 32) in
  let vl := u32 (Z.land v GMP_LLIMB_MASK) in
  let vh := u32 (Z.shiftr v 32) in
  let x0 := u64 (ul * vl) in
  let x1 := u64 (ul * vh) in
  let x2 := u64 (uh * vl) in
  let x3 := u64 (uh * vh) in
  let x1 := u64 (x1 + Z.shiftr x0 32) in
  let x1 := u64 (x1 + x2) in
  let x3 := if x1 <? x2 then u64 (x3 + GMP_HLIMB_BIT) else x3 in
  (u64 (x3 + Z.shiftr x1 32), u64 (u64 (Z.shiftl x1 32) + Z.land x0 GMP_LLIMB_MASK)).

(** [(q, r)]; [_mask] is 0 or all ones. *)
Definition gmp_udiv_qrnnd_preinv (nh nl d di : Z) : Z * Z :=
  let '(qh, ql) := gmp_umul_ppmm nh di in
  let '(qh, ql) := gmp_add_ssaaaa qh ql (u64 (nh + 1)) nl in
  let r := u64 (nl - u64 (qh * d)) in
  let mask := u64 (- b2z (ql <? r)) in
  let qh := u64 (qh + mask) in
  let r := u64 (r + Z.land mask d) in
  if d <=? r then (u64 (qh + 1), u64 (r - d)) else (qh, r).

(** [(q, r1, r0)] *)
Definition gmp_udiv_qr_3by2 (n2 n1 n0 d1 d0 dinv : Z) : Z * Z * Z :=
  let '(q, q0) := gmp_umul_ppmm n2 dinv in
  let '(q, q0) := gmp_add_ssaaaa q q0 n2 n1 in
  let r1 := u64 (n1 - u64 (d1 * q)) in
  let '(r1, r0) := gmp_sub_ddmmss r1 n0 d1 d0 in
  let '(t1, t0) := gmp_umul_ppmm d0 q in
  let '(r1, r0) := gmp_sub_ddmmss r1 r0 t1 t0 in
  let q := u64 (q + 1) in
  let mask := u64 (- b2z (q0 <=? r1)) in
  let q := u64 (q + mask) in
  let '(r1, r0) := gmp_add_ssaaaa r1 r0 (Z.land mask d1) (Z.land mask d0) in
  if d1 <=? r1 then
    if (d1 <? r1) || (d0 <=? r0) then
      let '(r1, r0) := gmp_sub_ddmmss r1 r0 d1 d0 in (u64 (q + 1), r1, r0)
    else (q, r1, r0)
  else (q, r1, r0).

(** ** Memory *)

Record mem := mk_mem {
  m_next : positive;
  m_blocks : gmap positive (arr Z)
}.
Abbreviation ptr := (positive * Z)%type.
Definition padd (p : ptr) (k : Z) : ptr := (p.1, p.2 + k).

Abbreviation L := (M mem).

Definition load (p : ptr) : L Z := λ m,
  match m_blocks m !! p.1 with
  | None => Err DanglingPtr
  | Some a => match arr_get a p.2 with Ok x => Ok (x, m) | Err e => Err e end
  end.
Definition store (p : ptr) (x : Z) : L unit := λ m,
  match m_blocks m !! p.1 with
  | None => Err DanglingPtr
  | Some a =>
     match arr_set a p.2 x with
     | Ok a => Ok (tt, mk_mem (m_next m) (<[p.1 := a]> (m_blocks m)))
     | Err e => Err e
     end
  end.
Definition massert (b : bool) : L unit := lift (c_assert b).

(** [gmp_xalloc_limbs]: the default allocator asserts a positive size and aborts
    when there is no memory; the model has memory. *)
Definition gmp_xalloc_limbs (size : Z) : L ptr := λ m,
  if 0 <? size then
    Ok ((m_next m, 0), mk_mem (Pos.succ (m_next m)) (<[m_next m := arr_new size]> (m_blocks m)))
  else Err AssertFailed.
(** Only the start of a block can be freed. *)
Definition gmp_free (p : ptr) : L unit := λ m,
  match m_blocks m !! p.1 with
  | None => Err DanglingPtr
  | Some _ =>
     if p.2 =? 0 then Ok (tt, mk_mem (m_next m) (delete p.1 (m_blocks m))) else Err DanglingPtr
  end.
(** [gmp_xrealloc_limbs]: the block moves, its limbs are copied. *)
Definition gmp_xrealloc_limbs (old : ptr) (size : Z) : L ptr := λ m,
  if 0 <? size then
    match m_blocks m !! old.1 with
    | None => Err DanglingPtr
    | Some a =>
       if old.2 =? 0 then
         Ok ((m_next m, 0), mk_mem (Pos.succ (m_next m)) (<[m_next m := arr_realloc a size]> (delete old.1 (m_blocks m))))
       else Err DanglingPtr
    end
  else Err AssertFailed.

(** ** Copying and comparing *)

Fixpoint copyi_loop (n : nat) (d s : ptr) (i : Z) : L unit :=
  match n with
  | O => mret tt
  | S n => x ← load (padd s i); _ ← store (padd d i) x; copyi_loop n d s (i + 1)
  end.
Definition mpn_copyi (d s : ptr) (n : Z) : L unit := copyi_loop (Z.to_nat n) d s 0.

(** The loops [while (--n >= 0)] run with [n - 1] down to 0. *)
Fixpoint copyd_loop (n : nat) (d s : ptr) : L unit :=
  match n with
  | O => mret tt
  | S n => x ← load (padd s (Z.of_nat n)); _ ← store (padd d (Z.of_nat n)) x; copyd_loop n d s
  end.
Definition mpn_copyd (d s : ptr) (n : Z) : L unit := copyd_loop (Z.to_nat n) d s.

Fixpoint cmp_loop (n : nat) (ap bp : ptr) : L Z :=
  match n with
  | O => mret 0
  | S n =>
     a ← load (padd ap (Z.of_nat n));
     b ← load (padd bp (Z.of_nat n));
     if negb (a =? b) then mret (if b <? a then 1 else -1) else cmp_loop n ap bp
  end.
Definition mpn_cmp (ap bp : ptr) (n : Z) : L Z := cmp_loop (Z.to_nat n) ap bp.

Definition mpn_cmp4 (ap : ptr) (an : Z) (bp : ptr) (bn : Z) : L Z :=
  if negb (an =? bn) then mret (if an <? bn then -1 else 1) else mpn_cmp ap bp an.

Fixpoint normalized_loop (n : nat) (xp : ptr) : L Z :=
  match n with
  | O => mret 0
  | S k =>
     x ← load (padd xp (Z.of_nat k));
     if x =? 0 then normalized_loop k xp else mret (Z.of_nat n)
  end.
(** A negative [n] is returned as it is. *)
Definition mpn_normalized_size (xp : ptr) (n : Z) : L Z :=
  if n <? 0 then mret n else normalized_loop (Z.to_nat n) xp.

Definition mpn_zero_p (rp : ptr) (n : Z) : L bool :=
  k ← mpn_normalized_size rp n; mret (k =? 0).

Fixpoint zero_loop (n : nat) (rp : ptr) : L unit :=
  match n with
  | O => mret tt
  | S n => _ ← store (padd rp (Z.of_nat n)) 0; zero_loop n rp
  end.
Definition mpn_zero (rp : ptr) (n : Z) : L unit := zero_loop (Z.to_nat n) rp.

(** ** Addition and subtraction *)

Fixpoint add_1_loop (n : nat) (rp ap : ptr) (i b : Z) : L Z :=
  match n with
  | O => mret b
  | S n =>
     a ← load (padd ap i);
     let r := u64 (a + b) in
     _ ← store (padd rp i) r;
     add_1_loop n rp ap (i + 1) (b2z (r <? b))
  end.
Definition mpn_add_1 (rp ap : ptr) (n b : Z) : L Z :=
  _ ← massert (0 <? n);
  add_1_loop (Z.to_nat n) rp ap 0 b.

Fixpoint add_n_loop (n : nat) (rp ap bp : ptr) (i cy : Z) : L Z :=
  match n with
  | O => mret cy
  | S n =>
     a ← load (padd ap i);
     b ← load (padd bp i);
     let r := u64 (a + cy) in
     let cy := b2z (r <? cy) in
     let r := u64 (r + b) in
     let cy := u64 (cy + b2z (r <? b)) in
     _ ← store (padd rp i) r;
     add_n_loop n rp ap bp (i + 1) cy
  end.
Definition mpn_add_n (rp ap bp : ptr) (n : Z) : L Z := add_n_loop (Z.to_nat n) rp ap bp 0 0.

Definition mpn_add (rp ap : ptr) (an : Z) (bp : ptr) (bn : Z) : L Z :=
  _ ← massert (bn <=? an);
  cy ← mpn_add_n rp ap bp bn;
  if bn <? an then mpn_add_1 (padd rp bn) (padd ap bn) (an - bn) cy else mret cy.

Fixpoint sub_1_loop (n : nat) (rp ap : ptr) (i b : Z) : L Z :=
  match n with
  | O => mret b
  | S n =>
     a ← load (padd ap i);
     let cy := b2z (a <? b) in
     _ ← store (padd rp i) (u64 (a - b));
     sub_1_loop n rp ap (i + 1) cy
  end.
Definition mpn_sub_1 (rp ap : ptr) (n b : Z) : L Z :=
  _ ← massert (0 <? n);
  sub_1_loop (Z.to_nat n) rp ap 0 b.

Fixpoint sub_n_loop (n : nat) (rp ap bp : ptr) (i cy : Z) : L Z :=
  match n with
  | O => mret cy
  | S n =>
     a ← load (padd ap i);
     b ← load (padd bp i);
     let b := u64 (b + cy) in
     let cy := b2z (b <? cy) in
     let cy := u64 (cy + b2z (a <? b)) in
     _ ← store (padd rp i) (u64 (a - b));
     sub_n_loop n rp ap bp (i + 1) cy
  end.
Definition mpn_sub_n (rp ap bp : ptr) (n : Z) : L Z := sub_n_loop (Z.to_nat n) rp ap bp 0 0.

Definition mpn_sub (rp ap : ptr) (an : Z) (bp : ptr) (bn : Z) : L Z :=
  _ ← massert (bn <=? an);
  cy ← mpn_sub_n rp ap bp bn;
  if bn <? an then mpn_sub_1 (padd rp bn) (padd ap bn) (an - bn) cy else mret cy.

(** ** Multiplication *)

(** The loops of the three functions advance [up] and [rp]. *)
Fixpoint mul_1_loop (n : nat) (rp up : ptr) (vl cl : Z) : L Z :=
  match n with
  | O => mret cl
  | S n =>
     ul ← load up;
     let '(hpl, lpl) := gmp_umul_ppmm ul vl in
     let lpl := u64 (lpl + cl) in
     let cl := u64 (b2z (lpl <? cl) + hpl) in
     _ ← store rp lpl;
     mul_1_loop n (padd rp 1) (padd up 1) vl cl
  end.
Definition mpn_mul_1 (rp up : ptr) (n vl : Z) : L Z :=
  _ ← massert (1 <=? n);
  mul_1_loop (Z.to_nat n) rp up vl 0.

Fixpoint addmul_1_loop (n : nat) (rp up : ptr) (vl cl : Z) : L Z :=
  match n with
  | O => mret cl
  | S n =>
     ul ← load up;
     let '(hpl, lpl) := gmp_umul_ppmm ul vl in
     let lpl := u64 (lpl + cl) in
     let cl := u64 (b2z (lpl <? cl) + hpl) in
     rl ← load rp;
     let lpl := u64 (rl + lpl) in
     let cl := u64 (cl + b2z (lpl <? rl)) in
     _ ← store rp lpl;
     addmul_1_loop n (padd rp 1) (padd up 1) vl cl
  end.
Definition mpn_addmul_1 (rp up : ptr) (n vl : Z) : L Z :=
  _ ← massert (1 <=? n);
  addmul_1_loop (Z.to_nat n) rp up vl 0.

Fixpoint submul_1_loop (n : nat) (rp up : ptr) (vl cl : Z) : L Z :=
  match n with
  | O => mret cl
  | S n =>
     ul ← load up;
     let '(hpl, lpl) := gmp_umul_ppmm ul vl in
     let lpl := u64 (lpl + cl) in
     let cl := u64 (b2z (lpl <? cl) + hpl) in
     rl ← load rp;
     let lpl := u64 (rl - lpl) in
     let cl := u64 (cl + b2z (rl <? lpl)) in
     _ ← store rp lpl;
     submul_1_loop n (padd rp 1) (padd up 1) vl cl
  end.
Definition mpn_submul_1 (rp up : ptr) (n vl : Z) : L Z :=
  _ ← massert (1 <=? n);
  submul_1_loop (Z.to_nat n) rp up vl 0.

(** [rp] and [vp] have been advanced to the current limb of [v]; returns the last
    [rp]. *)
Fixpoint mul_loop (n : nat) (rp up : ptr) (un : Z) (vp : ptr) : L ptr :=
  match n with
  | O => mret rp
  | S n =>
     let rp := padd rp 1 in
     let vp := padd vp 1 in
     v ← load vp;
     c ← mpn_addmul_1 rp up un v;
     _ ← store (padd rp un) c;
     mul_loop n rp up un vp
  end.
Definition mpn_mul (rp up : ptr) (un : Z) (vp : ptr) (vn : Z) : L Z :=
  _ ← massert (vn <=? un);
  _ ← massert (1 <=? vn);
  v ← load vp;
  c ← mpn_mul_1 rp up un v;
  _ ← store (padd rp un) c;
  rp ← mul_loop (Z.to_nat (vn - 1)) rp up un vp;
  load (padd rp un).

Definition mpn_mul_n (rp ap bp : ptr) (n : Z) : L unit := _ ← mpn_mul rp ap n bp n; mret tt.
Definition mpn_sqr (rp ap : ptr) (n : Z) : L unit := _ ← mpn_mul rp ap n ap n; mret tt.

(** ** Shifts *)

(** [up] and [rp] point behind the limbs still to be read and written. *)
Fixpoint lshift_loop (n : nat) (rp up : ptr) (cnt tnc high_limb : Z) : L unit :=
  match n with
  | O => store (padd rp (-1)) high_limb
  | S n =>
     low_limb ← load (padd up (-1));
     _ ← store (padd rp (-1)) (Z.lor high_limb (Z.shiftr low_limb tnc));
     lshift_loop n (padd rp (-1)) (padd up (-1)) cnt tnc (u64 (Z.shiftl low_limb cnt))
  end.
Definition mpn_lshift (rp up : ptr) (n cnt : Z) : L Z :=
  _ ← massert (1 <=? n);
  _ ← massert (1 <=? cnt);
  _ ← massert (cnt <? GMP_LIMB_BITS);
  let up := padd up n in
  let rp := padd rp n in
  let tnc := GMP_LIMB_BITS - cnt in
  low_limb ← load (padd up (-1));
  let retval := Z.shiftr low_limb tnc in
  _ ← lshift_loop (Z.to_nat (n - 1)) rp (padd up (-1)) cnt tnc (u64 (Z.shiftl low_limb cnt));
  mret retval.

Fixpoint rshift_loop (n : nat) (rp up : ptr) (cnt tnc low_limb : Z) : L unit :=
  match n with
  | O => store rp low_limb
  | S n =>
     high_limb ← load up;
     _ ← store rp (Z.lor low_limb (u64 (Z.shiftl high_limb tnc)));
     rshift_loop n (padd rp 1) (padd up 1) cnt tnc (Z.shiftr high_limb cnt)
  end.
Definition mpn_rshift (rp up : ptr) (n cnt : Z) : L Z :=
  _ ← massert (1 <=? n);
  _ ← massert (1 <=? cnt);
  _ ← massert (cnt <? GMP_LIMB_BITS);
  let tnc := GMP_LIMB_BITS - cnt in
  high_limb ← load up;
  let retval := u64 (Z.shiftl high_limb tnc) in
  _ ← rshift_loop (Z.to_nat (n - 1)) rp (padd up 1) cnt tnc (Z.shiftr high_limb cnt);
  mret retval.

(** ** Bit scans, complement, negation *)

(** [fuel] bounds the number of limbs that are skipped; the C loop goes on until
    it finds a bit or reaches [un]. *)
Fixpoint scan_loop (fuel : nat) (limb i : Z) (up : ptr) (un ux : Z) : L Z :=
  if limb =? 0 then
    match fuel with
    | O => raise OutOfFuel
    | S fuel =>
       let i := i + 1 in
       if i =? un then mret (if ux =? 0 then GMP_LIMB_MAX else u64 (un * GMP_LIMB_BITS))
       else
         x ← load (padd up i);
         scan_loop fuel (Z.lxor ux x) i up un ux
    end
  else
    cnt ← lift (gmp_ctz limb);
    mret (u64 (u64 (i * GMP_LIMB_BITS) + cnt)).
Definition mpn_common_scan (fuel : nat) (limb i : Z) (up : ptr) (un ux : Z) : L Z :=
  _ ← massert ((ux =? 0) || (ux =? GMP_LIMB_MAX));
  _ ← massert ((0 <=? i) && (i <=? un));
  scan_loop fuel limb i up un ux.

Definition mpn_scan1 (fuel : nat) (p : ptr) (bit : Z) : L Z :=
  let i := bit / GMP_LIMB_BITS in
  x ← load (padd p i);
  mpn_common_scan fuel (Z.land x (u64 (Z.shiftl GMP_LIMB_MAX (bit mod GMP_LIMB_BITS)))) i p i 0.
Definition mpn_scan0 (fuel : nat) (p : ptr) (bit : Z) : L Z :=
  let i := bit / GMP_LIMB_BITS in
  x ← load (padd p i);
  mpn_common_scan fuel (Z.land (limb_not x) (u64 (Z.shiftl GMP_LIMB_MAX (bit mod GMP_LIMB_BITS))))
    i p i GMP_LIMB_MAX.

Fixpoint com_loop (n : nat) (rp up : ptr) : L unit :=
  match n with
  | O => mret tt
  | S n => x ← load up; _ ← store rp (limb_not x); com_loop n (padd rp 1) (padd up 1)
  end.
Definition mpn_com (rp up : ptr) (n : Z) : L unit := com_loop (Z.to_nat n) rp up.

(** [n] is at least 1. *)
Fixpoint neg_loop (fuel : nat) (rp up : ptr) (n : Z) : L Z :=
  match fuel with
  | O => raise OutOfFuel
  | S fuel =>
     x ← load up;
     if x =? 0 then
       _ ← store rp 0;
       if n - 1 =? 0 then mret 0 else neg_loop fuel (padd rp 1) (padd up 1) (n - 1)
     else
       _ ← store rp (u64 (- x));
       _ ← mpn_com (padd rp 1) (padd up 1) (n - 1);
       mret 1
  end.
Definition mpn_neg (rp up : ptr) (n : Z) : L Z := neg_loop (Z.to_nat n) rp up n.
