(* ===== verification/MpnMem.v ===== *)
(** * Memory and values of limb arrays

    The cells of the limb memory, what a list of limbs at a pointer means, which
    overlaps of operands are harmless, and the number a list of limbs stands for. *)

From S2P Require Import Prelude CString Queue State UInt64 Mpn.

(** ** Cells *)

(** The cell at [p]: [None] outside of every block, [Some None] uninitialised *)
Definition cell (m : mem) (p : ptr) : option (option Z) :=
  a ← m_blocks m !! p.1; if 0 <=? p.2 then a !! Z.to_nat p.2 else None.

Definition holds (m : mem) (p : ptr) (l : list Z) : Prop :=
  ∀ i x, l !! i = Some x → cell m (padd p (Z.of_nat i)) = Some (Some x).
Definition space (m : mem) (p : ptr) (n : nat) : Prop :=
  ∀ i, (i < n)%nat → is_Some (cell m (padd p (Z.of_nat i))).

(** [q] is one of the [n] cells from [p] on. *)
Definition within (q p : ptr) (n : nat) : Prop := q.1 = p.1 ∧ p.2 ≤ q.2 < p.2 + Z.of_nat n.

(** [m'] has the cells of [m], and differs from it only in the cells [S].  (Blocks may have
    been allocated and freed in between.) *)
Definition changed (m m' : mem) (S : ptr → Prop) : Prop :=
  (∀ q, ¬ S q → cell m' q = cell m q) ∧
  (∀ q, is_Some (cell m' q) ↔ is_Some (cell m q)) ∧ (m_next m ≤ m_next m')%positive.

(** [m'] is [m] with [l] written at [p]. *)
Definition writes (m : mem) (p : ptr) (l : list Z) (m' : mem) : Prop :=
  holds m' p l ∧ changed m m' (λ q, within q p (length l)).

(** An upward loop that writes at [rp] may read [n] limbs at [ap]: it never
    overwrites a limb it still has to read. *)
Definition ok_up (rp ap : ptr) (n : nat) : Prop :=
  rp.1 ≠ ap.1 ∨ rp.2 ≤ ap.2 ∨ ap.2 + Z.of_nat n ≤ rp.2.
(** The same for a downward loop *)
Definition ok_down (rp ap : ptr) (n : nat) : Prop :=
  rp.1 ≠ ap.1 ∨ ap.2 ≤ rp.2 ∨ rp.2 + Z.of_nat n ≤ ap.2.
(** [n] cells at [p] and [k] cells at [q] have none in common. *)
Definition apart (p : ptr) (n : nat) (q : ptr) (k : nat) : Prop :=
  p.1 ≠ q.1 ∨ p.2 + Z.of_nat n ≤ q.2 ∨ q.2 + Z.of_nat k ≤ p.2.

Lemma ok_up_le rp ap n k : ok_up rp ap n → (k ≤ n)%nat → ok_up rp ap k.
Proof. unfold ok_up. lia. Qed.
(** After an upward loop has written [k] limbs, the operand's limbs from there on are
    untouched. *)
Lemma ok_up_apart rp ap k n :
  ok_up rp ap (k + n) → apart rp k (padd ap (Z.of_nat k)) n.
Proof. unfold ok_up, apart, padd. cbn. lia. Qed.

Lemma split_at (l : list Z) n : (n ≤ length l)%nat → ∃ l1 l2, l = l1 ++ l2 ∧ length l1 = n.
Proof. intros Hn. exists (take n l), (drop n l). rewrite take_drop, length_take. split; [done|lia]. Qed.

Lemma padd_0 p : padd p 0 = p.
Proof. destruct p. unfold padd. cbn. f_equal. lia. Qed.
Lemma padd_padd p a b : padd (padd p a) b = padd p (a + b).
Proof. unfold padd. cbn. f_equal. lia. Qed.

Lemma wp_load p x Q E m : cell m p = Some (Some x) → Q x m → wp (load p) Q E m.
Proof.
  unfold cell, wp, load. destruct (m_blocks m !! p.1) as [a|]; cbn; [|done].
  destruct (Z.leb_spec 0 p.2); [|done]. intros Hx HQ. by rewrite (arr_get_ok a p.2 x).
Qed.

Lemma wp_store p x Q E m :
  is_Some (cell m p) →
  (∀ m', (∀ q, cell m' q = if decide (q = p) then Some (Some x) else cell m q) →
     m_next m' = m_next m → Q tt m') →
  wp (store p x) Q E m.
Proof.
  unfold wp, store. intros [c Hc] HQ. unfold cell in Hc.
  destruct (m_blocks m !! p.1) as [a|] eqn:Ha; cbn in Hc; [|done].
  destruct (Z.leb_spec 0 p.2); [|done]. pose proof (lookup_lt_Some _ _ _ Hc) as Hlt.
  rewrite arr_set_ok by (unfold arr_len; lia). apply HQ; [|done].
  intros q. unfold cell. cbn. destruct (decide (q = p)) as [->|Hne].
  - rewrite lookup_insert_eq. cbn. rewrite (proj2 (Z.leb_le _ _)) by lia.
    by rewrite list_lookup_insert_eq.
  - destruct (decide (q.1 = p.1)) as [Heq|Hb].
    + rewrite Heq, lookup_insert_eq, Ha. cbn. destruct (Z.leb_spec 0 q.2); [|done].
      rewrite list_lookup_insert_ne; [done|]. intros Hz. apply Hne. destruct p, q. cbn in *. f_equal; [done|lia].
    + by rewrite lookup_insert_ne by done.
Qed.

Lemma wp_massert b Q E m : b = true → Q tt m → wp (massert b) Q E m.
Proof. intros -> HQ. done. Qed.

(** ** Lists at pointers *)

Lemma holds_nil m p : holds m p [].
Proof. intros i x Hi. done. Qed.

Lemma holds_cons m p x l :
  holds m p (x :: l) ↔ cell m p = Some (Some x) ∧ holds m (padd p 1) l.
Proof.
  split.
  - intros Hh. split; [rewrite <- (padd_0 p); by apply (Hh 0%nat)|].
    intros i y Hi. rewrite padd_padd. replace (1 + Z.of_nat i) with (Z.of_nat (S i)) by lia.
    by apply Hh.
  - intros [Hx Hl] [|i] y Hi.
    + cbn in Hi. simplify_eq. change (Z.of_nat 0) with 0. by rewrite padd_0.
    + specialize (Hl i y Hi). rewrite padd_padd in Hl. by replace (Z.of_nat (S i)) with (1 + Z.of_nat i) by lia.
Qed.

Lemma holds_app m p l k :
  holds m p (l ++ k) ↔ holds m p l ∧ holds m (padd p (Z.of_nat (length l))) k.
Proof.
  revert p. induction l as [|x l IH]; intros p; cbn [app length].
  - change (Z.of_nat 0) with 0. rewrite padd_0. pose proof (holds_nil m p). tauto.
  - rewrite !holds_cons, IH, padd_padd.
    replace (1 + Z.of_nat (length l)) with (Z.of_nat (S (length l))) by lia. tauto.
Qed.

Lemma space_S m p n : space m p (S n) ↔ is_Some (cell m p) ∧ space m (padd p 1) n.
Proof.
  split.
  - intros Hs. split; [rewrite <- (padd_0 p); by apply (Hs 0%nat); lia|].
    intros i Hi. rewrite padd_padd. replace (1 + Z.of_nat i) with (Z.of_nat (S i)) by lia.
    apply Hs. lia.
  - intros [H0 Hs] [|i] Hi; [change (Z.of_nat 0) with 0; by rewrite padd_0|].
    specialize (Hs i ltac:(lia)). rewrite padd_padd in Hs.
    by replace (Z.of_nat (S i)) with (1 + Z.of_nat i) by lia.
Qed.

Lemma space_first m p n : space m p n → (0 < n)%nat → is_Some (cell m p).
Proof. destruct n; [lia|]. by intros [? _]%space_S _. Qed.

Lemma space_app m p n k : space m p (n + k) ↔ space m p n ∧ space m (padd p (Z.of_nat n)) k.
Proof.
  revert p. induction n as [|n IH]; intros p; cbn [Nat.add].
  - change (Z.of_nat 0) with 0. rewrite padd_0. split; [|tauto]. intros ?. split; [|done].
    intros i Hi. lia.
  - rewrite !space_S, IH, padd_padd.
    replace (1 + Z.of_nat n) with (Z.of_nat (S n)) by lia. tauto.
Qed.

Lemma holds_space m p l : holds m p l → space m p (length l).
Proof.
  intros Hh i Hi. destruct (lookup_lt_is_Some_2 l i Hi) as [x Hx]. rewrite (Hh i x Hx). eauto.
Qed.

(** What a memory that agrees with another one outside of some cells keeps *)
Lemma holds_frame m m' p n q l :
  (∀ c, ¬ within c p n → cell m' c = cell m c) → apart p n q (length l) → holds m q l → holds m' q l.
Proof.
  intros Hf Ha Hh i x Hi. rewrite Hf; [by apply Hh|]. intros [Hb Hr].
  apply lookup_lt_Some in Hi. unfold apart, padd in *. cbn in *. destruct Ha as [?|[?|?]]; [congruence|lia..].
Qed.

Lemma space_frame m m' q n :
  (∀ c, is_Some (cell m' c) ↔ is_Some (cell m c)) → space m q n → space m' q n.
Proof. intros Hs Hq i Hi. apply Hs. by apply Hq. Qed.

Lemma writes_nil m p : writes m p [] m.
Proof. split; [apply holds_nil|]. split_and!; done. Qed.

(** The one cell a [store] changes *)
Lemma writes_store m p x m' :
  is_Some (cell m p) →
  (∀ q, cell m' q = if decide (q = p) then Some (Some x) else cell m q) → m_next m' = m_next m →
  writes m p [x] m'.
Proof.
  intros Hs Hc Hn. split; [|split; [|split; [|by rewrite Hn]]].
  - apply holds_cons. split; [|apply holds_nil]. by rewrite Hc, decide_True.
  - intros q Hq. rewrite Hc, decide_False; [done|]. intros ->. apply Hq. split; [done|]. cbn. lia.
  - intros q. rewrite Hc. case_decide; [subst; split; eauto|done].
Qed.

(** Writes to adjacent cells are one write. *)
Lemma writes_app m p l m1 k m2 :
  writes m p l m1 → writes m1 (padd p (Z.of_nat (length l))) k m2 → writes m p (l ++ k) m2.
Proof.
  intros (H1 & F1 & S1 & N1) (H2 & F2 & S2 & N2). split; [|split; [|split]].
  - apply holds_app. split; [|done]. eapply holds_frame; [exact F2| |done].
    unfold apart, padd. cbn. lia.
  - intros q Hq. rewrite F2, F1; [done| |]; intros [Hb Hr]; apply Hq; split; try done;
      rewrite length_app; unfold padd in *; cbn in *; lia.
  - intros q. by rewrite S2.
  - lia.
Qed.

(** The same when the higher part is written first *)
Lemma writes_app_down m p l k m1 m2 :
  writes m (padd p (Z.of_nat (length l))) k m1 → writes m1 p l m2 → writes m p (l ++ k) m2.
Proof.
  intros (H1 & F1 & S1 & N1) (H2 & F2 & S2 & N2). split; [|split; [|split]].
  - apply holds_app. split; [done|]. eapply holds_frame; [exact F2| |done].
    unfold apart, padd. cbn. lia.
  - intros q Hq. rewrite F2, F1; [done| |]; intros [Hb Hr]; apply Hq; split; try done;
      rewrite length_app; unfold padd in *; cbn in *; lia.
  - intros q. by rewrite S2.
  - lia.
Qed.

(** A later write may cover the upper part of an earlier one. *)
Lemma writes_over m p l k m1 k' m2 :
  writes m p (l ++ k) m1 → writes m1 (padd p (Z.of_nat (length l))) k' m2 →
  (length k ≤ length k')%nat → writes m p (l ++ k') m2.
Proof.
  intros (H1 & F1 & S1 & N1) (H2 & F2 & S2 & N2) Hle. split; [|split; [|split]].
  - apply holds_app in H1 as [H1 _]. apply holds_app. split; [|done].
    eapply holds_frame; [exact F2| |done]. unfold apart, padd. cbn. lia.
  - intros q Hq. rewrite F2, F1; [done| |]; intros [Hb Hr]; apply Hq; split; try done;
      rewrite length_app in *; unfold padd in *; cbn in *; lia.
  - intros q. by rewrite S2.
  - lia.
Qed.

Lemma writes_holds m p l m' q k :
  writes m p l m' → apart p (length l) q (length k) → holds m q k → holds m' q k.
Proof. intros (_ & F & _) Ha Hh. by eapply holds_frame. Qed.

Lemma writes_space m p l m' q n : writes m p l m' → space m q n → space m' q n.
Proof. intros (_ & _ & S & _) Hs. by eapply space_frame. Qed.

(** ** Values *)

Definition word (x : Z) : Prop := 0 ≤ x < WB.
Abbreviation words l := (Forall word l).

Fixpoint val (l : list Z) : Z :=
  match l with
  | [] => 0
  | x :: l => x + WB * val l
  end.

Definition wpow (n : nat) : Z := WB ^ Z.of_nat n.

Lemma wpow_S n : wpow (S n) = WB * wpow n.
Proof. unfold wpow. rewrite Nat2Z.inj_succ, Z.pow_succ_r by lia. done. Qed.
Lemma wpow_0 : wpow 0 = 1.
Proof. done. Qed.
Lemma wpow_pos n : 0 < wpow n.
Proof. unfold wpow. apply Z.pow_pos_nonneg; unfold WB; lia. Qed.
Lemma wpow_add a b : wpow (a + b) = wpow a * wpow b.
Proof. unfold wpow. rewrite Nat2Z.inj_add, Z.pow_add_r by lia. done. Qed.

Lemma val_app l k : val (l ++ k) = val l + wpow (length l) * val k.
Proof.
  induction l as [|x l IH]; cbn [app val length]; [rewrite wpow_0; lia|].
  rewrite IH, wpow_S. lia.
Qed.

Lemma val_bound l : words l → 0 ≤ val l < wpow (length l).
Proof.
  induction 1 as [|x l Hx _ IH]; cbn [val length]; [rewrite wpow_0; lia|].
  rewrite wpow_S. unfold word, WB in *. lia.
Qed.

(** Limb lists of one length with the same value are the same. *)
Lemma val_inj l k : words l → words k → length l = length k → val l = val k → l = k.
Proof.
  intros Hl. revert k. induction Hl as [|x l Hx Hl IH]; intros [|y k] Hk Hlen Hv; try done.
  apply Forall_cons in Hk as [Hy Hk]. cbn in Hlen, Hv. unfold word, WB in *.
  assert (val l = val k) by lia. f_equal; [lia|]. apply IH; [done|lia|done].
Qed.

(** ** Steps of the loops *)

Lemma wp_store_writes p x Q E m :
  is_Some (cell m p) → (∀ m', writes m p [x] m' → Q tt m') → wp (store p x) Q E m.
Proof.
  intros Hp HQ. apply wp_store; [done|]. intros m' Hc Hn. apply HQ. by apply writes_store.
Qed.

(** An upward loop after one limb: the rest of an operand is still there. *)
Lemma step_up m rp ap x l r m1 :
  writes m rp [r] m1 → ok_up rp ap (S (length l)) → holds m ap (x :: l) →
  holds m1 (padd ap 1) l ∧ ok_up (padd rp 1) (padd ap 1) (length l).
Proof.
  intros Hw Ho [_ Hl]%holds_cons. unfold ok_up, padd in *. cbn in *. split; [|lia].
  eapply writes_holds; [done| |done]. unfold apart. cbn. lia.
Qed.

Lemma step_space m rp r m1 n : writes m rp [r] m1 → space m rp (S n) → space m1 (padd rp 1) n.
Proof. intros Hw [_ Hs]%space_S. by eapply writes_space. Qed.

Lemma writes_cons m p x m1 l m2 :
  writes m p [x] m1 → writes m1 (padd p 1) l m2 → writes m p (x :: l) m2.
Proof. apply (writes_app m p [x] m1 l m2). Qed.

Lemma padd_succ p i : padd p (i + 1) = padd (padd p i) 1.
Proof. by rewrite padd_padd. Qed.

Lemma words_cons x l : word x → words l → words (x :: l).
Proof. by constructor. Qed.

Create HintDb limbs.
#[export] Hint Resolve words_cons holds_nil writes_nil : limbs.

(** ** Allocation *)

(** Block numbers from [m_next] on are free. *)
Definition mem_ok (m : mem) : Prop := ∀ q, is_Some (cell m q) → (q.1 < m_next m)%positive.

Lemma changed_ok m m' S : changed m m' S → mem_ok m → mem_ok m'.
Proof. intros (_ & Hd & Hn) Hm q Hq%Hd%Hm. lia. Qed.
Lemma changed_mono m m' S T : changed m m' S → (∀ q, S q → T q) → changed m m' T.
Proof. intros (Hf & Hd & Hn) Hst. split_and!; [|done..]. intros q Hq. apply Hf. auto. Qed.
Lemma changed_trans m1 m2 m3 S : changed m1 m2 S → changed m2 m3 S → changed m1 m3 S.
Proof.
  intros (F1 & D1 & N1) (F2 & D2 & N2). split_and!; [|intros q; by rewrite D2|lia].
  intros q Hq. by rewrite F2, F1.
Qed.
Lemma changed_refl m S : changed m m S.
Proof. split_and!; try done. Qed.
Lemma changed_space m m' S p n : changed m m' S → space m p n → space m' p n.
Proof. intros (_ & Hd & _). by apply space_frame. Qed.
Lemma changed_holds m m' S p l :
  changed m m' S → (∀ q, within q p (length l) → ¬ S q) → holds m p l → holds m' p l.
Proof.
  intros (Hf & _) Hs Hh i x Hi. rewrite Hf; [by apply Hh|]. apply Hs. apply lookup_lt_Some in Hi.
  unfold within, padd. cbn. lia.
Qed.
Lemma writes_changed m p l m' S :
  writes m p l m' → (∀ q, within q p (length l) → S q) → changed m m' S.
Proof. intros [_ Hc] Hs. by eapply changed_mono. Qed.

(** A new block [b] of [n] uninitialised limbs *)
Definition allocated (m : mem) (b : positive) (n : nat) (m' : mem) : Prop :=
  (∀ q, q.1 ≠ b → cell m' q = cell m q) ∧ space m' (b, 0) n ∧ (∀ q, is_Some (cell m q) → q.1 ≠ b) ∧
  mem_ok m' ∧ (m_next m ≤ m_next m')%positive.

Lemma wp_gmp_xalloc_limbs n Q E m :
  (0 < n)%nat → mem_ok m →
  (∀ b m', allocated m b n m' → Q (b, 0) m') →
  wp (gmp_xalloc_limbs (Z.of_nat n)) Q E m.
Proof.
  intros Hn Hm HQ. unfold wp, gmp_xalloc_limbs. rewrite (proj2 (Z.ltb_lt _ _)) by lia. apply HQ.
  assert (∀ q : ptr, q.1 ≠ m_next m → cell (mk_mem (Pos.succ (m_next m)) (<[m_next m:=arr_new (Z.of_nat n)]> (m_blocks m))) q
    = cell m q) as Hf.
  { intros q Hq. unfold cell. cbn. by rewrite lookup_insert_ne. }
  split; [done|]. split; [|split; [|split; [|cbn; lia]]].
  - intros i Hi. unfold cell, padd. cbn. rewrite lookup_insert_eq. cbn.
    rewrite (proj2 (Z.leb_le _ _)) by lia. apply lookup_lt_is_Some_2.
    unfold arr_new. rewrite length_replicate. lia.
  - intros q Hq%Hm. lia.
  - intros q Hq. destruct (decide (q.1 = m_next m)) as [->|Hne]; [cbn; lia|]. rewrite Hf in Hq by done.
    apply Hm in Hq. cbn. lia.
Qed.

Lemma wp_gmp_free b Q E m :
  is_Some (cell m (b, 0)) →
  (∀ m', (∀ q, cell m' q = if decide (q.1 = b) then None else cell m q) → m_next m' = m_next m → Q tt m') →
  wp (gmp_free (b, 0)) Q E m.
Proof.
  intros [c Hc] HQ. unfold wp, gmp_free. unfold cell in Hc. cbn in *.
  destruct (m_blocks m !! b) as [a|] eqn:Ha; [|done]. apply HQ; [|done].
  intros q. unfold cell. cbn. case_decide as Hd.
  - by rewrite Hd, lookup_delete_eq.
  - by rewrite lookup_delete_ne.
Qed.

(** A block that is allocated, used and freed again leaves no trace. *)
Lemma changed_temp m b n m1 m2 m3 S :
  allocated m b n m1 → changed m1 m2 (λ q, q.1 = b ∨ S q) →
  (∀ q, cell m3 q = if decide (q.1 = b) then None else cell m2 q) → m_next m3 = m_next m2 →
  changed m m3 S.
Proof.
  intros (Ha & _ & Hfr & _ & Hn1) (Hf & Hd & Hn2) H3 Hn3. split_and!.
  - intros q Hq. rewrite H3. case_decide as Hb.
    + destruct (cell m q) as [c|] eqn:Hc; [|done]. destruct (Hfr q); [by rewrite Hc|done].
    + rewrite Hf, Ha; [done..|]. tauto.
  - intros q. rewrite H3. case_decide as Hb.
    + split; [by intros [? ?]|]. intros Hq. by destruct (Hfr q Hq).
    + rewrite Hd. by rewrite Ha.
  - lia.
Qed.
