(* ===== verification/MpnThm.v ===== *)
(** * Correctness of the limb array functions of mini-gmp

    Each function is related to arithmetic on the values of its operands, for every
    overlap of the operands that its loop allows. *)

From S2P Require Import Prelude CString Queue State UInt64 Mpn MpnMem.

(** ** Limbs *)

Lemma gmp_umul_ppmm_spec u v h l :
  word u → word v → gmp_umul_ppmm u v = (h, l) → h * WB + l = u * v ∧ word h ∧ word l.
Proof. apply umul_ppmm_spec. Qed.

Lemma b2z_bit b : 0 ≤ b2z b ≤ 1.
Proof. destruct b; cbn; lia. Qed.

(** The sum of two limbs: the comparison gives the carry. *)
Lemma add_limb a b : word a → word b → u64 (a + b) + WB * b2z (u64 (a + b) <? b) = a + b.
Proof.
  unfold word. intros Ha Hb. destruct (Z.lt_ge_cases (a + b) WB).
  - rewrite u64_small by lia. rewrite (proj2 (Z.ltb_ge _ _)) by lia. cbn. lia.
  - rewrite u64_sub by lia. rewrite (proj2 (Z.ltb_lt _ _)) by lia. cbn. lia.
Qed.

(** The difference: the comparison gives the borrow. *)
Lemma sub_limb a b : word a → word b → u64 (a - b) - WB * b2z (a <? b) = a - b.
Proof.
  unfold word. intros Ha Hb. destruct (Z.ltb_spec a b).
  - rewrite u64_add by lia. cbn. lia.
  - rewrite u64_small by lia. cbn. lia.
Qed.

Lemma word_bit b : 0 ≤ b ≤ 1 → word b.
Proof. unfold word, WB. lia. Qed.

Lemma word_u64 z : word (u64 z).
Proof. apply u64_word. Qed.

(** ** Addition *)

Section mpn.
Implicit Types (m : mem) (rp ap bp : ptr) (la lb r : list Z).

Lemma wp_add_1_loop la : ∀ rp ap i b m Q E,
  words la → word b → holds m (padd ap i) la → space m (padd rp i) (length la) →
  ok_up (padd rp i) (padd ap i) (length la) →
  (∀ r c m', length r = length la → words r → (la ≠ [] → 0 ≤ c ≤ 1) →
     val r + wpow (length la) * c = val la + b → writes m (padd rp i) r m' → Q c m') →
  wp (add_1_loop (length la) rp ap i b) Q E m.
Proof.
  induction la as [|a la IH]; intros rp ap i b m Q E Hwa Hb Ha Hs Ho HQ; cbn [length add_1_loop].
  { apply wp_ret. apply (HQ []); auto with limbs; [done|]. cbn. rewrite wpow_0. lia. }
  apply Forall_cons in Hwa as [Hwx Hwa]. pose proof Ha as [Hx _]%holds_cons.
  pose proof Hs as [Hsx _]%space_S.
  apply wp_bind. eapply wp_load; [done|]. apply wp_bind, wp_store_writes; [done|]. intros m1 Hw.
  destruct (step_up _ _ _ _ _ _ _ Hw Ho Ha) as [Ha1 Ho1]. pose proof (step_space _ _ _ _ _ Hw Hs) as Hs1.
  pose proof (add_limb a b Hwx Hb) as Hadd. pose proof (b2z_bit (u64 (a + b) <? b)) as Hbit.
  rewrite <- !padd_succ in *.
  eapply IH; [done|by apply word_bit|done..|]. intros r c m' Hl Hr Hc Hv Hw'.
  eapply (HQ (u64 (a + b) :: r)); [cbn; lia|apply words_cons; [apply word_u64|done]| | |].
  - intros _. destruct la as [|y la]; [|by apply Hc]. cbn in Hv. destruct r; [|done].
    rewrite wpow_0 in Hv. cbn in Hv. lia.
  - cbn [val length]. rewrite wpow_S. unfold WB in *. lia.
  - rewrite padd_succ in Hw'. by eapply writes_cons.
Qed.

Lemma wp_mpn_add_1 rp ap la b m Q E :
  words la → word b → la ≠ [] → holds m ap la → space m rp (length la) → ok_up rp ap (length la) →
  (∀ r c m', length r = length la → words r → 0 ≤ c ≤ 1 →
     val r + wpow (length la) * c = val la + b → writes m rp r m' → Q c m') →
  wp (mpn_add_1 rp ap (Z.of_nat (length la)) b) Q E m.
Proof.
  intros Hw Hb Hne Ha Hs Ho HQ. unfold mpn_add_1. apply wp_bind.
  apply wp_massert; [apply Z.ltb_lt; destruct la; [done|cbn; lia]|].
  rewrite Nat2Z.id. eapply wp_add_1_loop; rewrite ?padd_0; try done.
  intros r c m' Hl Hr Hc Hv Hw'. eapply HQ; eauto.
Qed.

(** One column of [mpn_add_n] *)
Lemma add_column a b cy :
  word a → word b → 0 ≤ cy ≤ 1 →
  let r1 := u64 (a + cy) in
  let c := u64 (b2z (r1 <? cy) + b2z (u64 (r1 + b) <? b)) in
  u64 (r1 + b) + WB * c = a + b + cy ∧ 0 ≤ c ≤ 1.
Proof.
  intros Ha Hb Hc r1 c. pose proof (add_limb a cy Ha (word_bit cy Hc)) as H1. fold r1 in H1.
  pose proof (add_limb r1 b (word_u64 _) Hb) as H2.
  pose proof (b2z_bit (r1 <? cy)). pose proof (b2z_bit (u64 (r1 + b) <? b)).
  pose proof (u64_word (r1 + b)). unfold word in *.
  assert (c = b2z (r1 <? cy) + b2z (u64 (r1 + b) <? b)) as -> by (apply u64_small; unfold WB; lia).
  unfold WB in *. lia.
Qed.

Lemma wp_add_n_loop la : ∀ lb rp ap bp i cy m Q E,
  length lb = length la → words la → words lb → 0 ≤ cy ≤ 1 →
  holds m (padd ap i) la → holds m (padd bp i) lb → space m (padd rp i) (length la) →
  ok_up (padd rp i) (padd ap i) (length la) → ok_up (padd rp i) (padd bp i) (length la) →
  (∀ r c m', length r = length la → words r → 0 ≤ c ≤ 1 →
     val r + wpow (length la) * c = val la + val lb + cy → writes m (padd rp i) r m' → Q c m') →
  wp (add_n_loop (length la) rp ap bp i cy) Q E m.
Proof.
  induction la as [|a la IH]; intros [|b lb] rp ap bp i cy m Q E Hlen Hwa Hwb Hcy Ha Hb Hs Hoa Hob HQ;
    try done; cbn [length add_n_loop].
  { apply wp_ret. apply (HQ []); auto with limbs. cbn. rewrite wpow_0. lia. }
  apply Forall_cons in Hwa as [Hwx Hwa], Hwb as [Hwy Hwb]. injection Hlen as Hlen.
  pose proof Ha as [Hx _]%holds_cons. pose proof Hb as [Hy _]%holds_cons.
  pose proof Hs as [Hsx _]%space_S. pose proof (add_column a b cy Hwx Hwy Hcy) as [Hcol Hbit].
  apply wp_bind. eapply wp_load; [done|]. apply wp_bind. eapply wp_load; [done|].
  apply wp_bind, wp_store_writes; [done|]. intros m1 Hw.
  destruct (step_up _ _ _ _ _ _ _ Hw Hoa Ha) as [Ha1 Hoa1].
  cbn [length] in Hob. rewrite <- Hlen in Hob.
  destruct (step_up _ _ _ _ _ _ _ Hw Hob Hb) as [Hb1 Hob1]. rewrite Hlen in Hob1.
  pose proof (step_space _ _ _ _ _ Hw Hs) as Hs1. rewrite <- !padd_succ in *.
  eapply IH; [done..|]. intros r c m' Hl Hr Hc Hv Hw'.
  eapply (HQ (u64 (u64 (a + cy) + b) :: r)); [cbn; lia|apply words_cons; [apply word_u64|done]|done| |].
  - cbn [val length]. rewrite wpow_S. cbn zeta in Hcol, Hv. unfold WB in *. nia.
  - rewrite padd_succ in Hw'. by eapply writes_cons.
Qed.

Lemma wp_mpn_add_n rp ap bp la lb m Q E :
  length lb = length la → words la → words lb → holds m ap la → holds m bp lb →
  space m rp (length la) → ok_up rp ap (length la) → ok_up rp bp (length la) →
  (∀ r c m', length r = length la → words r → 0 ≤ c ≤ 1 →
     val r + wpow (length la) * c = val la + val lb → writes m rp r m' → Q c m') →
  wp (mpn_add_n rp ap bp (Z.of_nat (length la))) Q E m.
Proof.
  intros Hl Ha Hb Hha Hhb Hs Hoa Hob HQ. unfold mpn_add_n. rewrite Nat2Z.id.
  eapply wp_add_n_loop; rewrite ?padd_0; try done. intros r c m' ? ? ? ? ?.
  eapply HQ; eauto. lia.
Qed.

Lemma wp_mpn_add rp ap bp la lb m Q E :
  (length lb ≤ length la)%nat → words la → words lb → holds m ap la → holds m bp lb →
  space m rp (length la) → ok_up rp ap (length la) → ok_up rp bp (length lb) →
  (∀ r c m', length r = length la → words r → 0 ≤ c ≤ 1 →
     val r + wpow (length la) * c = val la + val lb → writes m rp r m' → Q c m') →
  wp (mpn_add rp ap (Z.of_nat (length la)) bp (Z.of_nat (length lb))) Q E m.
Proof.
  intros Hl Ha Hb Hha Hhb Hs Hoa Hob HQ. unfold mpn_add.
  apply wp_bind, wp_massert; [apply Z.leb_le; lia|]. apply wp_bind.
  destruct (split_at la (length lb) Hl) as (l1 & l2 & -> & Hl1).
  rewrite length_app in *. apply Forall_app in Ha as [Ha1 Ha2].
  apply holds_app in Hha as [Hha1 Hha2]. apply space_app in Hs as [Hs1 Hs2].
  rewrite <- Hl1. apply wp_mpn_add_n with (lb := lb); try done;
    [by eapply ok_up_le; [|apply Nat.le_add_r]|by rewrite Hl1|].
  intros r c m1 Hr Hw Hc Hv Hw1.
  destruct (Z.ltb_spec (Z.of_nat (length l1)) (Z.of_nat (length l1 + length l2))).
  - replace (Z.of_nat _ - Z.of_nat _) with (Z.of_nat (length l2)) by lia.
    apply wp_mpn_add_1; [done|by apply word_bit|by destruct l2; cbn in *; [lia|]| | | |].
    + eapply writes_holds; [done| |done]. rewrite Hr. by apply ok_up_apart.
    + by eapply writes_space.
    + unfold ok_up, padd in *. cbn in *. lia.
    + intros r2 c2 m2 Hr2 Hw2 Hc2 Hv2 Hwr2. apply (HQ (r ++ r2)).
      * rewrite length_app. lia.
      * by apply Forall_app.
      * done.
      * rewrite !val_app, Hr, wpow_add. nia.
      * eapply writes_app; [done|]. by rewrite Hr.
  - destruct l2; [|cbn in *; lia]. rewrite app_nil_r, Nat.add_0_r in *. by eapply HQ.
Qed.
(** ** Subtraction *)

Lemma wp_sub_1_loop la : ∀ rp ap i b m Q E,
  words la → word b → holds m (padd ap i) la → space m (padd rp i) (length la) →
  ok_up (padd rp i) (padd ap i) (length la) →
  (∀ r c m', length r = length la → words r → (la ≠ [] → 0 ≤ c ≤ 1) →
     val r - wpow (length la) * c = val la - b → writes m (padd rp i) r m' → Q c m') →
  wp (sub_1_loop (length la) rp ap i b) Q E m.
Proof.
  induction la as [|a la IH]; intros rp ap i b m Q E Hwa Hb Ha Hs Ho HQ; cbn [length sub_1_loop].
  { apply wp_ret. apply (HQ []); auto with limbs; [done|]. cbn. rewrite wpow_0. lia. }
  apply Forall_cons in Hwa as [Hwx Hwa]. pose proof Ha as [Hx _]%holds_cons.
  pose proof Hs as [Hsx _]%space_S.
  apply wp_bind. eapply wp_load; [done|]. apply wp_bind, wp_store_writes; [done|]. intros m1 Hw.
  destruct (step_up _ _ _ _ _ _ _ Hw Ho Ha) as [Ha1 Ho1]. pose proof (step_space _ _ _ _ _ Hw Hs) as Hs1.
  pose proof (sub_limb a b Hwx Hb) as Hsub. pose proof (b2z_bit (a <? b)) as Hbit.
  rewrite <- !padd_succ in *.
  eapply IH; [done|by apply word_bit|done..|]. intros r c m' Hl Hr Hc Hv Hw'.
  eapply (HQ (u64 (a - b) :: r)); [cbn; lia|apply words_cons; [apply word_u64|done]| | |].
  - intros _. destruct la as [|y la]; [|by apply Hc]. cbn in Hv. destruct r; [|done].
    rewrite wpow_0 in Hv. cbn in Hv. lia.
  - cbn [val length]. rewrite wpow_S. unfold WB in *. lia.
  - rewrite padd_succ in Hw'. by eapply writes_cons.
Qed.

Lemma wp_mpn_sub_1 rp ap la b m Q E :
  words la → word b → la ≠ [] → holds m ap la → space m rp (length la) → ok_up rp ap (length la) →
  (∀ r c m', length r = length la → words r → 0 ≤ c ≤ 1 →
     val r - wpow (length la) * c = val la - b → writes m rp r m' → Q c m') →
  wp (mpn_sub_1 rp ap (Z.of_nat (length la)) b) Q E m.
Proof.
  intros Hw Hb Hne Ha Hs Ho HQ. unfold mpn_sub_1. apply wp_bind.
  apply wp_massert; [apply Z.ltb_lt; destruct la; [done|cbn; lia]|].
  rewrite Nat2Z.id. eapply wp_sub_1_loop; rewrite ?padd_0; try done.
  intros r c m' Hl Hr Hc Hv Hw'. eapply HQ; eauto.
Qed.

(** One column of [mpn_sub_n] *)
Lemma sub_column a b cy :
  word a → word b → 0 ≤ cy ≤ 1 →
  let b' := u64 (b + cy) in
  let c := u64 (b2z (b' <? cy) + b2z (a <? b')) in
  u64 (a - b') - WB * c = a - b - cy ∧ 0 ≤ c ≤ 1.
Proof.
  intros Ha Hb Hc b' c. pose proof (add_limb b cy Hb (word_bit cy Hc)) as H1. fold b' in H1.
  pose proof (sub_limb a b' Ha (word_u64 _)) as H2.
  pose proof (b2z_bit (b' <? cy)). pose proof (b2z_bit (a <? b')).
  pose proof (u64_word (a - b')). pose proof (u64_word (b + cy)) as Hb'. fold b' in Hb'. unfold word in *.
  assert (c = b2z (b' <? cy) + b2z (a <? b')) as -> by (apply u64_small; unfold WB; lia).
  unfold WB in *. lia.
Qed.

Lemma wp_sub_n_loop la : ∀ lb rp ap bp i cy m Q E,
  length lb = length la → words la → words lb → 0 ≤ cy ≤ 1 →
  holds m (padd ap i) la → holds m (padd bp i) lb → space m (padd rp i) (length la) →
  ok_up (padd rp i) (padd ap i) (length la) → ok_up (padd rp i) (padd bp i) (length la) →
  (∀ r c m', length r = length la → words r → 0 ≤ c ≤ 1 →
     val r - wpow (length la) * c = val la - val lb - cy → writes m (padd rp i) r m' → Q c m') →
  wp (sub_n_loop (length la) rp ap bp i cy) Q E m.
Proof.
  induction la as [|a la IH]; intros [|b lb] rp ap bp i cy m Q E Hlen Hwa Hwb Hcy Ha Hb Hs Hoa Hob HQ;
    try done; cbn [length sub_n_loop].
  { apply wp_ret. apply (HQ []); auto with limbs. cbn. rewrite wpow_0. lia. }
  apply Forall_cons in Hwa as [Hwx Hwa], Hwb as [Hwy Hwb]. injection Hlen as Hlen.
  pose proof Ha as [Hx _]%holds_cons. pose proof Hb as [Hy _]%holds_cons.
  pose proof Hs as [Hsx _]%space_S. pose proof (sub_column a b cy Hwx Hwy Hcy) as [Hcol Hbit].
  apply wp_bind. eapply wp_load; [done|]. apply wp_bind. eapply wp_load; [done|].
  apply wp_bind, wp_store_writes; [done|]. intros m1 Hw.
  destruct (step_up _ _ _ _ _ _ _ Hw Hoa Ha) as [Ha1 Hoa1].
  cbn [length] in Hob. rewrite <- Hlen in Hob.
  destruct (step_up _ _ _ _ _ _ _ Hw Hob Hb) as [Hb1 Hob1]. rewrite Hlen in Hob1.
  pose proof (step_space _ _ _ _ _ Hw Hs) as Hs1. rewrite <- !padd_succ in *.
  eapply IH; [done..|]. intros r c m' Hl Hr Hc Hv Hw'.
  eapply (HQ (u64 (a - u64 (b + cy)) :: r)); [cbn; lia|apply words_cons; [apply word_u64|done]|done| |].
  - cbn [val length]. rewrite wpow_S. cbn zeta in Hcol, Hv. unfold WB in *. nia.
  - rewrite padd_succ in Hw'. by eapply writes_cons.
Qed.

Lemma wp_mpn_sub_n rp ap bp la lb m Q E :
  length lb = length la → words la → words lb → holds m ap la → holds m bp lb →
  space m rp (length la) → ok_up rp ap (length la) → ok_up rp bp (length la) →
  (∀ r c m', length r = length la → words r → 0 ≤ c ≤ 1 →
     val r - wpow (length la) * c = val la - val lb → writes m rp r m' → Q c m') →
  wp (mpn_sub_n rp ap bp (Z.of_nat (length la))) Q E m.
Proof.
  intros Hl Ha Hb Hha Hhb Hs Hoa Hob HQ. unfold mpn_sub_n. rewrite Nat2Z.id.
  eapply wp_sub_n_loop; rewrite ?padd_0; try done. intros r c m' ? ? ? ? ?.
  eapply HQ; eauto. lia.
Qed.

Lemma wp_mpn_sub rp ap bp la lb m Q E :
  (length lb ≤ length la)%nat → words la → words lb → holds m ap la → holds m bp lb →
  space m rp (length la) → ok_up rp ap (length la) → ok_up rp bp (length lb) →
  (∀ r c m', length r = length la → words r → 0 ≤ c ≤ 1 →
     val r - wpow (length la) * c = val la - val lb → writes m rp r m' → Q c m') →
  wp (mpn_sub rp ap (Z.of_nat (length la)) bp (Z.of_nat (length lb))) Q E m.
Proof.
  intros Hl Ha Hb Hha Hhb Hs Hoa Hob HQ. unfold mpn_sub.
  apply wp_bind, wp_massert; [apply Z.leb_le; lia|]. apply wp_bind.
  destruct (split_at la (length lb) Hl) as (l1 & l2 & -> & Hl1).
  rewrite length_app in *. apply Forall_app in Ha as [Ha1 Ha2].
  apply holds_app in Hha as [Hha1 Hha2]. apply space_app in Hs as [Hs1 Hs2].
  rewrite <- Hl1. apply wp_mpn_sub_n with (lb := lb); try done;
    [by eapply ok_up_le; [|apply Nat.le_add_r]|by rewrite Hl1|].
  intros r c m1 Hr Hw Hc Hv Hw1.
  destruct (Z.ltb_spec (Z.of_nat (length l1)) (Z.of_nat (length l1 + length l2))).
  - replace (Z.of_nat _ - Z.of_nat _) with (Z.of_nat (length l2)) by lia.
    apply wp_mpn_sub_1; [done|by apply word_bit|by destruct l2; cbn in *; [lia|]| | | |].
    + eapply writes_holds; [done| |done]. rewrite Hr. by apply ok_up_apart.
    + by eapply writes_space.
    + unfold ok_up, padd in *. cbn in *. lia.
    + intros r2 c2 m2 Hr2 Hw2 Hc2 Hv2 Hwr2. apply (HQ (r ++ r2)).
      * rewrite length_app. lia.
      * by apply Forall_app.
      * done.
      * rewrite !val_app, Hr, wpow_add. nia.
      * eapply writes_app; [done|]. by rewrite Hr.
  - destruct l2; [|cbn in *; lia]. rewrite app_nil_r, Nat.add_0_r in *. by eapply HQ.
Qed.

(** ** Multiplication *)

(** The product of two limbs and a carry, as every row loop computes it *)
Lemma mul_column u v c h l :
  word u → word v → word c → gmp_umul_ppmm u v = (h, l) →
  let l' := u64 (l + c) in
  let c' := u64 (b2z (l' <? c) + h) in
  l' + WB * c' = u * v + c ∧ word c' ∧ word l' ∧ (c' = WB - 1 → l' = 0).
Proof.
  intros Hu Hv Hc Hm l' c'. apply gmp_umul_ppmm_spec in Hm as (Hm & Hh & Hl); [|done..].
  pose proof (add_limb l c Hl Hc) as H1. fold l' in H1. pose proof (b2z_bit (l' <? c)).
  pose proof (u64_word (l + c)) as Hl'. fold l' in Hl'.
  assert (u * v ≤ (WB - 1) * (WB - 1)) by (unfold word in *; apply Z.mul_le_mono_nonneg; lia).
  unfold word in *.
  assert (c' = b2z (l' <? c) + h) as -> by (apply u64_small; unfold WB in *; lia).
  unfold WB in *. lia.
Qed.

Lemma addmul_column (l c r : Z) :
  word l → word c → word r → (c = WB - 1 → l = 0) →
  let r' := u64 (r + l) in
  let c' := u64 (c + b2z (r' <? r)) in
  r' + WB * c' = l + WB * c + r ∧ word c'.
Proof.
  intros Hl Hc Hr Hx. rewrite (Z.add_comm r l). intros r' c'.
  pose proof (add_limb l r Hl Hr) as H1. fold r' in H1. pose proof (u64_word (l + r)) as Hr'. fold r' in Hr'.
  pose proof (b2z_bit (r' <? r)). unfold word in *.
  assert (c' = c + b2z (r' <? r)) as -> by (apply u64_small; unfold WB in *; lia).
  unfold WB in *. lia.
Qed.

Lemma submul_column (l c r : Z) :
  word l → word c → word r → (c = WB - 1 → l = 0) →
  let r' := u64 (r - l) in
  let c' := u64 (c + b2z (r <? r')) in
  r' - WB * c' = r - (l + WB * c) ∧ word c'.
Proof.
  intros Hl Hc Hr Hx r' c'. pose proof (sub_limb r l Hr Hl) as H1. fold r' in H1.
  pose proof (b2z_bit (r <? l)). pose proof (u64_word (r - l)) as Hr'. fold r' in Hr'. unfold word in *.
  assert (b2z (r <? r') = b2z (r <? l)) as Hb.
  { unfold r'. destruct (Z.ltb_spec r l).
    - rewrite u64_add by lia. by rewrite (proj2 (Z.ltb_lt _ _)) by lia.
    - rewrite u64_small by lia. by rewrite (proj2 (Z.ltb_ge _ _)) by lia. }
  assert (c' = c + b2z (r <? l)) as -> by (unfold c'; rewrite Hb; apply u64_small; unfold WB in *; lia).
  unfold WB in *. lia.
Qed.

Lemma wp_mul_1_loop la : ∀ rp up v c m Q E,
  words la → word v → word c → holds m up la → space m rp (length la) → ok_up rp up (length la) →
  (∀ r c' m', length r = length la → words r → word c' →
     val r + wpow (length la) * c' = val la * v + c → writes m rp r m' → Q c' m') →
  wp (mul_1_loop (length la) rp up v c) Q E m.
Proof.
  induction la as [|a la IH]; intros rp up v c m Q E Hwa Hv Hc Ha Hs Ho HQ; cbn [length mul_1_loop].
  { apply wp_ret. apply (HQ []); auto with limbs. cbn. rewrite wpow_0. lia. }
  apply Forall_cons in Hwa as [Hwx Hwa]. pose proof Ha as [Hx _]%holds_cons.
  pose proof Hs as [Hsx _]%space_S. apply wp_bind. eapply wp_load; [done|].
  destruct (gmp_umul_ppmm a v) as [h l] eqn:Hm.
  destruct (mul_column a v c h l Hwx Hv Hc Hm) as (Hcol & Hwc & _).
  apply wp_bind, wp_store_writes; [done|]. intros m1 Hw.
  destruct (step_up _ _ _ _ _ _ _ Hw Ho Ha) as [Ha1 Ho1]. pose proof (step_space _ _ _ _ _ Hw Hs) as Hs1.
  eapply IH; [done..|]. intros r c' m' Hl Hr Hc' Hval Hw'.
  eapply (HQ (u64 (l + c) :: r)); [cbn; lia|apply words_cons; [apply word_u64|done]|done| |by eapply writes_cons].
  cbn [val length]. rewrite wpow_S. cbn zeta in *. unfold WB in *. lia.
Qed.

Lemma wp_mpn_mul_1 rp up la v m Q E :
  words la → la ≠ [] → word v → holds m up la → space m rp (length la) → ok_up rp up (length la) →
  (∀ r c m', length r = length la → words r → word c →
     val r + wpow (length la) * c = val la * v → writes m rp r m' → Q c m') →
  wp (mpn_mul_1 rp up (Z.of_nat (length la)) v) Q E m.
Proof.
  intros Hw Hne Hv Ha Hs Ho HQ. unfold mpn_mul_1. apply wp_bind.
  apply wp_massert; [apply Z.leb_le; destruct la; [done|cbn; lia]|].
  rewrite Nat2Z.id. eapply wp_mul_1_loop; try done. intros r c m' ? ? ? ? ?. eapply HQ; eauto. lia.
Qed.
Lemma wp_addmul_1_loop la : ∀ lr rp up v c m Q E,
  length lr = length la → words la → words lr → word v → word c →
  holds m up la → holds m rp lr → ok_up rp up (length la) →
  (∀ r c' m', length r = length la → words r → word c' →
     val r + wpow (length la) * c' = val lr + val la * v + c → writes m rp r m' → Q c' m') →
  wp (addmul_1_loop (length la) rp up v c) Q E m.
Proof.
  induction la as [|a la IH]; intros [|x lr] rp up v c m Q E Hlen Hwa Hwr Hv Hc Ha Hh Ho HQ;
    try done; cbn [length addmul_1_loop].
  { apply wp_ret. apply (HQ []); auto with limbs. cbn. rewrite wpow_0. lia. }
  injection Hlen as Hlen. apply Forall_cons in Hwa as [Hwx Hwa], Hwr as [Hwy Hwr].
  pose proof Ha as [Hx _]%holds_cons. pose proof Hh as [Hy Hh1]%holds_cons.
  apply wp_bind. eapply wp_load; [done|].
  destruct (gmp_umul_ppmm a v) as [h l] eqn:Hm.
  destruct (mul_column a v c h l Hwx Hv Hc Hm) as (Hcol & Hwc & Hwl & Hmax).
  destruct (addmul_column _ _ x Hwl Hwc Hwy Hmax) as (Hadd & Hwc2).
  apply wp_bind. eapply wp_load; [done|].
  apply wp_bind, wp_store_writes; [by rewrite Hy|]. intros m1 Hw.
  destruct (step_up _ _ _ _ _ _ _ Hw Ho Ha) as [Ha1 Ho1].
  assert (holds m1 (padd rp 1) lr) as Hr1 by (eapply writes_holds; [done| |done]; unfold apart, padd; cbn; lia).
  eapply (IH lr); [done..|]. intros r c' m' Hl Hr Hc' Hval Hw'.
  eapply (HQ (_ :: r)); [cbn; lia|apply words_cons; [|exact Hr]; apply word_u64|done| |by eapply writes_cons].
  cbn [val length]. rewrite wpow_S. cbn zeta in *. unfold WB in *. lia.
Qed.

Lemma wp_mpn_addmul_1 rp up la lr v m Q E :
  length lr = length la → words la → words lr → la ≠ [] → word v →
  holds m up la → holds m rp lr → ok_up rp up (length la) →
  (∀ r c m', length r = length la → words r → word c →
     val r + wpow (length la) * c = val lr + val la * v → writes m rp r m' → Q c m') →
  wp (mpn_addmul_1 rp up (Z.of_nat (length la)) v) Q E m.
Proof.
  intros Hl Hw Hwr Hne Hv Ha Hh Ho HQ. unfold mpn_addmul_1. apply wp_bind.
  apply wp_massert; [apply Z.leb_le; destruct la; [done|cbn; lia]|].
  rewrite Nat2Z.id. eapply wp_addmul_1_loop; try done. intros r c m' ? ? ? ? ?. eapply HQ; eauto. lia.
Qed.

Lemma wp_submul_1_loop la : ∀ lr rp up v c m Q E,
  length lr = length la → words la → words lr → word v → word c →
  holds m up la → holds m rp lr → ok_up rp up (length la) →
  (∀ r c' m', length r = length la → words r → word c' →
     val r - wpow (length la) * c' = val lr - val la * v - c → writes m rp r m' → Q c' m') →
  wp (submul_1_loop (length la) rp up v c) Q E m.
Proof.
  induction la as [|a la IH]; intros [|x lr] rp up v c m Q E Hlen Hwa Hwr Hv Hc Ha Hh Ho HQ;
    try done; cbn [length submul_1_loop].
  { apply wp_ret. apply (HQ []); auto with limbs. cbn. rewrite wpow_0. lia. }
  injection Hlen as Hlen. apply Forall_cons in Hwa as [Hwx Hwa], Hwr as [Hwy Hwr].
  pose proof Ha as [Hx _]%holds_cons. pose proof Hh as [Hy Hh1]%holds_cons.
  apply wp_bind. eapply wp_load; [done|].
  destruct (gmp_umul_ppmm a v) as [h l] eqn:Hm.
  destruct (mul_column a v c h l Hwx Hv Hc Hm) as (Hcol & Hwc & Hwl & Hmax).
  destruct (submul_column _ _ x Hwl Hwc Hwy Hmax) as (Hsub & Hwc2).
  apply wp_bind. eapply wp_load; [done|].
  apply wp_bind, wp_store_writes; [by rewrite Hy|]. intros m1 Hw.
  destruct (step_up _ _ _ _ _ _ _ Hw Ho Ha) as [Ha1 Ho1].
  assert (holds m1 (padd rp 1) lr) as Hr1 by (eapply writes_holds; [done| |done]; unfold apart, padd; cbn; lia).
  eapply (IH lr); [done..|]. intros r c' m' Hl Hr Hc' Hval Hw'.
  eapply (HQ (_ :: r)); [cbn; lia|apply words_cons; [|exact Hr]; apply word_u64|done| |by eapply writes_cons].
  cbn [val length]. rewrite wpow_S. cbn zeta in *. unfold WB in *. lia.
Qed.

Lemma wp_mpn_submul_1 rp up la lr v m Q E :
  length lr = length la → words la → words lr → la ≠ [] → word v →
  holds m up la → holds m rp lr → ok_up rp up (length la) →
  (∀ r c m', length r = length la → words r → word c →
     val r - wpow (length la) * c = val lr - val la * v → writes m rp r m' → Q c m') →
  wp (mpn_submul_1 rp up (Z.of_nat (length la)) v) Q E m.
Proof.
  intros Hl Hw Hwr Hne Hv Ha Hh Ho HQ. unfold mpn_submul_1. apply wp_bind.
  apply wp_massert; [apply Z.leb_le; destruct la; [done|cbn; lia]|].
  rewrite Nat2Z.id. eapply wp_submul_1_loop; try done. intros r c m' ? ? ? ? ?. eapply HQ; eauto. lia.
Qed.

(** The rows of the schoolbook product: [lr] are the limbs of the partial product above
    the one that is final. *)
Lemma wp_mul_loop lu lv : ∀ lr rp up vp m Q E,
  lu ≠ [] → length lr = length lu → words lu → words lv → words lr →
  holds m up lu → holds m (padd vp 1) lv → holds m (padd rp 1) lr →
  space m (padd rp (1 + Z.of_nat (length lu))) (length lv) →
  apart (padd rp 1) (length lu + length lv) up (length lu) →
  apart (padd rp 1) (length lu + length lv) (padd vp 1) (length lv) →
  (∀ r m', length r = (length lu + length lv)%nat → words r →
     val r = val lr + val lu * val lv → writes m (padd rp 1) r m' →
     Q (padd rp (Z.of_nat (length lv))) m') →
  wp (mul_loop (length lv) rp up (Z.of_nat (length lu)) vp) Q E m.
Proof.
  induction lv as [|v lv IH]; intros lr rp up vp m Q E Hne Hlr Hwu Hwv Hwr Hu Hv Hr Hs Hau Hav HQ;
    cbn [length mul_loop].
  { apply wp_ret. rewrite <- (padd_0 rp). apply (HQ lr); [cbn; lia|done|cbn [val]; lia|].
    split_and!; try done. }
  apply Forall_cons in Hwv as [Hwx Hwv]. apply holds_cons in Hv as [Hx Hv].
  apply wp_bind. eapply wp_load; [done|]. apply wp_bind.
  eapply (wp_mpn_addmul_1 _ _ lu lr); try done; [unfold ok_up, apart, padd in *; cbn in *; lia|].
  intros r c m1 Hl1 Hw1 Hc Hval1 Hwr1. apply space_S in Hs as [Hs0 Hs]. rewrite !padd_padd in *.
  apply wp_bind, wp_store_writes.
  { destruct Hwr1 as (_ & _ & Hiff & _). by apply Hiff. }
  intros m2 Hwr2. pose proof (writes_app _ _ _ _ [c] m2 Hwr1) as Hwr12.
  rewrite Hl1, padd_padd in Hwr12. specialize (Hwr12 Hwr2).
  destruct (r ++ [c]) as [|y lr2] eqn:Hsplit; [by destruct r|].
  assert (length lr2 = length lu) as Hlr2.
  { apply (f_equal length) in Hsplit. rewrite length_app in Hsplit. cbn in Hsplit. lia. }
  assert (words (y :: lr2)) as Hw2 by (rewrite <- Hsplit; apply Forall_app; auto).
  assert (val (y :: lr2) = val lr + val lu * v) as Hval2.
  { rewrite <- Hsplit, val_app, Hl1. cbn [val]. lia. }
  apply Forall_cons in Hw2 as [Hwy Hw2]. cbn [length] in *.
  eapply (IH lr2); try done.
  - eapply writes_holds; [done| |done]. cbn. rewrite Hlr2. unfold apart, padd in *. cbn in *. lia.
  - rewrite padd_padd. eapply writes_holds; [done| |done]. cbn. rewrite Hlr2.
    unfold apart, padd in *. cbn in *. lia.
  - destruct Hwr12 as [[_ Hh]%holds_cons _]. done.
  - eapply writes_space; [done|]. rewrite padd_padd. by replace (1 + _) with (1 + Z.of_nat (length lu) + 1) by lia.
  - unfold apart, padd in *. cbn in *. lia.
  - rewrite padd_padd. unfold apart, padd in *. cbn in *. lia.
  - intros r3 m3 Hl3 Hw3 Hval3 Hwr3. rewrite !padd_padd in *.
    replace (1 + Z.of_nat (length lv)) with (Z.of_nat (S (length lv))) by lia.
    apply (HQ (y :: r3)); [cbn; lia|by apply words_cons| |].
    + cbn [val] in *. rewrite Hval3. lia.
    + apply (writes_over _ _ [y] lr2 m2); [done| |lia]. by rewrite padd_padd.
Qed.
(** The product, and its highest limb as the result *)
Lemma wp_mpn_mul rp up vp lu lv m Q E :
  (1 ≤ length lv ≤ length lu)%nat → words lu → words lv → holds m up lu → holds m vp lv →
  space m rp (length lu + length lv) →
  apart rp (length lu + length lv) up (length lu) → apart rp (length lu + length lv) vp (length lv) →
  (∀ r c m', length (r ++ [c]) = (length lu + length lv)%nat → words (r ++ [c]) →
     val (r ++ [c]) = val lu * val lv → writes m rp (r ++ [c]) m' → Q c m') →
  wp (mpn_mul rp up (Z.of_nat (length lu)) vp (Z.of_nat (length lv))) Q E m.
Proof.
  intros Hlen Hwu Hwv Hu Hv Hs Hau Hav HQ. destruct lv as [|v lv]; [cbn in Hlen; lia|].
  cbn [length] in *. unfold mpn_mul. do 2 (apply wp_bind, wp_massert; [apply Z.leb_le; lia|]).
  apply Forall_cons in Hwv as [Hwx Hwv]. apply holds_cons in Hv as [Hx Hv].
  apply space_app in Hs as [Hs1 [Hs2 Hs3]%space_S]. assert (lu ≠ []) by (by intros ->; cbn in Hlen; lia).
  apply wp_bind. eapply wp_load; [done|]. apply wp_bind.
  eapply wp_mpn_mul_1; try done; [unfold ok_up, apart in *; lia|].
  intros r c m1 Hl1 Hw1 Hc Hval1 Hwr1. apply wp_bind, wp_store_writes.
  { destruct Hwr1 as (_ & _ & Hiff & _). by apply Hiff. }
  intros m2 Hwr2. pose proof (writes_app _ _ _ _ [c] m2 Hwr1) as Hwr12. rewrite Hl1 in Hwr12.
  specialize (Hwr12 Hwr2). destruct (r ++ [c]) as [|y lr] eqn:Hsplit; [by destruct r|].
  assert (length lr = length lu) as Hlr.
  { apply (f_equal length) in Hsplit. rewrite length_app in Hsplit. cbn in Hsplit. lia. }
  assert (words (y :: lr)) as Hw2 by (rewrite <- Hsplit; apply Forall_app; auto).
  assert (val (y :: lr) = val lu * v) as Hval2.
  { rewrite <- Hsplit, val_app, Hl1. cbn [val]. lia. }
  apply Forall_cons in Hw2 as [Hwy Hw2]. replace (Z.to_nat _) with (length lv) by lia.
  apply wp_bind. eapply (wp_mul_loop lu lv lr); try done.
  - eapply writes_holds; [done| |done]. cbn. rewrite Hlr. unfold apart, padd in *. cbn in *. lia.
  - eapply writes_holds; [done| |done]. cbn. rewrite Hlr. unfold apart, padd in *. cbn in *. lia.
  - by destruct Hwr12 as [[_ Hh]%holds_cons _].
  - eapply writes_space; [done|]. rewrite padd_padd in Hs3. by rewrite Z.add_comm.
  - unfold apart, padd in *. cbn in *. lia.
  - unfold apart, padd in *. cbn in *. lia.
  - intros r3 m3 Hl3 Hw3 Hval3 Hwr3. rewrite !padd_padd.
    pose proof (writes_over _ _ [y] lr m2 r3 m3 Hwr12 Hwr3 ltac:(lia)) as Hwr. cbn [app] in Hwr.
    destruct (exists_last (l := y :: r3)) as (r4 & c4 & Heq); [done|]. rewrite Heq in Hwr.
    assert (length (r4 ++ [c4]) = S (length lu + length lv)) as Hl4 by (rewrite <- Heq; cbn; lia).
    rewrite length_app in Hl4. cbn in Hl4.
    eapply (wp_load _ c4).
    { destruct Hwr as [[_ [Hc4 _]%holds_cons]%holds_app _]. rewrite <- Hc4. do 2 f_equal. lia. }
    apply (HQ r4); [rewrite length_app; cbn; lia|rewrite <- Heq; by apply words_cons| |done].
    rewrite <- Heq. cbn [val] in *. rewrite Hval3. lia.
Qed.

(** ** Comparison, copies and sizes *)

Lemma wp_cmp_loop la : ∀ lb ap bp m Q E,
  length lb = length la → words la → words lb → holds m ap la → holds m bp lb →
  Q (match val la ?= val lb with Lt => -1 | Eq => 0 | Gt => 1 end) m →
  wp (cmp_loop (length la) ap bp) Q E m.
Proof.
  induction la as [|a la IH] using rev_ind; intros lb ap bp m Q E Hlen Hwa Hwb Ha Hb HQ.
  { destruct lb; [|done]. by apply wp_ret. }
  destruct lb as [|b lb _] using rev_ind; [rewrite length_app in Hlen; cbn in Hlen; lia|].
  rewrite !length_app in *. cbn [length] in *. rewrite Nat.add_comm in *. cbn [Nat.add cmp_loop].
  assert (length lb = length la) as Hl by lia.
  apply Forall_app in Hwa as [Hwa [Hwx _]%Forall_cons], Hwb as [Hwb [Hwy _]%Forall_cons].
  apply holds_app in Ha as [Ha [Hx _]%holds_cons], Hb as [Hb [Hy _]%holds_cons]. rewrite Hl in Hy.
  apply wp_bind. eapply wp_load; [done|]. apply wp_bind. eapply wp_load; [done|].
  rewrite !val_app, Hl in HQ. cbn [val] in HQ. rewrite !Z.mul_0_r, !Z.add_0_r in HQ.
  pose proof (val_bound la Hwa) as Ba. pose proof (val_bound lb Hwb) as Bb. rewrite Hl in Bb.
  pose proof (wpow_pos (length la)).
  destruct (Z.eqb_spec a b) as [->|Hne]; cbn [negb].
  - eapply IH; try done. rewrite !(Z.add_comm _ (_ * b)), Z.add_compare_mono_l in HQ. done.
  - apply wp_ret. destruct (Z.ltb_spec b a).
    + assert (val la + wpow (length la) * a > val lb + wpow (length la) * b) as Hc by nia.
      by rewrite Hc in HQ.
    + assert (val la + wpow (length la) * a < val lb + wpow (length la) * b) as Hc by nia.
      by rewrite Hc in HQ.
Qed.

Lemma wp_mpn_cmp ap bp la lb m Q E :
  length lb = length la → words la → words lb → holds m ap la → holds m bp lb →
  Q (match val la ?= val lb with Lt => -1 | Eq => 0 | Gt => 1 end) m →
  wp (mpn_cmp ap bp (Z.of_nat (length la))) Q E m.
Proof. intros. unfold mpn_cmp. rewrite Nat2Z.id. by eapply wp_cmp_loop. Qed.

(** The highest limb is not 0, as the functions that compare or divide require. *)
Definition normal (l : list Z) : Prop := ∀ x, last l = Some x → x ≠ 0.

Lemma normal_bound l : words l → normal l → l ≠ [] → wpow (length l - 1) ≤ val l.
Proof.
  intros Hw Hn Hne. destruct l as [|x l _] using rev_ind; [done|]. specialize (Hn x (last_snoc _ _)).
  apply Forall_app in Hw as [Hw [Hx _]%Forall_cons]. rewrite length_app, val_app. cbn.
  replace (_ + 1 - 1)%nat with (length l) by lia. pose proof (val_bound l Hw).
  pose proof (wpow_pos (length l)). unfold word in *. nia.
Qed.

Lemma wp_mpn_cmp4 ap bp la lb m Q E :
  words la → words lb → normal la → normal lb → holds m ap la → holds m bp lb →
  Q (match val la ?= val lb with Lt => -1 | Eq => 0 | Gt => 1 end) m →
  wp (mpn_cmp4 ap (Z.of_nat (length la)) bp (Z.of_nat (length lb))) Q E m.
Proof.
  assert (∀ l k, words l → words k → normal k → (length l < length k)%nat → val l < val k) as Hlt.
  { intros l k Hl Hk Hnk Hlk. pose proof (val_bound l Hl) as Hb.
    pose proof (normal_bound k Hk Hnk ltac:(by intros ->; cbn in Hlk; lia)) as Hb2.
    assert (wpow (length l) ≤ wpow (length k - 1)); [|lia].
    unfold wpow. apply Z.pow_le_mono_r; unfold WB; lia. }
  intros Hwa Hwb Hna Hnb Ha Hb HQ. unfold mpn_cmp4.
  destruct (Z.eqb_spec (Z.of_nat (length la)) (Z.of_nat (length lb))) as [Heq|Hne]; cbn [negb].
  - apply (wp_mpn_cmp _ _ la lb); try done. lia.
  - apply wp_ret. destruct (Z.ltb_spec (Z.of_nat (length la)) (Z.of_nat (length lb))).
    + assert (val la < val lb) as Hc by (apply Hlt; try done; lia). by rewrite Hc in HQ.
    + assert (val la > val lb) as Hc by (apply Z.lt_gt, Hlt; try done; lia). by rewrite Hc in HQ.
Qed.
End mpn.
