(* ===== verification/MpnBits.v ===== *)
(** * Shifts, copies, complement and negation of limb arrays

    The functions of mini-gmp that move limbs or look at their bits: what each one
    computes on the values of its operands, and on which overlaps. *)

From S2P Require Import Prelude CString Queue State UInt64 Mpn MpnMem MpnThm.

(** ** One limb *)

Lemma two_parts k : 0 < k < 64 → WB = 2 ^ (64 - k) * 2 ^ k ∧ 0 < 2 ^ k ∧ 0 < 2 ^ (64 - k).
Proof.
  intros Hk. split; [|split; apply Z.pow_pos_nonneg; lia].
  rewrite <- Z.pow_add_r by lia. by replace (64 - k + k) with 64 by lia.
Qed.

(** A limb shifted left by [k] is the bits that leave it and the bits that stay. *)
Lemma limb_shl x k :
  word x → 0 < k < 64 →
  ∃ h l, Z.shiftr x (64 - k) = h ∧ u64 (Z.shiftl x k) = l * 2 ^ k ∧
    x * 2 ^ k = WB * h + l * 2 ^ k ∧ 0 ≤ h < 2 ^ k ∧ 0 ≤ l < 2 ^ (64 - k).
Proof.
  intros Hx Hk. rewrite Z.shiftr_div_pow2, Z.shiftl_mul_pow2 by lia.
  destruct (two_parts k Hk) as (HW & Hp & Hp2).
  set (p := 2 ^ k) in *. set (q := 2 ^ (64 - k)) in *.
  pose proof (Z.div_mod x q ltac:(lia)) as Hd. pose proof (Z.mod_pos_bound x q Hp2) as Hm.
  exists (x / q), (x mod q). unfold word in Hx.
  assert (0 ≤ x / q < p) as Hh by (split; [apply Z.div_pos; lia|apply Z.div_lt_upper_bound; nia]).
  split; [done|]. split; [|split; [rewrite HW; nia|split; [done|done]]].
  unfold u64. change (2 ^ 64) with WB. symmetry.
  apply Z.mod_unique with (x / q); rewrite HW; nia.
Qed.

(** The bits of [x] from [k] on, seen through a mask *)
Lemma high_bits x k j :
  0 ≤ k → 0 ≤ j → 0 ≤ x < 2 ^ (k + j) → (Z.land x (Z.shiftl (Z.ones j) k) =? 0) = (x <? 2 ^ k).
Proof.
  intros Hk Hj Hx. assert (Z.land x (Z.shiftl (Z.ones j) k) = x / 2 ^ k * 2 ^ k) as ->.
  { rewrite <- Z.shiftl_mul_pow2 by done. apply Z.bits_inj'. intros n Hn.
    rewrite Z.land_spec, !Z.shiftl_spec by done. destruct (Z.lt_ge_cases n k).
    - rewrite (Z.testbit_neg_r _ (n - k)), andb_false_r by lia. by rewrite Z.testbit_neg_r by lia.
    - rewrite <- Z.shiftr_div_pow2, Z.shiftr_spec by lia. replace (n - k + k) with n by lia.
      destruct (Z.lt_ge_cases (n - k) j).
      + by rewrite Z.ones_spec_low, andb_true_r by lia.
      + rewrite Z.ones_spec_high, andb_false_r by lia. symmetry.
        rewrite <- (Z.mod_small x (2 ^ (k + j))) by done. apply Z.mod_pow2_bits_high; lia. }
  assert (0 < 2 ^ k) by (apply Z.pow_pos_nonneg; lia). destruct (Z.ltb_spec x (2 ^ k)).
  - rewrite Z.div_small by lia. done.
  - apply Z.eqb_neq. assert (1 ≤ x / 2 ^ k) by (apply Z.div_le_lower_bound; lia). nia.
Qed.

Lemma shl_fits x k j : 0 ≤ k → 0 ≤ j → 0 ≤ x < 2 ^ j → k + j = 64 → u64 (Z.shiftl x k) = x * 2 ^ k.
Proof.
  intros Hk Hj0 Hx Hj. rewrite Z.shiftl_mul_pow2 by done. apply u64_small.
  assert (0 < 2 ^ k) by (apply Z.pow_pos_nonneg; lia).
  assert (WB = 2 ^ k * 2 ^ j) as -> by (rewrite <- Z.pow_add_r by lia; by rewrite Hj). nia.
Qed.

Lemma clz_bytes_ok fuel : ∀ x c,
  2 ^ (56 - 8 * Z.of_nat fuel) ≤ x < WB → (fuel ≤ 7)%nat →
  ∃ j, 0 ≤ j ≤ 8 * Z.of_nat fuel ∧ clz_bytes fuel x c = Ok (x * 2 ^ j, c + j) ∧ 2 ^ 56 ≤ x * 2 ^ j < WB.
Proof.
  induction fuel as [|fuel IH]; intros x c Hx Hf; cbn [clz_bytes]; change 255 with (Z.ones 8);
    assert (0 ≤ x) as Hx0 by (eapply Z.le_trans; [|apply Hx]; apply Z.pow_nonneg; lia);
    rewrite high_bits by (split || idtac; done || apply Hx).
  - exists 0. rewrite (proj2 (Z.ltb_ge _ _)) by apply Hx. rewrite Z.mul_1_r, Z.add_0_r. repeat split; lia || apply Hx.
  - destruct (Z.ltb_spec x (2 ^ 56)).
    + assert (2 ^ (56 - 8 * Z.of_nat (S fuel)) * 2 ^ 8 = 2 ^ (56 - 8 * Z.of_nat fuel)) as Hp
        by (rewrite <- Z.pow_add_r by lia; f_equal; lia).
      rewrite (shl_fits x 8 56) by done.
      destruct (IH (x * 2 ^ 8) (c + 8)) as (j & Hj & -> & Hb); [|lia|].
      { rewrite <- Hp. unfold WB in *. lia. }
      exists (8 + j). rewrite Z.pow_add_r, Z.mul_assoc by lia. split; [lia|]. split; [|done]. do 2 f_equal. lia.
    + exists 0. rewrite Z.mul_1_r, Z.add_0_r. repeat split; lia || apply Hx.
Qed.

Lemma clz_bits_ok fuel : ∀ x c,
  2 ^ (63 - Z.of_nat fuel) ≤ x < WB → (fuel ≤ 7)%nat →
  ∃ j, 0 ≤ j ≤ Z.of_nat fuel ∧ clz_bits fuel x c = Ok (c + j) ∧ 2 ^ 63 ≤ x * 2 ^ j < WB.
Proof.
  induction fuel as [|fuel IH]; intros x c Hx Hf; cbn [clz_bits]; unfold GMP_LIMB_HIGHBIT;
    change 1 with (Z.ones 1) at 1;
    assert (0 ≤ x) as Hx0 by (eapply Z.le_trans; [|apply Hx]; apply Z.pow_nonneg; lia);
    rewrite high_bits by (split || idtac; done || apply Hx).
  - exists 0. rewrite (proj2 (Z.ltb_ge _ _)) by apply Hx. rewrite Z.mul_1_r, Z.add_0_r. repeat split; lia || apply Hx.
  - destruct (Z.ltb_spec x (2 ^ 63)).
    + assert (2 ^ (63 - Z.of_nat (S fuel)) * 2 ^ 1 = 2 ^ (63 - Z.of_nat fuel)) as Hp
        by (rewrite <- Z.pow_add_r by lia; f_equal; lia).
      rewrite (shl_fits x 1 63) by done.
      destruct (IH (x * 2 ^ 1) (c + 1)) as (j & Hj & -> & Hb); [|lia|].
      { rewrite <- Hp. unfold WB in *. lia. }
      exists (1 + j). rewrite Z.pow_add_r, Z.mul_assoc by lia. split; [lia|]. split; [|done]. f_equal. lia.
    + exists 0. rewrite Z.mul_1_r, Z.add_0_r. repeat split; lia || apply Hx.
Qed.

(** [gmp_clz] counts the leading zeros of a limb that is not 0. *)
Lemma gmp_clz_ok x : 0 < x < WB → ∃ k, gmp_clz x = Ok k ∧ 0 ≤ k < 64 ∧ 2 ^ 63 ≤ x * 2 ^ k < WB.
Proof.
  intros Hx. unfold gmp_clz. destruct (clz_bytes_ok 7 x 0) as (j & Hj & -> & Hb); [cbn; lia|lia|].
  destruct (clz_bits_ok 7 (x * 2 ^ j) j) as (i & Hi & Hc & Hb2); [done|lia|].
  exists (j + i). change (0 + j) with j. change (clz_bits 7 (x * 2 ^ j) j = Ok (j + i) ∧ 0 ≤ j + i < 64 ∧ 2 ^ 63 ≤ x * 2 ^ (j + i) < WB). rewrite Hc. rewrite Z.pow_add_r, Z.mul_assoc by lia. split; [done|].
  split; [|done]. lia.
Qed.

Lemma odd_part n x : 0 < x < 2 ^ Z.of_nat n → ∃ k q, 0 ≤ k < Z.of_nat n ∧ 0 ≤ q ∧ x = (2 * q + 1) * 2 ^ k.
Proof.
  revert x. induction n as [|n IH]; intros x Hx; [cbn in Hx; lia|].
  destruct (Z.Even_or_Odd x) as [[y ->]|[y ->]].
  - rewrite Nat2Z.inj_succ, Z.pow_succ_r in Hx by lia. destruct (IH y) as (k & q & Hk & Hq & ->); [lia|].
    exists (k + 1), q. rewrite Z.pow_add_r by lia. lia.
  - exists 0, y. lia.
Qed.

(** [x & -x] is the lowest bit of [x]. *)
Lemma lowest_bit q k : 0 ≤ k < 64 → 0 ≤ q → (2 * q + 1) * 2 ^ k < WB →
  Z.land ((2 * q + 1) * 2 ^ k) (u64 (- ((2 * q + 1) * 2 ^ k))) = 2 ^ k.
Proof.
  intros Hk Hq Hx. assert (0 < 2 ^ k) by (apply Z.pow_pos_nonneg; lia).
  rewrite u64_add by (unfold WB in *; nia). set (j := 63 - k).
  assert (WB = 2 * 2 ^ j * 2 ^ k) as HW.
  { rewrite <- Z.pow_succ_r, <- Z.pow_add_r by lia. by replace (Z.succ j + k) with 64 by lia. }
  assert (0 ≤ q < 2 ^ j) as Hqj by nia.
  replace (- _ + WB) with ((2 * (Z.ones j - q) + 1) * 2 ^ k) by (rewrite HW, Z.ones_equiv; lia).
  rewrite <- !Z.shiftl_mul_pow2, <- Z.shiftl_land by lia.
  assert (Z.land (2 * q + 1) (2 * (Z.ones j - q) + 1) = 1) as ->; [|by rewrite Z.shiftl_1_l].
  rewrite (Z.sub_nocarry_ldiff (Z.ones j) q).
  2:{ destruct (decide (q = 0)) as [->|]; [done|]. apply Z.ldiff_ones_r_low; [lia|].
      apply Z.log2_lt_pow2; lia. }
  apply Z.bits_inj'. intros n Hn. rewrite Z.land_spec. destruct (decide (n = 0)) as [->|Hn0].
  - by rewrite !Z.testbit_odd_0.
  - replace n with (Z.succ (n - 1)) by lia. rewrite !Z.testbit_odd_succ by lia.
    rewrite Z.ldiff_spec.
    assert (Z.testbit 1 (Z.succ (n - 1)) = false) as -> by (apply (Z.bits_above_log2 1); cbn; lia).
    by destruct (Z.testbit q (n - 1)), (Z.testbit (Z.ones j) (n - 1)).
Qed.

(** [gmp_ctz] counts the trailing zeros of a limb that is not 0. *)
Lemma gmp_ctz_ok x : 0 < x < WB → ∃ k q, gmp_ctz x = Ok k ∧ 0 ≤ k < 64 ∧ 0 ≤ q ∧ x = (2 * q + 1) * 2 ^ k.
Proof.
  intros Hx. destruct (odd_part 64 x Hx) as (k & q & Hk & Hq & ->). exists k, q.
  split; [|repeat split; lia]. unfold gmp_ctz. rewrite lowest_bit by (done || lia).
  assert (0 < 2 ^ k < WB) as Hp by (split; [apply Z.pow_pos_nonneg; lia|change WB with (2 ^ 64); apply Z.pow_lt_mono_r; lia]).
  destruct (gmp_clz_ok (2 ^ k) Hp) as (c & -> & Hc & Hb). cbn. f_equal. unfold GMP_LIMB_BITS.
  rewrite <- Z.pow_add_r in Hb by lia. destruct Hb as [Hb1 Hb2].
  apply Z.pow_le_mono_r_iff in Hb1; [|lia..]. change WB with (2 ^ 64) in Hb2. apply Z.pow_lt_mono_r_iff in Hb2; lia.
Qed.

Section bits.
Implicit Types (m : mem) (rp ap up xp : ptr) (la l r : list Z).

(** ** Copies *)

Lemma wp_copyi_loop l : ∀ dp sp i m Q E,
  holds m (padd sp i) l → space m (padd dp i) (length l) → ok_up (padd dp i) (padd sp i) (length l) →
  (∀ m', writes m (padd dp i) l m' → Q tt m') →
  wp (copyi_loop (length l) dp sp i) Q E m.
Proof.
  induction l as [|x l IH]; intros dp sp i m Q E Hh Hs Ho HQ; cbn [length copyi_loop].
  { apply wp_ret, HQ. auto with limbs. }
  pose proof Hh as [Hx _]%holds_cons. pose proof Hs as [Hsx _]%space_S.
  apply wp_bind. eapply wp_load; [done|]. apply wp_bind, wp_store_writes; [done|]. intros m1 Hw.
  destruct (step_up _ _ _ _ _ _ _ Hw Ho Hh) as [Hh1 Ho1]. pose proof (step_space _ _ _ _ _ Hw Hs) as Hs1.
  rewrite <- !padd_succ in *. eapply IH; [done..|]. intros m2 Hw2. apply HQ.
  rewrite padd_succ in Hw2. by eapply writes_cons.
Qed.

Lemma wp_mpn_copyi dp sp l m Q E :
  holds m sp l → space m dp (length l) → ok_up dp sp (length l) →
  (∀ m', writes m dp l m' → Q tt m') →
  wp (mpn_copyi dp sp (Z.of_nat (length l))) Q E m.
Proof.
  intros. unfold mpn_copyi. rewrite Nat2Z.id. by apply wp_copyi_loop; rewrite ?padd_0.
Qed.

Lemma wp_copyd_loop l : ∀ dp sp m Q E,
  holds m sp l → space m dp (length l) → ok_down dp sp (length l) →
  (∀ m', writes m dp l m' → Q tt m') →
  wp (copyd_loop (length l) dp sp) Q E m.
Proof.
  induction l as [|x l IH] using rev_ind; intros dp sp m Q E Hh Hs Ho HQ.
  { apply wp_ret, HQ. auto with limbs. }
  rewrite length_app in *. cbn [length] in *. apply space_app in Hs as [Hs [Hsx _]%space_S].
  rewrite Nat.add_comm in *. cbn [Nat.add copyd_loop]. apply holds_app in Hh as [Hh [Hx _]%holds_cons].
  apply wp_bind. eapply wp_load; [done|]. apply wp_bind, wp_store_writes; [done|]. intros m1 Hw.
  apply IH.
  - eapply writes_holds; [done| |done]. unfold ok_down, apart, padd in *. cbn in *. lia.
  - by eapply writes_space.
  - unfold ok_down in *. lia.
  - intros m2 Hw2. apply HQ. by eapply writes_app_down.
Qed.

Lemma wp_mpn_copyd dp sp l m Q E :
  holds m sp l → space m dp (length l) → ok_down dp sp (length l) →
  (∀ m', writes m dp l m' → Q tt m') →
  wp (mpn_copyd dp sp (Z.of_nat (length l))) Q E m.
Proof. intros. unfold mpn_copyd. rewrite Nat2Z.id. by apply wp_copyd_loop. Qed.

Lemma wp_mpn_zero rp n m Q E :
  space m rp n → (∀ m', writes m rp (replicate n 0) m' → Q tt m') →
  wp (mpn_zero rp (Z.of_nat n)) Q E m.
Proof.
  unfold mpn_zero. rewrite Nat2Z.id. revert m Q. induction n as [|n IH]; intros m Q Hs HQ; cbn [zero_loop].
  { apply wp_ret, HQ. auto with limbs. }
  rewrite <- Nat.add_1_r in Hs. apply space_app in Hs as [Hs [Hsx _]%space_S].
  apply wp_bind, wp_store_writes; [done|]. intros m1 Hw. apply IH; [by eapply writes_space|].
  intros m2 Hw2. apply HQ. rewrite replicate_S_end. eapply writes_app_down; [|done].
  by rewrite length_replicate.
Qed.

(** ** Sizes *)

Lemma val_zeros n : val (replicate n 0) = 0.
Proof. induction n as [|n IH]; cbn [replicate val]; lia. Qed.

(** The size without the leading zeros *)
Lemma wp_mpn_normalized_size xp l m Q E :
  holds m xp l →
  (∀ k, (k ≤ length l)%nat → normal (take k l) → l = take k l ++ replicate (length l - k) 0 →
     Q (Z.of_nat k) m) →
  wp (mpn_normalized_size xp (Z.of_nat (length l))) Q E m.
Proof.
  intros Hh HQ. unfold mpn_normalized_size. rewrite (proj2 (Z.ltb_ge _ _)) by lia. rewrite Nat2Z.id.
  induction l as [|x l IH] using rev_ind; cbn [length normalized_loop].
  { apply wp_ret. apply (HQ 0%nat); [lia|by intros x|done]. }
  pose proof Hh as Hh0. apply holds_app in Hh as [Hh [Hx _]%holds_cons].
  rewrite length_app in *. cbn [length] in *. rewrite Nat.add_comm in *. cbn [Nat.add normalized_loop].
  apply wp_bind. eapply wp_load; [done|]. destruct (Z.eqb_spec x 0) as [->|Hne].
  - apply IH; [done|]. intros k Hk Hn Hl. apply HQ; [lia|by rewrite take_app_le|].
    rewrite take_app_le by done. replace (_ - k)%nat with (S (length l - k)) by lia.
    rewrite replicate_S_end, app_assoc. by rewrite <- Hl.
  - apply wp_ret. apply (HQ (S (length l))); [lia| |].
    + rewrite take_ge by (rewrite length_app; cbn; lia). intros y. rewrite last_snoc. congruence.
    + rewrite take_ge by (rewrite length_app; cbn; lia). rewrite Nat.sub_diag. cbn. by rewrite app_nil_r.
Qed.

(** ** Complement and negation *)

Lemma wp_mpn_com rp up la m Q E :
  words la → holds m up la → space m rp (length la) → ok_up rp up (length la) →
  (∀ r m', length r = length la → words r → val r = wpow (length la) - 1 - val la →
     writes m rp r m' → Q tt m') →
  wp (mpn_com rp up (Z.of_nat (length la))) Q E m.
Proof.
  unfold mpn_com. rewrite Nat2Z.id. revert rp up m Q.
  induction la as [|a la IH]; intros rp up m Q Hwa Ha Hs Ho HQ; cbn [length com_loop].
  { apply wp_ret. apply (HQ []); auto with limbs. }
  apply Forall_cons in Hwa as [Hwx Hwa]. pose proof Ha as [Hx _]%holds_cons.
  pose proof Hs as [Hsx _]%space_S.
  apply wp_bind. eapply wp_load; [done|]. apply wp_bind, wp_store_writes; [done|]. intros m1 Hw.
  destruct (step_up _ _ _ _ _ _ _ Hw Ho Ha) as [Ha1 Ho1]. pose proof (step_space _ _ _ _ _ Hw Hs) as Hs1.
  eapply IH; [done..|]. intros r m' Hl Hr Hv Hw'.
  apply (HQ (limb_not a :: r)); [cbn; lia| | |by eapply writes_cons].
  - apply words_cons; [|done]. unfold word, limb_not, GMP_LIMB_MAX, WB in *. lia.
  - cbn [val length]. rewrite wpow_S, Hv. unfold limb_not, GMP_LIMB_MAX, WB. lia.
Qed.

Lemma wp_neg_loop la : ∀ rp up m Q E,
  la ≠ [] → words la → holds m up la → space m rp (length la) → ok_up rp up (length la) →
  (∀ r c m', length r = length la → words r → val r = wpow (length la) * c - val la →
     c = b2z (negb (val la =? 0)) → writes m rp r m' → Q c m') →
  wp (neg_loop (length la) rp up (Z.of_nat (length la))) Q E m.
Proof.
  induction la as [|a la IH]; intros rp up m Q E Hne Hwa Ha Hs Ho HQ; cbn [length neg_loop]; [done|].
  apply Forall_cons in Hwa as [Hwx Hwa]. pose proof Ha as [Hx _]%holds_cons.
  pose proof Hs as [Hsx _]%space_S. pose proof (val_bound la Hwa) as Hb.
  apply wp_bind. eapply wp_load; [done|]. destruct (Z.eqb_spec a 0) as [->|Ha0].
  - apply wp_bind, wp_store_writes; [done|]. intros m1 Hw.
    destruct (step_up _ _ _ _ _ _ _ Hw Ho Ha) as [Ha1 Ho1]. pose proof (step_space _ _ _ _ _ Hw Hs) as Hs1.
    replace (Z.of_nat (S (length la)) - 1) with (Z.of_nat (length la)) by lia.
    destruct (Z.eqb_spec (Z.of_nat (length la)) 0).
    + destruct la; [|cbn in *; lia]. apply wp_ret. apply (HQ [0]); auto with limbs.
    + eapply IH; try done; [by intros ->|]. intros r c m' Hl Hr Hv Hc Hw'.
      apply (HQ (0 :: r)); [cbn; lia|by apply words_cons| | |by eapply writes_cons].
      * cbn [val length]. rewrite wpow_S, Hv. lia.
      * rewrite Hc. cbn [val].
        destruct (Z.eqb_spec (val la) 0), (Z.eqb_spec (0 + WB * val la) 0); unfold WB in *; lia.
  - apply wp_bind, wp_store_writes; [done|]. intros m1 Hw.
    destruct (step_up _ _ _ _ _ _ _ Hw Ho Ha) as [Ha1 Ho1]. pose proof (step_space _ _ _ _ _ Hw Hs) as Hs1.
    apply wp_bind. replace (Z.of_nat (S (length la)) - 1) with (Z.of_nat (length la)) by lia.
    eapply wp_mpn_com; [done..|]. intros r m' Hl Hr Hv Hw'. apply wp_ret.
    apply (HQ (u64 (- a) :: r)); [cbn; lia|apply words_cons; [apply u64_word|done]| | |by eapply writes_cons].
    + cbn [val length]. unfold word in Hwx. rewrite u64_add, wpow_S, Hv by (unfold WB in *; lia). lia.
    + cbn [val]. unfold word in Hwx. rewrite (proj2 (Z.eqb_neq _ _)); [done|]. unfold WB in *. lia.
Qed.
(** ** Shifts *)

Lemma wp_lshift_loop l : ∀ rp up cnt h m Q E,
  0 < cnt < 64 → words l → holds m up l → space m rp (S (length l)) → ok_down rp up (S (length l)) →
  0 ≤ h < 2 ^ (64 - cnt) →
  (∀ r m', length r = S (length l) → words r →
     val r = val l * 2 ^ cnt + wpow (length l) * (h * 2 ^ cnt) → writes m rp r m' → Q tt m') →
  wp (lshift_loop (length l) (padd rp (Z.of_nat (S (length l)))) (padd up (Z.of_nat (length l)))
        cnt (64 - cnt) (h * 2 ^ cnt)) Q E m.
Proof.
  induction l as [|x l IH] using rev_ind; intros rp up cnt h m Q E Hc Hw Hh Hs Ho Hb HQ.
  { cbn [length lshift_loop]. rewrite padd_padd. replace (_ + -1) with 0 by lia. rewrite padd_0.
    apply space_S in Hs as [Hs _]. apply wp_store_writes; [done|]. intros m' Hw'.
    apply (HQ [h * 2 ^ cnt]); [done| | |done].
    - apply words_cons; [|constructor]. pose proof (two_parts cnt Hc) as (HW & Hp1 & Hp2).
      unfold word. rewrite HW. nia.
    - cbn. rewrite wpow_0. lia. }
  rewrite length_app in *. cbn [length] in *. apply Forall_app in Hw as [Hw [Hwx _]%Forall_cons].
  apply holds_app in Hh as [Hh [Hx _]%holds_cons].
  rewrite Nat.add_comm in *. change (1 + length l)%nat with (S (length l)) in *.
  replace (S (S (length l))) with (S (length l) + 1)%nat in Hs by lia.
  apply space_app in Hs as [Hs [Hsx _]%space_S]. cbn [lshift_loop]. rewrite !padd_padd.
  replace (Z.of_nat (S (length l)) + -1) with (Z.of_nat (length l)) by lia.
  replace (Z.of_nat (S (S (length l))) + -1) with (Z.of_nat (S (length l))) by lia.
  apply wp_bind. eapply wp_load; [done|].
  destruct (limb_shl x cnt Hwx Hc) as (xh & xl & -> & -> & Hval & Hxh & Hxl).
  rewrite lor_add by (done || lia). apply wp_bind, wp_store_writes; [done|]. intros m1 Hw1.
  apply IH; try done.
  - eapply writes_holds; [done| |done]. unfold ok_down, apart, padd in *. cbn in *. lia.
  - by eapply writes_space.
  - unfold ok_down in *. lia.
  - intros r m2 Hl Hr Hv Hw2. apply (HQ (r ++ [h * 2 ^ cnt + xh])).
    + rewrite length_app. cbn. lia.
    + apply Forall_app. split; [done|]. apply words_cons; [|constructor].
      destruct (two_parts cnt Hc) as (HW & Hp1 & Hp2). unfold word. rewrite HW. nia.
    + rewrite !val_app, Hv, Hl. cbn [val]. rewrite wpow_S. unfold WB in *. nia.
    + eapply writes_app_down; [|done]. by rewrite Hl.
Qed.

(** The value times [2 ^ cnt]: the bits that leave the array are returned. *)
Lemma wp_mpn_lshift rp up la cnt m Q E :
  la ≠ [] → 1 ≤ cnt < 64 → words la → holds m up la → space m rp (length la) →
  ok_down rp up (length la) →
  (∀ r c m', length r = length la → words r → 0 ≤ c < 2 ^ cnt →
     val r + wpow (length la) * c = val la * 2 ^ cnt → writes m rp r m' → Q c m') →
  wp (mpn_lshift rp up (Z.of_nat (length la)) cnt) Q E m.
Proof.
  intros Hne Hc Hw Hh Hs Ho HQ. destruct la as [|x l _] using rev_ind; [done|].
  rewrite length_app in *. cbn [length] in *. rewrite Nat.add_1_r in *. unfold mpn_lshift.
  do 2 (apply wp_bind, wp_massert; [apply Z.leb_le; lia|]).
  apply wp_bind, wp_massert; [apply Z.ltb_lt; unfold GMP_LIMB_BITS; lia|].
  apply holds_app in Hh as [Hh [Hx _]%holds_cons]. apply Forall_app in Hw as [Hw [Hwx _]%Forall_cons].
  rewrite !padd_padd. replace (Z.of_nat (S (length l)) + -1) with (Z.of_nat (length l)) by lia.
  apply wp_bind. eapply wp_load; [done|]. unfold GMP_LIMB_BITS.
  destruct (limb_shl x cnt Hwx ltac:(lia)) as (xh & xl & -> & -> & Hval & Hxh & Hxl).
  replace (Z.to_nat _) with (length l) by lia. apply wp_bind. apply wp_lshift_loop; try done; [lia|].
  intros r m' Hl Hr Hv Hw'. apply wp_ret. eapply HQ; try done.
  rewrite Hv, val_app. cbn [val]. rewrite wpow_S. unfold WB in *. nia.
Qed.

Lemma wp_rshift_loop l : ∀ rp up cnt lo m Q E,
  0 < cnt < 64 → words l → holds m up l → space m rp (S (length l)) →
  ok_up rp (padd up (-1)) (S (length l)) → 0 ≤ lo < 2 ^ (64 - cnt) →
  (∀ r m', length r = S (length l) → words r →
     val r = lo + val l * 2 ^ (64 - cnt) → writes m rp r m' → Q tt m') →
  wp (rshift_loop (length l) rp up cnt (64 - cnt) lo) Q E m.
Proof.
  induction l as [|x l IH]; intros rp up cnt lo m Q E Hc Hw Hh Hs Ho Hb HQ; cbn [length rshift_loop].
  { apply space_S in Hs as [Hs _]. apply wp_store_writes; [done|]. intros m' Hw'.
    destruct (two_parts cnt Hc) as (HW & Hp1 & Hp2).
    apply (HQ [lo]); [done| |cbn; lia|done].
    apply words_cons; [|constructor]. unfold word. rewrite HW. nia. }
  apply Forall_cons in Hw as [Hwx Hw]. apply holds_cons in Hh as [Hx Hh].
  pose proof Hs as [Hsx _]%space_S.
  apply wp_bind. eapply wp_load; [done|].
  destruct (limb_shl x (64 - cnt) Hwx ltac:(lia)) as (xh & xl & Hxs & -> & Hval & Hxh & Hxl).
  replace (64 - (64 - cnt)) with cnt in * by lia. rewrite Hxs.
  rewrite Z.lor_comm, lor_add by (done || lia). apply wp_bind, wp_store_writes; [done|]. intros m1 Hw1.
  apply IH; try done.
  - eapply writes_holds; [done| |done]. unfold ok_up, apart, padd in *. cbn in *. lia.
  - by eapply step_space.
  - unfold ok_up, padd in *. cbn in *. lia.
  - intros r m2 Hl Hr Hv Hw2. apply (HQ (xl * 2 ^ (64 - cnt) + lo :: r)); [cbn; lia| | |by eapply writes_cons].
    + apply words_cons; [|done]. destruct (two_parts cnt Hc) as (HW & Hp1 & Hp2). unfold word. rewrite HW. nia.
    + cbn [val]. rewrite Hv. unfold WB in *. lia.
Qed.

(** The value divided by [2 ^ cnt]: the bits that leave the array are returned at the top
    of a limb. *)
Lemma wp_mpn_rshift rp up la cnt m Q E :
  la ≠ [] → 1 ≤ cnt < 64 → words la → holds m up la → space m rp (length la) →
  ok_up rp up (length la) →
  (∀ r c m', length r = length la → words r → 0 ≤ c < 2 ^ cnt →
     val la = val r * 2 ^ cnt + c → writes m rp r m' → Q (c * 2 ^ (64 - cnt)) m') →
  wp (mpn_rshift rp up (Z.of_nat (length la)) cnt) Q E m.
Proof.
  intros Hne Hc Hw Hh Hs Ho HQ. destruct la as [|x l]; [done|]. cbn [length] in *. unfold mpn_rshift.
  do 2 (apply wp_bind, wp_massert; [apply Z.leb_le; lia|]).
  apply wp_bind, wp_massert; [apply Z.ltb_lt; unfold GMP_LIMB_BITS; lia|].
  apply Forall_cons in Hw as [Hwx Hw]. apply holds_cons in Hh as [Hx Hh].
  apply wp_bind. eapply wp_load; [done|]. unfold GMP_LIMB_BITS.
  destruct (limb_shl x (64 - cnt) Hwx ltac:(lia)) as (xh & xl & Hxs & -> & Hval & Hxh & Hxl).
  replace (64 - (64 - cnt)) with cnt in * by lia. rewrite Hxs.
  replace (Z.to_nat _) with (length l) by lia. apply wp_bind.
  apply wp_rshift_loop; try done; [lia|rewrite padd_padd; by rewrite padd_0|].
  intros r m' Hl Hr Hv Hw'. apply wp_ret. eapply HQ; try done.
  rewrite Hv. cbn [val]. destruct (two_parts cnt ltac:(lia)) as (HW & Hp1 & Hp2). rewrite HW in *. nia.
Qed.
(** ** Bit scans *)

Lemma val_testbit l i x j :
  words l → l !! i = Some x → 0 ≤ j < 64 → Z.testbit (val l) (64 * Z.of_nat i + j) = Z.testbit x j.
Proof.
  intros Hw. revert i. induction Hw as [|y l Hy Hw IH]; intros i Hi Hj; [done|]. cbn [val].
  unfold word in Hy. destruct i as [|i]; cbn in Hi.
  - simplify_eq. rewrite <- (Z.mod_pow2_bits_low _ 64) by lia. f_equal.
    rewrite Z.mul_comm. change WB with (2 ^ 64). rewrite Z.mod_add by done.
    by apply Z.mod_small.
  - replace (64 * Z.of_nat (S i) + j) with (64 * Z.of_nat i + j + 64) by lia.
    rewrite <- Z.div_pow2_bits by lia. rewrite <- (IH i) by done. f_equal.
    change WB with (2 ^ 64). rewrite Z.mul_comm, Z.div_add by done. by rewrite Z.div_small by done.
Qed.

(** [k] is the first position from [from] on where bit [b] of [v] is found. *)
Definition first_bit (v : Z) (b : bool) (from k : Z) : Prop :=
  from ≤ k ∧ Z.testbit v k = b ∧ ∀ j, from ≤ j < k → Z.testbit v j = negb b.

(** The limb whose lowest bit the scan finds *)
Definition scans (ux limb : Z) (l : list Z) (n : nat) (x : Z) : Prop :=
  (limb :: map (Z.lxor ux) l) !! n = Some x ∧ x ≠ 0 ∧
  ∀ i, (i < n)%nat → (limb :: map (Z.lxor ux) l) !! i = Some 0.

Lemma scans_cons ux y l n x : scans ux (Z.lxor ux y) l n x ↔ scans ux 0 (y :: l) (S n) x.
Proof.
  unfold scans. cbn. split.
  - intros (H1 & H2 & H3). split_and!; try done. intros [|i] Hi; [done|]. apply H3. lia.
  - intros (H1 & H2 & H3). split_and!; try done. intros i Hi. apply (H3 (S i)). lia.
Qed.

Lemma wp_scan_loop l : ∀ fuel limb i up un ux n x m Q E,
  un ≤ i → word limb → Forall (λ x, word (Z.lxor ux x)) l → holds m (padd up (i + 1)) l →
  scans ux limb l n x → (n ≤ fuel)%nat →
  (∀ k, gmp_ctz x = Ok k → Q (u64 (u64 ((i + Z.of_nat n) * 64) + k)) m) →
  wp (scan_loop fuel limb i up un ux) Q E m.
Proof.
  induction l as [|y l IH]; intros fuel limb i up un ux n x m Q E Hun Hwl Hw Hh Hsc Hf HQ.
  all: destruct n as [|n].
  all: try (destruct Hsc as (H1 & H2 & H3); cbn in H1; simplify_eq;
    unfold scan_loop; destruct fuel; rewrite (proj2 (Z.eqb_neq _ _) H2);
    destruct (gmp_ctz_ok x ltac:(unfold word in *; lia)) as (k & q & Hk & _);
    apply wp_bind; rewrite Hk; apply wp_ret; replace i with (i + Z.of_nat 0) by lia; by apply HQ).
  assert (limb = 0) as ->. { destruct Hsc as (_ & _ & H3). specialize (H3 0%nat ltac:(lia)). cbn in H3. congruence. }
  destruct fuel as [|fuel]; [lia|]. cbn [scan_loop]. rewrite Z.eqb_refl.
  rewrite (proj2 (Z.eqb_neq _ _)) by lia. apply holds_cons in Hh as [Hx Hh].
  apply Forall_cons in Hw as [Hwy Hw]. apply wp_bind. eapply wp_load; [done|].
  apply scans_cons in Hsc. eapply IH; [lia|done|done| |done|lia|].
  { by rewrite padd_padd in Hh. }
  intros k Hk. replace (i + 1 + Z.of_nat n) with (i + Z.of_nat (S n)) by lia. by apply HQ.
Qed.
Lemma first_nonzero (l : list Z) n x :
  l !! n = Some x → x ≠ 0 → ∃ k y, l !! k = Some y ∧ y ≠ 0 ∧ ∀ i, (i < k)%nat → l !! i = Some 0.
Proof.
  revert n. induction l as [|z l IH]; intros n Hn Hx; [done|].
  destruct (decide (z = 0)) as [->|Hz]; [|exists 0%nat, z; split_and!; [done..|lia]].
  destruct n as [|n]; cbn in Hn; [congruence|]. destruct (IH n Hn Hx) as (k & y & Hk & Hy & Hlt).
  exists (S k), y. split_and!; [done..|]. intros [|i] Hi; [done|]. apply Hlt. lia.
Qed.

Definition scan_mask (b : bool) : Z := if b then 0 else GMP_LIMB_MAX.

Lemma mask_lxor b x j : 0 ≤ j < 64 → Z.testbit (Z.lxor (scan_mask b) x) j = true ↔ Z.testbit x j = b.
Proof.
  intros Hj. rewrite Z.lxor_spec. destruct b; cbn [scan_mask].
  - rewrite Z.bits_0. by destruct (Z.testbit x j).
  - change GMP_LIMB_MAX with (Z.ones 64). rewrite Z.ones_spec_low by lia. by destruct (Z.testbit x j).
Qed.

Lemma mask_lxor_not x : word x → Z.lxor GMP_LIMB_MAX x = limb_not x.
Proof.
  unfold word, limb_not. intros Hx. change GMP_LIMB_MAX with (Z.ones 64).
  rewrite (Z.sub_nocarry_ldiff (Z.ones 64) x).
  - apply Z.bits_inj'. intros n Hn. rewrite Z.lxor_spec, Z.ldiff_spec.
    destruct (Z.lt_ge_cases n 64); [by rewrite Z.ones_spec_low by lia|].
    rewrite Z.ones_spec_high by lia. rewrite <- (Z.mod_small x (2 ^ 64)) by done.
    by rewrite Z.mod_pow2_bits_high by lia.
  - destruct (decide (x = 0)) as [->|]; [done|]. apply Z.ldiff_ones_r_low; [lia|]. apply Z.log2_lt_pow2; [lia|apply Hx].
Qed.

Lemma mask_word b x : word x → word (Z.lxor (scan_mask b) x).
Proof.
  intros Hx. destruct b; cbn [scan_mask]; [by rewrite Z.lxor_0_l|].
  rewrite mask_lxor_not by done. unfold word, limb_not, GMP_LIMB_MAX, WB in *. lia.
Qed.

(** The bits of the limbs that the scan looks at are the bits of the number from [bit] on. *)
Lemma scan_bits b la bit i x0 n x j :
  words la → 0 ≤ bit → i = Z.to_nat (bit / 64) → la !! i = Some x0 → 0 ≤ j < 64 →
  (Z.land (Z.lxor (scan_mask b) x0) (u64 (Z.shiftl GMP_LIMB_MAX (bit mod 64))) ::
     map (Z.lxor (scan_mask b)) (drop (S i) la)) !! n = Some x →
  Z.testbit x j = true ↔
  bit ≤ 64 * Z.of_nat (i + n) + j ∧ Z.testbit (val la) (64 * Z.of_nat (i + n) + j) = b.
Proof.
  intros Hw Hb -> Hx0 Hj Hn. pose proof (Z.div_mod bit 64 ltac:(lia)) as Hdm.
  pose proof (Z.mod_pos_bound bit 64 ltac:(lia)) as Hmb. pose proof (Z.div_pos bit 64 Hb ltac:(lia)) as Hdp.
  destruct n as [|n]; cbn in Hn.
  - simplify_eq. rewrite Nat.add_0_r, (val_testbit la _ x0) by done. rewrite Z.land_spec.
    rewrite andb_true_iff, mask_lxor by done. unfold u64. change WB with (2 ^ 64). rewrite Z.mod_pow2_bits_low by lia.
    rewrite Z.shiftl_spec by lia. change GMP_LIMB_MAX with (Z.ones 64).
    destruct (Z.lt_ge_cases j (bit mod 64)).
    + rewrite (Z.testbit_neg_r _ (j - bit mod 64)) by lia. split; [by intros [_ ?]|]. intros [? _]. lia.
    + rewrite Z.ones_spec_low by lia. split; intros [? ?]; split; (done || lia).
  - apply list_lookup_fmap_Some in Hn as (y & -> & Hn). rewrite lookup_drop in Hn.
    rewrite mask_lxor by done. rewrite (val_testbit la _ y); [|done| |done].
    + split; [|by intros [_ ?]]. intros ?. split; [lia|done].
    + rewrite <- Hn. f_equal. lia.
Qed.
Lemma land_word a b : 0 ≤ a → word b → word (Z.land a b).
Proof.
  intros Ha Hb. assert (Z.land a b = Z.land a b mod 2 ^ 64) as ->; [|apply Z.mod_pos_bound; done].
  apply Z.bits_inj'. intros n Hn. destruct (Z.lt_ge_cases n 64); [by rewrite Z.mod_pow2_bits_low|].
  rewrite Z.mod_pow2_bits_high, Z.land_spec by lia. rewrite <- (Z.mod_small b (2 ^ 64)) by apply Hb.
  rewrite (Z.mod_pow2_bits_high b) by lia. apply andb_false_r.
Qed.

Section scan.
Context (b : bool) (la : list Z) (bit : Z) (i : nat) (x0 : Z).
Hypotheses (Hw : words la) (Hbit : 0 ≤ bit) (Hi : i = Z.to_nat (bit / 64)) (Hx0 : la !! i = Some x0).
Let limb := Z.land (Z.lxor (scan_mask b) x0) (u64 (Z.shiftl GMP_LIMB_MAX (bit mod 64))).

Lemma scan_exists k0 :
  bit ≤ k0 < 64 * Z.of_nat (length la) → Z.testbit (val la) k0 = b →
  ∃ n y, scans (scan_mask b) limb (drop (S i) la) n y ∧ (i + n ≤ Z.to_nat (k0 / 64))%nat.
Proof.
  intros Hk0 Ht. pose proof (Z.div_mod k0 64 ltac:(lia)) as Hdm.
  pose proof (Z.mod_pos_bound k0 64 ltac:(lia)) as Hm. pose proof (Z.div_pos bit 64 Hbit ltac:(lia)).
  assert (i ≤ Z.to_nat (k0 / 64))%nat by (rewrite Hi; apply Z2Nat.inj_le; [lia..|]; apply Z.div_le_mono; lia).
  assert (∃ x, (limb :: map (Z.lxor (scan_mask b)) (drop (S i) la)) !! (Z.to_nat (k0 / 64) - i)%nat = Some x) as [x Hx].
  { apply lookup_lt_is_Some_2. cbn. rewrite length_map, length_drop. lia. }
  assert (x ≠ 0) as Hnz.
  { intros ->. assert (Z.testbit 0 (k0 mod 64) = true) as Hf0; [|by rewrite Z.bits_0 in Hf0].
    apply (scan_bits b la bit i x0 _ _ _ Hw Hbit Hi Hx0 Hm Hx). replace (64 * _ + _) with k0 by lia.
    split; [lia|done]. }
  destruct (first_nonzero _ _ _ Hx Hnz) as (n & y & Hy & Hyz & Hlow). exists n, y. split; [done|].
  destruct (decide (n ≤ Z.to_nat (k0 / 64) - i)%nat) as [|Hgt]; [lia|].
  specialize (Hlow (Z.to_nat (k0 / 64) - i)%nat ltac:(lia)). congruence.
Qed.

Lemma scan_first n q c :
  scans (scan_mask b) limb (drop (S i) la) n ((2 * q + 1) * 2 ^ c) → 0 ≤ c < 64 →
  first_bit (val la) b bit (64 * Z.of_nat (i + n) + c).
Proof.
  intros (Hn & _ & Hlow) Hc.
  pose proof (λ n x j Hj, scan_bits b la bit i x0 n x j Hw Hbit Hi Hx0 Hj) as Hb.
  assert (Z.testbit ((2 * q + 1) * 2 ^ c) c = true) as Htc.
  { rewrite Z.mul_pow2_bits by lia. by rewrite Z.sub_diag, Z.testbit_odd_0. }
  apply (Hb n _ c Hc Hn) in Htc as [Hle Htc]. split; [done|]. split; [done|]. intros j Hj.
  pose proof (Z.div_mod j 64 ltac:(lia)) as Hdm. pose proof (Z.mod_pos_bound j 64 ltac:(lia)) as Hm.
  assert (i ≤ Z.to_nat (j / 64) ≤ i + n)%nat as Hij.
  { split; [rewrite Hi; apply Z2Nat.inj_le; [apply Z.div_pos; lia..|]; apply Z.div_le_mono; lia|].
    apply Nat2Z.inj_le. rewrite Z2Nat.id by (apply Z.div_pos; lia). lia. }
  assert (∀ x, (limb :: map (Z.lxor (scan_mask b)) (drop (S i) la)) !! (Z.to_nat (j / 64) - i)%nat = Some x →
     Z.testbit x (j mod 64) = false → Z.testbit (val la) j = negb b) as Hkey.
  { intros x Hx Hf. destruct (Z.testbit (val la) j) eqn:Hv, b; try done; exfalso;
    (assert (Z.testbit x (j mod 64) = true); [|congruence]; apply (Hb _ _ _ Hm Hx);
     replace (64 * _ + _) with j by lia; split; [lia|done]). }
  destruct (decide (Z.to_nat (j / 64) - i = n)%nat) as [Heq|].
  - apply (Hkey ((2 * q + 1) * 2 ^ c)); [by rewrite Heq|]. apply Z.mul_pow2_bits_low. lia.
  - apply (Hkey 0); [apply Hlow; lia|apply Z.bits_0].
Qed.

Lemma wp_scan up fuel k0 m Q E :
  holds m up la → bit ≤ k0 < 64 * Z.of_nat (length la) → Z.testbit (val la) k0 = b →
  64 * Z.of_nat (length la) ≤ WB → (length la ≤ fuel)%nat →
  (∀ k, first_bit (val la) b bit k → Q k m) →
  wp (mpn_common_scan fuel limb (bit / 64) up (bit / 64) (scan_mask b)) Q E m.
Proof.
  intros Hh Hk0 Ht Hsz Hf HQ. pose proof (Z.div_pos bit 64 Hbit ltac:(lia)) as Hdp.
  destruct (scan_exists k0 Hk0 Ht) as (n & y & Hsc & Hn). pose proof (lookup_lt_Some _ _ _ Hx0) as Hlt.
  assert (Forall (λ x, word (Z.lxor (scan_mask b) x)) (drop (S i) la)) as Hwd.
  { apply Forall_drop. eapply Forall_impl; [done|]. intros z. apply mask_word. }
  assert (word limb) as Hwl.
  { apply land_word; [|apply u64_word]. apply mask_word, (Forall_lookup_1 _ _ _ _ Hw Hx0). }
  assert (holds m (padd up (bit / 64 + 1)) (drop (S i) la)) as Hhd.
  { rewrite <- (take_drop (S i) la) in Hh. apply holds_app in Hh as [_ Hh].
    rewrite length_take in Hh. by replace (bit / 64 + 1) with (Z.of_nat (S i `min` length la)) by lia. }
  unfold mpn_common_scan. apply wp_bind, wp_massert; [by destruct b|].
  apply wp_bind, wp_massert; [apply andb_true_iff; split; apply Z.leb_le; lia|].
  eapply (wp_scan_loop (drop (S i) la) _ _ _ _ _ _ n y); try done.
  { pose proof (lookup_lt_Some _ _ _ (proj1 Hsc)) as Hl. cbn in Hl. rewrite length_map, length_drop in Hl. lia. }
  intros k Hk. pose proof Hsc as (Hy & Hyz & _).
  assert (Forall word (limb :: map (Z.lxor (scan_mask b)) (drop (S i) la))) as Hall
    by (apply words_cons; [done|by apply Forall_map]).
  pose proof (Forall_lookup_1 _ _ _ _ Hall Hy) as Hwy.
  destruct (gmp_ctz_ok y ltac:(unfold word in Hwy; lia)) as (c & q & Hc & Hcb & Hq & ->).
  rewrite Hk in Hc. injection Hc as ->. pose proof (lookup_lt_Some _ _ _ Hy) as Hl.
  cbn in Hl. rewrite length_map, length_drop in Hl.
  rewrite (u64_small ((bit / 64 + Z.of_nat n) * 64)) by lia. rewrite u64_small by lia.
  replace (_ * 64 + c) with (64 * Z.of_nat (i + n) + c) by lia. apply HQ. by eapply scan_first.
Qed.
End scan.

(** The first set bit from [bit] on, wherever the array has one *)
Lemma wp_mpn_scan1 up la bit fuel k0 m Q E :
  words la → holds m up la → 0 ≤ bit ≤ k0 → k0 < 64 * Z.of_nat (length la) → Z.testbit (val la) k0 = true →
  64 * Z.of_nat (length la) ≤ WB → (length la ≤ fuel)%nat →
  (∀ k, first_bit (val la) true bit k → Q k m) →
  wp (mpn_scan1 fuel up bit) Q E m.
Proof.
  intros Hw Hh Hb Hk Ht Hsz Hf HQ. destruct (lookup_lt_is_Some_2 la (Z.to_nat (bit / 64))) as [x Hx].
  { apply Nat2Z.inj_lt. rewrite Z2Nat.id by (apply Z.div_pos; lia). apply Z.div_lt_upper_bound; lia. }
  unfold mpn_scan1. unfold GMP_LIMB_BITS. apply wp_bind. eapply wp_load.
  { specialize (Hh _ _ Hx). by rewrite Z2Nat.id in Hh by (apply Z.div_pos; lia). }
  rewrite <- (Z.lxor_0_l x). eapply (wp_scan true la bit _ x); try done; lia.
Qed.

(** The first clear bit from [bit] on, wherever the array has one *)
Lemma wp_mpn_scan0 up la bit fuel k0 m Q E :
  words la → holds m up la → 0 ≤ bit ≤ k0 → k0 < 64 * Z.of_nat (length la) → Z.testbit (val la) k0 = false →
  64 * Z.of_nat (length la) ≤ WB → (length la ≤ fuel)%nat →
  (∀ k, first_bit (val la) false bit k → Q k m) →
  wp (mpn_scan0 fuel up bit) Q E m.
Proof.
  intros Hw Hh Hb Hk Ht Hsz Hf HQ. destruct (lookup_lt_is_Some_2 la (Z.to_nat (bit / 64))) as [x Hx].
  { apply Nat2Z.inj_lt. rewrite Z2Nat.id by (apply Z.div_pos; lia). apply Z.div_lt_upper_bound; lia. }
  unfold mpn_scan0. unfold GMP_LIMB_BITS. apply wp_bind. eapply wp_load.
  { specialize (Hh _ _ Hx). by rewrite Z2Nat.id in Hh by (apply Z.div_pos; lia). }
  rewrite <- mask_lxor_not by apply (Forall_lookup_1 _ _ _ _ Hw Hx).
  eapply (wp_scan false la bit _ x); try done; lia.
Qed.
End bits.
