(* ===== verification/MpnCorrect.v ===== *)
(** * The limb array functions of mini-gmp: what they promise

    The statements that the rest of mini-gmp relies on, for every operand and every
    overlap of operands that the functions support, with the memory that the caller
    gets back. *)

From S2P Require Import Prelude CString Queue State UInt64 Mpn MpnMem MpnThm MpnBits.

(** ** Concrete memories *)

#[export] Instance word_dec x : Decision (word x).
Proof. unfold word. apply _. Defined.

Lemma holds_block m (b : positive) (o : Z) a l :
  m_blocks m !! b = Some a → 0 ≤ o → take (length l) (drop (Z.to_nat o) a) = Some <$> l → holds m (b, o) l.
Proof.
  intros Hb Ho Ht i x Hi. unfold cell, padd. cbn. rewrite Hb. cbn.
  rewrite (proj2 (Z.leb_le _ _)) by lia.
  assert (take (length l) (drop (Z.to_nat o) a) !! i = Some (Some x)) as Hx by (rewrite Ht, list_lookup_fmap, Hi; done).
  apply lookup_take_Some in Hx as [Hx _]. rewrite lookup_drop in Hx. rewrite <- Hx. f_equal. lia.
Qed.

Lemma space_block m (b : positive) (o : Z) (a : arr Z) n :
  m_blocks m !! b = Some a → 0 ≤ o → (Z.to_nat o + n ≤ length a)%nat → space m (b, o) n.
Proof.
  intros Hb Ho Hn i Hi. unfold cell, padd. cbn. rewrite Hb. cbn.
  rewrite (proj2 (Z.leb_le _ _)) by lia. apply lookup_lt_is_Some_2. lia.
Qed.

(** Blocks 1, 2, ... with the given contents *)
Definition mem_of (bs : list (arr Z)) : mem :=
  mk_mem (Pos.of_succ_nat (length bs)) (list_to_map (imap (λ i a, (Pos.of_succ_nat i, a)) bs)).

(** ** The functions *)

Section claims.
Implicit Types (m : mem) (rp ap bp up vp : ptr) (la lb lu lv r : list Z).

(** C24: [mpn_mul] writes the product of its operands, all its limbs and nothing else,
    and returns the highest limb, when the result does not overlap an operand (the
    operands may overlap each other: [mpn_sqr] passes one array twice). *)
Theorem mpn_mul_correct rp up vp lu lv m :
  (1 ≤ length lv ≤ length lu)%nat → words lu → words lv → holds m up lu → holds m vp lv →
  space m rp (length lu + length lv) →
  apart rp (length lu + length lv) up (length lu) → apart rp (length lu + length lv) vp (length lv) →
  ∃ r c m', mpn_mul rp up (Z.of_nat (length lu)) vp (Z.of_nat (length lv)) m = Ok (c, m') ∧
    length (r ++ [c]) = (length lu + length lv)%nat ∧ words (r ++ [c]) ∧
    val (r ++ [c]) = val lu * val lv ∧ writes m rp (r ++ [c]) m'.
Proof.
  intros Hlen Hwu Hwv Hu Hv Hs Hau Hav.
  assert (wp (mpn_mul rp up (Z.of_nat (length lu)) vp (Z.of_nat (length lv)))
    (λ c m', ∃ r, length (r ++ [c]) = (length lu + length lv)%nat ∧ words (r ++ [c]) ∧
      val (r ++ [c]) = val lu * val lv ∧ writes m rp (r ++ [c]) m') (λ _, False) m) as Hwp
    by (apply wp_mpn_mul; eauto 10).
  apply wp_Ok_inv in Hwp as (c & m' & Hrun & r & ?). by exists r, c, m'.
Qed.
(** [mpn_add] and [mpn_sub] compute sum and difference with the carry or borrow
    out of the highest limb; the result may be written over either operand (or start
    below it). *)
Theorem mpn_add_sub_correct rp ap bp la lb m :
  (length lb ≤ length la)%nat → words la → words lb → holds m ap la → holds m bp lb →
  space m rp (length la) → ok_up rp ap (length la) → ok_up rp bp (length lb) →
  (∃ r c m', mpn_add rp ap (Z.of_nat (length la)) bp (Z.of_nat (length lb)) m = Ok (c, m') ∧
    length r = length la ∧ words r ∧ 0 ≤ c ≤ 1 ∧
    val r + wpow (length la) * c = val la + val lb ∧ writes m rp r m') ∧
  (∃ r c m', mpn_sub rp ap (Z.of_nat (length la)) bp (Z.of_nat (length lb)) m = Ok (c, m') ∧
    length r = length la ∧ words r ∧ 0 ≤ c ≤ 1 ∧
    val r - wpow (length la) * c = val la - val lb ∧ writes m rp r m').
Proof.
  intros Hl Hwa Hwb Ha Hb Hs Hoa Hob. split.
  - assert (wp (mpn_add rp ap (Z.of_nat (length la)) bp (Z.of_nat (length lb)))
      (λ c m', ∃ r, length r = length la ∧ words r ∧ 0 ≤ c ≤ 1 ∧
        val r + wpow (length la) * c = val la + val lb ∧ writes m rp r m') (λ _, False) m) as Hwp
      by (eapply wp_mpn_add; eauto 10).
    apply wp_Ok_inv in Hwp as (c & m' & Hrun & r & ?). by exists r, c, m'.
  - assert (wp (mpn_sub rp ap (Z.of_nat (length la)) bp (Z.of_nat (length lb)))
      (λ c m', ∃ r, length r = length la ∧ words r ∧ 0 ≤ c ≤ 1 ∧
        val r - wpow (length la) * c = val la - val lb ∧ writes m rp r m') (λ _, False) m) as Hwp
      by (eapply wp_mpn_sub; eauto 10).
    apply wp_Ok_inv in Hwp as (c & m' & Hrun & r & ?). by exists r, c, m'.
Qed.

(** The numbers below [2 ^ cnt] parts of a shifted value *)
Lemma shift_parts n (cnt v r c r2 d : Z) :
  (1 ≤ n)%nat → 1 ≤ cnt < 64 → 0 ≤ v → 0 ≤ c < 2 ^ cnt → 0 ≤ d < 2 ^ cnt → 0 ≤ r2 →
  0 ≤ r < wpow n → r + wpow n * c = v * 2 ^ cnt → r = r2 * 2 ^ cnt + d →
  d = 0 ∧ c = v / 2 ^ (64 * Z.of_nat n - cnt) ∧ r2 = v mod 2 ^ (64 * Z.of_nat n - cnt).
Proof.
  intros Hn Hc Hv Hcb Hd Hr2 Hr H1 ->. set (p := 2 ^ (64 * Z.of_nat n - cnt)).
  assert (wpow n = p * 2 ^ cnt) as Hw.
  { unfold wpow, p. change WB with (2 ^ 64). rewrite <- Z.pow_mul_r, <- Z.pow_add_r by lia. f_equal. lia. }
  assert (0 < 2 ^ cnt) by (apply Z.pow_pos_nonneg; lia).
  rewrite Hw in *. assert (d = 2 ^ cnt * (v - r2 - p * c)) as Hd' by lia.
  assert (v - r2 - p * c = 0) as Hz by nia. rewrite Hz in Hd'. split; [lia|].
  assert (0 ≤ r2 < p) by nia. split.
  - apply Z.div_unique with r2; lia.
  - apply Z.mod_unique with c; lia.
Qed.

(** Shifting a number left by [cnt] bits and back again in place: the left shift
    returns the bits that leave the array, the right shift loses nothing, and the
    array holds the number without its [cnt] highest bits (the number itself when
    they were 0).  The first shift may move the number to a higher address. *)
Theorem mpn_shift_roundtrip rp up la cnt m :
  la ≠ [] → 1 ≤ cnt < 64 → words la → holds m up la → space m rp (length la) →
  ok_down rp up (length la) →
  let n := Z.of_nat (length la) in
  ∃ r m', (c ← mpn_lshift rp up n cnt; d ← mpn_rshift rp rp n cnt; mret (c, d)) m
      = Ok ((val la / 2 ^ (64 * n - cnt), 0), m') ∧
    length r = length la ∧ words r ∧ val r = val la mod 2 ^ (64 * n - cnt) ∧ writes m rp r m'.
Proof.
  intros Hne Hc Hw Hh Hs Ho n. pose proof (val_bound la Hw) as Hb.
  assert (1 ≤ length la)%nat as Hl by (destruct la; [done|cbn; lia]).
  assert (wp (c ← mpn_lshift rp up n cnt; d ← mpn_rshift rp rp n cnt; mret (c, d))
    (λ cd m', ∃ r, cd = (val la / 2 ^ (64 * n - cnt), 0) ∧ length r = length la ∧ words r ∧
       val r = val la mod 2 ^ (64 * n - cnt) ∧ writes m rp r m') (λ _, False) m) as Hwp.
  { apply wp_bind. apply wp_mpn_lshift; [done..|]. intros r c m1 Hlr Hwr Hcb Hv Hw1.
    apply wp_bind. unfold n. rewrite <- Hlr. apply wp_mpn_rshift; [by intros ->; cbn in *; lia|done|done| | | |].
    - apply Hw1.
    - apply holds_space, Hw1.
    - unfold ok_up. lia.
    - intros r2 d m2 Hl2 Hw2 Hd Hv2 Hwr2. apply wp_ret. exists r2.
      destruct (shift_parts (length la) cnt (val la) (val r) c (val r2) d) as (-> & -> & ->); try done.
      + lia.
      + apply (val_bound r2 Hw2).
      + rewrite <- Hlr. by apply val_bound.
      + rewrite <- Hlr. split_and!; try done; try lia.
        rewrite <- (app_nil_l r2). eapply (writes_over _ _ [] r); [exact Hw1| |lia]. by rewrite padd_0. }
  apply wp_Ok_inv in Hwp as (cd & m' & Hrun & r & -> & ?). by exists r, m'.
Qed.

(** [mpn_neg] replaces a number by its two's complement, also in place, and tells
    whether it was not 0. *)
Theorem mpn_neg_complement rp up la m :
  la ≠ [] → words la → holds m up la → space m rp (length la) → ok_up rp up (length la) →
  ∃ r m', mpn_neg rp up (Z.of_nat (length la)) m = Ok (b2z (negb (val la =? 0)), m') ∧
    length r = length la ∧ words r ∧ val r = (- val la) mod wpow (length la) ∧ writes m rp r m'.
Proof.
  intros Hne Hw Hh Hs Ho. pose proof (val_bound la Hw) as Hb.
  assert (wp (mpn_neg rp up (Z.of_nat (length la))) (λ c m', ∃ r, c = b2z (negb (val la =? 0)) ∧
    length r = length la ∧ words r ∧ val r = (- val la) mod wpow (length la) ∧ writes m rp r m')
    (λ _, False) m) as Hwp.
  { unfold mpn_neg. rewrite Nat2Z.id. apply wp_neg_loop; [done..|]. intros r c m' Hl Hr Hv Hc Hw'.
    exists r. split_and!; try done. rewrite Hv, Hc. destruct (Z.eqb_spec (val la) 0) as [->|].
    - rewrite Z.mod_0_l by lia. cbn. lia.
    - cbn. apply Z.mod_unique with (-1); lia. }
  apply wp_Ok_inv in Hwp as (c & m' & Hrun & r & -> & ?). by exists r, m'.
Qed.

(** [mpn_cmp4] orders normalised numbers by their values: the comparison of the
    sizes and then of the limbs from the highest down agrees with the comparison of
    the numbers. *)
Theorem mpn_cmp4_compares ap bp la lb m :
  words la → words lb → normal la → normal lb → holds m ap la → holds m bp lb →
  mpn_cmp4 ap (Z.of_nat (length la)) bp (Z.of_nat (length lb)) m
  = Ok (match val la ?= val lb with Lt => -1 | Eq => 0 | Gt => 1 end, m).
Proof.
  intros. assert (wp (mpn_cmp4 ap (Z.of_nat (length la)) bp (Z.of_nat (length lb)))
    (λ c m', c = (match val la ?= val lb with Lt => -1 | Eq => 0 | Gt => 1 end) ∧ m' = m) (λ _, False) m) as Hwp
    by (eapply wp_mpn_cmp4; eauto).
  by apply wp_Ok_inv in Hwp as (c & m' & Hrun & -> & ->).
Qed.

(** [mpn_scan1] and [mpn_scan0] find the first set and the first clear bit from a
    position on, provided that there is one in the array; a limb that has none is
    skipped, and no more than [length la] limbs are looked at. *)
Theorem mpn_scan_finds b up la bit k0 fuel m :
  words la → holds m up la → 0 ≤ bit ≤ k0 → k0 < 64 * Z.of_nat (length la) → Z.testbit (val la) k0 = b →
  64 * Z.of_nat (length la) ≤ WB → (length la ≤ fuel)%nat →
  ∃ k, (if b then mpn_scan1 fuel up bit else mpn_scan0 fuel up bit) m = Ok (k, m) ∧
    first_bit (val la) b bit k.
Proof.
  intros. assert (wp (if b then mpn_scan1 fuel up bit else mpn_scan0 fuel up bit)
    (λ k m', first_bit (val la) b bit k ∧ m' = m) (λ _, False) m) as Hwp
    by (destruct b; [eapply wp_mpn_scan1|eapply wp_mpn_scan0]; eauto).
  apply wp_Ok_inv in Hwp as (k & m' & Hrun & ? & ->). by exists k.
Qed.

Lemma clz_zero fuel c : clz_bytes fuel 0 c = Err OutOfFuel.
Proof. revert c. induction fuel as [|fuel IH]; intros c; [done|]. cbn. apply IH. Qed.

(** The loops of [gmp_clz] end on every limb but 0, after at most seven steps each,
    and count the leading zeros; [gmp_ctz] counts the trailing zeros.  On 0 no number
    of steps is enough. *)
Theorem gmp_clz_terminates x fuel :
  (0 < x < WB → ∃ k, gmp_clz x = Ok k ∧ 0 ≤ k < 64 ∧ 2 ^ 63 ≤ x * 2 ^ k < WB) ∧
  (0 < x < WB → ∃ k q, gmp_ctz x = Ok k ∧ 0 ≤ k < 64 ∧ 0 ≤ q ∧ x = (2 * q + 1) * 2 ^ k) ∧
  clz_bytes fuel 0 0 = Err OutOfFuel.
Proof. split; [apply gmp_clz_ok|]. split; [apply gmp_ctz_ok|apply clz_zero]. Qed.
End claims.

(** ** Witnesses *)

Definition demo_u : list Z := [GMP_LIMB_MAX; GMP_LIMB_MAX; 7].
Definition demo_v : list Z := [GMP_LIMB_MAX; 5].
Definition demo : mem := mem_of [Some <$> demo_u; Some <$> demo_v; replicate 5 None].

Ltac in_block := first
  [ eapply holds_block; [vm_compute; reflexivity|done|vm_compute; reflexivity]
  | eapply space_block; [vm_compute; reflexivity|done|apply (bool_decide_unpack _); vm_compute; exact I]
  | apply (bool_decide_unpack _); vm_compute; exact I ].

Ltac demo_side := try in_block; try done; try (left; done).

Lemma mpn_mul_correct_witness :
  ∃ r c m', mpn_mul (3%positive, 0) (1%positive, 0) 3 (2%positive, 0) 2 demo = Ok (c, m') ∧
    length (r ++ [c]) = 5%nat ∧ words (r ++ [c]) ∧ val (r ++ [c]) = val demo_u * val demo_v ∧
    writes demo (3%positive, 0) (r ++ [c]) m'.
Proof.
  apply (mpn_mul_correct (3%positive, 0) (1%positive, 0) (2%positive, 0) demo_u demo_v demo);
    demo_side.
Defined.

(** The sum written over the first operand *)
Lemma mpn_add_sub_correct_witness :
  (∃ r c m', mpn_add (1%positive, 0) (1%positive, 0) 3 (2%positive, 0) 2 demo = Ok (c, m') ∧
    length r = 3%nat ∧ words r ∧ 0 ≤ c ≤ 1 ∧ val r + wpow 3 * c = val demo_u + val demo_v ∧
    writes demo (1%positive, 0) r m') ∧
  (∃ r c m', mpn_sub (1%positive, 0) (1%positive, 0) 3 (2%positive, 0) 2 demo = Ok (c, m') ∧
    length r = 3%nat ∧ words r ∧ 0 ≤ c ≤ 1 ∧ val r - wpow 3 * c = val demo_u - val demo_v ∧
    writes demo (1%positive, 0) r m').
Proof.
  apply (mpn_add_sub_correct (1%positive, 0) (1%positive, 0) (2%positive, 0) demo_u demo_v demo);
    demo_side.
Defined.

Lemma mpn_shift_roundtrip_witness :
  ∃ r m', (c ← mpn_lshift (3%positive, 0) (1%positive, 0) 3 62; d ← mpn_rshift (3%positive, 0) (3%positive, 0) 3 62;
           mret (c, d)) demo = Ok ((1, 0), m') ∧
    length r = 3%nat ∧ words r ∧ val r = val demo_u mod 2 ^ 130 ∧ writes demo (3%positive, 0) r m'.
Proof.
  apply (mpn_shift_roundtrip (3%positive, 0) (1%positive, 0) demo_u 62 demo);
    demo_side.
Defined.

Lemma mpn_neg_complement_witness :
  ∃ r m', mpn_neg (2%positive, 0) (2%positive, 0) 2 demo = Ok (1, m') ∧
    length r = 2%nat ∧ words r ∧ val r = (- val demo_v) mod wpow 2 ∧ writes demo (2%positive, 0) r m'.
Proof.
  apply (mpn_neg_complement (2%positive, 0) (2%positive, 0) demo_v demo); demo_side.
Defined.

Lemma mpn_cmp4_compares_witness :
  mpn_cmp4 (2%positive, 0) 2 (1%positive, 0) 3 demo = Ok (-1, demo).
Proof.
  apply (mpn_cmp4_compares (2%positive, 0) (1%positive, 0) demo_v demo_u demo); try in_block;
    intros x Hx; by injection Hx as <-.
Defined.

Lemma mpn_scan_finds_witness :
  ∃ k, mpn_scan0 3 (1%positive, 0) 5 demo = Ok (k, demo) ∧ first_bit (val demo_u) false 5 k.
Proof.
  apply (mpn_scan_finds false (1%positive, 0) demo_u 5 131 3 demo); demo_side.
Defined.

Lemma gmp_clz_terminates_witness : ∃ k, gmp_clz 12 = Ok k ∧ 0 ≤ k < 64 ∧ 2 ^ 63 ≤ 12 * 2 ^ k < WB.
Proof. apply (gmp_clz_terminates 12 0). done. Defined.
