(* ===== verification/MpnDiv.v ===== *)
(** * Division of limb arrays (examples/multiprecision/mini-gmp/mini-gmp.c)

    The precomputed reciprocals, division by one limb, by two limbs and by longer
    divisors.  The quotient pointer may be null: only the remainder is wanted then. *)

From S2P Require Import Prelude CString Queue State UInt64 Mpn.

(** ** Reciprocals *)

(** The high half [qh] of the 2/1 inverse of [u1] and the remainder; [ul], [uh] and [qh]
    are 32-bit variables. *)
Definition invert_half (u1 : Z) : Z * Z :=
  let ul := u32 (Z.land u1 GMP_LLIMB_MASK) in
  let uh := u32 (Z.shiftr u1 32) in
  let qh := u32 (limb_not u1 / uh) in
  let r := Z.lor (u64 (Z.shiftl (u64 (limb_not u1 - u64 (qh * uh))) 32)) GMP_LLIMB_MASK in
  let p := u64 (qh * ul) in
  let '(qh, r) :=
    if r <? p then
      let qh := u32 (qh - 1) in
      let r := u64 (r + u1) in
      if u1 <=? r then
        if r <? p then (u32 (qh - 1), u64 (r + u1)) else (qh, r)
      else (qh, r)
    else (qh, r) in
  (qh, u64 (r - p)).

(** The part of [mpn_invert_3by2] before [u0] is looked at: the 2/1 inverse of [u1] and
    the remainder *)
Definition invert_2by1 (u1 : Z) : Z * Z :=
  let '(qh, r) := invert_half u1 in
  let p := u64 (u64 (Z.shiftr r 32 * qh) + r) in
  let ql := u64 (Z.shiftr p 32 + 1) in
  let r := u64 (u64 (u64 (Z.shiftl r 32) + GMP_LLIMB_MASK) - u64 (ql * u1)) in
  let '(ql, r) :=
    if u64 (Z.shiftl p 32) <=? r then (u64 (ql - 1), u64 (r + u1)) else (ql, r) in
  let m := u64 (u64 (Z.shiftl qh 32) + ql) in
  if u1 <=? r then (u64 (m + 1), u64 (r - u1)) else (m, r).

Definition mpn_invert_3by2 (u1 u0 : Z) : outcome Z :=
  _ ← c_assert (GMP_LIMB_HIGHBIT <=? u1);
  let '(m, r) := invert_2by1 u1 in
  if 0 <? u0 then
    let r := limb_not r in
    let r := u64 (r + u0) in
    let '(m, r) :=
      if r <? u0 then
        let m := u64 (m - 1) in
        let '(m, r) := if u1 <=? r then (u64 (m - 1), u64 (r - u1)) else (m, r) in
        (m, u64 (r - u1))
      else (m, r) in
    let '(th, tl) := gmp_umul_ppmm u0 m in
    let r := u64 (r + th) in
    if r <? th then
      let m := u64 (m - 1) in
      Ok (u64 (m - b2z ((u1 <? r) || ((r =? u1) && (u0 <? tl)))))
    else Ok m
  else Ok m.

Definition mpn_invert_limb (x : Z) : outcome Z := mpn_invert_3by2 x 0.

(** [d0] is not set for a divisor of one limb. *)
Record gmp_div_inverse := mk_inv {
  inv_shift : Z;
  inv_d1 : Z;
  inv_d0 : option Z;
  inv_di : Z
}.
Definition get_d0 (inv : gmp_div_inverse) : outcome Z :=
  match inv_d0 inv with Some d0 => Ok d0 | None => Err Indeterminate end.

Definition mpn_div_qr_1_invert (d : Z) : outcome gmp_div_inverse :=
  _ ← c_assert (0 <? d);
  shift ← gmp_clz d;
  let d1 := u64 (Z.shiftl d shift) in
  di ← mpn_invert_limb d1;
  Ok (mk_inv shift d1 None di).

Definition mpn_div_qr_2_invert (d1 d0 : Z) : outcome gmp_div_inverse :=
  _ ← c_assert (0 <? d1);
  shift ← gmp_clz d1;
  let '(d1, d0) :=
    if 0 <? shift then
      (Z.lor (u64 (Z.shiftl d1 shift)) (Z.shiftr d0 (GMP_LIMB_BITS - shift)), u64 (Z.shiftl d0 shift))
    else (d1, d0) in
  di ← mpn_invert_3by2 d1 d0;
  Ok (mk_inv shift d1 (Some d0) di).

Definition mpn_div_qr_invert (dp : ptr) (dn : Z) : L gmp_div_inverse :=
  _ ← massert (0 <? dn);
  if dn =? 1 then d ← load dp; lift (mpn_div_qr_1_invert d)
  else if dn =? 2 then
    d1 ← load (padd dp 1);
    d0 ← load dp;
    lift (mpn_div_qr_2_invert d1 d0)
  else
    d1 ← load (padd dp (dn - 1));
    d0 ← load (padd dp (dn - 2));
    _ ← massert (0 <? d1);
    shift ← lift (gmp_clz d1);
    '(d1, d0) ←
      (if 0 <? shift then
         x ← load (padd dp (dn - 3));
         mret (Z.lor (u64 (Z.shiftl d1 shift)) (Z.shiftr d0 (GMP_LIMB_BITS - shift)),
               Z.lor (u64 (Z.shiftl d0 shift)) (Z.shiftr x (GMP_LIMB_BITS - shift)))
       else mret (d1, d0));
    di ← lift (mpn_invert_3by2 d1 d0);
    mret (mk_inv shift d1 (Some d0) di).

(** ** One limb *)

Definition gmp_assert_nocarry (x : L Z) : L unit := cy ← x; massert (cy =? 0).

Definition store_q (qp : option ptr) (i q : Z) : L unit :=
  match qp with Some qp => store (padd qp i) q | None => mret tt end.

(** From the highest limb down; returns the remainder. *)
Fixpoint div_qr_1_loop (nn : nat) (qp : option ptr) (np : ptr) (r d di : Z) : L Z :=
  match nn with
  | O => mret r
  | S nn =>
     n ← load (padd np (Z.of_nat nn));
     let '(q, r) := gmp_udiv_qrnnd_preinv r n d di in
     _ ← store_q qp (Z.of_nat nn) q;
     div_qr_1_loop nn qp np r d di
  end.

Definition mpn_div_qr_1_preinv (qp : option ptr) (np : ptr) (nn : Z) (inv : gmp_div_inverse) : L Z :=
  if 0 <? inv_shift inv then
    tp ← gmp_xalloc_limbs nn;
    r ← mpn_lshift tp np nn (inv_shift inv);
    r ← div_qr_1_loop (Z.to_nat nn) qp tp r (inv_d1 inv) (inv_di inv);
    _ ← gmp_free tp;
    mret (Z.shiftr r (inv_shift inv))
  else
    r ← div_qr_1_loop (Z.to_nat nn) qp np 0 (inv_d1 inv) (inv_di inv);
    mret (Z.shiftr r (inv_shift inv)).

(** Powers of two are divided by with a shift. *)
Definition mpn_div_qr_1 (qp : option ptr) (np : ptr) (nn d : Z) : L Z :=
  _ ← massert (0 <? d);
  if Z.land d (u64 (d - 1)) =? 0 then
    n0 ← load np;
    let r := Z.land n0 (u64 (d - 1)) in
    match qp with
    | None => mret r
    | Some qp =>
       if d <=? 1 then _ ← mpn_copyi qp np nn; mret r
       else
         shift ← lift (gmp_ctz d);
         _ ← mpn_rshift qp np nn shift;
         mret r
    end
  else
    inv ← lift (mpn_div_qr_1_invert d);
    mpn_div_qr_1_preinv qp np nn inv.

(** ** Two limbs *)

Fixpoint div_qr_2_loop (k : nat) (qp : option ptr) (np : ptr) (r1 r0 d1 d0 di : Z) : L (Z * Z) :=
  match k with
  | O => mret (r1, r0)
  | S k =>
     n0 ← load (padd np (Z.of_nat k));
     let '(q, r1, r0) := gmp_udiv_qr_3by2 r1 r0 n0 d1 d0 di in
     _ ← store_q qp (Z.of_nat k) q;
     div_qr_2_loop k qp np r1 r0 d1 d0 di
  end.

Definition mpn_div_qr_2_preinv (qp : option ptr) (rp np : ptr) (nn : Z) (inv : gmp_div_inverse) : L unit :=
  _ ← massert (2 <=? nn);
  let shift := inv_shift inv in
  let d1 := inv_d1 inv in
  d0 ← lift (get_d0 inv);
  let di := inv_di inv in
  '(tp, r1) ←
    (if 0 <? shift then
       tp ← gmp_xalloc_limbs nn;
       r1 ← mpn_lshift tp np nn shift;
       mret (tp, r1)
     else mret (np, 0));
  r0 ← load (padd tp (nn - 1));
  '(r1, r0) ← div_qr_2_loop (Z.to_nat (nn - 1)) qp tp r1 r0 d1 d0 di;
  '(r1, r0) ←
    (if 0 <? shift then
       _ ← massert (u64 (Z.shiftl r0 (GMP_LIMB_BITS - shift)) =? 0);
       let r0 := Z.lor (Z.shiftr r0 shift) (u64 (Z.shiftl r1 (GMP_LIMB_BITS - shift))) in
       let r1 := Z.shiftr r1 shift in
       _ ← gmp_free tp;
       mret (r1, r0)
     else mret (r1, r0));
  _ ← store (padd rp 1) r1;
  store rp r0.

(** ** Longer divisors *)

(** One quotient limb: the numerator is [n1] and the [dn] limbs at [np + i]. *)
Definition pi1_step (np : ptr) (n1 : Z) (dp : ptr) (dn dinv d1 d0 i : Z) : L (Z * Z) :=
  n0 ← load (padd np (dn - 1 + i));
  if (n1 =? d1) && (n0 =? d0) then
    let q := GMP_LIMB_MAX in
    _ ← mpn_submul_1 (padd np i) dp dn q;
    n1 ← load (padd np (dn - 1 + i));
    mret (q, n1)
  else
    x ← load (padd np (dn - 2 + i));
    let '(q, n1, n0) := gmp_udiv_qr_3by2 n1 n0 x d1 d0 dinv in
    cy ← mpn_submul_1 (padd np i) dp (dn - 2) q;
    let cy1 := b2z (n0 <? cy) in
    let n0 := u64 (n0 - cy) in
    let cy := b2z (n1 <? cy1) in
    let n1 := u64 (n1 - cy1) in
    _ ← store (padd np (dn - 2 + i)) n0;
    if negb (cy =? 0) then
      c ← mpn_add_n (padd np i) (padd np i) dp (dn - 1);
      mret (u64 (q - 1), u64 (n1 + u64 (d1 + c)))
    else mret (q, n1).

Fixpoint pi1_loop (k : nat) (qp : option ptr) (np : ptr) (n1 : Z) (dp : ptr) (dn dinv d1 d0 : Z) : L Z :=
  match k with
  | O => mret n1
  | S k =>
     '(q, n1) ← pi1_step np n1 dp dn dinv d1 d0 (Z.of_nat k);
     _ ← store_q qp (Z.of_nat k) q;
     pi1_loop k qp np n1 dp dn dinv d1 d0
  end.

Definition mpn_div_qr_pi1 (qp : option ptr) (np : ptr) (nn n1 : Z) (dp : ptr) (dn dinv : Z) : L unit :=
  _ ← massert (2 <? dn);
  _ ← massert (dn <=? nn);
  d1 ← load (padd dp (dn - 1));
  d0 ← load (padd dp (dn - 2));
  _ ← massert (negb (Z.land d1 GMP_LIMB_HIGHBIT =? 0));
  n1 ← pi1_loop (Z.to_nat (nn - dn + 1)) qp np n1 dp dn dinv d1 d0;
  store (padd np (dn - 1)) n1.

Definition mpn_div_qr_preinv (qp : option ptr) (np : ptr) (nn : Z) (dp : ptr) (dn : Z)
    (inv : gmp_div_inverse) : L unit :=
  _ ← massert (0 <? dn);
  _ ← massert (dn <=? nn);
  if dn =? 1 then
    r ← mpn_div_qr_1_preinv qp np nn inv;
    store np r
  else if dn =? 2 then mpn_div_qr_2_preinv qp np np nn inv
  else
    d1 ← load (padd dp (dn - 1));
    _ ← massert (inv_d1 inv =? d1);
    d0 ← load (padd dp (dn - 2));
    d0' ← lift (get_d0 inv);
    _ ← massert (d0' =? d0);
    _ ← massert (negb (Z.land (inv_d1 inv) GMP_LIMB_HIGHBIT =? 0));
    let shift := inv_shift inv in
    nh ← (if 0 <? shift then mpn_lshift np np nn shift else mret 0);
    _ ← mpn_div_qr_pi1 qp np nn nh dp dn (inv_di inv);
    if 0 <? shift then gmp_assert_nocarry (mpn_rshift np np dn shift) else mret tt.

Definition mpn_div_qr (qp : option ptr) (np : ptr) (nn : Z) (dp : ptr) (dn : Z) : L unit :=
  _ ← massert (0 <? dn);
  _ ← massert (dn <=? nn);
  inv ← mpn_div_qr_invert dp dn;
  if (2 <? dn) && (0 <? inv_shift inv) then
    tp ← gmp_xalloc_limbs dn;
    _ ← gmp_assert_nocarry (mpn_lshift tp dp dn (inv_shift inv));
    _ ← mpn_div_qr_preinv qp np nn tp dn inv;
    gmp_free tp
  else mpn_div_qr_preinv qp np nn dp dn inv.
