(* ===== verification/MpnInv.v ===== *)
(** * Reciprocals and the divisions that use them

    The arithmetic behind [gmp_udiv_qrnnd_preinv], [gmp_udiv_qr_3by2] and
    [mpn_invert_3by2]: a quotient digit estimated with a reciprocal is at most one off
    in either direction, and the comparisons of the code tell in which. *)

From Stdlib Require Import Znumtheory.
From S2P Require Import Prelude CString Queue State UInt64 Mpn MpnMem MpnThm MpnBits MpnDiv.

(** ** Estimates *)

Section estimate.
(** Digits are below [b]; [w] is [b] for a divisor of one digit and [b * b] for a divisor
    of two.  [v] is the reciprocal of the divisor [d], and [k] what it leaves. *)
Context (b d v k : Z).

Section two_by_one.
Hypotheses (Hb : 2 ≤ b) (Hd : 0 < d < b) (Hv : (b + v) * d = b * b - k) (Hk : 1 ≤ k ≤ d).

(** [q1, q0] is the estimate before it is increased by 1; the candidate remainder is
    bounded on both sides by the same number, [b] apart. *)
Lemma estimate_2by1 u1 u0 q1 q0 :
  0 ≤ u1 < d → 0 ≤ u0 < b → v * u1 + u1 * b + u0 = q1 * b + q0 → 0 ≤ q0 < b →
  let r := u1 * b + u0 - (q1 + 1) * d in
  Z.max (b - d) (q0 + 1) - b ≤ r < Z.max (b - d) q0.
Proof.
  intros Hu1 Hu0 Hq Hq0 r.
  assert (b * r = u1 * k + u0 * (b - d) + q0 * d - b * d) as Hr.
  { assert (b * (q1 * d) = (v * u1 + u1 * b + u0 - q0) * d) as Hqd by (rewrite Hq; ring).
    unfold r. replace k with (b * b - (b + v) * d) by lia. lia. }
  assert (0 ≤ u1 * k) by (apply Z.mul_nonneg_nonneg; lia).
  assert (0 ≤ u0 * (b - d)) by (apply Z.mul_nonneg_nonneg; lia).
  assert (0 ≤ q0 * d) by (apply Z.mul_nonneg_nonneg; lia).
  assert (- d ≤ r) by (apply (Z.mul_le_mono_pos_l _ _ b); lia).
  assert (q0 - b < r).
  { apply (Z.mul_lt_mono_pos_l b); [lia|]. assert ((b - q0) * d < (b - q0) * b) by (apply Z.mul_lt_mono_pos_l; lia). lia. }
  split; [lia|].
  assert (u1 * k ≤ (d - 1) * d) by (apply Z.mul_le_mono_nonneg; lia).
  assert (u0 * (b - d) ≤ (b - 1) * (b - d)) by (apply Z.mul_le_mono_nonneg_r; lia).
  assert (b * r < (b - d) * (b - d) + q0 * d) as Hup by lia.
  set (c := Z.max (b - d) q0).
  assert ((b - d) * (b - d) ≤ c * (b - d)) by (apply Z.mul_le_mono_nonneg_r; lia).
  assert (q0 * d ≤ c * d) by (apply Z.mul_le_mono_nonneg_r; lia).
  apply (Z.mul_lt_mono_pos_l b); lia.
Qed.
End two_by_one.

Section three_by_two.
Hypotheses (Hb : 2 ≤ b) (Hd : 0 < d < b * b) (Hv0 : 0 ≤ v) (Hv : (b + v) * d = b * b * b - k)
  (Hk : 1 ≤ k ≤ d).

Lemma estimate_3by2_identity u2 u1 u0 q1 q0 :
  v * u2 + u2 * b + u1 = q1 * b + q0 →
  b * (u2 * (b * b) + u1 * b + u0 - (q1 + 1) * d)
  = u2 * k + u1 * (b * b - d) + u0 * b + q0 * d - b * d.
Proof.
  intros Hq. assert (b * (q1 * d) = (v * u2 + u2 * b + u1 - q0) * d) as Hqd by (rewrite Hq; ring).
  replace k with (b * b * b - (b + v) * d) by lia. lia.
Qed.

(** The part of the numerator that is below the divisor *)
Lemma estimate_3by2_high u2 u1 :
  0 ≤ u2 → 0 ≤ u1 < b → u2 * b + u1 < d →
  b * (u2 * k) + b * u1 * (b * b - d) ≤ (b * b - d) * (b * b - d) + b * b * d - b * b * b.
Proof.
  intros Hu2 Hu1 Hlt. set (e := b * b - d) in *.
  assert (0 < e) as He0 by (unfold e; lia). assert (d = b * b - e) as Hde by (unfold e; ring). clearbody e.
  assert (k ≤ b * e) as Hk2. { assert (0 ≤ v * d) by (apply Z.mul_nonneg_nonneg; lia). rewrite Hde in *. lia. }
  destruct (Z.le_gt_cases b e) as [Hbig|Hsmall].
  - assert (u2 * b * k ≤ (d - 1 - u1) * d) by (apply Z.mul_le_mono_nonneg; nia).
    assert (b * b ≤ b * e) by (apply Z.mul_le_mono_nonneg_l; lia).
    assert (0 ≤ (b - 1 - u1) * (b * e - d)) by (apply Z.mul_nonneg_nonneg; lia).
    rewrite Hde in *. lia.
  - destruct (Z.le_gt_cases u2 (b - 2)).
    + assert (u2 * b * k ≤ (d - b) * d) by (apply Z.mul_le_mono_nonneg; nia).
      assert (b * u1 * e ≤ b * (b - 1) * e)
        by (apply Z.mul_le_mono_nonneg_r, Z.mul_le_mono_nonneg_l; lia).
      rewrite Hde in *. lia.
    + assert (u2 = b - 1) as -> by nia. assert (u1 ≤ b - 1 - e) as Hu by nia.
      assert (b * ((b - 1) * k) ≤ b * ((b - 1) * (b * e)))
        by (apply Z.mul_le_mono_nonneg_l, Z.mul_le_mono_nonneg_l; lia).
      assert (b * u1 * e ≤ b * (b - 1 - e) * e)
        by (apply Z.mul_le_mono_nonneg_r, Z.mul_le_mono_nonneg_l; lia).
      assert ((1 + b) * (e + b - 1) ≤ (1 + b) * (2 * b - 2)) by (apply Z.mul_le_mono_nonneg_l; lia).
      assert (b * 1 ≤ b * b) by (apply Z.mul_le_mono_nonneg_l; lia).
      assert (b * b * 2 ≤ b * b * b) by (apply Z.mul_le_mono_nonneg_l; lia).
      assert (0 ≤ (b - 1 - e) * (b * b * b + b * b - b - (1 + b) * (e + b - 1)))
        by (apply Z.mul_nonneg_nonneg; lia).
      assert (0 ≤ (b - 1) * (b - 1)) by (apply Z.mul_nonneg_nonneg; lia).
      rewrite Hde. lia.
Qed.

Lemma estimate_3by2 u2 u1 u0 q1 q0 :
  0 ≤ u2 → 0 ≤ u1 < b → 0 ≤ u0 < b → u2 * b + u1 < d →
  v * u2 + u2 * b + u1 = q1 * b + q0 → 0 ≤ q0 < b →
  let r := u2 * (b * b) + u1 * b + u0 - (q1 + 1) * d in
  Z.max (b * b - d) (q0 * b) - b * b ≤ r < Z.max (b * b - d) (q0 * b).
Proof.
  intros Hu2 Hu1 Hu0 Hlt Hq Hq0 r. pose proof (estimate_3by2_identity u2 u1 u0 q1 q0 Hq) as Hr.
  fold r in Hr. pose proof (estimate_3by2_high u2 u1 Hu2 Hu1 Hlt) as Hh.
  assert (0 ≤ u2 * k) by (apply Z.mul_nonneg_nonneg; lia).
  assert (0 ≤ u1 * (b * b - d)) by (apply Z.mul_nonneg_nonneg; lia).
  assert (0 ≤ u0 * b) by (apply Z.mul_nonneg_nonneg; lia).
  assert (0 ≤ q0 * d) by (apply Z.mul_nonneg_nonneg; lia).
  assert (- d ≤ r) by (apply (Z.mul_le_mono_pos_l _ _ b); lia).
  assert (q0 * b - b * b ≤ r).
  { apply (Z.mul_le_mono_pos_l _ _ b); [lia|].
    assert ((b - q0) * d ≤ (b - q0) * (b * b)) by (apply Z.mul_le_mono_nonneg_l; lia). lia. }
  split; [lia|]. set (w := b * b) in *.
  assert (0 < w) by lia. set (c := Z.max (w - d) (q0 * b)).
  assert (u0 * b ≤ w - b) by (unfold w; assert (u0 * b ≤ (b - 1) * b) by (apply Z.mul_le_mono_nonneg_r; lia); lia).
  assert (b * (u0 * b) ≤ b * (w - b)) by (apply Z.mul_le_mono_nonneg_l; lia).
  assert (w * r = b * (u2 * k) + b * u1 * (w - d) + b * (u0 * b) + q0 * b * d - w * d) as Hw.
  { replace (w * r) with (b * (b * r)) by (unfold w; ring). rewrite Hr. unfold w. ring. }
  assert ((w - d) * (w - d) ≤ c * (w - d)) by (apply Z.mul_le_mono_nonneg_r; lia).
  assert (q0 * b * d ≤ c * d) by (apply Z.mul_le_mono_nonneg_r; lia).
  apply (Z.mul_lt_mono_pos_l w); [lia|]. unfold w in *. lia.
Qed.
End three_by_two.
End estimate.

(** ** Two-limb arithmetic *)

Abbreviation WB2 := (WB * WB).

Lemma mod_eq_two x q z m : 0 ≤ x < m → z = q * m + x → x = z mod m.
Proof. intros Hx Hz. apply Z.mod_unique with q; lia. Qed.

Lemma add_ssaaaa_spec ah al bh bl sh sl :
  word al → word bl → gmp_add_ssaaaa ah al bh bl = (sh, sl) →
  sh * WB + sl = (ah * WB + al + (bh * WB + bl)) mod WB2 ∧ word sh ∧ word sl.
Proof.
  intros Hal Hbl. unfold gmp_add_ssaaaa. intros Heq. injection Heq as <- <-.
  pose proof (add_limb bl al Hbl Hal) as Hs. rewrite (Z.add_comm bl al) in Hs.
  set (x := u64 (al + bl)) in *. set (c := b2z (x <? al)) in *.
  assert (word x) as Hx by apply u64_word. assert (u64 (u64 (ah + bh) + c) = (ah + bh + c) mod WB) as ->
    by (unfold u64; by rewrite Zplus_mod_idemp_l).
  pose proof (Z.mod_pos_bound (ah + bh + c) WB ltac:(done)) as Hh. split; [|done].
  pose proof (Z.div_mod (ah + bh + c) WB ltac:(done)).
  apply mod_eq_two with ((ah + bh + c) / WB); unfold word, WB in *; lia.
Qed.

Lemma sub_ddmmss_spec ah al bh bl sh sl :
  word al → word bl → gmp_sub_ddmmss ah al bh bl = (sh, sl) →
  sh * WB + sl = (ah * WB + al - (bh * WB + bl)) mod WB2 ∧ word sh ∧ word sl.
Proof.
  intros Hal Hbl. unfold gmp_sub_ddmmss. intros Heq. injection Heq as <- <-.
  pose proof (sub_limb al bl Hal Hbl) as Hs.
  set (x := u64 (al - bl)) in *. set (c := b2z (al <? bl)) in *.
  assert (word x) as Hx by apply u64_word. assert (u64 (u64 (ah - bh) - c) = (ah - bh - c) mod WB) as ->
    by (unfold u64; by rewrite Zminus_mod_idemp_l).
  pose proof (Z.mod_pos_bound (ah - bh - c) WB ltac:(done)) as Hh. split; [|done].
  pose proof (Z.div_mod (ah - bh - c) WB ltac:(done)).
  apply mod_eq_two with ((ah - bh - c) / WB); unfold word, WB in *; lia.
Qed.

(** The masks of the macros: all ones or 0 *)
Lemma mask_land (b : bool) d : word d → Z.land (u64 (- b2z b)) d = if b then d else 0.
Proof.
  intros Hd. destruct b; cbn [b2z]; [|done]. rewrite u64_add by (unfold WB; lia).
  replace (_ + WB) with (Z.ones 64) by done. rewrite Z.land_comm, Z.land_ones by lia. by apply Z.mod_small.
Qed.

Lemma mask_dec (b : bool) q : u64 (q + u64 (- b2z b)) = u64 (q - b2z b).
Proof. unfold u64. rewrite Zplus_mod_idemp_r. f_equal. Qed.

(** Both macros go on in the same way from the candidate remainder [rt], of which they
    have the value modulo [w]: they add the divisor back if the test [b] says so and
    subtract it again if the result is too large. *)
Lemma adjust (w d n q1 rt : Z) (b : bool) :
  0 < d < w → w ≤ 2 * d → n = (q1 + 1) * d + rt → - d ≤ rt < w →
  (rt < 0 → b = true) → (b = true → 0 ≤ rt → rt < w - d) →
  let r := (rt mod w + if b then d else 0) mod w in
  if d <=? r then n = (q1 + 1 - b2z b + 1) * d + (r - d) ∧ 0 ≤ r - d < d
  else n = (q1 + 1 - b2z b) * d + r ∧ 0 ≤ r < d.
Proof.
  intros Hd Hw Hn Hrt Hneg Hpos r.
  assert (r = if b then rt + d else rt) as ->.
  { unfold r. destruct b; rewrite ?Z.add_0_r, ?Z.mod_mod, ?Zplus_mod_idemp_l by lia.
    - destruct (Z.lt_ge_cases rt 0); [|specialize (Hpos eq_refl ltac:(lia))]; apply Z.mod_small; lia.
    - destruct (Z.lt_ge_cases rt 0); [by specialize (Hneg ltac:(lia))|]. apply Z.mod_small. lia. }
  destruct b; cbn [b2z].
  - destruct (Z.leb_spec d (rt + d)); [specialize (Hpos eq_refl ltac:(lia))|]; lia.
  - destruct (Z.lt_ge_cases rt 0); [by specialize (Hneg ltac:(lia))|]. destruct (Z.leb_spec d rt); lia.
Qed.

(** A quotient digit is below the base. *)
Lemma digit_word n d q r : 0 ≤ n < d * WB → 0 ≤ r < d → n = q * d + r → word q.
Proof. unfold word. intros. nia. Qed.

(** ** Two limbs by one *)

(** The 2/1 reciprocal and what it leaves *)
Definition recip1 (d v : Z) : Prop := ∃ k, (WB + v) * d = WB * WB - k ∧ 1 ≤ k ≤ d.

Lemma recip1_def d : 0 < d < WB → recip1 d ((WB * WB - 1) / d - WB).
Proof.
  intros Hd. exists ((WB * WB - 1) mod d + 1).
  pose proof (Z.div_mod (WB * WB - 1) d ltac:(lia)). pose proof (Z.mod_pos_bound (WB * WB - 1) d ltac:(lia)).
  split; [unfold WB in *; lia|lia].
Qed.

Lemma recip1_unique d v : 0 < d → recip1 d v → v = (WB * WB - 1) / d - WB.
Proof.
  intros Hd (k & Hv & Hk). assert ((WB * WB - 1) / d = WB + v) as ->; [|lia].
  symmetry. apply Z.div_unique with (k - 1); unfold WB in *; lia.
Qed.

Lemma recip1_word d v : 9223372036854775808 ≤ d < WB → recip1 d v → word v.
Proof.
  intros Hd (k & Hv & Hk). unfold word. split.
  - destruct (Z.lt_ge_cases v 0); [|done]. exfalso. assert ((WB + v) * d ≤ (WB - 1) * d) by (apply Z.mul_le_mono_nonneg_r; lia).
    unfold WB in *. lia.
  - destruct (Z.lt_ge_cases v WB); [done|]. exfalso.
    assert ((WB + WB) * d ≤ (WB + v) * d) by (apply Z.mul_le_mono_nonneg_r; lia). unfold WB in *. lia.
Qed.

Lemma udiv_qrnnd_preinv_spec nh nl d v q r :
  9223372036854775808 ≤ d < WB → 0 ≤ nh < d → word nl → recip1 d v →
  gmp_udiv_qrnnd_preinv nh nl d v = (q, r) →
  nh * WB + nl = q * d + r ∧ 0 ≤ r < d ∧ word q.
Proof.
  intros Hd Hnh Hnl Hv. pose proof (recip1_word d v Hd Hv) as Hwv. destruct Hv as (k & Hv & Hk).
  unfold gmp_udiv_qrnnd_preinv. destruct (gmp_umul_ppmm nh v) as [ph pl] eqn:Hm.
  apply gmp_umul_ppmm_spec in Hm as (Hm & Hph & Hpl); [|unfold word; lia|done].
  destruct (gmp_add_ssaaaa ph pl (u64 (nh + 1)) nl) as [qh ql] eqn:Ha.
  apply add_ssaaaa_spec in Ha as (Ha & Hqh & Hql); [|done..]. rewrite u64_small in Ha by lia.
  set (q1 := (nh * v + nh * WB + nl) / WB). set (q0 := (nh * v + nh * WB + nl) mod WB).
  assert (v * nh + nh * WB + nl = q1 * WB + q0) as Hq.
  { unfold q1, q0. rewrite (Z.mul_comm v). pose proof (Z.div_mod (nh * v + nh * WB + nl) WB ltac:(done)). lia. }
  assert (0 ≤ q0 < WB) as Hq0 by (apply Z.mod_pos_bound; done).
  pose proof (estimate_2by1 WB d v k ltac:(done) ltac:(lia) Hv Hk nh nl q1 q0 Hnh Hnl Hq Hq0) as Hest.
  cbn zeta in Hest. set (rt := nh * WB + nl - (q1 + 1) * d) in *.
  assert (nh * (WB + v) < d * (WB + v)) as Hlt by (apply Z.mul_lt_mono_pos_r; unfold word, WB in *; lia).
  assert (0 ≤ q1 < WB) as Hq1.
  { assert (0 ≤ nh * v) by (apply Z.mul_nonneg_nonneg; unfold word in *; lia).
    unfold word, WB in *. split; [apply Z.div_pos; lia|].
    apply Z.div_lt_upper_bound; [lia|]. clear - Hlt Hv Hk Hnl Hwv Hnh. nia. }
  assert (qh = (q1 + 1) mod WB ∧ ql = q0) as [-> ->].
  { unfold word in *. replace (ph * WB + pl + _) with ((q1 + 1) * WB + q0) in Ha by lia.
    assert (WB2 = WB * WB) by done. destruct (Z.lt_ge_cases (q1 + 1) WB).
    - rewrite (Z.mod_small (q1 + 1)) by lia. rewrite Z.mod_small in Ha by (unfold WB in *; lia). unfold WB in *. lia.
    - replace (q1 + 1) with WB in * by lia. rewrite Z.mod_same by done.
      replace (WB * WB + q0) with (q0 + 1 * WB2) in Ha by lia. rewrite Z.mod_add, Z.mod_small in Ha by (unfold WB in *; lia).
      unfold WB in *. lia. }
  assert (u64 (nl - u64 ((q1 + 1) mod WB * d)) = rt mod WB) as ->.
  { unfold u64, rt. rewrite Zmult_mod_idemp_l, Zminus_mod_idemp_r.
    replace (nh * WB + nl - (q1 + 1) * d) with (nl - (q1 + 1) * d + nh * WB) by lia. symmetry. apply Z_mod_plus_full. }
  set (b := q0 <? rt mod WB). rewrite mask_dec, mask_land by (unfold word; lia).
  assert (rt < 0 → b = true) as Hneg.
  { intros Hlt0. apply Z.ltb_lt. rewrite <- (Z.mod_unique rt WB (-1) (rt + WB)); lia. }
  assert (b = true → 0 ≤ rt → rt < WB - d) as Hpos.
  { intros Hb%Z.ltb_lt Hge. rewrite Z.mod_small in Hb by lia. lia. }
  pose proof (adjust WB d (nh * WB + nl) q1 rt b ltac:(lia) ltac:(unfold WB in *; lia) ltac:(unfold rt; lia)
    ltac:(lia) Hneg Hpos) as Hadj. cbn zeta in Hadj. fold (u64 (rt mod WB + if b then d else 0)) in Hadj.
  set (r1 := u64 (rt mod WB + if b then d else 0)) in *.
  assert (0 ≤ nh * WB + nl < d * WB) as HN by (unfold word, WB in *; lia).
  intros Heq. destruct (d <=? r1); destruct Hadj as [HN2 Hr]; injection Heq as <- <-;
    pose proof (digit_word _ _ _ _ HN Hr HN2) as Hwq.
  - rewrite (u64_small (r1 - d)) by lia. replace (u64 _) with (q1 + 1 - b2z b + 1); [done|].
    rewrite <- (u64_small (q1 + 1 - b2z b + 1)) by apply Hwq. unfold u64.
    by rewrite Zminus_mod_idemp_l, Zplus_mod_idemp_l.
  - replace (u64 _) with (q1 + 1 - b2z b); [done|].
    rewrite <- (u64_small (q1 + 1 - b2z b)) by apply Hwq. unfold u64. by rewrite Zminus_mod_idemp_l.
Qed.

(** ** Three limbs by two *)

(** The 3/2 reciprocal and what it leaves *)
Definition recip2 (d v : Z) : Prop := 0 ≤ v ∧ ∃ k, (WB + v) * d = WB * WB * WB - k ∧ 1 ≤ k ≤ d.

Lemma recip2_unique d v : 0 < d → recip2 d v → v = (WB * WB * WB - 1) / d - WB.
Proof.
  intros Hd (_ & k & Hv & Hk). assert ((WB * WB * WB - 1) / d = WB + v) as ->; [|lia].
  symmetry. apply Z.div_unique with (k - 1); unfold WB in *; lia.
Qed.

Lemma recip2_word d v : 9223372036854775808 * WB ≤ d < WB2 → recip2 d v → word v.
Proof.
  intros Hd (Hv0 & k & Hv & Hk). unfold word. split; [done|].
  destruct (Z.lt_ge_cases v WB); [done|]. exfalso.
  assert ((WB + WB) * d ≤ (WB + v) * d) by (apply Z.mul_le_mono_nonneg_r; unfold WB in *; lia). unfold WB in *. lia.
Qed.

Section three_limbs.
Context (n2 n1 n0 d1 d0 v : Z).
Let d := d1 * WB + d0.
Hypotheses (Hd1 : 9223372036854775808 ≤ d1 < WB) (Hd0 : word d0) (Hn2 : word n2) (Hn1 : word n1)
  (Hn0 : word n0) (Hlt : n2 * WB + n1 < d) (Hv : recip2 d v).

Lemma d_range : 9223372036854775808 * WB ≤ d < WB2.
Proof. unfold d, word, WB in *. lia. Qed.

(** The estimate: two limbs that do not overflow *)
Lemma qr_3by2_digits q q0 ph pl :
  gmp_umul_ppmm n2 v = (ph, pl) → gmp_add_ssaaaa ph pl n2 n1 = (q, q0) →
  v * n2 + n2 * WB + n1 = q * WB + q0 ∧ word q ∧ word q0.
Proof.
  pose proof d_range as Hd. pose proof (recip2_word d v Hd Hv) as Hwv. destruct Hv as (Hv0 & k & Hvk & Hk).
  intros Hm Ha. apply gmp_umul_ppmm_spec in Hm as (Hm & Hph & Hpl); [|done..].
  apply add_ssaaaa_spec in Ha as (Ha & Hq & Hq0); [|done..].
  replace (ph * WB + pl + (n2 * WB + n1)) with (v * n2 + n2 * WB + n1) in Ha by (rewrite (Z.mul_comm v); lia).
  rewrite Z.mod_small in Ha; [done|]. unfold word in *. split.
  { assert (0 ≤ v * n2) by (apply Z.mul_nonneg_nonneg; lia). unfold WB in *. lia. }
  assert ((n2 * WB + n1) * (WB + v) < d * (WB + v)) as Hlt2 by (apply Z.mul_lt_mono_pos_r; unfold WB in *; lia).
  assert (0 ≤ n1 * v) by (apply Z.mul_nonneg_nonneg; lia).
  apply (Z.mul_lt_mono_pos_l WB); [done|]. unfold WB in *. lia.
Qed.

(** The two limbs of the candidate remainder, modulo the square of the base *)
Lemma qr_3by2_candidate q s1 s0 t1 t0 r1 r0 :
  word q → gmp_sub_ddmmss (u64 (n1 - u64 (d1 * q))) n0 d1 d0 = (s1, s0) →
  gmp_umul_ppmm d0 q = (t1, t0) → gmp_sub_ddmmss s1 s0 t1 t0 = (r1, r0) →
  r1 * WB + r0 = (n2 * WB2 + n1 * WB + n0 - (q + 1) * d) mod WB2 ∧ word r1 ∧ word r0.
Proof.
  intros Hq Hs Ht Hr. apply sub_ddmmss_spec in Hs as (Hs & Hs1 & Hs0); [|done..].
  apply gmp_umul_ppmm_spec in Ht as (Ht & Ht1 & Ht0); [|done..].
  apply sub_ddmmss_spec in Hr as (Hr & Hr1 & Hr0); [|done..]. split; [|done].
  rewrite Hr, Hs, Ht, Zminus_mod_idemp_l.
  assert (∃ j, u64 (n1 - u64 (d1 * q)) = n1 - d1 * q + j * WB) as [j ->].
  { exists (- ((n1 - d1 * q) / WB)). unfold u64. rewrite Zminus_mod_idemp_r.
    pose proof (Z.div_mod (n1 - d1 * q) WB ltac:(done)). lia. }
  replace (n2 * WB2 + n1 * WB + n0 - (q + 1) * d)
    with ((n1 - d1 * q + j * WB) * WB + n0 - (d1 * WB + d0) - d0 * q + (n2 - j) * WB2) by (unfold d; ring).
  symmetry. apply Z_mod_plus_full.
Qed.

Lemma qr_3by2_spec q r1 r0 :
  gmp_udiv_qr_3by2 n2 n1 n0 d1 d0 v = (q, r1, r0) →
  n2 * WB2 + n1 * WB + n0 = q * d + (r1 * WB + r0) ∧ r1 * WB + r0 < d ∧ word q ∧ word r1 ∧ word r0.
Proof.
  pose proof d_range as Hd. unfold gmp_udiv_qr_3by2.
  destruct (gmp_umul_ppmm n2 v) as [ph pl] eqn:Hm. destruct (gmp_add_ssaaaa ph pl n2 n1) as [q1 q0] eqn:Ha.
  destruct (qr_3by2_digits q1 q0 ph pl Hm Ha) as (Hdig & Hq1 & Hq0).
  destruct (gmp_sub_ddmmss (u64 (n1 - u64 (d1 * q1))) n0 d1 d0) as [s1 s0] eqn:Hs.
  destruct (gmp_umul_ppmm d0 q1) as [t1 t0] eqn:Ht.
  destruct (gmp_sub_ddmmss s1 s0 t1 t0) as [c1 c0] eqn:Hc.
  destruct (qr_3by2_candidate q1 s1 s0 t1 t0 c1 c0 Hq1 Hs Ht Hc) as (Hcand & Hc1 & Hc0).
  destruct Hv as (Hv0 & k & Hvk & Hk).
  pose proof (estimate_3by2 WB d v k ltac:(done) ltac:(unfold WB in *; lia) Hv0 Hvk Hk n2 n1 n0 q1 q0
    ltac:(apply Hn2) Hn1 Hn0 Hlt Hdig Hq0) as Hest. cbn zeta in Hest.
  set (rt := n2 * WB2 + n1 * WB + n0 - (q1 + 1) * d) in *.
  set (b := q0 <=? c1). rewrite mask_dec, !mask_land by (unfold word in *; lia).
  assert (b = true ↔ q0 * WB ≤ rt mod WB2) as Hb.
  { unfold b. rewrite Z.leb_le, <- Hcand. unfold word, WB in *. lia. }
  destruct (gmp_add_ssaaaa c1 c0 (if b then d1 else 0) (if b then d0 else 0)) as [e1 e0] eqn:He.
  apply add_ssaaaa_spec in He as (He & He1 & He0); [|done|by destruct b].
  assert (e1 * WB + e0 = (rt mod WB2 + if b then d else 0) mod WB2) as He2
    by (rewrite He, Hcand; destruct b; unfold d; f_equal; lia).
  assert (q0 * WB < WB2) as Hq0w by (unfold word, WB in *; lia).
  assert (rt < 0 → b = true) as Hneg.
  { intros Hlt0. apply Hb. rewrite <- (Z.mod_unique rt WB2 (-1) (rt + WB2)); lia. }
  assert (b = true → 0 ≤ rt → rt < WB2 - d) as Hpos.
  { intros Hb1%Hb Hge. rewrite Z.mod_small in Hb1 by lia. lia. }
  pose proof (adjust WB2 d (n2 * WB2 + n1 * WB + n0) q1 rt b ltac:(unfold WB in *; lia) ltac:(unfold WB in *; lia)
    ltac:(unfold rt; lia) ltac:(lia) Hneg Hpos) as Hadj. cbn zeta in Hadj. rewrite <- He2 in Hadj.
  assert ((d1 <=? e1) && ((d1 <? e1) || (d0 <=? e0)) = (d <=? e1 * WB + e0)) as Hcmp.
  { apply Bool.eq_true_iff_eq. rewrite andb_true_iff, orb_true_iff, !Z.leb_le, Z.ltb_lt. unfold d, word, WB in *. lia. }
  assert (0 ≤ n2 * WB2 + n1 * WB + n0 < d * WB) as HN by (unfold d, word, WB in *; lia).
  assert (∀ z, word z → (q1 + 1 - b2z b + z) mod WB = u64 (u64 (u64 (q1 + 1) - b2z b) + z)) as Hqz.
  { intros z _. unfold u64. by rewrite Zminus_mod_idemp_l, Zplus_mod_idemp_l. }
  destruct (d <=? e1 * WB + e0) eqn:Hle; destruct Hadj as [HN2 Hr];
    pose proof (digit_word _ _ _ _ HN Hr HN2) as Hwq.
  - apply andb_true_iff in Hcmp as [-> ->]. destruct (gmp_sub_ddmmss e1 e0 d1 d0) as [f1 f0] eqn:Hf.
    apply sub_ddmmss_spec in Hf as (Hf & Hf1 & Hf0); [|done..]. fold d in Hf.
    rewrite Z.mod_small in Hf by lia. intros Heq. injection Heq as <- <- <-.
    rewrite <- Hqz, Z.mod_small by (done || apply Hwq). split; [lia|]. split; [lia|]. done.
  - intros Heq. assert ((u64 (u64 (q1 + 1) - b2z b), e1, e0) = (q, r1, r0)) as Heq2.
    { destruct (d1 <=? e1); [destruct ((d1 <? e1) || (d0 <=? e0)); [done|]|]; exact Heq. }
    injection Heq2 as <- <- <-. specialize (Hqz 0 ltac:(done)). rewrite !Z.add_0_r in Hqz.
    unfold u64 in *. rewrite Z.mod_mod in Hqz by done. rewrite <- Hqz, Z.mod_small by apply Hwq.
    split; [done|]. split; [apply Hr|]. done.
Qed.
End three_limbs.

(** ** Computing the reciprocals *)

(** A divisor of a power of two is one itself. *)
Lemma pow2_divisor x n y j : 0 < x < 2 ^ Z.of_nat j → 0 ≤ n → x * y = 2 ^ n → ∃ i, 0 ≤ i ∧ x = 2 ^ i.
Proof.
  intros Hx Hn Hxy. destruct (odd_part j x Hx) as (i & q & Hi & Hq & ->). exists i. split; [lia|].
  assert (2 * q + 1 | 1) as Hone.
  { apply (Z.gauss _ (2 ^ n)).
    - exists (2 ^ i * y). rewrite Z.mul_1_r. lia.
    - apply Z.coprime_pow_r; [lia|]. red. rewrite Z.gcd_comm. replace (2 * q + 1) with (1 + q * 2) by lia.
      by rewrite Z.gcd_add_mult_diag_r. }
  apply Z.divide_1_r_nonneg in Hone; [|lia]. replace (2 * q + 1) with 1 by lia. lia.
Qed.

Lemma recip2_intro d v k :
  0 < d < WB2 → (WB + v) * d = WB * WB * WB - k → 1 ≤ k ≤ d → recip2 d v.
Proof.
  intros Hd Hv Hk. split; [|by exists k].
  destruct (Z.lt_ge_cases v 0); [|done]. exfalso.
  assert ((WB + v) * d ≤ (WB - 1) * d) by (apply Z.mul_le_mono_nonneg_r; lia). unfold WB in *. lia.
Qed.

Lemma pow_gap i : 2 ^ 127 < 2 ^ i < 2 ^ 128 → False.
Proof.
  intros [H1 H2]. destruct (Z.lt_ge_cases i 0); [rewrite (Z.pow_neg_r 2 i) in H1 by done; lia|].
  apply Z.pow_lt_mono_r_iff in H1; [|lia..]. apply Z.pow_lt_mono_r_iff in H2; lia.
Qed.

Section invert.
Context (u1 : Z).
Hypothesis Hu1 : 9223372036854775808 ≤ u1 < WB.

(** The first half of the code is the half step of a division. *)
Lemma invert_half_step : invert_half u1 = qrnnd_half (limb_not u1) GMP_LLIMB_MASK u1.
Proof.
  destruct (halves u1) as (Eu & Huh & Hul); [unfold WB in *; lia|].
  unfold invert_half, qrnnd_half.
  change (Z.land u1 GMP_LLIMB_MASK) with (ll_lowpart u1). change (Z.shiftr u1 32) with (ll_highpart u1).
  set (uh := ll_highpart u1) in *. set (ul := ll_lowpart u1) in *. clearbody uh ul. rewrite ll_B_val in *.
  assert (u32 ul = ul) as -> by (apply Z.mod_small; lia). assert (u32 uh = uh) as -> by (apply Z.mod_small; lia).
  assert (2147483648 ≤ uh) as Huh2 by (unfold WB in *; lia).
  set (q := limb_not u1 / uh).
  assert (0 ≤ q < 4294967296) as Hq.
  { unfold q, limb_not, GMP_LIMB_MAX. split; [apply Z.div_pos; unfold WB in *; lia|].
    apply Z.div_lt_upper_bound; unfold WB in *; lia. }
  assert (u32 q = q) as -> by (apply Z.mod_small; lia). rewrite Z.shiftl_mul_pow2 by lia.
  change (2 ^ 32) with 4294967296. set (r := Z.lor _ GMP_LLIMB_MASK). set (p := u64 (q * ul)).
  assert (p = q * ul) as Hp by (apply u64_small; unfold WB; nia).
  assert (0 ≤ r) as Hr by (apply Z.lor_nonneg; split; [apply u64_word|done]).
  destruct (Z.ltb_spec r p) as [Hlt|]; [|done].
  assert (1 ≤ q) as Hq1 by nia.
  assert (u32 (q - 1) = q - 1) as -> by (apply Z.mod_small; lia).
  assert (u64 (q - 1) = q - 1) as -> by (apply u64_small; unfold WB; lia).
  destruct (Z.leb_spec u1 (u64 (r + u1))) as [Hle|]; [|done].
  destruct (Z.ltb_spec (u64 (r + u1)) p) as [Hlt2|]; [|done].
  assert (2 ≤ q) as Hq2 by nia.
  assert (u32 (q - 1 - 1) = q - 1 - 1) as -> by (apply Z.mod_small; lia).
  by assert (u64 (q - 1 - 1) = q - 1 - 1) as -> by (apply u64_small; unfold WB; lia).
Qed.

Lemma invert_half_spec qh r :
  invert_half u1 = (qh, r) →
  (4294967296 + qh) * u1 = 4294967296 * 4294967296 * 4294967296 - (r + 1) ∧ 0 ≤ r < u1 ∧ 0 ≤ qh < 4294967296.
Proof.
  rewrite invert_half_step. intros Hh.
  apply qrnnd_half_correct in Hh as (Heq & Hr & Hq); [|done| |by rewrite ll_B_val].
  - rewrite ll_B_val in *. unfold limb_not, GMP_LIMB_MAX, GMP_LLIMB_MASK, GMP_HLIMB_BIT in Heq.
    change (Z.shiftl 1 32) with 4294967296 in Heq. lia.
  - unfold limb_not, GMP_LIMB_MAX, WB in *. lia.
Qed.

(** The 2/1 inverse: the low half is a division of half limbs with the high half as its
    reciprocal. *)
Lemma invert_2by1_spec m r :
  invert_2by1 u1 = (m, r) → (WB + m) * u1 = WB * WB - (r + 1) ∧ 0 ≤ r < u1 ∧ word m.
Proof.
  unfold invert_2by1. destruct (invert_half u1) as [qh rh] eqn:Hh.
  apply invert_half_spec in Hh as (Hv & Hrh & Hqh). set (b := 4294967296) in *.
  rewrite !Z.shiftr_div_pow2, !Z.shiftl_mul_pow2 by lia. change (2 ^ 32) with b.
  set (q1 := (rh / b * qh + rh) / b). set (q0 := (rh / b * qh + rh) mod b).
  pose proof (Z.div_mod rh b ltac:(done)) as Hdm. pose proof (Z.mod_pos_bound rh b ltac:(done)) as Hm.
  assert (0 ≤ rh / b) as Hdp by (apply Z.div_pos; [lia|done]).
  pose proof (Z.div_mod (rh / b * qh + rh) b ltac:(done)) as Hq. fold q1 q0 in Hq.
  assert (0 ≤ q0 < b) as Hq0 by (apply Z.mod_pos_bound; done).
  assert (qh * (rh / b) + rh / b * b + rh mod b = q1 * b + q0) as Hdig by lia.
  pose proof (estimate_3by2 b u1 qh (rh + 1) ltac:(done) ltac:(unfold WB, b in *; lia) ltac:(lia) Hv ltac:(lia)
    (rh / b) (rh mod b) (b - 1) q1 q0 Hdp Hm ltac:(unfold b; lia) ltac:(lia) Hdig Hq0) as Hest. cbn zeta in Hest.
  change (b * b) with WB in *. set (rt := rh / b * WB + rh mod b * b + (b - 1) - (q1 + 1) * u1) in *.
  assert (0 ≤ rh / b * qh) as Hp0 by (apply Z.mul_nonneg_nonneg; lia).
  assert (rh / b * qh + rh < WB) as Hp.
  { assert ((b + qh) * rh ≤ (b + qh) * (u1 - 1)) by (apply Z.mul_le_mono_nonneg_l; unfold b in *; lia).
    assert (0 ≤ qh * (rh mod b)) by (apply Z.mul_nonneg_nonneg; lia).
    apply (Z.mul_lt_mono_pos_l b); [done|]. unfold WB, b in *. lia. }
  rewrite (u64_small (rh / b * qh)), (u64_small (rh / b * qh + rh)) by lia. fold q1.
  assert (0 ≤ q1 < b) as Hq1 by (unfold WB, b in *; lia).
  rewrite (u64_small (q1 + 1)) by (unfold WB, b in *; lia).
  assert (u64 (u64 (u64 (rh * b) + GMP_LLIMB_MASK) - u64 ((q1 + 1) * u1)) = rt mod WB) as ->.
  { unfold u64. rewrite Zplus_mod_idemp_l, Zminus_mod_idemp_r, Zminus_mod_idemp_l. f_equal.
    unfold rt. change GMP_LLIMB_MASK with (b - 1). change WB with (b * b). lia. }
  assert (u64 ((rh / b * qh + rh) * b) = q0 * b) as ->.
  { symmetry. apply mod_eq_two with q1; unfold WB, b in *; lia. }
  set (t := q0 * b <=? rt mod WB).
  assert (rt < 0 → t = true) as Hneg.
  { intros Hlt0. apply Z.leb_le. rewrite <- (Z.mod_unique rt WB (-1) (rt + WB)); lia. }
  assert (t = true → 0 ≤ rt → rt < WB - u1) as Hpos.
  { intros Ht%Z.leb_le Hge. rewrite Z.mod_small in Ht by (unfold WB, b in *; lia). lia. }
  pose proof (adjust WB u1 (rh * b + (b - 1)) q1 rt t ltac:(lia) ltac:(unfold WB in *; lia)
    ltac:(unfold rt; change WB with (b * b); lia) ltac:(unfold WB, b in *; lia) Hneg Hpos) as Hadj. cbn zeta in Hadj.
  set (r2 := (rt mod WB + if t then u1 else 0) mod WB) in *.
  assert ((if t then (u64 (q1 + 1 - 1), u64 (rt mod WB + u1)) else (q1 + 1, rt mod WB)) = (q1 + 1 - b2z t, r2)) as ->.
  { unfold r2. destruct t; cbn [b2z]; [rewrite (u64_small (q1 + 1 - 1)) by (unfold WB, b in *; lia); done|].
    rewrite Z.add_0_r, Z.mod_mod, Z.sub_0_r by done. done. }
  assert (∀ q rf, rh * b + (b - 1) = q * u1 + rf → 0 ≤ rf < u1 → (WB + (qh * b + q)) * u1 = WB * WB - (rf + 1) ∧
    0 ≤ rf < u1 ∧ word (qh * b + q)) as Hfin.
  { intros q rf HN Hrf. assert ((WB + (qh * b + q)) * u1 = WB * WB - (rf + 1)) as HM.
    { clear - Hv HN. assert (b * ((b + qh) * u1) = b * (WB * b - (rh + 1))) as Hv2 by (by rewrite Hv).
      change WB with (b * b) in *. lia. }
    split; [done|]. split; [done|]. apply (recip1_word u1); [done|]. exists (rf + 1). split; [done|lia]. }
  intros Heq. destruct (u1 <=? r2); destruct Hadj as [HN Hrf]; injection Heq as <- <-;
    destruct (Hfin _ _ HN Hrf) as (HM & _ & Hw).
  - rewrite (u64_small (r2 - u1)) by lia. replace (u64 (u64 _ + 1)) with (qh * b + (q1 + 1 - b2z t + 1)); [done|].
    rewrite <- (u64_small (qh * b + _)) by apply Hw. unfold u64.
    by rewrite Zplus_mod_idemp_l, <- !Z.add_assoc, Zplus_mod_idemp_l.
  - replace (u64 _) with (qh * b + (q1 + 1 - b2z t)); [done|].
    rewrite <- (u64_small (qh * b + _)) by apply Hw. unfold u64. by rewrite Zplus_mod_idemp_l.
Qed.

(** The first adjustment for the low limb [u0]: the sum [r] of the middle limbs does not
    overflow any more. *)
Definition adjust_low (u0 m r : Z) : Z * Z :=
  if r <? u0 then
    let m := u64 (m - 1) in
    let '(m, r) := if u1 <=? r then (u64 (m - 1), u64 (r - u1)) else (m, r) in
    (m, u64 (r - u1))
  else (m, r).

Lemma adjust_low_spec u0 m r m' p :
  word u0 → (WB + m) * u1 = WB * WB - (r + 1) → 0 ≤ r < u1 →
  adjust_low u0 m (u64 (limb_not r + u0)) = (m', p) →
  (WB + m') * u1 + u0 = WB * WB - WB + p ∧ WB - u1 ≤ p < WB ∧ word m'.
Proof.
  intros Hu0 Hm Hr. assert (word (limb_not r)) as Hnr by (unfold word, limb_not, GMP_LIMB_MAX, WB in *; lia).
  pose proof (add_limb (limb_not r) u0 Hnr Hu0) as Hs. pose proof (u64_word (limb_not r + u0)) as Hx.
  unfold adjust_low. set (x := u64 (limb_not r + u0)) in *.
  assert (∀ m' p, (WB + m') * u1 + u0 = WB * WB - WB + p → WB - u1 ≤ p < WB →
    (WB + m') * u1 + u0 = WB * WB - WB + p ∧ WB - u1 ≤ p < WB ∧ word m') as Hfin.
  { intros m2 p2 H1 H2. split; [done|]. split; [done|]. unfold word in *. split.
    - destruct (Z.lt_ge_cases m2 0); [|done]. exfalso.
      assert ((WB + m2) * u1 ≤ (WB - 1) * u1) by (apply Z.mul_le_mono_nonneg_r; lia). unfold WB in *. lia.
    - destruct (Z.lt_ge_cases m2 WB); [done|]. exfalso.
      assert ((WB + WB) * u1 ≤ (WB + m2) * u1) by (apply Z.mul_le_mono_nonneg_r; unfold WB in *; lia). unfold WB in *. lia. }
  unfold limb_not, GMP_LIMB_MAX in Hs. destruct (Z.ltb_spec x u0); cbn [b2z] in Hs.
  - destruct (Z.leb_spec u1 x); intros Heq; injection Heq as <- <-.
    + destruct (Hfin (m - 2) (x - u1 - u1 + WB)) as (H1 & H2 & H3); [unfold word, WB in *; lia..|].
      rewrite (u64_small (x - u1)) by (unfold word, WB in *; lia).
      rewrite (u64_add (x - u1 - u1)) by (unfold word, WB in *; lia).
      replace (u64 (u64 (m - 1) - 1)) with (m - 2); [done|].
      rewrite <- (u64_small (m - 2)) by apply H3. unfold u64. rewrite Zminus_mod_idemp_l. f_equal. lia.
    + destruct (Hfin (m - 1) (x - u1 + WB)) as (H1 & H2 & H3); [unfold word, WB in *; lia..|].
      rewrite (u64_add (x - u1)) by (unfold word, WB in *; lia). by rewrite (u64_small (m - 1)) by apply H3.
  - intros Heq. injection Heq as <- <-. apply Hfin; unfold word, WB in *; lia.
Qed.

(** The second adjustment: the low limbs *)
Lemma adjust_high_spec u0 m p th tl :
  word u0 → 0 < u0 → (WB + m) * u1 + u0 = WB * WB - WB + p → WB - u1 ≤ p < WB → word m →
  gmp_umul_ppmm u0 m = (th, tl) →
  let r := u64 (p + th) in
  recip2 (u1 * WB + u0)
    (if r <? th then u64 (u64 (m - 1) - b2z ((u1 <? r) || ((r =? u1) && (u0 <? tl)))) else m).
Proof.
  intros Hu0 Hpos Hm Hp Hwm Ht r. apply gmp_umul_ppmm_spec in Ht as (Ht & Hth & Htl); [|done..].
  set (d := u1 * WB + u0). assert (9223372036854775808 * WB < d < WB2) as Hd by (unfold d, word, WB in *; lia).
  assert ((WB + m) * d = WB * WB * WB - WB * WB + (p + th) * WB + tl) as Hv.
  { replace ((WB + m) * d) with (WB * ((WB + m) * u1 + u0) + u0 * m) by (unfold d; ring). rewrite Hm, <- Ht. ring. }
  assert (word p) as Hwp by (unfold word; lia).
  pose proof (add_limb p th Hwp Hth) as Hs. fold r in Hs. assert (word r) as Hwr by apply u64_word.
  assert (∀ v k, (WB + v) * d = WB * WB * WB - k → 1 ≤ k ≤ d → recip2 d v ∧ word v) as Hfin.
  { intros v k Hvk Hk. assert (recip2 d v) as Hrec by (apply (recip2_intro d v k); [unfold WB in *; lia|done..]).
    split; [done|]. apply (recip2_word d); [unfold WB in *; lia|done]. }
  destruct (Z.ltb_spec r th); cbn [b2z] in Hs.
  - set (e := r * WB + tl).
    assert ((u1 <? r) || ((r =? u1) && (u0 <? tl)) = (d <? e)) as ->.
    { apply Bool.eq_true_iff_eq. rewrite orb_true_iff, andb_true_iff, !Z.ltb_lt, Z.eqb_eq.
      unfold d, e, word, WB in *. lia. }
    assert (d ≠ e) as Hne.
    { intros Hde. destruct (pow2_divisor d 192 (WB + m - 1) 128) as (i & Hi & Hdi).
      - unfold WB in *. change (Z.of_nat 128) with 128. lia.
      - lia.
      - change (2 ^ 192) with (WB * WB * WB). unfold e, WB in *. lia.
      - apply (pow_gap i). rewrite <- Hdi. unfold WB in *. lia. }
    destruct (Z.ltb_spec d e); cbn [b2z].
    + destruct (Hfin (m - 2) (2 * d - e)) as [Hrec Hw]; [unfold e, WB in *; lia|unfold e, word, WB in *; lia|].
      replace (u64 (u64 (m - 1) - 1)) with (m - 2); [done|].
      rewrite <- (u64_small (m - 2)) by apply Hw. unfold u64. rewrite Zminus_mod_idemp_l. f_equal. lia.
    + destruct (Hfin (m - 1) (d - e)) as [Hrec Hw]; [unfold e, WB in *; lia|unfold e, word, WB in *; lia|].
      rewrite Z.sub_0_r, (u64_small (m - 1)) by apply Hw. by rewrite (u64_small (m - 1)) by apply Hw.
  - apply (Hfin m (WB * WB - r * WB - tl)); [unfold word, WB in *; lia|unfold d, word, WB in *; lia].
Qed.

(** The reciprocal, as its comment defines it *)
Lemma mpn_invert_3by2_spec u0 :
  word u0 → ∃ m, mpn_invert_3by2 u1 u0 = Ok m ∧
    (u0 = 0 → recip1 u1 m) ∧ recip2 (u1 * WB + u0) m.
Proof.
  intros Hu0. unfold mpn_invert_3by2. change GMP_LIMB_HIGHBIT with 9223372036854775808.
  rewrite (proj2 (Z.leb_le _ _)) by lia. cbn [c_assert mbind outcome_bind].
  destruct (invert_2by1 u1) as [m r] eqn:Hi. apply invert_2by1_spec in Hi as (Hm & Hr & Hwm).
  destruct (Z.ltb_spec 0 u0) as [Hpos|Hz].
  - fold (adjust_low u0 m (u64 (limb_not r + u0))).
    destruct (adjust_low u0 m (u64 (limb_not r + u0))) as [m' p] eqn:Hlow.
    destruct (adjust_low_spec u0 m r m' p Hu0 Hm Hr Hlow) as (Hm' & Hp & Hwm').
    destruct (gmp_umul_ppmm u0 m') as [th tl] eqn:Ht.
    pose proof (adjust_high_spec u0 m' p th tl Hu0 Hpos Hm' Hp Hwm' Ht) as Hrec. cbn zeta in Hrec.
    destruct (u64 (p + th) <? th); eexists; (split; [done|]); split; done || lia.
  - assert (u0 = 0) as -> by (unfold word in Hu0; lia). exists m. split; [done|]. split.
    + intros _. exists (r + 1). split; [done|lia].
    + split; [apply Hwm|]. exists ((r + 1) * WB). split; [rewrite Z.add_0_r; unfold WB in *; lia|unfold WB in *; lia].
Qed.
End invert.
