(* ===== verification/MpnDivThm.v ===== *)
(** * Correctness of the division of limb arrays

    Quotient and remainder of division by one limb, by two limbs and by longer divisors,
    with the temporary arrays the functions allocate and free. *)

From S2P Require Import Prelude CString Queue State UInt64 Mpn MpnMem MpnThm MpnBits MpnDiv MpnInv.

(** ** The quotient, if it is wanted *)

Definition qspace (m : mem) (qp : option ptr) (n : nat) : Prop :=
  match qp with Some p => space m p n | None => True end.
Definition qholds (m : mem) (qp : option ptr) (l : list Z) : Prop :=
  match qp with Some p => holds m p l | None => True end.
Definition qwithin (q : ptr) (qp : option ptr) (n : nat) : Prop :=
  match qp with Some p => within q p n | None => False end.
Definition qwrites (m : mem) (qp : option ptr) (l : list Z) (m' : mem) : Prop :=
  qholds m' qp l ∧ changed m m' (λ q, qwithin q qp (length l)).
(** A downward loop that writes quotient limbs may read the numerator at [np]. *)
Definition qok (qp : option ptr) (np : ptr) (n : nat) : Prop :=
  match qp with Some p => ok_down p np n | None => True end.
Definition qapart (qp : option ptr) (n : nat) (p : ptr) (k : nat) : Prop :=
  match qp with Some q => apart q n p k | None => True end.

Lemma qapart_not c qp j p n : qapart qp j p n → within c p n → ¬ qwithin c qp j.
Proof. destruct qp as [q|]; [|intros _ _ []]. unfold qapart, apart, qwithin, within. lia. Qed.

Lemma qwrites_nil m qp : qwrites m qp [] m.
Proof. split; [by destruct qp|apply changed_refl]. Qed.

Lemma qspace_S m qp n : qspace m qp (S n) → qspace m qp n.
Proof. destruct qp; [|done]. rewrite <- Nat.add_1_r. by intros [? _]%space_app. Qed.
Lemma qspace_changed m m' S qp n : changed m m' S → qspace m qp n → qspace m' qp n.
Proof. destruct qp; [|done]. apply changed_space. Qed.

Lemma wp_store_q qp n x Q E m :
  qspace m qp (S n) →
  (∀ m', match qp with Some p => writes m (padd p (Z.of_nat n)) [x] m' | None => m' = m end → Q tt m') →
  wp (store_q qp (Z.of_nat n) x) Q E m.
Proof.
  destruct qp as [p|]; cbn; [|intros _ HQ; by apply wp_ret, HQ].
  rewrite <- Nat.add_1_r. intros [_ [Hs _]%space_S]%space_app HQ. by apply wp_store_writes.
Qed.

(** The quotient limbs are written from the highest down. *)
Lemma qwrites_down m qp n x m1 l m2 :
  match qp with Some p => writes m (padd p (Z.of_nat n)) [x] m1 | None => m1 = m end →
  length l = n → qwrites m1 qp l m2 → qwrites m qp (l ++ [x]) m2.
Proof.
  destruct qp as [p|]; cbn.
  - intros Hw Hl Hq. eapply (writes_app_down _ _ l [x]); [|exact Hq]. by rewrite Hl.
  - intros -> Hl [_ Hc]. by split.
Qed.

Lemma store_q_holds m qp n x m1 np l :
  match qp with Some p => writes m (padd p (Z.of_nat n)) [x] m1 | None => m1 = m end →
  length l = n → qok qp np (S n) → holds m np l → holds m1 np l.
Proof.
  destruct qp as [p|]; cbn; [|by intros ->]. intros Hw Hl Ho Hh. eapply writes_holds; [done| |done].
  unfold ok_down, apart, padd in *. cbn in *. lia.
Qed.

(** ** One limb *)

Definition inv_ok1 (d : Z) (inv : gmp_div_inverse) : Prop :=
  0 ≤ inv_shift inv < 64 ∧ inv_d1 inv = d * 2 ^ inv_shift inv ∧
  9223372036854775808 ≤ inv_d1 inv < WB ∧ recip1 (inv_d1 inv) (inv_di inv).

Lemma mpn_div_qr_1_invert_spec d :
  0 < d < WB → ∃ inv, mpn_div_qr_1_invert d = Ok inv ∧ inv_ok1 d inv.
Proof.
  intros Hd. unfold mpn_div_qr_1_invert. rewrite (proj2 (Z.ltb_lt _ _)) by lia.
  destruct (gmp_clz_ok d Hd) as (s & Hs & Hsr & Hb). cbn [c_assert mbind outcome_bind]. rewrite Hs. cbn [mbind outcome_bind].
  assert (u64 (Z.shiftl d s) = d * 2 ^ s) as -> by (rewrite Z.shiftl_mul_pow2 by lia; apply u64_small; lia).
  change (2 ^ 63) with 9223372036854775808 in Hb.
  destruct (mpn_invert_3by2_spec (d * 2 ^ s) Hb 0 ltac:(done)) as (v & Hv & Hr & _).
  unfold mpn_invert_limb. rewrite Hv. eexists. split; [done|]. unfold inv_ok1. cbn. auto.
Qed.

Section div1.
Context (d v : Z).
Hypotheses (Hd : 9223372036854775808 ≤ d < WB) (Hv : recip1 d v).

Lemma wp_div_qr_1_loop l : ∀ qp np r m Q E,
  words l → holds m np l → qspace m qp (length l) → qok qp np (length l) → 0 ≤ r < d →
  (∀ lq r' m', length lq = length l → words lq → r * wpow (length l) + val l = val lq * d + r' →
     0 ≤ r' < d → qwrites m qp lq m' → Q r' m') →
  wp (div_qr_1_loop (length l) qp np r d v) Q E m.
Proof.
  induction l as [|x l IH] using rev_ind; intros qp np r m Q E Hw Hh Hs Ho Hr HQ.
  { apply wp_ret. apply (HQ []); try done; [cbn [length val]; rewrite wpow_0; lia|apply qwrites_nil]. }
  rewrite length_app in *. cbn [length] in *. rewrite Nat.add_1_r in *. cbn [div_qr_1_loop].
  apply Forall_app in Hw as [Hw [Hwx _]%Forall_cons]. apply holds_app in Hh as [Hh [Hx _]%holds_cons].
  apply wp_bind. eapply wp_load; [done|].
  destruct (gmp_udiv_qrnnd_preinv r x d v) as [q r1] eqn:Hdiv.
  destruct (udiv_qrnnd_preinv_spec r x d v q r1 Hd Hr Hwx Hv Hdiv) as (Heq & Hr1 & Hq).
  apply wp_bind, wp_store_q; [done|]. intros m1 Hw1.
  assert (changed m m1 (λ c, qwithin c qp (S (length l)))) as Hch.
  { destruct qp as [p|]; [|subst m1; apply changed_refl]. eapply writes_changed; [done|].
    intros c. unfold qwithin, within, padd. cbn. lia. }
  eapply IH; [done|by eapply store_q_holds| | |done|].
  { eapply qspace_changed; [done|]. by apply qspace_S. }
  { destruct qp; [|done]. unfold qok, ok_down in *. lia. }
  intros lq r' m2 Hl Hlq Hv2 Hr' Hw2. apply (HQ (lq ++ [q])); [rewrite length_app; cbn; lia| | |done|].
  - apply Forall_app. auto.
  - rewrite !val_app, wpow_S, Hl. cbn [val]. nia.
  - by eapply qwrites_down.
Qed.
End div1.

(** A temporary block is not the quotient. *)
Lemma allocated_qapart m b n m1 qp k c :
  allocated m b n m1 → qspace m qp k → qwithin c qp k → c.1 ≠ b.
Proof.
  intros (_ & _ & Hfr & _) Hs Hc. destruct qp as [p|]; [|done]. apply Hfr.
  destruct Hc as [Hb Hr]. destruct c as [cb co], p as [pb po]. cbn in *. subst cb.
  specialize (Hs (Z.to_nat (co - po)) ltac:(lia)). unfold padd in Hs. cbn in Hs.
  by replace (po + Z.of_nat (Z.to_nat (co - po))) with co in Hs by lia.
Qed.

Lemma allocated_holds m b n m1 p l : allocated m b n m1 → holds m p l → holds m1 p l.
Proof.
  intros (Hf & _ & Hfr & _) Hh i x Hi. specialize (Hh i x Hi). rewrite Hf; [done|].
  apply (Hfr (padd p (Z.of_nat i))). by rewrite Hh.
Qed.

Lemma allocated_fresh m b n m1 p k : allocated m b n m1 → space m p k → (0 < k)%nat → p.1 ≠ b.
Proof. intros (_ & _ & Hfr & _) Hs Hk. apply Hfr. by eapply space_first. Qed.

Lemma allocated_space m b n m1 p k : allocated m b n m1 → space m p k → space m1 p k.
Proof. intros (Hf & _ & Hfr & _) Hs i Hi. specialize (Hs i Hi). by rewrite Hf by (by apply Hfr). Qed.
Lemma allocated_qspace m b n m1 qp k : allocated m b n m1 → qspace m qp k → qspace m1 qp k.
Proof. destruct qp; [|done]. apply allocated_space. Qed.

(** Writing the temporary block and then the quotient, and freeing the block *)
Lemma qwrites_temp m b n m1 lt m2 qp lq m3 m4 :
  allocated m b n m1 → writes m1 (b, 0) lt m2 → qspace m qp (length lq) → qwrites m2 qp lq m3 →
  (∀ q, cell m4 q = if decide (q.1 = b) then None else cell m3 q) → m_next m4 = m_next m3 →
  qwrites m qp lq m4.
Proof.
  intros Ha Hw1 Hs [Hq Hc] H4 Hn4.
  assert (∀ c, qwithin c qp (length lq) → c.1 ≠ b) as Hne by (intros c; by eapply allocated_qapart).
  split.
  - destruct qp as [p|]; [|done]. intros i x Hi. rewrite H4, decide_False; [by apply Hq|].
    apply Hne. apply lookup_lt_Some in Hi. unfold qwithin, within, padd. cbn. lia.
  - eapply changed_temp; [done| |done..]. eapply changed_trans.
    + eapply writes_changed; [done|]. intros q [Hb _]. by left.
    + eapply changed_mono; [done|]. intros q Hqw. by right.
Qed.

Lemma wp_mpn_div_qr_1_preinv qp np l d inv m Q E :
  words l → l ≠ [] → holds m np l → mem_ok m → qspace m qp (length l) → qok qp np (length l) →
  inv_ok1 d inv →
  (∀ lq r m', length lq = length l → words lq → val l = val lq * d + r → 0 ≤ r < d →
     qwrites m qp lq m' → Q r m') →
  wp (mpn_div_qr_1_preinv qp np (Z.of_nat (length l)) inv) Q E m.
Proof.
  intros Hw Hne Hh Hm Hs Ho (Hsr & Hd1 & Hdr & Hrec) HQ. unfold mpn_div_qr_1_preinv.
  destruct inv as [s d1 d0 di]. cbn [inv_shift inv_d1 inv_di] in *. rewrite Nat2Z.id.
  assert (0 < length l)%nat as Hlen by (destruct l; [done|cbn; lia]).
  assert (0 < 2 ^ s) as Hp by (apply Z.pow_pos_nonneg; lia).
  assert (∀ lq r, val l * 2 ^ s = val lq * d1 + r → 0 ≤ r < d1 →
    val l = val lq * d + Z.shiftr r s ∧ 0 ≤ Z.shiftr r s < d) as Hrem.
  { intros lq r Heq Hr. rewrite Z.shiftr_div_pow2 by lia.
    assert (r = (val l - val lq * d) * 2 ^ s) as -> by lia. rewrite Z.div_mul by lia. nia. }
  destruct (Z.ltb_spec 0 s) as [Hs0|Hs0].
  - apply wp_bind, wp_gmp_xalloc_limbs; [done..|]. intros b m1 Ha. apply wp_bind.
    apply wp_mpn_lshift; [done|lia|done|by eapply allocated_holds|apply Ha| |].
    { left. cbn. apply not_eq_sym, (allocated_fresh _ _ _ _ _ _ Ha (holds_space _ _ _ Hh) Hlen). }
    intros lt c m2 Hlt Hwt Hc Hval Hw2. apply wp_bind. rewrite <- Hlt.
    apply wp_div_qr_1_loop; [done|done|done|apply Hw2| | | |].
    { rewrite Hlt. eapply qspace_changed; [apply Hw2|]. by eapply allocated_qspace. }
    { destruct qp as [p|]; [|done]. left. cbn. apply (allocated_qapart _ _ _ _ (Some p) _ p Ha Hs).
      unfold qwithin, within. lia. }
    { assert (2 ^ s ≤ 2 ^ 63) by (apply Z.pow_le_mono_r; lia). change (2 ^ 63) with 9223372036854775808 in *. lia. }
    intros lq r m3 Hlq Hwq Heq Hr Hw3. apply wp_bind. apply wp_gmp_free.
    { destruct Hw3 as [_ Hch]. apply (space_first _ _ (length l)); [|done].
      eapply changed_space; [exact Hch|]. eapply changed_space; [apply Hw2|]. apply Ha. }
    intros m4 H4 Hn4. apply wp_ret. destruct (Hrem lq r) as [H1 H2]; [rewrite Hlt in *; lia|done|].
    eapply (HQ lq); try done; [lia|]. eapply qwrites_temp; try done. by rewrite Hlq, Hlt.
  - assert (s = 0) as -> by lia. rewrite Z.mul_1_r in Hd1. subst d1. apply wp_bind.
    apply wp_div_qr_1_loop; try done. lia.
Qed.

(** ** Two limbs *)

Definition inv_ok2 (d : Z) (inv : gmp_div_inverse) : Prop :=
  0 ≤ inv_shift inv < 64 ∧ ∃ d0, inv_d0 inv = Some d0 ∧ word d0 ∧
  inv_d1 inv * WB + d0 = d * 2 ^ inv_shift inv ∧
  9223372036854775808 ≤ inv_d1 inv < WB ∧ recip2 (inv_d1 inv * WB + d0) (inv_di inv).

(** The two highest limbs of a divisor, shifted; [x] is the limb below them. *)
Lemma shift_two y1 y0 x s :
  word y1 → word y0 → word x → 0 < s < 64 → y1 * 2 ^ s < WB →
  ∃ h l, Z.lor (u64 (Z.shiftl y1 s)) (Z.shiftr y0 (GMP_LIMB_BITS - s)) = h ∧
    Z.lor (u64 (Z.shiftl y0 s)) (Z.shiftr x (GMP_LIMB_BITS - s)) = l ∧ word h ∧ word l ∧
    (y1 * WB + y0) * 2 ^ s + Z.shiftr x (GMP_LIMB_BITS - s) = h * WB + l.
Proof.
  intros H1 H0 Hx Hs Hfit. unfold GMP_LIMB_BITS. destruct (two_parts s Hs) as (HW & Hp1 & Hp2).
  destruct (limb_shl y1 s H1 Hs) as (y1h & y1l & E1 & -> & V1 & R1 & R1').
  destruct (limb_shl y0 s H0 Hs) as (y0h & y0l & -> & -> & V0 & R0 & R0').
  destruct (limb_shl x s Hx Hs) as (xh & xl & -> & _ & V & R & R').
  assert (y1h = 0) as -> by (unfold word, WB in *; nia).
  rewrite !lor_add by (done || lia). eexists _, _. split; [done|]. split; [done|]. unfold word. rewrite HW in *.
  split; [nia|]. split; [nia|]. nia.
Qed.

Lemma mpn_div_qr_2_invert_spec d1 d0 :
  0 < d1 < WB → word d0 → ∃ inv, mpn_div_qr_2_invert d1 d0 = Ok inv ∧ inv_ok2 (d1 * WB + d0) inv.
Proof.
  intros Hd1 Hd0. unfold mpn_div_qr_2_invert. rewrite (proj2 (Z.ltb_lt _ _)) by lia.
  destruct (gmp_clz_ok d1 Hd1) as (s & Hs & Hsr & Hb). cbn [c_assert mbind outcome_bind]. rewrite Hs.
  cbn [mbind outcome_bind]. change (2 ^ 63) with 9223372036854775808 in Hb.
  destruct (Z.ltb_spec 0 s) as [Hs0|Hs0].
  - destruct (shift_two d1 d0 0 s) as (h & l & -> & El & Hh & Hl & Hv); [unfold word; lia|done|done|lia|lia|].
    rewrite Z.shiftr_0_l, Z.lor_0_r in El. rewrite El. rewrite Z.shiftr_0_l, Z.add_0_r in Hv.
    assert (9223372036854775808 ≤ h < WB) as Hhr by (unfold word, WB in *; nia).
    destruct (mpn_invert_3by2_spec h Hhr l Hl) as (v & -> & _ & Hr). eexists. split; [done|].
    split; [cbn; lia|]. exists l. cbn. split; [done|]. split; [done|]. split; [lia|]. by split.
  - assert (s = 0) as -> by lia. rewrite Z.mul_1_r in Hb.
    destruct (mpn_invert_3by2_spec d1 Hb d0 Hd0) as (v & -> & _ & Hr). eexists. split; [done|].
    split; [cbn; lia|]. exists d0. cbn. split; [done|]. split; [done|]. split; [lia|]. by split.
Qed.

Section div2.
Context (d1 d0 v : Z).
Hypotheses (Hd1 : 9223372036854775808 ≤ d1 < WB) (Hd0 : word d0) (Hv : recip2 (d1 * WB + d0) v).

Lemma wp_div_qr_2_loop l : ∀ qp np r1 r0 m Q E,
  words l → holds m np l → qspace m qp (length l) → qok qp np (length l) →
  word r1 → word r0 → r1 * WB + r0 < d1 * WB + d0 →
  (∀ lq s1 s0 m', length lq = length l → words lq → word s1 → word s0 →
     (r1 * WB + r0) * wpow (length l) + val l = val lq * (d1 * WB + d0) + (s1 * WB + s0) →
     s1 * WB + s0 < d1 * WB + d0 → qwrites m qp lq m' → Q (s1, s0) m') →
  wp (div_qr_2_loop (length l) qp np r1 r0 d1 d0 v) Q E m.
Proof.
  induction l as [|x l IH] using rev_ind; intros qp np r1 r0 m Q E Hw Hh Hs Ho Hr1 Hr0 Hr HQ.
  { apply wp_ret. apply (HQ []); try done; [cbn [length val]; rewrite wpow_0; lia|apply qwrites_nil]. }
  rewrite length_app in *. cbn [length] in *. rewrite Nat.add_1_r in *. cbn [div_qr_2_loop].
  apply Forall_app in Hw as [Hw [Hwx _]%Forall_cons]. apply holds_app in Hh as [Hh [Hx _]%holds_cons].
  apply wp_bind. eapply wp_load; [done|].
  destruct (gmp_udiv_qr_3by2 r1 r0 x d1 d0 v) as [[q t1] t0] eqn:Hdiv.
  destruct (qr_3by2_spec r1 r0 x d1 d0 v Hd1 Hd0 Hr1 Hr0 Hwx Hr Hv q t1 t0 Hdiv) as (Heq & Ht & Hq & Ht1 & Ht0).
  apply wp_bind, wp_store_q; [done|]. intros m1 Hw1.
  assert (changed m m1 (λ c, qwithin c qp (S (length l)))) as Hch.
  { destruct qp as [p|]; [|subst m1; apply changed_refl]. eapply writes_changed; [done|].
    intros c. unfold qwithin, within, padd. cbn. lia. }
  eapply IH; [done|by eapply store_q_holds| | |done..|].
  { eapply qspace_changed; [done|]. by apply qspace_S. }
  { destruct qp; [|done]. unfold qok, ok_down in *. lia. }
  intros lq s1 s0 m2 Hl Hlq Hs1 Hs0 Hv2 Hlt Hw2.
  apply (HQ (lq ++ [q])); [rewrite length_app; cbn; lia| |done|done| |done|].
  - apply Forall_app. auto.
  - rewrite !val_app, wpow_S, Hl. cbn [val]. nia.
  - by eapply qwrites_down.
Qed.
End div2.

(** Shifting a two-limb remainder back *)
Lemma unshift_two s1 s0 s r :
  word s1 → word s0 → 0 < s < 64 → s1 * WB + s0 = r * 2 ^ s →
  u64 (Z.shiftl s0 (GMP_LIMB_BITS - s)) = 0 ∧
  ∃ h l, Z.shiftr s1 s = h ∧ Z.lor (Z.shiftr s0 s) (u64 (Z.shiftl s1 (GMP_LIMB_BITS - s))) = l ∧
    word h ∧ word l ∧ h * WB + l = r.
Proof.
  intros H1 H0 Hs Hr. unfold GMP_LIMB_BITS. destruct (two_parts s Hs) as (HW & Hp1 & Hp2).
  destruct (limb_shl s1 (64 - s) H1 ltac:(lia)) as (h1 & l1 & E1 & -> & V1 & R1 & R1').
  destruct (limb_shl s0 (64 - s) H0 ltac:(lia)) as (h0 & l0 & E0 & -> & V0 & R0 & R0').
  replace (64 - (64 - s)) with s in * by lia. rewrite E1, E0.
  rewrite (Z.lor_comm h0), lor_add by (done || lia). unfold word in H1, H0. rewrite HW in *.
  set (p := 2 ^ s) in *. set (t := 2 ^ (64 - s)) in *. clearbody p t.
  assert (s1 = h1 * p + l1) as -> by (apply (Z.mul_reg_r _ _ t); lia).
  assert (s0 = h0 * p + l0) as -> by (apply (Z.mul_reg_r _ _ t); lia).
  assert (l0 = p * (r - (h1 * p + l1) * t - h0)) as Hl0 by lia.
  assert (l0 = 0) as ->.
  { revert Hl0 R0'. generalize (r - (h1 * p + l1) * t - h0). clear - Hp1. intros x -> Hx. assert (x = 0) as -> by nia. lia. }
  split; [lia|].
  exists h1, (l1 * t + h0). split; [done|]. split; [done|]. unfold word. rewrite HW.
  split; [nia|]. split; [nia|]. apply (Z.mul_reg_r _ _ p); lia.
Qed.

Definition div_post (m : mem) (qp : option ptr) (nq : nat) (np : ptr) (nn : nat) (n d : Z) (dn : nat)
    (m' : mem) : Prop :=
  ∃ lq lr, length lq = nq ∧ words lq ∧ length lr = dn ∧ words lr ∧
    n = val lq * d + val lr ∧ val lr < d ∧ qholds m' qp lq ∧ holds m' np lr ∧
    changed m m' (λ c, within c np nn ∨ qwithin c qp nq).

Lemma qholds_writes m p l m' qp lq :
  writes m p l m' → qapart qp (length lq) p (length l) → qholds m qp lq → qholds m' qp lq.
Proof.
  destruct qp as [q|]; [|done]. cbn. intros Hw Ha. eapply writes_holds; [done|]. unfold apart in *. lia.
Qed.

(** The last two stores of [mpn_div_qr_2_preinv] *)
Lemma wp_store_two rp nn r1 r0 qp lq n d m m1 Q E :
  (2 ≤ nn)%nat → space m rp nn → qapart qp (length lq) rp nn → qwrites m qp lq m1 →
  words lq → word r1 → word r0 → n = val lq * d + (r1 * WB + r0) → r1 * WB + r0 < d →
  (∀ m', div_post m qp (length lq) rp nn n d 2 m' → Q tt m') →
  wp (_ ← store (padd rp 1) r1; store rp r0) Q E m1.
Proof.
  intros Hnn Hs Ha [Hq Hc] Hwq Hr1 Hr0 Hn Hlt HQ. apply wp_bind.
  assert (space m1 rp nn) as Hs1 by (by eapply changed_space).
  replace nn with (2 + (nn - 2))%nat in Hs1 by lia. apply space_app in Hs1 as [[Hsa [Hsb _]%space_S]%space_S _].
  apply wp_store_writes; [done|]. intros m2 Hw2.
  apply wp_store_writes; [destruct Hw2 as (_ & _ & Hd & _); by apply Hd|]. intros m3 Hw3.
  pose proof (writes_app_down m1 rp [r0] [r1] m2 m3 Hw2 Hw3) as Hw. cbn [app] in Hw.
  apply HQ. exists lq, [r0; r1]. split; [done|]. split; [done|]. split; [done|]. split; [by repeat apply words_cons|].
  cbn [val]. split; [lia|]. split; [lia|]. split; [|split; [apply Hw|]].
  - eapply qholds_writes; [done| |done]. destruct qp; [|done]. unfold qapart, apart in *. cbn. lia.
  - eapply changed_trans; [eapply changed_mono; [done|]; intros c Hcw; by right|].
    eapply writes_changed; [done|]. intros c [Hb Hr]. left. split; [done|]. cbn in Hr. lia.
Qed.

(** The division itself, of an array [lt] with a limb [c] on top *)
Lemma wp_div_qr_2_run qp tp lt c d s d1 d0 di n m Q E :
  (2 ≤ length lt)%nat → words lt → holds m tp lt → qspace m qp (length lt - 1) → qok qp tp (length lt - 1) →
  9223372036854775808 ≤ d1 < WB → word d0 → d1 * WB + d0 = d * 2 ^ s → recip2 (d1 * WB + d0) di →
  0 ≤ c < 2 ^ 63 → c * wpow (length lt) + val lt = n * 2 ^ s →
  (∀ lq s1 s0 m', length lq = (length lt - 1)%nat → words lq → word s1 → word s0 →
     n * 2 ^ s = val lq * (d * 2 ^ s) + (s1 * WB + s0) → s1 * WB + s0 < d * 2 ^ s →
     qwrites m qp lq m' → Q (s1, s0) m') →
  wp (r0 ← load (padd tp (Z.of_nat (length lt - 1))); div_qr_2_loop (length lt - 1) qp tp c r0 d1 d0 di) Q E m.
Proof.
  intros Hlen Hwt Ht Hqs Hqo Hd1 Hd0 Hd Hrec Hc Hval HQ.
  destruct lt as [|x lt _] using rev_ind; [cbn in Hlen; lia|]. rewrite length_app in *. cbn [length] in *.
  replace (length lt + 1 - 1)%nat with (length lt) in * by lia.
  apply Forall_app in Hwt as [Hwt [Hwx _]%Forall_cons].
  apply holds_app in Ht as [Ht [Hx _]%holds_cons]. apply wp_bind. eapply wp_load; [done|].
  change (2 ^ 63) with 9223372036854775808 in Hc.
  apply (wp_div_qr_2_loop d1 d0 di Hd1 Hd0 Hrec); try done; [unfold word, WB in *; lia|unfold word, WB in *; lia|].
  intros lq s1 s0 m' Hlq Hwq Hs1 Hs0 Heq Hlt2 Hqw. rewrite Hd in *. apply (HQ lq); try done.
  rewrite <- Hval, val_app, <- Heq. cbn [val]. rewrite Nat.add_1_r, wpow_S. lia.
Qed.

Lemma wp_mpn_div_qr_2_preinv qp np l d inv m Q E :
  (2 ≤ length l)%nat → words l → holds m np l → mem_ok m → qspace m qp (length l - 1) →
  qapart qp (length l - 1) np (length l) → inv_ok2 d inv →
  (∀ m', div_post m qp (length l - 1) np (length l) (val l) d 2 m' → Q tt m') →
  wp (mpn_div_qr_2_preinv qp np np (Z.of_nat (length l)) inv) Q E m.
Proof.
  intros Hlen Hw Hh Hm Hs Ha (Hsr & d0 & Hd0 & Hwd0 & Hd & Hd1 & Hrec) HQ. unfold mpn_div_qr_2_preinv.
  apply wp_bind, wp_massert; [apply Z.leb_le; lia|]. destruct inv as [s d1 d0o di]. cbn [inv_shift inv_d1 inv_d0 inv_di] in *.
  subst d0o. apply wp_bind. eapply wp_lift_ok; [done|].
  assert (0 < 2 ^ s) as Hp by (apply Z.pow_pos_nonneg; lia). pose proof (holds_space _ _ _ Hh) as Hnps.
  replace (Z.of_nat (length l) - 1) with (Z.of_nat (length l - 1)) by lia. rewrite Nat2Z.id.
  destruct (Z.ltb_spec 0 s) as [Hs0|Hs0].
  - apply wp_bind, wp_bind, wp_gmp_xalloc_limbs; [lia|done|]. intros b m1 Hal. apply wp_bind.
    apply wp_mpn_lshift; [by intros ->; cbn in Hlen; lia|lia|done|by eapply allocated_holds|apply Hal| |].
    { left. cbn. apply not_eq_sym, (allocated_fresh _ _ _ _ _ _ Hal Hnps). lia. }
    intros lt c m2 Hlt Hwt Hc Hval Hw2. apply wp_ret. apply wp_bind_assoc. rewrite <- Hlt.
    assert (2 ^ s ≤ 2 ^ 63) by (apply Z.pow_le_mono_r; lia).
    apply (wp_div_qr_2_run qp (b, 0) lt c d s d1 d0 di (val l)); rewrite ?Hlt; try done; [apply Hw2| | |lia|lia|].
    { eapply qspace_changed; [apply Hw2|]. by eapply allocated_qspace. }
    { destruct qp as [p|]; [|done]. left. cbn. apply (allocated_qapart _ _ _ _ (Some p) _ p Hal Hs).
      unfold qwithin, within. lia. }
    intros lq s1 s0 m3 Hlq Hwq Hs1 Hs2 Heq Hlt2 Hqw.
    destruct (unshift_two s1 s0 s (val l - val lq * d) Hs1 Hs2 ltac:(lia) ltac:(lia)) as (Hz & h & r & -> & Hr & Hh1 & Hr1 & Hv).
    apply wp_bind, wp_bind, wp_massert; [apply Z.eqb_eq; exact Hz|]. cbn zeta. rewrite Hr.
    apply wp_bind, wp_gmp_free.
    { apply (space_first _ _ (length l)); [|lia]. eapply changed_space; [apply Hqw|].
      eapply changed_space; [apply Hw2|]. apply Hal. }
    intros m4 H4 Hn4. apply wp_ret.
    eapply (wp_store_two np (length l) h r qp lq (val l) d m); rewrite ?Hlq; try done; [|lia|nia].
    eapply qwrites_temp; try done. by rewrite Hlq.
  - assert (s = 0) as -> by lia. rewrite Z.mul_1_r in Hd. apply wp_bind, wp_ret. apply wp_bind_assoc.
    apply (wp_div_qr_2_run qp np l 0 d 0 d1 d0 di (val l)); try done; [|lia|lia|].
    { destruct qp; [|done]. unfold qok, qapart, ok_down, apart in *. lia. }
    intros lq s1 s0 m3 Hlq Hwq Hs1 Hs2 Heq Hlt2 Hqw. apply wp_bind, wp_ret.
    eapply (wp_store_two np (length l) s1 s0 qp lq (val l) d m); rewrite ?Hlq; try done; lia.
Qed.
