(* ===== verification/MpnDivPi1.v ===== *)
(** * Division by three limbs and more

    The schoolbook division: each quotient limb is estimated from the three highest
    limbs of the numerator and the two highest of the divisor, and is at most one too
    large. *)

From S2P Require Import Prelude CString Queue State UInt64 Mpn MpnMem MpnThm MpnBits MpnDiv MpnInv MpnDivThm.

(** ** One quotient limb *)

Section step.
(** The divisor: [k] low limbs and the two highest *)
Context (dlo : list Z) (d0 d1 v : Z).
Let k := length dlo.
Let dd := d1 * WB + d0.
Let d := val (dlo ++ [d0; d1]).
Hypotheses (Hwd : words dlo) (Hd0 : word d0) (Hd1 : 9223372036854775808 ≤ d1 < WB) (Hv : recip2 dd v).

Lemma divisor_val : d = val dlo + wpow k * dd.
Proof. unfold d, dd, k. rewrite val_app. cbn [val]. lia. Qed.

Lemma divisor_bound : wpow k * dd ≤ d < wpow k * (dd + 1) ∧ d < wpow (k + 2).
Proof.
  rewrite divisor_val. pose proof (val_bound dlo Hwd) as Hb. fold k in Hb. split; [lia|].
  rewrite wpow_add. change (wpow 2) with (WB * WB). unfold dd. pose proof (wpow_pos k).
  assert (wpow k * (d1 * WB + d0 + 1) ≤ wpow k * (WB * WB)) by (apply Z.mul_le_mono_nonneg_l; unfold word, WB in *; lia).
  lia.
Qed.

(** The largest quotient limb, when the two highest limbs are equal *)
Lemma quotient_max n mid :
  d1 * wpow (k + 2) + d0 * wpow (k + 1) ≤ n → n < WB * d →
  length mid = (k + 2)%nat → words mid → n = d1 * wpow (k + 2) + val mid →
  ∀ r c, length r = (k + 2)%nat → words r → val r - wpow (k + 2) * c = val mid - d * GMP_LIMB_MAX →
  n = GMP_LIMB_MAX * d + val r ∧ val r < d.
Proof.
  intros Hlow Hlt Hlm Hwm Hn r c Hlr Hwr Hsub. destruct divisor_bound as [[H1 H2] H3].
  pose proof (val_bound r Hwr) as Hb. rewrite Hlr in Hb. pose proof (wpow_pos k) as Hk.
  assert (WB * d < n + d) as Hge.
  { rewrite !wpow_add in Hlow. change (wpow 2) with (WB * WB) in Hlow. change (wpow 1) with (WB * 1) in Hlow.
    assert (WB * d < WB * (wpow k * (dd + 1))) by (apply Z.mul_lt_mono_pos_l; [done|lia]).
    assert (wpow k * WB ≤ wpow k * dd) by (apply Z.mul_le_mono_nonneg_l; unfold dd, word, WB in *; lia).
    unfold dd in *. lia. }
  assert (c = d1) as ->.
  { assert (0 ≤ val r + wpow (k + 2) * (d1 - c) < d) as Hrange by (unfold GMP_LIMB_MAX, WB in *; lia).
    destruct (Z.lt_trichotomy (d1 - c) 0) as [Hc|[Hc|Hc]]; [|lia|].
    - assert (wpow (k + 2) * (d1 - c) ≤ wpow (k + 2) * -1) by (apply Z.mul_le_mono_nonneg_l; lia). lia.
    - assert (wpow (k + 2) * 1 ≤ wpow (k + 2) * (d1 - c)) by (apply Z.mul_le_mono_nonneg_l; lia). lia. }
  unfold GMP_LIMB_MAX, WB in *. lia.
Qed.

(** A limb subtracted from two limbs, with the borrow *)
Lemma sub_two s1 s0 cy :
  word s1 → word s0 → word cy →
  let cy1 := b2z (s0 <? cy) in
  s1 * WB + s0 - cy = u64 (s1 - cy1) * WB + u64 (s0 - cy) - WB * WB * b2z (s1 <? cy1).
Proof.
  intros H1 H0 Hc cy1. pose proof (sub_limb s0 cy H0 Hc) as E0. fold cy1 in E0.
  pose proof (sub_limb s1 cy1 H1 (word_bit _ (b2z_bit _))) as E1. unfold WB in *. lia.
Qed.

Section estimated.
Context (n1 n0 x q s1 s0 : Z) (lo r : list Z) (cy : Z).
Let n := (n1 * (WB * WB) + n0 * WB + x) * wpow k + val lo.
Let cy1 := b2z (s0 <? cy).
Let t1 := u64 (s1 - cy1).
Let t0 := u64 (s0 - cy).
Hypotheses (Hs1 : word s1) (Hs0 : word s0) (Hq : word q) (Hcy : word cy)
  (Hdiv : n1 * (WB * WB) + n0 * WB + x = q * dd + (s1 * WB + s0)) (Hlt : s1 * WB + s0 < dd)
  (Hlr : length r = k) (Hwr : words r) (Hlo : 0 ≤ val lo)
  (Hsub : val r - wpow k * cy = val lo - val dlo * q) (Hn : 0 ≤ n1 * (WB * WB) + n0 * WB + x).

Lemma estimated_value :
  n - q * d = t1 * wpow (k + 1) + val (r ++ [t0]) - wpow (k + 2) * b2z (s1 <? cy1).
Proof.
  unfold n. rewrite divisor_val, Hdiv, val_app, Hlr, !wpow_add. change (wpow 2) with (WB * WB). change (wpow 1) with (WB * 1).
  pose proof (sub_two s1 s0 cy Hs1 Hs0 Hcy) as Hst. cbn zeta in Hst. fold cy1 t1 t0 in Hst. cbn [val].
  assert (wpow k * (s1 * WB + s0 - cy) = wpow k * (t1 * WB + t0 - WB * WB * b2z (s1 <? cy1))) as He by (by rewrite Hst).
  lia.
Qed.

Lemma estimated_above : n - q * d < d.
Proof.
  unfold n. rewrite divisor_val, Hdiv. pose proof (val_bound r Hwr) as Hb. rewrite Hlr in Hb.
  pose proof (val_bound dlo Hwd) as Hbd. fold k in Hbd. pose proof (wpow_pos k).
  assert (wpow k * (s1 * WB + s0 - cy + 1) ≤ wpow k * dd) by (apply Z.mul_le_mono_nonneg_l; unfold word in *; lia).
  lia.
Qed.

Lemma estimated_below : - d ≤ n - q * d.
Proof.
  unfold n. rewrite divisor_val, Hdiv. pose proof (val_bound r Hwr) as Hb.
  pose proof (val_bound dlo Hwd) as Hbd. fold k in Hbd. pose proof (wpow_pos k).
  assert (wpow k * cy ≤ wpow k * dd) by (apply Z.mul_le_mono_nonneg_l; unfold dd, word, WB in *; lia).
  assert (0 ≤ wpow k * (s1 * WB + s0)) by (apply Z.mul_nonneg_nonneg; unfold word, WB in *; lia). lia.
Qed.

(** No borrow: the estimate was right. *)
Lemma estimate_right :
  b2z (s1 <? cy1) = 0 → n = q * d + (t1 * wpow (k + 1) + val (r ++ [t0])) ∧ t1 * wpow (k + 1) + val (r ++ [t0]) < d.
Proof. pose proof estimated_value. pose proof estimated_above. intros Hb. rewrite Hb in *. lia. Qed.

(** A borrow: one less, and the divisor is added back. *)
Lemma estimate_one_less r2 c :
  b2z (s1 <? cy1) ≠ 0 → length r2 = (k + 1)%nat → words r2 →
  val r2 + wpow (k + 1) * c = val (r ++ [t0]) + val (dlo ++ [d0]) →
  let u1 := u64 (t1 + u64 (d1 + c)) in
  n = u64 (q - 1) * d + (u1 * wpow (k + 1) + val r2) ∧ u1 * wpow (k + 1) + val r2 < d ∧ word (u64 (q - 1)).
Proof.
  intros Hb Hl2 Hw2 Hadd u1. pose proof estimated_value as He. pose proof estimated_below as Hlow.
  assert (b2z (s1 <? cy1) = 1) as Hb1 by (pose proof (b2z_bit (s1 <? cy1)); lia). rewrite Hb1, Z.mul_1_r in He.
  pose proof (val_bound r2 Hw2) as Hr2. rewrite Hl2 in Hr2. destruct divisor_bound as [_ Hdb].
  assert (val (r ++ [t0]) < wpow (k + 1)) as Hrt.
  { assert (length (r ++ [t0]) = (k + 1)%nat) as <- by (rewrite length_app; cbn; lia).
    apply val_bound, Forall_app. split; [done|]. apply words_cons; [apply u64_word|constructor]. }
  assert (d = val (dlo ++ [d0]) + wpow (k + 1) * d1) as Hd.
  { unfold d. replace (dlo ++ [d0; d1]) with ((dlo ++ [d0]) ++ [d1]) by (by rewrite <- app_assoc).
    rewrite (val_app (dlo ++ [d0])), length_app. cbn [val length]. fold k. lia. }
  assert (wpow (k + 2) = wpow (k + 1) * WB) as HW by (rewrite !wpow_add; change (wpow 2) with (WB * WB); change (wpow 1) with WB; lia).
  assert (t1 < WB) as Ht1 by apply u64_word.
  set (h := t1 + d1 + c - WB).
  assert (n - q * d + d = h * wpow (k + 1) + val r2) as Hsum by (unfold h; lia).
  assert (n - q * d < 0) as Hneg.
  { rewrite He, HW. assert (t1 * wpow (k + 1) ≤ (WB - 1) * wpow (k + 1)) by (apply Z.mul_le_mono_nonneg_r; lia). lia. }
  assert (0 ≤ h < WB) as Hh.
  { split.
    - destruct (Z.lt_ge_cases h 0); [|done]. assert (h * wpow (k + 1) ≤ -1 * wpow (k + 1)) by (apply Z.mul_le_mono_nonneg_r; lia). lia.
    - destruct (Z.lt_ge_cases h WB); [done|]. assert (WB * wpow (k + 1) ≤ h * wpow (k + 1)) by (apply Z.mul_le_mono_nonneg_r; lia). lia. }
  assert (u1 = h) as ->.
  { unfold u1, u64. rewrite Zplus_mod_idemp_r. symmetry. apply (mod_eq_two h 1); unfold h in *; lia. }
  assert (1 ≤ q) as Hq1.
  { destruct (Z.lt_ge_cases q 1); [|done]. assert (q = 0) as -> by (unfold word in Hq; lia).
    assert (0 ≤ n) by (unfold n; pose proof (wpow_pos k); assert (0 ≤ (n1 * (WB * WB) + n0 * WB + x) * wpow k) by (apply Z.mul_nonneg_nonneg; lia); lia).
    lia. }
  assert (u64 (q - 1) = q - 1) as -> by (apply u64_small; unfold word in Hq; lia).
  split; [lia|]. split; [lia|]. unfold word in *. lia.
Qed.
End estimated.

(** The numerator is below [WB * d], so its two highest limbs are at most those of [d]. *)
Lemma high_limbs_le n1 n0 x lo :
  word x → words lo → length lo = k → word n1 → word n0 →
  n1 * wpow (k + 2) + val (lo ++ [x; n0]) < WB * d → n1 * WB + n0 ≤ dd.
Proof.
  intros Hx Hwlo Hlo Hn1 Hn0 Hlt. destruct divisor_bound as [[_ Hd] _].
  rewrite val_app, Hlo, wpow_add in Hlt. change (wpow 2) with (WB * WB) in Hlt. cbn [val] in Hlt.
  pose proof (wpow_pos k) as Hk. pose proof (val_bound lo Hwlo).
  assert (0 ≤ wpow k * x) by (apply Z.mul_nonneg_nonneg; unfold word in *; lia).
  assert (WB * d < WB * (wpow k * (dd + 1))) by (apply Z.mul_lt_mono_pos_l; [done|lia]).
  apply Z.lt_succ_r. apply (Z.mul_lt_mono_pos_l (wpow k * WB)); [unfold WB in *; lia|]. lia.
Qed.

Lemma dlo_nonempty : (1 ≤ k)%nat → dlo ≠ [].
Proof. unfold k. by destruct dlo; cbn; [lia|]. Qed.

(** What one step leaves: a quotient limb, the highest limb of the remainder and its other
    limbs *)
Definition step_post (m : mem) (p : ptr) (n : Z) (qu : Z * Z) (m' : mem) : Prop :=
  ∃ r, word qu.1 ∧ word qu.2 ∧ length r = (k + 1)%nat ∧ words r ∧
    n = qu.1 * d + (qu.2 * wpow (k + 1) + val r) ∧ qu.2 * wpow (k + 1) + val r < d ∧
    holds m' p r ∧ changed m m' (λ c, within c p (k + 2)).

Lemma writes_step m p r m' : writes m p r m' → (length r ≤ k + 2)%nat → changed m m' (λ c, within c p (k + 2)).
Proof. intros Hw Hl. eapply writes_changed; [done|]. intros c [Hb Hr]. split; [done|lia]. Qed.

Lemma wp_pi1_max p dp mid m Q E :
  length mid = (k + 2)%nat → words mid → holds m p mid → holds m dp (dlo ++ [d0; d1]) →
  apart p (k + 2) dp (k + 2) → d0 * wpow (k + 1) ≤ val mid →
  d1 * wpow (k + 2) + val mid < WB * d →
  (∀ qu m', step_post m p (d1 * wpow (k + 2) + val mid) qu m' → Q qu m') →
  wp (_ ← mpn_submul_1 p dp (Z.of_nat (k + 2)) GMP_LIMB_MAX;
      n1 ← load (padd p (Z.of_nat (k + 1))); mret (GMP_LIMB_MAX, n1)) Q E m.
Proof.
  intros Hl Hw Hh Hd Ha Hlow Hlt HQ. assert (length (dlo ++ [d0; d1]) = (k + 2)%nat) as Hld by (by rewrite length_app).
  assert (words (dlo ++ [d0; d1])) as Hwld.
  { apply Forall_app. split; [done|]. apply words_cons; [done|]. apply words_cons; [unfold word; lia|constructor]. }
  apply wp_bind. rewrite <- Hld. eapply (wp_mpn_submul_1 _ _ _ mid); try done.
  { lia. }
  { intros Hnil. rewrite Hnil in Hld. cbn in Hld. lia. }
  { unfold ok_up, apart in *. lia. }
  intros r c m1 Hlr Hwr Hc Hsub Hw1. rewrite Hld in *. fold d in Hsub.
  destruct (quotient_max (d1 * wpow (k + 2) + val mid) mid ltac:(lia) Hlt Hl Hw eq_refl r c Hlr Hwr Hsub) as [Hn Hr].
  destruct r as [|u r _] using rev_ind; [cbn in Hlr; lia|]. rewrite length_app in Hlr. cbn in Hlr.
  assert (length r = (k + 1)%nat) as Hlr2 by lia. pose proof Hw1 as [[Hhr [Hhu _]%holds_cons]%holds_app _].
  rewrite Hlr2 in Hhu. apply wp_bind. eapply wp_load; [done|]. apply wp_ret, HQ. exists r. cbn [fst snd].
  apply Forall_app in Hwr as [Hwr [Hwu _]%Forall_cons]. rewrite val_app, Hlr2 in *. cbn [val] in *.
  split; [done|]. split; [done|]. split; [done|]. split; [done|]. split; [lia|]. split; [lia|]. split; [done|].
  eapply writes_step; [done|]. rewrite length_app. cbn. lia.
Qed.

Lemma wp_pi1_estimated p dp n1 n0 x lo m Q E :
  (1 ≤ k)%nat → length lo = k → words lo → word n1 → word n0 → word x →
  holds m p (lo ++ [x; n0]) → holds m dp (dlo ++ [d0; d1]) → apart p (k + 2) dp (k + 2) →
  n1 * WB + n0 < dd →
  (∀ qu m', step_post m p (n1 * wpow (k + 2) + val (lo ++ [x; n0])) qu m' → Q qu m') →
  wp (let '(q, n1, n0) := gmp_udiv_qr_3by2 n1 n0 x d1 d0 v in
      cy ← mpn_submul_1 p dp (Z.of_nat (k + 2) - 2) q;
      let cy1 := b2z (n0 <? cy) in
      let n0 := u64 (n0 - cy) in
      let cy := b2z (n1 <? cy1) in
      let n1 := u64 (n1 - cy1) in
      _ ← store (padd p (Z.of_nat k)) n0;
      if negb (cy =? 0) then
        c ← mpn_add_n p p dp (Z.of_nat (k + 2) - 1);
        mret (u64 (q - 1), u64 (n1 + u64 (d1 + c)))
      else mret (q, n1)) Q E m.
Proof.
  intros Hk Hlo Hwlo Hn1 Hn0 Hx Hh Hd Ha Hlt HQ.
  destruct (gmp_udiv_qr_3by2 n1 n0 x d1 d0 v) as [[q s1] s0] eqn:Hdiv.
  destruct (qr_3by2_spec n1 n0 x d1 d0 v Hd1 Hd0 Hn1 Hn0 Hx Hlt Hv q s1 s0 Hdiv) as (Hqr & Hs & Hq & Hs1 & Hs0).
  pose proof Hh as [Hhlo [Hhx _]%holds_cons]%holds_app. rewrite Hlo in Hhx.
  pose proof Hd as [Hdlo [Hhd0 _]%holds_cons]%holds_app. fold k in Hhd0. apply wp_bind.
  replace (Z.of_nat (k + 2) - 2) with (Z.of_nat (length dlo)) by (fold k; lia).
  eapply (wp_mpn_submul_1 p dp dlo lo); try done; [by apply dlo_nonempty|unfold ok_up, apart in *; fold k; lia|].
  intros r cy m1 Hlr Hwr Hcy Hsub Hw1. fold k in Hlr, Hsub. cbn zeta.
  apply wp_bind, wp_store_writes; [destruct Hw1 as (_ & _ & Hdom & _); apply Hdom; by rewrite Hhx|]. intros m2 Hw2.
  set (t0 := u64 (s0 - cy)) in *. rewrite <- Hlr in Hw2. pose proof (writes_app _ _ _ _ _ _ Hw1 Hw2) as Hw12.
  assert (words (r ++ [t0])) as Hwrt by (apply Forall_app; split; [done|apply words_cons; [apply u64_word|constructor]]).
  assert (length (r ++ [t0]) = (k + 1)%nat) as Hlrt by (rewrite length_app; cbn; lia).
  assert (0 ≤ n1 * (WB * WB) + n0 * WB + x) as Hpos by (unfold word, WB in *; lia).
  pose proof (val_bound lo Hwlo) as Hblo.
  assert (n1 * wpow (k + 2) + val (lo ++ [x; n0]) = (n1 * (WB * WB) + n0 * WB + x) * wpow k + val lo) as Hn.
  { rewrite val_app, Hlo, wpow_add. change (wpow 2) with (WB * WB). cbn [val]. lia. }
  rewrite Hn in HQ. destruct (Z.eqb_spec (b2z (s1 <? b2z (s0 <? cy))) 0) as [Hb|Hb]; cbn [negb].
  - destruct (estimate_right n1 n0 x q s1 s0 lo r cy Hs1 Hs0 Hcy Hqr Hs Hlr Hwr Hsub Hb) as [H1 H2]; fold t0 in H1, H2.
    apply wp_ret, HQ. exists (r ++ [t0]). cbn [fst snd]. split; [done|]. split; [apply u64_word|].
    split; [done|]. split; [done|]. split; [done|]. split; [done|]. split; [apply Hw12|].
    eapply writes_step; [done|lia].
  - apply wp_bind. replace (Z.of_nat (k + 2) - 1) with (Z.of_nat (length (r ++ [t0]))) by lia.
    assert (length (dlo ++ [d0]) = (k + 1)%nat) as Hl0 by (rewrite length_app; cbn; fold k; lia).
    eapply (wp_mpn_add_n p p dp (r ++ [t0]) (dlo ++ [d0])); [lia|done|by apply Forall_app; auto|apply Hw12| | | | |].
    { eapply writes_holds; [done| |apply holds_app; split; [done|by apply holds_cons; split; [|apply holds_nil]]].
      unfold apart in *. lia. }
    { apply holds_space, Hw12. }
    { unfold ok_up. lia. }
    { unfold ok_up, apart in *. lia. }
    intros r2 c m3 Hl2 Hw2' Hc Hadd Hw3. rewrite Hlrt in *.
    destruct (estimate_one_less n1 n0 x q s1 s0 lo r cy Hs1 Hs0 Hq Hcy Hqr Hlr Hwr ltac:(lia) Hsub Hpos r2 c Hb Hl2 Hw2' Hadd)
      as (H1 & H2 & H3).
    apply wp_ret, HQ. exists r2. cbn [fst snd]. split; [done|]. split; [apply u64_word|].
    split; [done|]. split; [done|]. split; [done|]. split; [done|]. split; [apply Hw3|].
    eapply changed_trans; (eapply writes_step; [done|lia]).
Qed.

Lemma wp_pi1_step np i n1 dp mid m Q E :
  let p := padd np i in
  (1 ≤ k)%nat → length mid = (k + 2)%nat → words mid → word n1 →
  holds m p mid → holds m dp (dlo ++ [d0; d1]) → apart p (k + 2) dp (k + 2) →
  n1 * wpow (k + 2) + val mid < WB * d →
  (∀ qu m', step_post m p (n1 * wpow (k + 2) + val mid) qu m' → Q qu m') →
  wp (pi1_step np n1 dp (Z.of_nat (k + 2)) v d1 d0 i) Q E m.
Proof.
  intros p Hk Hlm Hwm Hn1 Hmid Hdp Hap Hlt HQ. unfold pi1_step.
  replace (padd np (Z.of_nat (k + 2) - 1 + i)) with (padd p (Z.of_nat (k + 1)))
    by (unfold p; rewrite padd_padd; f_equal; lia).
  replace (padd np (Z.of_nat (k + 2) - 2 + i)) with (padd p (Z.of_nat k))
    by (unfold p; rewrite padd_padd; f_equal; lia). fold p.
  destruct (split_at mid k ltac:(lia)) as (lo & hi & -> & Hlo). rewrite length_app in Hlm.
  destruct hi as [|x [|n0 [|? ?]]]; cbn in Hlm; try lia.
  pose proof Hwm as [Hwlo [Hwx [Hwn0 _]%Forall_cons]%Forall_cons]%Forall_app.
  pose proof Hmid as [Hmlo [Hmx [Hmn0 _]%holds_cons]%holds_cons]%holds_app. rewrite Hlo, ?padd_padd in *.
  replace (Z.of_nat k + 1) with (Z.of_nat (k + 1)) in Hmn0 by lia.
  apply wp_bind. eapply wp_load; [done|].
  pose proof (high_limbs_le n1 n0 x lo Hwx Hwlo Hlo Hn1 Hwn0 Hlt) as Hle.
  destruct ((n1 =? d1) && (n0 =? d0)) eqn:Heq.
  - apply andb_true_iff in Heq as [->%Z.eqb_eq ->%Z.eqb_eq].
    eapply (wp_pi1_max p dp (lo ++ [x; d0])); try done; [rewrite length_app; cbn; lia|].
    rewrite val_app, Hlo, wpow_add. change (wpow 1) with WB. cbn [val]. pose proof (val_bound lo Hwlo).
    assert (0 ≤ wpow k * x) by (apply Z.mul_nonneg_nonneg; [pose proof (wpow_pos k); lia|apply Hwx]). lia.
  - apply wp_bind. eapply wp_load; [done|]. eapply (wp_pi1_estimated p dp n1 n0 x lo); try done.
    apply andb_false_iff in Heq. rewrite !Z.eqb_neq in Heq. unfold dd, word, WB in *. lia.
Qed.

(** ** All quotient limbs *)

(** The memory after one step and the store of its quotient limb *)
Lemma pi1_memory j qp np dp lo r q m m1 m2 :
  length lo = j → length r = (k + 1)%nat → holds m np lo → holds m dp (dlo ++ [d0; d1]) →
  apart np (S j + (k + 1)) dp (k + 2) → qapart qp (S j) np (S j + (k + 1)) → qapart qp (S j) dp (k + 2) →
  changed m m1 (λ c, within c (padd np (Z.of_nat j)) (k + 2)) → holds m1 (padd np (Z.of_nat j)) r →
  match qp with Some p => writes m1 (padd p (Z.of_nat j)) [q] m2 | None => m2 = m1 end →
  changed m m2 (λ c, within c np (S j + (k + 1)) ∨ qwithin c qp (S j)) ∧
  holds m2 np (lo ++ r) ∧ holds m2 dp (dlo ++ [d0; d1]).
Proof.
  intros Hlo Hlr Hh Hd Ha Hqn Hqd Hc1 Hr Hw2.
  assert (changed m1 m2 (λ c, qwithin c qp (S j))) as Hcq.
  { destruct qp as [qp|]; [|subst m2; apply changed_refl]. eapply writes_changed; [exact Hw2|].
    intros c [Hb Hrg]. split; [done|]. unfold padd in Hrg. cbn in Hrg. lia. }
  split; [|split].
  - eapply changed_trans; eapply changed_mono; [exact Hc1| |exact Hcq|by right].
    intros c [Hb Hrg]. left. split; [done|]. unfold padd in Hrg. cbn in Hrg. lia.
  - eapply changed_holds; [exact Hcq| |apply holds_app; split; [|by rewrite Hlo]].
    + intros c Hcw. eapply qapart_not; [exact Hqn|]. rewrite length_app in Hcw. unfold within in *. lia.
    + eapply changed_holds; [exact Hc1| |done]. intros c Hcw1 Hcw2. unfold within, padd in *. cbn in *. lia.
  - assert (length (dlo ++ [d0; d1]) = (k + 2)%nat) as Hl by (by rewrite length_app).
    eapply changed_holds; [exact Hcq| |eapply changed_holds; [exact Hc1| |done]]; rewrite Hl.
    + intros c. by apply qapart_not.
    + intros c Hcw1 Hcw2. unfold within, apart, padd in *. cbn in *. lia.
Qed.

(** [l] are the limbs of the numerator below [n1] when [j] quotient limbs are left. *)
Lemma wp_pi1_loop j : ∀ qp np n1 dp l m Q E,
  (1 ≤ k)%nat → length l = (j + (k + 1))%nat → words l → word n1 →
  holds m np l → space m np (j + (k + 1)) → holds m dp (dlo ++ [d0; d1]) →
  apart np (j + (k + 1)) dp (k + 2) → qspace m qp j → qapart qp j np (j + (k + 1)) → qapart qp j dp (k + 2) →
  n1 * wpow (length l) + val l < wpow j * d →
  (∀ lq u lr m', length lq = j → words lq → word u → length lr = (k + 1)%nat → words lr →
     n1 * wpow (length l) + val l = val lq * d + (u * wpow (k + 1) + val lr) → u * wpow (k + 1) + val lr < d →
     qholds m' qp lq → holds m' np lr →
     changed m m' (λ c, within c np (j + (k + 1)) ∨ qwithin c qp j) → Q u m') →
  wp (pi1_loop j qp np n1 dp (Z.of_nat (k + 2)) v d1 d0) Q E m.
Proof.
  induction j as [|j IH]; intros qp np n1 dp l m Q E Hk Hl Hw Hn1 Hh Hs Hd Ha Hqs Hqn Hqd Hlt HQ; cbn [pi1_loop].
  { apply wp_ret. rewrite Hl in *. rewrite wpow_0 in Hlt. change (0 + (k + 1))%nat with (k + 1)%nat in *.
    apply (HQ [] n1 l); try done; try (cbn [val]; lia); by destruct qp. }
  destruct (split_at l j ltac:(lia)) as (lo & mid & -> & Hlo). rewrite length_app in Hl.
  assert (length mid = (k + 2)%nat) as Hlm by lia. apply Forall_app in Hw as [Hwlo Hwm].
  apply holds_app in Hh as [Hhlo Hhm]. rewrite Hlo in Hhm. rewrite length_app, Hlo, Hlm in *.
  pose proof (wpow_pos j) as Hj. pose proof (val_bound lo Hwlo) as Hblo. rewrite Hlo in Hblo.
  rewrite val_app, Hlo, (wpow_add j) in *. rewrite wpow_S in *.
  assert (n1 * wpow (k + 2) + val mid < WB * d) as Hlt2.
  { apply (Z.mul_lt_mono_pos_l (wpow j)); [done|]. lia. }
  apply wp_bind. apply (wp_pi1_step np (Z.of_nat j) n1 dp mid); try done.
  { unfold apart, padd in *. cbn. lia. }
  intros [q u] m1 (r & Hq & Hu & Hlr & Hwr & Hn & Hr & Hhr & Hc1). cbn [fst snd] in *.
  apply wp_bind. apply wp_store_q.
  { eapply qspace_changed; [done|]. done. }
  intros m2 Hw2. destruct (pi1_memory j qp np dp lo r q m m1 m2) as (Hc2 & Hh2 & Hd2); try done.
  eapply (IH qp np u dp (lo ++ r)); rewrite ?length_app; try done; try lia.
  { by apply Forall_app. }
  { eapply (changed_space _ _ _ np (S j + (k + 1))) in Hs; [|exact Hc2]. cbn [Nat.add] in Hs. rewrite <- Nat.add_1_r in Hs.
    by apply space_app in Hs as [Hs _]. }
  { unfold apart in *. lia. }
  { eapply qspace_changed; [exact Hc2|]. by apply qspace_S. }
  { destruct qp; [|done]. unfold qapart, apart in *. lia. }
  { destruct qp; [|done]. unfold qapart, apart in *. lia. }
  { rewrite val_app, Hlo, Hlr, wpow_add.
    assert (wpow j * (u * wpow (k + 1) + val r + 1) ≤ wpow j * d) by (apply Z.mul_le_mono_nonneg_l; lia). lia. }
  intros lq u' lr m3 Hlq Hwq Hu' Hllr Hwlr Heq Hlt3 Hqh Hhlr Hc3. rewrite val_app, Hlo, Hlr, wpow_add in Heq.
  apply (HQ (lq ++ [q]) u' lr); rewrite ?length_app; try done.
  - cbn. lia.
  - apply Forall_app. auto.
  - rewrite val_app, Hlq. cbn [val].
    assert (wpow j * (n1 * wpow (k + 2) + val mid) = wpow j * (q * d + (u * wpow (k + 1) + val r))) by (by rewrite Hn). lia.
  - destruct qp as [qp|]; [|done]. apply holds_app. rewrite Hlq. split; [done|].
    eapply changed_holds; [exact Hc3| |apply Hw2]. intros c [Hb Hrg] Hcw. unfold qapart, apart, qwithin, within, padd in *. cbn in *. lia.
  - eapply changed_trans; [exact Hc2|]. eapply changed_mono; [exact Hc3|]. intros c [[Hb Hrg]|Hqw]; [left; split; [done|lia]|right].
    destruct qp as [qp|]; [|done]. destruct Hqw as [Hb Hrg]. split; [done|lia].
Qed.

Lemma high_bit_set x : 9223372036854775808 ≤ x < WB → negb (Z.land x GMP_LIMB_HIGHBIT =? 0) = true.
Proof.
  intros Hx. unfold GMP_LIMB_HIGHBIT. change 1 with (Z.ones 1) at 1. rewrite high_bits by (done || unfold WB in *; lia).
  rewrite (proj2 (Z.ltb_ge _ _)); [done|]. change (2 ^ 63) with 9223372036854775808. lia.
Qed.

Lemma wp_mpn_div_qr_pi1 qp np n1 dp l j m Q E :
  (1 ≤ k)%nat → (1 ≤ j)%nat → length l = (j + (k + 1))%nat → words l → word n1 →
  holds m np l → holds m dp (dlo ++ [d0; d1]) → apart np (length l) dp (k + 2) →
  qspace m qp j → qapart qp j np (length l) → qapart qp j dp (k + 2) →
  n1 * wpow (length l) + val l < wpow j * d →
  (∀ m', div_post m qp j np (length l) (n1 * wpow (length l) + val l) d (k + 2) m' → Q tt m') →
  wp (mpn_div_qr_pi1 qp np (Z.of_nat (length l)) n1 dp (Z.of_nat (k + 2)) v) Q E m.
Proof.
  intros Hk Hj Hl Hw Hn1 Hh Hd Ha Hqs Hqn Hqd Hlt HQ. unfold mpn_div_qr_pi1.
  apply wp_bind, wp_massert; [apply Z.ltb_lt; lia|]. apply wp_bind, wp_massert; [apply Z.leb_le; lia|].
  pose proof Hd as [_ [Hhd0 [Hhd1 _]%holds_cons]%holds_cons]%holds_app. rewrite padd_padd in Hhd1. fold k in Hhd0, Hhd1.
  replace (Z.of_nat (k + 2) - 1) with (Z.of_nat k + 1) by lia. replace (Z.of_nat (k + 2) - 2) with (Z.of_nat k) by lia.
  do 2 (apply wp_bind; eapply wp_load; [done|]).
  apply wp_bind, wp_massert; [by apply high_bit_set|]. pose proof (holds_space _ _ _ Hh) as Hs.
  replace (Z.to_nat _) with j by lia. rewrite Hl in Ha, Hqn, Hs. apply wp_bind.
  eapply (wp_pi1_loop j qp np n1 dp l); try done.
  intros lq u lr m1 Hlq Hwq Hu Hllr Hwlr Heq Hr Hqh Hhlr Hc.
  assert (space m1 np (j + (k + 1))) as Hs1 by (by eapply changed_space).
  replace (j + (k + 1))%nat with ((k + 1) + (1 + (j - 1)))%nat in Hs1 by lia. apply space_app in Hs1 as [_ [Hsu _]%space_S].
  replace (Z.of_nat k + 1) with (Z.of_nat (k + 1)) by lia.
  apply wp_store_writes; [done|]. intros m2 Hw2. rewrite <- Hllr in Hw2. apply HQ. exists lq, (lr ++ [u]).
  rewrite length_app, Hllr in *. cbn [length]. split; [done|]. split; [done|]. split; [lia|].
  split; [by apply Forall_app; auto|]. rewrite val_app, Hllr. cbn [val]. split; [lia|]. split; [lia|].
  assert (changed m1 m2 (λ c, within c np (length l) ∨ qwithin c qp j)) as Hc2.
  { eapply writes_changed; [exact Hw2|]. intros c [Hb Hrg]. left. split; [done|]. unfold padd in Hrg. cbn in Hrg. lia. }
  split; [|split; [|rewrite Hl in *; by eapply changed_trans]].
  - eapply qholds_writes; [exact Hw2| |done]. rewrite Hlq. destruct qp; [|done]. unfold qapart, apart, padd in *. cbn in *. lia.
  - apply holds_app. split; [|rewrite Hllr; apply Hw2]. eapply writes_holds; [exact Hw2| |done]. unfold apart, padd. cbn. lia.
Qed.
End step.

(** ** The general division *)

Lemma wp_mpn_div_qr_1_store qp np l d inv m Q E :
  words l → l ≠ [] → holds m np l → mem_ok m → qspace m qp (length l) → qapart qp (length l) np (length l) →
  inv_ok1 d inv →
  (∀ m', div_post m qp (length l) np (length l) (val l) d 1 m' → Q tt m') →
  wp (r ← mpn_div_qr_1_preinv qp np (Z.of_nat (length l)) inv; store np r) Q E m.
Proof.
  intros Hw Hne Hh Hm Hqs Hqn Hinv HQ. apply wp_bind.
  assert (0 < length l)%nat as Hl by (destruct l; [done|cbn; lia]).
  assert (d < WB) as Hd. { destruct Hinv as (Hs & Hd1 & Hr & _). assert (1 ≤ 2 ^ inv_shift inv) by (apply (Z.pow_le_mono_r 2 0); lia). nia. }
  eapply wp_mpn_div_qr_1_preinv; try done.
  { destruct qp; [|done]. unfold qok, qapart, ok_down, apart in *. lia. }
  intros lq r m1 Hlq Hwq Heq Hr [Hqh Hc]. pose proof (space_first _ _ _ (changed_space _ _ _ _ _ Hc (holds_space _ _ _ Hh)) Hl) as Hs.
  apply wp_store_writes; [done|]. intros m2 Hw2. apply HQ. exists lq, [r]. cbn [length val].
  split; [done|]. split; [done|]. split; [done|]. split; [apply words_cons; [unfold word; lia|constructor]|].
  split; [lia|]. split; [lia|]. split; [|split; [apply Hw2|]].
  - eapply qholds_writes; [exact Hw2| |done]. rewrite Hlq. destruct qp; [|done]. unfold qapart, apart in *. cbn. lia.
  - eapply changed_trans; [eapply changed_mono; [exact Hc|intros c; rewrite Hlq; by right]|].
    eapply writes_changed; [exact Hw2|]. intros c [Hb Hrg]. left. split; [done|]. cbn in Hrg. lia.
Qed.

Lemma div_post_before m m1 qp nq np nn n d dn m' :
  changed m m1 (λ c, within c np nn ∨ qwithin c qp nq) → div_post m1 qp nq np nn n d dn m' →
  div_post m qp nq np nn n d dn m'.
Proof.
  intros Hc (lq & lr & H1 & H2 & H3 & H4 & H5 & H6 & H7 & H8 & H9). exists lq, lr. do 8 (split; [done|]).
  by eapply changed_trans.
Qed.

(** Shifting the remainder back; no bit is lost. *)
Lemma wp_unshift qp nq np nn n d dn s m m1 Q E :
  0 < s < 64 → (1 ≤ dn ≤ nn)%nat → qapart qp nq np nn → 0 < d →
  div_post m qp nq np nn (n * 2 ^ s) (d * 2 ^ s) dn m1 →
  (∀ m', div_post m qp nq np nn n d dn m' → Q tt m') →
  wp (gmp_assert_nocarry (mpn_rshift np np (Z.of_nat dn) s)) Q E m1.
Proof.
  intros Hs Hdn Hqn Hd (lq & lr & Hlq & Hwq & Hlr & Hwr & Hn & Hlt & Hqh & Hhr & Hc) HQ.
  assert (0 < 2 ^ s) as Hp by (apply Z.pow_pos_nonneg; lia).
  unfold gmp_assert_nocarry. apply wp_bind. rewrite <- Hlr.
  apply wp_mpn_rshift; [by intros ->; cbn in Hlr; lia|lia|done|done|by apply holds_space|unfold ok_up; lia|].
  intros r c m2 Hl2 Hw2 Hcb Hv Hwr2.
  assert (c = 0) as ->.
  { assert (c = 2 ^ s * (n - val lq * d - val r)) as Hc2 by lia. revert Hc2 Hcb Hp. generalize (n - val lq * d - val r) (2 ^ s).
    intros x p -> Hx Hp. assert (x = 0) as -> by nia. lia. }
  apply wp_massert; [by rewrite Z.mul_0_l|]. apply HQ. exists lq, r. split; [done|]. split; [done|]. split; [lia|].
  split; [done|]. split; [nia|]. split; [nia|]. split; [|split; [apply Hwr2|]].
  - eapply qholds_writes; [exact Hwr2| |done]. destruct qp; [|done]. unfold qapart, apart in *. lia.
  - eapply changed_trans; [exact Hc|]. eapply writes_changed; [exact Hwr2|]. intros c [Hb Hrg]. left. split; [done|lia].
Qed.

Lemma wp_div_qr_preinv_long qp np l dp dlo d0 d1 d inv j m Q E :
  (1 ≤ length dlo)%nat → (1 ≤ j)%nat → length l = (j + (length dlo + 1))%nat → words l → words dlo → word d0 →
  9223372036854775808 ≤ d1 < WB → 0 ≤ inv_shift inv < 64 → inv_d1 inv = d1 → inv_d0 inv = Some d0 →
  recip2 (d1 * WB + d0) (inv_di inv) → val (dlo ++ [d0; d1]) = d * 2 ^ inv_shift inv →
  holds m np l → holds m dp (dlo ++ [d0; d1]) → apart np (length l) dp (length dlo + 2) →
  qspace m qp j → qapart qp j np (length l) → qapart qp j dp (length dlo + 2) →
  (∀ m', div_post m qp j np (length l) (val l) d (length dlo + 2) m' → Q tt m') →
  wp (mpn_div_qr_preinv qp np (Z.of_nat (length l)) dp (Z.of_nat (length dlo + 2)) inv) Q E m.
Proof.
  intros Hk Hj Hl Hw Hwd Hd0 Hd1 Hs Hi1 Hi0 Hrec Hdv Hh Hd Ha Hqs Hqn Hqd HQ. unfold mpn_div_qr_preinv.
  set (k := length dlo) in *. set (s := inv_shift inv) in *.
  apply wp_bind, wp_massert; [apply Z.ltb_lt; lia|]. apply wp_bind, wp_massert; [apply Z.leb_le; lia|].
  do 2 (rewrite (proj2 (Z.eqb_neq _ _)) by lia).
  pose proof Hd as [_ [Hhd0 [Hhd1 _]%holds_cons]%holds_cons]%holds_app. rewrite padd_padd in Hhd1. fold k in Hhd0, Hhd1.
  replace (Z.of_nat (k + 2) - 1) with (Z.of_nat k + 1) by lia. replace (Z.of_nat (k + 2) - 2) with (Z.of_nat k) by lia.
  apply wp_bind. eapply wp_load; [done|]. apply wp_bind, wp_massert; [by rewrite Hi1, Z.eqb_refl|].
  apply wp_bind. eapply wp_load; [done|]. apply wp_bind. eapply wp_lift_ok; [unfold get_d0; by rewrite Hi0|].
  apply wp_bind, wp_massert; [apply Z.eqb_refl|]. rewrite Hi1. apply wp_bind, wp_massert; [by apply high_bit_set|].
  assert (0 < 2 ^ s ≤ 2 ^ 63) as Hp by (split; [apply Z.pow_pos_nonneg; lia|apply Z.pow_le_mono_r; lia]).
  change (2 ^ 63) with 9223372036854775808 in Hp.
  assert (9223372036854775808 * wpow (k + 1) ≤ d * 2 ^ s) as Hdb.
  { rewrite <- Hdv. rewrite divisor_val. fold k. pose proof (val_bound dlo Hwd). pose proof (wpow_pos k).
    rewrite wpow_add. change (wpow 1) with WB.
    assert (wpow k * (9223372036854775808 * WB) ≤ wpow k * (d1 * WB + d0)) by (apply Z.mul_le_mono_nonneg_l; unfold word, WB in *; lia). lia. }
  assert (val l * 2 ^ s < wpow j * (d * 2 ^ s)) as Hlt.
  { pose proof (val_bound l Hw) as Hb. rewrite Hl, wpow_add in Hb. pose proof (wpow_pos j).
    assert (wpow j * (9223372036854775808 * wpow (k + 1)) ≤ wpow j * (d * 2 ^ s)) by (apply Z.mul_le_mono_nonneg_l; lia).
    assert (val l * 2 ^ s < (wpow j * wpow (k + 1)) * 9223372036854775808) by nia. lia. }
  assert (0 < d) as Hdpos by (pose proof (wpow_pos (k + 1)); nia).
  destruct (Z.ltb_spec 0 s) as [Hs0|Hs0].
  - apply wp_bind. apply wp_mpn_lshift; [by intros ->; cbn in Hl; lia|lia|done|done|by apply holds_space|unfold ok_down; lia|].
    intros l' c m1 Hl' Hw' Hc Hv Hw1. apply wp_bind. rewrite <- Hl' in *.
    apply (wp_mpn_div_qr_pi1 dlo d0 d1 (inv_di inv) Hwd Hd0 Hd1 Hrec qp np c dp l' j); fold k; try done.
    { unfold word, WB. lia. }
    { apply Hw1. }
    { eapply writes_holds; [exact Hw1| |done]. rewrite length_app. cbn. fold k. done. }
    { eapply qspace_changed; [apply Hw1|done]. }
    { rewrite Hdv. lia. }
    intros m2 Hpost. apply (div_post_before m) in Hpost.
    2:{ eapply writes_changed; [exact Hw1|]. by left. }
    rewrite Hdv in Hpost. replace (c * wpow (length l') + val l') with (val l * 2 ^ s) in Hpost by lia.
    eapply (wp_unshift qp j np (length l') (val l) d (k + 2) s m); try done; lia.
  - assert (s = 0) as Hsz by lia. rewrite Hsz in *. rewrite Z.mul_1_r in Hdv, Hlt. apply wp_bind, wp_ret, wp_bind.
    apply (wp_mpn_div_qr_pi1 dlo d0 d1 (inv_di inv) Hwd Hd0 Hd1 Hrec qp np 0 dp l j); fold k; try done.
    { rewrite Hdv. lia. }
    intros m2 Hpost. apply wp_ret, HQ. by rewrite Hdv in Hpost.
Qed.

(** The two highest limbs of a number are determined by its quotient by the power below. *)
Lemma top_two lt n h l rest :
  words lt → length lt = (n + 2)%nat → word h → word l → 0 ≤ rest < wpow n →
  val lt = (h * WB + l) * wpow n + rest → ∃ lo, lt = lo ++ [l; h] ∧ length lo = n ∧ words lo.
Proof.
  intros Hw Hl Hh Hlw Hr Hv. destruct (split_at lt n ltac:(lia)) as (lo & hi & -> & Hlo).
  rewrite length_app in Hl. destruct hi as [|t0 [|t1 [|? ?]]]; cbn in Hl; try lia.
  apply Forall_app in Hw as [Hwlo [Ht0 [Ht1 _]%Forall_cons]%Forall_cons].
  rewrite val_app, Hlo in Hv. cbn [val] in Hv. pose proof (val_bound lo Hwlo) as Hb. rewrite Hlo in Hb.
  assert (t0 + WB * t1 = h * WB + l) as He.
  { rewrite (Z.div_unique (wpow n * (t0 + WB * t1) + val lo) (wpow n) (t0 + WB * t1) (val lo)) by lia.
    symmetry. apply Z.div_unique with rest; [lia|]. lia. }
  exists lo. assert (t0 = l ∧ t1 = h) as [-> ->] by (unfold word, WB in *; lia). done.
Qed.

Section long_divisor.
Context (dl : list Z) (x y0 y1 s : Z).
Let n := (length dl + 1)%nat.
Let ld := dl ++ [x; y0; y1].
Hypotheses (Hwdl : words dl) (Hx : word x) (Hy0 : word y0) (Hy1 : 0 < y1) (Hs : 0 < s < 64)
  (Hfit : 9223372036854775808 ≤ y1 * 2 ^ s < WB).
Let h := Z.lor (u64 (Z.shiftl y1 s)) (Z.shiftr y0 (GMP_LIMB_BITS - s)).
Let l := Z.lor (u64 (Z.shiftl y0 s)) (Z.shiftr x (GMP_LIMB_BITS - s)).

Lemma y1_word : word y1.
Proof. unfold word. assert (1 ≤ 2 ^ s) by (apply (Z.pow_le_mono_r 2 0); lia). nia. Qed.

Lemma shifted_high : 9223372036854775808 ≤ h < WB ∧ word l.
Proof.
  destruct (shift_two y1 y0 x s y1_word Hy0 Hx Hs ltac:(lia)) as (h' & l' & Eh & El & Hh & Hl & Hv). fold h in Eh. fold l in El.
  subst h' l'. split; [|done]. destruct (limb_shl x s Hx Hs) as (xh & xl & E & _ & _ & Rh & _).
  unfold GMP_LIMB_BITS in Hv. rewrite E in Hv. unfold word, WB in *.
  assert (0 ≤ y0 * 2 ^ s) by (apply Z.mul_nonneg_nonneg; lia). lia.
Qed.

(** The shifted divisor has no carry, and [h], [l] are its highest limbs. *)
Lemma shifted_divisor lt c :
  length lt = (n + 2)%nat → words lt → 0 ≤ c → val lt + wpow (n + 2) * c = val ld * 2 ^ s →
  c = 0 ∧ ∃ lo, lt = lo ++ [l; h] ∧ length lo = n ∧ words lo.
Proof.
  intros Hlt Hwt Hc Hv.
  destruct (shift_two y1 y0 x s y1_word Hy0 Hx Hs ltac:(lia)) as (h' & l' & Eh & El & Hh & Hl & Hhl). fold h in Eh. fold l in El.
  subst h' l'. destruct (limb_shl x s Hx Hs) as (xh & xl & E & _ & Vx & Rh & Rl).
  unfold GMP_LIMB_BITS in Hhl. rewrite E in Hhl. destruct (two_parts s Hs) as (HW & Hp1 & Hp2).
  pose proof (val_bound dl Hwdl) as Hb. pose proof (wpow_pos (length dl)) as Hpos.
  set (w := wpow (length dl)) in *.
  assert (wpow n = w * WB) as Hwn by (unfold n; rewrite wpow_add; done).
  assert (val ld * 2 ^ s = (h * WB + l) * wpow n + (val dl * 2 ^ s + w * (xl * 2 ^ s))) as Hval.
  { unfold ld. rewrite val_app. cbn [val]. fold w. rewrite Hwn, <- Hhl.
    transitivity (val dl * 2 ^ s + w * (x * 2 ^ s) + w * WB * ((y1 * WB + y0) * 2 ^ s)); [lia|]. rewrite Vx. lia. }
  assert (0 ≤ val dl * 2 ^ s + w * (xl * 2 ^ s) < wpow n) as Hrest.
  { assert (0 ≤ val dl * 2 ^ s) by (apply Z.mul_nonneg_nonneg; lia).
    assert (0 ≤ w * (xl * 2 ^ s)) by (apply Z.mul_nonneg_nonneg; [lia|apply Z.mul_nonneg_nonneg; lia]).
    assert (val dl * 2 ^ s < w * 2 ^ s) by (apply Z.mul_lt_mono_pos_r; lia).
    assert (w * (xl * 2 ^ s) ≤ w * ((2 ^ (64 - s) - 1) * 2 ^ s)) by (apply Z.mul_le_mono_nonneg_l; [lia|apply Z.mul_le_mono_nonneg_r; lia]).
    rewrite Hwn, HW. lia. }
  assert (c = 0) as ->.
  { assert (wpow (n + 2) = wpow n * (WB * WB)) as Hw2 by (by rewrite wpow_add).
    assert ((h * WB + l) * wpow n ≤ (WB * WB - 1) * wpow n) by (apply Z.mul_le_mono_nonneg_r; [lia|unfold word, WB in *; lia]).
    pose proof (val_bound lt Hwt). destruct (Z.lt_ge_cases 0 c); [|lia].
    assert (wpow (n + 2) * 1 ≤ wpow (n + 2) * c) by (apply Z.mul_le_mono_nonneg_l; lia). lia. }
  split; [done|]. apply (top_two lt n h l (val dl * 2 ^ s + w * (xl * 2 ^ s))); try done. lia.
Qed.
End long_divisor.
