(* ===== verification/MpnDivQr.v ===== *)
(** * Division with remainder: what it promises

    [mpn_div_qr] and [mpn_div_qr_1] for every numerator and every normalised divisor, and
    the reciprocals they use. *)

From S2P Require Import Prelude CString Queue State UInt64 Mpn MpnMem MpnThm MpnBits MpnDiv MpnInv MpnDivThm MpnDivPi1 MpnCorrect.

(** ** The general division *)

Lemma wp_invert_long dp dl x y0 y1 m Q E :
  words dl → word x → word y0 → word y1 → y1 ≠ 0 → holds m dp (dl ++ [x; y0; y1]) →
  (∀ inv h l, 0 ≤ inv_shift inv < 64 → inv_d1 inv = h → inv_d0 inv = Some l →
     9223372036854775808 ≤ h < WB → word l → recip2 (h * WB + l) (inv_di inv) →
     9223372036854775808 ≤ y1 * 2 ^ inv_shift inv < WB →
     (0 < inv_shift inv → h = Z.lor (u64 (Z.shiftl y1 (inv_shift inv))) (Z.shiftr y0 (GMP_LIMB_BITS - inv_shift inv)) ∧
        l = Z.lor (u64 (Z.shiftl y0 (inv_shift inv))) (Z.shiftr x (GMP_LIMB_BITS - inv_shift inv))) →
     (inv_shift inv = 0 → h = y1 ∧ l = y0) → Q inv m) →
  wp (mpn_div_qr_invert dp (Z.of_nat (length (dl ++ [x; y0; y1])))) Q E m.
Proof.
  intros Hwd Hx Hy0 Hy1 Hne Hd HQ. unfold mpn_div_qr_invert. rewrite length_app. cbn [length]. set (k := length dl) in *.
  apply wp_bind, wp_massert; [apply Z.ltb_lt; lia|]. do 2 (rewrite (proj2 (Z.eqb_neq _ _)) by lia).
  apply holds_app in Hd as [_ [Hhx [Hh0 [Hh1 _]%holds_cons]%holds_cons]%holds_cons]. rewrite !padd_padd in *. fold k in Hhx, Hh0, Hh1.
  replace (Z.of_nat (k + 3) - 1) with (Z.of_nat k + (1 + 1)) by lia. replace (Z.of_nat (k + 3) - 2) with (Z.of_nat k + 1) by lia.
  replace (Z.of_nat (k + 3) - 3) with (Z.of_nat k) by lia.
  do 2 (apply wp_bind; eapply wp_load; [done|]).
  assert (0 < y1) as Hpos by (unfold word in *; lia).
  apply wp_bind, wp_massert; [by apply Z.ltb_lt|].
  destruct (gmp_clz_ok y1 ltac:(unfold word in *; lia)) as (s & Hs & Hsr & Hb). change (2 ^ 63) with 9223372036854775808 in Hb.
  apply wp_bind. eapply wp_lift_ok; [done|]. apply wp_bind. destruct (Z.ltb_spec 0 s).
  - apply wp_bind. eapply wp_load; [done|]. apply wp_ret.
    destruct (shifted_high dl x y0 y1 s Hx Hy0 Hpos ltac:(lia) Hb) as [Hh Hl].
    destruct (mpn_invert_3by2_spec _ Hh _ Hl) as (v & Hv & _ & Hrec). apply wp_bind. eapply wp_lift_ok; [done|].
    apply wp_ret. eapply HQ; try done. cbn. lia.
  - assert (s = 0) as -> by lia. rewrite Z.mul_1_r in Hb. apply wp_ret.
    destruct (mpn_invert_3by2_spec _ Hb _ Hy0) as (v & Hv & _ & Hrec). apply wp_bind. eapply wp_lift_ok; [done|].
    apply wp_ret. eapply HQ; try done. cbn. lia.
Qed.

(** The temporary copy of the divisor leaves no trace. *)
Lemma div_post_temp m b k m1 lt m2 qp nq np nn n d dn m3 m4 :
  allocated m b k m1 → writes m1 (b, 0) lt m2 → space m np nn → (1 ≤ dn ≤ nn)%nat → qspace m qp nq →
  div_post m2 qp nq np nn n d dn m3 →
  (∀ q, cell m4 q = if decide (q.1 = b) then None else cell m3 q) → m_next m4 = m_next m3 →
  div_post m qp nq np nn n d dn m4.
Proof.
  intros Hal Hw2 Hnp Hdn Hqs (lq & lr & H1 & H2 & H3 & H4 & H5 & H6 & H7 & H8 & H9) Hf Hn4.
  assert (∀ c, within c np nn → c.1 ≠ b) as Hnb.
  { intros c Hc. apply (allocated_qapart m b k m1 (Some np) nn c Hal Hnp Hc). }
  assert (∀ c, qwithin c qp nq → c.1 ≠ b) as Hqb by (intros c; by eapply allocated_qapart).
  exists lq, lr. do 6 (split; [done|]). split; [|split].
  - destruct qp as [p|]; [|done]. intros i y Hi. rewrite Hf, decide_False; [by apply H7|].
    apply Hqb. apply lookup_lt_Some in Hi. unfold qwithin, within, padd. cbn. lia.
  - intros i y Hi. rewrite Hf, decide_False; [by apply H8|]. apply Hnb. apply lookup_lt_Some in Hi.
    unfold within, padd. cbn. lia.
  - eapply changed_temp; [exact Hal| |exact Hf|exact Hn4]. eapply changed_trans.
    + eapply writes_changed; [exact Hw2|]. intros c [Hb _]. by left.
    + eapply changed_mono; [exact H9|]. by right.
Qed.

Lemma wp_mpn_div_qr_long qp np l dp dl x y0 y1 m Q E :
  (length dl + 3 ≤ length l)%nat → words l → words dl → word x → word y0 → word y1 → y1 ≠ 0 → mem_ok m →
  holds m np l → holds m dp (dl ++ [x; y0; y1]) → apart np (length l) dp (length dl + 3) →
  let j := (length l - (length dl + 2))%nat in
  qspace m qp j → qapart qp j np (length l) → qapart qp j dp (length dl + 3) →
  (∀ m', div_post m qp j np (length l) (val l) (val (dl ++ [x; y0; y1])) (length dl + 3) m' → Q tt m') →
  wp (mpn_div_qr qp np (Z.of_nat (length l)) dp (Z.of_nat (length dl + 3))) Q E m.
Proof.
  intros Hle Hw Hwd Hx Hy0 Hy1 Hne Hm Hh Hd Ha j Hqs Hqn Hqd HQ. unfold mpn_div_qr.
  apply wp_bind, wp_massert; [apply Z.ltb_lt; lia|]. apply wp_bind, wp_massert; [apply Z.leb_le; lia|].
  assert (length (dl ++ [x; y0; y1]) = (length dl + 3)%nat) as Hld by (by rewrite length_app).
  apply wp_bind. rewrite <- Hld at 1. eapply (wp_invert_long dp dl x y0 y1); try done.
  intros inv h lw Hs Hi1 Hi0 Hhr Hlw Hrec Hfit Hpos Hzero. rewrite (proj2 (Z.ltb_lt 2 _)) by lia. cbn [andb].
  destruct (Z.ltb_spec 0 (inv_shift inv)) as [Hs0|Hs0].
  - destruct (Hpos Hs0) as [Eh El]. apply wp_bind, wp_gmp_xalloc_limbs; [lia|done|]. intros b m1 Hal.
    apply wp_bind. unfold gmp_assert_nocarry at 1. apply wp_bind. rewrite <- Hld at 1.
    assert (b ≠ np.1 ∧ b ≠ dp.1) as [Hbn Hbd].
    { split; apply not_eq_sym; [apply (allocated_fresh _ _ _ _ _ _ Hal (holds_space _ _ _ Hh))|
        apply (allocated_fresh _ _ _ _ _ _ Hal (holds_space _ _ _ Hd))]; lia. }
    assert (words (dl ++ [x; y0; y1])) as Hwld by (apply Forall_app; split; [done|by repeat apply words_cons]).
    apply wp_mpn_lshift; [by destruct dl|lia|done|by eapply allocated_holds|rewrite Hld; apply Hal|by left|].
    intros lt c m2 Hlt Hwt Hc Hval Hw2. rewrite Hld in *.
    destruct (shifted_divisor dl x y0 y1 (inv_shift inv) Hwd Hx Hy0 ltac:(unfold word in *; lia) ltac:(lia) Hfit lt c)
      as (-> & lo & -> & Hlo & Hwlo); [lia|done|lia|by replace (length dl + 1 + 2)%nat with (length dl + 3)%nat by lia|].
    rewrite <- Eh, <- El in *. apply wp_massert; [done|].
    apply wp_bind. replace (length dl + 3)%nat with (length lo + 2)%nat in * by lia.
    apply (wp_div_qr_preinv_long qp np l (b, 0) lo lw h (val (dl ++ [x; y0; y1])) inv j); try done; try (unfold j; lia).
    { eapply writes_holds; [exact Hw2| |by eapply allocated_holds]. by left. }
    { apply Hw2. }
    { left. by apply not_eq_sym. }
    { eapply qspace_changed; [apply Hw2|]. by eapply allocated_qspace. }
    { destruct qp as [p|]; [|done]. left. cbn. apply (allocated_qapart _ _ _ _ (Some p) _ p Hal Hqs). unfold qwithin, within, j. lia. }
    intros m3 Hpost. apply wp_gmp_free.
    { destruct Hpost as (_ & _ & _ & _ & _ & _ & _ & _ & _ & _ & Hch). apply (space_first _ _ (length lo + 2)); [|lia].
      eapply changed_space; [exact Hch|]. eapply changed_space; [apply Hw2|]. apply Hal. }
    intros m4 H4 Hn4. apply HQ. eapply div_post_temp; try done; [by apply holds_space|lia].
  - assert (inv_shift inv = 0) as Hsz by lia. destruct (Hzero Hsz) as [-> ->].
    replace (dl ++ [x; y0; y1]) with ((dl ++ [x]) ++ [y0; y1]) in * by (by rewrite <- app_assoc).
    assert (length (dl ++ [x]) = (length dl + 1)%nat) as Hlx by (by rewrite length_app).
    replace (length dl + 3)%nat with (length (dl ++ [x]) + 2)%nat in * by lia.
    apply (wp_div_qr_preinv_long qp np l dp (dl ++ [x]) y0 y1 (val ((dl ++ [x]) ++ [y0; y1])) inv j); try done;
      try (rewrite Hlx; unfold j; lia); [unfold j; lia|by apply Forall_app; auto|rewrite Hsz; lia].
Qed.

(** The divisor by its number of limbs *)
Lemma long_divisor_split (ld : list Z) :
  (3 ≤ length ld)%nat → ∃ dl x y0 y1, ld = dl ++ [x; y0; y1] ∧ (length dl + 3 = length ld)%nat.
Proof.
  intros Hl. destruct (split_at ld (length ld - 3) ltac:(lia)) as (dl & hi & -> & Hdl). rewrite length_app in *.
  destruct hi as [|x [|y0 [|y1 [|? ?]]]]; cbn in *; try lia. exists dl, x, y0, y1. split; [done|lia].
Qed.

Lemma wp_mpn_div_qr qp np l dp ld m Q E :
  (1 ≤ length ld ≤ length l)%nat → words l → words ld → normal ld → mem_ok m →
  holds m np l → holds m dp ld → apart np (length l) dp (length ld) →
  let j := (length l - length ld + 1)%nat in
  qspace m qp j → qapart qp j np (length l) → qapart qp j dp (length ld) →
  (∀ m', div_post m qp j np (length l) (val l) (val ld) (length ld) m' → Q tt m') →
  wp (mpn_div_qr qp np (Z.of_nat (length l)) dp (Z.of_nat (length ld))) Q E m.
Proof.
  intros [H1 H2] Hw Hwd Hnorm Hm Hh Hd Ha j Hqs Hqn Hqd HQ.
  assert (length ld = 1 ∨ length ld = 2 ∨ 3 ≤ length ld)%nat as [Hl|[Hl|Hl]] by lia.
  - destruct ld as [|d [|? ?]]; try done. unfold mpn_div_qr. cbn [length] in *.
    apply wp_bind, wp_massert; [done|]. apply wp_bind, wp_massert; [apply Z.leb_le; lia|].
    apply Forall_cons in Hwd as [Hwd _]. assert (d ≠ 0) as Hd0 by (by apply Hnorm).
    destruct (mpn_div_qr_1_invert_spec d ltac:(unfold word in *; lia)) as (inv & Hinv & Hok).
    apply holds_cons in Hd as [Hd _]. apply wp_bind. unfold mpn_div_qr_invert. apply wp_bind, wp_massert; [done|].
    apply wp_bind. eapply wp_load; [done|]. eapply wp_lift_ok; [done|]. cbn [Z.ltb andb Z.of_nat].
    unfold mpn_div_qr_preinv. apply wp_bind, wp_massert; [done|]. apply wp_bind, wp_massert; [apply Z.leb_le; lia|].
    replace j with (length l) in * by (unfold j; lia).
    apply (wp_mpn_div_qr_1_store qp np l d); try done; [by intros ->; cbn in H2; lia|].
    intros m'. cbn [val] in HQ. rewrite Z.mul_0_r, Z.add_0_r in HQ. apply HQ.
  - destruct ld as [|d0 [|d1 [|? ?]]]; try done. unfold mpn_div_qr. cbn [length] in *.
    apply wp_bind, wp_massert; [done|]. apply wp_bind, wp_massert; [apply Z.leb_le; lia|].
    apply Forall_cons in Hwd as [Hwd0 [Hwd1 _]%Forall_cons]. assert (d1 ≠ 0) as Hne by (by apply Hnorm).
    destruct (mpn_div_qr_2_invert_spec d1 d0 ltac:(unfold word in *; lia) Hwd0) as (inv & Hinv & Hok).
    apply holds_cons in Hd as [Hd0 [Hd1 _]%holds_cons]. apply wp_bind. unfold mpn_div_qr_invert. apply wp_bind, wp_massert; [done|].
    do 2 (apply wp_bind; eapply wp_load; [done|]). eapply wp_lift_ok; [done|]. cbn [Z.ltb andb Z.of_nat].
    unfold mpn_div_qr_preinv. apply wp_bind, wp_massert; [done|]. apply wp_bind, wp_massert; [apply Z.leb_le; lia|].
    replace j with (length l - 1)%nat in * by (unfold j; lia).
    apply (wp_mpn_div_qr_2_preinv qp np l (d1 * WB + d0)); try done.
    intros m'. replace (d1 * WB + d0) with (val [d0; d1]) by (cbn [val]; lia). apply HQ.
  - destruct (long_divisor_split ld Hl) as (dl & x & y0 & y1 & -> & Hlen). rewrite <- Hlen in *.
    apply Forall_app in Hwd as [Hwd [Hx [Hy0 [Hy1 _]%Forall_cons]%Forall_cons]%Forall_cons].
    replace j with (length l - (length dl + 2))%nat in * by (unfold j; lia).
    apply (wp_mpn_div_qr_long qp np l dp dl x y0 y1); try done. apply Hnorm.
    replace (dl ++ [x; y0; y1]) with ((dl ++ [x; y0]) ++ [y1]) by (by rewrite <- app_assoc). apply last_snoc.
Qed.

(** ** Division by one limb: the power of two is a shift *)

Lemma val_exists n : ∀ v, 0 ≤ v < wpow n → ∃ l, length l = n ∧ words l ∧ val l = v.
Proof.
  induction n as [|n IH]; intros v Hv; [exists []; rewrite wpow_0 in Hv; cbn; split_and!; [done|constructor|lia]|].
  rewrite wpow_S in Hv. destruct (IH (v / WB)) as (l & Hl & Hw & Hlv).
  { split; [apply Z.div_pos; unfold WB; lia|]. apply Z.div_lt_upper_bound; unfold WB in *; lia. }
  exists (v mod WB :: l). cbn [val length]. rewrite Hlv. split; [lia|]. split.
  - apply words_cons; [apply Z.mod_pos_bound; done|done].
  - pose proof (Z.div_mod v WB ltac:(done)). lia.
Qed.

Lemma pow2_mask d :
  0 < d < WB → Z.land d (u64 (d - 1)) = 0 → ∃ k, 0 ≤ k < 64 ∧ gmp_ctz d = Ok k ∧ d = 2 ^ k.
Proof.
  intros Hd Hz. destruct (gmp_ctz_ok d Hd) as (k & q & Hk & Hkr & Hq & Hdq). exists k. split; [done|]. split; [done|].
  rewrite u64_small in Hz by lia. assert (0 < 2 ^ k) as Hp by (apply Z.pow_pos_nonneg; lia).
  destruct (Z.eq_dec q 0) as [->|Hq0]; [lia|]. exfalso.
  assert (d = Z.shiftl (2 * q) k + 2 ^ k) as E1 by (rewrite Z.shiftl_mul_pow2 by lia; lia).
  assert (d / 2 ^ (k + 1) = q) as E2.
  { rewrite Z.pow_add_r by lia. symmetry. apply Z.div_unique with (2 ^ k); [|lia]. left. lia. }
  assert ((d - 1) / 2 ^ (k + 1) = q) as E3.
  { rewrite Z.pow_add_r by lia. symmetry. apply Z.div_unique with (2 ^ k - 1); [|lia]. left. lia. }
  assert (Z.shiftr (Z.land d (d - 1)) (k + 1) = q) as E4.
  { by rewrite Z.shiftr_land, !Z.shiftr_div_pow2, E2, E3, Z.land_diag by lia. }
  rewrite Hz, Z.shiftr_0_l in E4. lia.
Qed.

Lemma wp_mpn_div_qr_1 qp np l d m Q E :
  words l → l ≠ [] → 0 < d < WB → mem_ok m → holds m np l → qspace m qp (length l) →
  match qp with Some p => p = np ∨ apart p (length l) np (length l) | None => True end →
  (∀ lq m', length lq = length l → words lq → val lq = val l / d → qwrites m qp lq m' → Q (val l mod d) m') →
  wp (mpn_div_qr_1 qp np (Z.of_nat (length l)) d) Q E m.
Proof.
  intros Hw Hne Hd Hm Hh Hqs Hq HQ. unfold mpn_div_qr_1. apply wp_bind, wp_massert; [apply Z.ltb_lt; lia|].
  assert (∀ lq r m', length lq = length l → words lq → val l = val lq * d + r → 0 ≤ r < d → qwrites m qp lq m' → Q r m') as HQ2.
  { intros lq r m' H1 H2 H3 H4 H5. replace r with (val l mod d); [apply (HQ lq); try done|].
    - apply Z.div_unique with r; lia.
    - symmetry. apply Z.mod_unique with (val lq); lia. }
  destruct (Z.eqb_spec (Z.land d (u64 (d - 1))) 0) as [Hz|_].
  - destruct (pow2_mask d Hd Hz) as (k & Hk & Hctz & ->). destruct l as [|x l]; [done|].
    pose proof Hh as [Hx _]%holds_cons. apply wp_bind. eapply wp_load; [done|].
    assert (0 < 2 ^ k) as Hp by (apply Z.pow_pos_nonneg; lia).
    assert (Z.land x (u64 (2 ^ k - 1)) = val (x :: l) mod 2 ^ k) as ->.
    { rewrite u64_small by lia. replace (2 ^ k - 1) with (Z.ones k) by (rewrite Z.ones_equiv; lia). rewrite Z.land_ones by lia.
      cbn [val]. change WB with (2 ^ 64). replace 64 with (k + (64 - k)) by lia. rewrite Z.pow_add_r by lia.
      replace (x + 2 ^ k * 2 ^ (64 - k) * val l) with (x + 2 ^ (64 - k) * val l * 2 ^ k) by lia. by rewrite Z.mod_add by lia. }
    destruct qp as [p|].
    + assert (ok_up p np (length (x :: l))) as Ho by (unfold ok_up, apart in *; destruct Hq as [->|?]; lia).
      destruct (Z.leb_spec (2 ^ k) 1) as [Hk1|Hk1].
      * apply wp_bind, wp_mpn_copyi; [done..|]. intros m' [Hw1 Hw2]. apply wp_ret, (HQ (x :: l)); try done.
        replace (2 ^ k) with 1 by lia. by rewrite Z.div_1_r.
      * apply wp_bind. eapply wp_lift_ok; [done|]. apply wp_bind.
        assert (k ≠ 0) as Hk0 by (intros ->; lia).
        apply wp_mpn_rshift; try done; [lia|]. intros r c m' Hl Hr Hc Hv [Hw1 Hw2]. apply wp_ret, (HQ r); try done.
        { apply Z.div_unique with c; lia. }
    + apply wp_ret. (* nothing is written *)
      destruct (val_exists (length (x :: l)) (val (x :: l) / 2 ^ k)) as (lq & Hlq & Hwq & Hv).
      { pose proof (val_bound (x :: l) Hw). split; [apply Z.div_pos; lia|]. apply Z.div_lt_upper_bound; [done|]. nia. }
      by apply (HQ lq).
  - destruct (mpn_div_qr_1_invert_spec d Hd) as (inv & Hinv & Hok). apply wp_bind. eapply wp_lift_ok; [done|].
    eapply wp_mpn_div_qr_1_preinv; try done. destruct qp; [|done]. unfold qok, ok_down, apart in *.
    destruct Hq as [->|?]; lia.
Qed.

(** ** The claims *)

(** C6: [mpn_div_qr] divides any number by any normalised divisor that has no more limbs:
    it leaves the remainder in the low limbs of the numerator and, unless the quotient
    pointer is null, writes all the limbs of the quotient.  The temporary copy of the
    divisor is released again, and no other limb of the memory changes (the limbs above
    the remainder have no specified value). *)
Theorem mpn_div_qr_correct qp np l dp ld m :
  (1 ≤ length ld ≤ length l)%nat → words l → words ld → normal ld → mem_ok m →
  holds m np l → holds m dp ld → apart np (length l) dp (length ld) →
  let j := (length l - length ld + 1)%nat in
  qspace m qp j → qapart qp j np (length l) → qapart qp j dp (length ld) →
  ∃ lq lr m', mpn_div_qr qp np (Z.of_nat (length l)) dp (Z.of_nat (length ld)) m = Ok (tt, m') ∧
    length lq = j ∧ words lq ∧ val lq = val l / val ld ∧
    length lr = length ld ∧ words lr ∧ val lr = val l mod val ld ∧
    qholds m' qp lq ∧ holds m' np lr ∧ holds m' dp ld ∧
    changed m m' (λ c, within c np (length l) ∨ qwithin c qp j).
Proof.
  intros Hlen Hw Hwd Hn Hm Hh Hd Ha j Hqs Hqn Hqd.
  assert (wp (mpn_div_qr qp np (Z.of_nat (length l)) dp (Z.of_nat (length ld)))
    (λ _ m', div_post m qp j np (length l) (val l) (val ld) (length ld) m') (λ _, False) m) as Hwp
    by (apply wp_mpn_div_qr; auto).
  apply wp_Ok_inv in Hwp as ([] & m' & Hrun & lq & lr & Hlq & Hwq & Hlr & Hwr & Heq & Hlt & Hqh & Hrh & Hc).
  pose proof (val_bound lr Hwr) as Hb. exists lq, lr, m'. split_and!; try done.
  - apply Z.div_unique with (val lr); lia.
  - apply Z.mod_unique with (val lq); lia.
  - eapply changed_holds; [exact Hc| |done]. intros c Hcd [Hcn|Hcq].
    + unfold apart, within in *. lia.
    + by eapply qapart_not.
Qed.

(** C39: [mpn_div_qr_1] returns the remainder by one limb and writes the quotient, also over
    the numerator; a power of two takes the way of a mask and a shift (or of a copy for 1),
    every other divisor that of the precomputed reciprocal, and they agree. *)
Theorem mpn_div_qr_1_correct qp np l d m :
  words l → l ≠ [] → 0 < d < WB → mem_ok m → holds m np l → qspace m qp (length l) →
  match qp with Some p => p = np ∨ apart p (length l) np (length l) | None => True end →
  ∃ lq m', mpn_div_qr_1 qp np (Z.of_nat (length l)) d m = Ok (val l mod d, m') ∧
    length lq = length l ∧ words lq ∧ val lq = val l / d ∧ qwrites m qp lq m'.
Proof.
  intros Hw Hne Hd Hm Hh Hqs Hq.
  assert (wp (mpn_div_qr_1 qp np (Z.of_nat (length l)) d)
    (λ r m', ∃ lq, r = val l mod d ∧ length lq = length l ∧ words lq ∧ val lq = val l / d ∧ qwrites m qp lq m')
    (λ _, False) m) as Hwp by (apply wp_mpn_div_qr_1; eauto 10).
  apply wp_Ok_inv in Hwp as (r & m' & Hrun & lq & -> & ?). by exists lq, m'.
Qed.

(** The reciprocal that [mpn_invert_3by2] computes from halves of limbs and corrections
    is the reference value [(B^3 - 1) / (u1 B + u0) - B], and the reciprocal of a single
    limb is [(B^2 - 1) / u1 - B]. *)
Theorem invert_3by2_correct u1 u0 :
  GMP_LIMB_HIGHBIT ≤ u1 < WB → word u0 →
  mpn_invert_3by2 u1 u0 = Ok ((WB * WB * WB - 1) / (u1 * WB + u0) - WB) ∧
  mpn_invert_limb u1 = Ok ((WB * WB - 1) / u1 - WB).
Proof.
  change GMP_LIMB_HIGHBIT with 9223372036854775808. intros H1 H0. split.
  - destruct (mpn_invert_3by2_spec u1 H1 u0 H0) as (v & -> & _ & Hr). f_equal.
    apply recip2_unique; [unfold word, WB in *; lia|done].
  - destruct (mpn_invert_3by2_spec u1 H1 0 ltac:(done)) as (v & Hv & Hr & _). unfold mpn_invert_limb. rewrite Hv. f_equal.
    apply recip1_unique; [lia|auto].
Qed.

(** ** Witnesses *)

Lemma mem_ok_of bs : mem_ok (mem_of bs).
Proof.
  intros [b o]. unfold cell, mem_of. cbn. destruct (list_to_map _ !! b) as [a|] eqn:Hb; [intros _|by intros []].
  apply elem_of_list_to_map_2, elem_of_lookup_imap in Hb as (i & a' & [= -> ->] & Hi). apply lookup_lt_Some in Hi. lia.
Qed.

(** Five limbs by three with a shift, which takes the longest way *)
Definition div_n : list Z := [3; 1; GMP_LIMB_MAX; 0; 17].
Definition div_d : list Z := [GMP_LIMB_MAX; 9; 2].
Definition div_demo : mem := mem_of [Some <$> div_n; Some <$> div_d; replicate 3 None].

Lemma mpn_div_qr_correct_witness :
  ∃ lq lr m', mpn_div_qr (Some (3%positive, 0)) (1%positive, 0) 5 (2%positive, 0) 3 div_demo = Ok (tt, m') ∧
    length lq = 3%nat ∧ words lq ∧ val lq = val div_n / val div_d ∧
    length lr = 3%nat ∧ words lr ∧ val lr = val div_n mod val div_d ∧
    holds m' (3%positive, 0) lq ∧ holds m' (1%positive, 0) lr ∧ holds m' (2%positive, 0) div_d ∧
    changed div_demo m' (λ c, within c (1%positive, 0) 5 ∨ within c (3%positive, 0) 3).
Proof.
  apply (mpn_div_qr_correct (Some (3%positive, 0)) (1%positive, 0) div_n (2%positive, 0) div_d div_demo);
    demo_side; try (cbn; lia); try apply mem_ok_of; try (intros x Hx; by injection Hx as <-).
Defined.

Lemma mpn_div_qr_1_correct_witness :
  ∃ lq m', mpn_div_qr_1 (Some (1%positive, 0)) (1%positive, 0) 5 10 div_demo = Ok (val div_n mod 10, m') ∧
    length lq = 5%nat ∧ words lq ∧ val lq = val div_n / 10 ∧ qwrites div_demo (Some (1%positive, 0)) lq m'.
Proof.
  apply (mpn_div_qr_1_correct (Some (1%positive, 0)) (1%positive, 0) div_n 10 div_demo);
    demo_side. apply mem_ok_of.
Defined.

Lemma invert_3by2_correct_witness :
  mpn_invert_3by2 GMP_LIMB_HIGHBIT 5
    = Ok ((WB * WB * WB - 1) / (GMP_LIMB_HIGHBIT * WB + 5) - WB) ∧
  mpn_invert_limb GMP_LIMB_HIGHBIT = Ok ((WB * WB - 1) / GMP_LIMB_HIGHBIT - WB).
Proof. apply (invert_3by2_correct GMP_LIMB_HIGHBIT 5); done. Defined.
