(* ===== verification/MpnPreinv.v ===== *)
(** * Division with an inverse that is kept

    What [mpn_div_qr_invert] promises for [mpn_div_qr_preinv] when both are called from
    outside, with a divisor of any length that is shifted once and used many times. *)

From S2P Require Import Prelude CString Queue State UInt64 Mpn MpnMem MpnThm MpnBits MpnDiv MpnInv MpnDivThm MpnDivPi1 MpnCorrect MpnDivQr.

(** [inv] serves to divide by [d] when the divisor in memory is [ld], which is [d] shifted. *)
Record inverse_of (d : Z) (ld : list Z) (inv : gmp_div_inverse) : Prop := mk_inverse_of {
  inv_words : words ld;
  inv_nonempty : ld ≠ [];
  inv_range : 0 ≤ inv_shift inv < 64;
  inv_shifted : val ld = d * 2 ^ inv_shift inv;
  inv_one : length ld = 1%nat → inv_ok1 d inv;
  inv_two : length ld = 2%nat → inv_ok2 d inv;
  inv_many : (3 ≤ length ld)%nat → ∃ lo d0 d1, ld = lo ++ [d0; d1] ∧ 9223372036854775808 ≤ d1 < WB ∧ inv_d1 inv = d1 ∧ inv_d0 inv = Some d0 ∧
    recip2 (d1 * WB + d0) (inv_di inv)
}.

(** The divisor itself, when it is shifted already *)
Lemma inverse_unshift d ld inv : inverse_of d ld inv →
  inverse_of (d * 2 ^ inv_shift inv) ld (mk_inv 0 (inv_d1 inv) (inv_d0 inv) (inv_di inv)).
Proof.
  intros [H1 H2 H3 H4 H5 H6 H7]. split; cbn [inv_shift inv_d1 inv_d0 inv_di]; rewrite ?Z.mul_1_r; try done.
  - intros Hl. destruct (H5 Hl) as (_ & E1 & E2 & E3). split; cbn [inv_shift inv_d1 inv_d0 inv_di]; [lia|]. by rewrite Z.mul_1_r.
  - intros Hl. destruct (H6 Hl) as (_ & d0 & E0 & E1 & E2 & E3 & E4). split; cbn [inv_shift inv_d1 inv_d0 inv_di]; [lia|]. exists d0. by rewrite Z.mul_1_r.
Qed.

Lemma wp_mpn_div_qr_preinv np l dp ld d inv m Q E :
  inverse_of d ld inv → (length ld ≤ length l)%nat → words l → mem_ok m → holds m np l → holds m dp ld → apart np (length l) dp (length ld) →
  (∀ m' lr, length lr = length ld → words lr → val lr = val l mod d → holds m' np lr → changed m m' (λ c, within c np (length l)) → Q tt m') →
  wp (mpn_div_qr_preinv None np (Z.of_nat (length l)) dp (Z.of_nat (length ld)) inv) Q E m.
Proof.
  intros Hinv Hle Hw Hm Hh Hd Ha HQ. pose proof Hinv as [Hwd Hne Hr Hv H1 H2 H3].
  assert (∀ j m', div_post m None j np (length l) (val l) d (length ld) m' → Q tt m') as HQ2.
  { intros j m' (lq & lr & _ & _ & Hlr & Hwr & He & Hlt & _ & Hhr & Hc). apply (HQ m' lr); try done.
    - apply Z.mod_unique with (val lq); [|lia]. pose proof (val_bound lr Hwr). lia.
    - eapply changed_mono; [exact Hc|]. intros q [Hq|[]]. done. }
  assert (length ld = 1 ∨ length ld = 2 ∨ 3 ≤ length ld)%nat as [Hl|[Hl|Hl]] by (destruct ld; [done|cbn; lia]).
  - unfold mpn_div_qr_preinv. rewrite Hl in *. apply wp_bind, wp_massert; [done|]. apply wp_bind, wp_massert; [apply Z.leb_le; lia|]. cbn [Z.eqb Z.of_nat].
    apply (wp_mpn_div_qr_1_store None np l d); try done; [by intros ->; cbn in Hle; lia|by apply H1|]. apply HQ2.
  - unfold mpn_div_qr_preinv. rewrite Hl in *. apply wp_bind, wp_massert; [done|]. apply wp_bind, wp_massert; [apply Z.leb_le; lia|].
    apply (wp_mpn_div_qr_2_preinv None np l d); try done; [by apply H2|]. apply HQ2.
  - destruct (H3 Hl) as (lo & d0 & d1 & -> & Hd1 & Hi1 & Hi0 & Hrec). rewrite length_app in *. cbn [length] in *.
    apply Forall_app in Hwd as [Hwlo [Hwd0 _]%Forall_cons].
    eapply (wp_div_qr_preinv_long None np l dp lo d0 d1 d inv (length l - (length lo + 1))); try done; try lia. apply HQ2.
Qed.

(** ** The inverse of a normal divisor *)

(** [inv] is ready for the divisor [ld] after a shift. *)
Definition prepared (ld : list Z) (inv : gmp_div_inverse) : Prop :=
  0 ≤ inv_shift inv < 64 ∧
  ∀ lt c, length lt = length ld → words lt → 0 ≤ c → val lt + wpow (length ld) * c = val ld * 2 ^ inv_shift inv → c = 0 ∧ inverse_of (val ld) lt inv.

(** A number of [n] limbs whose shift has a carry 0 *)
Lemma no_carry n v c w : 0 ≤ v < wpow n → 0 ≤ c → v + wpow n * c = w → w < wpow n → c = 0.
Proof. intros Hv Hc He Hw. pose proof (wpow_pos n). nia. Qed.

Lemma wp_mpn_div_qr_invert dp ld m Q E :
  ld ≠ [] → words ld → normal ld → holds m dp ld → (∀ inv, prepared ld inv → Q inv m) → wp (mpn_div_qr_invert dp (Z.of_nat (length ld))) Q E m.
Proof.
  intros Hne Hw Hn Hh HQ. assert (length ld = 1 ∨ length ld = 2 ∨ 3 ≤ length ld)%nat as [Hl|[Hl|Hl]] by (destruct ld; [done|cbn; lia]).
  - destruct ld as [|d [|? ?]]; try done. apply Forall_cons in Hw as [Hwd _]. assert (d ≠ 0) as Hd0 by (by apply Hn). apply holds_cons in Hh as [Hd _].
    destruct (mpn_div_qr_1_invert_spec d ltac:(unfold word in *; lia)) as (inv & Hinv & Hok). unfold mpn_div_qr_invert. apply wp_bind, wp_massert; [done|].
    apply wp_bind. eapply wp_load; [done|]. eapply wp_lift_ok; [done|]. apply HQ. pose proof Hok as (Hr & Hd1 & Hb & _). split; [done|].
    intros lt c Hlt Hwt Hc Hv. cbn [length val] in *. rewrite Z.mul_0_r, Z.add_0_r in *. pose proof (val_bound lt Hwt) as Hvb. rewrite Hlt in Hvb.
    assert (c = 0) as -> by (eapply no_carry; [exact Hvb|done|exact Hv|change (wpow 1) with WB; lia]). split; [done|]. split; try done; try lia. by intros ->.
  - destruct ld as [|d0 [|d1 [|? ?]]]; try done. apply Forall_cons in Hw as [Hwd0 [Hwd1 _]%Forall_cons]. assert (d1 ≠ 0) as Hd0 by (by apply Hn).
    apply holds_cons in Hh as [Hd [Hd1 _]%holds_cons]. destruct (mpn_div_qr_2_invert_spec d1 d0 ltac:(unfold word in *; lia) Hwd0) as (inv & Hinv & Hok).
    unfold mpn_div_qr_invert. apply wp_bind, wp_massert; [done|]. do 2 (apply wp_bind; eapply wp_load; [done|]). eapply wp_lift_ok; [done|]. apply HQ.
    pose proof Hok as (Hr & e0 & He0 & Hwe0 & Hde & Hb & _). split; [done|]. replace (d1 * WB + d0) with (val [d0; d1]) in * by (cbn [val]; lia).
    intros lt c Hlt Hwt Hc Hv. cbn [length] in *. pose proof (val_bound lt Hwt) as Hvb. rewrite Hlt in Hvb.
    assert (c = 0) as -> by (eapply no_carry; [exact Hvb|done|exact Hv|rewrite <- Hde; change (wpow 2) with (WB * WB); unfold word in Hwe0; nia]). split; [done|].
    split; try done; try lia. by intros ->.
  - destruct (long_divisor_split ld Hl) as (dl & x & y0 & y1 & -> & Hlen). apply Forall_app in Hw as [Hwdl [Hx [Hy0 [Hy1 _]%Forall_cons]%Forall_cons]%Forall_cons].
    assert (y1 ≠ 0) as Hy1n. { apply Hn. replace (dl ++ [x; y0; y1]) with ((dl ++ [x; y0]) ++ [y1]) by (by rewrite <- app_assoc). apply last_snoc. }
    eapply (wp_invert_long dp dl x y0 y1); try done. intros inv h lw Hs Hi1 Hi0 Hhr Hlw Hrec Hfit Hpos Hzero. apply HQ. split; [done|]. intros lt c Hlt Hwt Hc Hv.
    assert (c = 0 ∧ ∃ lo, lt = lo ++ [lw; h]) as (-> & lo & Elt).
    { destruct (Z.ltb_spec 0 (inv_shift inv)) as [Hs0|Hs0].
      - destruct (Hpos Hs0) as [Eh El]. destruct (shifted_divisor dl x y0 y1 (inv_shift inv) Hwdl Hx Hy0 ltac:(unfold word in *; lia) ltac:(lia) Hfit lt c)
          as (-> & lo & -> & _); [lia|done|done|by replace (length dl + 1 + 2)%nat with (length (dl ++ [x; y0; y1])) by lia|]. split; [done|]. exists lo. by rewrite Eh, El.
      - assert (inv_shift inv = 0) as Hsz by lia. destruct (Hzero Hsz) as [-> ->]. rewrite Hsz, Z.mul_1_r in Hv. assert (words (dl ++ [x; y0; y1])) as Hwd by (apply Forall_app; split; [done|by repeat apply words_cons]).
        pose proof (val_bound lt Hwt) as Hvb. rewrite Hlt in Hvb. assert (c = 0) as -> by (eapply no_carry; [exact Hvb|done|exact Hv|by apply val_bound]).
        split; [done|]. exists (dl ++ [x]). replace ((dl ++ [x]) ++ [y0; y1]) with (dl ++ [x; y0; y1]) by (by rewrite <- app_assoc). apply val_inj; [done|done|done|lia]. }
    split; [done|]. split; try done; try lia; [by intros ->; destruct lo|]. intros _. exists lo, lw, h. done.
Qed.
