(* ===== verification/MpnStr.v ===== *)
(** * Base conversion of limb arrays (examples/multiprecision/mini-gmp/mini-gmp.c)

    [mpn_get_str] and [mpn_set_str]: numbers to and from digit strings.  A digit is a
    byte with the value of the digit (not a character), the highest digit comes first.
    The digit array [sp] is not limb memory; it is an argument and part of the result
    of the functions that write it. *)

From S2P Require Import Prelude CString Queue State UInt64 Mpn MpnDiv.

Definition u8 (x : Z) : Z := x mod 256.

(** A limb shifted by [n] bits; the shift is not defined for [n] outside [0, 63]. *)
Definition shift_ok (n : Z) : outcome unit :=
  if (0 <=? n) && (n <? GMP_LIMB_BITS) then Ok tt else Err BadShift.

Definition mpn_base_power_of_two_p (b : Z) : Z :=
  if b =? 2 then 1
  else if b =? 4 then 2
  else if b =? 8 then 3
  else if b =? 16 then 4
  else if b =? 32 then 5
  else if b =? 64 then 6
  else if b =? 128 then 7
  else if b =? 256 then 8
  else 0.

Record mpn_base_info := mk_info {
  info_exp : Z;
  info_bb : Z
}.

(** The loop does not end for [b] = 1. *)
Fixpoint base_info_loop (fuel : nat) (b m p exp : Z) : outcome (Z * Z) :=
  if p <=? m then
    match fuel with
    | O => Err OutOfFuel
    | S fuel => base_info_loop fuel b m (u64 (p * b)) (exp + 1)
    end
  else Ok (exp, p).
Definition mpn_get_base_info (b : Z) : outcome mpn_base_info :=
  if b =? 0 then Err DivisionByZero
  else
    let m := GMP_LIMB_MAX / b in
    '(exp, p) ← base_info_loop 64 b m b 1;
    Ok (mk_info exp p).

Definition mpn_limb_size_in_base_2 (u : Z) : outcome Z :=
  _ ← c_assert (0 <? u);
  shift ← gmp_clz u;
  Ok (GMP_LIMB_BITS - shift).

(** ** Numbers to digits *)

(** [j] digits are left to be written, from the last one on. *)
Fixpoint get_str_bits_loop (j : nat) (sp : arr Z) (bits mask : Z) (up : ptr) (un i shift : Z) : L (arr Z) :=
  match j with
  | O => mret sp
  | S j =>
     x ← load (padd up i);
     _ ← lift (shift_ok shift);
     let digit := u8 (Z.shiftr x shift) in
     let shift := shift + bits in
     '(digit, i, shift) ←
       (if GMP_LIMB_BITS <=? shift then
          let i := i + 1 in
          if i <? un then
            let shift := shift - GMP_LIMB_BITS in
            x ← load (padd up i);
            _ ← lift (shift_ok (bits - shift));
            mret (u8 (Z.lor digit (u64 (Z.shiftl x (bits - shift)))), i, shift)
          else mret (digit, i, shift)
        else mret (digit, i, shift));
     sp ← lift (arr_set sp (Z.of_nat j) (Z.land digit mask));
     get_str_bits_loop j sp bits mask up un i shift
  end.

Definition mpn_get_str_bits (sp : arr Z) (bits : Z) (up : ptr) (un : Z) : L (Z * arr Z) :=
  x ← load (padd up (un - 1));
  size ← lift (mpn_limb_size_in_base_2 x);
  let sn := u64 (u64 (u64 ((un - 1) * GMP_LIMB_BITS + size) + bits) - 1) / bits in
  let mask := u8 (Z.shiftl 1 bits - 1) in
  sp ← get_str_bits_loop (Z.to_nat sn) sp bits mask up un 0 0;
  mret (sn, sp).

(** Digits from the lowest on, written at [sp + o]; returns their number. *)
Fixpoint limb_get_str_loop (fuel : nat) (sp : arr Z) (o i w : Z) (binv : gmp_div_inverse) : outcome (Z * arr Z) :=
  if 0 <? w then
    match fuel with
    | O => Err OutOfFuel
    | S fuel =>
       let shift := inv_shift binv in
       _ ← shift_ok (GMP_LIMB_BITS - shift);
       let h := Z.shiftr w (GMP_LIMB_BITS - shift) in
       let l := u64 (Z.shiftl w shift) in
       let '(w, r) := gmp_udiv_qrnnd_preinv h l (inv_d1 binv) (inv_di binv) in
       _ ← c_assert (u64 (Z.shiftl r (GMP_LIMB_BITS - shift)) =? 0);
       let r := Z.shiftr r shift in
       sp ← arr_set sp (o + i) (u8 r);
       limb_get_str_loop fuel sp o (i + 1) w binv
    end
  else Ok (i, sp).
Definition mpn_limb_get_str (sp : arr Z) (o w : Z) (binv : gmp_div_inverse) : outcome (Z * arr Z) :=
  limb_get_str_loop 64 sp o 0 w binv.

(** [for (; done < info->exp; done++) sp[sn++] = 0;] *)
Fixpoint pad_zeros (n : nat) (sp : arr Z) (sn : Z) : outcome (Z * arr Z) :=
  match n with
  | O => Ok (sn, sp)
  | S n => sp ← arr_set sp sn 0; pad_zeros n sp (sn + 1)
  end.

(** The [do]-[while] loop; returns the digits written and the limbs left. *)
Fixpoint get_str_other_loop (fuel : nat) (sp : arr Z) (sn : Z) (info : mpn_base_info)
    (binv bbinv : gmp_div_inverse) (up : ptr) (un : Z) : L (Z * arr Z) :=
  match fuel with
  | O => raise OutOfFuel
  | S fuel =>
     w ← mpn_div_qr_1_preinv (Some up) up un bbinv;
     top ← load (padd up (un - 1));
     let un := un - b2z (top =? 0) in
     '(written, sp) ← lift (mpn_limb_get_str sp sn w binv);
     '(sn, sp) ← lift (pad_zeros (Z.to_nat (info_exp info - written)) sp (sn + written));
     if 1 <? un then get_str_other_loop fuel sp sn info binv bbinv up un
     else mret (sn, sp)
  end.

Fixpoint reverse_loop (fuel : nat) (sp : arr Z) (sn i : Z) : outcome (arr Z) :=
  if 2 * i + 1 <? sn then
    match fuel with
    | O => Err OutOfFuel
    | S fuel =>
       t ← arr_get sp i;
       x ← arr_get sp (sn - i - 1);
       sp ← arr_set sp i x;
       sp ← arr_set sp (sn - i - 1) t;
       reverse_loop fuel sp sn (i + 1)
    end
  else Ok sp.

(** Each division by [bb] takes at least half a limb off the number. *)
Definition mpn_get_str_other (sp : arr Z) (base : Z) (info : mpn_base_info) (up : ptr) (un : Z) : L (Z * arr Z) :=
  binv ← lift (mpn_div_qr_1_invert base);
  '(sn, sp) ←
    (if 1 <? un then
       bbinv ← lift (mpn_div_qr_1_invert (info_bb info));
       get_str_other_loop (Z.to_nat (2 * un)) sp 0 info binv bbinv up un
     else mret (0, sp));
  x ← load up;
  '(written, sp) ← lift (mpn_limb_get_str sp sn x binv);
  let sn := sn + written in
  sp ← lift (reverse_loop (Z.to_nat sn) sp sn 0);
  mret (sn, sp).

Definition mpn_get_str (sp : arr Z) (base : Z) (up : ptr) (un : Z) : L (Z * arr Z) :=
  _ ← massert (0 <? un);
  x ← load (padd up (un - 1));
  _ ← massert (0 <? x);
  let bits := mpn_base_power_of_two_p base in
  if negb (bits =? 0) then mpn_get_str_bits sp bits up un
  else
    info ← lift (mpn_get_base_info base);
    mpn_get_str_other sp base info up un.

(** ** Digits to numbers *)

Fixpoint set_str_bits_loop (j : nat) (rp : ptr) (sp : arr Z) (bits rn shift : Z) : L Z :=
  match j with
  | O => mret rn
  | S j =>
     d ← lift (arr_get sp (Z.of_nat j));
     if shift =? 0 then
       _ ← store (padd rp rn) d;
       set_str_bits_loop j rp sp bits (rn + 1) (shift + bits)
     else
       x ← load (padd rp (rn - 1));
       _ ← lift (shift_ok shift);
       _ ← store (padd rp (rn - 1)) (Z.lor x (u64 (Z.shiftl d shift)));
       let shift := shift + bits in
       if GMP_LIMB_BITS <=? shift then
         let shift := shift - GMP_LIMB_BITS in
         if 0 <? shift then
           _ ← lift (shift_ok (bits - shift));
           _ ← store (padd rp rn) (Z.shiftr d (bits - shift));
           set_str_bits_loop j rp sp bits (rn + 1) shift
         else set_str_bits_loop j rp sp bits rn shift
       else set_str_bits_loop j rp sp bits rn shift
  end.
Definition mpn_set_str_bits (rp : ptr) (sp : arr Z) (sn bits : Z) : L Z :=
  rn ← set_str_bits_loop (Z.to_nat sn) rp sp bits 0 0;
  mpn_normalized_size rp rn.

(** [n] more digits into the limb [w]; returns [w] and the next index. *)
Fixpoint digits_loop (n : nat) (sp : arr Z) (j w b : Z) : outcome (Z * Z) :=
  match n with
  | O => Ok (w, j)
  | S n => d ← arr_get sp j; digits_loop n sp (j + 1) (u64 (u64 (w * b) + d)) b
  end.

Fixpoint set_str_other_loop (fuel : nat) (rp : ptr) (sp : arr Z) (sn b : Z) (info : mpn_base_info) (j rn : Z) : L (Z * Z) :=
  if j <? sn then
    match fuel with
    | O => raise OutOfFuel
    | S fuel =>
       w ← lift (arr_get sp j);
       '(w, j) ← lift (digits_loop (Z.to_nat (info_exp info - 1)) sp (j + 1) w b);
       cy ← mpn_mul_1 rp rp rn (info_bb info);
       c ← mpn_add_1 rp rp rn w;
       let cy := u64 (cy + c) in
       if 0 <? cy then
         _ ← store (padd rp rn) cy;
         set_str_other_loop fuel rp sp sn b info j (rn + 1)
       else set_str_other_loop fuel rp sp sn b info j rn
    end
  else mret (rn, j).

Definition mpn_set_str_other (rp : ptr) (sp : arr Z) (sn b : Z) (info : mpn_base_info) : L Z :=
  _ ← massert (0 <? sn);
  let k := 1 + (sn - 1) mod info_exp info in
  w ← lift (arr_get sp 0);
  '(w, j) ← lift (digits_loop (Z.to_nat (k - 1)) sp 1 w b);
  _ ← store rp w;
  '(rn, j) ← set_str_other_loop (Z.to_nat sn) rp sp sn b info j 1;
  _ ← massert (j =? sn);
  mret rn.

Definition mpn_set_str (rp : ptr) (sp : arr Z) (sn base : Z) : L Z :=
  if sn =? 0 then mret 0
  else
    let bits := mpn_base_power_of_two_p base in
    if negb (bits =? 0) then mpn_set_str_bits rp sp sn bits
    else
      info ← lift (mpn_get_base_info base);
      mpn_set_str_other rp sp sn base info.
