(* ===== verification/MpnStrThm.v ===== *)
(** * Digit strings: the values they denote, and the conversions

    A list of digits denotes a number with the lowest digit first ([ldigits]) or with the
    highest first ([digits_val]).  The lemmas follow the functions of [MpnStr]: the digits
    of one limb, the repeated division by the largest power of the base that fits a limb,
    the reversal, the bit-wise conversions, and the two ways back. *)

From S2P Require Import Prelude CString Queue State UInt64 Mpn MpnMem MpnThm MpnBits MpnDiv MpnInv MpnDivThm MpnDivPi1 MpnCorrect MpnDivQr MpnStr.

(** ** Values *)

Definition ldigits (b : Z) (l : list Z) : Z := foldr (λ d v, d + b * v) 0 l.
Definition digits_val (b : Z) (l : list Z) : Z := fold_left (λ v d, v * b + d) l 0.
Abbreviation digits b := (Forall (λ d, 0 ≤ d < b)).

Lemma ldigits_app b l k : ldigits b (l ++ k) = ldigits b l + b ^ Z.of_nat (length l) * ldigits b k.
Proof.
  induction l as [|d l IH]; cbn [length app ldigits foldr]; [rewrite Z.pow_0_r; unfold ldigits; lia|].
  fold (ldigits b (l ++ k)) (ldigits b l). rewrite IH, Nat2Z.inj_succ, Z.pow_succ_r by lia. lia.
Qed.

Lemma digits_val_snoc b l d : digits_val b (l ++ [d]) = digits_val b l * b + d.
Proof. unfold digits_val. by rewrite fold_left_app. Qed.

Lemma digits_val_ldigits b l : digits_val b l = ldigits b (reverse l).
Proof.
  induction l as [|d l IH] using rev_ind; [done|]. rewrite digits_val_snoc, IH, reverse_snoc.
  cbn [ldigits foldr]. unfold ldigits. lia.
Qed.

Lemma digits_val_app b l k : digits_val b (l ++ k) = digits_val b l * b ^ Z.of_nat (length k) + digits_val b k.
Proof. rewrite !digits_val_ldigits, reverse_app, ldigits_app, length_reverse. lia. Qed.

Section values.
Context (b : Z) (Hb : 2 ≤ b).

Lemma pow_base_pos n : 0 < b ^ Z.of_nat n.
Proof. apply Z.pow_pos_nonneg; lia. Qed.

Lemma ldigits_bound l : digits b l → 0 ≤ ldigits b l < b ^ Z.of_nat (length l).
Proof.
  induction 1 as [|d l Hd Hl IH]; [cbn; lia|]. cbn [length ldigits foldr]. fold (ldigits b l).
  rewrite Nat2Z.inj_succ, Z.pow_succ_r by lia. nia.
Qed.

Lemma digits_reverse l : digits b l → digits b (reverse l).
Proof. intros H. by rewrite reverse_Permutation. Qed.

Lemma digits_val_bound l : digits b l → 0 ≤ digits_val b l < b ^ Z.of_nat (length l).
Proof. intros H. rewrite digits_val_ldigits. rewrite <- (length_reverse l). by apply ldigits_bound, digits_reverse. Qed.

(** A number whose highest digit is not 0 is at least the power of the digits below it. *)
Lemma ldigits_normal l : digits b l → normal l → l ≠ [] → b ^ (Z.of_nat (length l) - 1) ≤ ldigits b l.
Proof.
  intros Hd Hn Hne. destruct l as [|x l _] using rev_ind; [done|]. rewrite ldigits_app, length_app. cbn [length].
  replace (Z.of_nat (length l + 1) - 1) with (Z.of_nat (length l)) by lia.
  apply Forall_app in Hd as [Hd [Hx _]%Forall_cons]. assert (x ≠ 0) by (apply Hn, last_snoc).
  pose proof (ldigits_bound l Hd). pose proof (pow_base_pos (length l)). cbn [ldigits foldr]. nia.
Qed.

Lemma ldigits_inj l : ∀ k, digits b l → digits b k → length l = length k → ldigits b l = ldigits b k → l = k.
Proof.
  induction l as [|x l IH]; intros [|y k] Hl Hk Hlen Hv; try done.
  apply Forall_cons in Hl as [Hx Hl]. apply Forall_cons in Hk as [Hy Hk]. cbn [ldigits foldr length] in *.
  fold (ldigits b l) (ldigits b k) in Hv. injection Hlen as Hlen.
  assert (ldigits b l = ldigits b k) as He.
  { rewrite (Z.div_unique_pos (x + b * ldigits b l) b (ldigits b l) x) by lia.
    symmetry. apply (Z.div_unique_pos _ _ _ y); lia. }
  f_equal; [lia|]. by apply IH.
Qed.

(** Numbers without leading zeros have one representation. *)
Lemma ldigits_length l k :
  digits b l → digits b k → normal l → l ≠ [] → ldigits b l = ldigits b k → (length l ≤ length k)%nat.
Proof.
  intros Hl Hk Hn Hne Hv. pose proof (ldigits_normal l Hl Hn Hne) as H1. pose proof (ldigits_bound k Hk) as [_ H2].
  rewrite Hv in H1. destruct (Nat.le_gt_cases (length l) (length k)) as [|Hgt]; [done|].
  assert (b ^ Z.of_nat (length k) ≤ b ^ (Z.of_nat (length l) - 1)) by (apply Z.pow_le_mono_r; lia). lia.
Qed.
End values.

(** ** The digit array *)

Lemma arr_set_next (ls : list Z) (rest : arr Z) x i :
  i = Z.of_nat (length ls) → rest ≠ [] →
  arr_set ((Some <$> ls) ++ rest) i x = Ok ((Some <$> (ls ++ [x])) ++ drop 1 rest).
Proof.
  intros -> Hne. destruct rest as [|r rest]; [done|]. unfold arr_set, arr_in, arr_len.
  rewrite length_app, length_fmap. cbn [length].
  rewrite (proj2 (Z.leb_le _ _)), (proj2 (Z.ltb_lt _ _)) by lia. cbn [andb]. f_equal.
  rewrite Nat2Z.id, insert_app_r_alt; rewrite length_fmap; [|done]. rewrite Nat.sub_diag. cbn.
  by rewrite fmap_app, <- app_assoc.
Qed.

Lemma arr_get_at (ls : list Z) (rest : arr Z) i x :
  0 ≤ i → ls !! Z.to_nat i = Some x → arr_get ((Some <$> ls) ++ rest) i = Ok x.
Proof.
  intros Hi Hx. unfold arr_get, arr_in, arr_len. pose proof (lookup_lt_Some _ _ _ Hx).
  rewrite length_app, length_fmap, (proj2 (Z.leb_le _ _)), (proj2 (Z.ltb_lt _ _)) by lia. cbn [andb].
  by rewrite lookup_app_l, list_lookup_fmap, Hx by (rewrite length_fmap; lia).
Qed.

Lemma arr_set_at (ls : list Z) (rest : arr Z) i x :
  0 ≤ i < Z.of_nat (length ls) → arr_set ((Some <$> ls) ++ rest) i x = Ok ((Some <$> <[Z.to_nat i := x]> ls) ++ rest).
Proof.
  intros Hi. unfold arr_set, arr_in, arr_len. rewrite length_app, length_fmap, (proj2 (Z.leb_le _ _)), (proj2 (Z.ltb_lt _ _)) by lia.
  cbn [andb]. by rewrite insert_app_l, list_fmap_insert by (rewrite length_fmap; lia).
Qed.

(** ** The largest power of the base in a limb *)

Definition info_ok (b : Z) (info : mpn_base_info) : Prop :=
  1 ≤ info_exp info ∧ info_bb info = b ^ info_exp info ∧ info_bb info < WB ∧ WB ≤ info_bb info * b.

Lemma base_info_loop_spec b fuel : ∀ p exp,
  2 ≤ b < WB → 1 ≤ exp → p = b ^ exp → p < WB → 65 ≤ Z.of_nat fuel + exp →
  ∃ e q, base_info_loop fuel b (GMP_LIMB_MAX / b) p exp = Ok (e, q) ∧ 1 ≤ e ∧ q = b ^ e ∧ q < WB ∧ WB ≤ q * b.
Proof.
  induction fuel as [|fuel IH]; intros p exp Hb He Hp Hlt Hf; cbn [base_info_loop];
    destruct (Z.leb_spec p (GMP_LIMB_MAX / b)) as [Hle|Hgt].
  - exfalso. assert (2 ^ 65 ≤ b ^ exp).
    { etransitivity; [apply (Z.pow_le_mono_r 2 65 exp); lia|]. apply Z.pow_le_mono_l. lia. }
    unfold WB in *. lia.
  - exists exp, p. split_and!; try done; try lia. assert (GMP_LIMB_MAX < b * p); [|unfold GMP_LIMB_MAX, WB in *; lia].
    pose proof (Z.mul_succ_div_gt GMP_LIMB_MAX b ltac:(lia)). nia.
  - assert (p * b < WB) as Hpb.
    { pose proof (Z.mul_div_le GMP_LIMB_MAX b ltac:(lia)). unfold GMP_LIMB_MAX, WB in *. nia. }
    rewrite u64_small by (subst p; split; [apply Z.mul_nonneg_nonneg; [apply Z.pow_nonneg|]; lia|done]).
    apply IH; try lia. rewrite Z.pow_add_r, Z.pow_1_r by lia. by rewrite Hp.
  - exists exp, p. split_and!; try done; try lia. assert (GMP_LIMB_MAX < b * p); [|unfold GMP_LIMB_MAX, WB in *; lia].
    pose proof (Z.mul_succ_div_gt GMP_LIMB_MAX b ltac:(lia)). nia.
Qed.

Lemma mpn_get_base_info_spec b : 2 ≤ b < WB → ∃ info, mpn_get_base_info b = Ok info ∧ info_ok b info.
Proof.
  intros Hb. unfold mpn_get_base_info. rewrite (proj2 (Z.eqb_neq _ _)) by lia.
  destruct (base_info_loop_spec b 64 b 1) as (e & q & -> & He); try lia.
  eexists. split; [done|]. unfold info_ok. cbn. naive_solver.
Qed.

(** ** The digits of one limb *)

Section limb_digits.
Context (b : Z) (binv : gmp_div_inverse) (Hb : 2 ≤ b ≤ 256) (Hinv : inv_ok1 b binv).

Lemma binv_shift : 0 < inv_shift binv < 64.
Proof.
  destruct Hinv as (Hs & Hd & Hr & _). split; [|lia]. destruct (Z.eq_dec (inv_shift binv) 0) as [E|]; [|lia].
  rewrite E, Z.mul_1_r in Hd. lia.
Qed.

(** One division of [w] by the base with the shifted reciprocal *)
Lemma digit_step w q r :
  word w →
  gmp_udiv_qrnnd_preinv (Z.shiftr w (GMP_LIMB_BITS - inv_shift binv)) (u64 (Z.shiftl w (inv_shift binv)))
    (inv_d1 binv) (inv_di binv) = (q, r) →
  q = w / b ∧ u64 (Z.shiftl r (GMP_LIMB_BITS - inv_shift binv)) = 0 ∧ Z.shiftr r (inv_shift binv) = w mod b.
Proof.
  intros Hw Hdiv. pose proof binv_shift as Hs. destruct Hinv as (_ & Hd & Hr & Hrec). unfold GMP_LIMB_BITS in *.
  set (s := inv_shift binv) in *. destruct (two_parts s Hs) as (HW & Hp1 & Hp2).
  destruct (limb_shl w s Hw Hs) as (h & l & Eh & El & Hv & Rh & Rl). rewrite Eh, El in Hdiv.
  assert (Hh : 0 ≤ h < inv_d1 binv).
  { split; [lia|]. assert (h < 2 ^ s) by lia. nia. }
  assert (word (l * 2 ^ s)) as Hwl.
  { unfold word. rewrite HW. split; [nia|]. assert (l * 2 ^ s < 2 ^ (64 - s) * 2 ^ s) by (apply Z.mul_lt_mono_pos_r; lia). lia. }
  destruct (udiv_qrnnd_preinv_spec h _ _ _ q r Hr Hh Hwl Hrec Hdiv) as (Heq & Hrr & _).
  rewrite Hd in *. assert (r = 2 ^ s * (w - q * b)) as Hr2 by lia.
  assert (0 ≤ w - q * b < b) as Hq by nia.
  split; [apply (Z.div_unique_pos _ _ _ (w - q * b)); lia|]. split.
  - rewrite Hr2, Z.shiftl_mul_pow2 by lia. unfold u64. rewrite HW.
    replace (2 ^ s * (w - q * b) * 2 ^ (64 - s)) with ((w - q * b) * (2 ^ (64 - s) * 2 ^ s)) by lia.
    apply Z.mod_mul. lia.
  - rewrite Hr2, Z.shiftr_div_pow2, Z.mul_comm, Z.div_mul by lia. apply (Z.mod_unique_pos _ _ q); lia.
Qed.

Lemma limb_get_str_loop_spec fuel : ∀ ls rest o i w,
  0 ≤ w < 2 ^ Z.of_nat fuel → word w → w < b ^ Z.of_nat (length rest) → o + i = Z.of_nat (length ls) →
  ∃ ds, limb_get_str_loop fuel ((Some <$> ls) ++ rest) o i w binv
          = Ok (i + Z.of_nat (length ds), (Some <$> (ls ++ ds)) ++ drop (length ds) rest) ∧
    digits b ds ∧ normal ds ∧ ldigits b ds = w ∧ (length ds ≤ length rest)%nat.
Proof.
  induction fuel as [|fuel IH]; intros ls rest o i w Hf Hw Hroom Ho; cbn [limb_get_str_loop];
    destruct (Z.ltb_spec 0 w) as [Hpos|Hz];
    try (exists []; rewrite app_nil_r, Z.add_0_r; split_and!; [done|constructor|by intros x|cbn; lia|cbn; lia]).
  - cbn in Hf. lia.
  - pose proof binv_shift as Hs. unfold shift_ok. rewrite (proj2 (Z.leb_le _ _)), (proj2 (Z.ltb_lt _ _)) by (unfold GMP_LIMB_BITS; lia).
    cbn [andb mbind outcome_bind]. destruct (gmp_udiv_qrnnd_preinv _ _ _ _) as [q r] eqn:Hdiv.
    destruct (digit_step w q r Hw Hdiv) as (-> & -> & ->). rewrite Z.eqb_refl. cbn [c_assert mbind outcome_bind].
    assert (0 ≤ w mod b < b) as Hm by (apply Z.mod_pos_bound; lia). pose proof (Z.div_mod w b ltac:(lia)) as Hdm.
    assert (0 ≤ w / b < w) as Hq by (split; [apply Z.div_pos; lia|apply Z.div_lt; lia]).
    destruct rest as [|r0 rest]; [cbn in Hroom; lia|]. unfold u8. rewrite Z.mod_small by lia.
    rewrite arr_set_next by done. change (drop 1 (r0 :: rest)) with rest. cbn [mbind outcome_bind].
    destruct (IH (ls ++ [w mod b]) rest o (i + 1) (w / b)) as (ds & -> & Hd & Hn & Hv & Hl).
    + rewrite Nat2Z.inj_succ, Z.pow_succ_r in Hf by lia. nia.
    + unfold word in *. lia.
    + cbn [length] in Hroom. rewrite Nat2Z.inj_succ, Z.pow_succ_r in Hroom by lia. nia.
    + rewrite length_app. cbn. lia.
    + exists (w mod b :: ds). cbn [length drop]. rewrite <- app_assoc. cbn [app]. split; [do 2 f_equal; lia|].
      split; [by constructor|]. split; [|split; [cbn [ldigits foldr]; fold (ldigits b ds); lia|lia]].
      intros x Hx. destruct ds as [|d ds]; [|by apply Hn]. cbn in Hx, Hv. injection Hx as <-. lia.
Qed.
End limb_digits.

Lemma pad_zeros_spec n : ∀ ls (rest : arr Z),
  (n ≤ length rest)%nat →
  pad_zeros n ((Some <$> ls) ++ rest) (Z.of_nat (length ls))
  = Ok (Z.of_nat (length ls + n), (Some <$> (ls ++ replicate n 0)) ++ drop n rest).
Proof.
  induction n as [|n IH]; intros ls rest Hn; cbn [pad_zeros replicate].
  { by rewrite Nat.add_0_r, app_nil_r. }
  destruct rest as [|r rest]; cbn [length] in Hn; [lia|]. rewrite arr_set_next by done.
  change (drop 1 (r :: rest)) with rest. cbn [mbind outcome_bind].
  replace (Z.of_nat (length ls) + 1) with (Z.of_nat (length (ls ++ [0]))) by (rewrite length_app; cbn; lia).
  rewrite IH by lia. rewrite length_app, <- app_assoc. cbn [length app]. do 3 f_equal. lia.
Qed.

Lemma zeros_digits b n : 2 ≤ b → digits b (replicate n 0).
Proof. intros. apply Forall_replicate. lia. Qed.
Lemma ldigits_zeros b n : ldigits b (replicate n 0) = 0.
Proof. induction n as [|n IH]; [done|]. cbn. unfold ldigits in IH. rewrite IH. lia. Qed.

(** Reversal from both ends: [mid] is what is left to be reversed. *)
Lemma reverse_loop_spec fuel : ∀ (pre mid post : list Z) (rest : arr Z),
  length pre = length post → (length mid ≤ 2 * fuel + 1)%nat →
  reverse_loop fuel ((Some <$> (pre ++ mid ++ post)) ++ rest) (Z.of_nat (length (pre ++ mid ++ post))) (Z.of_nat (length pre))
  = Ok ((Some <$> (pre ++ reverse mid ++ post)) ++ rest).
Proof.
  induction fuel as [|fuel IH]; intros pre mid post rest Hl Hm; cbn [reverse_loop]; rewrite !length_app;
    destruct (Z.ltb_spec (2 * Z.of_nat (length pre) + 1) (Z.of_nat (length pre + (length mid + length post)))) as [Hc|Hc];
    try (destruct mid as [|x [|y mid]]; cbn [length] in *; [done|done|lia]); [lia|].
  destruct mid as [|x mid]; cbn [length] in *; [lia|]. destruct mid as [|y mid _] using rev_ind; cbn [length] in *; [lia|].
  rewrite length_app in *. cbn [length] in *.
  set (sn := Z.of_nat _). assert (sn - Z.of_nat (length pre) - 1 = Z.of_nat (length pre + S (length mid))) as Esn by (unfold sn; lia).
  rewrite (arr_get_at _ rest (Z.of_nat (length pre)) x); [|lia|by rewrite Nat2Z.id, lookup_app_r, Nat.sub_diag by lia].
  cbn [mbind outcome_bind]. rewrite Esn.
  assert ((pre ++ (x :: mid ++ [y]) ++ post) !! (length pre + S (length mid))%nat = Some y) as Hy.
  { rewrite lookup_app_r by lia. replace (length pre + S (length mid) - length pre)%nat with (S (length mid)) by lia.
    change (((mid ++ [y]) ++ post) !! length mid = Some y). rewrite <- app_assoc. by apply list_lookup_middle. }
  rewrite (arr_get_at _ rest _ y); [|lia|by rewrite Nat2Z.id]. cbn [mbind outcome_bind].
  assert (<[length pre := y]> (pre ++ (x :: mid ++ [y]) ++ post) = pre ++ (y :: mid ++ [y]) ++ post) as E1
    by (by rewrite insert_app_r_alt, Nat.sub_diag by lia).
  assert (<[(length pre + S (length mid))%nat := x]> (pre ++ (y :: mid ++ [y]) ++ post) = pre ++ (y :: mid ++ [x]) ++ post) as E2.
  { rewrite insert_app_r_alt by lia. replace (length pre + S (length mid) - length pre)%nat with (S (length mid)) by lia.
    change (pre ++ y :: <[length mid := x]> ((mid ++ [y]) ++ post) = pre ++ (y :: mid ++ [x]) ++ post).
    rewrite <- app_assoc, insert_app_r_alt, Nat.sub_diag by lia. cbn. by rewrite <- app_assoc. }
  do 2 (rewrite arr_set_at by (rewrite !length_app; cbn; rewrite length_app; cbn; lia); cbn [mbind outcome_bind];
    rewrite Nat2Z.id, ?E1, ?E2). cbn [app]. rewrite <- (app_assoc mid). cbn [app].
  replace (pre ++ y :: mid ++ x :: post) with ((pre ++ [y]) ++ mid ++ (x :: post)) by (by rewrite <- app_assoc).
  replace sn with (Z.of_nat (length ((pre ++ [y]) ++ mid ++ x :: post))) by (unfold sn; rewrite !length_app; cbn; lia).
  replace (Z.of_nat (length pre) + 1) with (Z.of_nat (length (pre ++ [y]))) by (rewrite length_app; cbn; lia).
  rewrite IH; [|rewrite length_app; cbn; lia|lia]. rewrite reverse_cons, reverse_snoc. by rewrite <- !app_assoc.
Qed.

(** ** Repeated division *)

Lemma normal_of_bound l : words l → wpow (length l - 1) ≤ val l → normal l.
Proof.
  intros Hw Hb x Hx ->. destruct l as [|y l _] using rev_ind; [done|]. rewrite last_snoc in Hx. injection Hx as ->.
  apply Forall_app in Hw as [Hw _]. pose proof (val_bound l Hw). rewrite val_app, length_app in Hb. cbn [val length] in Hb.
  replace (length l + 1 - 1)%nat with (length l) in Hb by lia. lia.
Qed.

(** At most one limb of a quotient by a limb is 0. *)
Lemma quotient_limbs l lq q w :
  words l → normal l → (2 ≤ length l)%nat → words lq → length lq = length l → 0 < q < WB →
  val l = val lq * q + w → 0 ≤ w < q →
  ∃ lo top l2, lq = lo ++ [top] ∧ Z.of_nat (length l) - b2z (top =? 0) = Z.of_nat (length l2) ∧
    words l2 ∧ normal l2 ∧ val l2 = val lq ∧ 0 < val l2 ∧ (1 ≤ length l2 ≤ length l)%nat ∧ ∃ z, lq = l2 ++ z.
Proof.
  intros Hw Hn Hlen Hwq Hlq Hq Hv Hr. destruct lq as [|top lo _] using rev_ind; [cbn in Hlq; lia|].
  pose proof (normal_bound l Hw Hn ltac:(by intros ->; cbn in Hlen; lia)) as Hlow. exists lo, top.
  rewrite length_app in Hlq. cbn in Hlq. pose proof Hwq as [Hwl [Hwt _]%Forall_cons]%Forall_app.
  assert (wpow (length l - 1) = WB * wpow (length l - 2)) as Hwp by (rewrite <- wpow_S; f_equal; lia).
  pose proof (wpow_pos (length l - 2)) as Hp.
  assert (wpow (length l - 2) ≤ val (lo ++ [top])) as Hlq2.
  { apply Z.lt_succ_r. apply (Z.mul_lt_mono_pos_r q); nia. }
  destruct (Z.eqb_spec top 0) as [->|Ht]; [exists lo|exists (lo ++ [top])].
  - rewrite val_app in *. cbn [val b2z] in *. split; [done|]. split; [lia|]. split; [done|].
    split; [apply normal_of_bound; [done|]; replace (length lo - 1)%nat with (length l - 2)%nat by lia; lia|].
    split; [lia|]. split; [lia|]. split; [lia|]. by exists [0].
  - split; [done|]. rewrite length_app. cbn [length b2z]. split; [lia|]. split; [done|].
    split; [intros x Hx; rewrite last_snoc in Hx; congruence|]. split; [done|]. split; [lia|]. split; [lia|].
    exists []. by rewrite app_nil_r.
Qed.

Section other.
Context (b : Z) (info : mpn_base_info) (binv bbinv : gmp_div_inverse) (up : ptr).
Hypotheses (Hb : 2 ≤ b ≤ 256) (Hinfo : info_ok b info) (Hbinv : inv_ok1 b binv) (Hbb : inv_ok1 (info_bb info) bbinv).

(** The digits of a remainder, padded to the digits of [bb] *)
Lemma chunk_spec ls rest w q :
  0 ≤ w < info_bb info → 0 < q → w + info_bb info * q < b ^ Z.of_nat (length rest) →
  ∃ ds, length ds = Z.to_nat (info_exp info) ∧ digits b ds ∧ ldigits b ds = w ∧ (length ds ≤ length rest)%nat ∧
    ('(written, sp) ← mpn_limb_get_str ((Some <$> ls) ++ rest) (Z.of_nat (length ls)) w binv;
     pad_zeros (Z.to_nat (info_exp info - written)) sp (Z.of_nat (length ls) + written))
    = Ok (Z.of_nat (length (ls ++ ds)), (Some <$> (ls ++ ds)) ++ drop (length ds) rest).
Proof.
  intros Hw Hq Hroom. destruct Hinfo as (He & Hbbv & Hlt & Hgt). pose proof (pow_base_pos b ltac:(lia)) as Hpp.
  destruct (limb_get_str_loop_spec b binv Hb Hbinv 64 ls rest (Z.of_nat (length ls)) 0 w) as (ds & Hrun & Hd & Hn & Hv & Hl);
    [change (2 ^ Z.of_nat 64) with WB; lia|unfold word; lia|nia|lia|].
  assert (Z.of_nat (length ds) ≤ info_exp info) as Hle.
  { destruct ds as [|d ds]; [cbn; lia|]. pose proof (ldigits_normal b ltac:(lia) _ Hd Hn ltac:(done)) as Hlow.
    rewrite Hv in Hlow. destruct (Z.le_gt_cases (Z.of_nat (length (d :: ds))) (info_exp info)); [done|].
    assert (b ^ info_exp info ≤ b ^ (Z.of_nat (length (d :: ds)) - 1)) by (apply Z.pow_le_mono_r; lia). lia. }
  assert (info_exp info ≤ Z.of_nat (length rest)) as Hle2.
  { destruct (Z.le_gt_cases (info_exp info) (Z.of_nat (length rest))); [done|].
    assert (b ^ Z.of_nat (length rest) ≤ b ^ info_exp info) by (apply Z.pow_le_mono_r; lia). nia. }
  set (n := Z.to_nat (info_exp info - Z.of_nat (length ds))).
  exists (ds ++ replicate n 0). unfold mpn_limb_get_str. rewrite Hrun. cbn [mbind outcome_bind].
  rewrite Z.add_0_l. fold n. replace (Z.of_nat (length ls) + Z.of_nat (length ds)) with (Z.of_nat (length (ls ++ ds))) by (rewrite length_app; lia).
  rewrite pad_zeros_spec by (rewrite length_drop; lia). rewrite !length_app, length_replicate, ldigits_app, ldigits_zeros, drop_drop.
  split; [lia|]. split; [apply Forall_app; split; [done|by apply zeros_digits; lia]|]. split; [lia|]. split; [lia|].
  rewrite <- app_assoc. do 3 f_equal; lia.
Qed.

Lemma bb_large : 2 ^ 32 ≤ info_bb info.
Proof. destruct Hinfo as (_ & _ & _ & H). unfold WB in H. nia. Qed.

Lemma wp_get_str_other_loop fuel : ∀ ls rest l m Q E,
  words l → normal l → (2 ≤ length l)%nat → val l < 2 ^ (32 * Z.of_nat fuel) → holds m up l → mem_ok m →
  val l < b ^ Z.of_nat (length rest) →
  (∀ ds x m', digits b ds → word x → 0 < x → val l = ldigits b ds + b ^ Z.of_nat (length ds) * x →
     (length ds ≤ length rest)%nat → holds m' up [x] → changed m m' (λ c, within c up (length l)) →
     Q (Z.of_nat (length (ls ++ ds)), (Some <$> (ls ++ ds)) ++ drop (length ds) rest) m') →
  wp (get_str_other_loop fuel ((Some <$> ls) ++ rest) (Z.of_nat (length ls)) info binv bbinv up (Z.of_nat (length l))) Q E m.
Proof.
  pose proof Hinfo as (He & Hbbv & Hlt & Hgt). pose proof bb_large as Hbig.
  induction fuel as [|fuel IH]; intros ls rest l m Q E Hw Hn Hlen Hf Hh Hm Hroom HQ.
  { pose proof (normal_bound l Hw Hn ltac:(by intros ->; cbn in Hlen; lia)). pose proof (wpow_pos (length l - 1)).
    cbn in Hf. lia. }
  cbn [get_str_other_loop]. apply wp_bind. eapply (wp_mpn_div_qr_1_preinv (Some up) up l (info_bb info)); try done.
  { by intros ->; cbn in Hlen; lia. } { by apply holds_space. } { unfold qok, ok_down. lia. }
  intros lq w m1 Hlq Hwq Hv Hr [Hqh Hc]. cbn [qholds qwithin] in *.
  destruct (quotient_limbs l lq (info_bb info) w Hw Hn Hlen Hwq Hlq ltac:(lia) Hv Hr)
    as (lo & top & l2 & Elq & Eun & Hw2 & Hn2 & Hv2 & Hpos2 & Hl2 & z & Ez).
  rewrite Elq in Hlq. rewrite length_app in Hlq. cbn in Hlq.
  assert (holds m1 up l2) as Hh2 by (rewrite Ez in Hqh; by apply holds_app in Hqh as [? _]).
  rewrite Elq in Hqh. apply holds_app in Hqh as [_ [Htop _]%holds_cons].
  replace (Z.of_nat (length lo)) with (Z.of_nat (length l) - 1) in Htop by lia.
  apply wp_bind. eapply wp_load; [done|]. rewrite Eun.
  destruct (chunk_spec ls rest w (val l2)) as (ds & Hlds & Hd & Hvd & Hrd & Hrun); [done|done|lia|].
  destruct (mpn_limb_get_str _ _ w binv) as [[written sp]|] eqn:Hstr; [|done]. cbn [mbind outcome_bind] in Hrun.
  apply wp_bind. eapply wp_lift_ok; [done|]. apply wp_bind. eapply wp_lift_ok; [done|].
  assert (changed m m1 (λ c, within c up (length l))) as Hc1.
  { eapply changed_mono; [exact Hc|]. intros c [Hcb Hcr]. rewrite Elq, length_app in Hcr. cbn in Hcr. split; [done|lia]. }
  assert (b ^ Z.of_nat (length ds) = info_bb info) as Hpow by (rewrite Hlds, Hbbv; f_equal; lia).
  destruct (Z.ltb_spec 1 (Z.of_nat (length l2))) as [Hmore|Hone].
  - apply IH; try done; [lia| | |rewrite length_drop|].
    + rewrite Nat2Z.inj_succ in Hf. replace (32 * Z.succ (Z.of_nat fuel)) with (32 + 32 * Z.of_nat fuel) in Hf by lia.
      rewrite Z.pow_add_r in Hf by lia. assert (0 < 2 ^ (32 * Z.of_nat fuel)) by (apply Z.pow_pos_nonneg; lia). nia.
    + by eapply changed_ok.
    + replace (Z.of_nat (length rest)) with (Z.of_nat (length ds) + Z.of_nat (length rest - length ds)) in Hroom by lia.
      rewrite Z.pow_add_r, Hpow in Hroom by lia. pose proof (pow_base_pos b ltac:(lia) (length rest - length ds)). nia.
    + intros ds2 x m2 Hd2 Hx Hx0 Hvx Hr2 Hhx Hc2. rewrite length_drop in Hr2. rewrite <- app_assoc, drop_drop.
      replace (length ds + length ds2)%nat with (length (ds ++ ds2)) by (by rewrite length_app).
      apply (HQ _ x); try done; [by apply Forall_app|rewrite ldigits_app, length_app, Nat2Z.inj_add, Z.pow_add_r, Hpow by lia; nia
        |rewrite length_app; lia|]. eapply changed_trans; [exact Hc1|]. eapply changed_mono; [exact Hc2|].
      intros c [Hcb Hcr]. split; [done|lia].
  - destruct l2 as [|x [|? ?]]; cbn [length] in *; try lia. cbn [val] in Hv2, Hpos2. apply wp_ret. apply (HQ ds x); try done.
    + by apply Forall_cons in Hw2 as [? _].
    + lia.
    + rewrite Hpow. lia.
Qed.
End other.

(** What [mpn_get_str] leaves for a number [v] of [n] limbs *)
Definition str_post (m : mem) (up : ptr) (n : nat) (b v : Z) (sp : arr Z) (r : Z * arr Z) (m' : mem) : Prop :=
  ∃ ds, r = (Z.of_nat (length ds), (Some <$> ds) ++ drop (length ds) sp) ∧ digits b ds ∧ head ds ≠ Some 0 ∧
    digits_val b ds = v ∧ (length ds ≤ length sp)%nat ∧ changed m m' (λ c, within c up n).

Lemma normal_head (l : list Z) : normal l → head (reverse l) ≠ Some 0.
Proof.
  intros Hn Hh. destruct l as [|x l _] using rev_ind; [done|]. rewrite reverse_snoc in Hh. injection Hh as ->.
  exact (Hn 0 (last_snoc _ _) eq_refl).
Qed.

Lemma normal_app (l k : list Z) : normal k → k ≠ [] → normal (l ++ k).
Proof. intros Hn Hne x Hx. apply Hn. destruct k as [|y k _] using rev_ind; [done|].
  rewrite app_assoc, last_snoc in Hx. by rewrite last_snoc. Qed.

(** The last digits and the reversal *)
Lemma wp_get_str_finish b binv up n v sp ls x m m1 Q E :
  2 ≤ b ≤ 256 → inv_ok1 b binv → digits b ls → word x → 0 < x →
  v = ldigits b ls + b ^ Z.of_nat (length ls) * x → v < b ^ Z.of_nat (length sp) → (length ls ≤ length sp)%nat →
  holds m1 up [x] → changed m m1 (λ c, within c up n) → (∀ r, str_post m up n b v sp r m1 → Q r m1) →
  wp (x ← load up;
      '(written, sp) ← lift (mpn_limb_get_str ((Some <$> ls) ++ drop (length ls) sp) (Z.of_nat (length ls)) x binv);
      let sn := Z.of_nat (length ls) + written in
      sp ← lift (reverse_loop (Z.to_nat sn) sp sn 0);
      mret (sn, sp)) Q E m1.
Proof.
  intros Hb Hinv Hd Hx Hpos Hv Hroom Hls Hh Hc HQ. apply holds_cons in Hh as [Hh _]. apply wp_bind. eapply wp_load; [done|].
  pose proof (ldigits_bound b ltac:(lia) ls Hd) as Hlb. pose proof (pow_base_pos b ltac:(lia)) as Hpp.
  destruct (limb_get_str_loop_spec b binv Hb Hinv 64 ls (drop (length ls) sp) (Z.of_nat (length ls)) 0 x)
    as (ds & Hrun & Hds & Hn & Hvd & Hl); [change (2 ^ Z.of_nat 64) with WB; unfold word in *; lia|done| |lia|].
  { rewrite length_drop. replace (Z.of_nat (length sp)) with (Z.of_nat (length ls) + Z.of_nat (length sp - length ls)) in Hroom by lia.
    rewrite Z.pow_add_r in Hroom by lia. specialize (Hpp (length ls)). nia. }
  apply wp_bind. eapply wp_lift_ok; [exact Hrun|]. rewrite Z.add_0_l. cbn zeta. rewrite <- Nat2Z.inj_add, <- length_app, drop_drop.
  apply wp_bind. eapply wp_lift_ok.
  { rewrite Nat2Z.id. pose proof (reverse_loop_spec (length (ls ++ ds)) [] (ls ++ ds) [] (drop (length ls + length ds) sp) eq_refl ltac:(lia)) as Hrev.
    cbn [app length Z.of_nat] in Hrev. rewrite !app_nil_r in Hrev. exact Hrev. }
  apply wp_ret, HQ. exists (reverse (ls ++ ds)). rewrite length_reverse, digits_val_ldigits, reverse_involutive, length_app.
  split; [done|]. split; [apply digits_reverse, Forall_app; auto|]. split.
  { apply normal_head, normal_app; [done|]. intros ->. cbn in Hvd. lia. }
  split; [rewrite ldigits_app; lia|]. split; [|done]. rewrite length_drop in Hl. lia.
Qed.

Lemma wp_mpn_get_str_other b info up l sp m Q E :
  2 ≤ b ≤ 256 → info_ok b info → words l → normal l → l ≠ [] → holds m up l → mem_ok m →
  val l < b ^ Z.of_nat (length sp) → (∀ r m', str_post m up (length l) b (val l) sp r m' → Q r m') →
  wp (mpn_get_str_other sp b info up (Z.of_nat (length l))) Q E m.
Proof.
  intros Hb Hinfo Hw Hn Hne Hh Hm Hroom HQ. unfold mpn_get_str_other. pose proof Hinfo as (He & Hbbv & Hlt & Hgt).
  destruct (mpn_div_qr_1_invert_spec b ltac:(unfold WB; lia)) as (binv & -> & Hbinv).
  apply wp_bind. eapply wp_lift_ok; [done|]. apply wp_bind. destruct (Z.ltb_spec 1 (Z.of_nat (length l))) as [Hmore|Hone].
  - pose proof (bb_large b info Hb Hinfo). destruct (mpn_div_qr_1_invert_spec (info_bb info) ltac:(lia)) as (bbinv & -> & Hbb).
    apply wp_bind. eapply wp_lift_ok; [done|].
    apply (wp_get_str_other_loop b info binv bbinv up Hb Hinfo Hbinv Hbb _ [] sp l); try done; [lia| |].
    { pose proof (val_bound l Hw) as [_ Hbd]. unfold wpow in Hbd. change WB with (2 ^ 64) in Hbd.
      rewrite <- Z.pow_mul_r in Hbd by lia. eapply Z.lt_le_trans; [exact Hbd|]. apply Z.pow_le_mono_r; lia. }
    intros ds x m1 Hd Hx Hx0 Hv Hl Hhx Hc. cbn [app]. eapply (wp_get_str_finish b binv up (length l) (val l)); try done. auto.
  - destruct l as [|x [|? ?]]; cbn [length] in Hone; [done| |lia]. apply wp_ret.
    apply Forall_cons in Hw as [Hx _]. assert (x ≠ 0) by (by apply Hn). unfold word in Hx.
    apply (wp_get_str_finish b binv up 1 (val [x]) sp [] x m); try done; try (cbn; lia).
    intros r. apply HQ.
Qed.

(** ** Powers of two *)

Lemma word_bit_high x n : word x → 64 ≤ n → Z.testbit x n = false.
Proof.
  intros Hx Hn. unfold word in Hx. destruct (Z.eq_dec x 0) as [->|]; [apply Z.bits_0|]. apply Z.bits_above_log2; [lia|].
  apply Z.log2_lt_pow2; [lia|]. eapply Z.lt_le_trans; [apply Hx|]. change WB with (2 ^ 64). apply Z.pow_le_mono_r; lia.
Qed.

Lemma val_bit l n : words l → 0 ≤ n →
  Z.testbit (val l) n = Z.testbit (default 0 (l !! Z.to_nat (n / 64))) (n mod 64).
Proof.
  intros Hw Hn. assert (0 ≤ n / 64) by (apply Z.div_pos; lia). pose proof (Z.mod_pos_bound n 64 ltac:(lia)) as Hm.
  pose proof (Z.div_mod n 64 ltac:(lia)) as Hdm.
  destruct (l !! Z.to_nat (n / 64)) as [x|] eqn:Hx; cbn [from_option].
  - unfold id. rewrite <- (val_testbit l _ x _ Hw Hx Hm). f_equal. lia.
  - rewrite Z.bits_0. apply lookup_ge_None in Hx. pose proof (val_bound l Hw) as Hb.
    destruct (Z.eq_dec (val l) 0) as [->|]; [apply Z.bits_0|]. apply Z.bits_above_log2; [lia|].
    apply Z.log2_lt_pow2; [lia|]. eapply Z.lt_le_trans; [apply Hb|]. unfold wpow. change WB with (2 ^ 64).
    rewrite <- Z.pow_mul_r by lia. apply Z.pow_le_mono_r; lia.
Qed.

Lemma land_mask_bit d bits n :
  1 ≤ bits ≤ 8 → 0 ≤ n → Z.testbit (Z.land (u8 d) (u8 (Z.shiftl 1 bits - 1))) n = (n <? bits) && Z.testbit d n.
Proof.
  intros Hb Hn. assert (u8 (Z.shiftl 1 bits - 1) = Z.ones bits) as ->.
  { unfold u8. rewrite Z.ones_equiv, Z.shiftl_1_l. assert (2 ^ 1 ≤ 2 ^ bits ≤ 2 ^ 8) as Hp by (split; apply Z.pow_le_mono_r; lia).
    change (2 ^ 8) with 256 in Hp. rewrite Z.mod_small; lia. }
  unfold u8. change 256 with (2 ^ 8). rewrite Z.land_spec, Z.testbit_ones_nonneg by lia. destruct (Z.ltb_spec n bits); [|by rewrite andb_false_r].
  rewrite Z.mod_pow2_bits_low by lia. by rewrite andb_true_r.
Qed.

Lemma digit_bit v k bits n :
  1 ≤ bits → 0 ≤ k → 0 ≤ n → Z.testbit (v / 2 ^ k mod 2 ^ bits) n = (n <? bits) && Z.testbit v (k + n).
Proof.
  intros Hb Hk Hn. destruct (Z.ltb_spec n bits).
  - rewrite Z.mod_pow2_bits_low, Z.div_pow2_bits by lia. cbn. f_equal. lia.
  - by rewrite Z.mod_pow2_bits_high by lia.
Qed.

Lemma shift_ok_in n : 0 ≤ n < 64 → shift_ok n = Ok tt.
Proof. intros. unfold shift_ok, GMP_LIMB_BITS. by rewrite (proj2 (Z.leb_le _ _)), (proj2 (Z.ltb_lt _ _)) by lia. Qed.

Lemma arr_set_mid (pre post : arr Z) p x : arr_set (pre ++ p :: post) (Z.of_nat (length pre)) x = Ok (pre ++ Some x :: post).
Proof.
  unfold arr_set, arr_in, arr_len. rewrite length_app. cbn [length].
  rewrite (proj2 (Z.leb_le _ _)), (proj2 (Z.ltb_lt _ _)) by lia. cbn [andb]. f_equal.
  by rewrite Nat2Z.id, insert_app_r_alt, Nat.sub_diag by lia.
Qed.

Section bits.
Context (l : list Z) (bits : Z) (Hw : words l) (Hbits : 1 ≤ bits ≤ 8).
Let mask := u8 (Z.shiftl 1 bits - 1).

(** The digit at bit [64 i + shift]: from one limb, or from two *)
Lemma one_limb_digit i x shift :
  l !! i = Some x → 0 ≤ shift < 64 → shift + bits ≤ 64 ∨ (length l ≤ S i)%nat →
  Z.land (u8 (Z.shiftr x shift)) mask = val l / 2 ^ (64 * Z.of_nat i + shift) mod 2 ^ bits.
Proof.
  intros Hx Hs Hc. apply Z.bits_inj'. intros n Hn. unfold mask.
  rewrite land_mask_bit, digit_bit by lia. destruct (Z.ltb_spec n bits); [|done]. cbn [andb].
  rewrite Z.shiftr_spec by lia. destruct (Z.lt_ge_cases (n + shift) 64) as [Hlt|Hge].
  - replace (64 * Z.of_nat i + shift + n) with (64 * Z.of_nat i + (n + shift)) by lia.
    by rewrite (val_testbit l i x) by (done || lia).
  - rewrite val_bit by (done || lia). rewrite lookup_ge_None_2.
    + cbn. rewrite Z.bits_0. apply (Forall_lookup_1 _ _ _ _ Hw) in Hx. by apply word_bit_high.
    + assert (Z.of_nat i + 1 ≤ (64 * Z.of_nat i + shift + n) / 64); [|lia]. apply Z.div_le_lower_bound; lia.
Qed.

Lemma two_limb_digit i x y shift :
  l !! i = Some x → l !! S i = Some y → 0 ≤ shift < 64 → 64 ≤ shift + bits →
  Z.land (u8 (Z.lor (u8 (Z.shiftr x shift)) (u64 (Z.shiftl y (bits - (shift + bits - 64)))))) mask
  = val l / 2 ^ (64 * Z.of_nat i + shift) mod 2 ^ bits.
Proof.
  intros Hx Hy Hs Hc. apply Z.bits_inj'. intros n Hn. unfold mask.
  rewrite land_mask_bit, digit_bit by lia. destruct (Z.ltb_spec n bits); [|done]. cbn [andb].
  unfold u8, u64. change 256 with (2 ^ 8). change WB with (2 ^ 64). rewrite Z.lor_spec, !Z.mod_pow2_bits_low by lia.
  rewrite Z.shiftr_spec, Z.shiftl_spec by lia. destruct (Z.lt_ge_cases (n + shift) 64) as [Hlt|Hge].
  - rewrite (Z.testbit_neg_r y) by lia. rewrite orb_false_r.
    replace (64 * Z.of_nat i + shift + n) with (64 * Z.of_nat i + (n + shift)) by lia.
    by rewrite (val_testbit l i x) by (done || lia).
  - replace (64 * Z.of_nat i + shift + n) with (64 * Z.of_nat (S i) + (n + shift - 64)) by lia.
    rewrite (val_testbit l (S i) y) by (done || lia). apply (Forall_lookup_1 _ _ _ _ Hw) in Hx.
    rewrite (word_bit_high x) by (done || lia). cbn [orb]. f_equal. lia.
Qed.

(** [k] digits are written, [j] are left. *)
Lemma wp_get_str_bits_loop up j : ∀ k i shift pre ds rest m Q E,
  holds m up l → length pre = j →
  j = 0%nat ∨ (0 ≤ shift < 64 ∧ (i < length l)%nat ∧ Z.of_nat k * bits = 64 * Z.of_nat i + shift) →
  Z.of_nat (k + j) * bits < 64 * Z.of_nat (length l) + bits →
  (∀ hs, length hs = j → digits (2 ^ bits) hs →
     digits_val (2 ^ bits) hs = val l / 2 ^ (Z.of_nat k * bits) mod 2 ^ (Z.of_nat j * bits) →
     Q ((Some <$> (hs ++ ds)) ++ rest) m) →
  wp (get_str_bits_loop j (pre ++ (Some <$> ds) ++ rest) bits mask up (Z.of_nat (length l)) (Z.of_nat i) shift) Q E m.
Proof.
  induction j as [|j IH]; intros k i shift pre ds rest m Q E Hh Hpre Hpos Htot HQ; cbn [get_str_bits_loop].
  { destruct pre; [|done]. apply wp_ret. apply (HQ []); [done|constructor|]. cbn. by rewrite Z.mod_1_r. }
  destruct Hpos as [?|(Hs & Hi & Hk)]; [lia|]. destruct (lookup_lt_is_Some_2 l i Hi) as [x Hx].
  apply wp_bind. eapply wp_load; [by apply Hh|]. apply wp_bind. eapply wp_lift_ok; [by apply shift_ok_in|].
  destruct pre as [|p0 pre _] using rev_ind; [done|]. rewrite length_app in Hpre. cbn in Hpre.
  assert (length pre = j) as Hlp by lia. rewrite <- app_assoc. cbn [app].
  assert (∀ i' shift' digit, Z.land digit mask = val l / 2 ^ (64 * Z.of_nat i + shift) mod 2 ^ bits →
    j = 0%nat ∨ (0 ≤ shift' < 64 ∧ (i' < length l)%nat ∧ Z.of_nat (S k) * bits = 64 * Z.of_nat i' + shift') →
    wp (sp ← lift (arr_set (pre ++ p0 :: (Some <$> ds) ++ rest) (Z.of_nat j) (Z.land digit mask));
        get_str_bits_loop j sp bits mask up (Z.of_nat (length l)) (Z.of_nat i') shift') Q E m) as Hstep.
  { intros i' shift' digit Hd Hnext. apply wp_bind. rewrite <- Hlp at 1. rewrite arr_set_mid, Hd. eapply wp_lift_ok; [done|].
    set (d := val l / _ mod _).
    apply (IH (S k) i' shift' pre (d :: ds) rest); try done; [by rewrite Nat.add_succ_comm|].
    intros hs Hlh Hdh Hvh. rewrite cons_middle, app_assoc. apply HQ.
    - rewrite length_app. cbn. lia.
    - apply Forall_app. split; [done|]. repeat constructor; apply Z.mod_pos_bound, Z.pow_pos_nonneg; lia.
    - rewrite digits_val_snoc, Hvh. unfold d. rewrite <- Hk. set (v := val l / 2 ^ (Z.of_nat k * bits)).
      replace (Z.of_nat (S k) * bits) with (Z.of_nat k * bits + bits) by lia.
      replace (Z.of_nat (S j) * bits) with (bits + Z.of_nat j * bits) by lia.
      rewrite !Z.pow_add_r by lia. rewrite <- Z.div_div by (try apply Z.pow_nonzero; try apply Z.pow_pos_nonneg; lia). fold v.
      rewrite (Z.rem_mul_r v) by (try apply Z.pow_nonzero; try apply Z.pow_pos_nonneg; lia). lia. }
  apply wp_bind. change GMP_LIMB_BITS with 64. destruct (Z.leb_spec 64 (shift + bits)) as [Hcross|Hin].
  - replace (Z.of_nat i + 1) with (Z.of_nat (S i)) by lia. destruct (Z.ltb_spec (Z.of_nat (S i)) (Z.of_nat (length l))) as [Hi2|Hi2].
    + destruct (lookup_lt_is_Some_2 l (S i) ltac:(lia)) as [y Hy]. apply wp_bind. eapply wp_load; [by apply Hh|].
      apply wp_bind. eapply wp_lift_ok; [apply shift_ok_in; lia|]. apply wp_ret. apply Hstep; [|lia].
      by eapply two_limb_digit.
    + apply wp_ret. apply Hstep; [apply one_limb_digit; (done || lia)|]. left. nia.
  - apply wp_ret. apply Hstep; [apply one_limb_digit; (done || lia)|]. lia.
Qed.
End bits.

Lemma mpn_limb_size_spec x :
  0 < x < WB → ∃ s, mpn_limb_size_in_base_2 x = Ok s ∧ 1 ≤ s ≤ 64 ∧ 2 ^ (s - 1) ≤ x < 2 ^ s.
Proof.
  intros Hx. unfold mpn_limb_size_in_base_2. rewrite (proj2 (Z.ltb_lt _ _)) by lia. cbn [c_assert mbind outcome_bind].
  destruct (gmp_clz_ok x Hx) as (k & -> & Hk & Hlo & Hhi). cbn [mbind outcome_bind]. exists (64 - k).
  split; [done|]. split; [lia|]. assert (0 < 2 ^ k) by (apply Z.pow_pos_nonneg; lia).
  replace (2 ^ 63) with (2 ^ (64 - k - 1) * 2 ^ k) in Hlo by (rewrite <- Z.pow_add_r by lia; f_equal; lia).
  replace WB with (2 ^ (64 - k) * 2 ^ k) in Hhi by (rewrite <- Z.pow_add_r by lia; change WB with (2 ^ 64); f_equal; lia).
  nia.
Qed.

(** The number of bits of an array *)
Lemma val_size lo x s :
  words lo → 1 ≤ s → 2 ^ (s - 1) ≤ x < 2 ^ s →
  2 ^ (64 * Z.of_nat (length lo) + s - 1) ≤ val (lo ++ [x]) < 2 ^ (64 * Z.of_nat (length lo) + s).
Proof.
  intros Hw Hs Hx. rewrite val_app. cbn [val]. pose proof (val_bound lo Hw) as Hb. unfold wpow in *. change WB with (2 ^ 64) in *.
  rewrite <- Z.pow_mul_r in * by lia. set (k := 64 * Z.of_nat (length lo)) in *.
  replace (k + s - 1) with (k + (s - 1)) by lia. rewrite !Z.pow_add_r by lia. nia.
Qed.

Lemma digits_val_head b ds : 2 ≤ b → digits b ds → b ^ (Z.of_nat (length ds) - 1) ≤ digits_val b ds → head ds ≠ Some 0.
Proof.
  intros Hb Hd Hlow Hh. destruct ds as [|d ds]; [done|]. injection Hh as ->. apply Forall_cons in Hd as [_ Hd].
  pose proof (digits_val_bound b Hb ds Hd) as Hbd. change (0 :: ds) with ([0] ++ ds) in Hlow.
  rewrite digits_val_app in Hlow. cbn [length app] in Hlow. replace (Z.of_nat (S (length ds)) - 1) with (Z.of_nat (length ds)) in Hlow by lia.
  change (digits_val b [0]) with 0 in Hlow. lia.
Qed.

Lemma wp_mpn_get_str_bits bits up l sp m Q E :
  1 ≤ bits ≤ 8 → words l → normal l → l ≠ [] → holds m up l → 64 * Z.of_nat (length l) + 8 < WB →
  val l < (2 ^ bits) ^ Z.of_nat (length sp) → (∀ r, str_post m up (length l) (2 ^ bits) (val l) sp r m → Q r m) →
  wp (mpn_get_str_bits sp bits up (Z.of_nat (length l))) Q E m.
Proof.
  intros Hbits Hw Hn Hne Hh Hlen Hroom HQ. destruct l as [|x lo _] using rev_ind; [done|]. unfold mpn_get_str_bits.
  assert (length (lo ++ [x]) = S (length lo)) as Hl by (rewrite length_app; cbn; lia).
  pose proof Hh as [_ [Hx _]%holds_cons]%holds_app. replace (Z.of_nat (length (lo ++ [x])) - 1) with (Z.of_nat (length lo)) by lia.
  apply wp_bind. eapply wp_load; [done|]. pose proof Hw as [Hwlo [Hwx _]%Forall_cons]%Forall_app.
  assert (x ≠ 0) as Hx0 by (apply Hn, last_snoc). destruct (mpn_limb_size_spec x ltac:(unfold word in *; lia)) as (s & -> & Hs & Hxs).
  apply wp_bind. eapply wp_lift_ok; [done|]. change GMP_LIMB_BITS with 64.
  set (nb := Z.of_nat (length lo) * 64 + s). rewrite (u64_small nb), (u64_small (nb + bits)), (u64_small (nb + bits - 1)) by (unfold nb; lia).
  pose proof (val_size lo x s Hwlo ltac:(lia) Hxs) as Hv. replace (64 * Z.of_nat (length lo) + s) with nb in Hv by (unfold nb; lia).
  set (sn := (nb + bits - 1) / bits). assert (1 ≤ sn) as Hsn by (apply Z.div_le_lower_bound; unfold nb; lia).
  assert (nb ≤ sn * bits ∧ (sn - 1) * bits < nb) as [Hup Hlow].
  { pose proof (Z.div_mod (nb + bits - 1) bits ltac:(lia)) as Hdm. pose proof (Z.mod_pos_bound (nb + bits - 1) bits ltac:(lia)).
    fold sn in Hdm. clearbody sn nb. lia. }
  assert (sn ≤ Z.of_nat (length sp)) as Hsp.
  { destruct (Z.le_gt_cases sn (Z.of_nat (length sp))); [done|]. rewrite <- Z.pow_mul_r in Hroom by lia.
    assert (2 ^ (bits * Z.of_nat (length sp)) ≤ 2 ^ (nb - 1)) by (apply Z.pow_le_mono_r; nia). lia. }
  rewrite <- (take_drop (Z.to_nat sn) sp) at 1. apply wp_bind.
  eapply (wp_get_str_bits_loop (lo ++ [x]) bits Hw Hbits up (Z.to_nat sn) 0 0 0 (take (Z.to_nat sn) sp) []);
    [done|rewrite length_take; lia|right; lia|nia|].
  intros hs Hlh Hdh Hvh. rewrite app_nil_r. apply wp_ret, HQ. exists hs. rewrite Hlh, Z2Nat.id by lia. split; [done|]. split; [done|].
  assert (digits_val (2 ^ bits) hs = val (lo ++ [x])) as Hval.
  { rewrite Hvh. cbn [Z.of_nat]. rewrite Z.mul_0_l, Z.pow_0_r, Z.div_1_r, Z2Nat.id by lia. apply Z.mod_small. split; [apply val_bound; done|].
    eapply Z.lt_le_trans; [apply Hv|]. apply Z.pow_le_mono_r; lia. }
  split; [|split; [done|split; [lia|apply changed_refl]]]. apply (digits_val_head (2 ^ bits)); [|done|].
  { apply (Z.pow_le_mono_r 2 1); lia. }
  rewrite Hval, Hlh, Z2Nat.id, <- Z.pow_mul_r by lia. etransitivity; [|apply Hv]. apply Z.pow_le_mono_r; nia.
Qed.

Lemma base_bits b : 2 ≤ b ≤ 256 →
  let bits := mpn_base_power_of_two_p b in bits = 0 ∨ (1 ≤ bits ≤ 8 ∧ b = 2 ^ bits).
Proof.
  intros Hb. unfold mpn_base_power_of_two_p.
  repeat match goal with |- context [if ?x =? ?y then _ else _] => destruct (Z.eqb_spec x y) as [->|]; [right; split; [lia|done]|] end.
  by left.
Qed.

Lemma wp_mpn_get_str b up l sp m Q E :
  2 ≤ b ≤ 256 → words l → normal l → l ≠ [] → holds m up l → mem_ok m → 64 * Z.of_nat (length l) + 8 < WB →
  val l < b ^ Z.of_nat (length sp) → (∀ r m', str_post m up (length l) b (val l) sp r m' → Q r m') →
  wp (mpn_get_str sp b up (Z.of_nat (length l))) Q E m.
Proof.
  intros Hb Hw Hn Hne Hh Hm Hlen Hroom HQ. unfold mpn_get_str.
  assert (0 < length l)%nat as Hl by (destruct l; [done|cbn; lia]). apply wp_bind, wp_massert; [apply Z.ltb_lt; lia|].
  destruct (last l) as [x|] eqn:Hx; [|by apply last_None in Hx]. pose proof (Hn x Hx) as Hx0. rewrite last_lookup in Hx.
  apply wp_bind. eapply wp_load; [replace (Z.of_nat (length l) - 1) with (Z.of_nat (pred (length l))) by lia; by apply Hh|].
  apply (Forall_lookup_1 _ _ _ _ Hw) in Hx. apply wp_bind, wp_massert; [apply Z.ltb_lt; unfold word in Hx; lia|].
  destruct (base_bits b Hb) as [->|[Hbits Hpow]].
  - cbn [Z.eqb negb]. destruct (mpn_get_base_info_spec b ltac:(unfold WB; lia)) as (info & -> & Hinfo).
    apply wp_bind. eapply wp_lift_ok; [done|]. by apply wp_mpn_get_str_other.
  - rewrite (proj2 (Z.eqb_neq _ _)) by lia. cbn [negb]. apply wp_mpn_get_str_bits; try done.
    + by rewrite <- Hpow.
    + intros r. rewrite <- Hpow. apply HQ.
Qed.
