(* ===== verification/MpnSetStr.v ===== *)
(** * From digits to numbers, and the round trips *)

From S2P Require Import Prelude CString Queue State UInt64 Mpn MpnMem MpnThm MpnBits MpnDiv MpnInv MpnDivThm MpnDivPi1 MpnCorrect MpnDivQr MpnStr MpnStrThm.

(** What [mpn_set_str] leaves at [rp] when there is room for [n] limbs *)
Definition set_post (m : mem) (rp : ptr) (n : nat) (v rn : Z) (m' : mem) : Prop :=
  ∃ r, rn = Z.of_nat (length r) ∧ words r ∧ val r = v ∧ (normal r ∨ r = [0]) ∧ holds m' rp r ∧
    (length r ≤ n)%nat ∧ changed m m' (λ c, within c rp n).

(** ** Any base *)

Section other.
Context (b : Z) (info : mpn_base_info) (Hb : 2 ≤ b ≤ 256) (Hinfo : info_ok b info).
Context (rest : arr Z).

Lemma digits_loop_spec n : ∀ pre seg post w,
  length seg = n → digits b seg → 0 ≤ w → (w + 1) * b ^ Z.of_nat n ≤ WB →
  digits_loop n ((Some <$> (pre ++ seg ++ post)) ++ rest) (Z.of_nat (length pre)) w b
  = Ok (w * b ^ Z.of_nat n + digits_val b seg, Z.of_nat (length (pre ++ seg))).
Proof.
  induction n as [|n IH]; intros pre seg post w Hl Hd Hw Hroom; cbn [digits_loop].
  { destruct seg; [|done]. rewrite app_nil_r. do 2 f_equal. cbn. lia. }
  destruct seg as [|d seg]; [done|]. apply Forall_cons in Hd as [Hd Hds]. injection Hl as Hl.
  rewrite (arr_get_at _ rest _ d); [|lia|by rewrite Nat2Z.id, lookup_app_r, Nat.sub_diag by lia]. cbn [mbind outcome_bind].
  rewrite Nat2Z.inj_succ, Z.pow_succ_r in * by lia. pose proof (pow_base_pos b ltac:(lia) n).
  assert (w * b + d + 1 ≤ (w + 1) * b) as Hle by lia. assert ((w + 1) * b ≤ WB) by nia.
  rewrite (u64_small (w * b)), (u64_small (w * b + d)) by nia.
  replace (pre ++ (d :: seg) ++ post) with ((pre ++ [d]) ++ seg ++ post) by (by rewrite <- app_assoc).
  replace (Z.of_nat (length pre) + 1) with (Z.of_nat (length (pre ++ [d]))) by (rewrite length_app; cbn; lia).
  rewrite IH; [|done|done|nia|nia]. do 2 f_equal.
  - change (d :: seg) with ([d] ++ seg). rewrite digits_val_app, Hl. change (digits_val b [d]) with d. lia.
  - by rewrite <- app_assoc.
Qed.

(** The digits of one limb, from the first on *)
Lemma chunk_digits pre seg post :
  seg ≠ [] → digits b seg → Z.of_nat (length seg) ≤ info_exp info →
  ∃ d, arr_get ((Some <$> (pre ++ seg ++ post)) ++ rest) (Z.of_nat (length pre)) = Ok d ∧
    digits_loop (length seg - 1) ((Some <$> (pre ++ seg ++ post)) ++ rest) (Z.of_nat (length pre) + 1) d b
    = Ok (digits_val b seg, Z.of_nat (length (pre ++ seg))).
Proof.
  intros Hne Hd Hl. destruct seg as [|d seg]; [done|]. apply Forall_cons in Hd as [Hd Hds]. exists d.
  split; [apply arr_get_at; [lia|by rewrite Nat2Z.id, lookup_app_r, Nat.sub_diag by lia]|].
  cbn [length]. replace (S (length seg) - 1)%nat with (length seg) by lia.
  replace (pre ++ (d :: seg) ++ post) with ((pre ++ [d]) ++ seg ++ post) by (by rewrite <- app_assoc).
  replace (Z.of_nat (length pre) + 1) with (Z.of_nat (length (pre ++ [d]))) by (rewrite length_app; cbn; lia).
  destruct Hinfo as (He & Hbb & Hlt & _). cbn [length] in Hl.
  assert (b ^ Z.of_nat (S (length seg)) ≤ b ^ info_exp info) as Hp by (apply Z.pow_le_mono_r; lia).
  rewrite Nat2Z.inj_succ, Z.pow_succ_r in Hp by lia. pose proof (pow_base_pos b ltac:(lia) (length seg)).
  rewrite digits_loop_spec; [|done|done|lia|nia]. do 2 f_equal.
  - change (d :: seg) with ([d] ++ seg). rewrite digits_val_app. done.
  - by rewrite <- app_assoc.
Qed.

(** The value read so far times [bb], plus the next limb *)
Lemma wp_bind_mul_add {A} rp lr w (f : Z → L A) m Q E :
  words lr → lr ≠ [] → 0 ≤ w < info_bb info → holds m rp lr →
  (∀ r cy m', length r = length lr → words r → word cy →
     val r + wpow (length lr) * cy = val lr * info_bb info + w → writes m rp r m' → wp (f cy) Q E m') →
  wp (cy ← mpn_mul_1 rp rp (Z.of_nat (length lr)) (info_bb info);
      c ← mpn_add_1 rp rp (Z.of_nat (length lr)) w; f (u64 (cy + c))) Q E m.
Proof.
  intros Hw Hne Hwb Hh HQ. destruct Hinfo as (He & Hbb & Hlt & _). apply wp_bind.
  apply wp_mpn_mul_1; [done|done|unfold word; lia|done|by apply holds_space|unfold ok_up; lia|].
  intros r1 c1 m1 Hl1 Hw1 Hc1 Hv1 Hwr1. apply wp_bind. rewrite <- Hl1. pose proof Hwr1 as [Hh1 _].
  apply wp_mpn_add_1; [done|unfold word; lia|by intros ->; destruct lr|done|by apply holds_space|unfold ok_up; lia|].
  intros r2 c2 m2 Hl2 Hw2 Hc2 Hv2 Hwr2. rewrite Hl1 in *.
  assert (c1 + c2 < info_bb info) as Hcb.
  { pose proof (val_bound lr Hw). pose proof (val_bound r2 Hw2). pose proof (wpow_pos (length lr)).
    apply (Z.mul_lt_mono_pos_l (wpow (length lr))); [done|]. nia. }
  unfold word in Hc1. rewrite u64_small by lia. apply (HQ r2); try done; [unfold word; lia|lia|].
  rewrite <- (app_nil_l r2). eapply (writes_over _ _ [] r1); [exact Hwr1|by rewrite padd_0|lia].
Qed.

Definition sized (r : list Z) : Prop := normal r ∨ length r = 1%nat.

Lemma sized_step lr r q w :
  words lr → words r → sized lr → length r = length lr → lr ≠ [] → val r = val lr * q + w → 1 ≤ q → 0 ≤ w → sized r.
Proof.
  intros Hwl Hwr [Hn|Hl] Hlen Hne Hv Hq Hw; [left|right; lia]. apply normal_of_bound; [done|].
  pose proof (normal_bound lr Hwl Hn Hne). rewrite Hlen. pose proof (val_bound lr Hwl). nia.
Qed.

(** [post] is a number of whole chunks; [c] of them are left. *)
Lemma wp_set_str_other_loop rp n c : ∀ fuel pre post lr m Q E,
  (c ≤ fuel)%nat → length post = (c * Z.to_nat (info_exp info))%nat → digits b pre → digits b post →
  words lr → lr ≠ [] → sized lr → val lr = digits_val b pre → holds m rp lr → (length lr ≤ n)%nat → space m rp n →
  digits_val b (pre ++ post) < wpow n →
  (∀ r m', words r → r ≠ [] → sized r → val r = digits_val b (pre ++ post) → holds m' rp r → (length r ≤ n)%nat →
     changed m m' (λ q, within q rp n) → Q (Z.of_nat (length r), Z.of_nat (length (pre ++ post))) m') →
  wp (set_str_other_loop fuel rp ((Some <$> (pre ++ post)) ++ rest) (Z.of_nat (length (pre ++ post))) b info
        (Z.of_nat (length pre)) (Z.of_nat (length lr))) Q E m.
Proof.
  pose proof Hinfo as (He & Hbb & Hlt & _).
  induction c as [|c IH]; intros fuel pre post lr m Q E Hf Hlp Hdp Hdq Hw Hne Hsz Hv Hh Hln Hsp Hroom HQ.
  { destruct post; [|done]. rewrite app_nil_r in *. destruct fuel; cbn [set_str_other_loop];
      rewrite (proj2 (Z.ltb_ge _ _)) by lia; apply wp_ret, HQ; try done; apply changed_refl. }
  destruct fuel as [|fuel]; [lia|]. cbn [set_str_other_loop].
  destruct (split_at post (Z.to_nat (info_exp info)) ltac:(lia)) as (seg & tl & -> & Hseg).
  rewrite length_app in Hlp. rewrite (proj2 (Z.ltb_lt _ _)) by (rewrite !length_app; lia).
  apply Forall_app in Hdq as [Hds Hdt].
  destruct (chunk_digits pre seg tl ltac:(by intros ->; cbn in Hseg; lia) Hds ltac:(lia)) as (d & Hd & Hrd).
  apply wp_bind. eapply wp_lift_ok; [exact Hd|]. replace (Z.to_nat (info_exp info - 1)) with (length seg - 1)%nat by lia.
  apply wp_bind. eapply wp_lift_ok; [exact Hrd|]. pose proof (digits_val_bound b ltac:(lia) seg Hds) as Hsb.
  rewrite Hseg, Z2Nat.id, <- Hbb in Hsb by lia.
  set (sp := (Some <$> (pre ++ seg ++ tl)) ++ rest). set (sn := Z.of_nat (length (pre ++ seg ++ tl))).
  apply (wp_bind_mul_add rp lr (digits_val b seg) (λ cy, if 0 <? cy then
      _ ← store (padd rp (Z.of_nat (length lr))) cy;
      set_str_other_loop fuel rp sp sn b info (Z.of_nat (length (pre ++ seg))) (Z.of_nat (length lr) + 1)
    else set_str_other_loop fuel rp sp sn b info (Z.of_nat (length (pre ++ seg))) (Z.of_nat (length lr)))); try done.
  intros r cy m1 Hlr Hwr Hcy Hvr [Hhr Hcr]. unfold sp, sn.
  assert (digits_val b (pre ++ seg) = val lr * info_bb info + digits_val b seg) as Hpv
    by (rewrite digits_val_app, Hv, Hseg, Z2Nat.id, <- Hbb by lia; done).
  rewrite <- Hpv in Hvr. rewrite app_assoc in *.
  pose proof (digits_val_bound b ltac:(lia) tl Hdt) as Htb. pose proof (pow_base_pos b ltac:(lia) (length tl)) as Hpt.
  assert (digits b (pre ++ seg)) as Hdps by (by apply Forall_app).
  pose proof (digits_val_bound b ltac:(lia) _ Hdps) as Hpsb.
  assert (digits_val b (pre ++ seg) < wpow n) as Hsmall by (rewrite digits_val_app in Hroom; nia).
  assert (changed m m1 (λ q, within q rp n)) as Hc1.
  { eapply changed_mono; [exact Hcr|]. intros q [Hqb Hqr]. split; [done|lia]. }
  assert (length tl = (c * Z.to_nat (info_exp info))%nat) as Hlt2 by lia.
  assert (r ≠ []) as Hrne by (by intros ->; destruct lr).
  destruct (Z.ltb_spec 0 cy) as [Hc|Hc].
  - assert (length r < n)%nat as Hrn.
    { destruct (Nat.lt_ge_cases (length r) n); [done|]. pose proof (val_bound r Hwr).
      assert (wpow n ≤ wpow (length lr)) by (unfold wpow; apply Z.pow_le_mono_r; [done|lia]). nia. }
    apply wp_bind. rewrite <- Hlr. apply wp_store_writes.
    { replace n with (length r + S (n - length r - 1))%nat in Hsp by lia. apply space_app in Hsp as [_ [Hsp _]%space_S].
      by apply Hc1. }
    intros m2 Hw2. assert (writes m rp (r ++ [cy]) m2) as [Hh2 Hc2] by (eapply writes_app; [by split|done]).
    replace (Z.of_nat (length r) + 1) with (Z.of_nat (length (r ++ [cy]))) by (rewrite length_app; cbn; lia).
    assert (changed m m2 (λ q, within q rp n)) as Hc12.
    { eapply changed_mono; [exact Hc2|]. intros q [Hqb Hqr]. rewrite length_app in Hqr. cbn in Hqr. split; [done|lia]. }
    apply IH; try done; try lia.
    + apply Forall_app. auto.
    + by destruct r.
    + left. intros x Hx. rewrite last_snoc in Hx. injection Hx as <-. lia.
    + rewrite val_app, Hlr, <- Hvr. cbn [val]. lia.
    + rewrite length_app. cbn. lia.
    + by eapply changed_space.
    + intros r' m' ? ? ? ? ? ? Hc'. apply HQ; try done. by eapply changed_trans.
  - assert (cy = 0) as -> by (unfold word in Hcy; lia). rewrite Z.mul_0_r, Z.add_0_r in Hvr. rewrite <- Hlr.
    apply IH; try done; try lia.
    + eapply (sized_step lr r (info_bb info) (digits_val b seg)); try done; lia.
    + by eapply changed_space.
    + intros r' m' ? ? ? ? ? ? Hc'. apply HQ; try done. by eapply changed_trans.
Qed.

Lemma sized_post r : sized r → r ≠ [] → normal r ∨ r = [0].
Proof.
  intros [Hn|Hl] Hne; [by left|]. destruct r as [|x [|? ?]]; try done. destruct (Z.eq_dec x 0) as [->|Hx]; [by right|].
  left. intros y Hy. injection Hy as <-. done.
Qed.

(** The first chunk holds the digits that do not fill a whole one. *)
Lemma first_chunk (ds : list Z) :
  ds ≠ [] → ∃ seg post c, ds = seg ++ post ∧ Z.of_nat (length seg) = 1 + (Z.of_nat (length ds) - 1) mod info_exp info ∧
    length post = (c * Z.to_nat (info_exp info))%nat ∧ (c ≤ length ds)%nat.
Proof.
  intros Hne. destruct Hinfo as (He & _). assert (0 < length ds)%nat as Hl by (destruct ds; [done|cbn; lia]).
  set (sn := Z.of_nat (length ds)). pose proof (Z.mod_pos_bound (sn - 1) (info_exp info) ltac:(lia)) as Hm.
  pose proof (Z.div_mod (sn - 1) (info_exp info) ltac:(lia)) as Hdm. assert (0 ≤ (sn - 1) / info_exp info) as Hq by (apply Z.div_pos; lia).
  set (q := (sn - 1) / info_exp info) in *. set (r := (sn - 1) mod info_exp info) in *. clearbody q r.
  assert (1 * q ≤ info_exp info * q) by (apply Z.mul_le_mono_nonneg_r; lia). unfold sn in *. clear sn.
  destruct (split_at ds (Z.to_nat (1 + r)) ltac:(lia)) as (seg & post & -> & Hseg). exists seg, post, (Z.to_nat q).
  split; [done|]. split; [lia|]. split; [|lia]. rewrite length_app in *.
  apply Nat2Z.inj. rewrite Nat2Z.inj_mul, !Z2Nat.id by lia. lia.
Qed.

Lemma wp_mpn_set_str_other rp n ds m Q E :
  ds ≠ [] → digits b ds → space m rp n → b ^ Z.of_nat (length ds) ≤ wpow n →
  (∀ rn m', set_post m rp n (digits_val b ds) rn m' → 0 < rn → Q rn m') →
  wp (mpn_set_str_other rp ((Some <$> ds) ++ rest) (Z.of_nat (length ds)) b info) Q E m.
Proof.
  intros Hne Hd Hs Hroom HQ. unfold mpn_set_str_other. assert (0 < length ds)%nat as Hl by (destruct ds; [done|cbn; lia]).
  apply wp_bind, wp_massert; [apply Z.ltb_lt; lia|]. pose proof Hinfo as (He & Hbb & Hlt & _).
  destruct (first_chunk ds Hne) as (seg & post & c & Eds & Hseg & Hpost & Hc). rewrite <- Hseg. rewrite Eds in *.
  pose proof (Z.mod_pos_bound (Z.of_nat (length (seg ++ post)) - 1) (info_exp info) ltac:(lia)) as Hm.
  apply Forall_app in Hd as [Hds Hdp].
  assert (0 < length seg)%nat as Hseg0 by lia.
  destruct (chunk_digits [] seg post ltac:(by intros ->; cbn in Hseg0; lia) Hds ltac:(lia)) as (d & Hget & Hrd).
  cbn [app length Z.of_nat] in Hget, Hrd. apply wp_bind. eapply wp_lift_ok; [exact Hget|].
  replace (Z.to_nat (Z.of_nat (length seg) - 1)) with (length seg - 1)%nat by lia. apply wp_bind. eapply wp_lift_ok; [exact Hrd|].
  assert (1 ≤ n)%nat as Hn.
  { destruct n; [|lia]. rewrite wpow_0 in Hroom. pose proof (Z.pow_gt_1 b (Z.of_nat (length (seg ++ post))) ltac:(lia)) as Hp.
    assert (1 < b ^ Z.of_nat (length (seg ++ post))) by (apply Hp; lia). lia. }
  apply wp_bind, wp_store_writes; [apply (space_first _ _ n); [done|lia]|]. intros m1 [Hh1 Hc1].
  assert (changed m m1 (λ q, within q rp n)) as Hc1'.
  { eapply changed_mono; [exact Hc1|]. intros q [Hqb Hqr]. cbn in Hqr. split; [done|lia]. }
  pose proof (digits_val_bound b ltac:(lia) seg Hds) as Hsb.
  assert (b ^ Z.of_nat (length seg) ≤ info_bb info) by (rewrite Hbb; apply Z.pow_le_mono_r; lia).
  apply wp_bind. rewrite Nat2Z.id.
  apply (wp_set_str_other_loop rp n c _ seg post [digits_val b seg]); try done.
  - apply words_cons; [unfold word; lia|constructor].
  - by right.
  - cbn [val]. lia.
  - by eapply changed_space.
  - eapply Z.lt_le_trans; [|exact Hroom]. apply digits_val_bound; [lia|by apply Forall_app].
  - intros r m2 Hwr Hrne Hsz Hv Hh Hrn Hc2. apply wp_bind, wp_massert; [apply Z.eqb_refl|]. apply wp_ret, HQ.
    + exists r. split_and!; try done; [by apply sized_post|by eapply changed_trans].
    + destruct r; [done|cbn; lia].
Qed.
End other.

(** ** Powers of two *)

Section bits.
Context (bits : Z) (Hbits : 1 ≤ bits ≤ 8) (rest : arr Z) (rp : ptr) (n : nat).

(** Where the next digit goes: a new limb, or above [shift] bits of the highest limb *)
Definition bit_pos (k : nat) (lr : list Z) (shift : Z) : Prop :=
  (shift = 0 ∧ Z.of_nat k * bits = 64 * Z.of_nat (length lr)) ∨
  (0 < shift < 64 ∧ Z.of_nat k * bits + 64 = 64 * Z.of_nat (length lr) + shift).

(** A digit above the low [shift] bits of a limb *)
Lemma digit_into_limb lo x d shift k :
  words lo → word x → 0 ≤ d < 2 ^ bits → 0 < shift < 64 → Z.of_nat k * bits = 64 * Z.of_nat (length lo) + shift →
  val (lo ++ [x]) < 2 ^ (Z.of_nat k * bits) →
  ∃ x' h, Z.lor x (u64 (Z.shiftl d shift)) = x' ∧ Z.shiftr d (64 - shift) = h ∧ word x' ∧ word h ∧
    val (lo ++ [x'; h]) = d * 2 ^ (Z.of_nat k * bits) + val (lo ++ [x]) ∧ (shift + bits ≤ 64 → h = 0).
Proof.
  intros Hwl Hwx Hd Hs Hk Hv. rewrite val_app in Hv. cbn [val] in Hv. pose proof (val_bound lo Hwl) as Hb.
  rewrite Hk, Z.pow_add_r in * by lia. assert (wpow (length lo) = 2 ^ (64 * Z.of_nat (length lo))) as Hwp
    by (unfold wpow; change WB with (2 ^ 64); rewrite <- Z.pow_mul_r by lia; done). rewrite <- Hwp in *.
  pose proof (wpow_pos (length lo)) as Hp. assert (2 ^ bits ≤ 2 ^ 8) as Hb8 by (apply Z.pow_le_mono_r; lia).
  assert (x < 2 ^ shift) as Hx by (apply (Z.mul_lt_mono_pos_l (wpow (length lo))); unfold word in *; nia).
  destruct (limb_shl d shift ltac:(unfold word, WB; lia) Hs) as (h & l & Eh & El & Hdv & Rh & Rl).
  destruct (two_parts shift Hs) as (HW & Hp1 & Hp2). unfold word in Hwx.
  rewrite El, Z.lor_comm, lor_add by lia. exists (l * 2 ^ shift + x), h. split; [done|]. split; [done|].
  assert (word (l * 2 ^ shift + x)) as Hw' by (unfold word; rewrite HW; nia).
  assert (2 ^ shift ≤ 2 ^ 63) as H63 by (apply Z.pow_le_mono_r; lia).
  split; [done|]. split; [unfold word, WB; lia|]. split.
  - rewrite !val_app. cbn [val]. transitivity (val lo + wpow (length lo) * (x + (WB * h + l * 2 ^ shift))); [lia|]. rewrite <- Hdv. lia.
  - intros Hfit. assert (d < 2 ^ (64 - shift)) as Hd2 by (eapply Z.lt_le_trans; [apply Hd|]; apply Z.pow_le_mono_r; lia).
    rewrite <- Eh, Z.shiftr_div_pow2 by lia. apply Z.div_small. lia.
Qed.

(** [lr] are the limbs of the number [v] of [k] digits, and nothing but the array has
    changed since [m]. *)
Definition bits_state (m m' : mem) (v : Z) (k : nat) (lr : list Z) (shift : Z) : Prop :=
  words lr ∧ val lr = v ∧ 0 ≤ v < 2 ^ (Z.of_nat k * bits) ∧ holds m' rp lr ∧ bit_pos k lr shift ∧
  changed m m' (λ q, within q rp n).

Lemma within_changed m (lo : list Z) x m' :
  (length lo < n)%nat → writes m (padd rp (Z.of_nat (length lo))) [x] m' → changed m m' (λ q, within q rp n).
Proof.
  intros Hl Hw. eapply writes_changed; [exact Hw|]. intros q [Hqb Hqr]. unfold padd in *. cbn in *. split; [done|lia].
Qed.

Lemma holds_snoc m lo x m' :
  holds m rp lo → writes m (padd rp (Z.of_nat (length lo))) [x] m' → holds m' rp (lo ++ [x]).
Proof.
  intros Hh Hw. apply holds_app. split; [|apply Hw]. eapply writes_holds; [exact Hw| |done]. unfold apart, padd. cbn. lia.
Qed.

Lemma space_at m k : (k < n)%nat → space m rp n → is_Some (cell m (padd rp (Z.of_nat k))).
Proof. intros Hk Hs. by apply Hs. Qed.

Lemma next_bound d v k : 0 ≤ d < 2 ^ bits → 0 ≤ v < 2 ^ (Z.of_nat k * bits) →
  0 ≤ d * 2 ^ (Z.of_nat k * bits) + v < 2 ^ (Z.of_nat (S k) * bits).
Proof.
  intros Hd Hv. replace (Z.of_nat (S k) * bits) with (bits + Z.of_nat k * bits) by lia. rewrite Z.pow_add_r by lia. nia.
Qed.

Lemma wp_bits_new {A} m m1 v k lr d (f : unit → L A) Q E :
  bits_state m m1 v k lr 0 → 0 ≤ d < 2 ^ bits → Z.of_nat (S k) * bits ≤ 64 * Z.of_nat n → space m rp n →
  (∀ m', bits_state m m' (d * 2 ^ (Z.of_nat k * bits) + v) (S k) (lr ++ [d]) bits → wp (f tt) Q E m') →
  wp (u ← store (padd rp (Z.of_nat (length lr))) d; f u) Q E m1.
Proof.
  intros (Hw & Hv & Hvb & Hh & Hpos & Hc) Hd Hroom Hs HQ. destruct Hpos as [[_ Hk]|[? _]]; [|lia].
  assert (length lr < n)%nat as Hl by nia. apply wp_bind, wp_store_writes; [apply Hc; by apply space_at|].
  intros m2 Hw2. assert (2 ^ bits ≤ 2 ^ 8) as Hb8 by (apply Z.pow_le_mono_r; lia). apply HQ. split_and!.
  - apply Forall_app. split; [done|]. apply words_cons; [unfold word, WB; lia|constructor].
  - rewrite val_app, Hv. cbn [val]. rewrite Hk. unfold wpow. change WB with (2 ^ 64) at 1. rewrite <- Z.pow_mul_r by lia. lia.
  - by apply next_bound.
  - by apply next_bound.
  - by eapply holds_snoc.
  - right. rewrite length_app. cbn [length]. lia.
  - eapply changed_trans; [exact Hc|by eapply within_changed].
Qed.

Lemma wp_bits_into {A} m m1 v k lr d shift (f : Z → Z → L A) Q E :
  bits_state m m1 v k lr shift → 0 < shift → 0 ≤ d < 2 ^ bits → Z.of_nat (S k) * bits ≤ 64 * Z.of_nat n → space m rp n →
  (∀ lr' shift' m', bits_state m m' (d * 2 ^ (Z.of_nat k * bits) + v) (S k) lr' shift' →
     wp (f (Z.of_nat (length lr')) shift') Q E m') →
  wp (x ← load (padd rp (Z.of_nat (length lr) - 1));
      _ ← lift (shift_ok shift);
      _ ← store (padd rp (Z.of_nat (length lr) - 1)) (Z.lor x (u64 (Z.shiftl d shift)));
      if GMP_LIMB_BITS <=? shift + bits then
        if 0 <? shift + bits - GMP_LIMB_BITS then
          _ ← lift (shift_ok (bits - (shift + bits - GMP_LIMB_BITS)));
          _ ← store (padd rp (Z.of_nat (length lr))) (Z.shiftr d (bits - (shift + bits - GMP_LIMB_BITS)));
          f (Z.of_nat (length lr) + 1) (shift + bits - GMP_LIMB_BITS)
        else f (Z.of_nat (length lr)) (shift + bits - GMP_LIMB_BITS)
      else f (Z.of_nat (length lr)) (shift + bits)) Q E m1.
Proof.
  intros (Hw & Hv & Hvb & Hh & Hpos & Hc) Hs0 Hd Hroom Hs HQ. destruct Hpos as [[? _]|[Hsr Hk]]; [lia|].
  destruct lr as [|x lo _] using rev_ind; [cbn in Hk; lia|].
  rewrite length_app in *. cbn [length] in *. pose proof Hw as [Hwlo [Hwx _]%Forall_cons]%Forall_app.
  pose proof Hh as [Hhlo [Hhx _]%holds_cons]%holds_app.
  destruct (digit_into_limb lo x d shift k) as (x' & h & Ex & Eh & Hx' & Hh' & Hval & Hz); try done; try lia.
  replace (Z.of_nat (length lo + 1) - 1) with (Z.of_nat (length lo)) by lia.
  apply wp_bind. eapply wp_load; [done|]. apply wp_bind. eapply wp_lift_ok; [apply shift_ok_in; lia|]. rewrite Ex.
  apply wp_bind, wp_store_writes; [by rewrite Hhx|]. intros m2 Hw2. assert (length lo < n)%nat as Hlon by nia.
  pose proof (changed_trans _ _ _ _ Hc (within_changed _ _ _ _ Hlon Hw2)) as Hc2.
  pose proof (holds_snoc _ _ _ _ Hhlo Hw2) as Hh2. assert (words (lo ++ [x'])) as Hwn by (apply Forall_app; auto).
  assert (length (lo ++ [x']) = (length lo + 1)%nat) as Hlx by (by rewrite length_app). rewrite <- Hlx.
  pose proof (next_bound d v k Hd Hvb) as Hnb. rewrite Hv in Hval.
  assert (h = 0 → val (lo ++ [x']) = d * 2 ^ (Z.of_nat k * bits) + v) as Hval0.
  { intros ->. rewrite <- Hval, !val_app. cbn [val]. lia. }
  change GMP_LIMB_BITS with 64. destruct (Z.leb_spec 64 (shift + bits)) as [Hcross|Hin];
    [destruct (Z.ltb_spec 0 (shift + bits - 64))|].
  - apply wp_bind. eapply wp_lift_ok; [apply shift_ok_in; lia|].
    replace (bits - (shift + bits - 64)) with (64 - shift) by lia. rewrite Eh. assert (length (lo ++ [x']) < n)%nat as Hl2 by nia.
    apply wp_bind, wp_store_writes; [apply Hc2; by apply space_at|]. intros m3 Hw3.
    replace (lo ++ [x'; h]) with ((lo ++ [x']) ++ [h]) in Hval by (by rewrite <- app_assoc).
    replace (Z.of_nat (length (lo ++ [x'])) + 1) with (Z.of_nat (length ((lo ++ [x']) ++ [h]))) by (rewrite (length_app _ [h]); cbn; lia).
    apply HQ. split_and!; try done; [by apply Forall_app; auto|lia|lia|by eapply holds_snoc| |].
    + right. rewrite (length_app _ [h]). cbn [length]. lia.
    + eapply changed_trans; [exact Hc2|by eapply within_changed].
  - apply HQ. split_and!; try done; [apply Hval0, Hz; lia|lia|lia|]. left. lia.
  - apply HQ. split_and!; try done; [apply Hval0, Hz; lia|lia|lia|]. right. lia.
Qed.

(** [hs] is left to be read, [tl] is in the limbs [lr]. *)
Lemma wp_set_str_bits_loop j : ∀ hs tl lr shift m m1 Q E,
  length hs = j → digits (2 ^ bits) (hs ++ tl) → bits_state m m1 (digits_val (2 ^ bits) tl) (length tl) lr shift →
  space m rp n → Z.of_nat (length (hs ++ tl)) * bits ≤ 64 * Z.of_nat n →
  (∀ r m', words r → val r = digits_val (2 ^ bits) (hs ++ tl) → holds m' rp r → (length r ≤ n)%nat →
     changed m m' (λ q, within q rp n) → Q (Z.of_nat (length r)) m') →
  wp (set_str_bits_loop j rp ((Some <$> (hs ++ tl)) ++ rest) bits (Z.of_nat (length lr)) shift) Q E m1.
Proof.
  induction j as [|j IH]; intros hs tl lr shift m m1 Q E Hj Hd Hst Hs Hroom HQ; cbn [set_str_bits_loop].
  { destruct hs; [|done]. destruct Hst as (Hw & Hv & _ & Hh & Hpos & Hc). apply wp_ret, HQ; try done.
    cbn [app] in Hroom. destruct Hpos; lia. }
  destruct hs as [|d hs _] using rev_ind; [done|]. rewrite length_app in Hj. cbn in Hj. assert (length hs = j) as Hlh by lia.
  rewrite <- app_assoc in *. cbn [app] in *.
  apply wp_bind. eapply wp_lift_ok; [apply (arr_get_at _ rest _ d); [lia|by rewrite Nat2Z.id, <- Hlh, list_lookup_middle]|].
  pose proof Hd as [_ [Hdd Hdt]%Forall_cons]%Forall_app.
  assert (digits_val (2 ^ bits) (d :: tl) = d * 2 ^ (Z.of_nat (length tl) * bits) + digits_val (2 ^ bits) tl) as Hnew.
  { change (d :: tl) with ([d] ++ tl). rewrite digits_val_app, <- Z.pow_mul_r, (Z.mul_comm bits) by lia. done. }
  assert (Z.of_nat (S (length tl)) * bits ≤ 64 * Z.of_nat n) as Hroom1 by (rewrite length_app in Hroom; cbn [length] in Hroom; nia).
  destruct (Z.eqb_spec shift 0) as [->|Hs0].
  - apply (wp_bits_new m m1 (digits_val (2 ^ bits) tl) (length tl) lr d); try done. intros m2 Hst2. rewrite <- Hnew in Hst2.
    rewrite Z.add_0_l. replace (Z.of_nat (length lr) + 1) with (Z.of_nat (length (lr ++ [d]))) by (rewrite length_app; cbn; lia).
    by apply (IH hs (d :: tl) (lr ++ [d]) bits m).
  - assert (0 < shift) by (destruct Hst as (_ & _ & _ & _ & [[? _]|[? _]] & _); lia).
    apply (wp_bits_into m m1 (digits_val (2 ^ bits) tl) (length tl) lr d shift
      (set_str_bits_loop j rp ((Some <$> (hs ++ d :: tl)) ++ rest) bits)); try done.
    intros lr' shift' m2 Hst2. rewrite <- Hnew in Hst2. by apply (IH hs (d :: tl) lr' shift' m).
Qed.

(** The result is normalised; 0 has no limbs. *)
Lemma wp_set_str_bits_normal ds m Q E :
  digits (2 ^ bits) ds → space m rp n → (2 ^ bits) ^ Z.of_nat (length ds) ≤ wpow n →
  (∀ r m', words r → val r = digits_val (2 ^ bits) ds → normal r → holds m' rp r → (length r ≤ n)%nat → changed m m' (λ c, within c rp n) →
     Q (Z.of_nat (length r)) m') →
  wp (mpn_set_str_bits rp ((Some <$> ds) ++ rest) (Z.of_nat (length ds)) bits) Q E m.
Proof.
  intros Hd Hs Hroom HQ. unfold mpn_set_str_bits. rewrite Nat2Z.id. apply wp_bind.
  rewrite <- (app_nil_r ds) at 2. change 0 with (Z.of_nat (length (@nil Z))) at 1.
  apply (wp_set_str_bits_loop (length ds) ds [] [] 0 m); try done.
  - by rewrite app_nil_r.
  - unfold bits_state. split_and!; try done. by left.
  - rewrite app_nil_r. rewrite <- Z.pow_mul_r in Hroom by lia. unfold wpow in Hroom. change WB with (2 ^ 64) in Hroom.
    rewrite <- Z.pow_mul_r in Hroom by lia. apply Z.pow_le_mono_r_iff in Hroom; lia.
  - rewrite app_nil_r. intros r m1 Hw Hv Hh Hl Hc. apply wp_mpn_normalized_size; [done|]. intros k Hk Hn Er.
    rewrite Er in Hh. apply holds_app in Hh as [Hh _]. assert (length (take k r) = k) as Hlk by (rewrite length_take; lia). rewrite <- Hlk at 1.
    apply HQ; try done; [by apply Forall_take| |lia]. rewrite <- Hv. rewrite Er at 2. rewrite val_app, val_zeros. lia.
Qed.

Lemma wp_mpn_set_str_bits ds m Q E :
  digits (2 ^ bits) ds → space m rp n → (2 ^ bits) ^ Z.of_nat (length ds) ≤ wpow n →
  (∀ rn m', set_post m rp n (digits_val (2 ^ bits) ds) rn m' → Q rn m') →
  wp (mpn_set_str_bits rp ((Some <$> ds) ++ rest) (Z.of_nat (length ds)) bits) Q E m.
Proof.
  intros Hd Hs Hroom HQ. apply wp_set_str_bits_normal; try done. intros r m' Hw Hv Hn Hh Hl Hc. apply HQ. exists r. split_and!; try done. by left.
Qed.
End bits.

Lemma wp_mpn_set_str b rest rp n ds m Q E :
  2 ≤ b ≤ 256 → ds ≠ [] → digits b ds → space m rp n → b ^ Z.of_nat (length ds) ≤ wpow n →
  (∀ rn m', set_post m rp n (digits_val b ds) rn m' → Q rn m') →
  wp (mpn_set_str rp ((Some <$> ds) ++ rest) (Z.of_nat (length ds)) b) Q E m.
Proof.
  intros Hb Hne Hd Hs Hroom HQ. unfold mpn_set_str. rewrite (proj2 (Z.eqb_neq _ _)) by (destruct ds; [done|cbn; lia]).
  destruct (base_bits b Hb) as [->|[Hbits Hpow]].
  - cbn [Z.eqb negb]. destruct (mpn_get_base_info_spec b ltac:(unfold WB; lia)) as (info & -> & Hinfo).
    apply wp_bind. eapply wp_lift_ok; [done|]. apply (wp_mpn_set_str_other b info Hb Hinfo rest rp n); try done. intros rn m' Hp _. by apply HQ.
  - rewrite (proj2 (Z.eqb_neq _ _)) by lia. cbn [negb]. rewrite Hpow in Hd, Hroom.
    apply (wp_mpn_set_str_bits _ Hbits rest rp n); try done. intros rn m'. rewrite <- Hpow. apply HQ.
Qed.

(** ** The claims *)

(** [mpn_get_str] turns any number that is not 0 into the digits of its value in any base
    from 2 to 256, without a leading zero: for a power of two by picking bits out of the
    limbs, for any other base by repeated division (which ends, because each division takes
    more than half a limb off).  The digit array is written from its start and no further
    than the digits; of the memory only the number itself may be overwritten. *)
Theorem mpn_get_str_correct b up l sp m :
  2 ≤ b ≤ 256 → words l → normal l → l ≠ [] → holds m up l → mem_ok m → 64 * Z.of_nat (length l) + 8 < WB →
  val l < b ^ Z.of_nat (length sp) →
  ∃ ds m', mpn_get_str sp b up (Z.of_nat (length l)) m
      = Ok ((Z.of_nat (length ds), (Some <$> ds) ++ drop (length ds) sp), m') ∧
    digits b ds ∧ head ds ≠ Some 0 ∧ digits_val b ds = val l ∧ changed m m' (λ c, within c up (length l)).
Proof.
  intros. assert (wp (mpn_get_str sp b up (Z.of_nat (length l))) (str_post m up (length l) b (val l) sp) (λ _, False) m) as Hwp
    by (by apply wp_mpn_get_str).
  apply wp_Ok_inv in Hwp as (r & m' & Hrun & ds & -> & Hd & Hh & Hv & _ & Hc). by exists ds, m'.
Qed.

(** [mpn_set_str] reads digits in any base from 2 to 256 into limbs with the value that
    the digits denote.  The result has no leading zero limb, but for the single zero limb
    that a base other than a power of two gives for zeros. *)
Theorem mpn_set_str_correct b rest rp n ds m :
  2 ≤ b ≤ 256 → ds ≠ [] → digits b ds → space m rp n → b ^ Z.of_nat (length ds) ≤ wpow n →
  ∃ r m', mpn_set_str rp ((Some <$> ds) ++ rest) (Z.of_nat (length ds)) b m = Ok (Z.of_nat (length r), m') ∧
    words r ∧ val r = digits_val b ds ∧ (normal r ∨ r = [0]) ∧ holds m' rp r ∧
    changed m m' (λ c, within c rp n).
Proof.
  intros. assert (wp (mpn_set_str rp ((Some <$> ds) ++ rest) (Z.of_nat (length ds)) b)
    (set_post m rp n (digits_val b ds)) (λ _, False) m) as Hwp by (apply (wp_mpn_set_str b rest rp n); auto).
  apply wp_Ok_inv in Hwp as (rn & m' & Hrun & r & -> & Hw & Hv & Hn & Hh & _ & Hc). by exists r, m'.
Qed.

Lemma normal_val_inj l k : words l → words k → normal l → normal k → val l = val k → l = k.
Proof.
  intros Hwl Hwk Hnl Hnk Hv. apply val_inj; try done.
  assert (∀ l k, words l → words k → normal l → val l = val k → (length l ≤ length k)%nat) as Hle.
  { clear. intros l k Hwl Hwk Hn Hv. destruct (decide (l = [])) as [->|Hne]; [cbn; lia|].
    pose proof (normal_bound l Hwl Hn Hne). pose proof (val_bound k Hwk).
    destruct (Nat.le_gt_cases (length l) (length k)); [done|].
    assert (wpow (length k) ≤ wpow (length l - 1)) by (unfold wpow; apply Z.pow_le_mono_r; [done|lia]). lia. }
  apply Nat.le_antisymm; auto.
Qed.

(** A number without a leading zero digit has one representation. *)
Lemma digits_val_inj b ds es :
  2 ≤ b → digits b ds → digits b es → ds ≠ [] → es ≠ [] → head ds ≠ Some 0 → head es ≠ Some 0 →
  digits_val b ds = digits_val b es → ds = es.
Proof.
  intros Hb Hd He Hdn Hen Hdh Heh Hv. rewrite !digits_val_ldigits in Hv.
  assert (∀ l, l ≠ [] → head l ≠ Some 0 → normal (reverse l)) as Hnorm.
  { intros [|x l] _ Hx y Hy ->; [done|]. rewrite reverse_cons, last_snoc in Hy. injection Hy as ->. done. }
  assert (∀ l : list Z, l ≠ [] → reverse l ≠ []) as Hne.
  { intros l Hl Hr. apply Hl. by rewrite <- (reverse_involutive l), Hr. }
  apply (inj reverse). apply (ldigits_inj b); try by apply digits_reverse. { apply Nat.le_antisymm.
    - apply (ldigits_length b Hb); auto using digits_reverse.
    - apply (ldigits_length b Hb); auto using digits_reverse. }
  done.
Qed.

Lemma digits_room b ds : 2 ≤ b → digits b ds → ds ≠ [] → head ds ≠ Some 0 →
  b ^ Z.of_nat (length ds) ≤ b * digits_val b ds.
Proof.
  intros Hb Hd Hne Hh. destruct ds as [|d ds]; [done|]. apply Forall_cons in Hd as [Hd Hds].
  change (d :: ds) with ([d] ++ ds). rewrite digits_val_app. change (digits_val b [d]) with d.
  pose proof (digits_val_bound b Hb ds Hds). pose proof (pow_base_pos b Hb (length ds)).
  assert (d ≠ 0) by (intros ->; done). rewrite length_app. cbn [length]. rewrite Nat2Z.inj_add, Z.pow_add_r, Z.pow_1_r by lia. nia.
Qed.

(** The two conversions are inverse to each other, in any base from 2 to 256: a number
    turned into digits and back gives the same limbs, and digits without a leading zero
    turned into a number and back give the same digits. *)
Theorem mpn_str_roundtrip b m :
  2 ≤ b ≤ 256 → mem_ok m →
  (∀ up l sp rp n, words l → normal l → l ≠ [] → holds m up l → 64 * Z.of_nat (length l) + 8 < WB →
     val l < b ^ Z.of_nat (length sp) → space m rp n → b * val l ≤ wpow n →
     ∃ m', ('(sn, sp) ← mpn_get_str sp b up (Z.of_nat (length l)); mpn_set_str rp sp sn b) m
       = Ok (Z.of_nat (length l), m') ∧ holds m' rp l) ∧
  (∀ ds rest sp rp n, ds ≠ [] → digits b ds → head ds ≠ Some 0 → space m rp n → b ^ Z.of_nat (length ds) ≤ wpow n →
     64 * Z.of_nat n + 8 < WB → (length ds ≤ length sp)%nat →
     ∃ m', (rn ← mpn_set_str rp ((Some <$> ds) ++ rest) (Z.of_nat (length ds)) b; mpn_get_str sp b rp rn) m
       = Ok ((Z.of_nat (length ds), (Some <$> ds) ++ drop (length ds) sp), m')).
Proof.
  intros Hb Hm. split.
  - intros up l sp rp n Hw Hn Hne Hh Hlen Hroom Hs Hrn.
    assert (0 < val l) as Hpos by (pose proof (normal_bound l Hw Hn Hne); pose proof (wpow_pos (length l - 1)); lia).
    assert (wp ('(sn, sp) ← mpn_get_str sp b up (Z.of_nat (length l)); mpn_set_str rp sp sn b)
      (λ rn m', rn = Z.of_nat (length l) ∧ holds m' rp l) (λ _, False) m) as Hwp.
    { apply wp_bind. apply wp_mpn_get_str; try done. intros r m1 (ds & -> & Hd & Hhd & Hv & _ & Hc).
      assert (ds ≠ []) as Hdn by (intros ->; cbn in Hv; lia).
      apply (wp_mpn_set_str b _ rp n); try done; [by eapply changed_space|pose proof (digits_room b ds ltac:(lia) Hd Hdn Hhd); lia|].
      intros rn m2 (r & -> & Hwr & Hvr & [Hnr| ->] & Hhr & _); [|cbn in Hvr; lia].
      rewrite (normal_val_inj l r); try done. lia. }
    by apply wp_Ok_inv in Hwp as (rn & m' & Hrun & -> & Hh'); exists m'.
  - intros ds rest sp rp n Hne Hd Hhd Hs Hroom Hlen Hsp. pose proof (digits_room b ds ltac:(lia) Hd Hne Hhd) as Hlow.
    pose proof (digits_val_bound b ltac:(lia) ds Hd) as Hvb. pose proof (pow_base_pos b ltac:(lia) (length ds)) as Hpp.
    assert (wp (rn ← mpn_set_str rp ((Some <$> ds) ++ rest) (Z.of_nat (length ds)) b; mpn_get_str sp b rp rn)
      (λ r m', r = (Z.of_nat (length ds), (Some <$> ds) ++ drop (length ds) sp)) (λ _, False) m) as Hwp.
    { apply wp_bind. apply (wp_mpn_set_str b rest rp n); try done.
      intros rn m1 (r & -> & Hwr & Hvr & [Hnr| ->] & Hhr & Hrl & Hc); [|cbn in Hvr; lia].
      apply wp_mpn_get_str; try done; [by intros ->; cbn in Hvr; lia|by eapply changed_ok|lia| |].
      { rewrite Hvr. eapply Z.lt_le_trans; [apply Hvb|]. apply Z.pow_le_mono_r; lia. }
      intros x m2 (es & -> & He & Hhe & Hve & _). rewrite (digits_val_inj b es ds); try done; [lia| |lia].
      intros ->. cbn in Hve. lia. }
    by apply wp_Ok_inv in Hwp as (x & m' & Hrun & ->); exists m'.
Qed.

(** ** Witnesses *)

(** A number of three limbs, and room for three more *)
Definition str_demo : mem := mem_of [Some <$> demo_u; replicate 3 None].

Lemma mpn_get_str_correct_witness :
  ∃ ds m', mpn_get_str (replicate 40 None) 10 (1%positive, 0) 3 str_demo
      = Ok ((Z.of_nat (length ds), (Some <$> ds) ++ drop (length ds) (replicate 40 None)), m') ∧
    digits 10 ds ∧ head ds ≠ Some 0 ∧ digits_val 10 ds = val demo_u ∧
    changed str_demo m' (λ c, within c (1%positive, 0) 3).
Proof.
  apply (mpn_get_str_correct 10 (1%positive, 0) demo_u (replicate 40 None) str_demo);
    demo_side; try apply mem_ok_of; intros x Hx; by injection Hx as <-.
Defined.

Lemma mpn_set_str_correct_witness :
  ∃ r m', mpn_set_str (2%positive, 0) ((Some <$> [1; 0; 2]) ++ [None]) 3 8 str_demo = Ok (Z.of_nat (length r), m') ∧
    words r ∧ val r = digits_val 8 [1; 0; 2] ∧ (normal r ∨ r = [0]) ∧ holds m' (2%positive, 0) r ∧
    changed str_demo m' (λ c, within c (2%positive, 0) 3).
Proof.
  apply (mpn_set_str_correct 8 [None] (2%positive, 0) 3 [1; 0; 2] str_demo); demo_side.
Defined.

Lemma mpn_str_roundtrip_witness :
  ∃ m', ('(sn, sp) ← mpn_get_str (replicate 40 None) 10 (1%positive, 0) 3; mpn_set_str (2%positive, 0) sp sn 10) str_demo
     = Ok (3, m') ∧ holds m' (2%positive, 0) demo_u.
Proof.
  apply (proj1 (mpn_str_roundtrip 10 str_demo ltac:(lia) (mem_ok_of _)) (1%positive, 0) demo_u (replicate 40 None)
    (2%positive, 0) 3%nat); demo_side; intros x Hx; by injection Hx as <-.
Defined.
