(* ===== verification/Mpz.v ===== *)
(** * Integers of any size (examples/multiprecision/mini-gmp/mini-gmp.c)

    The [mpz] functions: memory of integer variables, assignment, comparison, addition,
    subtraction, multiplication and division with the three roundings.  Arguments are
    pointers to [__mpz_struct]s and may be equal, so the structs live in a store; the limbs
    live in the memory of [Mpn]. *)

From S2P Require Import Prelude CString Queue State UInt64 Mpn MpnDiv.

(** ** The store *)

(** [_mp_size] has the sign of the number; its absolute value is the number of limbs. *)
Record mpz_struct := mk_mpz {
  mp_alloc : Z;
  mp_size : Z;
  mp_d : ptr
}.
Abbreviation mpz_t := positive.

Record zstate := mk_zstate {
  z_mem : mem;
  z_next : positive;
  z_vars : gmap positive mpz_struct
}.
Abbreviation MZ := (M zstate).

Definition set_zmem (m : mem) (s : zstate) : zstate := mk_zstate m (z_next s) (z_vars s).
Definition limbs {A} (f : L A) : MZ A := zoom z_mem set_zmem f.

(** A struct that was never initialised has no defined fields. *)
Definition get_mpz (r : mpz_t) : MZ mpz_struct := λ s,
  match z_vars s !! r with Some z => Ok (z, s) | None => Err Indeterminate end.
Definition put_mpz (r : mpz_t) (z : mpz_struct) : MZ unit := λ s,
  Ok (tt, mk_zstate (z_mem s) (z_next s) (<[r := z]> (z_vars s))).
(** [r->_mp_size = n], where the field is an [int] *)
Definition set_size (r : mpz_t) (n : Z) : MZ unit :=
  z ← get_mpz r; put_mpz r (mk_mpz (mp_alloc z) (cast_int n) (mp_d z)).
(** A local variable [mpz_t t] *)
Definition local_mpz : MZ mpz_t := λ s,
  Ok (z_next s, mk_zstate (z_mem s) (Pos.succ (z_next s)) (delete (z_next s) (z_vars s))).

Definition zassert (b : bool) : MZ unit := lift (c_assert b).
Definition zassert_nocarry (x : L Z) : MZ unit := limbs (gmp_assert_nocarry x).

(** [GMP_CMP], [GMP_NEG_CAST] to an unsigned type, [~GMP_LIMB_HIGHBIT] *)
Definition GMP_CMP (a b : Z) : Z := b2z (b <? a) - b2z (a <? b).
Definition GMP_NEG_CAST (x : Z) : Z := u64 (- u64 (u64 (x + 1) - 1)).
Definition low_bits : Z := limb_not GMP_LIMB_HIGHBIT.

(** ** Memory *)

(** The static limb that a new integer points to; it is never accessed. *)
Definition dummy_limb : ptr := (1%positive, 0).

Definition mpz_init (r : mpz_t) : MZ unit := put_mpz r (mk_mpz 0 0 dummy_limb).

Definition mpz_init2 (r : mpz_t) (bits : Z) : MZ unit :=
  let bits := u64 (bits - b2z (negb (bits =? 0))) in
  let rn := 1 + bits / GMP_LIMB_BITS in
  d ← limbs (gmp_xalloc_limbs rn);
  put_mpz r (mk_mpz (cast_int rn) 0 d).

Definition mpz_clear (r : mpz_t) : MZ unit :=
  z ← get_mpz r;
  if negb (mp_alloc z =? 0) then limbs (gmp_free (mp_d z)) else mret tt.

Definition mpz_realloc (r : mpz_t) (size : Z) : MZ ptr :=
  let size := Z.max size 1 in
  z ← get_mpz r;
  d ← (if negb (mp_alloc z =? 0) then limbs (gmp_xrealloc_limbs (mp_d z) size)
       else limbs (gmp_xalloc_limbs size));
  _ ← put_mpz r (mk_mpz (cast_int size) (if size <? Z.abs (mp_size z) then 0 else mp_size z) d);
  mret d.

Definition MPZ_REALLOC (r : mpz_t) (n : Z) : MZ ptr :=
  z ← get_mpz r;
  if mp_alloc z <? n then mpz_realloc r n else mret (mp_d z).

(** ** Assignment and conversion *)

Definition mpz_set_ui (r : mpz_t) (x : Z) : MZ unit :=
  if 0 <? x then
    _ ← set_size r 1;
    rp ← MPZ_REALLOC r 1;
    limbs (store rp x)
  else set_size r 0.

Definition mpz_set_si (r : mpz_t) (x : Z) : MZ unit :=
  if 0 <=? x then mpz_set_ui r x
  else
    _ ← set_size r (-1);
    rp ← MPZ_REALLOC r 1;
    limbs (store rp (GMP_NEG_CAST x)).

Definition mpz_set (r x : mpz_t) : MZ unit :=
  if negb (bool_decide (r = x)) then
    zx ← get_mpz x;
    let n := Z.abs (mp_size zx) in
    rp ← MPZ_REALLOC r n;
    zx ← get_mpz x;
    _ ← limbs (mpn_copyi rp (mp_d zx) n);
    set_size r (mp_size zx)
  else mret tt.

Definition mpz_init_set_si (r : mpz_t) (x : Z) : MZ unit := _ ← mpz_init r; mpz_set_si r x.
Definition mpz_init_set_ui (r : mpz_t) (x : Z) : MZ unit := _ ← mpz_init r; mpz_set_ui r x.
Definition mpz_init_set (r x : mpz_t) : MZ unit := _ ← mpz_init r; mpz_set r x.

Definition mpz_fits_slong_p (u : mpz_t) : MZ bool :=
  z ← get_mpz u;
  if mp_size z =? 1 then d ← limbs (load (mp_d z)); mret (d <? GMP_LIMB_HIGHBIT)
  else if mp_size z =? -1 then d ← limbs (load (mp_d z)); mret (d <=? GMP_LIMB_HIGHBIT)
  else mret (mp_size z =? 0).

Definition mpz_fits_ulong_p (u : mpz_t) : MZ bool :=
  z ← get_mpz u; mret (mp_size z =? b2z (0 <? mp_size z)).

Definition mpz_get_ui (u : mpz_t) : MZ Z :=
  z ← get_mpz u;
  if mp_size z =? 0 then mret 0 else limbs (load (mp_d z)).

Definition mpz_get_si (u : mpz_t) : MZ Z :=
  z ← get_mpz u;
  if mp_size z <? 0 then
    d ← limbs (load (mp_d z));
    mret (-1 - Z.land (u64 (d - 1)) low_bits)
  else
    d ← mpz_get_ui u;
    mret (Z.land d low_bits).

Definition mpz_size (u : mpz_t) : MZ Z := z ← get_mpz u; mret (Z.abs (mp_size z)).

Definition mpz_getlimbn (u : mpz_t) (n : Z) : MZ Z :=
  z ← get_mpz u;
  if (0 <=? n) && (n <? Z.abs (mp_size z)) then limbs (load (padd (mp_d z) n)) else mret 0.

Definition mpz_realloc2 (x : mpz_t) (n : Z) : MZ unit :=
  _ ← mpz_realloc x (1 + u64 (n - b2z (negb (n =? 0))) / GMP_LIMB_BITS); mret tt.

Definition mpz_limbs_read (x : mpz_t) : MZ ptr := z ← get_mpz x; mret (mp_d z).
Definition mpz_limbs_modify (x : mpz_t) (n : Z) : MZ ptr := _ ← zassert (0 <? n); MPZ_REALLOC x n.
Definition mpz_limbs_write (x : mpz_t) (n : Z) : MZ ptr := mpz_limbs_modify x n.
Definition mpz_limbs_finish (x : mpz_t) (xs : Z) : MZ unit :=
  z ← get_mpz x;
  xn ← limbs (mpn_normalized_size (mp_d z) (Z.abs xs));
  set_size x (if xs <? 0 then - xn else xn).
Definition mpz_roinit_n (x : mpz_t) (xp : ptr) (xs : Z) : MZ mpz_t :=
  _ ← put_mpz x (mk_mpz 0 0 xp);
  _ ← mpz_limbs_finish x xs;
  mret x.

(** ** Comparison *)

Definition mpz_sgn (u : mpz_t) : MZ Z := z ← get_mpz u; mret (GMP_CMP (mp_size z) 0).

Definition mpz_cmp_ui (u : mpz_t) (v : Z) : MZ Z :=
  z ← get_mpz u;
  if 1 <? mp_size z then mret 1
  else if mp_size z <? 0 then mret (-1)
  else x ← mpz_get_ui u; mret (GMP_CMP x v).

Definition mpz_cmp_si (u : mpz_t) (v : Z) : MZ Z :=
  z ← get_mpz u;
  if mp_size z <? -1 then mret (-1)
  else if 0 <=? v then mpz_cmp_ui u v
  else if 0 <=? mp_size z then mret 1
  else x ← limbs (load (mp_d z)); mret (GMP_CMP (GMP_NEG_CAST v) x).

Definition mpz_cmp (a b : mpz_t) : MZ Z :=
  za ← get_mpz a;
  zb ← get_mpz b;
  if negb (mp_size za =? mp_size zb) then mret (if mp_size za <? mp_size zb then -1 else 1)
  else if 0 <=? mp_size za then limbs (mpn_cmp (mp_d za) (mp_d zb) (mp_size za))
  else limbs (mpn_cmp (mp_d zb) (mp_d za) (- mp_size za)).

Definition mpz_cmpabs_ui (u : mpz_t) (v : Z) : MZ Z :=
  z ← get_mpz u;
  if 1 <? Z.abs (mp_size z) then mret 1 else x ← mpz_get_ui u; mret (GMP_CMP x v).

Definition mpz_cmpabs (u v : mpz_t) : MZ Z :=
  zu ← get_mpz u;
  zv ← get_mpz v;
  limbs (mpn_cmp4 (mp_d zu) (Z.abs (mp_size zu)) (mp_d zv) (Z.abs (mp_size zv))).

Definition mpz_abs (r u : mpz_t) : MZ unit :=
  _ ← mpz_set r u; z ← get_mpz r; set_size r (Z.abs (mp_size z)).
Definition mpz_neg (r u : mpz_t) : MZ unit :=
  _ ← mpz_set r u; z ← get_mpz r; set_size r (- mp_size z).

Definition mpz_swap (u v : mpz_t) : MZ unit :=
  zu ← get_mpz u;
  zv ← get_mpz v;
  _ ← put_mpz u zv;
  put_mpz v zu.

(** ** Addition and subtraction *)

Definition mpz_abs_add_ui (r a : mpz_t) (b : Z) : MZ Z :=
  za ← get_mpz a;
  let an := Z.abs (mp_size za) in
  if an =? 0 then
    rp ← MPZ_REALLOC r 1;
    _ ← limbs (store rp b);
    mret (b2z (0 <? b))
  else
    rp ← MPZ_REALLOC r (an + 1);
    za ← get_mpz a;
    cy ← limbs (mpn_add_1 rp (mp_d za) an b);
    _ ← limbs (store (padd rp an) cy);
    mret (an + cy).

Definition mpz_abs_sub_ui (r a : mpz_t) (b : Z) : MZ Z :=
  za ← get_mpz a;
  let an := Z.abs (mp_size za) in
  if an =? 0 then
    rp ← MPZ_REALLOC r 1;
    _ ← limbs (store rp b);
    mret (- b2z (0 <? b))
  else
    rp ← MPZ_REALLOC r an;
    za ← get_mpz a;
    less ← (if an =? 1 then x ← limbs (load (mp_d za)); mret (x <? b) else mret false);
    if less : bool then
      x ← limbs (load (mp_d za));
      _ ← limbs (store rp (u64 (b - x)));
      mret (-1)
    else
      _ ← zassert_nocarry (mpn_sub_1 rp (mp_d za) an b);
      limbs (mpn_normalized_size rp an).

Definition mpz_add_ui (r a : mpz_t) (b : Z) : MZ unit :=
  za ← get_mpz a;
  if 0 <=? mp_size za then n ← mpz_abs_add_ui r a b; set_size r n
  else n ← mpz_abs_sub_ui r a b; set_size r (- n).
Definition mpz_sub_ui (r a : mpz_t) (b : Z) : MZ unit :=
  za ← get_mpz a;
  if mp_size za <? 0 then n ← mpz_abs_add_ui r a b; set_size r (- n)
  else n ← mpz_abs_sub_ui r a b; set_size r n.
Definition mpz_ui_sub (r : mpz_t) (a : Z) (b : mpz_t) : MZ unit :=
  zb ← get_mpz b;
  if mp_size zb <? 0 then n ← mpz_abs_add_ui r b a; set_size r n
  else n ← mpz_abs_sub_ui r b a; set_size r (- n).

Definition mpz_abs_add (r a b : mpz_t) : MZ Z :=
  za ← get_mpz a;
  zb ← get_mpz b;
  let an := Z.abs (mp_size za) in
  let bn := Z.abs (mp_size zb) in
  let '(a, b, an, bn) := if an <? bn then (b, a, bn, an) else (a, b, an, bn) in
  rp ← MPZ_REALLOC r (an + 1);
  za ← get_mpz a;
  zb ← get_mpz b;
  cy ← limbs (mpn_add rp (mp_d za) an (mp_d zb) bn);
  _ ← limbs (store (padd rp an) cy);
  mret (an + cy).

Definition mpz_abs_sub (r a b : mpz_t) : MZ Z :=
  za ← get_mpz a;
  zb ← get_mpz b;
  let an := Z.abs (mp_size za) in
  let bn := Z.abs (mp_size zb) in
  cmp ← limbs (mpn_cmp4 (mp_d za) an (mp_d zb) bn);
  if 0 <? cmp then
    rp ← MPZ_REALLOC r an;
    za ← get_mpz a;
    zb ← get_mpz b;
    _ ← zassert_nocarry (mpn_sub rp (mp_d za) an (mp_d zb) bn);
    limbs (mpn_normalized_size rp an)
  else if cmp <? 0 then
    rp ← MPZ_REALLOC r bn;
    za ← get_mpz a;
    zb ← get_mpz b;
    _ ← zassert_nocarry (mpn_sub rp (mp_d zb) bn (mp_d za) an);
    n ← limbs (mpn_normalized_size rp bn);
    mret (- n)
  else mret 0.

Definition mpz_add (r a b : mpz_t) : MZ unit :=
  za ← get_mpz a;
  zb ← get_mpz b;
  rn ← (if 0 <=? Z.lxor (mp_size za) (mp_size zb) then mpz_abs_add r a b else mpz_abs_sub r a b);
  za ← get_mpz a;
  set_size r (if 0 <=? mp_size za then rn else - rn).

Definition mpz_sub (r a b : mpz_t) : MZ unit :=
  za ← get_mpz a;
  zb ← get_mpz b;
  rn ← (if 0 <=? Z.lxor (mp_size za) (mp_size zb) then mpz_abs_sub r a b else mpz_abs_add r a b);
  za ← get_mpz a;
  set_size r (if 0 <=? mp_size za then rn else - rn).

(** ** Multiplication *)

Definition mpz_mul_ui (r u : mpz_t) (v : Z) : MZ unit :=
  zu ← get_mpz u;
  let us := mp_size zu in
  if (us =? 0) || (v =? 0) then set_size r 0
  else
    let un := Z.abs us in
    tp ← MPZ_REALLOC r (un + 1);
    zu ← get_mpz u;
    cy ← limbs (mpn_mul_1 tp (mp_d zu) un v);
    _ ← limbs (store (padd tp un) cy);
    let un := un + b2z (0 <? cy) in
    set_size r (if us <? 0 then - un else un).

Definition mpz_mul_si (r u : mpz_t) (v : Z) : MZ unit :=
  if v <? 0 then
    _ ← mpz_mul_ui r u (GMP_NEG_CAST v);
    mpz_neg r r
  else mpz_mul_ui r u v.

Definition mpz_mul (r u v : mpz_t) : MZ unit :=
  zu ← get_mpz u;
  zv ← get_mpz v;
  let un := mp_size zu in
  let vn := mp_size zv in
  if (un =? 0) || (vn =? 0) then set_size r 0
  else
    let sign := Z.lxor un vn <? 0 in
    let un := Z.abs un in
    let vn := Z.abs vn in
    t ← local_mpz;
    _ ← mpz_init2 t (u64 ((un + vn) * GMP_LIMB_BITS));
    zt ← get_mpz t;
    let tp := mp_d zt in
    zu ← get_mpz u;
    zv ← get_mpz v;
    _ ← (if vn <=? un then limbs (mpn_mul tp (mp_d zu) un (mp_d zv) vn)
         else limbs (mpn_mul tp (mp_d zv) vn (mp_d zu) un));
    let rn := un + vn in
    top ← limbs (load (padd tp (rn - 1)));
    let rn := rn - b2z (top =? 0) in
    _ ← set_size t (if sign then - rn else rn);
    _ ← mpz_swap r t;
    mpz_clear t.

Definition mpz_mul_2exp (r u : mpz_t) (bits : Z) : MZ unit :=
  zu ← get_mpz u;
  let un := Z.abs (mp_size zu) in
  if un =? 0 then set_size r 0
  else
    let lm := bits / GMP_LIMB_BITS in
    let shift := bits mod GMP_LIMB_BITS in
    let rn := un + lm + b2z (0 <? shift) in
    rp ← MPZ_REALLOC r rn;
    zu ← get_mpz u;
    rn ← (if 0 <? shift then
            cy ← limbs (mpn_lshift (padd rp lm) (mp_d zu) un shift);
            _ ← limbs (store (padd rp (rn - 1)) cy);
            mret (rn - b2z (cy =? 0))
          else
            _ ← limbs (mpn_copyd (padd rp lm) (mp_d zu) un);
            mret rn);
    _ ← limbs (mpn_zero rp lm);
    zu ← get_mpz u;
    set_size r (if mp_size zu <? 0 then - rn else rn).

Definition mpz_addmul_ui (r u : mpz_t) (v : Z) : MZ unit :=
  t ← local_mpz; _ ← mpz_init t; _ ← mpz_mul_ui t u v; _ ← mpz_add r r t; mpz_clear t.
Definition mpz_submul_ui (r u : mpz_t) (v : Z) : MZ unit :=
  t ← local_mpz; _ ← mpz_init t; _ ← mpz_mul_ui t u v; _ ← mpz_sub r r t; mpz_clear t.
Definition mpz_addmul (r u v : mpz_t) : MZ unit :=
  t ← local_mpz; _ ← mpz_init t; _ ← mpz_mul t u v; _ ← mpz_add r r t; mpz_clear t.
Definition mpz_submul (r u v : mpz_t) : MZ unit :=
  t ← local_mpz; _ ← mpz_init t; _ ← mpz_mul t u v; _ ← mpz_sub r r t; mpz_clear t.

(** ** Division *)

Inductive mpz_div_round_mode := GMP_DIV_FLOOR | GMP_DIV_CEIL | GMP_DIV_TRUNC.
#[export] Instance round_mode_dec : EqDecision mpz_div_round_mode.
Proof. solve_decision. Defined.

(** [if (q) ...] on a pointer that may be null *)
Definition when_some (q : option mpz_t) (f : mpz_t → MZ unit) : MZ unit :=
  match q with Some q => f q | None => mret tt end.

(** [gmp_die] prints its message and aborts. *)
Definition SIGABRT : Z := 6.
Definition gmp_die {A} : MZ A := raise (Killed SIGABRT).

(** The result tells whether the remainder is not 0.  Division by zero aborts with a
    message. *)
Definition mpz_div_qr (q r : option mpz_t) (n d : mpz_t) (mode : mpz_div_round_mode) : MZ bool :=
  zn ← get_mpz n;
  zd ← get_mpz d;
  let ns := mp_size zn in
  let ds := mp_size zd in
  if ds =? 0 then gmp_die
  else if ns =? 0 then
    _ ← when_some q (λ q, set_size q 0);
    _ ← when_some r (λ r, set_size r 0);
    mret false
  else
    let nn := Z.abs ns in
    let dn := Z.abs ds in
    let qs := Z.lxor ds ns in
    if nn <? dn then
      _ ← (if bool_decide (mode = GMP_DIV_CEIL) && (0 <=? qs) then
             _ ← when_some r (λ r, mpz_sub r n d);
             when_some q (λ q, mpz_set_ui q 1)
           else if bool_decide (mode = GMP_DIV_FLOOR) && (qs <? 0) then
             _ ← when_some r (λ r, mpz_add r n d);
             when_some q (λ q, mpz_set_si q (-1))
           else
             _ ← when_some r (λ r, mpz_set r n);
             when_some q (λ q, set_size q 0));
      mret true
    else
      tr ← local_mpz;
      _ ← mpz_init_set tr n;
      zr ← get_mpz tr;
      let np := mp_d zr in
      let qn := nn - dn + 1 in
      tq ← local_mpz;
      qp ← (match q with
            | Some _ =>
               _ ← mpz_init2 tq (u64 (qn * GMP_LIMB_BITS));
               zq ← get_mpz tq;
               mret (Some (mp_d zq))
            | None => mret None
            end);
      zd ← get_mpz d;
      _ ← limbs (mpn_div_qr qp np nn (mp_d zd) dn);
      _ ← (match qp with
           | Some qp =>
              top ← limbs (load (padd qp (qn - 1)));
              let qn := qn - b2z (top =? 0) in
              set_size tq (if qs <? 0 then - qn else qn)
           | None => mret tt
           end);
      rn ← limbs (mpn_normalized_size np dn);
      _ ← set_size tr (if ns <? 0 then - rn else rn);
      _ ← (if bool_decide (mode = GMP_DIV_FLOOR) && (qs <? 0) && negb (rn =? 0) then
             _ ← when_some q (λ _, mpz_sub_ui tq tq 1);
             when_some r (λ _, mpz_add tr tr d)
           else if bool_decide (mode = GMP_DIV_CEIL) && (0 <=? qs) && negb (rn =? 0) then
             _ ← when_some q (λ _, mpz_add_ui tq tq 1);
             when_some r (λ _, mpz_sub tr tr d)
           else mret tt);
      _ ← when_some q (λ q, _ ← mpz_swap tq q; mpz_clear tq);
      _ ← when_some r (λ r, mpz_swap tr r);
      _ ← mpz_clear tr;
      mret (negb (rn =? 0)).

Definition mpz_cdiv_qr (q r n d : mpz_t) : MZ unit := _ ← mpz_div_qr (Some q) (Some r) n d GMP_DIV_CEIL; mret tt.
Definition mpz_fdiv_qr (q r n d : mpz_t) : MZ unit := _ ← mpz_div_qr (Some q) (Some r) n d GMP_DIV_FLOOR; mret tt.
Definition mpz_tdiv_qr (q r n d : mpz_t) : MZ unit := _ ← mpz_div_qr (Some q) (Some r) n d GMP_DIV_TRUNC; mret tt.
Definition mpz_cdiv_q (q n d : mpz_t) : MZ unit := _ ← mpz_div_qr (Some q) None n d GMP_DIV_CEIL; mret tt.
Definition mpz_fdiv_q (q n d : mpz_t) : MZ unit := _ ← mpz_div_qr (Some q) None n d GMP_DIV_FLOOR; mret tt.
Definition mpz_tdiv_q (q n d : mpz_t) : MZ unit := _ ← mpz_div_qr (Some q) None n d GMP_DIV_TRUNC; mret tt.
Definition mpz_cdiv_r (r n d : mpz_t) : MZ unit := _ ← mpz_div_qr None (Some r) n d GMP_DIV_CEIL; mret tt.
Definition mpz_fdiv_r (r n d : mpz_t) : MZ unit := _ ← mpz_div_qr None (Some r) n d GMP_DIV_FLOOR; mret tt.
Definition mpz_tdiv_r (r n d : mpz_t) : MZ unit := _ ← mpz_div_qr None (Some r) n d GMP_DIV_TRUNC; mret tt.
Definition mpz_mod (r n d : mpz_t) : MZ unit :=
  zd ← get_mpz d;
  _ ← mpz_div_qr None (Some r) n d (if 0 <=? mp_size zd then GMP_DIV_FLOOR else GMP_DIV_CEIL);
  mret tt.
