(* ===== verification/GmpAlloc.v ===== *)
(** * The allocation functions of mini-gmp (examples/multiprecision/mini-gmp/mini-gmp.c)

    All memory comes through three function pointers, which the user of the library can set.
    The functions of the C library below the defaults are parameters; [limb_malloc], an
    allocator on the limb memory that never refuses, shows that [Mpn] models allocation with
    the default functions. *)

From S2P Require Import Prelude CString Queue State UInt64 Mpn Mpz.

(** [malloc] and [realloc] give a null pointer when there is no memory. *)
Class Malloc (heap block : Type) := {
  c_malloc_bytes : Z → M heap (option block);
  c_realloc_bytes : block → Z → M heap (option block);
  c_free_bytes : block → M heap unit
}.

Section alloc.
Context {heap block : Type} `{Malloc heap block}.

Definition die {A} : M heap A := raise (Killed SIGABRT).

Definition gmp_default_alloc (size : Z) : M heap block :=
  _ ← lift (c_assert (0 <? size));
  p ← c_malloc_bytes size;
  match p with Some p => mret p | None => die end.

Definition gmp_default_realloc (old : block) (old_size new_size : Z) : M heap block :=
  p ← c_realloc_bytes old new_size;
  match p with Some p => mret p | None => die end.

Definition gmp_default_free (p : block) (size : Z) : M heap unit := c_free_bytes p.

(** The three static pointers *)
Record memory_functions := mk_functions {
  allocate_func : Z → M heap block;
  reallocate_func : block → Z → Z → M heap block;
  free_func : block → Z → M heap unit
}.
Definition initial_functions : memory_functions := mk_functions gmp_default_alloc gmp_default_realloc gmp_default_free.

(** The arguments may be null; the results are what the three pointers point to afterwards. *)
Definition mp_get_memory_functions (mf : memory_functions) (alloc : option (Z → M heap block)) (realloc : option (block → Z → Z → M heap block)) (free : option (block → Z → M heap unit)) :=
  ((λ _, allocate_func mf) <$> alloc, (λ _, reallocate_func mf) <$> realloc, (λ _, free_func mf) <$> free).

Definition mp_set_memory_functions (alloc : option (Z → M heap block)) (realloc : option (block → Z → Z → M heap block)) (free : option (block → Z → M heap unit)) : memory_functions :=
  mk_functions (default gmp_default_alloc alloc) (default gmp_default_realloc realloc) (default gmp_default_free free).

(** The uses of the pointers *)
Definition xalloc_limbs (mf : memory_functions) (size : Z) : M heap block := allocate_func mf (u64 (size * 8)).
Definition xrealloc_limbs (mf : memory_functions) (old : block) (size : Z) : M heap block :=
  _ ← lift (c_assert (0 <? size)); reallocate_func mf old 0 (u64 (size * 8)).
Definition xfree (mf : memory_functions) (p : block) : M heap unit := free_func mf p 0.

(** The default allocator gives a block or ends the program, whatever [malloc] does. *)
Lemma gmp_default_alloc_dies size h : 0 < size → (c_malloc_bytes size h = Ok (None, h)) → gmp_default_alloc size h = Err (Killed SIGABRT).
Proof. intros Hs Hm. unfold gmp_default_alloc, mbind, M_bind, lift. rewrite (proj2 (Z.ltb_lt 0 size)) by done. cbn. by rewrite Hm. Qed.

Lemma set_null_functions : mp_set_memory_functions None None None = initial_functions.
Proof. done. Qed.
End alloc.

(** ** The allocator of the model *)

#[export] Instance limb_malloc : Malloc mem ptr := {|
  c_malloc_bytes n m := Ok (Some (m_next m, 0), mk_mem (Pos.succ (m_next m)) (<[m_next m := arr_new (n / 8)]> (m_blocks m)));
  c_realloc_bytes old n m :=
    match m_blocks m !! old.1 with
    | Some a => if old.2 =? 0 then Ok (Some (m_next m, 0), mk_mem (Pos.succ (m_next m)) (<[m_next m := arr_realloc a (n / 8)]> (delete old.1 (m_blocks m)))) else Err DanglingPtr
    | None => Err DanglingPtr
    end;
  c_free_bytes := gmp_free
|}.

Lemma limb_bytes size : 0 ≤ size < 2 ^ 60 → u64 (size * 8) / 8 = size.
Proof. intros Hs. rewrite u64_small by (unfold WB; lia). apply Z.div_mul. lia. Qed.

Lemma default_alloc_limbs size m : 0 ≤ size < 2 ^ 60 → xalloc_limbs initial_functions size m = gmp_xalloc_limbs size m.
Proof.
  intros Hs. pose proof (limb_bytes size Hs) as Hb. unfold xalloc_limbs, gmp_xalloc_limbs, initial_functions. cbn [allocate_func].
  unfold gmp_default_alloc, mbind, M_bind, lift. assert ((0 <? u64 (size * 8)) = (0 <? size)) as -> by (rewrite u64_small by (unfold WB; lia); destruct (Z.ltb_spec 0 size), (Z.ltb_spec 0 (size * 8)); done || lia).
  destruct (0 <? size); [|done]. cbn. by rewrite Hb.
Qed.

Lemma default_realloc_limbs old size m : 0 ≤ size < 2 ^ 60 → xrealloc_limbs initial_functions old size m = gmp_xrealloc_limbs old size m.
Proof.
  intros Hs. pose proof (limb_bytes size Hs) as Hb. unfold xrealloc_limbs, gmp_xrealloc_limbs, mbind, M_bind, lift. destruct (0 <? size); [|done]. cbn -[u64]. unfold gmp_default_realloc, mbind, M_bind. cbn -[u64]. rewrite Hb.
  destruct (m_blocks m !! old.1); [|done]. by destruct (old.2 =? 0).
Qed.

Lemma default_free_limbs p m : xfree initial_functions p m = gmp_free p m.
Proof. done. Qed.
