(* ===== verification/MpzDouble.v ===== *)
(** * Integers and doubles (examples/multiprecision/mini-gmp/mini-gmp.c)

    [mpz_set_d], [mpz_get_d] and the comparisons.  Doubles are evaluated in their own
    precision, as on machines with SSE2. *)

From Stdlib Require Import SpecFloat.
From S2P Require Import Prelude CString Queue State UInt64 Mpn MpnDiv Mpz Double.

Definition d_zero : double := S754_zero false.
Definition d_half : double := pow2 (-1).
Definition d_one : double := pow2 0.
Definition d_two : double := pow2 1.

(** [B] and [Bi] of the source *)
Definition limb_base : double := dmul d_two (double_of GMP_LIMB_HIGHBIT).
Definition limb_base_inv : double := ddiv d_one limb_base.

(** [for (rn = 1; x >= B; rn++) x *= Bi;] A double has less than [16 * 64] bits before the
    point. *)
Fixpoint scale_down (fuel : nat) (x : double) (rn : Z) : outcome (double * Z) :=
  if SFleb limb_base x then
    match fuel with O => Err OutOfFuel | S fuel => scale_down fuel (dmul x limb_base_inv) (rn + 1) end
  else Ok (x, rn).

(** [f = (mp_limb_t) x; x -= f; assert (x < 1.0); rp[i] = f;] *)
Definition take_limb (rp : ptr) (i : Z) (x : double) : L double :=
  f ← lift (limb_of x);
  let x := dsub x (double_of f) in
  _ ← massert (SFltb x d_one);
  _ ← store (padd rp i) f;
  mret x.

Fixpoint take_limbs (i : nat) (rp : ptr) (x : double) : L unit :=
  match i with
  | O => mret tt
  | S i => x ← take_limb rp (Z.of_nat i) (dmul limb_base x); take_limbs i rp x
  end.

Definition mpz_set_d (r : mpz_t) (x : double) : MZ unit :=
  if negb (SFeqb x x) || SFeqb x (dmul x d_half) then set_size r 0
  else
    let sign := SFltb x d_zero in
    let x := if sign then SFopp x else x in
    if SFltb x d_one then set_size r 0
    else
      '(x, rn) ← lift (scale_down 16 x 1);
      rp ← MPZ_REALLOC r rn;
      x ← limbs (take_limb rp (rn - 1) x);
      _ ← limbs (take_limbs (Z.to_nat (rn - 1)) rp x);
      set_size r (if sign then - rn else rn).

Definition mpz_init_set_d (r : mpz_t) (x : double) : MZ unit := _ ← mpz_init r; mpz_set_d r x.

(** [while (un > 0) x = B*x + u->_mp_d[--un];] *)
Fixpoint add_limbs (un : nat) (p : ptr) (x : double) : L double :=
  match un with
  | O => mret x
  | S un => l ← load (padd p (Z.of_nat un)); add_limbs un p (dadd (dmul limb_base x) (double_of l))
  end.

Definition mpz_get_d (u : mpz_t) : MZ double :=
  zu ← get_mpz u;
  let un := Z.abs (mp_size zu) in
  if un =? 0 then mret d_zero
  else
    l ← limbs (load (padd (mp_d zu) (un - 1)));
    x ← limbs (add_limbs (Z.to_nat (un - 1)) (mp_d zu) (double_of l));
    mret (if mp_size zu <? 0 then SFopp x else x).

(** [for (i = 1; i < xn; i++) d *= Bi;] *)
Fixpoint scale_by (n : nat) (d : double) : double :=
  match n with O => d | S n => scale_by n (dmul d limb_base_inv) end.

(** The loop over the limbs and the last return *)
Fixpoint cmpabs_limbs (i : nat) (p : ptr) (d : double) : L Z :=
  match i with
  | O => mret (- b2z (SFltb d_zero d))
  | S i =>
     f ← lift (limb_of d);
     xl ← load (padd p (Z.of_nat i));
     if f <? xl then mret 1
     else if xl <? f then mret (-1)
     else cmpabs_limbs i p (dmul limb_base (dsub d (double_of f)))
  end.

Definition mpz_cmpabs_d (x : mpz_t) (d : double) : MZ Z :=
  zx ← get_mpz x;
  let xn := mp_size zx in
  let d := if SFleb d_zero d then d else SFopp d in
  if negb (xn =? 0) then
    let xn := Z.abs xn in
    let d := scale_by (Z.to_nat (xn - 1)) d in
    if SFleb limb_base d then mret (-1)
    else limbs (cmpabs_limbs (Z.to_nat xn) (mp_d zx) d)
  else mret (- b2z (SFltb d_zero d)).

Definition mpz_cmp_d (x : mpz_t) (d : double) : MZ Z :=
  zx ← get_mpz x;
  if mp_size zx <? 0 then
    if SFleb d_zero d then mret (-1) else c ← mpz_cmpabs_d x d; mret (- c)
  else
    if SFltb d d_zero then mret 1 else mpz_cmpabs_d x d.
