(* ===== verification/MpzRep.v ===== *)
(** * What the integer variables stand for

    [zok F s σ]: in the store [s], the variables in [σ] are valid, own disjoint blocks of
    limbs and hold the integers that [σ] says (or, for [None], are being written); the
    memory consists of their blocks and of foreign memory [F], which never changes.  The
    lemmas describe how allocation, reallocation, writing of limbs, setting of sizes and
    exchange move from one such state to the next. *)

From S2P Require Import Prelude CString Queue State UInt64 Mpn MpnMem MpnThm MpnBits MpnDiv MpnInv MpnDivThm MpnDivPi1 MpnCorrect MpnDivQr MpnStr MpnStrThm MpnSetStr Mpz.

(** ** Reallocation of a block *)

Definition moved (m : mem) (b b' : positive) (n : nat) (m' : mem) : Prop :=
  (∀ q, q.1 ≠ b → q.1 ≠ b' → cell m' q = cell m q) ∧ (∀ o, cell m' (b, o) = None) ∧ space m' (b', 0) n ∧
  (∀ o c, o < Z.of_nat n → cell m (b, o) = Some c → cell m' (b', o) = Some c) ∧
  (∀ q, is_Some (cell m q) → q.1 ≠ b') ∧ mem_ok m'.

Lemma wp_gmp_xrealloc_limbs b n Q E m :
  (0 < n)%nat → mem_ok m → is_Some (cell m (b, 0)) →
  (∀ b' m', moved m b b' n m' → Q (b', 0) m') →
  wp (gmp_xrealloc_limbs (b, 0) (Z.of_nat n)) Q E m.
Proof.
  intros Hn Hm Hb HQ. pose proof (Hm _ Hb) as Hlt. cbn in Hlt. destruct Hb as [c0 Hb].
  unfold wp, gmp_xrealloc_limbs. rewrite (proj2 (Z.ltb_lt _ _)) by lia.
  unfold cell in Hb. cbn in *. destruct (m_blocks m !! b) as [a|] eqn:Ha; [|done]. apply HQ.
  assert (∀ q : ptr, is_Some (cell m q) → q.1 ≠ m_next m) as Hfr by (intros q Hq%Hm; lia).
  split_and!; try done.
  - intros q Hq1 Hq2. unfold cell. cbn. by rewrite lookup_insert_ne, lookup_delete_ne by done.
  - intros o. unfold cell. cbn. by rewrite lookup_insert_ne, lookup_delete_eq by lia.
  - intros i Hi. unfold cell, padd. cbn. rewrite lookup_insert_eq. cbn. rewrite (proj2 (Z.leb_le _ _)) by lia.
    apply lookup_lt_is_Some_2. unfold arr_realloc. rewrite length_app, length_take, length_replicate. lia.
  - intros o c Ho Hc. unfold cell in *. cbn in *. rewrite Ha in Hc. cbn in Hc. rewrite lookup_insert_eq. cbn.
    destruct (Z.leb_spec 0 o); [|done]. unfold arr_realloc. rewrite lookup_app_l.
    + by rewrite lookup_take_lt by lia.
    + apply lookup_lt_Some in Hc. rewrite length_take. lia.
  - intros q Hq. destruct (decide (q.1 = m_next m)) as [->|Hne]; [cbn; lia|]. cbn. unfold cell in Hq. cbn in Hq.
    rewrite lookup_insert_ne in Hq by done. destruct (decide (q.1 = b)) as [->|Hne2]; [lia|].
    rewrite lookup_delete_ne in Hq by done. assert (is_Some (cell m q)) as Hq2 by (unfold cell; done). apply Hm in Hq2. lia.
Qed.

(** ** The number of limbs of an integer *)

Definition nlimbs (v : Z) : Z := if v =? 0 then 0 else Z.log2 (Z.abs v) / 64 + 1.

Lemma nlimbs_val l : words l → normal l → nlimbs (val l) = Z.of_nat (length l).
Proof.
  intros Hw Hn. unfold nlimbs. pose proof (val_bound l Hw) as Hb. destruct (Z.eqb_spec (val l) 0) as [Hz|Hz].
  - destruct (decide (l = [])) as [->|Hne]; [done|]. pose proof (normal_bound l Hw Hn Hne). pose proof (wpow_pos (length l - 1)). lia.
  - assert (l ≠ []) as Hne by (by intros ->). pose proof (normal_bound l Hw Hn Hne) as Hlow.
    assert (0 < length l)%nat by (destruct l; [done|cbn; lia]). rewrite Z.abs_eq by lia. unfold wpow in *. change WB with (2 ^ 64) in *.
    rewrite <- Z.pow_mul_r in * by lia. assert (64 * Z.of_nat (length l - 1) ≤ Z.log2 (val l)) by (apply Z.log2_le_pow2; lia).
    assert (Z.log2 (val l) < 64 * Z.of_nat (length l)) by (apply Z.log2_lt_pow2; lia).
    assert (Z.log2 (val l) / 64 = Z.of_nat (length l) - 1) as ->; [|lia].
    symmetry. apply (Z.div_unique _ _ _ (Z.log2 (val l) - 64 * (Z.of_nat (length l) - 1))); lia.
Qed.
Lemma nlimbs_abs v : nlimbs (Z.abs v) = nlimbs v.
Proof. unfold nlimbs. rewrite Z.abs_idemp. destruct (Z.eqb_spec v 0) as [->|]; [done|]. by rewrite (proj2 (Z.eqb_neq _ _)) by lia. Qed.
Lemma nlimbs_nonneg v : 0 ≤ nlimbs v.
Proof. unfold nlimbs. destruct (v =? 0); [done|]. pose proof (Z.log2_nonneg (Z.abs v)). assert (0 ≤ Z.log2 (Z.abs v) / 64) by (apply Z.div_pos; lia). lia. Qed.

Lemma nlimbs_pos v : v ≠ 0 → 0 < nlimbs v.
Proof.
  intros Hv. unfold nlimbs. rewrite (proj2 (Z.eqb_neq _ _)) by done. pose proof (Z.log2_nonneg (Z.abs v)).
  assert (0 ≤ Z.log2 (Z.abs v) / 64) by (apply Z.div_pos; lia). lia.
Qed.
(** The size field of a number *)
Lemma size_abs v : Z.abs (Z.sgn v * nlimbs v) = nlimbs v.
Proof. pose proof (nlimbs_nonneg v). destruct (Z.eq_dec v 0) as [->|]; [done|lia]. Qed.
Lemma size_sgn v : Z.sgn (Z.sgn v * nlimbs v) = Z.sgn v.
Proof. destruct (Z.eq_dec v 0) as [->|Hv]; [done|]. pose proof (nlimbs_pos v Hv). lia. Qed.

(** ** Representation *)

(** The absolute value of the number of struct [z] is in the limbs [l]. *)
Definition zlimbs (m : mem) (z : mpz_struct) (l : list Z) : Prop :=
  words l ∧ normal l ∧ holds m (mp_d z) l ∧ Z.abs (mp_size z) = Z.of_nat (length l).

Definition rep (m : mem) (z : mpz_struct) (ov : option Z) : Prop :=
  0 ≤ mp_alloc z ≤ INT_MAX ∧ (mp_d z).2 = 0 ∧ space m (mp_d z) (Z.to_nat (mp_alloc z)) ∧
  match ov with
  | None => True
  | Some v => ∃ l, zlimbs m z l ∧ v = Z.sgn (mp_size z) * val l ∧ Z.of_nat (length l) ≤ mp_alloc z
  end.

Definition owns (s : zstate) (i b : positive) : Prop :=
  ∃ z, z_vars s !! i = Some z ∧ 0 < mp_alloc z ∧ (mp_d z).1 = b.

Record zok (F : mem) (s : zstate) (σ : gmap positive (option Z)) : Prop := mk_zok {
  zok_mem : mem_ok (z_mem s);
  zok_rep : ∀ i ov, σ !! i = Some ov → ∃ z, z_vars s !! i = Some z ∧ rep (z_mem s) z ov;
  zok_next : ∀ i, is_Some (σ !! i) → (i < z_next s)%positive;
  zok_sep : ∀ i j b, is_Some (σ !! i) → is_Some (σ !! j) → owns s i b → owns s j b → i = j;
  zok_foreign : ∀ q c, cell F q = Some c → cell (z_mem s) q = Some c;
  zok_private : ∀ i b o, is_Some (σ !! i) → owns s i b → cell F (b, o) = None;
  zok_noleak : ∀ q, is_Some (cell (z_mem s) q) → is_Some (cell F q) ∨ ∃ i, is_Some (σ !! i) ∧ owns s i q.1
}.

Section rep.
Context (F : mem).
Implicit Types (s : zstate) (σ : gmap positive (option Z)).

Lemma wp_get_mpz r z Q E s : z_vars s !! r = Some z → Q z s → wp (get_mpz r) Q E s.
Proof. intros Hz HQ. unfold wp, get_mpz. by rewrite Hz. Qed.

Lemma wp_put_mpz r z Q E s : Q tt (mk_zstate (z_mem s) (z_next s) (<[r := z]> (z_vars s))) → wp (put_mpz r z) Q E s.
Proof. done. Qed.

Lemma zok_lookup s σ i v : zok F s σ → σ !! i = Some (Some v) →
  ∃ z l, z_vars s !! i = Some z ∧ zlimbs (z_mem s) z l ∧ v = Z.sgn (mp_size z) * val l ∧ Z.of_nat (length l) ≤ mp_alloc z ∧
    0 ≤ mp_alloc z ≤ INT_MAX ∧ (mp_d z).2 = 0 ∧ Z.of_nat (length l) = nlimbs v.
Proof.
  intros Hok Hi. destruct (zok_rep _ _ _ Hok _ _ Hi) as (z & Hz & Ha & H0 & Hs & l & Hl & Hv & Hle).
  exists z, l. split_and!; try done; try apply Ha. pose proof Hl as (Hw & Hn & _ & Hsz). rewrite <- (nlimbs_val l Hw Hn), <- (nlimbs_abs v), Hv.
  f_equal. rewrite Z.abs_mul. pose proof (val_bound l Hw). destruct (Z.eq_dec (mp_size z) 0) as [E0|]; [|lia].
  rewrite E0 in *. cbn in Hsz. destruct l; [done|cbn in Hsz; lia].
Qed.

(** Two variables in use overlap only if they are the same. *)
Lemma zok_apart s σ i j zi zj :
  zok F s σ → is_Some (σ !! i) → is_Some (σ !! j) → i ≠ j → z_vars s !! i = Some zi → z_vars s !! j = Some zj →
  0 < mp_alloc zi → 0 < mp_alloc zj → (mp_d zi).1 ≠ (mp_d zj).1.
Proof.
  intros Hok Hi Hj Hne Hzi Hzj Hai Haj He. apply Hne. eapply (zok_sep _ _ _ Hok i j (mp_d zj).1); try done.
  - by exists zi.
  - by exists zj.
Qed.

(** A change of memory outside the block of a variable keeps what it stands for. *)
Lemma rep_changed m m' S z ov :
  changed m m' S → (0 < mp_alloc z → ∀ q, S q → q.1 ≠ (mp_d z).1) → rep m z ov → rep m' z ov.
Proof.
  intros Hc HS (Ha & H0 & Hs & Hv). split; [done|]. split; [done|]. split; [by eapply changed_space|].
  destruct ov as [v|]; [|done]. destruct Hv as (l & (Hw & Hn & Hh & Hsz) & Hv & Hle). exists l. split; [|done].
  split; [done|]. split; [done|]. split; [|done]. destruct (Z.eq_dec (mp_alloc z) 0) as [E0|].
  - destruct l; [apply holds_nil|cbn in Hle; lia].
  - eapply changed_holds; [exact Hc| |done]. intros c Hcw HSc. apply (HS ltac:(lia) c HSc). apply Hcw.
Qed.

(** Writing limbs of some variables: afterwards their values are not known. *)
Lemma zok_write_gen s σ σ' S m' :
  zok F s σ → changed (z_mem s) m' S → (∀ q, S q → ∃ r, σ' !! r = Some None ∧ owns s r q.1) →
  (∀ i, is_Some (σ' !! i) ↔ is_Some (σ !! i)) → (∀ i v, σ' !! i = Some (Some v) → σ !! i = Some (Some v)) →
  zok F (set_zmem m' s) σ'.
Proof.
  intros Hok Hc HS Hdom Hval. pose proof Hok as [H1 H2 H3 H4 H5 H6 H7]. split; cbn.
  - by eapply changed_ok.
  - intros i [v|] Hi.
    + apply Hval in Hi as Hi'. destruct (H2 _ _ Hi') as (z & Hz & Hrep). exists z. split; [done|].
      eapply rep_changed; [exact Hc| |done]. intros Ha q Hq Heq. destruct (HS q Hq) as (r & Hr & Ho).
      assert (r = i) as ->; [|congruence]. eapply (H4 r i (mp_d z).1); [apply Hdom; by rewrite Hr|by rewrite Hi'|by rewrite <- Heq|by exists z].
    + assert (is_Some (σ !! i)) as [ov Hi'] by (apply Hdom; by rewrite Hi). destruct (H2 _ _ Hi') as (z & Hz & Ha & H0 & Hs & _).
      exists z. split; [done|]. split; [done|]. split; [done|]. split; [by eapply changed_space|done].
  - intros i. rewrite Hdom. apply H3.
  - intros i j b. rewrite !Hdom. apply H4.
  - intros q c Hq. pose proof Hc as (Hf & _). rewrite Hf; [by apply H5|]. intros HSq. destruct (HS q HSq) as (r & Hr & Ho). destruct q as [b o].
    rewrite (H6 r b o) in Hq; [done|apply Hdom; by rewrite Hr|done].
  - intros i b o. rewrite Hdom. apply H6.
  - intros q Hq%Hc. destruct (H7 q Hq) as [?|(i & Hi & Ho)]; [by left|]. right. exists i. by rewrite Hdom.
Qed.

Lemma raw_dom σ r i : is_Some (σ !! r) → is_Some (<[r := None]> σ !! i) ↔ is_Some (σ !! i).
Proof. intros Hr. destruct (decide (i = r)) as [->|]; [rewrite lookup_insert_eq; by split|by rewrite lookup_insert_ne]. Qed.
Lemma raw_val σ r i v : <[r := None]> σ !! i = Some (Some v) → σ !! i = Some (Some v).
Proof. destruct (decide (i = r)) as [->|]; [by rewrite lookup_insert_eq|by rewrite lookup_insert_ne]. Qed.

Lemma zok_write s σ r S m' :
  zok F s σ → is_Some (σ !! r) → changed (z_mem s) m' S → (∀ q, S q → owns s r q.1) →
  zok F (set_zmem m' s) (<[r := None]> σ).
Proof.
  intros Hok Hr Hc HS. eapply zok_write_gen; [done|exact Hc| |by intros i; apply raw_dom|by intros i v; apply raw_val].
  intros q Hq. exists r. rewrite lookup_insert_eq. auto.
Qed.

Lemma rep_same m m' z ov :
  (0 < mp_alloc z → ∀ o, cell m' ((mp_d z).1, o) = cell m ((mp_d z).1, o)) → rep m z ov → rep m' z ov.
Proof.
  intros Hc (Ha & H0 & Hs & Hv). split; [done|]. split; [done|]. destruct (Z.eq_dec (mp_alloc z) 0) as [E0|].
  - rewrite E0 in *. split; [intros i Hi; cbn in Hi; lia|]. destruct ov as [v|]; [|done].
    destruct Hv as (l & (Hw & Hn & Hh & Hsz) & Hv & Hle). exists l. destruct l; [|cbn in Hle; lia]. by split_and!.
  - specialize (Hc ltac:(lia)). split; [intros i Hi; unfold padd; rewrite Hc; by apply Hs|]. destruct ov as [v|]; [|done].
    destruct Hv as (l & (Hw & Hn & Hh & Hsz) & Hv & Hle). exists l. split; [|done]. split; [done|]. split; [done|]. split; [|done].
    intros i x Hi. unfold padd. rewrite Hc. by apply Hh.
Qed.

Lemma owned_cell s σ i b : zok F s σ → is_Some (σ !! i) → owns s i b → is_Some (cell (z_mem s) (b, 0)).
Proof.
  intros Hok [ov Hi] (z & Hz & Ha & Hb). destruct (zok_rep _ _ _ Hok _ _ Hi) as (z' & Hz' & _ & H0 & Hs & _).
  rewrite Hz in Hz'. injection Hz' as <-. apply space_first in Hs; [|lia]. destruct (mp_d z). cbn in *. by subst.
Qed.

(** The struct of [r] changes, but not its block. *)
Lemma zok_put s σ r z z' ov :
  zok F s σ → is_Some (σ !! r) → z_vars s !! r = Some z → mp_alloc z' = mp_alloc z → mp_d z' = mp_d z →
  rep (z_mem s) z' ov → zok F (mk_zstate (z_mem s) (z_next s) (<[r := z']> (z_vars s))) (<[r := ov]> σ).
Proof.
  intros [H1 H2 H3 H4 H5 H6 H7] Hr Hz Ha Hd Hrep.
  assert (∀ i, is_Some (<[r:=ov]> σ !! i) ↔ is_Some (σ !! i)) as Hdom.
  { intros i. destruct (decide (i = r)) as [->|]; [rewrite lookup_insert_eq; by split|by rewrite lookup_insert_ne]. }
  assert (∀ i b, owns (mk_zstate (z_mem s) (z_next s) (<[r := z']> (z_vars s))) i b ↔ owns s i b) as Hown.
  { intros i b. unfold owns. cbn. destruct (decide (i = r)) as [->|]; [|by rewrite lookup_insert_ne].
    rewrite lookup_insert_eq, Hz. split; intros (y & Hy & Hya & Hyd); simplify_eq.
    - exists z. by rewrite <- Ha, <- Hd.
    - exists z'. by rewrite Ha, Hd. }
  split; cbn; try done.
  - intros i ov' Hi. destruct (decide (i = r)) as [->|Hne].
    + rewrite lookup_insert_eq in Hi. rewrite lookup_insert_eq. injection Hi as <-. by exists z'.
    + rewrite lookup_insert_ne in Hi by done. rewrite lookup_insert_ne by done. by apply H2.
  - intros i. rewrite Hdom. apply H3.
  - intros i j b. rewrite !Hdom, !Hown. apply H4.
  - intros i b o. rewrite Hdom, Hown. apply H6.
  - intros q Hq. destruct (H7 q Hq) as [?|(i & Hi & Ho)]; [by left|]. right. exists i. by rewrite Hdom, Hown.
Qed.

(** [r] gets a new block [b']; its old block, if it had one, is gone. *)
Lemma zok_newblock s σ r ov z z' m' b' :
  zok F s σ → σ !! r = Some ov → z_vars s !! r = Some z → mp_d z' = (b', 0) →
  (∀ q, q.1 ≠ b' → ¬ owns s r q.1 → cell m' q = cell (z_mem s) q) → (∀ q, owns s r q.1 → cell m' q = None) →
  (∀ q, is_Some (cell (z_mem s) q) → q.1 ≠ b') → mem_ok m' → rep m' z' ov → 0 < mp_alloc z' →
  zok F (mk_zstate m' (z_next s) (<[r := z']> (z_vars s))) σ.
Proof.
  intros Hok Hr Hz Hd Hsame Hgone Hfresh Hm Hrep Ha'. pose proof Hok as [H1 H2 H3 H4 H5 H6 H7].
  assert (is_Some (σ !! r)) as Hsr by (by rewrite Hr).
  set (s' := mk_zstate m' (z_next s) (<[r := z']> (z_vars s))).
  assert (∀ i b, i ≠ r → owns s' i b ↔ owns s i b) as Hown.
  { intros i b Hne. unfold owns, s'. cbn. by rewrite lookup_insert_ne. }
  assert (∀ b, owns s' r b ↔ b = b') as Hownr.
  { intros b. unfold owns, s'. cbn. rewrite lookup_insert_eq. split.
    - intros (y & Hy & _ & <-). injection Hy as <-. by rewrite Hd.
    - intros ->. exists z'. by rewrite Hd. }
  assert (∀ i b, is_Some (σ !! i) → owns s i b → b ≠ b') as Hold.
  { intros i b Hi Ho. apply (Hfresh (b, 0)). by eapply owned_cell. }
  split; cbn; try done.
  - intros i ov' Hi. destruct (decide (i = r)) as [->|Hne].
    + rewrite lookup_insert_eq. rewrite Hr in Hi. injection Hi as <-. by exists z'.
    + rewrite lookup_insert_ne by done. destruct (H2 _ _ Hi) as (y & Hy & Hry). exists y. split; [done|].
      eapply rep_same; [|done]. intros Hay o. assert (owns s i (mp_d y).1) as Hoy by (by exists y).
      assert (is_Some (σ !! i)) as Hsi by (by rewrite Hi).
      apply Hsame; [by apply (Hold i)|]. intros Hor. apply Hne. by eapply (H4 i r).
  - intros i j b Hi Hj Hoi Hoj. destruct (decide (i = r)) as [->|Hni], (decide (j = r)) as [->|Hnj]; try done.
    + apply Hownr in Hoi as ->. apply Hown in Hoj; [|done]. by destruct (Hold j b' Hj Hoj).
    + apply Hownr in Hoj as ->. apply Hown in Hoi; [|done]. by destruct (Hold i b' Hi Hoi).
    + apply Hown in Hoi, Hoj; [|done..]. by eapply H4.
  - intros q c Hq. pose proof (H5 q c Hq) as Hq2. rewrite Hsame; [done|apply Hfresh; by rewrite Hq2|].
    intros Ho. destruct q as [b o]. rewrite (H6 r b o Hsr Ho) in Hq. done.
  - intros i b o Hi Ho. destruct (decide (i = r)) as [->|Hne].
    + apply Hownr in Ho as ->. destruct (cell F (b', o)) as [c|] eqn:Hc; [|done]. apply H5 in Hc.
      by destruct (Hfresh (b', o)); [rewrite Hc|].
    + apply (H6 i); [done|]. by apply Hown.
  - intros q Hq. destruct (decide (q.1 = b')) as [Hb|Hb]; [right; exists r; split; [done|]; by apply Hownr|].
    destruct (decide (0 < mp_alloc z ∧ (mp_d z).1 = q.1)) as [[Ha Hq1]|Hno].
    + rewrite Hgone in Hq by (by exists z). by destruct Hq.
    + assert (¬ owns s r q.1) as Hnr by (intros (y & Hy & ?); rewrite Hz in Hy; injection Hy as <-; done).
      rewrite Hsame in Hq by done. destruct (H7 q Hq) as [?|(i & Hi & Ho)]; [by left|]. right. exists i. split; [done|].
      apply Hown; [|done]. by intros ->.
Qed.

Lemma cast_int_id n : INT_MIN ≤ n ≤ INT_MAX → cast_int n = n.
Proof. unfold INT_MIN, INT_MAX, cast_int. intros. rewrite Z.mod_small; lia. Qed.

(** The limbs of [r] are written: setting the size gives its value. *)
Lemma wp_set_size_full s σ r z l n Q E :
  zok F s σ → is_Some (σ !! r) → z_vars s !! r = Some z →
  words l → normal l → holds (z_mem s) (mp_d z) l → Z.of_nat (length l) ≤ mp_alloc z → Z.abs n = Z.of_nat (length l) →
  (∀ s', z_mem s' = z_mem s → z_vars s' = <[r := mk_mpz (mp_alloc z) n (mp_d z)]> (z_vars s) →
     zok F s' (<[r := Some (Z.sgn n * val l)]> σ) → Q tt s') → wp (set_size r n) Q E s.
Proof.
  intros Hok Hr Hz Hw Hn Hh Hle Hlen HQ. destruct Hr as [ov Hr]. pose proof (zok_rep _ _ _ Hok _ _ Hr) as (z0 & Hz0 & Ha & H0 & Hs & _).
  rewrite Hz in Hz0. injection Hz0 as <-. unfold set_size. apply wp_bind. eapply wp_get_mpz; [done|]. apply wp_put_mpz.
  rewrite cast_int_id by (unfold INT_MIN, INT_MAX in *; lia). apply HQ; [done|done|]. eapply zok_put; try done.
  split; [done|]. split; [done|]. split; [done|]. exists l. unfold zlimbs. cbn. by split_and!.
Qed.

Lemma wp_set_size s σ r z l n Q E :
  zok F s σ → is_Some (σ !! r) → z_vars s !! r = Some z →
  words l → normal l → holds (z_mem s) (mp_d z) l → Z.of_nat (length l) ≤ mp_alloc z → Z.abs n = Z.of_nat (length l) →
  (∀ s', zok F s' (<[r := Some (Z.sgn n * val l)]> σ) → Q tt s') → wp (set_size r n) Q E s.
Proof. intros Hok Hr Hz Hw Hn Hh Hle Hlen HQ. eapply wp_set_size_full; try done. intros s' _ _. apply HQ. Qed.

Lemma wp_set_size_0 s σ r Q E :
  zok F s σ → is_Some (σ !! r) → (∀ s', zok F s' (<[r := Some 0]> σ) → Q tt s') → wp (set_size r 0) Q E s.
Proof.
  intros Hok [ov Hr] HQ. pose proof (zok_rep _ _ _ Hok _ _ Hr) as (z & Hz & Ha & _).
  apply (wp_set_size s σ r z []); try done; cbn; lia.
Qed.

(** The size is set before the limbs are written. *)
Lemma wp_set_size_early s σ r z n Q E :
  zok F s σ → is_Some (σ !! r) → z_vars s !! r = Some z → INT_MIN ≤ n ≤ INT_MAX →
  (∀ s', z_vars s' = <[r := mk_mpz (mp_alloc z) n (mp_d z)]> (z_vars s) → zok F s' (<[r := None]> σ) → Q tt s') →
  wp (set_size r n) Q E s.
Proof.
  intros Hok Hr Hz Hn HQ. pose proof Hr as [ov Hr']. pose proof (zok_rep _ _ _ Hok _ _ Hr') as (z0 & Hz0 & Ha & H0 & Hs & _).
  rewrite Hz in Hz0. injection Hz0 as <-. unfold set_size. apply wp_bind. eapply wp_get_mpz; [done|]. apply wp_put_mpz.
  rewrite cast_int_id by done. apply HQ; [done|]. by eapply zok_put.
Qed.

(** The limbs of [r] are where they were or have been copied; all other limbs are
    untouched. *)
Definition kept_limbs (s : zstate) (r : mpz_t) (z : mpz_struct) (s' : zstate) (z' : mpz_struct) : Prop :=
  (∀ q, is_Some (cell (z_mem s) q) → ¬ owns s r q.1 → cell (z_mem s') q = cell (z_mem s) q) ∧
  (∀ l, holds (z_mem s) (mp_d z) l → Z.of_nat (length l) ≤ mp_alloc z → holds (z_mem s') (mp_d z') l) ∧
  (∀ q, is_Some (cell (z_mem s) q) → 0 < mp_alloc z' → q.1 = (mp_d z').1 → owns s r q.1).

(** [mpz_realloc] to more limbs than there are keeps the number. *)
Lemma wp_mpz_realloc_full s σ r ov z n Q E :
  zok F s σ → σ !! r = Some ov → z_vars s !! r = Some z → mp_alloc z < n ≤ INT_MAX →
  (ov = None → Z.abs (mp_size z) ≤ n) →
  (∀ z' s', z_vars s' = <[r := z']> (z_vars s) → mp_size z' = mp_size z → mp_alloc z' = n → zok F s' σ → kept_limbs s r z s' z' →
     Q (mp_d z') s') →
  wp (mpz_realloc r n) Q E s.
Proof.
  intros Hok Hr Hz Hn Hraw HQ. pose proof (zok_rep _ _ _ Hok _ _ Hr) as (z0 & Hz0 & Ha & H0 & Hs & Hv).
  rewrite Hz in Hz0. injection Hz0 as <-. assert (0 < n) as Hn0 by lia. unfold mpz_realloc.
  rewrite Z.max_l by lia. apply wp_bind. eapply wp_get_mpz; [done|].
  assert ((n <? Z.abs (mp_size z)) = false) as Hsize.
  { apply Z.ltb_ge. destruct ov as [v|]; [|by apply Hraw]. destruct Hv as (l & (_ & _ & _ & Hl) & _ & Hle). lia. }
  rewrite Hsize, cast_int_id by (unfold INT_MIN, INT_MAX in *; lia).
  assert (∀ b' m', space m' (b', 0) (Z.to_nat n) →
    (∀ q, q.1 ≠ b' → ¬ owns s r q.1 → cell m' q = cell (z_mem s) q) → (∀ q, owns s r q.1 → cell m' q = None) →
    (∀ q, is_Some (cell (z_mem s) q) → q.1 ≠ b') → mem_ok m' →
    (0 < mp_alloc z → ∀ o c, o < n → cell (z_mem s) ((mp_d z).1, o) = Some c → cell m' (b', o) = Some c) →
    wp (_ ← put_mpz r (mk_mpz n (mp_size z) (b', 0)); mret (b', 0)) Q E (set_zmem m' s)) as Hgo.
  { intros b' m' Hsp Hsame Hgone Hfr Hm Hcopy. apply wp_bind, wp_put_mpz, wp_ret. cbn.
    apply (HQ (mk_mpz n (mp_size z) (b', 0))); try done; [|split_and!; cbn].
    2:{ intros q Hq Ho. apply Hsame; [by apply Hfr|done]. }
    2:{ intros l Hh Hle i x Hi. pose proof (lookup_lt_Some _ _ _ Hi). unfold padd. cbn. apply Hcopy; [lia|lia|].
        specialize (Hh i x Hi). unfold padd in Hh. by rewrite H0 in Hh. }
    2:{ intros q Hq%Hfr _ Hb. done. }
    eapply zok_newblock; try done; cbn. split; [cbn; unfold INT_MAX in *; lia|]. split; [done|]. split; [done|].
    destruct ov as [v|]; [|done]. destruct Hv as (l & (Hw & Hnl & Hh & Hl) & Hv & Hle). exists l. cbn. split; [|split; [done|lia]].
    split; [done|]. split; [done|]. split; [|done]. intros i x Hi. pose proof (lookup_lt_Some _ _ _ Hi).
    unfold padd. cbn. apply Hcopy; [lia|lia|]. specialize (Hh i x Hi). unfold padd in Hh. by rewrite H0 in Hh. }
  apply wp_bind. destruct (Z.eqb_spec (mp_alloc z) 0) as [E0|E0]; cbn [negb].
  - apply wp_zoom. rewrite <- (Z2Nat.id n) by lia. apply wp_gmp_xalloc_limbs; [lia|apply (zok_mem _ _ _ Hok)|].
    intros b' m' (Hsame & Hsp & Hfr & Hm & _). rewrite Z2Nat.id by lia. apply Hgo; try done.
    + intros q Hq _. by apply Hsame.
    + intros q (y & Hy & ? & _). rewrite Hz in Hy. injection Hy as <-. lia.
    + lia.
  - apply wp_zoom. destruct (mp_d z) as [b o] eqn:Hd. cbn in H0. subst o. rewrite <- (Z2Nat.id n) by lia.
    apply wp_gmp_xrealloc_limbs; [lia|apply (zok_mem _ _ _ Hok)|apply (space_first _ _ _ Hs); lia|].
    intros b' m' (Hsame & Hgone & Hsp & Hcopy & Hfr & Hm). rewrite Z2Nat.id in * by lia.
    assert (∀ q : ptr, owns s r q.1 ↔ q.1 = b) as Hown.
    { intros q. unfold owns. rewrite Hz. split; [intros (y & Hy & _ & <-); injection Hy as <-; by rewrite Hd|].
      intros ->. exists z. rewrite Hd. split; [done|]. split; [lia|done]. }
    apply Hgo; try done.
    + intros q Hq Ho. apply Hsame; [|done]. by rewrite <- Hown.
    + intros [b0 o] Ho. apply Hown in Ho. cbn in Ho. subst b0. apply Hgone.
Qed.

Lemma wp_MPZ_REALLOC_full s σ r ov z n Q E :
  zok F s σ → σ !! r = Some ov → z_vars s !! r = Some z → n ≤ INT_MAX →
  (ov = None → Z.abs (mp_size z) ≤ n) →
  (∀ z' s', z_vars s' = <[r := z']> (z_vars s) → mp_size z' = mp_size z → n ≤ mp_alloc z' → zok F s' σ → kept_limbs s r z s' z' →
     Q (mp_d z') s') →
  wp (MPZ_REALLOC r n) Q E s.
Proof.
  intros Hok Hr Hz Hn Hraw HQ. unfold MPZ_REALLOC. apply wp_bind. eapply wp_get_mpz; [done|].
  destruct (Z.ltb_spec (mp_alloc z) n).
  - eapply wp_mpz_realloc_full; try done. intros z' s' ? ? ? ? ?. apply HQ; try done. lia.
  - apply wp_ret. apply HQ; try done; [by rewrite insert_id|]. split_and!; try done. intros q _ Ha Hb. by exists z.
Qed.

Lemma wp_MPZ_REALLOC s σ r ov z n Q E :
  zok F s σ → σ !! r = Some ov → z_vars s !! r = Some z → n ≤ INT_MAX →
  (ov = None → Z.abs (mp_size z) ≤ n) →
  (∀ z' s', z_vars s' = <[r := z']> (z_vars s) → mp_size z' = mp_size z → n ≤ mp_alloc z' → zok F s' σ → Q (mp_d z') s') →
  wp (MPZ_REALLOC r n) Q E s.
Proof. intros Hok Hr Hz Hn Hraw HQ. eapply wp_MPZ_REALLOC_full; try done. intros z' s' ? ? ? ? _. by apply HQ. Qed.

(** ** Operands and results *)

(** The struct and the limbs of a variable are determined by its value. *)
Lemma zok_operand s σ a x : zok F s σ → σ !! a = Some (Some x) →
  ∃ z l, z_vars s !! a = Some z ∧ words l ∧ normal l ∧ holds (z_mem s) (mp_d z) l ∧ val l = Z.abs x ∧
    Z.of_nat (length l) = nlimbs x ∧ mp_size z = Z.sgn x * nlimbs x ∧ nlimbs x ≤ mp_alloc z ≤ INT_MAX ∧ (mp_d z).2 = 0.
Proof.
  intros Hok Ha. destruct (zok_lookup s σ a x Hok Ha) as (z & l & Hz & (Hw & Hn & Hh & Hsz) & Hv & Hle & Hal & H0 & Hnl).
  exists z, l. split_and!; try done; try lia.
  - rewrite Hv, Z.abs_mul. pose proof (val_bound l Hw). destruct (Z.eq_dec (mp_size z) 0) as [E0|]; [|lia].
    rewrite E0 in *. destruct l; [done|cbn in Hsz; lia].
  - rewrite <- Hnl, <- Hsz. rewrite Hv. pose proof (val_bound l Hw). destruct (decide (l = [])) as [->|Hne].
    + cbn in Hsz. assert (mp_size z = 0) as -> by lia. done.
    + pose proof (normal_bound l Hw Hn Hne). pose proof (wpow_pos (length l - 1)).
      assert (0 < val l) by lia. rewrite Z.sgn_mul, (Z.sgn_pos (val l)), Z.mul_1_r by done.
      destruct (Z.sgn_spec (mp_size z)) as [[? ->]|[[? ->]|[? ->]]]; cbn; lia.
Qed.

Lemma zok_target s σ r w : zok F s σ → σ !! r = Some w →
  ∃ z, z_vars s !! r = Some z ∧ 0 ≤ mp_alloc z ≤ INT_MAX ∧ (mp_d z).2 = 0 ∧ space (z_mem s) (mp_d z) (Z.to_nat (mp_alloc z)).
Proof. intros Hok Hr. destruct (zok_rep _ _ _ Hok _ _ Hr) as (z & Hz & ? & ? & ? & _). by exists z. Qed.

Lemma zok_write_block s σ r z n m' :
  zok F s σ → is_Some (σ !! r) → z_vars s !! r = Some z → Z.of_nat n ≤ mp_alloc z →
  changed (z_mem s) m' (λ q, within q (mp_d z) n) → zok F (set_zmem m' s) (<[r := None]> σ).
Proof.
  intros Hok Hr Hz Hn Hc. eapply zok_write; [done|done|exact Hc|]. intros q [Hb Hq]. exists z. split; [done|]. split; [lia|done].
Qed.

(** The sizes of the variables are those of [s]. *)
Definition sizes_kept (s s' : zstate) : Prop :=
  ∀ i z, z_vars s !! i = Some z → ∃ z', z_vars s' !! i = Some z' ∧ mp_size z' = mp_size z.

Lemma sizes_kept_insert s s' r z z' :
  z_vars s !! r = Some z → z_vars s' = <[r := z']> (z_vars s) → mp_size z' = mp_size z → sizes_kept s s'.
Proof.
  intros Hz Hv Hs i y Hy. rewrite Hv. destruct (decide (i = r)) as [->|Hne].
  - rewrite lookup_insert_eq. exists z'. split; [done|]. rewrite Hz in Hy. by injection Hy as <-.
  - rewrite lookup_insert_ne by done. by exists y.
Qed.

(** [l] is in the block of [r], but its size is not set yet. *)
Definition written (s : zstate) (σ : gmap positive (option Z)) (r : mpz_t) (l : list Z) (s' : zstate) : Prop :=
  ∃ z, z_vars s' !! r = Some z ∧ zok F s' (<[r := None]> σ) ∧ words l ∧ normal l ∧ holds (z_mem s') (mp_d z) l ∧
    Z.of_nat (length l) ≤ mp_alloc z ∧ sizes_kept s s'.

Lemma wp_set_size_written s0 s σ r l n v Q E :
  written s0 σ r l s → Z.abs n = Z.of_nat (length l) → v = Z.sgn n * val l →
  (∀ s', zok F s' (<[r := Some v]> σ) → Q tt s') → wp (set_size r n) Q E s.
Proof.
  intros (z & Hz & Hok & Hw & Hn & Hh & Hle & _) Hlen -> HQ.
  eapply wp_set_size; try done; [by rewrite lookup_insert_eq|]. intros s'. rewrite insert_insert_eq. apply HQ.
Qed.

(** A block written up to the limbs [l], the last of which may be 0 *)
Lemma zok_written s0 s σ r z l m' :
  zok F s σ → is_Some (σ !! r) → z_vars s !! r = Some z → Z.of_nat (length l) ≤ mp_alloc z → sizes_kept s0 s →
  changed (z_mem s) m' (λ q, within q (mp_d z) (Z.to_nat (mp_alloc z))) → holds m' (mp_d z) l → words l → normal l →
  written s0 σ r l (set_zmem m' s).
Proof.
  intros Hok Hr Hz Hl Hk Hc Hh Hw Hn. exists z. split; [done|]. split; [|by split_and!].
  destruct Hr as [w Hr]. destruct (zok_target s σ r w Hok Hr) as (z0 & Hz0 & Ha & _). rewrite Hz in Hz0. injection Hz0 as <-.
  eapply zok_write_block; [done|by rewrite Hr|done| |done]. lia.
Qed.

(** ** Variables come and go *)

Lemma wp_local_mpz s σ Q E :
  zok F s σ →
  (∀ t s', σ !! t = None → (t < z_next s')%positive → (∀ i, is_Some (σ !! i) → z_vars s' !! i = z_vars s !! i) → zok F s' σ → Q t s') →
  wp local_mpz Q E s.
Proof.
  intros [H1 H2 H3 H4 H5 H6 H7] HQ. unfold wp, local_mpz.
  assert (∀ i, is_Some (σ !! i) → z_next s ≠ i) as Hne by (intros i Hi%H3; lia).
  assert (∀ i b, is_Some (σ !! i) → owns (mk_zstate (z_mem s) (Pos.succ (z_next s)) (delete (z_next s) (z_vars s))) i b ↔ owns s i b) as Hown.
  { intros i b Hi. unfold owns. cbn. by rewrite lookup_delete_ne by (by apply Hne). }
  apply HQ; [destruct (σ !! z_next s) eqn:Hn; [|done]; by destruct (Hne (z_next s)); [rewrite Hn|]|cbn; lia|
    intros i Hi; cbn; by rewrite lookup_delete_ne by (by apply Hne)|]. split; cbn; try done.
  - intros i ov Hi. rewrite lookup_delete_ne by (apply Hne; by rewrite Hi). by apply H2.
  - intros i Hi%H3. lia.
  - intros i j b Hi Hj. rewrite !Hown by done. by apply H4.
  - intros i b o Hi. rewrite Hown by done. by apply H6.
  - intros q Hq. destruct (H7 q Hq) as [?|(i & Hi & Ho)]; [by left|]. right. exists i. split; [done|]. by apply Hown.
Qed.

(** A variable that is not in use gets a block of its own, or none. *)
Lemma zok_new s σ t z ov m' :
  zok F s σ → σ !! t = None → (t < z_next s)%positive → mem_ok m' → rep m' z ov →
  (∀ q, (0 < mp_alloc z → q.1 ≠ (mp_d z).1) → cell m' q = cell (z_mem s) q) →
  (0 < mp_alloc z → ∀ q, is_Some (cell (z_mem s) q) → q.1 ≠ (mp_d z).1) →
  zok F (mk_zstate m' (z_next s) (<[t := z]> (z_vars s))) (<[t := ov]> σ).
Proof.
  intros Hok Ht Hlt Hm Hrep Hsame Hfr. pose proof Hok as [H1 H2 H3 H4 H5 H6 H7].
  set (s' := mk_zstate m' (z_next s) (<[t := z]> (z_vars s))).
  assert (∀ i, is_Some (<[t:=ov]> σ !! i) ↔ i = t ∨ is_Some (σ !! i)) as Hdom.
  { intros i. destruct (decide (i = t)) as [->|]; [rewrite lookup_insert_eq; naive_solver|rewrite lookup_insert_ne by done; naive_solver]. }
  assert (∀ i b, i ≠ t → owns s' i b ↔ owns s i b) as Hown by (intros i b Hne; unfold owns, s'; cbn; by rewrite lookup_insert_ne).
  assert (∀ b, owns s' t b ↔ 0 < mp_alloc z ∧ (mp_d z).1 = b) as Hownt.
  { intros b. unfold owns, s'. cbn. rewrite lookup_insert_eq. split; [intros (y & Hy & ?); by simplify_eq|]. intros ?. by exists z. }
  assert (∀ i b, is_Some (σ !! i) → owns s i b → 0 < mp_alloc z → b ≠ (mp_d z).1) as Hold.
  { intros i b Hi Ho Ha. apply (Hfr Ha (b, 0)). by eapply owned_cell. }
  split; cbn; try done.
  - intros i ov' Hi. destruct (decide (i = t)) as [->|Hne].
    + rewrite lookup_insert_eq in Hi. rewrite lookup_insert_eq. injection Hi as <-. by exists z.
    + rewrite lookup_insert_ne in Hi by done. rewrite lookup_insert_ne by done. destruct (H2 _ _ Hi) as (y & Hy & Hry).
      exists y. split; [done|]. eapply rep_same; [|done]. intros Hay o. apply Hsame. intros Ha. cbn.
      apply (Hold i); [by rewrite Hi|by exists y|done].
  - intros i [->|Hi]%Hdom; [done|by apply H3].
  - intros i j b Hi Hj Hoi Hoj. apply Hdom in Hi, Hj.
    destruct (decide (i = t)) as [->|Hni], (decide (j = t)) as [->|Hnj]; try done.
    + destruct Hj as [->|Hj]; [done|]. apply Hownt in Hoi as [Ha <-]. apply Hown in Hoj; [|done]. by destruct (Hold j _ Hj Hoj Ha).
    + destruct Hi as [->|Hi]; [done|]. apply Hownt in Hoj as [Ha <-]. apply Hown in Hoi; [|done]. by destruct (Hold i _ Hi Hoi Ha).
    + apply Hown in Hoi, Hoj; [|done..]. destruct Hi as [?|Hi]; [done|]. destruct Hj as [?|Hj]; [done|]. by eapply H4.
  - intros q c Hq. pose proof (H5 q c Hq) as Hq2. rewrite Hsame; [done|]. intros Ha. apply Hfr; [done|by rewrite Hq2].
  - intros i b o Hi Ho. destruct (decide (i = t)) as [->|Hne].
    + apply Hownt in Ho as [Ha <-]. destruct (cell F ((mp_d z).1, o)) as [c|] eqn:Hc; [|done]. apply H5 in Hc.
      by destruct (Hfr Ha ((mp_d z).1, o)); [rewrite Hc|].
    + apply Hdom in Hi as [?|Hi]; [done|]. apply (H6 i); [done|]. by apply Hown.
  - intros q Hq. destruct (decide (0 < mp_alloc z ∧ (mp_d z).1 = q.1)) as [Hb|Hb].
    + right. exists t. split; [apply Hdom; by left|]. by apply Hownt.
    + rewrite Hsame in Hq by (intros Ha Hq1; apply Hb; by split). destruct (H7 q Hq) as [?|(i & Hi & Ho)]; [by left|].
      right. exists i. split; [apply Hdom; by right|]. apply Hown; [|done]. intros ->. rewrite Ht in Hi. by destruct Hi.
Qed.

Lemma wp_mpz_init s σ t Q E :
  zok F s σ → σ !! t = None → (t < z_next s)%positive →
  (∀ s', zok F s' (<[t := Some 0]> σ) → Q tt s') → wp (mpz_init t) Q E s.
Proof.
  intros Hok Ht Hlt HQ. apply wp_put_mpz, HQ. eapply zok_new; try done; [apply (zok_mem _ _ _ Hok)|].
  split; [done|]. split; [done|]. split; [intros i Hi; cbn in Hi; lia|]. exists []. by split_and!.
Qed.

(** [mpz_init2] with the bits of [n] limbs *)
Lemma wp_mpz_init2 s σ t n Q E :
  zok F s σ → σ !! t = None → (t < z_next s)%positive → (0 < n)%nat → Z.of_nat n ≤ INT_MAX →
  (∀ z s', z_vars s' = <[t := z]> (z_vars s) → mp_alloc z = Z.of_nat n → mp_size z = 0 →
     zok F s' (<[t := Some 0]> σ) → Q tt s') →
  wp (mpz_init2 t (u64 (Z.of_nat n * GMP_LIMB_BITS))) Q E s.
Proof.
  intros Hok Ht Hlt Hn Hmax HQ. unfold mpz_init2, GMP_LIMB_BITS, INT_MAX in *.
  rewrite (u64_small (Z.of_nat n * 64)) by (unfold WB; lia). rewrite (proj2 (Z.eqb_neq _ _)) by lia. cbn [negb b2z].
  rewrite u64_small by (unfold WB; lia). assert ((Z.of_nat n * 64 - 1) / 64 = Z.of_nat n - 1) as ->.
  { symmetry. apply Z.div_unique with 63; lia. }
  replace (1 + (Z.of_nat n - 1)) with (Z.of_nat n) by lia. apply wp_bind, wp_zoom, wp_gmp_xalloc_limbs; [done|apply (zok_mem _ _ _ Hok)|].
  intros b m' (Hsame & Hsp & Hfr & Hm & _). apply wp_put_mpz. rewrite cast_int_id by (unfold INT_MIN, INT_MAX; lia).
  apply (HQ (mk_mpz (Z.of_nat n) 0 (b, 0))); try done. eapply (zok_new s σ t (mk_mpz (Z.of_nat n) 0 (b, 0)) (Some 0) m'); try done.
  - split; [cbn; unfold INT_MAX; lia|]. split; [done|]. cbn. rewrite Nat2Z.id. split; [done|]. exists [].
    unfold zlimbs. cbn. split_and!; try done. lia.
  - intros q Hq. apply Hsame, Hq. cbn. lia.
Qed.

Lemma wp_mpz_clear s σ t w Q E :
  zok F s σ → σ !! t = Some w → (∀ s', zok F s' (delete t σ) → Q tt s') → wp (mpz_clear t) Q E s.
Proof.
  intros Hok Ht HQ. destruct (zok_target s σ t w Hok Ht) as (z & Hz & Ha & H0 & Hs). pose proof Hok as [H1 H2 H3 H4 H5 H6 H7].
  assert (is_Some (σ !! t)) as Hst by (by rewrite Ht).
  assert (∀ i, is_Some (delete t σ !! i) ↔ i ≠ t ∧ is_Some (σ !! i)) as Hdom.
  { intros i. destruct (decide (i = t)) as [->|]; [rewrite lookup_delete_eq; split; [by intros []|naive_solver]|rewrite lookup_delete_ne by done; naive_solver]. }
  assert (∀ b, owns s t b ↔ 0 < mp_alloc z ∧ (mp_d z).1 = b) as Hownt.
  { intros b. unfold owns. rewrite Hz. split; [intros (y & Hy & ?); by simplify_eq|]. intros ?. by exists z. }
  assert (∀ m', mem_ok m' → (∀ q, ¬ owns s t q.1 → cell m' q = cell (z_mem s) q) → (∀ q, owns s t q.1 → cell m' q = None) →
    zok F (set_zmem m' s) (delete t σ)) as Hgo.
  { intros m' Hm Hsame Hgone. split; cbn; try done.
    - intros i ov Hi. assert (is_Some (delete t σ !! i)) as Hd by (by rewrite Hi). apply Hdom in Hd as [Hne Hsi].
      rewrite lookup_delete_ne in Hi by done. destruct (H2 _ _ Hi) as (y & Hy & Hry). exists y. split; [done|].
      eapply rep_same; [|done]. intros Hay o. apply Hsame. cbn. intros Ho. apply Hne. eapply (H4 i t); try done. by exists y.
    - intros i [_ Hi]%Hdom. by apply H3.
    - intros i j b [_ Hi]%Hdom [_ Hj]%Hdom. by apply H4.
    - intros [b o] c Hq. rewrite Hsame; [by apply H5|]. intros Ho. rewrite (H6 t b o Hst Ho) in Hq. done.
    - intros i b o [_ Hi]%Hdom. by apply H6.
    - intros q Hq. destruct (decide (0 < mp_alloc z ∧ (mp_d z).1 = q.1)) as [Hb|Hb].
      + rewrite Hgone in Hq by (by apply Hownt). by destruct Hq.
      + rewrite Hsame in Hq by (by rewrite Hownt). destruct (H7 q Hq) as [?|(i & Hi & Ho)]; [by left|]. right. exists i.
        split; [|done]. apply Hdom. split; [|done]. intros ->. by apply Hb, Hownt. }
  unfold mpz_clear. apply wp_bind. eapply wp_get_mpz; [done|]. destruct (Z.eqb_spec (mp_alloc z) 0) as [E0|E0]; cbn [negb].
  - apply wp_ret, HQ. replace s with (set_zmem (z_mem s) s) by (by destruct s). apply Hgo; try done.
    intros q Ho. apply Hownt in Ho as [? _]. lia.
  - apply wp_zoom. destruct (mp_d z) as [b o] eqn:Hd. cbn in H0. subst o. cbn in Hownt.
    apply wp_gmp_free; [apply (space_first _ _ _ Hs); lia|]. intros m' Hm' Hn'. apply HQ, Hgo.
    + intros q Hq. rewrite Hm' in Hq. rewrite Hn'. case_decide; [by destruct Hq|]. by apply H1.
    + intros q Ho. rewrite Hm'. case_decide as Hq; [|done]. destruct Ho. apply Hownt. split; [lia|done].
    + intros q Ho. apply Hownt in Ho as [_ Hq]. rewrite Hm'. by rewrite decide_True.
Qed.

Lemma swap_lookup (i u v : positive) {A} (x y : A) (m : gmap positive A) :
  m !! u = Some x → m !! v = Some y →
  <[v := x]> (<[u := y]> m) !! i = m !! (if decide (i = u) then v else if decide (i = v) then u else i).
Proof.
  intros Hu Hv. destruct (decide (i = v)) as [->|Hnv].
  - rewrite lookup_insert_eq. destruct (decide (v = u)) as [->|]; [by rewrite Hu|]. done.
  - rewrite lookup_insert_ne by done. destruct (decide (i = u)) as [->|Hnu]; [by rewrite lookup_insert_eq|by rewrite lookup_insert_ne].
Qed.

Lemma wp_mpz_swap s σ u v x y Q E :
  zok F s σ → σ !! u = Some x → σ !! v = Some y →
  (∀ s', zok F s' (<[v := x]> (<[u := y]> σ)) → Q tt s') → wp (mpz_swap u v) Q E s.
Proof.
  intros Hok Hu Hv HQ. destruct (zok_target s σ u x Hok Hu) as (zu & Hzu & _). destruct (zok_target s σ v y Hok Hv) as (zv & Hzv & _).
  unfold mpz_swap. do 2 (apply wp_bind; eapply wp_get_mpz; [done|]). apply wp_bind, wp_put_mpz, wp_put_mpz. cbn.
  apply HQ. pose proof Hok as [H1 H2 H3 H4 H5 H6 H7].
  set (f := λ i : positive, if decide (i = u) then v else if decide (i = v) then u else i).
  assert (∀ i, <[v := x]> (<[u := y]> σ) !! i = σ !! f i) as Hσ by (intros i; by apply swap_lookup).
  assert (∀ i, <[v := zu]> (<[u := zv]> (z_vars s)) !! i = z_vars s !! f i) as Hvars by (intros i; by apply swap_lookup).
  assert (∀ i b, owns (mk_zstate (z_mem s) (z_next s) (<[v := zu]> (<[u := zv]> (z_vars s)))) i b ↔ owns s (f i) b) as Hown.
  { intros i b. unfold owns. cbn. by rewrite Hvars. }
  assert (∀ i, f (f i) = i) as Hff by (intros i; unfold f; repeat case_decide; congruence).
  assert (∀ i, is_Some (σ !! f i) → (i < z_next s)%positive) as Hnext.
  { intros i Hi. unfold f in Hi. repeat case_decide; subst; apply H3; by rewrite ?Hu, ?Hv. }
  split; cbn; try done.
  - intros i ov. rewrite Hσ, Hvars. apply H2.
  - intros i. rewrite Hσ. apply Hnext.
  - intros i j b. rewrite !Hσ, !Hown. intros Hi Hj Hoi Hoj. rewrite <- (Hff i), <- (Hff j). f_equal. by eapply H4.
  - intros i b o. rewrite Hσ, Hown. apply H6.
  - intros q Hq. destruct (H7 q Hq) as [?|(i & Hi & Ho)]; [by left|]. right. exists (f i). by rewrite Hσ, Hown, Hff.
Qed.
(** ** Variables that are only read *)

(** Variables stay where they are. *)
Definition stays (s : zstate) (i : mpz_t) (z : mpz_struct) : Prop := (i < z_next s)%positive ∧ z_vars s !! i = Some z.

(** A new local variable is none of those that stay. *)
Lemma wp_local_stays s σ Q E : zok F s σ →
  (∀ t s', σ !! t = None → (t < z_next s')%positive → (∀ i z, stays s i z → t ≠ i ∧ stays s' i z) → zok F s' σ → Q t s') → wp local_mpz Q E s.
Proof.
  intros Hok HQ. assert (wp local_mpz (λ t s', σ !! t = None ∧ (t < z_next s')%positive ∧ zok F s' σ) (λ _, False) s) as Hwp by (by eapply wp_local_mpz).
  unfold wp, local_mpz in *. cbn in *. destruct Hwp as (Ht & Hlt & Hok'). apply HQ; try done. intros i z [Hi Hz]. split; [intros <-; lia|]. split; cbn; [lia|]. by rewrite lookup_delete_ne by lia.
Qed.

(** [v] is a variable of the store, or a read-only one ([mpz_roinit_n]) whose limbs belong
    to nobody. *)
Definition readable σ (v : mpz_t) (y : Z) (z : mpz_struct) (l : list Z) : Prop :=
  words l ∧ normal l ∧ val l = Z.abs y ∧ mp_size z = Z.sgn y * nlimbs y ∧ (σ !! v = Some (Some y) ∨ holds F (mp_d z) l).

Lemma readable_of s σ v y : zok F s σ → σ !! v = Some (Some y) → ∃ z l, stays s v z ∧ readable σ v y z l.
Proof.
  intros Hok Hv. destruct (zok_operand s σ v y Hok Hv) as (z & l & Hz & Hw & Hn & _ & Hvl & _ & Hs & _). exists z, l.
  split; [split; [eapply (zok_next _ _ _ Hok); by rewrite Hv|done]|]. split_and!; try done. by left.
Qed.

Lemma readable_length σ v y z l : readable σ v y z l → Z.of_nat (length l) = nlimbs y.
Proof. intros (Hw & Hn & Hv & _). by rewrite <- (nlimbs_val l Hw Hn), Hv, nlimbs_abs. Qed.

Lemma readable_insert σ v y z l i w : i ≠ v → readable σ v y z l → readable (<[i := w]> σ) v y z l.
Proof. intros Hi (Hw & Hn & Hv & Hs & Hc). split_and!; try done. by rewrite lookup_insert_ne. Qed.

Lemma readable_use s σ v y z l : zok F s σ → z_vars s !! v = Some z → readable σ v y z l →
  holds (z_mem s) (mp_d z) l ∧ (l ≠ [] → ∀ r zr, r ≠ v → is_Some (σ !! r) → z_vars s !! r = Some zr → 0 < mp_alloc zr → (mp_d zr).1 ≠ (mp_d z).1).
Proof.
  intros Hok Hz (Hw & Hn & Hv & _ & [He|Hh]).
  - destruct (zok_operand s σ v y Hok He) as (z' & l' & Hz' & Hw' & Hn' & Hh' & Hv' & _ & _ & Hal & _). rewrite Hz in Hz'. injection Hz' as <-.
    assert (length l' = length l) as Hlen by (apply Nat2Z.inj; rewrite <- (nlimbs_val l'), <- (nlimbs_val l), Hv, Hv' by done; done).
    assert (l' = l) as -> by (apply val_inj; try done; congruence). split; [done|]. intros Hne r zr Hr Hs Hzr Ha Heq.
    assert (y ≠ 0) as Hy by (intros ->; pose proof (nlimbs_val l Hw Hn) as Hl; rewrite Hv in Hl; change (nlimbs (Z.abs 0)) with 0 in Hl; destruct l; [done|cbn [length] in Hl; lia]). pose proof (nlimbs_pos y Hy).
    apply Hr. eapply (zok_sep _ _ _ Hok r v (mp_d z).1); [done|by rewrite He|by exists zr|]. exists z. split; [done|]. split; [lia|done].
  - split; [intros i x Hi; by apply (zok_foreign _ _ _ Hok), Hh|]. intros Hne r zr Hr Hs Hzr Ha Heq. destruct l as [|x l]; [done|]. apply holds_cons in Hh as [Hc _].
    destruct (mp_d z) as [b o]. cbn in Heq. rewrite (zok_private _ _ _ Hok r b o) in Hc; [done|done|]. by exists zr.
Qed.
End rep.
