(* ===== verification/MpzLocals.v ===== *)
(** * Local variables

    Functions of mini-gmp with many local integers: [locals ks vs σ] is the store [σ] with
    the variables [ks] holding the numbers [vs].  The lemmas read, change and clear one of
    them by its position, and the tactic [local_var] finds the position. *)

From S2P Require Import Prelude CString Queue State UInt64 Mpn MpnMem MpnThm MpnBits MpnDiv MpnInv MpnDivThm MpnDivPi1 MpnCorrect MpnDivQr MpnStr MpnStrThm MpnSetStr Mpz MpzRep.

Fixpoint locals (ks : list mpz_t) (vs : list Z) (σ : gmap positive (option Z)) : gmap positive (option Z) :=
  match ks, vs with
  | k :: ks, v :: vs => <[k := Some v]> (locals ks vs σ)
  | _, _ => σ
  end.

(** Names for new variables: distinct and not in use *)
Definition fresh (ks : list mpz_t) (σ : gmap positive (option Z)) : Prop := NoDup ks ∧ Forall (λ k, σ !! k = None) ks.

Lemma locals_other ks : ∀ vs σ k, k ∉ ks → locals ks vs σ !! k = σ !! k.
Proof.
  induction ks as [|x ks IH]; intros [|v vs] σ k Hk; try done. cbn [locals]. apply not_elem_of_cons in Hk as [Hne Hk].
  rewrite lookup_insert_ne by done. by apply IH.
Qed.

Lemma fresh_other ks σ k w : fresh ks σ → σ !! k = Some w → k ∉ ks.
Proof. intros [_ Hf] Hk Hin. rewrite Forall_forall in Hf. specialize (Hf k Hin). congruence. Qed.

Lemma locals_old ks vs σ k w : fresh ks σ → σ !! k = Some w → locals ks vs σ !! k = Some w.
Proof. intros Hf Hk. rewrite locals_other; [done|]. by eapply fresh_other. Qed.

Lemma locals_get i ks : ∀ vs σ k v, fresh ks σ → ks !! i = Some k → vs !! i = Some v → locals ks vs σ !! k = Some (Some v).
Proof.
  revert ks. induction i as [|i IH]; intros [|x ks] [|w vs] σ k v [Hnd Hf] Hk Hv; try done; cbn [locals].
  - injection Hk as ->. injection Hv as ->. by rewrite lookup_insert_eq.
  - cbn in Hk, Hv. apply NoDup_cons in Hnd as [Hx Hnd]. apply Forall_cons in Hf as [_ Hf].
    rewrite lookup_insert_ne; [by eapply IH|]. intros ->. by apply Hx, list_elem_of_lookup_2 with i.
Qed.

Lemma locals_set i ks : ∀ vs σ k v, fresh ks σ → ks !! i = Some k → (i < length vs)%nat → <[k := Some v]> (locals ks vs σ) = locals ks (<[i := v]> vs) σ.
Proof.
  revert ks. induction i as [|i IH]; intros [|x ks] [|w vs] σ k v [Hnd Hf] Hk Hi; try done; cbn in Hi; try lia; cbn [locals].
  - injection Hk as ->. by rewrite insert_insert_eq.
  - cbn in Hk. apply NoDup_cons in Hnd as [Hx Hnd]. apply Forall_cons in Hf as [_ Hf]. change (<[S i := v]> (w :: vs)) with (w :: <[i := v]> vs). cbn [locals].
    rewrite insert_insert_ne; [|intros ->; by apply Hx, list_elem_of_lookup_2 with i]. f_equal. apply IH; [done|done|lia].
Qed.

(** A variable that is not local *)
Lemma locals_outer ks : ∀ vs σ k w, k ∉ ks → <[k := w]> (locals ks vs σ) = locals ks vs (<[k := w]> σ).
Proof.
  induction ks as [|x ks IH]; intros [|v vs] σ k w Hk; try done. cbn [locals]. apply not_elem_of_cons in Hk as [Hne Hk].
  rewrite insert_insert_ne by done. by rewrite IH.
Qed.

Lemma fresh_insert ks σ k w v : fresh ks σ → σ !! k = Some w → fresh ks (<[k := v]> σ).
Proof.
  intros [Hnd Hf] Hk. split; [done|]. eapply Forall_impl; [done|]. intros x Hx. cbn in Hx. by rewrite lookup_insert_ne by congruence.
Qed.

(** The first of the local variables is cleared. *)
Lemma locals_delete k ks v vs σ : fresh (k :: ks) σ → delete k (locals (k :: ks) (v :: vs) σ) = locals ks vs σ.
Proof.
  intros [Hnd Hf]. apply NoDup_cons in Hnd as [Hk _]. apply Forall_cons in Hf as [Hk0 _]. cbn [locals]. rewrite delete_insert_id; [done|].
  by rewrite locals_other.
Qed.

Lemma fresh_tail k ks σ : fresh (k :: ks) σ → fresh ks σ.
Proof. intros [Hnd Hf]. apply NoDup_cons in Hnd as [_ Hnd]. by apply Forall_cons in Hf as [_ Hf]. Qed.

Section locals.
Context (F : mem).
Implicit Types (s : zstate) (σ : gmap positive (option Z)).

(** Variables that are declared but not initialised *)
Definition declared s σ (ks : list mpz_t) : Prop := zok F s σ ∧ fresh ks σ ∧ Forall (λ k, (k < z_next s)%positive) ks.

Lemma declared_nil s σ : zok F s σ → declared s σ [].
Proof. intros Hok. split; [done|]. by repeat constructor. Qed.

Lemma wp_declare s σ ks Q E : declared s σ ks → (∀ k s', declared s' σ (ks ++ [k]) → Q k s') → wp local_mpz Q E s.
Proof.
  intros (Hok & [Hnd Hf] & Hlt) HQ.
  assert (wp local_mpz (λ t s', σ !! t = None ∧ zok F s' σ) (λ _, False) s) as Hwp by (by eapply wp_local_mpz; [done|]).
  unfold wp, local_mpz in *. cbn in Hwp. destruct Hwp as [Ht Hok']. apply HQ. split; [done|]. split.
  - split.
    + apply NoDup_app. split; [done|]. split; [|apply NoDup_singleton]. intros x Hx ->%list_elem_of_singleton.
      rewrite Forall_forall in Hlt. specialize (Hlt _ Hx). lia.
    + by apply Forall_app_2; [|apply Forall_singleton].
  - apply Forall_app. split; [|apply Forall_singleton; cbn; lia]. eapply Forall_impl; [done|]. cbn. intros. lia.
Qed.

(** One after the other is initialised. *)
Lemma wp_init_local s σ ks vs k ks' Q E :
  fresh (ks ++ k :: ks') σ → Forall (λ k, (k < z_next s)%positive) (ks ++ k :: ks') → zok F s (locals ks vs σ) → length ks = length vs →
  (∀ s', Forall (λ k, (k < z_next s')%positive) (ks ++ k :: ks') → zok F s' (locals (ks ++ [k]) (vs ++ [0]) σ) → Q tt s') → wp (mpz_init k) Q E s.
Proof.
  intros [Hnd Hf] Hlt Hok Hlen HQ. apply NoDup_app in Hnd as (_ & Hdis & _). apply Forall_app in Hf as [_ Hf]. apply Forall_cons in Hf as [Hk _].
  pose proof Hlt as [_ [Hkn _]%Forall_cons]%Forall_app. assert (k ∉ ks) as Hin by (intros H; apply (Hdis _ H); left).
  assert (wp (mpz_init k) (λ _ s', zok F s' (<[k := Some 0]> (locals ks vs σ))) (λ _, False) s) as Hwp by (eapply wp_mpz_init; try done; by rewrite locals_other).
  unfold wp, mpz_init, put_mpz in *. cbn in Hwp. apply HQ; [done|]. rewrite locals_outer in Hwp by done.
  replace (locals (ks ++ [k]) (vs ++ [0]) σ) with (locals ks vs (<[k := Some 0]> σ)); [done|]. clear -Hlen.
  revert vs Hlen. induction ks as [|x ks IH]; intros [|v vs] Hlen; cbn in *; try lia; [done|]. by rewrite IH by lia.
Qed.

(** The first local variable is cleared. *)
Lemma wp_clear_local s σ k ks v vs Q E :
  fresh (k :: ks) σ → zok F s (locals (k :: ks) (v :: vs) σ) → (∀ s', zok F s' (locals ks vs σ) → Q tt s') → wp (mpz_clear k) Q E s.
Proof.
  intros Hf Hok HQ. eapply (wp_mpz_clear F s _ k (Some v)); [done|by eapply (locals_get 0)|]. intros s'. rewrite locals_delete by done. apply HQ.
Qed.
End locals.

Arguments locals : simpl never.

(** A lookup in a store with local variables, and the store after an assignment *)
Ltac local_var :=
  first [ done
        | eapply (locals_get 0); [done|reflexivity|reflexivity] | eapply (locals_get 1); [done|reflexivity|reflexivity]
        | eapply (locals_get 2); [done|reflexivity|reflexivity] | eapply (locals_get 3); [done|reflexivity|reflexivity]
        | eapply (locals_get 4); [done|reflexivity|reflexivity] | eapply (locals_get 5); [done|reflexivity|reflexivity]
        | eapply locals_old; [done|done] ].
Ltac local_set H :=
  first [ rewrite (locals_set 0) in H by (done || (cbn; lia)) | rewrite (locals_set 1) in H by (done || (cbn; lia))
        | rewrite (locals_set 2) in H by (done || (cbn; lia)) | rewrite (locals_set 3) in H by (done || (cbn; lia))
        | rewrite (locals_set 4) in H by (done || (cbn; lia)) | rewrite (locals_set 5) in H by (done || (cbn; lia)) ];
  cbn [insert list_insert] in H.
