(* ===== verification/MpzArith.v ===== *)
(** * Integer arithmetic on variables

    Each operation moves the variables from [σ] to [σ] with the result, whatever variables
    are the same: assignment, comparison, negation, sums, differences and products. *)

From S2P Require Import Prelude CString Queue State UInt64 Mpn MpnMem MpnThm MpnBits MpnDiv MpnInv MpnDivThm MpnDivPi1 MpnCorrect MpnDivQr MpnStr MpnStrThm MpnSetStr Mpz MpzRep.

Section arith.
Context (F : mem).
Implicit Types (s : zstate) (σ : gmap positive (option Z)).

Lemma zok_value s σ r z ov :
  zok F s σ → is_Some (σ !! r) → z_vars s !! r = Some z → rep (z_mem s) z ov → zok F s (<[r := ov]> σ).
Proof.
  intros Hok Hr Hz Hrep. pose proof (zok_put F s σ r z z ov Hok Hr Hz eq_refl eq_refl Hrep) as H.
  rewrite insert_id in H by done. by destruct s.
Qed.

(** Memory for [n] limbs in [r], and the operands where they are afterwards *)
Lemma wp_realloc_target s σ r w n Q E :
  zok F s σ → σ !! r = Some (Some w) → n ≤ INT_MAX →
  (∀ z s', z_vars s' !! r = Some z → n ≤ mp_alloc z ≤ INT_MAX → (mp_d z).2 = 0 →
     space (z_mem s') (mp_d z) (Z.to_nat (mp_alloc z)) → sizes_kept s s' → zok F s' σ → Q (mp_d z) s') →
  wp (MPZ_REALLOC r n) Q E s.
Proof.
  intros Hok Hr Hn HQ. destruct (zok_target F s σ r _ Hok Hr) as (z & Hz & _).
  eapply wp_MPZ_REALLOC; try done. intros z' s' Hv Hsz Hal Hok'.
  destruct (zok_target F s' σ r _ Hok' Hr) as (z0 & Hz0 & Ha & H0 & Hs). rewrite Hv, lookup_insert_eq in Hz0. injection Hz0 as <-.
  apply HQ; try done; [by rewrite Hv, lookup_insert_eq|lia|by eapply sizes_kept_insert].
Qed.

Lemma ok_up_start (p q : ptr) n : p.2 = 0 → q.2 = 0 → ok_up p q n.
Proof. unfold ok_up. lia. Qed.

Lemma changed_block m p l m' n : writes m p l m' → (length l ≤ n)%nat → changed m m' (λ q, within q p n).
Proof. intros Hw Hl. eapply writes_changed; [exact Hw|]. intros c [Hb Hr]. split; [done|lia]. Qed.

Lemma space_sub m p n k : space m p n → (k ≤ n)%nat → space m p k.
Proof. intros Hs Hk i Hi. apply Hs. lia. Qed.

(** ** Assignment *)

(** One limb, with the size set before *)
Lemma wp_set_limb s σ r w n x Q E :
  zok F s σ → σ !! r = Some (Some w) → n = 1 ∨ n = -1 → 0 < x < WB →
  (∀ s', zok F s' (<[r := Some (n * x)]> σ) → Q tt s') →
  wp (_ ← set_size r n; rp ← MPZ_REALLOC r 1; limbs (store rp x)) Q E s.
Proof.
  intros Hok Hr Hn Hx HQ. destruct (zok_target F s σ r _ Hok Hr) as (z & Hz & _). apply wp_bind.
  eapply wp_set_size_early; try done; [unfold INT_MIN, INT_MAX; lia|]. intros s1 Hv1 Hok1. apply wp_bind.
  eapply (wp_MPZ_REALLOC F s1 _ r None); [done|by rewrite lookup_insert_eq|by rewrite Hv1, lookup_insert_eq|done|cbn; lia|].
  intros z2 s2 Hv2 Hsz2 Ha2 Hok2. cbn in Hsz2. assert (z_vars s2 !! r = Some z2) as Hz2 by (by rewrite Hv2, lookup_insert_eq).
  assert (is_Some (<[r:=None]> σ !! r)) as Hsr by (by rewrite lookup_insert_eq).
  destruct (zok_target F s2 _ r None Hok2 ltac:(by rewrite lookup_insert_eq)) as (z0 & Hz0 & Ha & H0 & Hs).
  rewrite Hz2 in Hz0. injection Hz0 as <-. apply wp_zoom, wp_store_writes; [apply (space_first _ _ _ Hs); lia|].
  intros m3 Hw3. apply HQ. pose proof (changed_block _ _ _ _ (Z.to_nat (mp_alloc z2)) Hw3 ltac:(cbn; lia)) as Hc3.
  assert (zok F (set_zmem m3 s2) (<[r:=None]> (<[r:=None]> σ))) as Hok3 by (eapply zok_write_block; try done; lia).
  rewrite insert_insert_eq in Hok3. rewrite <- (insert_insert_eq σ r (Some (n * x)) None). eapply zok_value; try done.
  split; [done|]. split; [done|]. split; [by eapply changed_space|]. exists [x]. unfold zlimbs. cbn.
  split_and!; [by apply words_cons; [unfold word; lia|constructor]| |apply Hw3|lia|rewrite Hsz2; lia|lia].
  intros y Hy. injection Hy as <-. lia.
Qed.

Lemma wp_mpz_set_ui s σ r w x Q E :
  zok F s σ → σ !! r = Some (Some w) → 0 ≤ x < WB →
  (∀ s', zok F s' (<[r := Some x]> σ) → Q tt s') → wp (mpz_set_ui r x) Q E s.
Proof.
  intros Hok Hr Hx HQ. unfold mpz_set_ui. destruct (Z.ltb_spec 0 x).
  - eapply (wp_set_limb s σ r w 1 x); try done; [by left|lia|]. by rewrite Z.mul_1_l.
  - assert (x = 0) as -> by lia. eapply wp_set_size_0; try done.
Qed.

Lemma neg_cast x : -9223372036854775808 ≤ x < 0 → GMP_NEG_CAST x = - x.
Proof.
  intros Hx. unfold GMP_NEG_CAST, u64. rewrite Zminus_mod_idemp_l. replace (x + 1 - 1) with x by lia.
  rewrite <- (Z.mod_unique_pos x WB (-1) (x + WB)) by (unfold WB; lia). symmetry. apply (Z.mod_unique_pos _ _ (-1)); unfold WB; lia.
Qed.

Lemma wp_mpz_set_si s σ r w x Q E :
  zok F s σ → σ !! r = Some (Some w) → -9223372036854775808 ≤ x < 9223372036854775808 →
  (∀ s', zok F s' (<[r := Some x]> σ) → Q tt s') → wp (mpz_set_si r x) Q E s.
Proof.
  intros Hok Hr Hx HQ. unfold mpz_set_si. destruct (Z.leb_spec 0 x).
  - eapply wp_mpz_set_ui; try done. unfold WB. lia.
  - rewrite neg_cast by lia. eapply (wp_set_limb s σ r w (-1) (- x)); try done; [by right|unfold WB; lia|].
    by replace (-1 * - x) with x by lia.
Qed.

Lemma wp_mpz_set s σ r w a x Q E :
  zok F s σ → σ !! r = Some (Some w) → σ !! a = Some (Some x) → nlimbs x ≤ INT_MAX →
  (∀ s', zok F s' (<[r := Some x]> σ) → Q tt s') → wp (mpz_set r a) Q E s.
Proof.
  intros Hok Hr Ha Hn HQ. unfold mpz_set. destruct (decide (r = a)) as [->|Hne].
  { rewrite bool_decide_true by done. apply wp_ret, HQ. by rewrite insert_id. }
  rewrite bool_decide_false by done. cbn [negb].
  destruct (zok_operand F s σ a x Hok Ha) as (za & la & Hza & _ & _ & _ & _ & _ & Hsz & _).
  pose proof (nlimbs_nonneg x) as Hnn. apply wp_bind. eapply wp_get_mpz; [done|].
  rewrite Hsz, size_abs.
  apply wp_bind. eapply wp_realloc_target; try done. intros z s1 Hz Hal H0 Hs Hk Hok1.
  destruct (zok_operand F s1 σ a x Hok1 Ha) as (za1 & l & Hza1 & Hw & Hnl & Hh & Hv & Hlen & Hsz1 & _ & H0a).
  apply wp_bind. eapply wp_get_mpz; [done|]. apply wp_bind, wp_zoom. rewrite <- Hlen.
  apply wp_mpn_copyi; [done|eapply space_sub; [done|lia]|by apply ok_up_start|]. intros m2 Hw2.
  eapply (wp_set_size_written F s1 _ σ r l (mp_size za1) x); [|by rewrite Hsz1, size_abs| |done].
  - eapply zok_written; try done; [lia|by intros i y Hy; exists y|eapply changed_block; [done|lia]|apply Hw2].
  - rewrite Hsz1, Hv, size_sgn. lia.
Qed.

(** ** Sums and differences of absolute values *)

Lemma normal_ge l v : words l → 0 < wpow (length l - 1) ≤ v → v ≤ val l → normal l.
Proof. intros Hw Hv Hle. apply normal_of_bound; [done|lia]. Qed.

(** Limbs with a carry limb on top that may be 0 *)
Lemma with_carry r c m0 s σ t z m' :
  zok F s σ → is_Some (σ !! t) → z_vars s !! t = Some z → Z.of_nat (length r) < mp_alloc z → sizes_kept m0 s →
  writes (z_mem s) (mp_d z) (r ++ [c]) m' → words r → word c → (c = 0 → normal r) →
  ∃ l, written F m0 σ t l (set_zmem m' s) ∧ val l = val r + wpow (length r) * c ∧
    Z.of_nat (length l) = Z.of_nat (length r) + b2z (0 <? c).
Proof.
  intros Hok Ht Hz Hl Hk Hw Hwr Hc Hn. assert (changed (z_mem s) m' (λ q, within q (mp_d z) (Z.to_nat (mp_alloc z)))) as Hch
    by (eapply changed_block; [exact Hw|rewrite length_app; cbn; lia]).
  pose proof Hw as [Hh _]. destruct (Z.ltb_spec 0 c) as [Hpos|Hz0].
  - exists (r ++ [c]). split; [|rewrite val_app, length_app; cbn [val length b2z]; lia].
    eapply zok_written; try done; [rewrite length_app; cbn; lia|by apply Forall_app; auto|].
    intros x Hx. rewrite last_snoc in Hx. injection Hx as <-. lia.
  - assert (c = 0) as -> by (unfold word in Hc; lia). exists r. split; [|cbn [b2z]; lia]. apply holds_app in Hh as [Hh _].
    eapply zok_written; try done; [lia|by apply Hn].
Qed.

Lemma wp_add_limbs s0 s σ r z za zb la lb Q E :
  zok F s σ → is_Some (σ !! r) → z_vars s !! r = Some z → Z.of_nat (length la) < mp_alloc z → (mp_d z).2 = 0 →
  space (z_mem s) (mp_d z) (Z.to_nat (mp_alloc z)) → sizes_kept s0 s →
  words la → words lb → normal la → (length lb ≤ length la)%nat → holds (z_mem s) (mp_d za) la → holds (z_mem s) (mp_d zb) lb →
  (mp_d za).2 = 0 → (mp_d zb).2 = 0 →
  (∀ l s', written F s0 σ r l s' → val l = val la + val lb → Q (Z.of_nat (length l)) s') →
  wp (cy ← limbs (mpn_add (mp_d z) (mp_d za) (Z.of_nat (length la)) (mp_d zb) (Z.of_nat (length lb)));
      _ ← limbs (store (padd (mp_d z) (Z.of_nat (length la))) cy);
      mret (Z.of_nat (length la) + cy)) Q E s.
Proof.
  intros Hok Hr Hz Hal H0 Hs Hk Hwa Hwb Hna Hle Hha Hhb H0a H0b HQ. apply wp_bind, wp_zoom.
  apply (wp_mpn_add _ _ _ la lb); try done; [eapply space_sub; [done|lia]|by apply ok_up_start..|].
  intros rl c m1 Hl Hw Hc Hv Hw1. apply wp_bind, wp_zoom. cbn [z_mem set_zmem]. rewrite <- Hl.
  assert (is_Some (cell m1 (padd (mp_d z) (Z.of_nat (length rl))))) as Hcell by (apply Hw1, Hs; lia).
  apply wp_store_writes; [done|]. intros m2 Hw2. apply wp_ret.
  pose proof (val_bound la Hwa). pose proof (val_bound lb Hwb).
  destruct (with_carry rl c s0 s σ r z m2) as (l & Hwr & Hvl & Hll); try done; [lia|by eapply writes_app|unfold word, WB; lia| |].
  { intros ->. destruct (decide (la = [])) as [->|Hne]; [by destruct rl|]. pose proof (normal_bound la Hwa Hna Hne).
    apply normal_of_bound; [done|]. rewrite Hl. lia. }
  replace (Z.of_nat (length rl) + c) with (Z.of_nat (length l)); [|rewrite Hll; destruct (Z.ltb_spec 0 c); cbn; lia].
  apply HQ; [done|]. rewrite Hvl, Hl. done.
Qed.

Lemma wp_sub_limbs s0 s σ r z za zb la lb Q E :
  zok F s σ → is_Some (σ !! r) → z_vars s !! r = Some z → Z.of_nat (length la) ≤ mp_alloc z → (mp_d z).2 = 0 →
  space (z_mem s) (mp_d z) (Z.to_nat (mp_alloc z)) → sizes_kept s0 s →
  words la → words lb → (length lb ≤ length la)%nat → val lb ≤ val la → holds (z_mem s) (mp_d za) la → holds (z_mem s) (mp_d zb) lb →
  (mp_d za).2 = 0 → (mp_d zb).2 = 0 →
  (∀ l s', written F s0 σ r l s' → val l = val la - val lb → Q (Z.of_nat (length l)) s') →
  wp (_ ← zassert_nocarry (mpn_sub (mp_d z) (mp_d za) (Z.of_nat (length la)) (mp_d zb) (Z.of_nat (length lb)));
      limbs (mpn_normalized_size (mp_d z) (Z.of_nat (length la)))) Q E s.
Proof.
  intros Hok Hr Hz Hal H0 Hs Hk Hwa Hwb Hle Hge Hha Hhb H0a H0b HQ. apply wp_bind, wp_zoom. unfold gmp_assert_nocarry. apply wp_bind.
  apply (wp_mpn_sub _ _ _ la lb); try done; [eapply space_sub; [done|lia]|by apply ok_up_start..|].
  intros rl c m1 Hl Hw Hc Hv Hw1. assert (c = 0) as ->.
  { pose proof (val_bound rl Hw) as Hb. rewrite Hl in Hb. destruct (Z.eq_dec c 1) as [->|]; lia. }
  apply wp_massert; [done|]. apply wp_zoom. cbn [z_mem set_zmem]. rewrite <- Hl. pose proof Hw1 as [Hh1 _].
  apply wp_mpn_normalized_size; [done|]. intros k Hkl Hn Er.
  assert (Z.of_nat k = Z.of_nat (length (take k rl))) as -> by (rewrite length_take; lia).
  assert (val (take k rl) = val rl) as Hvt by (rewrite Er at 2; rewrite val_app, val_zeros; lia).
  apply HQ; [|lia]. replace (set_zmem m1 (set_zmem m1 s)) with (set_zmem m1 s) by done. eapply zok_written; try done.
  - rewrite length_take. lia.
  - eapply changed_block; [exact Hw1|]. lia.
  - rewrite Er in Hh1. by apply holds_app in Hh1 as [? _].
  - by apply Forall_take.
Qed.

Lemma wp_mpz_abs_add s σ r w a x b y Q E :
  zok F s σ → σ !! r = Some (Some w) → σ !! a = Some (Some x) → σ !! b = Some (Some y) →
  nlimbs x < INT_MAX → nlimbs y < INT_MAX →
  (∀ l s', written F s σ r l s' → val l = Z.abs x + Z.abs y → Q (Z.of_nat (length l)) s') →
  wp (mpz_abs_add r a b) Q E s.
Proof.
  intros Hok Hr Ha Hb Hnx Hny HQ.
  destruct (zok_operand F s σ a x Hok Ha) as (za & _ & Hza & _ & _ & _ & _ & _ & Hsa & _).
  destruct (zok_operand F s σ b y Hok Hb) as (zb & _ & Hzb & _ & _ & _ & _ & _ & Hsb & _).
  unfold mpz_abs_add. do 2 (apply wp_bind; eapply wp_get_mpz; [done|]). rewrite Hsa, Hsb, !size_abs.
  assert (∀ a b x y, σ !! a = Some (Some x) → σ !! b = Some (Some y) → nlimbs y ≤ nlimbs x < INT_MAX →
    (∀ l s', written F s σ r l s' → val l = Z.abs x + Z.abs y → Q (Z.of_nat (length l)) s') →
    wp (rp ← MPZ_REALLOC r (nlimbs x + 1); za ← get_mpz a; zb ← get_mpz b;
        cy ← limbs (mpn_add rp (mp_d za) (nlimbs x) (mp_d zb) (nlimbs y));
        _ ← limbs (store (padd rp (nlimbs x)) cy); mret (nlimbs x + cy)) Q E s) as Hcore.
  { clear a b x y Ha Hb Hnx Hny HQ za zb Hza Hzb Hsa Hsb. intros a b x y Ha Hb Hn HQ. apply wp_bind.
    eapply wp_realloc_target; try done; [lia|]. intros z s1 Hz Hal H0 Hs Hk Hok1.
    destruct (zok_operand F s1 σ a x Hok1 Ha) as (za & la & Hza & Hwa & Hna & Hha & Hva & Hla & _ & _ & H0a).
    destruct (zok_operand F s1 σ b y Hok1 Hb) as (zb & lb & Hzb & Hwb & _ & Hhb & Hvb & Hlb & _ & _ & H0b).
    do 2 (apply wp_bind; eapply wp_get_mpz; [done|]). rewrite <- Hla, <- Hlb in *.
    eapply (wp_add_limbs s s1 σ r z za zb la lb); try done; [lia|lia|]. intros l s2 Hw2 Hv2. apply HQ; [done|lia]. }
  destruct (Z.ltb_spec (nlimbs x) (nlimbs y)).
  - apply (Hcore b a y x); try done; [lia|]. intros l s' Hw Hv. apply HQ; [done|lia].
  - by apply (Hcore a b x y).
Qed.

Lemma nlimbs_le v u : Z.abs v ≤ Z.abs u → nlimbs v ≤ nlimbs u.
Proof.
  intros Hle. destruct (Z.eq_dec v 0) as [->|Hv]; [apply nlimbs_nonneg|]. unfold nlimbs. do 2 (rewrite (proj2 (Z.eqb_neq _ _)) by lia).
  pose proof (Z.log2_le_mono _ _ Hle). pose proof (Z.div_le_mono _ _ 64 ltac:(lia) H). lia.
Qed.

(** Nothing is written when the difference is 0. *)
Lemma unwritten s σ r w : zok F s σ → σ !! r = Some w → written F s σ r [] s.
Proof.
  intros Hok Hr. destruct (zok_rep _ _ _ Hok _ _ Hr) as (z & Hz & Ha & H0 & Hs & _). exists z. split; [done|].
  split; [|split_and!; try done; [cbn; lia|intros i y Hy; by exists y]]. eapply zok_value; try done.
Qed.

Lemma wp_mpz_abs_sub s σ r w a x b y Q E :
  zok F s σ → σ !! r = Some (Some w) → σ !! a = Some (Some x) → σ !! b = Some (Some y) →
  nlimbs x ≤ INT_MAX → nlimbs y ≤ INT_MAX →
  (∀ l n s', written F s σ r l s' → Z.abs n = Z.of_nat (length l) → Z.sgn n * val l = Z.abs x - Z.abs y → Q n s') →
  wp (mpz_abs_sub r a b) Q E s.
Proof.
  intros Hok Hr Ha Hb Hnx Hny HQ.
  destruct (zok_operand F s σ a x Hok Ha) as (za & la & Hza & Hwa & Hna & Hha & Hva & Hla & Hsa & _).
  destruct (zok_operand F s σ b y Hok Hb) as (zb & lb & Hzb & Hwb & Hnb & Hhb & Hvb & Hlb & Hsb & _).
  unfold mpz_abs_sub. do 2 (apply wp_bind; eapply wp_get_mpz; [done|]). rewrite Hsa, Hsb, !size_abs.
  apply wp_bind, wp_zoom. rewrite <- Hla, <- Hlb at 1. apply (wp_mpn_cmp4 _ _ la lb); try done. rewrite Hva, Hvb.
  replace (set_zmem (z_mem s) s) with s by (by destruct s). clear za zb la lb Hza Hwa Hna Hha Hva Hla Hsa Hzb Hwb Hnb Hhb Hvb Hlb Hsb.
  destruct (Z.compare_spec (Z.abs x) (Z.abs y)) as [He|Hlt|Hgt]; cbn [Z.ltb Z.compare].
  - apply wp_ret, (HQ []); [by eapply unwritten|done|cbn; lia].
  - apply wp_bind. eapply wp_realloc_target; try done. intros z s1 Hz Hal H0 Hs Hk Hok1.
    destruct (zok_operand F s1 σ a x Hok1 Ha) as (za & la & Hza & Hwa & _ & Hha & Hva & Hla & _ & _ & H0a).
    destruct (zok_operand F s1 σ b y Hok1 Hb) as (zb & lb & Hzb & Hwb & _ & Hhb & Hvb & Hlb & _ & _ & H0b).
    do 2 (apply wp_bind; eapply wp_get_mpz; [done|]). pose proof (nlimbs_le x y ltac:(lia)). rewrite <- Hla, <- Hlb in *.
    apply wp_bind_assoc. eapply (wp_sub_limbs s s1 σ r z zb za lb la); try done; [lia|lia|lia|]. intros l s2 Hw2 Hv2.
    apply wp_ret, (HQ l); [done|lia|]. destruct l as [|d l]; [cbn in *; lia|]. cbn [length]. lia.
  - apply wp_bind. eapply wp_realloc_target; try done. intros z s1 Hz Hal H0 Hs Hk Hok1.
    destruct (zok_operand F s1 σ a x Hok1 Ha) as (za & la & Hza & Hwa & _ & Hha & Hva & Hla & _ & _ & H0a).
    destruct (zok_operand F s1 σ b y Hok1 Hb) as (zb & lb & Hzb & Hwb & _ & Hhb & Hvb & Hlb & _ & _ & H0b).
    do 2 (apply wp_bind; eapply wp_get_mpz; [done|]). pose proof (nlimbs_le y x ltac:(lia)). rewrite <- Hla, <- Hlb in *.
    eapply (wp_sub_limbs s s1 σ r z za zb la lb); try done; [lia|lia|lia|]. intros l s2 Hw2 Hv2.
    apply (HQ l); [done|lia|]. destruct l as [|d l]; [cbn in *; lia|]. cbn [length]. lia.
Qed.

(** ** Sums and differences *)

Lemma lxor_signs x y : (0 <=? Z.lxor (Z.sgn x * nlimbs x) (Z.sgn y * nlimbs y)) = Bool.eqb (x <? 0) (y <? 0).
Proof.
  assert (∀ v, 0 ≤ Z.sgn v * nlimbs v ↔ 0 ≤ v) as Hs.
  { intros v. pose proof (size_sgn v). split; intros Hv; [|pose proof (nlimbs_nonneg v); nia].
    destruct (Z.lt_ge_cases v 0); [|done]. rewrite (Z.sgn_neg v) in H by done. apply Z.sgn_neg_iff in H. lia. }
  destruct (Z.leb_spec 0 (Z.lxor (Z.sgn x * nlimbs x) (Z.sgn y * nlimbs y))) as [Hl|Hl].
  - apply Z.lxor_nonneg in Hl. rewrite !Hs in Hl. destruct (Z.ltb_spec x 0), (Z.ltb_spec y 0); cbn; try done; lia.
  - assert (¬ (0 ≤ x ↔ 0 ≤ y)) as Hn by (rewrite <- (Hs x), <- (Hs y), <- Z.lxor_nonneg; lia).
    destruct (Z.ltb_spec x 0), (Z.ltb_spec y 0); cbn; try done; exfalso; apply Hn; lia.
Qed.

Lemma size_nonneg x : (0 <=? Z.sgn x * nlimbs x) = (0 <=? x).
Proof.
  destruct (Z.leb_spec 0 x) as [Hx|Hx].
  - apply Z.leb_le. pose proof (nlimbs_nonneg x). nia.
  - apply Z.leb_gt. pose proof (nlimbs_pos x ltac:(lia)). lia.
Qed.
Lemma size_neg x : (Z.sgn x * nlimbs x <? 0) = (x <? 0).
Proof. by rewrite !Z.ltb_antisym, size_nonneg. Qed.

(** The sign of the first operand is that of the result of the operation on absolute values. *)
Lemma wp_signed s0 s σ r a x l n v Q E :
  zok F s0 σ → σ !! a = Some (Some x) → written F s0 σ r l s → Z.abs n = Z.of_nat (length l) →
  v = (if 0 <=? x then Z.sgn n * val l else - (Z.sgn n * val l)) →
  (∀ s', zok F s' (<[r := Some v]> σ) → Q tt s') →
  wp (za ← get_mpz a; set_size r (if 0 <=? mp_size za then n else - n)) Q E s.
Proof.
  intros Hok Ha Hw Hn -> HQ. destruct (zok_operand F s0 σ a x Hok Ha) as (za & _ & Hza & _ & _ & _ & _ & _ & Hsa & _).
  pose proof Hw as (z & _ & _ & _ & _ & _ & _ & Hk). destruct (Hk a za Hza) as (za' & Hza' & Hsz).
  apply wp_bind. eapply wp_get_mpz; [done|]. rewrite Hsz, Hsa, size_nonneg.
  destruct (0 <=? x); (eapply wp_set_size_written; [done| | |exact HQ]; rewrite ?Z.sgn_opp; lia).
Qed.

Lemma wp_mpz_add s σ r w a x b y Q E :
  zok F s σ → σ !! r = Some (Some w) → σ !! a = Some (Some x) → σ !! b = Some (Some y) →
  nlimbs x < INT_MAX → nlimbs y < INT_MAX → (∀ s', zok F s' (<[r := Some (x + y)]> σ) → Q tt s') →
  wp (mpz_add r a b) Q E s.
Proof.
  intros Hok Hr Ha Hb Hnx Hny HQ.
  destruct (zok_operand F s σ a x Hok Ha) as (za & _ & Hza & _ & _ & _ & _ & _ & Hsa & _).
  destruct (zok_operand F s σ b y Hok Hb) as (zb & _ & Hzb & _ & _ & _ & _ & _ & Hsb & _).
  unfold mpz_add. do 2 (apply wp_bind; eapply wp_get_mpz; [done|]). rewrite Hsa, Hsb, lxor_signs.
  apply wp_bind. destruct (Bool.eqb (x <? 0) (y <? 0)) eqn:He.
  - apply Bool.eqb_prop in He. eapply wp_mpz_abs_add; try done. intros l s1 Hw Hv.
    eapply (wp_signed s s1 σ r a x l (Z.of_nat (length l)) (x + y)); try done; [lia|]. rewrite Hv. destruct (Z.leb_spec 0 x), (Z.ltb_spec x 0), (Z.ltb_spec y 0); try done; try lia.
    all: destruct l as [|d l]; [cbn in *; lia|]; cbn [length]; lia.
  - apply Bool.eqb_false_iff in He. eapply wp_mpz_abs_sub; try done; [lia|lia|]. intros l n s1 Hw Hn Hv.
    eapply (wp_signed s s1 σ r a x l n (x + y)); try done. rewrite Hv. destruct (Z.leb_spec 0 x), (Z.ltb_spec x 0), (Z.ltb_spec y 0); try done; lia.
Qed.

Lemma wp_mpz_sub s σ r w a x b y Q E :
  zok F s σ → σ !! r = Some (Some w) → σ !! a = Some (Some x) → σ !! b = Some (Some y) →
  nlimbs x < INT_MAX → nlimbs y < INT_MAX → (∀ s', zok F s' (<[r := Some (x - y)]> σ) → Q tt s') →
  wp (mpz_sub r a b) Q E s.
Proof.
  intros Hok Hr Ha Hb Hnx Hny HQ.
  destruct (zok_operand F s σ a x Hok Ha) as (za & _ & Hza & _ & _ & _ & _ & _ & Hsa & _).
  destruct (zok_operand F s σ b y Hok Hb) as (zb & _ & Hzb & _ & _ & _ & _ & _ & Hsb & _).
  unfold mpz_sub. do 2 (apply wp_bind; eapply wp_get_mpz; [done|]). rewrite Hsa, Hsb, lxor_signs.
  apply wp_bind. destruct (Bool.eqb (x <? 0) (y <? 0)) eqn:He.
  - apply Bool.eqb_prop in He. eapply wp_mpz_abs_sub; try done; [lia|lia|]. intros l n s1 Hw Hn Hv.
    eapply (wp_signed s s1 σ r a x l n (x - y)); try done. rewrite Hv. destruct (Z.leb_spec 0 x), (Z.ltb_spec x 0), (Z.ltb_spec y 0); try done; lia.
  - apply Bool.eqb_false_iff in He. eapply wp_mpz_abs_add; try done. intros l s1 Hw Hv.
    eapply (wp_signed s s1 σ r a x l (Z.of_nat (length l)) (x - y)); try done; [lia|]. rewrite Hv. destruct (Z.leb_spec 0 x), (Z.ltb_spec x 0), (Z.ltb_spec y 0); try done; try lia.
    all: destruct l as [|d l]; [cbn in *; lia|]; cbn [length]; lia.
Qed.

(** ** One limb as the second operand *)

(** The carry limb is stored above the limbs just written. *)
Lemma wp_store_carry {A} s0 s σ r z rl c m1 (k : MZ A) Q E :
  zok F s σ → is_Some (σ !! r) → z_vars s !! r = Some z → Z.of_nat (length rl) < mp_alloc z →
  space (z_mem s) (mp_d z) (Z.to_nat (mp_alloc z)) → sizes_kept s0 s →
  writes (z_mem s) (mp_d z) rl m1 → words rl → word c → (c = 0 → normal rl) →
  (∀ l s', written F s0 σ r l s' → val l = val rl + wpow (length rl) * c →
     Z.of_nat (length l) = Z.of_nat (length rl) + b2z (0 <? c) → wp k Q E s') →
  wp (_ ← limbs (store (padd (mp_d z) (Z.of_nat (length rl))) c); k) Q E (set_zmem m1 s).
Proof.
  intros Hok Hr Hz Hal Hs Hk Hw1 Hwr Hc Hn HQ. apply wp_bind, wp_zoom. cbn [z_mem set_zmem].
  apply wp_store_writes; [apply Hw1, Hs; lia|]. intros m2 Hw2.
  destruct (with_carry rl c s0 s σ r z m2) as (l & Hwr' & Hvl & Hll); try done; [by eapply writes_app|]. by apply (HQ l).
Qed.

Lemma wp_store_only {A} s0 s σ r z c (k : MZ A) Q E :
  zok F s σ → is_Some (σ !! r) → z_vars s !! r = Some z → 1 ≤ mp_alloc z →
  space (z_mem s) (mp_d z) (Z.to_nat (mp_alloc z)) → sizes_kept s0 s → word c →
  (∀ l s', written F s0 σ r l s' → val l = c → Z.of_nat (length l) = b2z (0 <? c) → wp k Q E s') →
  wp (_ ← limbs (store (mp_d z) c); k) Q E s.
Proof.
  intros Hok Hr Hz Hal Hs Hk Hc HQ. rewrite <- (padd_0 (mp_d z)).
  replace s with (set_zmem (z_mem s) s) by (by destruct s). change 0 with (Z.of_nat (length (@nil Z))).
  eapply (wp_store_carry s0 s σ r z []); try done; [cbn; lia|].
  intros l s' Hw Hv Hl. apply (HQ l); try done; cbn [val length] in *; rewrite ?wpow_0 in *; lia.
Qed.

Lemma wp_mpz_abs_add_ui s σ r w a x b Q E :
  zok F s σ → σ !! r = Some (Some w) → σ !! a = Some (Some x) → 0 ≤ b < WB → nlimbs x < INT_MAX →
  (∀ l s', written F s σ r l s' → val l = Z.abs x + b → Q (Z.of_nat (length l)) s') →
  wp (mpz_abs_add_ui r a b) Q E s.
Proof.
  intros Hok Hr Ha Hb Hn HQ. destruct (zok_operand F s σ a x Hok Ha) as (za & _ & Hza & _ & _ & _ & _ & _ & Hsa & _).
  unfold mpz_abs_add_ui. apply wp_bind. eapply wp_get_mpz; [done|]. rewrite Hsa, size_abs.
  destruct (Z.eqb_spec (nlimbs x) 0) as [Hz0|Hz0].
  - assert (x = 0) as -> by (destruct (Z.eq_dec x 0) as [->|Hne]; [done|pose proof (nlimbs_pos x Hne); lia]).
    apply wp_bind. eapply wp_realloc_target; try done. intros z s1 Hz Hal H0 Hs Hk Hok1.
    eapply (wp_store_only s s1 σ r z b); try done; [lia|]. intros l s2 Hw Hv Hl. apply wp_ret. rewrite <- Hl. apply HQ; [done|cbn; lia].
  - apply wp_bind. eapply wp_realloc_target; try done; [lia|]. intros z s1 Hz Hal H0 Hs Hk Hok1.
    destruct (zok_operand F s1 σ a x Hok1 Ha) as (za1 & la & Hza1 & Hwa & Hna & Hha & Hva & Hla & _ & _ & H0a).
    apply wp_bind. eapply wp_get_mpz; [done|]. rewrite <- Hla in *. apply wp_bind, wp_zoom.
    assert (la ≠ []) as Hne by (intros ->; cbn in Hz0; lia).
    eapply (wp_mpn_add_1 _ _ la); try done; [eapply space_sub; [done|lia]|by apply ok_up_start|].
    intros rl c m1 Hl Hwl Hc Hv Hw1. rewrite <- Hl. pose proof (normal_bound la Hwa Hna Hne).
    eapply (wp_store_carry s s1 σ r z rl c); try done; [lia|unfold word, WB; lia|intros ->; apply normal_of_bound; [done|rewrite Hl; lia]|].
    intros l s2 Hw2 Hv2 Hl2. apply wp_ret. replace (Z.of_nat (length rl) + c) with (Z.of_nat (length l)); [|rewrite Hl2; destruct (Z.ltb_spec 0 c); cbn; lia].
    apply HQ; [done|]. rewrite Hv2, Hl. lia.
Qed.

Lemma wp_mpz_abs_sub_ui s σ r w a x b Q E :
  zok F s σ → σ !! r = Some (Some w) → σ !! a = Some (Some x) → 0 ≤ b < WB → nlimbs x ≤ INT_MAX →
  (∀ l n s', written F s σ r l s' → Z.abs n = Z.of_nat (length l) → Z.sgn n * val l = Z.abs x - b → Q n s') →
  wp (mpz_abs_sub_ui r a b) Q E s.
Proof.
  intros Hok Hr Ha Hb Hn HQ. destruct (zok_operand F s σ a x Hok Ha) as (za & _ & Hza & _ & _ & _ & _ & _ & Hsa & _).
  unfold mpz_abs_sub_ui. apply wp_bind. eapply wp_get_mpz; [done|]. rewrite Hsa, size_abs.
  destruct (Z.eqb_spec (nlimbs x) 0) as [Hz0|Hz0].
  { assert (x = 0) as -> by (destruct (Z.eq_dec x 0) as [->|Hne]; [done|pose proof (nlimbs_pos x Hne); lia]).
    apply wp_bind. eapply wp_realloc_target; try done. intros z s1 Hz Hal H0 Hs Hk Hok1.
    eapply (wp_store_only s s1 σ r z b); try done; [lia|]. intros l s2 Hw Hv Hl. apply wp_ret. apply (HQ l); [done|lia|].
    destruct (Z.ltb_spec 0 b); cbn [b2z] in *; lia. }
  apply wp_bind. eapply wp_realloc_target; try done. intros z s1 Hz Hal H0 Hs Hk Hok1.
  destruct (zok_operand F s1 σ a x Hok1 Ha) as (za1 & la & Hza1 & Hwa & Hna & Hha & Hva & Hla & _ & _ & H0a).
  apply wp_bind. eapply wp_get_mpz; [done|]. rewrite <- Hla in *. assert (la ≠ []) as Hne by (intros ->; cbn in Hz0; lia).
  assert (b ≤ val la → wp (_ ← zassert_nocarry (mpn_sub_1 (mp_d z) (mp_d za1) (Z.of_nat (length la)) b);
    limbs (mpn_normalized_size (mp_d z) (Z.of_nat (length la)))) Q E s1) as Hsub.
  { intros Hge. apply wp_bind, wp_zoom. unfold gmp_assert_nocarry. apply wp_bind.
    eapply (wp_mpn_sub_1 _ _ la); try done; [eapply space_sub; [done|lia]|by apply ok_up_start|].
    intros rl c m1 Hl Hwl Hc Hv Hw1. assert (c = 0) as -> by (pose proof (val_bound rl Hwl) as Hbd; rewrite Hl in Hbd; destruct (Z.eq_dec c 1) as [->|]; lia).
    apply wp_massert; [done|]. apply wp_zoom. cbn [z_mem set_zmem]. rewrite <- Hl. pose proof Hw1 as [Hh1 _].
    apply wp_mpn_normalized_size; [done|]. intros k Hkl Hnk Er. change (set_zmem m1 (set_zmem m1 s1)) with (set_zmem m1 s1).
    assert (val (take k rl) = val rl) as Hvt by (rewrite Er at 2; rewrite val_app, val_zeros; lia).
    apply (HQ (take k rl)); [|rewrite length_take; lia|].
    - eapply zok_written; try done; [rewrite length_take; lia|eapply changed_block; [exact Hw1|lia]|rewrite Er in Hh1; by apply holds_app in Hh1 as [? _]|by apply Forall_take].
    - rewrite Hvt. destruct k as [|k]; [change (val (take 0 rl)) with 0 in Hvt; change (Z.sgn (Z.of_nat 0)) with 0; lia|].
      rewrite Z.sgn_pos by lia. lia. }
  apply wp_bind. destruct (Z.eqb_spec (Z.of_nat (length la)) 1) as [H1|H1].
  - destruct la as [|d [|? ?]]; try (cbn in H1; lia). pose proof Hha as [Hhd _]%holds_cons. cbn [val] in Hva, Hsub.
    apply wp_bind, wp_zoom. eapply wp_load; [done|]. replace (set_zmem (z_mem s1) s1) with s1 by (by destruct s1). apply wp_ret.
    apply Forall_cons in Hwa as [Hwd _]. unfold word in Hwd. destruct (Z.ltb_spec d b); [|apply Hsub; lia].
    apply wp_bind, wp_zoom. eapply wp_load; [done|]. replace (set_zmem (z_mem s1) s1) with s1 by (by destruct s1).
    rewrite u64_small by lia. eapply (wp_store_only s s1 σ r z (b - d)); try done; [cbn in Hal; lia|unfold word; lia|].
    intros l s2 Hw Hv Hl. rewrite (proj2 (Z.ltb_lt _ _)) in Hl by lia. cbn in Hl. apply wp_ret, (HQ l); [done|lia|cbn; lia].
  - apply wp_ret. apply Hsub. pose proof (normal_bound la Hwa Hna Hne) as Hlow.
    assert (wpow 1 ≤ wpow (length la - 1)) as Hp by (unfold wpow; apply Z.pow_le_mono_r; [done|lia]). change (wpow 1) with WB in Hp. lia.
Qed.
End arith.
