(* ===== verification/MpzMul.v ===== *)
(** * Integer arithmetic, continued

    Sums with one limb, products, signs and comparisons; the compound operations follow
    from the specifications of their parts. *)

From S2P Require Import Prelude CString Queue State UInt64 Mpn MpnMem MpnThm MpnBits MpnDiv MpnInv MpnDivThm MpnDivPi1 MpnCorrect MpnDivQr MpnStr MpnStrThm MpnSetStr Mpz MpzRep MpzArith.

Section ops.
Context (F : mem).
Implicit Types (s : zstate) (σ : gmap positive (option Z)).

Lemma sgn_length l : Z.sgn (Z.of_nat (length l)) * val l = val l.
Proof. destruct l as [|d l]; [done|]. cbn [length]. rewrite Z.sgn_pos by lia. lia. Qed.

Lemma wp_mpz_add_ui s σ r w a x b Q E :
  zok F s σ → σ !! r = Some (Some w) → σ !! a = Some (Some x) → 0 ≤ b < WB → nlimbs x < INT_MAX →
  (∀ s', zok F s' (<[r := Some (x + b)]> σ) → Q tt s') → wp (mpz_add_ui r a b) Q E s.
Proof.
  intros Hok Hr Ha Hb Hn HQ. destruct (zok_operand F s σ a x Hok Ha) as (za & _ & Hza & _ & _ & _ & _ & _ & Hsa & _).
  unfold mpz_add_ui. apply wp_bind. eapply wp_get_mpz; [done|]. rewrite Hsa, size_nonneg. destruct (Z.leb_spec 0 x).
  - apply wp_bind. eapply wp_mpz_abs_add_ui; try done. intros l s1 Hw Hv.
    eapply wp_set_size_written; [done|lia| |done]. rewrite sgn_length. lia.
  - apply wp_bind. eapply wp_mpz_abs_sub_ui; try done; [lia|]. intros l n s1 Hw Hl Hv.
    eapply wp_set_size_written; [done|lia| |done]. rewrite Z.sgn_opp. lia.
Qed.

Lemma wp_mpz_sub_ui s σ r w a x b Q E :
  zok F s σ → σ !! r = Some (Some w) → σ !! a = Some (Some x) → 0 ≤ b < WB → nlimbs x < INT_MAX →
  (∀ s', zok F s' (<[r := Some (x - b)]> σ) → Q tt s') → wp (mpz_sub_ui r a b) Q E s.
Proof.
  intros Hok Hr Ha Hb Hn HQ. destruct (zok_operand F s σ a x Hok Ha) as (za & _ & Hza & _ & _ & _ & _ & _ & Hsa & _).
  unfold mpz_sub_ui. apply wp_bind. eapply wp_get_mpz; [done|]. rewrite Hsa, size_neg. destruct (Z.ltb_spec x 0).
  - apply wp_bind. eapply wp_mpz_abs_add_ui; try done. intros l s1 Hw Hv.
    eapply wp_set_size_written; [done|lia| |done]. rewrite Z.sgn_opp, Z.mul_opp_l, sgn_length. lia.
  - apply wp_bind. eapply wp_mpz_abs_sub_ui; try done; [lia|]. intros l n s1 Hw Hl Hv.
    eapply wp_set_size_written; [done|lia| |done]. lia.
Qed.

Lemma wp_mpz_ui_sub s σ r w a b x Q E :
  zok F s σ → σ !! r = Some (Some w) → σ !! b = Some (Some x) → 0 ≤ a < WB → nlimbs x < INT_MAX →
  (∀ s', zok F s' (<[r := Some (a - x)]> σ) → Q tt s') → wp (mpz_ui_sub r a b) Q E s.
Proof.
  intros Hok Hr Ha Hb Hn HQ. destruct (zok_operand F s σ b x Hok Ha) as (zb & _ & Hzb & _ & _ & _ & _ & _ & Hsb & _).
  unfold mpz_ui_sub. apply wp_bind. eapply wp_get_mpz; [done|]. rewrite Hsb, size_neg. destruct (Z.ltb_spec x 0).
  - apply wp_bind. eapply wp_mpz_abs_add_ui; try done. intros l s1 Hw Hv.
    eapply wp_set_size_written; [done|lia| |done]. rewrite sgn_length. lia.
  - apply wp_bind. eapply wp_mpz_abs_sub_ui; try done; [lia|]. intros l n s1 Hw Hl Hv.
    eapply wp_set_size_written; [done|lia| |done]. rewrite Z.sgn_opp. lia.
Qed.

(** ** Signs *)

Lemma wp_set_sign s σ r x n Q E :
  zok F s σ → σ !! r = Some (Some x) → n = Z.abs (Z.sgn x * nlimbs x) ∨ n = - (Z.sgn x * nlimbs x) →
  (∀ s', zok F s' (<[r := Some (Z.sgn n * Z.abs x)]> σ) → Q tt s') → wp (set_size r n) Q E s.
Proof.
  intros Hok Hr Hn HQ. destruct (zok_operand F s σ r x Hok Hr) as (z & l & Hz & Hw & Hnl & Hh & Hv & Hl & Hsz & Ha & _).
  eapply wp_set_size; try done; [lia| |by rewrite Hv]. pose proof (size_abs x). lia.
Qed.

Lemma wp_mpz_neg s σ r w a x Q E :
  zok F s σ → σ !! r = Some (Some w) → σ !! a = Some (Some x) → nlimbs x ≤ INT_MAX →
  (∀ s', zok F s' (<[r := Some (- x)]> σ) → Q tt s') → wp (mpz_neg r a) Q E s.
Proof.
  intros Hok Hr Ha Hn HQ. unfold mpz_neg. apply wp_bind. eapply wp_mpz_set; try done. intros s1 Hok1.
  assert (<[r:=Some x]> σ !! r = Some (Some x)) as Hr1 by (by rewrite lookup_insert_eq).
  destruct (zok_operand F s1 _ r x Hok1 Hr1) as (z & _ & Hz & _ & _ & _ & _ & _ & Hsz & _).
  apply wp_bind. eapply wp_get_mpz; [done|]. rewrite Hsz. eapply wp_set_sign; [done|done|by right|].
  intros s2 Hok2. apply HQ. rewrite insert_insert_eq, Z.sgn_opp, size_sgn in Hok2.
  replace (- x) with (- Z.sgn x * Z.abs x) by lia. done.
Qed.

Lemma wp_mpz_abs s σ r w a x Q E :
  zok F s σ → σ !! r = Some (Some w) → σ !! a = Some (Some x) → nlimbs x ≤ INT_MAX →
  (∀ s', zok F s' (<[r := Some (Z.abs x)]> σ) → Q tt s') → wp (mpz_abs r a) Q E s.
Proof.
  intros Hok Hr Ha Hn HQ. unfold mpz_abs. apply wp_bind. eapply wp_mpz_set; try done. intros s1 Hok1.
  assert (<[r:=Some x]> σ !! r = Some (Some x)) as Hr1 by (by rewrite lookup_insert_eq).
  destruct (zok_operand F s1 _ r x Hok1 Hr1) as (z & _ & Hz & _ & _ & _ & _ & _ & Hsz & _).
  apply wp_bind. eapply wp_get_mpz; [done|]. rewrite Hsz. eapply wp_set_sign; [done|done|by left|].
  intros s2 Hok2. apply HQ. rewrite insert_insert_eq, size_abs in Hok2.
  replace (Z.abs x) with (Z.sgn (nlimbs x) * Z.abs x); [done|].
  destruct (Z.eq_dec x 0) as [->|Hx]; [done|]. pose proof (nlimbs_pos x Hx). lia.
Qed.

(** ** Products *)

Lemma wp_mpz_mul_ui s σ r w a x v Q E :
  zok F s σ → σ !! r = Some (Some w) → σ !! a = Some (Some x) → 0 ≤ v < WB → nlimbs x < INT_MAX →
  (∀ s', zok F s' (<[r := Some (x * v)]> σ) → Q tt s') → wp (mpz_mul_ui r a v) Q E s.
Proof.
  intros Hok Hr Ha Hv Hn HQ. destruct (zok_operand F s σ a x Hok Ha) as (za & _ & Hza & _ & _ & _ & _ & _ & Hsa & _).
  unfold mpz_mul_ui. apply wp_bind. eapply wp_get_mpz; [done|]. rewrite Hsa.
  destruct ((Z.sgn x * nlimbs x =? 0) || (v =? 0)) eqn:Hz0.
  { assert (x * v = 0) as Hxv.
    { apply orb_true_iff in Hz0 as [Hz0%Z.eqb_eq|Hz0%Z.eqb_eq]; [|lia]. destruct (Z.eq_dec x 0) as [->|Hx]; [done|].
      pose proof (nlimbs_pos x Hx). lia. }
    rewrite Hxv in HQ. eapply wp_set_size_0; try done. }
  apply orb_false_iff in Hz0 as [Hx0%Z.eqb_neq Hv0%Z.eqb_neq]. assert (x ≠ 0) as Hx by (intros ->; done).
  rewrite size_abs, size_neg. apply wp_bind. eapply wp_realloc_target; try done; [lia|]. intros z s1 Hz Hal H0 Hs Hk Hok1.
  destruct (zok_operand F s1 σ a x Hok1 Ha) as (za1 & la & Hza1 & Hwa & Hna & Hha & Hva & Hla & _ & _ & H0a).
  apply wp_bind. eapply wp_get_mpz; [done|]. pose proof (nlimbs_pos x Hx) as Hpos. rewrite <- Hla in *.
  assert (la ≠ []) as Hne by (intros ->; cbn in Hpos; lia). apply wp_bind, wp_zoom.
  eapply (wp_mpn_mul_1 _ _ la); try done; [eapply space_sub; [done|lia]|by apply ok_up_start|].
  intros rl c m1 Hl Hwl Hc Hvl Hw1. rewrite <- Hl. pose proof (normal_bound la Hwa Hna Hne) as Hlow. pose proof (wpow_pos (length la - 1)).
  eapply (wp_store_carry F s s1 σ r z rl c); try done; [lia|intros ->; apply normal_of_bound; [done|rewrite Hl; nia]|].
  intros l s2 Hw2 Hv2 Hl2. rewrite <- Hl2. rewrite Hl, Hvl, Hva in Hv2.
  destruct (Z.ltb_spec x 0); (eapply wp_set_size_written; [done|lia| |exact HQ]); rewrite ?Z.sgn_opp, ?Z.mul_opp_l, sgn_length; nia.
Qed.

Lemma nlimbs_opp x : nlimbs (- x) = nlimbs x.
Proof. rewrite <- nlimbs_abs, Z.abs_opp. apply nlimbs_abs. Qed.

Lemma nlimbs_bound x n : 0 ≤ n → Z.abs x < WB ^ n → nlimbs x ≤ n.
Proof.
  intros Hn Hx. destruct (Z.eq_dec x 0) as [->|Hx0]; [done|]. unfold nlimbs. rewrite (proj2 (Z.eqb_neq _ _)) by done.
  change WB with (2 ^ 64) in Hx. rewrite <- Z.pow_mul_r in Hx by lia. apply Z.log2_lt_pow2 in Hx; [|lia].
  assert (Z.log2 (Z.abs x) / 64 < n); [|lia]. apply Z.div_lt_upper_bound; lia.
Qed.
Lemma abs_lt_pow x : Z.abs x < WB ^ nlimbs x.
Proof.
  destruct (Z.eq_dec x 0) as [->|Hx]; [done|]. unfold nlimbs. rewrite (proj2 (Z.eqb_neq _ _)) by done. change WB with (2 ^ 64).
  pose proof (Z.log2_nonneg (Z.abs x)). assert (0 ≤ Z.log2 (Z.abs x) / 64) by (apply Z.div_pos; lia). rewrite <- Z.pow_mul_r by lia.
  apply Z.log2_lt_pow2; [lia|]. pose proof (Z.div_mod (Z.log2 (Z.abs x)) 64 ltac:(lia)). pose proof (Z.mod_pos_bound (Z.log2 (Z.abs x)) 64 ltac:(lia)). lia.
Qed.
Lemma nlimbs_mul x y : nlimbs (x * y) ≤ nlimbs x + nlimbs y.
Proof.
  pose proof (nlimbs_nonneg x). pose proof (nlimbs_nonneg y). apply nlimbs_bound; [lia|]. rewrite Z.abs_mul, Z.pow_add_r by lia.
  pose proof (abs_lt_pow x). pose proof (abs_lt_pow y). apply Z.mul_lt_mono_nonneg; lia.
Qed.
Lemma nlimbs_add x y : nlimbs (x + y) ≤ Z.max (nlimbs x) (nlimbs y) + 1.
Proof.
  pose proof (nlimbs_nonneg x). pose proof (nlimbs_nonneg y). apply nlimbs_bound; [lia|]. rewrite Z.pow_add_r by lia.
  pose proof (abs_lt_pow x). pose proof (abs_lt_pow y). set (n := Z.max _ _).
  assert (WB ^ nlimbs x ≤ WB ^ n) by (apply Z.pow_le_mono_r; [done|lia]). assert (WB ^ nlimbs y ≤ WB ^ n) by (apply Z.pow_le_mono_r; [done|lia]).
  unfold WB at 2. lia.
Qed.

Lemma wp_mpz_mul_si s σ r w a x v Q E :
  zok F s σ → σ !! r = Some (Some w) → σ !! a = Some (Some x) → -9223372036854775808 ≤ v < 9223372036854775808 → nlimbs x < INT_MAX →
  (∀ s', zok F s' (<[r := Some (x * v)]> σ) → Q tt s') → wp (mpz_mul_si r a v) Q E s.
Proof.
  intros Hok Hr Ha Hv Hn HQ. unfold mpz_mul_si. destruct (Z.ltb_spec v 0).
  - rewrite neg_cast by lia. apply wp_bind. eapply wp_mpz_mul_ui; try done; [unfold WB; lia|]. intros s1 Hok1.
    assert (<[r:=Some (x * - v)]> σ !! r = Some (Some (x * - v))) as Hr1 by (by rewrite lookup_insert_eq).
    assert (nlimbs (x * - v) ≤ INT_MAX) as Hn2.
    { pose proof (nlimbs_mul x (- v)). pose proof (nlimbs_bound (- v) 1 ltac:(lia) ltac:(unfold WB; lia)). lia. }
    eapply wp_mpz_neg; [done|done|done|done|]. intros s2. rewrite insert_insert_eq. replace (- (x * - v)) with (x * v) by lia. apply HQ.
  - eapply wp_mpz_mul_ui; try done. unfold WB. lia.
Qed.

Lemma lxor_neg x y : (Z.lxor (Z.sgn x * nlimbs x) (Z.sgn y * nlimbs y) <? 0) = negb (Bool.eqb (x <? 0) (y <? 0)).
Proof. by rewrite Z.ltb_antisym, lxor_signs. Qed.

(** A temporary that was swapped with the result and cleared *)
Lemma temp_gone (σ : gmap positive (option Z)) (t r : positive) a b c :
  σ !! t = None → t ≠ r → delete t (<[t := a]> (<[r := b]> (<[t := c]> σ))) = <[r := b]> σ.
Proof.
  intros Ht Hne. apply map_eq. intros i. destruct (decide (i = t)) as [->|Hi].
  - rewrite lookup_delete_eq, lookup_insert_ne by done. by rewrite Ht.
  - rewrite lookup_delete_ne, lookup_insert_ne by done. destruct (decide (i = r)) as [->|Hr]; [by rewrite !lookup_insert_eq|].
    by rewrite !lookup_insert_ne by done.
Qed.

Lemma fresh_ne (σ : gmap positive (option Z)) (t i : positive) v : σ !! t = None → σ !! i = Some v → t ≠ i.
Proof. intros Ht Hi ->. congruence. Qed.

(** The product of the limbs into the block of a fresh variable *)
Lemma wp_mul_limbs s σ t zt zu zv lu lv Q E :
  zok F s σ → is_Some (σ !! t) → z_vars s !! t = Some zt →
  mp_alloc zt = Z.of_nat (length lu + length lv) → space (z_mem s) (mp_d zt) (length lu + length lv) →
  (1 ≤ length lv ≤ length lu)%nat → words lu → words lv → normal lu → normal lv →
  holds (z_mem s) (mp_d zu) lu → holds (z_mem s) (mp_d zv) lv → (mp_d zt).1 ≠ (mp_d zu).1 → (mp_d zt).1 ≠ (mp_d zv).1 →
  (∀ x c l s', written F s σ t l s' → cell (z_mem s') (padd (mp_d zt) (Z.of_nat (length lu + length lv) - 1)) = Some (Some c) →
     val l = val lu * val lv → Z.of_nat (length l) = Z.of_nat (length lu + length lv) - b2z (c =? 0) → Q x s') →
  wp (limbs (mpn_mul (mp_d zt) (mp_d zu) (Z.of_nat (length lu)) (mp_d zv) (Z.of_nat (length lv)))) Q E s.
Proof.
  intros Hok Ht Hzt Hal Hs Hlen Hwu Hwv Hnu Hnv Hhu Hhv Hau Hav HQ. apply wp_zoom.
  apply wp_mpn_mul; try done; [by left|by left|]. intros r c m1 Hl Hw Hv Hw1. pose proof Hw as [Hwr [Hwc _]%Forall_cons]%Forall_app.
  rewrite length_app in Hl. cbn [length] in Hl. pose proof Hw1 as [[_ [Hc _]%holds_cons]%holds_app _].
  pose proof (normal_bound lu Hwu Hnu ltac:(by intros ->; cbn in Hlen; lia)) as Hbu.
  pose proof (normal_bound lv Hwv Hnv ltac:(by intros ->; cbn in Hlen; lia)) as Hbv.
  destruct (with_carry F r c s s σ t zt m1) as (l & Hwl & Hvl & Hll); try done; [lia|by intros i y Hy; exists y| |].
  { intros ->. apply normal_of_bound; [done|]. rewrite val_app in Hv. cbn [val] in Hv.
    replace (length r - 1)%nat with ((length lu - 1) + (length lv - 1))%nat by lia. rewrite wpow_add.
    pose proof (wpow_pos (length lu - 1)). pose proof (wpow_pos (length lv - 1)).
    transitivity (val lu * val lv); [apply Z.mul_le_mono_nonneg; lia|lia]. }
  apply (HQ c c l); [done|..].
  - cbn. by replace (Z.of_nat (length lu + length lv) - 1) with (Z.of_nat (length r)) by lia.
  - rewrite Hvl, <- Hv, val_app. cbn [val]. lia.
  - unfold word in Hwc. rewrite Hll. destruct (Z.ltb_spec 0 c), (Z.eqb_spec c 0); cbn [b2z]; lia.
Qed.

(** The second operand may be read-only. *)
Lemma wp_mpz_mul_at s σ r w u x v y zv lv Q E :
  zok F s σ → σ !! r = Some (Some w) → σ !! u = Some (Some x) → stays s v zv → readable F σ v y zv lv →
  nlimbs x + nlimbs y ≤ INT_MAX → (∀ s', zok F s' (<[r := Some (x * y)]> σ) → Q tt s') → wp (mpz_mul r u v) Q E s.
Proof.
  intros Hok Hr Hu Hst Hv Hn HQ. destruct (zok_operand F s σ u x Hok Hu) as (zu0 & _ & Hzu0 & _ & _ & _ & _ & _ & Hsu & _).
  pose proof Hst as [_ Hzv0]. pose proof Hv as (Hwv & Hnv & Hvv & Hsv & _). pose proof (readable_length F _ _ _ _ _ Hv) as Hlv.
  unfold mpz_mul. do 2 (apply wp_bind; eapply wp_get_mpz; [done|]). rewrite Hsu, Hsv.
  destruct ((Z.sgn x * nlimbs x =? 0) || (Z.sgn y * nlimbs y =? 0)) eqn:Hz0.
  { assert (∀ a, Z.sgn a * nlimbs a = 0 → a = 0) as Hzero.
    { intros a H0. destruct (Z.eq_dec a 0) as [->|Ha]; [done|]. pose proof (nlimbs_pos a Ha). lia. }
    assert (x * y = 0) as Hxy by (apply orb_true_iff in Hz0 as [->%Z.eqb_eq%Hzero| ->%Z.eqb_eq%Hzero]; lia).
    rewrite Hxy in HQ. by eapply wp_set_size_0. }
  apply orb_false_iff in Hz0 as [Hx0%Z.eqb_neq Hy0%Z.eqb_neq]. assert (x ≠ 0) as Hx by (by intros ->). assert (y ≠ 0) as Hy by (by intros ->).
  pose proof (nlimbs_pos x Hx) as Hpx. pose proof (nlimbs_pos y Hy) as Hpy. rewrite lxor_neg, !size_abs.
  apply wp_bind. eapply (wp_local_stays F); [done|]. intros t s1 Ht Htn Hkeep Hok1. destruct (Hkeep v zv Hst) as [Htv [_ Hzv1]]. apply wp_bind.
  rewrite <- (Z2Nat.id (nlimbs x + nlimbs y)) at 1 by lia. eapply wp_mpz_init2; try done; [lia|lia|]. intros zt s2 Hv2 Hal2 _ Hok2.
  rewrite Z2Nat.id in Hal2 by lia. set (σ2 := <[t := Some 0]> σ) in *.
  assert (σ2 !! t = Some (Some 0)) as Ht2 by (by unfold σ2; rewrite lookup_insert_eq).
  assert (∀ i v, σ !! i = Some v → σ2 !! i = Some v) as Hin by (intros i a Hi; unfold σ2; rewrite lookup_insert_ne; [done|by eapply fresh_ne]).
  assert (z_vars s2 !! t = Some zt) as Hzt by (by rewrite Hv2, lookup_insert_eq).
  destruct (zok_target F s2 σ2 t _ Hok2 Ht2) as (zt' & Hzt' & _ & _ & Hspt). rewrite Hzt in Hzt'. injection Hzt' as <-.
  destruct (zok_operand F s2 σ2 u x Hok2 (Hin _ _ Hu)) as (zu & lu & Hzu & Hwu & Hnu & Hhu & Hvu & Hlu & _ & Hau & _).
  assert (z_vars s2 !! v = Some zv) as Hzv by (by rewrite Hv2, lookup_insert_ne).
  destruct (readable_use F s2 σ2 v y zv lv Hok2 Hzv) as [Hhv Hav]; [by apply readable_insert|]. specialize (Hav ltac:(by intros ->; cbn in Hlv; lia)).
  do 3 (apply wp_bind; eapply wp_get_mpz; [done|]).
  assert ((mp_d zt).1 ≠ (mp_d zu).1) as Hapu by (eapply (zok_apart F s2 σ2 t u); try done; [by rewrite (Hin _ _ Hu)|by eapply fresh_ne|lia|lia]).
  assert ((mp_d zt).1 ≠ (mp_d zv).1) as Hapv by (apply (Hav t); [done|by rewrite Ht2|done|lia]).
  rewrite Hal2 in Hspt. apply wp_bind.
  assert (∀ (a : Z) c l s3, written F s2 σ2 t l s3 → cell (z_mem s3) (padd (mp_d zt) (nlimbs x + nlimbs y - 1)) = Some (Some c) →
    val l = Z.abs x * Z.abs y → Z.of_nat (length l) = nlimbs x + nlimbs y - b2z (c =? 0) →
    wp (top ← limbs (load (padd (mp_d zt) (nlimbs x + nlimbs y - 1)));
        _ ← set_size t (if negb (Bool.eqb (x <? 0) (y <? 0)) then - (nlimbs x + nlimbs y - b2z (top =? 0)) else nlimbs x + nlimbs y - b2z (top =? 0));
        _ ← mpz_swap r t; mpz_clear t) Q E s3) as Hfin.
  { intros _ c l s3 Hw3 Hc Hvl Hll. apply wp_bind, wp_zoom. eapply wp_load; [done|]. replace (set_zmem (z_mem s3) s3) with s3 by (by destruct s3).
    rewrite <- Hll. apply wp_bind. eapply (wp_set_size_written F s2 s3 σ2 t l _ (x * y)); [done|destruct (Bool.eqb _ _); cbn; lia| |].
    { destruct (Bool.eqb (x <? 0) (y <? 0)) eqn:He; cbn [negb]; rewrite ?Z.sgn_opp, ?Z.mul_opp_l, sgn_length, Hvl;
        [apply Bool.eqb_prop in He|apply Bool.eqb_false_iff in He]; destruct (Z.ltb_spec x 0), (Z.ltb_spec y 0); try done; nia. }
    intros s4. unfold σ2. rewrite insert_insert_eq. intros Hok4. assert (t ≠ r) as Hne by (by eapply fresh_ne).
    apply wp_bind. eapply (wp_mpz_swap F s4 _ r t); [done|by rewrite lookup_insert_ne|by rewrite lookup_insert_eq|]. intros s5 Hok5.
    eapply wp_mpz_clear; [done|by rewrite lookup_insert_eq|]. intros s6. rewrite temp_gone by done. apply HQ. }
  replace (Z.to_nat (nlimbs x + nlimbs y)) with (length lu + length lv)%nat in Hspt by lia.
  destruct (Z.leb_spec (nlimbs y) (nlimbs x)).
  - rewrite <- Hlu, <- Hlv at 1. eapply (wp_mul_limbs s2 σ2 t zt zu zv lu lv); try done; [lia|lia|].
    intros a c l s3 Hw3 Hc Hvl Hll. eapply (Hfin a c l); [done|by replace (nlimbs x + nlimbs y) with (Z.of_nat (length lu + length lv)) by lia|lia|lia].
  - rewrite <- Hlu, <- Hlv at 1. rewrite Nat.add_comm in Hspt. eapply (wp_mul_limbs s2 σ2 t zt zv zu lv lu); try done; [lia|lia|].
    intros a c l s3 Hw3 Hc Hvl Hll. eapply (Hfin a c l); [done|by replace (nlimbs x + nlimbs y) with (Z.of_nat (length lv + length lu)) by lia|lia|lia].
Qed.

Lemma wp_mpz_mul s σ r w u x v y Q E :
  zok F s σ → σ !! r = Some (Some w) → σ !! u = Some (Some x) → σ !! v = Some (Some y) →
  nlimbs x + nlimbs y ≤ INT_MAX → (∀ s', zok F s' (<[r := Some (x * y)]> σ) → Q tt s') → wp (mpz_mul r u v) Q E s.
Proof. intros Hok Hr Hu Hv. destruct (readable_of F s σ v y Hok Hv) as (zv & lv & Hst & Hrd). by eapply wp_mpz_mul_at. Qed.
End ops.
