(* ===== verification/MpzDiv.v ===== *)
(** * Integer division with rounding, comparison and compound operations *)

From S2P Require Import Prelude CString Queue State UInt64 Mpn MpnMem MpnThm MpnBits MpnDiv MpnInv MpnDivThm MpnDivPi1 MpnCorrect MpnDivQr MpnStr MpnStrThm MpnSetStr Mpz MpzRep MpzArith MpzMul.

Section div.
Context (F : mem).
Implicit Types (s : zstate) (σ : gmap positive (option Z)).

(** ** Products added to a variable *)

Lemma temp_drop (σ : gmap positive (option Z)) (t r : positive) b c :
  σ !! t = None → t ≠ r → delete t (<[r := b]> (<[t := c]> σ)) = <[r := b]> σ.
Proof.
  intros Ht Hne. rewrite delete_insert_ne by done. by rewrite delete_insert_eq, delete_id.
Qed.

(** [f t] computes [v] into a new variable, [g] adds or subtracts it. *)
Lemma wp_with_temp s σ r w (v res : Z) (f g : mpz_t → MZ unit) Q E :
  zok F s σ → σ !! r = Some (Some w) →
  (∀ t s1 Q, σ !! t = None → zok F s1 (<[t := Some 0]> σ) →
     (∀ s2, zok F s2 (<[t := Some v]> σ) → Q tt s2) → wp (f t) Q E s1) →
  (∀ t s1 Q, σ !! t = None → zok F s1 (<[t := Some v]> σ) →
     (∀ s2, zok F s2 (<[r := Some res]> (<[t := Some v]> σ)) → Q tt s2) → wp (g t) Q E s1) →
  (∀ s', zok F s' (<[r := Some res]> σ) → Q tt s') →
  wp (t ← local_mpz; _ ← mpz_init t; _ ← f t; _ ← g t; mpz_clear t) Q E s.
Proof.
  intros Hok Hr Hf Hg HQ. apply wp_bind. eapply wp_local_mpz; [done|]. intros t s1 Ht Htn _ Hok1.
  assert (t ≠ r) as Hne by (by eapply fresh_ne). apply wp_bind. eapply wp_mpz_init; try done. intros s2 Hok2.
  apply wp_bind. eapply Hf; try done. intros s3 Hok3. apply wp_bind. eapply Hg; try done. intros s4 Hok4.
  eapply wp_mpz_clear; [done|by rewrite lookup_insert_ne, lookup_insert_eq|]. intros s5. rewrite temp_drop by done. apply HQ.
Qed.

Lemma other (σ : gmap positive (option Z)) (t i : positive) v w : σ !! t = None → σ !! i = Some v → <[t := w]> σ !! i = Some v.
Proof. intros Ht Hi. rewrite lookup_insert_ne; [done|by eapply fresh_ne]. Qed.

Lemma wp_mpz_addmul s σ r w u x v y Q E :
  zok F s σ → σ !! r = Some (Some w) → σ !! u = Some (Some x) → σ !! v = Some (Some y) →
  nlimbs x + nlimbs y < INT_MAX → nlimbs w < INT_MAX →
  (∀ s', zok F s' (<[r := Some (w + x * y)]> σ) → Q tt s') → wp (mpz_addmul r u v) Q E s.
Proof.
  intros Hok Hr Hu Hv Hn Hw HQ. pose proof (nlimbs_mul x y).
  eapply (wp_with_temp s σ r w (x * y) (w + x * y) (λ t, mpz_mul t u v) (λ t, mpz_add r r t)); try done.
  - intros t s1 Q' Ht Hok1 HQ'. eapply (wp_mpz_mul F s1 _ t 0 u x v y); [done|by rewrite lookup_insert_eq|by apply other|by apply other|lia|].
    intros s2. rewrite insert_insert_eq. apply HQ'.
  - intros t s1 Q' Ht Hok1 HQ'. eapply (wp_mpz_add F s1 _ r w r w t (x * y)); try done; try (by apply other); [by rewrite lookup_insert_eq|lia].
Qed.

Lemma wp_mpz_submul s σ r w u x v y Q E :
  zok F s σ → σ !! r = Some (Some w) → σ !! u = Some (Some x) → σ !! v = Some (Some y) →
  nlimbs x + nlimbs y < INT_MAX → nlimbs w < INT_MAX →
  (∀ s', zok F s' (<[r := Some (w - x * y)]> σ) → Q tt s') → wp (mpz_submul r u v) Q E s.
Proof.
  intros Hok Hr Hu Hv Hn Hw HQ. pose proof (nlimbs_mul x y).
  eapply (wp_with_temp s σ r w (x * y) (w - x * y) (λ t, mpz_mul t u v) (λ t, mpz_sub r r t)); try done.
  - intros t s1 Q' Ht Hok1 HQ'. eapply (wp_mpz_mul F s1 _ t 0 u x v y); [done|by rewrite lookup_insert_eq|by apply other|by apply other|lia|].
    intros s2. rewrite insert_insert_eq. apply HQ'.
  - intros t s1 Q' Ht Hok1 HQ'. eapply (wp_mpz_sub F s1 _ r w r w t (x * y)); try done; try (by apply other); [by rewrite lookup_insert_eq|lia].
Qed.

Lemma nlimbs_mul_limb x v : 0 ≤ v < WB → nlimbs (x * v) ≤ nlimbs x + 1.
Proof. intros Hv. pose proof (nlimbs_mul x v). pose proof (nlimbs_bound v 1 ltac:(lia) ltac:(change (WB ^ 1) with WB; lia)). lia. Qed.

Lemma wp_mpz_addmul_ui s σ r w u x v Q E :
  zok F s σ → σ !! r = Some (Some w) → σ !! u = Some (Some x) → 0 ≤ v < WB → nlimbs x + 1 < INT_MAX → nlimbs w < INT_MAX →
  (∀ s', zok F s' (<[r := Some (w + x * v)]> σ) → Q tt s') → wp (mpz_addmul_ui r u v) Q E s.
Proof.
  intros Hok Hr Hu Hv Hn Hw HQ. pose proof (nlimbs_mul_limb x v Hv).
  eapply (wp_with_temp s σ r w (x * v) (w + x * v) (λ t, mpz_mul_ui t u v) (λ t, mpz_add r r t)); try done.
  - intros t s1 Q' Ht Hok1 HQ'. eapply (wp_mpz_mul_ui F s1 _ t 0 u x v); [done|by rewrite lookup_insert_eq|by apply other|done|lia|].
    intros s2. rewrite insert_insert_eq. apply HQ'.
  - intros t s1 Q' Ht Hok1 HQ'. eapply (wp_mpz_add F s1 _ r w r w t (x * v)); try done; try (by apply other); [by rewrite lookup_insert_eq|lia].
Qed.

Lemma wp_mpz_submul_ui s σ r w u x v Q E :
  zok F s σ → σ !! r = Some (Some w) → σ !! u = Some (Some x) → 0 ≤ v < WB → nlimbs x + 1 < INT_MAX → nlimbs w < INT_MAX →
  (∀ s', zok F s' (<[r := Some (w - x * v)]> σ) → Q tt s') → wp (mpz_submul_ui r u v) Q E s.
Proof.
  intros Hok Hr Hu Hv Hn Hw HQ. pose proof (nlimbs_mul_limb x v Hv).
  eapply (wp_with_temp s σ r w (x * v) (w - x * v) (λ t, mpz_mul_ui t u v) (λ t, mpz_sub r r t)); try done.
  - intros t s1 Q' Ht Hok1 HQ'. eapply (wp_mpz_mul_ui F s1 _ t 0 u x v); [done|by rewrite lookup_insert_eq|by apply other|done|lia|].
    intros s2. rewrite insert_insert_eq. apply HQ'.
  - intros t s1 Q' Ht Hok1 HQ'. eapply (wp_mpz_sub F s1 _ r w r w t (x * v)); try done; try (by apply other); [by rewrite lookup_insert_eq|lia].
Qed.

(** ** Comparison *)

Lemma size_mono x y : x ≤ y → Z.sgn x * nlimbs x ≤ Z.sgn y * nlimbs y.
Proof.
  intros Hle. pose proof (nlimbs_nonneg x). pose proof (nlimbs_nonneg y).
  destruct (Z.lt_trichotomy x 0) as [Hx|[->|Hx]].
  - rewrite (Z.sgn_neg x) by done. destruct (Z.lt_trichotomy y 0) as [Hy|[->|Hy]]; [|cbn; lia|rewrite (Z.sgn_pos y) by done; lia].
    rewrite (Z.sgn_neg y) by done. pose proof (nlimbs_le y x ltac:(lia)). lia.
  - destruct (Z.eq_dec y 0) as [->|]; [done|]. rewrite (Z.sgn_pos y) by lia. cbn. lia.
  - rewrite (Z.sgn_pos x), (Z.sgn_pos y) by lia. pose proof (nlimbs_le x y ltac:(lia)). lia.
Qed.

Definition cmp_result (c : comparison) : Z := match c with Lt => -1 | Eq => 0 | Gt => 1 end.

Lemma wp_mpz_cmp s σ a x b y Q E :
  zok F s σ → σ !! a = Some (Some x) → σ !! b = Some (Some y) → Q (cmp_result (x ?= y)) s → wp (mpz_cmp a b) Q E s.
Proof.
  intros Hok Ha Hb HQ. destruct (zok_operand F s σ a x Hok Ha) as (za & la & Hza & Hwa & Hna & Hha & Hva & Hla & Hsa & _).
  destruct (zok_operand F s σ b y Hok Hb) as (zb & lb & Hzb & Hwb & Hnb & Hhb & Hvb & Hlb & Hsb & _).
  unfold mpz_cmp. do 2 (apply wp_bind; eapply wp_get_mpz; [done|]). rewrite Hsa, Hsb.
  destruct (Z.eqb_spec (Z.sgn x * nlimbs x) (Z.sgn y * nlimbs y)) as [He|Hne]; cbn [negb].
  - assert (nlimbs x = nlimbs y) as Hnl by (rewrite <- (size_abs x), <- (size_abs y); by f_equal).
    assert (Z.sgn x = Z.sgn y) as Hsg by (rewrite <- (size_sgn x), <- (size_sgn y); by f_equal).
    assert (length la = length lb) as Hlen by lia. rewrite size_nonneg. destruct (Z.leb_spec 0 x).
    + replace (Z.sgn x * nlimbs x) with (Z.of_nat (length la)) by (rewrite <- (size_abs x) in Hla; lia). apply wp_zoom.
      eapply (wp_mpn_cmp _ _ la lb); try done. replace (set_zmem (z_mem s) s) with s by (by destruct s).
      rewrite Hva, Hvb. replace (Z.abs x) with x by lia. replace (Z.abs y) with y by lia. exact HQ.
    + replace (- (Z.sgn x * nlimbs x)) with (Z.of_nat (length lb)) by (rewrite <- (size_abs y) in Hlb; lia). apply wp_zoom.
      eapply (wp_mpn_cmp _ _ lb la); try done. replace (set_zmem (z_mem s) s) with s by (by destruct s).
      rewrite Hva, Hvb. replace (Z.abs x) with (- x) by lia. replace (Z.abs y) with (- y) by lia.
      rewrite Z.compare_opp. exact HQ.
  - apply wp_ret. destruct (Z.ltb_spec (Z.sgn x * nlimbs x) (Z.sgn y * nlimbs y)) as [Hlt|Hge].
    + assert (x < y) as Hxy. { destruct (Z.lt_ge_cases x y); [done|]. pose proof (size_mono y x ltac:(lia)). lia. }
      unfold cmp_result in HQ. by rewrite (proj2 (Z.compare_lt_iff _ _) Hxy) in HQ.
    + assert (y < x) as Hxy. { destruct (Z.lt_ge_cases y x); [done|]. pose proof (size_mono x y ltac:(lia)). lia. }
      unfold cmp_result in HQ. by rewrite (proj2 (Z.compare_gt_iff _ _) Hxy) in HQ.
Qed.

(** ** Division *)

(** Quotient and remainder by the rounding mode *)
Definition div_round (mode : mpz_div_round_mode) (n d : Z) : Z * Z :=
  match mode with
  | GMP_DIV_FLOOR => (n / d, n mod d)
  | GMP_DIV_CEIL => (- (- n / d), - (- n mod d))
  | GMP_DIV_TRUNC => (Z.quot n d, Z.rem n d)
  end.

Lemma trunc_unique n d q r :
  d ≠ 0 → n = q * d + r → Z.abs r < Z.abs d → 0 ≤ r * n → Z.quot n d = q ∧ Z.rem n d = r.
Proof.
  intros Hd Hn Hr Hs. pose proof (Z.quot_rem' n d) as H0. pose proof (Z.rem_bound_abs n d Hd) as H1.
  pose proof (Z.rem_sign_mul n d Hd) as H2. set (q0 := Z.quot n d) in *. set (r0 := Z.rem n d) in *. clearbody q0 r0.
  assert ((q - q0) * d = r0 - r) as He by lia.
  assert (Z.abs (r0 - r) < Z.abs d) as Hlt.
  { destruct (Z.lt_trichotomy n 0) as [Hn0|[Hn0|Hn0]].
    - assert (r ≤ 0) by nia. assert (r0 ≤ 0) by nia. lia.
    - assert (q = 0) as -> by nia. assert (q0 = 0) as -> by nia. lia.
    - assert (0 ≤ r) by nia. assert (0 ≤ r0) by nia. lia. }
  assert (q - q0 = 0) as Hz; [|lia]. rewrite <- He, Z.abs_mul in Hlt. nia.
Qed.

(** They are determined by the sign of the remainder. *)
Lemma div_round_unique mode n d q r :
  d ≠ 0 → n = q * d + r → Z.abs r < Z.abs d →
  match mode with
  | GMP_DIV_FLOOR => 0 ≤ r * d
  | GMP_DIV_CEIL => r * d ≤ 0
  | GMP_DIV_TRUNC => 0 ≤ r * n
  end → div_round mode n d = (q, r).
Proof.
  intros Hd Hn Hr Hs. destruct mode; cbn [div_round]; f_equal.
  - symmetry. apply Z.div_unique with r; [|lia]. destruct (Z.lt_trichotomy d 0) as [?|[?|?]]; [right|done|left]; nia.
  - symmetry. apply Z.mod_unique with q; [|lia]. destruct (Z.lt_trichotomy d 0) as [?|[?|?]]; [right|done|left]; nia.
  - assert (- n / d = - q) as ->; [|lia]. symmetry. apply Z.div_unique with (- r); [|lia].
    destruct (Z.lt_trichotomy d 0) as [?|[?|?]]; [right|done|left]; nia.
  - assert (- n mod d = - r) as ->; [|lia]. symmetry. apply Z.mod_unique with (- q); [|lia].
    destruct (Z.lt_trichotomy d 0) as [?|[?|?]]; [right|done|left]; nia.
  - by destruct (trunc_unique n d q r).
  - by destruct (trunc_unique n d q r).
Qed.

(** The variables whose limbs are overwritten *)
Definition raw_opt (tq : option (mpz_t * mpz_struct)) σ : gmap positive (option Z) :=
  match tq with Some (tq, _) => <[tq := None]> σ | None => σ end.

Lemma wp_div_limbs s σ tr d x y zr zd (tq : option (mpz_t * mpz_struct)) Q E :
  zok F s σ → σ !! tr = Some (Some x) → σ !! d = Some (Some y) → tr ≠ d → x ≠ 0 → y ≠ 0 → nlimbs y ≤ nlimbs x →
  z_vars s !! tr = Some zr → z_vars s !! d = Some zd →
  match tq with
  | Some (tq, zq) => is_Some (σ !! tq) ∧ z_vars s !! tq = Some zq ∧ mp_alloc zq = nlimbs x - nlimbs y + 1 ∧ tq ≠ tr ∧ tq ≠ d
  | None => True
  end →
  let qp := (λ p, mp_d p.2) <$> tq in
  (∀ lq lr m', zok F (set_zmem m' s) (<[tr := None]> (raw_opt tq σ)) →
     Z.of_nat (length lq) = nlimbs x - nlimbs y + 1 → words lq → val lq = Z.abs x / Z.abs y →
     Z.of_nat (length lr) = nlimbs y → words lr → val lr = Z.abs x mod Z.abs y →
     qholds m' qp lq → holds m' (mp_d zr) lr → Q tt (set_zmem m' s)) →
  wp (limbs (mpn_div_qr qp (mp_d zr) (nlimbs x) (mp_d zd) (nlimbs y))) Q E s.
Proof.
  intros Hok Htr Hd Hne Hx Hy Hle Hzr Hzd Htq qp HQ.
  destruct (zok_operand F s σ tr x Hok Htr) as (zr' & l & Hzr' & Hw & Hn & Hh & Hv & Hl & _ & Har & H0r).
  rewrite Hzr in Hzr'. injection Hzr' as <-.
  destruct (zok_operand F s σ d y Hok Hd) as (zd' & ld & Hzd' & Hwd & Hnd & Hhd & Hvd & Hld & _ & Had & H0d).
  rewrite Hzd in Hzd'. injection Hzd' as <-. pose proof (nlimbs_pos x Hx) as Hpx. pose proof (nlimbs_pos y Hy) as Hpy.
  assert (∀ i z, is_Some (σ !! i) → z_vars s !! i = Some z → 0 < mp_alloc z → i ≠ tr → (mp_d z).1 ≠ (mp_d zr).1) as Hapr.
  { intros i z Hi Hz Ha Hni. eapply (zok_apart F s σ i tr); try done; lia. }
  assert (∀ i z, is_Some (σ !! i) → z_vars s !! i = Some z → 0 < mp_alloc z → i ≠ d → (mp_d z).1 ≠ (mp_d zd).1) as Hapd.
  { intros i z Hi Hz Ha Hni. eapply (zok_apart F s σ i d); try done; lia. }
  apply wp_zoom. rewrite <- Hl, <- Hld at 1. eapply (wp_mpn_div_qr qp _ l _ ld); try done.
  - lia.
  - apply (zok_mem _ _ _ Hok).
  - left. apply (Hapd tr); try done; lia.
  - destruct tq as [[t zq]|]; [|done]. destruct Htq as ([w Ht] & Hzq & Haq & _).
    destruct (zok_target F s σ t w Hok Ht) as (z & Hz & _ & _ & Hs). rewrite Hzq in Hz. injection Hz as <-.
    cbn. eapply space_sub; [exact Hs|lia].
  - destruct tq as [[t zq]|]; [|done]. destruct Htq as (Ht & Hzq & Haq & Hnt & _). left. cbn. apply (Hapr t); try done. lia.
  - destruct tq as [[t zq]|]; [|done]. destruct Htq as (Ht & Hzq & Haq & _ & Hnd2). left. cbn. apply (Hapd t); try done. lia.
  - intros m' (lq & lr & Hlq & Hwq & Hlr & Hwr & Heq & Hlt & Hqh & Hrh & Hc). rewrite Hv, Hvd in *.
    pose proof (val_bound lr Hwr) as Hbr. apply (HQ lq lr m'); try done; try lia.
    + assert (is_Some (raw_opt tq σ !! tr)) as Hst.
      { destruct tq as [[t zq]|]; [|cbn; by rewrite Htr]. destruct Htq as (_ & _ & _ & Hnt & _). cbn. by rewrite lookup_insert_ne, Htr. }
      eapply (zok_write_gen F s σ); [done|exact Hc|..].
      * intros q [[Hb Hr]|Hq].
        -- exists tr. rewrite lookup_insert_eq. split; [done|]. exists zr. split; [done|]. split; [lia|done].
        -- destruct tq as [[t zq]|]; [|done]. destruct Htq as (Ht & Hzq & Haq & Hnt & _). exists t.
           rewrite lookup_insert_ne by done. cbn. rewrite lookup_insert_eq. split; [done|]. exists zq.
           destruct Hq as [Hb Hr]. split; [done|]. split; [lia|done].
      * intros i. rewrite raw_dom by done. destruct tq as [[t zq]|]; [|done]. cbn. apply raw_dom, Htq.
      * intros i v Hi%raw_val. destruct tq as [[t zq]|]; [|done]. cbn in Hi. by apply raw_val in Hi.
    + apply Z.div_unique with (val lr); lia.
    + apply Z.mod_unique with (val lq); lia.
Qed.

(** The limbs of a quotient without the highest one when it is 0 *)
Lemma quotient_normal x y lq :
  x ≠ 0 → y ≠ 0 → nlimbs y ≤ nlimbs x → Z.of_nat (length lq) = nlimbs x - nlimbs y + 1 → words lq → val lq = Z.abs x / Z.abs y →
  ∃ lo top, lq = lo ++ [top] ∧ (top = 0 → normal lo).
Proof.
  intros Hx Hy Hle Hl Hw Hv. destruct lq as [|top lo _] using rev_ind; [cbn in Hl; lia|]. exists lo, top. split; [done|]. intros ->.
  rewrite length_app in Hl. cbn in Hl. apply Forall_app in Hw as [Hw _]. rewrite val_app in Hv. cbn [val] in Hv.
  destruct (decide (lo = [])) as [->|Hne]; [by intros x0|]. assert (0 < length lo)%nat by (destruct lo; [done|cbn; lia]).
  apply normal_of_bound; [done|]. pose proof (abs_lt_pow y) as Hyp.
  assert (WB ^ (nlimbs x - 1) ≤ Z.abs x) as Hxp.
  { destruct (Z.le_gt_cases (WB ^ (nlimbs x - 1)) (Z.abs x)); [done|]. pose proof (nlimbs_pos x Hx).
    pose proof (nlimbs_bound x (nlimbs x - 1) ltac:(lia) ltac:(done)). lia. }
  pose proof (nlimbs_pos y Hy). unfold wpow. apply Z.le_trans with (Z.abs x / Z.abs y); [|lia]. apply Z.div_le_lower_bound; [lia|].
  replace (nlimbs x - 1) with (nlimbs y + Z.of_nat (length lo - 1)) in Hxp by lia. rewrite Z.pow_add_r in Hxp by lia.
  assert (0 < WB ^ Z.of_nat (length lo - 1)) by (apply Z.pow_pos_nonneg; [done|lia]). nia.
Qed.

(** ** The parts of [mpz_div_qr] *)

Definition upd (o : option mpz_t) (v : Z) σ : gmap positive (option Z) :=
  match o with Some i => <[i := Some v]> σ | None => σ end.

Lemma wp_when_some s σ o v (f : mpz_t → MZ unit) Q E :
  (∀ i Q1, o = Some i → (∀ s2, zok F s2 (<[i := Some v]> σ) → Q1 tt s2) → wp (f i) Q1 E s) →
  zok F s σ → (∀ s', zok F s' (upd o v σ) → Q tt s') → wp (when_some o f) Q E s.
Proof. intros Hf Hok HQ. destruct o as [i|]; cbn; [by apply Hf|by apply wp_ret, HQ]. Qed.

Lemma wp_swap_clear s σ t r v w Q E :
  zok F s (<[t := Some v]> σ) → σ !! t = None → σ !! r = Some w →
  (∀ s', zok F s' (<[r := Some v]> σ) → Q tt s') → wp (_ ← mpz_swap t r; mpz_clear t) Q E s.
Proof.
  intros Hok Ht Hr HQ. assert (t ≠ r) as Hne by (by eapply fresh_ne). apply wp_bind.
  eapply wp_mpz_swap; [done|by rewrite lookup_insert_eq|by rewrite lookup_insert_ne|]. intros s1 Hok1. rewrite insert_insert_eq in Hok1.
  eapply wp_mpz_clear; [done|by rewrite lookup_insert_ne, lookup_insert_eq|]. intros s2. rewrite temp_drop by done. apply HQ.
Qed.

(** The highest limb is read and the size of the quotient set. *)
Lemma wp_div_quotient s σ tq zq lq x y Q E :
  zok F s σ → is_Some (σ !! tq) → z_vars s !! tq = Some zq → mp_alloc zq = nlimbs x - nlimbs y + 1 →
  x ≠ 0 → y ≠ 0 → nlimbs y ≤ nlimbs x → Z.of_nat (length lq) = nlimbs x - nlimbs y + 1 → words lq →
  val lq = Z.abs x / Z.abs y → holds (z_mem s) (mp_d zq) lq →
  (∀ s', z_mem s' = z_mem s → (∀ i, i ≠ tq → z_vars s' !! i = z_vars s !! i) →
     zok F s' (<[tq := Some (Z.quot x y)]> σ) → Q tt s') →
  wp (top ← limbs (load (padd (mp_d zq) (nlimbs x - nlimbs y + 1 - 1)));
      set_size tq (if Z.lxor (Z.sgn y * nlimbs y) (Z.sgn x * nlimbs x) <? 0 then - (nlimbs x - nlimbs y + 1 - b2z (top =? 0))
                   else nlimbs x - nlimbs y + 1 - b2z (top =? 0))) Q E s.
Proof.
  intros Hok Ht Hz Ha Hx Hy Hle Hl Hw Hv Hh HQ. destruct (quotient_normal x y lq Hx Hy Hle Hl Hw Hv) as (lo & top & -> & Hn).
  pose proof Hh as [Hhlo [Htop _]%holds_cons]%holds_app. rewrite length_app in Hl. cbn in Hl.
  apply wp_bind, wp_zoom. replace (nlimbs x - nlimbs y + 1 - 1) with (Z.of_nat (length lo)) by lia. eapply wp_load; [done|].
  replace (set_zmem (z_mem s) s) with s by (by destruct s). rewrite lxor_neg.
  assert (∃ l, words l ∧ normal l ∧ holds (z_mem s) (mp_d zq) l ∧ Z.of_nat (length l) = nlimbs x - nlimbs y + 1 - b2z (top =? 0) ∧
    val l = Z.abs x / Z.abs y) as (l & Hwl & Hnl & Hhl & Hll & Hvl).
  { destruct (Z.eqb_spec top 0) as [->|Ht0]; cbn [b2z].
    - exists lo. apply Forall_app in Hw as [Hw _]. rewrite val_app in Hv. cbn [val] in Hv. split_and!; try done; [by apply Hn|lia|lia].
    - exists (lo ++ [top]). rewrite length_app. cbn [length]. split_and!; try done; [|lia].
      intros z0 Hz0. rewrite last_snoc in Hz0. injection Hz0 as <-. done. }
  assert (0 ≤ b2z (top =? 0)) by (destruct (top =? 0); cbn; lia).
  rewrite <- Hll. eapply (wp_set_size_full F s σ tq zq l); try done; [lia|destruct (negb _); lia|]. intros s' Hm' Hv' Hok'.
  apply HQ; [done|intros i Hi; by rewrite Hv', lookup_insert_ne|].
  replace (Z.quot x y) with (Z.sgn (if negb (Bool.eqb (y <? 0) (x <? 0)) then - Z.of_nat (length l) else Z.of_nat (length l)) * val l); [done|].
  rewrite Z.quot_div by done. rewrite <- Hvl. destruct (Bool.eqb (y <? 0) (x <? 0)) eqn:He; cbn [negb]; rewrite ?Z.sgn_opp, ?Z.mul_opp_l, sgn_length;
    [apply Bool.eqb_prop in He|apply Bool.eqb_false_iff in He]; destruct (Z.ltb_spec x 0), (Z.ltb_spec y 0); try done; try lia;
    rewrite ?(Z.sgn_neg x), ?(Z.sgn_neg y), ?(Z.sgn_pos x), ?(Z.sgn_pos y) by lia; lia.
Qed.

(** The size of the remainder *)
Lemma wp_div_remainder {A} s σ tr zr lr x y (k : Z → MZ A) Q E :
  zok F s σ → is_Some (σ !! tr) → z_vars s !! tr = Some zr → Z.of_nat (length lr) ≤ mp_alloc zr → y ≠ 0 →
  Z.of_nat (length lr) = nlimbs y → words lr → val lr = Z.abs x mod Z.abs y → holds (z_mem s) (mp_d zr) lr →
  (∀ rn s', zok F s' (<[tr := Some (Z.rem x y)]> σ) → (rn =? 0) = (Z.rem x y =? 0) → wp (k rn) Q E s') →
  wp (rn ← limbs (mpn_normalized_size (mp_d zr) (nlimbs y));
      _ ← set_size tr (if Z.sgn x * nlimbs x <? 0 then - rn else rn); k rn) Q E s.
Proof.
  intros Hok Ht Hz Ha Hy Hl Hw Hv Hh HQ. apply wp_bind, wp_zoom. rewrite <- Hl. apply wp_mpn_normalized_size; [done|].
  intros n Hn Hnn Er. replace (set_zmem (z_mem s) s) with s by (by destruct s). rewrite size_neg.
  assert (val (take n lr) = val lr) as Hvt by (rewrite Er at 2; rewrite val_app, val_zeros; lia).
  assert (length (take n lr) = n) as Hlt by (rewrite length_take; lia). assert (words (take n lr)) as Hwt by (by apply Forall_take).
  assert (Z.rem x y = Z.sgn (if x <? 0 then - Z.of_nat n else Z.of_nat n) * val (take n lr)) as Hrem.
  { rewrite Z.rem_mod, <- Hv, <- Hvt by done. pose proof (sgn_length (take n lr)) as Hsl. rewrite Hlt in Hsl.
    destruct (Z.ltb_spec x 0); rewrite ?Z.sgn_opp, ?Z.mul_opp_l, Hsl.
    - rewrite (Z.sgn_neg x) by lia. lia.
    - destruct (Z.eq_dec x 0) as [->|]; [rewrite Hvt, Hv; by rewrite Z.mod_0_l by lia|]. rewrite (Z.sgn_pos x) by lia. lia. }
  apply wp_bind. eapply (wp_set_size F s σ tr zr (take n lr)); try done.
  - rewrite Er in Hh. by apply holds_app in Hh as [? _].
  - lia.
  - destruct (x <? 0); lia.
  - intros s'. rewrite <- Hrem. intros Hok'. apply HQ; [done|]. rewrite Hrem.
    assert (n = 0%nat ↔ val (take n lr) = 0) as Hiff.
    { split; [by intros ->|]. intros H0. destruct n as [|n]; [done|]. exfalso.
      pose proof (normal_bound (take (S n) lr) Hwt Hnn ltac:(by intros Hnil; rewrite Hnil in Hlt)). pose proof (wpow_pos (length (take (S n) lr) - 1)). lia. }
    destruct (Z.eqb_spec (Z.of_nat n) 0) as [H0|H0]; symmetry; [apply Z.eqb_eq|apply Z.eqb_neq].
    + assert (n = 0%nat) as Hn0 by lia. apply Hiff in Hn0. rewrite Hn0. lia.
    + assert (val (take n lr) ≠ 0) by (intros H1; apply H0; apply Hiff in H1; lia). destruct (x <? 0); nia.
Qed.

(** ** The whole division *)

(** Rounding corrects the truncated quotient and remainder by one step. *)
Definition adjusted (mode : mpz_div_round_mode) (neg exact : bool) (y q r : Z) : Z * Z :=
  if bool_decide (mode = GMP_DIV_FLOOR) && neg && negb exact then (q - 1, r + y)
  else if bool_decide (mode = GMP_DIV_CEIL) && negb neg && negb exact then (q + 1, r - y) else (q, r).

Lemma div_round_adjusted mode x y : x ≠ 0 → y ≠ 0 →
  div_round mode x y = adjusted mode (negb (Bool.eqb (y <? 0) (x <? 0))) (Z.rem x y =? 0) y (Z.quot x y) (Z.rem x y).
Proof.
  intros Hx Hy. pose proof (Z.quot_rem' x y) as H0. pose proof (Z.rem_bound_abs x y Hy) as H1. pose proof (Z.rem_sign_mul x y Hy) as H2.
  set (q := Z.quot x y) in *. set (r := Z.rem x y) in *. clearbody q r. unfold adjusted.
  assert (r ≠ 0 → 0 < r * x) as H3 by nia.
  assert (∀ b, Bool.eqb (y <? 0) (x <? 0) = b → if b then 0 < x * y else x * y < 0) as Hs.
  { intros b <-. destruct (Z.ltb_spec x 0), (Z.ltb_spec y 0); cbn; nia. }
  assert (r ≠ 0 → 0 < x * y → 0 < r * y) as H4 by nia. assert (r ≠ 0 → x * y < 0 → r * y < 0) as H5 by nia.
  destruct (Bool.eqb (y <? 0) (x <? 0)); cbn [negb]; specialize (Hs _ eq_refl); cbn in Hs; destruct (Z.eqb_spec r 0) as [Hr|Hr]; cbn [negb];
    destruct mode; repeat case_bool_decide; try done; cbn [andb]; apply div_round_unique; try done; try lia; nia.
Qed.

Lemma rounded_exact mode x y : x ≠ 0 → y ≠ 0 → ((div_round mode x y).2 =? 0) = (Z.rem x y =? 0).
Proof.
  intros Hx Hy. rewrite div_round_adjusted by done. pose proof (Z.rem_bound_abs x y Hy) as H1. unfold adjusted.
  destruct (Z.eqb_spec (Z.rem x y) 0) as [Hr|Hr]; cbn [negb].
  - rewrite !andb_false_r. cbn. by rewrite Hr.
  - destruct (_ && _ && _); [|destruct (_ && _ && _)]; cbn; apply Z.eqb_neq; lia.
Qed.

(** A result argument: a variable of the store, or NULL *)
Definition target σ (o : option mpz_t) : Prop := match o with Some i => ∃ w, σ !! i = Some (Some w) | None => True end.

Lemma target_insert σ o i v : target σ o → target (<[i := Some v]> σ) o.
Proof.
  destruct o as [j|]; [|done]. intros [w Hw]. cbn. destruct (decide (i = j)) as [->|]; [rewrite lookup_insert_eq; by eexists|].
  rewrite lookup_insert_ne by done. by exists w.
Qed.

Lemma target_upd σ o p v : target σ o → target (upd p v σ) o.
Proof. destruct p; [apply target_insert|done]. Qed.

Lemma upd_comm σ p q v w : (∀ i, p = Some i → q ≠ Some i) → upd p v (upd q w σ) = upd q w (upd p v σ).
Proof. intros Hne. destruct p as [i|], q as [j|]; try done. cbn. apply insert_insert_ne. intros ->. by apply (Hne j). Qed.

(** Two assignments to optional results *)
Lemma wp_two_results s σ q r qv rv (fr fq : mpz_t → MZ unit) Q E :
  zok F s σ → target σ q → target σ r →
  (∀ i w s1 Q, σ !! i = Some (Some w) → zok F s1 σ → (∀ s2, zok F s2 (<[i := Some rv]> σ) → Q tt s2) → wp (fr i) Q E s1) →
  (∀ i w σ1 s1 Q, σ1 !! i = Some (Some w) → zok F s1 σ1 → (∀ s2, zok F s2 (<[i := Some qv]> σ1) → Q tt s2) → wp (fq i) Q E s1) →
  (∀ s', zok F s' (upd q qv (upd r rv σ)) → Q tt s') → wp (_ ← when_some r fr; when_some q fq) Q E s.
Proof.
  intros Hok Hq Hr Hfr Hfq HQ. apply wp_bind. apply (wp_when_some s σ r rv); [|done|].
  - intros i Q1 -> HQ1. destruct Hr as [w Hr]. by eapply Hfr.
  - intros s1 Hok1. apply (wp_when_some s1 (upd r rv σ) q qv); [|done|done].
    intros i Q1 -> HQ1. destruct (target_upd σ (Some i) r rv Hq) as [w Hw]. by eapply Hfq.
Qed.

(** The divisor has more limbs than the dividend. *)
Lemma wp_div_short s σ q r n d x y mode Q E :
  zok F s σ → σ !! n = Some (Some x) → σ !! d = Some (Some y) → target σ q → target σ r →
  x ≠ 0 → y ≠ 0 → nlimbs x < nlimbs y → nlimbs y < INT_MAX →
  let qs := Z.lxor (Z.sgn y * nlimbs y) (Z.sgn x * nlimbs x) in
  (∀ s', zok F s' (upd q (div_round mode x y).1 (upd r (div_round mode x y).2 σ)) → Q tt s') →
  wp (if bool_decide (mode = GMP_DIV_CEIL) && (0 <=? qs) then
        _ ← when_some r (λ r, mpz_sub r n d); when_some q (λ q, mpz_set_ui q 1)
      else if bool_decide (mode = GMP_DIV_FLOOR) && (qs <? 0) then
        _ ← when_some r (λ r, mpz_add r n d); when_some q (λ q, mpz_set_si q (-1))
      else _ ← when_some r (λ r, mpz_set r n); when_some q (λ q, set_size q 0)) Q E s.
Proof.
  intros Hok Hn Hd Hq Hr Hx Hy Hlt Hmax qs. subst qs. rewrite lxor_signs, lxor_neg, div_round_adjusted by done.
  assert (Z.abs x < Z.abs y) as Hab. { destruct (Z.lt_ge_cases (Z.abs x) (Z.abs y)); [done|]. pose proof (nlimbs_le y x). lia. }
  assert (Z.quot x y = 0 ∧ Z.rem x y = x) as [-> ->] by (apply trunc_unique; [done|lia|done|nia]).
  unfold adjusted. rewrite (proj2 (Z.eqb_neq x 0)) by done. destruct (Bool.eqb (y <? 0) (x <? 0)); cbn [negb];
    rewrite ?andb_true_r, ?andb_false_r; repeat case_bool_decide; cbn [fst snd]; intros HQ; try congruence.
  all: eapply wp_two_results; [done|exact Hq|exact Hr|..|exact HQ]; clear HQ; cbn beta.
  all: try (intros i w s1 Q' Hi Hok1 HQ'; first [eapply wp_mpz_sub|eapply wp_mpz_add|eapply wp_mpz_set]; try done; lia).
  all: intros i w σ1 s1 Q' Hi Hok1 HQ';
    first [eapply wp_mpz_set_ui; done|eapply wp_mpz_set_si; [done|done|lia|done]|eapply wp_set_size_0; done].
Qed.

(** The temporary of the quotient exists when the quotient is asked for. *)
Definition temp (q : option mpz_t) (tq : mpz_t) (v : option Z) σ : gmap positive (option Z) :=
  match q with Some _ => <[tq := v]> σ | None => σ end.

Lemma temp_insert q tq v i w σ : tq ≠ i → temp q tq v (<[i := w]> σ) = <[i := w]> (temp q tq v σ).
Proof. intros Hne. destruct q; [|done]. by apply insert_insert_ne. Qed.

Lemma temp_ne q tq v σ i : tq ≠ i → temp q tq v σ !! i = σ !! i.
Proof. intros Hne. destruct q; [|done]. by apply lookup_insert_ne. Qed.

(** Quotient and remainder before rounding *)
Lemma wp_div_long s σ q tr tq d x y zr zd (qp : option ptr) (k : Z → MZ bool) Q E :
  let ns := Z.sgn x * nlimbs x in
  let qn := nlimbs x - nlimbs y + 1 in
  let qs := Z.lxor (Z.sgn y * nlimbs y) ns in
  zok F s (temp q tq (Some 0) (<[tr := Some x]> σ)) → σ !! d = Some (Some y) → tr ≠ d → tq ≠ d → tq ≠ tr → x ≠ 0 → y ≠ 0 →
  nlimbs y ≤ nlimbs x → z_vars s !! tr = Some zr → z_vars s !! d = Some zd →
  match q with
  | Some _ => ∃ zq, z_vars s !! tq = Some zq ∧ mp_alloc zq = qn ∧ qp = Some (mp_d zq)
  | None => qp = None
  end →
  (∀ rn s', zok F s' (temp q tq (Some (Z.quot x y)) (<[tr := Some (Z.rem x y)]> σ)) → (rn =? 0) = (Z.rem x y =? 0) → wp (k rn) Q E s') →
  wp (_ ← limbs (mpn_div_qr qp (mp_d zr) (nlimbs x) (mp_d zd) (nlimbs y));
      _ ← (match qp with
           | Some qp =>
              top ← limbs (load (padd qp (qn - 1)));
              let qn := qn - b2z (top =? 0) in
              set_size tq (if qs <? 0 then - qn else qn)
           | None => mret tt
           end);
      rn ← limbs (mpn_normalized_size (mp_d zr) (nlimbs y));
      _ ← set_size tr (if ns <? 0 then - rn else rn);
      k rn) Q E s.
Proof.
  intros ns qn qs Hok Hd Hne Hqd Hqr Hx Hy Hle Hzr Hzd Hq HQ. subst ns qs. set (σ0 := temp q tq (Some 0) (<[tr := Some x]> σ)) in *.
  assert (σ0 !! tr = Some (Some x)) as Htr0 by (unfold σ0; by rewrite temp_ne, lookup_insert_eq).
  assert (σ0 !! d = Some (Some y)) as Hd0 by (unfold σ0; by rewrite temp_ne, lookup_insert_ne).
  assert (nlimbs y ≤ mp_alloc zr) as Har.
  { destruct (zok_operand F s σ0 tr x Hok Htr0) as (z & _ & Hz & _ & _ & _ & _ & _ & _ & Ha & _). rewrite Hzr in Hz. injection Hz as <-. lia. }
  destruct q as [q|].
  - destruct Hq as (zq & Hzq & Haq & ->). apply wp_bind.
    apply (wp_div_limbs s σ0 tr d x y zr zd (Some (tq, zq))); try done.
    { split_and!; try done. unfold σ0. cbn. by rewrite lookup_insert_eq. }
    intros lq lr m' Hok1 Hlq Hwq Hvq Hlr Hwr Hvr Hhq Hhr. cbn in Hok1, Hhq. apply wp_bind.
    apply (wp_div_quotient _ _ tq zq lq x y _ E Hok1); try done.
    { rewrite lookup_insert_ne by done. by rewrite lookup_insert_eq. }
    intros s2 Hm2 Hv2 Hok2. cbn in Hm2. apply (wp_div_remainder s2 _ tr zr lr x y k Q E Hok2); try done; try lia.
    + rewrite lookup_insert_ne by done. by rewrite lookup_insert_eq.
    + by rewrite Hv2.
    + by rewrite Hm2.
    + intros rn s3 Hok3. apply HQ. eapply eq_rect; [exact Hok3|]. unfold σ0. cbn. apply map_eq. intros i.
      destruct (decide (i = tr)), (decide (i = tq)); simplify_map_eq; done.
  - subst qp. apply wp_bind. apply (wp_div_limbs s σ0 tr d x y zr zd None); try done.
    intros lq lr m' Hok1 Hlq Hwq Hvq Hlr Hwr Hvr Hhq Hhr. cbn in Hok1. apply wp_bind, wp_ret.
    apply (wp_div_remainder _ _ tr zr lr x y k Q E Hok1); try done; try lia.
    + by rewrite lookup_insert_eq.
    + intros rn s3 Hok3. apply HQ. unfold σ0 in Hok3. cbn in Hok3. by rewrite !insert_insert_eq in Hok3.
Qed.

(** The rounding step on the temporaries *)
Lemma wp_div_adjust s σ (q r : option mpz_t) tr tq d x y mode rn Q E :
  let qs := Z.lxor (Z.sgn y * nlimbs y) (Z.sgn x * nlimbs x) in
  zok F s (temp q tq (Some (Z.quot x y)) (<[tr := Some (Z.rem x y)]> σ)) → σ !! d = Some (Some y) → tr ≠ d → tq ≠ d → tq ≠ tr →
  x ≠ 0 → y ≠ 0 → nlimbs x < INT_MAX → nlimbs y < INT_MAX → (rn =? 0) = (Z.rem x y =? 0) →
  (∀ v s', (is_Some r → v = (div_round mode x y).2) → zok F s' (temp q tq (Some (div_round mode x y).1) (<[tr := Some v]> σ)) → Q tt s') →
  wp (if bool_decide (mode = GMP_DIV_FLOOR) && (qs <? 0) && negb (rn =? 0) then
        _ ← when_some q (λ _, mpz_sub_ui tq tq 1); when_some r (λ _, mpz_add tr tr d)
      else if bool_decide (mode = GMP_DIV_CEIL) && (0 <=? qs) && negb (rn =? 0) then
        _ ← when_some q (λ _, mpz_add_ui tq tq 1); when_some r (λ _, mpz_sub tr tr d)
      else mret tt) Q E s.
Proof.
  intros qs Hok Hd Hne Hqd Hqr Hx Hy Hnx Hny Hrn. subst qs. rewrite lxor_signs, lxor_neg, div_round_adjusted, Hrn by done.
  set (R := Z.rem x y) in *. set (q0 := Z.quot x y) in *. pose proof (Z.rem_bound_abs x y Hy) as Hb.
  assert (nlimbs R < INT_MAX) as HnR by (pose proof (nlimbs_le R y ltac:(lia)); lia).
  assert (nlimbs q0 < INT_MAX) as Hnq.
  { assert (Z.abs q0 ≤ Z.abs x); [|pose proof (nlimbs_le q0 x); lia]. unfold q0. rewrite <- Z.quot_abs by done. apply Z.quot_le_upper_bound; nia. }
  clearbody R q0.
  assert (∀ f qv g rv,
    (∀ s1 σ1 Q, zok F s1 σ1 → σ1 !! tq = Some (Some q0) → (∀ s2, zok F s2 (<[tq := Some qv]> σ1) → Q tt s2) → wp f Q E s1) →
    (∀ s1 σ1 Q, zok F s1 σ1 → σ1 !! tr = Some (Some R) → σ1 !! d = Some (Some y) →
       (∀ s2, zok F s2 (<[tr := Some rv]> σ1) → Q tt s2) → wp g Q E s1) →
    (∀ v s', (is_Some r → v = rv) → zok F s' (temp q tq (Some qv) (<[tr := Some v]> σ)) → Q tt s') →
    wp (_ ← when_some q (λ _, f); when_some r (λ _, g)) Q E s) as Hstep.
  { intros f qv g rv Hf Hg HQ. apply wp_bind.
    assert (∀ s1, zok F s1 (temp q tq (Some qv) (<[tr := Some R]> σ)) → wp (when_some r (λ _, g)) Q E s1) as Hk.
    { intros s1 Hok1. destruct r as [r|]; cbn [when_some]; [|apply wp_ret, (HQ R); [by intros [? ?]|done]].
      eapply Hg; [done|by rewrite temp_ne, lookup_insert_eq|by rewrite temp_ne, lookup_insert_ne|].
      intros s2. rewrite <- temp_insert, insert_insert_eq by done. by apply HQ. }
    destruct q as [q|]; cbn [when_some]; [|by apply wp_ret, Hk]. eapply Hf; [done|cbn; by rewrite lookup_insert_eq|].
    intros s1. cbn. rewrite insert_insert_eq. apply Hk. }
  unfold adjusted. rewrite negb_involutive. destruct (_ && _ && _); [|destruct (_ && _ && _)]; cbn [fst snd]; intros HQ.
  - eapply Hstep; [| |exact HQ].
    + intros s1 σ1 Q1 Hok1 Hq1 HQ1. by eapply wp_mpz_sub_ui.
    + intros s1 σ1 Q1 Hok1 Ht1 Hd1 HQ1. by eapply wp_mpz_add.
  - eapply Hstep; [| |exact HQ].
    + intros s1 σ1 Q1 Hok1 Hq1 HQ1. by eapply wp_mpz_add_ui.
    + intros s1 σ1 Q1 Hok1 Ht1 Hd1 HQ1. by eapply wp_mpz_sub.
  - by apply wp_ret, (HQ R).
Qed.

(** The temporaries are exchanged with the results and freed. *)
Lemma wp_div_deliver s σ q r tr tq qv rv v (b : bool) Q E :
  zok F s (temp q tq (Some qv) (<[tr := Some v]> σ)) → target σ q → target σ r → (∀ i, q = Some i → r ≠ Some i) →
  (is_Some r → v = rv) → σ !! tr = None → σ !! tq = None → tq ≠ tr →
  (∀ s', zok F s' (upd q qv (upd r rv σ)) → Q b s') →
  wp (_ ← when_some q (λ q, _ ← mpz_swap tq q; mpz_clear tq); _ ← when_some r (λ r, mpz_swap tr r); _ ← mpz_clear tr; mret b) Q E s.
Proof.
  intros Hok Hq Hr Hne Hv Htr Htq Hqr HQ. apply wp_bind.
  assert (∀ s1, zok F s1 (<[tr := Some v]> (upd q qv σ)) →
    wp (_ ← when_some r (λ r, mpz_swap tr r); _ ← mpz_clear tr; mret b) Q E s1) as Hk.
  { intros s1 Hok1. rewrite upd_comm in HQ by done.
    assert (upd q qv σ !! tr = None) as Htr1.
    { destruct q as [i|]; [|done]. destruct Hq as [w Hw]. cbn. rewrite lookup_insert_ne; [done|]. apply not_eq_sym. by eapply fresh_ne. }
    destruct r as [r|]; cbn [when_some upd] in *.
    - destruct (target_upd σ (Some r) q qv Hr) as [w Hw]. assert (v = rv) as -> by (apply Hv; by eexists).
      apply wp_bind_assoc. by eapply (wp_swap_clear s1 _ tr r).
    - apply wp_bind, wp_ret, wp_bind. eapply wp_mpz_clear; [done|by rewrite lookup_insert_eq|]. intros s2.
      rewrite delete_insert_eq, delete_id by done. intros Hok2. by apply wp_ret, HQ. }
  destruct q as [q|]; cbn [when_some upd temp] in *; [|by apply wp_ret, Hk]. destruct Hq as [w Hq]. assert (tr ≠ q) as Hnq by (by eapply fresh_ne).
  eapply (wp_swap_clear s (<[tr := Some v]> σ) tq q); [done|by rewrite lookup_insert_ne|by rewrite lookup_insert_ne|].
  intros s1. rewrite insert_insert_ne by done. apply Hk.
Qed.

(** The division once the temporaries exist *)
Lemma wp_div_rest s σ q r tr tq d x y zr mode qp Q E :
  let ns := Z.sgn x * nlimbs x in
  let qn := nlimbs x - nlimbs y + 1 in
  let qs := Z.lxor (Z.sgn y * nlimbs y) ns in
  zok F s (temp q tq (Some 0) (<[tr := Some x]> σ)) → σ !! d = Some (Some y) → σ !! tr = None → σ !! tq = None → tq ≠ tr →
  x ≠ 0 → y ≠ 0 → nlimbs y ≤ nlimbs x → nlimbs x < INT_MAX → z_vars s !! tr = Some zr →
  match q with
  | Some _ => ∃ zq, z_vars s !! tq = Some zq ∧ mp_alloc zq = qn ∧ qp = Some (mp_d zq)
  | None => qp = None
  end →
  target σ q → target σ r → (∀ i, q = Some i → r ≠ Some i) →
  (∀ s', zok F s' (upd q (div_round mode x y).1 (upd r (div_round mode x y).2 σ)) → Q (negb ((div_round mode x y).2 =? 0)) s') →
  wp (zd ← get_mpz d;
      _ ← limbs (mpn_div_qr qp (mp_d zr) (nlimbs x) (mp_d zd) (nlimbs y));
      _ ← (match qp with
           | Some qp =>
              top ← limbs (load (padd qp (qn - 1)));
              let qn := qn - b2z (top =? 0) in
              set_size tq (if qs <? 0 then - qn else qn)
           | None => mret tt
           end);
      rn ← limbs (mpn_normalized_size (mp_d zr) (nlimbs y));
      _ ← set_size tr (if ns <? 0 then - rn else rn);
      _ ← (if bool_decide (mode = GMP_DIV_FLOOR) && (qs <? 0) && negb (rn =? 0) then
             _ ← when_some q (λ _, mpz_sub_ui tq tq 1);
             when_some r (λ _, mpz_add tr tr d)
           else if bool_decide (mode = GMP_DIV_CEIL) && (0 <=? qs) && negb (rn =? 0) then
             _ ← when_some q (λ _, mpz_add_ui tq tq 1);
             when_some r (λ _, mpz_sub tr tr d)
           else mret tt);
      _ ← when_some q (λ q, _ ← mpz_swap tq q; mpz_clear tq);
      _ ← when_some r (λ r, mpz_swap tr r);
      _ ← mpz_clear tr;
      mret (negb (rn =? 0))) Q E s.
Proof.
  intros ns qn qs Hok Hd Htr Htq Hqr Hx Hy Hle Hnx Hzr Hqp Hq Hr Hne HQ. assert (tr ≠ d) as Hrd by (by eapply fresh_ne).
  assert (tq ≠ d) as Hqd by (by eapply fresh_ne).
  destruct (zok_target F s _ d (Some y) Hok) as (zd & Hzd & _); [by rewrite temp_ne, lookup_insert_ne|].
  apply wp_bind. eapply wp_get_mpz; [done|]. eapply (wp_div_long s σ q tr tq d x y zr zd qp); try done. intros rn s1 Hok1 Hrn.
  apply wp_bind. eapply (wp_div_adjust s1 σ q r tr tq d x y mode rn); try done; [lia|]. intros v s2 Hv Hok2.
  eapply (wp_div_deliver s2 σ q r tr tq); try done. intros s3 Hok3. rewrite Hrn, <- (rounded_exact mode) by done. by apply HQ.
Qed.

Lemma wp_mpz_div_qr s σ q r n d x y mode Q E :
  zok F s σ → σ !! n = Some (Some x) → σ !! d = Some (Some y) → y ≠ 0 → nlimbs x < INT_MAX → nlimbs y < INT_MAX →
  target σ q → target σ r → (∀ i, q = Some i → r ≠ Some i) →
  (∀ s', zok F s' (upd q (div_round mode x y).1 (upd r (div_round mode x y).2 σ)) → Q (negb ((div_round mode x y).2 =? 0)) s') →
  wp (mpz_div_qr q r n d mode) Q E s.
Proof.
  intros Hok Hn Hd Hy Hnx Hny Hq Hr Hne HQ.
  destruct (zok_operand F s σ n x Hok Hn) as (zn & _ & Hzn & _ & _ & _ & _ & _ & Hsn & _).
  destruct (zok_operand F s σ d y Hok Hd) as (zd & _ & Hzd & _ & _ & _ & _ & _ & Hsd & _). pose proof (nlimbs_pos y Hy) as Hpy.
  unfold mpz_div_qr. do 2 (apply wp_bind; eapply wp_get_mpz; [done|]). rewrite Hsn, Hsd.
  rewrite (proj2 (Z.eqb_neq (Z.sgn y * nlimbs y) 0)) by (rewrite <- (size_abs y) in Hpy; lia). destruct (Z.eq_dec x 0) as [->|Hx].
  { assert (div_round mode 0 y = (0, 0)) as E0 by (apply div_round_unique; [done|lia|lia|destruct mode; lia]). rewrite E0 in HQ. cbn [Z.sgn Z.mul Z.eqb].
    apply wp_bind. apply (wp_when_some s σ q 0); [|done|].
    { intros i Q1 -> HQ1. destruct Hq as [w Hq]. eapply wp_set_size_0; try done. }
    intros s1 Hok1. apply wp_bind. apply (wp_when_some s1 (upd q 0 σ) r 0); [|done|].
    { intros i Q1 -> HQ1. destruct (target_upd σ (Some i) q 0 Hr) as [w Hw]. eapply wp_set_size_0; try done. }
    intros s2 Hok2. apply wp_ret, (HQ s2). by rewrite upd_comm. }
  pose proof (nlimbs_pos x Hx) as Hpx. rewrite (proj2 (Z.eqb_neq (Z.sgn x * nlimbs x) 0)) by (rewrite <- (size_abs x) in Hpx; lia).
  rewrite !size_abs. destruct (Z.ltb_spec (nlimbs x) (nlimbs y)) as [Hlt|Hge].
  { apply wp_bind. apply (wp_div_short s σ q r n d x y mode); try done. intros s1 Hok1. apply wp_ret.
    assert (Z.abs x < Z.abs y) as Hab. { destruct (Z.lt_ge_cases (Z.abs x) (Z.abs y)); [done|]. pose proof (nlimbs_le y x). lia. }
    assert (Z.quot x y = 0 ∧ Z.rem x y = x) as [_ Er] by (apply trunc_unique; [done|lia|done|nia]).
    specialize (HQ s1 Hok1). rewrite rounded_exact, Er, (proj2 (Z.eqb_neq x 0)) in HQ by done. exact HQ. }
  apply wp_bind. eapply wp_local_mpz; [done|]. intros tr s1 Htr Htrn _ Hok1. assert (tr ≠ d) as Hrd by (by eapply fresh_ne).
  apply wp_bind. unfold mpz_init_set. apply wp_bind. eapply wp_mpz_init; try done. intros s2 Hok2.
  eapply (wp_mpz_set F s2 _ tr 0 n x); [done|by rewrite lookup_insert_eq|by apply other|lia|]. intros s3. rewrite insert_insert_eq. intros Hok3.
  destruct (zok_target F s3 _ tr _ Hok3 (lookup_insert_eq _ _ _)) as (zr & Hzr & _). apply wp_bind. eapply wp_get_mpz; [done|].
  apply wp_bind. eapply wp_local_mpz; [done|]. intros tq s4 Htq0 Htqn Hv4 Hok4.
  assert (tq ≠ tr) as Hqr by (intros ->; by rewrite lookup_insert_eq in Htq0).
  assert (σ !! tq = None) as Htq by (by rewrite lookup_insert_ne in Htq0). assert (tq ≠ d) as Hqd by (by eapply fresh_ne).
  assert (z_vars s4 !! tr = Some zr) as Hzr4 by (rewrite Hv4; [done|by rewrite lookup_insert_eq]).
  apply wp_bind. destruct q as [q|].
  - pose proof (wp_mpz_init2 F s4 (<[tr := Some x]> σ) tq (Z.to_nat (nlimbs x - nlimbs y + 1))) as Hinit. rewrite Z2Nat.id in Hinit by lia.
    apply wp_bind. eapply Hinit; try done; try lia. intros zq s5 Hv5 Haq _ Hok5. apply wp_bind. eapply wp_get_mpz; [by rewrite Hv5, lookup_insert_eq|].
    apply wp_ret. eapply (wp_div_rest s5 σ (Some q) r tr tq d x y zr mode (Some (mp_d zq))); try done.
    + by rewrite Hv5, lookup_insert_ne.
    + exists zq. by rewrite Hv5, lookup_insert_eq.
  - apply wp_ret. by eapply (wp_div_rest s4 σ None r tr tq d x y zr mode None).
Qed.
End div.
