(* ===== verification/MpzConv.v ===== *)
(** * Integers and machine words: conversion and comparison; shifts *)

From S2P Require Import Prelude CString Queue State UInt64 Mpn MpnMem MpnThm MpnBits MpnDiv MpnInv MpnDivThm MpnDivPi1 MpnCorrect MpnDivQr MpnStr MpnStrThm MpnSetStr Mpz MpzRep MpzArith MpzMul MpzDiv.

Definition LONG_MIN : Z := -9223372036854775808.
Definition LONG_MAX : Z := 9223372036854775807.

(** ** Small numbers *)

Lemma nlimbs_1 x : nlimbs x = 1 ↔ x ≠ 0 ∧ Z.abs x < WB.
Proof.
  split.
  - intros Hn. assert (x ≠ 0) by (intros ->; done). split; [done|]. pose proof (abs_lt_pow x) as Hb. by rewrite Hn in Hb.
  - intros [Hx Hb]. pose proof (nlimbs_pos x Hx). pose proof (nlimbs_bound x 1 ltac:(lia) Hb). lia.
Qed.

Lemma size_is x n : n ≠ 0 → Z.sgn x * nlimbs x = n ↔ Z.sgn x = Z.sgn n ∧ nlimbs x = Z.abs n.
Proof.
  intros Hn. split; [|intros [-> ->]; lia]. intros He. pose proof (size_abs x) as Ha. pose proof (size_sgn x) as Hs.
  rewrite He in Ha, Hs. done.
Qed.

Lemma size_big x : 1 < nlimbs x ↔ WB ≤ Z.abs x.
Proof.
  split.
  - intros Hn. destruct (Z.le_gt_cases WB (Z.abs x)); [done|]. destruct (Z.eq_dec x 0) as [->|]; [done|].
    assert (nlimbs x = 1) by (by apply nlimbs_1). lia.
  - intros Hb. destruct (Z.le_gt_cases (nlimbs x) 1); [|done]. pose proof (abs_lt_pow x) as Hlt.
    assert (WB ^ nlimbs x ≤ WB ^ 1) by (apply Z.pow_le_mono_r; [done|lia]). change (WB ^ 1) with WB in *. lia.
Qed.

Lemma GMP_CMP_compare a b : GMP_CMP a b = cmp_result (a ?= b).
Proof. unfold GMP_CMP. destruct (Z.compare_spec a b); destruct (Z.ltb_spec a b), (Z.ltb_spec b a); try done; lia. Qed.

Lemma cmp_lt a b : a < b → cmp_result (a ?= b) = -1.
Proof. intros Hlt. by rewrite (proj2 (Z.compare_lt_iff _ _) Hlt). Qed.
Lemma cmp_gt a b : b < a → cmp_result (a ?= b) = 1.
Proof. intros Hlt. by rewrite (proj2 (Z.compare_gt_iff _ _) Hlt). Qed.

Section conv.
Context (F : mem).
Implicit Types (s : zstate) (σ : gmap positive (option Z)).

Lemma zmem_id s : set_zmem (z_mem s) s = s.
Proof. by destruct s. Qed.

(** The lowest limb *)
Lemma wp_low_limb s σ u x z Q E :
  zok F s σ → σ !! u = Some (Some x) → z_vars s !! u = Some z → x ≠ 0 →
  Q (Z.abs x mod WB) s → wp (limbs (load (mp_d z))) Q E s.
Proof.
  intros Hok Hu Hz Hx HQ. destruct (zok_operand F s σ u x Hok Hu) as (z' & l & Hz' & Hw & _ & Hh & Hv & Hl & _).
  rewrite Hz in Hz'. injection Hz' as <-. pose proof (nlimbs_pos x Hx). destruct l as [|a l]; [cbn in Hl; lia|].
  apply wp_zoom. apply holds_cons in Hh as [Ha _]. eapply wp_load; [done|]. rewrite zmem_id.
  apply Forall_cons in Hw as [Hwa _]. replace a with (Z.abs x mod WB); [done|]. rewrite <- Hv. cbn [val].
  symmetry. apply Z.mod_unique with (val l); [left; exact Hwa|lia].
Qed.

Lemma wp_mpz_get_ui s σ u x Q E :
  zok F s σ → σ !! u = Some (Some x) → Q (Z.abs x mod WB) s → wp (mpz_get_ui u) Q E s.
Proof.
  intros Hok Hu HQ. destruct (zok_operand F s σ u x Hok Hu) as (z & l & Hz & _ & _ & _ & _ & _ & Hs & _).
  unfold mpz_get_ui. apply wp_bind. eapply wp_get_mpz; [done|]. rewrite Hs. destruct (Z.eqb_spec (Z.sgn x * nlimbs x) 0) as [H0|H0].
  - assert (x = 0) as ->; [|by apply wp_ret]. pose proof (size_sgn x) as Hsg. rewrite H0 in Hsg. cbn in Hsg. lia.
  - eapply wp_low_limb; try done. by intros ->.
Qed.

Lemma land_low_bits v : Z.land v low_bits = v mod 2 ^ 63.
Proof. change low_bits with (Z.ones 63). apply Z.land_ones. lia. Qed.

(** What [mpz_get_si] returns of any integer: the value itself when it is a [long] *)
Definition si_of (x : Z) : Z :=
  if x <? 0 then -1 - ((Z.abs x - 1) mod 2 ^ 63) else x mod 2 ^ 63.

Lemma si_of_long x : LONG_MIN ≤ x ≤ LONG_MAX → si_of x = x.
Proof. unfold LONG_MIN, LONG_MAX, si_of. intros Hx. destruct (Z.ltb_spec x 0); rewrite Z.mod_small; lia. Qed.

Lemma mod_half v : (v mod WB) mod 2 ^ 63 = v mod 2 ^ 63.
Proof. change WB with (2 ^ 63 * 2). rewrite Z.rem_mul_r by done. rewrite Z.mul_comm, Z.add_mod, Z.mod_mul, Z.add_0_r, !Z.mod_mod by done. done. Qed.

Lemma wp_mpz_get_si s σ u x Q E :
  zok F s σ → σ !! u = Some (Some x) → Q (si_of x) s → wp (mpz_get_si u) Q E s.
Proof.
  intros Hok Hu HQ. destruct (zok_operand F s σ u x Hok Hu) as (z & l & Hz & _ & _ & _ & _ & _ & Hs & _).
  unfold mpz_get_si. apply wp_bind. eapply wp_get_mpz; [done|]. rewrite Hs, size_neg. unfold si_of in HQ. destruct (Z.ltb_spec x 0).
  - apply wp_bind. eapply wp_low_limb; try done; [lia|]. apply wp_ret. rewrite land_low_bits. unfold u64.
    change (2 ^ 64) with WB. rewrite mod_half, Zminus_mod, mod_half, <- Zminus_mod. exact HQ.
  - apply wp_bind. eapply wp_mpz_get_ui; try done. apply wp_ret. rewrite land_low_bits, mod_half. by rewrite Z.abs_eq in * by lia.
Qed.

Lemma wp_mpz_fits_slong_p s σ u x Q E :
  zok F s σ → σ !! u = Some (Some x) → Q (bool_decide (LONG_MIN ≤ x ≤ LONG_MAX)) s → wp (mpz_fits_slong_p u) Q E s.
Proof.
  intros Hok Hu HQ. destruct (zok_operand F s σ u x Hok Hu) as (z & l & Hz & _ & _ & _ & _ & _ & Hs & _).
  unfold mpz_fits_slong_p. apply wp_bind. eapply wp_get_mpz; [done|]. rewrite Hs.
  assert (∀ b : bool, (b = true ↔ LONG_MIN ≤ x ≤ LONG_MAX) → Q b s) as HQb.
  { intros b Hb. replace b with (bool_decide (LONG_MIN ≤ x ≤ LONG_MAX)); [done|]. destruct b; [by apply bool_decide_true, Hb|].
    apply bool_decide_false. intros Hl. by apply Hb in Hl. }
  unfold LONG_MIN, LONG_MAX in *. destruct (Z.eqb_spec (Z.sgn x * nlimbs x) 1) as [H1|H1].
  - apply size_is in H1 as [Hsg [Hx Hb]%nlimbs_1]; [|done]. apply wp_bind. eapply wp_low_limb; try done. apply wp_ret, HQb.
    rewrite Z.mod_small by lia. cbn in Hsg. destruct (Z.ltb_spec (Z.abs x) GMP_LIMB_HIGHBIT) as [Hh|Hh]; change GMP_LIMB_HIGHBIT with 9223372036854775808 in Hh;
      (split; [lia || done|done || (intros; lia)]).
  - destruct (Z.eqb_spec (Z.sgn x * nlimbs x) (-1)) as [H2|H2].
    + apply size_is in H2 as [Hsg [Hx Hb]%nlimbs_1]; [|done]. apply wp_bind. eapply wp_low_limb; try done. apply wp_ret, HQb.
      rewrite Z.mod_small by lia. cbn in Hsg. destruct (Z.leb_spec (Z.abs x) GMP_LIMB_HIGHBIT) as [Hh|Hh]; change GMP_LIMB_HIGHBIT with 9223372036854775808 in Hh;
        (split; [lia || done|done || (intros; lia)]).
    + apply wp_ret, HQb. destruct (Z.eqb_spec (Z.sgn x * nlimbs x) 0) as [H0|H0].
      * assert (x = 0) as ->; [|lia]. pose proof (size_sgn x) as Hsg. rewrite H0 in Hsg. cbn in Hsg. lia.
      * split; [done|]. intros Hl. exfalso. assert (x ≠ 0) by (by intros ->). assert (nlimbs x = 1) as Hn by (apply nlimbs_1; unfold WB; lia).
        rewrite Hn in *. lia.
Qed.

(** ** Comparison with words and of absolute values *)

Lemma wp_mpz_sgn s σ u x Q E :
  zok F s σ → σ !! u = Some (Some x) → Q (Z.sgn x) s → wp (mpz_sgn u) Q E s.
Proof.
  intros Hok Hu HQ. destruct (zok_operand F s σ u x Hok Hu) as (z & l & Hz & _ & _ & _ & _ & _ & Hs & _).
  unfold mpz_sgn. apply wp_bind. eapply wp_get_mpz; [done|]. apply wp_ret. rewrite Hs, GMP_CMP_compare.
  replace (cmp_result (Z.sgn x * nlimbs x ?= 0)) with (Z.sgn x); [done|]. rewrite <- (size_sgn x) at 1.
  destruct (Z.compare_spec (Z.sgn x * nlimbs x) 0) as [->|?|?]; cbn; lia.
Qed.

Lemma wp_mpz_cmp_ui s σ u x v Q E :
  zok F s σ → σ !! u = Some (Some x) → 0 ≤ v < WB → Q (cmp_result (x ?= v)) s → wp (mpz_cmp_ui u v) Q E s.
Proof.
  intros Hok Hu Hv HQ. destruct (zok_operand F s σ u x Hok Hu) as (z & l & Hz & _ & _ & _ & _ & _ & Hs & _).
  unfold mpz_cmp_ui. apply wp_bind. eapply wp_get_mpz; [done|]. rewrite Hs, size_neg.
  pose proof (nlimbs_nonneg x) as Hnn. destruct (Z.ltb_spec 1 (Z.sgn x * nlimbs x)) as [Hb|Hb].
  - assert (WB ≤ Z.abs x) by (apply size_big; nia). assert (0 < x) by nia. apply wp_ret. by rewrite cmp_gt in HQ by lia.
  - destruct (Z.ltb_spec x 0); [apply wp_ret; by rewrite cmp_lt in HQ by lia|]. apply wp_bind.
    eapply wp_mpz_get_ui; try done. apply wp_ret. rewrite GMP_CMP_compare.
    assert (Z.abs x < WB) as Hlt; [|by rewrite Z.abs_eq, Z.mod_small by lia].
    destruct (Z.lt_ge_cases (Z.abs x) WB) as [|Hge]; [done|]. apply size_big in Hge. rewrite (Z.sgn_pos x) in Hb by (destruct (Z.eq_dec x 0) as [->|]; [done|lia]). lia.
Qed.

Lemma wp_mpz_cmp_si s σ u x v Q E :
  zok F s σ → σ !! u = Some (Some x) → LONG_MIN ≤ v ≤ LONG_MAX → Q (cmp_result (x ?= v)) s → wp (mpz_cmp_si u v) Q E s.
Proof.
  intros Hok Hu Hv HQ. destruct (zok_operand F s σ u x Hok Hu) as (z & l & Hz & _ & _ & _ & _ & _ & Hs & _).
  unfold LONG_MIN, LONG_MAX in Hv. unfold mpz_cmp_si. apply wp_bind. eapply wp_get_mpz; [done|]. rewrite Hs, size_nonneg.
  pose proof (nlimbs_nonneg x) as Hnn. destruct (Z.ltb_spec (Z.sgn x * nlimbs x) (-1)) as [Hb|Hb].
  - assert (WB ≤ Z.abs x) as Hge by (apply size_big; nia). assert (x < 0) by nia. unfold WB in Hge. apply wp_ret. by rewrite cmp_lt in HQ by lia.
  - destruct (Z.leb_spec 0 v); [eapply wp_mpz_cmp_ui; try done; unfold WB; lia|].
    destruct (Z.leb_spec 0 x); [apply wp_ret; by rewrite cmp_gt in HQ by lia|]. apply wp_bind. eapply wp_low_limb; try done; [lia|].
    apply wp_ret. rewrite GMP_CMP_compare, neg_cast by lia.
    assert (Z.abs x < WB) as Hlt.
    { destruct (Z.lt_ge_cases (Z.abs x) WB) as [|Hge]; [done|]. apply size_big in Hge. rewrite (Z.sgn_neg x) in Hb by lia. lia. }
    rewrite Z.mod_small by lia. replace (Z.abs x) with (- x) by lia. by rewrite Z.compare_opp.
Qed.

Lemma wp_mpz_cmpabs_ui s σ u x v Q E :
  zok F s σ → σ !! u = Some (Some x) → 0 ≤ v < WB → Q (cmp_result (Z.abs x ?= v)) s → wp (mpz_cmpabs_ui u v) Q E s.
Proof.
  intros Hok Hu Hv HQ. destruct (zok_operand F s σ u x Hok Hu) as (z & l & Hz & _ & _ & _ & _ & _ & Hs & _).
  unfold mpz_cmpabs_ui. apply wp_bind. eapply wp_get_mpz; [done|]. rewrite Hs, size_abs. destruct (Z.ltb_spec 1 (nlimbs x)) as [Hb|Hb].
  - apply size_big in Hb. apply wp_ret. by rewrite cmp_gt in HQ by lia.
  - apply wp_bind. eapply wp_mpz_get_ui; try done. apply wp_ret. rewrite GMP_CMP_compare. rewrite Z.mod_small; [done|].
    destruct (Z.lt_ge_cases (Z.abs x) WB) as [|Hge]; [lia|]. apply size_big in Hge. lia.
Qed.

Lemma wp_mpz_cmpabs s σ u x v y Q E :
  zok F s σ → σ !! u = Some (Some x) → σ !! v = Some (Some y) → Q (cmp_result (Z.abs x ?= Z.abs y)) s → wp (mpz_cmpabs u v) Q E s.
Proof.
  intros Hok Hu Hv HQ. destruct (zok_operand F s σ u x Hok Hu) as (zu & lu & Hzu & Hwu & Hnu & Hhu & Hvu & Hlu & Hsu & _).
  destruct (zok_operand F s σ v y Hok Hv) as (zv & lv & Hzv & Hwv & Hnv & Hhv & Hvv & Hlv & Hsv & _).
  unfold mpz_cmpabs. do 2 (apply wp_bind; eapply wp_get_mpz; [done|]). rewrite Hsu, Hsv, !size_abs, <- Hlu, <- Hlv.
  apply wp_zoom. eapply wp_mpn_cmp4; try done. rewrite zmem_id, Hvu, Hvv. exact HQ.
Qed.

(** ** Multiplication by a power of two *)

Lemma ok_down_start (p q : ptr) n k : p.2 = 0 → q.2 = 0 → 0 ≤ k → ok_down (padd p k) q n.
Proof. intros Hp Hq Hk. right. left. unfold padd. cbn. lia. Qed.

Lemma shift_value a bits : 0 ≤ bits → a * 2 ^ bits = WB ^ (bits / 64) * (a * 2 ^ (bits mod 64)).
Proof.
  intros Hb. change WB with (2 ^ 64). rewrite <- Z.pow_mul_r by (try apply Z.div_pos; lia).
  pose proof (Z.mod_pos_bound bits 64 ltac:(lia)). pose proof (Z.div_pos bits 64 Hb ltac:(lia)).
  rewrite (Z.div_mod bits 64) at 1 by lia. rewrite Z.pow_add_r by lia. lia.
Qed.

Lemma words_zeros k : words (replicate k 0).
Proof. apply Forall_replicate. unfold word, WB. lia. Qed.

Lemma normal_shifted k l : words l → wpow (length l - 1) ≤ val l → normal (replicate k 0 ++ l).
Proof.
  intros Hw Hb. pose proof (normal_of_bound l Hw Hb) as Hn. destruct (decide (l = [])) as [->|Hne].
  - cbn in Hb. rewrite wpow_0 in Hb. lia.
  - destruct l as [|y l _] using rev_ind; [done|]. intros x Hx. apply Hn. by rewrite app_assoc, last_snoc in Hx; rewrite last_snoc.
Qed.

Lemma space_part m p n k j : space m p n → (k + j ≤ n)%nat → space m (padd p (Z.of_nat k)) j.
Proof. intros Hs Hle. eapply (space_app m p k j). eapply space_sub; [exact Hs|done]. Qed.

Lemma wp_mpz_mul_2exp s σ r w u x bits Q E :
  zok F s σ → σ !! r = Some (Some w) → σ !! u = Some (Some x) → 0 ≤ bits → nlimbs x + bits / 64 < INT_MAX →
  (∀ s', zok F s' (<[r := Some (x * 2 ^ bits)]> σ) → Q tt s') → wp (mpz_mul_2exp r u bits) Q E s.
Proof.
  intros Hok Hr Hu Hbits Hn HQ. destruct (zok_operand F s σ u x Hok Hu) as (zu & _ & Hzu & _ & _ & _ & _ & _ & Hsu & _).
  unfold mpz_mul_2exp. apply wp_bind. eapply wp_get_mpz; [done|]. rewrite Hsu, size_abs. unfold GMP_LIMB_BITS.
  destruct (Z.eqb_spec (nlimbs x) 0) as [H0|H0].
  { assert (x = 0) as -> by (destruct (Z.eq_dec x 0) as [|Hx]; [done|pose proof (nlimbs_pos x Hx); lia]). eapply wp_set_size_0; try done. }
  assert (x ≠ 0) as Hx by (by intros ->). pose proof (nlimbs_pos x Hx) as Hpos. pose proof (Z.mod_pos_bound bits 64 ltac:(lia)) as Hsh.
  pose proof (Z.div_pos bits 64 Hbits ltac:(lia)) as Hlm. pose proof (shift_value (Z.abs x) bits Hbits) as Hval.
  set (lm := bits / 64) in *. set (sh := bits mod 64) in *. clearbody lm sh. destruct (Z_of_nat_complete lm Hlm) as [k ->].
  apply wp_bind. eapply wp_realloc_target; try done; [destruct (0 <? sh); cbn; lia|]. intros z s1 Hz Hal Hz0 Hs Hk Hok1.
  destruct (zok_operand F s1 σ u x Hok1 Hu) as (zu1 & la & Hzu1 & Hwa & Hna & Hha & Hva & Hla & Hsu1 & _ & H0a).
  assert ((mp_size zu1 <? 0) = (x <? 0)) as Hneg by (by rewrite Hsu1, size_neg).
  apply wp_bind. eapply wp_get_mpz; [done|]. rewrite <- Hla in *. assert (la ≠ []) as Hne by (intros ->; cbn in Hpos; lia).
  pose proof (normal_bound la Hwa Hna Hne) as Hlow. assert (0 < length la)%nat as Hl0 by (destruct la; [done|cbn; lia]).
  assert (∀ l s2, written F s σ r l s2 → val l = Z.abs x * 2 ^ bits → z_vars s2 !! u = Some zu1 →
    wp (zu ← get_mpz u; set_size r (if mp_size zu <? 0 then - Z.of_nat (length l) else Z.of_nat (length l))) Q E s2) as Hfin.
  { intros l s2 Hw2 Hv2 Hzu2. apply wp_bind. eapply wp_get_mpz; [done|]. rewrite Hneg.
    destruct (Z.ltb_spec x 0); (eapply wp_set_size_written; [done|lia| |exact HQ]); rewrite ?Z.sgn_opp, ?Z.mul_opp_l, sgn_length; nia. }
  apply wp_bind. destruct (Z.ltb_spec 0 sh) as [Hpos2|Hz2]; cbn [b2z] in *.
  - apply wp_bind, wp_zoom. eapply (wp_mpn_lshift _ _ la); try done; [lia|eapply space_part; [done|lia]|by apply ok_down_start; lia|].
    intros rl c m2 Hl Hwl Hc Hvl Hw2. apply wp_bind, wp_zoom. cbn [z_mem set_zmem].
    replace (padd (mp_d z) (Z.of_nat (length la) + Z.of_nat k + 1 - 1)) with (padd (padd (mp_d z) (Z.of_nat k)) (Z.of_nat (length rl)))
      by (rewrite padd_padd, Hl; f_equal; lia).
    apply wp_store_writes; [rewrite padd_padd, <- Nat2Z.inj_add; apply Hw2, Hs; lia|]. intros m3 Hw3. apply wp_ret, wp_bind, wp_zoom. cbn [z_mem set_zmem].
    pose proof (writes_app _ _ _ _ _ _ Hw2 Hw3) as Hw4. apply wp_mpn_zero; [eapply writes_space; [exact Hw4|eapply space_sub; [exact Hs|lia]]|]. intros m5 Hw5.
    pose proof (writes_app_down (z_mem s1) (mp_d z) (replicate k 0) (rl ++ [c]) m3 m5) as Hw6. rewrite length_replicate in Hw6. specialize (Hw6 Hw4 Hw5).
    destruct (with_carry F (replicate k 0 ++ rl) c s s1 σ r z m5) as (l & Hwr & Hvl2 & Hll); try done.
    + rewrite length_app, length_replicate. lia.
    + by rewrite <- app_assoc.
    + apply Forall_app. split; [by apply words_zeros|done].
    + split; [lia|]. apply Z.lt_trans with (2 ^ sh); [lia|]. change WB with (2 ^ 64). apply Z.pow_lt_mono_r; lia.
    + intros ->. apply normal_shifted; [done|]. rewrite Hl. pose proof (wpow_pos (length la - 1)). assert (1 ≤ 2 ^ sh) by (pose proof (Z.pow_pos_nonneg 2 sh); lia). nia.
    + rewrite length_app, length_replicate in *. rewrite val_app, val_zeros, length_replicate, wpow_add in Hvl2.
      replace (Z.of_nat (length la) + Z.of_nat k + 1 - b2z (c =? 0)) with (Z.of_nat (length l))
        by (rewrite Hll, Hl; destruct (Z.ltb_spec 0 c), (Z.eqb_spec c 0); cbn; lia).
      eapply Hfin; try done. rewrite Hl in Hvl2. rewrite Hval, Hvl2, <- Hva, <- Hvl. unfold wpow. ring.
  - assert (sh = 0) as -> by lia. apply wp_bind, wp_zoom.
    apply wp_mpn_copyd; [done|eapply space_part; [done|lia]|by apply ok_down_start; lia|]. intros m2 Hw2. apply wp_ret, wp_bind, wp_zoom. cbn [z_mem set_zmem].
    apply wp_mpn_zero; [eapply writes_space; [exact Hw2|eapply space_sub; [exact Hs|lia]]|]. intros m5 Hw5.
    pose proof (writes_app_down (z_mem s1) (mp_d z) (replicate k 0) la m2 m5) as Hw6. rewrite length_replicate in Hw6. specialize (Hw6 Hw2 Hw5).
    assert (written F s σ r (replicate k 0 ++ la) (set_zmem m5 s1)) as Hwr.
    { eapply zok_written; try done.
      - rewrite length_app, length_replicate. lia.
      - eapply changed_block; [exact Hw6|]. rewrite length_app, length_replicate. lia.
      - apply Hw6.
      - apply Forall_app. split; [by apply words_zeros|done].
      - by apply normal_shifted. }
    replace (Z.of_nat (length la) + Z.of_nat k + 0) with (Z.of_nat (length (replicate k 0 ++ la))) by (rewrite length_app, length_replicate; lia).
    eapply Hfin; try done. rewrite val_app, val_zeros, length_replicate, Hval. unfold wpow. lia.
Qed.
End conv.
