(* ===== verification/MpzQuo.v ===== *)
(** * Integer division by powers of two and by words
    (examples/multiprecision/mini-gmp/mini-gmp.c)

    [mpz_div_q_2exp], [mpz_div_r_2exp], [mpz_div_qr_ui] and the functions made of them;
    exact division, divisibility and congruence. *)

From S2P Require Import Prelude CString Queue State UInt64 Mpn MpnDiv Mpz.

(** ** Powers of two *)

(** [mode == ((us > 0) ? GMP_DIV_CEIL : GMP_DIV_FLOOR)]: away from zero *)
Definition rounds_away (mode : mpz_div_round_mode) (us : Z) : bool :=
  bool_decide (mode = if 0 <? us then GMP_DIV_CEIL else GMP_DIV_FLOOR).

Definition mpz_div_q_2exp (q u : mpz_t) (bit_index : Z) (mode : mpz_div_round_mode) : MZ unit :=
  zu ← get_mpz u;
  let un := mp_size zu in
  if un =? 0 then set_size q 0
  else
    let limb_cnt := bit_index / GMP_LIMB_BITS in
    let qn := Z.abs un - limb_cnt in
    let bit_index := bit_index mod GMP_LIMB_BITS in
    adjust ← (if rounds_away mode un then
                if qn <=? 0 then mret true
                else
                  low ← limbs (mpn_zero_p (mp_d zu) limb_cnt);
                  if negb low then mret true
                  else
                    x ← limbs (load (padd (mp_d zu) limb_cnt));
                    mret (negb (Z.land x (u64 (Z.shiftl 1 bit_index - 1)) =? 0))
              else mret false);
    qn ← (if qn <=? 0 then mret 0
          else
            qp ← MPZ_REALLOC q qn;
            zu ← get_mpz u;
            if negb (bit_index =? 0) then
              _ ← limbs (mpn_rshift qp (padd (mp_d zu) limb_cnt) qn bit_index);
              x ← limbs (load (padd qp (qn - 1)));
              mret (qn - b2z (x =? 0))
            else
              _ ← limbs (mpn_copyi qp (padd (mp_d zu) limb_cnt) qn);
              mret qn);
    _ ← set_size q qn;
    _ ← (if adjust : bool then mpz_add_ui q q 1 else mret tt);
    if un <? 0 then mpz_neg q q else mret tt.

(** [for (i = un; i < rn - 1; i++) rp[i] = GMP_LIMB_MAX;] *)
Fixpoint fill_max (n : nat) (rp : ptr) (i : Z) : L unit :=
  match n with
  | O => mret tt
  | S n => _ ← store (padd rp i) GMP_LIMB_MAX; fill_max n rp (i + 1)
  end.

Definition mpz_div_r_2exp (r u : mpz_t) (bit_index : Z) (mode : mpz_div_round_mode) : MZ unit :=
  zu ← get_mpz u;
  let us := mp_size zu in
  if (us =? 0) || (bit_index =? 0) then set_size r 0
  else
    let rn := u64 (u64 (bit_index + GMP_LIMB_BITS) - 1) / GMP_LIMB_BITS in
    _ ← zassert (0 <? rn);
    rp ← MPZ_REALLOC r rn;
    let un := Z.abs us in
    let mask := Z.shiftr GMP_LIMB_MAX (u64 (u64 (rn * GMP_LIMB_BITS) - bit_index)) in
    zu ← get_mpz u;
    '(us, rn) ←
      (if un <? rn then
         if rounds_away mode us then
           _ ← limbs (nz ← mpn_neg rp (mp_d zu) un; massert (negb (nz =? 0)));
           _ ← limbs (fill_max (Z.to_nat (rn - 1 - un)) rp un);
           _ ← limbs (store (padd rp (rn - 1)) mask);
           mret (- us, rn)
         else
           _ ← (if negb (bool_decide (r = u)) then limbs (mpn_copyi rp (mp_d zu) un) else mret tt);
           mret (us, un)
       else
         _ ← (if negb (bool_decide (r = u)) then limbs (mpn_copyi rp (mp_d zu) (rn - 1)) else mret tt);
         x ← limbs (load (padd (mp_d zu) (rn - 1)));
         _ ← limbs (store (padd rp (rn - 1)) (Z.land x mask));
         if rounds_away mode us then
           _ ← limbs (mpn_neg rp rp rn);
           x ← limbs (load (padd rp (rn - 1)));
           _ ← limbs (store (padd rp (rn - 1)) (Z.land x mask));
           mret (- us, rn)
         else mret (us, rn));
    rn ← limbs (mpn_normalized_size rp rn);
    set_size r (if us <? 0 then - rn else rn).

Definition mpz_cdiv_q_2exp (r u : mpz_t) (cnt : Z) : MZ unit := mpz_div_q_2exp r u cnt GMP_DIV_CEIL.
Definition mpz_fdiv_q_2exp (r u : mpz_t) (cnt : Z) : MZ unit := mpz_div_q_2exp r u cnt GMP_DIV_FLOOR.
Definition mpz_tdiv_q_2exp (r u : mpz_t) (cnt : Z) : MZ unit := mpz_div_q_2exp r u cnt GMP_DIV_TRUNC.
Definition mpz_cdiv_r_2exp (r u : mpz_t) (cnt : Z) : MZ unit := mpz_div_r_2exp r u cnt GMP_DIV_CEIL.
Definition mpz_fdiv_r_2exp (r u : mpz_t) (cnt : Z) : MZ unit := mpz_div_r_2exp r u cnt GMP_DIV_FLOOR.
Definition mpz_tdiv_r_2exp (r u : mpz_t) (cnt : Z) : MZ unit := mpz_div_r_2exp r u cnt GMP_DIV_TRUNC.

(** ** Exact division, divisibility, congruence *)

Definition mpz_divexact (q n d : mpz_t) : MZ unit :=
  cy ← mpz_div_qr (Some q) None n d GMP_DIV_TRUNC; zassert (negb cy).

Definition mpz_divisible_p (n d : mpz_t) : MZ bool :=
  nz ← mpz_div_qr None None n d GMP_DIV_TRUNC; mret (negb nz).

Definition mpz_congruent_p (a b m : mpz_t) : MZ bool :=
  sg ← mpz_sgn m;
  if sg =? 0 then c ← mpz_cmp a b; mret (c =? 0)
  else
    t ← local_mpz;
    _ ← mpz_init t;
    _ ← mpz_sub t a b;
    res ← mpz_divisible_p t m;
    _ ← mpz_clear t;
    mret res.

(** ** Words *)

Definition mpz_div_qr_ui (q r : option mpz_t) (n : mpz_t) (d : Z) (mode : mpz_div_round_mode) : MZ Z :=
  zn ← get_mpz n;
  let ns := mp_size zn in
  if ns =? 0 then
    _ ← when_some q (λ q, set_size q 0);
    _ ← when_some r (λ r, set_size r 0);
    mret 0
  else
    let qn := Z.abs ns in
    qp ← (match q with
          | Some q => qp ← MPZ_REALLOC q qn; mret (Some qp)
          | None => mret None
          end);
    zn ← get_mpz n;
    rl ← limbs (mpn_div_qr_1 qp (mp_d zn) qn d);
    _ ← zassert (rl <? d);
    let rs := if ns <? 0 then - b2z (0 <? rl) else b2z (0 <? rl) in
    '(rl, rs) ←
      (if (0 <? rl) && ((bool_decide (mode = GMP_DIV_FLOOR) && (ns <? 0)) || (bool_decide (mode = GMP_DIV_CEIL) && (0 <=? ns))) then
         _ ← (match qp with Some qp => zassert_nocarry (mpn_add_1 qp qp qn 1) | None => mret tt end);
         mret (u64 (d - rl), - rs)
       else mret (rl, rs));
    _ ← when_some r (λ r, rp ← MPZ_REALLOC r 1; _ ← limbs (store rp rl); set_size r rs);
    _ ← (match q, qp with
         | Some q, Some qp =>
            x ← limbs (load (padd qp (qn - 1)));
            let qn := qn - b2z (x =? 0) in
            _ ← (if qn =? 0 then mret tt
                 else x ← limbs (load (padd qp (qn - 1))); zassert (0 <? x));
            set_size q (if ns <? 0 then - qn else qn)
         | _, _ => mret tt
         end);
    mret rl.

Definition mpz_cdiv_qr_ui (q r n : mpz_t) (d : Z) : MZ Z := mpz_div_qr_ui (Some q) (Some r) n d GMP_DIV_CEIL.
Definition mpz_fdiv_qr_ui (q r n : mpz_t) (d : Z) : MZ Z := mpz_div_qr_ui (Some q) (Some r) n d GMP_DIV_FLOOR.
Definition mpz_tdiv_qr_ui (q r n : mpz_t) (d : Z) : MZ Z := mpz_div_qr_ui (Some q) (Some r) n d GMP_DIV_TRUNC.
Definition mpz_cdiv_q_ui (q n : mpz_t) (d : Z) : MZ Z := mpz_div_qr_ui (Some q) None n d GMP_DIV_CEIL.
Definition mpz_fdiv_q_ui (q n : mpz_t) (d : Z) : MZ Z := mpz_div_qr_ui (Some q) None n d GMP_DIV_FLOOR.
Definition mpz_tdiv_q_ui (q n : mpz_t) (d : Z) : MZ Z := mpz_div_qr_ui (Some q) None n d GMP_DIV_TRUNC.
Definition mpz_cdiv_r_ui (r n : mpz_t) (d : Z) : MZ Z := mpz_div_qr_ui None (Some r) n d GMP_DIV_CEIL.
Definition mpz_fdiv_r_ui (r n : mpz_t) (d : Z) : MZ Z := mpz_div_qr_ui None (Some r) n d GMP_DIV_FLOOR.
Definition mpz_tdiv_r_ui (r n : mpz_t) (d : Z) : MZ Z := mpz_div_qr_ui None (Some r) n d GMP_DIV_TRUNC.
Definition mpz_cdiv_ui (n : mpz_t) (d : Z) : MZ Z := mpz_div_qr_ui None None n d GMP_DIV_CEIL.
Definition mpz_fdiv_ui (n : mpz_t) (d : Z) : MZ Z := mpz_div_qr_ui None None n d GMP_DIV_FLOOR.
Definition mpz_tdiv_ui (n : mpz_t) (d : Z) : MZ Z := mpz_div_qr_ui None None n d GMP_DIV_TRUNC.
Definition mpz_mod_ui (r n : mpz_t) (d : Z) : MZ Z := mpz_div_qr_ui None (Some r) n d GMP_DIV_FLOOR.

Definition mpz_divexact_ui (q n : mpz_t) (d : Z) : MZ unit :=
  cy ← mpz_div_qr_ui (Some q) None n d GMP_DIV_TRUNC; zassert (cy =? 0).
Definition mpz_divisible_ui_p (n : mpz_t) (d : Z) : MZ bool :=
  rl ← mpz_div_qr_ui None None n d GMP_DIV_TRUNC; mret (rl =? 0).
