(* ===== verification/MpzQuoThm.v ===== *)
(** * Integer division by powers of two and by words: correctness *)

From S2P Require Import Prelude CString Queue State UInt64 Mpn MpnMem MpnThm MpnBits MpnDiv MpnInv MpnDivThm MpnDivPi1 MpnCorrect MpnDivQr MpnStr MpnStrThm MpnSetStr Mpz MpzRep MpzArith MpzMul MpzDiv MpzConv MpzQuo.

(** ** Arithmetic *)

#[export] Instance divide_dec (a b : Z) : Decision (a | b).
Proof. refine (cast_if (decide (Z.gcd (Z.abs a) b = Z.abs a))); rewrite <- Z.divide_abs_l; by rewrite Z.divide_gcd_iff by lia. Defined.

Lemma wpow_nz k : wpow k ≠ 0.
Proof. pose proof (wpow_pos k). lia. Qed.

Lemma pow2_split b : 0 ≤ b → 2 ^ b = wpow (Z.to_nat (b / 64)) * 2 ^ (b mod 64).
Proof.
  intros Hb. pose proof (shift_value 1 b Hb) as H. unfold wpow. rewrite Z2Nat.id by (apply Z.div_pos; lia). lia.
Qed.

(** The bits below [64 k + sh] and those from there on *)
Lemma split_div lo hi sh : 0 ≤ sh → words lo →
  val (lo ++ hi) / (wpow (length lo) * 2 ^ sh) = val hi / 2 ^ sh ∧
  val (lo ++ hi) mod (wpow (length lo) * 2 ^ sh) = val lo + wpow (length lo) * (val hi mod 2 ^ sh).
Proof.
  intros Hsh Hw. pose proof (val_bound lo Hw) as Hb. pose proof (wpow_pos (length lo)) as Hp. pose proof (Z.pow_pos_nonneg 2 sh ltac:(lia) ltac:(lia)).
  assert (val (lo ++ hi) / wpow (length lo) = val hi) as Hd.
  { rewrite val_app. symmetry. apply Z.div_unique with (val lo); lia. }
  split; [by rewrite <- Z.div_div, Hd by lia|]. rewrite Z.rem_mul_r, Hd by lia. f_equal. rewrite val_app. symmetry. apply Z.mod_unique with (val hi); lia.
Qed.

Lemma mod_low_limb h hi sh : 0 ≤ sh < 64 → val (h :: hi) mod 2 ^ sh = h mod 2 ^ sh.
Proof.
  intros Hsh. cbn [val]. change WB with (2 ^ 64). replace 64 with (sh + (64 - sh)) by lia. rewrite Z.pow_add_r by lia.
  rewrite <- Z.mul_assoc, (Z.mul_comm (2 ^ sh)). apply Z.mod_add. apply Z.pow_nonzero; lia.
Qed.

Lemma zero_low_bits h sh : 0 ≤ sh < 64 → Z.land h (u64 (Z.shiftl 1 sh - 1)) = h mod 2 ^ sh.
Proof.
  intros Hsh. rewrite Z.shiftl_1_l, u64_small.
  - replace (2 ^ sh - 1) with (Z.ones sh) by (rewrite Z.ones_equiv; lia). apply Z.land_ones. lia.
  - pose proof (Z.pow_pos_nonneg 2 sh). assert (2 ^ sh ≤ 2 ^ 63) by (apply Z.pow_le_mono_r; lia). unfold WB. lia.
Qed.

Lemma wp_mpn_zero_p p l m Q E : words l → holds m p l → Q (val l =? 0) m → wp (mpn_zero_p p (Z.of_nat (length l))) Q E m.
Proof.
  intros Hw Hh HQ. unfold mpn_zero_p. apply wp_bind, wp_mpn_normalized_size; [done|]. intros k Hk Hn Hl. apply wp_ret.
  replace (Z.of_nat k =? 0) with (val l =? 0); [done|]. rewrite Hl at 1. rewrite val_app, val_zeros, Z.mul_0_r, Z.add_0_r.
  destruct k as [|k]; [done|]. rewrite (proj2 (Z.eqb_neq (Z.of_nat (S k)) 0)) by lia. apply Z.eqb_neq.
  assert (length (take (S k) l) = S k) as Hlen by (rewrite length_take; lia).
  pose proof (normal_bound (take (S k) l) ltac:(by apply Forall_take) Hn ltac:(by intros Hnil; rewrite Hnil in Hlen)).
  pose proof (wpow_pos (length (take (S k) l) - 1)). lia.
Qed.

(** Quotient and remainder of a division by a positive number, by the rounding *)
Definition away (mode : mpz_div_round_mode) (x : Z) : bool := rounds_away mode (Z.sgn x * nlimbs x).

Lemma away_spec mode x : x ≠ 0 → away mode x = bool_decide (mode = if 0 <? x then GMP_DIV_CEIL else GMP_DIV_FLOOR).
Proof.
  intros Hx. unfold away, rounds_away. pose proof (nlimbs_pos x Hx). destruct (Z.ltb_spec 0 x).
  - by rewrite (proj2 (Z.ltb_lt 0 (Z.sgn x * nlimbs x))) by nia.
  - by rewrite (proj2 (Z.ltb_ge 0 (Z.sgn x * nlimbs x))) by nia.
Qed.

Lemma div_round_abs mode x d : x ≠ 0 → 0 < d →
  let up := away mode x && negb (Z.abs x mod d =? 0) in
  div_round mode x d = (Z.sgn x * (Z.abs x / d + b2z up), Z.sgn x * (if up then Z.abs x mod d - d else Z.abs x mod d)).
Proof.
  intros Hx Hd up. pose proof (Z.div_mod (Z.abs x) d ltac:(lia)) as Hdm. pose proof (Z.mod_pos_bound (Z.abs x) d Hd) as Hb. subst up.
  set (q := Z.abs x / d) in *. set (r := Z.abs x mod d) in *. clearbody q r. rewrite away_spec by done.
  destruct (Z.ltb_spec 0 x); [rewrite (Z.sgn_pos x) by lia|rewrite (Z.sgn_neg x) by lia]; apply div_round_unique; try lia;
    case_bool_decide; destruct (Z.eqb_spec r 0); cbn [andb negb b2z]; subst; try lia; try nia; destruct mode; try done; try lia; nia.
Qed.

Lemma normal_tail lo hi : hi ≠ [] → normal (lo ++ hi) → normal hi.
Proof.
  intros Hne Hn y Hy. apply Hn. destruct hi as [|h hi _] using rev_ind; [done|]. by rewrite app_assoc, last_snoc; rewrite last_snoc in Hy.
Qed.

(** A result without its highest limb when that is 0 *)
Lemma trim_top rl : words rl → rl ≠ [] → ((2 ≤ length rl)%nat → wpow (length rl - 2) ≤ val rl) →
  ∃ l top, rl !! (length rl - 1)%nat = Some top ∧ words l ∧ normal l ∧ val l = val rl ∧
    Z.of_nat (length l) = Z.of_nat (length rl) - b2z (top =? 0) ∧ (∀ m p, holds m p rl → holds m p l).
Proof.
  intros Hw Hne Hb. destruct rl as [|top rl _] using rev_ind; [done|]. rewrite length_app in *. cbn [length] in *.
  assert ((rl ++ [top]) !! (length rl + 1 - 1)%nat = Some top) as Htop by (rewrite Nat.add_sub; by apply list_lookup_middle).
  pose proof Hw as [Hwr _]%Forall_app. destruct (Z.eqb_spec top 0) as [->|H0].
  - exists rl, 0. rewrite val_app in *. cbn [val b2z] in *. split_and!; try done; try (cbn; lia).
    + destruct (decide (rl = [])) as [->|Hr]; [by intros y|]. assert (0 < length rl)%nat by (destruct rl; [done|cbn; lia]).
      apply normal_of_bound; [done|]. specialize (Hb ltac:(lia)). replace (length rl + 1 - 2)%nat with (length rl - 1)%nat in Hb by lia. lia.
    + by intros m p [? _]%holds_app.
  - exists (rl ++ [top]), top. rewrite (proj2 (Z.eqb_neq top 0)) by done. rewrite length_app. cbn [b2z length]. split_and!; try done; [|lia].
    intros y Hy. rewrite last_snoc in Hy. by injection Hy as <-.
Qed.

Lemma abs_ge_pow x : x ≠ 0 → WB ^ (nlimbs x - 1) ≤ Z.abs x.
Proof.
  intros Hx. destruct (Z.le_gt_cases (WB ^ (nlimbs x - 1)) (Z.abs x)); [done|]. pose proof (nlimbs_pos x Hx).
  pose proof (nlimbs_bound x (nlimbs x - 1) ltac:(lia) ltac:(done)). lia.
Qed.

Section quo.
Context (F : mem).
Implicit Types (s : zstate) (σ : gmap positive (option Z)).

(** ** Quotient *)

(** Whether bits are lost *)
Lemma wp_lost_bits s σ u x z b Q E :
  zok F s σ → σ !! u = Some (Some x) → z_vars s !! u = Some z → x ≠ 0 → 0 ≤ b →
  Q (negb (Z.abs x mod 2 ^ b =? 0)) s →
  wp (if nlimbs x - b / 64 <=? 0 then mret true
      else
        low ← limbs (mpn_zero_p (mp_d z) (b / 64));
        if negb low then mret true
        else
          y ← limbs (load (padd (mp_d z) (b / 64)));
          mret (negb (Z.land y (u64 (Z.shiftl 1 (b mod 64) - 1)) =? 0))) Q E s.
Proof.
  intros Hok Hu Hz Hx Hb HQ. destruct (zok_operand F s σ u x Hok Hu) as (z' & l & Hz' & Hw & Hn & Hh & Hv & Hl & _).
  rewrite Hz in Hz'. injection Hz' as <-. pose proof (Z.div_pos b 64 Hb ltac:(lia)) as Hk. pose proof (Z.mod_pos_bound b 64 ltac:(lia)) as Hsh.
  rewrite pow2_split in HQ by done. destruct (Z.leb_spec (nlimbs x - b / 64) 0) as [Hle|Hgt].
  { apply wp_ret. rewrite Z.mod_small, (proj2 (Z.eqb_neq _ _)) in HQ; [done|lia|]. split; [lia|]. pose proof (abs_lt_pow x).
    pose proof (Z.pow_pos_nonneg 2 (b mod 64)). assert (WB ^ nlimbs x ≤ wpow (Z.to_nat (b / 64))); [|nia].
    unfold wpow. apply Z.pow_le_mono_r; unfold WB; lia. }
  destruct (split_at l (Z.to_nat (b / 64))) as (lo & hi & -> & Hlo); [lia|]. rewrite <- Hlo in HQ. rewrite <- Hv in HQ.
  apply Forall_app in Hw as [Hwl Hwh]. rewrite (proj2 (split_div lo hi _ (proj1 Hsh) Hwl)) in HQ. pose proof Hh as [Hhl Hhh]%holds_app.
  replace (b / 64) with (Z.of_nat (length lo)) by lia. apply wp_bind, wp_zoom, wp_mpn_zero_p; [done|done|]. rewrite zmem_id.
  pose proof (val_bound lo Hwl) as Hbl. pose proof (wpow_pos (length lo)). pose proof (Z.mod_pos_bound (val hi) (2 ^ (b mod 64)) ltac:(apply Z.pow_pos_nonneg; lia)).
  destruct (Z.eqb_spec (val lo) 0) as [Hl0|Hl0]; cbn [negb].
  - rewrite length_app in Hl. destruct hi as [|h hi]; [cbn in Hl; lia|]. apply holds_cons in Hhh as [Hhh _]. apply wp_bind, wp_zoom.
    eapply wp_load; [done|]. rewrite zmem_id. apply wp_ret. rewrite zero_low_bits by done. rewrite mod_low_limb in * by done.
    replace (h mod 2 ^ (b mod 64) =? 0) with (val lo + wpow (length lo) * (h mod 2 ^ (b mod 64)) =? 0); [done|].
    destruct (Z.eqb_spec (h mod 2 ^ (b mod 64)) 0) as [->|]; [apply Z.eqb_eq; lia|apply Z.eqb_neq; nia].
  - apply wp_ret. rewrite (proj2 (Z.eqb_neq _ _)) in HQ by nia. done.
Qed.

(** The shifted limbs *)
Lemma wp_shift_limbs s σ q w u x b Q E :
  zok F s σ → σ !! q = Some (Some w) → σ !! u = Some (Some x) → x ≠ 0 → 0 ≤ b → nlimbs x ≤ INT_MAX →
  (∀ l s', written F s σ q l s' → val l = Z.abs x / 2 ^ b → Q (Z.of_nat (length l)) s') →
  wp (if nlimbs x - b / 64 <=? 0 then mret 0
      else
        qp ← MPZ_REALLOC q (nlimbs x - b / 64);
        zu ← get_mpz u;
        if negb (b mod 64 =? 0) then
          _ ← limbs (mpn_rshift qp (padd (mp_d zu) (b / 64)) (nlimbs x - b / 64) (b mod 64));
          x0 ← limbs (load (padd qp (nlimbs x - b / 64 - 1)));
          mret (nlimbs x - b / 64 - b2z (x0 =? 0))
        else
          _ ← limbs (mpn_copyi qp (padd (mp_d zu) (b / 64)) (nlimbs x - b / 64));
          mret (nlimbs x - b / 64)) Q E s.
Proof.
  intros Hok Hq Hu Hx Hb Hmax HQ. pose proof (Z.div_pos b 64 Hb ltac:(lia)) as Hk. pose proof (Z.mod_pos_bound b 64 ltac:(lia)) as Hsh.
  pose proof (Z.pow_pos_nonneg 2 (b mod 64) ltac:(lia) ltac:(lia)) as Hpow.
  rewrite pow2_split in HQ by done. destruct (Z.leb_spec (nlimbs x - b / 64) 0) as [Hle|Hgt].
  { apply wp_ret. apply (HQ []).
    - destruct (zok_target F s σ q _ Hok Hq) as (z & Hz & Ha & _). replace s with (set_zmem (z_mem s) s) by apply zmem_id. eapply zok_written; try done; [cbn; lia|by intros i y Hy; exists y].
    - cbn [val]. symmetry. apply Z.div_small. split; [lia|]. pose proof (abs_lt_pow x).
      assert (WB ^ nlimbs x ≤ wpow (Z.to_nat (b / 64))); [|nia]. unfold wpow. apply Z.pow_le_mono_r; unfold WB; lia. }
  apply wp_bind. eapply wp_realloc_target; try done; [lia|]. intros z s1 Hz Hal Hz0 Hs Hkept Hok1.
  destruct (zok_operand F s1 σ u x Hok1 Hu) as (zu & l & Hzu & Hw & Hn & Hh & Hv & Hl & _ & Hua & H0u).
  apply wp_bind. eapply wp_get_mpz; [done|].
  destruct (split_at l (Z.to_nat (b / 64))) as (lo & hi & -> & Hlo); [lia|]. rewrite <- Hlo, <- Hv in HQ.
  apply Forall_app in Hw as [Hwl Hwh]. rewrite (proj1 (split_div lo hi _ (proj1 Hsh) Hwl)) in HQ. pose proof Hh as [_ Hhh]%holds_app.
  rewrite length_app in Hl. replace (b / 64) with (Z.of_nat (length lo)) in * by lia.
  replace (nlimbs x - Z.of_nat (length lo)) with (Z.of_nat (length hi)) in * by lia.
  assert (hi ≠ []) as Hne by (intros ->; cbn in Hgt; lia). pose proof (normal_tail lo hi Hne Hn) as Hnh.
  pose proof (normal_bound hi Hwh Hnh Hne) as Hlow. assert (0 < length hi)%nat as Hh0 by (destruct hi; [done|cbn; lia]).
  assert (ok_up (mp_d z) (padd (mp_d zu) (Z.of_nat (length lo))) (length hi)) as Hup by (right; left; unfold padd; cbn; lia).
  destruct (Z.eqb_spec (b mod 64) 0) as [Hb0|Hb0]; cbn [negb].
  - rewrite Hb0, Z.div_1_r in HQ. apply wp_bind, wp_zoom. apply wp_mpn_copyi; [done|eapply space_sub; [done|lia]|done|]. intros m2 Hw2.
    apply wp_ret, HQ; [|done]. eapply zok_written; try done; [lia|eapply changed_block; [done|lia]|apply Hw2].
  - apply wp_bind, wp_zoom. apply wp_mpn_rshift; try done; [lia|eapply space_sub; [done|lia]|]. intros rl c m2 Hlr Hwr Hc Hvr Hw2.
    assert (val rl = val hi / 2 ^ (b mod 64)) as Hvq by (apply Z.div_unique with c; lia).
    destruct (trim_top rl) as (l & top & Htop & Hwl2 & Hnl & Hvl & Hll & Hhl); [done|intros ->; cbn in Hlr; lia| |].
    { intros H2. rewrite Hvq, Hlr. apply Z.div_le_lower_bound; [done|]. rewrite Hlr in H2. replace (length hi - 1)%nat with (1 + (length hi - 2))%nat in Hlow by lia.
      rewrite wpow_add in Hlow. pose proof (wpow_pos (length hi - 2)). assert (2 ^ (b mod 64) ≤ 2 ^ 64) by (apply Z.pow_le_mono_r; lia).
      change (wpow 1) with (2 ^ 64) in Hlow. nia. }
    apply wp_bind, wp_zoom. cbn [z_mem set_zmem]. replace (Z.of_nat (length hi) - 1) with (Z.of_nat (length hi - 1)) by lia. rewrite <- Hlr.
    eapply wp_load; [by apply Hw2|]. change m2 with (z_mem (set_zmem m2 s1)). rewrite zmem_id. apply wp_ret. rewrite <- Hll. apply HQ; [|by rewrite Hvl].
    eapply zok_written; try done; [destruct (top =? 0); cbn [b2z] in Hll; lia|eapply changed_block; [done|lia]|apply Hhl, Hw2].
Qed.

Lemma wp_mpz_div_q_2exp s σ q w u x b mode Q E :
  zok F s σ → σ !! q = Some (Some w) → σ !! u = Some (Some x) → 0 ≤ b → nlimbs x < INT_MAX →
  (∀ s', zok F s' (<[q := Some (div_round mode x (2 ^ b)).1]> σ) → Q tt s') → wp (mpz_div_q_2exp q u b mode) Q E s.
Proof.
  intros Hok Hq Hu Hb Hn HQ. destruct (zok_operand F s σ u x Hok Hu) as (zu & _ & Hzu & _ & _ & _ & _ & _ & Hsu & _).
  pose proof (Z.pow_pos_nonneg 2 b ltac:(lia) Hb) as Hpow.
  unfold mpz_div_q_2exp. apply wp_bind. eapply wp_get_mpz; [done|]. rewrite Hsu. destruct (Z.eq_dec x 0) as [->|Hx].
  { assert (div_round mode 0 (2 ^ b) = (0, 0)) as E0 by (apply div_round_unique; [lia|lia|lia|destruct mode; lia]). rewrite E0 in HQ.
    eapply wp_set_size_0; try done. }
  pose proof (nlimbs_pos x Hx) as Hpos. rewrite (proj2 (Z.eqb_neq (Z.sgn x * nlimbs x) 0)) by (rewrite <- (size_abs x) in Hpos; lia).
  rewrite size_abs, size_neg. change GMP_LIMB_BITS with 64. rewrite div_round_abs in HQ by done. cbn [fst] in HQ.
  apply wp_bind. change (rounds_away mode (Z.sgn x * nlimbs x)) with (away mode x).
  assert (∀ adj : bool, adj = away mode x && negb (Z.abs x mod 2 ^ b =? 0) →
    wp (qn ← (if nlimbs x - b / 64 <=? 0 then mret 0
          else
            qp ← MPZ_REALLOC q (nlimbs x - b / 64);
            zu ← get_mpz u;
            if negb (b mod 64 =? 0) then
              _ ← limbs (mpn_rshift qp (padd (mp_d zu) (b / 64)) (nlimbs x - b / 64) (b mod 64));
              x0 ← limbs (load (padd qp (nlimbs x - b / 64 - 1)));
              mret (nlimbs x - b / 64 - b2z (x0 =? 0))
            else
              _ ← limbs (mpn_copyi qp (padd (mp_d zu) (b / 64)) (nlimbs x - b / 64));
              mret (nlimbs x - b / 64));
    _ ← set_size q qn;
    _ ← (if adj then mpz_add_ui q q 1 else mret tt);
    if x <? 0 then mpz_neg q q else mret tt) Q E s) as Hrest.
  { intros adj Hadj. rewrite <- Hadj in HQ. clear Hadj. apply wp_bind. eapply wp_shift_limbs; try done; [lia|]. intros l s1 Hw1 Hv1.
    apply wp_bind. eapply (wp_set_size_written F s s1 σ q l _ (Z.abs x / 2 ^ b)); [done|lia|rewrite sgn_length; lia|]. intros s2 Hok2.
    assert (Z.abs (Z.abs x / 2 ^ b) ≤ Z.abs x) as Hle by (rewrite (Z.abs_eq (_ / _)) by (apply Z.div_pos; lia); apply Z.div_le_upper_bound; nia).
    assert (nlimbs (Z.abs x / 2 ^ b) < INT_MAX) as Hn1 by (pose proof (nlimbs_le _ _ Hle); lia).
    assert (∀ s3, zok F s3 (<[q := Some (Z.abs x / 2 ^ b + b2z adj)]> σ) → wp (if x <? 0 then mpz_neg q q else mret tt) Q E s3) as Hneg.
    { intros s3 Hok3. destruct (Z.ltb_spec x 0) as [H0|H0].
      - pose proof (lookup_insert_eq σ q (Some (Z.abs x / 2 ^ b + b2z adj))) as Hq3. eapply wp_mpz_neg; [done|exact Hq3|exact Hq3| |].
        + pose proof (nlimbs_add (Z.abs x / 2 ^ b) (b2z adj)) as Ha. assert (nlimbs (b2z adj) ≤ 1) by (by destruct adj). pose proof (nlimbs_nonneg (Z.abs x / 2 ^ b)).
          unfold INT_MAX in *. lia.
        + intros s4. rewrite insert_insert_eq. rewrite (Z.sgn_neg x) in HQ by done. intros Hok4. apply HQ.
          by replace (-1 * (Z.abs x / 2 ^ b + b2z adj)) with (- (Z.abs x / 2 ^ b + b2z adj)) by lia.
      - apply wp_ret, HQ. rewrite (Z.sgn_pos x) by lia. by rewrite Z.mul_1_l. }
    apply wp_bind. destruct adj; [|apply wp_ret, Hneg; by rewrite Z.add_0_r].
    pose proof (lookup_insert_eq σ q (Some (Z.abs x / 2 ^ b))) as Hq2. eapply wp_mpz_add_ui; [done|exact Hq2|exact Hq2|unfold WB; lia|done|].
    intros s3. rewrite insert_insert_eq. apply Hneg. }
  destruct (away mode x); [|by apply wp_ret, (Hrest false)]. eapply wp_lost_bits; try done. by apply Hrest.
Qed.

(** ** Division by a word *)

(** One limb is stored; no other variable and no other limb changes. *)
Lemma wp_store_word s σ r w (n rs : Z) Q E :
  zok F s σ → σ !! r = Some (Some w) → word n → Z.abs rs = b2z (0 <? n) →
  (∀ s', zok F s' (<[r := Some (Z.sgn rs * n)]> σ) → (∀ i, i ≠ r → z_vars s' !! i = z_vars s !! i) →
     (∀ q, is_Some (cell (z_mem s) q) → ¬ owns s r q.1 → cell (z_mem s') q = cell (z_mem s) q) → Q tt s') →
  wp (rp ← MPZ_REALLOC r 1; _ ← limbs (store rp n); set_size r rs) Q E s.
Proof.
  intros Hok Hr Hn Hrs HQ. destruct (zok_target F s σ r _ Hok Hr) as (z & Hz & _). apply wp_bind.
  eapply wp_MPZ_REALLOC_full; try done. intros z' s' Hv' Hsz Hal Hok' (Hkept & _ & Hown).
  destruct (zok_target F s' σ r _ Hok' Hr) as (z0 & Hz0 & Ha & H0 & Hs). rewrite Hv', lookup_insert_eq in Hz0. injection Hz0 as <-.
  apply wp_bind, wp_zoom. rewrite <- (padd_0 (mp_d z')). apply wp_store_writes; [apply (Hs 0%nat); lia|]. rewrite padd_0. intros m2 Hw2.
  assert (zok F (set_zmem m2 s') (<[r := None]> σ)) as Hok2.
  { eapply (zok_write_block F s' σ r z' 1 m2); [done|by eexists|by rewrite Hv', lookup_insert_eq|lia|apply Hw2]. }
  assert (∃ l, words l ∧ normal l ∧ holds m2 (mp_d z') l ∧ Z.of_nat (length l) = b2z (0 <? n) ∧ val l = n) as (l & Hwl & Hnl & Hhl & Hll & Hvl).
  { destruct (Z.ltb_spec 0 n).
    - exists [n]. split_and!; [by apply words_cons; [done|constructor]|intros y [= <-]; lia|apply Hw2|done|cbn; lia].
    - exists []. split_and!; [constructor|by intros y|apply holds_nil|done|]. unfold word in Hn. cbn. lia. }
  eapply (wp_set_size_full F (set_zmem m2 s') _ r z' l rs); try done.
  - by rewrite lookup_insert_eq.
  - cbn. by rewrite Hv', lookup_insert_eq.
  - rewrite Hll. destruct (0 <? n); cbn; lia.
  - rewrite Hll. done.
  - intros s3 Hm3 Hv3 Hok3. rewrite insert_insert_eq, Hvl in Hok3. apply HQ; [done| |].
    + intros i Hi. rewrite Hv3. cbn. by rewrite lookup_insert_ne, Hv', lookup_insert_ne.
    + intros q Hq Ho. rewrite Hm3. cbn. rewrite (proj1 (proj2 Hw2)); [by apply Hkept|]. intros [Hb Hr2].
      apply Ho, Hown; [done|lia|done].
Qed.

(** The quotient is in the block of [q], but its size is not set. *)
Definition in_block s (oq : option (mpz_t * mpz_struct)) (lq : list Z) : Prop :=
  match oq with
  | Some (q, z) => z_vars s !! q = Some z ∧ holds (z_mem s) (mp_d z) lq ∧ Z.of_nat (length lq) ≤ mp_alloc z
  | None => True
  end.

Lemma raw_is_Some oq σ i : is_Some (σ !! i) → is_Some (raw_opt oq σ !! i).
Proof. intros Hi. destruct oq as [[q z]|]; [|done]. cbn. destruct (decide (i = q)) as [->|]; [by rewrite lookup_insert_eq|by rewrite lookup_insert_ne]. Qed.

(** The size of the quotient is set at the end. *)
Lemma wp_ui_quotient s σ (oq : option (mpz_t * mpz_struct)) lq x v Q E :
  let qn := Z.of_nat (length lq) in
  zok F s (raw_opt oq σ) → in_block s oq lq → words lq → lq ≠ [] → ((2 ≤ length lq)%nat → wpow (length lq - 2) ≤ val lq) →
  (is_Some oq → v = (if x <? 0 then - val lq else val lq)) →
  (∀ s', zok F s' (upd (fst <$> oq) v σ) → Q tt s') →
  wp (match fst <$> oq, (λ p, mp_d p.2) <$> oq with
      | Some q, Some qp =>
         x0 ← limbs (load (padd qp (qn - 1)));
         let qn := qn - b2z (x0 =? 0) in
         _ ← (if qn =? 0 then mret tt else y ← limbs (load (padd qp (qn - 1))); zassert (0 <? y));
         set_size q (if x <? 0 then - qn else qn)
      | _, _ => mret tt
      end) Q E s.
Proof.
  intros qn Hok Hin Hw Hne Hb Hv HQ. destruct oq as [[q z]|]; cbn in *; [|by apply wp_ret, HQ]. destruct Hin as (Hz & Hh & Ha).
  assert (0 < length lq)%nat as Hpos by (destruct lq; [done|cbn; lia]).
  destruct (trim_top lq Hw Hne Hb) as (l & top & Htop & Hwl & Hnl & Hvl & Hll & Hhl).
  apply wp_bind, wp_zoom. unfold qn. replace (Z.of_nat (length lq) - 1) with (Z.of_nat (length lq - 1)) by lia.
  eapply wp_load; [by apply Hh|]. rewrite zmem_id, <- Hll. apply wp_bind.
  assert (∀ Q', Q' tt s → wp (if Z.of_nat (length l) =? 0 then mret tt
    else y ← limbs (load (padd (mp_d z) (Z.of_nat (length l) - 1))); zassert (0 <? y)) Q' E s) as Hassert.
  { intros Q' HQ'. destruct (Z.eqb_spec (Z.of_nat (length l)) 0); [by apply wp_ret|].
    destruct l as [|y l _] using rev_ind; [done|]. rewrite length_app. cbn [length]. apply wp_bind, wp_zoom.
    replace (Z.of_nat (length l + 1) - 1) with (Z.of_nat (length l)) by lia. eapply wp_load; [apply (Hhl _ _ Hh); by apply list_lookup_middle|].
    rewrite zmem_id. apply Forall_app in Hwl as [_ Hwy%Forall_inv]. pose proof (Hnl y ltac:(by rewrite last_snoc)).
    unfold zassert, c_assert. rewrite (proj2 (Z.ltb_lt 0 y)) by (unfold word in Hwy; lia). by eapply wp_lift_ok. }
  apply Hassert. eapply (wp_set_size F s _ q z l); try done.
  - by rewrite lookup_insert_eq.
  - by apply Hhl.
  - rewrite Hll. destruct (top =? 0); cbn [b2z]; lia.
  - destruct (x <? 0); lia.
  - intros s'. rewrite insert_insert_eq. intros Hok'. apply HQ. rewrite Hv by (by eexists). rewrite <- Hvl.
    replace (if x <? 0 then - val l else val l) with (Z.sgn (if x <? 0 then - Z.of_nat (length l) else Z.of_nat (length l)) * val l); [done|].
    destruct (x <? 0); rewrite ?Z.sgn_opp, ?Z.mul_opp_l, sgn_length; done.
Qed.

(** The rounding step *)
Lemma wp_ui_adjust s σ (oq : option (mpz_t * mpz_struct)) lq x d (up : bool) rs Q E :
  let rl := Z.abs x mod d in
  zok F s (raw_opt oq σ) → (is_Some oq → is_Some (σ !! from_option fst 1%positive oq)) →
  in_block s oq lq → words lq → lq ≠ [] → val lq = Z.abs x / d → Z.abs x < wpow (length lq) → 0 < d < WB →
  (∀ lq' s', zok F s' (raw_opt oq σ) → in_block s' oq lq' → words lq' → length lq' = length lq →
     val lq' = Z.abs x / d + b2z (up && (0 <? rl)) →
     Q (if up && (0 <? rl) then (d - rl, - rs) else (rl, rs)) s') →
  wp (if (0 <? rl) && up then
        _ ← (match (λ p, mp_d p.2) <$> oq with Some qp => zassert_nocarry (mpn_add_1 qp qp (Z.of_nat (length lq)) 1) | None => mret tt end);
        mret (u64 (d - rl), - rs)
      else mret (rl, rs)) Q E s.
Proof.
  intros rl Hok Hdom Hin Hw Hne Hv Hx Hd HQ. rewrite andb_comm. pose proof (Z.mod_pos_bound (Z.abs x) d ltac:(lia)) as Hr. fold rl in Hr.
  pose proof (Z.div_mod (Z.abs x) d ltac:(lia)) as Hdm. fold rl in Hdm.
  destruct (up && (0 <? rl)) eqn:Hup; cbn [b2z] in HQ; [|apply wp_ret, (HQ lq); try done; lia].
  apply andb_true_iff in Hup as [_ Hrl%Z.ltb_lt]. rewrite u64_small by (unfold WB in *; lia).
  destruct oq as [[q z]|]; cbn in *; [|apply wp_bind, wp_ret, wp_ret].
  2:{ (* nothing to add to *) destruct (val_exists (length lq) (Z.abs x / d + 1)) as (lq' & Hl' & Hw' & Hv').
      - split; [pose proof (Z.div_pos (Z.abs x) d); lia|]. nia.
      - by apply (HQ lq'). }
  destruct Hin as (Hz & Hh & Ha). apply wp_bind. unfold zassert_nocarry, gmp_assert_nocarry. apply wp_zoom, wp_bind.
  eapply (wp_mpn_add_1 _ _ lq); try done; [|right; left; lia|].
  { destruct (zok_target F s _ q None Hok) as (z0 & Hz0 & _ & _ & Hs); [by rewrite lookup_insert_eq|]. rewrite Hz in Hz0. injection Hz0 as <-.
    eapply space_sub; [exact Hs|lia]. }
  intros r c m' Hl Hwr Hc Hvr Hw2. pose proof (val_bound r Hwr). assert (c = 0) as ->.
  { destruct (Z.eq_dec c 1) as [->|]; [|lia]. rewrite Hl in *. nia. }
  apply wp_massert; [done|]. apply wp_ret. apply (HQ r).
  - eapply (zok_write_gen F s); [done|apply Hw2|..]; try done. intros c [Hb Hc2]. exists q. rewrite lookup_insert_eq. split; [done|]. exists z.
    split; [done|]. split; [lia|done].
  - cbn. split; [done|]. split; [apply Hw2|lia].
  - done.
  - lia.
  - lia.
Qed.

(** After the division of the limbs *)
Lemma wp_ui_rest s σ (oq : option (mpz_t * mpz_struct)) r lq x d mode Q E :
  let rl := Z.abs x mod d in
  let ns := Z.sgn x * nlimbs x in
  let rs := if ns <? 0 then - b2z (0 <? rl) else b2z (0 <? rl) in
  zok F s (raw_opt oq σ) → (is_Some oq → is_Some (σ !! from_option fst 1%positive oq)) → target σ r →
  (∀ i, fst <$> oq = Some i → r ≠ Some i) →
  in_block s oq lq → words lq → x ≠ 0 → Z.of_nat (length lq) = nlimbs x → val lq = Z.abs x / d → 0 < d < WB →
  (∀ s', zok F s' (upd (fst <$> oq) (div_round mode x d).1 (upd r (div_round mode x d).2 σ)) → Q (Z.abs (div_round mode x d).2) s') →
  wp (_ ← zassert (rl <? d);
      '(rl, rs) ←
        (if (0 <? rl) && ((bool_decide (mode = GMP_DIV_FLOOR) && (ns <? 0)) || (bool_decide (mode = GMP_DIV_CEIL) && (0 <=? ns))) then
           _ ← (match (λ p, mp_d p.2) <$> oq with Some qp => zassert_nocarry (mpn_add_1 qp qp (nlimbs x) 1) | None => mret tt end);
           mret (u64 (d - rl), - rs)
         else mret (rl, rs));
      _ ← when_some r (λ r, rp ← MPZ_REALLOC r 1; _ ← limbs (store rp rl); set_size r rs);
      _ ← (match fst <$> oq, (λ p, mp_d p.2) <$> oq with
           | Some q, Some qp =>
              x0 ← limbs (load (padd qp (nlimbs x - 1)));
              let qn := nlimbs x - b2z (x0 =? 0) in
              _ ← (if qn =? 0 then mret tt else y ← limbs (load (padd qp (qn - 1))); zassert (0 <? y));
              set_size q (if ns <? 0 then - qn else qn)
           | _, _ => mret tt
           end);
      mret rl) Q E s.
Proof.
  intros rl ns rs Hok Hdom Hr Hne Hin Hw Hx Hl Hv Hd HQ. pose proof (nlimbs_pos x Hx) as Hpos. pose proof (abs_lt_pow x) as Hbx.
  rewrite <- Hl in Hbx. change (WB ^ Z.of_nat (length lq)) with (wpow (length lq)) in Hbx.
  assert (lq ≠ []) as Hlq by (intros ->; cbn in Hl; lia). pose proof (Z.mod_pos_bound (Z.abs x) d ltac:(lia)) as Hrl. fold rl in Hrl.
  assert (((bool_decide (mode = GMP_DIV_FLOOR) && (ns <? 0)) || (bool_decide (mode = GMP_DIV_CEIL) && (0 <=? ns))) = away mode x) as ->.
  { unfold ns. rewrite size_neg, size_nonneg, away_spec by done. destruct (Z.ltb_spec 0 x), (Z.ltb_spec x 0), (Z.leb_spec 0 x); try lia;
      destruct mode; done. }
  unfold ns in *. clear ns. rewrite size_neg in *. fold rs. rewrite <- Hl.
  pose proof (div_round_abs mode x d Hx ltac:(lia)) as Hdr. cbv zeta in Hdr. fold rl in Hdr.
  assert (negb (rl =? 0) = (0 <? rl)) as E0 by (destruct (Z.eqb_spec rl 0), (Z.ltb_spec 0 rl); lia). rewrite E0 in Hdr. set (up := away mode x && (0 <? rl)) in *.
  apply wp_bind. unfold zassert, c_assert at 1. rewrite (proj2 (Z.ltb_lt rl d)) by lia. eapply wp_lift_ok; [done|].
  apply wp_bind. eapply (wp_ui_adjust s σ oq lq x d (away mode x)); try done. fold rl up. intros lq' s1 Hok1 Hin1 Hw1 Hl1 Hv1.
  assert (∀ rl' rs', (rl', rs') = (if up then (d - rl, - rs) else (rl, rs)) →
    word rl' ∧ Z.abs rs' = b2z (0 <? rl') ∧ Z.sgn rs' * rl' = (div_round mode x d).2 ∧ rl' = Z.abs (div_round mode x d).2) as Hres.
  { intros rl' rs' He. rewrite Hdr. cbn [snd]. unfold rs, word in *. rewrite size_neg in He. destruct (Z.ltb_spec x 0) as [Hx0|Hx0].
    all: [>rewrite (Z.sgn_neg x) by done|rewrite (Z.sgn_pos x) by lia].
    all: destruct up eqn:Hup; [apply andb_true_iff in Hup as [_ Hup]; rewrite Hup in He; apply Z.ltb_lt in Hup|];
      injection He as -> ->; [rewrite (proj2 (Z.ltb_lt 0 (d - rl))) by lia|destruct (Z.ltb_spec 0 rl)]; cbn [b2z Z.opp Z.sgn]; lia. }
  destruct (if up then (d - rl, - rs) else (rl, rs)) as [rl' rs'] eqn:He. destruct (Hres rl' rs' eq_refl) as (Hwr & Hrs & Hsr & Har).
  apply wp_bind. assert (∀ s2, zok F s2 (raw_opt oq (upd r (div_round mode x d).2 σ)) → in_block s2 oq lq' →
    wp (_ ← (match fst <$> oq, (λ p, mp_d p.2) <$> oq with
           | Some q, Some qp =>
              x0 ← limbs (load (padd qp (Z.of_nat (length lq) - 1)));
              let qn := Z.of_nat (length lq) - b2z (x0 =? 0) in
              _ ← (if qn =? 0 then mret tt else y ← limbs (load (padd qp (qn - 1))); zassert (0 <? y));
              set_size q (if x <? 0 then - qn else qn)
           | _, _ => mret tt
           end); mret rl') Q E s2) as Hq.
  { intros s2 Hok2 Hin2. apply wp_bind. rewrite <- Hl1. eapply (wp_ui_quotient s2 (upd r (div_round mode x d).2 σ) oq lq' x (div_round mode x d).1); try done.
    - intros ->. cbn in Hl1. destruct lq; [done|cbn in Hl1; lia].
    - intros H2. rewrite Hv1, Hl1. rewrite Hl1 in H2. pose proof (abs_ge_pow x Hx) as Hlow. rewrite <- Hl in Hlow.
      replace (Z.of_nat (length lq) - 1) with (1 + Z.of_nat (length lq - 2)) in Hlow by lia. rewrite Z.pow_add_r in Hlow by lia.
      change (WB ^ 1) with WB in Hlow. assert (wpow (length lq - 2) ≤ Z.abs x / d); [|destruct up; cbn [b2z]; lia].
      apply Z.div_le_lower_bound; [lia|]. pose proof (wpow_pos (length lq - 2)). unfold wpow in *. nia.
    - intros _. rewrite Hdr, Hv1. cbn [fst]. destruct (Z.ltb_spec x 0); [rewrite (Z.sgn_neg x) by done|rewrite (Z.sgn_pos x) by lia]; lia.
    - intros s3 Hok3. apply wp_ret. rewrite Har. by apply HQ. }
  destruct r as [r|]; cbn [when_some upd] in *; [|by apply wp_ret, Hq].
  destruct Hr as [w Hr]. assert (raw_opt oq σ !! r = Some (Some w)) as Hr1.
  { destruct oq as [[q z]|]; [|done]. cbn. rewrite lookup_insert_ne; [done|]. intros ->. by apply (Hne r). }
  eapply (wp_store_word s1 (raw_opt oq σ) r w rl' rs'); try done. intros s2 Hok2 Hv2 Hm2. rewrite Hsr in Hok2. apply Hq.
  - destruct oq as [[q z]|]; [|done]. cbn in *. rewrite insert_insert_ne; [done|]. intros <-. by apply (Hne q).
  - destruct oq as [[q z]|]; [|done]. cbn in *. assert (q ≠ r) as Hqr by (intros ->; by apply (Hne r)). destruct Hin1 as (Hz & Hh & Ha).
    split; [by rewrite Hv2|]. split; [|done]. intros i y Hi. rewrite Hm2; [by apply Hh|by rewrite (Hh _ _ Hi)|]. intros Ho. apply Hqr.
    eapply (zok_sep _ _ _ Hok1 q r (mp_d z).1); [by rewrite lookup_insert_eq|by rewrite Hr1| |done].
    exists z. split; [done|]. split; [|done]. destruct lq'; [done|]. cbn in Ha. lia.
Qed.

(** The limbs are divided into the block of the quotient, if there is one. *)
Lemma wp_ui_limbs s σ (oq : option (mpz_t * mpz_struct)) n x zn d Q E :
  zok F s σ → (is_Some oq → is_Some (σ !! from_option fst 1%positive oq)) → σ !! n = Some (Some x) → z_vars s !! n = Some zn →
  in_block s oq [] → match oq with Some (_, z) => nlimbs x ≤ mp_alloc z | None => True end → x ≠ 0 → 0 < d < WB →
  (∀ lq m', zok F (set_zmem m' s) (raw_opt oq σ) → in_block (set_zmem m' s) oq lq → words lq → Z.of_nat (length lq) = nlimbs x →
     val lq = Z.abs x / d → Q (Z.abs x mod d) (set_zmem m' s)) →
  wp (limbs (mpn_div_qr_1 ((λ p, mp_d p.2) <$> oq) (mp_d zn) (nlimbs x) d)) Q E s.
Proof.
  intros Hok Hdom Hn Hzn Hin Ha Hx Hd HQ. destruct (zok_operand F s σ n x Hok Hn) as (z' & l & Hz' & Hw & Hnl & Hh & Hv & Hl & _ & Han & H0n).
  rewrite Hzn in Hz'. injection Hz' as <-. pose proof (nlimbs_pos x Hx). assert (l ≠ []) as Hne by (intros ->; cbn in Hl; lia).
  apply wp_zoom. rewrite <- Hl in *. eapply (wp_mpn_div_qr_1 _ _ l); try done; [apply (zok_mem _ _ _ Hok)|..].
  - destruct oq as [[q z]|]; [|done]. destruct Hin as (Hz & _). destruct (Hdom ltac:(by eexists)) as [ov Hq]. cbn in Hq.
    destruct (zok_target F s σ q ov Hok Hq) as (z0 & Hz0 & _ & _ & Hs). rewrite Hz in Hz0. injection Hz0 as <-. eapply space_sub; [exact Hs|lia].
  - destruct oq as [[q z]|]; [|done]. destruct Hin as (Hz & _). cbn. destruct (decide (q = n)) as [->|Hqn].
    + rewrite Hzn in Hz. injection Hz as <-. by left.
    + right. left. eapply (zok_apart F s σ q n); try done; [by apply Hdom|lia|lia].
  - intros lq m' Hlq Hwq Hvq [Hh' Hc']. rewrite Hv in *. apply (HQ lq); try done; [| |lia].
    + destruct oq as [[q z]|]; cbn in *.
      * destruct Hin as (Hz & _). eapply (zok_write_block F s σ q z (length lq)); try done; [by apply Hdom|lia].
      * eapply (zok_write_gen F s σ σ); [done|exact Hc'|done..].
    + destruct oq as [[q z]|]; [|done]. destruct Hin as (Hz & _). cbn in *. split; [done|]. split; [done|lia].
Qed.

Lemma wp_mpz_div_qr_ui s σ q r n x d mode Q E :
  zok F s σ → σ !! n = Some (Some x) → 0 < d < WB → nlimbs x ≤ INT_MAX →
  target σ q → target σ r → (∀ i, q = Some i → r ≠ Some i) →
  (∀ s', zok F s' (upd q (div_round mode x d).1 (upd r (div_round mode x d).2 σ)) → Q (Z.abs (div_round mode x d).2) s') →
  wp (mpz_div_qr_ui q r n d mode) Q E s.
Proof.
  intros Hok Hn Hd Hmax Hq Hr Hne HQ. destruct (zok_operand F s σ n x Hok Hn) as (zn & _ & Hzn & _ & _ & _ & _ & _ & Hsn & _).
  unfold mpz_div_qr_ui. apply wp_bind. eapply wp_get_mpz; [done|]. rewrite Hsn. destruct (Z.eq_dec x 0) as [->|Hx].
  { assert (div_round mode 0 d = (0, 0)) as E0 by (apply div_round_unique; [lia|lia|lia|destruct mode; lia]). rewrite E0 in HQ. cbn [Z.sgn Z.mul Z.eqb].
    apply wp_bind. apply (wp_when_some F s σ q 0); [|done|].
    { intros i Q1 -> HQ1. destruct Hq as [w Hq]. eapply wp_set_size_0; try done. }
    intros s1 Hok1. apply wp_bind. apply (wp_when_some F s1 (upd q 0 σ) r 0); [|done|].
    { intros i Q1 -> HQ1. destruct (target_upd σ (Some i) q 0 Hr) as [w Hw]. eapply wp_set_size_0; try done. }
    intros s2 Hok2. apply wp_ret, (HQ s2). by rewrite upd_comm. }
  pose proof (nlimbs_pos x Hx) as Hpos. rewrite (proj2 (Z.eqb_neq (Z.sgn x * nlimbs x) 0)) by (rewrite <- (size_abs x) in Hpos; lia). rewrite size_abs.
  apply wp_bind. destruct q as [q|].
  - destruct Hq as [w Hq]. apply wp_bind. eapply wp_realloc_target; try done. intros z s1 Hz Ha Hz0 Hs Hk Hok1. apply wp_ret.
    destruct (zok_target F s1 σ n _ Hok1 Hn) as (zn1 & Hzn1 & _). apply wp_bind. eapply wp_get_mpz; [done|].
    apply wp_bind. eapply (wp_ui_limbs s1 σ (Some (q, z)) n x zn1 d); try done; [split_and!; [done|apply holds_nil|cbn; lia]|cbn; lia|].
    intros lq m' Hok2 Hin Hw Hl Hv. eapply (wp_ui_rest _ σ (Some (q, z)) r lq x d mode); done.
  - apply wp_ret. apply wp_bind. eapply wp_get_mpz; [done|].
    apply wp_bind. eapply (wp_ui_limbs s σ None n x zn d); try done; []. intros lq m' Hok2 Hin Hw Hl Hv.
    by eapply (wp_ui_rest _ σ None r lq x d mode).
Qed.

(** ** Remainder by a power of two *)

(** Leading zeros are dropped and the sign is set. *)
Lemma wp_normalize_set s σ r z l (neg : bool) Q E :
  zok F s (<[r := None]> σ) → z_vars s !! r = Some z → words l → holds (z_mem s) (mp_d z) l → Z.of_nat (length l) ≤ mp_alloc z →
  (∀ s', zok F s' (<[r := Some (if neg then - val l else val l)]> σ) → Q tt s') →
  wp (rn ← limbs (mpn_normalized_size (mp_d z) (Z.of_nat (length l))); set_size r (if neg then - rn else rn)) Q E s.
Proof.
  intros Hok Hz Hw Hh Ha HQ. apply wp_bind, wp_zoom. apply wp_mpn_normalized_size; [done|]. intros n Hn Hnn Hl. rewrite zmem_id.
  assert (length (take n l) = n) as Hlt by (rewrite length_take; lia).
  assert (val (take n l) = val l) as Hvt by (rewrite Hl at 2; rewrite val_app, val_zeros; lia).
  eapply (wp_set_size F s _ r z (take n l)); try done.
  - by rewrite lookup_insert_eq.
  - by apply Forall_take.
  - rewrite Hl in Hh. by apply holds_app in Hh as [? _].
  - lia.
  - destruct neg; lia.
  - intros s'. rewrite insert_insert_eq, Hvt. intros Hok'. apply HQ. pose proof (sgn_length (take n l)) as Hsl. rewrite Hlt, Hvt in Hsl.
    destruct neg; rewrite ?Z.sgn_opp, ?Z.mul_opp_l, Hsl in Hok'; done.
Qed.

(** The number of limbs and the mask *)
Lemma r_2exp_mask b : 0 < b → b + 64 < WB →
  let rn := u64 (u64 (b + GMP_LIMB_BITS) - 1) / GMP_LIMB_BITS in
  let t := b - 64 * (rn - 1) in
  0 < rn ∧ 1 ≤ t ≤ 64 ∧ Z.shiftr GMP_LIMB_MAX (u64 (u64 (rn * GMP_LIMB_BITS) - b)) = Z.ones t ∧
  2 ^ b = wpow (Z.to_nat (rn - 1)) * 2 ^ t.
Proof.
  intros Hb Hmax. unfold GMP_LIMB_BITS. assert (u64 (u64 (b + 64) - 1) / 64 = (b - 1) / 64 + 1) as ->.
  { rewrite (u64_small (b + 64)), u64_small by lia. replace (b + 64 - 1) with (b - 1 + 1 * 64) by lia. by rewrite Z.div_add by lia. }
  pose proof (Z.div_mod (b - 1) 64 ltac:(lia)) as Hdm. pose proof (Z.mod_pos_bound (b - 1) 64 ltac:(lia)) as Hm. pose proof (Z.div_pos (b - 1) 64 ltac:(lia) ltac:(lia)) as Hp.
  set (k := (b - 1) / 64) in *. clearbody k. cbv zeta. replace (b - 64 * (k + 1 - 1)) with (b - 64 * k) by lia.
  rewrite (u64_small ((k + 1) * 64)) by (unfold WB in *; lia). rewrite u64_small by (unfold WB in *; lia). split_and!; try lia.
  - rewrite Z.shiftr_div_pow2 by lia. change GMP_LIMB_MAX with (Z.ones 64). rewrite Z.ones_div_pow2 by lia. f_equal. lia.
  - replace (k + 1 - 1) with k by lia. unfold wpow. rewrite Z2Nat.id by lia. change WB with (2 ^ 64). rewrite <- Z.pow_mul_r, <- Z.pow_add_r by lia. f_equal. lia.
Qed.

Lemma wp_fill_max rp n : ∀ i m Q E,
  0 ≤ i → space m (padd rp i) n → (∀ m', writes m (padd rp i) (replicate n GMP_LIMB_MAX) m' → Q tt m') → wp (fill_max n rp i) Q E m.
Proof.
  induction n as [|n IH]; intros i m Q E Hi Hs HQ; cbn [fill_max]; [apply wp_ret, HQ, writes_nil|].
  pose proof Hs as [Hs0 Hs1]%space_S. apply wp_bind, wp_store_writes; [done|]. intros m1 Hw1. apply IH; [lia|eapply writes_space; [exact Hw1|]|].
  - by rewrite padd_succ.
  - intros m2 Hw2. apply HQ. cbn [replicate]. eapply writes_cons; [exact Hw1|]. by rewrite <- padd_succ.
Qed.

Lemma val_max n : val (replicate n GMP_LIMB_MAX) = wpow n - 1.
Proof. induction n as [|n IH]; [done|]. cbn [replicate val]. rewrite IH, wpow_S. unfold GMP_LIMB_MAX, WB. lia. Qed.

Lemma mask_top lo h t : words lo → 0 ≤ t → val (lo ++ [Z.land h (Z.ones t)]) = val (lo ++ [h]) mod (wpow (length lo) * 2 ^ t).
Proof.
  intros Hw Ht. rewrite (proj2 (split_div lo [h] t Ht Hw)), val_app, Z.land_ones by done. cbn [val]. by rewrite !Z.mul_0_r, !Z.add_0_r.
Qed.

(** Where the limbs of result and operand are *)
Definition placed (r u : mpz_t) (rp up : ptr) : Prop := rp.2 = 0 ∧ up.2 = 0 ∧ (r = u → rp = up) ∧ (r ≠ u → rp.1 ≠ up.1).

Lemma placed_up r u rp up n : placed r u rp up → ok_up rp up n.
Proof. intros (Hr & Hu & _). right. left. lia. Qed.

(** The operand is shorter than the divisor and rounded away from zero. *)
Lemma wp_r_2exp_short {A} s r u rp up la rn t (k : MZ A) Q E :
  placed r u rp up → holds (z_mem s) up la → words la → val la ≠ 0 → Z.of_nat (length la) < rn → space (z_mem s) rp (Z.to_nat rn) → 0 ≤ t ≤ 64 →
  (∀ l m', changed (z_mem s) m' (λ q, within q rp (Z.to_nat rn)) → holds m' rp l → words l → Z.of_nat (length l) = rn →
     val l = wpow (Z.to_nat (rn - 1)) * 2 ^ t - val la → wp k Q E (set_zmem m' s)) →
  wp (_ ← limbs (nz ← mpn_neg rp up (Z.of_nat (length la)); massert (negb (nz =? 0)));
      _ ← limbs (fill_max (Z.to_nat (rn - 1 - Z.of_nat (length la))) rp (Z.of_nat (length la)));
      _ ← limbs (store (padd rp (rn - 1)) (Z.ones t)); k) Q E s.
Proof.
  intros Hpl Hh Hw Hv Hlt Hs Ht HQ. assert (la ≠ []) as Hne by (by intros ->). set (un := length la) in *. set (j := Z.to_nat (rn - 1 - Z.of_nat un)).
  assert (Z.to_nat rn = un + j + 1)%nat as Hrn by lia. rewrite Hrn in *.
  apply wp_bind, wp_zoom, wp_bind. unfold mpn_neg. rewrite Nat2Z.id. eapply wp_neg_loop; try done; [eapply space_sub; [exact Hs|lia]|by eapply placed_up|].
  intros rl c m1 Hl1 Hw1 Hv1 -> Hm1. rewrite (proj2 (Z.eqb_neq (val la) 0)) in * by done. cbn [negb b2z] in *. apply wp_massert; [done|].
  apply wp_bind, wp_zoom. cbn [z_mem set_zmem]. apply wp_fill_max; [lia|eapply space_part; [eapply writes_space; [exact Hm1|exact Hs]|lia]|]. intros m2 Hm2.
  replace (Z.of_nat un) with (Z.of_nat (length rl)) in Hm2 by lia. pose proof (writes_app _ _ _ _ _ _ Hm1 Hm2) as Hm12.
  assert (length (rl ++ replicate j GMP_LIMB_MAX) = un + j)%nat as Hlen by (rewrite length_app, length_replicate; lia).
  apply wp_bind, wp_zoom. cbn [z_mem set_zmem]. replace (rn - 1) with (Z.of_nat (length (rl ++ replicate j GMP_LIMB_MAX))) by lia.
  apply wp_store_writes; [rewrite Hlen; apply Hm12, Hs; lia|]. intros m3 Hm3. pose proof (writes_app _ _ _ _ _ _ Hm12 Hm3) as Hm123.
  apply (HQ ((rl ++ replicate j GMP_LIMB_MAX) ++ [Z.ones t])).
  - eapply changed_block; [exact Hm123|]. rewrite length_app, Hlen. cbn. lia.
  - apply Hm123.
  - apply Forall_app. split; [apply Forall_app; split; [done|apply Forall_replicate; unfold word, GMP_LIMB_MAX, WB; lia]|].
    apply words_cons; [|constructor]. rewrite Z.ones_equiv. pose proof (Z.pow_pos_nonneg 2 t). assert (2 ^ t ≤ 2 ^ 64) by (apply Z.pow_le_mono_r; lia).
    unfold word. change WB with (2 ^ 64). lia.
  - rewrite length_app, Hlen. cbn. lia.
  - replace (Z.to_nat (rn - 1)) with (un + j)%nat by lia. rewrite !val_app, val_max, Hv1, Hlen, Hl1. cbn [val]. rewrite wpow_add, Z.ones_equiv. unfold un. lia.
Qed.

(** The low limbs are copied unless they are in place. *)
Lemma wp_copy_low s r u rp up lo Q E :
  placed r u rp up → holds (z_mem s) up lo → space (z_mem s) rp (length lo) →
  (∀ m', changed (z_mem s) m' (λ q, within q rp (length lo)) → holds m' rp lo → (rp = up → m' = z_mem s) → Q tt (set_zmem m' s)) →
  wp (if negb (bool_decide (r = u)) then limbs (mpn_copyi rp up (Z.of_nat (length lo))) else mret tt) Q E s.
Proof.
  intros Hpl Hh Hs HQ. case_bool_decide as Hru; cbn [negb].
  - apply wp_ret. destruct Hpl as (_ & _ & He & _). rewrite (He Hru) in *. rewrite <- (zmem_id s). by apply HQ.
  - apply wp_zoom. apply wp_mpn_copyi; [done|done|by eapply placed_up|]. intros m' Hm'. apply HQ; [apply Hm'|apply Hm'|].
    destruct Hpl as (_ & _ & _ & Hn). intros ->. by destruct (Hn Hru).
Qed.

Lemma changed_within m m' p n p' n' :
  changed m m' (λ q, within q p n) → p.1 = p'.1 → p'.2 ≤ p.2 → p.2 + Z.of_nat n ≤ p'.2 + Z.of_nat n' → changed m m' (λ q, within q p' n').
Proof. intros Hc Hb Hl Hr. eapply changed_mono; [exact Hc|]. intros q [Hq1 Hq2]. split; [congruence|lia]. Qed.

Lemma holds_kept m m' rp up n lo h k :
  changed m m' (λ q, within q rp n) → (rp = up → m' = m) → (rp = up ∨ rp.1 ≠ up.1) → holds m up (lo ++ h :: k) →
  cell m' (padd up (Z.of_nat (length lo))) = Some (Some h).
Proof.
  intros [Hf _] Hsame Hor Hh. specialize (Hh (length lo) h (list_lookup_middle _ _ _ _ eq_refl)). destruct Hor as [He|Hne]; [by rewrite Hsame|].
  rewrite Hf; [done|]. intros [Hb _]. by apply Hne.
Qed.

(** The operand is not shorter than the divisor. *)
Lemma wp_r_2exp_long {A} s r u rp up la rn t (up_ : bool) (k1 k2 : MZ A) Q E :
  let d := wpow (Z.to_nat (rn - 1)) * 2 ^ t in
  placed r u rp up → holds (z_mem s) up la → words la → 0 < rn ≤ Z.of_nat (length la) → space (z_mem s) rp (Z.to_nat rn) → 1 ≤ t ≤ 64 →
  (∀ l m', changed (z_mem s) m' (λ q, within q rp (Z.to_nat rn)) → holds m' rp l → words l → Z.of_nat (length l) = rn →
     val l = (if up_ then - val la else val la) mod d → wp (if up_ then k1 else k2) Q E (set_zmem m' s)) →
  wp (_ ← (if negb (bool_decide (r = u)) then limbs (mpn_copyi rp up (rn - 1)) else mret tt);
      x ← limbs (load (padd up (rn - 1)));
      _ ← limbs (store (padd rp (rn - 1)) (Z.land x (Z.ones t)));
      if up_ then
        _ ← limbs (mpn_neg rp rp rn);
        x ← limbs (load (padd rp (rn - 1)));
        _ ← limbs (store (padd rp (rn - 1)) (Z.land x (Z.ones t)));
        k1
      else k2) Q E s.
Proof.
  intros d Hpl Hh Hw Hrn Hs Ht HQ. destruct (split_at la (Z.to_nat (rn - 1))) as (lo & hi & -> & Hlo); [lia|].
  rewrite length_app in Hrn. destruct hi as [|h hi]; [cbn in Hrn; lia|]. assert (rn = Z.of_nat (length lo) + 1) as -> by lia. clear Hlo. subst d.
  replace (Z.of_nat (length lo) + 1 - 1) with (Z.of_nat (length lo)) in * by lia. rewrite Nat2Z.id in HQ. set (d := wpow (length lo) * 2 ^ t) in *.
  assert (Z.to_nat (Z.of_nat (length lo) + 1) = length lo + 1)%nat as Hn by lia. rewrite Hn in *.
  apply Forall_app in Hw as [Hwl [Hwh Hwhi]%Forall_cons]. pose proof Hh as [Hhl _]%holds_app. assert (rp = up ∨ rp.1 ≠ up.1) as Hor.
  { destruct Hpl as (_ & _ & H1 & H2). destruct (decide (r = u)); [left|right]; auto. }
  apply wp_bind. apply (wp_copy_low s r u rp up lo); try done; [eapply space_sub; [exact Hs|lia]|]. intros m1 Hc1 Hh1 Hsame.
  apply wp_bind, wp_zoom. cbn [z_mem set_zmem]. eapply wp_load; [by eapply holds_kept|].
  assert (∀ y, word y → word (Z.land y (Z.ones t))) as Hland.
  { intros y Hy. rewrite Z.land_ones by lia. pose proof (Z.mod_pos_bound y (2 ^ t) ltac:(apply Z.pow_pos_nonneg; lia)).
    assert (2 ^ t ≤ 2 ^ 64) by (apply Z.pow_le_mono_r; lia). unfold word. change WB with (2 ^ 64). lia. }
  assert (0 < d) as Hd by (unfold d; pose proof (wpow_pos (length lo)); pose proof (Z.pow_pos_nonneg 2 t); nia).
  apply wp_bind, wp_zoom. cbn [z_mem set_zmem]. apply wp_store_writes; [apply Hc1, Hs; lia|]. intros m2 Hw2.
  assert (changed (z_mem s) m2 (λ q, within q rp (length lo + 1))) as Hc2.
  { eapply changed_trans; [eapply changed_within; [exact Hc1|done|lia|lia]|eapply changed_within; [exact (proj2 Hw2)|done|cbn; lia|cbn; lia]]. }
  assert (holds m2 rp (lo ++ [Z.land h (Z.ones t)])) as Hh2.
  { apply holds_app. split; [|apply Hw2]. eapply writes_holds; [exact Hw2| |exact Hh1]. right. right. unfold padd. cbn. lia. }
  assert (words (lo ++ [Z.land h (Z.ones t)])) as Hww2 by (apply Forall_app; split; [done|apply words_cons; [by apply Hland|constructor]]).
  assert (val (lo ++ [Z.land h (Z.ones t)]) = val (lo ++ h :: hi) mod d) as Hv2.
  { rewrite mask_top by (done || lia). unfold d. rewrite !(proj2 (split_div lo _ t ltac:(lia) Hwl)). do 2 f_equal. cbn [val]. rewrite Z.mul_0_r, Z.add_0_r.
    change WB with (2 ^ 64). replace 64 with (t + (64 - t)) by lia. rewrite Z.pow_add_r, <- Z.mul_assoc, (Z.mul_comm (2 ^ t)) by lia.
    rewrite Z.mod_add; [done|]. apply Z.pow_nonzero; lia. }
  set (l2 := lo ++ [Z.land h (Z.ones t)]) in *. assert (length l2 = length lo + 1)%nat as Hl2 by (unfold l2; by rewrite length_app).
  destruct up_; [|apply (HQ l2); try done; lia].
  replace (Z.of_nat (length lo) + 1) with (Z.of_nat (length l2)) by lia. apply wp_bind, wp_zoom. cbn [z_mem set_zmem]. unfold mpn_neg. rewrite Nat2Z.id.
  eapply wp_neg_loop; try done; [intros E0; rewrite E0 in Hl2; cbn in Hl2; lia|intros i Hi; apply Hc2, Hs; lia|right; left; lia|].
  intros rl c m3 Hl3 Hw3 Hv3 -> Hm3. destruct rl as [|h3 lo3 _] using rev_ind; [cbn in Hl3; lia|]. rewrite length_app in Hl3. cbn in Hl3.
  assert (length lo3 = length lo) as Hlo3 by lia. apply Forall_app in Hw3 as [Hwl3 Hwh3%Forall_inv].
  apply wp_bind, wp_zoom. cbn [z_mem set_zmem]. rewrite <- Hlo3. eapply wp_load; [apply Hm3; by apply list_lookup_middle|].
  apply wp_bind, wp_zoom. cbn [z_mem set_zmem]. apply wp_store_writes; [apply Hm3, Hc2, Hs; lia|]. intros m4 Hw4.
  apply (HQ (lo3 ++ [Z.land h3 (Z.ones t)])).
  - eapply changed_trans; [exact Hc2|]. eapply changed_trans; [eapply changed_within; [exact (proj2 Hm3)|done|lia|rewrite length_app; cbn; lia]|].
    eapply changed_within; [exact (proj2 Hw4)|done|cbn; lia|cbn; lia].
  - apply holds_app. split; [|apply Hw4]. pose proof (proj1 Hm3) as [Hh3 _]%holds_app. eapply writes_holds; [exact Hw4| |exact Hh3]. right. right. unfold padd. cbn. lia.
  - apply Forall_app. split; [done|]. apply words_cons; [by apply Hland|constructor].
  - rewrite length_app. cbn. lia.
  - rewrite mask_top by (done || lia). rewrite Hlo3. fold d. rewrite Hv3, Hv2, Hl2.
    assert (wpow (length lo + 1) = d * 2 ^ (64 - t)) as ->.
    { unfold d. rewrite wpow_add, <- Z.mul_assoc, <- Z.pow_add_r by lia. f_equal. change (wpow 1) with (2 ^ 64). f_equal. lia. }
    set (v := val (lo ++ h :: hi)). rewrite <- Z.mul_assoc, (Z.mul_comm d). 
    rewrite <- Z.add_opp_l, Z.mod_add by lia. rewrite <- (Z.sub_0_l (v mod d)), Zminus_mod_idemp_r. by rewrite Z.sub_0_l.
Qed.

(** The value of the remainder: what the limbs stand for, and their sign *)
Lemma r_2exp_value mode x d v (neg : bool) : x ≠ 0 → 0 < d → neg = (if away mode x then 0 <? x else x <? 0) →
  v = (if away mode x then - Z.abs x else Z.abs x) mod d → (if neg then - v else v) = (div_round mode x d).2.
Proof.
  intros Hx Hd -> ->. rewrite div_round_abs by done. cbn [snd]. destruct (away mode x); cbn [andb].
  - destruct (Z.eqb_spec (Z.abs x mod d) 0) as [H0|H0]; cbn [negb].
    + rewrite Z.mod_opp_l_z by lia. rewrite H0. destruct (0 <? x); lia.
    + rewrite Z.mod_opp_l_nz by lia. destruct (Z.ltb_spec 0 x); lia.
  - destruct (Z.ltb_spec x 0); [rewrite (Z.sgn_neg x) by done|rewrite (Z.sgn_pos x) by lia]; lia.
Qed.

Lemma wp_mpz_div_r_2exp s σ r w u x b mode Q E :
  zok F s σ → σ !! r = Some (Some w) → σ !! u = Some (Some x) → 0 ≤ b → (b + 63) / 64 ≤ INT_MAX → nlimbs x ≤ INT_MAX →
  (∀ s', zok F s' (<[r := Some (div_round mode x (2 ^ b)).2]> σ) → Q tt s') → wp (mpz_div_r_2exp r u b mode) Q E s.
Proof.
  intros Hok Hr Hu Hb Hbm Hn HQ. destruct (zok_operand F s σ u x Hok Hu) as (zu & _ & Hzu & _ & _ & _ & _ & _ & Hsu & _).
  pose proof (Z.pow_pos_nonneg 2 b ltac:(lia) Hb) as Hpow.
  unfold mpz_div_r_2exp. apply wp_bind. eapply wp_get_mpz; [done|]. rewrite Hsu. destruct ((_ =? 0) || (b =? 0)) eqn:Hz0.
  { assert (div_round mode x (2 ^ b) = (if x =? 0 then 0 else x, 0)) as E0.
    { apply orb_true_iff in Hz0 as [Hz0%Z.eqb_eq|Hz0%Z.eqb_eq].
      - assert (x = 0) as -> by (pose proof (size_sgn x) as Hsg; rewrite Hz0 in Hsg; cbn in Hsg; lia). cbn [Z.eqb]. apply div_round_unique; [lia|lia|lia|destruct mode; lia].
      - subst b. apply div_round_unique; [lia|destruct (Z.eqb_spec x 0); lia|cbn; lia|destruct mode; lia]. }
    rewrite E0 in HQ. eapply wp_set_size_0; try done. }
  apply orb_false_iff in Hz0 as [Hx0%Z.eqb_neq Hb0%Z.eqb_neq]. assert (x ≠ 0) as Hx by (by intros ->). pose proof (nlimbs_pos x Hx) as Hpos.
  assert (b + 64 < WB) as Hbw by (pose proof (Z.mul_div_le (b + 63) 64); pose proof (Z.mod_pos_bound (b + 63) 64); pose proof (Z.div_mod (b + 63) 64); unfold INT_MAX, WB in *; lia).
  assert (u64 (u64 (b + GMP_LIMB_BITS) - 1) / GMP_LIMB_BITS = (b + 63) / 64) as Ern.
  { unfold GMP_LIMB_BITS. rewrite (u64_small (b + 64)), u64_small by lia. f_equal. lia. }
  destruct (r_2exp_mask b ltac:(lia) Hbw) as (Hrn & Ht & Emask & Epow). rewrite Ern in *. set (rn := (b + 63) / 64) in *. set (t := b - 64 * (rn - 1)) in *.
  rewrite Emask. clearbody rn t. clear Ern Emask. apply wp_bind. unfold zassert, c_assert. rewrite (proj2 (Z.ltb_lt 0 rn)) by done. eapply wp_lift_ok; [done|].
  apply wp_bind. eapply wp_realloc_target; try done. intros zr s1 Hzr Hal Hz0 Hs Hk Hok1.
  destruct (zok_operand F s1 σ u x Hok1 Hu) as (zu1 & la & Hzu1 & Hwa & Hna & Hha & Hva & Hla & _ & Hau & H0a).
  apply wp_bind. eapply wp_get_mpz; [done|]. rewrite size_abs. change (rounds_away mode (Z.sgn x * nlimbs x)) with (away mode x).
  assert (placed r u (mp_d zr) (mp_d zu1)) as Hpl.
  { split_and!; try done; [intros ->; congruence|]. intros Hne. eapply (zok_apart F s1 σ r u); try done; lia. }
  apply wp_bind. assert (∀ us' rn' m' l, changed (z_mem s1) m' (λ q, within q (mp_d zr) (Z.to_nat rn)) → holds m' (mp_d zr) l → words l →
    Z.of_nat (length l) = rn' → rn' ≤ rn → (if us' <? 0 then - val l else val l) = (div_round mode x (2 ^ b)).2 →
    wp (rn ← limbs (mpn_normalized_size (mp_d zr) rn'); set_size r (if us' <? 0 then - rn else rn)) Q E (set_zmem m' s1)) as Hfin.
  { intros us' rn' m' l Hc Hh Hw <- Hle He. eapply (wp_normalize_set (set_zmem m' s1) σ r zr l (us' <? 0)); try done; [|lia|].
    - eapply (zok_write_block F s1 σ r zr (Z.to_nat rn)); try done. lia.
    - rewrite He. apply HQ. }
  assert ((- (Z.sgn x * nlimbs x) <? 0) = (0 <? x)) as Esg.
  { destruct (Z.ltb_spec 0 x); [apply Z.ltb_lt|apply Z.ltb_ge]; nia. }
  rewrite <- Hla in Hpos |- *. destruct (Z.ltb_spec (Z.of_nat (length la)) rn) as [Hlt|Hge].
  - assert (Z.abs x < 2 ^ b) as Hsmall.
    { rewrite Epow, <- Hva. pose proof (val_bound la Hwa). pose proof (Z.pow_pos_nonneg 2 t).
      assert (wpow (length la) ≤ wpow (Z.to_nat (rn - 1))) by (unfold wpow; apply Z.pow_le_mono_r; unfold WB; lia). nia. }
    destruct (away mode x) eqn:Haw.
    + eapply (wp_r_2exp_short s1 r u _ _ la rn t); try done; [rewrite Hva; lia|eapply space_sub; [exact Hs|lia]|lia|].
      intros l m' Hc Hh Hw Hl Hv. apply wp_ret. apply (Hfin _ _ m' l); try done; try lia. rewrite Hla, Esg.
      apply r_2exp_value; try done; [by rewrite Haw|]. rewrite Haw, Hv, <- Epow, Hva. apply Z.mod_unique with (-1); lia.
    + apply wp_bind. eapply (wp_copy_low s1 r u); try done; [eapply space_sub; [exact Hs|lia]|]. intros m' Hc Hh _. apply wp_ret.
      apply (Hfin _ _ m' la); try done; try lia.
      * eapply changed_within; [exact Hc|done|lia|lia].
      * rewrite Hla, size_neg. apply r_2exp_value; try done; [by rewrite Haw|]. rewrite Haw, Hva. symmetry. apply Z.mod_small. lia.
  - eapply (wp_r_2exp_long s1 r u _ _ la rn t (away mode x)); try done; [eapply space_sub; [exact Hs|lia]|]. intros l m' Hc Hh Hw Hl Hv.
    rewrite <- Epow, Hva in Hv. destruct (away mode x) eqn:Haw; apply wp_ret; apply (Hfin _ _ m' l); try done; try lia.
    + rewrite Hla, Esg. apply r_2exp_value; try done; by rewrite Haw.
    + rewrite Hla, size_neg. apply r_2exp_value; try done; by rewrite Haw.
Qed.

(** ** Exact division, divisibility, congruence *)

Lemma rem_divide x y : y ≠ 0 → (Z.rem x y =? 0) = bool_decide (y | x).
Proof.
  intros Hy. case_bool_decide as Hd; [apply Z.eqb_eq|apply Z.eqb_neq]; rewrite Z.rem_divide by done; done.
Qed.

Lemma wp_zassert b Q E s : b = true → Q tt s → wp (zassert b) Q E s.
Proof. intros -> HQ. unfold zassert, c_assert. by eapply wp_lift_ok. Qed.

Lemma wp_mpz_divexact s σ q w n d x y v Q E :
  zok F s σ → σ !! q = Some (Some w) → σ !! n = Some (Some x) → σ !! d = Some (Some y) → y ≠ 0 → x = v * y →
  nlimbs x < INT_MAX → nlimbs y < INT_MAX → (∀ s', zok F s' (<[q := Some v]> σ) → Q tt s') → wp (mpz_divexact q n d) Q E s.
Proof.
  intros Hok Hq Hn Hd Hy Hx Hnx Hny HQ. unfold mpz_divexact. apply wp_bind.
  assert (div_round GMP_DIV_TRUNC x y = (v, 0)) as E0 by (apply div_round_unique; [done|lia|lia|lia]).
  eapply (wp_mpz_div_qr F s σ (Some q) None); try done; [by exists w|]. rewrite E0. intros s' Hok'. apply wp_zassert; [done|]. by apply HQ.
Qed.

Lemma wp_mpz_divisible_p s σ n d x y Q E :
  zok F s σ → σ !! n = Some (Some x) → σ !! d = Some (Some y) → y ≠ 0 → nlimbs x < INT_MAX → nlimbs y < INT_MAX →
  (∀ s', zok F s' σ → Q (bool_decide (y | x)) s') → wp (mpz_divisible_p n d) Q E s.
Proof.
  intros Hok Hn Hd Hy Hnx Hny HQ. unfold mpz_divisible_p. apply wp_bind. eapply (wp_mpz_div_qr F s σ None None); try done.
  intros s' Hok'. apply wp_ret. cbn [div_round snd]. rewrite negb_involutive, rem_divide by done. by apply HQ.
Qed.

Lemma wp_mpz_congruent_p s σ a b m x y z Q E :
  zok F s σ → σ !! a = Some (Some x) → σ !! b = Some (Some y) → σ !! m = Some (Some z) →
  nlimbs x + 1 < INT_MAX → nlimbs y + 1 < INT_MAX → nlimbs z < INT_MAX →
  (∀ s', zok F s' σ → Q (bool_decide (z | x - y)) s') → wp (mpz_congruent_p a b m) Q E s.
Proof.
  intros Hok Ha Hb Hm Hnx Hny Hnz HQ. unfold mpz_congruent_p. apply wp_bind. eapply wp_mpz_sgn; try done.
  destruct (Z.eq_dec z 0) as [->|Hz].
  - cbn [Z.sgn Z.eqb]. apply wp_bind. eapply wp_mpz_cmp; try done. apply wp_ret.
    replace (cmp_result (x ?= y) =? 0) with (bool_decide (0 | x - y)); [by apply HQ|].
    destruct (Z.compare_spec x y) as [->|Hlt|Hlt]; cbn [cmp_result]; [apply bool_decide_true; rewrite Z.sub_diag; apply Z.divide_0_r|..];
      apply bool_decide_false; intros Hd%Z.divide_0_l; lia.
  - rewrite (proj2 (Z.eqb_neq (Z.sgn z) 0)) by lia. apply wp_bind. eapply wp_local_mpz; [done|]. intros t s1 Ht Htn _ Hok1.
    apply wp_bind. eapply wp_mpz_init; try done. intros s2 Hok2. apply wp_bind.
    eapply (wp_mpz_sub F s2 _ t 0 a x b y); [done|by rewrite lookup_insert_eq|by apply other|by apply other|lia|lia|]. intros s3. rewrite insert_insert_eq. intros Hok3.
    pose proof (nlimbs_add x (- y)) as Hna. rewrite nlimbs_opp in Hna. rewrite Z.add_opp_r in Hna.
    apply wp_bind. eapply (wp_mpz_divisible_p s3 _ t m (x - y) z); [done|by rewrite lookup_insert_eq|by apply other|done|lia|done|]. intros s4 Hok4.
    apply wp_bind. eapply wp_mpz_clear; [done|by rewrite lookup_insert_eq|]. intros s5. rewrite delete_insert_eq, delete_id by done. intros Hok5. by apply wp_ret, HQ.
Qed.

Lemma wp_mpz_divexact_ui s σ q w n d x v Q E :
  zok F s σ → σ !! q = Some (Some w) → σ !! n = Some (Some x) → 0 < d < WB → x = v * d → nlimbs x ≤ INT_MAX →
  (∀ s', zok F s' (<[q := Some v]> σ) → Q tt s') → wp (mpz_divexact_ui q n d) Q E s.
Proof.
  intros Hok Hq Hn Hd Hx Hnx HQ. unfold mpz_divexact_ui. apply wp_bind.
  assert (div_round GMP_DIV_TRUNC x d = (v, 0)) as E0 by (apply div_round_unique; [lia|lia|lia|lia]).
  eapply (wp_mpz_div_qr_ui s σ (Some q) None); try done; [by exists w|]. rewrite E0. intros s' Hok'. apply wp_zassert; [done|]. by apply HQ.
Qed.

Lemma wp_mpz_divisible_ui_p s σ n d x Q E :
  zok F s σ → σ !! n = Some (Some x) → 0 < d < WB → nlimbs x ≤ INT_MAX →
  (∀ s', zok F s' σ → Q (bool_decide (d | x)) s') → wp (mpz_divisible_ui_p n d) Q E s.
Proof.
  intros Hok Hn Hd Hnx HQ. unfold mpz_divisible_ui_p. apply wp_bind. eapply (wp_mpz_div_qr_ui s σ None None); try done.
  intros s' Hok'. apply wp_ret. cbn [div_round snd]. replace (Z.abs (Z.rem x d) =? 0) with (Z.rem x d =? 0);
    [rewrite rem_divide by lia; by apply HQ|]. destruct (Z.eqb_spec (Z.rem x d) 0), (Z.eqb_spec (Z.abs (Z.rem x d)) 0); lia.
Qed.
End quo.
