(* ===== verification/MpzBits.v ===== *)
(** * Bit operations on integers (examples/multiprecision/mini-gmp/mini-gmp.c)

    Integers are seen as infinite two's complement numbers: test, set, clear and complement
    of a bit, the bitwise operations, population count, Hamming distance and scans. *)

From S2P Require Import Prelude CString Queue State UInt64 Mpn MpnDiv Mpz.

(** ** Single bits *)

(** [while (--limb_index >= 0) if (d->_mp_d[limb_index] > 0) return ...]: is there a limb
    that is not 0? *)
Fixpoint any_below (n : nat) (dp : ptr) : L bool :=
  match n with
  | O => mret false
  | S n => x ← load (padd dp (Z.of_nat n)); if 0 <? x then mret true else any_below n dp
  end.

Definition mpz_tstbit (d : mpz_t) (bit_index : Z) : MZ Z :=
  zd ← get_mpz d;
  let ds := mp_size zd in
  let dn := Z.abs ds in
  let limb_index := bit_index / GMP_LIMB_BITS in
  if dn <=? limb_index then mret (b2z (ds <? 0))
  else
    let shift := bit_index mod GMP_LIMB_BITS in
    w ← limbs (load (padd (mp_d zd) limb_index));
    let bit := Z.land (Z.shiftr w shift) 1 in
    if ds <? 0 then
      if (0 <? shift) && (0 <? u64 (Z.shiftl w (GMP_LIMB_BITS - shift))) then mret (Z.lxor bit 1)
      else
        below ← limbs (any_below (Z.to_nat limb_index) (mp_d zd));
        mret (if below : bool then Z.lxor bit 1 else bit)
    else mret bit.

(** [for (i = dn; i < limb_index; i++) dp[i] = 0;] *)
Fixpoint clear_limbs (n : nat) (dp : ptr) (i : Z) : L unit :=
  match n with
  | O => mret tt
  | S n => _ ← store (padd dp i) 0; clear_limbs n dp (i + 1)
  end.

Definition mpz_abs_add_bit (d : mpz_t) (bit_index : Z) : MZ unit :=
  zd ← get_mpz d;
  let dn := Z.abs (mp_size zd) in
  let limb_index := bit_index / GMP_LIMB_BITS in
  let bit := u64 (Z.shiftl 1 (bit_index mod GMP_LIMB_BITS)) in
  dn ← (if dn <=? limb_index then
          dp ← MPZ_REALLOC d (limb_index + 1);
          _ ← limbs (store (padd dp limb_index) bit);
          _ ← limbs (clear_limbs (Z.to_nat (limb_index - dn)) dp dn);
          mret (limb_index + 1)
        else
          let dp := mp_d zd in
          cy ← limbs (mpn_add_1 (padd dp limb_index) (padd dp limb_index) (dn - limb_index) bit);
          if 0 <? cy then
            dp ← MPZ_REALLOC d (dn + 1);
            _ ← limbs (store (padd dp dn) cy);
            mret (dn + 1)
          else mret dn);
  zd ← get_mpz d;
  set_size d (if mp_size zd <? 0 then - dn else dn).

Definition mpz_abs_sub_bit (d : mpz_t) (bit_index : Z) : MZ unit :=
  zd ← get_mpz d;
  let dn := Z.abs (mp_size zd) in
  let dp := mp_d zd in
  let limb_index := bit_index / GMP_LIMB_BITS in
  let bit := u64 (Z.shiftl 1 (bit_index mod GMP_LIMB_BITS)) in
  _ ← zassert (limb_index <? dn);
  _ ← zassert_nocarry (mpn_sub_1 (padd dp limb_index) (padd dp limb_index) (dn - limb_index) bit);
  dn ← limbs (mpn_normalized_size dp dn);
  set_size d (if mp_size zd <? 0 then - dn else dn).

Definition mpz_setbit (d : mpz_t) (bit_index : Z) : MZ unit :=
  b ← mpz_tstbit d bit_index;
  if b =? 0 then
    zd ← get_mpz d;
    if 0 <=? mp_size zd then mpz_abs_add_bit d bit_index else mpz_abs_sub_bit d bit_index
  else mret tt.

Definition mpz_clrbit (d : mpz_t) (bit_index : Z) : MZ unit :=
  b ← mpz_tstbit d bit_index;
  if negb (b =? 0) then
    zd ← get_mpz d;
    if 0 <=? mp_size zd then mpz_abs_sub_bit d bit_index else mpz_abs_add_bit d bit_index
  else mret tt.

Definition mpz_combit (d : mpz_t) (bit_index : Z) : MZ unit :=
  b ← mpz_tstbit d bit_index;
  zd ← get_mpz d;
  if negb (Z.lxor b (b2z (mp_size zd <? 0)) =? 0) then mpz_abs_sub_bit d bit_index else mpz_abs_add_bit d bit_index.

(** ** Complement, and, or, exclusive or *)

Definition mpz_com (r u : mpz_t) : MZ unit := _ ← mpz_neg r u; mpz_sub_ui r r 1.

(** One limb of an operand in two's complement, and the carry:
    [ul = (up[i] ^ ux) + uc; uc = ul < uc;] *)
Definition twos_limb (x ux uc : Z) : Z * Z :=
  let ul := u64 (Z.lxor x ux + uc) in (ul, b2z (ul <? uc)).

(** The limbs that both operands have.  [op] combines them; the carries are returned. *)
Fixpoint both_loop (op : Z → Z → Z) (n : nat) (i : Z) (up vp rp : ptr) (ux vx rx uc vc rc : Z) : L (Z * Z * Z) :=
  match n with
  | O => mret (uc, vc, rc)
  | S n =>
     x ← load (padd up i);
     let '(ul, uc) := twos_limb x ux uc in
     y ← load (padd vp i);
     let '(vl, vc) := twos_limb y vx vc in
     let '(rl, rc) := twos_limb (op ul vl) rx rc in
     _ ← store (padd rp i) rl;
     both_loop op n (i + 1) up vp rp ux vx rx uc vc rc
  end.

(** The limbs that only the longer operand has; [f ul] is the limb before the sign is
    taken away. *)
Fixpoint high_loop (f : Z → Z) (n : nat) (i : Z) (up rp : ptr) (ux uc rc : Z) : L Z :=
  match n with
  | O => mret rc
  | S n =>
     x ← load (padd up i);
     let '(ul, uc) := twos_limb x ux uc in
     let '(rl, rc) := twos_limb (f ul) 0 rc in
     _ ← store (padd rp i) rl;
     high_loop f n (i + 1) up rp ux uc rc
  end.

(** The end of the three functions *)
Definition bitop_finish (r : mpz_t) (rp : ptr) (rn rx rc : Z) : MZ unit :=
  rn ← (if negb (rc =? 0) then _ ← limbs (store (padd rp rn) rc); mret (rn + 1)
        else limbs (mpn_normalized_size rp rn));
  set_size r (if negb (rx =? 0) then - rn else rn).

Definition mpz_and (r u v : mpz_t) : MZ unit :=
  zu ← get_mpz u;
  zv ← get_mpz v;
  let '(u, v, zu, zv) := if Z.abs (mp_size zu) <? Z.abs (mp_size zv) then (v, u, zv, zu) else (u, v, zu, zv) in
  let un := Z.abs (mp_size zu) in
  let vn := Z.abs (mp_size zv) in
  if vn =? 0 then set_size r 0
  else
    let uc := b2z (mp_size zu <? 0) in
    let vc := b2z (mp_size zv <? 0) in
    let rc := Z.land uc vc in
    let ux := u64 (- uc) in
    let vx := u64 (- vc) in
    let rx := u64 (- rc) in
    let rn := if negb (vx =? 0) then un else vn in
    rp ← MPZ_REALLOC r (rn + rc);
    zu ← get_mpz u;
    zv ← get_mpz v;
    let up := mp_d zu in
    let vp := mp_d zv in
    '(uc, vc, rc) ← limbs (both_loop Z.land (Z.to_nat vn) 0 up vp rp ux vx rx uc vc rc);
    _ ← zassert (vc =? 0);
    rc ← limbs (high_loop (λ ul, Z.lxor (Z.land ul vx) rx) (Z.to_nat (rn - vn)) vn up rp ux uc rc);
    bitop_finish r rp rn rx rc.

Definition mpz_ior (r u v : mpz_t) : MZ unit :=
  zu ← get_mpz u;
  zv ← get_mpz v;
  let '(u, v, zu, zv) := if Z.abs (mp_size zu) <? Z.abs (mp_size zv) then (v, u, zv, zu) else (u, v, zu, zv) in
  let un := Z.abs (mp_size zu) in
  let vn := Z.abs (mp_size zv) in
  if vn =? 0 then mpz_set r u
  else
    let uc := b2z (mp_size zu <? 0) in
    let vc := b2z (mp_size zv <? 0) in
    let rc := Z.lor uc vc in
    let ux := u64 (- uc) in
    let vx := u64 (- vc) in
    let rx := u64 (- rc) in
    let rn := if negb (vx =? 0) then vn else un in
    rp ← MPZ_REALLOC r (rn + rc);
    zu ← get_mpz u;
    zv ← get_mpz v;
    let up := mp_d zu in
    let vp := mp_d zv in
    '(uc, vc, rc) ← limbs (both_loop Z.lor (Z.to_nat vn) 0 up vp rp ux vx rx uc vc rc);
    _ ← zassert (vc =? 0);
    rc ← limbs (high_loop (λ ul, Z.lxor (Z.lor ul vx) rx) (Z.to_nat (rn - vn)) vn up rp ux uc rc);
    bitop_finish r rp rn rx rc.

Definition mpz_xor (r u v : mpz_t) : MZ unit :=
  zu ← get_mpz u;
  zv ← get_mpz v;
  let '(u, v, zu, zv) := if Z.abs (mp_size zu) <? Z.abs (mp_size zv) then (v, u, zv, zu) else (u, v, zu, zv) in
  let un := Z.abs (mp_size zu) in
  let vn := Z.abs (mp_size zv) in
  if vn =? 0 then mpz_set r u
  else
    let uc := b2z (mp_size zu <? 0) in
    let vc := b2z (mp_size zv <? 0) in
    let rc := Z.lxor uc vc in
    let ux := u64 (- uc) in
    let vx := u64 (- vc) in
    let rx := u64 (- rc) in
    rp ← MPZ_REALLOC r (un + rc);
    zu ← get_mpz u;
    zv ← get_mpz v;
    let up := mp_d zu in
    let vp := mp_d zv in
    '(uc, vc, rc) ← limbs (both_loop Z.lxor (Z.to_nat vn) 0 up vp rp ux vx rx uc vc rc);
    _ ← zassert (vc =? 0);
    rc ← limbs (high_loop (λ ul, Z.lxor ul ux) (Z.to_nat (un - vn)) vn up rp ux uc rc);
    bitop_finish r rp un rx rc.

(** ** Counting bits *)

(** 16 bits at a time *)
Definition popcount_16 (x : Z) : Z :=
  let w := Z.land (Z.shiftr x 1) 21845 + Z.land x 21845 in
  let w := Z.land (Z.shiftr w 2) 13107 + Z.land w 13107 in
  let w := Z.land (Z.shiftr w 4) 3855 + Z.land w 3855 in
  Z.shiftr w 8 + Z.land w 255.

(** [for (c = 0; x > 0; x >>= 16)]: at most 4 times *)
Fixpoint popcount_loop (fuel : nat) (x c : Z) : outcome Z :=
  if x =? 0 then Ok c
  else match fuel with O => Err OutOfFuel | S fuel => popcount_loop fuel (Z.shiftr x 16) (c + popcount_16 x) end.
Definition gmp_popcount_limb (x : Z) : outcome Z := popcount_loop 4 x 0.

Fixpoint mpn_popcount_loop (n : nat) (p : ptr) (i c : Z) : L Z :=
  match n with
  | O => mret c
  | S n => x ← load (padd p i); k ← lift (gmp_popcount_limb x); mpn_popcount_loop n p (i + 1) (u64 (c + k))
  end.
Definition mpn_popcount (p : ptr) (n : Z) : L Z := mpn_popcount_loop (Z.to_nat n) p 0 0.

Definition mpz_popcount (u : mpz_t) : MZ Z :=
  zu ← get_mpz u;
  if mp_size zu <? 0 then mret GMP_LIMB_MAX else limbs (mpn_popcount (mp_d zu) (mp_size zu)).

Fixpoint hamdist_both (n : nat) (i : Z) (up vp : ptr) (comp uc vc c : Z) : L (Z * Z * Z) :=
  match n with
  | O => mret (uc, vc, c)
  | S n =>
     x ← load (padd up i);
     let '(ul, uc) := twos_limb x comp uc in
     y ← load (padd vp i);
     let '(vl, vc) := twos_limb y comp vc in
     k ← lift (gmp_popcount_limb (Z.lxor ul vl));
     hamdist_both n (i + 1) up vp comp uc vc (u64 (c + k))
  end.
Fixpoint hamdist_high (n : nat) (i : Z) (up : ptr) (comp uc c : Z) : L Z :=
  match n with
  | O => mret c
  | S n =>
     x ← load (padd up i);
     let '(ul, uc) := twos_limb x comp uc in
     k ← lift (gmp_popcount_limb (Z.lxor ul comp));
     hamdist_high n (i + 1) up comp uc (u64 (c + k))
  end.

Definition mpz_hamdist (u v : mpz_t) : MZ Z :=
  zu ← get_mpz u;
  zv ← get_mpz v;
  let un := mp_size zu in
  let vn := mp_size zv in
  if Z.lxor un vn <? 0 then mret GMP_LIMB_MAX
  else
    let uc := b2z (un <? 0) in
    let comp := u64 (- uc) in
    _ ← (if un <? 0 then zassert (vn <? 0) else mret tt);
    let '(un, vn) := if un <? 0 then (- un, - vn) else (un, vn) in
    let '(up, un, vp, vn) := if un <? vn then (mp_d zv, vn, mp_d zu, un) else (mp_d zu, un, mp_d zv, vn) in
    '(uc, vc, c) ← limbs (hamdist_both (Z.to_nat vn) 0 up vp comp uc uc 0);
    _ ← zassert (vc =? 0);
    limbs (hamdist_high (Z.to_nat (un - vn)) vn up comp uc c).

(** ** Scans *)

Definition mpz_scan1 (u : mpz_t) (starting_bit : Z) : MZ Z :=
  zu ← get_mpz u;
  let us := mp_size zu in
  let un := Z.abs us in
  let i := starting_bit / GMP_LIMB_BITS in
  if un <=? i then mret (if 0 <=? us then GMP_LIMB_MAX else starting_bit)
  else
    let up := mp_d zu in
    limb ← limbs (load (padd up i));
    '(limb, ux) ←
      (if negb (starting_bit =? 0) then
         '(limb, ux) ←
           (if us <? 0 then
              zp ← limbs (mpn_zero_p up i);
              let ux := b2z zp in
              let limb := u64 (limb_not limb + ux) in
              mret (limb, u64 (- b2z (ux <=? limb)))
            else mret (limb, 0));
         mret (Z.land limb (u64 (Z.shiftl GMP_LIMB_MAX (starting_bit mod GMP_LIMB_BITS))), ux)
       else mret (limb, 0));
    limbs (mpn_common_scan (Z.to_nat un) limb i up un ux).

Definition mpz_scan0 (u : mpz_t) (starting_bit : Z) : MZ Z :=
  zu ← get_mpz u;
  let us := mp_size zu in
  let ux := u64 (- b2z (0 <=? us)) in
  let un := Z.abs us in
  let i := starting_bit / GMP_LIMB_BITS in
  if un <=? i then mret (if negb (ux =? 0) then starting_bit else GMP_LIMB_MAX)
  else
    let up := mp_d zu in
    x ← limbs (load (padd up i));
    let limb := Z.lxor x ux in
    limb ← (if ux =? 0 then zp ← limbs (mpn_zero_p up i); mret (u64 (limb - b2z zp)) else mret limb);
    let limb := Z.land limb (u64 (Z.shiftl GMP_LIMB_MAX (starting_bit mod GMP_LIMB_BITS))) in
    limbs (mpn_common_scan (Z.to_nat un) limb i up un ux).
