(* ===== verification/MpzNum.v ===== *)
(** * Number theory on integers (examples/multiprecision/mini-gmp/mini-gmp.c)

    Greatest common divisors with and without cofactors, least common multiples, inverses,
    powers, roots, factorials, binomial coefficients and the primality test. *)

From S2P Require Import Prelude CString Queue State UInt64 Mpn MpnDiv MpnStr Mpz MpzQuo MpzBits.

(** ** GCD of two limbs *)

(** [while ((v & 1) == 0) v >>= 1;] *)
Fixpoint strip_twos (fuel : nat) (v : Z) : outcome Z :=
  if Z.land v 1 =? 0 then match fuel with O => Err OutOfFuel | S fuel => strip_twos fuel (Z.shiftr v 1) end
  else Ok v.

(** [u] and [v] are odd. *)
Fixpoint gcd_11_loop (fuel : nat) (u v : Z) : outcome Z :=
  if u =? v then Ok u
  else
    match fuel with
    | O => Err OutOfFuel
    | S fuel =>
       if v <? u then u ← strip_twos 64 (Z.shiftr (u64 (u - v)) 1); gcd_11_loop fuel u v
       else v ← strip_twos 64 (Z.shiftr (u64 (v - u)) 1); gcd_11_loop fuel u v
    end.

Definition mpn_gcd_11 (u v : Z) : outcome Z :=
  _ ← c_assert (0 <? Z.lor u v);
  if u =? 0 then Ok v
  else if v =? 0 then Ok u
  else
    shift ← gmp_ctz (Z.lor u v);
    let u := Z.shiftr u shift in
    let v := Z.shiftr v shift in
    let '(u, v) := if Z.land u 1 =? 0 then (v, u) else (u, v) in
    v ← strip_twos 64 v;
    g ← gcd_11_loop 128 u v;
    Ok (u64 (Z.shiftl g shift)).

(** ** GCD of integers *)

Definition mpz_gcd_ui (g : option mpz_t) (u : mpz_t) (v : Z) : MZ Z :=
  if v =? 0 then
    _ ← when_some g (λ g, mpz_abs g u);
    mret v
  else
    zu ← get_mpz u;
    let un := Z.abs (mp_size zu) in
    v ← (if negb (un =? 0) then
           r ← limbs (mpn_div_qr_1 None (mp_d zu) un v);
           lift (mpn_gcd_11 r v)
         else mret v);
    _ ← when_some g (λ g, mpz_set_ui g v);
    mret v.

(** The number has a bit that is set; the scan meets it after at most its limbs. *)
Definition mpz_make_odd (r : mpz_t) : MZ Z :=
  zr ← get_mpz r;
  _ ← zassert (0 <? mp_size zr);
  x ← limbs (load (mp_d zr));
  shift ← limbs (mpn_common_scan (Z.to_nat (mp_size zr)) x 0 (mp_d zr) 0 0);
  _ ← mpz_tdiv_q_2exp r r shift;
  mret shift.

(** The loop of [mpz_gcd]; at the beginning of a round [tv] is odd. *)
Fixpoint gcd_loop (fuel : nat) (g tu tv : mpz_t) : MZ unit :=
  match fuel with
  | O => raise OutOfFuel
  | S fuel =>
     _ ← mpz_make_odd tu;
     c ← mpz_cmp tu tv;
     if c =? 0 then mpz_swap g tu
     else
       _ ← (if c <? 0 then mpz_swap tu tv else mret tt);
       zv ← get_mpz tv;
       if mp_size zv =? 1 then
         vl ← limbs (load (mp_d zv));
         ul ← mpz_tdiv_ui tu vl;
         x ← lift (mpn_gcd_11 ul vl);
         mpz_set_ui g x
       else
         _ ← mpz_sub tu tu tv;
         gcd_loop fuel g tu tv
  end.

Definition mpz_gcd (g u v : mpz_t) : MZ unit :=
  zu ← get_mpz u;
  if mp_size zu =? 0 then mpz_abs g v
  else
    zv ← get_mpz v;
    if mp_size zv =? 0 then mpz_abs g u
    else
      tu ← local_mpz;
      tv ← local_mpz;
      _ ← mpz_init tu;
      _ ← mpz_init tv;
      _ ← mpz_abs tu u;
      uz ← mpz_make_odd tu;
      _ ← mpz_abs tv v;
      vz ← mpz_make_odd tv;
      let gz := Z.min uz vz in
      ztu ← get_mpz tu;
      ztv ← get_mpz tv;
      _ ← (if mp_size ztu <? mp_size ztv then mpz_swap tu tv else mret tt);
      _ ← mpz_tdiv_r tu tu tv;
      ztu ← get_mpz tu;
      ztv ← get_mpz tv;
      _ ← (if mp_size ztu =? 0 then mpz_swap g tv
           else gcd_loop (Z.to_nat (GMP_LIMB_BITS * (mp_size ztu + mp_size ztv))) g tu tv);
      _ ← mpz_clear tu;
      _ ← mpz_clear tv;
      mpz_mul_2exp g g gz.

(** The macro [mpz_odd_p].  (The limb of the number 0 that it also reads does not
    matter.) *)
Definition mpz_odd_p (z : mpz_t) : MZ bool :=
  zz ← get_mpz z;
  if mp_size zz =? 0 then mret false
  else x ← limbs (load (mp_d zz)); mret (negb (Z.land x 1 =? 0)).
Definition mpz_even_p (z : mpz_t) : MZ bool := b ← mpz_odd_p z; mret (negb b).

(** The loop of [mpz_gcdext]; returns [power]. *)
Fixpoint gcdext_loop (fuel : nat) (tu tv s0 s1 t0 t1 : mpz_t) (power : Z) : MZ Z :=
  match fuel with
  | O => raise OutOfFuel
  | S fuel =>
     c ← mpz_cmp tu tv;
     if c =? 0 then mret power
     else if c <? 0 then
       _ ← mpz_sub tv tv tu;
       _ ← mpz_add t0 t0 t1;
       _ ← mpz_add s0 s0 s1;
       shift ← mpz_make_odd tv;
       _ ← mpz_mul_2exp t1 t1 shift;
       _ ← mpz_mul_2exp s1 s1 shift;
       gcdext_loop fuel tu tv s0 s1 t0 t1 (u64 (power + shift))
     else
       _ ← mpz_sub tu tu tv;
       _ ← mpz_add t1 t0 t1;
       _ ← mpz_add s1 s0 s1;
       shift ← mpz_make_odd tu;
       _ ← mpz_mul_2exp t0 t0 shift;
       _ ← mpz_mul_2exp s0 s0 shift;
       gcdext_loop fuel tu tv s0 s1 t0 t1 (u64 (power + shift))
  end.

(** [while (power-- > 0)]: one factor of two at a time *)
Fixpoint halve_loop (power : nat) (s0 s1 t0 t1 : mpz_t) : MZ unit :=
  match power with
  | O => mret tt
  | S power =>
     so ← mpz_odd_p s0;
     odd ← (if so : bool then mret true else mpz_odd_p t0);
     _ ← (if odd : bool then _ ← mpz_sub s0 s0 s1; mpz_add t0 t0 t1 else mret tt);
     _ ← mpz_divexact_ui s0 s0 2;
     _ ← mpz_divexact_ui t0 t0 2;
     halve_loop power s0 s1 t0 t1
  end.

(** From the odd parts in [tu] and [tv] to the odd part of the divisor in [tv] and its
    cofactors in [s0] (negated) and [t0], times a power of two *)
Definition gcdext_cofactors (tu tv s0 s1 t0 t1 : mpz_t) (uz vz : Z) : MZ Z :=
  _ ← mpz_setbit t0 uz;
  _ ← mpz_tdiv_qr t1 tu tu tv;
  _ ← mpz_mul_2exp t1 t1 uz;
  _ ← mpz_setbit s1 vz;
  let power := u64 (uz + vz) in
  ztu ← get_mpz tu;
  ztv ← get_mpz tv;
  if 0 <? mp_size ztu then
    shift ← mpz_make_odd tu;
    _ ← mpz_mul_2exp t0 t0 shift;
    _ ← mpz_mul_2exp s0 s0 shift;
    gcdext_loop (Z.to_nat (GMP_LIMB_BITS * (mp_size ztu + mp_size ztv))) tu tv s0 s1 t0 t1 (u64 (power + shift))
  else mret power.

(** The divisor with its power of two, and the cofactors without it *)
Definition gcdext_reduce (u v tv s0 s1 t0 t1 : mpz_t) (gz power : Z) : MZ unit :=
  _ ← mpz_mul_2exp tv tv gz;
  _ ← mpz_neg s0 s0;
  _ ← mpz_divexact s1 v tv;
  _ ← mpz_abs s1 s1;
  _ ← mpz_divexact t1 u tv;
  _ ← mpz_abs t1 t1;
  _ ← halve_loop (Z.to_nat power) s0 s1 t0 t1;
  _ ← mpz_add s1 s0 s1;
  c ← mpz_cmpabs s0 s1;
  if 0 <? c then _ ← mpz_swap s0 s1; mpz_sub t0 t0 t1 else mret tt.

Definition mpz_gcdext (g : mpz_t) (s t : option mpz_t) (u v : mpz_t) : MZ unit :=
  zu ← get_mpz u;
  if mp_size zu =? 0 then
    sign ← mpz_sgn v;
    _ ← mpz_abs g v;
    _ ← when_some s (λ s, mpz_set_ui s 0);
    when_some t (λ t, mpz_set_si t sign)
  else
    zv ← get_mpz v;
    if mp_size zv =? 0 then
      sign ← mpz_sgn u;
      _ ← mpz_abs g u;
      _ ← when_some s (λ s, mpz_set_si s sign);
      when_some t (λ t, mpz_set_ui t 0)
    else
      tu ← local_mpz;
      tv ← local_mpz;
      s0 ← local_mpz;
      s1 ← local_mpz;
      t0 ← local_mpz;
      t1 ← local_mpz;
      _ ← mpz_init tu;
      _ ← mpz_init tv;
      _ ← mpz_init s0;
      _ ← mpz_init s1;
      _ ← mpz_init t0;
      _ ← mpz_init t1;
      _ ← mpz_abs tu u;
      uz ← mpz_make_odd tu;
      _ ← mpz_abs tv v;
      vz ← mpz_make_odd tv;
      let gz := Z.min uz vz in
      let uz := u64 (uz - gz) in
      let vz := u64 (vz - gz) in
      ztu ← get_mpz tu;
      ztv ← get_mpz tv;
      '(u, v, s, t, uz, vz) ←
        (if mp_size ztu <? mp_size ztv then _ ← mpz_swap tu tv; mret (v, u, t, s, vz, uz)
         else mret (u, v, s, t, uz, vz));
      power ← gcdext_cofactors tu tv s0 s1 t0 t1 uz vz;
      _ ← gcdext_reduce u v tv s0 s1 t0 t1 gz power;
      zu ← get_mpz u;
      _ ← (if mp_size zu <? 0 then mpz_neg s0 s0 else mret tt);
      zv ← get_mpz v;
      _ ← (if mp_size zv <? 0 then mpz_neg t0 t0 else mret tt);
      _ ← mpz_swap g tv;
      _ ← when_some s (λ s, mpz_swap s s0);
      _ ← when_some t (λ t, mpz_swap t t0);
      _ ← mpz_clear tu;
      _ ← mpz_clear tv;
      _ ← mpz_clear s0;
      _ ← mpz_clear s1;
      _ ← mpz_clear t0;
      mpz_clear t1.

Definition mpz_lcm (r u v : mpz_t) : MZ unit :=
  zu ← get_mpz u;
  zv ← get_mpz v;
  if (mp_size zu =? 0) || (mp_size zv =? 0) then set_size r 0
  else
    g ← local_mpz;
    _ ← mpz_init g;
    _ ← mpz_gcd g u v;
    _ ← mpz_divexact g u g;
    _ ← mpz_mul r g v;
    _ ← mpz_clear g;
    mpz_abs r r.

Definition mpz_lcm_ui (r u : mpz_t) (v : Z) : MZ unit :=
  zu ← get_mpz u;
  if (v =? 0) || (mp_size zu =? 0) then set_size r 0
  else
    g ← mpz_gcd_ui None u v;
    _ ← lift (if g =? 0 then Err DivisionByZero else Ok tt);
    _ ← mpz_mul_ui r u (v / g);
    mpz_abs r r.

Definition mpz_invert (r u m : mpz_t) : MZ bool :=
  zu ← get_mpz u;
  no ← (if mp_size zu =? 0 then mret true else c ← mpz_cmpabs_ui m 1; mret (c <=? 0));
  if no : bool then mret false
  else
    g ← local_mpz;
    tr ← local_mpz;
    _ ← mpz_init g;
    _ ← mpz_init tr;
    _ ← mpz_gcdext g (Some tr) None u m;
    c ← mpz_cmp_ui g 1;
    let invertible := c =? 0 in
    _ ← (if invertible then
           ztr ← get_mpz tr;
           _ ← (if mp_size ztr <? 0 then
                  zm ← get_mpz m;
                  if 0 <=? mp_size zm then mpz_add tr tr m else mpz_sub tr tr m
                else mret tt);
           mpz_swap r tr
         else mret tt);
    _ ← mpz_clear g;
    _ ← mpz_clear tr;
    mret invertible.

(** ** Powers *)

(** [do ... while (bit > 0)], from the highest bit on: 64 rounds *)
Fixpoint pow_loop (fuel : nat) (tr b : mpz_t) (e bit : Z) : MZ unit :=
  match fuel with
  | O => raise OutOfFuel
  | S fuel =>
     _ ← mpz_mul tr tr tr;
     _ ← (if negb (Z.land e bit =? 0) then mpz_mul tr tr b else mret tt);
     let bit := Z.shiftr bit 1 in
     if 0 <? bit then pow_loop fuel tr b e bit else mret tt
  end.

Definition mpz_pow_ui (r b : mpz_t) (e : Z) : MZ unit :=
  tr ← local_mpz;
  _ ← mpz_init_set_ui tr 1;
  _ ← pow_loop 64 tr b e GMP_LIMB_HIGHBIT;
  _ ← mpz_swap r tr;
  mpz_clear tr.

(** A local limb whose address is taken *)
Definition with_limb {A} (x : Z) (f : ptr → MZ A) : MZ A :=
  p ← limbs (gmp_xalloc_limbs 1);
  _ ← limbs (store p x);
  a ← f p;
  _ ← limbs (gmp_free p);
  mret a.

Definition mpz_ui_pow_ui (r : mpz_t) (blimb e : Z) : MZ unit :=
  b ← local_mpz;
  with_limb blimb (λ p, _ ← mpz_roinit_n b p 1; mpz_pow_ui r b e).

(** [tr] modulo the normalised modulus, when it is longer *)
Definition powm_reduce (tr : mpz_t) (mp : ptr) (mn : Z) (minv : gmp_div_inverse) (longer : Z → Z → bool) : MZ unit :=
  ztr ← get_mpz tr;
  if longer (mp_size ztr) mn then
    _ ← limbs (mpn_div_qr_preinv None (mp_d ztr) (mp_size ztr) mp mn minv);
    n ← limbs (mpn_normalized_size (mp_d ztr) mn);
    set_size tr n
  else mret tt.

Fixpoint powm_bits (fuel : nat) (tr base : mpz_t) (w bit : Z) (mp : ptr) (mn : Z) (minv : gmp_div_inverse) : MZ unit :=
  match fuel with
  | O => raise OutOfFuel
  | S fuel =>
     _ ← mpz_mul tr tr tr;
     _ ← (if negb (Z.land w bit =? 0) then mpz_mul tr tr base else mret tt);
     _ ← powm_reduce tr mp mn minv (λ n mn, mn <? n);
     let bit := Z.shiftr bit 1 in
     if 0 <? bit then powm_bits fuel tr base w bit mp mn minv else mret tt
  end.

(** [while (--en >= 0)] *)
Fixpoint powm_limbs (en : nat) (tr base : mpz_t) (ep : ptr) (mp : ptr) (mn : Z) (minv : gmp_div_inverse) : MZ unit :=
  match en with
  | O => mret tt
  | S en =>
     w ← limbs (load (padd ep (Z.of_nat en)));
     _ ← powm_bits 64 tr base w GMP_LIMB_HIGHBIT mp mn minv;
     powm_limbs en tr base ep mp mn minv
  end.

Definition mpz_powm (r b e m : mpz_t) : MZ unit :=
  ze ← get_mpz e;
  zm ← get_mpz m;
  let en := Z.abs (mp_size ze) in
  let mn := Z.abs (mp_size zm) in
  if mn =? 0 then gmp_die
  else if en =? 0 then mpz_set_ui r 1
  else
    minv ← limbs (mpn_div_qr_invert (mp_d zm) mn);
    let shift := inv_shift minv in
    '(minv, tp) ←
      (if 0 <? shift then
         tp ← limbs (gmp_xalloc_limbs mn);
         _ ← zassert_nocarry (mpn_lshift tp (mp_d zm) mn shift);
         mret (mk_inv 0 (inv_d1 minv) (inv_d0 minv) (inv_di minv), Some tp)
       else mret (minv, None));
    let mp := match tp with Some tp => tp | None => mp_d zm end in
    base ← local_mpz;
    _ ← mpz_init base;
    _ ← (if mp_size ze <? 0 then
           ok ← mpz_invert base b m;
           if negb ok then gmp_die else mret tt
         else
           _ ← mpz_abs base b;
           zb ← get_mpz base;
           bn ← (if mn <=? mp_size zb then
                   _ ← limbs (mpn_div_qr_preinv None (mp_d zb) (mp_size zb) mp mn minv);
                   mret mn
                 else mret (mp_size zb));
           zb0 ← get_mpz b;
           bn ← (if mp_size zb0 <? 0 then
                   bp ← MPZ_REALLOC base mn;
                   _ ← zassert_nocarry (mpn_sub bp mp mn bp bn);
                   mret mn
                 else mret bn);
           zb ← get_mpz base;
           n ← limbs (mpn_normalized_size (mp_d zb) bn);
           set_size base n);
    tr ← local_mpz;
    _ ← mpz_init_set_ui tr 1;
    ze ← get_mpz e;
    _ ← powm_limbs (Z.to_nat en) tr base (mp_d ze) mp mn minv;
    _ ← powm_reduce tr mp mn (mk_inv shift (inv_d1 minv) (inv_d0 minv) (inv_di minv)) (λ n mn, mn <=? n);
    _ ← (match tp with Some tp => limbs (gmp_free tp) | None => mret tt end);
    _ ← mpz_swap r tr;
    _ ← mpz_clear tr;
    mpz_clear base.

Definition mpz_powm_ui (r b : mpz_t) (elimb : Z) (m : mpz_t) : MZ unit :=
  e ← local_mpz;
  with_limb elimb (λ p, _ ← mpz_roinit_n e p 1; mpz_powm r b e m).

(** ** The number of digits *)

(** [do ... while (un > 0)]: one digit is divided off in each round, and a number of [un]
    limbs has at most [64 * un] digits. *)
Fixpoint ndigits_loop (fuel : nat) (tp : ptr) (un ndigits : Z) (bi : gmp_div_inverse) : L Z :=
  match fuel with
  | O => raise OutOfFuel
  | S fuel =>
     _ ← mpn_div_qr_1_preinv (Some tp) tp un bi;
     x ← load (padd tp (un - 1));
     let un := un - b2z (x =? 0) in
     if 0 <? un then ndigits_loop fuel tp un (ndigits + 1) bi else mret (ndigits + 1)
  end.

Definition mpz_sizeinbase (u : mpz_t) (base : Z) : MZ Z :=
  _ ← zassert (2 <=? base);
  _ ← zassert (base <=? 36);
  zu ← get_mpz u;
  let un := Z.abs (mp_size zu) in
  if un =? 0 then mret 1
  else
    let up := mp_d zu in
    x ← limbs (load (padd up (un - 1)));
    k ← lift (mpn_limb_size_in_base_2 x);
    let bits := u64 ((un - 1) * GMP_LIMB_BITS + k) in
    if base =? 2 then mret bits
    else if base =? 4 then mret (u64 (bits + 1) / 2)
    else if base =? 8 then mret (u64 (bits + 2) / 3)
    else if base =? 16 then mret (u64 (bits + 3) / 4)
    else if base =? 32 then mret (u64 (bits + 4) / 5)
    else
      limbs (tp ← gmp_xalloc_limbs un;
             _ ← mpn_copyi tp up un;
             bi ← lift (mpn_div_qr_1_invert base);
             ndigits ← ndigits_loop (Z.to_nat (GMP_LIMB_BITS * un)) tp un 0 bi;
             _ ← gmp_free tp;
             mret ndigits).

(** ** Roots *)

(** Newton's iteration for the square root.  [fuel] bounds the number of rounds; the C
    loop goes on until the approximation does not decrease. *)
Fixpoint sqrt_loop (fuel : nat) (t u y : mpz_t) : MZ unit :=
  match fuel with
  | O => raise OutOfFuel
  | S fuel =>
     _ ← mpz_swap u t;
     _ ← mpz_tdiv_q t y u;
     _ ← mpz_add t t u;
     _ ← mpz_tdiv_q_2exp t t 1;
     c ← mpz_cmpabs t u;
     if c <? 0 then sqrt_loop fuel t u y else mret tt
  end.

(** The same for the root of degree [z] *)
Fixpoint root_loop (fuel : nat) (t u v y : mpz_t) (z : Z) : MZ unit :=
  match fuel with
  | O => raise OutOfFuel
  | S fuel =>
     _ ← mpz_swap u t;
     _ ← mpz_pow_ui t u (z - 1);
     _ ← mpz_tdiv_q t y t;
     _ ← mpz_mul_ui v u (z - 1);
     _ ← mpz_add t t v;
     _ ← mpz_tdiv_q_ui t t z;
     c ← mpz_cmpabs t u;
     if c <? 0 then root_loop fuel t u v y z else mret tt
  end.

Definition mpz_rootrem (fuel : nat) (x r : option mpz_t) (y : mpz_t) (z : Z) : MZ unit :=
  zy ← get_mpz y;
  let sgn := mp_size zy <? 0 in
  if negb (Z.land (limb_not z) (b2z sgn) =? 0) then gmp_die
  else if z =? 0 then gmp_die
  else
    c ← mpz_cmpabs_ui y 1;
    if c <=? 0 then
      _ ← when_some x (λ x, mpz_set x y);
      when_some r (λ r, set_size r 0)
    else
      u ← local_mpz;
      t ← local_mpz;
      _ ← mpz_init u;
      _ ← mpz_init t;
      n ← mpz_sizeinbase y 2;
      _ ← mpz_setbit t (n / z + 1);
      _ ← (if z =? 2 then sqrt_loop fuel t u y
           else
             v ← local_mpz;
             _ ← mpz_init v;
             _ ← (if sgn then mpz_neg t t else mret tt);
             _ ← root_loop fuel t u v y z;
             mpz_clear v);
      _ ← when_some r (λ r, _ ← mpz_pow_ui t u z; mpz_sub r y t);
      _ ← when_some x (λ x, mpz_swap x u);
      _ ← mpz_clear u;
      mpz_clear t.

Definition mpz_root (fuel : nat) (x : option mpz_t) (y : mpz_t) (z : Z) : MZ bool :=
  r ← local_mpz;
  _ ← mpz_init r;
  _ ← mpz_rootrem fuel x (Some r) y z;
  zr ← get_mpz r;
  let res := mp_size zr =? 0 in
  _ ← mpz_clear r;
  mret res.

Definition mpz_sqrtrem (fuel : nat) (s : mpz_t) (r : option mpz_t) (u : mpz_t) : MZ unit := mpz_rootrem fuel (Some s) r u 2.
Definition mpz_sqrt (fuel : nat) (s u : mpz_t) : MZ unit := mpz_rootrem fuel (Some s) None u 2.
Definition mpz_perfect_square_p (fuel : nat) (u : mpz_t) : MZ bool :=
  zu ← get_mpz u;
  if mp_size zu <=? 0 then mret (mp_size zu =? 0) else mpz_root fuel None u 2.

Definition mpn_perfect_square_p (fuel : nat) (p : ptr) (n : Z) : MZ bool :=
  t ← local_mpz;
  _ ← zassert (0 <? n);
  x ← limbs (load (padd p (n - 1)));
  _ ← zassert (negb (x =? 0));
  t ← mpz_roinit_n t p n;
  mpz_root fuel None t 2.

Definition mpn_sqrtrem (fuel : nat) (sp : ptr) (rp : option ptr) (p : ptr) (n : Z) : MZ Z :=
  s ← local_mpz;
  r ← local_mpz;
  u ← local_mpz;
  _ ← zassert (0 <? n);
  x ← limbs (load (padd p (n - 1)));
  _ ← zassert (negb (x =? 0));
  _ ← mpz_init r;
  _ ← mpz_init s;
  u ← mpz_roinit_n u p n;
  _ ← mpz_rootrem fuel (Some s) (Some r) u 2;
  zs ← get_mpz s;
  _ ← zassert (mp_size zs =? (n + 1) / 2);
  _ ← limbs (mpn_copyd sp (mp_d zs) (mp_size zs));
  _ ← mpz_clear s;
  zr ← get_mpz r;
  let res := mp_size zr in
  _ ← (match rp with Some rp => limbs (mpn_copyd rp (mp_d zr) res) | None => mret tt end);
  _ ← mpz_clear r;
  mret res.

(** ** Combinatorics *)

(** [while (n > 2) mpz_mul_ui (x, x, --n);] for [k] rounds *)
Fixpoint fac_loop (k : nat) (x : mpz_t) (n : Z) : MZ unit :=
  match k with
  | O => mret tt
  | S k => _ ← mpz_mul_ui x x (n - 1); fac_loop k x (n - 1)
  end.
Definition mpz_fac_ui (x : mpz_t) (n : Z) : MZ unit :=
  _ ← mpz_set_ui x (u64 (n + b2z (n =? 0)));
  fac_loop (Z.to_nat (n - 2)) x n.

(** [for (; k > 0; k--) mpz_mul_ui (r, r, n--);] *)
Fixpoint bin_loop (k : nat) (r : mpz_t) (n : Z) : MZ unit :=
  match k with
  | O => mret tt
  | S k => _ ← mpz_mul_ui r r n; bin_loop k r (u64 (n - 1))
  end.
Definition mpz_bin_uiui (r : mpz_t) (n k : Z) : MZ unit :=
  _ ← mpz_set_ui r (b2z (k <=? n));
  let k := if Z.shiftr n 1 <? k then (if k <=? n then n - k else 0) else k in
  t ← local_mpz;
  _ ← mpz_init t;
  _ ← mpz_fac_ui t k;
  _ ← bin_loop (Z.to_nat k) r n;
  _ ← mpz_divexact r r t;
  mpz_clear t.

(** ** Primality *)

(** [while (--k > 0)] *)
Fixpoint millerrabin_loop (k : nat) (n nm1 y : mpz_t) : MZ bool :=
  match k with
  | O => mret false
  | S k =>
     _ ← mpz_powm_ui y y 2 n;
     c ← mpz_cmp y nm1;
     if c =? 0 then mret true
     else
       c ← mpz_cmp_ui y 1;
       if c <=? 0 then mret false else millerrabin_loop k n nm1 y
  end.
Definition gmp_millerrabin (n nm1 y q : mpz_t) (k : Z) : MZ bool :=
  _ ← zassert (0 <? k);
  _ ← mpz_powm y y q n;
  c ← mpz_cmp_ui y 1;
  c' ← (if c =? 0 then mret 0 else mpz_cmp y nm1);
  if c' =? 0 then mret true else millerrabin_loop (Z.to_nat (k - 1)) n nm1 y.

Definition GMP_PRIME_PRODUCT : Z := 3 * 5 * 7 * 11 * 13 * 17 * 19 * 23 * 29.
Definition GMP_PRIME_MASK : Z := 3379140316.

(** [for (j = 0, is_prime = 1; is_prime & (j < reps); j++)] *)
Fixpoint bases_loop (reps : nat) (j : Z) (n nm1 y q : mpz_t) (k : Z) : MZ bool :=
  match reps with
  | O => mret true
  | S reps =>
     _ ← mpz_set_ui y (u64 (u64 (u64 (j * j) + j) + 41));
     c ← mpz_cmp y nm1;
     if 0 <=? c then _ ← zassert (30 <=? j); mret true
     else
       is_prime ← gmp_millerrabin n nm1 y q k;
       if is_prime : bool then bases_loop reps (j + 1) n nm1 y q k else mret false
  end.

Definition mpz_probab_prime_p (n : mpz_t) (reps : Z) : MZ Z :=
  even ← mpz_even_p n;
  if even : bool then c ← mpz_cmpabs_ui n 2; mret (if c =? 0 then 2 else 0)
  else
    zn ← get_mpz n;
    _ ← zassert (negb (mp_size zn =? 0));
    c ← mpz_cmpabs_ui n 64;
    if c <? 0 then
      x ← limbs (load (mp_d zn));
      mret (Z.land (Z.shiftr GMP_PRIME_MASK (Z.shiftr x 1)) 2)
    else
      g ← mpz_gcd_ui None n GMP_PRIME_PRODUCT;
      if negb (g =? 1) then mret 0
      else
        c ← mpz_cmpabs_ui n (31 * 31);
        if c <? 0 then mret 2
        else
          nm1 ← local_mpz;
          q ← local_mpz;
          y ← local_mpz;
          _ ← mpz_init nm1;
          _ ← mpz_init q;
          _ ← mpz_init y;
          sz ← mpz_abs_sub_ui nm1 n 1;
          _ ← set_size nm1 sz;
          k ← mpz_scan1 nm1 0;
          _ ← mpz_tdiv_q_2exp q nm1 k;
          is_prime ← bases_loop (Z.to_nat reps) 0 n nm1 y q k;
          _ ← mpz_clear nm1;
          _ ← mpz_clear q;
          _ ← mpz_clear y;
          mret (b2z is_prime).
