(* ===== verification/MpzNumThm.v ===== *)
(** * Greatest common divisors: correctness and termination *)

From S2P Require Import Prelude CString Queue State UInt64 Mpn MpnMem MpnThm MpnBits MpnDiv MpnInv MpnDivThm MpnDivPi1 MpnCorrect MpnDivQr MpnStr MpnStrThm MpnSetStr Mpz MpzRep MpzArith MpzMul MpzDiv MpzConv MpzQuo MpzQuoThm MpzBits MpzNum.

(** Two stores that differ only in the order of the assignments *)
Ltac same_store H :=
  match type of H with zok _ _ ?m =>
    match goal with |- zok _ _ ?m' => replace m' with m; [exact H|] end
  end; apply map_eq; intros ?; rewrite ?lookup_delete, ?lookup_insert; repeat case_decide; subst; congruence.

(** ** Powers of two and greatest common divisors *)

Lemma gcd_double w v : Z.odd v = true → Z.gcd (2 * w) v = Z.gcd w v.
Proof.
  intros Hv. apply Z.gcd_unique; [apply Z.gcd_nonneg|apply Z.divide_mul_r, Z.gcd_divide_l|apply Z.gcd_divide_r|].
  intros q Hq Hqv. apply Z.gcd_greatest; [|done]. apply (Z.gauss q 2 w); [done|].
  pose proof (Z.gcd_nonneg q 2) as H0. pose proof (Z.gcd_divide_r q 2) as H2. pose proof (Z.gcd_divide_l q 2) as Hl.
  apply Z.divide_pos_le in H2 as Hle; [|lia]. assert (Z.gcd q 2 ≠ 0) by (intros E; rewrite E in H2; by apply Z.divide_0_l in H2).
  destruct (Z.eq_dec (Z.gcd q 2) 2) as [E|]; [|lia]. rewrite E in Hl. destruct (Z.divide_trans _ _ _ Hl Hqv) as [k ->].
  rewrite Z.odd_mul in Hv. by rewrite andb_false_r in Hv.
Qed.

Lemma gcd_pow2 k w v : 0 ≤ k → Z.odd v = true → Z.gcd (w * 2 ^ k) v = Z.gcd w v.
Proof.
  intros Hk Hv. revert w. pattern k. apply natlike_ind; [|clear k Hk|done].
  - intros w. by rewrite Z.mul_1_r.
  - intros k Hk IH w. rewrite Z.pow_succ_r by done. replace (w * (2 * 2 ^ k)) with (2 * (w * 2 ^ k)) by lia. by rewrite gcd_double.
Qed.

Lemma odd_pos_split w k : Z.odd w = true → 0 < w * 2 ^ k → 0 ≤ k → 0 < w.
Proof. intros Hw Hp Hk. pose proof (Z.pow_pos_nonneg 2 k). nia. Qed.

(** The common powers of two *)
Lemma gcd_split a b i j : 0 ≤ i → 0 ≤ j → Z.odd a = true → Z.odd b = true →
  Z.gcd (a * 2 ^ i) (b * 2 ^ j) = Z.gcd a b * 2 ^ Z.min i j.
Proof.
  assert (∀ a b i j, 0 ≤ i → i ≤ j → Z.odd a = true → Z.gcd (a * 2 ^ i) (b * 2 ^ j) = Z.gcd a b * 2 ^ i) as Hle.
  { intros a' b' i' j' Hi Hj Ha. replace j' with (j' - i' + i') by lia. rewrite Z.pow_add_r by lia. rewrite Z.mul_assoc, Z.gcd_mul_mono_r.
    rewrite (Z.abs_eq (2 ^ i')) by (apply Z.pow_nonneg; lia). f_equal. rewrite Z.gcd_comm, gcd_pow2 by (done || lia). apply Z.gcd_comm. }
  intros Hi Hj Ha Hb. destruct (Z.le_ge_cases i j); [rewrite Z.min_l by done; by apply Hle|].
  rewrite Z.min_r, Z.gcd_comm, (Z.gcd_comm a) by done. by apply Hle.
Qed.

Lemma log2_half u w k : 0 < w → 1 ≤ k → w * 2 ^ k ≤ u → Z.log2 w < Z.log2 u.
Proof.
  intros Hw Hk Hle. assert (w * 2 ≤ u) as H2.
  { assert (2 ^ 1 ≤ 2 ^ k) by (apply Z.pow_le_mono_r; lia). nia. }
  pose proof (Z.log2_le_mono _ _ H2) as Hl. replace (w * 2) with (2 * w) in Hl by lia. rewrite Z.log2_double in Hl by done. lia.
Qed.

(** A difference of odd numbers is even. *)
Lemma odd_diff u v : Z.odd u = true → Z.odd v = true → ∃ d, u - v = 2 * d.
Proof.
  intros Hu Hv. exists ((u - v) / 2). rewrite (Z.div_mod (u - v) 2) at 1 by lia. rewrite Zmod_odd, Z.odd_sub, Hu, Hv. cbn. lia.
Qed.

(** ** GCD of two limbs *)

Lemma strip_twos_ok fuel : ∀ v, 0 < v < 2 ^ Z.of_nat fuel →
  ∃ k w, strip_twos fuel v = Ok w ∧ 0 ≤ k ∧ v = w * 2 ^ k ∧ 0 < w ∧ Z.odd w = true.
Proof.
  induction fuel as [|fuel IH]; intros v Hv; [cbn in Hv; lia|]. cbn [strip_twos].
  change (Z.land v 1) with (Z.land v (Z.ones 1)). rewrite Z.land_ones by lia. change (2 ^ 1) with 2. rewrite Zmod_odd.
  destruct (Z.odd v) eqn:Ho; cbn [Z.eqb].
  - exists 0, v. rewrite Z.pow_0_r. split_and!; try done; lia.
  - rewrite Z.shiftr_div_pow2 by lia. change (2 ^ 1) with 2. pose proof (Z.div_mod v 2 ltac:(lia)) as Hd. rewrite Zmod_odd, Ho in Hd.
    rewrite Nat2Z.inj_succ, Z.pow_succ_r in Hv by lia. destruct (IH (v / 2)) as (k & w & Hs & Hk & Hw & Hp & Hwo); [lia|].
    exists (k + 1), w. rewrite Z.pow_add_r by lia. split_and!; try done; lia.
Qed.

(** One step: the difference loses its factors of two. *)
Lemma strip_diff u v : Z.odd u = true → Z.odd v = true → 0 < v < u → u < WB →
  ∃ w, strip_twos 64 (Z.shiftr (u64 (u - v)) 1) = Ok w ∧ 0 < w < WB ∧ Z.odd w = true ∧ Z.gcd w v = Z.gcd u v ∧ Z.log2 w < Z.log2 u.
Proof.
  intros Hu Hv Hlt Hb. rewrite u64_small by (unfold WB in *; lia). destruct (odd_diff u v Hu Hv) as [d Hd]. rewrite Hd.
  rewrite Z.shiftr_div_pow2 by lia. change (2 ^ 1) with 2. rewrite Z.mul_comm, Z.div_mul by lia.
  destruct (strip_twos_ok 64 d) as (k & w & Hs & Hk & Hw & Hp & Ho); [unfold WB in Hb; change (2 ^ Z.of_nat 64) with 18446744073709551616; lia|].
  exists w. pose proof (Z.pow_pos_nonneg 2 k ltac:(lia) Hk). split_and!; try done; [unfold WB in *; nia| |].
  - rewrite <- (gcd_pow2 k w v Hk Hv), <- Hw, <- (gcd_double d v Hv), <- Hd. rewrite Z.gcd_comm, Z.gcd_sub_diag_r, Z.gcd_comm. done.
  - apply (log2_half u w (k + 1)); [done|lia|]. rewrite Z.pow_add_r by lia. lia.
Qed.

Lemma gcd_11_loop_ok fuel : ∀ u v, 0 < u < WB → 0 < v < WB → Z.odd u = true → Z.odd v = true → Z.log2 u + Z.log2 v < Z.of_nat fuel →
  gcd_11_loop fuel u v = Ok (Z.gcd u v).
Proof.
  induction fuel as [|fuel IH]; intros u v Hu Hv Hou Hov Hf; cbn [gcd_11_loop].
  { pose proof (Z.log2_nonneg u). pose proof (Z.log2_nonneg v). cbn in Hf. lia. }
  destruct (Z.eqb_spec u v) as [->|Hne]; [by rewrite Z.gcd_diag, Z.abs_eq by lia|].
  destruct (Z.ltb_spec v u).
  - destruct (strip_diff u v) as (w & -> & Hw & Ho & Hg & Hl); try done; [lia|lia|]. cbn. rewrite <- Hg. apply IH; try done. lia.
  - destruct (strip_diff v u) as (w & -> & Hw & Ho & Hg & Hl); try done; [lia|lia|]. cbn. rewrite Z.gcd_comm, <- Hg, Z.gcd_comm. apply IH; try done. lia.
Qed.

Lemma log2_word u : 0 < u < WB → Z.log2 u < 64.
Proof. intros Hu. apply Z.log2_lt_pow2; [lia|]. unfold WB in Hu. lia. Qed.

(** The common trailing zeros of two numbers *)
Lemma common_twos u v k q : 0 ≤ k → 0 ≤ q → Z.lor u v = (2 * q + 1) * 2 ^ k →
  u = Z.shiftr u k * 2 ^ k ∧ v = Z.shiftr v k * 2 ^ k ∧ (Z.odd (Z.shiftr u k) || Z.odd (Z.shiftr v k)) = true.
Proof.
  intros Hk Hq Hl. pose proof (Z.pow_pos_nonneg 2 k ltac:(lia) Hk) as Hp.
  assert (Z.lor (u mod 2 ^ k) (v mod 2 ^ k) = 0) as H0.
  { rewrite <- !Z.land_ones, <- Z.land_lor_distr_l, Hl, Z.land_ones, Z.mod_mul by lia. done. }
  apply Z.lor_eq_0_iff in H0 as [Hu Hv]. rewrite !Z.shiftr_div_pow2 by done. split_and!.
  - pose proof (Z.div_mod u (2 ^ k) ltac:(lia)). lia.
  - pose proof (Z.div_mod v (2 ^ k) ltac:(lia)). lia.
  - rewrite <- !Z.shiftr_div_pow2, <- !Z.bit0_odd by done. rewrite <- Z.lor_spec, <- Z.shiftr_lor, Hl, Z.shiftr_div_pow2, Z.div_mul by lia.
    rewrite Z.bit0_odd, Z.add_comm, Z.odd_add_mul_2. done.
Qed.

(** The last part, after the common factors of two are removed *)
Lemma gcd_11_tail f1 f2 a b k : WB ≤ 2 ^ Z.of_nat f1 → 126 < Z.of_nat f2 → 0 < a < WB → 0 < b < WB → 0 ≤ k → Z.odd a = true → Z.gcd a b * 2 ^ k < WB →
  (v ← strip_twos f1 b; g ← gcd_11_loop f2 a v; Ok (u64 (Z.shiftl g k))) = Ok (Z.gcd a b * 2 ^ k).
Proof.
  intros Hf1 Hf2 Ha Hb Hk Ho Hg. destruct (strip_twos_ok f1 b) as (j & w & -> & Hj & Hw & Hwp & Hwo); [lia|]. cbn [mbind outcome_bind].
  pose proof (Z.pow_pos_nonneg 2 j ltac:(lia) Hj). assert (0 < w < WB) as Hwb by nia.
  rewrite gcd_11_loop_ok; try done; [|pose proof (log2_word a Ha); pose proof (log2_word w Hwb); lia]. cbn [mbind outcome_bind]. f_equal.
  rewrite Z.shiftl_mul_pow2 by lia. rewrite (Z.gcd_comm a w), <- (gcd_pow2 j w a Hj Ho), <- Hw, Z.gcd_comm. apply u64_small.
  pose proof (Z.gcd_nonneg a b). pose proof (Z.pow_pos_nonneg 2 k ltac:(lia) Hk). nia.
Qed.

Lemma lor_word u v : 0 ≤ u < WB → 0 ≤ v < WB → u ≠ 0 ∨ v ≠ 0 → 0 < Z.lor u v < WB.
Proof.
  intros Hu Hv Hnz. pose proof (proj2 (Z.lor_nonneg u v) ltac:(lia)). assert (Z.lor u v ≠ 0) by (rewrite Z.lor_eq_0_iff; lia). split; [lia|].
  change WB with (2 ^ 64). apply Z.log2_lt_pow2; [lia|]. rewrite Z.log2_lor by lia.
  assert (∀ x, 0 ≤ x < WB → Z.log2 x < 64) as Hx; [|pose proof (Hx u Hu); pose proof (Hx v Hv); lia].
  intros x Hx. destruct (Z.eq_dec x 0) as [->|]; [done|apply log2_word; lia].
Qed.

Lemma gcd_le_l u v : 0 < u → Z.gcd u v ≤ u.
Proof. intros Hu. apply Z.divide_pos_le; [done|apply Z.gcd_divide_l]. Qed.

Lemma mpn_gcd_11_ok u v : 0 ≤ u < WB → 0 ≤ v < WB → u ≠ 0 ∨ v ≠ 0 → mpn_gcd_11 u v = Ok (Z.gcd u v).
Proof.
  intros Hu Hv Hnz. pose proof (lor_word u v Hu Hv Hnz) as Hl. pose proof (λ a b k, gcd_11_tail 64 128 a b k ltac:(done) ltac:(done)) as Htail. unfold mpn_gcd_11.
  set (st := strip_twos 64) in *. set (gl := gcd_11_loop 128) in *. clearbody st gl.
  unfold c_assert. rewrite (proj2 (Z.ltb_lt 0 _)) by lia. cbn [mbind outcome_bind].
  destruct (Z.eqb_spec u 0) as [->|Hu0]; [by rewrite Z.gcd_0_l, Z.abs_eq by lia|]. destruct (Z.eqb_spec v 0) as [->|Hv0]; [by rewrite Z.gcd_0_r, Z.abs_eq by lia|].
  destruct (gmp_ctz_ok _ Hl) as (k & q & -> & Hk & Hq & He). cbn [mbind outcome_bind] in *.
  destruct (common_twos u v k q ltac:(lia) Hq He) as (Eu & Ev & Hodd). set (u' := Z.shiftr u k) in *. set (v' := Z.shiftr v k) in *. clearbody u' v'.
  pose proof (Z.pow_pos_nonneg 2 k ltac:(lia) ltac:(lia)) as Hp. assert (0 < u' < WB ∧ 0 < v' < WB) as [Hu' Hv'] by nia.
  change (Z.land u' 1) with (Z.land u' (Z.ones 1)). rewrite Z.land_ones by lia. change (2 ^ 1) with 2. rewrite Zmod_odd.
  pose proof (gcd_le_l u v ltac:(lia)) as Hgle. rewrite Eu, Ev, Z.gcd_mul_mono_r, (Z.abs_eq (2 ^ k)) in * by lia.
  destruct (Z.odd u') eqn:Hou; cbn [Z.eqb]; [apply Htail; try done; lia|]. rewrite Z.gcd_comm in *. apply Htail; try done; lia.
Qed.

(** ** Odd parts *)

Lemma odd_split x : 0 < x → ∃ w k, 0 ≤ k ∧ x = w * 2 ^ k ∧ 0 < w ∧ Z.odd w = true.
Proof.
  intros Hx. destruct (strip_twos_ok (Z.to_nat x) x) as (k & w & _ & Hk & Hw & Hp & Ho); [|by exists w, k].
  rewrite Z2Nat.id by lia. split; [done|]. apply Z.pow_gt_lin_r; lia.
Qed.

(** The lowest bit that is set tells the power of two. *)
Lemma first_bit_odd w k j : 0 ≤ k → Z.odd w = true → first_bit (w * 2 ^ k) true 0 j → j = k.
Proof.
  intros Hk Hw (Hj & Ht & Hlow). destruct (Z.lt_total j k) as [Hlt|[->|Hlt]]; [|done|].
  - by rewrite Z.mul_pow2_bits_low in Ht by done.
  - specialize (Hlow k ltac:(lia)). rewrite Z.mul_pow2_bits in Hlow by done. by rewrite Z.sub_diag, Z.bit0_odd, Hw in Hlow.
Qed.

Lemma log2_nlimbs v : 0 < v → Z.log2 v < 64 * nlimbs v.
Proof.
  intros Hv. unfold nlimbs. rewrite (proj2 (Z.eqb_neq v 0)), Z.abs_eq by lia. pose proof (Z.div_mod (Z.log2 v) 64 ltac:(lia)).
  pose proof (Z.mod_pos_bound (Z.log2 v) 64 ltac:(lia)). lia.
Qed.

Lemma nlimbs_odd_part w k : 0 ≤ k → nlimbs w ≤ nlimbs (w * 2 ^ k).
Proof. intros Hk. apply nlimbs_le. rewrite Z.abs_mul. pose proof (Z.pow_pos_nonneg 2 k ltac:(lia) Hk). nia. Qed.

Section gcd.
Context (F : mem).
Implicit Types (s : zstate) (σ : gmap positive (option Z)).

(** Two local variables, initialised *)
Lemma wp_two_locals {A} (K : mpz_t → mpz_t → MZ A) s σ Q E :
  zok F s σ →
  (∀ t1 t2 s', σ !! t1 = None → σ !! t2 = None → t1 ≠ t2 → zok F s' (<[t2 := Some 0]> (<[t1 := Some 0]> σ)) → wp (K t1 t2) Q E s') →
  wp (t1 ← local_mpz; t2 ← local_mpz; _ ← mpz_init t1; _ ← mpz_init t2; K t1 t2) Q E s.
Proof.
  intros Hok HK.
  assert (∀ s, zok F s σ → ∃ t s', local_mpz s = Ok (t, s') ∧ t = z_next s ∧ z_next s' = Pos.succ t ∧ σ !! t = None ∧ zok F s' σ) as Hloc.
  { intros s0 Hok0. assert (wp local_mpz (λ t s', σ !! t = None ∧ zok F s' σ) (λ _, False) s0) as Hwp by (by eapply wp_local_mpz; [done|]).
    unfold wp, local_mpz in *. by eauto 10. }
  assert (∀ s σ t, zok F s σ → σ !! t = None → (t < z_next s)%positive →
    ∃ s', mpz_init t s = Ok (tt, s') ∧ z_next s' = z_next s ∧ zok F s' (<[t := Some 0]> σ)) as Hinit.
  { intros s0 σ0 t Hok0 Ht Hlt. assert (wp (mpz_init t) (λ _ s', zok F s' (<[t := Some 0]> σ0)) (λ _, False) s0) as Hwp by (by eapply wp_mpz_init).
    unfold wp, mpz_init, put_mpz in *. by eauto 10. }
  destruct (Hloc s Hok) as (t1 & s1 & H1 & -> & Hn1 & Ht1 & Hok1). destruct (Hloc s1 Hok1) as (t2 & s2 & H2 & -> & Hn2 & Ht2 & Hok2).
  apply wp_bind. eapply wp_Ok; [done|]. apply wp_bind. eapply wp_Ok; [done|].
  destruct (Hinit s2 σ (z_next s)) as (s3 & Hi3 & Hn3 & Hok3); [done|done|lia|]. apply wp_bind. eapply wp_Ok; [done|].
  destruct (Hinit s3 (<[z_next s := Some 0]> σ) (z_next s1)) as (s4 & Hi4 & _ & Hok4); [done|rewrite lookup_insert_ne by lia; done|lia|].
  apply wp_bind. eapply wp_Ok; [done|]. by apply HK; [..|lia|].
Qed.

Lemma wp_mpz_make_odd s σ r w k Q E :
  zok F s σ → σ !! r = Some (Some (w * 2 ^ k)) → 0 < w → 0 ≤ k → Z.odd w = true → nlimbs (w * 2 ^ k) < INT_MAX →
  (∀ s', zok F s' (<[r := Some w]> σ) → Q k s') → wp (mpz_make_odd r) Q E s.
Proof.
  intros Hok Hr Hw Hk Ho Hn HQ. pose proof (Z.pow_pos_nonneg 2 k ltac:(lia) Hk) as Hp. set (x := w * 2 ^ k) in *. assert (0 < x) as Hx by nia.
  destruct (zok_operand F s σ r x Hok Hr) as (z & l & Hz & Hwl & Hnl & Hh & Hv & Hl & Hs & _). pose proof (nlimbs_pos x ltac:(lia)) as Hpos.
  unfold mpz_make_odd. apply wp_bind. eapply wp_get_mpz; [done|]. rewrite Hs, Z.sgn_pos, Z.mul_1_l by done.
  apply wp_bind, wp_zassert; [by apply Z.ltb_lt|]. destruct l as [|a l]; [cbn in Hl; lia|].
  apply wp_bind, wp_zoom. pose proof Hh as [Ha _]%holds_cons. eapply wp_load; [done|]. rewrite zmem_id. apply wp_bind, wp_zoom.
  apply Forall_cons in Hwl as Hwal. destruct Hwal as [Hwa _]. rewrite <- Hl, Nat2Z.id.
  assert (a = Z.land (Z.lxor (scan_mask true) a) (u64 (Z.shiftl GMP_LIMB_MAX (0 mod 64)))) as Hmask.
  { change (u64 _) with (Z.ones 64). cbn [scan_mask]. rewrite Z.lxor_0_l, Z.land_ones by lia. symmetry. apply Z.mod_small, Hwa. }
  rewrite Z.abs_eq in Hv by lia. assert (Z.testbit (val (a :: l)) k = true) as Hbit.
  { rewrite Hv. unfold x. rewrite Z.mul_pow2_bits, Z.sub_diag, Z.bit0_odd; done. }
  set (n := length (a :: l)) in *. rewrite Hmask at 1. eapply (wp_scan true (a :: l) 0 0%nat a) with (k0 := k); fold n; try done.
  - split; [done|]. rewrite Hl. pose proof (log2_nlimbs x Hx). enough (k ≤ Z.log2 x) by lia. apply Z.log2_le_pow2; nia.
  - rewrite Hl. unfold INT_MAX, WB in *. lia.
  - rewrite Hv. intros j Hj%first_bit_odd; [|done..]. subst j. rewrite zmem_id. apply wp_bind. eapply wp_mpz_div_q_2exp; try done.
    intros s' Hok'. apply wp_ret, HQ. cbn [div_round fst] in Hok'. unfold x in Hok'. by rewrite Z.quot_mul in Hok' by lia.
Qed.

(** The end of a round when the smaller number is one limb *)
Lemma wp_gcd_one s σ g w tu tv zv a b Q E :
  zok F s σ → σ !! g = Some (Some w) → σ !! tu = Some (Some a) → σ !! tv = Some (Some b) → z_vars s !! tv = Some zv →
  0 < a → 0 < b → nlimbs b = 1 → nlimbs a < INT_MAX →
  (∀ s', zok F s' (<[g := Some (Z.gcd a b)]> σ) → Q tt s') →
  wp (vl ← limbs (load (mp_d zv)); ul ← mpz_tdiv_ui tu vl; x ← lift (mpn_gcd_11 ul vl); mpz_set_ui g x) Q E s.
Proof.
  intros Hok Hg Hu Hv Hzv Ha Hb Hnb Hna HQ. apply nlimbs_1 in Hnb as [_ Hbw]. rewrite Z.abs_eq in Hbw by lia.
  apply wp_bind. eapply (wp_low_limb F s σ tv b); try done; [lia|]. rewrite Z.abs_eq, Z.mod_small by lia.
  apply wp_bind. eapply (wp_mpz_div_qr_ui F s σ None None tu a b); try done; [lia|]. intros s1 Hok1. cbn [upd div_round snd] in *.
  rewrite Z.rem_mod_nonneg, Z.abs_eq by (try apply Z.mod_pos_bound; lia). pose proof (Z.mod_pos_bound a b Hb) as Hm.
  apply wp_bind. rewrite mpn_gcd_11_ok by lia. apply wp_ret. rewrite Z.gcd_mod, Z.gcd_comm by lia.
  eapply wp_mpz_set_ui; try done. pose proof (Z.gcd_nonneg a b). assert (Z.gcd a b ≤ b) by (rewrite Z.gcd_comm; by apply gcd_le_l). lia.
Qed.

(** Each round leaves less of the larger number, so that the fuel of the two lengths is
    enough. *)
Lemma wp_gcd_loop g tu tv (Hgu : g ≠ tu) (Hgv : g ≠ tv) (Huv : tu ≠ tv) fuel : ∀ s σ w a k b Q E,
  zok F s σ → σ !! g = Some (Some w) → σ !! tu = Some (Some (a * 2 ^ k)) → σ !! tv = Some (Some b) →
  0 < a → 0 ≤ k → Z.odd a = true → 0 < b → Z.odd b = true → nlimbs (a * 2 ^ k) < INT_MAX → nlimbs b < INT_MAX →
  Z.log2 a + Z.log2 b < Z.of_nat fuel →
  (∀ s' x y, zok F s' (<[g := Some (Z.gcd a b)]> (<[tu := Some x]> (<[tv := Some y]> σ))) → Q tt s') →
  wp (gcd_loop fuel g tu tv) Q E s.
Proof.
  induction fuel as [|fuel IH]; intros s σ w a k b Q E Hok Hg Hu Hv Ha Hk Hao Hb Hbo Hna Hnb Hf HQ.
  { pose proof (Z.log2_nonneg a). pose proof (Z.log2_nonneg b). cbn in Hf. lia. }
  cbn [gcd_loop]. apply wp_bind. eapply (wp_mpz_make_odd s σ tu a k); try done. intros s1 Hok1.
  pose proof (nlimbs_odd_part a k Hk) as Hna1. apply wp_bind.
  eapply (wp_mpz_cmp F s1 _ tu a tv b); [done|by simplify_map_eq..|].
  assert (∀ p q, p ≠ q → 0 < p → 0 < q → Z.odd p = true → Z.odd q = true → nlimbs p < INT_MAX → nlimbs q < INT_MAX → Z.gcd p q = Z.gcd a b → q < p →
    Z.log2 p + Z.log2 q < Z.of_nat (S fuel) → ∀ s2, zok F s2 (<[tv := Some q]> (<[tu := Some p]> σ)) →
    wp (zv ← get_mpz tv;
        if mp_size zv =? 1 then
          vl ← limbs (load (mp_d zv)); ul ← mpz_tdiv_ui tu vl; x ← lift (mpn_gcd_11 ul vl); mpz_set_ui g x
        else _ ← mpz_sub tu tu tv; gcd_loop fuel g tu tv) Q E s2) as Hround.
  { intros p q Hne Hp Hq Hpo Hqo Hnp Hnq Hgcd Hlt Hfpq s2 Hok2.
    assert ((<[tv := Some q]> (<[tu := Some p]> σ)) !! tv = Some (Some q)) as Htv by (by simplify_map_eq).
    assert ((<[tv := Some q]> (<[tu := Some p]> σ)) !! tu = Some (Some p)) as Htu by (by simplify_map_eq).
    destruct (zok_operand F s2 _ tv q Hok2 Htv) as (z & l & Hz & _ & _ & _ & _ & _ & Hs & _).
    apply wp_bind. eapply wp_get_mpz; [done|]. rewrite Hs, Z.sgn_pos, Z.mul_1_l by lia.
    destruct (Z.eqb_spec (nlimbs q) 1) as [H1|H1].
    - eapply (wp_gcd_one s2 _ g w tu tv z p q); try done; [by simplify_map_eq|]. intros s3 Hok3. rewrite Hgcd in Hok3. apply (HQ s3 p q).
      same_store Hok3.
    - apply wp_bind. eapply (wp_mpz_sub F s2 _ tu p tu p tv q); try done. intros s3 Hok3.
      destruct (odd_split (p - q)) as (w' & k' & Hk' & Hw' & Hwp & Hwo); [lia|]. destruct (odd_diff p q Hpo Hqo) as [d Hd].
      assert (1 ≤ k') as Hk1.
      { destruct (Z.eq_dec k' 0) as [->|]; [|lia]. rewrite Z.mul_1_r in Hw'. rewrite <- Hw', Hd, Z.odd_mul in Hwo. done. }
      assert (Z.gcd w' q = Z.gcd a b) as Hgw.
      { rewrite <- (gcd_pow2 k' w' q Hk' Hqo), <- Hw', Z.gcd_comm, Z.gcd_sub_diag_r, Z.gcd_comm. done. }
      rewrite Hw' in Hok3. pose proof (log2_half p w' k' Hwp Hk1 ltac:(lia)).
      eapply (IH s3 _ w w' k' q); [exact Hok3|by simplify_map_eq..|done|done|done|done|done| |done|lia|].
      { rewrite <- Hw'. assert (nlimbs (p - q) ≤ nlimbs p) by (apply nlimbs_le; lia). lia. }
      intros s4 x y. rewrite Hgw. intros Hok4. apply (HQ s4 x y). same_store Hok4. }
  destruct (Z.compare_spec a b) as [->|Hlt|Hlt]; cbn [cmp_result Z.eqb Z.ltb Z.compare].
  - eapply (wp_mpz_swap F s1 _ g tu); [done|by simplify_map_eq..|]. intros s2 Hok2. apply (HQ s2 w b).
    rewrite Z.gcd_diag, Z.abs_eq by lia. rewrite <- (insert_id σ tv (Some b)) in Hok2 by done. same_store Hok2.
  - apply wp_bind. eapply (wp_mpz_swap F s1 _ tu tv); [done|by simplify_map_eq..|]. intros s2 Hok2.
    eapply (Hround b a); try done; try lia; [apply Z.gcd_comm|]. same_store Hok2.
  - apply wp_bind, wp_ret. eapply (Hround a b); try done; try lia. rewrite <- (insert_id σ tv (Some b)) in Hok1 by done. same_store Hok1.
Qed.

(** The remainder of the larger odd part, then the loop: [tu] and [tv] hold odd numbers. *)
Lemma wp_gcd_odd {A} (K : MZ A) s σ g w tu tv a b Q E :
  g ≠ tu → g ≠ tv → tu ≠ tv → zok F s σ → σ !! g = Some (Some w) → σ !! tu = Some (Some a) → σ !! tv = Some (Some b) →
  0 < a → 0 < b → Z.odd b = true → nlimbs a < INT_MAX → nlimbs b < INT_MAX →
  (∀ s' x y, zok F s' (<[g := Some (Z.gcd a b)]> (<[tu := Some x]> (<[tv := Some y]> σ))) → wp K Q E s') →
  wp (_ ← mpz_tdiv_r tu tu tv;
      ztu ← get_mpz tu;
      ztv ← get_mpz tv;
      _ ← (if mp_size ztu =? 0 then mpz_swap g tv
           else gcd_loop (Z.to_nat (GMP_LIMB_BITS * (mp_size ztu + mp_size ztv))) g tu tv);
      K) Q E s.
Proof.
  intros Hgu Hgv Huv Hok Hg Hu Hv Ha Hb Hbo Hna Hnb HQ. apply wp_bind. unfold mpz_tdiv_r. apply wp_bind.
  eapply (wp_mpz_div_qr F s σ None (Some tu) tu tv a b); try done; [lia|by exists a|]. intros s1 Hok1. apply wp_ret. cbn [upd div_round snd] in Hok1.
  rewrite Z.rem_mod_nonneg in Hok1 by lia. pose proof (Z.mod_pos_bound a b Hb) as Hm. set (σ1 := <[tu := Some (a mod b)]> σ) in *.
  assert (σ1 !! tu = Some (Some (a mod b))) as Htu by (by unfold σ1; simplify_map_eq). assert (σ1 !! tv = Some (Some b)) as Htv by (by unfold σ1; simplify_map_eq).
  assert (σ1 !! g = Some (Some w)) as Hg1 by (by unfold σ1; simplify_map_eq).
  destruct (zok_operand F s1 σ1 tu _ Hok1 Htu) as (zu & _ & Hzu & _ & _ & _ & _ & _ & Hsu & _).
  destruct (zok_operand F s1 σ1 tv _ Hok1 Htv) as (zv & _ & Hzv & _ & _ & _ & _ & _ & Hsv & _).
  apply wp_bind. eapply wp_get_mpz; [done|]. apply wp_bind. eapply wp_get_mpz; [done|]. rewrite Hsu, Hsv, (Z.sgn_pos b), Z.mul_1_l by done.
  assert (Z.gcd (a mod b) b = Z.gcd a b) as Hgcd by (rewrite Z.gcd_mod, Z.gcd_comm by lia; done). apply wp_bind.
  destruct (Z.eq_dec (a mod b) 0) as [E0|Hnz].
  - rewrite E0. cbn [Z.sgn Z.mul Z.eqb]. eapply (wp_mpz_swap F s1 σ1 g tv); try done. intros s2 Hok2.
    rewrite E0, Z.gcd_0_l, Z.abs_eq in Hgcd by lia. apply (HQ s2 0 w). rewrite <- Hgcd. unfold σ1 in Hok2. rewrite E0 in Hok2. same_store Hok2.
  - rewrite Z.sgn_pos, Z.mul_1_l by lia. pose proof (nlimbs_pos (a mod b) Hnz) as Hpos. rewrite (proj2 (Z.eqb_neq _ 0)) by lia.
    destruct (odd_split (a mod b)) as (w' & k & Hk & Hw' & Hwp & Hwo); [lia|].
    eapply (wp_gcd_loop g tu tv Hgu Hgv Huv _ s1 σ1 w w' k b); try done; [by rewrite <- Hw'|..].
    + rewrite <- Hw'. assert (nlimbs (a mod b) ≤ nlimbs b) by (apply nlimbs_le; lia). lia.
    + pose proof (nlimbs_nonneg b). pose proof (log2_nlimbs b Hb). pose proof (log2_nlimbs w' Hwp). pose proof (nlimbs_odd_part w' k Hk) as Hle. rewrite <- Hw' in Hle.
      rewrite Z2Nat.id by (unfold GMP_LIMB_BITS; lia). unfold GMP_LIMB_BITS. lia.
    + intros s2 x y Hok2. apply (HQ s2 x y). rewrite <- (gcd_pow2 k w' b Hk Hbo), <- Hw', Hgcd in Hok2. unfold σ1 in Hok2. same_store Hok2.
Qed.

(** The two odd parts in local variables *)
Lemma wp_gcd_locals {A} (K : Z → MZ A) s σ g w u v x y i a j b tu tv Q E :
  σ !! tu = None → σ !! tv = None → tu ≠ tv → zok F s (<[tv := Some 0]> (<[tu := Some 0]> σ)) →
  σ !! g = Some (Some w) → σ !! u = Some (Some x) → σ !! v = Some (Some y) →
  Z.abs x = a * 2 ^ i → Z.abs y = b * 2 ^ j → 0 < a → 0 < b → 0 ≤ i → 0 ≤ j → Z.odd a = true → Z.odd b = true →
  nlimbs x < INT_MAX → nlimbs y < INT_MAX →
  (∀ s', zok F s' (<[g := Some (Z.gcd a b)]> σ) → wp (K (Z.min i j)) Q E s') →
  wp (_ ← mpz_abs tu u;
      uz ← mpz_make_odd tu;
      _ ← mpz_abs tv v;
      vz ← mpz_make_odd tv;
      ztu ← get_mpz tu;
      ztv ← get_mpz tv;
      _ ← (if mp_size ztu <? mp_size ztv then mpz_swap tu tv else mret tt);
      _ ← mpz_tdiv_r tu tu tv;
      ztu ← get_mpz tu;
      ztv ← get_mpz tv;
      _ ← (if mp_size ztu =? 0 then mpz_swap g tv
           else gcd_loop (Z.to_nat (GMP_LIMB_BITS * (mp_size ztu + mp_size ztv))) g tu tv);
      _ ← mpz_clear tu;
      _ ← mpz_clear tv;
      K (Z.min uz vz)) Q E s.
Proof.
  intros Htu Htv Huv Hok Hg Hu Hv Hx Hy Ha Hb Hi Hj Hao Hbo Hnx Hny HQ.
  assert (g ≠ tu ∧ g ≠ tv ∧ u ≠ tu ∧ u ≠ tv ∧ v ≠ tu ∧ v ≠ tv) as (Hgu & Hgv & Huu & Huv' & Hvu & Hvv) by (split_and!; congruence).
  pose proof (nlimbs_odd_part a i Hi) as Hna. pose proof (nlimbs_odd_part b j Hj) as Hnb. rewrite <- Hx in Hna. rewrite <- Hy in Hnb. rewrite nlimbs_abs in *.
  apply wp_bind. eapply (wp_mpz_abs F s _ tu 0 u x); [done|by simplify_map_eq..|lia|]. rewrite Hx. intros s1 Hok1.
  apply wp_bind. eapply (wp_mpz_make_odd s1 _ tu a i); [done|by simplify_map_eq|done..| |]; [by rewrite <- Hx, nlimbs_abs|]. intros s2 Hok2.
  apply wp_bind. eapply (wp_mpz_abs F s2 _ tv 0 v y); [done|by simplify_map_eq..|lia|]. rewrite Hy. intros s3 Hok3.
  apply wp_bind. eapply (wp_mpz_make_odd s3 _ tv b j); [done|by simplify_map_eq|done..| |]; [by rewrite <- Hy, nlimbs_abs|]. intros s4 Hok4.
  assert (zok F s4 (<[tu := Some a]> (<[tv := Some b]> σ))) as Hok5 by same_store Hok4. clear Hok1 Hok2 Hok3 Hok4. set (σ5 := <[tu := Some a]> (<[tv := Some b]> σ)) in *.
  destruct (zok_operand F s4 σ5 tu a Hok5) as (zu & _ & Hzu & _); [by unfold σ5; simplify_map_eq|].
  destruct (zok_operand F s4 σ5 tv b Hok5) as (zv & _ & Hzv & _); [by unfold σ5; simplify_map_eq|].
  apply wp_bind. eapply wp_get_mpz; [done|]. apply wp_bind. eapply wp_get_mpz; [done|].
  assert (∀ p q s6, zok F s6 (<[tu := Some p]> (<[tv := Some q]> σ)) → 0 < p → 0 < q → Z.odd q = true → nlimbs p < INT_MAX → nlimbs q < INT_MAX →
    Z.gcd p q = Z.gcd a b →
    wp (_ ← mpz_tdiv_r tu tu tv; ztu ← get_mpz tu; ztv ← get_mpz tv;
        _ ← (if mp_size ztu =? 0 then mpz_swap g tv
             else gcd_loop (Z.to_nat (GMP_LIMB_BITS * (mp_size ztu + mp_size ztv))) g tu tv);
        _ ← mpz_clear tu; _ ← mpz_clear tv; K (Z.min i j)) Q E s6) as Hgo.
  { intros p q s6 Hok6 Hp Hq Hqo Hnp Hnq Hgcd. eapply (wp_gcd_odd _ s6 _ g w tu tv p q); try done; try (by simplify_map_eq). intros s7 x' y' Hok7.
    apply wp_bind. eapply (wp_mpz_clear F s7 _ tu (Some x')); [done|by simplify_map_eq|]. intros s8 Hok8.
    apply wp_bind. eapply (wp_mpz_clear F s8 _ tv (Some y')); [done|by simplify_map_eq|]. intros s9 Hok9. apply HQ. rewrite Hgcd in Hok9. same_store Hok9. }
  apply wp_bind. destruct (_ <? _); [|by apply wp_ret, (Hgo a b); try done; lia].
  eapply (wp_mpz_swap F s4 σ5 tu tv); [done|by unfold σ5; simplify_map_eq..|]. intros s6 Hok6.
  apply (Hgo b a); try done; [|lia|lia|apply Z.gcd_comm]. unfold σ5 in Hok6. same_store Hok6.
Qed.

Lemma nlimbs_shift g k : 0 < g → 0 ≤ k → nlimbs g + k / 64 ≤ nlimbs (g * 2 ^ k).
Proof.
  intros Hg Hk. pose proof (Z.pow_pos_nonneg 2 k ltac:(lia) Hk). unfold nlimbs. rewrite !(proj2 (Z.eqb_neq _ 0)), !Z.abs_eq by nia.
  rewrite Z.log2_mul_pow2 by done. pose proof (Z.log2_nonneg g). enough (Z.log2 g / 64 + k / 64 ≤ (k + Z.log2 g) / 64) by lia.
  apply Z.div_le_lower_bound; [lia|]. pose proof (Z.mul_div_le (Z.log2 g) 64). pose proof (Z.mul_div_le k 64). lia.
Qed.

(** [mpz_gcd] computes the greatest common divisor, for operands of any sign. *)
Lemma wp_mpz_gcd s σ g w u x v y Q E :
  zok F s σ → σ !! g = Some (Some w) → σ !! u = Some (Some x) → σ !! v = Some (Some y) → nlimbs x < INT_MAX → nlimbs y < INT_MAX →
  (∀ s', zok F s' (<[g := Some (Z.gcd x y)]> σ) → Q tt s') → wp (mpz_gcd g u v) Q E s.
Proof.
  intros Hok Hg Hu Hv Hnx Hny HQ. destruct (zok_operand F s σ u x Hok Hu) as (zu & _ & Hzu & _ & _ & _ & _ & _ & Hsu & _).
  destruct (zok_operand F s σ v y Hok Hv) as (zv & _ & Hzv & _ & _ & _ & _ & _ & Hsv & _).
  unfold mpz_gcd. apply wp_bind. eapply wp_get_mpz; [done|]. rewrite Hsu. destruct (Z.eq_dec x 0) as [->|Hx0].
  { cbn [Z.sgn Z.mul Z.eqb]. rewrite Z.gcd_0_l in HQ. eapply (wp_mpz_abs F s σ g w v y); try done. lia. }
  pose proof (nlimbs_pos x Hx0) as Hpx. rewrite (proj2 (Z.eqb_neq _ 0)) by lia. apply wp_bind. eapply wp_get_mpz; [done|]. rewrite Hsv.
  destruct (Z.eq_dec y 0) as [->|Hy0].
  { cbn [Z.sgn Z.mul Z.eqb]. rewrite Z.gcd_0_r in HQ. eapply (wp_mpz_abs F s σ g w u x); try done. lia. }
  pose proof (nlimbs_pos y Hy0) as Hpy. rewrite (proj2 (Z.eqb_neq _ 0)) by lia.
  eapply wp_two_locals; [done|]. intros tu tv s1 Htu Htv Huv Hok1.
  destruct (odd_split (Z.abs x)) as (a & i & Hi & Hx & Ha & Hao); [lia|]. destruct (odd_split (Z.abs y)) as (b & j & Hj & Hy & Hb & Hbo); [lia|].
  eapply (wp_gcd_locals (λ k, mpz_mul_2exp g g k) s1 σ g w u v x y i a j b tu tv); try done. intros s2 Hok2.
  assert (Z.gcd x y = Z.gcd a b * 2 ^ Z.min i j) as Hgcd by (rewrite <- gcd_split, <- Hx, <- Hy, Z.gcd_abs_l, Z.gcd_abs_r by done; done).
  eapply (wp_mpz_mul_2exp F s2 _ g _ g (Z.gcd a b)); [done|by simplify_map_eq..|lia| |].
  - assert (0 < Z.gcd a b) as Hgp by (pose proof (Z.gcd_nonneg a b); pose proof (Z.gcd_eq_0_l a b); lia).
    pose proof (nlimbs_shift (Z.gcd a b) (Z.min i j) Hgp ltac:(lia)) as Hsh. rewrite <- Hgcd in Hsh.
    assert (nlimbs (Z.gcd x y) ≤ nlimbs x); [|lia]. apply nlimbs_le. rewrite (Z.abs_eq (Z.gcd x y)), <- Z.gcd_abs_l by apply Z.gcd_nonneg. apply gcd_le_l. lia.
  - intros s3. rewrite insert_insert_eq, <- Hgcd. apply HQ.
Qed.

(** The word that [mpz_gcd_ui] returns is the divisor, except for [v = 0]. *)
Lemma wp_mpz_gcd_ui s σ g u x v Q E :
  zok F s σ → σ !! u = Some (Some x) → target σ g → 0 ≤ v < WB → nlimbs x ≤ INT_MAX →
  (∀ s', zok F s' (upd g (Z.gcd x v) σ) → Q (if v =? 0 then 0 else Z.gcd x v) s') → wp (mpz_gcd_ui g u v) Q E s.
Proof.
  intros Hok Hu Hg Hv Hnx HQ. unfold mpz_gcd_ui. destruct (Z.eqb_spec v 0) as [->|Hv0].
  { rewrite Z.gcd_0_r in HQ. apply wp_bind. destruct g as [g|]; cbn [when_some].
    - destruct Hg as [w Hg]. eapply (wp_mpz_abs F s σ g w u x); try done.
    - by apply wp_ret, wp_ret, HQ. }
  destruct (zok_operand F s σ u x Hok Hu) as (zu & _ & Hzu & _ & _ & _ & _ & _ & Hsu & _).
  apply wp_bind. eapply wp_get_mpz; [done|]. rewrite Hsu, size_abs.
  assert (∀ s1, zok F s1 σ → wp (_ ← when_some g (λ g, mpz_set_ui g (Z.gcd x v)); mret (Z.gcd x v)) Q E s1) as Hend.
  { intros s1 Hok1. apply wp_bind. destruct g as [g|]; cbn [when_some]; [|by apply wp_ret, wp_ret, HQ].
    destruct Hg as [w Hg]. eapply (wp_mpz_set_ui F s1 σ g w); try done.
    split; [apply Z.gcd_nonneg|]. rewrite Z.gcd_comm. pose proof (gcd_le_l v x ltac:(lia)). lia. }
  apply wp_bind. destruct (Z.eq_dec x 0) as [->|Hx].
  - cbn [nlimbs Z.eqb negb]. rewrite Z.gcd_0_l, Z.abs_eq in Hend by lia. apply wp_ret. by apply Hend.
  - pose proof (nlimbs_pos x Hx). rewrite (proj2 (Z.eqb_neq _ 0)) by lia. cbn [negb]. apply wp_bind.
    eapply (wp_ui_limbs F s σ None u x zu v); try done; [lia|]. intros lq m' Hok' _ _ _ _. cbn [raw_opt] in Hok'.
    pose proof (Z.mod_pos_bound (Z.abs x) v ltac:(lia)). rewrite mpn_gcd_11_ok by lia. apply wp_ret.
    rewrite Z.gcd_mod, Z.gcd_comm, Z.gcd_abs_l by lia. by apply Hend.
Qed.

Lemma lcm_cofactor x y q : x = q * Z.gcd x y → Z.gcd x y ≠ 0 → Z.lcm x y = Z.abs (q * y).
Proof.
  intros Hq Hg. destruct (Z.gcd_divide_r x y) as [p Hp]. unfold Z.lcm. set (g := Z.gcd x y) in *. clearbody g. subst.
  rewrite Z.div_mul by done. f_equal. ring.
Qed.

Lemma size_zero x : (Z.sgn x * nlimbs x =? 0) = (x =? 0).
Proof. destruct (Z.eqb_spec x 0) as [->|Hx]; [done|]. pose proof (nlimbs_pos x Hx). apply Z.eqb_neq. lia. Qed.

(** [mpz_lcm] of two numbers; the least common multiple fits because the product does. *)
Lemma wp_mpz_lcm s σ r w u x v y Q E :
  zok F s σ → σ !! r = Some (Some w) → σ !! u = Some (Some x) → σ !! v = Some (Some y) → nlimbs x + nlimbs y < INT_MAX →
  (∀ s', zok F s' (<[r := Some (Z.lcm x y)]> σ) → Q tt s') → wp (mpz_lcm r u v) Q E s.
Proof.
  intros Hok Hr Hu Hv Hn HQ. pose proof (nlimbs_nonneg x). pose proof (nlimbs_nonneg y).
  destruct (zok_operand F s σ u x Hok Hu) as (zu & _ & Hzu & _ & _ & _ & _ & _ & Hsu & _).
  destruct (zok_operand F s σ v y Hok Hv) as (zv & _ & Hzv & _ & _ & _ & _ & _ & Hsv & _).
  unfold mpz_lcm. do 2 (apply wp_bind; eapply wp_get_mpz; [done|]). rewrite Hsu, Hsv, !size_zero.
  destruct (Z.eqb_spec x 0) as [->|Hx]; cbn [orb]; [eapply wp_set_size_0; try done|].
  destruct (Z.eqb_spec y 0) as [->|Hy]; cbn [orb]; [rewrite Z.lcm_0_r in HQ; eapply wp_set_size_0; try done|].
  apply wp_bind. eapply wp_local_mpz; [done|]. intros t s1 Ht Htn _ Hok1. apply wp_bind. eapply wp_mpz_init; try done. intros s2 Hok2.
  assert (r ≠ t ∧ u ≠ t ∧ v ≠ t) as (Hrt & Hut & Hvt) by (split_and!; congruence).
  apply wp_bind. eapply (wp_mpz_gcd s2 _ t 0 u x v y); [done|by simplify_map_eq..|lia|lia|]. intros s3. rewrite insert_insert_eq. intros Hok3.
  destruct (Z.gcd_divide_l x y) as [q Hq]. assert (Z.gcd x y ≠ 0) as Hg0 by (intros Hg%Z.gcd_eq_0_l; done).
  assert (Z.gcd x y ≤ Z.abs x) by (rewrite <- Z.gcd_abs_l; apply gcd_le_l; lia). pose proof (Z.gcd_nonneg x y).
  assert (nlimbs (Z.gcd x y) ≤ nlimbs x) by (apply nlimbs_le; lia). assert (nlimbs q ≤ nlimbs x) by (apply nlimbs_le; nia). pose proof (nlimbs_mul q y).
  apply wp_bind. eapply (wp_mpz_divexact F s3 _ t _ u t x (Z.gcd x y) q); [done|by simplify_map_eq..|done|done|lia|lia|].
  intros s4. rewrite insert_insert_eq. intros Hok4. apply wp_bind. eapply (wp_mpz_mul F s4 _ r w t q v y); [done|by simplify_map_eq..|lia|]. intros s5 Hok5.
  apply wp_bind. eapply (wp_mpz_clear F s5 _ t (Some q)); [done|by simplify_map_eq|]. intros s6 Hok6.
  assert (zok F s6 (<[r := Some (q * y)]> σ)) as Hok7 by same_store Hok6. eapply (wp_mpz_abs F s6 _ r (q * y) r (q * y)); [done|by simplify_map_eq..|lia|].
  intros s7. rewrite insert_insert_eq. rewrite <- (lcm_cofactor x y q) by done. apply HQ.
Qed.

Lemma wp_mpz_lcm_ui s σ r w u x v Q E :
  zok F s σ → σ !! r = Some (Some w) → σ !! u = Some (Some x) → 0 ≤ v < WB → nlimbs x < INT_MAX →
  (∀ s', zok F s' (<[r := Some (Z.lcm x v)]> σ) → Q tt s') → wp (mpz_lcm_ui r u v) Q E s.
Proof.
  intros Hok Hr Hu Hv Hn HQ. destruct (zok_operand F s σ u x Hok Hu) as (zu & _ & Hzu & _ & _ & _ & _ & _ & Hsu & _).
  unfold mpz_lcm_ui. apply wp_bind. eapply wp_get_mpz; [done|]. rewrite Hsu, size_zero.
  destruct (Z.eqb_spec v 0) as [->|Hv0]; cbn [orb]; [rewrite Z.lcm_0_r in HQ; by eapply wp_set_size_0|].
  destruct (Z.eqb_spec x 0) as [->|Hx]; [by eapply wp_set_size_0|].
  apply wp_bind. eapply (wp_mpz_gcd_ui s σ None); try done; [lia|]. intros s1 Hok1. cbn [upd] in Hok1. rewrite (proj2 (Z.eqb_neq v 0)) by done.
  destruct (Z.gcd_divide_r x v) as [q Hq]. assert (Z.gcd x v ≠ 0) as Hg0 by (intros Hg%Z.gcd_eq_0_l; done).
  apply wp_bind. rewrite (proj2 (Z.eqb_neq _ 0)) by done. apply wp_ret. pose proof (Z.gcd_nonneg x v).
  assert (v / Z.gcd x v = q) as -> by (rewrite Hq at 1; by apply Z.div_mul). assert (0 ≤ q < WB) by nia. pose proof (nlimbs_mul_limb x q ltac:(done)).
  apply wp_bind. eapply (wp_mpz_mul_ui F s1 σ r w u x q); try done. intros s2 Hok2.
  eapply (wp_mpz_abs F s2 _ r (x * q) r (x * q)); [done|by simplify_map_eq..|lia|]. intros s3. rewrite insert_insert_eq.
  rewrite (Z.mul_comm x), <- (lcm_cofactor v x q), Z.lcm_comm by (by rewrite (Z.gcd_comm v)). apply HQ.
Qed.
End gcd.
