(* ===== verification/MpzFrame.v ===== *)
(** * Which variables a function changes

    [touches W f]: every run of [f] leaves the structs of all variables alone but those in
    [W] and its own local ones.  So pointers to the limbs of other variables, which a
    function like [mpz_powm] keeps over many calls, stay valid.  The end of the file has
    blocks that belong to no variable, and read-only integers in such blocks. *)

From S2P Require Import Prelude CString Queue State UInt64 Mpn MpnMem MpnThm MpnBits MpnDiv Mpz MpzRep MpzQuo MpzBits MpzNum.

Definition touches (W : list mpz_t) {A} (f : MZ A) : Prop := ∀ s a s', f s = Ok (a, s') →
  (z_next s ≤ z_next s')%positive ∧ ∀ i, (i < z_next s)%positive → i ∉ W → z_vars s' !! i = z_vars s !! i.

(** ** Rules for the parts of a program *)

Lemma touches_same W {A} (f : MZ A) : (∀ s a s', f s = Ok (a, s') → z_next s' = z_next s ∧ z_vars s' = z_vars s) → touches W f.
Proof. intros Hf s a s' He. destruct (Hf s a s' He) as [-> ->]. split; [lia|done]. Qed.

Lemma touches_ret W {A} (a : A) : touches W (mret a).
Proof. apply touches_same. by intros s b s' [= _ <-]. Qed.
Lemma touches_raise W {A} e : touches W (raise e : MZ A).
Proof. by intros s a s'. Qed.
Lemma touches_lift W {A} (o : outcome A) : touches W (lift o).
Proof. apply touches_same. intros s a s'. unfold lift. destruct o; [|done]. by intros [= _ <-]. Qed.
Lemma touches_zassert W b : touches W (zassert b).
Proof. apply touches_lift. Qed.
Lemma touches_limbs W {A} (f : L A) : touches W (limbs f).
Proof. apply touches_same. intros s a s'. unfold limbs, zoom. destruct (f (z_mem s)) as [[b m]|]; [|done]. by intros [= _ <-]. Qed.
Lemma touches_zassert_nocarry W (f : L Z) : touches W (zassert_nocarry f).
Proof. apply touches_limbs. Qed.
Lemma touches_get_mpz W r : touches W (get_mpz r).
Proof. apply touches_same. intros s a s'. unfold get_mpz. destruct (z_vars s !! r); [|done]. by intros [= _ <-]. Qed.

Lemma touches_put_mpz W r z : r ∈ W → touches W (put_mpz r z).
Proof.
  intros Hr s a s' [= _ <-]. cbn. split; [lia|]. intros i _ Hi. rewrite lookup_insert_ne; [done|]. by intros ->.
Qed.

Lemma touches_bind W {A B} (f : MZ A) (g : A → MZ B) : touches W f → (∀ a, touches W (g a)) → touches W (f ≫= g).
Proof.
  intros Hf Hg s b s'. unfold mbind, M_bind. destruct (f s) as [[a s1]|] eqn:E1; [|done]. intros E2.
  destruct (Hf _ _ _ E1) as [Hn1 Hv1]. destruct (Hg _ _ _ _ E2) as [Hn2 Hv2]. split; [lia|]. intros i Hi HW. rewrite Hv2 by (done || lia). by apply Hv1.
Qed.

(** A local variable may be changed. *)
Lemma touches_local W {A} (f : mpz_t → MZ A) : (∀ t, touches (t :: W) (f t)) → touches W (t ← local_mpz; f t).
Proof.
  intros Hf s a s' He. unfold mbind, M_bind, local_mpz in He. destruct (Hf _ _ _ _ He) as [Hn Hv]. cbn in *. split; [lia|]. intros i Hi HW.
  rewrite Hv; [|lia|]; [by rewrite lookup_delete_ne by lia|]. apply not_elem_of_cons. split; [lia|done].
Qed.

Lemma touches_mono W W' {A} (f : MZ A) : touches W f → W ⊆ W' → touches W' f.
Proof. intros Hf HW s a s' He. destruct (Hf _ _ _ He) as [Hn Hv]. split; [done|]. intros i Hi HiW. apply Hv; [done|]. by intros ?%HW. Qed.

Definition opt_vars (o : option mpz_t) : list mpz_t := match o with Some r => [r] | None => [] end.
Lemma touches_when_some W o f : (∀ r, o = Some r → touches W (f r)) → touches W (when_some o f).
Proof. intros Hf. destruct o as [r|]; cbn; [by apply Hf|apply touches_ret]. Qed.

Lemma opt_vars_in r W : opt_vars (Some r) ⊆ W → r ∈ W.
Proof. intros H. apply H. left. Qed.

Create HintDb touch.
#[export] Hint Resolve touches_ret touches_raise touches_lift touches_zassert touches_limbs touches_zassert_nocarry touches_get_mpz touches_put_mpz : touch.
#[export] Hint Resolve list_elem_of_here list_elem_of_further opt_vars_in : touch.

(** Follows the structure of a function; calls of functions are left to the hints. *)
Ltac touch_step :=
  match goal with
  | |- touches _ (local_mpz ≫= _) => apply touches_local; intros ?
  | |- touches _ (_ ≫= _) => apply touches_bind; [|intros ?]
  | |- touches _ (when_some _ _) => apply touches_when_some; intros ? ?
  | |- touches _ (match ?x with _ => _ end) => destruct x eqn:?
  | |- touches _ (let _ := _ in _) => cbv zeta
  | |- touches _ _ => progress cbv beta iota zeta
  | _ => solve [eauto 8 with touch]
  end.
Ltac touch := intros; subst; repeat touch_step; simplify_eq; eauto 8 with touch.

(** ** The functions *)

(** Memory and assignment *)

Lemma touches_set_size W r n : r ∈ W → touches W (set_size r n).
Proof. unfold set_size. touch. Qed.
#[export] Hint Resolve touches_set_size : touch.

Lemma touches_mpz_init W r : r ∈ W → touches W (mpz_init r).
Proof. unfold mpz_init. touch. Qed.
#[export] Hint Resolve touches_mpz_init : touch.

Lemma touches_mpz_init2 W r n : r ∈ W → touches W (mpz_init2 r n).
Proof. unfold mpz_init2. touch. Qed.
#[export] Hint Resolve touches_mpz_init2 : touch.

Lemma touches_mpz_clear W r : touches W (mpz_clear r).
Proof. unfold mpz_clear. touch. Qed.
#[export] Hint Resolve touches_mpz_clear : touch.

Lemma touches_mpz_realloc W r n : r ∈ W → touches W (mpz_realloc r n).
Proof. unfold mpz_realloc. touch. Qed.
#[export] Hint Resolve touches_mpz_realloc : touch.

Lemma touches_MPZ_REALLOC W r n : r ∈ W → touches W (MPZ_REALLOC r n).
Proof. unfold MPZ_REALLOC. touch. Qed.
#[export] Hint Resolve touches_MPZ_REALLOC : touch.

Lemma touches_mpz_set_ui W r x : r ∈ W → touches W (mpz_set_ui r x).
Proof. unfold mpz_set_ui. touch. Qed.
#[export] Hint Resolve touches_mpz_set_ui : touch.

Lemma touches_mpz_set_si W r x : r ∈ W → touches W (mpz_set_si r x).
Proof. unfold mpz_set_si. touch. Qed.
#[export] Hint Resolve touches_mpz_set_si : touch.

Lemma touches_mpz_set W r x : r ∈ W → touches W (mpz_set r x).
Proof. unfold mpz_set. touch. Qed.
#[export] Hint Resolve touches_mpz_set : touch.

Lemma touches_mpz_init_set_ui W r x : r ∈ W → touches W (mpz_init_set_ui r x).
Proof. unfold mpz_init_set_ui. touch. Qed.
#[export] Hint Resolve touches_mpz_init_set_ui : touch.

Lemma touches_mpz_init_set W r x : r ∈ W → touches W (mpz_init_set r x).
Proof. unfold mpz_init_set. touch. Qed.
#[export] Hint Resolve touches_mpz_init_set : touch.

Lemma touches_mpz_swap W u v : u ∈ W → v ∈ W → touches W (mpz_swap u v).
Proof. unfold mpz_swap. touch. Qed.
#[export] Hint Resolve touches_mpz_swap : touch.

Lemma touches_mpz_abs W r u : r ∈ W → touches W (mpz_abs r u).
Proof. unfold mpz_abs. touch. Qed.
#[export] Hint Resolve touches_mpz_abs : touch.

Lemma touches_mpz_neg W r u : r ∈ W → touches W (mpz_neg r u).
Proof. unfold mpz_neg. touch. Qed.
#[export] Hint Resolve touches_mpz_neg : touch.

(** Functions that only read *)

Lemma touches_mpz_get_ui W u : touches W (mpz_get_ui u).
Proof. unfold mpz_get_ui. touch. Qed.
#[export] Hint Resolve touches_mpz_get_ui : touch.

Lemma touches_mpz_sgn W u : touches W (mpz_sgn u).
Proof. unfold mpz_sgn. touch. Qed.
#[export] Hint Resolve touches_mpz_sgn : touch.

Lemma touches_mpz_cmp_ui W u v : touches W (mpz_cmp_ui u v).
Proof. unfold mpz_cmp_ui. touch. Qed.
#[export] Hint Resolve touches_mpz_cmp_ui : touch.

Lemma touches_mpz_cmp W u v : touches W (mpz_cmp u v).
Proof. unfold mpz_cmp. touch. Qed.
#[export] Hint Resolve touches_mpz_cmp : touch.

Lemma touches_mpz_cmpabs_ui W u v : touches W (mpz_cmpabs_ui u v).
Proof. unfold mpz_cmpabs_ui. touch. Qed.
#[export] Hint Resolve touches_mpz_cmpabs_ui : touch.

Lemma touches_mpz_cmpabs W u v : touches W (mpz_cmpabs u v).
Proof. unfold mpz_cmpabs. touch. Qed.
#[export] Hint Resolve touches_mpz_cmpabs : touch.

Lemma touches_mpz_tstbit W d b : touches W (mpz_tstbit d b).
Proof. unfold mpz_tstbit. touch. Qed.
#[export] Hint Resolve touches_mpz_tstbit : touch.

Lemma touches_mpz_odd_p W u : touches W (mpz_odd_p u).
Proof. unfold mpz_odd_p. touch. Qed.
#[export] Hint Resolve touches_mpz_odd_p : touch.

(** Arithmetic *)

Lemma touches_mpz_abs_add_ui W r a b : r ∈ W → touches W (mpz_abs_add_ui r a b).
Proof. unfold mpz_abs_add_ui. touch. Qed.
#[export] Hint Resolve touches_mpz_abs_add_ui : touch.

Lemma touches_mpz_abs_sub_ui W r a b : r ∈ W → touches W (mpz_abs_sub_ui r a b).
Proof. unfold mpz_abs_sub_ui. touch. Qed.
#[export] Hint Resolve touches_mpz_abs_sub_ui : touch.

Lemma touches_mpz_add_ui W r a b : r ∈ W → touches W (mpz_add_ui r a b).
Proof. unfold mpz_add_ui. touch. Qed.
#[export] Hint Resolve touches_mpz_add_ui : touch.

Lemma touches_mpz_sub_ui W r a b : r ∈ W → touches W (mpz_sub_ui r a b).
Proof. unfold mpz_sub_ui. touch. Qed.
#[export] Hint Resolve touches_mpz_sub_ui : touch.

Lemma touches_mpz_abs_add W r a b : r ∈ W → touches W (mpz_abs_add r a b).
Proof. unfold mpz_abs_add. touch. Qed.
#[export] Hint Resolve touches_mpz_abs_add : touch.

Lemma touches_mpz_abs_sub W r a b : r ∈ W → touches W (mpz_abs_sub r a b).
Proof. unfold mpz_abs_sub. touch. Qed.
#[export] Hint Resolve touches_mpz_abs_sub : touch.

Lemma touches_mpz_add W r a b : r ∈ W → touches W (mpz_add r a b).
Proof. unfold mpz_add. touch. Qed.
#[export] Hint Resolve touches_mpz_add : touch.

Lemma touches_mpz_sub W r a b : r ∈ W → touches W (mpz_sub r a b).
Proof. unfold mpz_sub. touch. Qed.
#[export] Hint Resolve touches_mpz_sub : touch.

Lemma touches_mpz_mul W r a b : r ∈ W → touches W (mpz_mul r a b).
Proof. unfold mpz_mul. touch. Qed.
#[export] Hint Resolve touches_mpz_mul : touch.

Lemma touches_mpz_mul_2exp W r a b : r ∈ W → touches W (mpz_mul_2exp r a b).
Proof. unfold mpz_mul_2exp. touch. Qed.
#[export] Hint Resolve touches_mpz_mul_2exp : touch.

Lemma touches_mpz_mul_ui W r a b : r ∈ W → touches W (mpz_mul_ui r a b).
Proof. unfold mpz_mul_ui. touch. Qed.
#[export] Hint Resolve touches_mpz_mul_ui : touch.

Lemma touches_mpz_div_qr W q r n d mode : opt_vars q ⊆ W → opt_vars r ⊆ W → touches W (mpz_div_qr q r n d mode).
Proof. unfold mpz_div_qr. touch. Qed.
#[export] Hint Resolve touches_mpz_div_qr : touch.

Lemma touches_mpz_div_qr_ui W q r n d mode : opt_vars q ⊆ W → opt_vars r ⊆ W → touches W (mpz_div_qr_ui q r n d mode).
Proof. unfold mpz_div_qr_ui. touch. Qed.
#[export] Hint Resolve touches_mpz_div_qr_ui : touch.

Lemma touches_mpz_div_q_2exp W q u b mode : q ∈ W → touches W (mpz_div_q_2exp q u b mode).
Proof. unfold mpz_div_q_2exp. touch. Qed.
#[export] Hint Resolve touches_mpz_div_q_2exp : touch.

Lemma opt_vars_one r W : r ∈ W → opt_vars (Some r) ⊆ W.
Proof. intros Hr x ->%list_elem_of_singleton. done. Qed.
Lemma opt_vars_none W : opt_vars None ⊆ W.
Proof. intros x []%elem_of_nil. Qed.
#[export] Hint Resolve opt_vars_one opt_vars_none : touch.

Lemma touches_mpz_tdiv_qr W q r n d : q ∈ W → r ∈ W → touches W (mpz_tdiv_qr q r n d).
Proof. unfold mpz_tdiv_qr. touch. Qed.
#[export] Hint Resolve touches_mpz_tdiv_qr : touch.

Lemma touches_mpz_divexact W q n d : q ∈ W → touches W (mpz_divexact q n d).
Proof. unfold mpz_divexact. touch. Qed.
#[export] Hint Resolve touches_mpz_divexact : touch.

Lemma touches_mpz_divexact_ui W q n d : q ∈ W → touches W (mpz_divexact_ui q n d).
Proof. unfold mpz_divexact_ui. touch. Qed.
#[export] Hint Resolve touches_mpz_divexact_ui : touch.

(** Bits, divisors and inverses *)

Lemma touches_mpz_abs_add_bit W d b : d ∈ W → touches W (mpz_abs_add_bit d b).
Proof. unfold mpz_abs_add_bit. touch. Qed.
#[export] Hint Resolve touches_mpz_abs_add_bit : touch.

Lemma touches_mpz_abs_sub_bit W d b : d ∈ W → touches W (mpz_abs_sub_bit d b).
Proof. unfold mpz_abs_sub_bit. touch. Qed.
#[export] Hint Resolve touches_mpz_abs_sub_bit : touch.

Lemma touches_mpz_setbit W d b : d ∈ W → touches W (mpz_setbit d b).
Proof. unfold mpz_setbit. touch. Qed.
#[export] Hint Resolve touches_mpz_setbit : touch.

Lemma touches_mpz_make_odd W r : r ∈ W → touches W (mpz_make_odd r).
Proof. unfold mpz_make_odd. touch. Qed.
#[export] Hint Resolve touches_mpz_make_odd : touch.

Lemma touches_gcdext_loop W tu tv s0 s1 t0 t1 fuel : [tu; tv; s0; s1; t0; t1] ⊆ W → ∀ p, touches W (gcdext_loop fuel tu tv s0 s1 t0 t1 p).
Proof.
  intros HW. assert (tu ∈ W ∧ tv ∈ W ∧ s0 ∈ W ∧ s1 ∈ W ∧ t0 ∈ W ∧ t1 ∈ W) as (? & ? & ? & ? & ? & ?) by set_solver.
  induction fuel as [|fuel IH]; intros p; cbn [gcdext_loop]; touch.
Qed.
Lemma touches_halve_loop W s0 s1 t0 t1 n : s0 ∈ W → t0 ∈ W → touches W (halve_loop n s0 s1 t0 t1).
Proof. intros Hs Ht. induction n as [|n IH]; cbn [halve_loop]; touch. Qed.
#[export] Hint Resolve touches_gcdext_loop touches_halve_loop : touch.

Lemma touches_gcdext_cofactors W tu tv s0 s1 t0 t1 i j : [tu; tv; s0; s1; t0; t1] ⊆ W → touches W (gcdext_cofactors tu tv s0 s1 t0 t1 i j).
Proof.
  intros HW. assert (tu ∈ W ∧ tv ∈ W ∧ s0 ∈ W ∧ s1 ∈ W ∧ t0 ∈ W ∧ t1 ∈ W) as (? & ? & ? & ? & ? & ?) by set_solver. unfold gcdext_cofactors. touch.
Qed.
Lemma touches_gcdext_reduce W u v tv s0 s1 t0 t1 k p : [tv; s0; s1; t0; t1] ⊆ W → touches W (gcdext_reduce u v tv s0 s1 t0 t1 k p).
Proof.
  intros HW. assert (tv ∈ W ∧ s0 ∈ W ∧ s1 ∈ W ∧ t0 ∈ W ∧ t1 ∈ W) as (? & ? & ? & ? & ?) by set_solver. unfold gcdext_reduce. touch.
Qed.
(** A choice between two results *)
Lemma touches_choice W {A B} (b : bool) (f : MZ unit) (a c : A) (k : A → MZ B) :
  touches W f → touches W (k a) → touches W (k c) → touches W ((if b then f ≫= λ _, mret a else mret c) ≫= k).
Proof.
  intros Hf Ha Hc. destruct b; [|exact Hc]. intros s x s' He. apply (touches_bind W f (λ _, k a) Hf (λ _, Ha) s x s'). unfold mbind, M_bind in *. by destruct (f s) as [[]|].
Qed.

Lemma touches_mpz_gcdext W g s t u v : g ∈ W → opt_vars s ⊆ W → opt_vars t ⊆ W → touches W (mpz_gcdext g s t u v).
Proof.
  intros Hg Hs Ht. unfold mpz_gcdext.
  repeat first [ apply touches_choice | progress touch_step | apply touches_gcdext_cofactors; set_solver | apply touches_gcdext_reduce; set_solver ].
  all: subst; eauto 12 with touch.
Qed.
#[export] Hint Resolve touches_mpz_gcdext : touch.

Lemma touches_mpz_invert W r u m : r ∈ W → touches W (mpz_invert r u m).
Proof. unfold mpz_invert. touch. Qed.
#[export] Hint Resolve touches_mpz_invert : touch.

(** ** What stays *)

Lemma touches_local_mpz W : touches W local_mpz.
Proof. intros s a s' [= <- <-]. cbn. split; [lia|]. intros i Hi _. by rewrite lookup_delete_ne by lia. Qed.

(** A run that touches only [W] leaves the other variables where they are. *)
Lemma wp_keep W {A} (f : MZ A) s Q E :
  touches W f → wp f (λ a s', (∀ i, (i < z_next s)%positive → i ∉ W → (i < z_next s')%positive ∧ z_vars s' !! i = z_vars s !! i) → Q a s') E s → wp f Q E s.
Proof.
  intros Ht. unfold wp. destruct (f s) as [[a s']|] eqn:E1; [|done]. intros HQ. apply HQ. destruct (Ht _ _ _ E1) as [Hn Hv]. intros i Hi HW. split; [lia|by apply Hv].
Qed.

Lemma stays_keep (W : list mpz_t) s s' i z : (∀ i, (i < z_next s)%positive → i ∉ W → (i < z_next s')%positive ∧ z_vars s' !! i = z_vars s !! i) → i ∉ W → stays s i z → stays s' i z.
Proof. intros Hkeep Hi [Hn Hz]. destruct (Hkeep i Hn Hi) as [Hn' Hz']. split; [done|]. by rewrite Hz'. Qed.

(** ** A block that belongs to no variable *)

(** The frame [F] with the block [b] of [m] *)
Definition frame_add (F m : mem) (b : positive) : mem :=
  mk_mem (m_next F) (match m_blocks m !! b with Some a => <[b := a]> (m_blocks F) | None => m_blocks F end).

Lemma frame_add_cell F m b q : (∀ o, cell F (b, o) = None) → cell (frame_add F m b) q = if decide (q.1 = b) then cell m q else cell F q.
Proof.
  intros Hb. destruct q as [c o]. unfold cell, frame_add. cbn. case_decide as Hc.
  - subst c. destruct (m_blocks m !! b) as [a|]; [by rewrite lookup_insert_eq|]. specialize (Hb o). exact Hb.
  - destruct (m_blocks m !! b) as [a|]; [by rewrite lookup_insert_ne|done].
Qed.

Lemma zok_frame_new F s σ b n m1 o : zok F s σ → allocated (z_mem s) b n m1 → cell F (b, o) = None.
Proof. intros Hok (_ & _ & Hfr & _). destruct (cell F (b, o)) eqn:Hc; [|done]. apply (zok_foreign _ _ _ Hok) in Hc. exfalso. by apply (Hfr (b, o)); [rewrite Hc|]. Qed.

Lemma zok_frame_in F s σ b n m1 m2 :
  zok F s σ → allocated (z_mem s) b n m1 → changed m1 m2 (λ q, within q (b, 0) n) → zok (frame_add F m2 b) (set_zmem m2 s) σ.
Proof.
  intros Hok Hal Hc. pose proof (λ o, zok_frame_new F s σ b n m1 o Hok Hal) as Hb. pose proof Hal as (Hsame & Hsp & Hfr & Hm1 & Hnx). pose proof Hc as (Hf & Hd & Hn).
  assert (∀ q, q.1 ≠ b → cell m2 q = cell (z_mem s) q) as Heq by (intros q Hq; rewrite Hf, Hsame; [done|done|intros [? _]; done]).
  assert (∀ i c, is_Some (σ !! i) → owns s i c → c ≠ b) as Hown by (intros i c Hi Ho; apply (Hfr (c, 0)); by eapply owned_cell).
  pose proof Hok as [H1 H2 H3 H4 H5 H6 H7]. split; cbn [z_mem z_vars z_next set_zmem]; try done.
  - by eapply changed_ok.
  - intros i ov Hi. destruct (H2 i ov Hi) as (z & Hz & Hrep). exists z. split; [done|]. eapply rep_same; [|done]. intros Ha o. apply Heq. cbn.
    apply (Hown i); [by rewrite Hi|]. by exists z.
  - intros q c. rewrite frame_add_cell by done. case_decide as Hq; [done|]. intros HF. rewrite Heq by done. by apply H5.
  - intros i c o Hi Ho. rewrite frame_add_cell by done. rewrite decide_False by (by eapply Hown). by eapply H6.
  - intros q Hq. rewrite frame_add_cell by done. case_decide as Hqb; [by left|]. rewrite Heq in Hq by done. by apply H7.
Qed.

Lemma wp_frame_out F m s σ b Q E :
  zok (frame_add F m b) s σ → (∀ o, cell F (b, o) = None) → is_Some (cell m (b, 0)) → (∀ s', z_vars s' = z_vars s → zok F s' σ → Q tt s') →
  wp (limbs (gmp_free (b, 0))) Q E s.
Proof.
  intros Hok Hb Hc HQ. pose proof Hok as [H1 H2 H3 H4 H5 H6 H7]. apply wp_zoom, wp_gmp_free.
  { destruct Hc as [c Hc]. exists c. apply H5. rewrite frame_add_cell by done. by rewrite decide_True. }
  intros m' Hm' Hn'. apply HQ; [done|].
  assert (∀ i c, is_Some (σ !! i) → owns s i c → c ≠ b) as Hown.
  { intros i c Hi Ho ->. specialize (H6 i b 0 Hi Ho). rewrite frame_add_cell, decide_True in H6 by done. destruct Hc. congruence. }
  split; cbn [z_mem z_vars z_next set_zmem]; try done.
  - intros q Hq. rewrite Hm' in Hq. rewrite Hn'. case_decide; [by destruct Hq|]. by apply H1.
  - intros i ov Hi. destruct (H2 i ov Hi) as (z & Hz & Hrep). exists z. split; [done|]. eapply rep_same; [|done]. intros Ha o. rewrite Hm', decide_False; [done|]. cbn.
    apply (Hown i); [by rewrite Hi|]. by exists z.
  - intros q c HF. assert (q.1 ≠ b) as Hq by (intros <-; destruct q; by rewrite Hb in HF). rewrite Hm', decide_False by done. apply H5. rewrite frame_add_cell by done. by rewrite decide_False.
  - intros i c o Hi Ho. specialize (H6 i c o Hi Ho). rewrite frame_add_cell, decide_False in H6 by (done || by eapply Hown). done.
  - intros q Hq. rewrite Hm' in Hq. case_decide as Hqb; [by destruct Hq|]. destruct (H7 q Hq) as [HF|?]; [|by right]. left. rewrite frame_add_cell, decide_False in HF by done. done.
Qed.

(** ** Read-only integers *)

Section readonly.
Context (F : mem).
Implicit Types (s : zstate) (σ : gmap positive (option Z)).

(** Variables outside the store do not matter. *)
Lemma zok_ignore F' s σ t z : zok F' s σ → σ !! t = None → zok F' (mk_zstate (z_mem s) (z_next s) (<[t := z]> (z_vars s))) σ.
Proof.
  intros [H1 H2 H3 H4 H5 H6 H7] Ht. assert (∀ i, is_Some (σ !! i) → <[t := z]> (z_vars s) !! i = z_vars s !! i) as Hv.
  { intros i [v Hi]. rewrite lookup_insert_ne; [done|]. congruence. }
  assert (∀ i b, is_Some (σ !! i) → owns (mk_zstate (z_mem s) (z_next s) (<[t := z]> (z_vars s))) i b ↔ owns s i b) as Ho by (intros i b Hi; unfold owns; cbn; by rewrite Hv).
  split; cbn [z_mem z_next z_vars]; try done.
  - intros i ov Hi. rewrite Hv by (by rewrite Hi). by apply H2.
  - intros i j b Hi Hj Hib Hjb. apply (H4 i j b); try done; by apply Ho.
  - intros i b o Hi Hib. apply (H6 i b o); [done|]. by apply Ho.
  - intros q Hq. destruct (H7 q Hq) as [|(i & Hi & Hown)]; [by left|]. right. exists i. split; [done|]. by apply Ho.
Qed.

(** A run with a read-only integer of one limb, which a frame that grows holds *)
Lemma wp_roinit_limb {A} (f : MZ A) s σ t x Q E :
  zok F s σ → σ !! t = None → (t < z_next s)%positive → word x →
  (∀ F' s' z l, zok F' s' σ → stays s' t z → words l → normal l → val l = x → mp_size z = nlimbs x → holds F' (mp_d z) l →
     wp f (λ a s2, ∃ σ', zok F' s2 σ' ∧ ∀ s3, zok F s3 σ' → Q a s3) E s') →
  wp (with_limb x (λ p, _ ← mpz_roinit_n t p 1; f)) Q E s.
Proof.
  intros Hok Ht Htn Hx Hf. unfold with_limb. apply wp_bind, wp_zoom, (wp_gmp_xalloc_limbs 1); [lia|apply (zok_mem _ _ _ Hok)|]. intros b m1 Hal.
  apply wp_bind, wp_zoom. cbn [z_mem set_zmem]. pose proof Hal as (_ & Hsp & _). apply space_S in Hsp as [Hsp _]. apply wp_store_writes; [done|]. intros m2 [Hh Hch].
  pose proof (zok_frame_in F s σ b 1 m1 m2 Hok Hal Hch) as Hok2. pose proof (λ o, zok_frame_new F s σ b _ m1 o Hok Hal) as Hnew. replace (set_zmem m2 (set_zmem m1 s)) with (set_zmem m2 s) by done.
  set (F' := frame_add F m2 b) in *. assert (is_Some (cell m2 (b, 0))) as Hc2 by (apply holds_cons in Hh as [Hh _]; by rewrite Hh).
  assert (∀ l, holds m2 (b, 0) l → holds F' (b, 0) l) as HF by (intros l Hl i v Hi; unfold F'; rewrite frame_add_cell, decide_True by done; by apply Hl).
  apply wp_bind, wp_bind. unfold mpz_roinit_n. apply wp_bind, wp_put_mpz. apply wp_bind. unfold mpz_limbs_finish. apply wp_bind. eapply wp_get_mpz; [apply lookup_insert_eq|]. cbn [mp_d].
  apply wp_bind, wp_zoom. cbn [z_mem set_zmem]. apply (wp_mpn_normalized_size (b, 0) [x]); [done|]. intros k Hk Hn Hl. change (1 <? 0) with false. cbv iota.
  unfold set_size. apply wp_bind. eapply wp_get_mpz; [apply lookup_insert_eq|]. apply wp_put_mpz, wp_ret. cbn [mp_alloc mp_d z_mem z_next z_vars set_zmem]. rewrite insert_insert_eq.
  assert (words (take k [x])) as Hw by (apply Forall_take; by apply Forall_singleton). assert (val (take k [x]) = x) as Hvt.
  { transitivity (val [x]); [|cbn; lia]. rewrite Hl at 2. rewrite val_app, val_zeros. lia. }
  assert (Z.of_nat k = nlimbs x) as Hkx. { rewrite <- Hvt at 1. rewrite nlimbs_val by done. rewrite length_take. lia. }
  eapply wp_mono; [apply (Hf F' _ (mk_mpz 0 (cast_int (Z.of_nat k)) (b, 0)) (take k [x])); try done| |done].
  - by apply (zok_ignore F' (set_zmem m2 s)).
  - split; [done|]. cbn. by rewrite lookup_insert_eq.
  - cbn [mp_size]. rewrite Hkx. apply cast_int_id. cbn in Hk. unfold INT_MIN, INT_MAX. lia.
  - cbn [mp_d]. apply HF. rewrite Hl in Hh. by apply holds_app in Hh as [? _].
  - intros a s2 (σ' & Hok' & HQ). apply wp_bind. eapply wp_frame_out; [exact Hok'|done|done|]. intros s3 _ Hok3. by apply wp_ret, HQ.
Qed.
End readonly.
