(* ===== verification/MpzStr.v ===== *)
(** * Integers and strings (examples/multiprecision/mini-gmp/mini-gmp.c)

    [mpz_get_str] and [mpz_set_str].  A buffer of characters is an array of byte values; the
    string that is read is the list of its bytes before the terminating 0.  Buffers are not
    limb memory: they are arguments and results. *)

From S2P Require Import Prelude CString Queue State UInt64 Mpn MpnDiv MpnStr Mpz MpzNum.

(** ** Numbers to strings *)

(** ["0123456789abcdefghijklmnopqrstuvwxyz"] and the same in upper case *)
Definition digit_code (upper : bool) (d : Z) : outcome Z :=
  if (0 <=? d) && (d <? 10) then Ok (48 + d)
  else if (10 <=? d) && (d <? 36) then Ok ((if upper then 65 else 97) + (d - 10))
  else Err OutOfBounds.

(** [for (; i < sn; i++) sp[i] = digits[(unsigned char) sp[i]];] *)
Fixpoint digits_to_chars (n : nat) (upper : bool) (sp : arr Z) (i : Z) : outcome (arr Z) :=
  match n with
  | O => Ok sp
  | S n =>
     d ← arr_get sp i;
     c ← digit_code upper d;
     sp ← arr_set sp i c;
     digits_to_chars n upper sp (i + 1)
  end.

(** The digits are written at [sp + i]. *)
Definition at_offset (sp : arr Z) (i : Z) (f : arr Z → L (Z * arr Z)) : L (Z * arr Z) :=
  '(n, rest) ← f (drop (Z.to_nat i) sp);
  mret (n, take (Z.to_nat i) sp ++ rest).

Definition mpz_get_str (sp : option (arr Z)) (base : Z) (u : mpz_t) : MZ (option (arr Z)) :=
  _ ← lift (if base =? INT_MIN then Err SignedOverflow else Ok tt);
  let upper := negb (0 <=? base) in
  let base := if 0 <=? base then base else - base in
  let base := if base <=? 1 then 10 else base in
  if 36 <? base then mret None
  else
    size ← mpz_sizeinbase u base;
    let sn := 1 + size in
    let sp := match sp with Some sp => sp | None => arr_new (1 + sn) end in
    zu ← get_mpz u;
    let un := Z.abs (mp_size zu) in
    if un =? 0 then
      sp ← lift (arr_set sp 0 48);
      sp ← lift (arr_set sp 1 0);
      mret (Some sp)
    else
      '(i, sp) ← (if mp_size zu <? 0 then sp ← lift (arr_set sp 0 45); mret (1, sp) else mret (0, sp));
      let bits := mpn_base_power_of_two_p base in
      '(n, sp) ←
        (if negb (bits =? 0) then limbs (at_offset sp i (λ sp, mpn_get_str_bits sp bits (mp_d zu) un))
         else
           info ← lift (mpn_get_base_info base);
           limbs (tp ← gmp_xalloc_limbs un;
                  _ ← mpn_copyi tp (mp_d zu) un;
                  res ← at_offset sp i (λ sp, mpn_get_str_other sp base info tp un);
                  _ ← gmp_free tp;
                  mret res));
      let sn := i + n in
      sp ← lift (digits_to_chars (Z.to_nat n) upper sp i);
      sp ← lift (arr_set sp sn 0);
      mret (Some sp).

(** ** Strings to numbers *)

Definition isspace (c : Z) : bool := (c =? 32) || ((9 <=? c) && (c <=? 13)).

Fixpoint skip_spaces (sp : list Z) : list Z :=
  match sp with
  | c :: sp' => if isspace c then skip_spaces sp' else sp
  | [] => []
  end.

(** The value of a character as a digit; [base] for one that is none *)
Definition char_digit (base c : Z) : Z :=
  if (48 <=? c) && (c <=? 57) then c - 48
  else if (97 <=? c) && (c <=? 122) then c - 97 + 10
  else if (65 <=? c) && (c <=? 90) then c - 65 + 10
  else base.

(** The digits of the string; [None] if there is a character that is neither a digit nor
    a space *)
Fixpoint parse_digits (sp : list Z) (base : Z) (dp : arr Z) (dn : Z) : outcome (option (arr Z * Z)) :=
  match sp with
  | [] => Ok (Some (dp, dn))
  | c :: sp =>
     if isspace c then parse_digits sp base dp dn
     else
       let digit := char_digit base c in
       if base <=? digit then Ok None
       else dp ← arr_set dp dn digit; parse_digits sp base dp (dn + 1)
  end.

(** The prefix of a number when the base is not given *)
Definition detect_base (sp : list Z) : Z * list Z :=
  match sp with
  | 48 :: c :: sp' =>
     if (c =? 120) || (c =? 88) then (16, sp')
     else if (c =? 98) || (c =? 66) then (2, sp')
     else (8, sp)
  | [48] => (8, sp)
  | _ => (10, sp)
  end.

Definition mpz_set_str (r : mpz_t) (sp : list Z) (base : Z) : MZ Z :=
  _ ← zassert ((base =? 0) || ((2 <=? base) && (base <=? 36)));
  let sp := skip_spaces sp in
  let sign := match sp with c :: _ => c =? 45 | [] => false end in
  let sp := if sign then drop 1 sp else sp in
  let '(base, sp) := if base =? 0 then detect_base sp else (base, sp) in
  if bool_decide (sp = []) then _ ← set_size r 0; mret (-1)
  else
    let dp := arr_new (Z.of_nat (length sp)) in
    digits ← lift (parse_digits sp base dp 0);
    match digits with
    | None => _ ← set_size r 0; mret (-1)
    | Some (dp, dn) =>
       if dn =? 0 then _ ← set_size r 0; mret (-1)
       else
         let bits := mpn_base_power_of_two_p base in
         rn ← (if 0 <? bits then
                 let alloc := u64 (u64 (dn * bits + GMP_LIMB_BITS) - 1) / GMP_LIMB_BITS in
                 rp ← MPZ_REALLOC r alloc;
                 rn ← limbs (mpn_set_str_bits rp dp dn bits);
                 _ ← zassert (rn <=? alloc);
                 mret rn
               else
                 info ← lift (mpn_get_base_info base);
                 let alloc := u64 (u64 (dn + info_exp info) - 1) / info_exp info in
                 rp ← MPZ_REALLOC r alloc;
                 rn ← limbs (mpn_set_str_other rp dp dn base info);
                 _ ← zassert (0 <? rn);
                 x ← limbs (load (padd rp (rn - 1)));
                 let rn := rn - b2z (x =? 0) in
                 _ ← zassert (rn <=? alloc);
                 mret rn);
         _ ← set_size r (if sign then - rn else rn);
         mret 0
    end.

Definition mpz_init_set_str (r : mpz_t) (sp : list Z) (base : Z) : MZ Z := _ ← mpz_init r; mpz_set_str r sp base.
