(* ===== verification/MpzIO.v ===== *)
(** * Integers and sequences of bytes (examples/multiprecision/mini-gmp/mini-gmp.c)

    [mpz_import] and [mpz_export], between integers and arrays of words of any number of
    bytes, in either order of the words and of the bytes in a word, and [mpz_out_str].
    A pointer into the array of bytes is its offset; only accesses are checked, not the
    pointers themselves, which run past the ends when the loops are over. *)

From S2P Require Import Prelude CString Queue State UInt64 Mpn MpnDiv MpnStr Mpz MpzNum MpzStr.

Definition CHAR_BIT : Z := 8.
(** [sizeof (mp_limb_t)] *)
Definition LIMB_BYTES : Z := 8.
Definition PTRDIFF_MAX : Z := 9223372036854775807.
Definition cast_ptrdiff (x : Z) : Z := if x <=? PTRDIFF_MAX then x else x - WB.

(** ** The byte order of the machine *)

(** An [int] in memory, on a machine with the least significant byte first or last *)
Definition int_bytes (little : bool) (i : Z) : list Z :=
  let le := [i mod 256; i / 2 ^ 8 mod 256; i / 2 ^ 16 mod 256; i / 2 ^ 24 mod 256] in
  if little then le else reverse le.

Definition gmp_detect_endian (little : bool) : outcome Z :=
  match int_bytes little 2 with
  | p :: _ => Ok (1 - p)
  | [] => Err OutOfBounds
  end.

(** ** Bytes to numbers *)

(** The inner loop, over the bytes of a word: [p], the limb being filled with the number of
    its bytes, and the index at which it will be stored *)
Fixpoint import_word (size : nat) (rp : ptr) (src : arr Z) (endian p limb bytes i : Z) : L (Z * Z * Z * Z) :=
  match size with
  | O => mret (p, limb, bytes, i)
  | S size =>
     x ← lift (arr_get src p);
     let limb := Z.lor limb (u64 (Z.shiftl x (bytes * CHAR_BIT))) in
     let bytes := bytes + 1 in
     if bytes =? LIMB_BYTES then
       _ ← store (padd rp i) limb;
       import_word size rp src endian (p - endian) 0 0 (i + 1)
     else import_word size rp src endian (p - endian) limb bytes i
  end.

Fixpoint import_words (count : nat) (size : nat) (rp : ptr) (src : arr Z) (endian word_step p limb bytes i : Z) : L (Z * Z * Z) :=
  match count with
  | O => mret (limb, bytes, i)
  | S count =>
     '(p, limb, bytes, i) ← import_word size rp src endian p limb bytes i;
     import_words count size rp src endian word_step (p + word_step) limb bytes i
  end.

(** The first byte that is processed, and what is added to [p] after each word *)
Definition first_byte (count order size endian : Z) : Z :=
  let p := if order =? 1 then u64 (size * u64 (count - 1)) else 0 in
  if endian =? 1 then p + u64 (size - 1) else p.
Definition word_step_of (order size endian : Z) : Z :=
  let word_step := if negb (order =? endian) then cast_ptrdiff (u64 (2 * size)) else 0 in
  if order =? 1 then - word_step else word_step.

Definition mpz_import (little : bool) (r : mpz_t) (count order size endian nails : Z) (src : arr Z) : MZ unit :=
  if negb (nails =? 0) then gmp_die
  else
    _ ← zassert ((order =? 1) || (order =? -1));
    _ ← zassert ((-1 <=? endian) && (endian <=? 1));
    endian ← (if endian =? 0 then lift (gmp_detect_endian little) else mret endian);
    let rn := u64 (u64 (u64 (size * count) + LIMB_BYTES) - 1) / LIMB_BYTES in
    rp ← MPZ_REALLOC r rn;
    '(limb, bytes, i) ← limbs (import_words (Z.to_nat count) (Z.to_nat size) rp src endian
                                 (word_step_of order size endian) (first_byte count order size endian) 0 0 0);
    _ ← zassert (i + b2z (0 <? bytes) =? rn);
    i ← (if negb (limb =? 0) then _ ← limbs (store (padd rp i) limb); mret (i + 1)
         else limbs (mpn_normalized_size rp i));
    set_size r i.

(** ** Numbers to bytes *)

(** [do { k++; limb >>= CHAR_BIT; } while (limb != 0)] *)
Fixpoint top_bytes (fuel : nat) (limb k : Z) : outcome Z :=
  match fuel with
  | O => Err OutOfFuel
  | S fuel =>
     let limb := Z.shiftr limb CHAR_BIT in
     if negb (limb =? 0) then top_bytes fuel limb (k + 1) else Ok (k + 1)
  end.

Fixpoint export_word (size : nat) (ud : ptr) (un endian p limb bytes i : Z) (r : arr Z) : L (Z * Z * Z * Z * arr Z) :=
  match size with
  | O => mret (p, limb, bytes, i, r)
  | S size =>
     '(limb, bytes, i) ←
       (if bytes =? 0 then
          if i <? un then limb ← load (padd ud i); mret (limb, LIMB_BYTES, i + 1) else mret (limb, LIMB_BYTES, i)
        else mret (limb, bytes, i));
     r ← lift (arr_set r p (limb mod 256));
     export_word size ud un endian (p - endian) (Z.shiftr limb CHAR_BIT) (bytes - 1) i r
  end.

Fixpoint export_words (count : nat) (size : nat) (ud : ptr) (un endian word_step p limb bytes i : Z) (r : arr Z) : L (Z * arr Z) :=
  match count with
  | O => mret (i, r)
  | S count =>
     '(p, limb, bytes, i, r) ← export_word size ud un endian p limb bytes i r;
     export_words count size ud un endian word_step (p + word_step) limb bytes i r
  end.

(** [r] and [countp] may be null; the results are the array that is returned and what
    [countp] points to. *)
Definition mpz_export (little : bool) (r : option (arr Z)) (countp : option Z) (order size endian nails : Z) (u : mpz_t) : MZ (option (arr Z) * option Z) :=
  if negb (nails =? 0) then gmp_die
  else
    _ ← zassert ((order =? 1) || (order =? -1));
    _ ← zassert ((-1 <=? endian) && (endian <=? 1));
    zu ← get_mpz u;
    _ ← zassert ((0 <? size) || (mp_size zu =? 0));
    '(r, count) ←
      (if negb (mp_size zu =? 0) then
         let un := Z.abs (mp_size zu) in
         limb ← limbs (load (padd (mp_d zu) (un - 1)));
         _ ← zassert (negb (limb =? 0));
         k ← lift (top_bytes 8 limb 0);
         let count := u64 (u64 (k + (un - 1) * LIMB_BYTES + size) - 1) / size in
         r ← (match r with
              | Some r => mret r
              | None => _ ← zassert (0 <? u64 (count * size)); mret (arr_new (u64 (count * size)))
              end);
         endian ← (if endian =? 0 then lift (gmp_detect_endian little) else mret endian);
         '(i, r) ← limbs (export_words (Z.to_nat count) (Z.to_nat size) (mp_d zu) un endian
                            (word_step_of order size endian) (first_byte count order size endian) 0 0 0 r);
         _ ← zassert (i =? un);
         mret (Some r, count)
       else mret (r, 0));
    mret (r, match countp with Some _ => Some count | None => None end).

(** ** Output *)

(** A stream of the C library: [fwrite] takes the bytes and says how many it has written. *)
Class Stdio := {
  FILE : Type;
  fwrite : list Z → FILE → Z * FILE
}.

(** [strlen] on an array of characters, and the bytes that [fwrite] reads from it *)
Fixpoint chars_strlen (s : arr Z) : outcome Z :=
  match s with
  | [] => Err OutOfBounds
  | None :: _ => Err Indeterminate
  | Some c :: s => if c =? 0 then Ok 0 else n ← chars_strlen s; Ok (n + 1)
  end.
Fixpoint chars_read (n : nat) (s : arr Z) (i : Z) : outcome (list Z) :=
  match n with
  | O => Ok []
  | S n => c ← arr_get s i; l ← chars_read n s (i + 1); Ok (c :: l)
  end.

Definition mpz_out_str `{Stdio} (stream : FILE) (base : Z) (x : mpz_t) : MZ (Z * FILE) :=
  str ← mpz_get_str None base x;
  match str with
  | None => raise NullDeref
  | Some str =>
     len ← lift (chars_strlen str);
     l ← lift (chars_read (Z.to_nat len) str 0);
     mret (fwrite l stream)
  end.
