(* ===== verification/MpzPow.v ===== *)
(** * Powers, factorials and binomial coefficients: correctness *)

From S2P Require Import Prelude CString Queue State UInt64 Mpn MpnMem MpnThm MpnBits MpnDiv MpnInv MpnDivThm MpnDivPi1 MpnCorrect MpnDivQr MpnStr MpnStrThm MpnSetStr Mpz MpzRep MpzArith MpzMul MpzDiv MpzConv MpzQuo MpzQuoThm MpzBits MpzNum MpzNumThm MpzFrame.

(** ** Sizes of products *)

Lemma nlimbs_mul_lower a b : a ≠ 0 → b ≠ 0 → nlimbs a + nlimbs b ≤ nlimbs (a * b) + 1.
Proof.
  intros Ha Hb. unfold nlimbs. rewrite !(proj2 (Z.eqb_neq _ 0)), Z.abs_mul by nia. pose proof (Z.log2_mul_below (Z.abs a) (Z.abs b) ltac:(lia) ltac:(lia)).
  enough (Z.log2 (Z.abs a) / 64 + Z.log2 (Z.abs b) / 64 ≤ Z.log2 (Z.abs a * Z.abs b) / 64) by lia. apply Z.div_le_lower_bound; [lia|].
  pose proof (Z.mul_div_le (Z.log2 (Z.abs a)) 64). pose proof (Z.mul_div_le (Z.log2 (Z.abs b)) 64). lia.
Qed.

Lemma nlimbs_factor a b : b ≠ 0 → nlimbs a ≤ nlimbs (a * b).
Proof. intros Hb. apply nlimbs_le. rewrite Z.abs_mul. nia. Qed.

Lemma nlimbs_pow_le x p e : 0 ≤ p ≤ e → nlimbs (x ^ p) ≤ Z.max 1 (nlimbs (x ^ e)).
Proof.
  intros Hp. destruct (Z.eq_dec x 0) as [->|Hx].
  - destruct (Z.eq_dec p 0) as [->|]; [change (nlimbs (0 ^ 0)) with 1; lia|]. rewrite Z.pow_0_l by lia. change (nlimbs 0) with 0. lia.
  - replace e with (p + (e - p)) by lia. rewrite Z.pow_add_r by lia. pose proof (nlimbs_factor (x ^ p) (x ^ (e - p)) ltac:(apply Z.pow_nonzero; lia)). lia.
Qed.

(** The sizes of the factors of a power *)
Lemma nlimbs_pow_split x p q e : 0 ≤ p → 0 ≤ q → p + q ≤ e → nlimbs (x ^ e) < INT_MAX → nlimbs (x ^ p) + nlimbs (x ^ q) ≤ INT_MAX.
Proof.
  intros Hp Hq He Hn. destruct (Z.eq_dec x 0) as [->|Hx].
  - assert (∀ k, nlimbs (0 ^ k) ≤ 1) as Hk.
    { intros k. destruct (Z.lt_total k 0) as [Hk|[->|Hk]]; [by rewrite Z.pow_neg_r|done|by rewrite Z.pow_0_l by lia]. }
    pose proof (Hk p). pose proof (Hk q). unfold INT_MAX. lia.
  - pose proof (nlimbs_mul_lower (x ^ p) (x ^ q) ltac:(apply Z.pow_nonzero; lia) ltac:(apply Z.pow_nonzero; lia)) as Hm. rewrite <- Z.pow_add_r in Hm by lia.
    pose proof (nlimbs_pow_le x (p + q) e ltac:(lia)). unfold INT_MAX in *. lia.
Qed.

(** ** The bits of the exponent *)

Lemma land_bit e i : 0 ≤ i → negb (Z.land e (2 ^ i) =? 0) = Z.testbit e i.
Proof.
  intros Hi. destruct (Z.testbit e i) eqn:Hb.
  - apply negb_true_iff, Z.eqb_neq. intros H0. assert (Z.testbit (Z.land e (2 ^ i)) i = true) as Ht by (rewrite Z.land_spec, Hb, Z.pow2_bits_true; done).
    by rewrite H0, Z.bits_0 in Ht.
  - apply negb_false_iff, Z.eqb_eq, Z.bits_inj. intros j. rewrite Z.land_spec, Z.bits_0. destruct (decide (i = j)) as [<-|Hne]; [by rewrite Hb|].
    by rewrite Z.pow2_bits_false, andb_false_r by done.
Qed.

Lemma next_bit e i : 0 ≤ i → e / 2 ^ i = 2 * (e / 2 ^ (i + 1)) + Z.b2z (Z.testbit e i).
Proof.
  intros Hi. rewrite Z.pow_add_r, <- Z.div_div by (try (apply Z.pow_nonzero || apply Z.pow_pos_nonneg); lia). change (2 ^ 1) with 2.
  rewrite (Z.div_mod (e / 2 ^ i) 2) at 1 by lia. rewrite Z.testbit_spec' by done. done.
Qed.

Section pow.
Context (F : mem).
Implicit Types (s : zstate) (σ : gmap positive (option Z)).

(** One bit of the exponent: the power is squared and multiplied by the base if the bit is
    set. *)
Lemma wp_pow_step {A} (K : MZ A) tr b x zb lb e n s σ Q E :
  tr ≠ b → 0 ≤ e → nlimbs (x ^ e) < INT_MAX → 0 ≤ n → zok F s σ → stays s b zb → readable F σ b x zb lb → σ !! tr = Some (Some (x ^ (e / 2 ^ (n + 1)))) →
  (∀ s', zok F s' (<[tr := Some (x ^ (e / 2 ^ n))]> σ) → stays s' b zb → wp K Q E s') →
  wp (_ ← mpz_mul tr tr tr; _ ← (if negb (Z.land e (2 ^ n) =? 0) then mpz_mul tr tr b else mret tt); K) Q E s.
Proof.
  intros Hne He Hn Hn0 Hok Hst Hb Ht HK. assert (b ∉ [tr]) as Hbt by (by intros ->%list_elem_of_singleton). pose proof (next_bit e n Hn0) as Hnext. pose proof (Z.pow_pos_nonneg 2 (n + 1) ltac:(lia) ltac:(lia)) as Hp1.
  pose proof (Z.pow_pos_nonneg 2 n ltac:(lia) Hn0) as Hp0. assert (e / 2 ^ n ≤ e) as Hle by (apply Z.div_le_upper_bound; nia).
  set (p := e / 2 ^ (n + 1)) in *. assert (0 ≤ p) as Hp by (apply Z.div_pos; lia). assert (0 ≤ Z.b2z (Z.testbit e n)) as Hbz by (destruct (Z.testbit e n); cbn; lia). apply wp_bind, (wp_keep [tr]); [touch|].
  eapply (wp_mpz_mul F s σ tr (x ^ p) tr (x ^ p) tr (x ^ p)); try done; [eapply (nlimbs_pow_split x p p e); lia || done|].
  rewrite <- Z.pow_add_r, Z.add_diag by done. intros s1 Hok1 Hkeep. pose proof (stays_keep _ _ _ _ _ Hkeep Hbt Hst) as Hst1. rewrite land_bit by done. apply wp_bind. destruct (Z.testbit e n); cbn [Z.b2z] in *.
  - apply (wp_keep [tr]); [touch|]. eapply (wp_mpz_mul_at F s1 _ tr (x ^ (2 * p)) tr (x ^ (2 * p)) b x zb lb); [done|by simplify_map_eq|by simplify_map_eq|done|by apply readable_insert| |].
    { rewrite <- (Z.pow_1_r x) at 2. eapply (nlimbs_pow_split x (2 * p) 1 e); lia || done. }
    intros s2. rewrite insert_insert_eq. replace (x ^ (2 * p) * x) with (x ^ (e / 2 ^ n)) by (rewrite Hnext, Z.pow_add_r, Z.pow_1_r by lia; done).
    intros Hok2 Hkeep2. apply HK; [done|]. by eapply stays_keep.
  - apply wp_ret, HK; [|done]. by rewrite Hnext, Z.add_0_r.
Qed.

(** From the highest bit on, the number is the power for the bits seen so far. *)
Lemma wp_pow_loop tr b x zb lb e (Hne : tr ≠ b) (He : 0 ≤ e) (Hn : nlimbs (x ^ e) < INT_MAX) i : ∀ s σ Q E,
  zok F s σ → stays s b zb → readable F σ b x zb lb → σ !! tr = Some (Some (x ^ (e / 2 ^ (Z.of_nat i + 1)))) →
  (∀ s', zok F s' (<[tr := Some (x ^ e)]> σ) → Q tt s') → wp (pow_loop (S i) tr b e (2 ^ Z.of_nat i)) Q E s.
Proof.
  induction i as [|i IH]; intros s σ Q E Hok Hst Hb Ht HQ; cbn [pow_loop]; (eapply wp_pow_step; [done|done|done|lia|done|done|done|done|]); intros s1 Hok1 Hst1.
  - change (2 ^ Z.of_nat 0) with 1 in *. rewrite Z.div_1_r in Hok1. by apply wp_ret, HQ.
  - assert (Z.shiftr (2 ^ Z.of_nat (S i)) 1 = 2 ^ Z.of_nat i) as ->.
    { rewrite Z.shiftr_div_pow2, Nat2Z.inj_succ, Z.pow_succ_r by lia. change (2 ^ 1) with 2. rewrite Z.mul_comm. apply Z.div_mul. lia. }
    pose proof (Z.pow_pos_nonneg 2 (Z.of_nat i) ltac:(lia) ltac:(lia)). rewrite (proj2 (Z.ltb_lt 0 _)) by done.
    eapply IH; [done|done|by apply readable_insert| |].
    + rewrite lookup_insert_eq. by rewrite Nat2Z.inj_succ.
    + intros s2. rewrite insert_insert_eq. apply HQ.
Qed.

Lemma wp_mpz_init_set_ui s σ t x Q E :
  zok F s σ → σ !! t = None → (t < z_next s)%positive → 0 ≤ x < WB →
  (∀ s', zok F s' (<[t := Some x]> σ) → Q tt s') → wp (mpz_init_set_ui t x) Q E s.
Proof.
  intros Hok Ht Htn Hx HQ. unfold mpz_init_set_ui. apply wp_bind. eapply wp_mpz_init; try done. intros s1 Hok1.
  eapply (wp_mpz_set_ui F s1 _ t 0); [done|by simplify_map_eq|done|]. intros s2. rewrite insert_insert_eq. apply HQ.
Qed.

(** [mpz_pow_ui]: the power for every exponent, [0 ^ 0 = 1] included; the base may be
    read-only. *)
Lemma wp_mpz_pow_ui_at s σ r w b x zb lb e Q E :
  zok F s σ → σ !! r = Some (Some w) → stays s b zb → readable F σ b x zb lb → 0 ≤ e < WB → nlimbs (x ^ e) < INT_MAX →
  (∀ s', zok F s' (<[r := Some (x ^ e)]> σ) → Q tt s') → wp (mpz_pow_ui r b e) Q E s.
Proof.
  intros Hok Hr Hst Hb He Hn HQ. unfold mpz_pow_ui. apply wp_bind. eapply (wp_local_stays F); [done|]. intros t s1 Ht Htn Hkeep Hok1.
  destruct (Hkeep b zb Hst) as [Htb Hst1]. assert (r ≠ t) as Hrt by congruence.
  apply wp_bind, (wp_keep [t]); [touch|]. eapply wp_mpz_init_set_ui; try done. intros s2 Hok2 Hkeep2. apply wp_bind.
  eapply (wp_pow_loop t b x zb lb e ltac:(done) ltac:(lia) Hn 63 s2); [done|eapply stays_keep; [done|by intros ->%list_elem_of_singleton|done]|by apply readable_insert| |].
  { rewrite lookup_insert_eq. change (Z.of_nat 63 + 1) with 64. rewrite Z.div_small by (unfold WB in He; lia). done. }
  intros s3. rewrite insert_insert_eq. intros Hok3. apply wp_bind. eapply (wp_mpz_swap F s3 _ r t); [done|by simplify_map_eq..|]. intros s4 Hok4.
  eapply (wp_mpz_clear F s4 _ t (Some w)); [done|by simplify_map_eq|]. intros s5 Hok5. apply HQ. same_store Hok5.
Qed.

Lemma wp_mpz_pow_ui s σ r w b x e Q E :
  zok F s σ → σ !! r = Some (Some w) → σ !! b = Some (Some x) → 0 ≤ e < WB → nlimbs (x ^ e) < INT_MAX →
  (∀ s', zok F s' (<[r := Some (x ^ e)]> σ) → Q tt s') → wp (mpz_pow_ui r b e) Q E s.
Proof. intros Hok Hr Hb. destruct (readable_of F s σ b x Hok Hb) as (zb & lb & Hst & Hrd). by eapply wp_mpz_pow_ui_at. Qed.
End pow.

(** A base that is a word, as a read-only integer *)
Lemma wp_mpz_ui_pow_ui (F : mem) s (σ : gmap positive (option Z)) r w x e Q E :
  zok F s σ → σ !! r = Some (Some w) → word x → 0 ≤ e < WB → nlimbs (x ^ e) < INT_MAX →
  (∀ s', zok F s' (<[r := Some (x ^ e)]> σ) → Q tt s') → wp (mpz_ui_pow_ui r x e) Q E s.
Proof.
  intros Hok Hr Hx He Hn HQ. pose proof (proj1 Hx) as Hx0. unfold mpz_ui_pow_ui. apply wp_bind. eapply (wp_local_stays F); [done|]. intros b s1 Hb Hbn _ Hok1.
  eapply (wp_roinit_limb F _ s1 σ b x); try done. intros F' s2 zb lb Hok2 Hst Hw Hnl Hv Hsz Hh.
  eapply (wp_mpz_pow_ui_at F' s2 σ r w b x zb lb); try done.
  - split_and!; try done; [lia| |by right]. rewrite Hsz. destruct (Z.eq_dec x 0) as [->|]; [done|]. rewrite Z.sgn_pos; lia.
  - intros s3 Hok3. eexists. split; [exact Hok3|]. exact HQ.
Qed.


(** ** Factorials and binomial coefficients *)

Fixpoint zfact (n : nat) : Z := match n with O => 1 | S m => Z.of_nat n * zfact m end.
Fixpoint falling (n : Z) (k : nat) : Z := match k with O => 1 | S k => n * falling (n - 1) k end.
Fixpoint binom (n k : nat) : Z :=
  match k, n with
  | O, _ => 1
  | S _, O => 0
  | S k', S n' => binom n' k' + binom n' k
  end.

Lemma zfact_pos n : 0 < zfact n.
Proof. induction n as [|n IH]; cbn [zfact]; lia. Qed.

Lemma falling_snoc k : ∀ n, falling n (S k) = falling n k * (n - Z.of_nat k).
Proof.
  induction k as [|k IH]; intros n; [cbn; lia|]. change (falling n (S (S k))) with (n * falling (n - 1) (S k)). rewrite IH.
  change (falling n (S k)) with (n * falling (n - 1) k). rewrite Nat2Z.inj_succ. ring.
Qed.

Lemma falling_pos k : ∀ n, Z.of_nat k ≤ n → 0 < falling n k.
Proof. induction k as [|k IH]; intros n Hn; cbn [falling]; [lia|]. specialize (IH (n - 1) ltac:(lia)). nia. Qed.

Lemma falling_fact k : ∀ n, (k ≤ n)%nat → falling (Z.of_nat n) k * zfact (n - k) = zfact n.
Proof.
  induction k as [|k IH]; intros n Hn; [cbn [falling]; rewrite Nat.sub_0_r; lia|]. destruct n as [|n]; [lia|]. cbn [falling].
  replace (Z.of_nat (S n) - 1) with (Z.of_nat n) by lia. change (S n - S k)%nat with (n - k)%nat. rewrite <- Z.mul_assoc, IH by lia. done.
Qed.

(** Pascal's triangle *)
Lemma falling_binom n : ∀ k, falling (Z.of_nat n) k = binom n k * zfact k.
Proof.
  induction n as [|n IH]; intros k; destruct k as [|k]; try done.
  cbn [falling]. replace (Z.of_nat (S n) - 1) with (Z.of_nat n) by lia.
  change (binom (S n) (S k)) with (binom n k + binom n (S k)). rewrite Z.mul_add_distr_r, <- IH, falling_snoc. cbn [zfact]. rewrite IH. rewrite !Nat2Z.inj_succ. ring.
Qed.

Lemma binom_beyond n : ∀ k, (n < k)%nat → binom n k = 0.
Proof. induction n as [|n IH]; intros k Hk; destruct k as [|k]; try lia; [done|]. cbn [binom]. rewrite !IH by lia. done. Qed.

Lemma binom_sym n k : (k ≤ n)%nat → binom n k = binom n (n - k).
Proof.
  intros Hk. pose proof (falling_fact k n Hk) as H1. pose proof (falling_fact (n - k) n ltac:(lia)) as H2. rewrite falling_binom in H1, H2.
  replace (n - (n - k))%nat with k in H2 by lia. pose proof (zfact_pos k). pose proof (zfact_pos (n - k)).
  apply (Z.mul_reg_r _ _ (zfact k * zfact (n - k))); [nia|]. rewrite !Z.mul_assoc, H1, <- Z.mul_assoc, (Z.mul_comm (zfact k)), Z.mul_assoc. done.
Qed.

(** The index that is used: the smaller of [k] and [n - k] *)
Lemma bin_index n k : 0 ≤ n → 0 ≤ k →
  let kk := if Z.shiftr n 1 <? k then (if k <=? n then n - k else 0) else k in
  Z.to_nat kk = Z.to_nat (Z.min k (n - k)) ∧ 0 ≤ kk ≤ n ∧
  b2z (k <=? n) * falling n (Z.to_nat kk) = binom (Z.to_nat n) (Z.to_nat k) * zfact (Z.to_nat kk).
Proof.
  intros Hn Hk kk. unfold kk. rewrite Z.shiftr_div_pow2 by lia. change (2 ^ 1) with 2. pose proof (Z.div_mod n 2 ltac:(lia)). pose proof (Z.mod_pos_bound n 2 ltac:(lia)).
  pose proof (λ j, falling_binom (Z.to_nat n) j) as Hb. rewrite Z2Nat.id in Hb by lia.
  destruct (Z.leb_spec k n) as [Hkn|Hkn].
  - rewrite Hb. destruct (Z.ltb_spec (n / 2) k); cbn [b2z]; (split; [lia|split; [lia|]]); rewrite Z.mul_1_l; [|done].
    rewrite (binom_sym (Z.to_nat n) (Z.to_nat k)) by lia. f_equal. f_equal. lia.
  - rewrite (proj2 (Z.ltb_lt _ _)) by lia. cbn [b2z]. split; [lia|]. split; [lia|]. rewrite Z.mul_0_l, binom_beyond by lia. done.
Qed.

Section combinatorics.
Context (F : mem).
Implicit Types (s : zstate) (σ : gmap positive (option Z)).

Lemma wp_fac_loop x k : ∀ s σ P n Q E,
  zok F s σ → σ !! x = Some (Some P) → Z.of_nat k < n ≤ WB → nlimbs (P * falling (n - 1) k) < INT_MAX →
  (∀ s', zok F s' (<[x := Some (P * falling (n - 1) k)]> σ) → Q tt s') → wp (fac_loop k x n) Q E s.
Proof.
  induction k as [|k IH]; intros s σ P n Q E Hok Hx Hn Hl HQ; cbn [fac_loop falling] in *.
  - rewrite Z.mul_1_r in HQ. apply wp_ret, HQ. by rewrite insert_id.
  - pose proof (falling_pos k (n - 1 - 1) ltac:(lia)) as Hf. apply wp_bind. rewrite Z.mul_assoc in *.
    pose proof (nlimbs_factor (P * (n - 1)) (falling (n - 1 - 1) k) ltac:(lia)). pose proof (nlimbs_factor P (n - 1) ltac:(lia)).
    eapply (wp_mpz_mul_ui F s σ x P x P (n - 1)); try done; [lia|lia|]. intros s1 Hok1.
    eapply (IH s1); [done|by simplify_map_eq|lia|done|]. intros s2. rewrite insert_insert_eq. apply HQ.
Qed.

Lemma wp_bin_loop r k : ∀ s σ P n Q E,
  zok F s σ → σ !! r = Some (Some P) → Z.of_nat k ≤ n < WB → nlimbs (P * falling n k) < INT_MAX →
  (∀ s', zok F s' (<[r := Some (P * falling n k)]> σ) → Q tt s') → wp (bin_loop k r n) Q E s.
Proof.
  induction k as [|k IH]; intros s σ P n Q E Hok Hx Hn Hl HQ; cbn [bin_loop falling] in *.
  - rewrite Z.mul_1_r in HQ. apply wp_ret, HQ. by rewrite insert_id.
  - pose proof (falling_pos k (n - 1) ltac:(lia)) as Hf. apply wp_bind. rewrite Z.mul_assoc in *.
    pose proof (nlimbs_factor (P * n) (falling (n - 1) k) ltac:(lia)). pose proof (nlimbs_factor P n ltac:(lia)).
    eapply (wp_mpz_mul_ui F s σ r P r P n); try done; [lia|lia|]. intros s1 Hok1. rewrite u64_small by lia.
    eapply (IH s1); [done|by simplify_map_eq|lia|done|]. intros s2. rewrite insert_insert_eq. apply HQ.
Qed.

(** [mpz_fac_ui]: the factorial *)
Lemma wp_mpz_fac_ui s σ x w n Q E :
  zok F s σ → σ !! x = Some (Some w) → 0 ≤ n < WB → nlimbs (zfact (Z.to_nat n)) < INT_MAX →
  (∀ s', zok F s' (<[x := Some (zfact (Z.to_nat n))]> σ) → Q tt s') → wp (mpz_fac_ui x n) Q E s.
Proof.
  intros Hok Hx Hn Hl HQ. unfold mpz_fac_ui. apply wp_bind.
  assert (u64 (n + b2z (n =? 0)) = n + b2z (n =? 0)) as -> by (apply u64_small; destruct (Z.eqb_spec n 0); cbn [b2z]; unfold WB in *; lia).
  assert (0 ≤ n + b2z (n =? 0) < WB) as Hb by (destruct (Z.eqb_spec n 0); cbn [b2z]; unfold WB in *; lia).
  eapply wp_mpz_set_ui; try done. intros s1 Hok1.
  assert ((n + b2z (n =? 0)) * falling (n - 1) (Z.to_nat (n - 2)) = zfact (Z.to_nat n)) as Hfac.
  { destruct (Z.le_gt_cases n 1) as [H1|H1].
    - assert (n = 0 ∨ n = 1) as [->| ->] by lia; done.
    - rewrite (proj2 (Z.eqb_neq n 0)) by lia. cbn [b2z]. rewrite Z.add_0_r. pose proof (falling_fact (Z.to_nat (n - 1)) (Z.to_nat n) ltac:(lia)) as Hf.
      replace (Z.to_nat n - Z.to_nat (n - 1))%nat with 1%nat in Hf by lia. change (zfact 1) with 1 in Hf. rewrite Z.mul_1_r, Z2Nat.id in Hf by lia.
      rewrite <- Hf. replace (Z.to_nat (n - 1)) with (S (Z.to_nat (n - 2))) by lia. done. }
  destruct (Z.le_gt_cases n 2) as [H2|H2].
  - replace (Z.to_nat (n - 2)) with 0%nat in * by lia. cbn [fac_loop falling] in *. rewrite Z.mul_1_r in Hfac. rewrite Hfac in Hok1. by apply wp_ret, HQ.
  - eapply (wp_fac_loop x _ s1); [done|by simplify_map_eq|lia|by rewrite Hfac|]. intros s2. rewrite insert_insert_eq, Hfac. apply HQ.
Qed.

(** [mpz_bin_uiui]: the binomial coefficient, 0 when [k] is larger than [n] *)
Lemma wp_mpz_bin_uiui s σ r w n k Q E :
  zok F s σ → σ !! r = Some (Some w) → 0 ≤ n < WB → 0 ≤ k < WB → nlimbs (falling n (Z.to_nat (Z.min k (n - k)))) < INT_MAX →
  (∀ s', zok F s' (<[r := Some (binom (Z.to_nat n) (Z.to_nat k))]> σ) → Q tt s') → wp (mpz_bin_uiui r n k) Q E s.
Proof.
  intros Hok Hr Hn Hk Hl HQ. unfold mpz_bin_uiui. apply wp_bind. eapply wp_mpz_set_ui; try done; [by destruct (k <=? n)|]. intros s1 Hok1.
  destruct (bin_index n k) as (HkN & Hkr & Hval); [lia|lia|]. set (kk := if Z.shiftr n 1 <? k then _ else k) in *. rewrite <- HkN in Hl.
  set (v := binom (Z.to_nat n) (Z.to_nat k)) in *. set (c := b2z (k <=? n)) in *. assert (0 ≤ c ≤ 1) as Hc by (unfold c; destruct (k <=? n); cbn; lia).
  pose proof (zfact_pos (Z.to_nat kk)) as Hfp. pose proof (falling_binom (Z.to_nat n) (Z.to_nat kk)) as Hb. rewrite Z2Nat.id in Hb by lia.
  pose proof (falling_pos (Z.to_nat kk) n ltac:(lia)) as Hfl. assert (nlimbs (zfact (Z.to_nat kk)) < INT_MAX) as Hlf.
  { apply Z.le_lt_trans with (nlimbs (falling n (Z.to_nat kk))); [|done]. rewrite Hb, Z.mul_comm. apply nlimbs_factor. intros H0. rewrite H0 in Hb. lia. }
  assert (nlimbs (c * falling n (Z.to_nat kk)) < INT_MAX) as Hlc.
  { apply Z.le_lt_trans with (nlimbs (falling n (Z.to_nat kk))); [|done]. apply nlimbs_le. nia. }
  clearbody kk c v. apply wp_bind. eapply wp_local_mpz; [done|]. intros t s2 Ht Htn _ Hok2.
  assert (r ≠ t) as Hrt by (intros <-; by rewrite lookup_insert_eq in Ht).
  apply wp_bind. eapply wp_mpz_init; try done. intros s3 Hok3. apply wp_bind.
  eapply (wp_mpz_fac_ui s3 _ t 0 kk); [done|by simplify_map_eq|lia|done|]. intros s4. rewrite insert_insert_eq. intros Hok4.
  apply wp_bind. eapply (wp_bin_loop r _ s4 _ c n); [done|by simplify_map_eq|lia|done|]. intros s5 Hok5.
  apply wp_bind. eapply (wp_mpz_divexact F s5 _ r _ r t (c * falling n (Z.to_nat kk)) (zfact (Z.to_nat kk)) v); [done|by simplify_map_eq..|lia|done|done|done|]. intros s6 Hok6.
  eapply (wp_mpz_clear F s6 _ t); [done|by simplify_map_eq|]. intros s7 Hok7. apply HQ.
  assert (σ !! t = None) by (by rewrite lookup_insert_ne in Ht). same_store Hok7.
Qed.
End combinatorics.
