(* ===== verification/MpzBitsThm.v ===== *)
(** * Bit operations on integers: correctness

    The loops of [mpz_and], [mpz_ior] and [mpz_xor] convert both operands to two's complement
    and the result back, limb by limb.  They are shown to compute [Z.land], [Z.lor] and
    [Z.lxor] on integers of any sign. *)

From S2P Require Import Prelude CString Queue State UInt64 Mpn MpnMem MpnThm MpnBits MpnDiv MpnInv MpnDivThm MpnDivPi1 MpnCorrect MpnDivQr MpnStr MpnStrThm MpnSetStr Mpz MpzRep MpzArith MpzMul MpzDiv MpzConv MpzQuo MpzQuoThm MpzBits MpzNum MpzNumThm MpzPow.

(** ** Limbs of an integer of any sign *)

(** The lowest [n] limbs in two's complement *)
Fixpoint tlimbs (X : Z) (n : nat) : list Z :=
  match n with O => [] | S n => X mod WB :: tlimbs (X / WB) n end.

Lemma length_tlimbs n : ∀ X, length (tlimbs X n) = n.
Proof. induction n as [|n IH]; intros X; [done|]. cbn. by rewrite IH. Qed.

Lemma words_tlimbs n : ∀ X, words (tlimbs X n).
Proof. induction n as [|n IH]; intros X; [constructor|]. constructor; [apply Z.mod_pos_bound; done|apply IH]. Qed.

Lemma val_tlimbs n : ∀ X, val (tlimbs X n) = X mod wpow n.
Proof.
  induction n as [|n IH]; intros X; cbn [tlimbs val]; [rewrite wpow_0, Z.mod_1_r; done|]. rewrite IH, wpow_S, Z.rem_mul_r; [done|done|apply wpow_pos].
Qed.

Lemma tlimbs_val l : words l → tlimbs (val l) (length l) = l.
Proof.
  intros Hw. apply val_inj; [apply words_tlimbs|done|apply length_tlimbs|]. rewrite val_tlimbs. apply Z.mod_small. by apply val_bound.
Qed.

Lemma tlimbs_app n k : ∀ X, tlimbs X (n + k) = tlimbs X n ++ tlimbs (X / wpow n) k.
Proof.
  induction n as [|n IH]; intros X; cbn [tlimbs Nat.add app]; [by rewrite wpow_0, Z.div_1_r|]. rewrite IH, wpow_S, Z.div_div; [done|done|apply wpow_pos].
Qed.

(** ** Conversion of one limb *)

(** The complement with a carry, for a negative number; the number itself otherwise *)
Definition tw (neg : bool) (X c : Z) : Z := if neg then Z.lnot X + c else X.
Definition carry_ok (neg : bool) (c : Z) : Prop := c = 0 ∨ (neg = true ∧ c = 1).

Lemma carry_start neg : carry_ok neg (b2z neg).
Proof. destruct neg; [by right|by left]. Qed.

Lemma lxor_max d : word d → Z.lxor d GMP_LIMB_MAX = WB - 1 - d.
Proof.
  intros Hd. rewrite Z.lxor_comm, mask_lxor_not by done. unfold limb_not, GMP_LIMB_MAX, WB. lia.
Qed.

(** The limb of the conversion, and the rest with the new carry *)
Lemma twos_limb_tw neg X c : carry_ok neg c →
  ∃ c', twos_limb (X mod WB) (u64 (- b2z neg)) c = (tw neg X c mod WB, c') ∧ carry_ok neg c' ∧ tw neg (X / WB) c' = tw neg X c / WB.
Proof.
  intros Hc. pose proof (Z.mod_pos_bound X WB ltac:(done)) as Hd. unfold twos_limb. destruct neg; cbn [b2z tw].
  - change (u64 (- (1))) with GMP_LIMB_MAX. rewrite lxor_max by done. pose proof (Z.div_mod X WB ltac:(done)) as HX. set (d := X mod WB) in *. set (q := X / WB) in *.
    assert (c = 0 ∨ c = 1) as Hc' by (destruct Hc as [|[]]; lia). unfold Z.lnot. destruct (decide (d = 0 ∧ c = 1)) as [[-> ->]|Hno].
    + exists 1. replace (u64 (WB - 1 - 0 + 1)) with 0 by done.
      assert (Z.pred (- X) + 1 = (- q) * WB) as -> by lia. rewrite Z.mod_mul, Z.div_mul by done. split_and!; [done|by right|lia].
    + exists 0. rewrite u64_small by (unfold WB in *; lia). assert (Z.pred (- X) + c = (WB - 1 - d + c) + (- q - 1) * WB) as -> by lia.
      rewrite Z.mod_add, Z.div_add, Z.mod_small, Z.div_small by lia. split_and!; [|by left|lia].
      rewrite (proj2 (Z.ltb_ge _ c)) by lia. done.
  - assert (c = 0) as -> by (destruct Hc as [|[]]; done). exists 0. change (u64 (- (0))) with 0. rewrite Z.lxor_0_r, Z.add_0_r, u64_small by done.
    rewrite (proj2 (Z.ltb_ge _ 0)) by lia. split_and!; [done|by left|done].
Qed.

(** ** An operation on bits *)

Class BitOp (op : Z → Z → Z) (bop : bool → bool → bool) : Prop := {
  bitop_spec : ∀ a b i, 0 ≤ i → Z.testbit (op a b) i = bop (Z.testbit a i) (Z.testbit b i);
  bitop_zero : bop false false = false;
  bitop_sign : ∀ a b, (op a b <? 0) = bop (a <? 0) (b <? 0);
  bitop_carry : ∀ a b, op (b2z a) (b2z b) = b2z (bop a b);
  bitop_mask : ∀ a b, op (- b2z a) (- b2z b) = - b2z (bop a b)
}.

#[export] Instance land_bitop : BitOp Z.land andb.
Proof.
  split; [intros; apply Z.land_spec|done| |by intros [] []|by intros [] []]. intros a b. pose proof (Z.land_neg a b).
  destruct (Z.ltb_spec (Z.land a b) 0), (Z.ltb_spec a 0), (Z.ltb_spec b 0); cbn; intuition lia.
Qed.
#[export] Instance lor_bitop : BitOp Z.lor orb.
Proof.
  split; [intros; apply Z.lor_spec|done| |by intros [] []|by intros [] []]. intros a b. pose proof (Z.lor_neg a b).
  destruct (Z.ltb_spec (Z.lor a b) 0), (Z.ltb_spec a 0), (Z.ltb_spec b 0); cbn; intuition lia.
Qed.
#[export] Instance lxor_bitop : BitOp Z.lxor xorb.
Proof.
  split; [intros; apply Z.lxor_spec|done| |by intros [] []|by intros [] []]. intros a b. pose proof (Z.lxor_nonneg a b).
  destruct (Z.ltb_spec (Z.lxor a b) 0), (Z.ltb_spec a 0), (Z.ltb_spec b 0); cbn; intuition lia.
Qed.

Section bitop.
Context `{Hop : BitOp op bop}.

Lemma bitop_mod a b : op (a mod WB) (b mod WB) = op a b mod WB.
Proof.
  apply Z.bits_inj'. intros i Hi. rewrite bitop_spec by done. change WB with (2 ^ 64). destruct (Z.lt_ge_cases i 64).
  - rewrite !Z.mod_pow2_bits_low by done. by rewrite bitop_spec.
  - rewrite !Z.mod_pow2_bits_high by lia. apply bitop_zero.
Qed.

Lemma bitop_div_pow a b n : 0 ≤ n → op (a / 2 ^ n) (b / 2 ^ n) = op a b / 2 ^ n.
Proof. intros Hn. apply Z.bits_inj'. intros i Hi. rewrite bitop_spec, !Z.div_pow2_bits, bitop_spec by lia. done. Qed.

Lemma bitop_div a b : op (a / WB) (b / WB) = op a b / WB.
Proof. apply (bitop_div_pow a b 64). lia. Qed.

Lemma bitop_wpow a b n : op (a / wpow n) (b / wpow n) = op a b / wpow n.
Proof. unfold wpow. change WB with (2 ^ 64). rewrite <- Z.pow_mul_r by lia. apply bitop_div_pow. lia. Qed.

Lemma div_wpow_S X n : X / wpow (S n) = X / WB / wpow n.
Proof. rewrite wpow_S, Z.div_div; [done|done|apply wpow_pos]. Qed.

(** Both operands have limbs: the limbs of the result, converted back *)
Lemma wp_both_loop nx ny nr n : ∀ i X Y uc vc rc up vp rp m Q E,
  carry_ok nx uc → carry_ok ny vc → carry_ok nr rc →
  holds m (padd up i) (tlimbs X n) → holds m (padd vp i) (tlimbs Y n) → space m (padd rp i) n →
  ok_up (padd rp i) (padd up i) n → ok_up (padd rp i) (padd vp i) n →
  let R := op (tw nx X uc) (tw ny Y vc) in
  (∀ uc' vc' rc' m', carry_ok nx uc' → carry_ok ny vc' → carry_ok nr rc' →
     tw nx (X / wpow n) uc' = tw nx X uc / wpow n → tw ny (Y / wpow n) vc' = tw ny Y vc / wpow n → tw nr (R / wpow n) rc' = tw nr R rc / wpow n →
     writes m (padd rp i) (tlimbs (tw nr R rc) n) m' → Q (uc', vc', rc') m') →
  wp (both_loop op n i up vp rp (u64 (- b2z nx)) (u64 (- b2z ny)) (u64 (- b2z nr)) uc vc rc) Q E m.
Proof.
  induction n as [|n IH]; intros i X Y uc vc rc up vp rp m Q E Hu Hv Hr Hhu Hhv Hs Hou Hov R HQ; cbn [both_loop].
  { apply wp_ret. rewrite wpow_0 in HQ. apply HQ; rewrite ?Z.div_1_r; try done. }
  cbn [tlimbs] in Hhu, Hhv. pose proof Hhu as [Hx Hhu']%holds_cons. pose proof Hhv as [Hy Hhv']%holds_cons. pose proof Hs as [Hs0 Hs1]%space_S.
  apply wp_bind. eapply wp_load; [done|]. destruct (twos_limb_tw nx X uc Hu) as (uc1 & -> & Hu1 & HX).
  apply wp_bind. eapply wp_load; [done|]. destruct (twos_limb_tw ny Y vc Hv) as (vc1 & -> & Hv1 & HY).
  rewrite bitop_mod. fold R. destruct (twos_limb_tw nr R rc Hr) as (rc1 & -> & Hr1 & HR).
  apply wp_bind. apply wp_store_writes; [done|]. intros m1 Hw1.
  assert (R / WB = op (tw nx (X / WB) uc1) (tw ny (Y / WB) vc1)) as HRd by (rewrite HX, HY, bitop_div; done).
  assert (length (tlimbs (X / WB) n) = n) as Hlx by apply length_tlimbs. assert (length (tlimbs (Y / WB) n) = n) as Hly by apply length_tlimbs.
  edestruct (step_up m (padd rp i) (padd up i)) as [Hhu1 Hou1]; [exact Hw1|by rewrite Hlx|exact Hhu|].
  edestruct (step_up m (padd rp i) (padd vp i)) as [Hhv1 Hov1]; [exact Hw1|by rewrite Hly|exact Hhv|]. rewrite Hlx in Hou1. rewrite Hly in Hov1.
  pose proof (step_space _ _ _ _ _ Hw1 Hs) as Hs2. rewrite <- !padd_succ in *.
  eapply (IH (i + 1) (X / WB) (Y / WB) uc1 vc1 rc1); try done. rewrite <- HRd, HR. intros uc' vc' rc' m2 Hu2 Hv2 Hr2 HX2 HY2 HR2 Hw2.
  rewrite HX in HX2. rewrite HY in HY2. rewrite <- !div_wpow_S in *. apply HQ; try done. cbn [tlimbs]. eapply writes_cons; [exact Hw1|]. by rewrite <- padd_succ.
Qed.

(** Only the longer operand has limbs; [f] is the operation with the sign of the other
    one. *)
Lemma wp_high_loop nx ny nr f n : (∀ a, f (a mod WB) = Z.lxor (op a (- b2z ny) mod WB) (u64 (- b2z nr))) → ∀ i X uc rc up rp m Q E,
  carry_ok nx uc → carry_ok nr rc → holds m (padd up i) (tlimbs X n) → space m (padd rp i) n → ok_up (padd rp i) (padd up i) n →
  let R := op (tw nx X uc) (- b2z ny) in
  (∀ uc' rc' m', carry_ok nx uc' → carry_ok nr rc' →
     tw nx (X / wpow n) uc' = tw nx X uc / wpow n → tw nr (R / wpow n) rc' = tw nr R rc / wpow n →
     writes m (padd rp i) (tlimbs (tw nr R rc) n) m' → Q rc' m') →
  wp (high_loop f n i up rp (u64 (- b2z nx)) uc rc) Q E m.
Proof.
  intros Hf. induction n as [|n IH]; intros i X uc rc up rp m Q E Hu Hr Hhu Hs Hou R HQ; cbn [high_loop].
  { apply wp_ret. rewrite wpow_0 in HQ. apply (HQ uc); rewrite ?Z.div_1_r; try done. }
  cbn [tlimbs] in Hhu. pose proof Hhu as [Hx Hhu']%holds_cons. pose proof Hs as [Hs0 Hs1]%space_S.
  apply wp_bind. eapply wp_load; [done|]. destruct (twos_limb_tw nx X uc Hu) as (uc1 & -> & Hu1 & HX). rewrite Hf. fold R.
  destruct (twos_limb_tw nr R rc Hr) as (rc1 & Ht & Hr1 & HR).
  assert (twos_limb (Z.lxor (R mod WB) (u64 (- b2z nr))) 0 rc = (tw nr R rc mod WB, rc1)) as -> by (rewrite <- Ht; unfold twos_limb; by rewrite Z.lxor_0_r).
  apply wp_bind. apply wp_store_writes; [done|]. intros m1 Hw1.
  assert (R / WB = op (tw nx (X / WB) uc1) (- b2z ny)) as HRd by (rewrite HX; unfold R; rewrite <- bitop_div; by destruct ny).
  assert (length (tlimbs (X / WB) n) = n) as Hlx by apply length_tlimbs.
  edestruct (step_up m (padd rp i) (padd up i)) as [Hhu1 Hou1]; [exact Hw1|by rewrite Hlx|exact Hhu|]. rewrite Hlx in Hou1.
  pose proof (step_space _ _ _ _ _ Hw1 Hs) as Hs2. rewrite <- !padd_succ in *.
  eapply (IH (i + 1) (X / WB) uc1 rc1); try done. rewrite <- HRd, HR. intros uc' rc' m2 Hu2 Hr2 HX2 HR2 Hw2.
  rewrite HX in HX2. rewrite <- !div_wpow_S in *. apply (HQ uc'); try done. cbn [tlimbs]. eapply writes_cons; [exact Hw1|]. by rewrite <- padd_succ.
Qed.
End bitop.

Section ops.
Context (F : mem).
Implicit Types (s : zstate) (σ : gmap positive (option Z)).

Lemma sign_mask (nr : bool) : negb (u64 (- b2z nr) =? 0) = nr.
Proof. by destruct nr. Qed.

(** The last carry becomes a limb, or leading zeros are dropped. *)
Lemma wp_bitop_finish s σ r z T n nr rc Q E :
  zok F s (<[r := None]> σ) → z_vars s !! r = Some z → holds (z_mem s) (mp_d z) (tlimbs T n) → Z.of_nat n + b2z nr ≤ mp_alloc z →
  carry_ok nr rc → 0 ≤ T → T / wpow n = rc → (∀ s', zok F s' (<[r := Some (if nr then - T else T)]> σ) → Q tt s') →
  wp (bitop_finish r (mp_d z) (Z.of_nat n) (u64 (- b2z nr)) rc) Q E s.
Proof.
  intros Hok Hz Hh Ha Hc HT Hdiv HQ. unfold bitop_finish. rewrite sign_mask. pose proof (Z.div_mod T (wpow n) ltac:(apply wpow_nz)) as HTd.
  pose proof (length_tlimbs n T) as Hlen. pose proof (words_tlimbs n T) as Hwd. pose proof (val_tlimbs n T) as Hvd.
  destruct Hc as [->|[-> ->]]; cbn [Z.eqb negb].
  - rewrite <- Hlen. eapply wp_normalize_set; try done; [rewrite Hlen; destruct nr; cbn [b2z] in Ha; lia|]. rewrite Hvd.
    by replace (T mod wpow n) with T by lia.
  - cbn [b2z] in Ha. destruct (zok_target F s _ r None Hok) as (z' & Hz' & _ & H0 & Hs); [by rewrite lookup_insert_eq|]. rewrite Hz in Hz'. injection Hz' as <-.
    apply wp_bind, wp_bind, wp_zoom. apply wp_store_writes; [apply (Hs n); lia|]. intros m' [Hh' Hc']. apply wp_ret.
    assert (holds m' (mp_d z) (tlimbs T n ++ [1])) as Hh2.
    { apply holds_app. rewrite Hlen. split; [|done]. eapply changed_holds; [exact Hc'| |done]. rewrite Hlen. intros q [_ Hq] [_ Hq']. cbn in Hq, Hq'. lia. }
    eapply (wp_set_size F (set_zmem m' s) _ r z (tlimbs T n ++ [1])); try done.
    + eapply (zok_write F s _ r); [exact Hok|by rewrite lookup_insert_eq|exact Hc'|]. intros q [Hq _]. exists z. cbn in Hq. split; [done|]. split; [lia|done].
    + by rewrite lookup_insert_eq.
    + apply Forall_app. split; [done|]. constructor; [done|constructor].
    + intros y. rewrite last_snoc. by intros [= <-].
    + rewrite length_app, Hlen. cbn. lia.
    + rewrite length_app, Hlen. cbn. lia.
    + intros s'. rewrite !insert_insert_eq, val_app, Hvd, Hlen. cbn [val]. rewrite Z.sgn_neg by lia.
      replace (-1 * (T mod wpow n + wpow n * (1 + WB * 0))) with (- T) by lia. apply HQ.
Qed.

Lemma tw_abs x : tw (x <? 0) (Z.abs x) (b2z (x <? 0)) = x.
Proof. unfold tw, Z.lnot. destruct (Z.ltb_spec x 0); cbn [b2z]; lia. Qed.

Lemma abs_tw x : tw (x <? 0) x (b2z (x <? 0)) = Z.abs x.
Proof. unfold tw, Z.lnot. destruct (Z.ltb_spec x 0); cbn [b2z]; lia. Qed.

(** Beyond its limbs an integer has only its sign. *)
Lemma sign_limbs y n : Z.abs y < wpow n → y / wpow n = - b2z (y <? 0).
Proof.
  intros Hy. destruct (Z.ltb_spec y 0); cbn [b2z].
  - symmetry. apply Z.div_unique with (y + wpow n); lia.
  - by apply Z.div_small; lia.
Qed.

Lemma carry_sign neg c : carry_ok neg c → tw neg (- b2z neg) c = c.
Proof. intros [->|[-> ->]]; [by destruct neg|done]. Qed.

(** The part that the three operations share *)
Lemma wp_bitop `{BitOp op bop} s σ r w u x v y (f : Z → Z) rn Q E :
  let nr := op x y <? 0 in
  zok F s σ → σ !! r = Some (Some w) → σ !! u = Some (Some x) → σ !! v = Some (Some y) → y ≠ 0 →
  nlimbs y ≤ rn ≤ nlimbs x → rn + b2z nr ≤ INT_MAX → op x y / wpow (Z.to_nat rn) = - b2z nr →
  (∀ a, f (a mod WB) = Z.lxor (op a (- b2z (y <? 0)) mod WB) (u64 (- b2z nr))) →
  (∀ s', zok F s' (<[r := Some (op x y)]> σ) → Q tt s') →
  wp (rp ← MPZ_REALLOC r (rn + b2z nr);
      zu ← get_mpz u;
      zv ← get_mpz v;
      '(uc, vc, rc) ← limbs (both_loop op (Z.to_nat (nlimbs y)) 0 (mp_d zu) (mp_d zv) rp (u64 (- b2z (x <? 0))) (u64 (- b2z (y <? 0))) (u64 (- b2z nr))
         (b2z (x <? 0)) (b2z (y <? 0)) (b2z nr));
      _ ← zassert (vc =? 0);
      rc ← limbs (high_loop f (Z.to_nat (rn - nlimbs y)) (nlimbs y) (mp_d zu) rp (u64 (- b2z (x <? 0))) uc rc);
      bitop_finish r rp rn (u64 (- b2z nr)) rc) Q E s.
Proof.
  intros nr Hok Hr Hu Hv Hy0 Hrn Hmax HR Hf HQ. pose proof (nlimbs_pos y Hy0) as Hvn. assert (0 ≤ b2z nr) as Hnr by (destruct nr; cbn; lia).
  apply wp_bind. eapply wp_realloc_target; try done. intros z s1 Hz Hal Hz0 Hs Hk Hok1.
  destruct (zok_operand F s1 σ u x Hok1 Hu) as (zu & la & Hzu & Hwa & Hna & Hha & Hva & Hla & _ & Hua & H0u).
  destruct (zok_operand F s1 σ v y Hok1 Hv) as (zv & lb & Hzv & Hwb & Hnb & Hhb & Hvb & Hlb & _ & Hvb' & H0v).
  do 2 (apply wp_bind; eapply wp_get_mpz; [done|]).
  destruct (Z_of_nat_complete (nlimbs y) ltac:(lia)) as [n En]. destruct (Z_of_nat_complete (rn - nlimbs y) ltac:(lia)) as [k Ek].
  assert (rn = Z.of_nat (n + k)) as -> by lia. rewrite Nat2Z.id in HR. rewrite En, Nat2Z.id. replace (Z.to_nat (Z.of_nat (n + k) - Z.of_nat n)) with k by lia.
  assert (∃ j, length la = n + (k + j))%nat as [j Hj] by (exists (length la - (n + k))%nat; lia).
  rewrite <- (tlimbs_val la Hwa), Hva, Hj, tlimbs_app in Hha. apply holds_app in Hha as [Hha1 Hha2]. rewrite tlimbs_app, length_tlimbs in Hha2. apply holds_app in Hha2 as [Hha2 _].
  rewrite <- (tlimbs_val lb Hwb), Hvb in Hhb. replace (length lb) with n in Hhb by lia.
  assert (∀ p i m, (mp_d p).2 = 0 → ok_up (padd (mp_d z) i) (padd (mp_d p) i) m) as Hup by (intros p i m Hp; right; left; cbn; lia).
  apply wp_bind, wp_zoom. eapply (wp_both_loop (x <? 0) (y <? 0) nr n 0 (Z.abs x) (Z.abs y)); try (apply carry_start); try (by apply Hup); try (by rewrite padd_0).
  { rewrite padd_0. eapply space_sub; [done|lia]. }
  rewrite !tw_abs. intros uc vc rc m1 Hcu Hcv Hcr HX HY HRn Hw1. rewrite padd_0 in Hw1.
  assert (Z.abs y < wpow n) as Hyn by (rewrite <- Hvb; replace n with (length lb) by lia; by apply val_bound).
  assert (vc = 0) as ->.
  { rewrite (sign_limbs y n Hyn), (Z.div_small (Z.abs y)) in HY by lia. destruct Hcv as [|[Hneg ->]]; [done|]. by rewrite Hneg in HY. }
  apply wp_bind, wp_zassert; [done|]. apply wp_bind, wp_zoom. cbn [z_mem set_zmem].
  assert (holds m1 (padd (mp_d zu) (Z.of_nat n)) (tlimbs (Z.abs x / wpow n) k)) as Hha3.
  { eapply writes_holds; [exact Hw1| |exact Hha2]. rewrite !length_tlimbs. apply ok_up_apart. right. left. lia. }
  eapply (wp_high_loop (x <? 0) (y <? 0) nr f k Hf (Z.of_nat n) (Z.abs x / wpow n) uc rc); try done; [| |].
  { eapply writes_space; [exact Hw1|]. apply space_app. eapply space_sub; [done|lia]. }
  { by apply Hup. }
  rewrite HX, <- (sign_limbs y n Hyn), bitop_wpow, HRn. intros uc' rc' m2 _ Hcr' _ HRk Hw2. unfold nr in HRk, Hw1, Hw2. rewrite abs_tw in HRk, Hw1, Hw2. fold nr in HRk.
  rewrite !Z.div_div, <- wpow_add, HR, (carry_sign nr rc' Hcr') in HRk by (apply wpow_nz || apply wpow_pos).
  assert (writes (z_mem s1) (mp_d z) (tlimbs (Z.abs (op x y)) (n + k)) m2) as [Hh Hc].
  { rewrite tlimbs_app. eapply writes_app; [exact Hw1|]. by rewrite length_tlimbs. }
  eapply (wp_bitop_finish (set_zmem m2 (set_zmem m1 s1)) σ r z (Z.abs (op x y))); try done.
  - eapply (zok_write_block F s1 σ r z (n + k)); try done; [lia|]. by rewrite length_tlimbs in Hc.
  - lia.
  - lia.
  - intros s' Hok'. apply HQ. replace (op x y) with (if nr then - Z.abs (op x y) else Z.abs (op x y)) by (unfold nr; destruct (Z.ltb_spec (op x y) 0); lia). done.
Qed.
(** Within the limbs of both operands *)
Lemma bitop_range `{BitOp op bop} x y n : Z.abs x < wpow n → Z.abs y < wpow n → op x y / wpow n = - b2z (op x y <? 0).
Proof. intros Hx Hy. rewrite <- bitop_wpow, !sign_limbs, bitop_mask, bitop_sign by done. done. Qed.

Lemma bitop_high `{BitOp op bop} (b : bool) a : op (a mod WB) (u64 (- b2z b)) = op a (- b2z b) mod WB.
Proof. apply bitop_mod. Qed.

Lemma abs_limbs x n : nlimbs x ≤ n → Z.abs x < wpow (Z.to_nat n).
Proof.
  intros Hn. pose proof (nlimbs_nonneg x). pose proof (abs_lt_pow x). assert (WB ^ nlimbs x ≤ wpow (Z.to_nat n)); [|lia].
  unfold wpow. apply Z.pow_le_mono_r; unfold WB; lia.
Qed.

(** The longer operand comes first. *)
Lemma wp_longer_first (op : Z → Z → Z) (K : mpz_t → mpz_t → mpz_struct → mpz_struct → MZ unit) s σ r u x v y zu zv Q E :
  (∀ a b, op a b = op b a) → σ !! u = Some (Some x) → σ !! v = Some (Some y) →
  mp_size zu = Z.sgn x * nlimbs x → mp_size zv = Z.sgn y * nlimbs y → nlimbs x < INT_MAX → nlimbs y < INT_MAX →
  (∀ s', zok F s' (<[r := Some (op x y)]> σ) → Q tt s') →
  (∀ u x v y zu zv, σ !! u = Some (Some x) → σ !! v = Some (Some y) → mp_size zu = Z.sgn x * nlimbs x → mp_size zv = Z.sgn y * nlimbs y →
     nlimbs y ≤ nlimbs x < INT_MAX → (∀ s', zok F s' (<[r := Some (op x y)]> σ) → Q tt s') → wp (K u v zu zv) Q E s) →
  wp (let '(u, v, zu, zv) := if Z.abs (mp_size zu) <? Z.abs (mp_size zv) then (v, u, zv, zu) else (u, v, zu, zv) in K u v zu zv) Q E s.
Proof.
  intros Hcomm Hu Hv Hsu Hsv Hnx Hny HQ HK. rewrite Hsu, Hsv, !size_abs. destruct (Z.ltb_spec (nlimbs x) (nlimbs y)).
  - rewrite Hcomm in HQ. eapply HK; try done. lia.
  - eapply HK; try done.
Qed.

Lemma wp_mpz_and s σ r w u x v y Q E :
  zok F s σ → σ !! r = Some (Some w) → σ !! u = Some (Some x) → σ !! v = Some (Some y) → nlimbs x < INT_MAX → nlimbs y < INT_MAX →
  (∀ s', zok F s' (<[r := Some (Z.land x y)]> σ) → Q tt s') → wp (mpz_and r u v) Q E s.
Proof.
  intros Hok Hr Hu Hv Hnx Hny HQ. destruct (zok_operand F s σ u x Hok Hu) as (zu & _ & Hzu & _ & _ & _ & _ & _ & Hsu & _).
  destruct (zok_operand F s σ v y Hok Hv) as (zv & _ & Hzv & _ & _ & _ & _ & _ & Hsv & _).
  unfold mpz_and. do 2 (apply wp_bind; eapply wp_get_mpz; [done|]). eapply (wp_longer_first Z.land); try done; [apply Z.land_comm|].
  clear u x v y zu zv Hu Hv Hnx Hny HQ Hzu Hzv Hsu Hsv. intros u x v y zu zv Hu Hv Hsu Hsv Hn HQ.
  rewrite Hsu, Hsv, !size_abs, !size_neg. destruct (Z.eq_dec y 0) as [->|Hy].
  { rewrite Z.land_0_r in HQ. by eapply wp_set_size_0. }
  pose proof (nlimbs_pos y Hy). rewrite (proj2 (Z.eqb_neq _ 0)) by lia. cbv zeta. rewrite bitop_carry, <- bitop_sign, sign_mask.
  eapply (wp_bitop s σ r w u x v y); try done.
  - destruct (y <? 0); lia.
  - destruct (y <? 0), (_ <? 0); cbn [b2z]; lia.
  - destruct (Z.ltb_spec y 0) as [Hneg|Hpos]; [apply bitop_range; apply abs_limbs; lia|].
    rewrite <- bitop_wpow, (Z.div_small y), Z.land_0_r, bitop_sign, (proj2 (Z.ltb_ge y 0)), andb_false_r; [done|done|].
    pose proof (abs_limbs y (nlimbs y) ltac:(lia)). lia.
  - intros a. by rewrite (bitop_high (op := Z.land)).
Qed.

Lemma wp_mpz_ior s σ r w u x v y Q E :
  zok F s σ → σ !! r = Some (Some w) → σ !! u = Some (Some x) → σ !! v = Some (Some y) → nlimbs x < INT_MAX → nlimbs y < INT_MAX →
  (∀ s', zok F s' (<[r := Some (Z.lor x y)]> σ) → Q tt s') → wp (mpz_ior r u v) Q E s.
Proof.
  intros Hok Hr Hu Hv Hnx Hny HQ. destruct (zok_operand F s σ u x Hok Hu) as (zu & _ & Hzu & _ & _ & _ & _ & _ & Hsu & _).
  destruct (zok_operand F s σ v y Hok Hv) as (zv & _ & Hzv & _ & _ & _ & _ & _ & Hsv & _).
  unfold mpz_ior. do 2 (apply wp_bind; eapply wp_get_mpz; [done|]). eapply (wp_longer_first Z.lor); try done; [apply Z.lor_comm|].
  clear u x v y zu zv Hu Hv Hnx Hny HQ Hzu Hzv Hsu Hsv. intros u x v y zu zv Hu Hv Hsu Hsv Hn HQ.
  rewrite Hsu, Hsv, !size_abs, !size_neg. destruct (Z.eq_dec y 0) as [->|Hy].
  { rewrite Z.lor_0_r in HQ. eapply wp_mpz_set; try done. lia. }
  pose proof (nlimbs_pos y Hy). rewrite (proj2 (Z.eqb_neq _ 0)) by lia. cbv zeta. rewrite bitop_carry, <- bitop_sign, sign_mask.
  eapply (wp_bitop s σ r w u x v y); try done.
  - destruct (y <? 0); lia.
  - destruct (y <? 0), (_ <? 0); cbn [b2z]; lia.
  - destruct (Z.ltb_spec y 0) as [Hneg|Hpos]; [|apply bitop_range; apply abs_limbs; lia].
    rewrite <- bitop_wpow, (sign_limbs y), bitop_sign, (proj2 (Z.ltb_lt y 0)), orb_true_r by (done || apply abs_limbs; lia). apply Z.lor_m1_r.
  - intros a. by rewrite (bitop_high (op := Z.lor)).
Qed.

Lemma wp_mpz_xor s σ r w u x v y Q E :
  zok F s σ → σ !! r = Some (Some w) → σ !! u = Some (Some x) → σ !! v = Some (Some y) → nlimbs x < INT_MAX → nlimbs y < INT_MAX →
  (∀ s', zok F s' (<[r := Some (Z.lxor x y)]> σ) → Q tt s') → wp (mpz_xor r u v) Q E s.
Proof.
  intros Hok Hr Hu Hv Hnx Hny HQ. destruct (zok_operand F s σ u x Hok Hu) as (zu & _ & Hzu & _ & _ & _ & _ & _ & Hsu & _).
  destruct (zok_operand F s σ v y Hok Hv) as (zv & _ & Hzv & _ & _ & _ & _ & _ & Hsv & _).
  unfold mpz_xor. do 2 (apply wp_bind; eapply wp_get_mpz; [done|]). eapply (wp_longer_first Z.lxor); try done; [apply Z.lxor_comm|].
  clear u x v y zu zv Hu Hv Hnx Hny HQ Hzu Hzv Hsu Hsv. intros u x v y zu zv Hu Hv Hsu Hsv Hn HQ.
  rewrite Hsu, Hsv, !size_abs, !size_neg. destruct (Z.eq_dec y 0) as [->|Hy].
  { rewrite Z.lxor_0_r in HQ. eapply wp_mpz_set; try done. lia. }
  pose proof (nlimbs_pos y Hy). rewrite (proj2 (Z.eqb_neq _ 0)) by lia. cbv zeta. rewrite bitop_carry, <- bitop_sign.
  eapply (wp_bitop s σ r w u x v y); try done.
  - lia.
  - destruct (Z.lxor x y <? 0); cbn [b2z]; lia.
  - apply bitop_range; apply abs_limbs; lia.
  - intros a. rewrite <- (bitop_high (op := Z.lxor)), Z.lxor_assoc, bitop_sign. f_equal. by destruct (x <? 0), (y <? 0).
Qed.

Lemma wp_mpz_com s σ r w u x Q E :
  zok F s σ → σ !! r = Some (Some w) → σ !! u = Some (Some x) → nlimbs x < INT_MAX →
  (∀ s', zok F s' (<[r := Some (Z.lnot x)]> σ) → Q tt s') → wp (mpz_com r u) Q E s.
Proof.
  intros Hok Hr Hu Hn HQ. unfold mpz_com. apply wp_bind. eapply wp_mpz_neg; try done; [lia|]. intros s1 Hok1.
  eapply (wp_mpz_sub_ui F s1 _ r (- x) r (- x)); [done|by simplify_map_eq..|done|by rewrite nlimbs_opp|]. intros s2. rewrite insert_insert_eq. apply HQ.
Qed.
End ops.
