(* ===== verification/MpzBitThm.v ===== *)
(** * Single bits of integers: correctness *)

From S2P Require Import Prelude CString Queue State UInt64 Mpn MpnMem MpnThm MpnBits MpnDiv MpnInv MpnDivThm MpnDivPi1 MpnCorrect MpnDivQr MpnStr MpnStrThm MpnSetStr Mpz MpzRep MpzArith MpzMul MpzDiv MpzConv MpzQuo MpzQuoThm MpzBits MpzNum MpzNumThm MpzPow MpzBitsThm.

(** ** Bits of negative numbers *)

(** The bits of a number from the lowest one that is set on upwards are complemented. *)
Lemma neg_testbit X i : 0 ≤ i → Z.testbit (- X) i = if X mod 2 ^ i =? 0 then Z.testbit X i else negb (Z.testbit X i).
Proof.
  intros Hi. pose proof (Z.pow_pos_nonneg 2 i ltac:(lia) Hi) as Hp. assert (∀ y, Z.testbit y i = Z.odd (y / 2 ^ i)) as Ht.
  { intros y. by rewrite <- Z.bit0_odd, <- Z.shiftr_div_pow2, Z.shiftr_spec, Z.add_0_l by done. }
  rewrite !Ht. destruct (Z.eqb_spec (X mod 2 ^ i) 0) as [H0|H0].
  - rewrite Z.div_opp_l_z, Z.odd_opp by lia. done.
  - rewrite Z.div_opp_l_nz by lia. rewrite Z.odd_sub, Z.odd_opp. by destruct (Z.odd (X / 2 ^ i)).
Qed.

Lemma low_bits_zero w sh : 0 ≤ sh < 64 → word w → (0 <? sh) && (0 <? u64 (Z.shiftl w (GMP_LIMB_BITS - sh))) = negb (w mod 2 ^ sh =? 0).
Proof.
  intros Hsh Hw. unfold GMP_LIMB_BITS. destruct (Z.eq_dec sh 0) as [->|Hne]; [by rewrite Z.mod_1_r|]. rewrite (proj2 (Z.ltb_lt 0 sh)) by lia. cbn [andb].
  rewrite Z.shiftl_mul_pow2 by lia. unfold u64. change WB with (2 ^ 64). replace 64 with (sh + (64 - sh)) at 2 by lia. rewrite Z.pow_add_r by lia.
  pose proof (Z.pow_pos_nonneg 2 (64 - sh) ltac:(lia) ltac:(lia)). pose proof (Z.pow_pos_nonneg 2 sh ltac:(lia) ltac:(lia)).
  rewrite Z.mul_mod_distr_r by lia. pose proof (Z.mod_pos_bound w (2 ^ sh) ltac:(lia)).
  destruct (Z.eqb_spec (w mod 2 ^ sh) 0) as [->|]; [done|]. apply Z.ltb_lt. nia.
Qed.

Lemma wp_any_below p n : ∀ l m Q E,
  words l → holds m p l → (n ≤ length l)%nat → Q (negb (val (take n l) =? 0)) m → wp (any_below n p) Q E m.
Proof.
  induction n as [|n IH]; intros l m Q E Hw Hh Hn HQ; cbn [any_below]; [by apply wp_ret|].
  destruct (lookup_lt_is_Some_2 l n) as [x Hx]; [lia|]. apply wp_bind. eapply wp_load; [by apply Hh|].
  pose proof (Forall_lookup_1 _ _ _ _ Hw Hx) as Hwx. rewrite (take_S_r l n x Hx), val_app in HQ. rewrite length_take_le in HQ by lia. cbn [val] in HQ.
  pose proof (val_bound (take n l) ltac:(by apply Forall_take)) as Hb. pose proof (wpow_pos n). rewrite length_take_le in Hb by lia. unfold word in Hwx.
  destruct (Z.ltb_spec 0 x) as [Hp|Hp].
  - apply wp_ret. rewrite (proj2 (Z.eqb_neq _ 0)) in HQ by nia. done.
  - eapply IH; try done; [lia|]. assert (x = 0) as -> by lia. by replace (val (take n l) + wpow n * (0 + WB * 0)) with (val (take n l)) in HQ by lia.
Qed.

Section bit.
Context (F : mem).
Implicit Types (s : zstate) (σ : gmap positive (option Z)).

(** The limb of a bit, and what is below *)
Lemma bit_limb l x b : words l → val l = Z.abs x → 0 ≤ b → b / 64 < Z.of_nat (length l) →
  ∃ lo w hi, l = lo ++ w :: hi ∧ Z.of_nat (length lo) = b / 64 ∧ Z.testbit (Z.abs x) b = Z.testbit w (b mod 64) ∧
    Z.abs x mod 2 ^ b = val lo + wpow (length lo) * (w mod 2 ^ (b mod 64)).
Proof.
  intros Hw Hv Hb Hl. pose proof (Z.div_pos b 64 Hb ltac:(lia)) as Hk. pose proof (Z.mod_pos_bound b 64 ltac:(lia)) as Hsh.
  destruct (split_at l (Z.to_nat (b / 64))) as (lo & hi & -> & Hlo); [lia|]. destruct hi as [|w hi]; [rewrite app_nil_r in Hl; lia|].
  exists lo, w, hi. split; [done|]. split; [lia|]. rewrite <- Hv. split.
  - rewrite (Z.div_mod b 64) at 1 by lia. replace (b / 64) with (Z.of_nat (length lo)) by lia. apply val_testbit; [done|by apply list_lookup_middle|done].
  - apply Forall_app in Hw as [Hwl _]. rewrite pow2_split by done. rewrite <- Hlo, (proj2 (split_div lo (w :: hi) (b mod 64) ltac:(lia) Hwl)), mod_low_limb by done. done.
Qed.

Lemma wp_mpz_tstbit s σ d x b Q E :
  zok F s σ → σ !! d = Some (Some x) → 0 ≤ b → Q (b2z (Z.testbit x b)) s → wp (mpz_tstbit d b) Q E s.
Proof.
  intros Hok Hd Hb HQ. destruct (zok_operand F s σ d x Hok Hd) as (z & l & Hz & Hw & Hn & Hh & Hv & Hl & Hs & _).
  unfold mpz_tstbit. apply wp_bind. eapply wp_get_mpz; [done|]. rewrite Hs, size_abs, size_neg. unfold GMP_LIMB_BITS.
  pose proof (Z.div_pos b 64 Hb ltac:(lia)) as Hk. pose proof (Z.mod_pos_bound b 64 ltac:(lia)) as Hsh.
  destruct (Z.leb_spec (nlimbs x) (b / 64)) as [Hle|Hgt].
  { apply wp_ret. replace (x <? 0) with (Z.testbit x b); [done|].
    assert (Z.abs x < 2 ^ b) as Hlt.
    { rewrite pow2_split by done. pose proof (abs_limbs x (b / 64) Hle). pose proof (Z.pow_pos_nonneg 2 (b mod 64) ltac:(lia) ltac:(lia)). pose proof (wpow_pos (Z.to_nat (b / 64))). nia. }
    rewrite <- (Z.add_0_l b), <- Z.shiftr_spec, Z.shiftr_div_pow2 by lia. destruct (Z.ltb_spec x 0).
    - replace (x / 2 ^ b) with (-1); [done|]. apply Z.div_unique with (x + 2 ^ b); lia.
    - by rewrite Z.div_small by lia. }
  destruct (bit_limb l x b Hw Hv Hb) as (lo & w & hi & -> & Hlo & Ht & Hm); [lia|]. apply Forall_app in Hw as [Hwl Hwh]. apply Forall_cons in Hwh as [Hww Hwh].
  apply holds_app in Hh as [Hhl Hhh]. pose proof Hhh as [Hwc _]%holds_cons. rewrite Hlo in Hwc. apply wp_bind, wp_zoom. eapply wp_load; [done|]. rewrite zmem_id.
  assert (Z.land (Z.shiftr w (b mod 64)) 1 = b2z (Z.testbit (Z.abs x) b)) as ->.
  { rewrite Ht. change 1 with (Z.ones 1). rewrite Z.land_ones, Z.shiftr_div_pow2 by lia. change (2 ^ 1) with 2. rewrite Zmod_odd, <- Z.bit0_odd, <- Z.shiftr_div_pow2, Z.shiftr_spec, Z.add_0_l by lia.
    by destruct (Z.testbit w (b mod 64)). }
  assert (∀ t, Z.lxor (b2z t) 1 = b2z (negb t)) as Hneg by (by intros []). destruct (Z.ltb_spec x 0) as [Hx|Hx].
  2:{ apply wp_ret. by rewrite Z.abs_eq by lia. }
  replace x with (- Z.abs x) in HQ by lia. rewrite neg_testbit, Hm in HQ by done.
  pose proof (val_bound lo Hwl) as Hbl. pose proof (wpow_pos (length lo)) as Hpl. pose proof (Z.mod_pos_bound w (2 ^ (b mod 64)) ltac:(apply Z.pow_pos_nonneg; lia)) as Hwm.
  rewrite low_bits_zero by done. destruct (Z.eqb_spec (w mod 2 ^ (b mod 64)) 0) as [H0|H0]; cbn [negb].
  - rewrite H0, Z.mul_0_r, Z.add_0_r in HQ. apply wp_bind, wp_zoom. replace (Z.to_nat (b / 64)) with (length lo) by lia.
    eapply (wp_any_below _ _ lo); try done. rewrite firstn_all, zmem_id. apply wp_ret. destruct (Z.eqb_spec (val lo) 0); cbn [negb]; [done|]. by rewrite Hneg.
  - apply wp_ret. rewrite Hneg. rewrite (proj2 (Z.eqb_neq _ 0)) in HQ by nia. done.
Qed.

(** ** A bit is added to or subtracted from the absolute value *)

Lemma bit_word b : word (u64 (Z.shiftl 1 (b mod 64))) ∧ u64 (Z.shiftl 1 (b mod 64)) = 2 ^ (b mod 64).
Proof.
  pose proof (Z.mod_pos_bound b 64 ltac:(lia)) as Hsh. rewrite Z.shiftl_1_l. assert (0 < 2 ^ (b mod 64) < WB) as Hp.
  { split; [apply Z.pow_pos_nonneg; lia|]. change WB with (2 ^ 64). apply Z.pow_lt_mono_r; lia. }
  rewrite u64_small by lia. split; [unfold word; lia|done].
Qed.

Lemma wp_clear_limbs dp n : ∀ i m Q E,
  space m (padd dp i) n → (∀ m', writes m (padd dp i) (replicate n 0) m' → Q tt m') → wp (clear_limbs n dp i) Q E m.
Proof.
  induction n as [|n IH]; intros i m Q E Hs HQ; cbn [clear_limbs]; [apply wp_ret, HQ, writes_nil|].
  pose proof Hs as [Hs0 Hs1]%space_S. apply wp_bind, wp_store_writes; [done|]. intros m1 Hw1. apply IH; [eapply writes_space; [exact Hw1|]|].
  - by rewrite padd_succ.
  - intros m2 Hw2. apply HQ. cbn [replicate]. eapply writes_cons; [exact Hw1|]. by rewrite <- padd_succ.
Qed.

(** The number is complete in its block; its size follows. *)
Lemma wp_set_signed s σ r z l (n : Z) x Q E :
  zok F s (<[r := None]> σ) → z_vars s !! r = Some z → words l → normal l → holds (z_mem s) (mp_d z) l → Z.of_nat (length l) ≤ mp_alloc z →
  (mp_size z <? 0) = (x <? 0) → n = Z.of_nat (length l) → (∀ s', zok F s' (<[r := Some (if x <? 0 then - val l else val l)]> σ) → Q tt s') →
  wp (zd ← get_mpz r; set_size r (if mp_size zd <? 0 then - n else n)) Q E s.
Proof.
  intros Hok Hz Hw Hn Hh Ha Hsz -> HQ. apply wp_bind. eapply wp_get_mpz; [done|]. rewrite Hsz.
  eapply (wp_set_size F s _ r z l); try done; [by rewrite lookup_insert_eq|destruct (x <? 0); lia|]. intros s'. rewrite insert_insert_eq.
  pose proof (sgn_length l) as Hsl. destruct (x <? 0); rewrite ?Z.sgn_opp, ?Z.mul_opp_l, Hsl; apply HQ.
Qed.

(** The bit lies beyond the number. *)
Lemma wp_add_bit_beyond s σ d x b z Q E :
  zok F s σ → σ !! d = Some (Some x) → 0 ≤ b → nlimbs x ≤ b / 64 → b / 64 < INT_MAX → z_vars s !! d = Some z →
  (∀ l z' s', zok F s' (<[d := None]> σ) → z_vars s' !! d = Some z' → words l → normal l → holds (z_mem s') (mp_d z') l → Z.of_nat (length l) ≤ mp_alloc z' →
     (mp_size z' <? 0) = (x <? 0) → val l = Z.abs x + 2 ^ b → Q (Z.of_nat (length l)) s') →
  wp (dp ← MPZ_REALLOC d (b / 64 + 1);
      _ ← limbs (store (padd dp (b / 64)) (u64 (Z.shiftl 1 (b mod 64))));
      _ ← limbs (clear_limbs (Z.to_nat (b / 64 - nlimbs x)) dp (nlimbs x));
      mret (b / 64 + 1)) Q E s.
Proof.
  intros Hok Hd Hb Hle Hmax Hz HQ. destruct (zok_operand F s σ d x Hok Hd) as (z0 & l & Hz0 & Hw & Hn & Hh & Hv & Hl & Hs & Hal & _).
  rewrite Hz in Hz0. injection Hz0 as <-. pose proof (nlimbs_nonneg x) as Hnn. apply wp_bind. eapply wp_MPZ_REALLOC_full; try done; [lia|].
  intros z' s1 Hv1 Hsz' Hal' Hok1 (_ & Hkeep & _). assert (z_vars s1 !! d = Some z') as Hz' by (by rewrite Hv1, lookup_insert_eq).
  destruct (zok_target F s1 σ d _ Hok1 Hd) as (z'' & Hz'' & Ha'' & _ & Hsp). rewrite Hz' in Hz''. injection Hz'' as <-.
  specialize (Hkeep l Hh ltac:(lia)). destruct (bit_word b) as [Hbw Hbv]. set (k := Z.to_nat (b / 64 - nlimbs x)).
  apply wp_bind, wp_zoom. apply wp_store_writes; [destruct (Z_of_nat_complete (b / 64)) as [j Hj]; [lia|]; rewrite Hj; apply Hsp; lia|]. intros m2 Hw2.
  apply wp_bind, wp_zoom. cbn [z_mem set_zmem]. apply wp_clear_limbs.
  { rewrite <- Hl. eapply writes_space; [exact Hw2|]. eapply space_part; [exact Hsp|]. unfold k. lia. }
  intros m3 Hw3. apply wp_ret. set (L := l ++ replicate k 0 ++ [u64 (Z.shiftl 1 (b mod 64))]).
  assert (Z.of_nat (length L) = b / 64 + 1) as HL by (unfold L; rewrite !length_app, length_replicate; cbn [length]; unfold k; lia). rewrite <- HL.
  assert (writes (z_mem s1) (padd (mp_d z') (Z.of_nat (length l))) (replicate k 0 ++ [u64 (Z.shiftl 1 (b mod 64))]) m3) as Hw4.
  { eapply writes_app_down; [|by rewrite Hl]. rewrite length_replicate, padd_padd. replace (Z.of_nat (length l) + Z.of_nat k) with (b / 64) by (unfold k; lia). exact Hw2. }
  apply (HQ L z' (set_zmem m3 s1)); try done.
  - eapply (zok_write F s1 σ d); [done|by rewrite Hd|exact (proj2 Hw4)|]. intros q [Hq _]. exists z'. split; [done|]. split; [lia|done].
  - repeat apply Forall_app_2; [done|by apply words_zeros|by constructor].
  - intros y. unfold L. rewrite app_assoc, last_snoc, Hbv. intros [= <-]. apply Z.pow_nonzero; lia || apply Z.mod_pos_bound; lia.
  - apply holds_app. split; [|apply Hw4]. eapply changed_holds; [exact (proj2 Hw4)| |done]. intros q [_ Hq] [_ Hq']. cbn in Hq'. lia.
  - lia.
  - by rewrite Hsz', Hs, size_neg.
  - unfold L. rewrite !val_app, val_zeros, length_replicate, Hv, Hbv. cbn [val]. rewrite (pow2_split b Hb). replace (Z.to_nat (b / 64)) with (length l + k)%nat by (unfold k; lia).
    rewrite wpow_add. ring.
Qed.

(** The bit lies within the number; a carry may make it longer. *)
Lemma wp_add_bit_within s σ d x b z Q E :
  zok F s σ → σ !! d = Some (Some x) → 0 ≤ b → b / 64 < nlimbs x → nlimbs x < INT_MAX → z_vars s !! d = Some z →
  (∀ l z' s', zok F s' (<[d := None]> σ) → z_vars s' !! d = Some z' → words l → normal l → holds (z_mem s') (mp_d z') l → Z.of_nat (length l) ≤ mp_alloc z' →
     (mp_size z' <? 0) = (x <? 0) → val l = Z.abs x + 2 ^ b → Q (Z.of_nat (length l)) s') →
  wp (cy ← limbs (mpn_add_1 (padd (mp_d z) (b / 64)) (padd (mp_d z) (b / 64)) (nlimbs x - b / 64) (u64 (Z.shiftl 1 (b mod 64))));
      if 0 <? cy then
        dp ← MPZ_REALLOC d (nlimbs x + 1);
        _ ← limbs (store (padd dp (nlimbs x)) cy);
        mret (nlimbs x + 1)
      else mret (nlimbs x)) Q E s.
Proof.
  intros Hok Hd Hb Hlt Hmax Hz HQ. destruct (zok_operand F s σ d x Hok Hd) as (z0 & l & Hz0 & Hw & Hn & Hh & Hv & Hl & Hs & Hal & _).
  rewrite Hz in Hz0. injection Hz0 as <-. pose proof (Z.div_pos b 64 Hb ltac:(lia)) as Hk. destruct (bit_word b) as [Hbw Hbv].
  destruct (split_at l (Z.to_nat (b / 64))) as (lo & hi & -> & Hlo); [lia|]. rewrite length_app in Hl. apply Forall_app in Hw as [Hwl Hwh].
  pose proof (pow2_split b Hb) as Hpow. rewrite <- Hlo in Hpow.
  pose proof Hh as [Hhl Hhh]%holds_app. assert (hi ≠ []) as Hne by (intros ->; cbn in Hl; lia). pose proof (normal_tail lo hi Hne Hn) as Hnh.
  pose proof (normal_bound hi Hwh Hnh Hne) as Hlow. assert (0 < length hi)%nat as Hh0 by (destruct hi; [done|cbn; lia]).
  replace (b / 64) with (Z.of_nat (length lo)) in * by lia. replace (nlimbs x - Z.of_nat (length lo)) with (Z.of_nat (length hi)) by lia.
  apply wp_bind, wp_zoom. eapply (wp_mpn_add_1 _ _ hi); try done; [by apply holds_space|by right; left|]. intros r c m1 Hlr Hwr Hc Hvr Hw1.
  assert (holds m1 (mp_d z) (lo ++ r)) as Hh1.
  { apply holds_app. split; [|apply Hw1]. eapply changed_holds; [exact (proj2 Hw1)| |done]. intros q [_ Hq] [_ Hq']. cbn in Hq'. lia. }
  assert (zok F (set_zmem m1 s) (<[d := None]> σ)) as Hok1.
  { eapply (zok_write F s σ d); [done|by rewrite Hd|exact (proj2 Hw1)|]. intros q [Hq _]. exists z. split; [done|]. split; [lia|done]. }
  assert ((mp_size z <? 0) = (x <? 0)) as Hsz by (by rewrite Hs, size_neg).
  rewrite Hbv in Hvr. rewrite val_app in Hv. rewrite <- Hl. destruct (Z.ltb_spec 0 c) as [Hcp|Hc0].
  - assert (c = 1) as -> by lia. apply wp_bind. eapply (wp_MPZ_REALLOC_full F (set_zmem m1 s) _ d None z); try done; [by rewrite lookup_insert_eq|lia|intros _; rewrite Hs, size_abs; lia|].
    intros z' s2 Hv2 Hsz' Hal' Hok2 (_ & Hkeep & _). cbn in Hv2. assert (z_vars s2 !! d = Some z') as Hz' by (by rewrite Hv2, lookup_insert_eq).
    destruct (zok_target F s2 _ d None Hok2) as (z'' & Hz'' & Ha'' & _ & Hsp); [by rewrite lookup_insert_eq|]. rewrite Hz' in Hz''. injection Hz'' as <-.
    specialize (Hkeep (lo ++ r) Hh1 ltac:(rewrite length_app; lia)). apply wp_bind, wp_zoom.
    replace (Z.of_nat (length lo + length hi)) with (Z.of_nat (length (lo ++ r))) by (rewrite length_app; lia).
    apply wp_store_writes; [apply Hsp; rewrite length_app; lia|]. intros m3 Hw3. apply wp_ret.
    replace (Z.of_nat (length (lo ++ r)) + 1) with (Z.of_nat (length ((lo ++ r) ++ [1]))) by (rewrite !length_app; cbn; lia).
    apply (HQ ((lo ++ r) ++ [1]) z' (set_zmem m3 s2)); try done.
    + rewrite <- (insert_insert_eq σ d None None). eapply (zok_write F s2 _ d); [done|by rewrite lookup_insert_eq|exact (proj2 Hw3)|].
      intros q [Hq _]. exists z'. split; [done|]. split; [lia|done].
    + repeat apply Forall_app_2; try done. by constructor.
    + intros y. rewrite last_snoc. by intros [= <-].
    + apply holds_app. split; [|apply Hw3]. eapply changed_holds; [exact (proj2 Hw3)| |done]. intros q [_ Hq] [_ Hq']. cbn in Hq'. lia.
    + rewrite !length_app. cbn [length]. lia.
    + by rewrite Hsz'.
    + rewrite !val_app, length_app, Hlr, wpow_add. cbn [val]. nia.
  - assert (c = 0) as -> by lia. apply wp_ret. replace (Z.of_nat (length lo + length hi)) with (Z.of_nat (length (lo ++ r))) by (rewrite length_app; lia).
    apply (HQ (lo ++ r) z (set_zmem m1 s)); try done.
    + by apply Forall_app_2.
    + assert (normal r) as Hnr by (apply normal_of_bound; [done|]; rewrite Hlr; pose proof (Z.pow_nonneg 2 (b mod 64)); lia).
      destruct r as [|y r _] using rev_ind; [cbn in Hlr; lia|]. intros t. rewrite app_assoc, last_snoc. intros [= <-]. apply Hnr. by rewrite last_snoc.
    + rewrite length_app. lia.
    + rewrite val_app. nia.
Qed.

Lemma wp_mpz_abs_add_bit s σ d x b Q E :
  zok F s σ → σ !! d = Some (Some x) → 0 ≤ b → b / 64 < INT_MAX → nlimbs x < INT_MAX →
  (∀ s', zok F s' (<[d := Some (if x <? 0 then - (Z.abs x + 2 ^ b) else Z.abs x + 2 ^ b)]> σ) → Q tt s') → wp (mpz_abs_add_bit d b) Q E s.
Proof.
  intros Hok Hd Hb Hb64 Hn HQ. destruct (zok_operand F s σ d x Hok Hd) as (z & l & Hz & _ & _ & _ & _ & _ & Hs & _).
  unfold mpz_abs_add_bit. apply wp_bind. eapply wp_get_mpz; [done|]. rewrite Hs, size_abs. unfold GMP_LIMB_BITS.
  apply wp_bind. destruct (Z.leb_spec (nlimbs x) (b / 64)).
  - eapply wp_add_bit_beyond; try done. intros l' z' s' Hok' Hz' Hw Hnl Hh Ha Hsz Hv. eapply (wp_set_signed s' σ d z' l' _ x); try done. by rewrite Hv.
  - eapply wp_add_bit_within; try done. intros l' z' s' Hok' Hz' Hw Hnl Hh Ha Hsz Hv. eapply (wp_set_signed s' σ d z' l' _ x); try done. by rewrite Hv.
Qed.

Lemma wp_mpz_abs_sub_bit s σ d x b Q E :
  zok F s σ → σ !! d = Some (Some x) → 0 ≤ b → 2 ^ b ≤ Z.abs x →
  (∀ s', zok F s' (<[d := Some (if x <? 0 then - (Z.abs x - 2 ^ b) else Z.abs x - 2 ^ b)]> σ) → Q tt s') → wp (mpz_abs_sub_bit d b) Q E s.
Proof.
  intros Hok Hd Hb Hge HQ. destruct (zok_operand F s σ d x Hok Hd) as (z & l & Hz & Hw & Hn & Hh & Hv & Hl & Hs & Hal & _).
  unfold mpz_abs_sub_bit. apply wp_bind. eapply wp_get_mpz; [done|]. rewrite Hs, size_abs, size_neg. unfold GMP_LIMB_BITS.
  pose proof (Z.div_pos b 64 Hb ltac:(lia)) as Hk. destruct (bit_word b) as [Hbw Hbv]. pose proof (pow2_split b Hb) as Hpow.
  pose proof (Z.pow_pos_nonneg 2 (b mod 64) ltac:(lia) ltac:(apply Z.mod_pos_bound; lia)) as Hpsh.
  assert (b / 64 < nlimbs x) as Hlt.
  { destruct (Z.lt_ge_cases (b / 64) (nlimbs x)) as [|Hle]; [done|]. pose proof (abs_limbs x (b / 64) Hle). pose proof (wpow_pos (Z.to_nat (b / 64))). nia. }
  apply wp_bind, wp_zassert; [by apply Z.ltb_lt|].
  destruct (split_at l (Z.to_nat (b / 64))) as (lo & hi & -> & Hlo); [lia|]. rewrite length_app in Hl. apply Forall_app in Hw as [Hwl Hwh].
  pose proof Hh as [Hhl Hhh]%holds_app. assert (hi ≠ []) as Hne by (intros ->; cbn in Hl; lia). rewrite <- Hlo in Hpow.
  replace (b / 64) with (Z.of_nat (length lo)) in * by lia. replace (nlimbs x - Z.of_nat (length lo)) with (Z.of_nat (length hi)) by lia.
  apply wp_bind, wp_zoom. unfold gmp_assert_nocarry. apply wp_bind.
  eapply (wp_mpn_sub_1 _ _ hi); try done; [by apply holds_space|by right; left|]. intros r c m1 Hlr Hwr Hc Hvr Hw1.
  rewrite Hbv in Hvr. rewrite val_app in Hv. pose proof (val_bound lo Hwl) as Hbl. pose proof (val_bound r Hwr) as Hbr. rewrite Hlr in Hbr. pose proof (wpow_pos (length lo)) as Hpl.
  assert (2 ^ (b mod 64) ≤ val hi) as Hhi.
  { destruct (Z.le_gt_cases (2 ^ (b mod 64)) (val hi)); [done|]. assert (wpow (length lo) * (val hi + 1) ≤ wpow (length lo) * 2 ^ (b mod 64)) by (apply Z.mul_le_mono_nonneg_l; lia). lia. }
  assert (c = 0) as -> by nia. apply wp_massert; [done|].
  assert (holds m1 (mp_d z) (lo ++ r)) as Hh1.
  { apply holds_app. split; [|apply Hw1]. eapply changed_holds; [exact (proj2 Hw1)| |done]. intros q [_ Hq] [_ Hq']. cbn in Hq'. lia. }
  replace (nlimbs x) with (Z.of_nat (length (lo ++ r))) by (rewrite length_app; lia).
  eapply (wp_normalize_set F (set_zmem m1 s) σ d z (lo ++ r) (x <? 0)); try done.
  - eapply (zok_write F s σ d); [done|by rewrite Hd|exact (proj2 Hw1)|]. intros q [Hq _]. exists z. split; [done|]. split; [lia|done].
  - by apply Forall_app_2.
  - rewrite length_app. lia.
  - rewrite val_app. by replace (val lo + wpow (length lo) * val r) with (Z.abs x - 2 ^ b) by nia.
Qed.

(** ** Setting, clearing and complementing a bit *)

Lemma land_pow2_clear x b : 0 ≤ b → Z.testbit x b = false → Z.land x (2 ^ b) = 0.
Proof. intros Hb Ht. apply Z.eqb_eq, negb_false_iff. by rewrite land_bit. Qed.

Lemma setbit_clear x b : 0 ≤ b → Z.testbit x b = false → Z.setbit x b = x + 2 ^ b.
Proof. intros Hb Ht. rewrite Z.setbit_spec', <- Z.lxor_lor, Z.add_nocarry_lxor by (by apply land_pow2_clear). done. Qed.

Lemma lxor_clear x b : 0 ≤ b → Z.testbit x b = false → Z.lxor x (2 ^ b) = x + 2 ^ b.
Proof. intros Hb Ht. rewrite Z.add_nocarry_lxor by (by apply land_pow2_clear). done. Qed.

Lemma ldiff_pow2 x b : 0 ≤ b → Z.testbit x b = true → Z.ldiff (2 ^ b) x = 0.
Proof.
  intros Hb Ht. apply Z.bits_inj'. intros i Hi. rewrite Z.ldiff_spec, Z.bits_0. destruct (decide (b = i)) as [->|Hne]; [by rewrite Ht, andb_false_r|].
  by rewrite Z.pow2_bits_false.
Qed.

Lemma clearbit_set x b : 0 ≤ b → Z.testbit x b = true → Z.clearbit x b = x - 2 ^ b.
Proof. intros Hb Ht. rewrite Z.clearbit_spec', Z.sub_nocarry_ldiff by (by apply ldiff_pow2). done. Qed.

Lemma lxor_set x b : 0 ≤ b → Z.testbit x b = true → Z.lxor x (2 ^ b) = x - 2 ^ b.
Proof.
  intros Hb Ht. rewrite Z.sub_nocarry_ldiff by (by apply ldiff_pow2). apply Z.bits_inj'. intros i Hi. rewrite Z.lxor_spec, Z.ldiff_spec.
  destruct (decide (b = i)) as [->|Hne]; [by rewrite Ht, Z.pow2_bits_true|]. rewrite Z.pow2_bits_false by done. by rewrite xorb_false_r, andb_true_r.
Qed.

(** A bit that differs from the sign is within the absolute value. *)
Lemma bit_not_sign x b : 0 ≤ b → Z.testbit x b = negb (x <? 0) → 2 ^ b ≤ Z.abs x.
Proof.
  intros Hb Ht. pose proof (Z.pow_pos_nonneg 2 b ltac:(lia) Hb) as Hp. rewrite Z.testbit_odd, Z.shiftr_div_pow2 in Ht by done.
  pose proof (Z.div_mod x (2 ^ b) ltac:(lia)) as Hd. pose proof (Z.mod_pos_bound x (2 ^ b) Hp) as Hm. set (q := x / 2 ^ b) in *.
  destruct (Z.ltb_spec x 0); cbn [negb] in Ht.
  - assert (q ≠ -1) by (intros Hq; by rewrite Hq in Ht). nia.
  - assert (q ≠ 0) by (intros Hq; by rewrite Hq in Ht). nia.
Qed.

(** What adding a bit to the absolute value, or subtracting it, does to the number *)
Lemma wp_flip_bit s σ d x b (sub : bool) v Q E :
  zok F s σ → σ !! d = Some (Some x) → 0 ≤ b → b / 64 < INT_MAX → nlimbs x < INT_MAX →
  (sub = true → Z.testbit x b = negb (x <? 0)) → v = (if Bool.eqb sub (x <? 0) then x + 2 ^ b else x - 2 ^ b) →
  (∀ s', zok F s' (<[d := Some v]> σ) → Q tt s') →
  wp (if sub then mpz_abs_sub_bit d b else mpz_abs_add_bit d b) Q E s.
Proof.
  intros Hok Hd Hb Hb64 Hn Hbit -> HQ. destruct sub.
  - eapply wp_mpz_abs_sub_bit; try done; [apply bit_not_sign; auto|]. intros s' Hok'. apply HQ.
    destruct (Z.ltb_spec x 0); cbn [Bool.eqb]; [by replace (x + 2 ^ b) with (- (Z.abs x - 2 ^ b)) by lia|by replace (x - 2 ^ b) with (Z.abs x - 2 ^ b) by lia].
  - eapply wp_mpz_abs_add_bit; try done. intros s' Hok'. apply HQ.
    destruct (Z.ltb_spec x 0); cbn [Bool.eqb]; [by replace (x - 2 ^ b) with (- (Z.abs x + 2 ^ b)) by lia|by replace (x + 2 ^ b) with (Z.abs x + 2 ^ b) by lia].
Qed.

Lemma wp_mpz_setbit s σ d x b Q E :
  zok F s σ → σ !! d = Some (Some x) → 0 ≤ b → b / 64 < INT_MAX → nlimbs x < INT_MAX →
  (∀ s', zok F s' (<[d := Some (Z.setbit x b)]> σ) → Q tt s') → wp (mpz_setbit d b) Q E s.
Proof.
  intros Hok Hd Hb Hb64 Hn HQ. destruct (zok_operand F s σ d x Hok Hd) as (z & l & Hz & _ & _ & _ & _ & _ & Hs & _).
  unfold mpz_setbit. apply wp_bind. eapply wp_mpz_tstbit; try done. destruct (Z.testbit x b) eqn:Ht; cbn [b2z Z.eqb].
  - apply wp_ret, HQ. rewrite insert_id; [done|]. rewrite Hd. do 2 f_equal. apply Z.bits_inj'. intros i Hi. rewrite Z.setbit_eqb by done.
    destruct (Z.eqb_spec b i) as [->|]; [by rewrite Ht|done].
  - apply wp_bind. eapply wp_get_mpz; [done|]. rewrite Hs, size_nonneg. rewrite setbit_clear in HQ by done.
    pose proof (wp_flip_bit s σ d x b (negb (0 <=? x)) (x + 2 ^ b) Q E) as Hf. destruct (Z.leb_spec 0 x); cbn [negb] in Hf; apply Hf; try done.
    + rewrite (proj2 (Z.ltb_ge x 0)) by lia. done.
    + rewrite (proj2 (Z.ltb_lt x 0)) by lia. done.
    + rewrite (proj2 (Z.ltb_lt x 0)) by lia. done.
Qed.

Lemma wp_mpz_clrbit s σ d x b Q E :
  zok F s σ → σ !! d = Some (Some x) → 0 ≤ b → b / 64 < INT_MAX → nlimbs x < INT_MAX →
  (∀ s', zok F s' (<[d := Some (Z.clearbit x b)]> σ) → Q tt s') → wp (mpz_clrbit d b) Q E s.
Proof.
  intros Hok Hd Hb Hb64 Hn HQ. destruct (zok_operand F s σ d x Hok Hd) as (z & l & Hz & _ & _ & _ & _ & _ & Hs & _).
  unfold mpz_clrbit. apply wp_bind. eapply wp_mpz_tstbit; try done. destruct (Z.testbit x b) eqn:Ht; cbn [b2z Z.eqb negb].
  - apply wp_bind. eapply wp_get_mpz; [done|]. rewrite Hs, size_nonneg. rewrite clearbit_set in HQ by done.
    pose proof (wp_flip_bit s σ d x b (0 <=? x) (x - 2 ^ b) Q E) as Hf. destruct (Z.leb_spec 0 x); apply Hf; try done.
    + rewrite (proj2 (Z.ltb_ge x 0)) by lia. done.
    + rewrite (proj2 (Z.ltb_ge x 0)) by lia. done.
    + rewrite (proj2 (Z.ltb_lt x 0)) by lia. done.
  - apply wp_ret, HQ. rewrite insert_id; [done|]. rewrite Hd. do 2 f_equal. apply Z.bits_inj'. intros i Hi. rewrite Z.clearbit_eqb.
    destruct (Z.eqb_spec b i) as [->|]; [by rewrite Ht|by rewrite andb_true_r].
Qed.

Lemma wp_mpz_combit s σ d x b Q E :
  zok F s σ → σ !! d = Some (Some x) → 0 ≤ b → b / 64 < INT_MAX → nlimbs x < INT_MAX →
  (∀ s', zok F s' (<[d := Some (Z.lxor x (2 ^ b))]> σ) → Q tt s') → wp (mpz_combit d b) Q E s.
Proof.
  intros Hok Hd Hb Hb64 Hn HQ. destruct (zok_operand F s σ d x Hok Hd) as (z & l & Hz & _ & _ & _ & _ & _ & Hs & _).
  unfold mpz_combit. apply wp_bind. eapply wp_mpz_tstbit; try done. apply wp_bind. eapply wp_get_mpz; [done|]. rewrite Hs, size_neg.
  assert (negb (Z.lxor (b2z (Z.testbit x b)) (b2z (x <? 0)) =? 0) = xorb (Z.testbit x b) (x <? 0)) as -> by (by destruct (Z.testbit x b), (x <? 0)).
  eapply (wp_flip_bit s σ d x b _ (Z.lxor x (2 ^ b))); try done.
  - destruct (Z.testbit x b), (x <? 0); done.
  - destruct (Z.testbit x b) eqn:Ht; [rewrite lxor_set by done|rewrite lxor_clear by done]; by destruct (x <? 0).
Qed.
End bit.
