(* ===== verification/MpzCount.v ===== *)
(** * Counting bits: correctness

    The population count of limbs by sums of neighbouring fields, of integers, and the
    Hamming distance of integers in two's complement. *)

From S2P Require Import Prelude CString Queue State UInt64 Mpn MpnMem MpnThm MpnBits MpnDiv MpnInv MpnDivThm MpnDivPi1 MpnCorrect MpnDivQr MpnStr MpnStrThm MpnSetStr Mpz MpzRep MpzArith MpzMul MpzDiv MpzConv MpzQuo MpzQuoThm MpzBits MpzNum MpzNumThm MpzPow MpzBitsThm MpzBitThm.

(** ** The number of ones *)

Fixpoint pos_ones (p : positive) : Z :=
  match p with
  | xH => 1
  | xO p => pos_ones p
  | xI p => 1 + pos_ones p
  end.
(** The number of ones of a number that is not negative *)
Definition ones (x : Z) : Z := match x with Zpos p => pos_ones p | _ => 0 end.

Lemma ones_double x : 0 ≤ x → ones (2 * x) = ones x.
Proof. by destruct x. Qed.
Lemma ones_succ_double x : 0 ≤ x → ones (2 * x + 1) = 1 + ones x.
Proof. by destruct x. Qed.

Lemma ones_app a b k : 0 ≤ a → 0 ≤ k → 0 ≤ b < 2 ^ k → ones (a * 2 ^ k + b) = ones a + ones b.
Proof.
  intros Ha Hk. revert b. pattern k. apply natlike_ind; [| |done]; clear k Hk.
  - intros b Hb. assert (b = 0) as -> by (cbn in Hb; lia). cbn [ones]. rewrite Z.mul_1_r, !Z.add_0_r. done.
  - intros k Hk IH b Hb. rewrite Z.pow_succ_r in * by done. pose proof (Z.div_mod b 2 ltac:(lia)) as Hd. pose proof (Z.mod_pos_bound b 2 ltac:(lia)).
    assert (0 ≤ b / 2 < 2 ^ k) as Hb2 by lia. specialize (IH _ Hb2). pose proof (Z.pow_pos_nonneg 2 k ltac:(lia) Hk). assert (0 ≤ a * 2 ^ k + b / 2) by nia.
    destruct (Z.eq_dec (b mod 2) 0) as [E|E].
    + replace (a * (2 * 2 ^ k) + b) with (2 * (a * 2 ^ k + b / 2)) by lia. replace b with (2 * (b / 2)) at 2 by lia. rewrite !ones_double by lia. done.
    + replace (a * (2 * 2 ^ k) + b) with (2 * (a * 2 ^ k + b / 2) + 1) by lia. replace b with (2 * (b / 2) + 1) at 2 by lia. rewrite !ones_succ_double by lia. lia.
Qed.

Lemma ones_bound x k : 0 ≤ k → 0 ≤ x < 2 ^ k → 0 ≤ ones x ≤ k.
Proof.
  intros Hk. revert x. pattern k. apply natlike_ind; [| |done]; clear k Hk.
  - intros x Hx. assert (x = 0) as -> by (cbn in Hx; lia). cbn. lia.
  - intros k Hk IH x Hx. rewrite Z.pow_succ_r in Hx by done. pose proof (Z.div_mod x 2 ltac:(lia)) as Hd. pose proof (Z.mod_pos_bound x 2 ltac:(lia)).
    specialize (IH (x / 2) ltac:(lia)). destruct (Z.eq_dec (x mod 2) 0) as [E|E].
    + replace x with (2 * (x / 2)) by lia. rewrite ones_double by lia. lia.
    + replace x with (2 * (x / 2) + 1) by lia. rewrite ones_succ_double by lia. lia.
Qed.

(** ** Sums of fields *)

(** The same sums on one byte *)
Definition byte_step1 (x : Z) : Z := Z.land (Z.shiftr x 1) 85 + Z.land x 85.
Definition byte_step2 (x : Z) : Z := Z.land (Z.shiftr x 2) 51 + Z.land x 51.
Definition byte_step3 (x : Z) : Z := Z.land (Z.shiftr x 4) 15 + Z.land x 15.

Lemma land_bytes a b c d : 0 ≤ b < 256 → 0 ≤ d < 256 → Z.land (a * 256 + b) (c * 256 + d) = Z.land a c * 256 + Z.land b d.
Proof.
  intros Hb Hd. change 256 with (2 ^ 8) in *. assert (0 ≤ Z.land b d < 2 ^ 8) as Hbd.
  { split; [apply Z.land_nonneg; lia|]. assert (Z.land b d = Z.land b d mod 2 ^ 8) as ->; [|apply Z.mod_pos_bound; done]. rewrite <- Z.land_ones, <- Z.land_assoc by lia. f_equal. rewrite Z.land_ones by lia. by rewrite Z.mod_small. }
  apply Z.bits_inj'. intros n Hn. rewrite Z.land_spec, <- !lor_add, !Z.lor_spec, !Z.mul_pow2_bits, !Z.land_spec by lia.
  destruct (Z.lt_ge_cases n 8).
  - rewrite !(Z.testbit_neg_r _ (n - 8)) by lia. done.
  - rewrite <- (Z.mod_small b (2 ^ 8)), <- (Z.mod_small d (2 ^ 8)) by done. rewrite !Z.mod_pow2_bits_high by lia. by rewrite !orb_false_r.
Qed.

Lemma land_low X c k : 0 ≤ k → 0 ≤ c < 2 ^ k → Z.land X c = Z.land (X mod 2 ^ k) c.
Proof. intros Hk Hc. rewrite <- Z.land_ones, <- Z.land_assoc by done. f_equal. rewrite Z.land_comm, Z.land_ones by done. by rewrite Z.mod_small. Qed.

(** Bits that come from the byte above are masked. *)
Definition all_below (n : Z) (f : Z → bool) : bool := forallb f (seqZ 0 n).
Lemma all_below_spec n f x : all_below n f = true → 0 ≤ x < n → f x = true.
Proof. intros H Hx. unfold all_below in H. rewrite forallb_forall in H. apply H. apply list_elem_of_In, elem_of_seqZ. lia. Qed.

Local Ltac div_lia := Z.to_euclidean_division_equations; lia.
Local Ltac pow_consts := change (2 ^ 1) with 2 in *; change (2 ^ 2) with 4 in *; change (2 ^ 4) with 16 in *; change (2 ^ (8 - 1)) with 128 in *; change (2 ^ (8 - 2)) with 64 in *; change (2 ^ (8 - 4)) with 16 in *; change (256 / 2) with 128 in *; change (256 / 4) with 64 in *; change (256 / 16) with 16 in *.

Lemma field_step s mask H l : (s = 1 ∧ mask = 85 ∨ s = 2 ∧ mask = 51 ∨ s = 4 ∧ mask = 15) → 0 ≤ l < 256 →
  Z.land (Z.shiftr (H * 256 + l) s) (mask * 256 + mask) + Z.land (H * 256 + l) (mask * 256 + mask)
  = (Z.land (Z.shiftr H s) mask + Z.land H mask) * 256 + (Z.land (Z.shiftr l s) mask + Z.land l mask).
Proof.
  intros Hs Hl. assert (0 ≤ mask < 256 ∧ (s = 1 ∨ s = 2 ∨ s = 4)) as [Hm Hs'] by lia. rewrite land_bytes by done.
  assert (0 < 2 ^ s ≤ 256) as Hp by (destruct Hs' as [->|[->| ->]]; done).
  pose proof (Z.div_mod H (2 ^ s) ltac:(lia)) as HH. pose proof (Z.mod_pos_bound H (2 ^ s) ltac:(lia)) as HHm.
  assert (Z.shiftr (H * 256 + l) s = (H / 2 ^ s) * 256 + (H mod 2 ^ s * (256 / 2 ^ s) + l / 2 ^ s)) as ->.
  { rewrite Z.shiftr_div_pow2 by lia. destruct Hs' as [->|[->| ->]]; pow_consts; div_lia. }
  assert (0 ≤ H mod 2 ^ s * (256 / 2 ^ s) + l / 2 ^ s < 256) as Hb by (destruct Hs' as [->|[->| ->]]; pow_consts; div_lia).
  rewrite land_bytes by done. rewrite !Z.shiftr_div_pow2 by lia.
  assert (Z.land (H mod 2 ^ s * (256 / 2 ^ s) + l / 2 ^ s) mask = Z.land (l / 2 ^ s) mask) as ->; [|lia].
  assert (0 ≤ mask < 2 ^ (8 - s)) as Hms by (destruct Hs as [[-> ->]|[[-> ->]|[-> ->]]]; done).
  rewrite (land_low _ mask (8 - s)), (land_low (l / 2 ^ s) mask (8 - s)) by (done || lia). f_equal. destruct Hs' as [->|[->| ->]]; pow_consts; div_lia.
Qed.

Lemma byte_steps x : 0 ≤ x < 256 → 0 ≤ byte_step1 x < 256 ∧ 0 ≤ byte_step2 (byte_step1 x) < 256 ∧ byte_step3 (byte_step2 (byte_step1 x)) = ones x.
Proof.
  intros Hx. set (f x := let a := byte_step1 x in let b := byte_step2 a in (0 <=? a) && (a <? 256) && (0 <=? b) && (b <? 256) && (byte_step3 b =? ones x)).
  assert (all_below 256 f = true) as Hall by (vm_compute; reflexivity). pose proof (all_below_spec _ _ _ Hall Hx) as Hf. unfold f in Hf. cbv zeta in Hf. lia.
Qed.

Lemma byte_step1_low H : byte_step1 H = byte_step1 (H mod 256).
Proof.
  unfold byte_step1. rewrite (land_low H 85 8) by done. f_equal. rewrite !Z.shiftr_div_pow2 by lia. rewrite (land_low (H / 2 ^ 1) 85 7), (land_low (H mod 256 / 2 ^ 1) 85 7) by done. f_equal. change (2 ^ 1) with 2. change (2 ^ 7) with 128. div_lia.
Qed.

Lemma popcount_16_ones x : 0 ≤ x → popcount_16 x = ones (x mod 2 ^ 16).
Proof.
  intros Hx. pose proof (Z.div_mod x 256 ltac:(lia)) as Hd. pose proof (Z.mod_pos_bound x 256 ltac:(lia)) as Hl. set (H := x / 256) in *. set (l := x mod 256) in *.
  assert (x mod 2 ^ 16 = (H mod 256) * 2 ^ 8 + l) as -> by (change (2 ^ 16) with 65536; change (2 ^ 8) with 256; unfold H, l; div_lia).
  pose proof (Z.mod_pos_bound H 256 ltac:(lia)) as Hh. rewrite ones_app by (change (2 ^ 8) with 256; lia). replace x with (H * 256 + l) by lia. unfold popcount_16.
  change 21845 with (85 * 256 + 85). rewrite field_step by (done || lia). fold (byte_step1 H) (byte_step1 l). rewrite byte_step1_low.
  destruct (byte_steps _ Hl) as (Hl1 & Hl2 & Hl3). destruct (byte_steps _ Hh) as (Hh1 & Hh2 & Hh3).
  change 13107 with (51 * 256 + 51). rewrite field_step by (done || lia). fold (byte_step2 (byte_step1 (H mod 256))) (byte_step2 (byte_step1 l)).
  change 3855 with (15 * 256 + 15). rewrite field_step by (done || lia). fold (byte_step3 (byte_step2 (byte_step1 (H mod 256)))) (byte_step3 (byte_step2 (byte_step1 l))).
  rewrite Hl3, Hh3. pose proof (ones_bound l 8 ltac:(lia) Hl). rewrite Z.shiftr_div_pow2 by lia. change 255 with (Z.ones 8). rewrite Z.land_ones by lia.
  change (2 ^ 8) with 256. rewrite Z.add_comm, (Z.add_comm (_ * 256)), Z.mod_add, Z.div_add, Z.mod_small, Z.div_small by lia. lia.
Qed.

Lemma popcount_loop_ones fuel : ∀ x c, 0 ≤ x < 2 ^ (16 * Z.of_nat fuel) → popcount_loop fuel x c = Ok (c + ones x).
Proof.
  induction fuel as [|fuel IH]; intros x c Hx; cbn [popcount_loop].
  - assert (x = 0) as -> by (cbn in Hx; lia). cbn. by rewrite Z.add_0_r.
  - destruct (Z.eqb_spec x 0) as [->|Hne]; [cbn; by rewrite Z.add_0_r|]. replace (16 * Z.of_nat (S fuel)) with (16 * Z.of_nat fuel + 16) in Hx by lia. rewrite Z.pow_add_r in Hx by lia.
    pose proof (Z.div_mod x (2 ^ 16) ltac:(lia)) as Hd. pose proof (Z.mod_pos_bound x (2 ^ 16) ltac:(lia)). rewrite Z.shiftr_div_pow2, popcount_16_ones by lia.
    rewrite IH by (split; [apply Z.div_pos; lia|apply Z.div_lt_upper_bound; lia]). f_equal. rewrite Hd at 3. rewrite (Z.mul_comm (2 ^ 16)), ones_app by (try apply Z.div_pos; lia). lia.
Qed.

Lemma gmp_popcount_limb_ones x : word x → gmp_popcount_limb x = Ok (ones x).
Proof. intros Hx. unfold gmp_popcount_limb. rewrite popcount_loop_ones; [done|exact Hx]. Qed.

(** ** Limb arrays and integers *)

Lemma ones_val l : words l → ones (val l) = foldr (λ x c, ones x + c) 0 l ∧ 0 ≤ ones (val l) ≤ 64 * Z.of_nat (length l).
Proof.
  intros Hw. split.
  - induction Hw as [|x l Hx Hw IH]; [done|]. cbn [val foldr]. rewrite <- IH, Z.add_comm, Z.mul_comm. pose proof (val_bound l Hw). change WB with (2 ^ 64).
    rewrite ones_app by (done || lia). lia.
  - apply ones_bound; [lia|]. pose proof (val_bound l Hw) as Hb. unfold wpow in Hb. change WB with (2 ^ 64) in Hb. rewrite <- Z.pow_mul_r in Hb by lia. done.
Qed.

Lemma ones_step x l : words (x :: l) → ones (val (x :: l)) = ones x + ones (val l).
Proof. intros Hw. destruct (ones_val _ Hw) as [-> _]. apply Forall_cons in Hw as [_ Hw]. by destruct (ones_val _ Hw) as [-> _]. Qed.

Lemma wp_mpn_popcount_loop p l : ∀ i c m Q E, words l → holds m (padd p i) l → 0 ≤ c → c + 64 * Z.of_nat (length l) < WB →
  Q (c + ones (val l)) m → wp (mpn_popcount_loop (length l) p i c) Q E m.
Proof.
  induction l as [|x l IH]; intros i c m Q E Hw Hh Hc Hfit HQ; cbn [mpn_popcount_loop length]; [apply wp_ret; cbn in HQ; by rewrite Z.add_0_r in HQ|].
  rewrite ones_step in HQ by done. apply Forall_cons in Hw as [Hx Hw]. apply holds_cons in Hh as [Hcell Hh]. pose proof (ones_bound x 64 ltac:(lia) Hx) as Hox. cbn [length] in Hfit.
  apply wp_bind. eapply wp_load; [done|]. apply wp_bind. eapply wp_lift_ok; [by apply gmp_popcount_limb_ones|]. rewrite u64_small by lia.
  apply IH; try done; [by rewrite padd_succ|lia|lia|]. by rewrite <- Z.add_assoc.
Qed.

Section counts.
Context (F : mem).
Implicit Types (s : zstate) (σ : gmap positive (option Z)).

Lemma wp_mpz_popcount s σ u x Q E :
  zok F s σ → σ !! u = Some (Some x) → Q (if x <? 0 then GMP_LIMB_MAX else ones x) s → wp (mpz_popcount u) Q E s.
Proof.
  intros Hok Hu HQ. destruct (zok_operand F s σ u x Hok Hu) as (z & l & Hz & Hw & Hn & Hh & Hv & Hl & Hsz & Hal & _). unfold INT_MAX in Hal.
  unfold mpz_popcount. apply wp_bind. eapply wp_get_mpz; [done|]. rewrite Hsz, size_neg. destruct (Z.ltb_spec x 0) as [Hneg|Hpos]; [by apply wp_ret|].
  apply wp_zoom. unfold mpn_popcount. assert (Z.sgn x * nlimbs x = Z.of_nat (length l)) as ->.
  { rewrite Hl. destruct (Z.eq_dec x 0) as [->|]; [done|]. rewrite Z.sgn_pos by lia. lia. }
  rewrite Nat2Z.id. eapply wp_mpn_popcount_loop; try done; [by rewrite padd_0|unfold WB; lia|]. rewrite zmem_id, Hv, Z.add_0_l, Z.abs_eq by done. done.
Qed.

(** ** The Hamming distance *)

Lemma wp_hamdist_both nx n : ∀ i X Y uc vc c up vp m Q E,
  carry_ok nx uc → carry_ok nx vc → holds m (padd up i) (tlimbs X n) → holds m (padd vp i) (tlimbs Y n) → 0 ≤ c → c + 64 * Z.of_nat n < WB →
  let R := Z.lxor (tw nx X uc) (tw nx Y vc) in
  (∀ uc' vc', carry_ok nx uc' → carry_ok nx vc' → tw nx (X / wpow n) uc' = tw nx X uc / wpow n → tw nx (Y / wpow n) vc' = tw nx Y vc / wpow n →
     Q (uc', vc', c + ones (R mod wpow n)) m) →
  wp (hamdist_both n i up vp (u64 (- b2z nx)) uc vc c) Q E m.
Proof.
  induction n as [|n IH]; intros i X Y uc vc c up vp m Q E Hu Hv Hhu Hhv Hc Hfit R HQ; cbn [hamdist_both].
  { apply wp_ret. rewrite wpow_0, Z.mod_1_r, Z.add_0_r in HQ. apply HQ; rewrite ?Z.div_1_r; done. }
  cbn [tlimbs] in Hhu, Hhv. pose proof Hhu as [Hx Hhu']%holds_cons. pose proof Hhv as [Hy Hhv']%holds_cons.
  apply wp_bind. eapply wp_load; [done|]. destruct (twos_limb_tw nx X uc Hu) as (uc1 & -> & Hu1 & HX).
  apply wp_bind. eapply wp_load; [done|]. destruct (twos_limb_tw nx Y vc Hv) as (vc1 & -> & Hv1 & HY).
  rewrite bitop_mod. fold R. assert (word (R mod WB)) as HwR by (apply Z.mod_pos_bound; done). pose proof (ones_bound _ 64 ltac:(lia) HwR) as Hob.
  apply wp_bind. eapply wp_lift_ok; [by apply gmp_popcount_limb_ones|]. rewrite (u64_small (c + _)) by lia.
  assert (R / WB = Z.lxor (tw nx (X / WB) uc1) (tw nx (Y / WB) vc1)) as HRd by (rewrite HX, HY, bitop_div; done).
  eapply (IH (i + 1) (X / WB) (Y / WB)); try done; [by rewrite padd_succ|by rewrite padd_succ|lia|lia|]. rewrite <- HRd. intros uc' vc' Hu2 Hv2 HX2 HY2.
  rewrite HX in HX2. rewrite HY in HY2. rewrite <- !div_wpow_S in *. rewrite <- Z.add_assoc.
  replace (ones (R mod WB) + ones (R / WB mod wpow n)) with (ones (R mod wpow (S n))); [by apply HQ|].
  rewrite wpow_S, Z.rem_mul_r by (try apply wpow_pos; done). rewrite Z.add_comm, (Z.mul_comm WB). change WB with (2 ^ 64) at 2. rewrite ones_app; [lia|apply Z.mod_pos_bound, wpow_pos|lia|exact HwR].
Qed.

Lemma wp_hamdist_high nx n : ∀ i X uc c up m Q E,
  carry_ok nx uc → holds m (padd up i) (tlimbs X n) → 0 ≤ c → c + 64 * Z.of_nat n < WB →
  let R := Z.lxor (tw nx X uc) (- b2z nx) in
  Q (c + ones (R mod wpow n)) m → wp (hamdist_high n i up (u64 (- b2z nx)) uc c) Q E m.
Proof.
  induction n as [|n IH]; intros i X uc c up m Q E Hu Hhu Hc Hfit R HQ; cbn [hamdist_high].
  { apply wp_ret. by rewrite wpow_0, Z.mod_1_r, Z.add_0_r in HQ. }
  cbn [tlimbs] in Hhu. pose proof Hhu as [Hx Hhu']%holds_cons. apply wp_bind. eapply wp_load; [done|]. destruct (twos_limb_tw nx X uc Hu) as (uc1 & -> & Hu1 & HX).
  rewrite bitop_high. fold R. assert (word (R mod WB)) as HwR by (apply Z.mod_pos_bound; done). pose proof (ones_bound _ 64 ltac:(lia) HwR) as Hob.
  apply wp_bind. eapply wp_lift_ok; [by apply gmp_popcount_limb_ones|]. rewrite (u64_small (c + _)) by lia.
  assert (R / WB = Z.lxor (tw nx (X / WB) uc1) (- b2z nx)) as HRd by (rewrite HX; unfold R; rewrite <- bitop_div; by destruct nx).
  eapply (IH (i + 1) (X / WB)); try done; [by rewrite padd_succ|lia|lia|]. rewrite <- HRd, <- Z.add_assoc.
  replace (ones (R mod WB) + ones (R / WB mod wpow n)) with (ones (R mod wpow (S n))); [done|].
  rewrite wpow_S, Z.rem_mul_r by (try apply wpow_pos; done). rewrite Z.add_comm, (Z.mul_comm WB). change WB with (2 ^ 64) at 2. rewrite ones_app; [lia|apply Z.mod_pos_bound, wpow_pos|lia|exact HwR].
Qed.

(** The longer operand is the first one. *)
Lemma wp_hamdist_limbs s σ u x v y zu zv Q E :
  zok F s σ → σ !! u = Some (Some x) → σ !! v = Some (Some y) → z_vars s !! u = Some zu → z_vars s !! v = Some zv →
  (x <? 0) = (y <? 0) → nlimbs y ≤ nlimbs x → Q (ones (Z.lxor x y)) s →
  wp ('(uc, vc, c) ← limbs (hamdist_both (Z.to_nat (nlimbs y)) 0 (mp_d zu) (mp_d zv) (u64 (- b2z (x <? 0))) (b2z (x <? 0)) (b2z (x <? 0)) 0);
      _ ← zassert (vc =? 0);
      limbs (hamdist_high (Z.to_nat (nlimbs x - nlimbs y)) (nlimbs y) (mp_d zu) (u64 (- b2z (x <? 0))) uc c)) Q E s.
Proof.
  intros Hok Hu Hv Hzu Hzv Hsg Hle HQ. pose proof (nlimbs_nonneg y) as Hy0.
  destruct (zok_operand F s σ u x Hok Hu) as (zu' & la & Hzu' & Hwa & _ & Hha & Hva & Hla & _ & Hua & _). rewrite Hzu in Hzu'. injection Hzu' as <-.
  destruct (zok_operand F s σ v y Hok Hv) as (zv' & lb & Hzv' & Hwb & _ & Hhb & Hvb & Hlb & _ & _ & _). rewrite Hzv in Hzv'. injection Hzv' as <-. unfold INT_MAX in Hua.
  set (n := Z.to_nat (nlimbs y)). set (k := Z.to_nat (nlimbs x - nlimbs y)). assert (length la = (n + k)%nat) as Hj by lia. assert (length lb = n) as Hn by lia.
  rewrite <- (tlimbs_val la Hwa), Hva, Hj, tlimbs_app in Hha. apply holds_app in Hha as [Hha1 Hha2]. rewrite length_tlimbs in Hha2.
  rewrite <- (tlimbs_val lb Hwb), Hvb, Hn in Hhb. apply wp_bind, wp_zoom.
  eapply (wp_hamdist_both (x <? 0) n 0 (Z.abs x) (Z.abs y)); try (apply carry_start); try (by rewrite padd_0); [lia|unfold WB; lia|].
  assert (tw (x <? 0) (Z.abs y) (b2z (x <? 0)) = y) as HYy by (rewrite Hsg; apply tw_abs). rewrite tw_abs, HYy. intros uc vc Hcu Hcv HX HY. rewrite zmem_id.
  assert (Z.abs y < wpow n) as Hyn by (rewrite <- Hvb, <- Hn; by apply val_bound). assert (Z.abs x < wpow (n + k)) as Hxn by (rewrite <- Hva, <- Hj; by apply val_bound).
  assert (vc = 0) as ->.
  { rewrite (sign_limbs y n Hyn), (Z.div_small (Z.abs y)), <- Hsg in HY by lia. destruct Hcv as [|[Hneg ->]]; [done|]. by rewrite Hneg in HY. }
  apply wp_bind, wp_zassert; [done|]. apply wp_zoom. replace (nlimbs y) with (Z.of_nat n) by lia.
  pose proof (ones_bound (Z.lxor x y mod wpow n) (64 * Z.of_nat n) ltac:(lia)) as Hob. assert (wpow n = 2 ^ (64 * Z.of_nat n)) as Hwn by (unfold wpow; change WB with (2 ^ 64); by rewrite <- Z.pow_mul_r by lia).
  rewrite <- Hwn in Hob. specialize (Hob ltac:(apply Z.mod_pos_bound, wpow_pos)).
  eapply (wp_hamdist_high (x <? 0) k (Z.of_nat n) (Z.abs x / wpow n) uc); try done; [lia|unfold WB; lia|]. rewrite zmem_id, HX. rewrite Hsg, <- (sign_limbs y n Hyn), bitop_wpow.
  replace (0 + ones (Z.lxor x y mod wpow n) + ones (Z.lxor x y / wpow n mod wpow k)) with (ones (Z.lxor x y)); [done|].
  assert (Z.lxor x y / wpow (n + k) = 0) as H0.
  { rewrite (bitop_range x y (n + k) Hxn) by (rewrite wpow_add; pose proof (wpow_pos k); nia). rewrite bitop_sign, Hsg. by destruct (y <? 0). }
  pose proof (wpow_pos n). pose proof (wpow_pos k). apply Z.div_small_iff in H0; [|pose proof (wpow_pos (n + k)); lia]. rewrite <- (Z.mod_small (Z.lxor x y) (wpow (n + k))) at 1 by (pose proof (wpow_pos (n + k)); lia).
  rewrite wpow_add, Z.rem_mul_r by lia. rewrite Z.add_comm, (Z.mul_comm (wpow n)), Hwn, ones_app; [lia|apply Z.mod_pos_bound; lia|lia|apply Z.mod_pos_bound; lia].
Qed.

Lemma wp_mpz_hamdist s σ u x v y Q E :
  zok F s σ → σ !! u = Some (Some x) → σ !! v = Some (Some y) →
  Q (if xorb (x <? 0) (y <? 0) then GMP_LIMB_MAX else ones (Z.lxor x y)) s → wp (mpz_hamdist u v) Q E s.
Proof.
  intros Hok Hu Hv HQ. destruct (zok_operand F s σ u x Hok Hu) as (zu & _ & Hzu & _ & _ & _ & _ & _ & Hsu & _).
  destruct (zok_operand F s σ v y Hok Hv) as (zv & _ & Hzv & _ & _ & _ & _ & _ & Hsv & _).
  unfold mpz_hamdist. do 2 (apply wp_bind; eapply wp_get_mpz; [done|]). cbv zeta. rewrite Hsu, Hsv, bitop_sign, !size_neg.
  destruct (xorb (x <? 0) (y <? 0)) eqn:Hsg; [by apply wp_ret|]. apply xorb_eq in Hsg.
  assert ((if x <? 0 then zassert (y <? 0) else mret tt) = (mret tt : MZ unit)) as -> by (by rewrite <- Hsg; destruct (x <? 0)). apply wp_bind, wp_ret.
  assert ((if x <? 0 then (- (Z.sgn x * nlimbs x), - (Z.sgn y * nlimbs y)) else (Z.sgn x * nlimbs x, Z.sgn y * nlimbs y)) = (nlimbs x, nlimbs y)) as ->.
  { pose proof (size_abs x). pose proof (size_abs y). destruct (Z.ltb_spec x 0), (Z.ltb_spec y 0); try done; f_equal; nia. }
  destruct (Z.ltb_spec (nlimbs x) (nlimbs y)).
  - rewrite Hsg. eapply (wp_hamdist_limbs s σ v y u x); try done; [lia|]. by rewrite Z.lxor_comm.
  - by eapply (wp_hamdist_limbs s σ u x v y).
Qed.
End counts.
