(* ===== verification/MpzScan.v ===== *)
(** * Bit scans of integers: correctness

    [mpz_scan1] and [mpz_scan0] look for the first set or clear bit of an integer of any
    sign in two's complement, working on the limbs of its absolute value. *)

From S2P Require Import Prelude CString Queue State UInt64 Mpn MpnMem MpnThm MpnBits MpnDiv MpnInv MpnDivThm MpnDivPi1 MpnCorrect MpnDivQr MpnStr MpnStrThm MpnSetStr Mpz MpzRep MpzArith MpzMul MpzDiv MpzConv MpzQuo MpzQuoThm MpzBits MpzNum MpzNumThm MpzPow MpzBitsThm MpzBitThm.

(** What a scan for a set bit of [X] from [b] on returns *)
Definition scan_result (X b r : Z) : Prop := if X / 2 ^ b =? 0 then r = GMP_LIMB_MAX else first_bit X true b r.

(** ** First bits *)

Lemma first_bit_low limb R c q : 0 ≤ c < 64 → limb = (2 * q + 1) * 2 ^ c → first_bit (limb + WB * R) true 0 c.
Proof.
  intros Hc ->. assert ((2 * q + 1) * 2 ^ c + WB * R = (2 * (q + R * 2 ^ (63 - c)) + 1) * 2 ^ c) as ->.
  { assert (WB = 2 * 2 ^ (63 - c) * 2 ^ c) as ->; [|ring]. rewrite <- Z.pow_succ_r, <- Z.pow_add_r by lia. change WB with (2 ^ 64). f_equal. lia. }
  split; [lia|]. split; [rewrite Z.mul_pow2_bits by lia; by rewrite Z.sub_diag, Z.testbit_odd_0|]. intros j Hj. apply Z.mul_pow2_bits_low. lia.
Qed.

Lemma first_bit_up R k : first_bit R true 0 k → first_bit (WB * R) true 0 (64 + k).
Proof.
  intros (Hk & Ht & Hlow). rewrite Z.mul_comm. change WB with (2 ^ 64). split; [lia|]. split; [rewrite Z.mul_pow2_bits by lia; by replace (64 + k - 64) with k by lia|].
  intros j Hj. destruct (Z.lt_ge_cases j 64); [by apply Z.mul_pow2_bits_low|]. rewrite Z.mul_pow2_bits by lia. apply Hlow. lia.
Qed.

(** A number and its opposite have their first set bit at the same place. *)
Lemma first_bit_opp X k : first_bit X true 0 k → first_bit (- X) true 0 k.
Proof.
  intros (Hk & Ht & Hlow). assert (∀ j, 0 ≤ j ≤ k → X mod 2 ^ j = 0) as Hz.
  { intros j Hj. apply Z.bits_inj'. intros i Hi. rewrite Z.bits_0. destruct (Z.lt_ge_cases i j); [rewrite Z.mod_pow2_bits_low by done; apply Hlow; lia|apply Z.mod_pow2_bits_high; lia]. }
  split; [done|]. split; [|intros j Hj]; rewrite neg_testbit, Hz by lia; cbn; [done|by apply Hlow].
Qed.

(** The bits from [b = 64 i + s] on, moved to a number that starts with limb [i] *)
Lemma first_bit_from X i s k : 0 ≤ i → 0 ≤ s < 64 → first_bit (X / 2 ^ (64 * i + s) * 2 ^ s) true 0 k → first_bit X true (64 * i + s) (64 * i + k).
Proof.
  intros Hi Hs (Hk & Ht & Hlow). assert (∀ j, s ≤ j → Z.testbit (X / 2 ^ (64 * i + s) * 2 ^ s) j = Z.testbit X (64 * i + j)) as Hb.
  { intros j Hj. rewrite Z.mul_pow2_bits, Z.div_pow2_bits by lia. f_equal. lia. }
  assert (s ≤ k) as Hsk by (destruct (Z.le_gt_cases s k); [done|]; rewrite Z.mul_pow2_bits_low in Ht by done; done).
  split; [lia|]. split; [by rewrite <- Hb|]. intros j Hj. specialize (Hlow (j - 64 * i) ltac:(lia)). rewrite Hb in Hlow by lia. by replace (64 * i + (j - 64 * i)) with j in Hlow by lia.
Qed.

Definition scan_found (N i r : Z) : Prop := if N =? 0 then r = GMP_LIMB_MAX else ∃ k, r = 64 * i + k ∧ first_bit N true 0 k.

Lemma scan_result_from X i s r : 0 ≤ i → 0 ≤ s < 64 → scan_found (X / 2 ^ (64 * i + s) * 2 ^ s) i r → scan_result X (64 * i + s) r.
Proof.
  intros Hi Hs Hf. unfold scan_found, scan_result in *. pose proof (Z.pow_pos_nonneg 2 s ltac:(lia) ltac:(lia)). destruct (Z.eqb_spec (X / 2 ^ (64 * i + s)) 0) as [E|Hne]; [by rewrite E in Hf|].
  rewrite (proj2 (Z.eqb_neq _ 0)) in Hf by nia. destruct Hf as (k & -> & Hk). by apply first_bit_from.
Qed.

(** ** The loop *)

(** [limb] is the limb at [i], [hi] are those above; the number that is scanned is [hi] or
    its complement, with [limb] below. *)
Lemma wp_scan_number neg hi : ∀ fuel limb i up un m Q E,
  words hi → word limb → 0 ≤ i → un = i + 1 + Z.of_nat (length hi) → 64 * un + 64 < WB → (length hi < fuel)%nat → holds m (padd up (i + 1)) hi →
  (∀ r, scan_found (limb + WB * tw neg (val hi) 0) i r → Q r m) →
  wp (scan_loop fuel limb i up un (u64 (- b2z neg))) Q E m.
Proof.
  induction hi as [|h hi IH]; intros fuel limb i up un m Q E Hw Hwl Hi Hun Hfit Hf Hh HQ; (destruct fuel as [|fuel]; [lia|]); cbn [scan_loop].
  all: destruct (Z.eqb_spec limb 0) as [->|Hne].
  all: try (destruct (gmp_ctz_ok limb ltac:(unfold word in *; lia)) as (c & q & Hc & Hcb & Hq & El); apply wp_bind; eapply wp_lift_ok; [exact Hc|]; apply wp_ret; unfold GMP_LIMB_BITS;
    cbn [length] in *; rewrite (u64_small (i * 64)) by lia; rewrite u64_small by lia; apply HQ; unfold scan_found;
    match goal with |- if ?N + WB * ?R =? 0 then _ else _ => assert (first_bit (N + WB * R) true 0 c) as Hfb by (by eapply first_bit_low); rewrite (proj2 (Z.eqb_neq (N + WB * R) 0)) end;
    [exists c; split; [lia|done]|]; intros E0; rewrite E0 in Hfb; destruct Hfb as (_ & Hfb & _); by rewrite Z.bits_0 in Hfb).
  - cbn [length] in Hun. rewrite (proj2 (Z.eqb_eq (i + 1) un)) by lia. apply wp_ret, HQ. unfold scan_found. cbn [val tw]. rewrite Z.add_0_l. destruct neg; [|done].
    change (u64 (- b2z true) =? 0) with false. cbn [tw]. change (Z.lnot 0 + 0) with (-1). change (WB * -1 =? 0) with false. exists 64. unfold GMP_LIMB_BITS. rewrite u64_small by lia. split; [lia|]. apply (first_bit_up (-1) 0). split; [lia|]. split; [done|lia].
  - cbn [length] in *. rewrite (proj2 (Z.eqb_neq (i + 1) un)) by lia. apply Forall_cons in Hw as [Hwh Hw]. apply holds_cons in Hh as [Hc Hh]. apply wp_bind. eapply wp_load; [done|].
    destruct (twos_limb_tw neg (val (h :: hi)) 0) as (c' & Ht & Hc' & Hd); [by left|]. cbn [val] in Ht, Hd.
    assert ((h + WB * val hi) mod WB = h) as Em by (rewrite Z.mul_comm, Z.mod_add by done; by apply Z.mod_small). assert ((h + WB * val hi) / WB = val hi) as Ed by (rewrite Z.mul_comm, Z.div_add by done; by rewrite Z.div_small by done).
    rewrite Em in Ht. rewrite Ed in Hd. unfold twos_limb in Ht. injection Ht as Hl Hcc. rewrite Z.add_0_r in Hl. assert (word (Z.lxor h (u64 (- b2z neg)))) as Hwx by (destruct neg; [apply (mask_word false) in Hwh; by rewrite Z.lxor_comm|by rewrite Z.lxor_0_r]).
    rewrite u64_small in Hl by done. rewrite (proj2 (Z.ltb_ge _ 0)) in Hcc by (pose proof (u64_word (Z.lxor h (u64 (- b2z neg)) + 0)); lia). cbn [b2z] in Hcc. subst c'.
    rewrite Z.lxor_comm. apply (IH fuel _ (i + 1)); try done; try lia; [by rewrite padd_succ|]. intros r Hr. apply HQ. unfold scan_found in *. cbn [val]. rewrite Z.add_0_l. rewrite Hl, Hd in Hr.
    set (T := tw neg (h + WB * val hi) 0) in *. pose proof (Z.div_mod T WB ltac:(done)) as HT. replace (T mod WB + WB * (T / WB)) with T in Hr by lia.
    assert ((WB * T =? 0) = (T =? 0)) as -> by (destruct (Z.eqb_spec T 0) as [->|]; [done|]; apply Z.eqb_neq; unfold WB; lia).
    destruct (T =? 0); [done|]. destruct Hr as (k & -> & Hk). exists (64 + k). split; [lia|]. by apply first_bit_up.
Qed.

(** ** From a position on *)

Lemma mask_limb w s : word w → 0 ≤ s < 64 → Z.land w (u64 (Z.shiftl GMP_LIMB_MAX s)) = w / 2 ^ s * 2 ^ s.
Proof.
  intros Hw Hs. apply Z.bits_inj'. intros j Hj. rewrite Z.land_spec. unfold u64. change WB with (2 ^ 64). change GMP_LIMB_MAX with (Z.ones 64).
  destruct (Z.lt_ge_cases j 64) as [Hlt|Hge].
  - rewrite Z.mod_pow2_bits_low, Z.shiftl_spec by lia. destruct (Z.lt_ge_cases j s).
    + rewrite (Z.testbit_neg_r _ (j - s)), andb_false_r by lia. by rewrite Z.mul_pow2_bits_low.
    + rewrite Z.ones_spec_low, andb_true_r by lia. rewrite Z.mul_pow2_bits, Z.div_pow2_bits by lia. f_equal. lia.
  - rewrite Z.mod_pow2_bits_high, andb_false_r by lia. rewrite Z.mul_pow2_bits, Z.div_pow2_bits by lia. replace (j - s + s) with j by lia.
    rewrite <- (Z.mod_small w (2 ^ 64)) by exact Hw. by rewrite Z.mod_pow2_bits_high by lia.
Qed.

Lemma scan_start X i s : 0 ≤ s < 64 →
  Z.land (X / wpow i mod WB) (u64 (Z.shiftl GMP_LIMB_MAX s)) + WB * (X / wpow (S i)) = X / 2 ^ (64 * Z.of_nat i + s) * 2 ^ s.
Proof.
  intros Hs. rewrite mask_limb by (done || by apply Z.mod_pos_bound). rewrite Z.pow_add_r by lia. assert (2 ^ (64 * Z.of_nat i) = wpow i) as -> by (unfold wpow; change WB with (2 ^ 64); by rewrite <- Z.pow_mul_r by lia).
  pose proof (wpow_pos i). pose proof (Z.pow_pos_nonneg 2 s ltac:(lia) ltac:(lia)) as Hp. rewrite <- Z.div_div, wpow_S, (Z.mul_comm WB (wpow i)), <- Z.div_div by (unfold WB; lia). set (V := X / wpow i).
  assert (WB = 2 ^ (64 - s) * 2 ^ s) as HW by (rewrite <- Z.pow_add_r by lia; change WB with (2 ^ 64); f_equal; lia).
  assert (V = V mod WB + V / WB * 2 ^ (64 - s) * 2 ^ s) as HV by (rewrite <- Z.mul_assoc, <- HW; pose proof (Z.div_mod V WB ltac:(done)); lia).
  assert (V / 2 ^ s = V mod WB / 2 ^ s + V / WB * 2 ^ (64 - s)) as ->.
  { transitivity ((V mod WB + V / WB * 2 ^ (64 - s) * 2 ^ s) / 2 ^ s); [by rewrite <- HV|]. by rewrite Z.div_add by lia. }
  rewrite Z.mul_add_distr_r, <- Z.mul_assoc, <- HW. lia.
Qed.

Lemma scan_found_opp N i r : scan_found N i r → scan_found (- N) i r.
Proof.
  unfold scan_found. destruct (Z.eqb_spec N 0) as [->|Hne]; [done|]. rewrite (proj2 (Z.eqb_neq (- N) 0)) by lia. intros (k & -> & Hk). exists k. split; [done|]. by apply first_bit_opp.
Qed.

Lemma first_bit_unique X from j k : first_bit X true from j → first_bit X true from k → j = k.
Proof.
  intros (Hj & Tj & Lj) (Hk & Tk & Lk). destruct (Z.lt_trichotomy j k) as [H|[H|H]]; [|done|].
  - rewrite Lk in Tj by lia. done.
  - rewrite Lj in Tk by lia. done.
Qed.

(** When the first limb has a bit, the others do not matter. *)
Lemma scan_found_low M R R' i r : word M → M ≠ 0 → scan_found (M + WB * R) i r → scan_found (M + WB * R') i r.
Proof.
  intros Hw Hne Hf. destruct (gmp_ctz_ok M ltac:(unfold word in *; lia)) as (c & q & _ & Hc & _ & HM).
  assert (∀ R, first_bit (M + WB * R) true 0 c ∧ M + WB * R ≠ 0) as Hb.
  { intros R0. pose proof (first_bit_low M R0 c q Hc HM) as Hb. split; [done|]. intros E0. rewrite E0 in Hb. destruct Hb as (_ & Hb & _). by rewrite Z.bits_0 in Hb. }
  unfold scan_found in *. rewrite (proj2 (Z.eqb_neq _ 0)) in Hf by apply Hb. rewrite (proj2 (Z.eqb_neq _ 0)) by apply Hb. destruct Hf as (k & -> & Hk). exists c. split; [|apply Hb].
  f_equal. eapply first_bit_unique; [exact Hk|apply Hb].
Qed.


Lemma scan_result_none X b : X / 2 ^ b = 0 → scan_result X b GMP_LIMB_MAX.
Proof. intros E. unfold scan_result. by rewrite E. Qed.
Lemma scan_result_here X b : 0 ≤ b → X / 2 ^ b = -1 → scan_result X b b.
Proof.
  intros Hb E. unfold scan_result. rewrite E. split; [lia|]. split; [|lia]. rewrite <- (Z.add_0_l b), <- Z.shiftr_spec, Z.shiftr_div_pow2 by lia. by rewrite E.
Qed.

Section scan.
Context (F : mem).
Implicit Types (s : zstate) (σ : gmap positive (option Z)).

(** The limb of [b], what is below it and above it *)
Lemma wp_common_scan neg lo w hi b fuel limb p m Q E :
  words (lo ++ w :: hi) → holds m p (lo ++ w :: hi) → word limb → Z.of_nat (length lo) = b / 64 → 64 * Z.of_nat (length (lo ++ w :: hi)) + 64 < WB → (length hi < fuel)%nat →
  (∀ r, scan_found (limb + WB * tw neg (val hi) 0) (b / 64) r → Q r m) →
  wp (mpn_common_scan fuel limb (b / 64) p (Z.of_nat (length (lo ++ w :: hi))) (u64 (- b2z neg))) Q E m.
Proof.
  intros Hw Hh Hwl Hlo Hfit Hf HQ. apply Forall_app in Hw as [_ [_ Hw]%Forall_cons]. apply holds_app in Hh as [_ [_ Hh]%holds_cons]. rewrite length_app in *. cbn [length] in *.
  unfold mpn_common_scan. apply wp_bind, wp_massert; [by destruct neg|]. apply wp_bind, wp_massert; [apply andb_true_iff; split; apply Z.leb_le; lia|].
  apply (wp_scan_number neg hi); try done; try lia. by rewrite <- Hlo, padd_succ.
Qed.

(** The limbs of [x] around the bit [b], and the numbers above its limb *)
Lemma scan_split x b l : words l → val l = Z.abs x → 0 ≤ b → b / 64 < Z.of_nat (length l) →
  ∃ lo w hi, l = lo ++ w :: hi ∧ Z.of_nat (length lo) = b / 64 ∧ word w ∧ words lo ∧ words hi ∧
    Z.abs x = val lo + wpow (length lo) * (w + WB * val hi) ∧ b = 64 * Z.of_nat (length lo) + b mod 64.
Proof.
  intros Hw Hv Hb Hl. destruct (bit_limb l x b Hw Hv Hb Hl) as (lo & w & hi & -> & Hlo & _). exists lo, w, hi. apply Forall_app in Hw as [Hwl [Hww Hwh]%Forall_cons].
  split_and!; try done; [rewrite <- Hv, val_app; done|]. rewrite Hlo. pose proof (Z.div_mod b 64). lia.
Qed.

(** Division of the complement and of the opposite *)
Lemma lnot_div V n : 0 < n → Z.lnot V / n = Z.lnot (V / n).
Proof. intros Hn. unfold Z.lnot. symmetry. apply (Z.div_unique _ _ _ (n - 1 - V mod n)); pose proof (Z.div_mod V n ltac:(lia)); pose proof (Z.mod_pos_bound V n Hn); lia. Qed.
Lemma opp_div_app a V n : 0 < n → 0 ≤ a < n → - (a + n * V) / n = tw true V (b2z (a =? 0)).
Proof.
  intros Hn Ha. unfold tw, Z.lnot. symmetry. destruct (Z.eqb_spec a 0) as [->|Hne]; cbn [b2z].
  - apply (Z.div_unique _ _ _ 0); lia.
  - apply (Z.div_unique _ _ _ (n - a)); lia.
Qed.
Lemma app_div a V n : 0 < n → 0 ≤ a < n → (a + n * V) / n = V.
Proof. intros Hn Ha. symmetry. apply (Z.div_unique _ _ _ a); lia. Qed.

Lemma scan_beyond x b : 0 ≤ b → nlimbs x ≤ b / 64 → x / 2 ^ b = - b2z (x <? 0).
Proof.
  intros Hb Hn. assert (Z.abs x < 2 ^ b) as Hlt.
  { rewrite pow2_split by done. pose proof (abs_limbs x (b / 64) Hn). pose proof (Z.mod_pos_bound b 64 ltac:(lia)). pose proof (Z.pow_pos_nonneg 2 (b mod 64) ltac:(lia) ltac:(lia)). pose proof (wpow_pos (Z.to_nat (b / 64))). nia. }
  destruct (Z.ltb_spec x 0); cbn [b2z]; [symmetry; apply Z.div_unique with (x + 2 ^ b); lia|by apply Z.div_small; lia].
Qed.

(** The bit that is found from the masked limb on is the first one from [b] on. *)
Lemma scan_result_limb X b i r : 0 ≤ b → Z.of_nat i = b / 64 →
  scan_found (Z.land (X / wpow i mod WB) (u64 (Z.shiftl GMP_LIMB_MAX (b mod 64))) + WB * (X / wpow (S i))) (b / 64) r → scan_result X b r.
Proof.
  intros Hb Hi Hf. assert (0 ≤ b mod 64 < 64) as Hs by (apply Z.mod_pos_bound; lia). rewrite scan_start, <- Hi in Hf by done.
  assert (b = 64 * Z.of_nat i + b mod 64) as Eb by (rewrite Hi; pose proof (Z.div_mod b 64); lia). rewrite Eb at 1. apply scan_result_from; [lia|done|exact Hf].
Qed.

(** The limb above limb [i] of a number whose limbs from [i] on are known *)
Lemma div_limb X i w R : word w → X / wpow i = w + WB * R → X / wpow i mod WB = w ∧ X / wpow (S i) = R.
Proof.
  intros Hw E. pose proof (wpow_pos i). rewrite wpow_S, (Z.mul_comm WB), <- Z.div_div, E by (done || lia).
  rewrite (Z.mul_comm WB), Z.mod_add, Z.div_add by done. by rewrite Z.mod_small, Z.div_small by exact Hw.
Qed.

(** The common scan, on the limbs of an integer *)
Lemma wp_limbs_scan s neg lo w hi b limb p K Q E :
  words (lo ++ w :: hi) → holds (z_mem s) p (lo ++ w :: hi) → word limb → Z.of_nat (length lo) = b / 64 → Z.of_nat (length (lo ++ w :: hi)) ≤ INT_MAX →
  (∀ r, scan_found (limb + WB * tw neg (val hi) 0) (b / 64) r → Q r s) → K = u64 (- b2z neg) →
  wp (limbs (mpn_common_scan (Z.to_nat (Z.of_nat (length (lo ++ w :: hi)))) limb (b / 64) p (Z.of_nat (length (lo ++ w :: hi))) K)) Q E s.
Proof.
  intros Hw Hh Hwm Hlo Hle Hf ->. unfold INT_MAX in Hle. apply wp_zoom. apply (wp_common_scan neg); try done; [unfold WB; lia|rewrite Nat2Z.id, length_app; cbn; lia|].
  intros r Hr. rewrite zmem_id. by apply Hf.
Qed.

Lemma mask_limb_word w k : word w → word (Z.land w (u64 (Z.shiftl GMP_LIMB_MAX k))).
Proof. intros Hw. apply land_word; [unfold word in Hw; lia|apply u64_word]. Qed.

Lemma wp_mpz_scan1 s σ u x b Q E :
  zok F s σ → σ !! u = Some (Some x) → 0 ≤ b → (∀ r, scan_result x b r → Q r s) → wp (mpz_scan1 u b) Q E s.
Proof.
  intros Hok Hu Hb HQ. destruct (zok_operand F s σ u x Hok Hu) as (z & l & Hz & Hw & Hn & Hh & Hv & Hl & Hsz & Hal & _).
  unfold mpz_scan1. apply wp_bind. eapply wp_get_mpz; [done|]. cbv zeta. rewrite Hsz, size_abs, size_neg. unfold GMP_LIMB_BITS.
  assert ((0 <=? Z.sgn x * nlimbs x) = negb (x <? 0)) as -> by (rewrite <- size_neg; by rewrite Z.leb_antisym).
  destruct (Z.leb_spec (nlimbs x) (b / 64)) as [Hle|Hgt].
  { apply wp_ret. pose proof (scan_beyond x b Hb Hle) as Hx. destruct (x <? 0); apply HQ; [by apply scan_result_here|by apply scan_result_none]. }
  destruct (scan_split x b l Hw Hv Hb) as (lo & w & hi & -> & Hlo & Hww & Hwl & Hwh & Hx & Hbs); [lia|]. set (i := length lo) in *.
  pose proof (wpow_pos i) as Hwp. pose proof (val_bound lo Hwl) as Hvl. fold i in Hvl. assert (Z.of_nat (length (lo ++ w :: hi)) ≤ INT_MAX) as Hlen by lia.
  pose proof Hh as [Hhl [Hhw _]%holds_cons]%holds_app. fold i in Hhw. rewrite Hlo in Hhw. apply wp_bind, wp_zoom. eapply wp_load; [exact Hhw|]. rewrite zmem_id, <- Hl.
  pose proof (λ r, scan_result_limb x b i r Hb Hlo) as Hres. pose proof (λ neg limb, wp_limbs_scan s neg lo w hi b limb (mp_d z)) as Hgo.
  destruct (Z.eqb_spec b 0) as [->|Hb0]; cbn [negb].
  { apply wp_bind, wp_ret. eapply (Hgo false); try done. intros r Hr. apply HQ. destruct lo; [|done]. cbn [length] in i. subst i. rewrite wpow_0, Z.mul_1_l, Z.add_0_l in Hx. cbn [tw] in Hr.
    apply (scan_result_from x 0 0); [lia..|]. change (2 ^ (64 * 0 + 0)) with 1. change (2 ^ 0) with 1. rewrite Z.div_1_r, Z.mul_1_r. destruct (Z.ltb_spec x 0); [|by rewrite Z.abs_eq in Hx by lia; rewrite <- Hx in Hr].
    apply scan_found_opp in Hr. by replace (- (w + WB * val hi)) with x in Hr by lia. }
  apply wp_bind. destruct (Z.ltb_spec x 0) as [Hneg|Hpos].
  - apply wp_bind, wp_bind, wp_zoom. rewrite <- Hlo. apply wp_mpn_zero_p; [done|done|]. rewrite zmem_id. apply wp_ret. cbv beta iota.
    destruct (twos_limb_tw true (w + WB * val hi) (b2z (val lo =? 0))) as (c' & Ht & Hc' & Hd); [destruct (val lo =? 0); [by right|by left]|].
    rewrite <- (opp_div_app (val lo) (w + WB * val hi) (wpow i)) in Ht, Hd by done. rewrite <- Hx in Ht, Hd. replace (- Z.abs x) with x in Ht, Hd by lia.
    rewrite (Z.mul_comm WB), Z.mod_add, (Z.mod_small w) in Ht by done. rewrite (Z.mul_comm WB), Z.div_add, (Z.div_small w), Z.add_0_l in Hd by done. unfold twos_limb in Ht. change (u64 (- b2z true)) with GMP_LIMB_MAX in Ht.
    rewrite Z.lxor_comm, mask_lxor_not in Ht by done. injection Ht as Hlimb Hcc. rewrite Hlimb in *. apply wp_ret. rewrite Hlo.
    assert (word (x / wpow i mod WB)) as Hwm by (apply Z.mod_pos_bound; done). rewrite Z.div_div, (Z.mul_comm (wpow i)), <- wpow_S in Hd by (done || lia). rewrite <- Hd in Hres.
    destruct (Z.ltb_spec (x / wpow i mod WB) (b2z (val lo =? 0))) as [Hcar|Hnc]; cbn [b2z] in Hcc; subst c'.
    + assert (x / wpow i mod WB = 0) as E0 by (unfold word in Hwm; destruct (val lo =? 0); cbn [b2z] in Hcar; lia). rewrite E0 in *. rewrite (proj2 (Z.leb_gt _ 0)) by lia.
      eapply (Hgo false); try done. intros r Hr. apply HQ, Hres. rewrite Z.land_0_l, Z.add_0_l in *. apply scan_found_opp in Hr.
      replace (WB * tw true (val hi) 1) with (- (WB * tw false (val hi) 0)); [done|]. unfold tw, Z.lnot. lia.
    + rewrite (proj2 (Z.leb_le _ _)) by done. eapply (Hgo true); try done; [by apply mask_limb_word|]. intros r Hr. by apply HQ, Hres.
  - apply wp_bind, wp_ret, wp_ret. rewrite Z.abs_eq in Hx by done. destruct (div_limb x i w (val hi)) as [Hm Hr1]; [done|rewrite Hx; by apply app_div|].
    rewrite Hm, Hr1 in Hres. eapply (Hgo false); try done; [by apply mask_limb_word|]. intros r Hr. by apply HQ, Hres.
Qed.

(** The number below a negative one's absolute value, from limb [i] on *)
Lemma pred_div a V n : 0 < n → 0 ≤ a < n → (a + n * V - 1) / n = V - b2z (a =? 0).
Proof.
  intros Hn Ha. symmetry. destruct (Z.eqb_spec a 0) as [->|Hne]; cbn [b2z].
  - apply (Z.div_unique _ _ _ (n - 1)); lia.
  - apply (Z.div_unique _ _ _ (a - 1)); lia.
Qed.

Lemma wp_mpz_scan0 s σ u x b Q E :
  zok F s σ → σ !! u = Some (Some x) → 0 ≤ b → (∀ r, scan_result (Z.lnot x) b r → Q r s) → wp (mpz_scan0 u b) Q E s.
Proof.
  intros Hok Hu Hb HQ. destruct (zok_operand F s σ u x Hok Hu) as (z & l & Hz & Hw & Hn & Hh & Hv & Hl & Hsz & Hal & _).
  unfold mpz_scan0. apply wp_bind. eapply wp_get_mpz; [done|]. cbv zeta. rewrite Hsz, size_abs. unfold GMP_LIMB_BITS.
  assert ((0 <=? Z.sgn x * nlimbs x) = negb (x <? 0)) as -> by (rewrite <- size_neg; by rewrite Z.leb_antisym).
  destruct (Z.leb_spec (nlimbs x) (b / 64)) as [Hle|Hgt].
  { apply wp_ret. pose proof (scan_beyond x b Hb Hle) as Hx. pose proof (lnot_div x (2 ^ b) ltac:(lia)) as Hd. rewrite Hx in Hd. destruct (x <? 0); apply HQ; [by apply scan_result_none|by apply scan_result_here]. }
  destruct (scan_split x b l Hw Hv Hb) as (lo & w & hi & -> & Hlo & Hww & Hwl & Hwh & Hx & Hbs); [lia|]. set (i := length lo) in *.
  pose proof (wpow_pos i) as Hwp. pose proof (val_bound lo Hwl) as Hvl. fold i in Hvl. assert (Z.of_nat (length (lo ++ w :: hi)) ≤ INT_MAX) as Hlen by lia.
  pose proof Hh as [Hhl [Hhw _]%holds_cons]%holds_app. fold i in Hhw. rewrite Hlo in Hhw. apply wp_bind, wp_zoom. eapply wp_load; [exact Hhw|]. rewrite zmem_id, <- Hl.
  pose proof (λ r, scan_result_limb (Z.lnot x) b i r Hb Hlo) as Hres. pose proof (λ neg limb, wp_limbs_scan s neg lo w hi b limb (mp_d z)) as Hgo.
  destruct (Z.ltb_spec x 0) as [Hneg|Hpos]; cbn [negb b2z].
  - change (u64 (- 0)) with 0. change (0 =? 0) with true. cbv iota. rewrite Z.lxor_0_r. apply wp_bind, wp_bind, wp_zoom. rewrite <- Hlo. apply wp_mpn_zero_p; [done|done|]. rewrite zmem_id. apply wp_ret. rewrite Hlo.
    assert (Z.lnot x / wpow i = w + WB * val hi - b2z (val lo =? 0)) as HX by (replace (Z.lnot x) with (Z.abs x - 1) by (unfold Z.lnot; lia); rewrite Hx; by apply pred_div).
    destruct (Z.ltb_spec w (b2z (val lo =? 0))) as [Hbor|Hnb].
    + assert (w = 0 ∧ b2z (val lo =? 0) = 1) as [-> Ez] by (unfold word in Hww; destruct (val lo =? 0); cbn [b2z] in *; lia). rewrite Ez in *. change (u64 (0 - 1)) with GMP_LIMB_MAX.
      destruct (div_limb (Z.lnot x) i GMP_LIMB_MAX (val hi - 1)) as [Hm Hr1]; [done|rewrite HX; unfold GMP_LIMB_MAX, WB; lia|]. rewrite Hm, Hr1 in Hres.
      eapply (Hgo false); try done; [by apply mask_limb_word|]. intros r Hr. apply HQ, Hres. eapply scan_found_low; [by apply mask_limb_word| |exact Hr].
      rewrite mask_limb by (done || (apply Z.mod_pos_bound; lia)). pose proof (Z.mod_pos_bound b 64 ltac:(lia)). pose proof (Z.pow_le_mono_r 2 (b mod 64) 63 ltac:(lia) ltac:(lia)).
      assert (0 < GMP_LIMB_MAX / 2 ^ (b mod 64)) by (apply Z.div_str_pos; split; [apply Z.pow_pos_nonneg; lia|]; unfold GMP_LIMB_MAX, WB; lia). pose proof (Z.pow_pos_nonneg 2 (b mod 64) ltac:(lia) ltac:(lia)). nia.
    + rewrite u64_small by (unfold word in Hww; destruct (val lo =? 0); cbn [b2z] in *; lia).
      destruct (div_limb (Z.lnot x) i (w - b2z (val lo =? 0)) (val hi)) as [Hm Hr1]; [unfold word in *; destruct (val lo =? 0); cbn [b2z] in *; lia|rewrite HX; lia|]. rewrite Hm, Hr1 in Hres.
      eapply (Hgo false); try done; [apply mask_limb_word; unfold word in *; destruct (val lo =? 0); cbn [b2z] in *; lia|]. intros r Hr. by apply HQ, Hres.
  - change (u64 (- 1)) with GMP_LIMB_MAX. change (GMP_LIMB_MAX =? 0) with false. cbv iota. apply wp_bind, wp_ret. rewrite Z.lxor_comm, mask_lxor_not by done. rewrite Z.abs_eq in Hx by done.
    assert (word (limb_not w)) as Hwn by (unfold word, limb_not, GMP_LIMB_MAX, WB in *; lia).
    destruct (div_limb (Z.lnot x) i (limb_not w) (Z.lnot (val hi))) as [Hm Hr1]; [done|rewrite lnot_div, Hx, app_div by done; unfold Z.lnot, limb_not, GMP_LIMB_MAX, WB; lia|]. rewrite Hm, Hr1 in Hres.
    eapply (Hgo true); try done; [by apply mask_limb_word|]. intros r Hr. apply HQ, Hres. cbn [tw] in Hr. by rewrite Z.add_0_r in Hr.
Qed.
End scan.
