(* ===== verification/MpzStrThm.v ===== *)
(** * Integers and strings: correctness *)

From S2P Require Import Prelude CString Queue State UInt64 Mpn MpnMem MpnThm MpnBits MpnDiv MpnInv MpnDivThm MpnDivPi1 MpnCorrect MpnDivQr MpnStr MpnStrThm MpnSetStr Mpz MpzRep MpzArith MpzMul MpzDiv MpzConv MpzQuo MpzQuoThm MpzBits MpzNum MpzNumThm MpzStr.

Section copy.
Context (F : mem).
Implicit Types (s : zstate) (σ : gmap positive (option Z)).

(** ** A temporary copy of the limbs *)

Definition temp_copy (s : zstate) (x : Z) (b : positive) (l : list Z) (m : mem) : Prop :=
  words l ∧ normal l ∧ val l = Z.abs x ∧ Z.of_nat (length l) = nlimbs x ∧ holds m (b, 0) l ∧ mem_ok m ∧
  (∀ q, q.1 ≠ b → cell m q = cell (z_mem s) q) ∧ (∀ q, is_Some (cell (z_mem s) q) → q.1 ≠ b) ∧ (m_next (z_mem s) ≤ m_next m)%positive.

Lemma wp_temp_copy {A} (K : ptr → L A) s σ u x z Q E :
  zok F s σ → σ !! u = Some (Some x) → z_vars s !! u = Some z → x ≠ 0 →
  (∀ b l m, temp_copy s x b l m → wp (K (b, 0)) (λ a m', Q a (set_zmem m' s)) E m) →
  wp (limbs (tp ← gmp_xalloc_limbs (nlimbs x); _ ← mpn_copyi tp (mp_d z) (nlimbs x); K tp)) Q E s.
Proof.
  intros Hok Hu Hz Hx HK. destruct (zok_operand F s σ u x Hok Hu) as (z' & l & Hz' & Hw & Hn & Hh & Hv & Hl & _).
  rewrite Hz in Hz'. injection Hz' as <-. pose proof (nlimbs_pos x Hx). apply wp_zoom. rewrite <- Hl. apply wp_bind.
  apply wp_gmp_xalloc_limbs; [lia|apply (zok_mem _ _ _ Hok)|]. intros b m1 (Hsame & Hsp & Hfr & Hm1 & Hnext). apply wp_bind.
  assert (holds m1 (mp_d z) l) as Hh1.
  { intros i y Hi. rewrite Hsame; [by apply Hh|]. apply Hfr. by rewrite (Hh i y Hi). }
  assert ((mp_d z).1 ≠ b) as Hzb.
  { apply (Hfr (mp_d z)). destruct l as [|y l]; [cbn in Hl; lia|]. apply holds_cons in Hh as [Hc _]. by rewrite Hc. }
  apply wp_mpn_copyi; [done|done|left; done|]. intros m2 [Hh2 Hc2]. apply (HK b l m2). split_and!; try done.
  - by eapply changed_ok.
  - intros q Hq. pose proof Hc2 as (Hf & _). rewrite Hf, Hsame; [done|done|]. intros [Hb _]. done.
  - pose proof Hc2 as (_ & _ & Hn2). lia.
Qed.

Lemma wp_temp_free {A} s σ x b l m m' (a : A) (Q : A → zstate → Prop) E :
  zok F s σ → x ≠ 0 → temp_copy s x b l m → changed m m' (λ c, within c (b, 0) (length l)) → (∀ s', zok F s' σ → Q a s') →
  wp (_ ← gmp_free (b, 0); mret a) (λ a m', Q a (set_zmem m' s)) E m'.
Proof.
  intros Hok Hx (Hw & Hn & Hv & Hl & Hh & Hm & Hsame & Hfr & Hnext) (Hf & Hd & Hnx) HQ. pose proof (nlimbs_pos x Hx). apply wp_bind. apply wp_gmp_free.
  { apply Hd. destruct l as [|y l]; [cbn in Hl; lia|]. apply holds_cons in Hh as [Hc _]. by rewrite Hc. }
  intros m2 Hc2 Hn2. apply wp_ret, HQ. assert (∀ q, cell m2 q = cell (z_mem s) q) as Heq.
  { intros q. rewrite Hc2. case_decide as Hq.
    - destruct (cell (z_mem s) q) eqn:Hcq; [|done]. by destruct (Hfr q); [rewrite Hcq|].
    - rewrite Hf, Hsame; [done|done|]. intros [Hb _]. done. }
  eapply (zok_write_gen F s σ σ (λ _, False)); try done. split_and!; [intros q _; apply Heq|intros q; by rewrite Heq|lia].
Qed.
End copy.

(** ** The number of digits *)

(** [n] digits are needed for [v], and [n - 1] are not enough. *)
Definition ndigits (b v n : Z) : Prop := 1 ≤ n ∧ b ^ (n - 1) ≤ v < b ^ n.

Lemma wp_ndigits_loop b bi tp fuel : 2 ≤ b ≤ 36 → inv_ok1 b bi → ∀ l nd m Q E,
  words l → normal l → l ≠ [] → holds m tp l → mem_ok m → val l < 2 ^ Z.of_nat fuel →
  (∀ n m', ndigits b (val l) n → changed m m' (λ c, within c tp (length l)) → Q (nd + n) m') →
  wp (ndigits_loop fuel tp (Z.of_nat (length l)) nd bi) Q E m.
Proof.
  intros Hb Hbi. induction fuel as [|fuel IH]; intros l nd m Q E Hw Hn Hne Hh Hm Hf HQ.
  { pose proof (normal_bound l Hw Hn Hne). pose proof (wpow_pos (length l - 1)). cbn in Hf. lia. }
  cbn [ndigits_loop]. pose proof (normal_bound l Hw Hn Hne) as Hlow. assert (0 < length l)%nat as Hl0 by (destruct l; [done|cbn; lia]).
  apply wp_bind. eapply (wp_mpn_div_qr_1_preinv (Some tp) tp l b); try done; [by apply holds_space|right; left; lia|].
  intros lq r m1 Hlq Hwq Hvq Hr [Hh1 Hc1]. cbn [qholds qwithin] in *. pose proof (val_bound lq Hwq) as Hbq.
  destruct (trim_top lq) as (l' & top & Htop & Hw' & Hn' & Hv' & Hl' & Hhl'); [done|intros ->; cbn in Hlq; lia|..].
  { intros H2. rewrite Hlq in *. assert (wpow (length l - 1) = WB * wpow (length l - 2)) as Hwp by (rewrite <- wpow_S; f_equal; lia).
    pose proof (wpow_pos (length l - 2)). unfold WB in Hwp. nia. }
  apply wp_bind. eapply wp_load.
  { replace (Z.of_nat (length l) - 1) with (Z.of_nat (length lq - 1)) by lia. by apply Hh1. }
  replace (Z.of_nat (length l) - b2z (top =? 0)) with (Z.of_nat (length l')) by lia. rewrite <- Hv' in *.
  assert (changed m m1 (λ c, within c tp (length l))) as Hc2 by (by rewrite <- Hlq).
  destruct (Z.ltb_spec 0 (Z.of_nat (length l'))) as [Hpos|Hzero].
  - assert (l' ≠ []) as Hne' by (by intros ->). eapply (IH l'); try done; [by apply Hhl'|by eapply changed_ok| |].
    { rewrite Nat2Z.inj_succ, Z.pow_succ_r in Hf by lia. nia. }
    intros n m2 (Hn1 & Hlo & Hhi) Hc3. replace (nd + 1 + n) with (nd + (n + 1)) by lia. apply HQ.
    + split; [lia|]. replace (n + 1 - 1) with (Z.succ (n - 1)) by lia. replace (n + 1) with (Z.succ n) by lia. rewrite !Z.pow_succ_r by lia. nia.
    + eapply changed_trans; [exact Hc2|]. eapply changed_mono; [exact Hc3|]. intros q [Hq1 Hq2]. split; [done|].
      destruct (top =? 0); cbn [b2z] in Hl'; lia.
  - destruct l'; [|cbn in Hzero; lia]. cbn [val] in *. apply wp_ret, (HQ 1); [|done]. split; [lia|]. rewrite Z.pow_0_r, Z.pow_1_r. pose proof (wpow_pos (length l - 1)). nia.
Qed.

Section sizes.
Context (F : mem).
Implicit Types (s : zstate) (σ : gmap positive (option Z)).

(** Rounding up: the digits of a power of two *)
Lemma ndigits_bits b k v bits : 1 ≤ k → b = 2 ^ k → 1 ≤ bits → 2 ^ (bits - 1) ≤ v < 2 ^ bits → ndigits b v ((bits + (k - 1)) / k).
Proof.
  intros Hk -> Hbits Hv. pose proof (Z.div_mod (bits + (k - 1)) k ltac:(lia)) as Hd. pose proof (Z.mod_pos_bound (bits + (k - 1)) k ltac:(lia)) as Hm.
  set (n := (bits + (k - 1)) / k) in *. assert (1 ≤ n) as Hn by nia. split; [done|]. rewrite <- !Z.pow_mul_r by lia. split.
  - etransitivity; [|apply Hv]. apply Z.pow_le_mono_r; nia.
  - eapply Z.lt_le_trans; [apply Hv|]. apply Z.pow_le_mono_r; nia.
Qed.

Lemma wp_mpz_sizeinbase s σ u x b Q E :
  zok F s σ → σ !! u = Some (Some x) → 2 ≤ b ≤ 36 →
  (∀ n s', zok F s' σ → (if x =? 0 then n = 1 else ndigits b (Z.abs x) n) → Q n s') → wp (mpz_sizeinbase u b) Q E s.
Proof.
  intros Hok Hu Hb HQ. destruct (zok_operand F s σ u x Hok Hu) as (z & l & Hz & Hw & Hn & Hh & Hv & Hl & Hs & Hal & _).
  unfold mpz_sizeinbase. do 2 (apply wp_bind, wp_zassert; [apply Z.leb_le; lia|]). apply wp_bind. eapply wp_get_mpz; [done|]. rewrite Hs, size_abs.
  destruct (Z.eq_dec x 0) as [->|Hx]; [cbn; by apply HQ|]. pose proof (nlimbs_pos x Hx) as Hpos. rewrite (proj2 (Z.eqb_neq _ 0)) by lia.
  rewrite (proj2 (Z.eqb_neq x 0)) in HQ by done. destruct l as [|top lo _] using rev_ind; [cbn in Hl; lia|]. rewrite length_app in Hl. cbn [length] in Hl.
  apply Forall_app in Hw as [Hwl Hwt]. apply Forall_cons in Hwt as [Hwt _]. assert (top ≠ 0) as Ht0 by (apply Hn, last_snoc).
  pose proof Hh as [_ Hht]%holds_app. apply holds_cons in Hht as [Hct _].
  apply wp_bind, wp_zoom. replace (nlimbs x - 1) with (Z.of_nat (length lo)) by lia. eapply wp_load; [done|]. rewrite zmem_id.
  destruct (mpn_limb_size_spec top) as (k & -> & Hk & Htop); [unfold word in *; lia|]. apply wp_bind. eapply wp_lift_ok; [done|]. unfold GMP_LIMB_BITS.
  pose proof (val_size lo top k Hwl ltac:(lia) Htop) as Hvs. rewrite Hv in Hvs. unfold INT_MAX in *.
  rewrite (u64_small (Z.of_nat (length lo) * 64 + k)) by (unfold WB; lia). set (bits := Z.of_nat (length lo) * 64 + k) in *.
  replace (64 * Z.of_nat (length lo) + k) with bits in Hvs by (unfold bits; lia). assert (1 ≤ bits < 64 * 2147483648) as Hbits by (unfold bits; lia). clearbody bits.
  assert (∀ b' j, b = b' → b' = 2 ^ j → 1 ≤ j ≤ 5 → Q (u64 (bits + (j - 1)) / j) s) as Hpow.
  { intros b' j -> Hb' Hj. rewrite u64_small by (unfold WB; lia). apply HQ; [done|]. apply ndigits_bits; try done; lia. }
  destruct (Z.eqb_spec b 2) as [E2|_]; [apply wp_ret; specialize (Hpow 2 1 E2 eq_refl ltac:(lia)); by rewrite Z.div_1_r, Z.add_0_r, u64_small in Hpow by (unfold WB; lia)|].
  destruct (Z.eqb_spec b 4) as [E4|_]; [apply wp_ret; exact (Hpow 4 2 E4 eq_refl ltac:(lia))|].
  destruct (Z.eqb_spec b 8) as [E8|_]; [apply wp_ret; exact (Hpow 8 3 E8 eq_refl ltac:(lia))|].
  destruct (Z.eqb_spec b 16) as [E16|_]; [apply wp_ret; exact (Hpow 16 4 E16 eq_refl ltac:(lia))|].
  destruct (Z.eqb_spec b 32) as [E32|_]; [apply wp_ret; exact (Hpow 32 5 E32 eq_refl ltac:(lia))|].
  eapply (wp_temp_copy F _ s σ u x z); try done. intros t l m Ht. pose proof Ht as (Hwl2 & Hnl2 & Hv2 & Hl2 & Hh2 & Hm2 & _).
  destruct (mpn_div_qr_1_invert_spec b) as (bi & -> & Hbi); [unfold WB; lia|]. apply wp_bind. eapply wp_lift_ok; [done|]. apply wp_bind.
  rewrite <- Hl2. eapply (wp_ndigits_loop b bi (t, 0)); try done; [intros ->; cbn in Hl2; lia| |].
  { rewrite Z2Nat.id by lia. pose proof (val_bound l Hwl2) as Hbd. unfold wpow in Hbd. change WB with (2 ^ 64) in Hbd. rewrite <- Z.pow_mul_r in Hbd by lia. apply Hbd. }
  intros n m' Hnd Hc. rewrite Z.add_0_l. eapply (wp_temp_free F s σ x t l m m'); try done. intros s' Hok'. rewrite Hv2 in Hnd. by apply HQ.
Qed.
End sizes.

(** ** Numbers to strings *)

(** The digits of a number: no leading zero, a single digit for 0 *)
Definition numeral (b v : Z) (ds : list Z) : Prop :=
  digits b ds ∧ ds ≠ [] ∧ digits_val b ds = v ∧ (head ds = Some 0 → ds = [0]).

Lemma numeral_length b v ds n : 2 ≤ b → 0 < v < b ^ n → numeral b v ds → Z.of_nat (length ds) ≤ n.
Proof.
  intros Hb Hv (Hd & Hne & Hdv & Hz). pose proof (digits_room b ds Hb Hd Hne) as Hr. rewrite Hdv in Hr.
  assert (head ds ≠ Some 0) as Hh by (intros Hh%Hz; subst ds; cbn in Hdv; lia). specialize (Hr Hh).
  destruct (Z.le_gt_cases (Z.of_nat (length ds)) n) as [|Hgt]; [done|]. assert (0 ≤ n) as Hn by (destruct (Z.le_gt_cases 0 n); [done|]; rewrite Z.pow_neg_r in Hv by done; lia).
  assert (b * b ^ n ≤ b ^ Z.of_nat (length ds)); [|nia]. rewrite <- Z.pow_succ_r by done. apply Z.pow_le_mono_r; lia.
Qed.

Definition digit_char (upper : bool) (d : Z) : Z := if d <? 10 then 48 + d else (if upper then 65 else 97) + (d - 10).

(** The text of a number *)
Definition text_of (upper : bool) (x : Z) (ds : list Z) : list Z := (if x <? 0 then [45] else []) ++ (digit_char upper <$> ds).

Lemma digit_code_ok upper d : 0 ≤ d < 36 → digit_code upper d = Ok (digit_char upper d).
Proof.
  intros Hd. unfold digit_code, digit_char. rewrite (proj2 (Z.leb_le 0 d)) by lia. cbn [andb]. destruct (Z.ltb_spec d 10); [done|].
  by rewrite (proj2 (Z.leb_le 10 d)), (proj2 (Z.ltb_lt d 36)) by lia.
Qed.

Lemma digits_to_chars_ok upper (rest : arr Z) ds : ∀ pre,
  digits 36 ds → digits_to_chars (length ds) upper ((Some <$> (pre ++ ds)) ++ rest) (Z.of_nat (length pre)) = Ok ((Some <$> (pre ++ (digit_char upper <$> ds))) ++ rest).
Proof.
  induction ds as [|d ds IH]; intros pre Hd; cbn [digits_to_chars length]; [done|]. apply Forall_cons in Hd as [Hd Hds].
  erewrite arr_get_ok; [|lia|]; [|rewrite Nat2Z.id, lookup_app_l by (rewrite length_fmap, length_app; cbn; lia); rewrite list_lookup_fmap, list_lookup_middle by done; done].
  cbn [mbind outcome_bind]. rewrite digit_code_ok by done. cbn [mbind outcome_bind].
  rewrite arr_set_at by (rewrite length_app; cbn; lia). cbn [mbind outcome_bind]. rewrite Nat2Z.id, insert_app_r_alt, Nat.sub_diag by lia. cbn [list_insert].
  specialize (IH (pre ++ [digit_char upper d]) Hds). rewrite length_app, <- !app_assoc in IH. cbn [length app] in IH.
  replace (Z.of_nat (length pre) + 1) with (Z.of_nat (length pre + 1)) by lia. exact IH.
Qed.

Section get_str.
Context (F : mem).
Implicit Types (s : zstate) (σ : gmap positive (option Z)).

(** The digits are written after the sign. *)
Lemma wp_at_offset (f : arr Z → L (Z * arr Z)) pre (rest : arr Z) i m Q E :
  i = Z.of_nat (length pre) → wp (f rest) (λ r m', Q (r.1, (Some <$> pre) ++ r.2) m') E m → wp (at_offset ((Some <$> pre) ++ rest) i f) Q E m.
Proof.
  intros -> Hf. unfold at_offset. apply wp_bind. rewrite Nat2Z.id. rewrite drop_app_length' by (by rewrite length_fmap).
  rewrite take_app_length' by (by rewrite length_fmap). eapply wp_mono; [exact Hf| |done]. by intros [n r] m' HQ.
Qed.

Lemma wp_digits s σ u x z b pre (rest : arr Z) Q E :
  zok F s σ → σ !! u = Some (Some x) → z_vars s !! u = Some z → x ≠ 0 → 2 ≤ b ≤ 36 → Z.abs x < b ^ Z.of_nat (length rest) →
  (∀ ds s', zok F s' σ → numeral b (Z.abs x) ds → (length ds ≤ length rest)%nat →
     Q (Z.of_nat (length ds), (Some <$> (pre ++ ds)) ++ drop (length ds) rest) s') →
  wp (if negb (mpn_base_power_of_two_p b =? 0) then limbs (at_offset ((Some <$> pre) ++ rest) (Z.of_nat (length pre)) (λ sp, mpn_get_str_bits sp (mpn_base_power_of_two_p b) (mp_d z) (nlimbs x)))
      else
        info ← lift (mpn_get_base_info b);
        limbs (tp ← gmp_xalloc_limbs (nlimbs x);
               _ ← mpn_copyi tp (mp_d z) (nlimbs x);
               res ← at_offset ((Some <$> pre) ++ rest) (Z.of_nat (length pre)) (λ sp, mpn_get_str_other sp b info tp (nlimbs x));
               _ ← gmp_free tp;
               mret res)) Q E s.
Proof.
  intros Hok Hu Hz Hx Hb Hroom HQ. destruct (zok_operand F s σ u x Hok Hu) as (z' & l & Hz' & Hw & Hn & Hh & Hv & Hl & Hs & Hal & _).
  rewrite Hz in Hz'. injection Hz' as <-. pose proof (nlimbs_pos x Hx) as Hpos. assert (l ≠ []) as Hne by (intros ->; cbn in Hl; lia).
  assert (∀ ds, digits b ds → head ds ≠ Some 0 → digits_val b ds = Z.abs x → numeral b (Z.abs x) ds) as Hnum.
  { intros ds Hd Hhd Hdv. split_and!; try done. intros ->. cbn in Hdv. lia. }
  destruct (base_bits b ltac:(lia)) as [->|[Hbits Hpow]].
  - cbn [Z.eqb negb]. destruct (mpn_get_base_info_spec b) as (info & -> & Hinfo); [unfold WB; lia|]. apply wp_bind. eapply wp_lift_ok; [done|].
    eapply (wp_temp_copy F _ s σ u x z); try done. intros t l2 m Ht. pose proof Ht as (Hwl2 & Hnl2 & Hv2 & Hl2 & Hh2 & Hm2 & _). apply wp_bind.
    apply wp_at_offset; [done|]. rewrite <- Hl2. eapply (wp_mpn_get_str_other b info (t, 0) l2); try done; [lia|intros ->; cbn in Hl2; lia|by rewrite Hv2|].
    intros r m' (ds & -> & Hd & Hhd & Hdv & Hlen & Hc). cbn [fst snd]. rewrite app_assoc, <- fmap_app. eapply (wp_temp_free F s σ x t l2 m m'); try done.
    intros s' Hok'. apply HQ; try done. apply Hnum; try done. by rewrite Hdv.
  - rewrite (proj2 (Z.eqb_neq _ 0)) by lia. cbn [negb]. apply wp_zoom. apply wp_at_offset; [done|]. rewrite <- Hl.
    eapply (wp_mpn_get_str_bits _ (mp_d z) l); try done; [unfold INT_MAX, WB in *; lia|by rewrite Hv, <- Hpow|].
    intros r (ds & -> & Hd & Hhd & Hdv & Hlen & Hc). cbn [fst snd]. rewrite app_assoc, <- fmap_app, zmem_id. rewrite <- Hpow in *. apply HQ; try done. apply Hnum; try done. by rewrite Hdv.
Qed.

(** The base that is meant by the argument [base] *)
Definition get_base (base : Z) : Z := if Z.abs base <=? 1 then 10 else Z.abs base.

(** A buffer from the caller has room for the sign, the digits and the terminator. *)
Definition str_room (sp : option (arr Z)) (b x : Z) : Prop :=
  match sp with
  | Some sp => 2 + b2z (x <? 0) ≤ Z.of_nat (length sp) ∧ Z.abs x < b ^ (Z.of_nat (length sp) - 1 - b2z (x <? 0))
  | None => True
  end.

Lemma wp_mpz_get_str s σ sp base u x Q E :
  zok F s σ → σ !! u = Some (Some x) → -36 ≤ base ≤ 36 → str_room sp (get_base base) x →
  (∀ ds rest s', zok F s' σ → numeral (get_base base) (Z.abs x) ds →
     match sp with Some a => rest = drop (S (length (text_of (base <? 0) x ds))) a | None => True end →
     Q (Some ((Some <$> (text_of (base <? 0) x ds ++ [0])) ++ rest)) s') →
  wp (mpz_get_str sp base u) Q E s.
Proof.
  intros Hok Hu Hbase Hroom HQ. unfold mpz_get_str. apply wp_bind. rewrite (proj2 (Z.eqb_neq base INT_MIN)) by (unfold INT_MIN; lia). apply wp_ret.
  assert ((if (if 0 <=? base then base else - base) <=? 1 then 10 else if 0 <=? base then base else - base) = get_base base) as ->.
  { unfold get_base. destruct (Z.leb_spec 0 base); [by rewrite Z.abs_eq by lia|by rewrite Z.abs_neq by lia]. }
  rewrite <- Z.ltb_antisym. assert (2 ≤ get_base base ≤ 36) as Hb by (unfold get_base; destruct (Z.leb_spec (Z.abs base) 1); lia).
  set (b := get_base base) in *. set (upper := base <? 0) in *. clearbody b upper. rewrite (proj2 (Z.ltb_ge 36 b)) by lia.
  apply wp_bind. eapply wp_mpz_sizeinbase; try done. intros n s1 Hok1 Hn. set (sp0 := match sp with Some a => a | None => arr_new (1 + (1 + n)) end).
  assert (2 + b2z (x <? 0) ≤ Z.of_nat (length sp0) ∧ Z.abs x < b ^ (Z.of_nat (length sp0) - 1 - b2z (x <? 0))) as [Hlen Hfit].
  { destruct sp as [a|]; [exact Hroom|]. unfold sp0, arr_new. rewrite length_replicate. destruct (Z.eqb_spec x 0) as [->|Hx0].
    - subst n. cbn. lia.
    - destruct Hn as (Hn1 & _ & Hhi). rewrite Z2Nat.id by lia. split; [destruct (x <? 0); cbn [b2z]; lia|]. eapply Z.lt_le_trans; [exact Hhi|]. apply Z.pow_le_mono_r; [lia|]. destruct (x <? 0); cbn [b2z]; lia. }
  assert (∀ ds s', zok F s' σ → numeral b (Z.abs x) ds → Q (Some ((Some <$> (text_of upper x ds ++ [0])) ++ drop (S (length (text_of upper x ds))) sp0)) s') as HQ'.
  { intros ds s' Hok' Hnum. apply HQ; try done. by destruct sp. }
  clear HQ. destruct (zok_operand F s1 σ u x Hok1 Hu) as (z & l & Hz & _ & _ & _ & _ & _ & Hs & _). apply wp_bind. eapply wp_get_mpz; [done|].
  rewrite Hs, size_abs, size_neg. destruct (Z.eq_dec x 0) as [->|Hx].
  { cbn [nlimbs Z.eqb]. destruct sp0 as [|a0 [|a1 rest]]; [cbn in Hlen; lia..|].
    apply wp_bind. eapply wp_lift_ok; [exact (arr_set_mid [] (a1 :: rest) a0 48)|]. apply wp_bind. eapply wp_lift_ok; [exact (arr_set_mid [Some 48] rest a1 0)|]. apply wp_ret.
    assert (numeral b (Z.abs 0) [0]) as Hnum.
    { split_and!; try done. constructor; [lia|constructor]. }
    specialize (HQ' [0] s1 Hok1 Hnum). exact HQ'. }
  pose proof (nlimbs_pos x Hx). rewrite (proj2 (Z.eqb_neq _ 0)) by lia. set (pre := if x <? 0 then [45] else []).
  assert (Z.of_nat (length pre) = b2z (x <? 0)) as Hpre by (unfold pre; by destruct (x <? 0)). apply wp_bind.
  assert (∀ Q', Q' (Z.of_nat (length pre), (Some <$> pre) ++ drop (length pre) sp0) s1 →
    wp (if x <? 0 then sp1 ← lift (arr_set sp0 0 45); mret (1, sp1) else mret (0, sp0)) Q' E s1) as Hsign.
  { intros Q' HQs. unfold pre in HQs. destruct (x <? 0); [|by apply wp_ret]. destruct sp0 as [|a0 rest]; [cbn in Hlen; lia|].
    apply wp_bind. eapply wp_lift_ok; [exact (arr_set_mid [] rest a0 45)|]. by apply wp_ret. }
  apply Hsign. apply wp_bind. eapply (wp_digits s1 σ u x z b pre); try done.
  { rewrite length_drop. eapply Z.lt_le_trans; [exact Hfit|]. apply Z.pow_le_mono_r; lia. }
  intros ds s2 Hok2 Hnum Hdl. rewrite Nat2Z.id. pose proof Hnum as (Hd & Hne & Hdv & _). apply wp_bind. eapply wp_lift_ok.
  { apply digits_to_chars_ok. eapply Forall_impl; [exact Hd|]. cbn. lia. }
  assert (length (digit_char upper <$> ds) = length ds) as Hlc by apply length_fmap.
  assert (Z.of_nat (length ds) ≤ Z.of_nat (length sp0) - 1 - b2z (x <? 0)) as Hdn by (by eapply (numeral_length b (Z.abs x)); [lia..|]).
  apply wp_bind. eapply wp_lift_ok.
  { apply arr_set_next; [rewrite length_app; lia|]. intros Hnil%(f_equal length). rewrite !length_drop in Hnil. cbn in Hnil. lia. }
  apply wp_ret. rewrite !drop_drop. change (pre ++ (digit_char upper <$> ds)) with (text_of upper x ds).
  replace (length pre + (length ds + 1))%nat with (S (length (text_of upper x ds))); [by apply HQ'|].
  unfold text_of. fold pre. rewrite length_app. lia.
Qed.
End get_str.

(** ** Strings to numbers *)

(** What a string means, from tables of characters: blanks are skipped, a sign and a
    prefix for the base may come first, and at least one digit must follow; nothing else
    may occur. *)
Definition codes (txt : string) : list Z :=
  (λ c, Z.of_N (Ascii.N_of_ascii c)) <$> String.list_ascii_of_string txt.

(** Space, and the tabulator, line feed, vertical tabulator, form feed and carriage return *)
Definition blanks : list Z := [32; 9; 10; 11; 12; 13].
Fixpoint trim (txt : list Z) : list Z :=
  match txt with
  | c :: txt' => if decide (c ∈ blanks) then trim txt' else txt
  | [] => []
  end.

Definition position (c : Z) (table : list Z) : option Z :=
  (λ p, Z.of_nat p.1) <$> list_find (λ d, d = c) table.
Definition digit_value (c : Z) : option Z :=
  position c (codes "0123456789abcdefghijklmnopqrstuvwxyz")
  ∪ position c (codes "0123456789ABCDEFGHIJKLMNOPQRSTUVWXYZ").
Definition numeral_digit (b c : Z) : option Z :=
  d ← digit_value c; if d <? b then Some d else None.

(** 0x and 0X for base 16, 0b and 0B for base 2, a leading 0, which is a digit, for base 8 *)
Definition base_prefix (txt : list Z) : Z * list Z :=
  if decide (take 2 txt = codes "0x" ∨ take 2 txt = codes "0X") then (16, drop 2 txt)
  else if decide (take 2 txt = codes "0b" ∨ take 2 txt = codes "0B") then (2, drop 2 txt)
  else if decide (take 1 txt = codes "0") then (8, txt)
  else (10, txt).

Definition text_value (base : Z) (txt : list Z) : option Z :=
  let txt := trim txt in
  let negative := bool_decide (take 1 txt = codes "-") in
  let txt := if negative then drop 1 txt else txt in
  let '(b, txt) := if base =? 0 then base_prefix txt else (base, txt) in
  ds ← mapM (numeral_digit b) (filter (λ c, c ∉ blanks) txt);
  if bool_decide (ds = []) then None
  else Some (if negative then - digits_val b ds else digits_val b ds).

(** The same, as the code finds it *)
Definition str_digit (b c : Z) : option Z := if b <=? char_digit b c then None else Some (char_digit b c).
Definition sign_of (sp : list Z) : bool := match sp with c :: _ => c =? 45 | [] => false end.
Definition scan_value (base : Z) (sp : list Z) : option Z :=
  let sp := skip_spaces sp in
  let sign := sign_of sp in
  let sp := if sign then drop 1 sp else sp in
  let '(b, sp) := if base =? 0 then detect_base sp else (base, sp) in
  ds ← mapM (str_digit b) (filter (λ c, isspace c = false) sp);
  if bool_decide (ds = []) then None else Some (if sign then - digits_val b ds else digits_val b ds).

Lemma isspace_blank c : isspace c = bool_decide (c ∈ blanks).
Proof.
  unfold isspace. symmetry. destruct (_ || _) eqn:Hc; [apply bool_decide_eq_true|apply bool_decide_eq_false];
    unfold blanks; rewrite !elem_of_cons, elem_of_nil.
  - rewrite orb_true_iff, andb_true_iff in Hc. lia.
  - rewrite orb_false_iff, andb_false_iff in Hc. lia.
Qed.

Lemma trim_skip sp : trim sp = skip_spaces sp.
Proof.
  induction sp as [|c sp IH]; [done|]. cbn [trim skip_spaces]. rewrite isspace_blank.
  by case_decide; [rewrite bool_decide_true|rewrite bool_decide_false].
Qed.

Lemma sign_minus sp : sign_of sp = bool_decide (take 1 sp = codes "-").
Proof.
  destruct sp as [|c sp]; [done|]. cbn. destruct (Z.eqb_spec c 45) as [->|Hc]; [done|].
  rewrite bool_decide_false; [done|]. by intros [= ->].
Qed.

Lemma digit_value_char b c : char_digit b c = default b (digit_value c).
Proof.
  destruct (decide (0 ≤ c < 128)) as [Hc|Hc].
  - assert (Forall (λ c, (if decide (char_digit (-1) c = -1) then None else Some (char_digit (-1) c))
      = digit_value c ∧ (char_digit (-1) c = -1 ∨ ∀ b, char_digit b c = char_digit (-1) c)) (seqZ 0 128)) as Hall.
    { repeat (apply Forall_cons_2; [split; [vm_compute; reflexivity|first [left; reflexivity|right; reflexivity]]|]).
      apply Forall_nil_2. }
    rewrite Forall_forall in Hall. destruct (Hall c) as [<- Hcase]; [apply elem_of_seqZ; lia|].
    destruct Hcase as [Hn|Hb].
    + rewrite decide_True by done. cbn. unfold char_digit in *. repeat case_match; try done;
        rename select (_ && _ = true) into Hr; apply andb_true_iff in Hr; lia.
    + case_decide as Hd; [|by rewrite Hb]. cbn. specialize (Hb b). unfold char_digit in *.
      repeat case_match; try done; rename select (_ && _ = true) into Hr; apply andb_true_iff in Hr; lia.
  - assert (char_digit b c = b) as ->.
    { unfold char_digit. repeat case_match; try done;
        rename select (_ && _ = true) into Hr; apply andb_true_iff in Hr; lia. }
    assert (∀ l, Forall (λ d, 0 ≤ d < 128) l → position c l = None) as Hpos.
    { intros l Hl. unfold position. rewrite (proj2 (list_find_None _ _)); [done|].
      eapply Forall_impl; [exact Hl|]. cbn. lia. }
    unfold digit_value. rewrite !Hpos; [done|..]; apply (bool_decide_unpack (Forall _ _)); by vm_compute.
Qed.

Lemma numeral_digit_str b c : numeral_digit b c = str_digit b c.
Proof.
  unfold numeral_digit, str_digit. rewrite digit_value_char. destruct (digit_value c) as [d|]; cbn.
  - destruct (Z.ltb_spec d b), (Z.leb_spec b d); done || lia.
  - by rewrite Z.leb_refl.
Qed.

Lemma base_prefix_detect sp : base_prefix sp = detect_base sp.
Proof.
  unfold base_prefix, codes. cbn. destruct sp as [|c [|d sp]]; cbn.
  - done.
  - destruct (decide (c = 48)) as [->|Hc]; [done|].
    repeat (rewrite decide_False by naive_solver). unfold detect_base. repeat case_match; done.
  - destruct (decide (c = 48)) as [->|Hc].
    + unfold detect_base. destruct (Z.eqb_spec d 120), (Z.eqb_spec d 88), (Z.eqb_spec d 98), (Z.eqb_spec d 66);
        subst; cbn; try done; repeat (rewrite decide_False by naive_solver); done.
    + repeat (rewrite decide_False by naive_solver). unfold detect_base. repeat case_match; done.
Qed.

Lemma text_value_scan base sp : text_value base sp = scan_value base sp.
Proof.
  unfold text_value, scan_value. rewrite trim_skip, <- sign_minus. cbv zeta.
  set (sp1 := if sign_of (skip_spaces sp) then _ else _). rewrite base_prefix_detect.
  destruct (if base =? 0 then detect_base sp1 else (base, sp1)) as [b sp2].
  assert (filter (λ c, c ∉ blanks) sp2 = filter (λ c, isspace c = false) sp2) as ->.
  { apply list_filter_iff. intros c. rewrite isspace_blank. symmetry. apply bool_decide_eq_false. }
  assert (∀ l, mapM (numeral_digit b) l = mapM (str_digit b) l) as ->; [|done].
  intros l. apply mapM_ext. intros c. apply numeral_digit_str.
Qed.

Lemma char_digit_nonneg b c : 0 ≤ b → 0 ≤ char_digit b c.
Proof. intros Hb. unfold char_digit. repeat case_match; try lia; rename select (_ && _ = true) into Hc; apply andb_true_iff in Hc as [Hc _]; lia. Qed.

Lemma parse_digits_ok b sp : 2 ≤ b → ∀ (pre : list Z) (rest : arr Z),
  (length sp ≤ length rest)%nat →
  match mapM (str_digit b) (filter (λ c, isspace c = false) sp) with
  | Some ds => digits b ds ∧ (length ds ≤ length sp)%nat ∧
      parse_digits sp b ((Some <$> pre) ++ rest) (Z.of_nat (length pre)) = Ok (Some ((Some <$> (pre ++ ds)) ++ drop (length ds) rest, Z.of_nat (length (pre ++ ds))))
  | None => parse_digits sp b ((Some <$> pre) ++ rest) (Z.of_nat (length pre)) = Ok None
  end.
Proof.
  intros Hb. induction sp as [|c sp IH]; intros pre rest Hl; cbn [parse_digits length] in *.
  { cbn. by rewrite app_nil_r. }
  rewrite filter_cons. destruct (isspace c) eqn:Hc.
  - rewrite decide_False by done. specialize (IH pre rest ltac:(lia)). destruct (mapM _ _); [|done]. destruct IH as (H1 & H2 & H3). split_and!; try done. lia.
  - rewrite decide_True by done. cbn [mapM]. destruct (str_digit b c) as [d|] eqn:Hd; unfold str_digit in Hd; destruct (Z.leb_spec b (char_digit b c)) as [Hle|Hgt]; try done; injection Hd as <-; cbn [mbind option_bind].
    destruct rest as [|r rest]; [cbn in Hl; lia|]. rewrite (arr_set_next pre (r :: rest)) by done. cbn [mbind outcome_bind drop].
    specialize (IH (pre ++ [char_digit b c]) rest ltac:(cbn in Hl; lia)). replace (Z.of_nat (length (pre ++ [char_digit b c]))) with (Z.of_nat (length pre) + 1) in IH by (rewrite length_app; cbn; lia).
    destruct (mapM (str_digit b) (filter _ sp)) as [ds|]; cbn [mbind option_bind option_ret mret]; [|done]. destruct IH as (H1 & H2 & H3). split_and!.
    + constructor; [|done]. pose proof (char_digit_nonneg b c). lia.
    + cbn. lia.
    + rewrite drop_0, H3, <- !app_assoc. done.
Qed.

Section set_str.
Context (F : mem).
Implicit Types (s : zstate) (σ : gmap positive (option Z)).

(** The room for [dn] digits *)
Lemma bits_room b bits dn : 1 ≤ bits ≤ 5 → b = 2 ^ bits → 1 ≤ dn ≤ INT_MAX →
  let alloc := u64 (u64 (dn * bits + GMP_LIMB_BITS) - 1) / GMP_LIMB_BITS in 1 ≤ alloc ≤ INT_MAX ∧ b ^ dn ≤ wpow (Z.to_nat alloc).
Proof.
  intros Hbits -> Hdn. unfold GMP_LIMB_BITS, INT_MAX in *. assert (0 ≤ dn * bits ≤ 5 * dn) as Hdb by nia.
  rewrite (u64_small (dn * bits + 64)), u64_small by (unfold WB; lia). cbv zeta. pose proof (Z.div_mod (dn * bits + 64 - 1) 64 ltac:(lia)). pose proof (Z.mod_pos_bound (dn * bits + 64 - 1) 64 ltac:(lia)).
  set (alloc := (dn * bits + 64 - 1) / 64) in *. clearbody alloc. assert (1 ≤ dn * bits) by nia. split; [lia|]. unfold wpow. rewrite Z2Nat.id by lia. change WB with (2 ^ 64).
  rewrite <- !Z.pow_mul_r by lia. apply Z.pow_le_mono_r; lia.
Qed.

Lemma other_room b info dn : 2 ≤ b → info_ok b info → 1 ≤ dn ≤ INT_MAX →
  let alloc := u64 (u64 (dn + info_exp info) - 1) / info_exp info in 1 ≤ alloc ≤ INT_MAX ∧ b ^ dn ≤ wpow (Z.to_nat alloc).
Proof.
  intros Hb (He & Hbb & Hlt & _) Hdn. assert (info_exp info < 64) as He2.
  { destruct (Z.lt_ge_cases (info_exp info) 64) as [|Hge]; [done|]. assert (2 ^ 64 ≤ b ^ info_exp info); [|unfold WB in *; lia].
    etransitivity; [apply (Z.pow_le_mono_r 2 64 (info_exp info)); lia|]. apply Z.pow_le_mono_l. lia. }
  unfold INT_MAX in *. rewrite (u64_small (dn + info_exp info)), u64_small by (unfold WB; lia). cbv zeta. set (e := info_exp info) in *.
  pose proof (Z.div_mod (dn + e - 1) e ltac:(lia)) as Hd. pose proof (Z.mod_pos_bound (dn + e - 1) e ltac:(lia)). set (alloc := (dn + e - 1) / e) in *. clearbody alloc.
  assert (1 ≤ alloc) by nia. split; [nia|]. unfold wpow. rewrite Z2Nat.id by lia. transitivity ((b ^ e) ^ alloc).
  - rewrite <- Z.pow_mul_r by lia. apply Z.pow_le_mono_r; nia.
  - apply Z.pow_le_mono_l. pose proof (Z.pow_nonneg b e). lia.
Qed.

(** The limbs of the number are written; the number 0 has none. *)
Lemma wp_set_str_limbs s σ r w b ds (rest : arr Z) Q E :
  zok F s σ → σ !! r = Some (Some w) → 2 ≤ b ≤ 36 → digits b ds → ds ≠ [] → Z.of_nat (length ds) ≤ INT_MAX →
  (∀ l s', written F s σ r l s' → val l = digits_val b ds → Q (Z.of_nat (length l)) s') →
  wp (if 0 <? mpn_base_power_of_two_p b then
        let alloc := u64 (u64 (Z.of_nat (length ds) * mpn_base_power_of_two_p b + GMP_LIMB_BITS) - 1) / GMP_LIMB_BITS in
        rp ← MPZ_REALLOC r alloc;
        rn ← limbs (mpn_set_str_bits rp ((Some <$> ds) ++ rest) (Z.of_nat (length ds)) (mpn_base_power_of_two_p b));
        _ ← zassert (rn <=? alloc);
        mret rn
      else
        info ← lift (mpn_get_base_info b);
        let alloc := u64 (u64 (Z.of_nat (length ds) + info_exp info) - 1) / info_exp info in
        rp ← MPZ_REALLOC r alloc;
        rn ← limbs (mpn_set_str_other rp ((Some <$> ds) ++ rest) (Z.of_nat (length ds)) b info);
        _ ← zassert (0 <? rn);
        x ← limbs (load (padd rp (rn - 1)));
        let rn := rn - b2z (x =? 0) in
        _ ← zassert (rn <=? alloc);
        mret rn) Q E s.
Proof.
  intros Hok Hr Hb Hd Hne Hlen HQ. assert (1 ≤ Z.of_nat (length ds)) as Hl1 by (destruct ds; [done|cbn; lia]).
  destruct (base_bits b ltac:(lia)) as [->|[Hbits Hpow]]; cbv zeta.
  - cbn [Z.ltb Z.compare]. destruct (mpn_get_base_info_spec b) as (info & -> & Hinfo); [unfold WB; lia|]. apply wp_bind. eapply wp_lift_ok; [done|].
    destruct (other_room b info (Z.of_nat (length ds)) ltac:(lia) Hinfo ltac:(lia)) as [Hal Hroom]. set (alloc := u64 _ / info_exp info) in *. clearbody alloc.
    apply wp_bind. eapply wp_realloc_target; try done; [lia|]. intros z s1 Hz Ha Hz0 Hs Hk Hok1. apply wp_bind, wp_zoom.
    eapply (wp_mpn_set_str_other b info ltac:(lia) Hinfo rest (mp_d z) (Z.to_nat alloc)); try done; [eapply space_sub; [done|lia]|].
    intros rn m1 (l & -> & Hw & Hv & Hn & Hh & Hll & Hc) Hl0. apply wp_bind, wp_zassert; [by apply Z.ltb_lt|].
    destruct l as [|top lo _] using rev_ind; [cbn in Hl0; lia|]. rewrite length_app in *. cbn [length] in *. pose proof Hh as [Hhl Hht]%holds_app. apply holds_cons in Hht as [Hct _].
    apply wp_bind, wp_zoom. cbn [z_mem set_zmem]. replace (Z.of_nat (length lo + 1) - 1) with (Z.of_nat (length lo)) by lia. eapply wp_load; [done|].
    change m1 with (z_mem (set_zmem m1 s1)) at 1. rewrite zmem_id. apply wp_bind, wp_zassert; [apply Z.leb_le; destruct (top =? 0); cbn [b2z]; lia|]. apply wp_ret.
    assert (changed (z_mem s1) m1 (λ q, within q (mp_d z) (Z.to_nat (mp_alloc z)))) as Hc2 by (eapply changed_mono; [exact Hc|]; intros q [Hq1 Hq2]; split; [done|lia]).
    apply Forall_app in Hw as Hw'. destruct Hw' as [Hwl _]. destruct (Z.eqb_spec top 0) as [->|Ht0]; cbn [b2z].
    + assert (lo = []) as ->.
      { destruct Hn as [Hn|Hn]; [by destruct (Hn 0 (last_snoc _ _))|]. destruct lo as [|? [|]]; done. }
      apply (HQ []); [|by rewrite <- Hv]. eapply zok_written; try done. cbn. lia.
    + replace (Z.of_nat (length lo + 1) - 0) with (Z.of_nat (length (lo ++ [top]))) by (rewrite length_app; cbn; lia). apply HQ; [|done].
      eapply zok_written; try done; [rewrite length_app; cbn; lia|]. intros y. rewrite last_snoc. by intros [= <-].
  - rewrite (proj2 (Z.ltb_lt 0 _)) by lia. assert (mpn_base_power_of_two_p b ≤ 5) as Hb5.
    { destruct (Z.le_gt_cases (mpn_base_power_of_two_p b) 5); [done|]. assert (2 ^ 6 ≤ 2 ^ mpn_base_power_of_two_p b) by (apply Z.pow_le_mono_r; lia). lia. }
    destruct (bits_room b (mpn_base_power_of_two_p b) (Z.of_nat (length ds)) ltac:(lia) Hpow ltac:(lia)) as [Hal Hroom].
    set (bits := mpn_base_power_of_two_p b) in *. clearbody bits. set (alloc := u64 _ / GMP_LIMB_BITS) in *. clearbody alloc.
    apply wp_bind. eapply wp_realloc_target; try done; [lia|]. intros z s1 Hz Ha Hz0 Hs Hk Hok1. apply wp_bind, wp_zoom. subst b.
    eapply (wp_set_str_bits_normal bits Hbits rest (mp_d z) (Z.to_nat alloc)); try done; [eapply space_sub; [done|lia]|].
    intros l m1 Hw Hv Hn Hh Hll Hc. apply wp_bind, wp_zassert; [apply Z.leb_le; lia|]. apply wp_ret, HQ; [|done].
    eapply zok_written; try done; [lia|]. eapply changed_mono; [exact Hc|]. intros q [Hq1 Hq2]. split; [done|lia].
Qed.

Lemma length_skip_spaces sp : (length (skip_spaces sp) ≤ length sp)%nat.
Proof. induction sp as [|c sp IH]; [done|]. cbn [skip_spaces]. destruct (isspace c); cbn; lia. Qed.

Lemma detect_base_ok sp : 2 ≤ (detect_base sp).1 ≤ 36 ∧ (length (detect_base sp).2 ≤ length sp)%nat.
Proof. unfold detect_base. repeat case_match; cbn; lia. Qed.

(** [mpz_set_str] reads what the string means; for a string that is not a number it
    returns -1 and the variable is 0. *)
Lemma wp_mpz_set_str s σ r w sp base Q E :
  zok F s σ → σ !! r = Some (Some w) → base = 0 ∨ 2 ≤ base ≤ 36 → Z.of_nat (length sp) ≤ INT_MAX →
  (∀ s', zok F s' (<[r := Some (default 0 (text_value base sp))]> σ) → Q (match text_value base sp with Some _ => 0 | None => -1 end) s') →
  wp (mpz_set_str r sp base) Q E s.
Proof.
  intros Hok Hr Hbase Hlen HQ. unfold mpz_set_str. apply wp_bind, wp_zassert.
  { destruct Hbase as [->|[H2 H36]]; [done|]. rewrite (proj2 (Z.leb_le 2 base)), (proj2 (Z.leb_le base 36)), orb_true_r by done. done. }
  rewrite text_value_scan in HQ. unfold scan_value in HQ. cbv zeta in HQ |- *. fold (sign_of (skip_spaces sp)). set (sign := sign_of (skip_spaces sp)) in *.
  set (sp1 := if sign then drop 1 (skip_spaces sp) else skip_spaces sp) in *.
  assert (length sp1 ≤ length sp)%nat as Hl1 by (pose proof (length_skip_spaces sp); unfold sp1; destruct sign; rewrite ?length_drop; lia). clearbody sign sp1.
  assert (∃ b sp2, (if base =? 0 then detect_base sp1 else (base, sp1)) = (b, sp2) ∧ 2 ≤ b ≤ 36 ∧ (length sp2 ≤ length sp)%nat) as (b & sp2 & Hb2 & Hb & Hl2).
  { pose proof (detect_base_ok sp1) as [H1 H2]. destruct (Z.eqb_spec base 0); [|exists base, sp1; split_and!; try done; lia].
    destruct (detect_base sp1) as [b sp2]. cbn in *. exists b, sp2. split_and!; try done; lia. }
  rewrite Hb2 in HQ |- *. assert (∀ Q', (∀ s', zok F s' (<[r := Some 0]> σ) → Q' (-1) s') → wp (_ ← set_size r 0; mret (-1)) Q' E s) as Hfail.
  { intros Q' HQ'. apply wp_bind. eapply wp_set_size_0; try done. }
  case_bool_decide as Hnil.
  { subst sp2. cbn in HQ. by apply Hfail. }
  pose proof (parse_digits_ok b sp2 ltac:(lia) [] (arr_new (Z.of_nat (length sp2)))) as Hp. cbn [app fmap list_fmap length Z.of_nat] in Hp.
  specialize (Hp ltac:(unfold arr_new; rewrite length_replicate; lia)).
  destruct (mapM (str_digit b) (filter _ sp2)) as [ds|] eqn:Hm; cbn [mbind option_bind] in HQ.
  2:{ apply wp_bind. eapply wp_lift_ok; [exact Hp|]. by apply Hfail. }
  destruct Hp as (Hd & Hdl & Hp). apply wp_bind. eapply wp_lift_ok; [exact Hp|]. cbv beta iota.
  destruct (decide (ds = [])) as [->|Hne].
  { cbn in HQ |- *. by apply Hfail. }
  rewrite (proj2 (Z.eqb_neq _ 0)) by (destruct ds; [done|cbn; lia]). rewrite bool_decide_false in HQ by done. cbn [default] in HQ.
  apply wp_bind. eapply wp_set_str_limbs; try done; [lia|]. intros l s1 Hw Hv. apply wp_bind.
  eapply (wp_set_size_written F s s1 σ r l _ (if sign then - digits_val b ds else digits_val b ds)); [done|destruct sign; lia| |intros s2 Hok2; by apply wp_ret, HQ].
  pose proof (sgn_length l) as Hsl. destruct sign; rewrite ?Z.sgn_opp, ?Z.mul_opp_l, Hsl, Hv; done.
Qed.
End set_str.

(** ** There and back *)

Lemma digit_char_range upper d : 0 ≤ d < 36 → 48 ≤ digit_char upper d ≤ 57 ∨ 65 ≤ digit_char upper d ≤ 90 ∨ 97 ≤ digit_char upper d ≤ 122.
Proof. intros Hd. unfold digit_char. destruct (Z.ltb_spec d 10); [lia|]. destruct upper; lia. Qed.

Lemma digit_char_digit upper b d : 0 ≤ d < b → b ≤ 36 → str_digit b (digit_char upper d) = Some d.
Proof.
  intros Hd Hb. assert (char_digit b (digit_char upper d) = d) as Hc; [|unfold str_digit; by rewrite Hc, (proj2 (Z.leb_gt b d)) by lia].
  unfold char_digit, digit_char. destruct (Z.ltb_spec d 10) as [Hlt|Hge].
  - rewrite (proj2 (Z.leb_le 48 _)), (proj2 (Z.leb_le _ 57)) by lia. cbn [andb]. lia.
  - destruct upper.
    + rewrite (proj2 (Z.leb_gt _ 57)), andb_false_r, (proj2 (Z.leb_gt 97 _)), (proj2 (Z.leb_le 65 _)), (proj2 (Z.leb_le _ 90)) by lia. cbn [andb]. lia.
    + rewrite (proj2 (Z.leb_gt _ 57)), andb_false_r, (proj2 (Z.leb_le 97 _)), (proj2 (Z.leb_le _ 122)) by lia. cbn [andb]. lia.
Qed.

Lemma digit_char_plain upper d : 0 ≤ d < 36 → isspace (digit_char upper d) = false ∧ digit_char upper d ≠ 45 ∧ digit_char upper d ≠ 0.
Proof.
  intros Hd. pose proof (digit_char_range upper d Hd) as Hr. split; [|lia]. unfold isspace. rewrite (proj2 (Z.eqb_neq _ 32)), (proj2 (Z.leb_gt _ 13)), andb_false_r by lia. done.
Qed.

(** The digits of a numeral are read back. *)
Lemma read_digits upper b ds : digits b ds → b ≤ 36 → mapM (str_digit b) (filter (λ c, isspace c = false) (digit_char upper <$> ds)) = Some ds.
Proof.
  intros Hd Hb. induction Hd as [|d ds Hd Hds IH]; [done|]. cbn [fmap list_fmap]. rewrite filter_cons, decide_True by (apply digit_char_plain; lia).
  cbn [mapM]. rewrite digit_char_digit, IH by lia. done.
Qed.

Lemma text_value_text upper b x ds : 2 ≤ b ≤ 36 → numeral b (Z.abs x) ds → text_value b (text_of upper x ds) = Some x.
Proof.
  intros Hb (Hd & Hne & Hdv & _). pose proof (read_digits upper b ds Hd ltac:(lia)) as Hread. destruct ds as [|d ds]; [done|].
  pose proof Hd as [Hd0 _]%Forall_cons. pose proof (digit_char_plain upper d ltac:(lia)) as (Hsp & H45 & _).
  rewrite text_value_scan. unfold scan_value, text_of. assert ((b =? 0) = false) as -> by (apply Z.eqb_neq; lia).
  destruct (Z.ltb_spec x 0) as [Hx|Hx].
  - cbn [app skip_spaces]. change (isspace 45) with false. cbn [sign_of]. change (45 =? 45) with true. change (drop 1 (45 :: (digit_char upper <$> d :: ds))) with (digit_char upper <$> d :: ds). cbv iota. rewrite Hread. cbn [mbind option_bind]. rewrite bool_decide_false, Hdv by done. f_equal. lia.
  - cbn [app fmap list_fmap skip_spaces] in *. rewrite Hsp. cbn [sign_of]. rewrite (proj2 (Z.eqb_neq _ 45) H45). cbv iota. rewrite Hread. cbn [mbind option_bind].
    rewrite bool_decide_false, Hdv by done. f_equal. lia.
Qed.

(** The text has no terminator inside and is not much longer than the number. *)
Lemma text_of_chars upper b x ds : 2 ≤ b ≤ 36 → numeral b (Z.abs x) ds →
  Forall (λ c, c ≠ 0) (text_of upper x ds) ∧ Z.of_nat (length (text_of upper x ds)) ≤ 64 * nlimbs x + 2.
Proof.
  intros Hb Hnum. pose proof Hnum as (Hd & Hne & Hdv & Hz). unfold text_of. split.
  - apply Forall_app. split; [by destruct (x <? 0); repeat constructor|]. apply Forall_fmap. eapply Forall_impl; [exact Hd|]. intros d Hdd. cbn in *. apply digit_char_plain. lia.
  - rewrite length_app, length_fmap. pose proof (nlimbs_nonneg x). assert (Z.of_nat (length ds) ≤ 64 * nlimbs x + 1); [|destruct (x <? 0); cbn [length]; lia].
    destruct (Z.eq_dec x 0) as [->|Hx].
    + assert (ds = [0]) as ->; [|done]. apply Hz. destruct ds as [|d ds]; [done|]. pose proof (digits_room b (d :: ds) ltac:(lia) Hd Hne) as Hr. rewrite Hdv in Hr.
      destruct (Z.eq_dec d 0) as [->|Hd0]; [done|]. specialize (Hr ltac:(by intros [= ->])). pose proof (Z.pow_pos_nonneg b (Z.of_nat (length (d :: ds)))). lia.
    + assert (Z.of_nat (length ds) ≤ 64 * nlimbs x); [|lia]. eapply (numeral_length b (Z.abs x)); [lia| |done]. split; [lia|]. eapply Z.lt_le_trans; [apply abs_lt_pow|].
      change WB with (2 ^ 64). rewrite <- Z.pow_mul_r by lia. apply Z.pow_le_mono_l. lia.
Qed.
