(* ===== verification/MpzIOThm.v ===== *)
(** * Integers and sequences of bytes: correctness *)

From S2P Require Import Prelude CString Queue State UInt64 Mpn MpnMem MpnThm MpnBits MpnDiv MpnInv MpnDivThm MpnDivPi1 MpnCorrect MpnDivQr MpnStr MpnStrThm MpnSetStr Mpz MpzRep MpzArith MpzMul MpzDiv MpzConv MpzQuo MpzQuoThm MpzBits MpzNum MpzNumThm MpzStr MpzStrThm MpzIO.

(** ** Where the bytes are *)

(** The position of the byte of weight [256 ^ n] among [count] words of [size] bytes *)
Definition byte_pos (order endian size count n : Z) : Z :=
  (if order =? 1 then count - 1 - n / size else n / size) * size + (if endian =? 1 then size - 1 - n mod size else n mod size).

Definition direction (d : Z) : Prop := d = 1 ∨ d = -1.

Section positions.
Context (order endian size count : Z) (Ho : direction order) (He : direction endian) (Hsize : 0 < size).
Abbreviation pos := (byte_pos order endian size count).

Lemma byte_pos_split w j : 0 ≤ w < count → 0 ≤ j < size → (w * size + j) / size = w ∧ (w * size + j) mod size = j.
Proof. intros Hw Hj. rewrite Z.add_comm, Z.div_add, Z.mod_add, Z.div_small, Z.mod_small by lia. lia. Qed.

Lemma byte_pos_at w j : 0 ≤ w < count → 0 ≤ j < size →
  pos (w * size + j) = (if order =? 1 then count - 1 - w else w) * size + (if endian =? 1 then size - 1 - j else j).
Proof. intros Hw Hj. unfold byte_pos. by destruct (byte_pos_split w j Hw Hj) as [-> ->]. Qed.

Lemma byte_pos_cases n : 0 ≤ n < size * count → ∃ w j, n = w * size + j ∧ 0 ≤ w < count ∧ 0 ≤ j < size.
Proof.
  intros Hn. exists (n / size), (n mod size). pose proof (Z.div_mod n size ltac:(lia)). pose proof (Z.mod_pos_bound n size ltac:(lia)).
  split; [lia|]. split; [|done]. split; [apply Z.div_pos; lia|]. apply Z.div_lt_upper_bound; lia.
Qed.

Lemma byte_pos_range n : 0 ≤ n < size * count → 0 ≤ pos n < size * count.
Proof. intros (w & j & -> & Hw & Hj)%byte_pos_cases. rewrite byte_pos_at by done. destruct (order =? 1), (endian =? 1); nia. Qed.

(** Both orders are turned around by the same exchange. *)
Lemma byte_pos_involutive n : 0 ≤ n < size * count → pos (pos n) = n.
Proof.
  intros (w & j & -> & Hw & Hj)%byte_pos_cases. rewrite (byte_pos_at w j) by done.
  rewrite byte_pos_at by (destruct (order =? 1), (endian =? 1); lia). destruct (order =? 1), (endian =? 1); lia.
Qed.

Lemma byte_pos_inj n k : 0 ≤ n < size * count → 0 ≤ k < size * count → pos n = pos k → n = k.
Proof. intros Hn Hk E. by rewrite <- (byte_pos_involutive n), <- (byte_pos_involutive k), E. Qed.
End positions.

(** The pointer of the loops at the start of the word [w] *)
Definition word_start (order endian size count w : Z) : Z := first_byte count order size endian - order * size * w.

Lemma word_start_pos order endian size count w j : direction order → direction endian → size * count < 2 ^ 62 → 0 ≤ w < count → 0 ≤ j < size →
  word_start order endian size count w - endian * j = byte_pos order endian size count (w * size + j).
Proof.
  intros Ho He Hfit Hw Hj. rewrite byte_pos_at by (done || lia). unfold word_start, first_byte. rewrite (u64_small (size - 1)) by (unfold WB; nia).
  rewrite (u64_small (count - 1)) by (unfold WB; nia). rewrite (u64_small (size * _)) by (unfold WB; nia).
  destruct Ho as [-> | ->], He as [-> | ->]; cbn [Z.eqb Pos.eqb]; lia.
Qed.

Lemma word_start_next order endian size count w : direction order → direction endian → 0 ≤ size < 2 ^ 62 →
  word_start order endian size count w - endian * size + word_step_of order size endian = word_start order endian size count (w + 1).
Proof.
  intros Ho He Hs. unfold word_start, word_step_of, cast_ptrdiff, PTRDIFF_MAX. rewrite (u64_small (2 * size)) by (unfold WB; lia).
  rewrite (proj2 (Z.leb_le (2 * size) _)) by lia. destruct Ho as [-> | ->], He as [-> | ->]; cbn [Z.eqb Pos.eqb negb]; lia.
Qed.

(** The bytes in the order of their weights *)
Definition byte_at (order endian size count : Z) (bs : list Z) (n : nat) : Z := default 0 (bs !! Z.to_nat (byte_pos order endian size count (Z.of_nat n))).
Definition in_order (order endian size count : Z) (bs : list Z) : list Z := byte_at order endian size count bs <$> seq 0 (Z.to_nat (size * count)).

Lemma byte_at_range order endian size count bs n : digits 256 bs → 0 ≤ byte_at order endian size count bs n < 256.
Proof. intros Hd. unfold byte_at. destruct (bs !! _) as [x|] eqn:Ex; [|cbn; lia]. cbn. by eapply (Forall_lookup_1 _ _ _ _ Hd). Qed.

(** The byte order that an argument stands for *)
Definition byte_order (little : bool) (endian : Z) : Z := if endian =? 0 then (if little then -1 else 1) else endian.

Lemma gmp_detect_endian_ok little : gmp_detect_endian little = Ok (byte_order little 0).
Proof. by destruct little. Qed.

Lemma byte_order_direction little endian : -1 ≤ endian ≤ 1 → direction (byte_order little endian).
Proof. intros He. unfold byte_order, direction. destruct (Z.eqb_spec endian 0), little; lia. Qed.

(** ** Import *)

Section import.
Context (rp : ptr) (n : nat).

(** The bytes [done] are in the limbs written and in the limb being filled. *)
Definition import_state (m m1 : mem) (done : list Z) (limb bytes i : Z) : Prop :=
  ∃ lr, i = Z.of_nat (length lr) ∧ words lr ∧ holds m1 rp lr ∧ changed m m1 (λ q, within q rp n) ∧ 0 ≤ bytes < 8 ∧
    Z.of_nat (length done) = 8 * i + bytes ∧ 0 ≤ limb < 2 ^ (8 * bytes) ∧ ldigits 256 done = val lr + wpow (length lr) * limb.

Lemma import_state_nil m : import_state m m [] 0 0 0.
Proof. exists []. by split_and!. Qed.

Lemma limb_byte limb bytes x : 0 ≤ bytes < 8 → 0 ≤ limb < 2 ^ (8 * bytes) → 0 ≤ x < 256 →
  Z.lor limb (u64 (Z.shiftl x (bytes * CHAR_BIT))) = limb + 2 ^ (8 * bytes) * x ∧ limb + 2 ^ (8 * bytes) * x < 2 ^ (8 * (bytes + 1)).
Proof.
  intros Hb Hl Hx. replace (8 * (bytes + 1)) with (8 * bytes + 8) by lia. rewrite Z.pow_add_r by lia. change (2 ^ 8) with 256. split; [|nia].
  unfold CHAR_BIT. rewrite (Z.mul_comm bytes), Z.shiftl_mul_pow2 by lia. rewrite u64_small.
  - rewrite Z.lor_comm, lor_add by lia. lia.
  - assert (2 ^ (8 * bytes) * 256 ≤ WB); [|nia]. change WB with (2 ^ 56 * 256). assert (2 ^ (8 * bytes) ≤ 2 ^ 56) by (apply Z.pow_le_mono_r; lia). lia.
Qed.

Lemma ldigits_snoc b l d : ldigits b (l ++ [d]) = ldigits b l + b ^ Z.of_nat (length l) * d.
Proof. rewrite ldigits_app. cbn. lia. Qed.

Lemma bytes_pow lr bytes : 256 ^ (8 * Z.of_nat (length (lr : list Z)) + bytes) = wpow (length lr) * 2 ^ (8 * bytes) ∨ bytes < 0.
Proof.
  destruct (Z.lt_ge_cases bytes 0); [by right|]. left. unfold wpow. change WB with (2 ^ 64). change 256 with (2 ^ 8).
  rewrite <- !Z.pow_mul_r, <- Z.pow_add_r by lia. f_equal. lia.
Qed.

Lemma wp_import_byte {A} (f : Z → Z → Z → L A) m m1 done limb bytes i x Q E :
  import_state m m1 done limb bytes i → 0 ≤ x < 256 → (length done < 8 * n)%nat → space m rp n →
  (∀ m2 limb' bytes' i', import_state m m2 (done ++ [x]) limb' bytes' i' → wp (f limb' bytes' i') Q E m2) →
  wp (let limb := Z.lor limb (u64 (Z.shiftl x (bytes * CHAR_BIT))) in
      let bytes := bytes + 1 in
      if bytes =? LIMB_BYTES then _ ← store (padd rp i) limb; f 0 0 (i + 1) else f limb bytes i) Q E m1.
Proof.
  intros (lr & -> & Hw & Hh & Hc & Hb & Hlen & Hl & Hv) Hx Hroom Hsp Hf. cbv zeta. destruct (limb_byte limb bytes x Hb Hl Hx) as [-> Hlt].
  assert (ldigits 256 (done ++ [x]) = val lr + wpow (length lr) * (limb + 2 ^ (8 * bytes) * x)) as Hv'.
  { rewrite ldigits_snoc, Hlen, Hv. destruct (bytes_pow lr bytes) as [->|]; lia. }
  assert (0 ≤ limb + 2 ^ (8 * bytes) * x) as H0 by nia. unfold LIMB_BYTES.
  destruct (Z.eqb_spec (bytes + 1) 8) as [E8|N8].
  - apply wp_bind, wp_store_writes; [apply (changed_space _ _ _ _ _ Hc Hsp); lia|]. intros m2 Hw2. apply Hf.
    assert (length lr < n)%nat as Hn by lia. rewrite E8 in Hlt. change (2 ^ (8 * 8)) with WB in Hlt.
    exists (lr ++ [limb + 2 ^ (8 * bytes) * x]). rewrite !length_app. cbn [length]. split_and!; try lia.
    + apply Forall_app. split; [done|]. by repeat constructor.
    + by eapply (holds_snoc rp).
    + eapply changed_trans; [exact Hc|]. by eapply (within_changed rp).
    + rewrite Hv', val_app. cbn [val]. lia.
  - apply Hf. exists lr. rewrite length_app. cbn [length]. split_and!; try done; lia.
Qed.

Lemma wp_import_word src endian xs : ∀ m m1 done p limb bytes i Q E,
  import_state m m1 done limb bytes i → digits 256 xs → (∀ j x, xs !! j = Some x → arr_get src (p - endian * Z.of_nat j) = Ok x) →
  (length done + length xs ≤ 8 * n)%nat → space m rp n →
  (∀ m2 limb' bytes' i', import_state m m2 (done ++ xs) limb' bytes' i' → Q (p - endian * Z.of_nat (length xs), limb', bytes', i') m2) →
  wp (import_word (length xs) rp src endian p limb bytes i) Q E m1.
Proof.
  induction xs as [|x xs IH]; intros m m1 done p limb bytes i Q E Hst Hd Hsrc Hroom Hsp HQ; cbn [import_word length].
  { rewrite app_nil_r in HQ. apply wp_ret. specialize (HQ m1 limb bytes i Hst). cbn in HQ. by rewrite Z.mul_0_r, Z.sub_0_r in HQ. }
  apply Forall_cons in Hd as [Hx Hxs]. cbn [length] in Hroom. apply wp_bind. eapply wp_lift_ok.
  { specialize (Hsrc 0%nat x eq_refl). by rewrite Z.mul_0_r, Z.sub_0_r in Hsrc. }
  apply (wp_import_byte (import_word (length xs) rp src endian (p - endian)) m m1 done limb bytes i x Q E); try done; [lia|].
  intros m2 limb' bytes' i' Hst'. eapply (IH m m2 (done ++ [x])); try done.
  - intros j y Hj. replace (p - endian - endian * Z.of_nat j) with (p - endian * Z.of_nat (S j)) by lia. by apply Hsrc.
  - rewrite length_app. cbn. lia.
  - intros m3 l b k. rewrite <- app_assoc. cbn [app]. intros H3%HQ. cbn [length] in H3.
    by replace (p - endian - endian * Z.of_nat (length xs)) with (p - endian * Z.of_nat (S (length xs))) by lia.
Qed.

(** The bytes of weight [256 ^ k] on *)
Abbreviation bytes_from f k c := (f <$> seq k c).

Lemma wp_import_words src endian size step f (start : Z → Z) c : ∀ w m m1 limb bytes i Q E,
  import_state m m1 (bytes_from f 0 (w * size)) limb bytes i → (∀ k, 0 ≤ f k < 256) →
  (∀ v j, (v < w + c)%nat → (j < size)%nat → arr_get src (start (Z.of_nat v) - endian * Z.of_nat j) = Ok (f (v * size + j)%nat)) →
  (∀ v, start v - endian * Z.of_nat size + step = start (v + 1)) → ((w + c) * size ≤ 8 * n)%nat → space m rp n →
  (∀ m2 limb' bytes' i', import_state m m2 (bytes_from f 0 ((w + c) * size)) limb' bytes' i' → Q (limb', bytes', i') m2) →
  wp (import_words c size rp src endian step (start (Z.of_nat w)) limb bytes i) Q E m1.
Proof.
  induction c as [|c IH]; intros w m m1 limb bytes i Q E Hst Hf Hsrc Hstep Hroom Hsp HQ; cbn [import_words].
  { apply wp_ret, HQ. by rewrite Nat.add_0_r. }
  apply wp_bind. rewrite <- (length_seq size (w * size)) at 1. rewrite <- (length_fmap f).
  eapply (wp_import_word src endian (bytes_from f (w * size) size)); try done.
  - apply Forall_fmap, Forall_true. intros k. apply Hf.
  - intros j x Hj. apply list_lookup_fmap_Some in Hj as (k & -> & Hk). apply lookup_seq in Hk as [-> Hj].
    apply Hsrc; lia.
  - rewrite !length_fmap, !length_seq. nia.
  - intros m2 l b k Hst2. rewrite length_fmap, length_seq, Hstep. replace (Z.of_nat w + 1) with (Z.of_nat (S w)) by lia.
    apply (IH (S w) m); try done.
    + replace (S w * size)%nat with (w * size + size)%nat by lia. by rewrite seq_app, fmap_app.
    + intros v j Hv. apply Hsrc. lia.
    + lia.
    + intros m3 l' b' k'. replace (S w + c)%nat with (w + S c)%nat by lia. apply HQ.
Qed.
End import.

(** ** Export *)

(** The byte of weight [256 ^ n] of a number *)
Definition byte_of (v : Z) (n : nat) : Z := v / 256 ^ Z.of_nat n mod 256.

Lemma ldigits_byte_of v n : 0 ≤ v → ldigits 256 (byte_of v <$> seq 0 n) = v mod 256 ^ Z.of_nat n.
Proof.
  intros Hv. induction n as [|n IH]; [by rewrite Z.pow_0_r, Z.mod_1_r|]. rewrite seq_S, fmap_app, ldigits_app, IH, length_fmap, length_seq. cbn [fmap list_fmap ldigits foldr].
  rewrite Nat2Z.inj_succ, Z.pow_succ_r, (Z.mul_comm 256 (256 ^ _)) by lia. pose proof (Z.pow_pos_nonneg 256 (Z.of_nat n) ltac:(lia) ltac:(lia)).
  rewrite Z.rem_mul_r by lia. unfold byte_of. cbn [Nat.add]. lia.
Qed.

Section export.
Context (order endian size count : Z) (Hs : 0 < size) (lu : list Z) (Hlu : words lu) (r0 : arr Z).
Context (Hlen : size * count ≤ Z.of_nat (length r0)).
Abbreviation pos := (byte_pos order endian size count).
Abbreviation N := (size * count).
Abbreviation un := (Z.of_nat (length lu)).

(** [k] bytes are written. *)
Definition export_state (k : nat) (limb bytes i : Z) (r : arr Z) : Prop :=
  0 ≤ bytes < 8 ∧ 0 ≤ limb < 2 ^ (8 * bytes) ∧ 0 ≤ i ≤ un ∧ (i < un → Z.of_nat k + bytes = 8 * i) ∧
  val lu / 256 ^ Z.of_nat k = limb + 2 ^ (8 * bytes) * val (drop (Z.to_nat i) lu) ∧
  length r = length r0 ∧ (∀ n, (n < k)%nat → r !! Z.to_nat (pos (Z.of_nat n)) = Some (Some (byte_of (val lu) n))) ∧
  (∀ q, N ≤ Z.of_nat q → r !! q = r0 !! q).

Lemma export_state_nil : export_state 0 0 0 0 r0.
Proof.
  split_and!; try done; try lia.
  change (256 ^ Z.of_nat 0) with 1. change (2 ^ (8 * 0)) with 1. change (Z.to_nat 0) with 0%nat. rewrite Z.div_1_r, drop_0. lia.
Qed.

(** A byte more: [limb] is what is left of the number above the [k] bytes, up to [bytes]. *)
Lemma export_state_byte k limb bytes i r :
  1 ≤ bytes ≤ 8 → 0 ≤ limb < 2 ^ (8 * bytes) → 0 ≤ i ≤ un → (i < un → Z.of_nat k + bytes = 8 * i) →
  val lu / 256 ^ Z.of_nat k = limb + 2 ^ (8 * bytes) * val (drop (Z.to_nat i) lu) →
  length r = length r0 → (∀ n, (n < k)%nat → r !! Z.to_nat (pos (Z.of_nat n)) = Some (Some (byte_of (val lu) n))) →
  (∀ q, N ≤ Z.of_nat q → r !! q = r0 !! q) → Z.of_nat k < N →
  arr_set r (pos (Z.of_nat k)) (limb mod 256) = Ok (<[Z.to_nat (pos (Z.of_nat k)) := Some (limb mod 256)]> r) ∧
  export_state (S k) (Z.shiftr limb CHAR_BIT) (bytes - 1) i (<[Z.to_nat (pos (Z.of_nat k)) := Some (limb mod 256)]> r).
Proof.
  intros Hb Hl Hi Hk Hv Hr Hdone Hrest HkN. pose proof (byte_pos_range order endian size count Hs (Z.of_nat k) ltac:(lia)) as Hp.
  assert (2 ^ (8 * bytes) = 256 * 2 ^ (8 * (bytes - 1))) as Hpow by (replace (8 * bytes) with (8 + 8 * (bytes - 1)) by lia; rewrite Z.pow_add_r by lia; done).
  assert (limb mod 256 = byte_of (val lu) k) as Hbyte.
  { unfold byte_of. rewrite Hv, Hpow, <- Z.mul_assoc, (Z.mul_comm 256), Z.mod_add by lia. done. }
  split; [apply arr_set_ok; unfold arr_len; lia|]. unfold CHAR_BIT. rewrite Z.shiftr_div_pow2 by lia. change (2 ^ 8) with 256. rewrite Hpow in *.
  split_and!; try lia.
  - apply Z.div_pos; lia.
  - apply Z.div_lt_upper_bound; lia.
  - rewrite Nat2Z.inj_succ, Z.pow_succ_r, (Z.mul_comm 256), <- Z.div_div by (try apply Z.pow_pos_nonneg; lia). rewrite Hv, <- Z.mul_assoc, (Z.mul_comm 256), Z.div_add by lia. lia.
  - by rewrite length_insert.
  - intros n Hn. destruct (decide (n = k)) as [->|Hne]; [rewrite list_lookup_insert_eq by lia; by rewrite Hbyte|].
    pose proof (byte_pos_range order endian size count Hs (Z.of_nat n) ltac:(lia)). rewrite list_lookup_insert_ne; [apply Hdone; lia|]. intros He.
    apply Hne. assert (pos (Z.of_nat n) = pos (Z.of_nat k)) as Hpp by lia. apply byte_pos_inj in Hpp; lia.
  - intros q Hq. rewrite list_lookup_insert_ne by lia. by apply Hrest.
Qed.

Lemma wp_export_word ud c : ∀ k p limb bytes i r m Q E,
  holds m ud lu → export_state k limb bytes i r → Z.of_nat k + Z.of_nat c ≤ N →
  (∀ j, (j < c)%nat → p - endian * Z.of_nat j = pos (Z.of_nat (k + j))) →
  (∀ limb' bytes' i' r', export_state (k + c) limb' bytes' i' r' → Q (p - endian * Z.of_nat c, limb', bytes', i', r') m) →
  wp (export_word c ud un endian p limb bytes i r) Q E m.
Proof.
  induction c as [|c IH]; intros k p limb bytes i r m Q E Hh Hst HN Hpos HQ; cbn [export_word].
  { rewrite Nat.add_0_r in HQ. apply wp_ret. specialize (HQ _ _ _ _ Hst). by rewrite Z.mul_0_r, Z.sub_0_r in HQ. }
  destruct Hst as (Hb & Hl & Hi & Hk & Hv & Hr & Hdone & Hrest). apply wp_bind.
  assert (∀ limb' bytes' i', 1 ≤ bytes' ≤ 8 → 0 ≤ limb' < 2 ^ (8 * bytes') → 0 ≤ i' ≤ un → (i' < un → Z.of_nat k + bytes' = 8 * i') →
    val lu / 256 ^ Z.of_nat k = limb' + 2 ^ (8 * bytes') * val (drop (Z.to_nat i') lu) →
    wp (r ← lift (arr_set r p (limb' mod 256)); export_word c ud un endian (p - endian) (Z.shiftr limb' CHAR_BIT) (bytes' - 1) i' r) Q E m) as Hgo.
  { intros limb' bytes' i' Hb' Hl' Hi' Hk' Hv'. specialize (Hpos 0%nat ltac:(lia)) as Hp. rewrite Nat.add_0_r, Z.mul_0_r, Z.sub_0_r in Hp. rewrite Hp.
    destruct (export_state_byte k limb' bytes' i' r) as [Hset Hst]; try done; [lia|]. apply wp_bind. eapply wp_lift_ok; [exact Hset|].
    eapply (IH (S k)); try done; [lia| |].
    - intros j Hj. rewrite <- Hp. replace (p - endian - endian * Z.of_nat j) with (p - endian * Z.of_nat (S j)) by lia. rewrite Hpos by lia. do 2 f_equal. lia.
    - intros l b x y. rewrite <- Hp. replace (S k + c)%nat with (k + S c)%nat by lia. intros H%HQ. by replace (p - endian - endian * Z.of_nat c) with (p - endian * Z.of_nat (S c)) by lia. }
  destruct (Z.eqb_spec bytes 0) as [->|Hb0]; [|apply wp_ret; apply Hgo; try done; lia].
  change (2 ^ (8 * 0)) with 1 in *. assert (limb = 0) as -> by lia. unfold LIMB_BYTES. destruct (Z.ltb_spec i un) as [Hlt|Hge].
  - destruct (lookup_lt_is_Some_2 lu (Z.to_nat i)) as [x Hx]; [lia|]. apply wp_bind. specialize (Hh _ _ Hx). rewrite Z2Nat.id in Hh by lia. eapply wp_load; [done|].
    apply wp_ret. pose proof (Forall_lookup_1 _ _ _ _ Hlu Hx) as Hwx. apply Hgo; try lia; [by change (2 ^ (8 * 8)) with WB|].
    rewrite Hv, (drop_S _ _ _ Hx). cbn [val]. replace (Z.to_nat (i + 1)) with (S (Z.to_nat i)) by lia. change (2 ^ (8 * 8)) with WB. lia.
  - apply wp_ret. assert (i = un) as -> by lia. apply Hgo; try lia. rewrite Hv, Nat2Z.id, drop_all. cbn. lia.
Qed.

Lemma wp_export_words ud c : ∀ w limb bytes i r m Q E,
  direction order → direction endian → N < 2 ^ 62 → Z.of_nat w + Z.of_nat c = count →
  holds m ud lu → export_state (w * Z.to_nat size) limb bytes i r →
  (∀ limb' bytes' i' r', export_state (Z.to_nat N) limb' bytes' i' r' → Q (i', r') m) →
  wp (export_words c (Z.to_nat size) ud un endian (word_step_of order size endian) (word_start order endian size count (Z.of_nat w)) limb bytes i r) Q E m.
Proof.
  induction c as [|c IH]; intros w limb bytes i r m Q E Ho He HN Hw Hh Hst HQ; cbn [export_words].
  { apply wp_ret. eapply HQ. by replace (Z.to_nat N) with (w * Z.to_nat size)%nat by nia. }
  apply wp_bind. eapply wp_export_word; try done; [nia| |].
  - intros j Hj. rewrite word_start_pos by (done || lia). f_equal. lia.
  - intros limb' bytes' i' r' Hst'. rewrite Z2Nat.id, word_start_next by (done || nia). replace (Z.of_nat w + 1) with (Z.of_nat (S w)) by lia.
    apply (IH (S w)); try done; [lia|]. by replace (S w * Z.to_nat size)%nat with (w * Z.to_nat size + Z.to_nat size)%nat by lia.
Qed.

(** All the bytes are written, and nothing else. *)
Lemma export_state_end limb bytes i r : 0 ≤ N → 8 * (un - 1) < N → export_state (Z.to_nat N) limb bytes i r →
  i = un ∧ ∃ bs, r = (Some <$> bs) ++ drop (Z.to_nat N) r0 ∧ Z.of_nat (length bs) = N ∧ digits 256 bs ∧ in_order order endian size count bs = byte_of (val lu) <$> seq 0 (Z.to_nat N).
Proof.
  intros HN0 Hun (Hb & Hl & Hi & Hk & Hv & Hr & Hdone & Hrest).
  split; [lia|]. set (bs := (λ q : nat, byte_of (val lu) (Z.to_nat (pos (Z.of_nat q)))) <$> seq 0 (Z.to_nat N)).
  assert (∀ q, (q < Z.to_nat N)%nat → bs !! q = Some (byte_of (val lu) (Z.to_nat (pos (Z.of_nat q))))) as Hbs.
  { intros q Hq. unfold bs. by rewrite list_lookup_fmap, lookup_seq_lt. }
  assert (length bs = Z.to_nat N) as Hlb by (unfold bs; by rewrite length_fmap, length_seq). exists bs. split_and!; [|lia| |].
  - apply list_eq. intros q. destruct (decide (q < Z.to_nat N)%nat) as [Hq|Hq].
    + rewrite lookup_app_l by (rewrite length_fmap; lia). rewrite list_lookup_fmap, Hbs by done. cbn.
      pose proof (byte_pos_range order endian size count Hs (Z.of_nat q) ltac:(lia)) as Hp. specialize (Hdone (Z.to_nat (pos (Z.of_nat q))) ltac:(lia)).
      rewrite Z2Nat.id, byte_pos_involutive, Nat2Z.id in Hdone by lia. done.
    + rewrite lookup_app_r by (rewrite length_fmap; lia). rewrite length_fmap, Hlb, lookup_drop, Hrest by lia. f_equal. lia.
  - apply Forall_fmap, Forall_true. intros q. unfold byte_of. cbn. apply Z.mod_pos_bound. lia.
  - unfold in_order. apply list_fmap_ext. intros j n Hj%lookup_seq. destruct Hj as [-> Hj]. unfold byte_at. cbn [Nat.add].
    pose proof (byte_pos_range order endian size count Hs (Z.of_nat j) ltac:(lia)) as Hp. rewrite Hbs by lia. cbn. by rewrite Z2Nat.id, byte_pos_involutive, Nat2Z.id by lia.
Qed.
End export.

Lemma limbs_of_bytes n : 0 ≤ n → n < 2 ^ 62 → u64 (u64 (u64 n + LIMB_BYTES) - 1) / LIMB_BYTES = (n + 7) / 8.
Proof. intros H0 H1. unfold LIMB_BYTES. rewrite (u64_small n) by (unfold WB; lia). rewrite !u64_small by (rewrite ?u64_small; unfold WB; lia). f_equal. lia. Qed.

Section import_export.
Context (F : mem) (little : bool).
Implicit Types (s : zstate) (σ : gmap positive (option Z)).

Lemma wp_byte_order {A} endian (f : Z → MZ A) s Q E : wp (f (byte_order little endian)) Q E s →
  wp (endian ← (if endian =? 0 then lift (gmp_detect_endian little) else mret endian); f endian) Q E s.
Proof.
  intros Hf. apply wp_bind. unfold byte_order in Hf. destruct (Z.eqb_spec endian 0) as [->|]; [|by apply wp_ret].
  eapply wp_lift_ok; [apply gmp_detect_endian_ok|done].
Qed.

(** The last limb, when it is only partly filled, is stored; otherwise leading zeros go. *)
Lemma wp_import_end s0 s σ r z lr limb m rn v Q E :
  zok F s σ → is_Some (σ !! r) → z_vars s !! r = Some z → sizes_kept s0 s → words lr → word limb → holds m (mp_d z) lr →
  changed (z_mem s) m (λ q, within q (mp_d z) (Z.to_nat rn)) → space (z_mem s) (mp_d z) (Z.to_nat rn) → rn ≤ mp_alloc z →
  Z.of_nat (length lr) + b2z (negb (limb =? 0)) ≤ rn → v = val lr + wpow (length lr) * limb →
  (∀ s', zok F s' (<[r := Some v]> σ) → Q tt s') →
  wp (i ← (if negb (limb =? 0) then _ ← limbs (store (padd (mp_d z) (Z.of_nat (length lr))) limb); mret (Z.of_nat (length lr) + 1)
           else limbs (mpn_normalized_size (mp_d z) (Z.of_nat (length lr)))); set_size r i) Q E (set_zmem m s).
Proof.
  intros Hok Hr Hz Hk Hw Hwl Hh Hc Hsp Hal Hroom -> HQ. apply wp_bind.
  assert (∀ m', changed m m' (λ q, within q (mp_d z) (Z.to_nat rn)) → changed (z_mem s) m' (λ q, within q (mp_d z) (Z.to_nat (mp_alloc z)))) as Hc'.
  { intros m' Hm'. eapply changed_mono; [eapply changed_trans; [exact Hc|exact Hm']|]. intros q [Hq1 Hq2]. split; [done|lia]. }
  destruct (Z.eqb_spec limb 0) as [->|Hne]; cbn [negb b2z] in *.
  - apply wp_zoom, wp_mpn_normalized_size; [done|]. intros k Hkl Hn El. assert (length (take k lr) = k) as Hlk by (rewrite length_take; lia).
    rewrite El in Hh. apply holds_app in Hh as [Hh _]. assert (val (take k lr) = val lr) as Hv by (rewrite El at 2; rewrite val_app, val_zeros; lia).
    change (set_zmem m (set_zmem m s)) with (set_zmem m s). rewrite <- Hlk.
    eapply (wp_set_size_written F s0 _ σ r (take k lr) _ (val lr + wpow (length lr) * 0)); [|lia|rewrite sgn_length; lia|done].
    eapply (zok_written F s0 s σ r z); try done; [lia|apply Hc', changed_refl|by apply Forall_take].
  - apply wp_bind, wp_zoom, wp_store_writes; [apply (changed_space _ _ _ _ _ Hc Hsp); lia|]. intros m' Hm'. apply wp_ret.
    change (set_zmem m' (set_zmem m s)) with (set_zmem m' s).
    replace (Z.of_nat (length lr) + 1) with (Z.of_nat (length (lr ++ [limb]))) by (rewrite length_app; cbn; lia).
    eapply (wp_set_size_written F s0 _ σ r (lr ++ [limb]) _ (val lr + wpow (length lr) * limb)); [|lia|rewrite sgn_length, val_app; cbn [val]; lia|done].
    eapply (zok_written F s0 s σ r z); try done; [rewrite length_app; cbn; lia|apply Hc'; eapply (within_changed (mp_d z)); [|done]; lia|by eapply (holds_snoc (mp_d z))| |].
    + apply Forall_app. auto.
    + intros y. rewrite last_snoc. by intros [= <-].
Qed.

Lemma wp_mpz_import s σ r w count order size endian bs (rest : arr Z) Q E :
  zok F s σ → σ !! r = Some (Some w) → direction order → -1 ≤ endian ≤ 1 → 0 ≤ size < 2 ^ 62 → 0 ≤ count →
  Z.of_nat (length bs) = size * count → digits 256 bs → size * count ≤ 8 * INT_MAX →
  (∀ s', zok F s' (<[r := Some (ldigits 256 (in_order order (byte_order little endian) size count bs))]> σ) → Q tt s') →
  wp (mpz_import little r count order size endian 0 ((Some <$> bs) ++ rest)) Q E s.
Proof.
  intros Hok Hr Ho He Hs Hc Hlen Hd Hfit HQ. unfold mpz_import. cbn [Z.eqb negb]. apply wp_bind, wp_zassert; [by destruct Ho as [-> | ->]|].
  apply wp_bind, wp_zassert; [by rewrite (proj2 (Z.leb_le _ _)), (proj2 (Z.leb_le _ _)) by lia|]. apply wp_byte_order.
  pose proof (byte_order_direction little endian He) as He'. set (en := byte_order little endian) in *. clearbody en. cbv zeta. unfold INT_MAX in *.
  rewrite limbs_of_bytes by lia. set (N := size * count) in *. pose proof (Z.div_mod (N + 7) 8 ltac:(lia)) as Hdm. pose proof (Z.mod_pos_bound (N + 7) 8 ltac:(lia)) as Hmb.
  apply wp_bind. eapply wp_realloc_target; try done; [unfold INT_MAX; lia|]. intros z s1 Hz Ha Hz0 Hsp Hk Hok1. apply wp_bind, wp_zoom.
  set (start := word_start order en size count). replace (first_byte count order size en) with (start (Z.of_nat 0)) by (unfold start, word_start; lia).
  set (rn := (N + 7) / 8) in *. assert (0 ≤ rn) as Hrn by lia.
  eapply (wp_import_words (mp_d z) (Z.to_nat rn) _ _ _ _ (byte_at order en size count bs) start _ 0 (z_mem s1)); try done.
  - apply import_state_nil.
  - intros k. by apply byte_at_range.
  - intros v j Hv Hj. cbn [Nat.add] in Hv. unfold start. rewrite word_start_pos by (done || lia).
    assert (Z.of_nat v * size + Z.of_nat j = Z.of_nat (v * Z.to_nat size + j)) as En by lia. rewrite En. unfold byte_at.
    assert (0 ≤ Z.of_nat (v * Z.to_nat size + j) < size * count) as Hin by nia.
    pose proof (byte_pos_range order en size count ltac:(lia) _ Hin) as Hp. apply arr_get_ok; [lia|].
    rewrite lookup_app_l by (rewrite length_fmap; lia). rewrite list_lookup_fmap.
    destruct (bs !! Z.to_nat (byte_pos order en size count _)) eqn:Eb; [done|]. apply lookup_ge_None in Eb. lia.
  - intros v. rewrite Z2Nat.id by lia. by apply word_start_next.
  - nia.
  - eapply space_sub; [done|lia].
  - intros m2 limb bytes i (lr & -> & Hw & Hh & Hch & Hb & Hlb & Hl & Hv). cbn [Nat.add] in *.
    assert (Z.to_nat count * Z.to_nat size = Z.to_nat (size * count))%nat as En by (unfold N in *; nia). rewrite En in *. fold (in_order order en size count bs) in Hv, Hlb.
    assert (Z.of_nat (length (in_order order en size count bs)) = N) as HlN by (unfold in_order; rewrite length_fmap, length_seq; lia). rewrite HlN in Hlb.
    apply wp_bind, wp_zassert; [apply Z.eqb_eq; destruct (Z.ltb_spec 0 bytes); cbn [b2z]; lia|].
    eapply (wp_import_end s s1 σ r z lr limb m2 rn); try done; [|eapply space_sub; [done|lia]|lia|].
    + split; [apply Hl|]. eapply Z.lt_le_trans; [apply Hl|]. change WB with (2 ^ 64). apply Z.pow_le_mono_r; lia.
    + destruct (Z.eqb_spec limb 0); cbn [negb b2z]; [lia|]. destruct (Z.eq_dec bytes 0) as [->|]; [cbn in Hl; lia|lia].
Qed.

(** ** How many bytes *)

Definition nbytes (x : Z) : Z := if x =? 0 then 0 else Z.log2 (Z.abs x) / 8 + 1.
Definition nwords (size x : Z) : Z := (nbytes x + size - 1) / size.

Lemma nbytes_unique x n : x ≠ 0 → ndigits 256 (Z.abs x) n → nbytes x = n.
Proof.
  intros Hx [Hn [Hlo Hhi]]. unfold nbytes. rewrite (proj2 (Z.eqb_neq x 0)) by done. change 256 with (2 ^ 8) in *. rewrite <- !Z.pow_mul_r in * by lia.
  assert (8 * (n - 1) ≤ Z.log2 (Z.abs x)) by (apply Z.log2_le_pow2; lia). assert (Z.log2 (Z.abs x) < 8 * n) by (apply Z.log2_lt_pow2; lia).
  assert (Z.log2 (Z.abs x) / 8 = n - 1); [|lia]. symmetry. apply (Z.div_unique _ _ _ (Z.log2 (Z.abs x) - 8 * (n - 1))); lia.
Qed.

Lemma nbytes_bound x : 0 ≤ nbytes x ∧ Z.abs x < 256 ^ nbytes x.
Proof.
  unfold nbytes. destruct (Z.eqb_spec x 0) as [->|Hx]; [done|]. pose proof (Z.log2_nonneg (Z.abs x)) as H0.
  pose proof (Z.div_mod (Z.log2 (Z.abs x)) 8 ltac:(lia)) as Hd. pose proof (Z.mod_pos_bound (Z.log2 (Z.abs x)) 8 ltac:(lia)). split; [lia|].
  change 256 with (2 ^ 8). rewrite <- Z.pow_mul_r by lia. apply Z.log2_lt_pow2; lia.
Qed.

Lemma nwords_bounds size x : 0 < size → nbytes x ≤ size * nwords size x < nbytes x + size.
Proof. intros Hs. unfold nwords. pose proof (Z.div_mod (nbytes x + size - 1) size ltac:(lia)). pose proof (Z.mod_pos_bound (nbytes x + size - 1) size Hs). lia. Qed.

Lemma top_bytes_ok fuel : ∀ limb k, 0 < limb < 256 ^ Z.of_nat fuel → ∃ n, top_bytes fuel limb k = Ok (k + n) ∧ ndigits 256 limb n.
Proof.
  induction fuel as [|fuel IH]; intros limb k Hl; [cbn in Hl; lia|]. cbn [top_bytes]. unfold CHAR_BIT. rewrite Z.shiftr_div_pow2 by lia. change (2 ^ 8) with 256.
  rewrite Nat2Z.inj_succ, Z.pow_succ_r in Hl by lia. pose proof (Z.div_mod limb 256 ltac:(lia)) as Hd. pose proof (Z.mod_pos_bound limb 256 ltac:(lia)).
  destruct (Z.eqb_spec (limb / 256) 0) as [E0|N0]; cbn [negb].
  - exists 1. split; [done|]. split; [lia|]. cbn. lia.
  - destruct (IH (limb / 256) (k + 1)) as (n & -> & Hn & Hlo & Hhi); [lia|]. exists (n + 1). split; [f_equal; lia|]. split; [lia|].
    replace (n + 1 - 1) with (Z.succ (n - 1)) by lia. replace (n + 1) with (Z.succ n) by lia. rewrite !Z.pow_succ_r by lia. lia.
Qed.

Lemma ndigits_limbs lo top n : words lo → ndigits 256 top n → ndigits 256 (val (lo ++ [top])) (n + 8 * Z.of_nat (length lo)).
Proof.
  intros Hw (Hn & Hlo & Hhi). pose proof (val_bound lo Hw) as Hb. rewrite val_app. cbn [val].
  assert (wpow (length lo) = 256 ^ (8 * Z.of_nat (length lo))) as Hp by (unfold wpow; change WB with (256 ^ 8); by rewrite <- Z.pow_mul_r by lia).
  rewrite Hp in *. split; [lia|]. replace (n + 8 * Z.of_nat (length lo) - 1) with ((n - 1) + 8 * Z.of_nat (length lo)) by lia. rewrite !Z.pow_add_r by lia. nia.
Qed.

(** The array, or the one that is allocated, has room for the words. *)
Definition export_room (r : option (arr Z)) (n : Z) : Prop := match r with Some a => n ≤ Z.of_nat (length a) | None => True end.
Definition export_rest (r : option (arr Z)) (n : Z) : arr Z := match r with Some a => drop (Z.to_nat n) a | None => [] end.

Lemma wp_mpz_export s σ u x r countp order size endian Q E :
  zok F s σ → σ !! u = Some (Some x) → x ≠ 0 → direction order → -1 ≤ endian ≤ 1 → 0 < size < 2 ^ 61 →
  export_room r (size * nwords size x) →
  (∀ bs, Z.of_nat (length bs) = size * nwords size x → digits 256 bs →
     in_order order (byte_order little endian) size (nwords size x) bs = byte_of (Z.abs x) <$> seq 0 (Z.to_nat (size * nwords size x)) →
     Q (Some ((Some <$> bs) ++ export_rest r (size * nwords size x)), (λ _, nwords size x) <$> countp) s) →
  wp (mpz_export little r countp order size endian 0 u) Q E s.
Proof.
  intros Hok Hu Hx Ho He Hs Hroom HQ. destruct (zok_operand F s σ u x Hok Hu) as (z & l & Hz & Hw & Hn & Hh & Hv & Hl & Hsz & Hal & _).
  pose proof (nlimbs_pos x Hx) as Hpos. unfold INT_MAX in Hal. unfold mpz_export. cbn [Z.eqb negb]. apply wp_bind, wp_zassert; [by destruct Ho as [-> | ->]|].
  apply wp_bind, wp_zassert; [by rewrite (proj2 (Z.leb_le _ _)), (proj2 (Z.leb_le _ _)) by lia|]. apply wp_bind. eapply wp_get_mpz; [done|].
  apply wp_bind, wp_zassert; [by rewrite (proj2 (Z.ltb_lt 0 size)) by lia|]. apply wp_bind. rewrite (proj2 (Z.eqb_neq (mp_size z) 0)) by lia. cbn [negb]. cbv zeta.
  rewrite Hsz, size_abs. destruct l as [|top lo _] using rev_ind; [cbn in Hl; lia|]. rewrite length_app in Hl. cbn [length] in Hl.
  pose proof Hh as [_ Hht]%holds_app. apply holds_cons in Hht as [Hct _]. pose proof Hw as [Hwl [Hwt _]%Forall_cons]%Forall_app. assert (top ≠ 0) as Ht0 by (apply Hn, last_snoc).
  apply wp_bind, wp_zoom. replace (nlimbs x - 1) with (Z.of_nat (length lo)) by lia. eapply wp_load; [done|]. rewrite zmem_id.
  apply wp_bind, wp_zassert; [by rewrite (proj2 (Z.eqb_neq top 0))|]. destruct (top_bytes_ok 8 top 0) as (k & -> & Hk); [unfold word in Hwt; change (256 ^ Z.of_nat 8) with WB; lia|].
  apply wp_bind. eapply wp_lift_ok; [done|]. pose proof (ndigits_limbs lo top k Hwl Hk) as HB. rewrite Hv in HB. pose proof (nbytes_unique x _ Hx HB) as HB'.
  assert (k ≤ 8) as Hk8. { destruct (Z.le_gt_cases k 8); [done|]. destruct Hk as (_ & Hk & _). assert (256 ^ 8 ≤ 256 ^ (k - 1)) by (apply Z.pow_le_mono_r; lia). unfold word in Hwt. change WB with (256 ^ 8) in Hwt. lia. }
  pose proof Hk as (Hk1 & _). unfold LIMB_BYTES. rewrite Z.add_0_l. rewrite (u64_small (k + _ + _)), u64_small by (unfold WB; lia).
  replace (k + Z.of_nat (length lo) * 8 + size - 1) with (nbytes x + size - 1) by lia. fold (nwords size x). pose proof (nwords_bounds size x ltac:(lia)) as Hnw. set (count := nwords size x) in *.
  assert (0 < count) as Hc0 by nia. assert (size * count < 2 ^ 62) as Hfit by lia. rewrite (u64_small (count * size)) by (unfold WB; lia).
  set (a := match r with Some a => a | None => arr_new (size * count) end).
  assert (size * count ≤ Z.of_nat (length a)) as Hla by (unfold a; destruct r; [done|]; unfold arr_new; rewrite length_replicate; lia).
  assert (drop (Z.to_nat (size * count)) a = export_rest r (size * count)) as Hrest by (unfold a; destruct r; [done|]; cbn; unfold arr_new; by rewrite drop_replicate, Nat.sub_diag).
  apply wp_bind. assert (∀ Q', Q' a s → wp (match r with Some r => mret r | None => _ ← zassert (0 <? count * size); mret (arr_new (count * size)) end : MZ (arr Z)) Q' E s) as Ha.
  { intros Q' HQ'. unfold a in HQ'. destruct r; [by apply wp_ret|]. apply wp_bind, wp_zassert; [apply Z.ltb_lt; nia|]. apply wp_ret. by rewrite (Z.mul_comm count). }
  apply Ha. clear Ha. apply wp_byte_order. pose proof (byte_order_direction little endian He) as He'. set (en := byte_order little endian) in *. clearbody en a.
  apply wp_bind, wp_zoom. replace (first_byte count order size en) with (word_start order en size count (Z.of_nat 0)) by (unfold word_start; lia).
  replace (nlimbs x) with (Z.of_nat (length (lo ++ [top]))) by (rewrite length_app; cbn; lia).
  eapply (wp_export_words order en size count ltac:(lia) (lo ++ [top]) Hw a Hla (mp_d z) _ 0); try done; [lia|apply export_state_nil|].
  intros limb bytes i r' Hst. apply (export_state_end order en size count ltac:(lia) (lo ++ [top]) a) in Hst as (-> & bs & -> & Hlb & Hdb & Hbs); [|lia|rewrite length_app; cbn; lia].
  apply wp_bind, wp_zassert; [by apply Z.eqb_eq|]. do 2 apply wp_ret. rewrite zmem_id, Hrest. rewrite Hv in Hbs. specialize (HQ bs Hlb Hdb Hbs). by destruct countp.
Qed.

(** 0 has no words; the array is returned as it is. *)
Lemma wp_mpz_export_0 s σ u r countp order size endian Q E :
  zok F s σ → σ !! u = Some (Some 0) → direction order → -1 ≤ endian ≤ 1 → Q (r, (λ _, 0) <$> countp) s → wp (mpz_export little r countp order size endian 0 u) Q E s.
Proof.
  intros Hok Hu Ho He HQ. destruct (zok_operand F s σ u 0 Hok Hu) as (z & l & Hz & _ & _ & _ & _ & _ & Hsz & _).
  unfold mpz_export. cbn [Z.eqb negb]. apply wp_bind, wp_zassert; [by destruct Ho as [-> | ->]|].
  apply wp_bind, wp_zassert; [by rewrite (proj2 (Z.leb_le _ _)), (proj2 (Z.leb_le _ _)) by lia|]. apply wp_bind. eapply wp_get_mpz; [done|]. rewrite Hsz.
  apply wp_bind, wp_zassert; [by rewrite orb_true_r|]. apply wp_bind, wp_ret, wp_ret. by destruct countp.
Qed.
End import_export.

(** ** Output *)

Lemma chars_strlen_ok l (rest : arr Z) : Forall (λ c, c ≠ 0) l → chars_strlen ((Some <$> (l ++ [0])) ++ rest) = Ok (Z.of_nat (length l)).
Proof.
  induction 1 as [|c l Hc _ IH]; [done|]. cbn [app fmap list_fmap chars_strlen length]. rewrite (proj2 (Z.eqb_neq c 0)) by done.
  rewrite IH. cbn [mbind outcome_bind]. f_equal. lia.
Qed.

Lemma chars_read_ok l (rest : arr Z) : ∀ pre, chars_read (length l) ((Some <$> (pre ++ l)) ++ rest) (Z.of_nat (length pre)) = Ok l.
Proof.
  induction l as [|c l IH]; intros pre; [done|]. cbn [chars_read length].
  rewrite (arr_get_at _ rest _ c) by (try lia; by rewrite Nat2Z.id, list_lookup_middle). cbn [mbind outcome_bind].
  specialize (IH (pre ++ [c])). rewrite length_app, <- app_assoc in IH. cbn [app length] in IH.
  replace (Z.of_nat (length pre) + 1) with (Z.of_nat (length pre + 1)) by lia. by rewrite IH.
Qed.

Lemma text_of_nonzero upper b x ds : b ≤ 36 → digits b ds → Forall (λ c, c ≠ 0) (text_of upper x ds).
Proof.
  intros Hb Hd. unfold text_of. apply Forall_app. split; [destruct (x <? 0); [by apply Forall_singleton|done]|].
  apply Forall_fmap. eapply Forall_impl; [exact Hd|]. intros d Hdd. cbn in *. destruct (digit_char_range upper d ltac:(lia)) as [?|[?|?]]; cbn; lia.
Qed.

Section output.
Context (F : mem) `{Stdio}.
Implicit Types (s : zstate) (σ : gmap positive (option Z)).

Lemma wp_mpz_out_str s σ stream base u x Q E :
  zok F s σ → σ !! u = Some (Some x) → -36 ≤ base ≤ 36 →
  (∀ ds s', zok F s' σ → numeral (get_base base) (Z.abs x) ds → Q (fwrite (text_of (base <? 0) x ds) stream) s') →
  wp (mpz_out_str stream base u) Q E s.
Proof.
  intros Hok Hu Hb HQ. unfold mpz_out_str. apply wp_bind. eapply (wp_mpz_get_str F s σ None); try done. intros ds rest s' Hok' Hn _.
  pose proof Hn as (Hd & _). assert (get_base base ≤ 36) as Hgb by (unfold get_base; destruct (Z.leb_spec (Z.abs base) 1); lia).
  pose proof (text_of_nonzero (base <? 0) _ x ds Hgb Hd) as Hnz. apply wp_bind. eapply wp_lift_ok; [by apply chars_strlen_ok|]. rewrite Nat2Z.id.
  apply wp_bind. eapply wp_lift_ok; [|by apply wp_ret, HQ]. rewrite fmap_app, <- app_assoc. apply (chars_read_ok _ _ []).
Qed.

(** Above base 36 there is no string, and its length is asked for all the same. *)
Lemma mpz_out_str_null s stream base u : 36 < Z.abs base → base ≠ INT_MIN → mpz_out_str stream base u s = Err NullDeref.
Proof.
  intros Hb Hmin. unfold mpz_out_str, mpz_get_str, mbind, M_bind, lift. rewrite (proj2 (Z.eqb_neq base INT_MIN)) by done.
  assert ((if 0 <=? base then base else - base) = Z.abs base) as -> by (destruct (Z.leb_spec 0 base); lia).
  rewrite (proj2 (Z.leb_gt (Z.abs base) 1)), (proj2 (Z.ltb_lt 36 (Z.abs base))) by lia. done.
Qed.
End output.
