(* ===== verification/MpzRoot.v ===== *)
(** * Roots: correctness

    Newton's iteration over the integers, from above: why its fixed point is the truncated
    root and how many rounds it takes, and then the functions of mini-gmp that use it. *)

From S2P Require Import Prelude CString Queue State UInt64 Mpn MpnMem MpnThm MpnBits MpnDiv MpnInv MpnDivThm MpnDivPi1 MpnCorrect MpnDivQr MpnStr MpnStrThm MpnSetStr Mpz MpzRep MpzArith MpzMul MpzDiv MpzConv MpzQuo MpzQuoThm MpzBits MpzNum MpzNumThm MpzPow MpzBitsThm MpzBitThm MpzStr MpzStrThm.

(** ** The truncated root *)

(** [r] is the root of degree [z] of the natural number [y], rounded down. *)
Definition is_root (z y r : Z) : Prop := 0 ≤ r ∧ r ^ z ≤ y < (r + 1) ^ z.

Lemma pow_mono a b z : 0 ≤ z → 0 ≤ a ≤ b → a ^ z ≤ b ^ z.
Proof. intros Hz Hab. apply Z.pow_le_mono_l. lia. Qed.

Lemma pow_cancel a b z : 0 ≤ z → 0 ≤ b → a ^ z < b ^ z → a < b.
Proof. intros Hz Hb Hlt. destruct (Z.lt_ge_cases a b); [done|]. pose proof (pow_mono b a z Hz ltac:(lia)). lia. Qed.

Lemma is_root_unique z y r r' : 0 < z → is_root z y r → is_root z y r' → r = r'.
Proof.
  intros Hz (H0 & H1 & H2) (H0' & H1' & H2').
  assert (r < r' + 1) by (apply (pow_cancel _ _ z); lia). assert (r' < r + 1) by (apply (pow_cancel _ _ z); lia). lia.
Qed.

(** The inequality of the means, for one number [r] and [k] numbers [a] *)
Lemma means k a r : 0 ≤ k → 0 ≤ a → 0 ≤ r → (k + 1) * r * a ^ k ≤ r ^ (k + 1) + k * a ^ (k + 1).
Proof.
  intros Hk Ha Hr. revert k Hk. apply natlike_ind; [rewrite !Z.pow_0_r, !Z.add_0_l, !Z.pow_1_r; lia|].
  intros k Hk IH. rewrite <- Z.add_1_r in *. rewrite !(Z.pow_add_r _ (k + 1) 1), !Z.pow_1_r by lia. rewrite !(Z.pow_add_r _ k 1), !Z.pow_1_r in * by lia.
  assert (0 ≤ (r - a) * (r ^ k * r - a ^ k * a)).
  { destruct (Z.le_ge_cases a r) as [Hle|Hle].
    - pose proof (pow_mono a r (k + 1) ltac:(lia) ltac:(lia)) as Hm. rewrite !Z.pow_add_r, !Z.pow_1_r in Hm by lia. apply Z.mul_nonneg_nonneg; lia.
    - pose proof (pow_mono r a (k + 1) ltac:(lia) ltac:(lia)) as Hm. rewrite !Z.pow_add_r, !Z.pow_1_r in Hm by lia. apply Z.mul_nonpos_nonpos; lia. }
  apply (Z.mul_le_mono_nonneg_r _ _ a Ha) in IH. nia.
Qed.

(** ** Newton's iteration *)

Definition newton (z y a : Z) : Z := (y / a ^ (z - 1) + a * (z - 1)) / z.

Section newton.
Context (z y : Z) (Hz : 1 ≤ z) (Hy : 1 ≤ y).

Lemma pow_pred a : a ^ z = a ^ (z - 1) * a.
Proof. replace z with (z - 1 + 1) at 1 by lia. by rewrite Z.pow_add_r, Z.pow_1_r by lia. Qed.

(** No step falls below a number whose power fits into [y]. *)
Lemma newton_above a r : 0 < a → 0 ≤ r → r ^ z ≤ y → r ≤ newton z y a.
Proof.
  intros Ha Hr Hle. pose proof (Z.pow_pos_nonneg a (z - 1) Ha ltac:(lia)) as Hp. pose proof (means (z - 1) a r ltac:(lia) ltac:(lia) Hr) as Hm.
  replace (z - 1 + 1) with z in Hm by lia. rewrite (pow_pred a) in Hm. apply Z.div_le_lower_bound; [lia|].
  enough (z * r - (z - 1) * a ≤ y / a ^ (z - 1)) by lia. apply Z.div_le_lower_bound; nia.
Qed.

Lemma newton_pos a : 0 < a → 0 < newton z y a.
Proof. intros Ha. pose proof (newton_above a 1 Ha ltac:(lia)) as Hm. rewrite Z.pow_1_l in Hm by lia. specialize (Hm Hy). lia. Qed.

(** Every step from above the root stays above it. *)
Lemma newton_upper a : 0 < a → y < (newton z y a + 1) ^ z.
Proof.
  intros Ha. pose proof (newton_pos a Ha). destruct (Z.lt_ge_cases y ((newton z y a + 1) ^ z)) as [|Hge]; [done|].
  pose proof (newton_above a (newton z y a + 1) Ha ltac:(lia) Hge). lia.
Qed.

(** A step that does not descend starts from a number whose power fits. *)
Lemma newton_stop a : 0 < a → a ≤ newton z y a → a ^ z ≤ y.
Proof.
  intros Ha Hle. pose proof (Z.pow_pos_nonneg a (z - 1) Ha ltac:(lia)) as Hp. unfold newton in Hle.
  pose proof (Z.mul_div_le (y / a ^ (z - 1) + a * (z - 1)) z ltac:(lia)) as H1. assert (a ≤ y / a ^ (z - 1)) as H2 by nia.
  pose proof (Z.mul_div_le y (a ^ (z - 1)) Hp). rewrite pow_pred. nia.
Qed.

(** Above the root [r], a step leaves at most [(z-1)/z] of the distance. *)
Lemma newton_distance a r : is_root z y r → r < a → z * (newton z y a - r) ≤ (z - 1) * (a - r).
Proof.
  intros (Hr & _ & Hlt) Ha. assert (0 < a) as Ha0 by lia. pose proof (Z.pow_pos_nonneg a (z - 1) Ha0 ltac:(lia)) as Hp.
  assert (y / a ^ (z - 1) ≤ r) as Hq.
  { enough (y / a ^ (z - 1) < r + 1) by lia. apply Z.div_lt_upper_bound; [done|]. rewrite pow_pred in Hlt.
    pose proof (pow_mono (r + 1) a (z - 1) ltac:(lia) ltac:(lia)). nia. }
  unfold newton. pose proof (Z.mul_div_le (y / a ^ (z - 1) + a * (z - 1)) z ltac:(lia)). lia.
Qed.

(** [n] rounds suffice from [a] if the distance, reduced [n] times, is below 1. *)
Definition rounds (n a r : Z) : Prop := (z - 1) ^ n * (a - r) < z ^ n.

Lemma rounds_0 a r : rounds 0 a r → a ≤ r.
Proof. unfold rounds. rewrite !Z.pow_0_r. lia. Qed.

Lemma rounds_step n a r : 0 ≤ n → is_root z y r → r < a → rounds (n + 1) a r → rounds n (newton z y a) r.
Proof.
  unfold rounds. intros Hn Hr Ha. rewrite !Z.pow_add_r, !Z.pow_1_r by lia. pose proof (newton_distance a r Hr Ha).
  pose proof (Z.pow_nonneg (z - 1) n ltac:(lia)). nia.
Qed.

(** [z] rounds halve the distance. *)
Lemma halving : 2 * (z - 1) ^ z ≤ z ^ z.
Proof.
  pose proof (means z (z - 1) z ltac:(lia) ltac:(lia) ltac:(lia)) as Hm. rewrite !Z.pow_add_r, !Z.pow_1_r in Hm by lia.
  assert (0 ≤ (z - 1) ^ z) by (apply Z.pow_nonneg; lia). nia.
Qed.

Lemma rounds_enough m n a r : 0 ≤ m → z * m ≤ n → a - r < 2 ^ m → r ≤ a → rounds n a r.
Proof.
  intros Hm Hn Hd Hra. unfold rounds. replace n with (z * m + (n - z * m)) by lia. rewrite !Z.pow_add_r by lia.
  assert (2 ^ m * (z - 1) ^ (z * m) ≤ z ^ (z * m)) as H1.
  { rewrite !Z.pow_mul_r, <- Z.pow_mul_l by lia. apply pow_mono; [done|]. split; [apply Z.mul_nonneg_nonneg; [lia|apply Z.pow_nonneg; lia]|apply halving]. }
  assert (0 < z ^ (z * m)) by (apply Z.pow_pos_nonneg; lia). assert (0 ≤ (z - 1) ^ (z * m)) by (apply Z.pow_nonneg; lia).
  pose proof (pow_mono (z - 1) z (n - z * m) ltac:(lia) ltac:(lia)) as H2. assert (0 ≤ (z - 1) ^ (n - z * m)) by (apply Z.pow_nonneg; lia).
  assert (0 < z ^ (n - z * m)) by (apply Z.pow_pos_nonneg; lia).
  assert ((z - 1) ^ (z * m) * (a - r) < z ^ (z * m)) as Hd2 by nia.
  apply Z.le_lt_trans with ((z - 1) ^ (z * m) * (a - r) * z ^ (n - z * m)); [|by apply Z.mul_lt_mono_pos_r].
  replace ((z - 1) ^ (z * m) * (z - 1) ^ (n - z * m) * (a - r)) with ((z - 1) ^ (z * m) * (a - r) * (z - 1) ^ (n - z * m)) by ring.
  apply Z.mul_le_mono_nonneg_l; [apply Z.mul_nonneg_nonneg; lia|done].
Qed.

(** One round: either the approximation descends, and needs one round less, or it is the
    root. *)
Lemma newton_round n a r : rounds n a r → is_root z y r → 0 < a → y < (a + 1) ^ z → 0 ≤ n →
  (newton z y a < a ∧ 0 < newton z y a ∧ y < (newton z y a + 1) ^ z ∧ 1 ≤ n ∧ rounds (n - 1) (newton z y a) r) ∨ (a ≤ newton z y a ∧ a = r).
Proof.
  intros Hrd Hr Ha Hup Hn. destruct (Z.lt_ge_cases (newton z y a) a) as [Hlt|Hge]; [left|right].
  - pose proof Hr as (Hr0 & Hr1 & _). pose proof (newton_above a r Ha Hr0 Hr1). destruct (Z.eq_dec n 0) as [->|Hn0]; [apply rounds_0 in Hrd; lia|].
    split_and!; [done|by apply newton_pos|by apply newton_upper|lia|]. apply rounds_step; [lia|done|lia|]. by replace (n - 1 + 1) with n by lia.
  - split; [done|]. apply (is_root_unique z y); [lia| |done]. split; [lia|]. split; [|done]. by apply newton_stop; [..|lia].
Qed.
End newton.

Lemma root_exists z y a : 1 ≤ z → 1 ≤ y → 0 ≤ a → y < (a + 1) ^ z → ∃ r, is_root z y r ∧ 1 ≤ r ≤ a.
Proof.
  intros Hz Hy Ha. revert a Ha. refine (natlike_ind (λ a, y < (a + 1) ^ z → ∃ r, is_root z y r ∧ 1 ≤ r ≤ a) _ _).
  { rewrite Z.pow_1_l by lia. lia. }
  intros a Ha IH Hup.
  destruct (Z.lt_ge_cases y ((a + 1) ^ z)) as [Hlt|Hge]; [destruct (IH Hlt) as (r & Hr & Hle); exists r; split; [done|lia]|].
  exists (a + 1). rewrite <- Z.add_1_r in Hup. split; [split; [lia|done]|lia].
Qed.

(** ** The loops *)

Section root.
Context (F : mem).
Implicit Types (s : zstate) (σ : gmap positive (option Z)).

Lemma wp_mpz_tdiv_q s σ q w n d x y Q E :
  zok F s σ → σ !! q = Some (Some w) → σ !! n = Some (Some x) → σ !! d = Some (Some y) → y ≠ 0 → nlimbs x < INT_MAX → nlimbs y < INT_MAX →
  (∀ s', zok F s' (<[q := Some (Z.quot x y)]> σ) → Q tt s') → wp (mpz_tdiv_q q n d) Q E s.
Proof.
  intros Hok Hq Hn Hd Hy Hnx Hny HQ. unfold mpz_tdiv_q. apply wp_bind.
  eapply (wp_mpz_div_qr F s σ (Some q) None n d x y); try done. by exists w.
Qed.

(** The approximations have the sign [g] of the number. *)
Definition sign_for (g z : Z) : Prop := g = 1 ∨ g = -1 ∧ Z.odd z = true.

Lemma sign_pow g z a : 1 ≤ z → sign_for g z → (g * a) ^ (z - 1) = a ^ (z - 1).
Proof.
  intros Hz [->|[-> Ho]]; [by rewrite Z.mul_1_l|]. replace (-1 * a) with (- a) by lia. apply Z.pow_opp_even.
  apply Z.odd_spec in Ho as [k Hk]. exists k. lia.
Qed.

Lemma sign_quot g z x y : sign_for g z → 0 ≤ x → 0 < y → Z.quot (g * x) y = g * (x / y).
Proof.
  intros [->|[-> _]] Hx Hy; [by rewrite !Z.mul_1_l, Z.quot_div_nonneg by lia|].
  replace (-1 * x) with (- x) by lia. rewrite Z.quot_opp_l, Z.quot_div_nonneg by lia. lia.
Qed.

Lemma sign_abs g z x : sign_for g z → 0 ≤ x → Z.abs (g * x) = x.
Proof. intros [->|[-> _]]; lia. Qed.

Lemma sign_nlimbs g z x : sign_for g z → 0 ≤ x → nlimbs (g * x) = nlimbs x.
Proof. intros Hg Hx. by rewrite <- nlimbs_abs, (sign_abs g z x). Qed.

(** One round for the square root of a positive number *)
Lemma wp_sqrt_round {A} (K : Z → MZ A) t u y Y s σ a w Q E :
  t ≠ u → t ≠ y → u ≠ y → 1 ≤ Y → zok F s σ → σ !! t = Some (Some a) → σ !! u = Some (Some w) → σ !! y = Some (Some Y) → 0 < a →
  nlimbs Y + 1 < INT_MAX → nlimbs a + 1 < INT_MAX →
  (∀ s', zok F s' (<[t := Some (newton 2 Y a)]> (<[u := Some a]> σ)) → wp (K (cmp_result (newton 2 Y a ?= a))) Q E s') →
  wp (_ ← mpz_swap u t; _ ← mpz_tdiv_q t y u; _ ← mpz_add t t u; _ ← mpz_tdiv_q_2exp t t 1; c ← mpz_cmpabs t u; K c) Q E s.
Proof.
  intros Htu Hty Huy HY Hok Ht Hu Hy Ha HnY Hna HK. apply wp_bind. eapply (wp_mpz_swap F s σ u t); try done. intros s1 Hok1.
  apply wp_bind. eapply (wp_mpz_tdiv_q s1 _ t w y u Y a); [done|by simplify_map_eq..|lia|lia|lia|]. intros s2 Hok2.
  rewrite Z.quot_div_nonneg in Hok2 by lia. assert (0 ≤ Y / a ≤ Y) as Hq by (split; [apply Z.div_pos; lia|apply Z.div_le_upper_bound; nia]).
  assert (nlimbs (Y / a) ≤ nlimbs Y) as Hnq by (apply nlimbs_le; lia).
  apply wp_bind. eapply (wp_mpz_add F s2 _ t (Y / a) t (Y / a) u a); [done|by simplify_map_eq..|lia|lia|]. intros s3 Hok3.
  pose proof (nlimbs_add (Y / a) a). apply wp_bind. eapply (wp_mpz_div_q_2exp F s3 _ t _ t (Y / a + a) 1); [done|by simplify_map_eq..|lia|lia|]. intros s4 Hok4.
  cbn [div_round fst] in Hok4. rewrite Z.pow_1_r, Z.quot_div_nonneg in Hok4 by lia.
  replace ((Y / a + a) / 2) with (newton 2 Y a) in Hok4 by (unfold newton; change (2 - 1) with 1; rewrite Z.pow_1_r, Z.mul_1_r; done).
  apply wp_bind. eapply (wp_mpz_cmpabs F s4 _ t (newton 2 Y a) u a); [done|by simplify_map_eq..|].
  pose proof (newton_pos 2 Y ltac:(lia) HY a Ha). rewrite !Z.abs_eq by lia. apply HK. same_store Hok4.
Qed.

(** One round for a root of any degree *)
Lemma wp_root_round {A} (K : Z → MZ A) t u v y z g Y s σ a w x Q E :
  t ≠ u → t ≠ v → t ≠ y → u ≠ v → u ≠ y → v ≠ y → 1 ≤ z < WB → sign_for g z → 1 ≤ Y →
  zok F s σ → σ !! t = Some (Some (g * a)) → σ !! u = Some (Some w) → σ !! v = Some (Some x) → σ !! y = Some (Some (g * Y)) → 0 < a →
  nlimbs Y + 1 < INT_MAX → nlimbs a + 2 < INT_MAX → nlimbs (a ^ (z - 1)) < INT_MAX →
  (∀ s' x', zok F s' (<[t := Some (g * newton z Y a)]> (<[u := Some (g * a)]> (<[v := Some x']> σ))) → wp (K (cmp_result (newton z Y a ?= a))) Q E s') →
  wp (_ ← mpz_swap u t; _ ← mpz_pow_ui t u (z - 1); _ ← mpz_tdiv_q t y t; _ ← mpz_mul_ui v u (z - 1); _ ← mpz_add t t v;
      _ ← mpz_tdiv_q_ui t t z; c ← mpz_cmpabs t u; K c) Q E s.
Proof.
  intros Htu Htv Hty Huv Huy Hvy Hz Hg HY Hok Ht Hu Hv Hy Ha HnY Hna Hnp HK. apply wp_bind. eapply (wp_mpz_swap F s σ u t); try done. intros s1 Hok1.
  apply wp_bind. eapply (wp_mpz_pow_ui F s1 _ t w u (g * a) (z - 1)); [done|by simplify_map_eq..|lia|by rewrite sign_pow by (done || lia)|]. intros s2 Hok2.
  rewrite sign_pow in Hok2 by (done || lia). pose proof (Z.pow_pos_nonneg a (z - 1) Ha ltac:(lia)) as Hp. set (p := a ^ (z - 1)) in *.
  apply wp_bind. eapply (wp_mpz_tdiv_q s2 _ t p y t (g * Y) p); [done|by simplify_map_eq..|lia|rewrite (sign_nlimbs g z) by (done || lia); lia|lia|]. intros s3 Hok3.
  rewrite (sign_quot g z) in Hok3 by (done || lia). assert (0 ≤ Y / p ≤ Y) as Hq by (split; [apply Z.div_pos; lia|apply Z.div_le_upper_bound; nia]).
  apply wp_bind. eapply (wp_mpz_mul_ui F s3 _ v x u (g * a) (z - 1)); [done|by simplify_map_eq..|lia|rewrite (sign_nlimbs g z) by (done || lia); lia|]. intros s4 Hok4.
  assert (nlimbs (g * (Y / p)) ≤ nlimbs Y) as Hn1 by (rewrite (sign_nlimbs g z) by (done || lia); apply nlimbs_le; lia).
  assert (nlimbs (g * a * (z - 1)) ≤ nlimbs a + 1) as Hn2 by (rewrite <- (sign_nlimbs g z a) by (done || lia); apply nlimbs_mul_limb; lia).
  apply wp_bind. eapply (wp_mpz_add F s4 _ t (g * (Y / p)) t (g * (Y / p)) v (g * a * (z - 1))); [done|by simplify_map_eq..|lia|lia|]. intros s5 Hok5.
  pose proof (nlimbs_add (g * (Y / p)) (g * a * (z - 1))) as Hn3. replace (g * (Y / p) + g * a * (z - 1)) with (g * (Y / p + a * (z - 1))) in * by ring.
  apply wp_bind. eapply (wp_mpz_div_qr_ui F s5 _ (Some t) None t (g * (Y / p + a * (z - 1))) z); [done|by simplify_map_eq|lia|lia|eexists; by simplify_map_eq|done|done|].
  intros s6 Hok6. cbn [upd div_round fst snd] in Hok6. rewrite (sign_quot g z) in Hok6 by (done || nia). change ((Y / p + a * (z - 1)) / z) with (newton z Y a) in Hok6. clear Hok1 Hok2 Hok3 Hok4 Hok5.
  apply wp_bind. eapply (wp_mpz_cmpabs F s6 _ t (g * newton z Y a) u (g * a)); [done|by simplify_map_eq..|].
  pose proof (newton_pos z Y ltac:(lia) HY a Ha). rewrite !(sign_abs g z) by (done || lia). apply (HK s6 (g * a * (z - 1))). same_store Hok6.
Qed.

(** The end of a loop when the approximation does not descend *)
Lemma cmp_not_less a b : b ≤ a → (cmp_result (a ?= b) <? 0) = false.
Proof. intros Hle. destruct (Z.compare_spec a b); [done|lia|done]. Qed.

Lemma wp_sqrt_loop t u y Y r (Htu : t ≠ u) (Hty : t ≠ y) (Huy : u ≠ y) (Hr : is_root 2 Y r) (HY : 1 ≤ Y) fuel : ∀ s σ a w Q E,
  zok F s σ → σ !! t = Some (Some a) → σ !! u = Some (Some w) → σ !! y = Some (Some Y) → 0 < a → Y < (a + 1) ^ 2 →
  nlimbs Y + 1 < INT_MAX → nlimbs a + 1 < INT_MAX → rounds 2 (Z.of_nat fuel) a r →
  (∀ s' x, zok F s' (<[t := Some x]> (<[u := Some r]> σ)) → Q tt s') → wp (sqrt_loop (S fuel) t u y) Q E s.
Proof.
  induction fuel as [|fuel IH]; intros s σ a w Q E Hok Ht Hu Hy Ha Hup HnY Hna Hrd HQ; (eapply (wp_sqrt_round _ t u y Y); try done); intros s1 Hok1.
  all: destruct (newton_round 2 Y ltac:(lia) HY _ a r Hrd Hr Ha Hup ltac:(lia)) as [(Hlt & Hpos & Hup' & Hn1 & Hrd')|[Hge ->]].
  1: lia.
  1,3: rewrite cmp_not_less by done; by eapply wp_ret, HQ.
  rewrite cmp_lt by done. cbn [Z.ltb Z.compare]. assert (nlimbs (newton 2 Y a) ≤ nlimbs a) by (apply nlimbs_le; lia).
  eapply (IH s1 _ (newton 2 Y a) a); [exact Hok1|by simplify_map_eq..|done|done|lia|lia| |].
  - by replace (Z.of_nat (S fuel) - 1) with (Z.of_nat fuel) in Hrd' by lia.
  - intros s2 x Hok2. apply (HQ s2 x). same_store Hok2.
Qed.

Lemma wp_root_loop t u v y z g Y r A (Htu : t ≠ u) (Htv : t ≠ v) (Hty : t ≠ y) (Huv : u ≠ v) (Huy : u ≠ y) (Hvy : v ≠ y)
    (Hz : 1 ≤ z < WB) (Hg : sign_for g z) (Hr : is_root z Y r) (HY : 1 ≤ Y) (HnY : nlimbs Y + 1 < INT_MAX) (HnA : nlimbs A + 2 < INT_MAX)
    (HnP : nlimbs (A ^ (z - 1)) < INT_MAX) fuel : ∀ s σ a w x Q E,
  zok F s σ → σ !! t = Some (Some (g * a)) → σ !! u = Some (Some w) → σ !! v = Some (Some x) → σ !! y = Some (Some (g * Y)) →
  0 < a ≤ A → Y < (a + 1) ^ z → rounds z (Z.of_nat fuel) a r →
  (∀ s' p q, zok F s' (<[t := Some p]> (<[u := Some (g * r)]> (<[v := Some q]> σ))) → Q tt s') → wp (root_loop (S fuel) t u v y z) Q E s.
Proof.
  assert (∀ a, 0 < a ≤ A → nlimbs a + 2 < INT_MAX ∧ nlimbs (a ^ (z - 1)) < INT_MAX) as Hsz.
  { intros a Ha. assert (nlimbs a ≤ nlimbs A) by (apply nlimbs_le; lia). split; [lia|]. eapply Z.le_lt_trans; [|exact HnP]. apply nlimbs_le.
    rewrite !Z.abs_eq by (apply Z.pow_nonneg; lia). apply pow_mono; lia. }
  induction fuel as [|fuel IH]; intros s σ a w x Q E Hok Ht Hu Hv Hy Ha Hup Hrd HQ; destruct (Hsz a Ha) as [Hna Hnp];
    (eapply (wp_root_round _ t u v y z g Y); try done; [lia|]); intros s1 x1 Hok1.
  all: destruct (newton_round z Y ltac:(lia) HY _ a r Hrd Hr ltac:(lia) Hup ltac:(lia)) as [(Hlt & Hpos & Hup' & Hn1 & Hrd')|[Hge ->]].
  1: lia.
  1,3: rewrite cmp_not_less by done; by eapply wp_ret, HQ.
  rewrite cmp_lt by done. cbn [Z.ltb Z.compare].
  eapply (IH s1 _ (newton z Y a) (g * a) x1); [exact Hok1|by simplify_map_eq..|lia|done| |].
  - by replace (Z.of_nat (S fuel) - 1) with (Z.of_nat fuel) in Hrd' by lia.
  - intros s2 p q Hok2. apply (HQ s2 p q). same_store Hok2.
Qed.
(** The end of [mpz_rootrem]: the root is in the local variable [u]. *)
Lemma wp_root_end t u x r y z R Y p s σ Q E :
  t ≠ u → σ !! t = None → σ !! u = None → zok F s (<[t := Some p]> (<[u := Some R]> σ)) → σ !! y = Some (Some Y) → 1 ≤ z < WB →
  Z.abs (R ^ z) ≤ Z.abs Y → nlimbs Y < INT_MAX → target σ x → target σ r → (∀ i, x = Some i → r ≠ Some i) →
  (∀ s', zok F s' (upd x R (upd r (Y - R ^ z) σ)) → Q tt s') →
  wp (_ ← when_some r (λ r, _ ← mpz_pow_ui t u z; mpz_sub r y t); _ ← when_some x (λ x, mpz_swap x u); _ ← mpz_clear u; mpz_clear t) Q E s.
Proof.
  intros Htu Ht Hu Hok Hy Hz Hle Hn Hx Hr Hne HQ. assert (t ≠ y ∧ u ≠ y) as [Hty Huy] by (split; congruence).
  assert (nlimbs (R ^ z) ≤ nlimbs Y) by (by apply nlimbs_le). apply wp_bind.
  assert (∀ s' p, zok F s' (<[t := Some p]> (<[u := Some R]> (upd r (Y - R ^ z) σ))) →
    wp (_ ← when_some x (λ x, mpz_swap x u); _ ← mpz_clear u; mpz_clear t) Q E s') as Hend.
  { clear Hok p s. intros s p Hok. pose proof (target_upd σ x r (Y - R ^ z) Hx) as Hx2. assert (upd r (Y - R ^ z) σ !! t = None ∧ upd r (Y - R ^ z) σ !! u = None) as [Ht' Hu'].
    { destruct r as [r|]; [|done]. destruct Hr as [w Hr]. cbn [upd]. rewrite !lookup_insert_ne by congruence. done. }
    set (σ1 := upd r (Y - R ^ z) σ) in *. clearbody σ1. clear Hx Hr Ht Hu Hne. apply wp_bind. destruct x as [x|]; cbn [when_some upd] in *.
    - destruct Hx2 as [w Hw]. assert (x ≠ t ∧ x ≠ u) as [Hxt Hxu] by (split; congruence). eapply (wp_mpz_swap F s _ x u); [done|by simplify_map_eq..|]. intros s1 Hok1.
      apply wp_bind. eapply (wp_mpz_clear F s1 _ u); [done|by simplify_map_eq|]. intros s2 Hok2.
      eapply (wp_mpz_clear F s2 _ t); [done|by simplify_map_eq|]. intros s3 Hok3. apply HQ. same_store Hok3.
    - apply wp_ret, wp_bind. eapply (wp_mpz_clear F s _ u); [done|by simplify_map_eq|]. intros s2 Hok2.
      eapply (wp_mpz_clear F s2 _ t); [done|by simplify_map_eq|]. intros s3 Hok3. apply HQ. same_store Hok3. }
  destruct r as [r|]; cbn [when_some upd] in *; [|by apply wp_ret, (Hend s p)].
  destruct Hr as [w Hr]. assert (r ≠ t ∧ r ≠ u) as [Hrt Hru] by (split; congruence). apply wp_bind.
  eapply (wp_mpz_pow_ui F s _ t p u R z); [done|by simplify_map_eq..|lia|lia|]. intros s1 Hok1.
  eapply (wp_mpz_sub F s1 _ r w y Y t (R ^ z)); [done|by simplify_map_eq..|lia|lia|]. intros s2 Hok2. apply (Hend s2 (R ^ z)). same_store Hok2.
Qed.

Lemma nlimbs_pow2 k : 0 ≤ k → nlimbs (2 ^ k) = k / 64 + 1.
Proof.
  intros Hk. pose proof (Z.pow_pos_nonneg 2 k ltac:(lia) Hk). unfold nlimbs. rewrite (proj2 (Z.eqb_neq _ 0)), Z.abs_eq, Z.log2_pow2 by lia. done.
Qed.

(** The first approximation [2 ^ k] is above the root, not too large, and not too far. *)
Lemma first_guess z Y n : 1 ≤ z → ndigits 2 Y n → let k := n / z + 1 in
  1 ≤ Y ∧ Y < (2 ^ k + 1) ^ z ∧ 1 ≤ k ≤ n + 1 ∧ z * k ≤ n + z ∧ n ≤ 64 * nlimbs Y ∧
  nlimbs (2 ^ k) ≤ nlimbs Y + 1 ∧ nlimbs ((2 ^ k) ^ (z - 1)) ≤ nlimbs Y + z / 64 + 1.
Proof.
  intros Hz (Hn & Hlo & Hhi) k. pose proof (Z.pow_pos_nonneg 2 (n - 1) ltac:(lia) ltac:(lia)). pose proof (Z.mul_div_le n z ltac:(lia)) as Hdm.
  pose proof (Z.mul_succ_div_gt n z ltac:(lia)) as Hsg. assert (0 ≤ n / z) as Hd0 by (apply Z.div_pos; lia). assert (n / z ≤ n) as Hdn by (apply Z.div_le_upper_bound; nia).
  assert (n ≤ 64 * nlimbs Y) as Hn64.
  { pose proof (log2_nlimbs Y ltac:(lia)). assert (n - 1 ≤ Z.log2 Y); [|lia]. apply Z.log2_le_pow2; lia. }
  unfold k. split_and!; try lia.
  - apply Z.lt_le_trans with (2 ^ n); [lia|]. apply Z.le_trans with ((2 ^ (n / z + 1)) ^ z).
    + rewrite <- Z.pow_mul_r by lia. apply Z.pow_le_mono_r; nia.
    + pose proof (Z.pow_pos_nonneg 2 (n / z + 1) ltac:(lia) ltac:(lia)). apply pow_mono; lia.
  - rewrite nlimbs_pow2 by lia. assert ((n / z + 1) / 64 ≤ nlimbs Y); [|lia]. apply Z.lt_succ_r, Z.div_lt_upper_bound; lia.
  - rewrite <- Z.pow_mul_r, nlimbs_pow2 by nia. assert ((n / z + 1) * (z - 1) / 64 ≤ (nlimbs Y * 64 + z) / 64) as Hd by (apply Z.div_le_mono; nia).
    rewrite Z.div_add_l in Hd by lia. lia.
Qed.

Lemma is_root_small z v : 1 ≤ z → 0 ≤ v ≤ 1 → is_root z v v.
Proof.
  intros Hz Hv. destruct (Z.eq_dec v 0) as [->|]; [split; [done|]; rewrite Z.pow_0_l, Z.pow_1_l; lia|]. replace v with 1 by lia.
  split; [done|]. rewrite Z.pow_1_l by lia. split; [done|]. apply Z.pow_gt_1; lia.
Qed.

(** Roots of a negative number have an odd degree: the root is that of the absolute value
    with the sign of the number. *)
Lemma root_sign g z R : sign_for g z → 1 ≤ z → (g * R) ^ z = g * R ^ z.
Proof.
  intros Hg Hz. rewrite !(pow_pred z Hz), (sign_pow g z R) by done. ring.
Qed.

(** The guards: only negative numbers with an even degree are refused. *)
Lemma even_negative z b : 0 ≤ z < WB → (b = true → Z.odd z = true) → Z.land (limb_not z) (b2z b) = 0.
Proof.
  intros Hz Hb. destruct b; cbn [b2z]; [|by rewrite Z.land_0_r]. specialize (Hb eq_refl). change 1 with (Z.ones 1). rewrite Z.land_ones by lia.
  unfold limb_not, GMP_LIMB_MAX. change (2 ^ 1) with 2. rewrite Zmod_odd. rewrite Z.odd_sub, Hb. done.
Qed.

(** The loop with its local variable [v] *)
Lemma wp_roots fuel t u y z g Y r s σ k w Q E :
  t ≠ u → t ≠ y → u ≠ y → zok F s σ → σ !! t = Some (Some (2 ^ k)) → σ !! u = Some (Some w) → σ !! y = Some (Some (g * Y)) →
  1 ≤ z < WB → sign_for g z → is_root z Y r → 1 ≤ Y → 1 ≤ r ≤ 2 ^ k → 1 ≤ k → Y < (2 ^ k + 1) ^ z →
  nlimbs Y + 1 < INT_MAX → nlimbs (2 ^ k) + 2 < INT_MAX → nlimbs ((2 ^ k) ^ (z - 1)) < INT_MAX → z * k < Z.of_nat fuel →
  (∀ s' p, zok F s' (<[t := Some p]> (<[u := Some (g * r)]> σ)) → Q tt s') →
  wp (if z =? 2 then sqrt_loop fuel t u y
      else v ← local_mpz; _ ← mpz_init v; _ ← (if g <? 0 then mpz_neg t t else mret tt); _ ← root_loop fuel t u v y z; mpz_clear v) Q E s.
Proof.
  intros Htu Hty Huy Hok Ht Hu Hy Hz Hg Hr HY Hrk Hk Hup HnY HnA HnP Hf HQ. pose proof (Z.pow_pos_nonneg 2 k ltac:(lia) ltac:(lia)) as Hp.
  destruct fuel as [|fuel]; [nia|]. assert (rounds z (Z.of_nat fuel) (2 ^ k) r) as Hrd by (apply (rounds_enough z ltac:(lia) k); lia).
  destruct (Z.eqb_spec z 2) as [->|Hz2].
  - assert (g = 1) as -> by (destruct Hg as [?|[_ ?]]; done). rewrite Z.mul_1_l in *.
    eapply (wp_sqrt_loop t u y Y r Htu Hty Huy Hr HY fuel s σ (2 ^ k)); try done; lia.
  - apply wp_bind. eapply wp_local_mpz; [done|]. intros v s1 Hv Hvn _ Hok1. assert (t ≠ v ∧ u ≠ v ∧ v ≠ y) as (Htv & Huv & Hvy) by (split_and!; congruence).
    apply wp_bind. eapply wp_mpz_init; try done. intros s2 Hok2. apply wp_bind.
    assert (∀ s3, zok F s3 (<[t := Some (g * 2 ^ k)]> (<[v := Some 0]> σ)) → wp (_ ← root_loop (S fuel) t u v y z; mpz_clear v) Q E s3) as Hgo.
    { intros s3 Hok3. apply wp_bind.
      eapply (wp_root_loop t u v y z g Y r (2 ^ k) Htu Htv Hty Huv Huy Hvy Hz Hg Hr HY HnY HnA HnP fuel s3 _ (2 ^ k)); [done|by simplify_map_eq..|lia|done|done|].
      intros s4 p q Hok4. eapply (wp_mpz_clear F s4 _ v); [done|by simplify_map_eq|]. intros s5 Hok5. apply (HQ s5 p). same_store Hok5. }
    destruct Hg as [->|[-> _]]; cbn [Z.ltb Z.compare].
    + apply wp_ret, Hgo. rewrite Z.mul_1_l. rewrite <- (insert_id σ t (Some (2 ^ k))) in Hok2 by done. same_store Hok2.
    + eapply (wp_mpz_neg F s2 _ t (2 ^ k) t (2 ^ k)); [done|by simplify_map_eq..|lia|]. intros s3 Hok3. apply Hgo. by replace (-1 * 2 ^ k) with (- 2 ^ k) by lia.
Qed.

(** [mpz_rootrem]: the truncated root of any degree and its remainder; both results may be
    operands, and both may be missing. *)
Lemma wp_mpz_rootrem fuel s σ x r y z Y Q E :
  zok F s σ → σ !! y = Some (Some Y) → 1 ≤ z < WB → (Y < 0 → Z.odd z = true) → nlimbs Y + z / 64 + 3 < INT_MAX → 64 * nlimbs Y + z < Z.of_nat fuel →
  target σ x → target σ r → (∀ i, x = Some i → r ≠ Some i) →
  (∀ s' R, is_root z (Z.abs Y) R → zok F s' (upd x (Z.sgn Y * R) (upd r (Y - (Z.sgn Y * R) ^ z) σ)) → Q tt s') →
  wp (mpz_rootrem fuel x r y z) Q E s.
Proof.
  intros Hok Hy Hz Hneg Hn Hf Hx Hr Hne HQ. destruct (zok_operand F s σ y Y Hok Hy) as (zy & _ & Hzy & _ & _ & _ & _ & _ & Hsy & _).
  assert (0 ≤ z / 64) as Hz64 by (apply Z.div_pos; lia). unfold mpz_rootrem. apply wp_bind. eapply wp_get_mpz; [done|]. rewrite Hsy, size_neg.
  rewrite even_negative by (lia || (intros Hb%Z.ltb_lt; auto)). cbn [Z.eqb negb]. rewrite (proj2 (Z.eqb_neq z 0)) by lia.
  apply wp_bind. eapply wp_mpz_cmpabs_ui; try done. destruct (Z.le_gt_cases (Z.abs Y) 1) as [Hsmall|Hbig].
  - rewrite (proj2 (Z.leb_le _ 0)) by (destruct (Z.compare_spec (Z.abs Y) 1); cbn; lia).
    pose proof (is_root_small z (Z.abs Y) ltac:(lia) ltac:(lia)) as Hroot. assert (Z.sgn Y * Z.abs Y = Y) as Hsg by lia.
    assert (Y ^ z = Y) as Hp. { assert (Y = 0 ∨ Y = 1 ∨ Y = -1) as [->|[->| ->]] by lia; [by rewrite Z.pow_0_l by lia|by rewrite Z.pow_1_l by lia|].
      change (-1) with (- (1)). rewrite Z.pow_opp_odd, Z.pow_1_l; [done|lia|]. apply Z.odd_spec, Hneg. lia. }
    specialize (λ s', HQ s' _ Hroot). rewrite Hsg, Hp, Z.sub_diag in HQ. apply wp_bind.
    assert (∀ s', zok F s' (upd x Y σ) → wp (when_some r (λ r, set_size r 0)) Q E s') as Hend.
    { intros s' Hok'. destruct r as [r|]; cbn [when_some]; [|by apply wp_ret, HQ]. destruct (target_upd σ (Some r) x Y Hr) as [w Hw].
      eapply wp_set_size_0; try done. intros s2 Hok2. apply HQ. destruct x as [x|]; [|done]. cbn [upd] in *. by rewrite insert_insert_ne by (intros ->; by eapply Hne). }
    destruct x as [x|]; cbn [when_some upd] in *; [|by apply wp_ret, Hend]. destruct Hx as [w Hw]. eapply (wp_mpz_set F s σ x w y Y); try done. lia.
  - rewrite cmp_gt by lia. cbn [Z.leb Z.compare]. eapply wp_two_locals; [done|]. intros u t s1 Hu Ht Hut Hok1. assert (u ≠ y ∧ t ≠ y) as [Huy Hty] by (split; congruence).
    apply wp_bind. eapply wp_mpz_sizeinbase; [done|by simplify_map_eq|lia|]. rewrite (proj2 (Z.eqb_neq Y 0)) by lia. intros n s2 Hok2 Hnd.
    destruct (first_guess z (Z.abs Y) n ltac:(lia) Hnd) as (HY & Hup & Hk & Hzk & Hn64 & HnA & HnP). set (k := n / z + 1) in *. rewrite nlimbs_abs in *.
    assert (k / 64 < INT_MAX) by (apply Z.div_lt_upper_bound; lia). apply wp_bind. eapply (wp_mpz_setbit F s2 _ t 0 k); [done|by simplify_map_eq|lia|done|done|]. intros s3 Hok3.
    unfold Z.setbit in Hok3. rewrite Z.lor_0_l, Z.shiftl_1_l in Hok3. pose proof (Z.pow_pos_nonneg 2 k ltac:(lia) ltac:(lia)).
    destruct (root_exists z (Z.abs Y) (2 ^ k) ltac:(lia) HY ltac:(lia) Hup) as (R & HR & HRk). apply wp_bind.
    assert (sign_for (Z.sgn Y) z) as Hg by (destruct (Z.lt_ge_cases Y 0); [right; split; [lia|by apply Hneg]|left; lia]).
    replace (Y <? 0) with (Z.sgn Y <? 0) by (destruct Y; done).
    eapply (wp_roots fuel t u y z (Z.sgn Y) (Z.abs Y) R s3 _ k 0); try done; try (by simplify_map_eq); try (rewrite ?nlimbs_abs; lia).
    { replace (Z.sgn Y * Z.abs Y) with Y by lia. by simplify_map_eq. }
    intros s4 p Hok4. eapply (wp_root_end t u x r y z (Z.sgn Y * R) Y p s4 σ); try done; [same_store Hok4| |lia|].
    + rewrite (root_sign _ z) by (done || lia). destruct HR as (HR0 & HR1 & _). pose proof (Z.pow_nonneg R z HR0). rewrite (sign_abs _ z) by done. lia.
    + intros s5. by apply HQ.
Qed.

(** [mpz_root] also tells whether the root is exact. *)
Lemma wp_mpz_root fuel s σ x y z Y Q E :
  zok F s σ → σ !! y = Some (Some Y) → 1 ≤ z < WB → (Y < 0 → Z.odd z = true) → nlimbs Y + z / 64 + 3 < INT_MAX → 64 * nlimbs Y + z < Z.of_nat fuel →
  target σ x →
  (∀ s' R, is_root z (Z.abs Y) R → zok F s' (upd x (Z.sgn Y * R) σ) → Q ((Z.sgn Y * R) ^ z =? Y) s') → wp (mpz_root fuel x y z) Q E s.
Proof.
  intros Hok Hy Hz Hneg Hn Hf Hx HQ. unfold mpz_root. apply wp_bind. eapply wp_local_mpz; [done|]. intros r s1 Hr Hrn _ Hok1.
  apply wp_bind. eapply wp_mpz_init; try done. intros s2 Hok2. assert (r ≠ y) as Hry by congruence. apply wp_bind.
  assert (∀ i, x = Some i → i ≠ r) as Hxr by (intros i ->; destruct Hx as [w Hw]; congruence).
  eapply (wp_mpz_rootrem fuel s2 _ x (Some r) y z Y); try done; [by simplify_map_eq|by apply target_insert|eexists; by simplify_map_eq|intros i -> [= ->]; by eapply Hxr|].
  intros s3 R HR Hok3. set (rem := Y - (Z.sgn Y * R) ^ z) in *. assert (zok F s3 (<[r := Some rem]> (upd x (Z.sgn Y * R) σ))) as Hok4.
  { destruct x as [x|]; cbn [upd] in *; [|by rewrite insert_insert_eq in Hok3]. pose proof (Hxr x eq_refl). same_store Hok3. }
  destruct (zok_operand F s3 _ r rem Hok4) as (zr & _ & Hzr & _ & _ & _ & _ & _ & Hsr & _); [by simplify_map_eq|].
  apply wp_bind. eapply wp_get_mpz; [done|]. rewrite Hsr, size_zero. apply wp_bind. eapply (wp_mpz_clear F s3 _ r); [done|by simplify_map_eq|]. intros s4 Hok5.
  apply wp_ret. replace (rem =? 0) with ((Z.sgn Y * R) ^ z =? Y); [|unfold rem; destruct (Z.eqb_spec ((Z.sgn Y * R) ^ z) Y), (Z.eqb_spec (Y - (Z.sgn Y * R) ^ z) 0); lia].
  apply (HQ s4 R HR). rewrite delete_insert_id in Hok5; [done|]. destruct x as [x|]; [|done]. cbn [upd]. by rewrite lookup_insert_ne by (by apply Hxr).
Qed.

(** The number is a square exactly if the square of its root is the number. *)
Lemma square_root_exact Y R : 0 ≤ Y → is_root 2 Y R → (R ^ 2 =? Y) = true ↔ ∃ k, Y = k * k.
Proof.
  intros HY HR. rewrite Z.eqb_eq. split; [intros <-; exists R; lia|]. intros [k ->].
  assert (R = Z.abs k) as ->; [|lia]. apply (is_root_unique 2 (k * k)); [lia|done|]. split; [lia|]. nia.
Qed.

Lemma wp_mpz_perfect_square_p fuel s σ u x Q E :
  zok F s σ → σ !! u = Some (Some x) → nlimbs x + 3 < INT_MAX → 64 * nlimbs x + 2 < Z.of_nat fuel →
  (∀ s' b, zok F s' σ → (b = true ↔ ∃ k, x = k * k) → Q b s') → wp (mpz_perfect_square_p fuel u) Q E s.
Proof.
  intros Hok Hu Hn Hf HQ. destruct (zok_operand F s σ u x Hok Hu) as (zu & _ & Hzu & _ & _ & _ & _ & _ & Hsu & _). pose proof (nlimbs_nonneg x).
  unfold mpz_perfect_square_p. apply wp_bind. eapply wp_get_mpz; [done|]. rewrite Hsu, size_zero. destruct (Z.lt_trichotomy x 0) as [Hx|[->|Hx]].
  - rewrite (proj2 (Z.leb_le _ 0)), (proj2 (Z.eqb_neq x 0)) by lia. apply wp_ret, HQ; [done|]. split; [done|]. intros [k Hk]. nia.
  - cbn. apply HQ; [done|]. split; [by exists 0|done].
  - pose proof (nlimbs_pos x ltac:(lia)). rewrite Z.sgn_pos, Z.mul_1_l, (proj2 (Z.leb_gt _ 0)) by lia.
    eapply (wp_mpz_root fuel s σ None u 2 x) ; [done|done|done|lia|change (2 / 64) with 0; lia|done|done|]. rewrite Z.abs_eq, Z.sgn_pos by lia. intros s' R HR Hok'. apply HQ; [done|].
    rewrite Z.mul_1_l. by apply square_root_exact; [lia|].
Qed.
End root.
