(* ===== verification/MpzGcdext.v ===== *)
(** * Cofactors of the greatest common divisor: correctness

    [mpz_gcdext] keeps two linear relations between the odd parts that it reduces and the
    operands, with a determinant that is a power of two, and then takes the power of two out
    of the cofactors.  [mpz_invert] follows. *)

From S2P Require Import Prelude CString Queue State UInt64 Mpn MpnMem MpnThm MpnBits MpnDiv MpnInv MpnDivThm MpnDivPi1 MpnCorrect MpnDivQr MpnStr MpnStrThm MpnSetStr Mpz MpzRep MpzLocals MpzArith MpzMul MpzDiv MpzConv MpzQuo MpzQuoThm MpzBits MpzNum MpzNumThm MpzPow MpzBitsThm MpzBitThm MpzStr MpzStrThm MpzRoot.

(** ** The relations *)

(** [u = t0 a + t1 b], [v = s0 a + s1 b] and the determinant is [2 ^ p]. *)
Record related (u v p a b s0 s1 t0 t1 : Z) : Prop := mk_related {
  rel_u : u = t0 * a + t1 * b;
  rel_v : v = s0 * a + s1 * b;
  rel_det : t0 * s1 - t1 * s0 = 2 ^ p;
  rel_p : 0 ≤ p;
  rel_s0 : 0 ≤ s0;
  rel_s1 : 0 < s1;
  rel_t0 : 0 < t0;
  rel_t1 : 0 ≤ t1
}.

Section related.
Context (u v p a b s0 s1 t0 t1 : Z) (H : related u v p a b s0 s1 t0 t1).

Lemma related_less b' j : 0 < a → 0 ≤ j → 0 < b' → b - a = b' * 2 ^ j →
  related u v (p + j) a b' (s0 + s1) (s1 * 2 ^ j) (t0 + t1) (t1 * 2 ^ j).
Proof.
  intros Ha Hj Hb' Hb. destruct H as [-> -> Hd Hp H1 H2 H3 H4]. pose proof (Z.pow_pos_nonneg 2 j ltac:(lia) Hj). replace b with (b' * 2 ^ j + a) by lia.
  split; try nia. rewrite Z.pow_add_r, <- Hd by lia. ring.
Qed.

Lemma related_more a' j : 0 < b → 0 ≤ j → 0 < a' → a - b = a' * 2 ^ j →
  related u v (p + j) a' b (s0 * 2 ^ j) (s0 + s1) (t0 * 2 ^ j) (t0 + t1).
Proof.
  intros Hb Hj Ha' Ha. destruct H as [-> -> Hd Hp H1 H2 H3 H4]. pose proof (Z.pow_pos_nonneg 2 j ltac:(lia) Hj). replace a with (a' * 2 ^ j + b) by lia.
  split; try nia. rewrite Z.pow_add_r, <- Hd by lia. ring.
Qed.

Lemma related_shift a' j : 0 ≤ j → 0 < a' → a = a' * 2 ^ j → related u v (p + j) a' b (s0 * 2 ^ j) s1 (t0 * 2 ^ j) t1.
Proof.
  intros Hj Ha' Ha. destruct H as [-> -> Hd Hp H1 H2 H3 H4]. pose proof (Z.pow_pos_nonneg 2 j ltac:(lia) Hj). subst a.
  split; try nia. rewrite Z.pow_add_r, <- Hd by lia. ring.
Qed.

(** Every number in the relations is at most the larger operand. *)
Lemma related_bounds : 0 < a → 0 < b → 0 < u ∧ 0 < v ∧ a ≤ u ∧ b ≤ v ∧ 0 ≤ s0 ≤ v ∧ 0 < s1 ≤ v ∧ 0 < t0 ≤ u ∧ 0 ≤ t1 ≤ u.
Proof. intros Ha Hb. destruct H as [-> -> Hd Hp H1 H2 H3 H4]. nia. Qed.

Lemma related_power : 0 < a → 0 < b → 2 ^ p ≤ u * v.
Proof. intros Ha Hb. pose proof (related_bounds Ha Hb). destruct H as [_ _ Hd Hp H1 H2 H3 H4]. nia. Qed.

(** The relation that is left at the end *)
Lemma related_bezout : t0 * v - s0 * u = 2 ^ p * b.
Proof. destruct H as [-> -> Hd Hp H1 H2 H3 H4]. rewrite <- Hd. ring. Qed.
End related.

(** A shift of a number that stays below a bound *)
Lemma shift_fits x j m : 0 ≤ x → 0 ≤ j → x * 2 ^ j ≤ m → 2 ^ j ≤ m → nlimbs x + j / 64 ≤ nlimbs m.
Proof.
  intros Hx Hj Hle H2. pose proof (Z.pow_pos_nonneg 2 j ltac:(lia) Hj). destruct (Z.eq_dec x 0) as [->|Hx0].
  - assert (nlimbs (2 ^ j) ≤ nlimbs m) as Hn by (apply nlimbs_le; lia). rewrite nlimbs_pow2 in Hn by done. change (nlimbs 0) with 0. lia.
  - pose proof (nlimbs_shift x j ltac:(lia) Hj). assert (nlimbs (x * 2 ^ j) ≤ nlimbs m) by (apply nlimbs_le; nia). lia.
Qed.

(** ** Taking the power of two out *)

(** [s t1 + t s1 = 2 ^ p], with cofactors in the range of the other number *)
Record reduced (p s s1 t t1 : Z) : Prop := mk_reduced {
  red_eq : s * t1 + t * s1 = 2 ^ p;
  red_p : 0 ≤ p;
  red_s : - s1 ≤ s ≤ 0;
  red_t : 0 ≤ t ≤ t1;
  red_odd : Z.odd s1 || Z.odd t1 = true
}.

Lemma reduced_halve p s s1 t t1 : reduced p s s1 t t1 → 1 ≤ p →
  let s' := if Z.odd s || Z.odd t then s - s1 else s in let t' := if Z.odd s || Z.odd t then t + t1 else t in
  ∃ x y, s' = x * 2 ∧ t' = y * 2 ∧ reduced (p - 1) x s1 y t1.
Proof.
  intros [He Hp Hs Ht Ho] Hp1 s' t'. assert (Z.odd s' = false ∧ Z.odd t' = false) as [Hs' Ht'].
  { apply (f_equal Z.odd) in He. rewrite Z.odd_add, !Z.odd_mul, (Z.odd_pow 2 p) in He by lia. cbn in He. subst s' t'.
    destruct (Z.odd s) eqn:E1, (Z.odd t) eqn:E2; cbn [orb]; rewrite ?Z.odd_sub, ?Z.odd_add, ?E1, ?E2; destruct (Z.odd s1), (Z.odd t1); cbn in *; done. }
  assert (∀ x, Z.odd x = false → x = x / 2 * 2) as Heven.
  { intros x Hx. rewrite (Z.div_mod x 2) at 1 by lia. rewrite Zmod_odd, Hx. lia. }
  exists (s' / 2), (t' / 2). pose proof (Heven s' Hs') as Es. pose proof (Heven t' Ht') as Et. split; [done|]. split; [done|].
  replace p with (p - 1 + 1) in He by lia. rewrite Z.pow_add_r, Z.pow_1_r in He by lia. clear Hs' Ht' Heven.
  assert (s' * t1 + t' * s1 = s * t1 + t * s1 ∧ - 2 * s1 ≤ s' ≤ 0 ∧ 0 ≤ t' ≤ 2 * t1) as (H1 & H2 & H3).
  { subst s' t'. destruct (Z.odd s || Z.odd t); [split; [ring|lia]|lia]. }
  generalize dependent (s' / 2). generalize dependent (t' / 2). intros y Et x Es. rewrite Es, Et in *. clear Es Et s' t'. split; try lia. done.
Qed.

(** The last step chooses the cofactor of smaller absolute value. *)
Lemma reduced_choose s s1 t t1 : reduced 0 s s1 t t1 →
  let b := Z.abs (s + s1) <? Z.abs s in let x := if b then s + s1 else s in let y := if b then t - t1 else t in
  x * t1 + y * s1 = 1 ∧ 2 * Z.abs x ≤ s1 ∧ Z.abs y ≤ t1.
Proof.
  intros [He Hp Hs Ht Ho]. change (2 ^ 0) with 1 in He. destruct (Z.ltb_spec (Z.abs (s + s1)) (Z.abs s)); cbn zeta; (split; [lia|split; [lia|lia]]).
Qed.

Lemma power_fits p u v m : 2 ^ p ≤ u * v → 0 ≤ u ≤ m → 0 ≤ v ≤ m → 0 ≤ p → nlimbs m < INT_MAX → u64 p = p.
Proof.
  intros Hle Hu Hv Hp Hn. unfold u64. apply Z.mod_small. split; [done|]. pose proof (Z.pow_pos_nonneg 2 p ltac:(lia) Hp). assert (0 < m) as Hm by nia.
  assert (p ≤ Z.log2 (m * m)) as H1 by (apply Z.log2_le_pow2; nia). pose proof (Z.log2_mul_above m m ltac:(lia) ltac:(lia)). pose proof (log2_nlimbs m Hm).
  unfold INT_MAX in Hn. unfold WB. lia.
Qed.

Section gcdext.
Context (F : mem) (tu tv s0 s1 t0 t1 : mpz_t).
Implicit Types (s : zstate) (σ : gmap positive (option Z)).
Abbreviation ks := [tu; tv; s0; s1; t0; t1].

(** ** The loop *)

Context (M : Z) (HM : nlimbs M + 1 < INT_MAX).

Lemma small_fits x : 0 ≤ x ≤ M → nlimbs x < INT_MAX.
Proof. intros Hx. assert (nlimbs x ≤ nlimbs M) by (apply nlimbs_le; lia). lia. Qed.

Lemma wp_gcdext_loop σ G u v (Hf : fresh ks σ) (Hu : u ≤ M) (Hv : v ≤ M) fuel : ∀ s p a b x y z w Q E,
  zok F s (locals ks [a; b; x; y; z; w] σ) → related u v p a b x y z w → 0 < a → 0 < b → Z.odd a = true → Z.odd b = true → Z.gcd a b = G →
  Z.log2 a + Z.log2 b < Z.of_nat fuel →
  (∀ s' p x y z w, zok F s' (locals ks [G; G; x; y; z; w] σ) → related u v p G G x y z w → Q p s') →
  wp (gcdext_loop fuel tu tv s0 s1 t0 t1 p) Q E s.
Proof.
  induction fuel as [|fuel IH]; intros s p a b x y z w Q E Hok Hrel Ha Hb Hao Hbo Hg Hfu HQ.
  { pose proof (Z.log2_nonneg a). pose proof (Z.log2_nonneg b). cbn in Hfu. lia. }
  pose proof (related_bounds _ _ _ _ _ _ _ _ _ Hrel Ha Hb) as Hbd. pose proof (related_bounds _ _ _ _ _ _ _ _ _ Hrel Ha Hb) as (Hu0 & Hv0 & _).
  cbn [gcdext_loop]. apply wp_bind. eapply (wp_mpz_cmp F s _ tu a tv b); [done|local_var|local_var|]. destruct (Z.compare_spec a b) as [->|Hlt|Hlt]; cbn [cmp_result Z.eqb Z.ltb Z.compare].
  - rewrite Z.gcd_diag, Z.abs_eq in Hg by lia. subst G. apply wp_ret. by eapply HQ.
  - apply wp_bind. eapply (wp_mpz_sub F s _ tv b tv b tu a); [done|local_var..|apply small_fits; lia|apply small_fits; lia|]. intros s2 Hok2. local_set Hok2.
    destruct (odd_split (b - a)) as (b' & j & Hj & Hb' & Hbp & Hbo'); [lia|]. pose proof (related_less _ _ _ _ _ _ _ _ _ Hrel b' j Ha Hj Hbp Hb') as Hrel'.
    pose proof (related_bounds _ _ _ _ _ _ _ _ _ Hrel' Ha Hbp) as Hbd'. pose proof (Z.pow_pos_nonneg 2 j ltac:(lia) Hj) as Hpj.
    apply wp_bind. eapply (wp_mpz_add F s2 _ t0 z t0 z t1 w); [done|local_var..|apply small_fits; lia|apply small_fits; lia|]. intros s3 Hok3. local_set Hok3.
    apply wp_bind. eapply (wp_mpz_add F s3 _ s0 x s0 x s1 y); [done|local_var..|apply small_fits; lia|apply small_fits; lia|]. intros s4 Hok4. local_set Hok4.
    rewrite Hb' in Hok4. apply wp_bind. eapply (wp_mpz_make_odd F s4 _ tv b' j); [done|local_var|done..|rewrite <- Hb'; apply small_fits; lia|]. intros s5 Hok5. local_set Hok5.
    assert (2 ^ j ≤ M) by nia.
    apply wp_bind. eapply (wp_mpz_mul_2exp F s5 _ t1 w t1 w j); [done|local_var..|done|pose proof (shift_fits w j M ltac:(lia) Hj ltac:(lia) ltac:(done)); lia|]. intros s6 Hok6. local_set Hok6.
    apply wp_bind. eapply (wp_mpz_mul_2exp F s6 _ s1 y s1 y j); [done|local_var..|done|pose proof (shift_fits y j M ltac:(lia) Hj ltac:(lia) ltac:(done)); lia|]. intros s7 Hok7. local_set Hok7.
    rewrite (power_fits (p + j) u v M) by (first [by eapply related_power|lia|apply (rel_p _ _ _ _ _ _ _ _ _ Hrel')]).
    destruct (odd_diff b a Hbo Hao) as [d Hd]. assert (1 ≤ j) as Hj1.
    { destruct (Z.eq_dec j 0) as [->|]; [|lia]. rewrite Z.mul_1_r in Hb'. rewrite <- Hb', Hd, Z.odd_mul in Hbo'. done. }
    pose proof (log2_half b b' j Hbp Hj1 ltac:(lia)).
    eapply (IH s7 (p + j) a b'); [exact Hok7|exact Hrel'|done|done|done|done| |lia|done].
    rewrite <- Hg, Z.gcd_comm, <- (gcd_pow2 j b' a Hj Hao), <- Hb', Z.gcd_comm. apply Z.gcd_sub_diag_r.
  - apply wp_bind. eapply (wp_mpz_sub F s _ tu a tu a tv b); [done|local_var..|apply small_fits; lia|apply small_fits; lia|]. intros s2 Hok2. local_set Hok2.
    destruct (odd_split (a - b)) as (a' & j & Hj & Ha' & Hap & Hao'); [lia|]. pose proof (related_more _ _ _ _ _ _ _ _ _ Hrel a' j Hb Hj Hap Ha') as Hrel'.
    pose proof (related_bounds _ _ _ _ _ _ _ _ _ Hrel' Hap Hb) as Hbd'. pose proof (Z.pow_pos_nonneg 2 j ltac:(lia) Hj) as Hpj.
    apply wp_bind. eapply (wp_mpz_add F s2 _ t1 w t0 z t1 w); [done|local_var..|apply small_fits; lia|apply small_fits; lia|]. intros s3 Hok3. local_set Hok3.
    apply wp_bind. eapply (wp_mpz_add F s3 _ s1 y s0 x s1 y); [done|local_var..|apply small_fits; lia|apply small_fits; lia|]. intros s4 Hok4. local_set Hok4.
    rewrite Ha' in Hok4. apply wp_bind. eapply (wp_mpz_make_odd F s4 _ tu a' j); [done|local_var|done..|rewrite <- Ha'; apply small_fits; lia|]. intros s5 Hok5. local_set Hok5.
    assert (2 ^ j ≤ M) by nia.
    apply wp_bind. eapply (wp_mpz_mul_2exp F s5 _ t0 z t0 z j); [done|local_var..|done|pose proof (shift_fits z j M ltac:(lia) Hj ltac:(lia) ltac:(done)); lia|]. intros s6 Hok6. local_set Hok6.
    apply wp_bind. eapply (wp_mpz_mul_2exp F s6 _ s0 x s0 x j); [done|local_var..|done|pose proof (shift_fits x j M ltac:(lia) Hj ltac:(lia) ltac:(done)); lia|]. intros s7 Hok7. local_set Hok7.
    rewrite (power_fits (p + j) u v M) by (first [by eapply related_power|lia|apply (rel_p _ _ _ _ _ _ _ _ _ Hrel')]).
    destruct (odd_diff a b Hao Hbo) as [d Hd]. assert (1 ≤ j) as Hj1.
    { destruct (Z.eq_dec j 0) as [->|]; [|lia]. rewrite Z.mul_1_r in Ha'. rewrite <- Ha', Hd, Z.odd_mul in Hao'. done. }
    pose proof (log2_half a a' j Hap Hj1 ltac:(lia)).
    eapply (IH s7 (p + j) a' b); [exact Hok7|exact Hrel'|done|done|done|done| |lia|done].
    rewrite <- Hg, <- (gcd_pow2 j a' b Hj Hbo), <- Ha', Z.gcd_comm, Z.gcd_sub_diag_r. apply Z.gcd_comm.
Qed.

Lemma wp_setbit_local σ i k b vs s Q E :
  fresh ks σ → zok F s (locals ks vs σ) → ks !! i = Some k → vs !! i = Some 0 → 0 ≤ b → 2 ^ b ≤ M →
  (∀ s', zok F s' (locals ks (<[i := 2 ^ b]> vs) σ) → Q tt s') → wp (mpz_setbit k b) Q E s.
Proof.
  intros Hf Hok Hk Hv Hb HbM HQ. assert (nlimbs (2 ^ b) ≤ nlimbs M) as Hn by (pose proof (Z.pow_pos_nonneg 2 b ltac:(lia) Hb); apply nlimbs_le; lia). rewrite nlimbs_pow2 in Hn by done.
  eapply (wp_mpz_setbit F s _ k 0 b); [done|by eapply locals_get|done|lia|done|]. intros s' Hok'. apply HQ. unfold Z.setbit in Hok'. rewrite Z.lor_0_l, Z.shiftl_1_l in Hok'.
  rewrite (locals_set i) in Hok'; [done|done|done|]. by apply lookup_lt_Some in Hv.
Qed.

(** ** The cofactors of the odd part *)

Lemma wp_gcdext_cofactors σ s a b i j Q E :
  fresh ks σ → zok F s (locals ks [a; b; 0; 0; 0; 0] σ) → 0 < a → 0 < b → Z.odd a = true → Z.odd b = true → 0 ≤ i → 0 ≤ j → a * 2 ^ i ≤ M → b * 2 ^ j ≤ M →
  (∀ s' p a' x y z w, zok F s' (locals ks [a'; Z.gcd a b; x; y; z; w] σ) → 0 ≤ p → z * (b * 2 ^ j) - x * (a * 2 ^ i) = 2 ^ p * Z.gcd a b →
     0 ≤ x → x * Z.gcd a b ≤ b * 2 ^ j → 0 ≤ z → z * Z.gcd a b ≤ a * 2 ^ i → Q p s') →
  wp (gcdext_cofactors tu tv s0 s1 t0 t1 i j) Q E s.
Proof.
  intros Hf Hok Ha Hb Hao Hbo Hi Hj HaM HbM HQ. pose proof (Z.pow_pos_nonneg 2 i ltac:(lia) Hi) as Hpi. pose proof (Z.pow_pos_nonneg 2 j ltac:(lia) Hj) as Hpj.
  assert (2 ^ i ≤ M ∧ 2 ^ j ≤ M ∧ a ≤ M ∧ b ≤ M) as (HiM & HjM & HaM' & HbM') by nia. unfold gcdext_cofactors.
  apply wp_bind. eapply (wp_setbit_local σ 4 t0 i); [done|done|done|done|done|done|]. intros s2 Hok2. cbn [insert list_insert] in Hok2.
  apply wp_bind. unfold mpz_tdiv_qr. apply wp_bind.
  eapply (wp_mpz_div_qr F s2 _ (Some t1) (Some tu) tu tv a b); [done|local_var..|lia|apply small_fits; lia|apply small_fits; lia|eexists; local_var|eexists; local_var| |].
  { intros k [= <-] [= Heq]. destruct Hf as [Hnd _]. rewrite Heq in Hnd. apply NoDup_cons in Hnd as [Hnd _]. apply Hnd. set_solver. }
  intros s3 Hok3. apply wp_ret. cbn [upd div_round fst snd] in Hok3. local_set Hok3. local_set Hok3. rewrite Z.quot_div_nonneg, Z.rem_mod_nonneg in Hok3 by lia.
  pose proof (Z.div_mod a b ltac:(lia)) as Hdm. pose proof (Z.mod_pos_bound a b Hb) as Hm. set (q := a / b) in *. set (r := a mod b) in *. assert (0 ≤ q) as Hq by nia.
  assert (q * 2 ^ i ≤ M) as HqM by nia.
  apply wp_bind. eapply (wp_mpz_mul_2exp F s3 _ t1 q t1 q i); [done|local_var..|done|pose proof (shift_fits q i M Hq Hi HqM HiM); lia|]. intros s4 Hok4. local_set Hok4.
  apply wp_bind. eapply (wp_setbit_local σ 3 s1 j); [done|done|done|done|done|done|]. intros s5 Hok5. cbn [insert list_insert] in Hok5.
  assert (related (a * 2 ^ i) (b * 2 ^ j) (i + j) r b 0 (2 ^ j) (2 ^ i) (q * 2 ^ i)) as Hrel.
  { split; try nia. rewrite Z.pow_add_r by done. ring. }
  assert (2 ^ (i + j) ≤ a * 2 ^ i * (b * 2 ^ j)) as Hpow by (rewrite Z.pow_add_r by done; apply Z.mul_le_mono_nonneg; nia).
  rewrite (power_fits (i + j) _ _ M Hpow) by lia. apply wp_bind.
  destruct (zok_operand F s5 _ tu r Hok5) as (zu & _ & Hzu & _ & _ & _ & _ & _ & Hsu & _); [local_var|]. eapply wp_get_mpz; [done|].
  apply wp_bind. destruct (zok_operand F s5 _ tv b Hok5) as (zv & _ & Hzv & _ & _ & _ & _ & _ & Hsv & _); [local_var|]. eapply wp_get_mpz; [done|].
  rewrite Hsu, Hsv, (Z.sgn_pos b), Z.mul_1_l by done. assert (Z.gcd r b = Z.gcd a b) as Hgcd by (unfold r; rewrite Z.gcd_mod, Z.gcd_comm by lia; done).
  destruct (Z.eq_dec r 0) as [E0|Hr0].
  - rewrite E0 in *. cbn [Z.sgn Z.mul Z.ltb Z.compare]. apply wp_ret. rewrite Z.gcd_0_l, Z.abs_eq in Hgcd by lia. rewrite <- Hgcd in HQ.
    eapply (HQ s5); [exact Hok5|lia|rewrite Z.pow_add_r by done; ring|done|apply Z.mul_nonneg_nonneg; lia|lia|].
    assert (1 ≤ q) as Hq1 by nia. rewrite (Z.mul_comm a). apply Z.mul_le_mono_nonneg_l; [lia|]. rewrite Hdm, Z.add_0_r. clear -Hb Hq1. nia.
  - rewrite Z.sgn_pos, Z.mul_1_l by lia. pose proof (nlimbs_pos r Hr0) as Hpos. rewrite (proj2 (Z.ltb_lt 0 _)) by done.
    destruct (odd_split r) as (r' & k & Hk & Hr' & Hrp & Hro); [lia|]. rewrite Hr' in Hok5. pose proof (Z.pow_pos_nonneg 2 k ltac:(lia) Hk) as Hpk.
    pose proof (related_shift _ _ _ _ _ _ _ _ _ Hrel r' k Hk Hrp Hr') as Hrel'. pose proof (related_bounds _ _ _ _ _ _ _ _ _ Hrel' Hrp Hb) as Hbd.
    apply wp_bind. eapply (wp_mpz_make_odd F s5 _ tu r' k); [done|local_var|done..|rewrite <- Hr'; apply small_fits; lia|]. intros s6 Hok6. local_set Hok6. assert (2 ^ k ≤ M) as HkM by nia.
    apply wp_bind. eapply (wp_mpz_mul_2exp F s6 _ t0 (2 ^ i) t0 (2 ^ i) k); [done|local_var..|done|pose proof (shift_fits (2 ^ i) k M ltac:(lia) Hk ltac:(lia) HkM); lia|]. intros s7 Hok7. local_set Hok7.
    apply wp_bind. eapply (wp_mpz_mul_2exp F s7 _ s0 0 s0 0 k); [done|local_var..|done|pose proof (shift_fits 0 k M ltac:(lia) Hk ltac:(lia) HkM); lia|]. intros s8 Hok8. local_set Hok8.
    rewrite (power_fits (i + j + k) _ _ M (related_power _ _ _ _ _ _ _ _ _ Hrel' Hrp Hb)) by lia.
    eapply (wp_gcdext_loop σ (Z.gcd a b)) with (u := a * 2 ^ i) (v := b * 2 ^ j); [done|lia|lia|exact Hok8|exact Hrel'|done|done|done|done| | |].
    + by rewrite <- Hgcd, Hr', (gcd_pow2 k r' b Hk Hbo).
    + pose proof (nlimbs_nonneg b). pose proof (log2_nlimbs b Hb). pose proof (log2_nlimbs r' Hrp). pose proof (nlimbs_odd_part r' k Hk) as Hle. rewrite <- Hr' in Hle.
      rewrite Z2Nat.id by (unfold GMP_LIMB_BITS; lia). unfold GMP_LIMB_BITS. lia.
    + intros s9 p x y z w Hok9 Hrel9. pose proof (related_bezout _ _ _ _ _ _ _ _ _ Hrel9) as Hbz. destruct Hrel9 as [Hu9 Hv9 _ Hp9 Hx9 Hy9 Hz9 Hw9]. pose proof (Z.gcd_nonneg a b).
      eapply (HQ s9); [exact Hok9|done|exact Hbz|done|nia|lia|nia].
Qed.

(** ** The cofactors without the power of two *)

Lemma wp_mpz_odd_p s σ z x Q E : zok F s σ → σ !! z = Some (Some x) → Q (Z.odd x) s → wp (mpz_odd_p z) Q E s.
Proof.
  intros Hok Hz HQ. destruct (zok_operand F s σ z x Hok Hz) as (zz & _ & Hzz & _ & _ & _ & _ & _ & Hs & _).
  unfold mpz_odd_p. apply wp_bind. eapply wp_get_mpz; [done|]. rewrite Hs, size_zero. destruct (Z.eqb_spec x 0) as [->|Hx]; [by apply wp_ret|].
  apply wp_bind. eapply wp_low_limb; try done. apply wp_ret. replace (negb (Z.land (Z.abs x mod WB) 1 =? 0)) with (Z.odd x); [done|].
  change 1 with (2 ^ 0) at 1. rewrite land_bit by done. change WB with (2 ^ 64). rewrite Z.mod_pow2_bits_low by lia.
  rewrite Z.bit0_odd. destruct x; done.
Qed.

Lemma wide_fits x y : Z.abs x ≤ M → Z.abs y ≤ M → nlimbs (x + y) < INT_MAX.
Proof.
  intros Hx Hy. pose proof (nlimbs_add x y). assert (nlimbs x ≤ nlimbs M) by (apply nlimbs_le; lia). assert (nlimbs y ≤ nlimbs M) by (apply nlimbs_le; lia). lia.
Qed.

Lemma wp_halve_loop σ a g n : ∀ s x y z w Q E,
  fresh ks σ → zok F s (locals ks [a; g; x; y; z; w] σ) → reduced (Z.of_nat n) x y z w → y ≤ M → w ≤ M →
  (∀ s' x z, zok F s' (locals ks [a; g; x; y; z; w] σ) → reduced 0 x y z w → Q tt s') →
  wp (halve_loop n s0 s1 t0 t1) Q E s.
Proof.
  induction n as [|n IH]; intros s x y z w Q E Hf Hok Hr Hy Hw HQ; cbn [halve_loop]; [apply wp_ret; by eapply HQ|].
  destruct (reduced_halve _ _ _ _ _ Hr ltac:(lia)) as (x' & z' & Hx' & Hz' & Hr'). destruct Hr as [_ _ Hxr Hzr _].
  assert (∀ s', zok F s' (locals ks [a; g; x' * 2; y; z' * 2; w] σ) →
    wp (_ ← mpz_divexact_ui s0 s0 2; _ ← mpz_divexact_ui t0 t0 2; halve_loop n s0 s1 t0 t1) Q E s') as Hend.
  { intros s2 Hok2. destruct Hr' as [He' Hp' Hx2 Hz2 Ho']. assert (nlimbs (x' * 2) < INT_MAX ∧ nlimbs (z' * 2) < INT_MAX) as [Hnx Hnz].
    { replace (x' * 2) with (x' + x') by lia. replace (z' * 2) with (z' + z') by lia. split; apply wide_fits; lia. }
    apply wp_bind. eapply (wp_mpz_divexact_ui F s2 _ s0 (x' * 2) s0 2 (x' * 2) x'); [done|local_var..|done|done|lia|]. intros s3 Hok3. local_set Hok3.
    apply wp_bind. eapply (wp_mpz_divexact_ui F s3 _ t0 (z' * 2) t0 2 (z' * 2) z'); [done|local_var..|done|done|lia|]. intros s4 Hok4. local_set Hok4.
    eapply (IH s4 x' y z' w); try done. replace (Z.of_nat (S n) - 1) with (Z.of_nat n) in * by lia. done. }
  apply wp_bind. eapply wp_mpz_odd_p; [done|local_var|]. apply wp_bind.
  assert (∀ b : bool, b = Z.odd x || Z.odd z → wp (_ ← (if b then _ ← mpz_sub s0 s0 s1; mpz_add t0 t0 t1 else mret tt);
    _ ← mpz_divexact_ui s0 s0 2; _ ← mpz_divexact_ui t0 t0 2; halve_loop n s0 s1 t0 t1) Q E s) as Hb.
  { intros b Hb. rewrite <- Hb in Hx', Hz'. apply wp_bind. destruct b; [|apply wp_ret, Hend; by rewrite <- Hx', <- Hz'].
    assert (nlimbs x < INT_MAX ∧ nlimbs y < INT_MAX ∧ nlimbs z < INT_MAX ∧ nlimbs w < INT_MAX) as (H1 & H2 & H3 & H4).
    { rewrite <- (nlimbs_abs x). split_and!; apply small_fits; lia. }
    apply wp_bind. eapply (wp_mpz_sub F s _ s0 x s0 x s1 y); [done|local_var..|done|done|]. intros s2 Hok2. local_set Hok2.
    eapply (wp_mpz_add F s2 _ t0 z t0 z t1 w); [done|local_var..|done|done|]. intros s3 Hok3. local_set Hok3. apply Hend. by rewrite <- Hx', <- Hz'. }
  destruct (Z.odd x); cbn [orb] in Hb; [by apply wp_ret, (Hb true)|]. eapply wp_mpz_odd_p; [done|local_var|]. by apply Hb.
Qed.

Lemma cofactors_odd x y p q : Z.gcd x y ≠ 0 → x = p * Z.gcd x y → y = q * Z.gcd x y → Z.odd (Z.abs q) || Z.odd (Z.abs p) = true.
Proof.
  intros Hg Hx Hy. assert (∀ k, Z.odd (Z.abs k) = Z.odd k) as Ha by (intros []; done). rewrite !Ha.
  destruct (Z.odd q) eqn:Hq, (Z.odd p) eqn:Hp; try done. exfalso. rewrite <- Z.negb_even in Hq, Hp. apply negb_false_iff, Z.even_spec in Hq as [q' ->], Hp as [p' ->].
  assert (2 * Z.gcd x y | Z.gcd x y) as [k Hk]; [|assert (Z.gcd x y * (2 * k - 1) = 0) as [?|?]%Z.mul_eq_0; lia]. apply Z.gcd_greatest; [exists p'|exists q']; lia.
Qed.

(** [u] and [v] hold numbers with the odd part of the divisor in [tv] and the cofactors,
    times [2 ^ p], in [s0] and [t0]. *)
Lemma wp_gcdext_reduce σ s u v x y a g k p s0v s1v t0v t1v Q E :
  fresh ks σ → zok F s (locals ks [a; g; s0v; s1v; t0v; t1v] σ) → σ !! u = Some (Some x) → σ !! v = Some (Some y) → x ≠ 0 → y ≠ 0 → Z.abs x ≤ M → Z.abs y ≤ M →
  Z.gcd x y = g * 2 ^ k → 0 ≤ k → 0 ≤ p → t0v * Z.abs y - s0v * Z.abs x = 2 ^ p * Z.gcd x y →
  0 ≤ s0v → s0v * Z.gcd x y ≤ Z.abs y → 0 ≤ t0v → t0v * Z.gcd x y ≤ Z.abs x →
  (∀ s' a' s1v t1v S T, zok F s' (locals ks [a'; Z.gcd x y; S; s1v; T; t1v] σ) → S * Z.abs x + T * Z.abs y = Z.gcd x y →
     2 * Z.abs S * Z.gcd x y ≤ Z.abs y → Z.abs T * Z.gcd x y ≤ Z.abs x → Q tt s') →
  wp (gcdext_reduce u v tv s0 s1 t0 t1 k p) Q E s.
Proof.
  intros Hf Hok Hu Hv Hx0 Hy0 HxM HyM Hg Hk Hp He Hs Hs2 Ht Ht2 HQ. pose proof (Z.pow_pos_nonneg 2 k ltac:(lia) Hk) as Hpk.
  assert (0 < Z.gcd x y) as Hgp by (pose proof (Z.gcd_nonneg x y); pose proof (Z.gcd_eq_0_l x y); lia).
  destruct (Z.gcd_divide_l x y) as [xq Hxq]. destruct (Z.gcd_divide_r x y) as [yq Hyq]. pose proof (cofactors_odd x y xq yq ltac:(lia) Hxq Hyq) as Hodd. set (G := Z.gcd x y) in *.
  assert (Z.abs x = Z.abs xq * G ∧ Z.abs y = Z.abs yq * G) as [Hax Hay] by (rewrite Hxq, Hyq, !Z.abs_mul, (Z.abs_eq G) by lia; done).
  assert (0 < Z.abs xq ∧ 0 < Z.abs yq) as [Hxp Hyp] by (split; nia). assert (Z.abs xq ≤ M ∧ Z.abs yq ≤ M ∧ G ≤ M) as (HxqM & HyqM & HGM) by (clear -Hax Hay Hxp Hyp HxM HyM Hgp; nia).
  assert (reduced p (- s0v) (Z.abs yq) t0v (Z.abs xq)) as Hred.
  { rewrite Hax, Hay in *. split; [|done|split; [nia|lia]|split; [lia|nia]|done]. apply (Z.mul_cancel_r _ _ G); [lia|]. rewrite <- He. ring. }
  assert (nlimbs x < INT_MAX ∧ nlimbs y < INT_MAX) as [Hnx Hny] by (rewrite <- (nlimbs_abs x), <- (nlimbs_abs y); split; apply small_fits; lia).
  unfold gcdext_reduce. apply wp_bind. assert (0 < g) as Hgp2 by nia. assert (2 ^ k ≤ M) as HkM by nia.
  eapply (wp_mpz_mul_2exp F s _ tv g tv g k); [done|local_var..|done|pose proof (shift_fits g k M ltac:(lia) Hk ltac:(lia) HkM); lia|]. intros s2 Hok2. local_set Hok2. rewrite <- Hg in Hok2.
  assert (0 ≤ s0v ≤ M ∧ 0 ≤ t0v ≤ M) as [HsM HtM] by (destruct Hred; lia).
  apply wp_bind. eapply (wp_mpz_neg F s2 _ s0 s0v s0 s0v); [done|local_var..|pose proof (small_fits s0v HsM); lia|]. intros s3 Hok3. local_set Hok3.
  apply wp_bind. eapply (wp_mpz_divexact F s3 _ s1 s1v v tv y G yq); [done|local_var..|lia|done|done|apply small_fits; lia|]. intros s4 Hok4. local_set Hok4.
  apply wp_bind. eapply (wp_mpz_abs F s4 _ s1 yq s1 yq); [done|local_var..|rewrite <- nlimbs_abs; pose proof (small_fits (Z.abs yq) ltac:(lia)); lia|]. intros s5 Hok5. local_set Hok5.
  apply wp_bind. eapply (wp_mpz_divexact F s5 _ t1 t1v u tv x G xq); [done|local_var..|lia|done|done|apply small_fits; lia|]. intros s6 Hok6. local_set Hok6.
  apply wp_bind. eapply (wp_mpz_abs F s6 _ t1 xq t1 xq); [done|local_var..|rewrite <- nlimbs_abs; pose proof (small_fits (Z.abs xq) ltac:(lia)); lia|]. intros s7 Hok7. local_set Hok7.
  apply wp_bind. eapply (wp_halve_loop σ a G (Z.to_nat p) s7); [done|done|by rewrite Z2Nat.id by done|done|done|]. intros s8 S T Hok8 Hr8.
  pose proof (reduced_choose _ _ _ _ Hr8) as Hch. destruct Hr8 as [_ _ HS HT _].
  assert (nlimbs S < INT_MAX) as HnS by (rewrite <- nlimbs_abs; apply small_fits; lia).
  apply wp_bind. eapply (wp_mpz_add F s8 _ s1 (Z.abs yq) s0 S s1 (Z.abs yq)); [done|local_var..|done|apply small_fits; lia|]. intros s9 Hok9. local_set Hok9.
  apply wp_bind. eapply (wp_mpz_cmpabs F s9 _ s0 S s1 (S + Z.abs yq)); [done|local_var..|].
  assert ((0 <? cmp_result (Z.abs S ?= Z.abs (S + Z.abs yq))) = (Z.abs (S + Z.abs yq) <? Z.abs S)) as ->.
  { destruct (Z.compare_spec (Z.abs S) (Z.abs (S + Z.abs yq))), (Z.ltb_spec (Z.abs (S + Z.abs yq)) (Z.abs S)); cbn; lia. }
  destruct (Z.abs (S + Z.abs yq) <? Z.abs S); cbn zeta in Hch; destruct Hch as (H1 & H2 & H3).
  - apply wp_bind. eapply (wp_mpz_swap F s9 _ s0 s1); [done|local_var..|]. intros s10 Hok10. local_set Hok10. local_set Hok10.
    eapply (wp_mpz_sub F s10 _ t0 T t0 T t1 (Z.abs xq)); [done|local_var..|apply small_fits; lia|apply small_fits; lia|]. intros s11 Hok11. local_set Hok11.
    eapply (HQ s11); [exact Hok11|rewrite Hax, Hay; nia|nia|nia].
  - apply wp_ret. eapply (HQ s9); [exact Hok9|rewrite Hax, Hay; nia|nia|nia].
Qed.

(** ** The results *)

Lemma wp_swap_out σ s o i k w vs Q E :
  fresh ks σ → zok F s (locals ks vs σ) → target σ o → ks !! i = Some k → vs !! i = Some w →
  (∀ s' v, fresh ks (upd o w σ) → zok F s' (locals ks (<[i := v]> vs) (upd o w σ)) → Q tt s') → wp (when_some o (λ r, mpz_swap r k)) Q E s.
Proof.
  intros Hf Hok Ho Hk Hv HQ. destruct o as [r|]; cbn [when_some upd target] in *; [|apply wp_ret, (HQ s w); [done|by rewrite list_insert_id]].
  destruct Ho as [v Hr]. pose proof (fresh_insert ks σ r _ (Some w) Hf Hr) as Hf'.
  eapply (wp_mpz_swap F s _ r k (Some v) (Some w)); [done|by eapply locals_old|by eapply locals_get|]. intros s' Hok'.
  rewrite locals_outer in Hok' by (by apply (fresh_other _ σ r (Some v))). rewrite (locals_set i) in Hok'; [by apply (HQ s' v)|done|done|by eapply lookup_lt_Some].
Qed.

Lemma wp_negate_local σ s i k u x vs w Q E :
  fresh ks σ → zok F s (locals ks vs σ) → σ !! u = Some (Some x) → ks !! i = Some k → vs !! i = Some w → nlimbs w ≤ INT_MAX →
  (∀ s', zok F s' (locals ks (<[i := if x <? 0 then - w else w]> vs) σ) → Q tt s') →
  wp (zu ← get_mpz u; if mp_size zu <? 0 then mpz_neg k k else mret tt) Q E s.
Proof.
  intros Hf Hok Hu Hk Hw Hn HQ. destruct (zok_operand F s _ u x Hok (locals_old _ _ _ _ _ Hf Hu)) as (zu & _ & Hzu & _ & _ & _ & _ & _ & Hs & _).
  apply wp_bind. eapply wp_get_mpz; [done|]. rewrite Hs, size_neg. destruct (x <? 0); [|apply wp_ret, HQ; by rewrite list_insert_id].
  eapply (wp_mpz_neg F s _ k w k w); [done|by eapply locals_get|by eapply locals_get|done|]. intros s' Hok'.
  rewrite (locals_set i) in Hok'; [by apply HQ|done|done|by eapply lookup_lt_Some].
Qed.

Lemma wp_clear_six σ s vs Q E : fresh ks σ → length vs = 6%nat → zok F s (locals ks vs σ) → (∀ s', zok F s' σ → Q tt s') →
  wp (_ ← mpz_clear tu; _ ← mpz_clear tv; _ ← mpz_clear s0; _ ← mpz_clear s1; _ ← mpz_clear t0; mpz_clear t1) Q E s.
Proof.
  intros Hf Hlen Hok HQ. destruct vs as [|v1 [|v2 [|v3 [|v4 [|v5 [|v6 [|]]]]]]]; try done.
  do 5 (apply wp_bind; eapply wp_clear_local; [exact Hf|done|]; clear Hok; intros ? Hok; apply fresh_tail in Hf).
  eapply wp_clear_local; [exact Hf|done|]. exact HQ.
Qed.

Lemma wp_gcdext_finish σ s g os ot u v x y w a G S s1v T t1v Q E :
  fresh ks σ → zok F s (locals ks [a; G; S; s1v; T; t1v] σ) → σ !! u = Some (Some x) → σ !! v = Some (Some y) → σ !! g = Some (Some w) → target σ os → target σ ot →
  nlimbs S ≤ INT_MAX → nlimbs T ≤ INT_MAX →
  (∀ s', zok F s' (upd ot (if y <? 0 then - T else T) (upd os (if x <? 0 then - S else S) (<[g := Some G]> σ))) → Q tt s') →
  wp (zu ← get_mpz u; _ ← (if mp_size zu <? 0 then mpz_neg s0 s0 else mret tt);
      zv ← get_mpz v; _ ← (if mp_size zv <? 0 then mpz_neg t0 t0 else mret tt);
      _ ← mpz_swap g tv; _ ← when_some os (λ r, mpz_swap r s0); _ ← when_some ot (λ r, mpz_swap r t0);
      _ ← mpz_clear tu; _ ← mpz_clear tv; _ ← mpz_clear s0; _ ← mpz_clear s1; _ ← mpz_clear t0; mpz_clear t1) Q E s.
Proof.
  intros Hf Hok Hu Hv Hg Hs Ht HnS HnT HQ. apply wp_bind_assoc.
  eapply (wp_negate_local σ s 2 s0 u x); [done..|]. intros s2 Hok2. cbn [insert list_insert] in Hok2. apply wp_bind_assoc.
  eapply (wp_negate_local σ s2 4 t0 v y); [done..|]. intros s3 Hok3. cbn [insert list_insert] in Hok3. apply wp_bind.
  eapply (wp_swap_out σ s3 (Some g) 1 tv); [done|done|by exists w|done|done|]. intros s4 v4 Hf4 Hok4. cbn [insert list_insert upd] in Hf4, Hok4. apply wp_bind.
  eapply (wp_swap_out _ s4 os 2 s0); [done|done|by apply target_insert|done|done|]. intros s5 v5 Hf5 Hok5. cbn [insert list_insert] in Hok5. apply wp_bind.
  eapply (wp_swap_out _ s5 ot 4 t0); [done|done|by apply target_upd, target_insert|done|done|]. intros s6 v6 Hf6 Hok6.
  eapply wp_clear_six; [done| |done|done]. done.
Qed.
End gcdext.

Section main.
Context (F : mem).
Implicit Types (s : zstate) (σ : gmap positive (option Z)).

Lemma wp_six_locals {A} (K : mpz_t → mpz_t → mpz_t → mpz_t → mpz_t → mpz_t → MZ A) s σ Q E :
  zok F s σ →
  (∀ a b c d e f s', fresh [a; b; c; d; e; f] σ → zok F s' (locals [a; b; c; d; e; f] [0; 0; 0; 0; 0; 0] σ) → wp (K a b c d e f) Q E s') →
  wp (a ← local_mpz; b ← local_mpz; c ← local_mpz; d ← local_mpz; e ← local_mpz; f ← local_mpz;
      _ ← mpz_init a; _ ← mpz_init b; _ ← mpz_init c; _ ← mpz_init d; _ ← mpz_init e; _ ← mpz_init f; K a b c d e f) Q E s.
Proof.
  intros Hok%declared_nil HK.
  apply wp_bind. eapply wp_declare; [exact Hok|]. clear Hok. intros a s1 Hok. apply wp_bind. eapply wp_declare; [exact Hok|]. clear Hok. intros b s2 Hok.
  apply wp_bind. eapply wp_declare; [exact Hok|]. clear Hok. intros c s3 Hok. apply wp_bind. eapply wp_declare; [exact Hok|]. clear Hok. intros d s4 Hok.
  apply wp_bind. eapply wp_declare; [exact Hok|]. clear Hok. intros e s5 Hok. apply wp_bind. eapply wp_declare; [exact Hok|]. clear Hok. intros f s6 (Hok & Hf & Hlt).
  cbn [app] in Hf, Hlt.
  apply wp_bind. eapply (wp_init_local F s6 σ [] [] a [b; c; d; e; f]); [done|done|done|done|]. cbn [app]. clear Hok Hlt. intros s7 Hlt Hok.
  apply wp_bind. eapply (wp_init_local F s7 σ [a] [0] b [c; d; e; f]); [done|done|done|done|]. cbn [app]. clear Hok Hlt. intros s8 Hlt Hok.
  apply wp_bind. eapply (wp_init_local F s8 σ [a; b] [0; 0] c [d; e; f]); [done|done|done|done|]. cbn [app]. clear Hok Hlt. intros s9 Hlt Hok.
  apply wp_bind. eapply (wp_init_local F s9 σ [a; b; c] [0; 0; 0] d [e; f]); [done|done|done|done|]. cbn [app]. clear Hok Hlt. intros s10 Hlt Hok.
  apply wp_bind. eapply (wp_init_local F s10 σ [a; b; c; d] [0; 0; 0; 0] e [f]); [done|done|done|done|]. cbn [app]. clear Hok Hlt. intros s11 Hlt Hok.
  apply wp_bind. eapply (wp_init_local F s11 σ [a; b; c; d; e] [0; 0; 0; 0; 0] f []); [done|done|done|done|]. cbn [app]. clear Hok Hlt. intros s12 Hlt Hok.
  by apply HK.
Qed.

(** From the odd parts in [tu] and [tv] on: the larger one is first. *)
Lemma wp_gcdext_main σ s g os ot u v x y w a b i j k (tu tv s0 s1 t0 t1 : mpz_t) Q E :
  fresh [tu; tv; s0; s1; t0; t1] σ → zok F s (locals [tu; tv; s0; s1; t0; t1] [a; b; 0; 0; 0; 0] σ) →
  σ !! u = Some (Some x) → σ !! v = Some (Some y) → σ !! g = Some (Some w) → target σ os → target σ ot →
  Z.abs x = a * 2 ^ (i + k) → Z.abs y = b * 2 ^ (j + k) → 0 ≤ i → 0 ≤ j → 0 ≤ k → Z.min i j = 0 → 0 < a → 0 < b → Z.odd a = true → Z.odd b = true →
  nlimbs x + 1 < INT_MAX → nlimbs y + 1 < INT_MAX →
  (∀ s' S T, S * x + T * y = Z.gcd x y → Z.abs S * Z.gcd x y ≤ Z.abs y → Z.abs T * Z.gcd x y ≤ Z.abs x →
     zok F s' (upd ot T (upd os S (<[g := Some (Z.gcd x y)]> σ))) → Q tt s') →
  wp (power ← gcdext_cofactors tu tv s0 s1 t0 t1 i j;
      _ ← gcdext_reduce u v tv s0 s1 t0 t1 k power;
      zu ← get_mpz u; _ ← (if mp_size zu <? 0 then mpz_neg s0 s0 else mret tt);
      zv ← get_mpz v; _ ← (if mp_size zv <? 0 then mpz_neg t0 t0 else mret tt);
      _ ← mpz_swap g tv; _ ← when_some os (λ r, mpz_swap r s0); _ ← when_some ot (λ r, mpz_swap r t0);
      _ ← mpz_clear tu; _ ← mpz_clear tv; _ ← mpz_clear s0; _ ← mpz_clear s1; _ ← mpz_clear t0; mpz_clear t1) Q E s.
Proof.
  intros Hf Hok Hu Hv Hg Hs Ht Hx Hy Hi Hj Hk Hmin Ha Hb Hao Hbo Hnx Hny HQ. set (M := Z.max (Z.abs x) (Z.abs y)).
  assert (nlimbs M + 1 < INT_MAX) as HM by (unfold M; destruct (Z.max_spec (Z.abs x) (Z.abs y)) as [[_ ->]|[_ ->]]; by rewrite nlimbs_abs).
  pose proof (Z.pow_pos_nonneg 2 k ltac:(lia) Hk) as Hpk. rewrite Z.pow_add_r in Hx, Hy by done.
  pose proof (Z.pow_pos_nonneg 2 i ltac:(lia) Hi) as Hpi. pose proof (Z.pow_pos_nonneg 2 j ltac:(lia) Hj) as Hpj.
  assert (Z.gcd x y = Z.gcd a b * 2 ^ k) as Hgcd.
  { rewrite <- Z.gcd_abs_l, <- Z.gcd_abs_r, Hx, Hy, <- !Z.pow_add_r, gcd_split by (done || lia). f_equal. f_equal. lia. }
  assert (a * 2 ^ i ≤ M) as HaM by (apply Z.le_trans with (Z.abs x); [rewrite Hx; nia|lia]).
  assert (b * 2 ^ j ≤ M) as HbM by (apply Z.le_trans with (Z.abs y); [rewrite Hy; nia|lia]).
  assert (0 < Z.abs x ∧ 0 < Z.abs y) as [Hx0 Hy0] by (rewrite Hx, Hy; nia).
  apply wp_bind. eapply (wp_gcdext_cofactors F tu tv s0 s1 t0 t1 M HM σ s a b i j); try done. intros s2 p a' xx yy z ww Hok2 Hp Heq Hxx Hxb Hz Hzb.
  apply wp_bind. eapply (wp_gcdext_reduce F tu tv s0 s1 t0 t1 M HM σ s2 u v x y _ (Z.gcd a b) k p); [done|done|done|done|lia|lia|lia|lia|done|done|done| | | | | |]; rewrite ?Hgcd, ?Hx, ?Hy.
  - transitivity ((z * (b * 2 ^ j) - xx * (a * 2 ^ i)) * 2 ^ k); [ring|]. rewrite Heq. ring.
  - done.
  - rewrite !Z.mul_assoc. by apply Z.mul_le_mono_nonneg_r; [lia|].
  - done.
  - rewrite !Z.mul_assoc. by apply Z.mul_le_mono_nonneg_r; [lia|].
  - rewrite <- Hgcd, <- Hx, <- Hy. intros s3 a3 s1v t1v S T Hok3 HeqST HSb HTb. pose proof (Z.gcd_nonneg x y) as Hgn. assert (Z.gcd x y ≠ 0) as Hg0 by (intros H0%Z.gcd_eq_0_l; lia).
    assert (∀ c, 0 ≤ c → c ≤ c * Z.gcd x y) as Hmul by (clear -Hgn Hg0; intros; nia). pose proof (Hmul (2 * Z.abs S) ltac:(lia)). pose proof (Hmul (Z.abs T) ltac:(lia)).
    assert (Z.abs S ≤ M ∧ Z.abs T ≤ M) as [HSM HTM] by lia.
    eapply (wp_gcdext_finish F tu tv s0 s1 t0 t1 σ s3 g os ot u v x y w); try done.
    + rewrite <- nlimbs_abs. pose proof (small_fits M HM (Z.abs S) ltac:(lia)). lia.
    + rewrite <- nlimbs_abs. pose proof (small_fits M HM (Z.abs T) ltac:(lia)). lia.
    + intros s4 Hok4. eapply (HQ s4); [| | |exact Hok4]; destruct (Z.ltb_spec x 0), (Z.ltb_spec y 0); lia.
Qed.

(** The cofactors that [mpz_gcdext] gives *)
Definition bezout (x y S T : Z) : Prop :=
  S * x + T * y = Z.gcd x y ∧ (x ≠ 0 → y ≠ 0 → Z.abs S * Z.gcd x y ≤ Z.abs y ∧ Z.abs T * Z.gcd x y ≤ Z.abs x).

Lemma wp_opt_set_ui s σ o x Q E : zok F s σ → target σ o → 0 ≤ x < WB → (∀ s', zok F s' (upd o x σ) → Q tt s') → wp (when_some o (λ r, mpz_set_ui r x)) Q E s.
Proof. intros Hok Ho Hx HQ. destruct o as [r|]; cbn [when_some upd target] in *; [|by apply wp_ret, HQ]. destruct Ho as [w Hw]. by eapply (wp_mpz_set_ui F s σ r w). Qed.

Lemma wp_opt_set_sign s σ o x Q E : zok F s σ → target σ o → (∀ s', zok F s' (upd o (Z.sgn x) σ) → Q tt s') → wp (when_some o (λ r, mpz_set_si r (Z.sgn x))) Q E s.
Proof. intros Hok Ho HQ. destruct o as [r|]; cbn [when_some upd target] in *; [|by apply wp_ret, HQ]. destruct Ho as [w Hw]. eapply (wp_mpz_set_si F s σ r w); try done. lia. Qed.

(** [mpz_gcdext]: the divisor and cofactors that are not larger than the other operand,
    divided by the divisor *)
Lemma wp_mpz_gcdext σ s g w os ot u v x y Q E :
  zok F s σ → σ !! u = Some (Some x) → σ !! v = Some (Some y) → σ !! g = Some (Some w) → target σ os → target σ ot →
  (∀ i, os = Some i → ot ≠ Some i) → nlimbs x + 1 < INT_MAX → nlimbs y + 1 < INT_MAX →
  (∀ s' S T, bezout x y S T → zok F s' (upd ot T (upd os S (<[g := Some (Z.gcd x y)]> σ))) → Q tt s') →
  wp (mpz_gcdext g os ot u v) Q E s.
Proof.
  intros Hok Hu Hv Hg Hs Ht Hne Hnx Hny HQ. destruct (zok_operand F s σ u x Hok Hu) as (zu & _ & Hzu & _ & _ & _ & _ & _ & Hsu & _).
  destruct (zok_operand F s σ v y Hok Hv) as (zv & _ & Hzv & _ & _ & _ & _ & _ & Hsv & _).
  unfold mpz_gcdext. apply wp_bind. eapply wp_get_mpz; [done|]. rewrite Hsu, size_zero. destruct (Z.eqb_spec x 0) as [->|Hx0].
  { apply wp_bind. eapply wp_mpz_sgn; try done. apply wp_bind. eapply (wp_mpz_abs F s σ g w v y); try done; [lia|]. intros s2 Hok2.
    apply wp_bind. eapply wp_opt_set_ui; [done|by apply target_insert|done|]. intros s3 Hok3. eapply wp_opt_set_sign; [done|by apply target_upd, target_insert|]. intros s4 Hok4.
    rewrite Z.gcd_0_l in HQ. apply (HQ s4 0 (Z.sgn y)); [|done]. split; [rewrite Z.gcd_0_l; lia|done]. }
  apply wp_bind. eapply wp_get_mpz; [done|]. rewrite Hsv, size_zero. destruct (Z.eqb_spec y 0) as [->|Hy0].
  { apply wp_bind. eapply wp_mpz_sgn; try done. apply wp_bind. eapply (wp_mpz_abs F s σ g w u x); try done; [lia|]. intros s2 Hok2.
    apply wp_bind. eapply wp_opt_set_sign; [done|by apply target_insert|]. intros s3 Hok3. eapply wp_opt_set_ui; [done|by apply target_upd, target_insert|done|]. intros s4 Hok4.
    rewrite Z.gcd_0_r in HQ. apply (HQ s4 (Z.sgn x) 0); [|done]. split; [rewrite Z.gcd_0_r; lia|done]. }
  destruct (odd_split (Z.abs x)) as (a & i & Hi & Hx & Ha & Hao); [lia|]. destruct (odd_split (Z.abs y)) as (b & j & Hj & Hy & Hb & Hbo); [lia|].
  eapply wp_six_locals; [done|]. intros tu tv s0 s1 t0 t1 s2 Hf Hok2.
  apply wp_bind. eapply (wp_mpz_abs F s2 _ tu 0 u x); [done|local_var..|lia|]. intros s3 Hok3. local_set Hok3. rewrite Hx in Hok3.
  apply wp_bind. eapply (wp_mpz_make_odd F s3 _ tu a i); [done|local_var|done..|rewrite <- Hx, nlimbs_abs; lia|]. intros s4 Hok4. local_set Hok4.
  apply wp_bind. eapply (wp_mpz_abs F s4 _ tv 0 v y); [done|local_var..|lia|]. intros s5 Hok5. local_set Hok5. rewrite Hy in Hok5.
  apply wp_bind. eapply (wp_mpz_make_odd F s5 _ tv b j); [done|local_var|done..|rewrite <- Hy, nlimbs_abs; lia|]. intros s6 Hok6. local_set Hok6.
  set (k := Z.min i j). assert (u64 (i - k) = i - k ∧ u64 (j - k) = j - k) as [-> ->].
  { pose proof (Z.pow_pos_nonneg 2 i ltac:(lia) Hi). pose proof (Z.pow_pos_nonneg 2 j ltac:(lia) Hj).
    assert (u64 i = i) as Ei by (apply (power_fits i 1 (Z.abs x) (Z.abs x)); rewrite ?nlimbs_abs; nia). assert (u64 j = j) as Ej by (apply (power_fits j 1 (Z.abs y) (Z.abs y)); rewrite ?nlimbs_abs; nia).
    unfold u64 in *. pose proof (Z.mod_pos_bound i WB ltac:(done)). pose proof (Z.mod_pos_bound j WB ltac:(done)). change (2 ^ 64) with WB in *. split; apply Z.mod_small; lia. }
  destruct (zok_operand F s6 _ tu a Hok6) as (zu' & _ & Hzu' & _); [local_var|]. destruct (zok_operand F s6 _ tv b Hok6) as (zv' & _ & Hzv' & _); [local_var|].
  do 2 (apply wp_bind; eapply wp_get_mpz; [done|]). apply wp_bind. destruct (_ <? _).
  - apply wp_bind. eapply (wp_mpz_swap F s6 _ tu tv); [done|local_var..|]. intros s7 Hok7. local_set Hok7. local_set Hok7. apply wp_ret.
    eapply (wp_gcdext_main σ s7 g ot os v u y x w b a (j - k) (i - k) k tu tv s0 s1 t0 t1); try done; try lia.
    + by rewrite Z.sub_add.
    + by rewrite Z.sub_add.
    + intros s8 S T He HS HT Hok8. apply (HQ s8 T S); [split; [rewrite Z.gcd_comm; lia|]; intros _ _; by rewrite Z.gcd_comm|].
      rewrite Z.gcd_comm in Hok8. destruct os as [r|], ot as [r'|]; cbn [upd] in *; try done. rewrite insert_insert_ne; [done|]. intros ->. by apply (Hne r).
  - apply wp_ret. eapply (wp_gcdext_main σ s6 g os ot u v x y w a b (i - k) (j - k) k tu tv s0 s1 t0 t1); try done; try lia.
    + by rewrite Z.sub_add.
    + by rewrite Z.sub_add.
    + intros s8 S T He HS HT Hok8. by apply (HQ s8 S T).
Qed.

(** ** Inverses *)

(** [R] is the inverse of [x] modulo [y], in the range of remainders. *)
Definition is_inverse (x y R : Z) : Prop := 0 < R < Z.abs y ∧ (y | R * x - 1).

Lemma bezout_inverse x y S T : 1 < Z.abs y → x ≠ 0 → Z.gcd x y = 1 → bezout x y S T → is_inverse x y (if S <? 0 then S + Z.abs y else S).
Proof.
  intros Hy Hx Hg [He Hb]. destruct (Hb Hx ltac:(lia)) as [HS _]. rewrite Hg in *. rewrite Z.mul_1_r in HS.
  assert (∀ k, S ≠ k * y) as Hk.
  { intros k ->. assert (y * (k * x + T) = 1) as H1 by lia. assert (y | 1) as Hd by (exists (k * x + T); lia). apply Z.divide_1_r in Hd. lia. }
  pose proof (Hk 0). pose proof (Hk 1). pose proof (Hk (-1)). split; [destruct (Z.ltb_spec S 0); lia|].
  destruct (S <? 0); [|exists (- T); lia]. exists (Z.sgn y * x - T). replace (Z.abs y) with (Z.sgn y * y) by lia. lia.
Qed.

Lemma wp_mpz_invert σ s r w u m x y Q E :
  zok F s σ → σ !! r = Some (Some w) → σ !! u = Some (Some x) → σ !! m = Some (Some y) → nlimbs x + 1 < INT_MAX → nlimbs y + 1 < INT_MAX →
  (∀ s', (if bool_decide (x ≠ 0 ∧ 1 < Z.abs y ∧ Z.gcd x y = 1) then ∃ R, is_inverse x y R ∧ zok F s' (<[r := Some R]> σ) else zok F s' σ) →
     Q (bool_decide (x ≠ 0 ∧ 1 < Z.abs y ∧ Z.gcd x y = 1)) s') →
  wp (mpz_invert r u m) Q E s.
Proof.
  intros Hok Hr Hu Hm Hnx Hny HQ. remember (bool_decide (x ≠ 0 ∧ 1 < Z.abs y ∧ Z.gcd x y = 1)) as inv eqn:Einv. destruct (zok_operand F s σ u x Hok Hu) as (zu & _ & Hzu & _ & _ & _ & _ & _ & Hsu & _).
  unfold mpz_invert. apply wp_bind. eapply wp_get_mpz; [done|]. rewrite Hsu, size_zero. apply wp_bind.
  assert (∀ b : bool, b = bool_decide (x = 0 ∨ Z.abs y ≤ 1) → wp (if b then mret false else
      g ← local_mpz; tr ← local_mpz; _ ← mpz_init g; _ ← mpz_init tr; _ ← mpz_gcdext g (Some tr) None u m; c ← mpz_cmp_ui g 1; let invertible := c =? 0 in
      _ ← (if invertible then ztr ← get_mpz tr; _ ← (if mp_size ztr <? 0 then zm ← get_mpz m; if 0 <=? mp_size zm then mpz_add tr tr m else mpz_sub tr tr m else mret tt); mpz_swap r tr
           else mret tt); _ ← mpz_clear g; _ ← mpz_clear tr; mret invertible) Q E s) as Hgo.
  2: { destruct (Z.eqb_spec x 0) as [Hx|Hx]; [apply wp_ret, (Hgo true); by rewrite bool_decide_true by lia|]. apply wp_bind. eapply wp_mpz_cmpabs_ui; try done. apply wp_ret, (Hgo (cmp_result (Z.abs y ?= 1) <=? 0)).
       clear Einv HQ. destruct (Z.compare_spec (Z.abs y) 1); case_bool_decide; cbn; try done; lia. }
  intros b Hno. symmetry in Hno. destruct b; [apply bool_decide_eq_true in Hno|apply bool_decide_eq_false in Hno].
  { rewrite bool_decide_false in Einv by lia. subst inv. by apply wp_ret, HQ. }
  eapply wp_two_locals; [done|]. intros g tr s2 Hg Htr Hgt Hok2. assert (r ≠ g ∧ r ≠ tr ∧ u ≠ g ∧ u ≠ tr ∧ m ≠ g ∧ m ≠ tr) as (H1 & H2 & H3 & H4 & H5 & H6) by (split_and!; congruence).
  apply wp_bind. eapply (wp_mpz_gcdext _ s2 g 0 (Some tr) None u m x y); [done|by simplify_map_eq..|eexists; by simplify_map_eq|done|done|done|done|].
  intros s3 S T Hbz Hok3. cbn [upd] in Hok3. assert (zok F s3 (<[g := Some (Z.gcd x y)]> (<[tr := Some S]> σ))) as Hok4 by same_store Hok3. clear Hok2 Hok3.
  apply wp_bind. eapply (wp_mpz_cmp_ui F s3 _ g (Z.gcd x y) 1); [done|by simplify_map_eq|done|]. cbn zeta.
  assert ((cmp_result (Z.gcd x y ?= 1) =? 0) = inv) as Hc.
  { subst inv. destruct (Z.compare_spec (Z.gcd x y) 1); case_bool_decide; cbn; try done; lia. }
  rewrite Hc. destruct inv; symmetry in Einv; apply wp_bind.
  - apply bool_decide_eq_true in Einv as (Hx & Hy & Hg1). pose proof (bezout_inverse x y S T Hy Hx Hg1 Hbz) as HR. set (R := if S <? 0 then S + Z.abs y else S) in *.
    assert (∀ s4, zok F s4 (<[g := Some (Z.gcd x y)]> (<[tr := Some R]> σ)) →
      wp (mpz_swap r tr) (λ _ s', wp (_ ← mpz_clear g; _ ← mpz_clear tr; mret true) Q E s') E s4) as Hend.
    { intros s4 Hok5. eapply (wp_mpz_swap F s4 _ r tr); [done|by simplify_map_eq..|]. intros s5 Hok6.
      apply wp_bind. eapply (wp_mpz_clear F s5 _ g); [done|by simplify_map_eq|]. intros s6 Hok7. apply wp_bind. eapply (wp_mpz_clear F s6 _ tr); [done|by simplify_map_eq|]. intros s7 Hok8.
      apply wp_ret, HQ. exists R. split; [done|]. same_store Hok8. }
    destruct (zok_operand F s3 _ tr S Hok4) as (zt & _ & Hzt & _ & _ & _ & _ & _ & Hst & _); [by simplify_map_eq|].
    destruct (zok_operand F s3 _ m y Hok4) as (zm & _ & Hzm & _ & _ & _ & _ & _ & Hsm & _); [by simplify_map_eq|].
    assert (nlimbs S ≤ nlimbs y) as HnS by (apply nlimbs_le; destruct Hbz as [_ Hb]; destruct (Hb Hx ltac:(lia)) as [Hb1 _]; rewrite Hg1 in Hb1; lia).
    apply wp_bind. eapply wp_get_mpz; [done|]. rewrite Hst, size_neg. apply wp_bind.
    destruct (Z.ltb_spec S 0) as [HS|HS]; [|apply wp_ret; by apply Hend].
    apply wp_bind. eapply wp_get_mpz; [done|]. rewrite Hsm, size_nonneg. destruct (Z.leb_spec 0 y) as [Hy0|Hy0].
    + eapply (wp_mpz_add F s3 _ tr S tr S m y); [done|by simplify_map_eq..|lia|lia|]. intros s4 Hok5. apply Hend. subst R. rewrite Z.abs_eq by done. same_store Hok5.
    + eapply (wp_mpz_sub F s3 _ tr S tr S m y); [done|by simplify_map_eq..|lia|lia|]. intros s4 Hok5. apply Hend. subst R. rewrite Z.abs_neq by lia. unfold Z.sub in Hok5. same_store Hok5.
  - apply wp_ret, wp_bind. eapply (wp_mpz_clear F s3 _ g); [done|by simplify_map_eq|]. intros s6 Hok7. apply wp_bind. eapply (wp_mpz_clear F s6 _ tr); [done|by simplify_map_eq|]. intros s7 Hok8.
    apply wp_ret, HQ. same_store Hok8.
Qed.
End main.
