(* ===== verification/MpzPowm.v ===== *)
(** * Powers modulo a number: correctness

    [mpz_powm] shifts the modulus once, keeps the inverse and the pointers to the limbs of
    the modulus and of the exponent, and reduces whenever the power gets longer than the
    modulus. *)

From S2P Require Import Prelude CString Queue State UInt64 Mpn MpnMem MpnThm MpnBits MpnDiv MpnInv MpnDivThm MpnDivPi1 MpnCorrect MpnDivQr MpnPreinv MpnStr MpnStrThm MpnSetStr Mpz MpzRep MpzLocals MpzArith MpzMul MpzDiv MpzConv MpzQuo MpzQuoThm MpzBits MpzNum MpzFrame MpzNumThm MpzPow MpzBitsThm MpzBitThm MpzStr MpzStrThm MpzRoot MpzGcdext.

Section powm.
Context (F : mem).
Implicit Types (s : zstate) (σ : gmap positive (option Z)).

(** ** Reduction *)

Lemma wp_reduce_limbs s σ r t z mp ld d inv Q E :
  zok F s σ → σ !! r = Some (Some t) → 0 ≤ t → z_vars s !! r = Some z → inverse_of d ld inv → holds (z_mem s) mp ld → (mp_d z).1 ≠ mp.1 →
  Z.of_nat (length ld) ≤ nlimbs t →
  (∀ s' lr, length lr = length ld → words lr → val lr = t mod d → z_vars s' = z_vars s → zok F s' (<[r := None]> σ) → holds (z_mem s') (mp_d z) lr → Q tt s') →
  wp (limbs (mpn_div_qr_preinv None (mp_d z) (mp_size z) mp (Z.of_nat (length ld)) inv)) Q E s.
Proof.
  intros Hok Hr Ht Hz Hinv Hmp Hne Hle HQ. destruct (zok_operand F s σ r t Hok Hr) as (z' & l & Hz' & Hw & Hn & Hh & Hv & Hl & Hs & Hal & H0).
  rewrite Hz in Hz'. injection Hz' as <-. assert (0 < Z.of_nat (length ld)) as Hpos by (pose proof (inv_nonempty _ _ _ Hinv); destruct ld; [done|cbn; lia]).
  assert (t ≠ 0) as Ht0 by (intros ->; change (nlimbs 0) with 0 in Hle; lia). rewrite Hs, Z.sgn_pos, Z.mul_1_l, <- Hl by lia. apply wp_zoom.
  eapply (wp_mpn_div_qr_preinv (mp_d z) l mp ld d inv); try done; [lia|apply (zok_mem _ _ _ Hok)|by left|]. intros m' lr Hlr Hwr Hvr Hhr Hc.
  apply (HQ _ lr); try done; [by rewrite Hvr, Hv, Z.abs_eq|]. eapply (zok_write_block F s σ r z (length l)); try done; lia.
Qed.

(** The limbs of a raw variable become its number. *)
Lemma wp_normalize_raw s σ r z lr Q E :
  zok F s (<[r := None]> σ) → z_vars s !! r = Some z → words lr → holds (z_mem s) (mp_d z) lr → Z.of_nat (length lr) ≤ mp_alloc z →
  (∀ s', zok F s' (<[r := Some (val lr)]> σ) → Q tt s') →
  wp (n ← limbs (mpn_normalized_size (mp_d z) (Z.of_nat (length lr))); set_size r n) Q E s.
Proof.
  intros Hok Hz Hw Hh Hal HQ. apply wp_bind, wp_zoom. apply wp_mpn_normalized_size; [done|]. intros k Hk Hn Er. rewrite zmem_id.
  assert (val (take k lr) = val lr) as Hvt by (rewrite Er at 2; rewrite val_app, val_zeros; lia).
  eapply (wp_set_size F s _ r z (take k lr)); [done|by rewrite lookup_insert_eq|done|by apply Forall_take|done|rewrite Er in Hh; by apply holds_app in Hh as [? _]| | |].
  - rewrite length_take. lia.
  - rewrite length_take. lia.
  - intros s'. rewrite insert_insert_eq, Hvt. replace (Z.sgn (Z.of_nat k) * val lr) with (val lr); [apply HQ|]. destruct k as [|k]; [rewrite take_0 in Hvt; cbn [val] in Hvt; lia|lia].
Qed.

Lemma wp_powm_reduce s σ r t mp ld d inv longer Q E :
  zok F s σ → σ !! r = Some (Some t) → 0 ≤ t → inverse_of d ld inv → holds (z_mem s) mp ld →
  (∀ z, z_vars s !! r = Some z → 0 < mp_alloc z → (mp_d z).1 ≠ mp.1) → (longer (nlimbs t) (Z.of_nat (length ld)) = true → Z.of_nat (length ld) ≤ nlimbs t) →
  (∀ s', zok F s' (<[r := Some (if longer (nlimbs t) (Z.of_nat (length ld)) then t mod d else t)]> σ) → Q tt s') →
  wp (powm_reduce r mp (Z.of_nat (length ld)) inv longer) Q E s.
Proof.
  intros Hok Hr Ht Hinv Hmp Hne Hlong HQ. destruct (zok_operand F s σ r t Hok Hr) as (z & l & Hz & Hw & Hn & Hh & Hv & Hl & Hs & Hal & H0).
  unfold powm_reduce. apply wp_bind. eapply wp_get_mpz; [done|].
  assert (mp_size z = nlimbs t) as Hsz by (rewrite Hs; destruct (Z.eq_dec t 0) as [->|]; [done|rewrite Z.sgn_pos by lia; lia]). rewrite Hsz.
  destruct (longer (nlimbs t) (Z.of_nat (length ld))); [|apply wp_ret, HQ; by rewrite insert_id].
  specialize (Hlong eq_refl). assert (0 < Z.of_nat (length ld)) as Hpos by (pose proof (inv_nonempty _ _ _ Hinv); destruct ld; [done|cbn; lia]).
  apply wp_bind. rewrite <- Hsz. eapply (wp_reduce_limbs s σ r t z mp ld d inv); try done; [apply Hne; [done|lia]|].
  intros s1 lr Hlr Hwr Hvr Hvars Hok1 Hhr. rewrite <- Hlr. eapply (wp_normalize_raw s1 σ r z lr); try done; [by rewrite Hvars|lia|]. by rewrite Hvr.
Qed.

(** ** The pointer to the modulus *)

(** [mp] points to the limbs of the variable itself or to a copy that belongs to nobody. *)
Definition at_modulus (zm : mpz_struct) (y : Z) (mp : ptr) (ld : list Z) : Prop :=
  ld ≠ [] ∧ (mp = mp_d zm ∧ words ld ∧ normal ld ∧ val ld = Z.abs y ∨ holds F mp ld).

Lemma modulus_use s σ m y zm mp ld :
  zok F s σ → σ !! m = Some (Some y) → z_vars s !! m = Some zm → at_modulus zm y mp ld →
  holds (z_mem s) mp ld ∧ ∀ r z, r ≠ m → is_Some (σ !! r) → z_vars s !! r = Some z → 0 < mp_alloc z → (mp_d z).1 ≠ mp.1.
Proof.
  intros Hok Hm Hzm [Hne [(-> & Hw & Hn & Hv)|Hh]].
  - destruct (zok_operand F s σ m y Hok Hm) as (z' & l & Hz' & Hw' & Hn' & Hh' & Hv' & Hl' & _ & Hal & _). rewrite Hzm in Hz'. injection Hz' as <-.
    assert (length ld = length l) as Hlen by (apply Nat2Z.inj; rewrite <- (nlimbs_val ld), <- (nlimbs_val l), Hv, Hv' by done; done).
    assert (ld = l) as -> by (apply val_inj; try done; congruence). split; [done|]. intros r z Hr Hrs Hz Ha Heq.
    assert (0 < Z.of_nat (length l)) by (destruct l; [done|cbn; lia]).
    apply Hr. eapply (zok_sep _ _ _ Hok r m (mp_d zm).1); [done|by rewrite Hm|by exists z|]. exists zm. split; [done|]. split; [lia|done].
  - split; [intros i x Hi; by apply (zok_foreign _ _ _ Hok), Hh|]. intros r z Hr Hrs Hz Ha Heq. destruct ld as [|x ld]; [done|]. apply holds_cons in Hh as [Hc _].
    destruct mp as [b o]. cbn in Heq. rewrite (zok_private _ _ _ Hok r b o) in Hc; [done|done|]. by exists z.
Qed.

(** ** One bit of the exponent *)

Section loop.
Context (tr base m e : mpz_t) (σ : gmap positive (option Z)) (B y ev w0 d : Z) (zm ze : mpz_struct) (mp : ptr) (ld : list Z) (inv : gmp_div_inverse).
Context (Hbt : tr ≠ base) (Hmt : tr ≠ m) (Het : tr ≠ e) (Hbase : σ !! base = Some (Some B)) (Hm : σ !! m = Some (Some y)) (le : list Z) (He : readable F σ e ev ze le)
  (Htr : σ !! tr = Some (Some w0)) (HB : 0 ≤ B) (HnB : nlimbs B ≤ Z.of_nat (length ld)) (Hinv : inverse_of d ld inv) (Hshift : inv_shift inv = 0)
  (Hy : y ≠ 0) (Hd : 0 < d) (Hdiv : (Z.abs y | d)) (Hat : at_modulus zm y mp ld) (Hfit : 3 * Z.of_nat (length ld) ≤ INT_MAX).

(** [t] is the power with exponent [k], and the pointers are valid. *)
Definition running (s : zstate) (t k : Z) : Prop :=
  zok F s (<[tr := Some t]> σ) ∧ ((m < z_next s)%positive ∧ z_vars s !! m = Some zm) ∧ ((e < z_next s)%positive ∧ z_vars s !! e = Some ze) ∧
  0 ≤ t ∧ nlimbs t ≤ Z.of_nat (length ld) ∧ t mod Z.abs y = B ^ k mod Z.abs y.

Lemma mod_divisor t : (t mod d) mod Z.abs y = t mod Z.abs y.
Proof. by apply Z.mod_mod_divide. Qed.

Lemma running_reduce {A} (K : MZ A) s t k longer Q E :
  zok F s (<[tr := Some t]> σ) → ((m < z_next s)%positive ∧ z_vars s !! m = Some zm) → ((e < z_next s)%positive ∧ z_vars s !! e = Some ze) → 0 ≤ t →
  t mod Z.abs y = B ^ k mod Z.abs y → (∀ n, longer n (Z.of_nat (length ld)) = (Z.of_nat (length ld) <? n)) →
  (∀ s' t', running s' t' k → wp K Q E s') → wp (_ ← powm_reduce tr mp (Z.of_nat (length ld)) inv longer; K) Q E s.
Proof.
  intros Hok Hkm Hke Ht Hmod Hlong HK. destruct (modulus_use s _ m y zm mp ld Hok ltac:(by simplify_map_eq) (proj2 Hkm) Hat) as [Hh Hown].
  apply wp_bind. apply (wp_keep [tr]); [unfold powm_reduce; touch|]. eapply (wp_powm_reduce s _ tr t mp ld d inv); [done|by simplify_map_eq|done|done|done| | |].
  - intros z Hz Ha. apply (Hown tr z); try done. by rewrite lookup_insert_eq.
  - rewrite Hlong. intros Hlt%Z.ltb_lt. lia.
  - rewrite Hlong, insert_insert_eq. intros s' Hok' Hkeep. eapply (HK s').
    assert (∀ i, i ≠ tr → i ∉ [tr]) as Hni by (intros i Hi ?%list_elem_of_singleton; done).
    destruct Hkm as [Hm1 Hm2], Hke as [He1 He2]. destruct (Hkeep m Hm1 ltac:(auto)) as [Hm3 Hm4], (Hkeep e He1 ltac:(auto)) as [He3 He4].
    split; [exact Hok'|]. split; [by rewrite Hm4|]. split; [by rewrite He4|]. destruct (Z.ltb_spec (Z.of_nat (length ld)) (nlimbs t)) as [Hlt|Hge]; [|done].
    pose proof (Z.mod_pos_bound t d Hd). split; [lia|]. split; [|by rewrite mod_divisor].
    apply nlimbs_bound; [lia|]. pose proof (val_bound ld (inv_words _ _ _ Hinv)) as Hvb. rewrite (inv_shifted _ _ _ Hinv), Hshift, Z.mul_1_r in Hvb. unfold wpow in Hvb. rewrite Z.abs_eq by lia. lia.
Qed.

Lemma power_mod a b c i j : a mod c = B ^ i mod c → b mod c = B ^ j mod c → 0 ≤ i → 0 ≤ j → (a * b) mod c = B ^ (i + j) mod c.
Proof. intros Ha Hb Hi Hj. by rewrite Zmult_mod, Ha, Hb, <- Zmult_mod, Z.pow_add_r. Qed.

Lemma wp_powm_step {A} (K : MZ A) s t k bit w i Q E :
  running s t k → 0 ≤ k → bit = 2 ^ i → 0 ≤ i → (∀ s' t', running s' t' (2 * k + Z.b2z (Z.testbit w i)) → wp K Q E s') →
  wp (_ ← mpz_mul tr tr tr; _ ← (if negb (Z.land w bit =? 0) then mpz_mul tr tr base else mret tt);
      _ ← powm_reduce tr mp (Z.of_nat (length ld)) inv (λ n mn, mn <? n); K) Q E s.
Proof.
  intros (Hok & Hkm & Hke & Ht & Hn & Hmod) Hk -> Hi HK. pose proof (nlimbs_nonneg t). pose proof (nlimbs_mul t t). rewrite land_bit by done.
  assert (∀ i, i ≠ tr → i ∉ [tr]) as Hni by (intros j Hj ?%list_elem_of_singleton; done).
  apply wp_bind, (wp_keep [tr]); [touch|]. eapply (wp_mpz_mul F s _ tr t tr t tr t); [done|by simplify_map_eq..|lia|]. intros s1. rewrite insert_insert_eq. intros Hok1 Hkeep.
  destruct Hkm as [Hm1 Hm2], Hke as [He1 He2]. destruct (Hkeep m Hm1 ltac:(auto)) as [Hm3 Hm4], (Hkeep e He1 ltac:(auto)) as [He3 He4]. rewrite Hm2 in Hm4. rewrite He2 in He4.
  pose proof (power_mod t t (Z.abs y) k k Hmod Hmod Hk Hk) as Hsq. rewrite Z.add_diag in Hsq. apply wp_bind. destruct (Z.testbit w i); cbn [Z.b2z] in HK.
  - apply (wp_keep [tr]); [touch|]. eapply (wp_mpz_mul F s1 _ tr (t * t) tr (t * t) base B); [done|by simplify_map_eq..|lia|]. intros s2. rewrite insert_insert_eq. intros Hok2 Hkeep2.
    destruct (Hkeep2 m Hm3 ltac:(auto)) as [Hm5 Hm6], (Hkeep2 e He3 ltac:(auto)) as [He5 He6].
    eapply (running_reduce K s2 (t * t * B) (2 * k + 1)); [done|by rewrite Hm6|by rewrite He6|nia| |done|done].
    apply power_mod; [done|by rewrite Z.pow_1_r|lia|lia].
  - apply wp_ret. eapply (running_reduce K s1 (t * t) (2 * k + 0)); [done|done|done|nia|by rewrite Z.add_0_r|done|done].
Qed.

(** All bits of one limb *)
Lemma wp_powm_bits i : ∀ s t p w Q E,
  running s t (p * 2 ^ (63 - Z.of_nat i) + w / 2 ^ (Z.of_nat i + 1)) → (i ≤ 63)%nat → 0 ≤ p → 0 ≤ w →
  (∀ s' t', running s' t' (p * 2 ^ 64 + w) → Q tt s') → wp (powm_bits (S i) tr base w (2 ^ Z.of_nat i) mp (Z.of_nat (length ld)) inv) Q E s.
Proof.
  assert (∀ i p w, (i ≤ 63)%nat → 0 ≤ p → 0 ≤ w → 0 ≤ p * 2 ^ (63 - Z.of_nat i) + w / 2 ^ (Z.of_nat i + 1)) as Hpos.
  { intros j p w Hj Hp Hw. pose proof (Z.pow_pos_nonneg 2 (63 - Z.of_nat j) ltac:(lia) ltac:(lia)). assert (0 ≤ w / 2 ^ (Z.of_nat j + 1)) by (apply Z.div_pos; [done|apply Z.pow_pos_nonneg; lia]). nia. }
  assert (∀ i p w, (i ≤ 63)%nat → 2 * (p * 2 ^ (63 - Z.of_nat i) + w / 2 ^ (Z.of_nat i + 1)) + Z.b2z (Z.testbit w (Z.of_nat i)) = p * 2 ^ (64 - Z.of_nat i) + w / 2 ^ Z.of_nat i) as Hnext.
  { intros j p w Hj. rewrite (next_bit w (Z.of_nat j)) by lia. replace (64 - Z.of_nat j) with (63 - Z.of_nat j + 1) by lia. rewrite (Z.pow_add_r 2 (63 - Z.of_nat j) 1) by lia. lia. }
  induction i as [|i IH]; intros s t p w Q E Hrun Hi Hp Hw HQ; cbn [powm_bits]; (eapply wp_powm_step; [exact Hrun|by apply Hpos|done|lia|]); rewrite Hnext by done; intros s' t' Hrun'.
  - cbn [Z.of_nat] in *. rewrite Z.sub_0_r, Z.div_1_r in Hrun'. by apply wp_ret, (HQ s' t').
  - assert (Z.shiftr (2 ^ Z.of_nat (S i)) 1 = 2 ^ Z.of_nat i) as ->.
    { rewrite Z.shiftr_div_pow2, Nat2Z.inj_succ, Z.pow_succ_r by lia. change (2 ^ 1) with 2. rewrite Z.mul_comm. apply Z.div_mul. lia. }
    pose proof (Z.pow_pos_nonneg 2 (Z.of_nat i) ltac:(lia) ltac:(lia)). rewrite (proj2 (Z.ltb_lt 0 _)) by done.
    eapply (IH s' t' p w); [|lia|done|done|done]. replace (Z.of_nat (S i)) with (Z.of_nat i + 1) in Hrun' by lia. by replace (64 - (Z.of_nat i + 1)) with (63 - Z.of_nat i) in Hrun' by lia.
Qed.

(** All limbs of the exponent, from the highest one on *)
Lemma wp_powm_limbs n : ∀ s t Q E,
  running s t (val (drop n le)) → (n ≤ length le)%nat →
  (∀ s' t', running s' t' (Z.abs ev) → Q tt s') → wp (powm_limbs n tr base (mp_d ze) mp (Z.of_nat (length ld)) inv) Q E s.
Proof.
  pose proof He as (Hw & Hn & Hv & _). induction n as [|n IH]; intros s t Q E Hrun Hle HQ; cbn [powm_limbs].
  - rewrite drop_0, Hv in Hrun. by apply wp_ret, (HQ s t).
  - destruct (lookup_lt_is_Some_2 le n ltac:(lia)) as [w Hlw]. pose proof (Forall_lookup_1 _ _ _ _ Hw Hlw) as Hww.
    pose proof Hrun as (Hok & _ & [_ Hze] & _). destruct (readable_use F s _ e ev ze le Hok Hze (readable_insert F _ _ _ _ _ _ _ Het He)) as [Hh _].
    apply wp_bind, wp_zoom. eapply wp_load; [by apply Hh|]. rewrite zmem_id. apply wp_bind. change GMP_LIMB_HIGHBIT with (2 ^ Z.of_nat 63).
    assert (0 ≤ val (drop (S n) le)) as Hdp by (apply val_bound; by apply Forall_drop).
    eapply (wp_powm_bits 63 s t (val (drop (S n) le)) w); [|lia|done|apply Hww|].
    + rewrite (Z.div_small w) by (unfold word, WB in Hww; exact Hww). change (2 ^ (63 - Z.of_nat 63)) with 1. by rewrite Z.mul_1_r, Z.add_0_r.
    + intros s' t' Hrun'. eapply (IH s' t'); try done; [|lia]. rewrite (drop_S le w n Hlw). cbn [val]. change WB with (2 ^ 64).
      by replace (w + 2 ^ 64 * val (drop (S n) le)) with (val (drop (S n) le) * 2 ^ 64 + w) by lia.
Qed.
End loop.

(** ** The base *)

(** The number of [r] is forgotten, its limbs are known. *)
Definition raw_limbs (s : zstate) σ (r : mpz_t) (l : list Z) (n : Z) : Prop :=
  ∃ z, z_vars s !! r = Some z ∧ zok F s (<[r := None]> σ) ∧ words l ∧ holds (z_mem s) (mp_d z) l ∧ Z.of_nat (length l) ≤ mp_alloc z ∧
    (n ≤ mp_alloc z ∨ Z.abs (mp_size z) ≤ n).

Lemma wp_realloc_raw s σ r l n Q E :
  raw_limbs s σ r l n → n ≤ INT_MAX →
  (∀ s' z, z_vars s' = <[r := z]> (z_vars s) → raw_limbs s' σ r l n → n ≤ mp_alloc z → Q (mp_d z) s') → wp (MPZ_REALLOC r n) Q E s.
Proof.
  intros (z & Hz & Hok & Hw & Hh & Hl & Hcase) Hn HQ. unfold MPZ_REALLOC. apply wp_bind. eapply wp_get_mpz; [done|]. destruct (Z.ltb_spec (mp_alloc z) n) as [Hlt|Hge].
  - eapply (wp_mpz_realloc_full F s _ r None z n); [done|by rewrite lookup_insert_eq|done|done|intros _; lia|]. intros z' s' Hv Hsz Hal Hok' (_ & Hkept & _).
    apply (HQ s' z'); [done| |lia]. exists z'. rewrite Hv, lookup_insert_eq. split_and!; try done; [by apply Hkept|lia|lia].
  - apply wp_ret, (HQ s z); [by rewrite insert_id| |done]. exists z. by split_and!; [..|left].
Qed.

(** The absolute value of the base, reduced if it is not shorter than the modulus *)
Lemma wp_base_reduce s σ r a mp ld d inv Q E :
  zok F s σ → σ !! r = Some (Some a) → 0 ≤ a → inverse_of d ld inv → inv_shift inv = 0 → holds (z_mem s) mp ld →
  (∀ z, z_vars s !! r = Some z → 0 < mp_alloc z → (mp_d z).1 ≠ mp.1) → wpow (length ld - 1) ≤ d →
  (∀ s' l, z_vars s' = z_vars s → raw_limbs s' σ r l (Z.of_nat (length ld)) → (length l ≤ length ld)%nat → val l = a mod d → Q (Z.of_nat (length l)) s') →
  wp (zb ← get_mpz r;
      if Z.of_nat (length ld) <=? mp_size zb then
        _ ← limbs (mpn_div_qr_preinv None (mp_d zb) (mp_size zb) mp (Z.of_nat (length ld)) inv); mret (Z.of_nat (length ld))
      else mret (mp_size zb)) Q E s.
Proof.
  intros Hok Hr Ha Hinv Hsh Hmp Hne Hd HQ. destruct (zok_operand F s σ r a Hok Hr) as (z & l & Hz & Hw & Hn & Hh & Hv & Hl & Hs & Hal & H0).
  apply wp_bind. eapply wp_get_mpz; [done|].
  assert (mp_size z = nlimbs a) as Hsz by (rewrite Hs; destruct (Z.eq_dec a 0) as [->|]; [done|rewrite Z.sgn_pos by lia; lia]).
  assert (0 < Z.of_nat (length ld)) as Hpos by (pose proof (inv_nonempty _ _ _ Hinv); destruct ld; [done|cbn; lia]).
  destruct (Z.leb_spec (Z.of_nat (length ld)) (mp_size z)) as [Hle|Hlt].
  - apply wp_bind. eapply (wp_reduce_limbs s σ r a z mp ld d inv); try done; [apply Hne; [done|lia]|lia|]. intros s1 lr Hlr Hwr Hvr Hvars Hok1 Hhr. apply wp_ret.
    rewrite <- Hlr. apply (HQ s1 lr); [done| |lia|done]. exists z. rewrite Hvars. split_and!; try done; [lia|left; lia].
  - apply wp_ret. rewrite Hsz, <- Hl. apply (HQ s l); [done| |lia|].
    + exists z. split_and!; try done; [|lia|right; lia]. replace s with (set_zmem (z_mem s) s) by (by destruct s).
      eapply (zok_write_block F s σ r z 0); try done; lia.
    + rewrite Hv, Z.abs_eq by done. rewrite Z.mod_small; [done|]. split; [done|]. pose proof (val_bound l Hw) as Hvb. rewrite Hv, Z.abs_eq in Hvb by done.
      assert (wpow (length l) ≤ wpow (length ld - 1)); [|lia]. apply Z.pow_le_mono_r; [done|]. lia.
Qed.

(** A negative base: the modulus minus its absolute value *)
Lemma wp_base_negate s σ r m y zm mp ld l Q E :
  raw_limbs s σ r l (Z.of_nat (length ld)) → σ !! m = Some (Some y) → r ≠ m → z_vars s !! m = Some zm → at_modulus zm y mp ld → words ld →
  (length l ≤ length ld)%nat → val l ≤ val ld → Z.of_nat (length ld) ≤ INT_MAX →
  (∀ s' l', raw_limbs s' σ r l' (Z.of_nat (length ld)) → length l' = length ld → val l' = val ld - val l → Q (Z.of_nat (length ld)) s') →
  wp (bp ← MPZ_REALLOC r (Z.of_nat (length ld)); _ ← zassert_nocarry (mpn_sub bp mp (Z.of_nat (length ld)) bp (Z.of_nat (length l))); mret (Z.of_nat (length ld))) Q E s.
Proof.
  intros Hraw Hm Hrm Hzm Hat Hwd Hle Hlt Hn HQ. apply wp_bind. eapply (wp_realloc_raw s σ r l (Z.of_nat (length ld))); try done. intros s1 z Hvars (z' & Hz' & Hok & Hw & Hh & _ & _) Hal.
  rewrite Hvars, lookup_insert_eq in Hz'. injection Hz' as <-.
  destruct (modulus_use s1 _ m y zm mp ld Hok) as [Hhd Hown]; [by rewrite lookup_insert_ne|by rewrite Hvars, lookup_insert_ne|done|].
  assert (0 < length ld)%nat as Hpos by (destruct Hat as [Hne _]; destruct ld; [done|cbn; lia]).
  assert ((mp_d z).1 ≠ mp.1) as Hne by (apply (Hown r z); [done|by rewrite lookup_insert_eq|by rewrite Hvars, lookup_insert_eq|lia]).
  destruct (zok_target F s1 _ r None Hok (lookup_insert_eq _ _ _)) as (z' & Hz' & _ & _ & Hsp). rewrite Hvars, lookup_insert_eq in Hz'. injection Hz' as <-.
  apply wp_bind, wp_zoom. unfold gmp_assert_nocarry. apply wp_bind.
  eapply (wp_mpn_sub (mp_d z) mp (mp_d z) ld l); try done; [eapply space_sub; [done|lia]|by left|by right; left|].
  intros lr c m' Hlr Hwr Hc Hv Hwrt. assert (c = 0) as ->.
  { pose proof (val_bound lr Hwr) as Hb. rewrite Hlr in Hb. destruct (Z.eq_dec c 1) as [->|]; lia. }
  apply wp_massert; [done|]. apply wp_ret, (HQ _ lr); [|done|lia]. exists z. cbn. split; [by rewrite Hvars, lookup_insert_eq|]. destruct Hwrt as [Hhr Hch]. split_and!; try done; [|lia|by left].
  rewrite <- (insert_insert_eq σ r None None). eapply (zok_write_block F s1 _ r z (length lr)); try done; [by rewrite lookup_insert_eq|by rewrite Hvars, lookup_insert_eq|lia].
Qed.

(** What the base becomes: congruent to the operand and not longer than the modulus *)
Lemma wp_powm_base s σ base b m x y zm mp ld d inv Q E :
  zok F s σ → σ !! base = Some (Some 0) → σ !! b = Some (Some x) → σ !! m = Some (Some y) → base ≠ b → base ≠ m → (m < z_next s)%positive → z_vars s !! m = Some zm →
  at_modulus zm y mp ld → inverse_of d ld inv → inv_shift inv = 0 → wpow (length ld - 1) ≤ d → (Z.abs y | d) → nlimbs x < INT_MAX → Z.of_nat (length ld) ≤ INT_MAX →
  (∀ s' B, zok F s' (<[base := Some B]> σ) → 0 ≤ B → nlimbs B ≤ Z.of_nat (length ld) → B mod Z.abs y = x mod Z.abs y → Q tt s') →
  wp (_ ← mpz_abs base b;
      zb ← get_mpz base;
      bn ← (if Z.of_nat (length ld) <=? mp_size zb then
              _ ← limbs (mpn_div_qr_preinv None (mp_d zb) (mp_size zb) mp (Z.of_nat (length ld)) inv); mret (Z.of_nat (length ld))
            else mret (mp_size zb));
      zb0 ← get_mpz b;
      bn ← (if mp_size zb0 <? 0 then
              bp ← MPZ_REALLOC base (Z.of_nat (length ld)); _ ← zassert_nocarry (mpn_sub bp mp (Z.of_nat (length ld)) bp bn); mret (Z.of_nat (length ld))
            else mret bn);
      zb ← get_mpz base;
      n ← limbs (mpn_normalized_size (mp_d zb) bn);
      set_size base n) Q E s.
Proof.
  intros Hok Hbase Hb Hm Hbb Hbm Hmn Hzm Hat Hinv Hsh Hd Hdiv Hnx Hn HQ. pose proof (wpow_pos (length ld - 1)) as Hdp.
  assert (val ld = d) as Hvd by (by rewrite (inv_shifted _ _ _ Hinv), Hsh, Z.mul_1_r).
  apply wp_bind, (wp_keep [base]); [touch|]. eapply (wp_mpz_abs F s σ base 0 b x); try done; [lia|]. intros s1 Hok1 Hkeep. destruct (Hkeep m Hmn) as [Hmn1 Hzm1].
  { by intros ->%list_elem_of_singleton. }
  rewrite Hzm in Hzm1. destruct (modulus_use s1 _ m y zm mp ld Hok1) as [Hh Hown]; [by simplify_map_eq|done|done|].
  apply wp_bind_assoc. eapply (wp_base_reduce s1 _ base (Z.abs x) mp ld d inv); try done; [by simplify_map_eq|lia| |].
  { intros z Hz Ha. apply (Hown base z); try done. by rewrite lookup_insert_eq. }
  intros s2 l Hvars Hraw Hl Hv. unfold raw_limbs in Hraw. rewrite insert_insert_eq in Hraw. fold (raw_limbs s2 σ base l (Z.of_nat (length ld))) in Hraw.
  pose proof (Z.mod_pos_bound (Z.abs x) d ltac:(lia)) as Hmb.
  pose proof Hraw as (_ & _ & Hok2 & _). destruct (zok_operand F s2 _ b x Hok2) as (zb & _ & Hzb & _ & _ & _ & _ & _ & Hsb & _); [by simplify_map_eq|].
  assert (∀ s3 l3, raw_limbs s3 σ base l3 (Z.of_nat (length ld)) → (length l3 ≤ length ld)%nat → val l3 mod Z.abs y = x mod Z.abs y →
    wp (zb ← get_mpz base; n ← limbs (mpn_normalized_size (mp_d zb) (Z.of_nat (length l3))); set_size base n) Q E s3) as Hend.
  { intros s3 l3 (z3 & Hz3 & Hok3 & Hw3 & Hh3 & Hal3 & _) Hl3 Hv3. apply wp_bind. eapply wp_get_mpz; [done|]. eapply (wp_normalize_raw s3 σ base z3 l3); try done.
    intros s4 Hok4. pose proof (val_bound l3 Hw3) as Hvb. apply (HQ s4 (val l3) Hok4); [lia| |done]. apply nlimbs_bound; [lia|]. rewrite Z.abs_eq by lia.
    apply Z.lt_le_trans with (wpow (length l3)); [lia|]. apply Z.pow_le_mono_r; [done|lia]. }
  apply wp_bind. eapply wp_get_mpz; [done|]. rewrite Hsb, size_neg. apply wp_bind. destruct (Z.ltb_spec x 0) as [Hx|Hx].
  - eapply (wp_base_negate s2 σ base m y zm mp ld l); try done; [by rewrite Hvars|apply (inv_words _ _ _ Hinv)|lia|]. intros s3 l3 Hraw3 Hl3 Hv3. rewrite <- Hl3. apply Hend; [done|lia|].
    rewrite Hv3, Hvd, Hv. destruct Hdiv as [c Hc]. rewrite Zminus_mod, (Z.mod_mod_divide (Z.abs x) d) by (by exists c). rewrite <- Zminus_mod.
    rewrite Z.abs_neq by lia. replace (d - - x) with (x + c * Z.abs y) by lia. apply Z.mod_add. lia.
  - apply wp_ret, Hend; [done|done|]. rewrite Hv, Z.abs_eq by lia. by apply Z.mod_mod_divide.
Qed.

(** ** The whole function *)

Lemma not_one (i j : mpz_t) : i ≠ j → i ∉ [j].
Proof. by intros Hne ->%list_elem_of_singleton. Qed.

(** The base for an exponent of any sign; a negative one needs an inverse. *)
Definition powm_base_of (x y ev B : Z) : Prop := if ev <? 0 then is_inverse x y B else B mod Z.abs y = x mod Z.abs y.
Definition invertible (x y : Z) : bool := bool_decide (x ≠ 0 ∧ 1 < Z.abs y ∧ Z.gcd x y = 1).

Lemma wp_powm_any_base s σ base b m e x y ev zm ze mp ld d inv Q (E : cerror → Prop) :
  zok F s σ → σ !! base = Some (Some 0) → σ !! b = Some (Some x) → σ !! m = Some (Some y) → base ≠ b → base ≠ m → base ≠ e → stays s m zm → stays s e ze →
  mp_size ze = Z.sgn ev * nlimbs ev → at_modulus zm y mp ld → inverse_of d ld inv → inv_shift inv = 0 → wpow (length ld - 1) ≤ d → (Z.abs y | d) →
  nlimbs x + 1 < INT_MAX → nlimbs y + 1 < INT_MAX → Z.of_nat (length ld) = nlimbs y →
  (ev < 0 → invertible x y = false → E (Killed SIGABRT)) →
  (∀ s' B, zok F s' (<[base := Some B]> σ) → stays s' m zm → stays s' e ze → 0 ≤ B → nlimbs B ≤ Z.of_nat (length ld) → powm_base_of x y ev B → Q tt s') →
  wp (if mp_size ze <? 0 then ok ← mpz_invert base b m; if negb ok then gmp_die else mret tt
      else
        _ ← mpz_abs base b;
        zb ← get_mpz base;
        bn ← (if Z.of_nat (length ld) <=? mp_size zb then
                _ ← limbs (mpn_div_qr_preinv None (mp_d zb) (mp_size zb) mp (Z.of_nat (length ld)) inv); mret (Z.of_nat (length ld))
              else mret (mp_size zb));
        zb0 ← get_mpz b;
        bn ← (if mp_size zb0 <? 0 then
                bp ← MPZ_REALLOC base (Z.of_nat (length ld)); _ ← zassert_nocarry (mpn_sub bp mp (Z.of_nat (length ld)) bp bn); mret (Z.of_nat (length ld))
              else mret bn);
        zb ← get_mpz base;
        n ← limbs (mpn_normalized_size (mp_d zb) bn);
        set_size base n) Q E s.
Proof.
  intros Hok Hbase Hb Hm Hbb Hbm Hbe Hsm Hse Hsz Hat Hinv Hsh Hd Hdiv Hnx Hny Hld HE HQ. unfold powm_base_of, invertible in *. rewrite Hsz, size_neg. destruct (Z.ltb_spec ev 0) as [Hev|Hev].
  - apply wp_bind, (wp_keep [base]); [touch|]. eapply (wp_mpz_invert F σ s base 0 b m x y); try done. intros s1 Hres Hkeep.
    remember (bool_decide (x ≠ 0 ∧ 1 < Z.abs y ∧ Z.gcd x y = 1)) as ok. destruct ok; cbn [negb]; [|by apply HE].
    destruct Hres as (R & HR & Hok1). apply wp_ret, (HQ s1 R); try done; try (by eapply stays_keep; [exact Hkeep|by apply not_one|]); [destruct HR; lia|].
    rewrite Hld. apply nlimbs_le. destruct HR; lia.
  - apply (wp_keep [base]); [touch|]. eapply (wp_powm_base s σ base b m x y zm mp ld d inv); try done; [apply Hsm|apply Hsm|lia|lia|].
    intros s1 B Hok1 HB HnB Hmod Hkeep. apply (HQ s1 B); try done; by eapply stays_keep; [exact Hkeep|by apply not_one|].
Qed.

(** The power is computed and reduced for the last time, in the local variable [tr]. *)
Lemma wp_powm_power {A} (K : mpz_t → MZ A) s σ base m e y ev le B zm ze mp ld d inv inv1 Q E :
  zok F s σ → σ !! base = Some (Some B) → σ !! m = Some (Some y) → readable F σ e ev ze le → stays s m zm → stays s e ze → y ≠ 0 →
  at_modulus zm y mp ld → inverse_of d ld inv → inv_shift inv = 0 → inverse_of (Z.abs y) ld inv1 → 0 < d → (Z.abs y | d) → Z.of_nat (length ld) = nlimbs y →
  3 * nlimbs y ≤ INT_MAX → 0 ≤ B → nlimbs B ≤ nlimbs y →
  (∀ s' tr, σ !! tr = None → zok F s' (<[tr := Some (B ^ Z.abs ev mod Z.abs y)]> σ) → wp (K tr) Q E s') →
  wp (tr ← local_mpz; _ ← mpz_init_set_ui tr 1; ze' ← get_mpz e;
      _ ← powm_limbs (Z.to_nat (nlimbs ev)) tr base (mp_d ze') mp (Z.of_nat (length ld)) inv;
      _ ← powm_reduce tr mp (Z.of_nat (length ld)) inv1 (λ n mn, mn <=? n); K tr) Q E s.
Proof.
  intros Hok Hbase Hm He Hsm Hse Hy Hat Hinv Hsh Hinv1 Hd Hdiv Hld Hfit HB HnB HK. pose proof (nlimbs_pos y Hy) as Hpy.
  pose proof (readable_length F _ _ _ _ _ He) as Hle. apply wp_bind. eapply (wp_local_stays F); [done|]. intros tr s1 Ht Htn Hkeep Hok1.
  destruct (Hkeep m zm Hsm) as [Htm Hsm1], (Hkeep e ze Hse) as [Hte Hse1]. assert (tr ≠ base) as Htb by congruence.
  apply wp_bind, (wp_keep [tr]); [touch|]. eapply wp_mpz_init_set_ui; try done. intros s2 Hok2 Hkeep2.
  assert (stays s2 m zm ∧ stays s2 e ze) as [Hsm2 Hse2] by (split; (eapply stays_keep; [exact Hkeep2|by apply not_one, not_eq_sym|done])).
  apply wp_bind. eapply wp_get_mpz; [apply Hse2|]. apply wp_bind. set (σ' := <[tr := Some 1]> σ) in *.
  assert (length le = Z.to_nat (nlimbs ev)) as Hlen by lia. rewrite <- Hlen.
  eapply (wp_powm_limbs tr base m e σ' B y ev d zm ze mp ld inv) with (t := 1) (le := le); try done; try (by apply readable_insert); try (by unfold σ'; simplify_map_eq); try lia.
  { split; [unfold σ'; rewrite insert_insert_eq; exact Hok2|]. split; [done|]. split; [done|]. split; [lia|]. rewrite drop_all. split; [change (nlimbs 1) with 1; lia|done]. }
  intros s3 t (Hok3 & Hsm3 & _ & Ht3 & Hnt & Hmod). unfold σ' in Hok3. rewrite insert_insert_eq in Hok3.
  destruct (modulus_use s3 _ m y zm mp ld Hok3 ltac:(by simplify_map_eq) (proj2 Hsm3) Hat) as [Hh Hown].
  apply wp_bind. eapply (wp_powm_reduce s3 _ tr t mp ld (Z.abs y) inv1); [done|by simplify_map_eq|done|done|done| |by intros ?%Z.leb_le|].
  { intros z Hz Ha. apply (Hown tr z); try done. by rewrite lookup_insert_eq. }
  rewrite insert_insert_eq, Hld. intros s4 Hok4. apply HK; [done|]. rewrite <- Hmod.
  replace (t mod Z.abs y) with (if nlimbs y <=? nlimbs t then t mod Z.abs y else t); [done|]. destruct (Z.leb_spec (nlimbs y) (nlimbs t)) as [Hge|Hlt]; [done|].
  symmetry. apply Z.mod_small. split; [done|]. destruct (Z.lt_ge_cases t (Z.abs y)) as [|Hge]; [done|]. assert (nlimbs y ≤ nlimbs t) by (apply nlimbs_le; lia). lia.
Qed.

(** What [mpz_powm] computes for an exponent that is not 0 *)
Definition powm_result (x y ev v : Z) : Prop := ∃ B, powm_base_of x y ev B ∧ v = B ^ Z.abs ev mod Z.abs y.

Lemma powm_result_nonneg x y ev v : 0 ≤ ev → powm_result x y ev v → v = x ^ ev mod Z.abs y.
Proof.
  intros Hev (B & HB & ->). unfold powm_base_of in HB. rewrite (proj2 (Z.ltb_ge ev 0)) in HB by done. rewrite (Z.abs_eq ev) by done.
  by rewrite <- (Z.mod_pow_l B), HB, Z.mod_pow_l.
Qed.

Lemma wp_powm_rest {A} (K : mpz_t → mpz_t → MZ A) s σ b m e x y ev le zm ze mp ld d inv inv1 Q (E : cerror → Prop) :
  zok F s σ → σ !! b = Some (Some x) → σ !! m = Some (Some y) → readable F σ e ev ze le → stays s m zm → stays s e ze → y ≠ 0 →
  at_modulus zm y mp ld → inverse_of d ld inv → inv_shift inv = 0 → inverse_of (Z.abs y) ld inv1 →
  wpow (length ld - 1) ≤ d → (Z.abs y | d) → Z.of_nat (length ld) = nlimbs y → nlimbs x + 1 < INT_MAX → 3 * nlimbs y ≤ INT_MAX →
  (ev < 0 → invertible x y = false → E (Killed SIGABRT)) →
  (∀ s' base tr v w, σ !! base = None → σ !! tr = None → base ≠ tr → powm_result x y ev v → zok F s' (<[tr := Some v]> (<[base := Some w]> σ)) → wp (K base tr) Q E s') →
  wp (base ← local_mpz; _ ← mpz_init base;
      _ ← (if Z.sgn ev * nlimbs ev <? 0 then ok ← mpz_invert base b m; if negb ok then gmp_die else mret tt
           else
             _ ← mpz_abs base b;
             zb ← get_mpz base;
             bn ← (if Z.of_nat (length ld) <=? mp_size zb then
                     _ ← limbs (mpn_div_qr_preinv None (mp_d zb) (mp_size zb) mp (Z.of_nat (length ld)) inv); mret (Z.of_nat (length ld))
                   else mret (mp_size zb));
             zb0 ← get_mpz b;
             bn ← (if mp_size zb0 <? 0 then
                     bp ← MPZ_REALLOC base (Z.of_nat (length ld)); _ ← zassert_nocarry (mpn_sub bp mp (Z.of_nat (length ld)) bp bn); mret (Z.of_nat (length ld))
                   else mret bn);
             zb ← get_mpz base;
             n ← limbs (mpn_normalized_size (mp_d zb) bn);
             set_size base n);
      tr ← local_mpz; _ ← mpz_init_set_ui tr 1; ze' ← get_mpz e;
      _ ← powm_limbs (Z.to_nat (nlimbs ev)) tr base (mp_d ze') mp (Z.of_nat (length ld)) inv;
      _ ← powm_reduce tr mp (Z.of_nat (length ld)) inv1 (λ n mn, mn <=? n); K base tr) Q E s.
Proof.
  intros Hok Hb Hm He Hsm Hse Hy Hat Hinv Hsh Hinv1 Hd Hdiv Hld Hnx Hfit HE HK. pose proof He as (_ & _ & _ & Hsz & _). rewrite <- Hsz. pose proof (nlimbs_pos y Hy) as Hpy. pose proof (wpow_pos (length ld - 1)) as Hdp.
  apply wp_bind. eapply (wp_local_stays F); [done|]. intros base s1 Ht Htn Hkeep Hok1.
  destruct (Hkeep m zm Hsm) as [Hbm Hsm1], (Hkeep e ze Hse) as [Hbe Hse1]. assert (base ≠ b) as Hbb by congruence.
  apply wp_bind, (wp_keep [base]); [touch|]. eapply wp_mpz_init; try done. intros s2 Hok2 Hkeep2.
  assert (stays s2 m zm ∧ stays s2 e ze) as [Hsm2 Hse2] by (split; (eapply stays_keep; [exact Hkeep2|by apply not_one, not_eq_sym|done])).
  apply wp_bind. eapply (wp_powm_any_base s2 _ base b m e x y ev zm ze mp ld d inv); try done; try (by simplify_map_eq); try (unfold INT_MAX in *; lia).
  intros s3 B Hok3 Hsm3 Hse3 HB HnB HBx. rewrite insert_insert_eq in Hok3.
  eapply (wp_powm_power (K base) s3 _ base m e y ev le B zm ze mp ld d inv inv1); try done; try (by apply readable_insert); try (by simplify_map_eq); try lia.
  intros s4 tr Htr Hok4. assert (base ≠ tr ∧ σ !! tr = None) as [Hbt Htr0].
  { destruct (decide (base = tr)) as [<-|Hne]; [by rewrite lookup_insert_eq in Htr|]. by rewrite lookup_insert_ne in Htr. }
  eapply (HK s4 base tr _ B); try done. by exists B.
Qed.
End powm.

Section main.
Context (F : mem).
Implicit Types (s : zstate) (σ : gmap positive (option Z)).

Lemma readable_frame σ e ev ze le m b : (∀ o, cell F (b, o) = None) → readable F σ e ev ze le → readable (frame_add F m b) σ e ev ze le.
Proof.
  intros Hb (Hw & Hn & Hv & Hs & [He|Hh]); split_and!; try done; [by left|right]. intros i x Hi. specialize (Hh i x Hi). rewrite frame_add_cell by done.
  rewrite decide_False; [done|]. intros Hq. destruct (padd (mp_d ze) (Z.of_nat i)) as [c o]. cbn in Hq. subst c. by rewrite Hb in Hh.
Qed.

(** [mpz_powm] for operands of any sign.  Exponent 0 gives 1; a negative exponent without an
    inverse ends the program. *)
Lemma wp_mpz_powm_at s σ r w b m e x y ev ze le Q (E : cerror → Prop) :
  zok F s σ → σ !! r = Some (Some w) → σ !! b = Some (Some x) → stays s e ze → readable F σ e ev ze le → σ !! m = Some (Some y) → y ≠ 0 →
  nlimbs x + 1 < INT_MAX → 3 * nlimbs y ≤ INT_MAX → (ev < 0 → invertible x y = false → E (Killed SIGABRT)) →
  (∀ s' v, (if ev =? 0 then v = 1 else powm_result x y ev v) → zok F s' (<[r := Some v]> σ) → Q tt s') → wp (mpz_powm r b e m) Q E s.
Proof.
  intros Hok Hr Hb Hste He Hm Hy Hnx Hfit HE HQ. pose proof Hste as [_ Hze]. pose proof He as (_ & _ & _ & Hse & _). pose proof (nlimbs_pos y Hy) as Hpy.
  destruct (zok_operand F s σ m y Hok Hm) as (zm & ly & Hzm & Hwy & Hny & Hhy & Hvy & Hly & Hsm & _ & H0).
  unfold mpz_powm. do 2 (apply wp_bind; eapply wp_get_mpz; [done|]). rewrite Hse, Hsm, !size_abs. rewrite (proj2 (Z.eqb_neq (nlimbs y) 0)) by lia.
  destruct (Z.eq_dec ev 0) as [->|Hev0]; [cbn [nlimbs Z.eqb]; eapply (wp_mpz_set_ui F s σ r w); try done; intros s'; by apply HQ|].
  pose proof (nlimbs_pos ev Hev0). rewrite (proj2 (Z.eqb_neq (nlimbs ev) 0)) by lia. rewrite (proj2 (Z.eqb_neq ev 0)) in HQ by done.
  assert (stays s m zm) as Hstm by (split; [eapply (zok_next _ _ _ Hok); by rewrite Hm|done]).
  assert (ly ≠ []) as Hlyn by (intros ->; cbn in Hly; lia). pose proof (normal_bound ly Hwy Hny Hlyn) as Hnb.
  apply wp_bind, wp_zoom. rewrite <- Hly. apply (wp_mpn_div_qr_invert (mp_d zm) ly); try done. intros inv [Hrng Hprep]. rewrite zmem_id. cbn zeta.
  pose proof (Z.pow_pos_nonneg 2 (inv_shift inv) ltac:(lia) ltac:(lia)) as Hps.
  assert (∀ F' s' base tr v w', zok F' s' (<[tr := Some v]> (<[base := Some w']> σ)) → σ !! base = None → σ !! tr = None → base ≠ tr → F' = F → powm_result x y ev v →
    wp (_ ← mpz_swap r tr; _ ← mpz_clear tr; mpz_clear base) Q E s') as Hend.
  { intros F' s' base tr v w' Hok' Hb0 Ht0 Hbt -> Hres. assert (r ≠ base ∧ r ≠ tr) as [Hrb Hrt] by (split; congruence).
    apply wp_bind. eapply (wp_mpz_swap F s' _ r tr); [done|by simplify_map_eq..|]. intros s5 Hok5. apply wp_bind. eapply (wp_mpz_clear F s5 _ tr); [done|by simplify_map_eq|]. intros s6 Hok6.
    eapply (wp_mpz_clear F s6 _ base); [done|by simplify_map_eq|]. intros s7 Hok7. apply (HQ s7 v); [done|]. same_store Hok7. }
  apply wp_bind. destruct (Z.ltb_spec 0 (inv_shift inv)) as [Hs0|Hs0].
  - apply wp_bind, wp_zoom, wp_gmp_xalloc_limbs; [destruct ly; [done|cbn; lia]|apply (zok_mem _ _ _ Hok)|]. intros tb m1 Hal.
    apply wp_bind, wp_zoom. unfold gmp_assert_nocarry. apply wp_bind. cbn [z_mem set_zmem].
    assert (holds m1 (mp_d zm) ly) as Hhy1 by (by eapply allocated_holds). assert (tb ≠ (mp_d zm).1) as Htb.
    { apply not_eq_sym. apply (allocated_fresh _ _ _ _ _ _ Hal (holds_space _ _ _ Hhy)). destruct ly; [done|cbn; lia]. }
    apply (wp_mpn_lshift (tb, 0) (mp_d zm) ly); [done|lia|done|done|apply Hal|by left|]. intros lt c m2 Hlt Hwt Hc Hval Hwr.
    destruct (Hprep lt c Hlt Hwt ltac:(lia) Hval) as [-> Hinv]. rewrite Hvy in Hinv. apply wp_massert; [done|]. apply wp_ret.
    replace (set_zmem m2 (set_zmem m1 s)) with (set_zmem m2 s) by done. pose proof Hwr as [Hht Hch].
    pose proof (zok_frame_in F s σ tb (length lt) m1 m2 Hok ltac:(by rewrite Hlt) Hch) as Hok2. pose proof (λ o, zok_frame_new F s σ tb _ m1 o Hok Hal) as Hnew.
    pose proof (inverse_unshift _ _ _ Hinv) as Hinv0. rewrite <- Hlt.
    assert (0 < length lt)%nat as Hltp by (rewrite Hlt; destruct ly; [done|cbn; lia]).
    eapply (wp_powm_rest (frame_add F m2 tb) (λ base tr, _ ← limbs (gmp_free (tb, 0)); _ ← mpz_swap r tr; _ ← mpz_clear tr; mpz_clear base)
      (set_zmem m2 s) σ b m e x y ev le zm ze (tb, 0) lt (Z.abs y * 2 ^ inv_shift inv)); try done.
    + by apply readable_frame.
    + split; [destruct lt; [cbn in Hltp; lia|done]|]. right. intros i v Hi. rewrite frame_add_cell by done. by rewrite decide_True by done; apply Hht.
    + by destruct inv.
    + rewrite Hlt. rewrite <- Hvy. nia.
    + apply Z.divide_factor_l.
    + lia.
    + intros s3 base tr v w' Hb0 Ht0 Hbt Hres Hok3. apply wp_bind. eapply wp_frame_out; [exact Hok3|done| |].
      { destruct lt as [|v0 lt]; [cbn in Hltp; lia|]. apply holds_cons in Hht as [Hc0 _]. by rewrite Hc0. }
      intros s4 _ Hok4. by eapply (Hend F s4).
  - assert (inv_shift inv = 0) as Hsz by lia. destruct (Hprep ly 0 eq_refl Hwy ltac:(lia)) as [_ Hinv]; [rewrite Hsz; lia|]. rewrite Hvy in Hinv. apply wp_ret.
    eapply (wp_powm_rest F (λ base tr, _ ← mret tt; _ ← mpz_swap r tr; _ ← mpz_clear tr; mpz_clear base) s σ b m e x y ev le zm ze (mp_d zm) ly (Z.abs y) inv); try done.
    + split; [done|]. left. done.
    + destruct inv; cbn in *. by subst.
    + by rewrite <- Hvy.
    + intros s3 base tr v w' Hb0 Ht0 Hbt Hres Hok3. apply wp_bind, wp_ret. by eapply (Hend F s3).
Qed.

Lemma wp_mpz_powm s σ r w b m e x y ev Q (E : cerror → Prop) :
  zok F s σ → σ !! r = Some (Some w) → σ !! b = Some (Some x) → σ !! e = Some (Some ev) → σ !! m = Some (Some y) → y ≠ 0 →
  nlimbs x + 1 < INT_MAX → 3 * nlimbs y ≤ INT_MAX → (ev < 0 → invertible x y = false → E (Killed SIGABRT)) →
  (∀ s' v, (if ev =? 0 then v = 1 else powm_result x y ev v) → zok F s' (<[r := Some v]> σ) → Q tt s') → wp (mpz_powm r b e m) Q E s.
Proof.
  intros Hok Hr Hb He. destruct (readable_of F s σ e ev Hok He) as (ze & le & Hst & Hrd). by eapply (wp_mpz_powm_at s σ r w b m e x y ev ze le).
Qed.
End main.

(** ** Powers of an inverse *)

Lemma power_of_one a y k : 0 ≤ k → (y | a - 1) → (y | a ^ k - 1).
Proof.
  intros Hk [c Hc]. revert k Hk. apply natlike_ind; [exists 0; rewrite Z.pow_0_r; lia|]. intros k Hk [d Hd]. rewrite Z.pow_succ_r by done.
  exists (c * a ^ k + d). replace (a * a ^ k - 1) with ((a - 1) * a ^ k + (a ^ k - 1)) by ring. rewrite Hc, Hd. ring.
Qed.

Lemma inverse_power x y B k : 0 ≤ k → is_inverse x y B → (y | (B ^ k mod Z.abs y) * x ^ k - 1).
Proof.
  intros Hk [HB Hd]. apply Z.divide_abs_l. assert (Z.abs y ≠ 0) as Hy by lia. apply Z.mod_divide; [done|].
  rewrite Zminus_mod, Z.mul_mod_idemp_l, <- Zminus_mod, <- Z.pow_mul_l by done. apply Z.mod_divide; [done|]. apply Z.divide_abs_l. by apply power_of_one.
Qed.

Lemma inverse_invertible x y B : is_inverse x y B → invertible x y = true.
Proof.
  intros [HB [c Hc]]. apply bool_decide_eq_true. assert (Z.gcd x y = 1) as Hg.
  { apply Z.bezout_1_gcd. exists B, (- c). lia. }
  split; [intros ->; rewrite Z.gcd_0_l in Hg; lia|]. split; [lia|done].
Qed.
