(* ===== verification/MpzCorrect.v ===== *)
(** * Programs over integers of any size

    Straight-line programs of the [mpz] functions against the mathematical integers: any
    sequence of assignments, additions, subtractions, multiplications, shifts, divisions,
    divisors and multiples, powers, factorials, bit operations and conversions from strings,
    with any aliasing of the arguments, leaves every variable with the value that the
    integers give; when all variables are cleared the memory is what it was before. *)

From S2P Require Import Prelude CString Queue State UInt64 Mpn MpnMem MpnThm MpnBits MpnDiv MpnInv MpnDivThm MpnDivPi1 MpnCorrect MpnDivQr MpnStr MpnStrThm MpnSetStr Mpz MpzRep MpzArith MpzMul MpzDiv MpzConv MpzQuo MpzQuoThm MpzBits MpzNum MpzNumThm MpzPow MpzBitsThm MpzBitThm MpzStr MpzStrThm.

(** ** Reading a variable off the memory *)

Definition mpz_value (s : zstate) (i : mpz_t) : option Z :=
  z ← z_vars s !! i;
  l ← mapM (λ k, c ← cell (z_mem s) (padd (mp_d z) (Z.of_nat k)); c) (seq 0 (Z.to_nat (Z.abs (mp_size z))));
  Some (Z.sgn (mp_size z) * val l).

Lemma mapM_holds m p l : holds m p l → mapM (λ k, c ← cell m (padd p (Z.of_nat k)); c) (seq 0 (length l)) = Some l.
Proof.
  intros Hh. apply mapM_Some. apply Forall2_same_length_lookup. rewrite length_seq. split; [done|].
  intros i x y Hx Hy. apply lookup_seq in Hx as [-> _]. cbn. by rewrite (Hh _ _ Hy).
Qed.

Section programs.
Context (F : mem).
Implicit Types (s : zstate) (σ : gmap positive Z).

(** All variables of the store have a value. *)
Definition vals σ : gmap positive (option Z) := Some <$> σ.

Lemma vals_lookup σ i v : σ !! i = Some v → vals σ !! i = Some (Some v).
Proof. intros Hi. unfold vals. by rewrite lookup_fmap, Hi. Qed.
Lemma vals_insert σ i v : <[i := Some v]> (vals σ) = vals (<[i := v]> σ).
Proof. unfold vals. by rewrite fmap_insert. Qed.
Lemma vals_delete σ i : delete i (vals σ) = vals (delete i σ).
Proof. unfold vals. by rewrite fmap_delete. Qed.

Lemma mpz_value_ok s σ i v : zok F s (vals σ) → σ !! i = Some v → mpz_value s i = Some v.
Proof.
  intros Hok Hi%vals_lookup. destruct (zok_lookup F s _ i v Hok Hi) as (z & l & Hz & (Hw & Hn & Hh & Hsz) & -> & _).
  unfold mpz_value. rewrite Hz. cbn. rewrite Hsz, Nat2Z.id, mapM_holds by done. done.
Qed.

(** ** Programs *)

Inductive zcmd :=
  | Cset_ui (r : mpz_t) (v : Z)
  | Cset_si (r : mpz_t) (v : Z)
  | Cset (r a : mpz_t)
  | Cswap (a b : mpz_t)
  | Cneg (r a : mpz_t)
  | Cabs (r a : mpz_t)
  | Cadd (r a b : mpz_t)
  | Csub (r a b : mpz_t)
  | Cadd_ui (r a : mpz_t) (v : Z)
  | Csub_ui (r a : mpz_t) (v : Z)
  | Cui_sub (r : mpz_t) (v : Z) (a : mpz_t)
  | Cmul (r a b : mpz_t)
  | Cmul_ui (r a : mpz_t) (v : Z)
  | Cmul_si (r a : mpz_t) (v : Z)
  | Cmul_2exp (r a : mpz_t) (bits : Z)
  | Caddmul (r a b : mpz_t)
  | Csubmul (r a b : mpz_t)
  | Caddmul_ui (r a : mpz_t) (v : Z)
  | Csubmul_ui (r a : mpz_t) (v : Z)
  | Cdiv_q_2exp (r a : mpz_t) (bits : Z) (mode : mpz_div_round_mode)
  | Cdiv_r_2exp (r a : mpz_t) (bits : Z) (mode : mpz_div_round_mode)
  | Cdivexact (r a b : mpz_t)
  | Cdivexact_ui (r a : mpz_t) (v : Z)
  | Cgcd (r a b : mpz_t)
  | Clcm (r a b : mpz_t)
  | Clcm_ui (r a : mpz_t) (v : Z)
  | Cpow_ui (r a : mpz_t) (e : Z)
  | Cui_pow_ui (r : mpz_t) (x e : Z)
  | Cfac_ui (r : mpz_t) (n : Z)
  | Cbin_uiui (r : mpz_t) (n k : Z)
  | Cand (r a b : mpz_t)
  | Cior (r a b : mpz_t)
  | Cxor (r a b : mpz_t)
  | Ccom (r a : mpz_t)
  | Csetbit (r : mpz_t) (bit : Z)
  | Cclrbit (r : mpz_t) (bit : Z)
  | Ccombit (r : mpz_t) (bit : Z)
  | Cset_str (r : mpz_t) (str : list Z) (base : Z)
  | Cgcd_ui (g : option mpz_t) (a : mpz_t) (v : Z)
  | Cdiv_qr_ui (q r : option mpz_t) (n : mpz_t) (d : Z) (mode : mpz_div_round_mode)
  | Cdiv_qr (q r : option mpz_t) (n d : mpz_t) (mode : mpz_div_round_mode).

Definition exec (c : zcmd) : MZ unit :=
  match c with
  | Cset_ui r v => mpz_set_ui r v
  | Cset_si r v => mpz_set_si r v
  | Cset r a => mpz_set r a
  | Cswap a b => mpz_swap a b
  | Cneg r a => mpz_neg r a
  | Cabs r a => mpz_abs r a
  | Cadd r a b => mpz_add r a b
  | Csub r a b => mpz_sub r a b
  | Cadd_ui r a v => mpz_add_ui r a v
  | Csub_ui r a v => mpz_sub_ui r a v
  | Cui_sub r v a => mpz_ui_sub r v a
  | Cmul r a b => mpz_mul r a b
  | Cmul_ui r a v => mpz_mul_ui r a v
  | Cmul_si r a v => mpz_mul_si r a v
  | Cmul_2exp r a bits => mpz_mul_2exp r a bits
  | Caddmul r a b => mpz_addmul r a b
  | Csubmul r a b => mpz_submul r a b
  | Caddmul_ui r a v => mpz_addmul_ui r a v
  | Csubmul_ui r a v => mpz_submul_ui r a v
  | Cdiv_q_2exp r a bits mode => mpz_div_q_2exp r a bits mode
  | Cdiv_r_2exp r a bits mode => mpz_div_r_2exp r a bits mode
  | Cdivexact r a b => mpz_divexact r a b
  | Cdivexact_ui r a v => mpz_divexact_ui r a v
  | Cgcd r a b => mpz_gcd r a b
  | Clcm r a b => mpz_lcm r a b
  | Clcm_ui r a v => mpz_lcm_ui r a v
  | Cpow_ui r a e => mpz_pow_ui r a e
  | Cui_pow_ui r x e => mpz_ui_pow_ui r x e
  | Cfac_ui r n => mpz_fac_ui r n
  | Cbin_uiui r n k => mpz_bin_uiui r n k
  | Cand r a b => mpz_and r a b
  | Cior r a b => mpz_ior r a b
  | Cxor r a b => mpz_xor r a b
  | Ccom r a => mpz_com r a
  | Csetbit r bit => mpz_setbit r bit
  | Cclrbit r bit => mpz_clrbit r bit
  | Ccombit r bit => mpz_combit r bit
  | Cset_str r str base => _ ← mpz_set_str r str base; mret tt
  | Cgcd_ui g a v => _ ← mpz_gcd_ui g a v; mret tt
  | Cdiv_qr_ui q r n d mode => _ ← mpz_div_qr_ui q r n d mode; mret tt
  | Cdiv_qr q r n d mode => _ ← mpz_div_qr q r n d mode; mret tt
  end.

(** ** What they mean on the integers

    The guards: the arguments are variables of the store, words are in range, numbers have
    less than [INT_MAX] limbs, no division by zero, and quotient and remainder are not the
    same variable. *)

Definition is_ulong (v : Z) : bool := (0 <=? v) && (v <? WB).
Definition is_long (v : Z) : bool := (LONG_MIN <=? v) && (v <=? LONG_MAX).
Definition fits (v extra : Z) : bool := nlimbs v + extra <? INT_MAX.

Definition put (ok : bool) (r : mpz_t) (v : Z) σ : option (gmap positive Z) :=
  _ ← σ !! r; if ok then Some (<[r := v]> σ) else None.
Definition put_opt (o : option mpz_t) (v : Z) σ : option (gmap positive Z) :=
  match o with Some r => put true r v σ | None => Some σ end.

Definition denote (c : zcmd) σ : option (gmap positive Z) :=
  match c with
  | Cset_ui r v => put (is_ulong v) r v σ
  | Cset_si r v => put (is_long v) r v σ
  | Cset r a => x ← σ !! a; put (fits x 0) r x σ
  | Cswap a b => x ← σ !! a; y ← σ !! b; Some (<[b := x]> (<[a := y]> σ))
  | Cneg r a => x ← σ !! a; put (fits x 0) r (- x) σ
  | Cabs r a => x ← σ !! a; put (fits x 0) r (Z.abs x) σ
  | Cadd r a b => x ← σ !! a; y ← σ !! b; put (fits x 0 && fits y 0) r (x + y) σ
  | Csub r a b => x ← σ !! a; y ← σ !! b; put (fits x 0 && fits y 0) r (x - y) σ
  | Cadd_ui r a v => x ← σ !! a; put (fits x 0 && is_ulong v) r (x + v) σ
  | Csub_ui r a v => x ← σ !! a; put (fits x 0 && is_ulong v) r (x - v) σ
  | Cui_sub r v a => x ← σ !! a; put (fits x 0 && is_ulong v) r (v - x) σ
  | Cmul r a b => x ← σ !! a; y ← σ !! b; put (fits x (nlimbs y)) r (x * y) σ
  | Cmul_ui r a v => x ← σ !! a; put (fits x 1 && is_ulong v) r (x * v) σ
  | Cmul_si r a v => x ← σ !! a; put (fits x 1 && is_long v) r (x * v) σ
  | Cmul_2exp r a bits => x ← σ !! a; put (fits x (bits / 64) && is_ulong bits) r (x * 2 ^ bits) σ
  | Caddmul r a b => w ← σ !! r; x ← σ !! a; y ← σ !! b; put (fits x (nlimbs y) && fits w 0) r (w + x * y) σ
  | Csubmul r a b => w ← σ !! r; x ← σ !! a; y ← σ !! b; put (fits x (nlimbs y) && fits w 0) r (w - x * y) σ
  | Caddmul_ui r a v => w ← σ !! r; x ← σ !! a; put (fits x 1 && is_ulong v && fits w 0) r (w + x * v) σ
  | Csubmul_ui r a v => w ← σ !! r; x ← σ !! a; put (fits x 1 && is_ulong v && fits w 0) r (w - x * v) σ
  | Cdiv_q_2exp r a bits mode => x ← σ !! a; put (fits x 0 && (0 <=? bits)) r (div_round mode x (2 ^ bits)).1 σ
  | Cdiv_r_2exp r a bits mode =>
     x ← σ !! a; put (fits x 0 && (0 <=? bits) && ((bits + 63) / 64 <=? INT_MAX)) r (div_round mode x (2 ^ bits)).2 σ
  | Cdivexact r a b => x ← σ !! a; y ← σ !! b; put (fits x 0 && fits y 0 && negb (y =? 0) && (x mod y =? 0)) r (x / y) σ
  | Cdivexact_ui r a v => x ← σ !! a; put (fits x 0 && is_ulong v && negb (v =? 0) && (x mod v =? 0)) r (x / v) σ
  | Cgcd r a b => x ← σ !! a; y ← σ !! b; put (fits x 0 && fits y 0) r (Z.gcd x y) σ
  | Clcm r a b => x ← σ !! a; y ← σ !! b; put (fits x (nlimbs y)) r (Z.lcm x y) σ
  | Clcm_ui r a v => x ← σ !! a; put (fits x 0 && is_ulong v) r (Z.lcm x v) σ
  | Cpow_ui r a e => x ← σ !! a; put (is_ulong e && fits (x ^ e) 0) r (x ^ e) σ
  | Cui_pow_ui r x e => put (is_ulong x && is_ulong e && fits (x ^ e) 0) r (x ^ e) σ
  | Cfac_ui r n => put (is_ulong n && fits (zfact (Z.to_nat n)) 0) r (zfact (Z.to_nat n)) σ
  | Cbin_uiui r n k =>
     put (is_ulong n && is_ulong k && fits (falling n (Z.to_nat (Z.min k (n - k)))) 0) r (binom (Z.to_nat n) (Z.to_nat k)) σ
  | Cand r a b => x ← σ !! a; y ← σ !! b; put (fits x 0 && fits y 0) r (Z.land x y) σ
  | Cior r a b => x ← σ !! a; y ← σ !! b; put (fits x 0 && fits y 0) r (Z.lor x y) σ
  | Cxor r a b => x ← σ !! a; y ← σ !! b; put (fits x 0 && fits y 0) r (Z.lxor x y) σ
  | Ccom r a => x ← σ !! a; put (fits x 0) r (Z.lnot x) σ
  | Csetbit r bit => x ← σ !! r; put (fits x 0 && (0 <=? bit) && (bit / 64 <? INT_MAX)) r (Z.setbit x bit) σ
  | Cclrbit r bit => x ← σ !! r; put (fits x 0 && (0 <=? bit) && (bit / 64 <? INT_MAX)) r (Z.clearbit x bit) σ
  | Ccombit r bit => x ← σ !! r; put (fits x 0 && (0 <=? bit) && (bit / 64 <? INT_MAX)) r (Z.lxor x (2 ^ bit)) σ
  | Cset_str r str base =>
     put (((base =? 0) || ((2 <=? base) && (base <=? 36))) && (Z.of_nat (length str) <=? INT_MAX)) r (default 0 (text_value base str)) σ
  | Cgcd_ui g a v => x ← σ !! a; if fits x 0 && is_ulong v then put_opt g (Z.gcd x v) σ else None
  | Cdiv_qr_ui q r n d mode =>
     x ← σ !! n;
     if negb (d =? 0) && is_ulong d && fits x 0 && negb (bool_decide (is_Some q ∧ q = r)) then
       σ' ← put_opt r (div_round mode x d).2 σ; put_opt q (div_round mode x d).1 σ'
     else None
  | Cdiv_qr q r n d mode =>
     x ← σ !! n; y ← σ !! d;
     if negb (y =? 0) && fits x 0 && fits y 0 && negb (bool_decide (is_Some q ∧ q = r)) then
       σ' ← put_opt r (div_round mode x y).2 σ; put_opt q (div_round mode x y).1 σ'
     else None
  end.

Fixpoint execs (cs : list zcmd) : MZ unit :=
  match cs with [] => mret tt | c :: cs => _ ← exec c; execs cs end.
Fixpoint denotes (cs : list zcmd) σ : option (gmap positive Z) :=
  match cs with [] => Some σ | c :: cs => σ' ← denote c σ; denotes cs σ' end.

(** The life of variables *)
Fixpoint init_all (rs : list mpz_t) : MZ unit :=
  match rs with [] => mret tt | r :: rs => _ ← mpz_init r; init_all rs end.
Fixpoint clear_all (rs : list mpz_t) : MZ unit :=
  match rs with [] => mret tt | r :: rs => _ ← mpz_clear r; clear_all rs end.
Definition zeros (rs : list mpz_t) : gmap positive Z := list_to_map ((λ r, (r, 0)) <$> rs).

(** ** Refinement *)

Lemma put_Some ok r v σ σ' : put ok r v σ = Some σ' → ok = true ∧ σ' = <[r := v]> σ ∧ ∃ w, σ !! r = Some w.
Proof. unfold put. destruct (σ !! r) as [w|] eqn:Hr; [|done]. cbn. destruct ok; [|done]. intros [= <-]. eauto. Qed.

Lemma put_opt_Some o v σ σ' : put_opt o v σ = Some σ' → target (vals σ) o ∧ vals σ' = upd o v (vals σ).
Proof.
  destruct o as [r|]; cbn; [|by intros [= <-]]. intros (_ & -> & w & Hw)%put_Some. rewrite vals_insert. split; [|done].
  exists w. by apply vals_lookup.
Qed.

Lemma exact_quotient x y : y ≠ 0 → x mod y = 0 → x = x / y * y.
Proof. intros Hy Hm. pose proof (Z.div_mod x y Hy). lia. Qed.

Lemma target_some_upd (τ : gmap positive (option Z)) q r v : target (upd r v τ) q → target τ r → target τ q.
Proof.
  destruct q as [q|]; [|done]. intros [w Hw] Hr. destruct r as [r|]; [|by exists w]. cbn in Hw, Hr. destruct Hr as [w' Hr].
  destruct (decide (r = q)) as [->|Hn]; [by exists w'|]. rewrite lookup_insert_ne in Hw by done. by exists w.
Qed.

(** The guards as facts about the integers *)
Ltac guards :=
  repeat match goal with
  | H : _ ≫= _ = Some _ |- _ => apply bind_Some in H as (? & ? & ?)
  | H : put _ _ _ _ = Some _ |- _ => apply put_Some in H as (? & -> & ? & ?)
  | H : _ && _ = true |- _ => apply andb_true_iff in H as [? ?]
  | H : fits _ _ = true |- _ => apply Z.ltb_lt in H
  | H : (_ <=? _) = true |- _ => apply Z.leb_le in H
  | H : (_ <? _) = true |- _ => apply Z.ltb_lt in H
  | H : negb (_ =? 0) = true |- _ => apply negb_true_iff, Z.eqb_neq in H
  | H : (_ =? _) = true |- _ => apply Z.eqb_eq in H
  | H : is_ulong _ = true |- _ => unfold is_ulong in H
  | H : is_long _ = true |- _ => unfold is_long, LONG_MIN, LONG_MAX in H
  end.

Lemma wp_exec_div s σ σ' q r n d mode Q E :
  zok F s (vals σ) → denote (Cdiv_qr q r n d mode) σ = Some σ' → (∀ s', zok F s' (vals σ') → Q tt s') →
  wp (exec (Cdiv_qr q r n d mode)) Q E s.
Proof.
  intros Hok Hd HQ. cbn [denote] in Hd. apply bind_Some in Hd as (x & Hx & Hd). apply bind_Some in Hd as (y & Hy & Hd).
  destruct (_ && _) eqn:Hg; [|done]. guards. rename select (put_opt r _ _ = _) into Hr. rename select (put_opt q _ _ = _) into Hq.
  rename select (negb (bool_decide _) = true) into Hne. apply negb_true_iff, bool_decide_eq_false in Hne.
  apply put_opt_Some in Hr as [Hr Er], Hq as [Hq Eq]. cbn [exec]. apply wp_bind. rewrite Er in Hq. pose proof (target_some_upd _ _ _ _ Hq Hr) as Hq2.
  eapply (wp_mpz_div_qr F s (vals σ) q r n d x y mode); try done; try (by apply vals_lookup); try lia.
  - intros i -> ->. apply Hne. split; [by eexists|done].
  - intros s' Hok'. apply wp_ret, HQ. by rewrite Eq, Er.
Qed.

Lemma wp_exec_div_ui s σ σ' q r n d mode Q E :
  zok F s (vals σ) → denote (Cdiv_qr_ui q r n d mode) σ = Some σ' → (∀ s', zok F s' (vals σ') → Q tt s') →
  wp (exec (Cdiv_qr_ui q r n d mode)) Q E s.
Proof.
  intros Hok Hd HQ. cbn [denote] in Hd. apply bind_Some in Hd as (x & Hx & Hd).
  destruct (_ && _) eqn:Hg; [|done]. guards. rename select (put_opt r _ _ = _) into Hr. rename select (put_opt q _ _ = _) into Hq.
  rename select (negb (bool_decide _) = true) into Hne. apply negb_true_iff, bool_decide_eq_false in Hne.
  apply put_opt_Some in Hr as [Hr Er], Hq as [Hq Eq]. cbn [exec]. apply wp_bind. rewrite Er in Hq. pose proof (target_some_upd _ _ _ _ Hq Hr) as Hq2.
  eapply (wp_mpz_div_qr_ui F s (vals σ) q r n x d mode); try done; try (by apply vals_lookup); try lia.
  - intros i -> ->. apply Hne. split; [by eexists|done].
  - intros s' Hok'. apply wp_ret, HQ. by rewrite Eq, Er.
Qed.

Lemma wp_exec_gcd_ui s σ σ' g a v Q E :
  zok F s (vals σ) → denote (Cgcd_ui g a v) σ = Some σ' → (∀ s', zok F s' (vals σ') → Q tt s') → wp (exec (Cgcd_ui g a v)) Q E s.
Proof.
  intros Hok Hd HQ. cbn [denote] in Hd. apply bind_Some in Hd as (x & Hx & Hd). destruct (_ && _) eqn:Hg; [|done]. guards.
  apply put_opt_Some in Hd as [Hr Er]. cbn [exec]. apply wp_bind.
  eapply (wp_mpz_gcd_ui F s (vals σ) g a x v); try done; try (by apply vals_lookup); try lia. intros s' Hok'. apply wp_ret, HQ. by rewrite Er.
Qed.

Lemma wp_exec s σ σ' c Q E :
  zok F s (vals σ) → denote c σ = Some σ' → (∀ s', zok F s' (vals σ') → Q tt s') → wp (exec c) Q E s.
Proof.
  intros Hok Hd HQ. assert (∀ r v s', zok F s' (<[r := Some v]> (vals σ)) → σ' = <[r := v]> σ → Q tt s') as HQ'.
  { intros r v s' Hok' ->. apply HQ. by rewrite <- vals_insert. }
  destruct c; [..|by eapply wp_exec_gcd_ui|by eapply wp_exec_div_ui|by eapply wp_exec_div]; cbn [denote] in Hd; cbn [exec]; guards; simplify_eq;
    repeat match goal with H : σ !! _ = Some _ |- _ => apply vals_lookup in H end.
  - eapply wp_mpz_set_ui; eauto; lia.
  - eapply wp_mpz_set_si; eauto; lia.
  - eapply wp_mpz_set; eauto; lia.
  - eapply wp_mpz_swap; eauto. intros s'. rewrite !vals_insert. apply HQ.
  - eapply wp_mpz_neg; eauto; lia.
  - eapply wp_mpz_abs; eauto; lia.
  - eapply wp_mpz_add; eauto; lia.
  - eapply wp_mpz_sub; eauto; lia.
  - eapply wp_mpz_add_ui; eauto; lia.
  - eapply wp_mpz_sub_ui; eauto; lia.
  - eapply wp_mpz_ui_sub; eauto; lia.
  - eapply wp_mpz_mul; eauto; lia.
  - eapply wp_mpz_mul_ui; eauto; lia.
  - eapply wp_mpz_mul_si; eauto; lia.
  - eapply wp_mpz_mul_2exp; eauto; lia.
  - eapply wp_mpz_addmul; eauto; lia.
  - eapply wp_mpz_submul; eauto; lia.
  - eapply wp_mpz_addmul_ui; eauto; lia.
  - eapply wp_mpz_submul_ui; eauto; lia.
  - eapply wp_mpz_div_q_2exp; eauto; lia.
  - eapply wp_mpz_div_r_2exp; eauto; lia.
  - eapply wp_mpz_divexact; eauto; try lia. by apply exact_quotient.
  - eapply wp_mpz_divexact_ui; eauto; try lia. by apply exact_quotient.
  - eapply wp_mpz_gcd; eauto; lia.
  - eapply wp_mpz_lcm; eauto; lia.
  - eapply wp_mpz_lcm_ui; eauto; lia.
  - eapply wp_mpz_pow_ui; eauto; lia.
  - eapply wp_mpz_ui_pow_ui; eauto; unfold word; lia.
  - eapply wp_mpz_fac_ui; eauto; lia.
  - eapply wp_mpz_bin_uiui; eauto; lia.
  - eapply wp_mpz_and; eauto; lia.
  - eapply wp_mpz_ior; eauto; lia.
  - eapply wp_mpz_xor; eauto; lia.
  - eapply wp_mpz_com; eauto; lia.
  - eapply wp_mpz_setbit; eauto; lia.
  - eapply wp_mpz_clrbit; eauto; lia.
  - eapply wp_mpz_combit; eauto; lia.
  - apply wp_bind. eapply wp_mpz_set_str; eauto; [|intros s' Hok'; by eapply wp_ret, HQ'].
    rename select (_ || _ = true) into Hb. apply orb_true_iff in Hb as [Hb|Hb]; guards; lia.
Qed.

Lemma wp_execs cs : ∀ s σ σ' Q E,
  zok F s (vals σ) → denotes cs σ = Some σ' → (∀ s', zok F s' (vals σ') → Q tt s') → wp (execs cs) Q E s.
Proof.
  induction cs as [|c cs IH]; intros s σ σ' Q E Hok Hd HQ; cbn in Hd |- *.
  - injection Hd as <-. by apply wp_ret, HQ.
  - apply bind_Some in Hd as (σ1 & Hc & Hd). apply wp_bind. eapply wp_exec; try done. intros s1 Hok1. by eapply IH.
Qed.

(** A program keeps the set of variables. *)
Lemma put_dom ok r v σ σ' : put ok r v σ = Some σ' → dom σ' = dom σ.
Proof. intros (_ & -> & w & Hw)%put_Some. rewrite dom_insert_L. apply elem_of_dom_2 in Hw. set_solver. Qed.

Lemma put_opt_dom o v σ σ' : put_opt o v σ = Some σ' → dom σ' = dom σ.
Proof. destruct o; [apply put_dom|by intros [= <-]]. Qed.

Lemma denote_dom c σ σ' : denote c σ = Some σ' → dom σ' = dom σ.
Proof.
  destruct c; cbn [denote]; intros Hd; repeat first [by eapply put_dom|apply bind_Some in Hd as (? & ? & Hd)].
  - injection Hd as <-. rewrite !dom_insert_L. repeat match goal with H : _ !! _ = Some _ |- _ => apply elem_of_dom_2 in H end. set_solver.
  - destruct (_ && _); [|done]. by eapply put_opt_dom.
  - destruct (_ && _); [|done]. apply bind_Some in Hd as (σ1 & H1%put_opt_dom & H2%put_opt_dom). congruence.
  - destruct (_ && _); [|done]. apply bind_Some in Hd as (σ1 & H1%put_opt_dom & H2%put_opt_dom). congruence.
Qed.

Lemma denotes_dom cs : ∀ σ σ', denotes cs σ = Some σ' → dom σ' = dom σ.
Proof.
  induction cs as [|c cs IH]; intros σ σ' Hd; cbn in Hd; [by injection Hd as <-|].
  apply bind_Some in Hd as (σ1 & Hc%denote_dom & Hd%IH). congruence.
Qed.

Lemma zeros_cons r rs : zeros (r :: rs) = <[r := 0]> (zeros rs).
Proof. done. Qed.

Lemma zeros_lookup rs i : zeros rs !! i = if decide (i ∈ rs) then Some 0 else None.
Proof.
  induction rs as [|r rs IH]; [rewrite decide_False; [done|apply not_elem_of_nil]|]. rewrite zeros_cons. destruct (decide (i = r)) as [->|Hne].
  - rewrite lookup_insert_eq, decide_True; [done|]. by left.
  - rewrite lookup_insert_ne, IH by done. apply decide_ext. rewrite elem_of_cons. naive_solver.
Qed.

Lemma wp_mpz_init_next s (τ : gmap positive (option Z)) t Q E :
  zok F s τ → τ !! t = None → (t < z_next s)%positive →
  (∀ s', z_next s' = z_next s → zok F s' (<[t := Some 0]> τ) → Q tt s') → wp (mpz_init t) Q E s.
Proof.
  intros Hok Ht Hlt HQ. apply wp_put_mpz, HQ; [done|].
  exact (wp_mpz_init F s τ t (λ _ s', zok F s' (<[t := Some 0]> τ)) (λ _, False) Hok Ht Hlt (λ s' H, H)).
Qed.

Lemma wp_init_all rs : ∀ s σ Q E,
  zok F s (vals σ) → NoDup rs → (∀ r, r ∈ rs → σ !! r = None ∧ (r < z_next s)%positive) →
  (∀ s', zok F s' (vals (zeros rs ∪ σ)) → Q tt s') → wp (init_all rs) Q E s.
Proof.
  induction rs as [|r rs IH]; intros s σ Q E Hok Hnd Hr HQ; cbn [init_all].
  - apply wp_ret, HQ. change (zeros []) with (∅ : gmap positive Z). by rewrite (left_id_L ∅ (∪)).
  - apply NoDup_cons in Hnd as [Hnr Hnd]. destruct (Hr r) as [Hn Hlt]; [by left|]. apply wp_bind.
    assert (vals σ !! r = None) as Hv by (unfold vals; by rewrite lookup_fmap, Hn).
    eapply (wp_mpz_init_next s); try done. intros s1 Hz Hok1. rewrite vals_insert in Hok1. eapply IH; try done.
    + intros i Hi. rewrite Hz. destruct (Hr i) as [Hin Hil]; [by right|]. split; [|done]. rewrite lookup_insert_ne; [done|]. by intros ->.
    + intros s2 Hok2. apply HQ. rewrite zeros_cons. eapply eq_rect; [exact Hok2|]. f_equal. rewrite <- insert_union_l.
      symmetry. apply insert_union_r. rewrite zeros_lookup. by rewrite decide_False.
Qed.

Lemma wp_clear_all rs : ∀ s σ Q E,
  zok F s (vals σ) → NoDup rs → dom σ = list_to_set rs →
  (∀ s', zok F s' ∅ → Q tt s') → wp (clear_all rs) Q E s.
Proof.
  induction rs as [|r rs IH]; intros s σ Q E Hok Hnd Hd HQ; cbn [clear_all].
  - apply wp_ret, HQ. apply dom_empty_inv_L in Hd as ->. exact Hok.
  - apply NoDup_cons in Hnd as [Hnr Hnd]. assert (is_Some (σ !! r)) as [v Hv] by (apply elem_of_dom; rewrite Hd; set_solver).
    apply wp_bind. eapply (wp_mpz_clear F s _ r (Some v)); [done|by apply vals_lookup|]. intros s1. rewrite vals_delete. intros Hok1.
    eapply IH; try done. rewrite dom_delete_L, Hd. cbn. set_solver.
Qed.
End programs.

(** ** Claims *)

Lemma zok_start m next vars : mem_ok m → zok m (mk_zstate m next vars) (vals ∅).
Proof.
  intros Hm. unfold vals. rewrite fmap_empty. split; try done; cbn.
  - intros i [v Hv]. done.
  - intros i j b [v Hv]. done.
  - intros i b o [v Hv]. done.
  - intros q Hq. by left.
Qed.

Lemma zok_end F s q : zok F s ∅ → cell (z_mem s) q = cell F q.
Proof.
  intros [_ _ _ _ H5 _ H7]. destruct (cell (z_mem s) q) as [c|] eqn:Hc.
  - destruct (H7 q) as [[c' Hc']|(i & [v Hv] & _)]; [by rewrite Hc|rewrite (H5 _ _ Hc') in Hc; congruence|done].
  - destruct (cell F q) as [c|] eqn:Hf; [|done]. apply H5 in Hf. congruence.
Qed.

Lemma session_runs m next vars rs cs σ :
  mem_ok m → NoDup rs → (∀ r, r ∈ rs → (r < next)%positive) → denotes cs (zeros rs) = Some σ →
  ∃ s1, (_ ← init_all rs; execs cs) (mk_zstate m next vars) = Ok (tt, s1) ∧ zok m s1 (vals σ).
Proof.
  intros Hm Hnd Hr Hd. pose proof (zok_start m next vars Hm) as Hok.
  destruct (wp_Ok_inv (_ ← init_all rs; execs cs) (λ _ s, zok m s (vals σ)) (mk_zstate m next vars)) as ([] & s1 & E1 & Hok1); [|by exists s1].
  apply wp_bind. eapply (wp_init_all m rs _ ∅); try done; [by intros r Hi; split; [apply lookup_empty|apply Hr]|].
  intros s1. rewrite (right_id_L ∅ (∪)). intros Hok1. by eapply wp_execs.
Qed.

(** C5: A session with integers of any size.  Variables are initialised, any program of
    assignments, negations, additions, subtractions, multiplications, shifts, divisions with
    the three roundings, exact divisions, greatest common divisors and least common
    multiples, powers, factorials, binomial coefficients, bit operations and conversions from
    strings is run, whatever variables are passed for several arguments of
    a call, and the variables are cleared.  The program runs to its end, every variable then
    reads back from the memory as the value of the same program over the integers, and after
    the clearing every cell of the memory is as it was before: nothing leaks and nothing else
    is touched. *)
Theorem mpz_session_correct m next vars rs cs σ :
  mem_ok m → NoDup rs → (∀ r, r ∈ rs → (r < next)%positive) → denotes cs (zeros rs) = Some σ →
  ∃ s1 s2, (_ ← init_all rs; execs cs) (mk_zstate m next vars) = Ok (tt, s1) ∧
    (∀ i v, σ !! i = Some v → mpz_value s1 i = Some v) ∧
    clear_all rs s1 = Ok (tt, s2) ∧ (∀ q, cell (z_mem s2) q = cell m q).
Proof.
  intros Hm Hnd Hr Hd. destruct (session_runs m next vars rs cs σ) as (s1 & E1 & Hok1); try done.
  destruct (wp_Ok_inv (clear_all rs) (λ _ s, zok m s ∅) s1) as ([] & s2 & E2 & Hok2).
  { eapply wp_clear_all; try done. rewrite (denotes_dom _ _ _ Hd). apply set_eq. intros i. rewrite elem_of_dom, zeros_lookup, elem_of_list_to_set.
    destruct (decide (i ∈ rs)); split; try done; by intros []. }
  exists s1, s2. split_and!; try done; [|intros q; by apply zok_end]. intros i v Hi. by eapply mpz_value_ok.
Qed.

Definition mem0 : mem := mk_mem 2 ∅.
Lemma mem0_ok : mem_ok mem0.
Proof. intros q [c Hc]. done. Qed.

(** A program with numbers of several limbs, where results are also operands *)
Definition demo_program : list zcmd :=
  [Cset_ui 1 18446744073709551615; Cadd 1 1 1; Cset_si 2 (-3); Cmul 1 1 2; Csub 2 2 2; Csub_ui 2 1 7; Cdiv_qr (Some 3%positive) (Some 2%positive) 2 1 GMP_DIV_FLOOR;
   Caddmul 3 1 1; Cmul_2exp 2 2 70; Cneg 2 2;
   Cset_str 1 [45; 49; 50; 48] 10; Cfac_ui 4 30; Cui_pow_ui 4 30 30; Cgcd 4 4 1; Cxor 1 1 2; Cdiv_qr_ui (Some 1%positive) None 1 7 GMP_DIV_CEIL].

Lemma mpz_session_correct_witness :
  ∃ s1 s2, (_ ← init_all [1; 2; 3; 4]%positive; execs demo_program) (mk_zstate mem0 10 ∅) = Ok (tt, s1) ∧
    mpz_value s1 3 = Some (1 + 110680464442257309690 * 110680464442257309690) ∧ mpz_value s1 1 = Some (-1180591620717411303441) ∧ mpz_value s1 4 = Some 120 ∧
    clear_all [1; 2; 3; 4]%positive s1 = Ok (tt, s2) ∧ cell (z_mem s2) (5%positive, 0) = None.
Proof.
  destruct (mpz_session_correct mem0 10 ∅ [1; 2; 3; 4]%positive demo_program
    (<[1%positive := -1180591620717411303441]> (<[2%positive := 7 * 2 ^ 70]> (<[4%positive := 120]> {[3%positive := 1 + 110680464442257309690 * 110680464442257309690]}))))
    as (s1 & s2 & H1 & H2 & H3 & H4).
  - exact mem0_ok.
  - repeat constructor; set_solver.
  - intros r Hr. set_unfold in Hr. destruct Hr as [->|[->|[->|[->|[]]]]]; done.
  - vm_compute. reflexivity.
  - exists s1, s2. split; [exact H1|]. split; [apply H2; reflexivity|]. split; [apply H2; reflexivity|]. split; [apply H2; reflexivity|]. split; [exact H3|]. rewrite H4. reflexivity.
Defined.

(** What the documentation of [mpz_t] requires of a struct: room for [mp_alloc] limbs, an
    [mp_size] that is an [int] and fits, 64-bit limbs, and no zeros at the top *)
Definition struct_ok (m : mem) (z : mpz_struct) : Prop :=
  Z.abs (mp_size z) ≤ mp_alloc z ≤ INT_MAX ∧ (mp_d z).2 = 0 ∧ space m (mp_d z) (Z.to_nat (mp_alloc z)) ∧
  ∃ l, Z.of_nat (length l) = Z.abs (mp_size z) ∧ holds m (mp_d z) l ∧ words l ∧ (∀ d, last l = Some d → d ≠ 0).

(** C15: The structs of the integers stay well formed: after any program of the session, the
    struct of every variable has an allocation that holds its size, both in the range of
    [int], its limbs are 64-bit words in memory that is allocated, and the highest one is
    not 0; no two variables share a block, and none has a block of the memory from before. *)
Theorem mpz_session_well_formed m next vars rs cs σ :
  mem_ok m → NoDup rs → (∀ r, r ∈ rs → (r < next)%positive) → denotes cs (zeros rs) = Some σ →
  ∃ s1, (_ ← init_all rs; execs cs) (mk_zstate m next vars) = Ok (tt, s1) ∧
    ∀ i, is_Some (σ !! i) → ∃ z, z_vars s1 !! i = Some z ∧ struct_ok (z_mem s1) z ∧
      (0 < mp_alloc z → (∀ o, cell m ((mp_d z).1, o) = None) ∧
         ∀ j z', is_Some (σ !! j) → z_vars s1 !! j = Some z' → 0 < mp_alloc z' → (mp_d z').1 = (mp_d z).1 → j = i).
Proof.
  intros Hm Hnd Hr Hd. destruct (session_runs m next vars rs cs σ) as (s1 & E1 & Hok); try done. exists s1. split; [done|]. intros i [v Hi].
  apply vals_lookup in Hi. destruct (zok_rep _ _ _ Hok _ _ Hi) as (z & Hz & Ha & H0 & Hs & l & (Hw & Hn & Hh & Hl) & _ & Hle).
  assert (∀ j, is_Some (σ !! j) → is_Some (vals σ !! j)) as Hv by (intros j [w Hj]; apply vals_lookup in Hj; by rewrite Hj).
  exists z. split; [done|]. split.
  - split; [lia|]. split_and!; try done. exists l. split_and!; try done.
  - intros Hpos. split; [intros o; eapply (zok_private _ _ _ Hok i); [by rewrite Hi|by exists z]|]. intros j z' Hj%Hv Hz' Hpos' Hb.
    eapply (zok_sep _ _ _ Hok j i (mp_d z).1); [done|by rewrite Hi|by exists z'|by exists z].
Qed.

Lemma mpz_session_well_formed_witness :
  ∃ s1 z, (_ ← init_all [1; 2; 3; 4]%positive; execs demo_program) (mk_zstate mem0 10 ∅) = Ok (tt, s1) ∧ z_vars s1 !! 3%positive = Some z ∧ struct_ok (z_mem s1) z.
Proof.
  destruct (mpz_session_well_formed mem0 10 ∅ [1; 2; 3; 4]%positive demo_program
    (<[1%positive := -1180591620717411303441]> (<[2%positive := 7 * 2 ^ 70]> (<[4%positive := 120]> {[3%positive := 1 + 110680464442257309690 * 110680464442257309690]}))))
    as (s1 & H1 & H2).
  - exact mem0_ok.
  - repeat constructor; set_solver.
  - intros r Hr. set_unfold in Hr. destruct Hr as [->|[->|[->|[->|[]]]]]; done.
  - vm_compute. reflexivity.
  - destruct (H2 3%positive) as (z & Hz & Hs & _); [by eexists|]. exists s1, z. split_and!; [exact H1|exact Hz|exact Hs].
Defined.

(** A state with four variables for the examples *)
Definition demo_store (x y : Z) : gmap positive Z := <[1%positive := x]> (<[2%positive := y]> (<[3%positive := 0]> {[4%positive := 0]})).
Lemma demo_state x y : is_long x = true → is_long y = true → ∃ s, zok mem0 s (vals (demo_store x y)).
Proof.
  intros Hx Hy. destruct (wp_Ok_inv (_ ← init_all [1; 2; 3; 4]%positive; execs [Cset_si 1 x; Cset_si 2 y]) (λ _ s, zok mem0 s (vals (demo_store x y)))
    (mk_zstate mem0 10 ∅)) as (_ & s & _ & Hok); [|by exists s].
  apply wp_bind. eapply (wp_init_all mem0 _ _ ∅); [by apply zok_start, mem0_ok|repeat constructor; set_solver|..].
  - intros r Hr. split; [done|]. set_unfold in Hr. destruct Hr as [->|[->|[->|[->|[]]]]]; done.
  - intros s1. rewrite (right_id_L ∅ (∪)). intros Hok1. eapply wp_execs; [done| |by intros ? ?].
    cbn [denotes denote]. unfold put. cbn. rewrite Hx. cbn. rewrite Hy. cbn. f_equal.
Qed.

(** C7: Division with rounding.  For any dividend, any divisor other than 0 and any results
    asked for (quotient, remainder, both or none, possibly the operands themselves), the
    quotient and the remainder satisfy the division equation, the remainder is smaller than
    the divisor and has the sign of the divisor, the opposite sign, or the sign of the
    dividend, as the rounding is towards minus infinity, towards infinity or towards zero;
    the result tells whether the remainder is not 0.  All other variables keep their values,
    the temporaries are freed. *)
Theorem mpz_div_qr_rounds F s σ q r n d x y mode :
  zok F s (vals σ) → σ !! n = Some x → σ !! d = Some y → y ≠ 0 → nlimbs x < INT_MAX → nlimbs y < INT_MAX →
  target (vals σ) q → target (vals σ) r → (∀ i, q = Some i → r ≠ Some i) →
  ∃ s' qv rv, mpz_div_qr q r n d mode s = Ok (negb (rv =? 0), s') ∧
    zok F s' (upd q qv (upd r rv (vals σ))) ∧ x = qv * y + rv ∧ Z.abs rv < Z.abs y ∧
    match mode with GMP_DIV_FLOOR => 0 ≤ rv * y | GMP_DIV_CEIL => rv * y ≤ 0 | GMP_DIV_TRUNC => 0 ≤ rv * x end.
Proof.
  intros Hok Hn%vals_lookup Hd%vals_lookup Hy Hnx Hny Hq Hr Hne.
  destruct (wp_Ok_inv (mpz_div_qr q r n d mode)
    (λ b s', b = negb ((div_round mode x y).2 =? 0) ∧ zok F s' (upd q (div_round mode x y).1 (upd r (div_round mode x y).2 (vals σ)))) s)
    as (b & s' & E1 & -> & Hok').
  { eapply wp_mpz_div_qr; try done. }
  exists s', (div_round mode x y).1, (div_round mode x y).2. split; [done|]. split; [done|].
  destruct mode; cbn [div_round fst snd].
  - pose proof (Z.div_mod x y Hy). pose proof (Z.mod_bound_or x y Hy). split_and!; nia.
  - pose proof (Z.div_mod (- x) y Hy). pose proof (Z.mod_bound_or (- x) y Hy). split_and!; nia.
  - pose proof (Z.quot_rem' x y). pose proof (Z.rem_bound_abs x y Hy). pose proof (Z.rem_sign_mul x y Hy). split_and!; nia.
Qed.

Lemma mpz_div_qr_rounds_witness :
  ∃ s s', mpz_div_qr (Some 3%positive) (Some 1%positive) 1 2 GMP_DIV_FLOOR s = Ok (true, s') ∧
    mpz_value s' 3 = Some (-4) ∧ mpz_value s' 1 = Some 1 ∧ mpz_value s' 2 = Some 2.
Proof.
  destruct (demo_state (-7) 2) as [s Hs]; [done|done|]. exists s.
  destruct (mpz_div_qr_rounds mem0 s (demo_store (-7) 2) (Some 3%positive) (Some 1%positive) 1 2 (-7) 2 GMP_DIV_FLOOR)
    as (s' & qv & rv & E1 & Hok & He & Hb & Hs1); try done; [by exists 0|by exists (-7)|by intros i [= <-]|].
  assert (rv = 1) as -> by lia. assert (qv = -4) as -> by lia. exists s'. split; [exact E1|]. cbn in Hok. rewrite !vals_insert in Hok.
  split_and!; (eapply mpz_value_ok; [exact Hok|reflexivity]).
Defined.

(** Division by zero prints a message and aborts, whatever the dividend, the rounding and
    the results asked for. *)
Theorem mpz_division_by_zero F s σ q r n d x mode :
  zok F s (vals σ) → σ !! n = Some x → σ !! d = Some 0 → mpz_div_qr q r n d mode s = Err (Killed SIGABRT).
Proof.
  intros Hok Hn%vals_lookup Hd%vals_lookup. apply wp_Err_inv.
  destruct (zok_operand F s _ n x Hok Hn) as (zn & _ & Hzn & _). destruct (zok_operand F s _ d 0 Hok Hd) as (zd & _ & Hzd & _ & _ & _ & _ & _ & Hsd & _).
  unfold mpz_div_qr. do 2 (apply wp_bind; eapply wp_get_mpz; [done|]). rewrite Hsd. cbn. by apply wp_raise.
Qed.

Lemma mpz_division_by_zero_witness : ∃ s, mpz_div_qr (Some 3%positive) None 1 2 GMP_DIV_CEIL s = Err (Killed SIGABRT).
Proof.
  destruct (demo_state 5 0) as [s Hs]; [done|done|]. exists s. apply (mpz_division_by_zero mem0 s (demo_store 5 0) _ _ _ _ 5); [exact Hs|reflexivity|reflexivity].
Defined.

(** The comparison functions order the integers: [mpz_cmp] two variables, [mpz_cmpabs]
    their absolute values, [mpz_cmp_ui] and [mpz_cmp_si] a variable and a machine word,
    [mpz_sgn] a variable and 0; none of them changes the state. *)
Theorem mpz_cmp_compares F s σ a b x y u v :
  zok F s (vals σ) → σ !! a = Some x → σ !! b = Some y → 0 ≤ u < WB → LONG_MIN ≤ v ≤ LONG_MAX →
  mpz_cmp a b s = Ok (cmp_result (x ?= y), s) ∧ mpz_cmpabs a b s = Ok (cmp_result (Z.abs x ?= Z.abs y), s) ∧
  mpz_cmp_ui a u s = Ok (cmp_result (x ?= u), s) ∧ mpz_cmp_si a v s = Ok (cmp_result (x ?= v), s) ∧
  mpz_cmpabs_ui a u s = Ok (cmp_result (Z.abs x ?= u), s) ∧ mpz_sgn a s = Ok (Z.sgn x, s).
Proof.
  intros Hok Ha%vals_lookup Hb%vals_lookup Hu Hv.
  assert (∀ (f : MZ Z) c, (∀ Q E, Q c s → wp f Q E s) → f s = Ok (c, s)) as Hwp.
  { intros f c Hf. destruct (wp_Ok_inv f (λ r s', r = c ∧ s' = s) s) as (r & s' & E1 & -> & ->); [by apply Hf|done]. }
  split_and!; apply Hwp; intros Q E HQ.
  - by eapply wp_mpz_cmp.
  - by eapply wp_mpz_cmpabs.
  - by eapply wp_mpz_cmp_ui.
  - by eapply wp_mpz_cmp_si.
  - by eapply wp_mpz_cmpabs_ui.
  - by eapply wp_mpz_sgn.
Qed.

Lemma mpz_cmp_compares_witness : ∃ s, mpz_cmp 1 2 s = Ok (-1, s) ∧ mpz_cmpabs 1 2 s = Ok (1, s) ∧ mpz_cmp_si 1 LONG_MIN s = Ok (0, s).
Proof.
  destruct (demo_state LONG_MIN 2) as [s Hs]; [done|done|]. exists s.
  destruct (mpz_cmp_compares mem0 s (demo_store LONG_MIN 2) 1 2 LONG_MIN 2 0 LONG_MIN) as (H1 & H2 & H3 & H4 & _); try done.
Defined.

(** A [long] stored with [mpz_set_si] fits a [long] and is read back by [mpz_get_si],
    for every [long], the smallest one included, whatever the variable held before. *)
Theorem mpz_si_roundtrip F s σ r w v :
  zok F s (vals σ) → σ !! r = Some w → LONG_MIN ≤ v ≤ LONG_MAX →
  ∃ s', (_ ← mpz_set_si r v; f ← mpz_fits_slong_p r; x ← mpz_get_si r; mret (f, x)) s = Ok ((true, v), s') ∧ zok F s' (vals (<[r := v]> σ)).
Proof.
  intros Hok Hr%vals_lookup Hv.
  destruct (wp_Ok_inv (_ ← mpz_set_si r v; f ← mpz_fits_slong_p r; x ← mpz_get_si r; mret (f, x))
    (λ p s', p = (true, v) ∧ zok F s' (vals (<[r := v]> σ))) s) as (p & s' & E1 & -> & Hok'); [|by exists s'].
  apply wp_bind. eapply wp_mpz_set_si; try done; [unfold LONG_MIN, LONG_MAX in Hv; lia|]. intros s1. rewrite vals_insert. intros Hok1.
  assert (vals (<[r := v]> σ) !! r = Some (Some v)) as Hr1 by (apply vals_lookup; by rewrite lookup_insert_eq).
  apply wp_bind. eapply wp_mpz_fits_slong_p; try done. rewrite bool_decide_true by done.
  apply wp_bind. eapply wp_mpz_get_si; try done. rewrite si_of_long by done. by apply wp_ret.
Qed.

Lemma mpz_si_roundtrip_witness :
  ∃ s s', (_ ← mpz_set_si 1 LONG_MIN; f ← mpz_fits_slong_p 1; x ← mpz_get_si 1; mret (f, x)) s = Ok ((true, LONG_MIN), s').
Proof.
  destruct (demo_state 5 0) as [s Hs]; [done|done|]. exists s.
  destruct (mpz_si_roundtrip mem0 s (demo_store 5 0) 1 5 LONG_MIN) as (s' & E1 & _); try done. by exists s'.
Defined.
