(* ===== verification/MpzTheorems.v ===== *)
(** * Divisors, bits and strings: the claims

    Greatest common divisors end and are what they should be, the bit operations agree with
    two's complement numbers of unlimited length, as do the scans for bits and the counts of
    bits, numbers survive the way through strings, and roots, inverses and powers modulo a
    number are what they should be. *)

From S2P Require Import Prelude CString Queue State UInt64 Mpn MpnMem MpnThm MpnBits MpnDiv MpnInv MpnDivThm MpnDivPi1 MpnCorrect MpnDivQr MpnStr MpnStrThm MpnSetStr Mpz MpzRep MpzArith MpzMul MpzDiv MpzConv MpzQuo MpzQuoThm MpzBits MpzNum MpzNumThm MpzPow MpzBitsThm MpzBitThm MpzStr MpzStrThm MpzCorrect MpzRoot MpzGcdext MpnPreinv MpzFrame MpzPowm MpzCount MpzScan.

(** C12: [mpz_gcd] ends for all operands, of any sign and size, and leaves in [g], which may
    be one of the operands, the divisor of both that every common divisor divides.  The
    binary algorithm never runs out of the rounds that the lengths of the operands allow,
    and its temporaries are freed. *)
Theorem mpz_gcd_terminates F s σ g w u x v y :
  zok F s (vals σ) → σ !! g = Some w → σ !! u = Some x → σ !! v = Some y → nlimbs x < INT_MAX → nlimbs y < INT_MAX →
  ∃ s' d, mpz_gcd g u v s = Ok (tt, s') ∧ zok F s' (vals (<[g := d]> σ)) ∧ mpz_value s' g = Some d ∧
    0 ≤ d ∧ (d | x) ∧ (d | y) ∧ ∀ e, (e | x) → (e | y) → (e | d).
Proof.
  intros Hok Hg%vals_lookup Hu%vals_lookup Hv%vals_lookup Hx Hy.
  destruct (wp_Ok_inv (mpz_gcd g u v) (λ _ s', zok F s' (vals (<[g := Z.gcd x y]> σ))) s) as ([] & s' & E1 & Hok').
  { eapply wp_mpz_gcd; try done. intros s'. by rewrite vals_insert. }
  exists s', (Z.gcd x y). split_and!; try done; [|apply Z.gcd_nonneg|apply Z.gcd_divide_l|apply Z.gcd_divide_r|intros e; apply Z.gcd_greatest].
  eapply mpz_value_ok; [exact Hok'|]. by rewrite lookup_insert_eq.
Qed.

Lemma mpz_gcd_terminates_witness : ∃ s s' d, mpz_gcd 1 1 2 s = Ok (tt, s') ∧ mpz_value s' 1 = Some d ∧ (d | -120) ∧ (d | 84) ∧ (12 | d).
Proof.
  destruct (demo_state (-120) 84) as [s Hs]; [done|done|]. exists s.
  destruct (mpz_gcd_terminates mem0 s (demo_store (-120) 84) 1 (-120) 1 (-120) 2 84) as (s' & d & H1 & _ & H2 & _ & H3 & H4 & H5); try done.
  exists s', d. split_and!; try done. apply H5; [by exists (-10)|by exists 7].
Defined.

(** C8: The bit operations treat integers as two's complement numbers of unlimited length:
    after [mpz_and], [mpz_ior], [mpz_xor] or [mpz_com], every bit that [mpz_tstbit] reads of
    the result is the operation on the bits of the operands, whatever their signs, and
    whichever variables are the same. *)
Theorem mpz_bitops_twos_complement F s σ r w u x v y :
  zok F s (vals σ) → σ !! r = Some w → σ !! u = Some x → σ !! v = Some y → nlimbs x < INT_MAX → nlimbs y < INT_MAX →
  ∀ f b, (f, b) ∈ [(mpz_and r u v, andb); (mpz_ior r u v, orb); (mpz_xor r u v, xorb); (mpz_com r u, λ p _, negb p)] →
  ∃ s' z, f s = Ok (tt, s') ∧ zok F s' (vals (<[r := z]> σ)) ∧
    ∀ i, 0 ≤ i → mpz_tstbit r i s' = Ok (b2z (b (Z.testbit x i) (Z.testbit y i)), s').
Proof.
  intros Hok Hr%vals_lookup Hu%vals_lookup Hv%vals_lookup Hx Hy f b Hf.
  assert (∀ (f : MZ unit) (z : Z) (b : bool → bool → bool), (∀ Q E, (∀ s', zok F s' (<[r := Some z]> (vals σ)) → Q tt s') → wp f Q E s) →
    (∀ i, 0 ≤ i → Z.testbit z i = b (Z.testbit x i) (Z.testbit y i)) →
    ∃ s' z, f s = Ok (tt, s') ∧ zok F s' (vals (<[r := z]> σ)) ∧ ∀ i, 0 ≤ i → mpz_tstbit r i s' = Ok (b2z (b (Z.testbit x i) (Z.testbit y i)), s')) as Hgo.
  { clear f b Hf. intros f z b Hwp Hbit. destruct (wp_Ok_inv f (λ _ s', zok F s' (vals (<[r := z]> σ))) s) as ([] & s' & E1 & Hok').
    { apply Hwp. intros s'. by rewrite vals_insert. }
    exists s', z. split_and!; try done. intros i Hi. rewrite <- Hbit by done.
    destruct (wp_Ok_inv (mpz_tstbit r i) (λ t s2, t = b2z (Z.testbit z i) ∧ s2 = s') s') as (t & s2 & E2 & -> & ->); [|done].
    eapply wp_mpz_tstbit; try done. apply vals_lookup. by rewrite lookup_insert_eq. }
  rewrite !elem_of_cons in Hf. destruct Hf as [[= -> ->]|[[= -> ->]|[[= -> ->]|[[= -> ->]|[]%elem_of_nil]]]].
  - apply (Hgo _ (Z.land x y)); [intros Q E; by eapply wp_mpz_and|intros i Hi; apply Z.land_spec].
  - apply (Hgo _ (Z.lor x y)); [intros Q E; by eapply wp_mpz_ior|intros i Hi; apply Z.lor_spec].
  - apply (Hgo _ (Z.lxor x y)); [intros Q E; by eapply wp_mpz_xor|intros i Hi; apply Z.lxor_spec].
  - apply (Hgo _ (Z.lnot x) (λ p _, negb p)); [intros Q E; by eapply wp_mpz_com|intros i Hi; by apply Z.lnot_spec].
Qed.

Lemma mpz_bitops_twos_complement_witness :
  ∃ s s', mpz_xor 1 1 2 s = Ok (tt, s') ∧ mpz_tstbit 1 0 s' = Ok (1, s') ∧ mpz_tstbit 1 100 s' = Ok (1, s').
Proof.
  destruct (demo_state (-8) 3) as [s Hs]; [done|done|]. exists s.
  destruct (mpz_bitops_twos_complement mem0 s (demo_store (-8) 3) 1 (-8) 1 (-8) 2 3) with (f := mpz_xor 1 1 2) (b := xorb) as (s' & z & H1 & _ & H2); try done.
  { set_solver. }
  exists s'. split; [exact H1|]. split; [exact (H2 0 ltac:(lia))|exact (H2 100 ltac:(lia))].
Defined.

(** C9: Numbers survive the way through strings.  For every integer and every base that
    [mpz_get_str] accepts, the text that it writes into a fresh buffer ends with the only
    zero character of the buffer's used part, and [mpz_set_str] reads it back as the same
    number, in any variable. *)
Theorem mpz_str_roundtrip F s σ base u x r w :
  zok F s (vals σ) → σ !! u = Some x → σ !! r = Some w → -36 ≤ base ≤ 36 → 64 * nlimbs x + 2 ≤ INT_MAX →
  ∃ text rest s1 s2, mpz_get_str None base u s = Ok (Some ((Some <$> (text ++ [0])) ++ rest), s1) ∧ zok F s1 (vals σ) ∧
    Forall (λ c, c ≠ 0) text ∧ mpz_set_str r text (get_base base) s1 = Ok (0, s2) ∧ zok F s2 (vals (<[r := x]> σ)).
Proof.
  intros Hok Hu%vals_lookup Hr%vals_lookup Hb Hn. assert (2 ≤ get_base base ≤ 36) as Hgb by (unfold get_base; destruct (Z.leb_spec (Z.abs base) 1); lia).
  destruct (wp_Ok_inv (mpz_get_str None base u) (λ o s', zok F s' (vals σ) ∧ ∃ ds rest, numeral (get_base base) (Z.abs x) ds ∧
    o = Some ((Some <$> (text_of (base <? 0) x ds ++ [0])) ++ rest)) s) as (o & s1 & E1 & Hok1 & ds & rest & Hnum & ->).
  { eapply wp_mpz_get_str; try done. intros ds rest s' Hok' Hnum _. eauto. }
  destruct (text_of_chars (base <? 0) (get_base base) x ds Hgb Hnum) as [Hchars Hlen].
  destruct (wp_Ok_inv (mpz_set_str r (text_of (base <? 0) x ds) (get_base base)) (λ c s', c = 0 ∧ zok F s' (vals (<[r := x]> σ))) s1) as (c & s2 & E2 & -> & Hok2).
  { eapply wp_mpz_set_str; try done; [by right|lia|]. rewrite (text_value_text _ _ x ds Hgb Hnum). cbn [default]. intros s'. by rewrite vals_insert. }
  exists (text_of (base <? 0) x ds), rest, s1, s2. done.
Qed.

Lemma mpz_str_roundtrip_witness :
  ∃ s text rest s1 s2, mpz_get_str None (-16) 1 s = Ok (Some ((Some <$> (text ++ [0])) ++ rest), s1) ∧ mpz_set_str 2 text 16 s1 = Ok (0, s2) ∧ mpz_value s2 2 = Some (-51966).
Proof.
  destruct (demo_state (-51966) 84) as [s Hs]; [done|done|]. exists s.
  destruct (mpz_str_roundtrip mem0 s (demo_store (-51966) 84) (-16) 1 (-51966) 2 84) as (text & rest & s1 & s2 & H1 & _ & _ & H2 & H3); try done.
  exists text, rest, s1, s2. split_and!; try done. eapply mpz_value_ok; [exact H3|reflexivity].
Defined.

(** C23: [mpz_set_str] on any string.  A string that is a number in the sense of
    [text_value] (blanks; a sign; for base 0 a prefix, 0x or 0X for 16, 0b or 0B for 2, 0 for
    8, none for 10; at least one digit of the base, blanks between digits, and nothing else)
    gives that number and 0; [text_value] is written with tables of the blanks and the
    digits, and uses no function of the code; any other string gives -1, and the variable,
    whatever it held, is 0 and still valid. *)
Theorem mpz_set_str_reads F s σ r w str base :
  zok F s (vals σ) → σ !! r = Some w → base = 0 ∨ 2 ≤ base ≤ 36 → Z.of_nat (length str) ≤ INT_MAX →
  match text_value base str with
  | Some v => ∃ s', mpz_set_str r str base s = Ok (0, s') ∧ zok F s' (vals (<[r := v]> σ))
  | None => ∃ s', mpz_set_str r str base s = Ok (-1, s') ∧ zok F s' (vals (<[r := 0]> σ))
  end.
Proof.
  intros Hok Hr%vals_lookup Hb Hlen.
  destruct (wp_Ok_inv (mpz_set_str r str base) (λ c s', c = match text_value base str with Some _ => 0 | None => -1 end ∧
    zok F s' (vals (<[r := default 0 (text_value base str)]> σ))) s) as (c & s' & E1 & -> & Hok').
  { eapply wp_mpz_set_str; try done. intros s'. by rewrite vals_insert. }
  destruct (text_value base str); by exists s'.
Qed.

Lemma mpz_set_str_reads_witness :
  ∃ s s1 s2, mpz_set_str 1 [32; 45; 48; 120; 70; 32; 102] 0 s = Ok (0, s1) ∧ mpz_value s1 1 = Some (-255) ∧
    mpz_set_str 1 [49; 50; 51] 3 s = Ok (-1, s2) ∧ mpz_value s2 1 = Some 0.
Proof.
  destruct (demo_state 5 6) as [s Hs]; [done|done|]. exists s.
  destruct (mpz_set_str_reads mem0 s (demo_store 5 6) 1 5 [32; 45; 48; 120; 70; 32; 102] 0 Hs ltac:(done) ltac:(by left) ltac:(done)) as (s1 & H1 & H2).
  destruct (mpz_set_str_reads mem0 s (demo_store 5 6) 1 5 [49; 50; 51] 3 Hs ltac:(done) ltac:(by right) ltac:(done)) as (s2 & H3 & H4).
  exists s1, s2. split_and!; try done; [eapply mpz_value_ok; [exact H2|reflexivity]|eapply mpz_value_ok; [exact H4|reflexivity]].
Defined.

(** The power with exponent 0 is 1 for every modulus but 0, also for the moduli 1 and -1,
    where the remainder should be 0. *)
Lemma powm_zero_exponent F s σ r w b z e m y :
  zok F s (vals σ) → σ !! r = Some w → σ !! b = Some z → σ !! e = Some 0 → σ !! m = Some y → y ≠ 0 →
  ∃ s', mpz_powm r b e m s = Ok (tt, s') ∧ zok F s' (vals (<[r := 1]> σ)).
Proof.
  intros Hok Hr%vals_lookup Hb%vals_lookup He%vals_lookup Hm%vals_lookup Hy.
  destruct (zok_operand F s _ e 0 Hok He) as (ze & _ & Hze & _ & _ & _ & _ & _ & Hse & _). destruct (zok_operand F s _ m y Hok Hm) as (zm & _ & Hzm & _ & _ & _ & _ & _ & Hsm & _).
  destruct (wp_Ok_inv (mpz_powm r b e m) (λ _ s', zok F s' (vals (<[r := 1]> σ))) s) as ([] & s' & E1 & Hok'); [|by exists s'].
  unfold mpz_powm. do 2 (apply wp_bind; eapply wp_get_mpz; [done|]). rewrite Hse, Hsm, !size_abs. pose proof (nlimbs_pos y Hy).
  rewrite (proj2 (Z.eqb_neq _ 0)) by lia. cbn [nlimbs Z.eqb]. eapply wp_mpz_set_ui; try done. intros s'. by rewrite vals_insert.
Qed.

(** C13: [mpz_rootrem] gives the root of any degree, rounded towards zero, and the remainder,
    whichever of the results are wanted and whichever of them is the operand.  Newton's
    iteration ends: a number of rounds that is the number of bits plus the degree suffices. *)
Theorem mpz_rootrem_newton fuel F s σ x wx r wr y v z :
  zok F s (vals σ) → σ !! x = Some wx → σ !! r = Some wr → x ≠ r → σ !! y = Some v → 1 ≤ z < WB → (v < 0 → Z.odd z = true) →
  nlimbs v + z / 64 + 3 < INT_MAX → 64 * nlimbs v + z < Z.of_nat fuel →
  ∃ s' a, mpz_rootrem fuel (Some x) (Some r) y z s = Ok (tt, s') ∧ zok F s' (vals (<[x := a]> (<[r := v - a ^ z]> σ))) ∧
    0 ≤ a * v ∧ Z.abs a ^ z ≤ Z.abs v < (Z.abs a + 1) ^ z.
Proof.
  intros Hok Hx%vals_lookup Hr%vals_lookup Hne Hy%vals_lookup Hz Hneg Hn Hf.
  destruct (wp_Ok_inv (mpz_rootrem fuel (Some x) (Some r) y z) (λ _ s', ∃ R, is_root z (Z.abs v) R ∧ zok F s' (vals (<[x := Z.sgn v * R]> (<[r := v - (Z.sgn v * R) ^ z]> σ)))) s)
    as ([] & s' & E1 & R & HR & Hok').
  { eapply wp_mpz_rootrem; try done; [by exists wx|by exists wr|intros i [= <-] [= ?]; by apply Hne|]. intros s' R HR Hok'. exists R. split; [done|]. cbn [upd] in Hok'. by rewrite !vals_insert in Hok'. }
  pose proof HR as (HR0 & HR1 & HR2). exists s', (Z.sgn v * R). assert (Z.abs (Z.sgn v * R) = R) as Habs.
  { destruct (Z.eq_dec v 0) as [->|Hv]; [|lia]. symmetry. apply (is_root_unique z 0); [lia|done|]. apply (is_root_small z 0); lia. }
  rewrite Habs. split_and!; try done. lia.
Qed.

Lemma mpz_rootrem_newton_witness :
  ∃ s s', mpz_rootrem 200 (Some 1%positive) (Some 2%positive) 1 3 s = Ok (tt, s') ∧ mpz_value s' 1 = Some (-4) ∧ mpz_value s' 2 = Some (-36).
Proof.
  destruct (demo_state (-100) 84) as [s Hs]; [done|done|]. exists s.
  destruct (mpz_rootrem_newton 200 mem0 s (demo_store (-100) 84) 1 (-100) 2 84 1 (-100) 3) as (s' & a & H1 & H2 & H3 & H4); try done.
  assert (a = -4) as ->.
  { assert (a ≤ 0) by lia. assert (Z.abs a < 5) by (destruct (Z.lt_ge_cases (Z.abs a) 5); [done|]; assert (5 ^ 3 ≤ Z.abs a ^ 3) by (apply Z.pow_le_mono_l; lia); lia).
    destruct (Z.lt_ge_cases 3 (Z.abs a)); [lia|]. assert ((Z.abs a + 1) ^ 3 ≤ 4 ^ 3) by (apply Z.pow_le_mono_l; lia). lia. }
  exists s'. split_and!; [done|..]; (eapply mpz_value_ok; [exact H2|reflexivity]).
Defined.

(** C11: [mpz_gcdext] ends and gives the greatest common divisor with cofactors [p] and [q],
    [p u + q v = g].  Unless an operand is 0 the cofactors are at most the other operand
    divided by [g].  The results may be the operands. *)
Theorem mpz_gcdext_bezout F s σ g w a wa b wb u x v y :
  zok F s (vals σ) → σ !! g = Some w → σ !! a = Some wa → σ !! b = Some wb → a ≠ b → a ≠ g → b ≠ g → σ !! u = Some x → σ !! v = Some y →
  nlimbs x + 1 < INT_MAX → nlimbs y + 1 < INT_MAX →
  ∃ s' p q, mpz_gcdext g (Some a) (Some b) u v s = Ok (tt, s') ∧ zok F s' (vals (<[g := Z.gcd x y]> (<[a := p]> (<[b := q]> σ)))) ∧
    p * x + q * y = Z.gcd x y ∧ (x ≠ 0 → y ≠ 0 → Z.abs p * Z.gcd x y ≤ Z.abs y ∧ Z.abs q * Z.gcd x y ≤ Z.abs x).
Proof.
  intros Hok Hg%vals_lookup Ha%vals_lookup Hb%vals_lookup Hab Hag Hbg Hu%vals_lookup Hv%vals_lookup Hx Hy.
  destruct (wp_Ok_inv (mpz_gcdext g (Some a) (Some b) u v) (λ _ s', ∃ p q, bezout x y p q ∧ zok F s' (vals (<[g := Z.gcd x y]> (<[a := p]> (<[b := q]> σ))))) s)
    as ([] & s' & E1 & p & q & Hbz & Hok').
  { eapply wp_mpz_gcdext; try done; [by exists wa|by exists wb|intros i [= <-] [= ?]; by apply Hab|]. intros s' p q Hbz Hok'. exists p, q. split; [done|]. cbn [upd] in Hok'.
    rewrite <- !vals_insert. same_store Hok'. }
  by exists s', p, q.
Qed.

Lemma mpz_gcdext_bezout_witness :
  ∃ s s' p q, mpz_gcdext 1 (Some 3%positive) (Some 4%positive) 1 2 s = Ok (tt, s') ∧ mpz_value s' 1 = Some 12 ∧ mpz_value s' 3 = Some p ∧ mpz_value s' 4 = Some q ∧ p * -120 + q * 84 = 12.
Proof.
  destruct (demo_state (-120) 84) as [s Hs]; [done|done|]. exists s.
  destruct (mpz_gcdext_bezout mem0 s (demo_store (-120) 84) 1 (-120) 3 0 4 0 1 (-120) 2 84) as (s' & p & q & H1 & H2 & H3 & _); try done.
  exists s', p, q. split_and!; try done; (eapply mpz_value_ok; [exact H2|reflexivity]).
Defined.

(** C40: [mpz_invert] tells exactly whether there is an inverse (for a modulus of absolute value
    at least 2 and an operand that is not 0), and then gives the one between 0 and the
    absolute value of the modulus; otherwise the result variable keeps its number. *)
Theorem mpz_invert_correct F s σ r w u x m y :
  zok F s (vals σ) → σ !! r = Some w → σ !! u = Some x → σ !! m = Some y → nlimbs x + 1 < INT_MAX → nlimbs y + 1 < INT_MAX →
  ∃ s' ok v, mpz_invert r u m s = Ok (ok, s') ∧ zok F s' (vals (<[r := v]> σ)) ∧
    (ok = true ↔ x ≠ 0 ∧ 1 < Z.abs y ∧ Z.gcd x y = 1) ∧ (if ok then 0 < v < Z.abs y ∧ (y | v * x - 1) else v = w).
Proof.
  intros Hok Hr Hu%vals_lookup Hm%vals_lookup Hx Hy. pose proof Hr as Hr'%vals_lookup. remember (bool_decide (x ≠ 0 ∧ 1 < Z.abs y ∧ Z.gcd x y = 1)) as inv eqn:Einv.
  destruct (wp_Ok_inv (mpz_invert r u m) (λ ok s', ok = inv ∧ if inv then ∃ v, is_inverse x y v ∧ zok F s' (vals (<[r := v]> σ)) else zok F s' (vals σ)) s) as (ok & s' & E1 & -> & HR).
  { eapply wp_mpz_invert; try done. rewrite <- Einv. intros s' HR. split; [done|]. destruct inv; [|done]. destruct HR as (v & Hv & Hok'). exists v. by rewrite vals_insert in Hok'. }
  symmetry in Einv. destruct inv; [apply bool_decide_eq_true in Einv|apply bool_decide_eq_false in Einv].
  - destruct HR as (v & Hv & Hok'). by exists s', true, v.
  - exists s', false, w. by rewrite insert_id by done.
Qed.

Lemma mpz_invert_correct_witness : ∃ s s' v, mpz_invert 1 1 2 s = Ok (true, s') ∧ mpz_value s' 1 = Some v ∧ (-26 | v * 7 - 1).
Proof.
  destruct (demo_state 7 (-26)) as [s Hs]; [done|done|]. exists s.
  destruct (mpz_invert_correct mem0 s (demo_store 7 (-26)) 1 7 1 7 2 (-26)) as (s' & ok & v & H1 & H2 & H3 & H4); try done.
  assert (ok = true) as -> by (by apply H3). exists s', v. split_and!; [done| |apply H4]. eapply mpz_value_ok; [exact H2|reflexivity].
Defined.

(** C10: [mpz_powm] ends and computes powers modulo [m], for operands of any sign and any
    aliasing of them.  A positive exponent gives the remainder of the power, a negative one
    the power of the inverse, or the end of the program if there is none; the copy of the
    modulus that it shifts is freed. *)
Theorem mpz_powm_correct F s σ r w b x e n m y :
  zok F s (vals σ) → σ !! r = Some w → σ !! b = Some x → σ !! e = Some n → σ !! m = Some y → y ≠ 0 → nlimbs x + 1 < INT_MAX → 3 * nlimbs y ≤ INT_MAX →
  if (n <? 0) && negb (invertible x y) then mpz_powm r b e m s = Err (Killed SIGABRT)
  else ∃ s' v, mpz_powm r b e m s = Ok (tt, s') ∧ zok F s' (vals (<[r := v]> σ)) ∧
    (0 < n → v = x ^ n mod Z.abs y) ∧ (n = 0 → v = 1) ∧ (n < 0 → 0 ≤ v < Z.abs y ∧ (y | v * x ^ (- n) - 1)).
Proof.
  intros Hok Hr%vals_lookup Hb%vals_lookup He%vals_lookup Hm%vals_lookup Hy Hx Hfit.
  assert (wp (mpz_powm r b e m) (λ _ s', ∃ v, (if n =? 0 then v = 1 else powm_result x y n v) ∧ zok F s' (vals (<[r := v]> σ)))
    (λ err, err = Killed SIGABRT ∧ n < 0 ∧ invertible x y = false) s) as Hwp.
  { eapply wp_mpz_powm; try done. intros s' v Hv Hok'. exists v. by rewrite vals_insert in Hok'. }
  unfold wp in Hwp. destruct (mpz_powm r b e m s) as [[[] s']|err].
  - destruct Hwp as (v & Hv & Hok').
    assert (n < 0 → 0 ≤ v < Z.abs y ∧ (y | v * x ^ (- n) - 1) ∧ invertible x y = true) as Hneg.
    { intros Hn. rewrite (proj2 (Z.eqb_neq n 0)) in Hv by lia. destruct Hv as (B & HB & ->). unfold powm_base_of in HB. rewrite (proj2 (Z.ltb_lt n 0)) in HB by done.
      rewrite Z.abs_neq by lia. split; [apply Z.mod_pos_bound; lia|]. split; [apply inverse_power; [lia|done]|by eapply inverse_invertible]. }
    assert ((n <? 0) && negb (invertible x y) = false) as ->.
    { destruct (Z.ltb_spec n 0) as [Hn|]; [|done]. destruct (Hneg Hn) as (_ & _ & ->). done. }
    exists s', v. split_and!; try done; [|by intros ->|intros Hn; destruct (Hneg Hn) as (H1 & H2 & _); done].
    intros Hn. rewrite (proj2 (Z.eqb_neq n 0)) in Hv by lia. apply powm_result_nonneg; [lia|done].
  - destruct Hwp as (-> & Hn & ->). by rewrite (proj2 (Z.ltb_lt n 0)) by done.
Qed.

Lemma mpz_powm_correct_witness : ∃ s s' v, mpz_powm 1 1 1 2 s = Ok (tt, s') ∧ mpz_value s' 1 = Some v ∧ v = 12 ^ 12 mod 1001.
Proof.
  destruct (demo_state 12 (-1001)) as [s Hs]; [done|done|]. exists s.
  assert (0 < 12) as Hpos by done.
  pose proof (mpz_powm_correct mem0 s (demo_store 12 (-1001)) 1 12 1 12 1 12 2 (-1001) Hs eq_refl eq_refl eq_refl eq_refl ltac:(done) ltac:(done) ltac:(done)) as H.
  rewrite (proj2 (Z.ltb_ge 12 0)) in H by done. cbn [andb] in H. destruct H as (s' & v & H1 & H2 & H3 & _).
  exists s', v. split_and!; [exact H1| |exact (H3 Hpos)]. eapply mpz_value_ok; [exact H2|reflexivity].
Defined.

(** ** Finding and counting bits *)

(** What a scan of [X] finds, in terms of bits *)
Lemma scan_result_bits X b r : 0 ≤ b → scan_result X b r → first_bit X true b r ∨ r = GMP_LIMB_MAX ∧ ∀ j, b ≤ j → Z.testbit X j = false.
Proof.
  intros Hb. unfold scan_result. destruct (Z.eqb_spec (X / 2 ^ b) 0) as [E|]; [|by left]. intros ->. right. split; [done|]. intros j Hj.
  replace j with (j - b + b) by lia. rewrite <- Z.div_pow2_bits, E by lia. apply Z.bits_0.
Qed.

(** C21: [mpz_scan1] and [mpz_scan0] return the first position from the given one on where
    the integer, a two's complement number of unlimited length whatever its sign, has a set
    or a clear bit, and the largest value of the type exactly when there is none; the limbs
    they read are those of the integer, and nothing changes. *)
Theorem mpz_scan_finds_bits F s σ u x b :
  zok F s (vals σ) → σ !! u = Some x → 0 ≤ b ≤ GMP_LIMB_MAX →
  ∀ t : bool, ∃ r, (if t then mpz_scan1 u b else mpz_scan0 u b) s = Ok (r, s) ∧
    (first_bit x t b r ∨ r = GMP_LIMB_MAX ∧ ∀ j, b ≤ j → Z.testbit x j = negb t).
Proof.
  intros Hok Hu%vals_lookup [Hb _] t. set (X := if t then x else Z.lnot x).
  assert (∀ j, 0 ≤ j → Z.testbit X j = if t then Z.testbit x j else negb (Z.testbit x j)) as HX by (intros j Hj; unfold X; destruct t; [done|by apply Z.lnot_spec]).
  assert (wp (if t then mpz_scan1 u b else mpz_scan0 u b) (λ r s', scan_result X b r ∧ s' = s) (λ _, False) s) as Hwp.
  { unfold X. destruct t; [eapply wp_mpz_scan1|eapply wp_mpz_scan0]; done. }
  apply wp_Ok_inv in Hwp as (r & s' & E & Hr & ->). exists r. split; [done|]. apply scan_result_bits in Hr as [(H1 & H2 & H3)|[-> H]]; [left|right|done].
  - split; [done|]. rewrite HX in H2 by lia. split; [destruct t; [done|by apply negb_true_iff]|]. intros j Hj. specialize (H3 j Hj). rewrite HX in H3 by lia. destruct t; [done|by apply negb_false_iff].
  - split; [done|]. intros j Hj. specialize (H j Hj). rewrite HX in H by lia. destruct t; [done|by apply negb_false_iff].
Qed.

Lemma mpz_scan_finds_bits_witness : ∃ s, mpz_scan1 1 2 s = Ok (3, s) ∧ mpz_scan0 1 3 s = Ok (GMP_LIMB_MAX, s).
Proof.
  destruct (demo_state (-8) 3) as [s Hs]; [done|done|]. exists s.
  assert (∀ j, 3 ≤ j → Z.testbit (-8) j = true) as Hone.
  { intros j Hj. replace (-8) with (-1 * 2 ^ 3) by done. rewrite Z.mul_pow2_bits by lia. apply Z.bits_m1. lia. }
  split.
  - destruct (mpz_scan_finds_bits mem0 s (demo_store (-8) 3) 1 (-8) 2 Hs eq_refl ltac:(done) true) as (r & E & Hr). rewrite E. do 2 f_equal.
    destruct Hr as [(H1 & H2 & H3)|[_ Hr]]; [|discriminate (Hr 3 ltac:(lia))]. destruct (Z.lt_trichotomy r 3) as [Hlt|[->|Hgt]]; [|done|by discriminate (H3 3 ltac:(lia))].
    replace r with 2 in H2 by lia. discriminate H2.
  - destruct (mpz_scan_finds_bits mem0 s (demo_store (-8) 3) 1 (-8) 3 Hs eq_refl ltac:(done) false) as (r & E & Hr). rewrite E. do 2 f_equal.
    destruct Hr as [(H1 & H2 & _)|[-> _]]; [|done]. rewrite Hone in H2 by done. discriminate H2.
Defined.

(** C22: [mpz_popcount] returns the number of ones of an integer that is not negative, and
    the largest value of the type for a negative one, which has infinitely many;
    [mpz_hamdist] returns the number of positions where two integers of the same sign
    differ in two's complement, and the largest value for integers of different signs. *)
Theorem mpz_popcount_hamdist F s σ u x v y :
  zok F s (vals σ) → σ !! u = Some x → σ !! v = Some y →
  mpz_popcount u s = Ok (if x <? 0 then GMP_LIMB_MAX else ones x, s) ∧
  mpz_hamdist u v s = Ok (if xorb (x <? 0) (y <? 0) then GMP_LIMB_MAX else ones (Z.lxor x y), s).
Proof.
  intros Hok Hu%vals_lookup Hv%vals_lookup. split.
  - destruct (wp_Ok_inv (mpz_popcount u) (λ r s', r = (if x <? 0 then GMP_LIMB_MAX else ones x) ∧ s' = s) s) as (? & ? & E & -> & ->); [|done]. by eapply wp_mpz_popcount.
  - destruct (wp_Ok_inv (mpz_hamdist u v) (λ r s', r = (if xorb (x <? 0) (y <? 0) then GMP_LIMB_MAX else ones (Z.lxor x y)) ∧ s' = s) s) as (? & ? & E & -> & ->); [|done].
    by eapply wp_mpz_hamdist.
Qed.

Lemma mpz_popcount_hamdist_witness : ∃ s, mpz_popcount 2 s = Ok (3, s) ∧ mpz_popcount 1 s = Ok (GMP_LIMB_MAX, s) ∧ mpz_hamdist 1 1 s = Ok (0, s).
Proof.
  destruct (demo_state (-8) 7) as [s Hs]; [done|done|]. exists s.
  destruct (mpz_popcount_hamdist mem0 s (demo_store (-8) 7) 1 (-8) 1 (-8) Hs eq_refl eq_refl) as [H1 H2].
  destruct (mpz_popcount_hamdist mem0 s (demo_store (-8) 7) 2 7 1 (-8) Hs eq_refl eq_refl) as [H3 _]. done.
Defined.
