(* ===== verification/MpzPrime.v ===== *)
(** * Powers with small exponents and the primality test: correctness

    [mpz_powm_ui] gives [mpz_powm] a read-only exponent that points to a limb of its own
    frame.  [mpz_probab_prime_p] runs the test of Miller and Rabin with fixed bases. *)

From S2P Require Import Prelude CString Queue State UInt64 Mpn MpnMem MpnThm MpnBits MpnDiv MpnInv MpnDivThm MpnDivPi1 MpnCorrect MpnDivQr MpnPreinv MpnStr MpnStrThm MpnSetStr Mpz MpzRep MpzLocals MpzArith MpzMul MpzDiv MpzConv MpzQuo MpzQuoThm MpzBits MpzNum MpzFrame MpzNumThm MpzPow MpzBitsThm MpzBitThm MpzScan MpzStr MpzStrThm MpzRoot MpzGcdext MpzPowm Primes MpzCorrect.

(** ** Powers with a small exponent *)

Section powm_ui.
Context (F : mem).
Implicit Types (s : zstate) (σ : gmap positive (option Z)).

Lemma wp_mpz_powm_ui s σ r w b m x y ev Q E :
  zok F s σ → σ !! r = Some (Some w) → σ !! b = Some (Some x) → word ev → σ !! m = Some (Some y) → y ≠ 0 → nlimbs x + 1 < INT_MAX → 3 * nlimbs y ≤ INT_MAX →
  (∀ s', zok F s' (<[r := Some (if ev =? 0 then 1 else x ^ ev mod Z.abs y)]> σ) → Q tt s') → wp (mpz_powm_ui r b ev m) Q E s.
Proof.
  intros Hok Hr Hb Hev Hm Hy Hnx Hfit HQ. pose proof (proj1 Hev) as Hev0. unfold mpz_powm_ui. apply wp_bind. eapply (wp_local_stays F); [done|]. intros e s1 He Hen _ Hok1.
  eapply (wp_roinit_limb F _ s1 σ e ev); try done. intros F' s2 ze le Hok2 Hst Hw Hn Hv Hsz Hh.
  eapply (wp_mpz_powm_at F' s2 σ r w b m e x y ev ze le); try done; [|lia|].
  - split_and!; try done; [lia| |by right]. rewrite Hsz. destruct (Z.eq_dec ev 0) as [->|]; [done|]. rewrite Z.sgn_pos; lia.
  - intros s3 v Hv3 Hok3. eexists. split; [exact Hok3|]. intros s4 Hok4. apply HQ. replace v with (if ev =? 0 then 1 else x ^ ev mod Z.abs y) in Hok4; [done|].
    destruct (ev =? 0); [done|]. symmetry. by apply powm_result_nonneg.
Qed.
End powm_ui.

(** ** The test of Miller and Rabin *)

Lemma cmp_is_zero a b : (cmp_result (a ?= b) =? 0) = (a =? b).
Proof. destruct (Z.compare_spec a b) as [->|H|H]; cbn; [by rewrite Z.eqb_refl|..]; symmetry; apply Z.eqb_neq; lia. Qed.
Lemma cmp_le_zero a b : (cmp_result (a ?= b) <=? 0) = (a <=? b).
Proof. destruct (Z.compare_spec a b) as [->|H|H]; cbn; symmetry; [apply Z.leb_le|apply Z.leb_le|apply Z.leb_gt]; lia. Qed.
Lemma cmp_ge_zero a b : (0 <=? cmp_result (a ?= b)) = (b <=? a).
Proof. destruct (Z.compare_spec a b) as [->|H|H]; cbn; symmetry; [apply Z.leb_le|apply Z.leb_gt|apply Z.leb_le]; lia. Qed.
Lemma cmp_lt_zero a b : (cmp_result (a ?= b) <? 0) = (a <? b).
Proof. destruct (Z.compare_spec a b) as [->|H|H]; cbn; symmetry; [apply Z.ltb_ge|apply Z.ltb_lt|apply Z.ltb_ge]; lia. Qed.

(** All the bases pass. *)
Definition base_of (j : Z) : Z := j * j + j + 41.
Fixpoint bases_pass (reps : nat) (j p q k : Z) : bool :=
  match reps with
  | O => true
  | S reps => if p - 1 <=? base_of j then true else strong_test p q k (base_of j) && bases_pass reps (j + 1) p q k
  end.

Lemma bases_pass_spec p q k reps : ∀ j, 0 ≤ j →
  bases_pass reps j p q k = true ↔ ∀ i, j ≤ i < j + Z.of_nat reps → base_of i < p - 1 → strong_test p q k (base_of i) = true.
Proof.
  induction reps as [|reps IH]; intros j Hj; cbn [bases_pass]; [split; [intros _ i Hi; lia|done]|]. destruct (Z.leb_spec (p - 1) (base_of j)) as [Hle|Hlt].
  - split; [intros _|done]. intros i Hi Hb. exfalso. unfold base_of in *. nia.
  - rewrite andb_true_iff, IH by lia. split.
    + intros [H1 H2] i Hi Hb. destruct (Z.eq_dec i j) as [->|]; [done|]. apply H2; [lia|done].
    + intros H. split; [apply H; [lia|done]|]. intros i Hi Hb. apply H; [lia|done].
Qed.

Section prime.
Context (F : mem).
Implicit Types (s : zstate) (σ : gmap positive (option Z)).

Section bases.
Context (n nm1 y q : mpz_t) (x qv k : Z) (σ : gmap positive (option Z)) (Hyn : y ≠ n) (Hym : y ≠ nm1) (Hyq : y ≠ q).
Context (Hn : σ !! n = Some (Some x)) (Hnm1 : σ !! nm1 = Some (Some (Z.abs x - 1))) (Hq : σ !! q = Some (Some qv)) (Hx : 961 ≤ Z.abs x) (Hqv : 0 < qv) (Hk : 0 < k) (Hfit : 3 * nlimbs x ≤ INT_MAX).

Lemma wp_millerrabin_loop i : ∀ s v Q E,
  zok F s (<[y := Some v]> σ) → 0 ≤ v < Z.abs x → (∀ s' v', zok F s' (<[y := Some v']> σ) → Q (strong_pass i v (Z.abs x)) s') → wp (millerrabin_loop i n nm1 y) Q E s.
Proof.
  induction i as [|i IH]; intros s v Q E Hok Hv HQ; cbn [millerrabin_loop strong_pass] in *; [by eapply wp_ret, HQ|].
  assert (nlimbs v ≤ nlimbs x) by (apply nlimbs_le; lia). pose proof (nlimbs_pos x ltac:(lia)).
  apply wp_bind. eapply (wp_mpz_powm_ui F s _ y v y n v x 2); [done|by simplify_map_eq..| |by simplify_map_eq|lia|unfold INT_MAX in *; lia|done|]; [done|]. intros s1. rewrite insert_insert_eq. change (2 =? 0) with false. cbv iota. intros Hok1.
  set (v' := v ^ 2 mod Z.abs x) in *. pose proof (Z.mod_pos_bound (v ^ 2) (Z.abs x) ltac:(lia)) as Hv'. fold v' in Hv'.
  apply wp_bind. eapply (wp_mpz_cmp F s1 _ y v' nm1); [done|by simplify_map_eq..|]. rewrite cmp_is_zero. destruct (v' =? Z.abs x - 1); [by eapply wp_ret, HQ|].
  apply wp_bind. eapply (wp_mpz_cmp_ui F s1 _ y v' 1); [done|by simplify_map_eq|done|]. rewrite cmp_le_zero. destruct (v' <=? 1); [by eapply wp_ret, HQ|]. by eapply IH.
Qed.

Lemma wp_gmp_millerrabin s a Q E :
  zok F s (<[y := Some a]> σ) → 0 ≤ a < Z.abs x → (∀ s' v', zok F s' (<[y := Some v']> σ) → Q (strong_test (Z.abs x) qv k a) s') → wp (gmp_millerrabin n nm1 y q k) Q E s.
Proof.
  intros Hok Ha HQ. unfold gmp_millerrabin, strong_test in *. apply wp_bind, wp_zassert; [by apply Z.ltb_lt|]. assert (nlimbs a ≤ nlimbs x) by (apply nlimbs_le; lia). pose proof (nlimbs_pos x ltac:(lia)).
  apply wp_bind. eapply (wp_mpz_powm F s _ y a y n q a x qv); [done|by simplify_map_eq..|lia|unfold INT_MAX in *; lia|done|lia|]. intros s1 v Hv0. rewrite insert_insert_eq. intros Hok1.
  rewrite (proj2 (Z.eqb_neq qv 0)) in Hv0 by lia. apply powm_result_nonneg in Hv0; [subst v|lia].
  set (v := a ^ qv mod Z.abs x) in *. pose proof (Z.mod_pos_bound (a ^ qv) (Z.abs x) ltac:(lia)) as Hv. fold v in Hv.
  apply wp_bind. eapply (wp_mpz_cmp_ui F s1 _ y v 1); [done|by simplify_map_eq|done|]. rewrite cmp_is_zero. apply wp_bind. destruct (v =? 1); [by eapply wp_ret, wp_ret, HQ|].
  eapply (wp_mpz_cmp F s1 _ y v nm1); [done|by simplify_map_eq..|]. rewrite cmp_is_zero. destruct (v =? Z.abs x - 1); [by eapply wp_ret, HQ|]. by eapply wp_millerrabin_loop.
Qed.

Lemma wp_bases_loop reps : ∀ s j v Q E,
  zok F s (<[y := Some v]> σ) → 0 ≤ j → j + Z.of_nat reps ≤ INT_MAX + 1 → (∀ s' v', zok F s' (<[y := Some v']> σ) → Q (bases_pass reps j (Z.abs x) qv k) s') →
  wp (bases_loop reps j n nm1 y q k) Q E s.
Proof.
  induction reps as [|reps IH]; intros s j v Q E Hok Hj Hle HQ; cbn [bases_loop bases_pass] in *; [by eapply wp_ret, HQ|]. unfold INT_MAX in Hle.
  rewrite (u64_small (j * j)), (u64_small (j * j + j)), u64_small by (unfold WB; nia). fold (base_of j).
  apply wp_bind. eapply (wp_mpz_set_ui F s _ y v); [done|by simplify_map_eq|unfold base_of, WB; nia|]. intros s1. rewrite insert_insert_eq. intros Hok1.
  apply wp_bind. eapply (wp_mpz_cmp F s1 _ y (base_of j) nm1); [done|by simplify_map_eq..|]. rewrite cmp_ge_zero. destruct (Z.leb_spec (Z.abs x - 1) (base_of j)) as [Hge|Hlt].
  - apply wp_bind, wp_zassert; [apply Z.leb_le; unfold base_of in Hge; nia|]. by eapply wp_ret, HQ.
  - apply wp_bind. eapply wp_gmp_millerrabin; [done|unfold base_of in *; nia|]. intros s2 v2 Hok2. destruct (strong_test _ _ _ _); cbn [andb] in HQ; [|by eapply wp_ret, HQ].
    eapply IH; try done; unfold INT_MAX; lia.
Qed.
End bases.

(** ** The whole test *)

(** The values for numbers below 961: 2 for a prime, 0 for the others *)
Definition small_ok (n : Z) : bool :=
  if Z.even n then Bool.eqb (is_prime n) (n =? 2)
  else if n <? 64 then Z.land (Z.shiftr GMP_PRIME_MASK (Z.shiftr n 1)) 2 =? (if is_prime n then 2 else 0)
  else Bool.eqb (is_prime n) (Z.gcd n GMP_PRIME_PRODUCT =? 1).
Lemma small_table : forallb small_ok (seqZ 0 961) = true.
Proof. vm_compute. reflexivity. Qed.
Lemma small_ok_below n : 0 ≤ n < 961 → small_ok n = true.
Proof. intros Hn. pose proof small_table as H. rewrite forallb_forall in H. apply H, list_elem_of_In, elem_of_seqZ. lia. Qed.

Definition prime_result (x reps r : Z) : Prop :=
  if Z.abs x <? 961 then r = (if is_prime (Z.abs x) then 2 else 0)
  else if Z.odd x && (Z.gcd x GMP_PRIME_PRODUCT =? 1) then
    ∃ q k, 0 < q ∧ 0 < k ∧ Z.abs x - 1 = q * 2 ^ k ∧ Z.odd q = true ∧ r = b2z (bases_pass (Z.to_nat reps) 0 (Z.abs x) q k)
  else r = 0.

Lemma odd_abs x : Z.odd (Z.abs x) = Z.odd x.
Proof. by destruct x. Qed.

(** What the position of the lowest bit says *)
Lemma first_bit_split N k : 0 < N → first_bit N true 0 k → N = N / 2 ^ k * 2 ^ k ∧ Z.odd (N / 2 ^ k) = true ∧ 0 < N / 2 ^ k.
Proof.
  intros HN (Hk & Ht & Hlow). assert (N mod 2 ^ k = 0) as Hz.
  { apply Z.bits_inj'. intros i Hi. rewrite Z.bits_0. destruct (Z.lt_ge_cases i k); [rewrite Z.mod_pow2_bits_low by done; apply Hlow; lia|apply Z.mod_pow2_bits_high; lia]. }
  pose proof (Z.pow_pos_nonneg 2 k ltac:(lia) Hk). pose proof (Z.div_mod N (2 ^ k) ltac:(lia)). split; [lia|]. split; [|nia].
  rewrite <- Z.bit0_odd, Z.div_pow2_bits by lia. by rewrite Z.add_0_l.
Qed.

(** The part with the local variables *)
Lemma wp_prime_bases s σ n x reps Q E :
  zok F s σ → σ !! n = Some (Some x) → 961 ≤ Z.abs x → Z.odd x = true → 3 * nlimbs x ≤ INT_MAX → reps ≤ INT_MAX →
  (∀ s' q k, 0 < q → 0 < k → Z.abs x - 1 = q * 2 ^ k → Z.odd q = true → zok F s' σ → Q (b2z (bases_pass (Z.to_nat reps) 0 (Z.abs x) q k)) s') →
  wp (nm1 ← local_mpz; q ← local_mpz; y ← local_mpz;
      _ ← mpz_init nm1; _ ← mpz_init q; _ ← mpz_init y;
      sz ← mpz_abs_sub_ui nm1 n 1; _ ← set_size nm1 sz;
      k ← mpz_scan1 nm1 0; _ ← mpz_tdiv_q_2exp q nm1 k;
      is_prime ← bases_loop (Z.to_nat reps) 0 n nm1 y q k;
      _ ← mpz_clear nm1; _ ← mpz_clear q; _ ← mpz_clear y; mret (b2z is_prime)) Q E s.
Proof.
  intros Hok Hn Hx Hodd Hfit Hreps HQ. pose proof (nlimbs_pos x ltac:(lia)) as Hnp. apply declared_nil in Hok.
  apply wp_bind. eapply wp_declare; [exact Hok|]. clear Hok. intros nm1 s1 Hok. apply wp_bind. eapply wp_declare; [exact Hok|]. clear Hok. intros q s2 Hok.
  apply wp_bind. eapply wp_declare; [exact Hok|]. clear Hok. intros y s3 (Hok & Hf & Hlt). cbn [app] in *.
  apply wp_bind. eapply (wp_init_local F s3 σ [] [] nm1 [q; y]); [done|done|done|done|]. cbn [app]. clear Hok Hlt. intros s4 Hlt Hok.
  apply wp_bind. eapply (wp_init_local F s4 σ [nm1] [0] q [y]); [done|done|done|done|]. cbn [app]. clear Hok Hlt. intros s5 Hlt Hok.
  apply wp_bind. eapply (wp_init_local F s5 σ [nm1; q] [0; 0] y []); [done|done|done|done|]. cbn [app]. clear Hok Hlt. intros s6 Hlt Hok.
  assert (y ≠ n ∧ y ≠ nm1 ∧ y ≠ q) as (Hyn & Hym & Hyq).
  { pose proof Hf as [Hnd _]. pose proof (fresh_other _ _ n _ Hf Hn) as Hin. split_and!; intros ->; [apply Hin|apply NoDup_cons in Hnd as [Hnd _]; apply Hnd|apply NoDup_cons in Hnd as [_ [Hnd _]%NoDup_cons]; apply Hnd]; set_solver. }
  apply wp_bind. eapply (wp_mpz_abs_sub_ui F s6 _ nm1 0 n x 1); [done|local_var|local_var|done|lia|]. intros l sz s7 Hwr Hl Hv. apply wp_bind.
  eapply (wp_set_size_written F s6 s7 _ nm1 l sz (Z.abs x - 1)); [done|done|done|]. clear Hok. intros s8 Hok. local_set Hok.
  apply wp_bind. eapply (wp_mpz_scan1 F s8 _ nm1 (Z.abs x - 1) 0); [done|local_var|done|]. intros k Hk. unfold scan_result in Hk. change (2 ^ 0) with 1 in Hk. rewrite Z.div_1_r, (proj2 (Z.eqb_neq _ 0)) in Hk by lia.
  destruct (first_bit_split (Z.abs x - 1) k ltac:(lia) Hk) as (Hqk & Hqo & Hq0). set (qv := (Z.abs x - 1) / 2 ^ k) in *.
  assert (0 < k) as Hk0. { destruct Hk as (Hk & Ht & _). destruct (Z.eq_dec k 0) as [->|]; [|lia]. rewrite Z.bit0_odd, Z.sub_1_r, Z.odd_pred, <- Z.negb_odd, odd_abs, Hodd in Ht. done. }
  assert (nlimbs (Z.abs x - 1) ≤ nlimbs x) by (apply nlimbs_le; lia). pose proof (Z.pow_pos_nonneg 2 k ltac:(lia) ltac:(lia)).
  apply wp_bind. eapply (wp_mpz_div_q_2exp F s8 _ q 0 nm1 (Z.abs x - 1) k); [done|local_var|local_var|lia|unfold INT_MAX in *; lia|]. clear Hok. intros s9 Hok. local_set Hok.
  cbn [div_round fst] in Hok. rewrite Z.quot_div_nonneg in Hok by lia. fold qv in Hok.
  apply wp_bind. eapply (wp_bases_loop n nm1 y q x qv k (locals [nm1; q; y] [Z.abs x - 1; qv; 0] σ)) with (v := 0); try done; try local_var; try (unfold INT_MAX in *; lia).
  { rewrite (locals_set 2) by (done || (cbn; lia)). exact Hok. }
  clear Hok. intros s10 v Hok. local_set Hok.
  do 3 (apply wp_bind; eapply wp_clear_local; [exact Hf|exact Hok|]; clear Hok; intros ? Hok; apply fresh_tail in Hf). apply wp_ret. by eapply HQ.
Qed.

Lemma wp_mpz_probab_prime_p s σ n x reps Q E :
  zok F s σ → σ !! n = Some (Some x) → 3 * nlimbs x ≤ INT_MAX → reps ≤ INT_MAX → (∀ s' r, prime_result x reps r → zok F s' σ → Q r s') → wp (mpz_probab_prime_p n reps) Q E s.
Proof.
  intros Hok Hn Hfit Hreps HQ. unfold prime_result in HQ. pose proof (nlimbs_nonneg x). pose proof (small_ok_below (Z.abs x)) as Hsmall. unfold small_ok in Hsmall.
  assert (Z.even (Z.abs x) = negb (Z.odd x)) as Hev by (rewrite <- Z.negb_odd, odd_abs; done). rewrite Hev in Hsmall.
  unfold mpz_probab_prime_p, mpz_even_p. apply wp_bind, wp_bind. eapply wp_mpz_odd_p; [done|done|]. apply wp_ret. destruct (Z.odd x) eqn:Hodd; cbn [negb andb] in *; [|clear Hev].
  2: { apply wp_bind. eapply wp_mpz_cmpabs_ui; [done|done|done|]. rewrite cmp_is_zero. apply wp_ret, HQ; [|done]. destruct (Z.ltb_spec (Z.abs x) 961); [|by rewrite (proj2 (Z.eqb_neq _ 2)) by lia].
    specialize (Hsmall ltac:(lia)). apply Bool.eqb_prop in Hsmall. by rewrite Hsmall. }
  assert (x ≠ 0) as Hx0 by (by intros ->). destruct (zok_operand F s σ n x Hok Hn) as (z & _ & Hz & _ & _ & _ & _ & _ & Hsz & _). apply wp_bind. eapply wp_get_mpz; [done|].
  apply wp_bind, wp_zassert. { rewrite Hsz, size_zero. by rewrite (proj2 (Z.eqb_neq x 0)). }
  apply wp_bind. eapply wp_mpz_cmpabs_ui; [done|done|done|]. rewrite cmp_lt_zero. destruct (Z.ltb_spec (Z.abs x) 64) as [H64|H64].
  { apply wp_bind. eapply wp_low_limb; [done|done|done|done|]. rewrite Z.mod_small by (unfold WB; lia). apply wp_ret, HQ; [|done]. rewrite (proj2 (Z.ltb_lt _ 961)) by lia. specialize (Hsmall ltac:(lia)). by apply Z.eqb_eq. }
  apply wp_bind. eapply (wp_mpz_gcd_ui F s σ None n x); [done|done|done|done|unfold INT_MAX in *; lia|]. clear Hok. intros s1 Hok. cbn [upd] in Hok. change (GMP_PRIME_PRODUCT =? 0) with false. cbv iota.
  rewrite Z.gcd_abs_l in Hsmall. destruct (Z.gcd x GMP_PRIME_PRODUCT =? 1); cbn [negb].
  2: { apply wp_ret, HQ; [|done]. destruct (Z.ltb_spec (Z.abs x) 961); [|done]. specialize (Hsmall ltac:(lia)). apply Bool.eqb_prop in Hsmall. by rewrite Hsmall. }
  apply wp_bind. eapply wp_mpz_cmpabs_ui; [done|done|done|]. rewrite cmp_lt_zero. change (31 * 31) with 961. destruct (Z.ltb_spec (Z.abs x) 961) as [Hlt|Hge].
  { apply wp_ret, HQ; [|done]. specialize (Hsmall ltac:(lia)). apply Bool.eqb_prop in Hsmall. by rewrite Hsmall. }
  eapply wp_prime_bases; try done. intros s2 q k Hq Hk Hqk Hqo Hok2. apply HQ; [|done]. by exists q, k.
Qed.
End prime.

(** A prime that is greater than 29 has no divisor among the small primes. *)
Lemma prime_no_small p : Z.prime p → 29 < p → Z.gcd p GMP_PRIME_PRODUCT = 1.
Proof.
  intros Hp Hp29. pose proof (Z.gcd_nonneg p GMP_PRIME_PRODUCT). destruct (Z.divide_prime_r _ p Hp (Z.gcd_divide_l p GMP_PRIME_PRODUCT)) as [E|[E|[E|E]]]; [lia|lia|done|].
  exfalso. pose proof (Z.gcd_divide_r p GMP_PRIME_PRODUCT) as Hd. rewrite E in Hd. unfold GMP_PRIME_PRODUCT in Hd. rewrite !Z.divide_prime_mul in Hd by done.
  repeat (destruct Hd as [Hd|Hd]; [|by apply not_divide_small in Hd; [|lia]]). apply not_divide_small in Hd; [done|lia].
Qed.

Lemma prime_result_prime x reps r : prime_result x reps r → Z.prime (Z.abs x) → 0 < r.
Proof.
  intros Hr Hp. unfold prime_result in Hr. pose proof (proj2 (is_prime_spec _) Hp) as Hb. destruct (Z.ltb_spec (Z.abs x) 961) as [Hlt|Hge]; [rewrite Hb in Hr; lia|].
  assert (Z.odd x = true) as Ho.
  { rewrite <- odd_abs. destruct (Z.odd (Z.abs x)) eqn:Ho; [done|]. exfalso. destruct Hp as [_ Hp]. apply (Hp 2); [lia|]. apply Z.mod_divide; [lia|]. by rewrite Zmod_odd, Ho. }
  rewrite <- (Z.gcd_abs_l x), prime_no_small, Ho in Hr by (done || lia). cbn in Hr. destruct Hr as (q & k & Hq & Hk & Hqk & _ & ->).
  assert (bases_pass (Z.to_nat reps) 0 (Z.abs x) q k = true) as ->; [|cbn; lia]. apply bases_pass_spec; [lia|]. intros i Hi Hlt. apply strong_test_spec; [lia..|].
  apply strong_test_prime; try done; try lia. unfold base_of in *. nia.
Qed.

(** C14: [mpz_probab_prime_p] ends for every integer and every number of rounds, leaves all
    variables as they were and frees its own, and never answers 0 for a prime.  It answers 2
    only for primes, and below 961 it decides.  From 961 on it answers 1 exactly when the
    number has no divisor among the primes up to 29 and every base [j * j + j + 41] of the
    rounds that is below [|n| - 1] passes the strong test for probable primes. *)
Theorem mpz_probab_prime_p_sound F s σ n x reps :
  zok F s (vals σ) → σ !! n = Some x → 3 * nlimbs x ≤ INT_MAX → reps ≤ INT_MAX →
  ∃ s' r, mpz_probab_prime_p n reps s = Ok (r, s') ∧ zok F s' (vals σ) ∧
    (Z.prime (Z.abs x) → 0 < r) ∧ (r = 2 → Z.prime (Z.abs x)) ∧ (Z.abs x < 961 → r = 0 ∨ r = 2) ∧
    (961 ≤ Z.abs x →
       if Z.odd x && (Z.gcd x GMP_PRIME_PRODUCT =? 1) then
         ∃ q k, 0 < k ∧ Z.abs x - 1 = q * 2 ^ k ∧ Z.odd q = true ∧ (r = 0 ∨ r = 1) ∧
           (r = 1 ↔ ∀ j, 0 ≤ j < reps → base_of j < Z.abs x - 1 → strong_probable_prime (Z.abs x) q k (base_of j))
       else r = 0).
Proof.
  intros Hok Hn%vals_lookup Hfit Hreps. destruct (wp_Ok_inv (mpz_probab_prime_p n reps) (λ r s', prime_result x reps r ∧ zok F s' (vals σ)) s) as (r & s' & E & Hr & Hok').
  { by eapply wp_mpz_probab_prime_p. }
  exists s', r. split; [done|]. split; [done|]. split; [intros Hp; by eapply prime_result_prime|]. unfold prime_result in Hr. destruct (Z.ltb_spec (Z.abs x) 961) as [Hlt|Hge].
  - pose proof (is_prime_spec (Z.abs x)) as Hp. destruct (is_prime (Z.abs x)); subst r; split_and!; (lia || by intros; apply Hp).
  - destruct (Z.odd x && _); [|subst r; split_and!; lia]. destruct Hr as (q & k & Hq & Hk & Hqk & Hqo & ->). split; [by destruct (bases_pass _ _ _ _ _)|]. split; [lia|]. intros _.
    exists q, k. split_and!; try done; [by destruct (bases_pass _ _ _ _ _); [right|left]|].
    transitivity (bases_pass (Z.to_nat reps) 0 (Z.abs x) q k = true); [by destruct (bases_pass _ _ _ _ _)|]. rewrite bases_pass_spec by lia.
    split; intros H j Hj Hb; [apply strong_test_spec; [lia..|]|apply strong_test_spec; [lia..|]]; apply H; try done; lia.
Qed.

Lemma mpz_probab_prime_p_sound_witness : ∃ s s' r, mpz_probab_prime_p 1 25 s = Ok (r, s') ∧ r = 2 ∧ Z.prime 953.
Proof.
  destruct (demo_state (-953) 7) as [s Hs]; [done|done|]. exists s. assert (Z.prime 953) as Hp by (apply is_prime_spec; vm_compute; reflexivity).
  destruct (mpz_probab_prime_p_sound mem0 s (demo_store (-953) 7) 1 (-953) 25 Hs eq_refl ltac:(done) ltac:(done)) as (s' & r & H1 & _ & H2 & _ & H3 & _).
  exists s', r. split_and!; [exact H1| |exact Hp]. specialize (H2 Hp). destruct (H3 ltac:(done)); lia.
Defined.
