(* ===== verification/MpzIOTheorems.v ===== *)
(** * Integers, bytes and files: the claims *)

From S2P Require Import Prelude CString Queue State UInt64 Mpn MpnMem MpnThm MpnBits MpnDiv MpnStr MpnStrThm Mpz MpzRep MpzNum MpzStr MpzStrThm MpzCorrect MpzIO MpzIOThm.

(** C20: [mpz_import] reads words of any number of bytes, in either order of the words and of
    the bytes in a word (or the order of the machine), as the number in which the byte of
    weight [256 ^ n] is the one at [byte_pos n]; nothing but the variable changes.  Nails are
    refused. *)
Theorem mpz_import_correct little F s σ r w count order size endian nails bs rest :
  zok F s (vals σ) → σ !! r = Some w → direction order → -1 ≤ endian ≤ 1 → 0 ≤ size < 2 ^ 62 → 0 ≤ count →
  Z.of_nat (length bs) = size * count → digits 256 bs → size * count ≤ 8 * INT_MAX →
  if nails =? 0 then
    ∃ s', mpz_import little r count order size endian nails ((Some <$> bs) ++ rest) s = Ok (tt, s') ∧
      zok F s' (vals (<[r := ldigits 256 (in_order order (byte_order little endian) size count bs)]> σ))
  else mpz_import little r count order size endian nails ((Some <$> bs) ++ rest) s = Err (Killed SIGABRT).
Proof.
  intros Hok Hr%vals_lookup Ho He Hs Hc Hlen Hd Hfit. destruct (Z.eqb_spec nails 0) as [->|Hn].
  - destruct (wp_Ok_inv (mpz_import little r count order size endian 0 ((Some <$> bs) ++ rest))
      (λ _ s', zok F s' (vals (<[r := ldigits 256 (in_order order (byte_order little endian) size count bs)]> σ))) s) as ([] & s' & E1 & Hok').
    { eapply wp_mpz_import; try done. intros s' Hok'. by rewrite vals_insert in Hok'. }
    by exists s'.
  - unfold mpz_import. by rewrite (proj2 (Z.eqb_neq nails 0)).
Qed.

(** Two words of two bytes, the most significant word first, each with its least significant
    byte first *)
Lemma mpz_import_correct_witness : ∃ s s', mpz_import true 1 2 1 2 (-1) 0 ((Some <$> [2; 1; 4; 3]) ++ []) s = Ok (tt, s') ∧ mpz_value s' 1 = Some (0x01020304).
Proof.
  destruct (demo_state 5 7) as [s Hs]; [done|done|]. exists s.
  pose proof (mpz_import_correct true mem0 s (demo_store 5 7) 1 5 2 1 2 (-1) 0 [2; 1; 4; 3] [] Hs eq_refl) as H. cbn [Z.eqb] in H.
  destruct H as (s' & H1 & H2); try done; [by left|by repeat constructor|]. exists s'. split; [done|]. eapply mpz_value_ok; [exact H2|reflexivity].
Defined.

(** C16: [mpz_export] writes the absolute value of any integer into exactly as many words as it
    needs, into a given array with enough room or a new one, and leaves the rest of the array
    alone; [mpz_import] with the same parameters reads it back.  This holds for every size of
    words, both orders of the words, both orders of bytes and that of the machine. *)
Theorem mpz_export_import_roundtrip little F s σ u x r w buf order size endian :
  zok F s (vals σ) → σ !! u = Some x → σ !! r = Some w → direction order → -1 ≤ endian ≤ 1 → 0 < size < 2 ^ 61 →
  export_room buf (size * nwords size x) → size * nwords size x ≤ 8 * INT_MAX →
  ∃ out s', mpz_export little buf (Some 0) order size endian 0 u s = Ok ((out, Some (nwords size x)), s) ∧
    drop (Z.to_nat (size * nwords size x)) (default [] out) = export_rest buf (size * nwords size x) ∧
    mpz_import little r (nwords size x) order size endian 0 (default [] out) s = Ok (tt, s') ∧ zok F s' (vals (<[r := Z.abs x]> σ)).
Proof.
  intros Hok Hu%vals_lookup Hr%vals_lookup Ho He Hs Hroom Hfit. pose proof (nwords_bounds size x ltac:(lia)) as Hnw. pose proof (nbytes_bound x) as [Hb0 Hb].
  set (n := nwords size x) in *. assert (0 ≤ n) as Hn by nia.
  assert (∃ bs rest out, mpz_export little buf (Some 0) order size endian 0 u s = Ok ((out, Some n), s) ∧ default [] out = (Some <$> bs) ++ rest ∧ rest = export_rest buf (size * n) ∧
    Z.of_nat (length bs) = size * n ∧ digits 256 bs ∧ ldigits 256 (in_order order (byte_order little endian) size n bs) = Z.abs x) as (bs & rest & out & Hexp & Hout & Hrest & Hlen & Hd & Hval).
  { destruct (Z.eq_dec x 0) as [->|Hx].
    - assert (n = 0) as -> by (unfold n, nwords; cbn; apply Z.div_small; lia). exists [], (default [] buf), buf. rewrite Z.mul_0_r. split_and!; [|done|by destruct buf; cbn; rewrite ?drop_0|done|done|unfold in_order; by rewrite Z.mul_0_r].
      destruct (wp_Ok_inv (mpz_export little buf (Some 0) order size endian 0 u) (λ o s', o = (buf, Some 0) ∧ s' = s) s) as (o & s' & E1 & -> & ->); [by eapply wp_mpz_export_0|done].
    - destruct (wp_Ok_inv (mpz_export little buf (Some 0) order size endian 0 u) (λ o s', s' = s ∧ ∃ bs, o = (Some ((Some <$> bs) ++ export_rest buf (size * n)), Some n) ∧
        Z.of_nat (length bs) = size * n ∧ digits 256 bs ∧ in_order order (byte_order little endian) size n bs = byte_of (Z.abs x) <$> seq 0 (Z.to_nat (size * n))) s)
        as ([out cnt] & s' & E1 & -> & bs & [= -> ->] & Hlen & Hd & Hbs).
      { eapply wp_mpz_export; try done. intros bs Hlen Hd Hbs. split; [done|]. by exists bs. }
      exists bs, (export_rest buf (size * n)), (Some ((Some <$> bs) ++ export_rest buf (size * n))). split_and!; try done.
      rewrite Hbs, ldigits_byte_of, Z2Nat.id by lia. apply Z.mod_small. split; [lia|]. eapply Z.lt_le_trans; [exact Hb|]. apply Z.pow_le_mono_r; lia. }
  destruct (wp_Ok_inv (mpz_import little r n order size endian 0 (default [] out)) (λ _ s', zok F s' (vals (<[r := Z.abs x]> σ))) s) as ([] & s' & E1 & Hok').
  { rewrite Hout. eapply wp_mpz_import; try done; [lia|]. rewrite Hval. intros s' Hok'. by rewrite vals_insert in Hok'. }
  exists out, s'. split_and!; try done. rewrite Hout, drop_app_length' by (rewrite length_fmap; lia). done.
Qed.

Lemma mpz_export_import_roundtrip_witness :
  ∃ s out s', mpz_export true None (Some 0) 1 3 1 0 1 s = Ok ((out, Some 2), s) ∧ mpz_import true 2 2 1 3 1 0 (default [] out) s = Ok (tt, s') ∧ mpz_value s' 2 = Some 0x0102030405.
Proof.
  destruct (demo_state (-0x0102030405) 7) as [s Hs]; [done|done|]. exists s.
  destruct (mpz_export_import_roundtrip true mem0 s (demo_store (-0x0102030405) 7) 1 (-0x0102030405) 2 7 None 1 3 1) as (out & s' & H1 & _ & H3 & H4); try done; [by left|].
  exists out, s'. split; [exact H1|]. split; [exact H3|]. eapply mpz_value_ok; [exact H4|reflexivity].
Defined.

(** [mpz_out_str] hands the numeral of any integer, in any base from 2 to 36 and in either
    case, to the stream in one call and returns what the stream answers; the integer and
    all the others are unchanged, and the text is freed. *)
Theorem mpz_out_str_writes `{Stdio} F s σ stream base u x :
  zok F s (vals σ) → σ !! u = Some x → -36 ≤ base ≤ 36 →
  ∃ ds s', mpz_out_str stream base u s = Ok (fwrite (text_of (base <? 0) x ds) stream, s') ∧ numeral (get_base base) (Z.abs x) ds ∧ zok F s' (vals σ).
Proof.
  intros Hok Hu%vals_lookup Hb.
  destruct (wp_Ok_inv (mpz_out_str stream base u) (λ a s', ∃ ds, a = fwrite (text_of (base <? 0) x ds) stream ∧ numeral (get_base base) (Z.abs x) ds ∧ zok F s' (vals σ)) s)
    as (a & s' & E1 & ds & -> & Hn & Hok').
  { eapply wp_mpz_out_str; try done. intros ds s' Hok' Hn. by exists ds. }
  by exists ds, s'.
Qed.

(** A file that is a list of bytes *)
Definition list_stdio : Stdio := {| FILE := list Z; fwrite l f := (Z.of_nat (length l), f ++ l) |}.

Lemma mpz_out_str_writes_witness : ∃ s ds s', @mpz_out_str list_stdio [] (-16) 1 s = Ok (@fwrite list_stdio (text_of true (-255) ds) [], s') ∧ digits_val 16 ds = 255.
Proof.
  destruct (demo_state (-255) 7) as [s Hs]; [done|done|]. exists s.
  destruct (@mpz_out_str_writes list_stdio mem0 s (demo_store (-255) 7) [] (-16) 1 (-255)) as (ds & s' & H1 & (_ & _ & H2 & _) & _); try done.
  exists ds, s'. split; [exact H1|exact H2].
Defined.
