(* ===== verification/MpzDoubleThm.v ===== *)
(** * Integers and doubles: correctness *)

From Stdlib Require Import SpecFloat.
From S2P Require Import Prelude CString Queue State UInt64 Mpn MpnMem MpnThm MpnBits MpnDiv MpnInv MpnDivThm MpnDivPi1 MpnCorrect MpnDivQr MpnStr MpnStrThm MpnSetStr Mpz MpzRep MpzArith MpzMul MpzDiv MpzConv MpzStr MpzCorrect Double MpzDouble.

Lemma limb_base_pow2 : limb_base = pow2 64.
Proof. vm_compute. reflexivity. Qed.
Lemma limb_base_inv_pow2 : limb_base_inv = pow2 (-64).
Proof. vm_compute. reflexivity. Qed.

Lemma d_one_nonneg : nonneg d_one scale.
Proof. exact (pow2_nonneg 0 ltac:(lia)). Qed.
Lemma d_zero_nonneg : nonneg d_zero 0.
Proof. done. Qed.
Lemma limb_base_nonneg : nonneg limb_base (WB * scale).
Proof. rewrite limb_base_pow2. pose proof (pow2_nonneg 64 ltac:(lia)) as H. rewrite Z.pow_add_r in H by lia. exact H. Qed.

(** ** Steps of the loops *)

(** [x * Bi] and [B * x] *)
Lemma dmul_down x T : nonneg x (T * WB) → fits T → nonneg (dmul x limb_base_inv) T.
Proof. intros Hx Hf. rewrite limb_base_inv_pow2. eapply (dmul_pow2 (-64) x (T * WB) T 64); try done; try lia. change (2 ^ (-64 + 64)) with 1. change (2 ^ 64) with WB. lia. Qed.

Lemma dmul_up x T : nonneg x T → T < scale → nonneg (dmul limb_base x) (T * WB).
Proof.
  intros Hx HT. rewrite limb_base_pow2. eapply (dmul_pow2 64 x T (T * WB) 0); try done; try lia; [by change (2 ^ (64 + 0)) with WB; rewrite Z.mul_1_r|].
  apply (fits_mul T 64); [done|by eapply nonneg_fits|]. replace (2 ^ 2098) with (2 ^ 1024 * scale) by (unfold scale; by rewrite <- Z.pow_add_r by lia).
  pose proof scale_pos. assert (2 ^ 64 ≤ 2 ^ 1024) by (apply Z.pow_le_mono_r; lia). nia.
Qed.

(** [(mp_limb_t) x] and what is left of [x] *)
Lemma take_fraction x T : nonneg x T → T < WB * scale →
  limb_of x = Ok (T / scale) ∧ word (T / scale) ∧ nonneg (dsub x (double_of (T / scale))) (T mod scale) ∧ T mod scale < scale.
Proof.
  intros Hx HT. pose proof scale_pos as Hs. pose proof (nonneg_fits x T Hx) as Hf. pose proof (nonneg_ge x T Hx) as H0.
  pose proof (Z.div_mod T scale ltac:(lia)) as Hd. pose proof (Z.mod_pos_bound T scale ltac:(lia)) as Hm.
  assert (0 ≤ T / scale) as Hq by (apply Z.div_pos; lia). split; [by apply limb_of_nonneg|]. split; [split; [done|apply Z.div_lt_upper_bound; lia]|]. split; [|lia].
  replace (T mod scale) with (T - T / scale * scale) by lia. apply dsub_exact; [done| |lia|].
  - apply double_of_nonneg; [done|]. by apply (fits_floor T 1074).
  - replace (T - T / scale * scale) with (T mod scale) by lia. by apply (fits_mod T 1074).
Qed.

(** ** Doubles to integers *)

Lemma scale_down_ok fuel : ∀ x T rn, nonneg x T → scale ≤ T → T < WB * scale * wpow fuel →
  ∃ x' T' j, scale_down fuel x rn = Ok (x', rn + Z.of_nat j) ∧ (j ≤ fuel)%nat ∧ nonneg x' T' ∧ scale ≤ T' < WB * scale ∧ T = T' * wpow j.
Proof.
  induction fuel as [|fuel IH]; intros x T rn Hx Hlow HT.
  - exists x, T, 0%nat. cbn [scale_down]. rewrite (leb_nonneg _ _ x T limb_base_nonneg Hx). rewrite wpow_0 in *. rewrite (proj2 (Z.leb_gt _ T)) by lia. split_and!; try done; try lia. f_equal. f_equal. lia.
  - cbn [scale_down]. rewrite (leb_nonneg _ _ x T limb_base_nonneg Hx). destruct (Z.leb_spec (WB * scale) T) as [Hge|Hlt].
    + pose proof scale_pos. destruct (fits_div T 64) as (T1 & -> & Hf1); [lia|by eapply nonneg_fits| |].
      { etransitivity; [|exact Hge]. unfold scale, WB. change 18446744073709551616 with (2 ^ 64). rewrite <- Z.pow_add_r by lia. apply Z.pow_le_mono_r; lia. }
      change (2 ^ 64) with WB in *. destruct (IH (dmul x limb_base_inv) T1 (rn + 1)) as (x' & T' & j & -> & Hj & Hx' & HT' & ->); [by apply dmul_down|unfold WB in *; lia|rewrite wpow_S in HT; unfold WB in *; lia|].
      exists x', T', (S j). split_and!; try done; try lia; [f_equal; f_equal; lia|]. rewrite wpow_S. lia.
    + exists x, T, 0%nat. rewrite wpow_0. split_and!; try done; try lia. f_equal. f_equal. lia.
Qed.

Lemma wp_take_limb rp i x T m Q E : nonneg x T → T < WB * scale → is_Some (cell m (padd rp i)) →
  (∀ x' m', nonneg x' (T mod scale) → T mod scale < scale → word (T / scale) → writes m (padd rp i) [T / scale] m' → Q x' m') → wp (take_limb rp i x) Q E m.
Proof.
  intros Hx HT Hc HQ. destruct (take_fraction x T Hx HT) as (Hl & Hw & Hx' & Hlt). unfold take_limb. apply wp_bind. eapply wp_lift_ok; [exact Hl|]. cbv zeta.
  apply wp_bind, wp_massert; [rewrite (ltb_nonneg _ _ _ _ Hx' d_one_nonneg); by apply Z.ltb_lt|]. apply wp_bind, wp_store_writes; [done|]. intros m' Hm'. apply wp_ret. by apply HQ.
Qed.

Lemma wp_take_limbs rp n : ∀ x T m Q E, nonneg x T → T < scale → space m rp n →
  (∀ l m', length l = n → words l → val l = T * wpow n / scale → writes m rp l m' → Q tt m') → wp (take_limbs n rp x) Q E m.
Proof.
  induction n as [|n IH]; intros x T m Q E Hx HT Hs HQ; cbn [take_limbs].
  - apply wp_ret, (HQ []); try done. rewrite wpow_0, Z.mul_1_r, Z.div_small; [done|]. split; [by eapply nonneg_ge|done].
  - pose proof scale_pos. apply wp_bind. apply (wp_take_limb rp (Z.of_nat n) _ (T * WB)); [by apply dmul_up|unfold WB; lia|apply Hs; lia|].
    intros x' m1 Hx' Hlt Hw Hm1. set (T' := T * WB mod scale) in *. eapply (IH x' T'); try done.
    + eapply writes_space; [exact Hm1|]. intros i Hi. apply Hs. lia.
    + intros l m2 Hl Hwl Hv Hm2. apply (HQ (l ++ [T * WB / scale])); [rewrite length_app; cbn; lia|apply Forall_app; auto| |eapply writes_app_down; [by rewrite Hl|done]].
      rewrite val_app, Hv, Hl, wpow_S. cbn [val]. pose proof (Z.div_mod (T * WB) scale ltac:(lia)) as Hd. fold T' in Hd.
      replace (T * (WB * wpow n)) with (T' * wpow n + T * WB / scale * wpow n * scale); [rewrite Z.div_add by lia; lia|]. nia.
Qed.

(** Half of a number that is at least 1 is another number. *)
Lemma half_differs s m e : bounded 53 1024 m e = true → scale ≤ Zpos m * 2 ^ (e + 1074) → SFeqb (S754_finite s m e) (dmul (S754_finite s m e) d_half) = false.
Proof.
  intros Hb HT. pose proof (bounded_mantissa _ _ Hb) as (_ & He & _). assert (fits (Zpos m * 2 ^ (e + 1074))) as Hf by (by apply (nonneg_fits (S754_finite false m e))).
  destruct (fits_div _ 1 ltac:(lia) Hf) as (T' & HT' & Hf'); [etransitivity; [|exact HT]; apply Z.pow_le_mono_r; lia|].
  unfold dmul, d_half, pow2. cbn [SFmul]. rewrite xorb_false_r. destruct (mul_round_exact s (m * 4503599627370496) (e + (-1 - 52)) T' (53 + 1074)) as (m' & e' & Hb' & HT2 & ->); try lia; [| done|].
  { rewrite Pos2Z.inj_mul. change 4503599627370496 with (2 ^ 52). rewrite <- Z.mul_assoc, <- Z.pow_add_r by lia. replace (52 + _) with (e + 1074 + (52 + 1074)) by lia.
    rewrite Z.pow_add_r, Z.mul_assoc, HT' by lia. rewrite <- Z.mul_assoc, <- Z.pow_add_r by lia. do 2 f_equal. }
  unfold SFeqb, SFcompare. pose proof (Z.pow_pos_nonneg 2 (e + 1074) ltac:(lia) ltac:(lia)).
  assert (e = e' → m = m' → False) as Hne by (intros <- <-; rewrite <- HT2 in HT'; lia).
  destruct s; destruct (Z.compare_spec e e') as [Ee|Ee|Ee]; try done; rewrite Pos.compare_cont_spec; destruct (Pos.compare_spec m m') as [Em|Em|Em]; try done; by destruct (Hne Ee Em).
Qed.

(** The integer part *)
Definition truncated (x : double) : Z := Z.quot (scaled x) scale.

Lemma truncated_small x : Z.abs (scaled x) < scale → truncated x = 0.
Proof. intros Hx. unfold truncated. apply Z.quot_small_iff; pose proof scale_pos; lia. Qed.

Section doubles.
Context (F : mem).
Implicit Types (s : zstate) (σ : gmap positive (option Z)).

(** From 1 on *)
Lemma wp_set_d_large s σ r w x T (sign : bool) Q E :
  zok F s σ → σ !! r = Some (Some w) → nonneg x T → scale ≤ T →
  (∀ s', zok F s' (<[r := Some (if sign then - (T / scale) else T / scale)]> σ) → Q tt s') →
  wp ('(x, rn) ← lift (scale_down 16 x 1);
      rp ← MPZ_REALLOC r rn;
      x ← limbs (take_limb rp (rn - 1) x);
      _ ← limbs (take_limbs (Z.to_nat (rn - 1)) rp x);
      set_size r (if sign then - rn else rn)) Q E s.
Proof.
  intros Hok Hr Hx HT HQ. pose proof scale_pos as Hsc. destruct (scale_down_ok 16 x T 1) as (x' & T' & j & -> & Hj & Hx' & [Hlo Hhi] & HTj); try done.
  { pose proof (nonneg_fits x T Hx) as [[_ Hf] _]. eapply Z.lt_le_trans; [exact Hf|]. unfold wpow, WB, scale. change 18446744073709551616 with (2 ^ 64). rewrite <- Z.pow_mul_r, <- !Z.pow_add_r by lia. apply Z.pow_le_mono_r; lia. }
  apply wp_bind. eapply wp_lift_ok; [done|]. cbv beta iota. apply wp_bind. eapply wp_realloc_target; try done; [unfold INT_MAX; lia|]. intros z s1 Hz Ha Hz0 Hsp Hk Hok1.
  replace (1 + Z.of_nat j - 1) with (Z.of_nat j) by lia. rewrite Nat2Z.id. apply wp_bind, wp_zoom. eapply wp_take_limb; try done; [apply Hsp; lia|].
  intros x1 m1 Hx1 Hlt Hw Hm1. apply wp_bind, wp_zoom. cbn [z_mem set_zmem]. eapply wp_take_limbs; try done; [eapply writes_space; [exact Hm1|]; eapply space_sub; [done|lia]|].
  intros l m2 Hl Hwl Hv Hm2. change (set_zmem m2 (set_zmem m1 s1)) with (set_zmem m2 s1).
  pose proof (writes_app_down (z_mem s1) (mp_d z) l [T' / scale] m1 m2 ltac:(by rewrite Hl) Hm2) as [Hh Hc].
  assert (T' / scale ≠ 0) as Hne by (assert (1 ≤ T' / scale) by (apply Z.div_le_lower_bound; lia); lia).
  assert (val (l ++ [T' / scale]) = T / scale) as Hval.
  { rewrite val_app, Hv, Hl, HTj. cbn [val]. pose proof (Z.div_mod T' scale ltac:(lia)) as Hd.
    replace (T' * wpow j) with (T' mod scale * wpow j + T' / scale * wpow j * scale) by nia. rewrite Z.div_add by lia. lia. }
  assert (Z.of_nat (length (l ++ [T' / scale])) = 1 + Z.of_nat j) as Hlen by (rewrite length_app; cbn; lia).
  eapply (wp_set_size_written F s _ σ r (l ++ [T' / scale]) _ (if sign then - (T / scale) else T / scale)); [|destruct sign; lia| |done].
  - eapply (zok_written F s s1 σ r z); try done; [lia|eapply changed_mono; [exact Hc|]; intros q [Hq1 Hq2]; split; [done|lia]|apply Forall_app; auto|].
    intros y. rewrite last_snoc. by intros [= <-].
  - rewrite Hval. destruct sign; rewrite ?Z.sgn_opp, Z.sgn_pos by lia; lia.
Qed.

Lemma wp_mpz_set_d s σ r w x Q E :
  zok F s σ → σ !! r = Some (Some w) → valid x → (∀ s', zok F s' (<[r := Some (truncated x)]> σ) → Q tt s') → wp (mpz_set_d r x) Q E s.
Proof.
  intros Hok Hr Hx HQ. assert (∀ Q', (∀ s', zok F s' (<[r := Some 0]> σ) → Q' tt s') → wp (set_size r 0) Q' E s) as H0 by (intros Q' HQ'; by eapply wp_set_size_0).
  unfold mpz_set_d. destruct x as [[]|[]| |sg m e]; [by apply H0, HQ..|].
  unfold valid in Hx. cbn in Hx. pose proof (bounded_mantissa _ _ Hx) as (_ & He & _). set (T := Zpos m * 2 ^ (e + 1074)).
  assert (SFltb (S754_finite sg m e) d_zero = sg) as -> by (by destruct sg). cbv zeta.
  assert ((if sg then SFopp (S754_finite sg m e) else S754_finite sg m e) = S754_finite false m e) as -> by (by destruct sg).
  assert (nonneg (S754_finite false m e) T) as Hn by done. rewrite (ltb_nonneg _ _ _ _ Hn d_one_nonneg).
  assert (0 < T) as HT0 by (by eapply finite_pos). destruct (Z.ltb_spec T scale) as [Hlt|Hge].
  - assert (∀ b : bool, (if b then set_size r 0 else set_size r 0) = set_size r 0) as Hif by (by intros []). rewrite Hif. apply H0. intros s' Hok'. apply HQ.
    rewrite truncated_small; [done|]. cbn. destruct sg; cbn; fold T; lia.
  - rewrite half_differs by done. assert (SFeqb (S754_finite sg m e) (S754_finite sg m e) = true) as ->.
    { unfold SFeqb, SFcompare. rewrite Z.compare_refl, Pos.compare_cont_spec, Pos.compare_refl. by destruct sg. }
    cbn [negb orb]. eapply wp_set_d_large; try done. intros s' Hok'. apply HQ. replace (truncated _) with (if sg then - (T / scale) else T / scale); [done|].
    unfold truncated. cbn [scaled]. fold T. pose proof scale_pos. destruct sg; cbn [id]; rewrite ?Z.quot_opp_l, Z.quot_div_nonneg by lia; done.
Qed.

(** ** Integers to doubles *)

Lemma fits_unscale T j : 0 ≤ T → 0 ≤ j → fits (T * 2 ^ j) → fits T.
Proof.
  intros HT Hj [Hb (m & k & Hm & Hk & He)]. pose proof (Z.pow_pos_nonneg 2 j ltac:(lia) Hj). split; [nia|]. destruct (Z.le_gt_cases j k) as [Hle|Hgt].
  - exists m, (k - j). split_and!; try lia. replace k with (k - j + j) in He by lia. rewrite Z.pow_add_r, Z.mul_assoc in He by lia. nia.
  - exists T, 0. split_and!; try lia. replace j with (j - k + k) in He by lia. rewrite Z.pow_add_r in He by lia. pose proof (Z.pow_pos_nonneg 2 k ltac:(lia) Hk). pose proof (Z.pow_pos_nonneg 2 (j - k) ltac:(lia) ltac:(lia)).
    assert (T * 2 ^ (j - k) = m) by nia. nia.
Qed.

Lemma fits_prefix V n : 0 ≤ V → fits (V * scale) → fits (V / wpow n * scale).
Proof.
  intros HV Hf. pose proof (wpow_pos n). pose proof scale_pos. assert (wpow n = 2 ^ (64 * Z.of_nat n)) as Hw by (unfold wpow; change WB with (2 ^ 64); by rewrite <- Z.pow_mul_r by lia).
  apply (fits_unscale _ (64 * Z.of_nat n)); [apply Z.mul_nonneg_nonneg; [apply Z.div_pos|]; lia|lia|]. rewrite <- Hw.
  apply (fits_floor _ (1074 + 64 * Z.of_nat n)) in Hf; [|lia]. rewrite Z.pow_add_r, <- Hw in Hf by lia. fold scale in Hf.
  rewrite (Z.mul_comm scale (wpow n)), Z.div_mul_cancel_r in Hf by lia. by rewrite <- Z.mul_assoc, (Z.mul_comm scale).
Qed.

Lemma wp_get_d_limbs p lo : ∀ x P m Q E, words lo → 0 ≤ P → nonneg x (P * scale) → holds m p lo → fits ((val lo + wpow (length lo) * P) * scale) →
  (∀ x', nonneg x' ((val lo + wpow (length lo) * P) * scale) → Q x' m) → wp (add_limbs (length lo) p x) Q E m.
Proof.
  induction lo as [|l lo IH] using rev_ind; intros x P m Q E Hw HP Hx Hh Hf HQ.
  - apply wp_ret, HQ. cbn. rewrite wpow_0. by rewrite Z.mul_1_l.
  - rewrite length_app, Nat.add_1_r in *. cbn [add_limbs]. pose proof Hw as [Hwl [Hwx _]%Forall_cons]%Forall_app. pose proof Hh as [Hhl [Hhx _]%holds_cons]%holds_app.
    apply wp_bind. eapply wp_load; [done|]. rewrite val_app, wpow_S in Hf, HQ. cbn [val] in Hf, HQ. pose proof (val_bound lo Hwl) as Hvb. pose proof (wpow_pos (length lo)) as Hwp. pose proof scale_pos as Hs.
    replace (val lo + wpow (length lo) * (l + WB * 0) + WB * wpow (length lo) * P) with (val lo + wpow (length lo) * (WB * P + l)) in * by lia. unfold word in Hwx.
    assert (fits ((WB * P + l) * scale)) as Hf1.
    { assert (0 ≤ WB * P + l) by (unfold WB; lia). apply (fits_prefix _ (length lo)) in Hf; [|nia]. replace ((val lo + wpow (length lo) * (WB * P + l)) / wpow (length lo)) with (WB * P + l) in Hf; [done|]. apply (Z.div_unique _ _ _ (val lo)); lia. }
    assert (fits (l * scale)) as Hfl.
    { apply (fits_mod _ (64 + 1074)) in Hf1; [|lia]. rewrite Z.pow_add_r in Hf1 by lia. fold scale in Hf1. change (2 ^ 64) with WB in Hf1.
      rewrite Z.mul_mod_distr_r, Z.add_comm, (Z.mul_comm WB), Z.mod_add, Z.mod_small in Hf1 by (unfold WB in *; lia). done. }
    assert (fits (P * scale * WB)) as Hfp.
    { apply (fits_mul _ 64); [lia|by eapply nonneg_fits|]. destruct Hf1 as [[_ Hlt] _]. change (2 ^ 64) with WB. unfold WB in *. nia. }
    apply (IH _ (WB * P + l) m Q E Hwl); [unfold WB; lia| |exact Hhl|exact Hf|exact HQ]. replace ((WB * P + l) * scale) with (P * scale * WB + l * scale) by lia. apply dadd_exact; [|by apply double_of_nonneg; [lia|]|].
    + rewrite limb_base_pow2. eapply (dmul_pow2 64 x (P * scale) _ 0); try done; try lia. change (2 ^ (64 + 0)) with WB. lia.
    + by replace (P * scale * WB + l * scale) with ((WB * P + l) * scale) by lia.
Qed.

(** A number that a double can represent is converted exactly. *)
Lemma wp_mpz_get_d s σ u x Q E :
  zok F s σ → σ !! u = Some (Some x) → fits (Z.abs x * scale) → (∀ d, valid d → scaled d = x * scale → (x = 0 → d = d_zero) → Q d s) → wp (mpz_get_d u) Q E s.
Proof.
  intros Hok Hu Hf HQ. destruct (zok_operand F s σ u x Hok Hu) as (z & l & Hz & Hw & Hn & Hh & Hv & Hl & Hsz & Hal & _).
  unfold mpz_get_d. apply wp_bind. eapply wp_get_mpz; [done|]. cbv zeta. rewrite Hsz, size_abs, size_neg.
  destruct (Z.eq_dec x 0) as [->|Hx]; [by apply wp_ret, HQ|]. pose proof (nlimbs_pos x Hx). rewrite (proj2 (Z.eqb_neq _ 0)) by lia.
  destruct l as [|top lo _] using rev_ind; [cbn in Hl; lia|]. rewrite length_app in Hl. cbn [length] in Hl. pose proof Hw as [Hwl [Hwt _]%Forall_cons]%Forall_app.
  pose proof Hh as [Hhl [Hht _]%holds_cons]%holds_app. replace (nlimbs x - 1) with (Z.of_nat (length lo)) by lia. rewrite Nat2Z.id.
  apply wp_bind, wp_zoom. eapply wp_load; [done|]. rewrite zmem_id. rewrite val_app in Hv. cbn [val] in Hv. rewrite Z.mul_0_r, Z.add_0_r in Hv.
  apply wp_bind, wp_zoom. rewrite <- Hv in Hf. pose proof (val_bound lo Hwl) as Hvb. pose proof (wpow_pos (length lo)). unfold word in Hwt.
  eapply (wp_get_d_limbs (mp_d z) lo _ top); try done; [lia| |].
  - apply double_of_nonneg; [lia|]. apply (fits_prefix _ (length lo)) in Hf; [|nia]. by replace ((val lo + wpow (length lo) * top) / wpow (length lo)) with top in Hf by (apply (Z.div_unique _ _ _ (val lo)); lia).
  - intros d Hd. rewrite zmem_id. apply wp_ret. apply nonneg_scaled in Hd as [Hds Hdv]. rewrite Hv in Hds. destruct (Z.ltb_spec x 0) as [Hneg|Hpos]; apply HQ; try done.
    + by destruct d.
    + destruct d as [| | |sg m e]; cbn in *; try lia. destruct sg; cbn in *; lia.
    + rewrite Hds. by rewrite Z.abs_eq.
Qed.

(** ** Comparison *)

(** Scaling down is exact, or the number was and is small. *)
Lemma scale_by_ok n : ∀ d T, nonneg d T → ∃ T', nonneg (scale_by n d) T' ∧ (T = T' * wpow n ∨ (T' < scale ∧ T < scale * wpow n)).
Proof.
  assert (2 ^ 117 < scale) as Hsc by (apply Z.pow_lt_mono_r; lia). assert (∀ k, scale ≤ scale * wpow k) as Hge by (intros k; pose proof (wpow_pos k); nia).
  induction n as [|n IH]; intros d T Hd; cbn [scale_by].
  - exists T. split; [done|]. left. rewrite wpow_0. lia.
  - destruct (Z.le_gt_cases (2 ^ 117) T) as [Hbig|Hsmall].
    + destruct (fits_div T 64) as (T1 & -> & Hf1); [lia|by eapply nonneg_fits|done|]. change (2 ^ 64) with WB in *.
      destruct (IH (dmul d limb_base_inv) T1) as (T' & HT' & Hor); [by apply dmul_down|]. exists T'. split; [done|]. rewrite wpow_S. destruct Hor as [-> |[H1 H2]]; [left; lia|right; split; [done|unfold WB; lia]].
    + rewrite limb_base_inv_pow2. destruct (dmul_tiny d T Hd Hsmall) as (T1 & Hd1 & HT1). rewrite <- limb_base_inv_pow2 in *. destruct (IH _ T1 Hd1) as (T' & HT' & Hor). exists T'. split; [done|]. right.
      specialize (Hge (S n)). split; [|lia]. destruct Hor as [->|[? _]]; [|done]. pose proof (wpow_pos n). pose proof (nonneg_ge _ _ HT'). assert (2 ^ 53 < 2 ^ 117) by done. nia.
Qed.

Lemma GMP_CMP_gt a b : b < a → GMP_CMP a b = 1.
Proof. intros H. unfold GMP_CMP. by rewrite (proj2 (Z.ltb_lt b a)), (proj2 (Z.ltb_ge a b)) by lia. Qed.
Lemma GMP_CMP_lt a b : a < b → GMP_CMP a b = -1.
Proof. intros H. unfold GMP_CMP. by rewrite (proj2 (Z.ltb_ge b a)), (proj2 (Z.ltb_lt a b)) by lia. Qed.
Lemma GMP_CMP_diff a b c d : a - b = c - d → GMP_CMP a b = GMP_CMP c d.
Proof. intros H. unfold GMP_CMP. destruct (Z.ltb_spec b a), (Z.ltb_spec a b), (Z.ltb_spec d c), (Z.ltb_spec c d); done || lia. Qed.
Lemma GMP_CMP_mul a b k : 0 < k → GMP_CMP (a * k) (b * k) = GMP_CMP a b.
Proof. intros Hk. unfold GMP_CMP. destruct (Z.ltb_spec (b * k) (a * k)), (Z.ltb_spec (a * k) (b * k)), (Z.ltb_spec b a), (Z.ltb_spec a b); done || nia. Qed.
Lemma GMP_CMP_opp a b : GMP_CMP (- a) (- b) = - GMP_CMP a b.
Proof. unfold GMP_CMP. destruct (Z.ltb_spec (- b) (- a)), (Z.ltb_spec (- a) (- b)), (Z.ltb_spec b a), (Z.ltb_spec a b); done || lia. Qed.

Lemma wp_cmpabs_limbs p l : ∀ d T m Q E, words l → holds m p l → nonneg d T → T < WB * scale →
  Q (GMP_CMP (val l * (scale * WB)) (T * wpow (length l))) m → wp (cmpabs_limbs (length l) p d) Q E m.
Proof.
  pose proof scale_pos as Hs. induction l as [|xl l IH] using rev_ind; intros d T m Q E Hw Hh Hd HT HQ.
  - apply wp_ret. rewrite (ltb_nonneg _ _ _ _ d_zero_nonneg Hd). pose proof (nonneg_ge _ _ Hd). cbn [val length] in HQ. rewrite wpow_0 in HQ. rewrite Z.mul_0_l, Z.mul_1_r in HQ.
    unfold GMP_CMP in HQ. by rewrite (proj2 (Z.ltb_ge T 0)) in HQ by done.
  - rewrite length_app, Nat.add_1_r in *. cbn [cmpabs_limbs]. pose proof Hw as [Hwl [Hwx _]%Forall_cons]%Forall_app. pose proof Hh as [Hhl [Hhx _]%holds_cons]%holds_app.
    destruct (take_fraction d T Hd HT) as (Hf & Hwf & Hd' & Hlt). set (f := T / scale) in *. pose proof (Z.div_mod T scale ltac:(lia)) as Hdm. fold f in Hdm. pose proof (Z.mod_pos_bound T scale Hs) as Hmb.
    apply wp_bind. eapply wp_lift_ok; [exact Hf|]. apply wp_bind. eapply wp_load; [done|]. pose proof (val_bound l Hwl) as Hvb. pose proof (wpow_pos (length l)) as Hwp.
    rewrite val_app, wpow_S in HQ. cbn [val] in HQ. rewrite Z.mul_0_r, Z.add_0_r in HQ. unfold word in *.
    replace ((val l + wpow (length l) * xl) * (scale * WB)) with ((val l + wpow (length l) * xl) * scale * WB) in HQ by lia.
    replace (T * (WB * wpow (length l))) with (T * wpow (length l) * WB) in HQ by lia. rewrite GMP_CMP_mul in HQ by done.
    destruct (Z.ltb_spec f xl) as [H1|H1]; [|destruct (Z.ltb_spec xl f) as [H2|H2]].
    + apply wp_ret. rewrite GMP_CMP_gt in HQ; [done|]. assert (T < xl * scale) by nia. nia.
    + apply wp_ret. rewrite GMP_CMP_lt in HQ; [done|]. assert ((xl + 1) * scale ≤ T) by nia. nia.
    + assert (xl = f) as -> by lia. apply (IH _ (T mod scale * WB) m Q E Hwl Hhl); [by apply dmul_up|unfold WB; lia|].
      replace (val l * (scale * WB)) with (val l * scale * WB) by lia. replace (T mod scale * WB * wpow (length l)) with (T mod scale * wpow (length l) * WB) by lia. rewrite GMP_CMP_mul by done.
      erewrite GMP_CMP_diff; [exact HQ|]. nia.
Qed.

Definition is_finite (x : double) : bool := match x with S754_zero _ | S754_finite _ _ _ => true | _ => false end.

(** [GMP_ABS (d)] *)
Lemma abs_nonneg d : valid d → is_finite d → nonneg (if SFleb d_zero d then d else SFopp d) (Z.abs (scaled d)).
Proof.
  intros Hd Hf. destruct d as [[]| | |sg m e]; try done. unfold valid in Hd. cbn in Hd. pose proof (finite_pos m e _ Hd eq_refl) as Hp.
  destruct sg; cbn; split; try done; cbn; lia.
Qed.

Lemma scale_by_infinity n b : scale_by n (S754_infinity b) = S754_infinity b.
Proof. induction n as [|n IH]; [done|]. cbn [scale_by]. rewrite limb_base_inv_pow2. cbn. by rewrite xorb_false_r. Qed.

Lemma wp_cmpabs_finite s σ u x d T Q E :
  zok F s σ → σ !! u = Some (Some x) → x ≠ 0 → nonneg d T → Q (GMP_CMP (Z.abs x * scale) T) s →
  ∀ z, z_vars s !! u = Some z →
  wp (if SFleb limb_base (scale_by (Z.to_nat (nlimbs x - 1)) d) then mret (-1)
      else limbs (cmpabs_limbs (Z.to_nat (nlimbs x)) (mp_d z) (scale_by (Z.to_nat (nlimbs x - 1)) d))) Q E s.
Proof.
  intros Hok Hu Hx Hd HQ z Hz. destruct (zok_operand F s σ u x Hok Hu) as (z' & l & Hz' & Hw & Hn & Hh & Hv & Hl & Hsz & Hal & _). rewrite Hz in Hz'. injection Hz' as <-.
  pose proof scale_pos as Hs. pose proof (nlimbs_pos x Hx) as Hnl. set (n := Z.to_nat (nlimbs x - 1)). assert (length l = S n) as Hln by lia. assert (l ≠ []) as Hne by (by intros ->).
  pose proof (normal_bound l Hw Hn Hne) as Hlow. replace (length l - 1)%nat with n in Hlow by lia. pose proof (val_bound l Hw) as Hup. rewrite Hln, wpow_S in Hup. pose proof (wpow_pos n) as Hwp.
  destruct (scale_by_ok n d T Hd) as (T' & Hd' & Hor). rewrite (leb_nonneg _ _ _ _ limb_base_nonneg Hd'). pose proof (nonneg_ge _ _ Hd') as HT0. destruct (Z.leb_spec (WB * scale) T') as [Hge|Hlt].
  - apply wp_ret. destruct Hor as [->|[? _]]; [|unfold WB in *; lia]. rewrite GMP_CMP_lt in HQ; [done|]. rewrite <- Hv. nia.
  - apply wp_zoom. replace (Z.to_nat (nlimbs x)) with (length l) by lia. eapply (wp_cmpabs_limbs (mp_d z) l _ T'); try done. rewrite zmem_id, Hln, wpow_S.
    replace (val l * (scale * WB)) with (val l * scale * WB) by lia. replace (T' * (WB * wpow n)) with (T' * wpow n * WB) by lia. rewrite GMP_CMP_mul, Hv by done.
    destruct Hor as [<-|[H1 H2]]; [done|]. rewrite GMP_CMP_gt by (rewrite <- Hv; nia). rewrite GMP_CMP_gt in HQ by (rewrite <- Hv; nia). done.
Qed.

Lemma wp_mpz_cmpabs_d s σ u x d Q E :
  zok F s σ → σ !! u = Some (Some x) → valid d → d ≠ S754_nan →
  Q (if is_finite d then GMP_CMP (Z.abs x * scale) (Z.abs (scaled d)) else -1) s → wp (mpz_cmpabs_d u d) Q E s.
Proof.
  intros Hok Hu Hd Hnan HQ. destruct (zok_operand F s σ u x Hok Hu) as (z & l & Hz & _ & _ & _ & _ & _ & Hsz & _). pose proof (nlimbs_nonneg x) as Hnl.
  unfold mpz_cmpabs_d. apply wp_bind. eapply wp_get_mpz; [done|]. cbv zeta. rewrite Hsz, size_abs.
  destruct (is_finite d) eqn:Hf.
  - pose proof (abs_nonneg d Hd ltac:(by rewrite Hf)) as Ha. set (d' := if SFleb d_zero d then d else SFopp d) in *. clearbody d'.
    destruct (Z.eq_dec x 0) as [->|Hx].
    + cbn [Z.eqb negb Z.sgn Z.mul]. apply wp_ret. rewrite (ltb_nonneg _ _ _ _ d_zero_nonneg Ha). cbn [Z.abs Z.mul] in HQ. unfold GMP_CMP in HQ. by rewrite (proj2 (Z.ltb_ge _ 0)) in HQ by lia.
    + pose proof (nlimbs_pos x Hx). rewrite (proj2 (Z.eqb_neq _ 0)) by lia. cbn [negb]. by eapply wp_cmpabs_finite.
  - destruct d as [|b| |]; try done. assert ((if SFleb d_zero (S754_infinity b) then S754_infinity b else SFopp (S754_infinity b)) = S754_infinity false) as -> by (by destruct b).
    rewrite scale_by_infinity, limb_base_pow2. by destruct (Z.sgn x * nlimbs x =? 0).
Qed.

Lemma wp_mpz_cmp_d s σ u x d Q E :
  zok F s σ → σ !! u = Some (Some x) → valid d → d ≠ S754_nan →
  Q (match d with S754_infinity b => if b then 1 else -1 | _ => GMP_CMP (x * scale) (scaled d) end) s → wp (mpz_cmp_d u d) Q E s.
Proof.
  intros Hok Hu Hd Hnan HQ. destruct (zok_operand F s σ u x Hok Hu) as (z & l & Hz & _ & _ & _ & _ & _ & Hsz & _). pose proof scale_pos as Hs.
  unfold mpz_cmp_d. apply wp_bind. eapply wp_get_mpz; [done|]. rewrite Hsz, size_neg.
  assert (∀ c, (if is_finite d then GMP_CMP (Z.abs x * scale) (Z.abs (scaled d)) else -1) = c → ∀ Q', Q' c s → wp (mpz_cmpabs_d u d) Q' E s) as Habs.
  { intros c <- Q' HQ'. by eapply wp_mpz_cmpabs_d. }
  assert (is_finite d → 0 ≤ scaled d ∧ SFleb d_zero d = true ∧ SFltb d d_zero = false ∨ scaled d < 0 ∧ SFleb d_zero d = false ∧ SFltb d d_zero = true) as Hsign.
  { intros Hf. destruct d as [[]| | |sg m e]; try done; [by left..|]. unfold valid in Hd. cbn in Hd. pose proof (finite_pos m e _ Hd eq_refl). destruct sg; [right|left]; cbn; split_and!; done || lia. }
  destruct (is_finite d) eqn:Hf.
  - assert (Q (GMP_CMP (x * scale) (scaled d)) s) as HQ' by (by destruct d). clear HQ. destruct (Hsign I) as [(H1 & -> & ->)|(H1 & -> & ->)]; destruct (Z.ltb_spec x 0) as [Hx|Hx].
    + apply wp_ret. rewrite GMP_CMP_lt in HQ'; [done|nia].
    + eapply Habs; [done|]. by rewrite !Z.abs_eq by done.
    + apply wp_bind. eapply Habs; [done|]. apply wp_ret. rewrite !Z.abs_neq by lia. by rewrite Z.mul_opp_l, GMP_CMP_opp, Z.opp_involutive.
    + apply wp_ret. rewrite GMP_CMP_gt in HQ'; [done|nia].
  - destruct d as [|b| |]; try done. destruct b, (x <? 0); cbn; try (by apply wp_ret); [apply wp_bind|]; by eapply Habs.
Qed.
End doubles.

(** ** The claims *)

(** C18: [mpz_set_d] gives an integer variable the integer part of any double, of up to 1024
    bits, and 0 for infinities and NaN: no conversion is out of range, no assertion fails,
    the scaling loop ends, and no step rounds. *)
Theorem mpz_set_d_truncates F s σ r w x :
  zok F s (vals σ) → σ !! r = Some w → valid x →
  ∃ s', mpz_set_d r x s = Ok (tt, s') ∧ zok F s' (vals (<[r := truncated x]> σ)).
Proof.
  intros Hok Hr%vals_lookup Hx. destruct (wp_Ok_inv (mpz_set_d r x) (λ _ s', zok F s' (vals (<[r := truncated x]> σ))) s) as ([] & s' & E1 & Hok'); [|by exists s'].
  eapply wp_mpz_set_d; try done. intros s' Hok'. by rewrite vals_insert in Hok'.
Qed.

(** [-2.5 * 2 ^ 100] *)
Lemma mpz_set_d_truncates_witness :
  ∃ s s', mpz_set_d 1 (S754_finite true 5629499534213120 49) s = Ok (tt, s') ∧ mpz_value s' 1 = Some (-5 * 2 ^ 99).
Proof.
  destruct (demo_state 5 7) as [s Hs]; [done|done|]. exists s.
  destruct (mpz_set_d_truncates mem0 s (demo_store 5 7) 1 5 (S754_finite true 5629499534213120 49) Hs eq_refl eq_refl) as (s' & H1 & H2).
  exists s'. split; [done|]. erewrite mpz_value_ok; [|exact H2|apply lookup_insert_eq]. vm_compute. reflexivity.
Defined.

(** C17: An integer that comes from a double goes back to the same double: [mpz_get_d] after
    [mpz_set_d] is the identity on doubles without a fraction, and the integer part on the
    others. *)
Theorem mpz_double_roundtrip F s σ r w x :
  zok F s (vals σ) → σ !! r = Some w → valid x →
  ∃ s' d, mpz_set_d r x s = Ok (tt, s') ∧ mpz_get_d r s' = Ok (d, s') ∧ valid d ∧ scaled d = truncated x * scale ∧
    (scaled x ≠ 0 → (scale | scaled x) → d = x).
Proof.
  intros Hok Hr%vals_lookup Hx. pose proof scale_pos as Hs.
  destruct (wp_Ok_inv (mpz_set_d r x) (λ _ s', zok F s' (vals (<[r := truncated x]> σ))) s) as ([] & s' & E1 & Hok').
  { eapply wp_mpz_set_d; try done. intros s' Hok'. by rewrite vals_insert in Hok'. }
  assert (fits (Z.abs (truncated x) * scale)) as Hf.
  { unfold truncated. rewrite <- Z.quot_abs, (Z.abs_eq scale), Z.quot_div_nonneg by lia. apply (fits_floor _ 1074); [lia|].
    destruct x as [| | |sg m e]; try apply fits_0. unfold valid in Hx. cbn in Hx. pose proof (finite_pos m e _ Hx eq_refl) as Hp.
    apply (nonneg_fits (S754_finite false m e)). split; [done|]. destruct sg; cbn; lia. }
  destruct (wp_Ok_inv (mpz_get_d r) (λ d s2, s2 = s' ∧ valid d ∧ scaled d = truncated x * scale) s') as (d & s2 & E2 & -> & Hd & Hsd).
  { eapply wp_mpz_get_d; [exact Hok'|apply vals_lookup, lookup_insert_eq|done|]. intros d Hd Hsd _. done. }
  exists s', d. split_and!; try done. intros Hne [k Hk]. apply scaled_unique; try done; rewrite Hsd; unfold truncated; rewrite Hk, Z.quot_mul by lia; lia.
Qed.

Lemma mpz_double_roundtrip_witness : ∃ s s' d, mpz_set_d 1 (S754_finite true 5629499534213120 49) s = Ok (tt, s') ∧ mpz_get_d 1 s' = Ok (d, s') ∧ d = S754_finite true 5629499534213120 49.
Proof.
  destruct (demo_state 5 7) as [s Hs]; [done|done|]. exists s.
  destruct (mpz_double_roundtrip mem0 s (demo_store 5 7) 1 5 (S754_finite true 5629499534213120 49) Hs eq_refl eq_refl) as (s' & d & H1 & H2 & _ & _ & H3).
  exists s', d. split; [exact H1|]. split; [exact H2|]. apply H3; [done|]. exists (-5 * 2 ^ 99). vm_compute. reflexivity.
Defined.

(** C19: [mpz_cmp_d] compares an integer with a double exactly, for operands of any size: finite
    doubles by value, even where the scaling of the double underflows, and infinities above
    and below all integers. *)
Theorem mpz_cmp_d_exact F s σ u x d :
  zok F s (vals σ) → σ !! u = Some x → valid d → d ≠ S754_nan →
  mpz_cmp_d u d s = Ok (match d with S754_infinity b => if b then 1 else -1 | _ => GMP_CMP (x * scale) (scaled d) end, s).
Proof.
  intros Hok Hu%vals_lookup Hd Hnan. set (c := match d with S754_infinity b => _ | _ => _ end).
  destruct (wp_Ok_inv (mpz_cmp_d u d) (λ a s', a = c ∧ s' = s) s) as (a & s' & E1 & -> & ->); [|done]. by eapply wp_mpz_cmp_d.
Qed.

(** 3 is greater than the double below 3. *)
Lemma mpz_cmp_d_exact_witness : ∃ s, mpz_cmp_d 1 (S754_finite false 6755399441055743 (-51)) s = Ok (1, s).
Proof.
  destruct (demo_state 3 7) as [s Hs]; [done|done|]. exists s.
  rewrite (mpz_cmp_d_exact mem0 s (demo_store 3 7) 1 3 (S754_finite false 6755399441055743 (-51)) Hs eq_refl eq_refl); [|done]. do 2 f_equal.
Defined.
